(* ===== verification/_CoqProject ===== *)
-Q . S2P
Prelude.v
Varint.v
Utf8.v
Float64.v
Value.v
Str.v
Fp.v
FloatOps.v
NumberText.v
Like.v
Json.v
DbHeader.v
Record.v
JsonText.v
Aggregate.v
Program.v
Sorter.v
WalFormat.v
Vfs.v
WalIndex.v
Wal.v
Journal.v
BtreePage.v
Ptrmap.v
Pager.v
Cell.v
Balance.v
BtreeInsert.v
TableCursor.v
IndexBtree.v
Autovac.v
PagerTxn.v
IndexOrder.v
VdbeOps.v
Vdbe.v
Disk.v
Recovery.v
Atomic.v
Transaction.v
Store.v
TableCell.v
TableTree.v
TableInsert.v
TableAppend.v
TableSplit.v
TableRead.v
TableDelete.v
Tables.v
Ast.v
Schema.v
Builder.v
Linking.v
Func.v
Printf.v
Registry.v
Rounding.v
Date.v
Calls.v
Calendar.v
ExprGen.v
ExprEval.v
Steps.v
ExprCorrect.v
Rows.v
ResultTypes.v
ExprType.v
Growing.v
Select.v
Query.v
ScanCorrect.v
