(* ===== verification/Prelude.v ===== *)
(** * Rustqlite: a verification library (root file)

    Rustqlite is a port of SQLite to Rust. Below its SQL front end it is a
    storage engine: b-trees of records on the pages of a file, a pager that
    caches and journals those pages, a rollback journal and a write-ahead log
    that make transactions atomic, and a VFS that performs the I/O. Above it is
    a virtual machine with cursors, sorters, in-memory tables, accumulators and
    the SQL functions, and a code generator that turns the syntax tree of a
    statement, with the schema, into a program of that machine. This library
    models the engine, the machine, the functions, the schema, and the code
    generator for expressions and for queries of one table, as functions, and
    proves what their callers rely on; the last theorem of the chain says that
    the program of a query, run on the pages of a table, gives the rows the
    query asks for.
    Paths are relative to [src/crates/rustsqlite-core/src/].

    ** Conventions

    A fallible function returns an [outcome]: [Ok], [Err] (Rust's [Result]) or
    [Panic] (an index out of range, an overflow under the workspace's
    [overflow-checks], a failed [expect]). A method that changes state is in the
    state monad [M S A := S -> outcome A * S], so that the state at a failure is
    kept: a pager method has type [PagerM], over the pager, the process-wide
    random state and the state of the VFS; a cursor method has type [CursorM],
    over the cursor and all that. [async] is sequential: the engine awaits each
    call where it is made. [run m s ok err] says that [m] does not panic from
    [s], that its result satisfies [ok], and that the state after a failure
    satisfies [err]. Machine integers are [Z] with their range checks or
    wrap-around written out, byte buffers lists of [Z], a hash map a [gmap]; the
    order in which a map is drained is an argument ([drain]) of the definitions
    that depend on it. Loops without a structural bound take fuel, and running
    out of it is [Panic]: a theorem stated with [run] therefore shows, given the
    fuel its hypotheses name, that the code returns.

    ** Files and the parts of the program

    Shared: [Prelude] (errors of [error.rs], monads, byte and list lemmas,
    tactics), [Utf8] (UTF-8 and UTF-16 as the standard library decodes them),
    [Float64] (IEEE bit patterns compared with integers), [Str] (strings as
    UTF-8 bytes: characters, slices, boundaries), [FloatOps] (arithmetic on bit
    patterns, [str::parse]).

    File format: [Varint] ([format/varint.rs]), [DbHeader] ([format/header.rs]),
    [Record] ([format/serial_type.rs], [format/record.rs]), [WalFormat]
    ([format/wal.rs], [format/wal_index.rs]), [Journal] ([pager/journal.rs]).
    Values: [Value] ([types/], [vdbe/compare.rs]), [Fp] ([util/fp.rs] and the
    conversions that rest on it), [NumberText] (its theorems).

    SQL functions: [Like] ([func/like.rs]), [Json] ([func/json.rs]) with its
    theorems in [JsonText], [Aggregate] ([func/aggregate.rs]), [Func]
    ([func/scalar.rs], [func/string.rs], [func/math.rs], [func/soundex.rs], a
    module each), [Printf] ([func/printf.rs]), [Registry] ([func/registry.rs]:
    the dispatch by name and number of arguments, and the check the code
    generator makes), [Date] ([func/date.rs]) with its theorems in [Calendar],
    which rest on the lemmas of [Rounding] on doubles that hold integers
    exactly, and [Calls] (the check against the dispatch of the machine). The
    transcendental functions of the platform are the class [Libm]; the time of
    day is an argument.

    Virtual machine: [Program] ([vdbe/opcode.rs], [vdbe/program.rs],
    [vdbe/oe.rs]), [Sorter] ([vdbe/sorter.rs], [vdbe/ephemeral.rs]), [VdbeOps]
    (values, registers and operations of [vdbe/exec.rs]), [Vdbe] (the machine:
    one definition per arm of the dispatch, named [exec_] and the opcode, the
    loop [step], cursors of [vdbe/cursor.rs]). The functions come through the
    class [SqlFunctions], whose instance [sql_functions] is at the end of [Date].

    Syntax tree and schema: [Ast] ([ast.rs] of the parser crate), [Schema]
    ([schema/table.rs], [schema/catalog.rs], [schema/bootstrap.rs]).

    Code generation: [Builder] ([codegen/builder.rs]: registers, cursors,
    labels) with [Linking] (what resolving the labels of a program means),
    [ExprGen] ([codegen/expr.rs]), [Select] ([codegen/select.rs]: scans in
    table order and through a sorter, constant queries, VALUES). Subqueries are
    compiled in a file that is not modelled, and come through the class
    [SubqueryCodegen].

    Meaning of code: [ExprEval] gives the value of an expression in a row,
    [Steps] the steps of the machine, [ExprCorrect] the correctness of compiled
    expressions and conditions against the interfaces [RowQuiet] and
    [RowAccess], which say what a row is; [Rows] has their instances (a row in
    registers, a row under a cursor). [ResultTypes] and [ExprType] give the
    storage classes of functions and expressions, through the interface
    [TypedFunctions]. [Query] gives the rows a query asks for, [Growing] what
    emitting code does to a builder, [ScanCorrect] the correctness of scans.

    I/O: [Vfs] ([vfs/mod.rs], [vfs/memvfs.rs]): the two traits as a class
    [VfsOps] with laws [VfsLaws], the lock states, and the in-memory VFS as an
    instance. [Disk] is the same interface with crashes: [DiskLaws] lets any
    operation fail after a part of it was done, and [CrashFs] is an instance.

    Pager: [Pager] and [PagerTxn] ([pager/mod.rs]: pages, journal, allocation,
    freelist, then transactions, savepoints, commit and hot-journal recovery),
    [Ptrmap] ([btree/ptrmap.rs]), [WalIndex] and [Wal] ([pager/wal.rs]).

    B-trees: [BtreePage] ([btree/page.rs], [btree/mod.rs]), [Cell]
    ([btree/cell.rs]), [Balance] ([btree/balance.rs]), [BtreeInsert]
    ([btree/insert.rs]), [TableCursor] ([btree/cursor.rs], [btree/delete.rs]),
    [Autovac] ([btree/autovac.rs]), [IndexBtree] ([btree/index*.rs],
    [btree/destroy.rs]) with its theorems in [IndexOrder].

    Proofs over several parts: [Recovery], [Atomic] and [Transaction] show that
    a transaction is atomic; [Store] abstracts the pager to the classes
    [PageReader] and [PageWriter], which an idle pager and a pager in a
    transaction implement; [TableCell], [TableTree], [TableInsert],
    [TableAppend], [TableSplit], [TableRead], [TableDelete] and [Tables] prove
    the table b-trees against these classes only.

    ** What the theorems show

    Crashes ([Transaction], [Tables]). On a disk that may stop at any operation,
    leaving any prefix of a write, a write transaction either commits or the next
    opening restores the file byte for byte; rollback restores the pages; a
    transaction reads its own writes; and an insertion in a transaction of its
    own leaves the table as it was or with the new row. This is for databases
    without free pages: the reuse of a free page is not atomic
    ([freelist_reuse_not_atomic]). The lock states keep a single writer for the
    requests the pager makes ([pager_lock_op]).

    Tables ([Tables]). [table_rep im us d root pgs rows] says that the pages
    [pgs] of the image [im] hold a table b-tree of depth at most [d] with the rows
    [rows], in order, payloads spilling into overflow chains where they must.
    Scans and cursors return [rows]; a seek finds a row exactly when it is there;
    insertion and deletion yield the table with or without the row and leave
    every page of other tables alone. The depth bounds the fuel. Insertion covers
    the leaf with room, and for a row after all others the splits of the right
    edge ([can_grow]); deletion covers rows without overflow whose leaf need not
    be merged ([no_merge]). Outside these cases the code has the faults listed in
    the findings.

    Write-ahead log ([Wal]). Recovery yields the frames up to the last valid
    commit; a commit is visible when its last frame is and not before; readers
    find the latest frame of a page; a checkpoint copies each page's last frame.

    Formats. Encoders and decoders are inverse (varints, records, headers,
    journal and WAL headers, wal-index), decoders of untrusted bytes never panic
    where the code promises so, page operations keep the cells of a page
    ([page_rep]), value comparison is a total preorder equal to a reference one.

    Indexes ([IndexOrder]). Keys are totally ordered; on a leaf in order the
    insertion point keeps the order and the UNIQUE check is exact.

    Functions and tables in memory. LIKE and GLOB match what a declarative
    definition of patterns says; numbers are printed by a terminating algorithm
    and integers read back; the JSON parser is total and reads back what the
    renderer writes; sliding the frame of a count, an integer sum or a
    concatenation is aggregating it anew; a sorter gives its rows back in the
    order of their keys, stated apart from the comparison of the code, and ties
    in the order of insertion. A call that passes the check of the code
    generator, of a function that is no aggregate, has a branch in the machine
    or an arm in [call_scalar] ([Calls]).

    Dates ([Calendar]). The conversions between dates and julian days, made in
    doubles, are the proleptic Gregorian calendar from the year -4712 to the year 9999,
    and [date(x, '+N days')] is the date N days later.

    Code ([ExprCorrect], [ExprType], [ScanCorrect]). For the expressions of
    [supported], the code of [compile_expr], in whatever program it is embedded,
    leaves the value [eval] in its register or stops with the error of the
    evaluation, and that value is of a storage class the types predict; the code
    of [compile_jump] jumps exactly when the condition asks for it, BETWEEN being
    the conjunction of its two comparisons (where these have the same affinity
    and the default collation: for others the code is wrong,
    [between_ignores_collation]). The meaning [eval] is stated on the operators
    of the syntax tree, apart from the instructions they compile to. The program
    of a query over one table with WHERE, LIMIT and OFFSET, run with enough
    steps on a pager whose pages hold the table, gives the rows of the query in
    the order of the table, and then that it is done ([compile_scan_answers]):
    the only fuel is the number of steps, which the theorem provides, and the
    depth of the b-tree.

    ** Not modelled

    The OS VFS ([vfs/os_tokio.rs]) is system calls; its interface is the class
    above. The SQL parser is generated from a grammar by a library, and its tree
    is taken as input. Of the code generator, the queries with aggregates,
    windows, joins, subqueries and compounds, those an index serves, the planner
    that chooses the index, and the statements that change rows are not
    modelled. A value BETWEEN is outside the correctness theorem, since its code
    has the fault of [Rows.between_null_bound]. The C API prepares and steps
    statements over these parts; the shell is a front end; the integrity checks
    are read-only reports over the schema. Formatting of error messages is kept
    only where the code tests it. *)

From Stdlib Require Export ZArith Lia.
From stdpp Require Export base list gmap strings pretty.
#[global] Open Scope Z_scope.
#[global] Set Default Goal Selector "!".

(** ** Result codes and errors ([error.rs]) *)

Inductive ResultCode :=
  | RC_Ok | RC_Error | RC_Internal | RC_Perm | RC_Abort | RC_Busy
  | RC_Locked | RC_NoMem | RC_ReadOnly | RC_Interrupt | RC_IoErr | RC_Corrupt
  | RC_NotFound | RC_Full | RC_CantOpen | RC_Protocol | RC_Empty | RC_Schema
  | RC_TooBig | RC_Constraint | RC_Mismatch | RC_Misuse | RC_NoLfs | RC_Auth
  | RC_Format | RC_Range | RC_NotADb | RC_Notice | RC_Warning | RC_Row
  | RC_Done.

Definition rc_code (c : ResultCode) : Z :=
  match c with
  | RC_Ok => 0 | RC_Error => 1 | RC_Internal => 2 | RC_Perm => 3 | RC_Abort => 4
  | RC_Busy => 5 | RC_Locked => 6 | RC_NoMem => 7 | RC_ReadOnly => 8 | RC_Interrupt => 9
  | RC_IoErr => 10 | RC_Corrupt => 11 | RC_NotFound => 12 | RC_Full => 13 | RC_CantOpen => 14
  | RC_Protocol => 15 | RC_Empty => 16 | RC_Schema => 17 | RC_TooBig => 18 | RC_Constraint => 19
  | RC_Mismatch => 20 | RC_Misuse => 21 | RC_NoLfs => 22 | RC_Auth => 23 | RC_Format => 24
  | RC_Range => 25 | RC_NotADb => 26 | RC_Notice => 27 | RC_Warning => 28 | RC_Row => 100
  | RC_Done => 101
  end.

Record Error := mkError { code : ResultCode; extended_code : Z; message : string }.

Definition Error_new (c : ResultCode) (m : string) : Error := mkError c (rc_code c) m.
Definition Error_corrupt := Error_new RC_Corrupt.
Definition Error_cant_open := Error_new RC_CantOpen.
Definition Error_not_a_db := Error_new RC_NotADb.
Definition Error_io_err := Error_new RC_IoErr.
Definition Error_busy := Error_new RC_Busy.
Definition Error_msg := Error_new RC_Error.

#[export] Instance ResultCode_eq_dec : EqDecision ResultCode.
Proof. solve_decision. Defined.
#[export] Instance Error_eq_dec : EqDecision Error.
Proof. solve_decision. Defined.

(** ** Outcomes of fallible code

    [Ok]/[Err] are Rust's [Result]; [Panic] is an unwinding panic (an index or
    range out of bounds, an arithmetic overflow under the workspace's
    [overflow-checks], a failed [expect]). *)

Inductive outcome (A : Type) :=
  | Ok (a : A)
  | Err (e : Error)
  | Panic.
Arguments Ok {A} a.
Arguments Err {A} e.
Arguments Panic {A}.

#[export] Instance outcome_ret : MRet outcome := @Ok.
#[export] Instance outcome_bind : MBind outcome := fun A B f m =>
  match m with Ok a => f a | Err e => Err e | Panic => Panic end.
#[export] Instance outcome_eq_dec `{EqDecision A} : EqDecision (outcome A).
Proof. solve_decision. Defined.

Definition is_ok {A} (m : outcome A) : bool := match m with Ok _ => true | _ => false end.
Definition no_panic {A} (m : outcome A) : Prop := m <> Panic.

(** [o.ok_or_else(|| e)]. *)
Definition ok_or {A} (o : option A) (e : Error) : outcome A :=
  match o with Some a => Ok a | None => Err e end.

(** [o.unwrap()] / [o.expect(..)]. *)
Definition expect {A} (o : option A) : outcome A :=
  match o with Some a => Ok a | None => Panic end.

Lemma bind_ok {A B} (m : outcome A) (f : A -> outcome B) b :
  m ≫= f = Ok b <-> exists a, m = Ok a /\ f a = Ok b.
Proof.
  split; [|intros (a & -> & ?); done].
  destruct m as [a| |]; simpl; intros; [exists a|..]; done.
Qed.

Lemma bind_no_panic {A B} (m : outcome A) (f : A -> outcome B) :
  no_panic m -> (forall a, m = Ok a -> no_panic (f a)) -> no_panic (m ≫= f).
Proof. destruct m; unfold no_panic; simpl; auto; discriminate. Qed.

Lemma ok_or_ok {A} (o : option A) e a : ok_or o e = Ok a <-> o = Some a.
Proof. destruct o; simpl; split; congruence. Qed.

Lemma ok_or_no_panic {A} (o : option A) e : no_panic (ok_or o e).
Proof. destruct o; unfold no_panic; simpl; congruence. Qed.

(** A [for] loop whose body may fail, and may return early. *)
Fixpoint mfold {A S} (f : S -> A -> outcome S) (s : S) (l : list A) : outcome S :=
  match l with
  | [] => Ok s
  | a :: l' => s' ← f s a; mfold f s' l'
  end.

(** Invert hypotheses about successful monadic code. *)
Ltac inv_ok :=
  repeat match goal with
    | H : (_ ≫= _) = Ok _ |- _ => apply bind_ok in H as (? & ? & H)
    | H : ok_or _ _ = Ok _ |- _ => apply ok_or_ok in H
    | H : Ok _ = Ok _ |- _ => injection H as H; try subst
    | H : mret _ = Ok _ |- _ => unfold mret, outcome_ret in H
    | H : Err _ = Ok _ |- _ => discriminate H
    | H : Panic = Ok _ |- _ => discriminate H
    end.

(** ** Machine integers

    A [w]-bit unsigned integer is a [Z] in [0, 2^w); [as] casts are the wraps
    below. *)

Definition u8 (x : Z) : Z := x mod 2 ^ 8.
Definition u16 (x : Z) : Z := x mod 2 ^ 16.
Definition u32 (x : Z) : Z := x mod 2 ^ 32.
Definition u64 (x : Z) : Z := x mod 2 ^ 64.
Definition sext (w : Z) (x : Z) : Z :=
  let y := x mod 2 ^ w in if y <? 2 ^ (w - 1) then y else y - 2 ^ w.
Definition i16 (x : Z) : Z := sext 16 x.
Definition i32 (x : Z) : Z := sext 32 x.
Definition i64 (x : Z) : Z := sext 64 x.

Definition is_u8 (x : Z) : Prop := 0 <= x < 2 ^ 8.
Definition is_u16 (x : Z) : Prop := 0 <= x < 2 ^ 16.
Definition is_u32 (x : Z) : Prop := 0 <= x < 2 ^ 32.
Definition is_u64 (x : Z) : Prop := 0 <= x < 2 ^ 64.
Definition is_i32 (x : Z) : Prop := - 2 ^ 31 <= x < 2 ^ 31.
Definition is_i64 (x : Z) : Prop := - 2 ^ 63 <= x < 2 ^ 63.

#[export] Instance is_u8_dec x : Decision (is_u8 x).
Proof. unfold is_u8. apply _. Defined.
#[export] Instance is_u16_dec x : Decision (is_u16 x).
Proof. unfold is_u16. apply _. Defined.
#[export] Instance is_u32_dec x : Decision (is_u32 x).
Proof. unfold is_u32. apply _. Defined.
#[export] Instance is_u64_dec x : Decision (is_u64 x).
Proof. unfold is_u64. apply _. Defined.
#[export] Instance is_i64_dec x : Decision (is_i64 x).
Proof. unfold is_i64. apply _. Defined.

(** Close a decidable closed goal by evaluation. *)
Ltac by_decide := apply (bool_decide_unpack _); vm_compute; exact I.

(** [a - b] on [usize]/[u32] with overflow checks: an underflow panics. *)
Definition chk_sub (a b : Z) : outcome Z := if a <? b then Panic else Ok (a - b).
(** [a + b] on [u32] / [usize] with overflow checks. *)
Definition chk_add32 (a b : Z) : outcome Z := if a + b <? 2 ^ 32 then Ok (a + b) else Panic.
Definition chk_add64 (a b : Z) : outcome Z := if a + b <? 2 ^ 64 then Ok (a + b) else Panic.

Lemma sext_small w x : 0 < w -> - 2 ^ (w - 1) <= x < 2 ^ (w - 1) -> sext w x = x.
Proof.
  intros Hw Hx. unfold sext.
  assert (2 ^ w = 2 * 2 ^ (w - 1)) as E
    by (rewrite <- Z.pow_succ_r by lia; f_equal; lia).
  destruct (Z_lt_le_dec x 0).
  - replace (x mod 2 ^ w) with (x + 2 ^ w)
      by (rewrite <- (Z.mod_add x 1) by lia; rewrite Z.mod_small; lia).
    destruct (Z.ltb_spec (x + 2 ^ w) (2 ^ (w - 1))); lia.
  - rewrite Z.mod_small by lia.
    destruct (Z.ltb_spec x (2 ^ (w - 1))); lia.
Qed.

Lemma sext_mod w x : 0 < w -> sext w (x mod 2 ^ w) = sext w x.
Proof. intros. unfold sext. by rewrite Z.mod_mod by lia. Qed.

Lemma sext_range w x : 0 < w -> - 2 ^ (w - 1) <= sext w x < 2 ^ (w - 1).
Proof.
  intros Hw. unfold sext.
  assert (2 ^ w = 2 * 2 ^ (w - 1)) as E
    by (rewrite <- Z.pow_succ_r by lia; f_equal; lia).
  pose proof (Z.mod_pos_bound x (2 ^ w) ltac:(lia)).
  destruct (Z.ltb_spec (x mod 2 ^ w) (2 ^ (w - 1))); lia.
Qed.

Lemma sext_unsigned w x : 0 < w -> (sext w x) mod 2 ^ w = x mod 2 ^ w.
Proof.
  intros Hw. unfold sext.
  destruct (_ <? _); [by rewrite Z.mod_mod by lia|].
  rewrite <- (Z.mod_add _ 1) by lia.
  replace (x mod 2 ^ w - 2 ^ w + 1 * 2 ^ w) with (x mod 2 ^ w) by lia.
  by rewrite Z.mod_mod by lia.
Qed.

Lemma lor_shiftl_add a b k : 0 <= k -> 0 <= b < 2 ^ k -> Z.lor (Z.shiftl a k) b = a * 2 ^ k + b.
Proof.
  intros Hk Hb. rewrite <- Z.shiftl_mul_pow2 by lia.
  symmetry. apply Z.add_nocarry_lor.
  apply Z.bits_inj'; intros n Hn; rewrite Z.land_spec, Z.bits_0;
    destruct (Z_lt_le_dec n k); [rewrite Z.shiftl_spec_low by lia; done|];
    rewrite <- (Z.mod_small b (2 ^ k)) by lia; rewrite Z.mod_pow2_bits_high by lia;
    apply andb_false_r.
Qed.

(** ** Byte buffers

    A buffer ([&[u8]], [Vec<u8>]) is a list of integers in [0, 256); offsets
    and lengths are [usize] values, so integers. *)

Notation bytes := (list Z).
Definition byte_ok (b : Z) : Prop := 0 <= b < 256.
Notation bytes_ok := (Forall byte_ok).
#[export] Instance byte_ok_dec b : Decision (byte_ok b).
Proof. unfold byte_ok. apply _. Defined.

Definition zlen {A} (l : list A) : Z := Z.of_nat (length l).
Definition ztake {A} (n : Z) (l : list A) : list A := take (Z.to_nat n) l.
Definition zdrop {A} (n : Z) (l : list A) : list A := drop (Z.to_nat n) l.
Definition zrep {A} (n : Z) (x : A) : list A := replicate (Z.to_nat n) x.
Definition zslice {A} (i j : Z) (l : list A) : list A := ztake (j - i) (zdrop i l).
(** The buffer with [d] written over positions [i .. i + len d]. *)
Definition splice {A} (i : Z) (d l : list A) : list A :=
  ztake i l ++ d ++ zdrop (i + zlen d) l.

(** [b[i]], [b.get(i)], [&b[i..j]], [&b[i..]], [b.get(i..)]. *)
Definition zget {A} (l : list A) (i : Z) : option A :=
  if i <? 0 then None else l !! Z.to_nat i.
Definition idx {A} (l : list A) (i : Z) : outcome A := expect (zget l i).
Definition sub_range {A} (l : list A) (i j : Z) : outcome (list A) :=
  if (0 <=? i) && (i <=? j) && (j <=? zlen l) then Ok (zslice i j l) else Panic.
Definition get_from {A} (l : list A) (i : Z) : option (list A) :=
  if (0 <=? i) && (i <=? zlen l) then Some (zdrop i l) else None.
Definition sub_from {A} (l : list A) (i : Z) : outcome (list A) := expect (get_from l i).

(** [b[i..i+d.len()].copy_from_slice(d)]. *)
Definition copy_into {A} (l : list A) (i : Z) (d : list A) : outcome (list A) :=
  if (0 <=? i) && (i + zlen d <=? zlen l) then Ok (splice i d l) else Panic.

(** Big- and little-endian integers ([to_be_bytes], [from_be_bytes], ...). *)
Fixpoint le_bytes (n : nat) (x : Z) : bytes :=
  match n with
  | O => []
  | S n' => x mod 256 :: le_bytes n' (x / 256)
  end.
Definition be_bytes (n : nat) (x : Z) : bytes := reverse (le_bytes n x).
Definition be_val (b : bytes) : Z := fold_left (fun a x => a * 256 + x) b 0.
Definition le_val (b : bytes) : Z := be_val (reverse b).

(** ** Lemmas on lengths and slices *)

Create HintDb len.
#[export] Hint Rewrite @length_app @length_take @length_drop @length_replicate
  @length_reverse @length_fmap @length_nil @length_cons @length_insert : len.

Lemma zlen_nonneg {A} (l : list A) : 0 <= zlen l.
Proof. unfold zlen. lia. Qed.
Lemma zlen_app {A} (l1 l2 : list A) : zlen (l1 ++ l2) = zlen l1 + zlen l2.
Proof. unfold zlen. rewrite length_app. lia. Qed.
Lemma zlen_cons {A} (x : A) l : zlen (x :: l) = 1 + zlen l.
Proof. unfold zlen. simpl length. lia. Qed.
Lemma zlen_nil {A} : zlen (@nil A) = 0.
Proof. done. Qed.
Lemma zlen_ztake {A} n (l : list A) : zlen (ztake n l) = Z.max 0 (Z.min n (zlen l)).
Proof. unfold zlen, ztake. rewrite length_take. lia. Qed.
Lemma zlen_zdrop {A} n (l : list A) : zlen (zdrop n l) = zlen l - Z.max 0 (Z.min n (zlen l)).
Proof. unfold zlen, zdrop. rewrite length_drop. lia. Qed.
Lemma zlen_zrep {A} n (x : A) : zlen (zrep n x) = Z.max 0 n.
Proof. unfold zlen, zrep. rewrite length_replicate. lia. Qed.
Lemma zlen_splice {A} i (d l : list A) :
  0 <= i -> i + zlen d <= zlen l -> zlen (splice i d l) = zlen l.
Proof.
  intros. unfold splice. rewrite !zlen_app, zlen_ztake, zlen_zdrop.
  pose proof (zlen_nonneg d). lia.
Qed.
Lemma zlen_zslice {A} i j (l : list A) :
  0 <= i -> i <= j -> j <= zlen l -> zlen (zslice i j l) = j - i.
Proof. intros. unfold zslice. rewrite zlen_ztake, zlen_zdrop. lia. Qed.
Lemma zlen_fmap {A B} (f : A -> B) l : zlen (f <$> l) = zlen l.
Proof. unfold zlen. by rewrite length_fmap. Qed.
Lemma zlen_reverse {A} (l : list A) : zlen (reverse l) = zlen l.
Proof. unfold zlen. by rewrite length_reverse. Qed.

#[export] Hint Rewrite @zlen_app @zlen_cons @zlen_nil @zlen_ztake @zlen_zdrop @zlen_zrep
  @zlen_fmap @zlen_reverse : zlen.

(** Decide a goal about lengths. *)
Ltac len_lia :=
  autorewrite with zlen in *;
  repeat match goal with
    | |- context [zlen ?l] => lazymatch goal with
                              | _ : 0 <= zlen l |- _ => fail
                              | _ => pose proof (zlen_nonneg l)
                              end
    | _ : context [zlen ?l] |- _ => lazymatch goal with
                                    | _ : 0 <= zlen l |- _ => fail
                                    | _ => pose proof (zlen_nonneg l)
                                    end
    end; lia.

Lemma ztake_app_le {A} n (l1 l2 : list A) : n <= zlen l1 -> ztake n (l1 ++ l2) = ztake n l1.
Proof. unfold zlen, ztake. intros. apply take_app_le. lia. Qed.
Lemma ztake_app_ge {A} n (l1 l2 : list A) :
  zlen l1 <= n -> ztake n (l1 ++ l2) = l1 ++ ztake (n - zlen l1) l2.
Proof.
  unfold zlen, ztake. intros. rewrite take_app, take_ge by lia. do 2 f_equal. lia.
Qed.
Lemma zdrop_app_le {A} n (l1 l2 : list A) : n <= zlen l1 -> zdrop n (l1 ++ l2) = zdrop n l1 ++ l2.
Proof. unfold zlen, zdrop. intros. apply drop_app_le. lia. Qed.
Lemma zdrop_app_ge {A} n (l1 l2 : list A) :
  zlen l1 <= n -> zdrop n (l1 ++ l2) = zdrop (n - zlen l1) l2.
Proof. unfold zlen, zdrop. intros. rewrite drop_app_ge by lia. f_equal. lia. Qed.
Lemma ztake_all {A} n (l : list A) : zlen l <= n -> ztake n l = l.
Proof. unfold zlen, ztake. intros. apply take_ge. lia. Qed.
Lemma zdrop_all {A} n (l : list A) : zlen l <= n -> zdrop n l = [].
Proof. unfold zlen, zdrop. intros. apply drop_ge. lia. Qed.
Lemma zdrop_0 {A} n (l : list A) : n <= 0 -> zdrop n l = l.
Proof. unfold zdrop. intros. by replace (Z.to_nat n) with 0%nat by lia. Qed.
Lemma ztake_0 {A} n (l : list A) : n <= 0 -> ztake n l = [].
Proof. unfold ztake. intros. by replace (Z.to_nat n) with 0%nat by lia. Qed.
Lemma zdrop_zdrop {A} n m (l : list A) :
  0 <= n -> 0 <= m -> zdrop n (zdrop m l) = zdrop (n + m) l.
Proof. unfold zdrop. intros. rewrite drop_drop. f_equal. lia. Qed.
Lemma ztake_ztake {A} n m (l : list A) :
  0 <= n -> 0 <= m -> ztake n (ztake m l) = ztake (Z.min n m) l.
Proof. unfold ztake. intros. rewrite take_take. f_equal. lia. Qed.
Lemma ztake_zdrop_id {A} n (l : list A) : ztake n l ++ zdrop n l = l.
Proof. apply take_drop. Qed.
Lemma zdrop_ztake {A} n m (l : list A) :
  0 <= n -> 0 <= m -> zdrop n (ztake m l) = ztake (m - n) (zdrop n l).
Proof.
  unfold zdrop, ztake. intros. rewrite <- take_drop_commute || rewrite skipn_firstn_comm.
  f_equal. lia.
Qed.

(** Split an in-range slice off a buffer. *)
Lemma zslice_split {A} i j (l : list A) :
  0 <= i -> i <= j -> j <= zlen l -> l = ztake i l ++ zslice i j l ++ zdrop j l.
Proof.
  intros. unfold zslice.
  rewrite <- (ztake_zdrop_id i l) at 1. f_equal.
  rewrite <- (ztake_zdrop_id (j - i) (zdrop i l)) at 1. f_equal.
  rewrite zdrop_zdrop by lia. f_equal. lia.
Qed.

Lemma zslice_app3 {A} (l1 l2 l3 : list A) i j :
  i = zlen l1 -> j = zlen l1 + zlen l2 -> zslice i j (l1 ++ l2 ++ l3) = l2.
Proof.
  intros -> ->. unfold zslice. rewrite zdrop_app_ge by lia.
  rewrite (zdrop_0 _ (l2 ++ l3)) by lia. rewrite ztake_app_le by lia.
  apply ztake_all. lia.
Qed.

Lemma zslice_splice_eq {A} i j (d l : list A) :
  0 <= i -> j = i + zlen d -> j <= zlen l -> zslice i j (splice i d l) = d.
Proof. intros ? -> ?. apply zslice_app3; len_lia. Qed.

Lemma zslice_app_l {A} i j (l1 l2 : list A) :
  0 <= i -> i <= j -> j <= zlen l1 -> zslice i j (l1 ++ l2) = zslice i j l1.
Proof.
  intros. unfold zslice. rewrite zdrop_app_le by lia. apply ztake_app_le. len_lia.
Qed.
Lemma zslice_app_r {A} i j (l1 l2 : list A) :
  zlen l1 <= i -> i <= j -> zslice i j (l1 ++ l2) = zslice (i - zlen l1) (j - zlen l1) l2.
Proof.
  intros. unfold zslice. rewrite zdrop_app_ge by lia. f_equal. lia.
Qed.
Lemma zslice_ztake {A} i j k (l : list A) :
  0 <= i -> i <= j -> j <= k -> zslice i j (ztake k l) = zslice i j l.
Proof.
  intros. unfold zslice. rewrite zdrop_ztake by lia. rewrite ztake_ztake by lia. f_equal. lia.
Qed.
Lemma zslice_zdrop {A} i j k (l : list A) :
  0 <= i -> 0 <= k -> zslice i j (zdrop k l) = zslice (i + k) (j + k) l.
Proof.
  intros. unfold zslice. rewrite zdrop_zdrop by lia. f_equal. lia.
Qed.

Lemma zslice_splice_ne {A} i j k (d l : list A) :
  0 <= i -> i <= j -> 0 <= k -> k + zlen d <= zlen l -> j <= zlen l ->
  j <= k \/ k + zlen d <= i ->
  zslice i j (splice k d l) = zslice i j l.
Proof.
  intros Hi Hij Hk Hd Hj [Hb|Hb]; pose proof (zlen_nonneg d); unfold splice.
  - rewrite zslice_app_l by len_lia. apply zslice_ztake; lia.
  - rewrite zslice_app_r, zslice_app_r, zslice_zdrop by len_lia.
    rewrite zlen_ztake. f_equal; lia.
Qed.

Lemma zslice_zslice {A} i j a b (l : list A) :
  0 <= i -> i <= j -> 0 <= a -> a <= b -> j <= b - a ->
  zslice i j (zslice a b l) = zslice (a + i) (a + j) l.
Proof.
  intros. unfold zslice at 2. rewrite zslice_ztake, zslice_zdrop by lia.
  f_equal; lia.
Qed.
(** Reading inside the part that was written. *)
Lemma zslice_splice_in {A} i j k (d l : list A) :
  0 <= k -> k + zlen d <= zlen l -> k <= i -> i <= j -> j <= k + zlen d ->
  zslice i j (splice k d l) = zslice (i - k) (j - k) d.
Proof.
  intros. unfold splice. rewrite zslice_app_r by len_lia.
  rewrite zlen_ztake, zslice_app_l by len_lia. f_equal; len_lia.
Qed.

Lemma sub_range_ok {A} (l : list A) i j s :
  sub_range l i j = Ok s <-> 0 <= i /\ i <= j /\ j <= zlen l /\ s = zslice i j l.
Proof.
  unfold sub_range.
  destruct (Z.leb_spec 0 i), (Z.leb_spec i j), (Z.leb_spec j (zlen l)); simpl;
    split; intros H'; try discriminate; try (destruct H' as (?&?&?&?); lia).
  - injection H' as <-. auto.
  - destruct H' as (?&?&?&->). done.
Qed.

Lemma sub_range_in {A} (l : list A) i j :
  0 <= i -> i <= j -> j <= zlen l -> sub_range l i j = Ok (zslice i j l).
Proof. intros. by apply sub_range_ok. Qed.

Lemma copy_into_in {A} (l : list A) i d :
  0 <= i -> i + zlen d <= zlen l -> copy_into l i d = Ok (splice i d l).
Proof.
  intros. unfold copy_into.
  by rewrite (proj2 (Z.leb_le 0 i)), (proj2 (Z.leb_le _ (zlen l))) by lia.
Qed.

Lemma copy_into_ok {A} (l : list A) i d r :
  copy_into l i d = Ok r <-> 0 <= i /\ i + zlen d <= zlen l /\ r = splice i d l.
Proof.
  unfold copy_into.
  destruct (Z.leb_spec 0 i), (Z.leb_spec (i + zlen d) (zlen l)); simpl;
    split; intros H'; try discriminate; try (destruct H' as (?&?&?); lia).
  - injection H' as <-. auto.
  - destruct H' as (?&?&->). done.
Qed.

Lemma get_from_in {A} (l : list A) i : 0 <= i <= zlen l -> get_from l i = Some (zdrop i l).
Proof.
  intros. unfold get_from.
  by rewrite (proj2 (Z.leb_le 0 i)), (proj2 (Z.leb_le i (zlen l))) by lia.
Qed.
Lemma get_from_Some {A} (l : list A) i s :
  get_from l i = Some s <-> 0 <= i <= zlen l /\ s = zdrop i l.
Proof.
  unfold get_from. destruct (Z.leb_spec 0 i), (Z.leb_spec i (zlen l)); simpl;
    split; intros H'; try discriminate; try lia.
  - injection H' as <-. split; [lia|done].
  - destruct H' as [_ ->]. done.
Qed.

Lemma zget_app_l {A} (l1 l2 : list A) i : i < zlen l1 -> zget (l1 ++ l2) i = zget l1 i.
Proof.
  unfold zget, zlen. intros. destruct (Z.ltb_spec i 0); [done|].
  apply lookup_app_l. lia.
Qed.
Lemma zget_app_r {A} (l1 l2 : list A) i : zlen l1 <= i -> zget (l1 ++ l2) i = zget l2 (i - zlen l1).
Proof.
  unfold zget, zlen. intros. destruct (Z.ltb_spec i 0); [lia|].
  destruct (Z.ltb_spec (i - Z.of_nat (length l1)) 0); [lia|].
  rewrite lookup_app_r by lia. f_equal. lia.
Qed.
Lemma zget_zdrop {A} (l : list A) i k : 0 <= i -> 0 <= k -> zget (zdrop k l) i = zget l (i + k).
Proof.
  unfold zget, zdrop. intros. destruct (Z.ltb_spec i 0), (Z.ltb_spec (i + k) 0); try lia.
  rewrite lookup_drop. f_equal. lia.
Qed.
Lemma zget_ztake {A} (l : list A) i k : i < k -> zget (ztake k l) i = zget l i.
Proof.
  unfold zget, ztake. intros. destruct (Z.ltb_spec i 0); [done|].
  apply lookup_take_lt. lia.
Qed.
Lemma zget_Some {A} (l : list A) i x : zget l i = Some x -> 0 <= i < zlen l.
Proof.
  unfold zget, zlen. destruct (Z.ltb_spec i 0); [done|].
  intros H'%lookup_lt_Some. lia.
Qed.
Lemma zget_in {A} (l : list A) i : 0 <= i < zlen l -> exists x, zget l i = Some x.
Proof.
  unfold zget, zlen. intros. destruct (Z.ltb_spec i 0); [lia|].
  apply lookup_lt_is_Some_2. lia.
Qed.
Lemma zget_None {A} (l : list A) i : zget l i = None <-> i < 0 \/ zlen l <= i.
Proof.
  unfold zget, zlen. destruct (Z.ltb_spec i 0); [split; auto|].
  rewrite lookup_ge_None. lia.
Qed.
Lemma zdrop_zget_cons {A} (l : list A) i :
  0 <= i -> zdrop i l = match zget l i with Some x => x :: zdrop (i + 1) l | None => [] end.
Proof.
  intros. unfold zget, zdrop. destruct (Z.ltb_spec i 0); [lia|].
  replace (Z.to_nat (i + 1)) with (S (Z.to_nat i)) by lia.
  destruct (l !! Z.to_nat i) eqn:E.
  - by apply drop_S.
  - apply drop_ge. by apply lookup_ge_None_1.
Qed.
Lemma zget_zslice1 {A} (l : list A) i x : zget l i = Some x -> zslice i (i + 1) l = [x].
Proof.
  intros H. pose proof (zget_Some _ _ _ H). unfold zget in H.
  destruct (Z.ltb_spec i 0); [lia|]. unfold zslice, ztake, zdrop.
  replace (Z.to_nat (i + 1 - i)) with 1%nat by lia.
  by rewrite (drop_S _ _ _ H).
Qed.
Lemma zget_splice_ne {A} i k (d l : list A) :
  0 <= k -> k + zlen d <= zlen l -> i < k \/ k + zlen d <= i ->
  zget (splice k d l) i = zget l i.
Proof.
  intros Hk Hd [?|?]; pose proof (zlen_nonneg d); unfold splice.
  - rewrite zget_app_l by len_lia. apply zget_ztake; lia.
  - rewrite zget_app_r, zget_app_r, zget_zdrop by len_lia. f_equal. len_lia.
Qed.

(** Keep [bytes_ok] through the buffer operations. *)
Lemma bytes_ok_ztake n b : bytes_ok b -> bytes_ok (ztake n b).
Proof. apply Forall_take. Qed.
Lemma bytes_ok_zdrop n b : bytes_ok b -> bytes_ok (zdrop n b).
Proof. apply Forall_drop. Qed.
Lemma bytes_ok_zslice i j b : bytes_ok b -> bytes_ok (zslice i j b).
Proof. intros. by apply bytes_ok_ztake, bytes_ok_zdrop. Qed.
Lemma bytes_ok_splice i d b : bytes_ok d -> bytes_ok b -> bytes_ok (splice i d b).
Proof.
  intros. unfold splice. rewrite !Forall_app.
  auto using bytes_ok_ztake, bytes_ok_zdrop.
Qed.
Lemma bytes_ok_zrep n x : byte_ok x -> bytes_ok (zrep n x).
Proof. intros. by apply Forall_replicate. Qed.
Lemma bytes_ok_zget b i x : bytes_ok b -> zget b i = Some x -> byte_ok x.
Proof.
  unfold zget. intros Hb. destruct (Z.ltb_spec i 0); [done|].
  intros. by eapply Forall_lookup_1.
Qed.

(** ** Big- and little-endian integers *)

Lemma length_le_bytes n x : length (le_bytes n x) = n.
Proof. revert x. induction n; simpl; auto. Qed.
Lemma zlen_be_bytes n x : zlen (be_bytes n x) = Z.of_nat n.
Proof. unfold zlen, be_bytes. by rewrite length_reverse, length_le_bytes. Qed.
#[export] Hint Rewrite zlen_be_bytes : zlen.

Lemma bytes_ok_le_bytes n x : bytes_ok (le_bytes n x).
Proof.
  revert x. induction n; intros; simpl; constructor; auto.
  unfold byte_ok. apply Z.mod_pos_bound. lia.
Qed.
Lemma bytes_ok_be_bytes n x : bytes_ok (be_bytes n x).
Proof. apply Forall_reverse, bytes_ok_le_bytes. Qed.

#[export] Hint Resolve bytes_ok_ztake bytes_ok_zdrop bytes_ok_zslice bytes_ok_splice
  bytes_ok_be_bytes bytes_ok_le_bytes : bytes.

Lemma be_val_app b1 b2 : be_val (b1 ++ b2) = be_val b1 * 256 ^ zlen b2 + be_val b2.
Proof.
  unfold be_val. rewrite fold_left_app. generalize (fold_left (fun a x => a * 256 + x) b1 0).
  induction b2 as [|x b2 IH] using rev_ind; intros a; simpl; [unfold zlen; simpl; lia|].
  rewrite !fold_left_app. simpl. rewrite (IH a).
  replace (zlen (b2 ++ [x])) with (zlen b2 + 1) by len_lia.
  rewrite Z.pow_add_r by len_lia. lia.
Qed.
Lemma be_val_nil : be_val [] = 0.
Proof. done. Qed.
Lemma be_val_single x : be_val [x] = x.
Proof. done. Qed.
Lemma be_val_cons x b : be_val (x :: b) = x * 256 ^ zlen b + be_val b.
Proof. change (x :: b) with ([x] ++ b). by rewrite be_val_app. Qed.
Lemma be_val_snoc x b : be_val (b ++ [x]) = be_val b * 256 + x.
Proof. by rewrite be_val_app. Qed.

Lemma be_val_range b : bytes_ok b -> 0 <= be_val b < 256 ^ zlen b.
Proof.
  induction b as [|x b IH] using rev_ind; intros Hb; [done|].
  apply Forall_app in Hb as [Hb [Hx _]%Forall_cons_1]. unfold byte_ok in Hx.
  rewrite be_val_snoc. replace (zlen (b ++ [x])) with (zlen b + 1) by len_lia.
  rewrite Z.pow_add_r, Z.pow_1_r by len_lia. specialize (IH Hb). lia.
Qed.

Lemma be_bytes_S n x : be_bytes (S n) x = be_bytes n (x / 256) ++ [x mod 256].
Proof. unfold be_bytes. simpl. by rewrite reverse_cons. Qed.

Lemma le_bytes_snoc n x : le_bytes (S n) x = le_bytes n x ++ [x / 256 ^ Z.of_nat n mod 256].
Proof.
  revert x. induction n as [|n IH]; intros x; [simpl; by rewrite Z.div_1_r|].
  change (le_bytes (S (S n)) x) with (x mod 256 :: le_bytes (S n) (x / 256)).
  rewrite IH. simpl le_bytes. simpl app. do 3 f_equal.
  rewrite Z.div_div by lia. by rewrite Nat2Z.inj_succ, Z.pow_succ_r by lia.
Qed.
(** Dropping the most significant byte. *)
Lemma be_bytes_cons n x : be_bytes (S n) x = x / 256 ^ Z.of_nat n mod 256 :: be_bytes n x.
Proof. unfold be_bytes. by rewrite le_bytes_snoc, reverse_snoc. Qed.

Lemma be_val_be_bytes n x : be_val (be_bytes n x) = x mod 256 ^ Z.of_nat n.
Proof.
  revert x. induction n as [|n IH]; intros x.
  - unfold be_bytes. simpl. by rewrite Z.mod_1_r.
  - rewrite be_bytes_S, be_val_snoc, IH. rewrite Nat2Z.inj_succ, Z.pow_succ_r by lia.
    rewrite Z.rem_mul_r by lia. lia.
Qed.

Lemma be_bytes_be_val b : bytes_ok b -> be_bytes (length b) (be_val b) = b.
Proof.
  induction b as [|x b IH] using rev_ind; intros Hb; [done|].
  apply Forall_app in Hb as [Hb [Hx _]%Forall_cons_1]. unfold byte_ok in Hx.
  rewrite length_app, Nat.add_comm. simpl. rewrite be_bytes_S, be_val_snoc.
  rewrite Z.div_add_l, Z.div_small, Z.add_0_r, IH by (done || lia).
  by rewrite Z.add_comm, Z.mod_add, Z.mod_small by lia.
Qed.

Lemma be_val_be_bytes_small n x : 0 <= x < 256 ^ Z.of_nat n -> be_val (be_bytes n x) = x.
Proof. intros. by rewrite be_val_be_bytes, Z.mod_small. Qed.

Lemma be_bytes_mod n x : be_bytes n (x mod 256 ^ Z.of_nat n) = be_bytes n x.
Proof.
  revert x. induction n as [|n IH]; intros x; [done|].
  rewrite !be_bytes_S. rewrite Nat2Z.inj_succ, Z.pow_succ_r, Z.rem_mul_r by lia.
  f_equal.
  - rewrite (Z.add_comm (x mod 256)), (Z.mul_comm 256), Z.div_add_l by lia.
    rewrite (Z.div_small (x mod 256)), Z.add_0_r by (apply Z.mod_pos_bound; lia). apply IH.
  - f_equal. rewrite (Z.mul_comm 256), Z.mod_add by lia. apply Z.mod_mod. lia.
Qed.

Lemma be_bytes_inj n x y :
  0 <= x < 256 ^ Z.of_nat n -> 0 <= y < 256 ^ Z.of_nat n -> be_bytes n x = be_bytes n y -> x = y.
Proof.
  intros Hx Hy E. apply (f_equal be_val) in E.
  by rewrite !be_val_be_bytes_small in E by done.
Qed.

(** [u16::from_be_bytes] and [u32::from_be_bytes] of a slice that must have
    exactly that length. *)
Definition be_uint (n : Z) (b : bytes) : outcome Z :=
  if zlen b =? n then Ok (be_val b) else Panic.
(** [T::from_be_bytes(b[i..i+n].try_into().unwrap())]. *)
Definition be_at (n : Z) (b : bytes) (i : Z) : outcome Z :=
  s ← sub_range b i (i + n); be_uint n s.

Lemma be_at_in n b i : 0 <= n -> 0 <= i -> i + n <= zlen b ->
  be_at n b i = Ok (be_val (zslice i (i + n) b)).
Proof.
  intros. unfold be_at. rewrite sub_range_in by lia. simpl. unfold be_uint.
  rewrite zlen_zslice by lia. by rewrite Z.add_simpl_l, Z.eqb_refl.
Qed.
Lemma be_at_ok n b i v : be_at n b i = Ok v ->
  0 <= n /\ 0 <= i /\ i + n <= zlen b /\ v = be_val (zslice i (i + n) b).
Proof.
  unfold be_at. intros H. inv_ok. apply sub_range_ok in H0 as (?&?&?&->).
  unfold be_uint in H. rewrite zlen_zslice in H by lia.
  destruct (Z.eqb_spec (i + n - i) n); [|discriminate]. injection H as <-. split_and!; (lia || done).
Qed.

(** Reading back an integer just stored in a buffer. *)
Lemma be_at_splice_eq n b i x :
  0 <= i -> i + Z.of_nat n <= zlen b ->
  be_at (Z.of_nat n) (splice i (be_bytes n x) b) i = Ok (x mod 256 ^ Z.of_nat n).
Proof.
  intros. rewrite be_at_in by (try rewrite zlen_splice; len_lia).
  rewrite zslice_splice_eq by len_lia. by rewrite be_val_be_bytes.
Qed.
Lemma be_at_splice_ne n b i k d :
  0 <= n -> 0 <= i -> i + n <= zlen b -> 0 <= k -> k + zlen d <= zlen b ->
  i + n <= k \/ k + zlen d <= i ->
  be_at n (splice k d b) i = be_at n b i.
Proof.
  intros. rewrite !be_at_in by (try rewrite zlen_splice; lia).
  by rewrite zslice_splice_ne by lia.
Qed.

Lemma be_at_splice_in n b i k d :
  0 <= n -> 0 <= k -> k + zlen d <= zlen b -> k <= i -> i + n <= k + zlen d ->
  be_at n (splice k d b) i = be_at n d (i - k).
Proof.
  intros. rewrite !be_at_in by (try rewrite zlen_splice; lia).
  rewrite zslice_splice_in by lia. do 3 f_equal; lia.
Qed.
Lemma be_at_zslice n b i j k :
  0 <= n -> 0 <= k -> 0 <= i -> i <= j -> j <= zlen b -> k + n <= j - i ->
  be_at n (zslice i j b) k = be_at n b (i + k).
Proof.
  intros. rewrite !be_at_in by (try rewrite zlen_zslice; lia).
  rewrite zslice_zslice by lia. do 3 f_equal; lia.
Qed.

(** Lexicographic comparison of byte strings ([Ord for [u8]]). *)
Fixpoint cmp_bytes (a b : bytes) : comparison :=
  match a, b with
  | [], [] => Eq
  | [], _ :: _ => Lt
  | _ :: _, [] => Gt
  | x :: a', y :: b' => match x ?= y with Eq => cmp_bytes a' b' | c => c end
  end.

Lemma cmp_bytes_refl a : cmp_bytes a a = Eq.
Proof. induction a; simpl; [done|]. by rewrite Z.compare_refl. Qed.
Lemma cmp_bytes_eq a b : cmp_bytes a b = Eq <-> a = b.
Proof.
  split; [|intros ->; apply cmp_bytes_refl].
  revert b. induction a as [|x a IH]; intros [|y b]; simpl; try done.
  destruct (Z.compare_spec x y); try done. intros. f_equal; auto.
Qed.
Lemma cmp_bytes_antisym a b : cmp_bytes b a = CompOpp (cmp_bytes a b).
Proof.
  revert b. induction a as [|x a IH]; intros [|y b]; simpl; try done.
  rewrite (Z.compare_antisym x y). destruct (x ?= y); simpl; auto.
Qed.
Lemma cmp_bytes_lt_trans a b c : cmp_bytes a b = Lt -> cmp_bytes b c = Lt -> cmp_bytes a c = Lt.
Proof.
  revert b c. induction a as [|x a IH]; intros [|y b] [|z c]; simpl; try done.
  destruct (Z.compare_spec x y), (Z.compare_spec y z); try done; intros; subst;
    try (rewrite (proj2 (Z.compare_lt_iff _ _)) by lia; done).
  rewrite Z.compare_refl. eauto.
Qed.

(** The decimal rendering used by [format!("{n}")] is stdpp's [pretty]; the
    two-digit [{:#04x}] is below. *)
Definition hex_digit (d : Z) : string :=
  match d with
  | 0 => "0" | 1 => "1" | 2 => "2" | 3 => "3" | 4 => "4" | 5 => "5" | 6 => "6" | 7 => "7"
  | 8 => "8" | 9 => "9" | 10 => "a" | 11 => "b" | 12 => "c" | 13 => "d" | 14 => "e" | _ => "f"
  end.
Definition hex_u8 (b : Z) : string := "0x" +:+ hex_digit (b / 16) +:+ hex_digit (b mod 16).

(** Reads that stay inside a prefix do not see what follows it. *)
Lemma sub_range_app_l {A} (b r : list A) i j :
  j <= zlen b -> sub_range (b ++ r) i j = sub_range b i j.
Proof.
  intros. unfold sub_range. rewrite zlen_app. pose proof (zlen_nonneg r).
  destruct (Z.leb_spec 0 i), (Z.leb_spec i j); simpl; try done.
  destruct (Z.leb_spec j (zlen b + zlen r)), (Z.leb_spec j (zlen b)); try lia.
  by rewrite zslice_app_l by lia.
Qed.
Lemma be_at_app_l n b r i : i + n <= zlen b -> be_at n (b ++ r) i = be_at n b i.
Proof. intros. unfold be_at. by rewrite sub_range_app_l. Qed.
Lemma idx_app_l {A} (b r : list A) i : i < zlen b -> idx (b ++ r) i = idx b i.
Proof. intros. unfold idx. by rewrite zget_app_l. Qed.

Lemma be_at_range n b i v : bytes_ok b -> be_at n b i = Ok v -> 0 <= v < 256 ^ n.
Proof.
  intros Hb (?&?&?&->)%be_at_ok.
  pose proof (be_val_range _ (bytes_ok_zslice i (i + n) b Hb)) as Hr.
  rewrite zlen_zslice in Hr by lia. by replace (i + n - i) with n in Hr by lia.
Qed.
Lemma be_at_total n b i : 0 <= n -> 0 <= i -> i + n <= zlen b -> exists v, be_at n b i = Ok v.
Proof. intros. rewrite be_at_in by done. eauto. Qed.
Lemma idx_total {A} (b : list A) i : 0 <= i < zlen b -> exists v, idx b i = Ok v.
Proof. intros H. unfold idx. destruct (zget_in b i H) as [x ->]. by exists x. Qed.
Lemma idx_ok {A} (b : list A) i v : idx b i = Ok v -> zget b i = Some v.
Proof. unfold idx. destruct (zget b i); simpl; congruence. Qed.
Lemma idx_range b i v : bytes_ok b -> idx b i = Ok v -> byte_ok v.
Proof. intros Hb H%idx_ok. by eapply bytes_ok_zget. Qed.

(** Filling a buffer from the left, field by field: [fill_fields] evaluates a
    chain of [copy_into]s of constant-length fields at constant offsets. *)
Lemma copy_into_field {A} (pre d out : list A) k n m i :
  i = zlen pre -> n = zlen d -> m = k + n -> 0 <= k -> m <= zlen out ->
  copy_into (pre ++ zdrop k out) i d = Ok ((pre ++ d) ++ zdrop m out).
Proof.
  intros -> -> -> Hk Hd. rewrite copy_into_in by len_lia. unfold splice.
  rewrite ztake_app_ge, ztake_0, app_nil_r by lia.
  rewrite zdrop_app_ge by len_lia. rewrite <- app_assoc, Z.add_simpl_l, zdrop_zdrop by len_lia.
  do 4 f_equal. lia.
Qed.
Ltac fill_field :=
  match goal with
  | |- context [copy_into (?pre ++ zdrop ?k ?out) ?i ?d] =>
      let n := eval vm_compute in (zlen d) in
      let m := eval vm_compute in (k + n) in
      rewrite (copy_into_field pre d out k n m i);
        [cbn [mbind outcome_bind]|reflexivity|reflexivity|reflexivity|lia|first [lia|len_lia]]
  end.
Ltac fill_fields := repeat fill_field.

Lemma le_val_le_bytes n x : le_val (le_bytes n x) = x mod 256 ^ Z.of_nat n.
Proof. unfold le_val. change (reverse (le_bytes n x)) with (be_bytes n x). apply be_val_be_bytes. Qed.
Lemma zlen_le_bytes n x : zlen (le_bytes n x) = Z.of_nat n.
Proof. unfold zlen. by rewrite length_le_bytes. Qed.
#[export] Hint Rewrite zlen_le_bytes : zlen.

(** ** Stateful code

    [M S A] is code over a mutable state [S]: what was already changed when an
    error is returned stays changed, as behind a [&self] with interior
    mutability or a [&mut self]. *)

Definition M (S A : Type) : Type := S -> outcome A * S.
#[export] Instance M_ret {S} : MRet (M S) := fun A a s => (Ok a, s).
#[export] Instance M_bind {S} : MBind (M S) := fun A B f m s =>
  match m s with
  | (Ok a, s') => f a s'
  | (Err e, s') => (Err e, s')
  | (Panic, s') => (Panic, s')
  end.

Definition lift {S A} (o : outcome A) : M S A := fun s => (o, s).
Definition fail {S A} (e : Error) : M S A := fun s => (Err e, s).
Definition get {S} : M S S := fun s => (Ok s, s).
Definition put {S} (s : S) : M S unit := fun _ => (Ok tt, s).
Definition modify {S} (f : S -> S) : M S unit := fun s => (Ok tt, f s).
(** [let _ = m.await;]: the error is dropped. *)
Definition ignore {S A} (m : M S A) : M S unit := fun s =>
  match m s with (Panic, s') => (Panic, s') | (_, s') => (Ok tt, s') end.
(** [m.await.unwrap_or_else(|_| d)]: an error is replaced by [d]. *)
Definition or_else {S A} (m : M S A) (d : A) : M S A := fun s =>
  match m s with (Err _, s') => (Ok d, s') | r => r end.
(** [m.expect(..)]: an error is a panic. *)
Definition unwrap {S A} (m : M S A) : M S A := fun s =>
  match m s with (Err _, s') => (Panic, s') | r => r end.
(** Run code over the second component of a pair of states. *)
Definition on_snd {S T A} (m : M T A) : M (S * T) A := fun '(s, t) =>
  let '(r, t') := m t in (r, (s, t')).
Definition on_fst {S T A} (m : M S A) : M (S * T) A := fun '(s, t) =>
  let '(r, s') := m s in (r, (s', t)).

(** [for a in l { body }] over a mutable state. *)
Fixpoint mfor {S A} (l : list A) (f : A -> M S unit) : M S unit :=
  match l with
  | [] => mret tt
  | a :: l' => f a ≫= fun _ => mfor l' f
  end.

Lemma M_bind_ok {S A B} (m : M S A) (f : A -> M S B) s a s' :
  m s = (Ok a, s') -> (m ≫= f) s = f a s'.
Proof. intros H. unfold mbind, M_bind. by rewrite H. Qed.
Lemma M_bind_err {S A B} (m : M S A) (f : A -> M S B) s e s' :
  m s = (Err e, s') -> (m ≫= f) s = (Err e, s').
Proof. intros H. unfold mbind, M_bind. by rewrite H. Qed.
Lemma M_bind_inv {S A B} (m : M S A) (f : A -> M S B) s b s' :
  (m ≫= f) s = (Ok b, s') -> exists a s1, m s = (Ok a, s1) /\ f a s1 = (Ok b, s').
Proof. unfold mbind, M_bind. destruct (m s) as [[a|e|] s1]; [eauto|discriminate..]. Qed.
Lemma mfor_app {S A} (l1 l2 : list A) (f : A -> M S unit) s :
  mfor (l1 ++ l2) f s = (mfor l1 f ≫= fun _ => mfor l2 f) s.
Proof.
  revert s. induction l1 as [|a l1 IH]; intros s; [done|]. cbn [app mfor].
  unfold mbind, M_bind in *. destruct (f a s) as [[?|?|] s']; done || apply IH.
Qed.
