(* ===== verification/Varint.v ===== *)
(** * The varint codec ([format/varint.rs])

    [read_varint]/[write_varint]/[varint_len], and the theorems that they are
    inverse, canonical and consistent with each other. *)

From S2P Require Import Prelude.

(** ** Definitions *)

(** The loop [for i in 0..8] of [read_varint]; [n] counts the iterations left,
    so [i = 8 - n]. *)
Fixpoint read_varint_loop (n : nat) (i result : Z) (buf : bytes) : option (Z * Z) :=
  match n with
  | O =>
      (* Ninth byte: all eight bits are data. *)
      byte ← zget buf 8;
      Some (Z.lor (u64 (Z.shiftl result 8)) byte, 9)
  | S n' =>
      byte ← zget buf i;
      let result := Z.lor (u64 (Z.shiftl result 7)) (Z.land byte 0x7f) in
      if Z.land byte 0x80 =? 0 then Some (result, i + 1)
      else read_varint_loop n' (i + 1) result buf
  end.
Definition read_varint (buf : bytes) : option (Z * Z) := read_varint_loop 8 0 0 buf.

Definition read_varint_i64 (buf : bytes) : option (Z * Z) :=
  (fun '(v, n) => (i64 v, n)) <$> read_varint buf.

(** [while v != 0 { len += 1; v >>= 7; }]: a [u64] is zero after ten shifts. *)
Fixpoint varint_len_loop (fuel : nat) (v len : Z) : Z :=
  match fuel with
  | O => len
  | S f => if v =? 0 then len else varint_len_loop f (Z.shiftr v 7) (len + 1)
  end.
Definition varint_len (value : Z) : Z :=
  if negb (Z.land value 0xff00000000000000 =? 0) then 9
  else varint_len_loop 10 (Z.shiftr value 7) 1.

(** The eight 7-bit groups of the nine-byte form, filled from the last slot. *)
Fixpoint nine_groups (n : nat) (v : Z) (acc : bytes) : bytes :=
  match n with
  | O => acc
  | S n' => nine_groups n' (Z.shiftr v 7) (Z.lor (Z.land (u8 v) 0x7f) 0x80 :: acc)
  end.
(** The [loop] that fills [tmp], least significant group first: [tmp[0]] is
    kept without its continuation bit, as after [tmp[0] &= 0x7f], and pushing
    [tmp] in reverse is consing. *)
Fixpoint low_groups (fuel : nat) (first : bool) (v : Z) (acc : bytes) : bytes :=
  match fuel with
  | O => acc
  | S f =>
      let b := Z.lor (Z.land (u8 v) 0x7f) 0x80 in
      let b := if first then Z.land b 0x7f else b in
      let v := Z.shiftr v 7 in
      if v =? 0 then b :: acc else low_groups f false v (b :: acc)
  end.
(** The bytes [write_varint] appends to [out]. *)
Definition varint_bytes (value : Z) : bytes :=
  if negb (Z.land value 0xff00000000000000 =? 0)
  then nine_groups 8 (Z.shiftr value 8) [Z.land value 0xff]
  else low_groups 10 true value [].
Definition write_varint (value : Z) (out : bytes) : Z * bytes :=
  (zlen (varint_bytes value), out ++ varint_bytes value).

(** ** Bit masks as arithmetic *)

Lemma land_7f b : Z.land b 0x7f = b mod 128.
Proof. change 0x7f with (Z.ones 7). by rewrite Z.land_ones. Qed.
Lemma land_ff b : Z.land b 0xff = b mod 256.
Proof. change 0xff with (Z.ones 8). by rewrite Z.land_ones. Qed.
Lemma lor_80 b : 0 <= b < 128 -> Z.lor b 0x80 = 128 + b.
Proof. intros. rewrite Z.lor_comm. by apply (lor_shiftl_add 1 b 7). Qed.
Lemma land_80 b : byte_ok b -> (Z.land b 0x80 =? 0) = (b <? 128).
Proof.
  intros Hb. unfold byte_ok in Hb.
  assert (Forall (fun b => (Z.land b 0x80 =? 0) = (b <? 128)) (seqZ 0 256)) as HF
    by (apply (bool_decide_unpack _); vm_compute; done).
  rewrite Forall_forall in HF. apply HF, elem_of_seqZ. lia.
Qed.
Lemma land_80_cont b : 0 <= b < 128 -> (Z.land (128 + b) 0x80 =? 0) = false.
Proof. intros. rewrite land_80 by (unfold byte_ok; lia). apply Z.ltb_ge. lia. Qed.

Lemma group_7f v : Z.land (u8 v) 0x7f = v mod 128.
Proof. rewrite land_7f. unfold u8. change (2 ^ 8) with (128 * 2). by rewrite Z.mod_mod_divide by (exists 2; lia). Qed.
Lemma group_cont v : Z.lor (Z.land (u8 v) 0x7f) 0x80 = 128 + v mod 128.
Proof. rewrite group_7f. apply lor_80, Z.mod_pos_bound. lia. Qed.
Lemma group_last v : Z.land (Z.lor (Z.land (u8 v) 0x7f) 0x80) 0x7f = v mod 128.
Proof.
  rewrite group_cont, land_7f. change (128 + v mod 128) with (1 * 128 + v mod 128).
  rewrite Z.add_comm, Z.mod_add by lia. apply Z.mod_mod. lia.
Qed.

Lemma top_byte v : is_u64 v -> negb (Z.land v 0xff00000000000000 =? 0) = (2 ^ 56 <=? v).
Proof.
  intros Hv. unfold is_u64 in Hv.
  assert (Z.land v 0xff00000000000000 = Z.shiftl (v / 2 ^ 56) 56) as ->.
  { change 0xff00000000000000 with (Z.shiftl (Z.ones 8) 56).
    rewrite <- Z.shiftr_div_pow2, <- Z.ldiff_ones_r by lia.
    apply Z.bits_inj'; intros i Hi. rewrite Z.land_spec, Z.ldiff_spec.
    destruct (Z_lt_le_dec i 56).
    - rewrite Z.shiftl_spec_low, Z.ones_spec_low by lia. by rewrite !andb_false_r.
    - rewrite Z.shiftl_spec by lia. rewrite (Z.ones_spec_high 56) by lia. simpl.
      destruct (Z_lt_le_dec i 64).
      + rewrite Z.ones_spec_low by lia. done.
      + rewrite <- (Z.mod_small v (2 ^ 64)) by lia. by rewrite Z.mod_pow2_bits_high by lia. }
  rewrite Z.shiftl_mul_pow2 by lia.
  destruct (Z.leb_spec (2 ^ 56) v) as [Hle|Hlt].
  - assert (1 <= v / 2 ^ 56) by (apply Z.div_le_lower_bound; lia).
    apply negb_true_iff, Z.eqb_neq. lia.
  - by rewrite Z.div_small by lia.
Qed.

(** ** Reading from a suffix

    [rv n i r s] is the read loop started at byte [i] of a buffer whose
    suffix there is [s]. *)
Fixpoint rv (n : nat) (i r : Z) (s : bytes) : option (Z * Z) :=
  match n, s with
  | _, [] => None
  | O, b :: _ => Some (r * 256 + b, 9)
  | S n', b :: s' =>
      if b <? 128 then Some (r * 128 + b, i + 1)
      else rv n' (i + 1) (r * 128 + (b - 128)) s'
  end.


Lemma step7 r b : 0 <= r < 2 ^ 57 -> 0 <= b ->
  Z.lor (u64 (Z.shiftl r 7)) (Z.land b 0x7f) = r * 128 + b mod 128.
Proof.
  intros. rewrite land_7f. unfold u64. rewrite Z.mod_small.
  2:{ rewrite Z.shiftl_mul_pow2 by lia. lia. }
  apply (lor_shiftl_add r (b mod 128) 7); [lia|]. apply Z.mod_pos_bound. lia.
Qed.

Lemma read_loop_rv n i r buf :
  bytes_ok buf -> i + Z.of_nat n = 8 -> 0 <= r < 128 ^ i -> 0 <= i ->
  read_varint_loop n i r buf = rv n i r (zdrop i buf).
Proof.
  revert i r. induction n as [|n IH]; intros i r Hb Hi Hr Hi0; simpl.
  - replace i with 8 in * by lia. rewrite (zdrop_zget_cons _ 8) by lia.
    destruct (zget buf 8) as [b|] eqn:E; simpl; [|done]. do 2 f_equal.
    pose proof (bytes_ok_zget _ _ _ Hb E) as Hb8. unfold byte_ok in Hb8. unfold u64.
    rewrite Z.mod_small; [by apply lor_shiftl_add|].
    rewrite Z.shiftl_mul_pow2 by lia. change (128 ^ 8) with (2 ^ 56) in Hr. lia.
  - rewrite (zdrop_zget_cons _ i) by lia.
    destruct (zget buf i) as [b|] eqn:E; simpl; [|done].
    pose proof (bytes_ok_zget _ _ _ Hb E) as Hbi. unfold byte_ok in Hbi.
    assert (128 ^ i <= 2 ^ 49).
    { change (2 ^ 49) with (128 ^ 7). apply Z.pow_le_mono_r; lia. }
    rewrite step7, land_80 by (done || lia).
    destruct (Z.ltb_spec b 128).
    + by rewrite Z.mod_small by lia.
    + replace (b mod 128) with (b - 128).
      2:{ rewrite <- (Z.mod_add b (-1)), Z.mod_small by lia. lia. }
      apply IH; [done|lia| |lia].
      replace (i + 1) with (Z.succ i) by lia. rewrite Z.pow_succ_r by lia. lia.
Qed.

Lemma read_varint_rv buf : bytes_ok buf -> read_varint buf = rv 8 0 0 buf.
Proof. intros. unfold read_varint. by rewrite read_loop_rv by (done || lia). Qed.

(** ** The groups that are written *)

(** The number of 7-bit groups of [v]. *)
Fixpoint ngroups (f : nat) (v : Z) : nat :=
  match f with
  | O => O
  | S f' => if v / 128 =? 0 then 1%nat else S (ngroups f' (v / 128))
  end.

Lemma ngroups_bound f k v : (k <= f)%nat -> 0 <= v < 128 ^ Z.of_nat k -> (0 < k)%nat -> (ngroups f v <= k)%nat.
Proof.
  revert k v. induction f as [|f IH]; intros k v Hk Hv H0; simpl; [lia|].
  destruct (Z.eqb_spec (v / 128) 0); [lia|].
  destruct k as [|k]; [lia|]. rewrite Nat2Z.inj_succ, Z.pow_succ_r in Hv by lia.
  destruct k as [|k].
  - simpl in Hv. rewrite Z.div_small in n by lia. done.
  - assert (ngroups f (v / 128) <= S k)%nat; [|lia].
    apply IH; [lia| |lia]. split; [apply Z.div_pos; lia|apply Z.div_lt_upper_bound; lia].
Qed.

Lemma varint_len_loop_ngroups f v l :
  0 <= v < 128 ^ Z.of_nat f -> (0 < f)%nat ->
  varint_len_loop f (Z.shiftr v 7) l = l + Z.of_nat (ngroups f v) - 1.
Proof.
  rewrite Z.shiftr_div_pow2 by lia. change (2 ^ 7) with 128.
  revert v l. induction f as [|f IH]; intros v l Hv Hf; [lia|]; simpl.
  destruct (Z.eqb_spec (v / 128) 0) as [E|E]; [lia|].
  rewrite Z.shiftr_div_pow2 by lia. change (2 ^ 7) with 128.
  rewrite Nat2Z.inj_succ, Z.pow_succ_r in Hv by lia.
  assert (0 <= v / 128 < 128 ^ Z.of_nat f).
  { split; [apply Z.div_pos; lia|apply Z.div_lt_upper_bound; lia]. }
  rewrite IH; [lia|done|]. destruct f; [simpl in *; lia|lia].
Qed.

Lemma low_groups_len f b v acc :
  length (low_groups f b v acc) = (ngroups f v + length acc)%nat.
Proof.
  revert b v acc. induction f as [|f IH]; intros b v acc; [done|].
  cbn [low_groups ngroups]. rewrite Z.shiftr_div_pow2 by lia. change (2 ^ 7) with 128.
  destruct (v / 128 =? 0); [done|]. rewrite IH. simpl. lia.
Qed.

Lemma nine_groups_len n v acc : length (nine_groups n v acc) = (n + length acc)%nat.
Proof. revert v acc. induction n as [|n IH]; intros; [done|]. cbn [nine_groups]. rewrite IH. simpl. lia. Qed.

Lemma low_groups_ok f b v acc : bytes_ok acc -> bytes_ok (low_groups f b v acc).
Proof.
  revert b v acc. induction f as [|f IH]; intros b v acc Ha; [done|].
  cbn [low_groups]. rewrite group_last, group_cont.
  pose proof (Z.mod_pos_bound v 128 ltac:(lia)).
  assert (bytes_ok ((if b then v mod 128 else 128 + v mod 128) :: acc)).
  { constructor; [|done]. unfold byte_ok. destruct b; lia. }
  destruct (_ =? 0); auto.
Qed.
Lemma nine_groups_ok n v acc : bytes_ok acc -> bytes_ok (nine_groups n v acc).
Proof.
  revert v acc. induction n as [|n IH]; intros v acc Ha; [done|].
  cbn [nine_groups]. rewrite group_cont. apply IH. constructor; [|done].
  pose proof (Z.mod_pos_bound v 128 ltac:(lia)). unfold byte_ok. lia.
Qed.
Lemma varint_bytes_ok v : bytes_ok (varint_bytes v).
Proof.
  unfold varint_bytes. destruct (negb _).
  - apply nine_groups_ok. constructor; [|constructor].
    rewrite land_ff. apply Z.mod_pos_bound. lia.
  - apply low_groups_ok. constructor.
Qed.

Lemma rv_cont n i r v s :
  rv (S n) i r ((128 + v mod 128) :: s) = rv n (i + 1) (r * 128 + v mod 128) s.
Proof.
  pose proof (Z.mod_pos_bound v 128 ltac:(lia)). simpl.
  destruct (Z.ltb_spec (128 + v mod 128) 128); [lia|]. f_equal. lia.
Qed.

Lemma app_low_groups f b v acc rest : low_groups f b v acc ++ rest = low_groups f b v (acc ++ rest).
Proof.
  revert b v acc. induction f as [|f IH]; intros b v acc; [done|].
  cbn [low_groups]. destruct (_ =? 0); [done|]. apply IH.
Qed.
Lemma app_nine_groups n v acc rest : nine_groups n v acc ++ rest = nine_groups n v (acc ++ rest).
Proof. revert v acc. induction n as [|n IH]; intros; [done|]. apply IH. Qed.

Lemma rv_low_groups f n i r v s :
  0 <= v < 128 ^ Z.of_nat f -> (0 < f)%nat ->
  rv (ngroups f v + n) i r (low_groups f false v s) =
  rv n (i + Z.of_nat (ngroups f v)) (r * 128 ^ Z.of_nat (ngroups f v) + v) s.
Proof.
  revert n i r v s. induction f as [|f IH]; intros n i r v s Hv Hf; [lia|].
  cbn [low_groups ngroups]. rewrite group_cont, Z.shiftr_div_pow2 by lia. change (2 ^ 7) with 128.
  pose proof (Z.div_mod v 128 ltac:(lia)) as Hdm.
  destruct (Z.eqb_spec (v / 128) 0) as [E|E].
  - rewrite rv_cont. f_equal. simpl. lia.
  - rewrite Nat2Z.inj_succ, Z.pow_succ_r in Hv by lia.
    assert (0 <= v / 128 < 128 ^ Z.of_nat f).
    { split; [apply Z.div_pos; lia|apply Z.div_lt_upper_bound; lia]. }
    replace (S (ngroups f (v / 128)) + n)%nat with (ngroups f (v / 128) + S n)%nat by lia.
    rewrite IH; [|done|destruct f; [simpl in *; lia|lia]].
    rewrite rv_cont. rewrite (Nat2Z.inj_succ (ngroups _ _)), Z.pow_succ_r by lia. f_equal; lia.
Qed.

Lemma rv_nine_groups n i r v s :
  0 <= v < 128 ^ Z.of_nat n ->
  rv n i r (nine_groups n v s) = rv 0 (i + Z.of_nat n) (r * 128 ^ Z.of_nat n + v) s.
Proof.
  intros Hv. replace n with (n + 0)%nat at 1 by lia. generalize 0%nat as m.
  revert v s Hv. induction n as [|n IH]; intros v s Hv m.
  - simpl in *. f_equal; lia.
  - cbn [nine_groups]. rewrite group_cont, Z.shiftr_div_pow2 by lia. change (2 ^ 7) with 128.
    pose proof (Z.div_mod v 128 ltac:(lia)) as Hdm.
    rewrite Nat2Z.inj_succ, Z.pow_succ_r in Hv |- * by lia.
    assert (0 <= v / 128 < 128 ^ Z.of_nat n).
    { split; [apply Z.div_pos; lia|apply Z.div_lt_upper_bound; lia]. }
    replace (S n + m)%nat with (n + S m)%nat by lia.
    rewrite IH by done. rewrite rv_cont. f_equal; lia.
Qed.

Lemma rv_inv n i r s v m :
  bytes_ok s -> i + Z.of_nat n = 8 -> 0 <= i -> 0 <= r < 128 ^ i ->
  rv n i r s = Some (v, m) ->
  i < m <= 9 /\ m - i <= zlen s /\ is_u64 v /\ (m <= 8 -> v < 128 ^ m) /\
  (forall rest, rv n i r (ztake (m - i) s ++ rest) = Some (v, m)).
Proof.
  revert i r s. induction n as [|n IH]; intros i r [|b s] Hs Hi Hi0 Hr H; try done;
    apply Forall_cons in Hs as [Hb Hs]; unfold byte_ok in Hb; simpl in H.
  - injection H as <- <-. replace i with 8 in * by lia.
    change (128 ^ 8) with (2 ^ 56) in Hr. unfold is_u64.
    split_and!; try (len_lia || lia). intros rest. done.
  - assert (128 ^ (i + 1) = 128 * 128 ^ i) as Hp
      by (replace (i + 1) with (Z.succ i) by lia; rewrite Z.pow_succ_r; lia).
    assert (128 ^ (i + 1) <= 128 ^ 8) as Hp8 by (apply Z.pow_le_mono_r; lia).
    destruct (Z.ltb_spec b 128) as [Hlt|Hge].
    + injection H as <- <-. unfold is_u64. change (128 ^ 8) with (2 ^ 56) in Hp8.
      split_and!; try (len_lia || lia). intros rest.
      replace (i + 1 - i) with 1 by lia. simpl. by destruct (Z.ltb_spec b 128); [|lia].
    + apply IH in H as (?&?&?&?&Hrest); [|done|lia|lia|lia].
      split_and!; try (len_lia || lia || done). intros rest.
      unfold ztake in *. replace (Z.to_nat (m - i)) with (S (Z.to_nat (m - (i + 1)))) by lia.
      simpl. destruct (Z.ltb_spec b 128); [lia|]. apply Hrest.
Qed.

(** ** Lengths *)

Lemma varint_len_small v : 0 <= v < 2 ^ 56 ->
  varint_len v = Z.of_nat (ngroups 10 v).
Proof.
  intros Hv. unfold varint_len. rewrite top_byte by (unfold is_u64; lia).
  destruct (Z.leb_spec (2 ^ 56) v); [lia|].
  rewrite varint_len_loop_ngroups; [lia| |lia].
  change (128 ^ Z.of_nat 10) with (2 ^ 70). lia.
Qed.
Lemma varint_len_big v : is_u64 v -> 2 ^ 56 <= v -> varint_len v = 9.
Proof.
  intros Hv ?. unfold varint_len. rewrite top_byte by done.
  by destruct (Z.leb_spec (2 ^ 56) v); [|lia].
Qed.

Lemma ngroups_pos f v : (0 < f)%nat -> (0 < ngroups f v)%nat.
Proof. destruct f; simpl; [lia|]. destruct (_ =? 0); lia. Qed.

Lemma ngroups_8 v : 0 <= v < 2 ^ 56 -> (0 < ngroups 10 v <= 8)%nat.
Proof.
  intros. split; [apply ngroups_pos; lia|].
  apply ngroups_bound; [lia| |lia]. by change (128 ^ Z.of_nat 8) with (2 ^ 56).
Qed.

Lemma varint_len_range v : is_u64 v -> 1 <= varint_len v <= 9.
Proof.
  intros Hv. destruct (Z_lt_le_dec v (2 ^ 56)).
  - unfold is_u64 in Hv. rewrite varint_len_small by lia. pose proof (ngroups_8 v ltac:(lia)). lia.
  - rewrite varint_len_big by done. lia.
Qed.

Lemma varint_len_le v m : is_u64 v -> 0 < m <= 9 -> (m <= 8 -> v < 128 ^ m) -> varint_len v <= m.
Proof.
  intros Hv Hm Hlt. destruct (Z.eq_dec m 9) as [->|?]; [apply varint_len_range; done|].
  specialize (Hlt ltac:(lia)). unfold is_u64 in Hv.
  assert (128 ^ m <= 128 ^ 8) as Hp by (apply Z.pow_le_mono_r; lia).
  change (128 ^ 8) with (2 ^ 56) in Hp. rewrite varint_len_small by lia.
  pose proof (ngroups_bound 10 (Z.to_nat m) v ltac:(lia)) as Hb.
  rewrite Z2Nat.id in Hb by lia. lia.
Qed.

Lemma zlen_varint_bytes v : is_u64 v -> zlen (varint_bytes v) = varint_len v.
Proof.
  intros Hv. unfold varint_bytes. rewrite top_byte by done.
  destruct (Z.leb_spec (2 ^ 56) v).
  - rewrite varint_len_big by done. unfold zlen. by rewrite nine_groups_len.
  - unfold is_u64 in Hv. rewrite varint_len_small by lia. unfold zlen.
    rewrite low_groups_len. simpl length. lia.
Qed.

Lemma read_varint_app v rest :
  is_u64 v -> bytes_ok rest -> read_varint (varint_bytes v ++ rest) = Some (v, varint_len v).
Proof.
  intros Hv Hr. rewrite read_varint_rv by (apply Forall_app; auto using varint_bytes_ok).
  unfold varint_bytes. rewrite top_byte by done. unfold is_u64 in Hv.
  destruct (Z.leb_spec (2 ^ 56) v) as [Hge|Hlt].
  - rewrite varint_len_big by done. rewrite app_nine_groups, Z.shiftr_div_pow2, land_ff by lia.
    rewrite rv_nine_groups.
    2:{ change (128 ^ Z.of_nat 8) with (2 ^ 56).
        split; [apply Z.div_pos; lia|apply Z.div_lt_upper_bound; lia]. }
    simpl. do 2 f_equal. change (2 ^ 8) with 256. pose proof (Z.div_mod v 256). lia.
  - rewrite varint_len_small, app_low_groups by lia. pose proof (ngroups_8 v ltac:(lia)) as Hn.
    change (low_groups 10 true v ([] ++ rest)) with
      (if Z.shiftr v 7 =? 0 then Z.land (Z.lor (Z.land (u8 v) 0x7f) 0x80) 0x7f :: rest
       else low_groups 9 false (Z.shiftr v 7) (Z.land (Z.lor (Z.land (u8 v) 0x7f) 0x80) 0x7f :: rest)).
    change (ngroups 10 v) with (if v / 128 =? 0 then 1%nat else S (ngroups 9 (v / 128))) in Hn |- *.
    rewrite group_last, Z.shiftr_div_pow2 by lia. change (2 ^ 7) with 128.
    pose proof (Z.mod_pos_bound v 128 ltac:(lia)). pose proof (Z.div_mod v 128 ltac:(lia)).
    destruct (Z.eqb_spec (v / 128) 0) as [E|E].
    + simpl. destruct (Z.ltb_spec (v mod 128) 128); [|lia]. do 2 f_equal. lia.
    + set (k := ngroups 9 (v / 128)) in *.
      assert (rv 8 = rv (k + S (7 - k))) as -> by (f_equal; lia). unfold k.
      rewrite rv_low_groups; [| |lia].
      2:{ change (128 ^ Z.of_nat 9) with (2 ^ 63).
          split; [apply Z.div_pos; lia|apply Z.div_lt_upper_bound; lia]. }
      simpl. destruct (Z.ltb_spec (v mod 128) 128); [|lia]. do 2 f_equal; lia.
Qed.

Lemma read_varint_inv buf v n :
  bytes_ok buf -> read_varint buf = Some (v, n) ->
  0 < n <= 9 /\ n <= zlen buf /\ is_u64 v /\ varint_len v <= n /\
  (forall rest, bytes_ok rest -> read_varint (ztake n buf ++ rest) = Some (v, n)).
Proof.
  intros Hb H. rewrite read_varint_rv in H by done.
  apply rv_inv in H as (?&?&?&?&Hrest); [|done|lia|lia|simpl; lia].
  split_and!; try lia; [done|apply varint_len_le; try done; lia|].
  intros rest Hr. rewrite read_varint_rv; [|apply Forall_app; split; [by apply bytes_ok_ztake|done]].
  specialize (Hrest rest). by rewrite Z.sub_0_r in Hrest.
Qed.

(** A value needs its [varint_len] groups, so the length is monotone. *)
Lemma varint_len_fits v : is_u64 v -> varint_len v <= 8 -> v < 128 ^ varint_len v.
Proof.
  intros Hv Hl. pose proof (read_varint_app v [] Hv ltac:(constructor)) as H.
  rewrite read_varint_rv in H by (apply Forall_app; auto using varint_bytes_ok).
  apply rv_inv in H as (?&?&?&Hlt&?); [auto|auto using varint_bytes_ok, Forall_app_2, Forall_nil_2|lia|lia|simpl; lia].
Qed.
Lemma varint_len_mono u v : is_u64 u -> is_u64 v -> u <= v -> varint_len u <= varint_len v.
Proof.
  intros Hu Hv Huv. pose proof (varint_len_range v Hv).
  apply varint_len_le; [done|lia|]. intros. pose proof (varint_len_fits v Hv). lia.
Qed.

(** ** Properties *)

(** C28: [write_varint] then [read_varint] is the identity on every [u64],
    whatever follows in the buffer: the value, the number of bytes written,
    [varint_len] and the number of bytes consumed all agree. *)
Theorem varint_roundtrip v out rest (Hv : is_u64 v) (Hr : bytes_ok rest) :
  exists n enc, write_varint v out = (n, out ++ enc) /\ n = zlen enc /\ n = varint_len v /\
    1 <= n <= 9 /\ bytes_ok enc /\ read_varint (enc ++ rest) = Some (v, n).
Proof.
  exists (varint_len v), (varint_bytes v). unfold write_varint.
  rewrite zlen_varint_bytes, read_varint_app by done.
  split_and!; try done; try apply varint_len_range; auto using varint_bytes_ok.
Qed.
Lemma varint_roundtrip_witness :
  exists n enc, write_varint (2 ^ 56) [7] = (n, [7] ++ enc) /\ n = zlen enc /\
    n = varint_len (2 ^ 56) /\ 1 <= n <= 9 /\ bytes_ok enc /\
    read_varint (enc ++ [1; 2]) = Some (2 ^ 56, n).
Proof.
  apply (varint_roundtrip (2 ^ 56) [7] [1; 2]); [unfold is_u64; lia|].
  repeat constructor; unfold byte_ok; lia.
Defined.

(** [read_varint] consumes between one and nine of the bytes it was given,
    yields a [u64], never depends on the bytes after those it consumed, and
    never consumes fewer bytes than the writer would emit for that value. *)
Theorem read_varint_sound buf v n (Hb : bytes_ok buf) (H : read_varint buf = Some (v, n)) :
  1 <= n <= 9 /\ n <= zlen buf /\ is_u64 v /\ zlen (varint_bytes v) <= n /\
  (forall rest, bytes_ok rest -> read_varint (ztake n buf ++ rest) = Some (v, n)).
Proof.
  apply read_varint_inv in H as (?&?&?&?&?); [|done].
  rewrite zlen_varint_bytes by done. split_and!; (done || lia).
Qed.
Lemma read_varint_sound_witness :
  1 <= 2 <= 9 /\ 2 <= zlen [0x82; 0x2c; 9] /\ is_u64 300 /\ zlen (varint_bytes 300) <= 2 /\
  (forall rest, bytes_ok rest -> read_varint (ztake 2 [0x82; 0x2c; 9] ++ rest) = Some (300, 2)).
Proof.
  apply (read_varint_sound [0x82; 0x2c; 9] 300 2); [|reflexivity].
  repeat constructor; unfold byte_ok; lia.
Defined.

(** The library's own boundary tests. *)
Example varint_known_300 : varint_bytes 300 = [0x82; 0x2c].
Proof. reflexivity. Qed.
Example varint_u64_max : read_varint (varint_bytes (2 ^ 64 - 1)) = Some (2 ^ 64 - 1, 9).
Proof. reflexivity. Qed.
Example varint_minus_one : read_varint_i64 (varint_bytes (u64 (-1))) = Some (-1, 9).
Proof. reflexivity. Qed.
Example varint_truncated : read_varint [0x80] = None /\ read_varint [] = None.
Proof. split; reflexivity. Qed.
