(* ===== verification/Utf8.v ===== *)
(** * Rust strings

    A Rust [String] is a byte buffer holding well-formed UTF-8. This file
    models the standard-library conversions the record codec uses
    ([String::from_utf8_lossy], [String::from_utf16_lossy]) and shows that
    they only ever build well-formed strings. *)

From S2P Require Import Prelude.

Definition is_cont (b : Z) : bool := (128 <=? b) && (b <? 192).

(** The second byte a three- or four-byte character may have after [b0]. *)
Definition second_ok (b0 b1 : Z) : bool :=
  if b0 =? 0xE0 then (0xA0 <=? b1) && (b1 <=? 0xBF)
  else if b0 =? 0xED then (0x80 <=? b1) && (b1 <=? 0x9F)
  else if b0 =? 0xF0 then (0x90 <=? b1) && (b1 <=? 0xBF)
  else if b0 =? 0xF4 then (0x80 <=? b1) && (b1 <=? 0x8F)
  else is_cont b1.

Definition hd_ok (p : Z -> bool) (s : bytes) : bool :=
  match s with b :: _ => p b | [] => false end.

(** One step of the UTF-8 decoder on a non-empty input: whether a character
    starts here, and how many bytes it (or the maximal ill-formed subpart)
    takes. *)
Definition utf8_next (s : bytes) : bool * nat :=
  match s with
  | [] => (false, 0%nat)
  | b0 :: s1 =>
      if b0 <? 0x80 then (true, 1%nat)
      else if (0xC2 <=? b0) && (b0 <=? 0xDF) then
        if hd_ok is_cont s1 then (true, 2%nat) else (false, 1%nat)
      else if (0xE0 <=? b0) && (b0 <=? 0xEF) then
        if hd_ok (second_ok b0) s1 then
          if hd_ok is_cont (drop 1 s1) then (true, 3%nat) else (false, 2%nat)
        else (false, 1%nat)
      else if (0xF0 <=? b0) && (b0 <=? 0xF4) then
        if hd_ok (second_ok b0) s1 then
          if hd_ok is_cont (drop 1 s1) then
            if hd_ok is_cont (drop 2 s1) then (true, 4%nat) else (false, 3%nat)
          else (false, 2%nat)
        else (false, 1%nat)
      else (false, 1%nat)
  end.

(** U+FFFD. *)
Definition replacement : bytes := [0xEF; 0xBF; 0xBD].

Fixpoint utf8_lossy_loop (fuel : nat) (s : bytes) : bytes :=
  match fuel, s with
  | S f, _ :: _ =>
      let '(ok, n) := utf8_next s in
      (if ok then take n s else replacement) ++ utf8_lossy_loop f (drop n s)
  | _, _ => []
  end.
(** [String::from_utf8_lossy(s).into_owned()]; every step consumes a byte. *)
Definition from_utf8_lossy (s : bytes) : bytes := utf8_lossy_loop (length s) s.

Fixpoint utf8_valid_loop (fuel : nat) (s : bytes) : bool :=
  match fuel, s with
  | _, [] => true
  | O, _ => false
  | S f, _ => let '(ok, n) := utf8_next s in ok && utf8_valid_loop f (drop n s)
  end.
(** The invariant of a Rust [String]. *)
Definition utf8_valid (s : bytes) : bool := utf8_valid_loop (length s) s.

(** [char::encode_utf8]. *)
Definition encode_char (c : Z) : bytes :=
  if c <? 0x80 then [c]
  else if c <? 0x800 then [0xC0 + c / 64; 0x80 + c mod 64]
  else if c <? 0x10000 then [0xE0 + c / 4096; 0x80 + c / 64 mod 64; 0x80 + c mod 64]
  else [0xF0 + c / 262144; 0x80 + c / 4096 mod 64; 0x80 + c / 64 mod 64; 0x80 + c mod 64].

(** [String::from_utf16_lossy]: surrogate pairs are joined, an unpaired
    surrogate becomes U+FFFD. *)
Fixpoint from_utf16_lossy (u : list Z) : bytes :=
  match u with
  | [] => []
  | a :: u' =>
      if (a <? 0xD800) || (0xE000 <=? a) then encode_char a ++ from_utf16_lossy u'
      else match u' with
           | b :: u'' =>
               if (a <? 0xDC00) && (0xDC00 <=? b) && (b <? 0xE000)
               then encode_char (0x10000 + (a - 0xD800) * 1024 + (b - 0xDC00)) ++ from_utf16_lossy u''
               else replacement ++ from_utf16_lossy u'
           | [] => replacement
           end
  end.

(** ** Lemmas *)

Lemma utf8_next_pos s : s <> [] -> (0 < snd (utf8_next s))%nat.
Proof.
  destruct s as [|b s]; [done|]. intros _. unfold utf8_next.
  repeat match goal with |- context [if ?c then _ else _] => destruct c end; simpl; lia.
Qed.

Lemma hd_ok_Some p s : hd_ok p s = true -> exists b s', s = b :: s' /\ p b = true.
Proof. destruct s as [|b s]; simpl; [done|]. eauto. Qed.

Ltac utf8_cases :=
  intros H; simpl in H |- *;
  repeat match type of H with context [if ?c then _ else _] => destruct c eqn:? end;
  try discriminate H; injection H as <-; simpl;
  repeat match goal with E : ?c = _ |- context [if ?c then _ else _] => rewrite E end.

Lemma utf8_next_le s n : utf8_next s = (true, n) -> (n <= length s)%nat.
Proof.
  destruct s as [|b0 [|b1 [|b2 [|b3 s]]]]; utf8_cases; try discriminate; simpl; lia.
Qed.

(** Only the bytes of the character itself matter. *)
Lemma utf8_next_app s n rest : utf8_next s = (true, n) -> utf8_next (take n s ++ rest) = (true, n).
Proof.
  destruct s as [|b0 [|b1 [|b2 [|b3 s]]]]; utf8_cases; try discriminate; done.
Qed.

(** The loops do not depend on spare fuel. *)
Lemma utf8_valid_fuel f g s :
  (length s <= f)%nat -> (length s <= g)%nat -> utf8_valid_loop f s = utf8_valid_loop g s.
Proof.
  revert g s. induction f as [|f IH]; intros [|g] [|b s] Hf Hg; simpl length in *; try lia; try done.
  cbn [utf8_valid_loop]. pose proof (utf8_next_pos (b :: s) ltac:(done)).
  destruct (utf8_next (b :: s)) as [ok n]; simpl in H. f_equal.
  apply IH; rewrite length_drop; simpl; lia.
Qed.

Lemma utf8_valid_step s n :
  utf8_next s = (true, n) -> s <> [] -> utf8_valid s = utf8_valid (drop n s).
Proof.
  intros Hn Hs. unfold utf8_valid. destruct s as [|b s]; [done|].
  change (length (b :: s)) with (S (length s)). cbn [utf8_valid_loop]. rewrite Hn. simpl andb.
  pose proof (utf8_next_pos (b :: s) Hs) as Hp. rewrite Hn in Hp. simpl in Hp.
  apply utf8_valid_fuel; rewrite ?length_drop; simpl; lia.
Qed.

Lemma utf8_valid_char c n rest :
  utf8_next c = (true, n) -> length c = n -> utf8_valid rest = true -> utf8_valid (c ++ rest) = true.
Proof.
  intros Hn Hl Hr. destruct c as [|b c]; [done|].
  pose proof (utf8_next_app _ _ rest Hn) as Ha. rewrite take_ge in Ha by lia.
  rewrite (utf8_valid_step _ _ Ha) by done. by rewrite drop_app_ge, Hl, Nat.sub_diag by lia.
Qed.

Lemma lossy_loop_valid f s : (length s <= f)%nat -> utf8_valid s = true -> utf8_lossy_loop f s = s.
Proof.
  revert s. induction f as [|f IH]; intros [|b s] Hf Hv; simpl length in *; try lia; try done.
  cbn [utf8_lossy_loop].
  pose proof (utf8_next_pos (b :: s) ltac:(done)) as Hp.
  destruct (utf8_next (b :: s)) as [ok n] eqn:E. simpl in Hp.
  destruct ok.
  - rewrite IH; [by rewrite take_drop| |by rewrite <- (utf8_valid_step _ _ E)].
    rewrite length_drop. simpl. lia.
  - unfold utf8_valid in Hv. simpl length in Hv. cbn [utf8_valid_loop] in Hv. by rewrite E in Hv.
Qed.

Lemma from_utf8_lossy_valid s : utf8_valid s = true -> from_utf8_lossy s = s.
Proof. intros. by apply lossy_loop_valid. Qed.

Lemma lossy_loop_is_valid f s : utf8_valid (utf8_lossy_loop f s) = true.
Proof.
  revert s. induction f as [|f IH]; intros [|b s]; try done. cbn [utf8_lossy_loop].
  destruct (utf8_next (b :: s)) as [[|] n] eqn:E.
  - eapply utf8_valid_char; [|reflexivity|apply IH].
    pose proof (utf8_next_le _ _ E). rewrite length_take_le by done.
    rewrite <- (app_nil_r (take n (b :: s))). by apply utf8_next_app.
  - by eapply (utf8_valid_char replacement 3%nat).
Qed.
Lemma from_utf8_lossy_is_valid s : utf8_valid (from_utf8_lossy s) = true.
Proof. apply lossy_loop_is_valid. Qed.

(** Scalar values: code points that are not surrogates. *)
Definition is_scalar (c : Z) : Prop := 0 <= c < 0xD800 \/ 0xE000 <= c < 0x110000.

Ltac ranges :=
  repeat match goal with
    | |- context [?a <? ?b] => destruct (Z.ltb_spec a b); try (exfalso; lia)
    | |- context [?a <=? ?b] => destruct (Z.leb_spec a b); try (exfalso; lia)
    | |- context [?a =? ?b] => destruct (Z.eqb_spec a b); try (exfalso; lia)
    end; simpl; try done.

Lemma encode_char_next c : is_scalar c -> utf8_next (encode_char c) = (true, length (encode_char c)).
Proof.
  intros Hc. unfold is_scalar in Hc. unfold encode_char.
  assert (c / 4096 = c / 64 / 64) as E1 by (rewrite Z.div_div by lia; done).
  assert (c / 262144 = c / 64 / 64 / 64) as E2 by (rewrite !Z.div_div by lia; done).
  rewrite E1, E2. clear E1 E2.
  pose proof (Z.div_mod c 64 ltac:(lia)). pose proof (Z.mod_pos_bound c 64 ltac:(lia)).
  set (q := c / 64) in *. set (r := c mod 64) in *.
  pose proof (Z.div_mod q 64 ltac:(lia)). pose proof (Z.mod_pos_bound q 64 ltac:(lia)).
  set (q2 := q / 64) in *. set (r2 := q mod 64) in *.
  pose proof (Z.div_mod q2 64 ltac:(lia)). pose proof (Z.mod_pos_bound q2 64 ltac:(lia)).
  set (q3 := q2 / 64) in *. set (r3 := q2 mod 64) in *.
  clearbody q r q2 r2 q3 r3.
  destruct (Z.ltb_spec c 0x80); [simpl; ranges|].
  destruct (Z.ltb_spec c 0x800); [unfold utf8_next, hd_ok, is_cont; ranges|].
  destruct (Z.ltb_spec c 0x10000); unfold utf8_next, hd_ok, second_ok, is_cont, drop; ranges.
Qed.

Lemma encode_char_valid c rest :
  is_scalar c -> utf8_valid rest = true -> utf8_valid (encode_char c ++ rest) = true.
Proof. intros. eapply utf8_valid_char; [by apply encode_char_next|done..]. Qed.

Lemma from_utf16_lossy_valid_len n u :
  (length u <= n)%nat -> Forall is_u16 u -> utf8_valid (from_utf16_lossy u) = true.
Proof.
  revert u. induction n as [|n IH]; intros [|a u] Hn Hu; simpl length in *; try lia; try done.
  apply Forall_cons in Hu as [Ha Hu]. unfold is_u16 in Ha. cbn [from_utf16_lossy].
  assert (forall l, (length l <= n)%nat -> Forall is_u16 l ->
            utf8_valid (replacement ++ from_utf16_lossy l) = true) as Hrep.
  { intros. eapply (utf8_valid_char replacement 3%nat); [done..|]. by apply IH. }
  destruct (Z.ltb_spec a 0xD800), (Z.leb_spec 0xE000 a); simpl orb; cbn [orb];
    try (apply encode_char_valid; [unfold is_scalar; lia|apply IH; [lia|done]]).
  destruct u as [|b u]; [done|]. simpl length in Hn.
  destruct (Z.ltb_spec a 0xDC00), (Z.leb_spec 0xDC00 b), (Z.ltb_spec b 0xE000); simpl andb; cbn [andb];
    try (apply (Hrep (b :: u)); [simpl; lia|done]).
  apply Forall_cons in Hu as [Hb Hu].
  apply encode_char_valid; [unfold is_scalar; lia|]. apply IH; [lia|done].
Qed.
Lemma from_utf16_lossy_valid u : Forall is_u16 u -> utf8_valid (from_utf16_lossy u) = true.
Proof. by apply (from_utf16_lossy_valid_len (length u)). Qed.

(** The decoders produce bytes. *)
Lemma replacement_ok : bytes_ok replacement.
Proof. repeat constructor; unfold byte_ok; lia. Qed.
Lemma lossy_loop_ok f s : bytes_ok s -> bytes_ok (utf8_lossy_loop f s).
Proof.
  revert s. induction f as [|f IH]; intros [|b s] Hs; try constructor. cbn [utf8_lossy_loop].
  destruct (utf8_next (b :: s)) as [ok n]. apply Forall_app. split; [|by apply IH, Forall_drop].
  destruct ok; [by apply Forall_take|apply replacement_ok].
Qed.
Lemma from_utf8_lossy_ok s : bytes_ok s -> bytes_ok (from_utf8_lossy s).
Proof. apply lossy_loop_ok. Qed.
Lemma encode_char_ok c : is_scalar c -> bytes_ok (encode_char c).
Proof.
  intros Hc. unfold is_scalar in Hc. unfold encode_char.
  destruct (Z.ltb_spec c 0x80); [|destruct (Z.ltb_spec c 0x800); [|destruct (Z.ltb_spec c 0x10000)]];
    repeat constructor; unfold byte_ok; Z.div_mod_to_equations; lia.
Qed.
Lemma from_utf16_lossy_ok_len n u :
  (length u <= n)%nat -> Forall is_u16 u -> bytes_ok (from_utf16_lossy u).
Proof.
  revert u. induction n as [|n IH]; intros [|a u] Hn Hu; simpl length in *; try lia; try constructor.
  apply Forall_cons in Hu as [Ha Hu]. cbn [from_utf16_lossy]. unfold is_u16 in Ha.
  destruct (_ || _) eqn:E.
  - apply Forall_app. split; [|by apply IH; [lia|]]. apply encode_char_ok. unfold is_scalar. lia.
  - destruct u as [|b u]; [apply replacement_ok|]. destruct (_ && _) eqn:E2.
    + apply Forall_cons in Hu as [Hb Hu]. apply Forall_app. simpl length in *.
      split; [|by apply IH; [lia|]]. apply encode_char_ok. unfold is_scalar, is_u16 in *. lia.
    + apply Forall_app. split; [apply replacement_ok|]. by apply IH; [lia|].
Qed.
Lemma from_utf16_lossy_ok u : Forall is_u16 u -> bytes_ok (from_utf16_lossy u).
Proof. by apply (from_utf16_lossy_ok_len (length u)). Qed.

(** ASCII case mapping ([to_ascii_uppercase], [eq_ignore_ascii_case]). *)
Definition ascii_upper (b : Z) : Z := if (97 <=? b) && (b <=? 122) then b - 32 else b.
Definition to_ascii_uppercase (s : bytes) : bytes := ascii_upper <$> s.
Definition eq_ignore_ascii_case (a b : bytes) : bool :=
  bool_decide (to_ascii_uppercase a = to_ascii_uppercase b).

(** Bytes of a string literal. *)
Definition bytes_of (s : string) : bytes :=
  (fun a => Z.of_nat (Ascii.nat_of_ascii a)) <$> String.list_ascii_of_string s.
