(* ===== verification/Float64.v ===== *)
(** * IEEE binary64

    An [f64] is its 64-bit pattern. [f64_key] is its exact value in units of
    2^-1074 (every finite double is an integer multiple of that, and the
    infinities lie beyond all of them), so comparisons and conversions are
    exact integer arithmetic. *)

From S2P Require Import Prelude.

Definition f64_frac (x : Z) : Z := x mod 2 ^ 52.
Definition f64_exp (x : Z) : Z := (x / 2 ^ 52) mod 2048.
Definition f64_neg (x : Z) : bool := 2 ^ 63 <=? x.
Definition f64_is_nan (x : Z) : bool := (f64_exp x =? 2047) && negb (f64_frac x =? 0).

Definition f64_mag (x : Z) : Z :=
  if f64_exp x =? 0 then f64_frac x
  else if f64_exp x =? 2047 then 2 ^ 2098
  else (2 ^ 52 + f64_frac x) * 2 ^ (f64_exp x - 1).
Definition f64_key (x : Z) : Z := if f64_neg x then - f64_mag x else f64_mag x.

(** [PartialOrd for f64]: a NaN is unordered. *)
Definition f64_partial_cmp (x y : Z) : option comparison :=
  if f64_is_nan x || f64_is_nan y then None else Some (f64_key x ?= f64_key y).
Definition f64_lt (x y : Z) : bool :=
  match f64_partial_cmp x y with Some Lt => true | _ => false end.
Definition f64_ge (x y : Z) : bool :=
  match f64_partial_cmp x y with Some (Eq | Gt) => true | _ => false end.

(** [x as i64]: truncation toward zero, saturating, NaN to 0. *)
Definition f64_to_i64 (x : Z) : Z :=
  if f64_is_nan x then 0
  else Z.max (- 2 ^ 63) (Z.min (2 ^ 63 - 1) (Z.quot (f64_key x) (2 ^ 1074))).

(** [i as f64]: rounding to nearest, ties to even. *)
Definition round_half_even (q r d : Z) : Z :=
  match 2 * r ?= d with
  | Lt => q
  | Gt => q + 1
  | Eq => if Z.even q then q else q + 1
  end.
Definition f64_of_mag (a : Z) : Z :=
  if a =? 0 then 0
  else
    let l := Z.log2 a in
    let m := if l <=? 52 then a * 2 ^ (52 - l)
             else round_half_even (a / 2 ^ (l - 52)) (a mod 2 ^ (l - 52)) (2 ^ (l - 52)) in
    (l + 1023) * 2 ^ 52 + (m - 2 ^ 52).
Definition i64_as_f64 (i : Z) : Z :=
  if i <? 0 then 2 ^ 63 + f64_of_mag (- i) else f64_of_mag i.

(** ** Exactness *)

Lemma f64_fields s e f :
  (s = 0 \/ s = 1) -> 0 <= e < 2048 -> 0 <= f < 2 ^ 52 ->
  let x := s * 2 ^ 63 + e * 2 ^ 52 + f in
  f64_frac x = f /\ f64_exp x = e /\ f64_neg x = (s =? 1).
Proof.
  intros Hs He Hf x. unfold x, f64_frac, f64_exp, f64_neg. split_and!.
  - replace (s * 2 ^ 63 + e * 2 ^ 52 + f) with (f + (s * 2048 + e) * 2 ^ 52) by lia.
    rewrite Z.mod_add, Z.mod_small; lia.
  - replace (s * 2 ^ 63 + e * 2 ^ 52 + f) with ((s * 2048 + e) * 2 ^ 52 + f) by lia.
    rewrite Z.div_add_l, (Z.div_small f), Z.add_0_r by lia.
    rewrite Z.add_comm, Z.mod_add, Z.mod_small; lia.
  - destruct Hs as [-> | ->]; simpl Z.eqb; [apply Z.leb_gt|apply Z.leb_le]; lia.
Qed.

(** A magnitude is representable when it is a 53-bit integer times a power of two. *)
Definition representable (a : Z) : Prop :=
  exists m k, a = m * 2 ^ k /\ 0 <= m < 2 ^ 53 /\ 0 <= k.

Lemma rounded_exact a : 0 < a -> representable a ->
  let l := Z.log2 a in
  let m := if l <=? 52 then a * 2 ^ (52 - l)
           else round_half_even (a / 2 ^ (l - 52)) (a mod 2 ^ (l - 52)) (2 ^ (l - 52)) in
  2 ^ 52 <= m < 2 ^ 53 /\ m * 2 ^ (l + 1022) = a * 2 ^ 1074.
Proof.
  intros Ha (mm & k & -> & Hm & Hk) l.
  pose proof (Z.log2_spec (mm * 2 ^ k) Ha) as [Hlo Hhi]. fold l in Hlo, Hhi.
  assert (0 <= l) by apply Z.log2_nonneg.
  destruct (Z.leb_spec l 52) as [Hl|Hl]; intros m; unfold m; clear m.
  - set (a := mm * 2 ^ k) in *. assert (0 < 2 ^ (52 - l)) by (apply Z.pow_pos_nonneg; lia).
    assert (2 ^ 52 = 2 ^ l * 2 ^ (52 - l)) as E by (rewrite <- Z.pow_add_r by lia; f_equal; lia).
    assert (2 ^ 53 = 2 ^ Z.succ l * 2 ^ (52 - l)) as E' by (rewrite <- Z.pow_add_r by lia; f_equal; lia).
    split; [nia|]. rewrite <- Z.mul_assoc, <- Z.pow_add_r by lia. do 2 f_equal. lia.
  - assert (l - 52 <= k) as Hlk.
    { assert (2 ^ l < 2 ^ (53 + k)); [|apply Z.pow_lt_mono_r_iff in H0; lia].
      rewrite Z.pow_add_r by lia. assert (0 < 2 ^ k) by (apply Z.pow_pos_nonneg; lia). nia. }
    set (d := l - 52) in *. assert (0 < 2 ^ d) by (apply Z.pow_pos_nonneg; lia).
    assert (mm * 2 ^ k = mm * 2 ^ (k - d) * 2 ^ d) as E.
    { rewrite <- Z.mul_assoc, <- Z.pow_add_r by lia. do 2 f_equal. lia. }
    rewrite E. rewrite Z.div_mul, Z.mod_mul by lia.
    unfold round_half_even. rewrite Z.mul_0_r, (proj2 (Z.compare_lt_iff 0 _)) by lia.
    set (q := mm * 2 ^ (k - d)) in *. rewrite E in Hlo, Hhi.
    assert (2 ^ l = 2 ^ 52 * 2 ^ d) as E1 by (rewrite <- Z.pow_add_r by lia; f_equal; lia).
    assert (2 ^ Z.succ l = 2 ^ 53 * 2 ^ d) as E2 by (rewrite <- Z.pow_add_r by lia; f_equal; lia).
    rewrite E1 in Hlo. rewrite E2 in Hhi. split; [nia|].
    rewrite <- Z.mul_assoc, <- Z.pow_add_r by lia. do 2 f_equal. lia.
Qed.

Lemma key_of_parts s l m :
  (s = 0 \/ s = 1) -> 0 <= l < 1023 -> 2 ^ 52 <= m < 2 ^ 53 ->
  let x := s * 2 ^ 63 + (l + 1023) * 2 ^ 52 + (m - 2 ^ 52) in
  f64_is_nan x = false /\ f64_key x = (1 - 2 * s) * (m * 2 ^ (l + 1022)).
Proof.
  intros Hs Hl Hm x.
  destruct (f64_fields s (l + 1023) (m - 2 ^ 52) Hs ltac:(lia) ltac:(lia)) as (Hf & He & Hn).
  fold x in Hf, He, Hn. unfold f64_is_nan, f64_key, f64_mag. rewrite Hf, He, Hn.
  destruct (Z.eqb_spec (l + 1023) 2047), (Z.eqb_spec (l + 1023) 0); try lia. split; [done|].
  replace (2 ^ 52 + (m - 2 ^ 52)) with m by lia.
  replace (l + 1023 - 1) with (l + 1022) by lia.
  destruct Hs as [-> | ->]; simpl Z.eqb; cbv iota; lia.
Qed.

Lemma i64_as_f64_exact i : is_i64 i -> representable (Z.abs i) ->
  f64_is_nan (i64_as_f64 i) = false /\ f64_key (i64_as_f64 i) = i * 2 ^ 1074.
Proof.
  intros Hi Hr. unfold is_i64 in Hi. unfold i64_as_f64, f64_of_mag.
  destruct (Z.eq_dec i 0) as [->|Hne]; [by vm_compute|].
  destruct (rounded_exact (Z.abs i) ltac:(lia) Hr) as [Hm Hv].
  assert (0 <= Z.log2 (Z.abs i) < 64) as Hl.
  { split; [apply Z.log2_nonneg|apply Z.log2_lt_pow2; lia]. }
  destruct (Z.ltb_spec i 0).
  - replace (Z.abs i) with (- i) in * by lia. destruct (Z.eqb_spec (- i) 0); [lia|].
    cbv zeta in *. set (m := if _ <=? 52 then _ else _) in *.
    destruct (key_of_parts 1 (Z.log2 (- i)) m ltac:(auto) ltac:(lia) Hm) as [Hnan Hk].
    rewrite <- Z.add_assoc in Hnan, Hk. rewrite Z.mul_1_l in Hnan, Hk.
    split; [done|]. rewrite Hk, Hv. lia.
  - replace (Z.abs i) with i in * by lia. destruct (Z.eqb_spec i 0); [lia|].
    cbv zeta in *. set (m := if _ <=? 52 then _ else _) in *.
    destruct (key_of_parts 0 (Z.log2 i) m ltac:(auto) ltac:(lia) Hm) as [Hnan Hk].
    rewrite <- Z.add_assoc in Hnan, Hk. rewrite Z.mul_0_l, Z.add_0_l in Hnan, Hk.
    split; [done|]. rewrite Hk, Hv. lia.
Qed.

Lemma f64_mag_bounds x : 0 <= f64_mag x.
Proof.
  unfold f64_mag, f64_frac. pose proof (Z.mod_pos_bound x (2 ^ 52) ltac:(lia)).
  destruct (_ =? 0); [lia|]. destruct (_ =? 2047); [lia|].
  apply Z.mul_nonneg_nonneg; [lia|]. apply Z.pow_nonneg. lia.
Qed.

(** Truncating a finite double to an integer gives a representable integer. *)
Lemma trunc_mag_representable x : f64_exp x <> 2047 -> representable (f64_mag x / 2 ^ 1074).
Proof.
  intros Hexp. unfold f64_mag.
  pose proof (Z.mod_pos_bound (x / 2 ^ 52) 2048 ltac:(lia)) as He. fold (f64_exp x) in He.
  pose proof (Z.mod_pos_bound x (2 ^ 52) ltac:(lia)) as Hf. fold (f64_frac x) in Hf.
  set (e := f64_exp x) in *. set (f := f64_frac x) in *. clearbody e f.
  assert (0 < 2 ^ 1074) as HD by (apply Z.pow_pos_nonneg; lia).
  destruct (Z.eqb_spec e 0).
  { exists 0, 0. split; [|lia]. apply Z.div_small.
    assert (2 ^ 52 <= 2 ^ 1074) by (apply Z.pow_le_mono_r; lia). lia. }
  destruct (Z.eqb_spec e 2047); [lia|].
  assert (0 < 2 ^ (e - 1)) as HE by (apply Z.pow_pos_nonneg; lia).
  destruct (Z_lt_le_dec e 1075).
  - exists ((2 ^ 52 + f) * 2 ^ (e - 1) / 2 ^ 1074), 0. split; [lia|]. split; [|lia].
    assert (2 ^ (e - 1) <= 2 ^ 1074) by (apply Z.pow_le_mono_r; lia).
    split; [apply Z.div_pos; nia|apply Z.div_lt_upper_bound; nia].
  - exists (2 ^ 52 + f), (e - 1075). split; [|lia].
    replace (e - 1) with ((e - 1075) + 1074) by lia.
    rewrite Z.pow_add_r, Z.mul_assoc by lia. by rewrite Z.div_mul by lia.
Qed.

Lemma unit_pos : 0 < 2 ^ 1074.
Proof. by vm_compute. Qed.

Lemma f64_to_i64_quot r :
  f64_is_nan r = false -> - 2 ^ 63 * 2 ^ 1074 <= f64_key r < 2 ^ 63 * 2 ^ 1074 ->
  f64_to_i64 r = Z.quot (f64_key r) (2 ^ 1074).
Proof.
  intros Hn HK. unfold f64_to_i64. rewrite Hn.
  pose proof unit_pos as HD.
  revert HK HD. generalize (f64_key r) (2 ^ 1074). intros K D HK HD.
  pose proof (Z.quot_rem K D ltac:(lia)) as Hqr.
  assert (- 2 ^ 63 <= Z.quot K D < 2 ^ 63); [|lia].
  destruct (Z_le_gt_dec 0 K).
  - pose proof (Z.rem_bound_pos K D ltac:(lia) HD). nia.
  - pose proof (Z.rem_nonpos K D ltac:(lia) ltac:(lia)).
    pose proof (Z.rem_bound_abs K D ltac:(lia)). nia.
Qed.

Lemma f64_mag_abs x : f64_mag x = Z.abs (f64_key x).
Proof. unfold f64_key. pose proof (f64_mag_bounds x). destruct (f64_neg x); lia. Qed.

(** Beyond the [i64] range, infinities included. *)
Lemma f64_key_finite x :
  - 2 ^ 63 * 2 ^ 1074 <= f64_key x < 2 ^ 63 * 2 ^ 1074 -> f64_exp x <> 2047.
Proof.
  intros HK E. unfold f64_key, f64_mag in HK. rewrite E in HK. simpl Z.eqb in HK. cbv iota in HK.
  assert (2 ^ 63 * 2 ^ 1074 < 2 ^ 2098) as Hbig by (by vm_compute).
  rewrite Z.mul_opp_l in HK. revert HK Hbig.
  generalize (2 ^ 63 * 2 ^ 1074) (2 ^ 2098). intros a b.
  destruct (f64_neg x); lia.
Qed.

Lemma trunc_representable x :
  f64_exp x <> 2047 -> representable (Z.abs (Z.quot (f64_key x) (2 ^ 1074))).
Proof.
  intros H. pose proof (trunc_mag_representable x H) as HR. pose proof unit_pos as HD.
  pose proof (f64_mag_bounds x). unfold f64_key.
  assert (0 <= f64_mag x / 2 ^ 1074) by (by apply Z.div_pos).
  destruct (f64_neg x); rewrite ?Z.quot_opp_l, ?Z.abs_opp, Z.quot_div_nonneg by lia;
    by rewrite Z.abs_eq.
Qed.

(** Conversion tests must not unfold the encodings symbolically. *)
#[global] Opaque f64_is_nan f64_mag f64_key f64_to_i64 i64_as_f64.
