(* ===== verification/Value.v ===== *)
(** * Values, collations, affinities and comparison

    [types/value.rs], [types/collation.rs], [types/affinity.rs] and the
    ordering half of [vdbe/compare.rs]: the five storage classes, the three
    collating sequences, the affinity rules and [mem_compare], which is shown
    to be a lexicographic order on explicit sort keys. *)

From S2P Require Import Prelude Utf8 Float64.

(** ** Data *)

Inductive Value :=
  | Null
  | Int (i : Z)          (* i64 *)
  | Real (r : Z)         (* f64, as its bit pattern *)
  | Text (s : bytes)     (* String *)
  | Blob (b : bytes).    (* Vec<u8> *)

#[export] Instance Value_eq_dec : EqDecision Value.
Proof. solve_decision. Defined.

Inductive Affinity := AffInteger | AffText | AffBlob | AffReal | AffNumeric.
Inductive Collation := Binary | NoCase | RTrim.

#[export] Instance Affinity_eq_dec : EqDecision Affinity.
Proof. solve_decision. Defined.
#[export] Instance Collation_eq_dec : EqDecision Collation.
Proof. solve_decision. Defined.

(** What the Rust types guarantee of a value. *)
Definition value_ok (v : Value) : Prop :=
  match v with
  | Null => True
  | Int i => is_i64 i
  | Real r => is_u64 r
  | Text s => bytes_ok s /\ utf8_valid s = true
  | Blob b => bytes_ok b
  end.

Definition storage_class (v : Value) : Z :=
  match v with Int _ => 1 | Real _ => 2 | Text _ => 3 | Blob _ => 4 | Null => 5 end.
Definition is_null (v : Value) : bool := match v with Null => true | _ => false end.

(** ** Affinity of a declared type *)

(** The encodings of the characters with the Unicode White_Space property. *)
Definition whitespace_chars : list bytes :=
  ((fun b => [b]) <$> [9; 10; 11; 12; 13; 32]) ++ [[0xC2; 0x85]; [0xC2; 0xA0]; [0xE1; 0x9A; 0x80]] ++
  ((fun b => [0xE2; 0x80; b]) <$> [0x80; 0x81; 0x82; 0x83; 0x84; 0x85; 0x86; 0x87; 0x88; 0x89; 0x8A;
                                   0xA8; 0xA9; 0xAF]) ++
  [[0xE2; 0x81; 0x9F]; [0xE3; 0x80; 0x80]].
Fixpoint all_whitespace_loop (fuel : nat) (s : bytes) : bool :=
  match fuel, s with
  | _, [] => true
  | O, _ => false
  | S f, _ => existsb (fun w => if bool_decide (take (length w) s = w)
                              then all_whitespace_loop f (drop (length w) s) else false) whitespace_chars
  end.
(** [s.trim().is_empty()]. *)
Definition trim_is_empty (s : bytes) : bool := all_whitespace_loop (length s) s.

(** [t.contains(pat)]. *)
Fixpoint contains (t pat : bytes) : bool :=
  bool_decide (take (length pat) t = pat) ||
  match t with [] => false | _ :: t' => contains t' pat end.

Definition affinity_of (declared_type : option bytes) : Affinity :=
  match declared_type with
  | None => AffBlob
  | Some decl =>
      if trim_is_empty decl then AffBlob
      else
        let t := to_ascii_uppercase decl in
        if contains t (bytes_of "INT") then AffInteger
        else if contains t (bytes_of "CHAR") || contains t (bytes_of "CLOB")
                || contains t (bytes_of "TEXT") then AffText
        else if contains t (bytes_of "BLOB") then AffBlob
        else if contains t (bytes_of "REAL") || contains t (bytes_of "FLOA")
                || contains t (bytes_of "DOUB") then AffReal
        else AffNumeric
  end.

(** ** Collations *)

Definition Collation_from_name (name : bytes) : option Collation :=
  let n := to_ascii_uppercase name in
  if bool_decide (n = bytes_of "BINARY") then Some Binary
  else if bool_decide (n = bytes_of "NOCASE") then Some NoCase
  else if bool_decide (n = bytes_of "RTRIM") then Some RTrim
  else None.

Definition ascii_lower (b : Z) : Z := if (65 <=? b) && (b <=? 90) then b + 32 else b.

(** [while let [rest @ .., b' '] = s { s = rest }]. *)
Fixpoint drop_spaces (s : bytes) : bytes :=
  match s with
  | b :: rest => if b =? 32 then drop_spaces rest else s
  | [] => []
  end.
Definition rtrim_spaces (s : bytes) : bytes := reverse (drop_spaces (reverse s)).

Definition Collation_compare (c : Collation) (a b : bytes) : comparison :=
  match c with
  | Binary => cmp_bytes a b
  | NoCase => cmp_bytes (ascii_lower <$> a) (ascii_lower <$> b)
  | RTrim => cmp_bytes (rtrim_spaces a) (rtrim_spaces b)
  end.

(** ** [vdbe/compare.rs] *)

(** [-9_223_372_036_854_775_808.0] and [9_223_372_036_854_775_808.0]. *)
Definition f64_min_i64 : Z := 0xC3E0000000000000.
Definition f64_two63 : Z := 0x43E0000000000000.

Definition int_float_compare (i r : Z) : comparison :=
  if f64_is_nan r then Gt
  else if f64_lt r f64_min_i64 then Gt
  else if f64_ge r f64_two63 then Lt
  else
    let y := f64_to_i64 r in
    match i ?= y with
    | Eq => default Eq (f64_partial_cmp (i64_as_f64 i) r)
    | other => other
    end.

Definition mem_compare (a b : Value) (coll : Collation) : comparison :=
  match a, b with
  | Null, Null => Eq
  | Null, _ => Lt
  | _, Null => Gt
  | Int x, Int y => x ?= y
  | Real x, Real y => default Eq (f64_partial_cmp x y)
  | Int x, Real y => int_float_compare x y
  | Real x, Int y => CompOpp (int_float_compare y x)
  | (Int _ | Real _), (Text _ | Blob _) => Lt
  | (Text _ | Blob _), (Int _ | Real _) => Gt
  | Text x, Text y => Collation_compare coll x y
  | Text _, Blob _ => Lt
  | Blob _, Text _ => Gt
  | Blob x, Blob y => cmp_bytes x y
  end.

(** ** The reference order *)

(** Storage-class rank, exact numeric value (in units of 2^-1074) and the
    bytes that are compared. *)
Record sort_key := SortKey { k_class : Z; k_num : Z; k_bytes : bytes }.

Definition collation_key (c : Collation) (s : bytes) : bytes :=
  match c with Binary => s | NoCase => ascii_lower <$> s | RTrim => rtrim_spaces s end.

Definition value_key (coll : Collation) (v : Value) : sort_key :=
  match v with
  | Null => SortKey 0 0 []
  | Int i => SortKey 1 (i * 2 ^ 1074) []
  | Real r => SortKey 1 (f64_key r) []
  | Text s => SortKey 2 0 (collation_key coll s)
  | Blob b => SortKey 3 0 b
  end.

Definition key_compare (a b : sort_key) : comparison :=
  match k_class a ?= k_class b with
  | Eq => match k_num a ?= k_num b with
          | Eq => cmp_bytes (k_bytes a) (k_bytes b)
          | c => c
          end
  | c => c
  end.

Definition not_nan (v : Value) : Prop :=
  match v with Real r => f64_is_nan r = false | _ => True end.

Lemma key_compare_antisym a b : key_compare b a = CompOpp (key_compare a b).
Proof.
  unfold key_compare. rewrite (Z.compare_antisym (k_class a)), (Z.compare_antisym (k_num a)).
  destruct (k_class a ?= k_class b); simpl; try done.
  destruct (k_num a ?= k_num b); simpl; try done. apply cmp_bytes_antisym.
Qed.
Lemma key_compare_eq a b : key_compare a b = Eq <-> a = b.
Proof.
  destruct a as [c n s], b as [c' n' s']. unfold key_compare; simpl. split.
  - destruct (Z.compare_spec c c'); try done. destruct (Z.compare_spec n n'); try done.
    intros ->%cmp_bytes_eq. congruence.
  - intros [= -> -> ->]. by rewrite !Z.compare_refl, cmp_bytes_refl.
Qed.
Lemma key_compare_lt_trans a b c :
  key_compare a b = Lt -> key_compare b c = Lt -> key_compare a c = Lt.
Proof.
  destruct a as [c1 n1 s1], b as [c2 n2 s2], c as [c3 n3 s3]. unfold key_compare; simpl.
  destruct (Z.compare_spec c1 c2), (Z.compare_spec c2 c3); try done; intros; subst;
    try (rewrite (proj2 (Z.compare_lt_iff _ _)) by lia; done).
  rewrite Z.compare_refl.
  destruct (Z.compare_spec n1 n2), (Z.compare_spec n2 n3); try done; subst;
    try (rewrite (proj2 (Z.compare_lt_iff _ _)) by lia; done).
  rewrite Z.compare_refl. by eapply cmp_bytes_lt_trans.
Qed.

(** ** The integer/real comparison is exact *)

Lemma f64_min_i64_key : f64_key f64_min_i64 = - 2 ^ 63 * 2 ^ 1074.
Proof. by vm_compute. Qed.
Lemma f64_two63_key : f64_key f64_two63 = 2 ^ 63 * 2 ^ 1074.
Proof. by vm_compute. Qed.

Lemma f64_min_i64_nan : f64_is_nan f64_min_i64 = false.
Proof. by vm_compute. Qed.
Lemma f64_two63_nan : f64_is_nan f64_two63 = false.
Proof. by vm_compute. Qed.

Lemma f64_partial_cmp_key x y : f64_is_nan x = false -> f64_is_nan y = false ->
  f64_partial_cmp x y = Some (f64_key x ?= f64_key y).
Proof. intros Hx Hy. unfold f64_partial_cmp. by rewrite Hx, Hy. Qed.

(** Comparing with the truncation settles every case but equality. *)
Lemma quot_compare i k d : 0 < d -> i <> Z.quot k d -> (i ?= Z.quot k d) = (i * d ?= k).
Proof.
  intros Hd Hne. pose proof (Z.quot_rem k d ltac:(lia)) as Hqr.
  assert (- d < Z.rem k d < d) as Hr.
  { pose proof (Z.rem_bound_abs k d ltac:(lia)). lia. }
  destruct (Z.compare_spec i (Z.quot k d)) as [?|Hlt|Hgt]; [lia|symmetry..].
  - apply Z.compare_lt_iff. nia.
  - apply Z.compare_gt_iff. nia.
Qed.

Lemma int_float_compare_exact i r :
  is_i64 i -> 0 <= r -> f64_is_nan r = false ->
  int_float_compare i r = (i * 2 ^ 1074 ?= f64_key r).
Proof.
  intros Hi Hr Hnan. unfold is_i64 in Hi. unfold int_float_compare, f64_lt, f64_ge.
  rewrite Hnan, (f64_partial_cmp_key r _ Hnan f64_min_i64_nan),
    (f64_partial_cmp_key r _ Hnan f64_two63_nan), f64_min_i64_key, f64_two63_key.
  pose proof (f64_to_i64_quot r Hnan) as Hq.
  pose proof (fun H => trunc_representable r (f64_key_finite r H)) as Hrep.
  pose proof unit_pos as HD.
  pose proof (i64_as_f64_exact i Hi) as Hex.
  remember (f64_key r) as K eqn:EK. remember (2 ^ 1074) as D eqn:ED.
  destruct (Z.compare_spec K (- 2 ^ 63 * D)) as [E1|E1|E1];
    [|symmetry; apply Z.compare_gt_iff; nia|].
  all: destruct (Z.compare_spec K (2 ^ 63 * D)) as [E2|E2|E2];
    try (symmetry; apply Z.compare_lt_iff; nia); try (exfalso; lia).
  all: rewrite Hq by lia.
  all: destruct (Z.eq_dec i (Z.quot K D)) as [Heq|Hne];
    [rewrite <- Heq, Z.compare_refl
    |rewrite <- quot_compare by done; destruct (Z.compare_spec i (Z.quot K D)); done].
  all: rewrite <- Heq in Hrep; destruct (Hex (Hrep ltac:(lia))) as [Hn Hk];
    by rewrite f64_partial_cmp_key, Hk, <- EK by done.
Qed.

(** ** Properties *)

Lemma num_class_compare c n s n' s' :
  key_compare (SortKey c n s) (SortKey c n' s') =
  match n ?= n' with Eq => cmp_bytes s s' | o => o end.
Proof. unfold key_compare; simpl. by rewrite Z.compare_refl. Qed.

Lemma mem_compare_key a b coll :
  value_ok a -> value_ok b -> not_nan a -> not_nan b ->
  mem_compare a b coll = key_compare (value_key coll a) (value_key coll b).
Proof.
  intros Ha Hb Na Nb.
  destruct a as [|i|r|s|s], b as [|i'|r'|s'|s']; try done; simpl in Ha, Hb, Na, Nb;
    unfold is_u64 in *; cbn [value_key mem_compare]; rewrite ?num_class_compare.
  - rewrite <- Zmult_compare_compat_r by (apply Z.lt_gt, unit_pos). by destruct (i ?= i').
  - rewrite int_float_compare_exact by (done || lia). by destruct (_ ?= _).
  - rewrite int_float_compare_exact, <- Z.compare_antisym by (done || lia). by destruct (_ ?= _).
  - rewrite f64_partial_cmp_key by done. simpl. by destruct (_ ?= _).
  - by destruct coll.
Qed.

(** C26: the value ordering used by ORDER BY and the comparison opcodes is the
    lexicographic order on explicit sort keys: storage class NULL < numbers <
    TEXT < BLOB, then the {e exact} numeric value (INTEGER against REAL
    included, with no loss of precision), then the bytes under the collation. *)
Theorem mem_compare_reference a b coll
  (Ha : value_ok a) (Hb : value_ok b) (Na : not_nan a) (Nb : not_nan b) :
  mem_compare a b coll = key_compare (value_key coll a) (value_key coll b).
Proof. by apply mem_compare_key. Qed.
(** 2^53 + 1 against the double 2^53: a cast of the integer would say equal. *)
Lemma mem_compare_reference_witness :
  mem_compare (Int (2 ^ 53 + 1)) (Real 0x4340000000000000) Binary = Gt.
Proof.
  rewrite mem_compare_reference; [by vm_compute| | | |];
    unfold value_ok, not_nan, is_i64, is_u64; (lia || by vm_compute).
Defined.

(** On NaN-free values [mem_compare] is a total order up to its own
    equivalence: swapping the arguments reverses the result, [Less] is
    transitive, and values that compare [Equal] are interchangeable. *)
Theorem mem_compare_total_order a b c coll
  (Ha : value_ok a) (Hb : value_ok b) (Hc : value_ok c)
  (Na : not_nan a) (Nb : not_nan b) (Nc : not_nan c) :
  mem_compare b a coll = CompOpp (mem_compare a b coll) /\
  (mem_compare a b coll = Lt -> mem_compare b c coll = Lt -> mem_compare a c coll = Lt) /\
  (mem_compare a b coll = Eq -> mem_compare a c coll = mem_compare b c coll).
Proof.
  rewrite !mem_compare_key by done. split_and!.
  - apply key_compare_antisym.
  - apply key_compare_lt_trans.
  - by intros ->%key_compare_eq.
Qed.
Lemma mem_compare_total_order_witness :
  mem_compare (Real 0x4340000000000000) (Int 7) NoCase = CompOpp (mem_compare (Int 7) (Real 0x4340000000000000) NoCase).
Proof.
  refine (proj1 (mem_compare_total_order (Int 7) (Real 0x4340000000000000) Null NoCase _ _ _ _ _ _));
    unfold value_ok, not_nan, is_i64, is_u64; (done || lia || by vm_compute).
Defined.

(** A NaN operand breaks transitivity of [Equal]: [partial_cmp] falls back to
    [Equal] against every real. *)
Example mem_compare_nan :
  mem_compare (Real 0x7FF8000000000000) (Real 0) Binary = Eq /\
  mem_compare (Real 0x7FF8000000000000) (Real 0x3FF0000000000000) Binary = Eq /\
  mem_compare (Real 0) (Real 0x3FF0000000000000) Binary = Lt.
Proof. by vm_compute. Qed.

(** The documented affinity examples. *)
Example affinity_examples :
  (affinity_of ∘ Some ∘ bytes_of) <$>
    ["INT"; "VARCHAR(255)"; "clob"; ""; "   "; "DOUBLE PRECISION"; "DECIMAL(10,5)"; "INTCHAR"]
  = [AffInteger; AffText; AffText; AffBlob; AffBlob; AffReal; AffNumeric; AffInteger].
Proof. by vm_compute. Qed.
Example affinity_absent : affinity_of None = AffBlob.
Proof. done. Qed.
Example collation_names :
  Collation_from_name (bytes_of "nocase") = Some NoCase /\
  Collation_from_name (bytes_of "bogus") = None.
Proof. by vm_compute. Qed.
