(* ===== verification/Str.v ===== *)
(** * Strings as sequences of characters

    What the code uses of Rust's [str] beyond its bytes: the iterator [chars],
    [is_char_boundary] and the slices that depend on it. [chars] and
    [encode_char] are inverse on well-formed strings. *)

From S2P Require Import Prelude Utf8.
#[local] Open Scope Z_scope.

(** [s.chars()] of a well-formed string. *)
Definition char_value (c : bytes) : Z :=
  match c with
  | [a] => a
  | [a; b] => (a mod 32) * 64 + b mod 64
  | [a; b; c] => (a mod 16) * 4096 + (b mod 64) * 64 + c mod 64
  | [a; b; c; d] => (a mod 8) * 262144 + (b mod 64) * 4096 + (c mod 64) * 64 + d mod 64
  | _ => 0
  end.
Fixpoint chars_loop (fuel : nat) (s : bytes) : list Z :=
  match fuel, s with
  | S f, _ :: _ => let n := snd (utf8_next s) in char_value (take n s) :: chars_loop f (drop n s)
  | _, _ => []
  end.
Definition chars (s : bytes) : list Z := chars_loop (length s) s.

(** The bytes of a sequence of characters ([String::from_iter], repeated [push]). *)
Definition of_chars (cs : list Z) : bytes := mjoin (encode_char <$> cs).

(** [s.is_char_boundary(i)]. *)
Definition is_char_boundary (s : bytes) (i : Z) : bool :=
  (i =? 0) || (i =? zlen s) || match zget s i with Some b => negb (is_cont b) | None => false end.
(** [&s[i..]] and [&s[..i]]. *)
Definition str_from (s : bytes) (i : Z) : outcome bytes :=
  if is_char_boundary s i then Ok (zdrop i s) else Panic.
Definition str_to (s : bytes) (i : Z) : outcome bytes :=
  if is_char_boundary s i then Ok (ztake i s) else Panic.
Definition starts_with (p s : bytes) : bool := bool_decide (take (length p) s = p).
Definition to_ascii_lowercase (s : bytes) : bytes :=
  (fun b => if (65 <=? b) && (b <=? 90) then b + 32 else b) <$> s.

(** ** Lemmas *)

Lemma char_value_encode c : is_scalar c -> char_value (encode_char c) = c.
Proof.
  intros Hc. unfold is_scalar in Hc. unfold encode_char.
  destruct (Z.ltb_spec c 0x80); [done|]. destruct (Z.ltb_spec c 0x800); [|destruct (Z.ltb_spec c 0x10000)]; cbn [char_value];
    Z.to_euclidean_division_equations; lia.
Qed.
Lemma chars_encode c : is_scalar c -> chars (encode_char c) = [c].
Proof.
  intros Hc. pose proof (encode_char_next c Hc) as Hn. pose proof (char_value_encode c Hc) as Hv. unfold chars.
  destruct (encode_char c) as [|b t] eqn:E; [unfold encode_char in E; by repeat case_match|].
  cbn [length chars_loop]. rewrite Hn. cbn [snd]. rewrite take_ge, drop_ge by (cbn; lia). rewrite Hv. by destruct (length t).
Qed.


Lemma is_cont_range b : is_cont b = true <-> 128 <= b < 192.
Proof. unfold is_cont. destruct (Z.leb_spec 128 b), (Z.ltb_spec b 192); cbn; split; intros; (lia || done). Qed.

(** Decoding a character and encoding it again. *)
Ltac char_arith :=
  unfold is_scalar, encode_char; cbn [char_value];
  repeat match goal with |- context [?a <? ?b] => destruct (Z.ltb_spec a b) end;
  try (split; [Z.to_euclidean_division_equations; lia|repeat f_equal; Z.to_euclidean_division_equations; lia]);
  exfalso; Z.to_euclidean_division_equations; lia.

Lemma second_ok_range b0 b1 : second_ok b0 b1 = true -> 128 <= b1 < 192 /\ (b0 = 0xE0 -> 0xA0 <= b1) /\
  (b0 = 0xED -> b1 <= 0x9F) /\ (b0 = 0xF0 -> 0x90 <= b1) /\ (b0 = 0xF4 -> b1 <= 0x8F).
Proof.
  unfold second_ok, is_cont.
  repeat match goal with
    | |- context [?a =? ?b] => destruct (Z.eqb_spec a b)
    | |- context [?a <=? ?b] => destruct (Z.leb_spec a b)
    | |- context [?a <? ?b] => destruct (Z.ltb_spec a b)
    end; cbn [andb]; intros; try done; lia.
Qed.

Lemma encode_char_value s n : bytes_ok s -> utf8_next s = (true, n) ->
  is_scalar (char_value (take n s)) /\ encode_char (char_value (take n s)) = take n s.
Proof.
  intros Hb Hn. destruct s as [|b0 s1]; [done|]. unfold utf8_next in Hn.
  apply Forall_cons in Hb as [Hb0 _]. unfold byte_ok in Hb0.
  destruct (Z.ltb_spec b0 0x80).
  { injection Hn as <-. rewrite ?firstn_cons, ?take_0. char_arith. }
  destruct ((0xC2 <=? b0) && (b0 <=? 0xDF)) eqn:E2.
  { apply andb_prop in E2 as [?%Z.leb_le ?%Z.leb_le]. destruct (hd_ok is_cont s1) eqn:Hx1; [|done]. injection Hn as <-.
    apply hd_ok_Some in Hx1 as (b1 & s2 & -> & Hx1%is_cont_range). rewrite ?firstn_cons, ?take_0. char_arith. }
  destruct ((0xE0 <=? b0) && (b0 <=? 0xEF)) eqn:E3.
  { apply andb_prop in E3 as [?%Z.leb_le ?%Z.leb_le]. destruct (hd_ok (second_ok b0) s1) eqn:Hx1; [|done]. apply hd_ok_Some in Hx1 as (b1 & s2 & -> & Hx1%second_ok_range).
    change (drop 1 (b1 :: s2)) with s2 in Hn. destruct (hd_ok is_cont s2) eqn:Hx2; [|done]. injection Hn as <-.
    apply hd_ok_Some in Hx2 as (b2 & s3 & -> & Hx2%is_cont_range). rewrite ?firstn_cons, ?take_0. char_arith. }
  destruct ((0xF0 <=? b0) && (b0 <=? 0xF4)) eqn:E4; [|done].
  apply andb_prop in E4 as [?%Z.leb_le ?%Z.leb_le].
  destruct (hd_ok (second_ok b0) s1) eqn:Hx1; [|done]. apply hd_ok_Some in Hx1 as (b1 & s2 & -> & Hx1%second_ok_range).
  change (drop 1 (b1 :: s2)) with s2 in Hn. destruct (hd_ok is_cont s2) eqn:Hx2; [|done].
  apply hd_ok_Some in Hx2 as (b2 & s3 & -> & Hx2%is_cont_range). change (drop 2 (b1 :: b2 :: s3)) with s3 in Hn.
  destruct (hd_ok is_cont s3) eqn:Hx3; [|done]. injection Hn as <-.
  apply hd_ok_Some in Hx3 as (b3 & s4 & -> & Hx3%is_cont_range). rewrite ?firstn_cons, ?take_0. char_arith.
Qed.

Lemma of_chars_cons c cs : of_chars (c :: cs) = encode_char c ++ of_chars cs.
Proof. done. Qed.
Lemma chars_loop_of f : forall s, (length s <= f)%nat -> bytes_ok s -> utf8_valid s = true ->
  Forall is_scalar (chars_loop f s) /\ of_chars (chars_loop f s) = s.
Proof.
  induction f as [|f IH]; intros [|b s] Hf Hb Hv; simpl length in *; try lia; try (split; [constructor|done]).
  cbn [chars_loop]. destruct (utf8_next (b :: s)) as [ok n] eqn:E.
  pose proof (utf8_next_pos (b :: s) ltac:(done)) as Hp. rewrite E in Hp. cbn [snd] in Hp |- *.
  destruct ok; [|unfold utf8_valid in Hv; simpl length in Hv; cbn [utf8_valid_loop] in Hv; by rewrite E in Hv].
  destruct (encode_char_value _ _ Hb E) as [Hs He]. rewrite (utf8_valid_step _ _ E ltac:(done)) in Hv.
  destruct (IH (drop n (b :: s))) as [Hs' He']; [rewrite length_drop; simpl; lia|by apply Forall_drop|done|].
  split; [by constructor|]. rewrite of_chars_cons, He, He'. apply take_drop.
Qed.
Lemma of_chars_chars s : bytes_ok s -> utf8_valid s = true -> of_chars (chars s) = s.
Proof. intros. by apply chars_loop_of. Qed.
Lemma chars_scalar s : bytes_ok s -> utf8_valid s = true -> Forall is_scalar (chars s).
Proof. intros. by apply (chars_loop_of (length s)). Qed.

Lemma chars_loop_fuel f g : forall s, (length s <= f)%nat -> (length s <= g)%nat -> chars_loop f s = chars_loop g s.
Proof.
  revert g. induction f as [|f IH]; intros [|g] [|b s] Hf Hg; simpl length in *; try lia; try done.
  cbn [chars_loop]. pose proof (utf8_next_pos (b :: s) ltac:(done)). f_equal.
  apply IH; rewrite length_drop; cbn [length]; lia.
Qed.
Lemma chars_app c rest : is_scalar c -> chars (encode_char c ++ rest) = c :: chars rest.
Proof.
  intros Hc. pose proof (encode_char_next c Hc) as Hn. pose proof (char_value_encode c Hc) as Hv.
  assert (utf8_next (encode_char c ++ rest) = (true, length (encode_char c))) as Ha
    by (pose proof (utf8_next_app _ _ rest Hn) as Ha; by rewrite take_ge in Ha by lia).
  unfold chars. destruct (encode_char c) as [|b t] eqn:E; [unfold encode_char in E; by repeat case_match|].
  cbn [length app chars_loop]. cbn [app] in Ha. rewrite Ha. cbn [snd]. change (b :: t ++ rest) with ((b :: t) ++ rest).
  change (S (length t)) with (length (b :: t)). rewrite take_app_length, drop_app_length, Hv. f_equal. apply chars_loop_fuel; [|lia]. rewrite length_app. lia.
Qed.
Lemma chars_of_chars cs : Forall is_scalar cs -> chars (of_chars cs) = cs.
Proof.
  induction 1 as [|c cs Hc Hcs IH]; [done|]. rewrite of_chars_cons, chars_app by done. by rewrite IH.
Qed.
