(* ===== verification/Fp.v ===== *)
(** * Decimal text of numbers

    [util/fp.rs], the port of SQLite's decimal decoder: the digits of a double
    and their [%g] and [%f] renderings; [util/mod.rs], the numeric prefix of a
    text; and the conversions of [types/value.rs] and [vdbe/compare.rs] that
    rest on them. *)

From S2P Require Import Prelude Utf8 Float64 Value.
#[local] Open Scope Z_scope.

(** ** Doubles from decimals *)

Definition f64_infinity : Z := 0x7ff0000000000000.
(** The double nearest to [num / den], ties to even ([str::parse::<f64>]). *)
Definition f64_nearest (num den : Z) : Z :=
  let n := num * 2 ^ 1074 in
  let s := Z.max 0 (Z.log2 (n / den) - 52) in
  let d := den * 2 ^ s in
  Z.min (s * 2 ^ 52 + round_half_even (n / d) (n mod d) d) f64_infinity.
Definition f64_opp (r : Z) : Z := Z.lxor r (2 ^ 63).
Definition f64_of_decimal (neg : bool) (m e : Z) : Z :=
  let a := if e <? 0 then f64_nearest m (10 ^ (- e)) else f64_nearest (m * 10 ^ e) 1 in
  if neg then f64_opp a else a.

(** ** [util/fp.rs] *)

(** Shifts of a [u64] by an [i32]: out of range is an overflow. *)
Definition shr64 (x n : Z) : outcome Z := if (0 <=? n) && (n <? 64) then Ok (Z.shiftr x n) else Panic.
Definition shl64 (x n : Z) : outcome Z := if (0 <=? n) && (n <? 64) then Ok (u64 (Z.shiftl x n)) else Panic.
(** The result of [i32] arithmetic. *)
Definition chk_i32 (x : Z) : outcome Z := if (- 2 ^ 31 <=? x) && (x <? 2 ^ 31) then Ok x else Panic.
(** [v.leading_zeros()] of a [u64]. *)
Definition leading_zeros (v : Z) : Z := if v =? 0 then 64 else 63 - Z.log2 v.

Definition multiply128 (a b : Z) : Z * Z :=
  let r := a * b in (u64 (Z.shiftr r 64), u64 r).
Definition multiply160 (a a_lo b : Z) : Z * Z :=
  let r := a * b + Z.shiftr (a_lo * b) 32 in
  (u64 (Z.shiftr r 64), Z.land (Z.shiftr r 32) 0xffffffff).

Definition pwr10to2 (p : Z) : Z := i32 (Z.shiftr (p * 108853) 15).
Definition pwr2to10 (p : Z) : Z := i32 (Z.shiftr (p * 78913) 18).

Definition POWERSOF10_FIRST : Z := -348.
Definition POWERSOF10_LAST : Z := 347.

Definition A_BASE : list Z :=
  [0x8000000000000000; 0xa000000000000000; 0xc800000000000000; 0xfa00000000000000; 0x9c40000000000000;
    0xc350000000000000; 0xf424000000000000; 0x9896800000000000; 0xbebc200000000000; 0xee6b280000000000;
    0x9502f90000000000; 0xba43b74000000000; 0xe8d4a51000000000; 0x9184e72a00000000; 0xb5e620f480000000;
    0xe35fa931a0000000; 0x8e1bc9bf04000000; 0xb1a2bc2ec5000000; 0xde0b6b3a76400000; 0x8ac7230489e80000;
    0xad78ebc5ac620000; 0xd8d726b7177a8000; 0x878678326eac9000; 0xa968163f0a57b400; 0xd3c21bcecceda100;
    0x84595161401484a0; 0xa56fa5b99019a5c8].
Definition A_SCALE : list Z :=
  [0x8049a4ac0c5811ae; 0xcf42894a5dce35ea; 0xa76c582338ed2621; 0x873e4f75e2224e68; 0xda7f5bf590966848;
    0xb080392cc4349dec; 0x8e938662882af53e; 0xe65829b3046b0afa; 0xba121a4650e4ddeb; 0x964e858c91ba2655;
    0xf2d56790ab41c2a2; 0xc428d05aa4751e4c; 0x9e74d1b791e07e48; 0xcccccccccccccccc; 0xcecb8f27f4200f3a;
    0xa70c3c40a64e6c51; 0x86f0ac99b4e8dafd; 0xda01ee641a708de9; 0xb01ae745b101e9e4; 0x8e41ade9fbebc27d;
    0xe5d3ef282a242e81; 0xb9a74a0637ce2ee1; 0x95f83d0a1fb69cd9; 0xf24a01a73cf2dccf; 0xc3b8358109e84f07;
    0x9e19db92b4e31ba9].
Definition A_SCALE_LO : list Z :=
  [0x205b896d; 0x52064cad; 0xaf2af2b8; 0x5a7744a7; 0xaf39a475; 0xbd8d794e; 0x547eb47b; 0x0cb4a5a3;
    0x92f34d62; 0x3a6a07f9; 0xfae27299; 0xaa97e14c; 0x775ea265; 0xcccccccc; 0x00000000; 0x999090b6;
    0x69a028bb; 0xe80e6f48; 0x5ec05dd0; 0x14588f14; 0x8f1668c9; 0x6d953e2c; 0x4abdaf10; 0xbc633b39;
    0x0a862f81; 0x6c07a2c2].

Definition power_of_ten (p : Z) : outcome (Z * Z) :=
  if negb ((POWERSOF10_FIRST <=? p) && (p <=? POWERSOF10_LAST)) then Panic (* debug_assert! *)
  else if p =? -1 then s ← idx A_SCALE 13; lo ← idx A_SCALE_LO 13; Ok (s, lo)
  else if (0 <=? p) && (p <? 27) then b ← idx A_BASE p; Ok (b, 0)
  else
    let '(g, n) :=
      if p <? 0
      then
        let gg := Z.quot p 27 in
        let nn := Z.rem p 27 in
        if negb (nn =? 0) then (gg - 1, nn + 27) else (gg, nn)
      else (Z.quot p 27, Z.rem p 27) in
    s ← idx A_SCALE (g + 13);
    lo ← idx A_SCALE_LO (g + 13);
    if n =? 0 then Ok (s, lo)
    else
      b ← idx A_BASE n;
      let '(x, lo) := multiply160 s lo b in
      if Z.land x (2 ^ 63) =? 0
      then Ok (Z.lor (u64 (Z.shiftl x 1)) (Z.land (Z.shiftr lo 31) 1), Z.lor (u32 (Z.shiftl lo 1)) 1)
      else Ok (x, lo).

Definition fp2convert10 (m e n : Z) : outcome (Z * Z) :=
  if negb ((1 <=? n) && (n <=? 18)) then Panic (* debug_assert! *)
  else
    let p := n - 1 - pwr2to10 (e + 63) in
    '(poweroften_hi, _) ← power_of_ten p;
    let '(h, _) := multiply128 m poweroften_hi in
    d ← (if n =? 18
         then
           let sh := - (e + pwr10to2 p + 2) in
           h ← shr64 h sh;
           Ok (Z.shiftr (u64 (h + Z.land (u64 (Z.shiftl h 1)) 2)) 1)
         else
           let sh := - (e + pwr10to2 p + 1) in
           shr64 h sh);
    Ok (d, - p).

Definition fp10convert2 (d p : Z) : outcome Z :=
  if p <? POWERSOF10_FIRST then Ok 0
  else if p >? POWERSOF10_LAST then Ok f64_infinity
  else
    let b := 64 - leading_zeros d in
    let lp := pwr10to2 p in
    let e := 53 - b - lp in
    if (e >? 1074) && (e >=? 1130) then Ok 0
    else
      let e := Z.min e 1074 in
      let s := - (e - (64 - b) + lp + 3) in
      '(pwr10h, pwr10l) ← power_of_ten p;
      let '(pwr10h, pwr10l) :=
        if negb (pwr10l =? 0) then (u64 (pwr10h + 1), 2 ^ 32 - 1 - pwr10l) else (pwr10h, pwr10l) in
      x ← shl64 d (64 - b);
      let '(hi, lo) := multiply128 x pwr10h in
      let mid1 := Z.shiftr lo 32 in
      one_s ← shl64 1 s;
      '(hi, sticky) ← (if Z.land hi (u64 (one_s - 1)) =? 0
                      then
                        let '(mid2_hi, _) := multiply128 x (u64 (Z.shiftl pwr10l 32)) in
                        let mid2 := Z.shiftr mid2_hi 32 in
                        let sticky := if u32 (mid1 - mid2) >? 1 then 1 else 0 in
                        hi ← chk_sub hi (if mid1 <? mid2 then 1 else 0);
                        Ok (hi, sticky)
                      else Ok (hi, 1));
      u ← shr64 hi s;
      let u := Z.lor u sticky in
      let '(u, e) := if u >=? 2 ^ 55 - 2 then (Z.lor (Z.shiftr u 1) (Z.land u 1), e - 1) else (u, e) in
      let m := Z.shiftr (u64 (u64 (u + 1) + Z.land (Z.shiftr u 2) 1)) 2 in
      if e <=? -972 then Ok f64_infinity
      else if negb (Z.land m (2 ^ 52) =? 0)
      then Ok (Z.lor (Z.land m (2 ^ 64 - 1 - 2 ^ 52)) (u64 (Z.shiftl (u64 (1075 - e)) 52)))
      else Ok m.

Record FpDecode := mkFpDecode {
  fd_sign : Z; fd_n : Z; fd_i_dp : Z; fd_digits : bytes; fd_is_special : Z }.

(** [z[i] = x]. *)
Definition put (l : bytes) (i x : Z) : outcome bytes := copy_into l i [x].

(** [while v >= 10]: two digits at a time, from the right. *)
Fixpoint digits_loop (fuel : nat) (zbuf : bytes) (i v : Z) : outcome (bytes * Z * Z) :=
  match fuel with
  | O => Panic
  | S fuel' =>
      if v >=? 10
      then
        let two := v mod 100 in
        zbuf ← put zbuf (i - 1) (48 + two mod 10);
        zbuf ← put zbuf (i - 2) (48 + two / 10);
        digits_loop fuel' zbuf (i - 2) (v / 100)
      else Ok (zbuf, i, v)
  end.
(** [while jj > 0 && zbuf[z + jj - 1] == b'9']. *)
Fixpoint nines_loop (jj : nat) (zbuf : bytes) (z : Z) : outcome Z :=
  match jj with
  | O => Ok 0
  | S j => b ← idx zbuf (z + Z.of_nat jj - 1); if b =? 57 then nines_loop j zbuf z else Ok (Z.of_nat jj)
  end.
(** [while zbuf[z + jj - 1] == b'0']. *)
Fixpoint zeros_loop (jj : nat) (zbuf : bytes) (z : Z) : outcome Z :=
  b ← idx zbuf (z + Z.of_nat jj - 1);
  if b =? 48 then match jj with O => Panic | S j => zeros_loop j zbuf z end else Ok (Z.of_nat jj).
(** The value of the first [jj] digits. *)
Fixpoint acc_loop (ks : list Z) (zbuf : bytes) (z acc : Z) : outcome Z :=
  match ks with
  | [] => Ok acc
  | k :: ks =>
      b ← idx zbuf (z + k);
      d ← chk_sub b 48;
      let a := acc * 10 + d in
      if a <? 2 ^ 64 then acc_loop ks zbuf z a else Panic
  end.
Definition leading_value (zbuf : bytes) (z jj : Z) : outcome Z :=
  b ← idx zbuf z; d ← chk_sub b 48; acc_loop (seqZ 1 (jj - 1)) zbuf z d.

(** Reduce the precision below 17 when a shorter decimal gives back [r]. *)
Definition reduce_round (r : Z) (zbuf : bytes) (z i_dp n exp i_round : Z) : outcome Z :=
  let zr k := idx zbuf (z + k) in
  z15 ← zr 15;
  nines ← (if z15 =? 57 then z14 ← zr 14; Ok (z14 =? 57) else Ok false);
  if nines : bool
  then
    jj ← nines_loop 14 zbuf z;
    v2 ← (if jj =? 0 then Ok 1 else a ← leading_value zbuf z jj; Ok (a + 1));
    back ← fp10convert2 v2 (exp + n - jj);
    Ok (if bool_decide (f64_partial_cmp r back = Some Eq) then jj + 1 else i_round)
  else
    zeros ← (if i_dp >=? n then Ok true
             else if z15 =? 48
             then z14 ← zr 14;
                  if z14 =? 48 then z13 ← zr 13; Ok (z13 =? 48) else Ok false
             else Ok false);
    if zeros : bool
    then
      jj ← zeros_loop 13 zbuf z;
      acc ← leading_value zbuf z jj;
      back ← fp10convert2 acc (exp + n - jj);
      Ok (if bool_decide (f64_partial_cmp r back = Some Eq) then jj + 1 else i_round)
    else Ok i_round.

(** Round the kept digits up: the buffer, its start, its length and the
    position of the point. *)
Fixpoint carry_loop (j : nat) (zbuf : bytes) (z n i_dp : Z) : outcome (bytes * Z * Z * Z) :=
  b ← idx zbuf (z + Z.of_nat j);
  if b + 1 <=? 57
  then zbuf ← put zbuf (z + Z.of_nat j) (b + 1); Ok (zbuf, z, n, i_dp)
  else
    zbuf ← put zbuf (z + Z.of_nat j) 48;
    match j with
    | O => z ← chk_sub z 1; zbuf ← put zbuf z 49; Ok (zbuf, z, n + 1, i_dp + 1)
    | S j' => carry_loop j' zbuf z n i_dp
    end.

(** [while n > 0 && zbuf[z + n - 1] == b'0']. *)
Fixpoint strip_loop (n : nat) (zbuf : bytes) (z : Z) : outcome Z :=
  match n with
  | O => Ok 0
  | S m => b ← idx zbuf (z + Z.of_nat n - 1); if b =? 48 then strip_loop m zbuf z else Ok (Z.of_nat n)
  end.

Definition fp_decode (r i_round_in mx_round : Z) : outcome FpDecode :=
  if negb (mx_round >? 0) then Panic (* debug_assert! *)
  else if bool_decide (f64_partial_cmp r 0 = Some Eq) then Ok (mkFpDecode 43 1 1 [48] 0)
  else
    let '(sign, r) := if f64_lt r 0 then (45, f64_opp r) else (43, r) in
    let e := f64_exp r in
    if e =? 0x7ff
    then Ok (mkFpDecode sign 0 0 [] (1 + (if r =? f64_infinity then 0 else 1)))
    else
      let v := f64_frac r in
      let '(v, e) :=
        if e =? 0
        then let nn := leading_zeros v in (u64 (Z.shiftl v nn), -1074 - nn)
        else (Z.lor (u64 (Z.shiftl v 11)) (2 ^ 63), e - 1086) in
      let conv_n := if (i_round_in <=? 0) || (i_round_in >=? 18) then 18 else i_round_in + 1 in
      '(v, exp) ← fp2convert10 v e conv_n;
      '(zbuf, i, v) ← digits_loop 12 (zrep 21 0) 20 v;
      '(zbuf, i) ← (if negb (v =? 0)
                    then i ← chk_sub i 1; zbuf ← put zbuf i (48 + v); Ok (zbuf, i)
                    else Ok (zbuf, i));
      let n := 20 - i in
      let i_dp := n + exp in
      '(i_round, zbuf, i, n, i_dp) ←
        (if i_round_in <=? 0
         then
           i_round ← chk_i32 (i_dp - i_round_in);
           up ← (if i_round =? 0 then b ← idx zbuf i; Ok (b >=? 53) else Ok false);
           if up : bool
           then i ← chk_sub i 1; zbuf ← put zbuf i 48; Ok (1, zbuf, i, n + 1, i_dp + 1)
           else Ok (i_round, zbuf, i, n, i_dp)
         else Ok (i_round_in, zbuf, i, n, i_dp));
      '(zbuf, z, n, i_dp) ←
        (if (i_round >? 0) && ((i_round <? n) || (n >? mx_round))
         then
           let i_round := Z.min i_round mx_round in
           i_round ← (if i_round =? 17 then reduce_round r zbuf i i_dp n exp i_round else Ok i_round);
           b ← idx zbuf (i + i_round);
           if b >=? 53 then carry_loop (Z.to_nat (i_round - 1)) zbuf i i_round i_dp
           else Ok (zbuf, i, i_round, i_dp)
         else Ok (zbuf, i, n, i_dp));
      n ← strip_loop (Z.to_nat n) zbuf z;
      ds ← sub_range zbuf z (z + n);
      Ok (mkFpDecode sign n i_dp ds 0).

Inductive Conv := Generic | Fixed.

(** [while out.ends_with(b) { out.pop(); }], on the reversed text. *)
Fixpoint drop_byte (b : Z) (s : bytes) : bytes :=
  match s with c :: rest => if c =? b then drop_byte b rest else s | [] => [] end.

Definition render (r precision : Z) (gtype : Conv) (altform2 : bool) : outcome bytes :=
  let precision := if precision <? 0 then 6 else precision in
  let '(i_round, precision) :=
    match gtype with
    | Fixed => (- precision, precision)
    | Generic => let p := if precision =? 0 then 1 else precision in (p, p)
    end in
  s ← fp_decode r i_round (if altform2 then 20 else 16);
  if negb (fd_is_special s =? 0)
  then Ok (if fd_is_special s =? 2 then bytes_of "NaN"
           else if fd_sign s =? 45 then bytes_of "-Inf" else bytes_of "Inf")
  else
    let prefix := if fd_sign s =? 45 then [45] else [] in
    let exp := fd_i_dp s - 1 in
    let '(precision, flag_rtz, xtype_exp) :=
      match gtype with
      | Generic =>
          let precision := precision - 1 in
          if (exp <? -4) || (exp >? precision) then (precision, true, true) else (precision - exp, true, false)
      | Fixed => (precision, altform2, false)
      end in
    let e2 := if xtype_exp then 0 else fd_i_dp s - 1 in
    let flag_dp := (precision >? 0) || altform2 in
    let sn := fd_n s in
    '(int_part, j, e2) ←
      (if e2 <? 0 then Ok ([48], 0, e2)
       else
         let j := Z.min (e2 + 1) sn in
         ds ← sub_range (fd_digits s) 0 j;
         let e2 := e2 - j in
         Ok (ds ++ (if e2 >=? 0 then zrep (e2 + 1) 48 else []), j, if e2 >=? 0 then -1 else e2));
    let '(zeros, precision) :=
      if (e2 <? -1) && (precision >? 0)
      then let nn := Z.min (-1 - e2) precision in (zrep nn 48, precision - nn)
      else ([], precision) in
    frac ← (if precision >? 0
            then
              let nn := Z.min (sn - j) precision in
              ds ← (if nn >? 0 then sub_range (fd_digits s) j (j + nn) else Ok []);
              let precision := if nn >? 0 then precision - nn else precision in
              Ok (ds ++ (if (precision >? 0) && negb flag_rtz then zrep precision 48 else []))
            else Ok []);
    let out := prefix ++ int_part ++ (if flag_dp then [46] else []) ++ zeros ++ frac in
    let out :=
      if flag_rtz && flag_dp
      then
        let rev := drop_byte 48 (reverse out) in
        match rev with
        | b :: rest => if b =? 46 then reverse (if altform2 then 48 :: rev else rest) else reverse rev
        | [] => []
        end
      else out in
    Ok (out ++
      if xtype_exp
      then
        let exp := fd_i_dp s - 1 in
        let a := Z.abs exp in
        [101] ++ (if exp <? 0 then [45] else [43])
          ++ (if a >=? 100 then [48 + a / 100] else [])
          ++ let a := if a >=? 100 then a mod 100 else a in [48 + a / 10; 48 + a mod 10]
      else []).

Definition fp_to_text (r : Z) : outcome bytes := render r 17 Generic true.
Definition fp_to_fixed (r precision : Z) : outcome bytes := render r precision Fixed true.

(** ** [util/mod.rs] *)

Definition is_digit (b : Z) : bool := (48 <=? b) && (b <=? 57).
Definition is_ascii_whitespace (b : Z) : bool := (b =? 32) || (b =? 9) || (b =? 10) || (b =? 12) || (b =? 13).
Fixpoint span (p : Z -> bool) (s : bytes) : bytes * bytes :=
  match s with
  | b :: t => if p b then let '(x, y) := span p t in (b :: x, y) else ([], s)
  | [] => ([], [])
  end.
(** An optional sign. *)
Definition take_sign (s : bytes) : bool * bytes :=
  match s with
  | b :: t => if b =? 43 then (false, t) else if b =? 45 then (true, t) else (false, s)
  | [] => (false, [])
  end.
Definition digits_value (ds : bytes) : Z := foldl (fun a d => a * 10 + (d - 48)) 0 ds.

(** The value of the leading number of [s], and whether it is all of [s] but
    white space. *)
Definition numeric_prefix (s : bytes) : option Value * bool :=
  let '(_, s) := span is_ascii_whitespace s in
  let '(neg, s) := take_sign s in
  let '(ds, s) := span is_digit s in
  let '(has_dot, fs, s) :=
    match s with
    | b :: t => if b =? 46 then let '(fs, t) := span is_digit t in (true, fs, t) else (false, [], s)
    | [] => (false, [], [])
    end in
  if (zlen ds =? 0) && (zlen fs =? 0) then (None, false)
  else
    let '(has_exp, e, s) :=
      match s with
      | b :: t =>
          if (b =? 101) || (b =? 69)
          then
            let '(eneg, t) := take_sign t in
            let '(es, t) := span is_digit t in
            if zlen es =? 0 then (false, 0, s)
            else (true, if eneg then - digits_value es else digits_value es, t)
          else (false, 0, s)
      | [] => (false, 0, [])
      end in
    let real := Real (f64_of_decimal neg (digits_value (ds ++ fs)) (e - zlen fs)) in
    let i := if neg then - digits_value ds else digits_value ds in
    let value := if negb has_dot && negb has_exp && (- 2 ^ 63 <=? i) && (i <? 2 ^ 63) then Int i else real in
    (Some value, forallb is_ascii_whitespace s).

(** ** [types/value.rs] *)

(** [i.to_string()]. *)
Fixpoint digits_of (fuel : nat) (n : Z) : bytes :=
  match fuel with
  | O => []
  | S f => if n <? 10 then [48 + n] else digits_of f (n / 10) ++ [48 + n mod 10]
  end.
Definition i64_to_string (i : Z) : bytes :=
  if i <? 0 then 45 :: digits_of 20 (- i) else digits_of 20 i.

Definition to_text (v : Value) : outcome (option bytes) :=
  match v with
  | Null => Ok None
  | Int i => Ok (Some (i64_to_string i))
  | Real r => t ← fp_to_text r; Ok (Some t)
  | Text s => Ok (Some s)
  | Blob b => Ok (Some (from_utf8_lossy b))
  end.

Definition prefix_i64 (s : bytes) : Z :=
  match fst (numeric_prefix s) with Some (Int i) => i | Some (Real r) => f64_to_i64 r | _ => 0 end.
Definition prefix_f64 (s : bytes) : Z :=
  match fst (numeric_prefix s) with Some (Int i) => i64_as_f64 i | Some (Real r) => r | _ => 0 end.
Definition as_i64 (v : Value) : Z :=
  match v with
  | Int i => i
  | Real r => f64_to_i64 r
  | Text s => prefix_i64 s
  | Blob b => prefix_i64 (from_utf8_lossy b)
  | Null => 0
  end.
Definition as_f64 (v : Value) : Z :=
  match v with
  | Int i => i64_as_f64 i
  | Real r => r
  | Text s => prefix_f64 s
  | Blob b => prefix_f64 (from_utf8_lossy b)
  | Null => 0
  end.
Definition numeric_type (v : Value) : Z :=
  match v with
  | Int _ => 1 | Real _ => 2 | Blob _ => 4 | Null => 5
  | Text s =>
      match numeric_prefix s with
      | (Some (Int _), true) => 1
      | (Some (Real _), true) => 2
      | _ => 3
      end
  end.
Definition is_numeric (v : Value) : bool := let t := numeric_type v in (t =? 1) || (t =? 2).

(** ** [vdbe/compare.rs]: affinity *)

Definition to_text_affinity (v : Value) : outcome Value :=
  match v with
  | Int i => Ok (Text (i64_to_string i))
  | Real r => t ← fp_to_text r; Ok (Text t)
  | other => Ok other
  end.
Definition numeric_value_of (s : bytes) : option Value :=
  match numeric_prefix s with (Some v, true) => Some v | _ => None end.
Definition to_numeric_affinity (v : Value) : Value :=
  match v with
  | Text s => match numeric_value_of s with Some n => n | None => Text s end
  | other => other
  end.
Definition apply_affinity (v : Value) (aff : Affinity) : outcome Value :=
  match aff with
  | AffText => to_text_affinity v
  | AffInteger | AffReal | AffNumeric => Ok (to_numeric_affinity v)
  | AffBlob => Ok v
  end.
