(* ===== verification/FloatOps.v ===== *)
(** * Arithmetic on binary64

    The operators of [f64] the engine uses outside comparisons: each result is
    the exact one rounded to nearest, ties to even, with the IEEE rules for
    infinities, zeros and NaNs. The sign and payload of a NaN result, which the
    language leaves open, are those of [f64_nan]. *)

From S2P Require Import Prelude Utf8 Float64 Fp.
#[local] Open Scope Z_scope.

Definition f64_nan : Z := 0x7ff8000000000000.
Definition f64_is_inf (x : Z) : bool := (f64_exp x =? 2047) && (f64_frac x =? 0).
Definition f64_is_zero (x : Z) : bool := f64_mag x =? 0.

(** The double nearest to [num / den]; an exact zero has the sign [neg0]. *)
Definition f64_rounded (neg0 : bool) (num den : Z) : Z :=
  if num =? 0 then (if neg0 then 2 ^ 63 else 0)
  else if num <? 0 then 2 ^ 63 + f64_nearest (- num) den else f64_nearest num den.
Definition f64_signed_inf (neg : bool) : Z := if neg then 2 ^ 63 + f64_infinity else f64_infinity.

Definition f64_add (x y : Z) : Z :=
  if f64_is_nan x || f64_is_nan y then f64_nan
  else if f64_is_inf x then (if f64_is_inf y && xorb (f64_neg x) (f64_neg y) then f64_nan else x)
  else if f64_is_inf y then y
  else f64_rounded (f64_neg x && f64_neg y) (f64_key x + f64_key y) (2 ^ 1074).
Definition f64_sub (x y : Z) : Z := if f64_is_nan y then f64_nan else f64_add x (f64_opp y).
Definition f64_mul (x y : Z) : Z :=
  let neg := xorb (f64_neg x) (f64_neg y) in
  if f64_is_nan x || f64_is_nan y then f64_nan
  else if f64_is_inf x || f64_is_inf y
  then (if f64_is_zero x || f64_is_zero y then f64_nan else f64_signed_inf neg)
  else f64_rounded neg (f64_key x * f64_key y) (2 ^ 2148).
Definition f64_div (x y : Z) : Z :=
  let neg := xorb (f64_neg x) (f64_neg y) in
  if f64_is_nan x || f64_is_nan y then f64_nan
  else if f64_is_inf x then (if f64_is_inf y then f64_nan else f64_signed_inf neg)
  else if f64_is_inf y then (if neg then 2 ^ 63 else 0)
  else if f64_is_zero y then (if f64_is_zero x then f64_nan else f64_signed_inf neg)
  else f64_rounded neg (f64_key x * Z.sgn (f64_key y)) (Z.abs (f64_key y)).
(** C's [fmod], the [%] of Rust: exact, with the sign of the dividend. *)
Definition f64_rem (x y : Z) : Z :=
  if f64_is_nan x || f64_is_nan y || f64_is_inf x || f64_is_zero y then f64_nan
  else if f64_is_inf y then x
  else f64_rounded (f64_neg x) (Z.rem (f64_key x) (f64_key y)) (2 ^ 1074).

Definition f64_abs (x : Z) : Z := x mod 2 ^ 63.
(** [x == 0.0] and the other equalities of [PartialEq]. *)
Definition f64_eq (x y : Z) : bool := match f64_partial_cmp x y with Some Eq => true | _ => false end.
Definition f64_gt (x y : Z) : bool := match f64_partial_cmp x y with Some Gt => true | _ => false end.
Definition f64_le (x y : Z) : bool := match f64_partial_cmp x y with Some (Eq | Lt) => true | _ => false end.
(** [x.fract() == 0.0]. *)
Definition f64_is_integral (x : Z) : bool :=
  negb (f64_is_nan x) && negb (f64_is_inf x) && (f64_key x mod 2 ^ 1074 =? 0).

(** [x.trunc()], [x.floor()], [x.ceil()]: NaN, infinities and whole values
    are themselves. *)
Definition f64_integral (f : Z -> Z) (x : Z) : Z :=
  if f64_is_nan x || f64_is_inf x then x else f64_rounded (f64_neg x) (f (f64_key x)) 1.
Definition f64_trunc : Z -> Z := f64_integral (fun k => Z.quot k (2 ^ 1074)).
Definition f64_floor : Z -> Z := f64_integral (fun k => k / 2 ^ 1074).
Definition f64_ceil : Z -> Z := f64_integral (fun k => - (- k / 2 ^ 1074)).

Definition f64_half : Z := 0x3fe0000000000000.
Definition f64_one : Z := 0x3ff0000000000000.

(** ** [str::parse]

    [parse::<i64>]: an optional sign and digits, in range. [parse::<f64>]: a
    decimal with a digit somewhere, correctly rounded, or a name. *)

Definition parse_i64 (s : bytes) : option Z :=
  let '(neg, ds) := take_sign s in
  let i := if neg then - digits_value ds else digits_value ds in
  if negb (zlen ds =? 0) && forallb is_digit ds && (- 2 ^ 63 <=? i) && (i <? 2 ^ 63) then Some i else None.

Definition parse_exp (s : bytes) : option Z :=
  match s with
  | [] => Some 0
  | b :: t =>
      if (b =? 101) || (b =? 69)
      then let '(eneg, es) := take_sign t in
           if negb (zlen es =? 0) && forallb is_digit es
           then Some (if eneg then - digits_value es else digits_value es) else None
      else None
  end.
Definition parse_f64 (s : bytes) : option Z :=
  let '(neg, s) := take_sign s in
  let sgn r := if neg : bool then f64_opp r else r in
  if eq_ignore_ascii_case s (bytes_of "inf") || eq_ignore_ascii_case s (bytes_of "infinity")
  then Some (sgn f64_infinity)
  else if eq_ignore_ascii_case s (bytes_of "nan") then Some (sgn f64_nan)
  else
    let '(ds, s) := span is_digit s in
    let '(fs, s) := match s with
                    | b :: t => if b =? 46 then span is_digit t else ([], s)
                    | [] => ([], []) end in
    if (zlen ds =? 0) && (zlen fs =? 0) then None
    else e ← parse_exp s; Some (f64_of_decimal neg (digits_value (ds ++ fs)) (e - zlen fs)).

(** ** Ranges *)

Lemma f64_nearest_range num den : 0 < den -> 0 <= num -> 0 <= f64_nearest num den < 2 ^ 63.
Proof.
  intros Hd Hn. unfold f64_nearest.
  set (n := num * 2 ^ 1074). set (s := Z.max 0 _).
  assert (0 <= round_half_even (n / (den * 2 ^ s)) (n mod (den * 2 ^ s)) (den * 2 ^ s)).
  { assert (0 <= n / (den * 2 ^ s)).
    { apply Z.div_pos; [by apply Z.mul_nonneg_nonneg|].
      apply Z.mul_pos_pos; [done|apply Z.pow_pos_nonneg; lia]. }
    unfold round_half_even. destruct (_ ?= _); [destruct (Z.even _)|..]; lia. }
  unfold f64_infinity. assert (0 <= s * 2 ^ 52) by (assert (0 <= s) by lia; nia). lia.
Qed.

Lemma f64_rounded_u64 neg num den : 0 < den -> is_u64 (f64_rounded neg num den).
Proof.
  intros Hd. unfold f64_rounded, is_u64.
  destruct (num =? 0); [destruct neg; lia|].
  destruct (Z.ltb_spec num 0).
  - pose proof (f64_nearest_range (- num) den Hd ltac:(lia)). lia.
  - pose proof (f64_nearest_range num den Hd ltac:(lia)). lia.
Qed.

Lemma f64_opp_u64 x : is_u64 x -> is_u64 (f64_opp x).
Proof.
  unfold is_u64, f64_opp. intros Hx.
  assert (0 <= Z.lxor x (2 ^ 63)) by (apply Z.lxor_nonneg; lia).
  split; [done|]. destruct (Z.eq_dec (Z.lxor x (2 ^ 63)) 0) as [->|Hne]; [lia|].
  apply Z.log2_lt_pow2; [lia|].
  pose proof (Z.log2_lxor x (2 ^ 63) ltac:(lia) ltac:(lia)).
  assert (Z.log2 x < 64).
  { destruct (Z.eq_dec x 0) as [->|]; [by vm_compute|apply Z.log2_lt_pow2; lia]. }
  change (Z.log2 (2 ^ 63)) with 63 in *. lia.
Qed.

Lemma f64_nan_u64 : is_u64 f64_nan.
Proof. by_decide. Qed.
Lemma f64_signed_inf_u64 neg : is_u64 (f64_signed_inf neg).
Proof. destruct neg; by_decide. Qed.
Lemma f64_zero_u64 (neg : bool) : is_u64 (if neg then 2 ^ 63 else 0).
Proof. destruct neg; by_decide. Qed.
#[local] Hint Resolve f64_nan_u64 f64_signed_inf_u64 f64_zero_u64 f64_opp_u64 f64_rounded_u64 : core.

Lemma pow2_pos n : 0 <= n -> 0 < 2 ^ n.
Proof. intros. by apply Z.pow_pos_nonneg. Qed.

Lemma f64_add_u64 x y : is_u64 x -> is_u64 y -> is_u64 (f64_add x y).
Proof.
  intros Hx Hy. unfold f64_add.
  destruct (f64_is_nan x || f64_is_nan y); [done|].
  destruct (f64_is_inf x); [destruct (_ && _); done|].
  destruct (f64_is_inf y); [done|]. apply f64_rounded_u64, pow2_pos. lia.
Qed.
Lemma f64_sub_u64 x y : is_u64 x -> is_u64 y -> is_u64 (f64_sub x y).
Proof. intros. unfold f64_sub. destruct (f64_is_nan y); [done|]. apply f64_add_u64; auto. Qed.
Lemma f64_mul_u64 x y : is_u64 (f64_mul x y).
Proof.
  unfold f64_mul. destruct (f64_is_nan x || f64_is_nan y); [done|].
  destruct (f64_is_inf x || f64_is_inf y); [destruct (_ || _); done|].
  apply f64_rounded_u64, pow2_pos. lia.
Qed.
Lemma f64_div_u64 x y : is_u64 (f64_div x y).
Proof.
  unfold f64_div. destruct (f64_is_nan x || f64_is_nan y); [done|].
  destruct (f64_is_inf x); [destruct (f64_is_inf y); done|].
  destruct (f64_is_inf y); [done|].
  destruct (f64_is_zero y) eqn:E; [destruct (f64_is_zero x); done|].
  apply f64_rounded_u64. unfold f64_is_zero in E. apply Z.eqb_neq in E.
  rewrite <- f64_mag_abs. pose proof (f64_mag_bounds y). lia.
Qed.

(** ** Examples *)

(** 0.1 + 0.2, 1 - 0.1, 0.1 * 3, 1 / 3, 5.5 mod 2. *)
Example f64_arith_examples :
  f64_add 0x3fb999999999999a 0x3fc999999999999a = 0x3fd3333333333334 /\
  f64_sub f64_one 0x3fb999999999999a = 0x3feccccccccccccd /\
  f64_mul 0x3fb999999999999a 0x4008000000000000 = 0x3fd3333333333334 /\
  f64_div f64_one 0x4008000000000000 = 0x3fd5555555555555 /\
  f64_rem 0x4016000000000000 0x4000000000000000 = 0x3ff8000000000000 /\
  f64_div f64_one (2 ^ 63) = 0xfff0000000000000 /\
  f64_floor 0xbff8000000000000 = 0xc000000000000000 /\
  f64_ceil 0xbff8000000000000 = 0xbff0000000000000.
Proof. vm_compute. done. Qed.
