(* ===== verification/NumberText.v ===== *)
(** * Numbers and their text

    [fp_to_text] indexes buffers, shifts by computed amounts and subtracts
    without a borrow: for each of the 2^64 bit patterns all of this stays in
    range (the bounds on the decimal significand are computed for every binary
    exponent at the ends of its range). The text of an integer, with white space
    around it, reads back as that integer. *)

From S2P Require Import Prelude Utf8 Float64 Value Fp.
#[local] Open Scope Z_scope.

(** ** The digit buffer *)

Lemma put_spec zbuf k x : 0 <= k < zlen zbuf -> exists b, put zbuf k x = Ok b /\ zlen b = zlen zbuf /\
  forall j, zget b j = if j =? k then Some x else zget zbuf j.
Proof.
  intros Hk. unfold put. rewrite copy_into_in by (change (zlen [x]) with 1; lia). eexists. split; [done|].
  split; [rewrite zlen_splice; change (zlen [x]) with 1; lia|]. intros j. destruct (Z.eqb_spec j k) as [->|Hne].
  - unfold splice. rewrite zget_app_r by (rewrite zlen_ztake; lia). rewrite zlen_ztake.
    replace (k - Z.max 0 (Z.min k (zlen zbuf))) with 0 by lia. done.
  - apply zget_splice_ne; change (zlen [x]) with 1; lia.
Qed.

(** Digits from [z] on; the last cell of the buffer is never written. *)
Definition digits_at (zbuf : bytes) (z : Z) : Prop :=
  zlen zbuf = 21 /\ forall k, z <= k < 20 -> exists d, zget zbuf k = Some d /\ 48 <= d <= 57.
Definition lead (zbuf : bytes) (z : Z) : Prop := exists d, zget zbuf z = Some d /\ 49 <= d <= 57.

Lemma put_digit zbuf z k x : digits_at zbuf z -> 0 <= k < 20 -> 48 <= x <= 57 -> z - 1 <= k ->
  exists b, put zbuf k x = Ok b /\ digits_at b (Z.min z k) /\ (forall j, zget b j = if j =? k then Some x else zget zbuf j).
Proof.
  intros [Hl Hd] Hk Hx Hz. destruct (put_spec zbuf k x ltac:(lia)) as (b & Hp & Hlb & Hg). exists b.
  split; [done|]. split; [|done]. split; [lia|]. intros j Hj. rewrite Hg.
  destruct (Z.eqb_spec j k); [by exists x|]. apply Hd. lia.
Qed.

Lemma digit_at zbuf z k : digits_at zbuf z -> z <= k < 20 -> exists d, idx zbuf k = Ok d /\ 48 <= d <= 57.
Proof. intros [_ Hd] Hk. destruct (Hd k Hk) as (d & Hg & Hr). exists d. unfold idx. by rewrite Hg. Qed.

(** [v] has [c] decimal digits. *)
Definition ndig (c : nat) (v : Z) : Prop :=
  match c with O => v = 0 | S c' => 10 ^ Z.of_nat c' <= v < 10 ^ Z.of_nat c end.

Lemma ndig_small c v : ndig c v -> v < 10 -> (c <= 1)%nat.
Proof.
  destruct c as [|[|c]]; [lia..|]. cbn [ndig]. intros [Hv _] Hlt.
  assert (10 ^ 1 <= 10 ^ Z.of_nat (S c)) by (apply Z.pow_le_mono_r; lia). lia.
Qed.
Lemma ndig_step c v : ndig c v -> 10 <= v -> exists c', c = S (S c') /\ ndig c' (v / 100).
Proof.
  destruct c as [|[|c]]; cbn [ndig]; [lia| |].
  { change (10 ^ Z.of_nat 1) with 10. lia. }
  intros Hv _. exists c. split; [done|]. rewrite !Nat2Z.inj_succ, !Z.pow_succ_r in Hv by lia.
  destruct c as [|c]; cbn [ndig]; [apply Z.div_small; cbn in Hv; lia|].
  rewrite Nat2Z.inj_succ, Z.pow_succ_r in * by lia. split; [apply Z.div_le_lower_bound|apply Z.div_lt_upper_bound]; lia.
Qed.

Lemma digits_loop_spec fuel : forall c v zbuf i, ndig c v -> (c < 2 * fuel)%nat -> Z.of_nat c <= i <= 20 ->
  digits_at zbuf i -> (c = 0%nat -> lead zbuf i) ->
  exists zbuf' i' v', digits_loop fuel zbuf i v = Ok (zbuf', i', v') /\ digits_at zbuf' i' /\
    ((v' = 0 /\ i' = i - Z.of_nat c /\ lead zbuf' i') \/ (1 <= v' <= 9 /\ i' = i - Z.of_nat c + 1)).
Proof.
  induction fuel as [|fuel IH]; intros c v zbuf i Hc Hf Hi Hd Hl; [lia|]. cbn [digits_loop].
  destruct (Z.geb_spec v 10) as [Hv|Hv].
  - destruct (ndig_step c v Hc Hv) as (c' & -> & Hc').
    pose proof (Z.mod_pos_bound v 100 ltac:(lia)) as H100. pose proof (Z.mod_pos_bound (v mod 100) 10 ltac:(lia)).
    assert (0 <= v mod 100 / 10 <= 9) by (split; [apply Z.div_pos; lia|apply Z.lt_succ_r, Z.div_lt_upper_bound; lia]).
    destruct (put_digit zbuf i (i - 1) (48 + v mod 100 mod 10) Hd) as (b1 & -> & Hd1 & _); [lia..|]. cbn [mbind outcome_bind].
    destruct (put_digit b1 (i - 1) (i - 2) (48 + v mod 100 / 10)) as (b2 & -> & Hd2 & Hg2); [|lia..|].
    { by replace (i - 1) with (Z.min i (i - 1)) by lia. }
    cbn [mbind outcome_bind]. replace (Z.min (i - 1) (i - 2)) with (i - 2) in Hd2 by lia.
    destruct (IH c' (v / 100) b2 (i - 2) Hc' ltac:(lia) ltac:(lia) Hd2) as (zb & i' & v' & -> & Hd' & Hor).
    { intros ->. cbn in Hc'. exists (48 + v mod 100 / 10). rewrite Hg2, Z.eqb_refl. split; [done|].
      assert (v < 100) by (apply Z.div_small_iff in Hc'; lia). rewrite Z.mod_small in * by lia.
      assert (1 <= v / 10) by (apply Z.div_le_lower_bound; lia). lia. }
    exists zb, i', v'. split; [done|]. split; [done|]. destruct Hor as [(-> & -> & ?)|(? & ->)]; [left|right]; split_and!; (done || lia).
  - exists zbuf, i, v. split; [done|]. split; [done|]. pose proof (ndig_small c v Hc ltac:(lia)) as Hs.
    destruct c as [|[|c]]; [|cbn in Hc; right; lia|lia]. left. cbn in Hc. split_and!; [done|lia|by apply Hl].
Qed.

(** The digits of [v] in a fresh buffer, as [fp_decode] lays them out. *)
Lemma digits_spec c v : ndig c v -> (0 < c < 20)%nat -> exists zbuf,
  ('(zbuf, i, v) ← digits_loop 12 (zrep 21 0) 20 v;
   if negb (v =? 0) then i ← chk_sub i 1; zbuf ← put zbuf i (48 + v); Ok (zbuf, i) else Ok (zbuf, i)) =
    Ok (zbuf, 20 - Z.of_nat c) /\ digits_at zbuf (20 - Z.of_nat c) /\ lead zbuf (20 - Z.of_nat c).
Proof.
  intros Hc Hb. destruct (digits_loop_spec 12 c v (zrep 21 0) 20 Hc ltac:(lia) ltac:(lia)) as (zb & i & v' & Hloop & Hd & Hor).
  { split; [done|]. intros. lia. }
  { lia. }
  rewrite Hloop. cbn [mbind outcome_bind]. destruct Hor as [(-> & -> & Hl)|(Hv & ->)]; [by exists zb|].
  destruct (Z.eqb_spec v' 0); [lia|]. cbn [negb]. unfold chk_sub. destruct (Z.ltb_spec (20 - Z.of_nat c + 1) 1); [lia|].
  cbn [mbind outcome_bind]. destruct (put_digit zb (20 - Z.of_nat c + 1) (20 - Z.of_nat c + 1 - 1) (48 + v') Hd) as (b & -> & Hd' & Hg); [lia..|].
  cbn [mbind outcome_bind]. replace (20 - Z.of_nat c + 1 - 1) with (20 - Z.of_nat c) in * by lia.
  replace (Z.min (20 - Z.of_nat c + 1) (20 - Z.of_nat c)) with (20 - Z.of_nat c) in Hd' by lia.
  exists b. split; [done|]. split; [done|]. exists (48 + v'). rewrite Hg, Z.eqb_refl. split; [done|lia].
Qed.

(** ** Powers of ten *)

Definition power_ok (p : Z) : bool :=
  match power_of_ten p with
  | Ok (h, l) => (2 ^ 63 <=? h) && (h <? 2 ^ 64 - 1) && (0 <=? l) && (l <? 2 ^ 32)
  | _ => false
  end.
Lemma powers_ok : forallb power_ok (seqZ POWERSOF10_FIRST 696) = true.
Proof. by vm_compute. Qed.
Lemma power_of_ten_range p : POWERSOF10_FIRST <= p <= POWERSOF10_LAST ->
  exists h l, power_of_ten p = Ok (h, l) /\ 2 ^ 63 <= h < 2 ^ 64 - 1 /\ 0 <= l < 2 ^ 32.
Proof.
  intros Hp. pose proof powers_ok as Ht. rewrite forallb_forall in Ht. specialize (Ht p). unfold power_ok in Ht.
  assert (In p (seqZ POWERSOF10_FIRST 696)) as Hin
    by (apply list_elem_of_In, elem_of_seqZ; unfold POWERSOF10_FIRST, POWERSOF10_LAST in *; lia).
  specialize (Ht Hin). destruct (power_of_ten p) as [[h l]| |]; [|done..]. exists h, l.
  rewrite !andb_true_iff, !Z.leb_le, !Z.ltb_lt in Ht. split; [done|lia].
Qed.

Lemma u64_range x : 0 <= u64 x < 2 ^ 64.
Proof. apply Z.mod_pos_bound. lia. Qed.
Lemma u64_small x : 0 <= x < 2 ^ 64 -> u64 x = x.
Proof. apply Z.mod_small. Qed.
Lemma shiftr_div x k : 0 <= k -> Z.shiftr x k = x / 2 ^ k.
Proof. apply Z.shiftr_div_pow2. Qed.

(** The high word of a product of two 64-bit integers. *)
Lemma multiply128_hi a b : 0 <= a < 2 ^ 64 -> 0 <= b < 2 ^ 64 -> fst (multiply128 a b) = a * b / 2 ^ 64.
Proof.
  intros Ha Hb. unfold multiply128. cbn [fst]. rewrite shiftr_div by lia. apply u64_small.
  split; [apply Z.div_pos; nia|apply Z.div_lt_upper_bound; nia].
Qed.

Lemma leading_zeros_bits d : 1 <= d < 2 ^ 64 -> 1 <= 64 - leading_zeros d <= 64 /\
  2 ^ 63 <= d * 2 ^ (leading_zeros d) < 2 ^ 64.
Proof.
  intros Hd. unfold leading_zeros. destruct (Z.eqb_spec d 0); [lia|].
  pose proof (Z.log2_spec d ltac:(lia)) as [Hlo Hhi]. pose proof (Z.log2_nonneg d).
  assert (Z.log2 d < 64) by (apply Z.log2_lt_pow2; lia). split; [lia|].
  replace (2 ^ 63) with (2 ^ Z.log2 d * 2 ^ (63 - Z.log2 d)) by (rewrite <- Z.pow_add_r by lia; f_equal; lia).
  replace (2 ^ 64) with (2 ^ Z.succ (Z.log2 d) * 2 ^ (63 - Z.log2 d)) by (rewrite <- Z.pow_add_r by lia; f_equal; lia).
  assert (0 < 2 ^ (63 - Z.log2 d)) by (apply Z.pow_pos_nonneg; lia). nia.
Qed.

Lemma fp10convert2_total d p : 1 <= d < 2 ^ 64 -> exists r, fp10convert2 d p = Ok r.
Proof.
  intros Hd. unfold fp10convert2. destruct (Z.ltb_spec p POWERSOF10_FIRST) as [|Hp1]; [by eexists|].
  destruct (Z.gtb_spec p POWERSOF10_LAST) as [|Hp2]; [by eexists|].
  destruct (leading_zeros_bits d Hd) as [Hb Hx]. set (lz := leading_zeros d) in *. replace (64 - (64 - lz)) with lz by lia.
  set (e := 53 - (64 - lz) - pwr10to2 p). destruct (_ && _) eqn:He; [by eexists|].
  assert (0 <= - (Z.min e 1074 - lz + pwr10to2 p + 3) < 64) as Hs.
  { unfold e in *. apply andb_false_iff in He. destruct (Z.gtb_spec (53 - (64 - lz) - pwr10to2 p) 1074); [|lia].
    destruct (Z.geb_spec (53 - (64 - lz) - pwr10to2 p) 1130); [by destruct He|lia]. }
  set (s := - (Z.min e 1074 - lz + pwr10to2 p + 3)) in *.
  destruct (power_of_ten_range p ltac:(lia)) as (h & l & -> & Hh & Hl). cbn [mbind outcome_bind].
  destruct (if negb (l =? 0) then _ else _) as [h' l'] eqn:El.
  assert (2 ^ 63 <= h' < 2 ^ 64) as Hh'.
  { destruct (negb (l =? 0)); injection El as <- <-; [rewrite u64_small by lia|]; lia. }
  unfold shl64, shr64. destruct (Z.leb_spec 0 lz); [|lia]. destruct (Z.ltb_spec lz 64); [|lia]. cbn [andb mbind outcome_bind].
  rewrite Z.shiftl_mul_pow2, u64_small by lia. pose proof (multiply128_hi (d * 2 ^ lz) h' ltac:(lia) ltac:(lia)) as Hhi.
  assert (2 ^ 62 <= d * 2 ^ lz * h' / 2 ^ 64) as Hbig by (apply Z.div_le_lower_bound; nia).
  destruct (multiply128 (d * 2 ^ lz) h') as [hi lo]. cbn [fst] in Hhi. rewrite <- Hhi in Hbig. clear Hhi.
  destruct (Z.leb_spec 0 s); [|lia]. destruct (Z.ltb_spec s 64); [|lia]. cbn [andb mbind outcome_bind].
  match goal with |- context [if Z.land hi ?m =? 0 then ?a else ?b] =>
    assert (exists hi' st, (if Z.land hi m =? 0 then a else b) = Ok (hi', st)) as (hi' & st & ->) end.
  { case (Z.land hi _ =? 0); [|by eexists _, _]. destruct (multiply128 _ _) as [m2 ?]. unfold chk_sub.
    destruct (Z.shiftr lo 32 <? Z.shiftr m2 32).
    - destruct (Z.ltb_spec hi 1); [lia|]. by eexists _, _.
    - destruct (Z.ltb_spec hi 0); [lia|]. by eexists _, _. }
  cbn [mbind outcome_bind]. destruct (if Z.lor _ _ >=? _ then _ else _) as [u e']. destruct (e' <=? -972); [by eexists|].
  destruct (negb (Z.land _ _ =? 0)); by eexists.
Qed.

(** ** The decimal significand *)

(** With the 18 digits [fp_to_text] asks for. *)
Definition significand (m e : Z) : outcome Z := '(d, _) ← fp2convert10 m e 18; Ok d.
Definition exponent_ok (e : Z) : bool :=
  let p := 17 - pwr2to10 (e + 63) in
  let sh := - (e + pwr10to2 p + 2) in
  match power_of_ten p with
  | Ok (h, _) =>
      (0 <=? sh) && (sh <? 64) && (2 ^ 63 <=? h) && (h <? 2 ^ 64)
      && (2 * 10 ^ 17 <=? Z.shiftr (2 ^ 63 * h / 2 ^ 64) sh + 1) && (Z.shiftr ((2 ^ 64 - 1) * h / 2 ^ 64) sh + 1 <? 4 * 10 ^ 18)
  | _ => false
  end.
Lemma exponents_ok : forallb exponent_ok (seqZ (-1137) 2098) = true.
Proof. by vm_compute. Qed.

Lemma shl1_land2 h : 0 <= h -> Z.land (2 * h) 2 = 2 * (h mod 2).
Proof.
  intros Hh. change 2 with (2 ^ 1) at 1. rewrite (Z.mul_comm _ h), <- Z.shiftl_mul_pow2 by lia.
  change 2 with (Z.shiftl 1 1) at 1. rewrite <- Z.shiftl_land. change 1 with (Z.ones 1) at 1. rewrite Z.land_ones by lia.
  rewrite Z.shiftl_mul_pow2 by lia. change (2 ^ 1) with 2. lia.
Qed.

Lemma half_up h : 0 <= h -> h + 2 < 2 ^ 64 -> h < 2 ^ 63 ->
  Z.shiftr (u64 (h + Z.land (u64 (Z.shiftl h 1)) 2)) 1 = (h + 1) / 2.
Proof.
  intros H0 H1 H2. rewrite Z.shiftl_mul_pow2, (Z.mul_comm h) by lia. change (2 ^ 1) with 2.
  rewrite (u64_small (2 * h)), shl1_land2 by lia. pose proof (Z.mod_pos_bound h 2 ltac:(lia)).
  rewrite (u64_small (h + 2 * (h mod 2))), shiftr_div by lia. change (2 ^ 1) with 2.

  pose proof (Z.div_mod h 2 ltac:(lia)) as E. set (q := h / 2) in *.
  assert (h mod 2 = 0 \/ h mod 2 = 1) as [Em|Em] by lia; rewrite Em in *; rewrite E.
  - replace (2 * q + 0 + 2 * 0) with (q * 2) by lia. replace (2 * q + 0 + 1) with (q * 2 + 1) by lia.
    rewrite Z.div_mul, Z.div_add_l by lia. change (1 / 2) with 0. lia.
  - replace (2 * q + 1 + 2 * 1) with ((q + 1) * 2 + 1) by lia. replace (2 * q + 1 + 1) with ((q + 1) * 2) by lia.
    rewrite Z.div_mul, Z.div_add_l by lia. change (1 / 2) with 0. lia.
Qed.

Lemma fp2convert10_range m e : -1137 <= e <= 960 -> 2 ^ 63 <= m < 2 ^ 64 ->
  exists d p, fp2convert10 m e 18 = Ok (d, p) /\ 10 ^ 17 <= d < 2 * 10 ^ 18.
Proof.
  intros He Hm. pose proof exponents_ok as Ht. rewrite forallb_forall in Ht.
  specialize (Ht e ltac:(apply list_elem_of_In, elem_of_seqZ; lia)). unfold exponent_ok in Ht.
  unfold fp2convert10. change (negb ((1 <=? 18) && (18 <=? 18))) with false. cbv iota. change (18 - 1) with 17.
  set (p := 17 - pwr2to10 (e + 63)) in *. set (sh := - (e + pwr10to2 p + 2)) in *.
  destruct (power_of_ten p) as [[h l]| |]; [|done..]. cbn [mbind outcome_bind].
  rewrite !andb_true_iff, !Z.leb_le, !Z.ltb_lt in Ht. destruct Ht as [[[[[Hs0 Hs1] Hh0] Hh1] Hlo] Hhi].
  pose proof (multiply128_hi m h ltac:(lia) ltac:(lia)) as Hmul. destruct (multiply128 m h) as [x y]. cbn [fst] in Hmul. subst x.
  change (18 =? 18) with true. cbv iota. unfold shr64. destruct (Z.leb_spec 0 sh); [|lia]. destruct (Z.ltb_spec sh 64); [|lia].
  cbn [andb mbind outcome_bind]. rewrite !shiftr_div in Hlo, Hhi by lia. rewrite (shiftr_div (m * h / 2 ^ 64)) by lia.
  assert (0 < 2 ^ sh) as Hpos by (apply Z.pow_pos_nonneg; lia).
  assert (2 ^ 63 * h / 2 ^ 64 / 2 ^ sh <= m * h / 2 ^ 64 / 2 ^ sh) as Hl1
    by (apply Z.div_le_mono; [lia|]; apply Z.div_le_mono; [lia|]; nia).
  assert (m * h / 2 ^ 64 / 2 ^ sh <= (2 ^ 64 - 1) * h / 2 ^ 64 / 2 ^ sh) as Hl2
    by (apply Z.div_le_mono; [lia|]; apply Z.div_le_mono; [lia|]; nia).
  set (x := m * h / 2 ^ 64 / 2 ^ sh) in *. rewrite half_up by lia. eexists _, _. split; [done|].
  split; [apply Z.div_le_lower_bound|apply Z.div_lt_upper_bound]; lia.
Qed.

(** ** Shorter decimals and rounding *)

Lemma acc_loop_total ks zbuf z : forall acc, digits_at zbuf z -> 0 <= acc < 10 ^ 4 * 10 ^ (14 - zlen ks) ->
  zlen ks <= 14 -> Forall (fun k => 0 <= k /\ z + k < 20) ks -> exists a, acc_loop ks zbuf z acc = Ok a /\ acc <= a < 10 ^ 18.
Proof.
  induction ks as [|k ks IH]; intros acc Hd Ha Hl HF; cbn [acc_loop].
  { exists acc. split; [done|]. change (zlen []) with 0 in Ha. change (10 ^ 4 * 10 ^ (14 - 0)) with (10 ^ 18) in Ha. lia. }
  inversion HF as [|? ? Hk HF']; subst. rewrite zlen_cons in *. pose proof (zlen_nonneg ks).
  destruct (digit_at zbuf z (z + k) Hd ltac:(lia)) as (d & -> & Hdr). cbn [mbind outcome_bind].
  unfold chk_sub. destruct (Z.ltb_spec d 48); [lia|]. cbn [mbind outcome_bind].
  replace (14 - zlen ks) with (Z.succ (14 - (1 + zlen ks))) in IH by lia. rewrite Z.pow_succ_r in IH by lia.
  assert (10 ^ (14 - (1 + zlen ks)) <= 10 ^ 13) as Hp by (apply Z.pow_le_mono_r; lia).
  destruct (Z.ltb_spec (acc * 10 + (d - 48)) (2 ^ 64)); [|lia].
  destruct (IH (acc * 10 + (d - 48)) Hd ltac:(lia) ltac:(lia) HF') as (a & Ha' & Hr). exists a. split; [done|lia].
Qed.

Lemma leading_value_total zbuf z jj : digits_at zbuf z -> lead zbuf z -> 1 <= jj <= 14 -> z + 17 <= 20 ->
  exists a, leading_value zbuf z jj = Ok a /\ 1 <= a < 10 ^ 18.
Proof.
  intros Hd (d & Hg & Hdr) Hj Hz. unfold leading_value, idx at 1. rewrite Hg. cbn [expect mbind outcome_bind].
  unfold chk_sub. destruct (Z.ltb_spec d 48); [lia|]. cbn [mbind outcome_bind].
  assert (zlen (seqZ 1 (jj - 1)) = jj - 1) as Hl by (unfold zlen; rewrite length_seqZ; lia).
  destruct (acc_loop_total (seqZ 1 (jj - 1)) zbuf z (d - 48) Hd) as (a & -> & Ha); [|lia| |by exists a; split; [|lia]].
  - rewrite Hl. assert (1 <= 10 ^ (14 - (jj - 1))) by (apply Z.pow_le_mono_r with (b := 0) (a := 10); lia). lia.
  - apply Forall_forall. intros k Hk%elem_of_seqZ. lia.
Qed.

Lemma nines_loop_total zbuf z : digits_at zbuf z -> forall jj, z + Z.of_nat jj <= 20 ->
  exists j, nines_loop jj zbuf z = Ok j /\ 0 <= j <= Z.of_nat jj.
Proof.
  intros Hd. induction jj as [|jj IH]; intros Hz; [by exists 0|]. cbn [nines_loop].
  destruct (digit_at zbuf z (z + Z.of_nat (S jj) - 1) Hd ltac:(lia)) as (d & -> & _). cbn [mbind outcome_bind].
  destruct (d =? 57); [|by exists (Z.of_nat (S jj)); split; [|lia]].
  destruct (IH ltac:(lia)) as (j & -> & Hj). exists j. split; [done|lia].
Qed.

Lemma zeros_loop_total zbuf z : digits_at zbuf z -> lead zbuf z -> forall jj, z + Z.of_nat (S jj) <= 20 ->
  exists j, zeros_loop (S jj) zbuf z = Ok j /\ 1 <= j <= Z.of_nat (S jj).
Proof.
  intros Hd Hl. induction jj as [|jj IH]; intros Hz; cbn [zeros_loop].
  - destruct Hl as (d & Hg & Hdr). change (Z.of_nat 1) with 1 in *. replace (z + 1 - 1) with z by lia.
    assert (idx zbuf z = Ok d) as -> by (unfold idx; by rewrite Hg). cbn [mbind outcome_bind]. destruct (Z.eqb_spec d 48); [lia|]. by exists 1.
  - destruct (digit_at zbuf z (z + Z.of_nat (S (S jj)) - 1) Hd ltac:(lia)) as (c & -> & _). cbn [mbind outcome_bind].
    destruct (c =? 48); [|by exists (Z.of_nat (S (S jj))); split; [|lia]].
    destruct (IH ltac:(lia)) as (j & Hj & Hr). exists j. split; [exact Hj|lia].
Qed.

Lemma reduce_round_total r zbuf z i_dp n exp : digits_at zbuf z -> lead zbuf z -> 0 <= z <= 2 ->
  exists k, reduce_round r zbuf z i_dp n exp 17 = Ok k /\ 1 <= k <= 17.
Proof.
  intros Hd Hl Hz. unfold reduce_round.
  destruct (digit_at zbuf z (z + 15) Hd ltac:(lia)) as (d15 & H15 & _).
  destruct (digit_at zbuf z (z + 14) Hd ltac:(lia)) as (d14 & H14 & _).
  destruct (digit_at zbuf z (z + 13) Hd ltac:(lia)) as (d13 & H13 & _).
  cbv zeta. rewrite !H15. cbn [mbind outcome_bind]. rewrite !H14. cbn [mbind outcome_bind]. rewrite !H13. cbn [mbind outcome_bind].
  assert (forall j v, 0 <= j <= 14 -> 1 <= v < 10 ^ 18 + 1 -> exists k,
    (back ← fp10convert2 v (exp + n - j); Ok (if bool_decide (f64_partial_cmp r back = Some Eq) then j + 1 else 17)) = Ok k /\ 1 <= k <= 17)
    as Hback.
  { intros j v Hj Hv. destruct (fp10convert2_total v (exp + n - j) ltac:(lia)) as (back & ->). cbn [mbind outcome_bind].
    eexists. split; [done|]. destruct (bool_decide _); lia. }
  destruct (d15 =? 57); [destruct (d14 =? 57)|]; cbn [mbind outcome_bind]; cbv iota.
  - destruct (nines_loop_total zbuf z Hd 14 ltac:(lia)) as (j & -> & Hj). cbn [mbind outcome_bind].
    destruct (Z.eqb_spec j 0); cbn [mbind outcome_bind]; [apply Hback; lia|].
    destruct (leading_value_total zbuf z j Hd Hl ltac:(lia) ltac:(lia)) as (a & -> & Ha). cbn [mbind outcome_bind]. apply Hback; lia.
  - destruct (i_dp >=? n); [|destruct (d15 =? 48); [destruct (d14 =? 48); [destruct (d13 =? 48)|]|]]; cbn [mbind outcome_bind];
      try (exists 17; split; [done|lia]);
      destruct (zeros_loop_total zbuf z Hd Hl 12 ltac:(lia)) as (j & -> & Hj); cbn [mbind outcome_bind];
      destruct (leading_value_total zbuf z j Hd Hl ltac:(lia) ltac:(lia)) as (a & -> & Ha); cbn [mbind outcome_bind]; apply Hback; lia.
  - destruct (i_dp >=? n); [|destruct (d15 =? 48); [destruct (d14 =? 48); [destruct (d13 =? 48)|]|]]; cbn [mbind outcome_bind];
      try (exists 17; split; [done|lia]);
      destruct (zeros_loop_total zbuf z Hd Hl 12 ltac:(lia)) as (j & -> & Hj); cbn [mbind outcome_bind];
      destruct (leading_value_total zbuf z j Hd Hl ltac:(lia) ltac:(lia)) as (a & -> & Ha); cbn [mbind outcome_bind]; apply Hback; lia.
Qed.

Lemma carry_loop_total z n i_dp j : forall zbuf, digits_at zbuf z -> 1 <= z -> z + Z.of_nat j < 20 ->
  exists zb z' n' i', carry_loop j zbuf z n i_dp = Ok (zb, z', n', i') /\ digits_at zb z' /\
    (z' = z /\ n' = n \/ z' = z - 1 /\ n' = n + 1).
Proof.
  induction j as [|j IH]; intros zbuf Hd Hz Hj; cbn [carry_loop];
    match goal with |- context [idx zbuf ?k] =>
      destruct (digit_at zbuf z k Hd ltac:(lia)) as (b & -> & Hb); cbn [mbind outcome_bind]; destruct (Z.leb_spec (b + 1) 57);
      [destruct (put_digit zbuf z k (b + 1) Hd ltac:(lia) ltac:(lia) ltac:(lia)) as (zb & -> & Hd' & _);
       cbn [mbind outcome_bind]; rewrite Z.min_l in Hd' by lia; eexists _, _, _, _; split; [reflexivity|]; split; [exact Hd'|by left]|]
    end.
  - destruct (put_digit zbuf z (z + Z.of_nat 0) 48 Hd ltac:(lia) ltac:(lia) ltac:(lia)) as (zb & -> & Hd' & _). cbn [mbind outcome_bind].
    rewrite Z.min_l in Hd' by lia. unfold chk_sub. destruct (Z.ltb_spec z 1); [lia|]. cbn [mbind outcome_bind].
    destruct (put_digit zb z (z - 1) 49 Hd' ltac:(lia) ltac:(lia) ltac:(lia)) as (zb2 & -> & Hd2 & _). cbn [mbind outcome_bind].
    rewrite Z.min_r in Hd2 by lia. eexists _, _, _, _. split; [reflexivity|]. split; [exact Hd2|by right].
  - destruct (put_digit zbuf z (z + Z.of_nat (S j)) 48 Hd ltac:(lia) ltac:(lia) ltac:(lia)) as (zb & -> & Hd' & _). cbn [mbind outcome_bind].
    rewrite Z.min_l in Hd' by lia. by apply IH; [|lia|lia].
Qed.

Lemma strip_loop_total zbuf z : digits_at zbuf z -> forall n, z + Z.of_nat n <= 20 ->
  exists m, strip_loop n zbuf z = Ok m /\ 0 <= m <= Z.of_nat n.
Proof.
  intros Hd. induction n as [|n IH]; intros Hz; [by exists 0|]. cbn [strip_loop].
  destruct (digit_at zbuf z (z + Z.of_nat (S n) - 1) Hd ltac:(lia)) as (d & -> & _). cbn [mbind outcome_bind].
  destruct (d =? 48); [|by exists (Z.of_nat (S n)); split; [|lia]].
  destruct (IH ltac:(lia)) as (m & -> & Hm). exists m. split; [done|lia].
Qed.

(** ** Decoding and rendering *)

(** The digits of a decoded double. *)
Definition decoded (s : FpDecode) : Prop := zlen (fd_digits s) = fd_n s.

Lemma frac_exp_range r : 0 <= f64_frac r < 2 ^ 52 /\ 0 <= f64_exp r < 2048.
Proof. unfold f64_frac, f64_exp. split; apply Z.mod_pos_bound; lia. Qed.

(** The significand and exponent of a finite double other than 0. *)
Lemma normalized r : f64_exp r <> 2047 -> f64_exp r <> 0 \/ f64_frac r <> 0 ->
  let '(v, e) :=
    if f64_exp r =? 0
    then let nn := leading_zeros (f64_frac r) in (u64 (Z.shiftl (f64_frac r) nn), -1074 - nn)
    else (Z.lor (u64 (Z.shiftl (f64_frac r) 11)) (2 ^ 63), f64_exp r - 1086) in
  2 ^ 63 <= v < 2 ^ 64 /\ -1137 <= e <= 960.
Proof.
  intros Hinf Hnz. destruct (frac_exp_range r) as [Hf He]. set (f := f64_frac r) in *. set (e := f64_exp r) in *.
  destruct (Z.eqb_spec e 0) as [E0|].
  - destruct (leading_zeros_bits f ltac:(lia)) as [Hb Hx]. cbv zeta. rewrite Z.shiftl_mul_pow2 by lia. rewrite u64_small by lia. lia.
  - rewrite Z.shiftl_mul_pow2, u64_small by lia. rewrite Z.lor_comm.
    pose proof (lor_shiftl_add 1 (f * 2 ^ 11) 63 ltac:(lia) ltac:(lia)) as E. change (Z.shiftl 1 63) with (2 ^ 63) in E. rewrite E. lia.
Qed.

Lemma nonzero_parts r : is_u64 r -> f64_partial_cmp r 0 <> Some Eq -> f64_exp r <> 2047 -> f64_exp r <> 0 \/ f64_frac r <> 0.
Proof.
  intros Hr Hne He. destruct (decide (f64_exp r = 0)) as [E0|]; [|by left]. destruct (decide (f64_frac r = 0)) as [F0|]; [|by right].
  destruct Hne. unfold f64_partial_cmp. with_strategy transparent [f64_is_nan f64_key f64_mag] unfold f64_is_nan, f64_key, f64_mag.
  rewrite E0, F0. change (f64_exp 0) with 0. change (f64_frac 0) with 0. cbn. by destruct (f64_neg r).
Qed.

Lemma f64_opp_parts r : is_u64 r -> f64_neg r = true -> is_u64 (f64_opp r) /\ f64_exp (f64_opp r) = f64_exp r /\ f64_frac (f64_opp r) = f64_frac r.
Proof.
  unfold is_u64, f64_neg, f64_opp, f64_exp, f64_frac. intros Hr Hn%Z.leb_le.
  assert (Z.lxor r (2 ^ 63) = r - 2 ^ 63) as ->.
  { rewrite (Z.sub_nocarry_ldiff r (2 ^ 63)).
    - apply Z.bits_inj'. intros k Hk. rewrite Z.lxor_spec, Z.ldiff_spec, Z.pow2_bits_eqb by lia.
      destruct (Z.eqb_spec 63 k) as [<-|]; [|by rewrite xorb_false_r, andb_true_r].
      rewrite andb_false_r, xorb_true_r. assert (Z.testbit r 63 = true) as ->; [|done].
      rewrite Z.testbit_true by lia. rewrite <- (Z.div_unique r (2 ^ 63) 1 (r - 2 ^ 63)) by lia. done.
    - apply Z.bits_inj'. intros k Hk. rewrite Z.ldiff_spec, Z.bits_0, Z.pow2_bits_eqb by lia.
      destruct (Z.eqb_spec 63 k) as [<-|]; [|done]. rewrite andb_true_l. apply negb_false_iff.
      rewrite Z.testbit_true by lia. rewrite <- (Z.div_unique r (2 ^ 63) 1 (r - 2 ^ 63)) by lia. done. }
  set (x := r - 2 ^ 63). assert (r = x + 2048 * 2 ^ 52) as E by (unfold x; lia). clearbody x. subst r.
  split; [lia|]. rewrite Z.div_add, Z.mod_add by lia. split; [|done].
  replace (x / 2 ^ 52 + 2048) with (x / 2 ^ 52 + 1 * 2048) by lia. by rewrite Z.mod_add by lia.
Qed.

Lemma lt_zero_neg r : f64_lt r 0 = true -> f64_neg r = true.
Proof.
  destruct (f64_neg r) eqn:En; [done|]. unfold f64_lt, f64_partial_cmp. destruct (f64_is_nan r || f64_is_nan 0); [done|].
  assert (f64_key r = f64_mag r) as -> by (with_strategy transparent [f64_key] unfold f64_key; by rewrite En).
  assert (f64_key 0 = 0) as -> by (by vm_compute). pose proof (f64_mag_bounds r). by destruct (Z.compare_spec (f64_mag r) 0); [..|lia|].
Qed.

Lemma fp_decode_total r : is_u64 r -> exists s, fp_decode r 17 20 = Ok s /\ decoded s.
Proof.
  intros Hr. unfold fp_decode. change (negb (20 >? 0)) with false. cbv iota.
  destruct (bool_decide (f64_partial_cmp r 0 = Some Eq)) eqn:Ez; [by eexists|]. apply bool_decide_eq_false in Ez.
  assert (exists sign r', (if f64_lt r 0 then (45, f64_opp r) else (43, r)) = (sign, r') /\ is_u64 r' /\
    f64_exp r' = f64_exp r /\ f64_frac r' = f64_frac r) as (sign & r' & -> & Hr' & Hexp & Hfrac).
  { destruct (f64_lt r 0) eqn:Hlt; [|by exists 43, r]. exists 45, (f64_opp r). split; [done|]. apply f64_opp_parts; [done|].
    by apply lt_zero_neg. }
  cbv iota beta. rewrite Hexp. destruct (Z.eqb_spec (f64_exp r) 2047) as [|Hinf]; [by eexists|]. rewrite Hfrac.
  pose proof (normalized r Hinf (nonzero_parts r Hr Ez Hinf)) as Hn.
  destruct (if f64_exp r =? 0 then _ else _) as [v e]. destruct Hn as [Hv He].
  change ((17 <=? 0) || (17 >=? 18)) with false. cbv iota. change (17 + 1) with 18.
  destruct (fp2convert10_range v e He Hv) as (d & ex & -> & Hd). cbn [mbind outcome_bind].
  assert (exists c, ndig c d /\ (18 <= c <= 19)%nat) as (c & Hc & Hcr).
  { destruct (Z.ltb_spec d (10 ^ 18)); [exists 18%nat|exists 19%nat]; (split; [|lia]); cbn [ndig];
      [change (10 ^ Z.of_nat 17) with (10 ^ 17); change (10 ^ Z.of_nat 18) with (10 ^ 18)
      |change (10 ^ Z.of_nat 18) with (10 ^ 18); change (10 ^ Z.of_nat 19) with (10 ^ 19)]; lia. }
  destruct (digits_spec c d Hc ltac:(lia)) as (zbuf & Hz & Hdig & Hlead). apply bind_ok in Hz as ([[zb i0] v0] & -> & Hz).
  cbn [mbind outcome_bind]. rewrite Hz. cbn [mbind outcome_bind].
  change (17 <=? 0) with false. cbv iota. cbn [mbind outcome_bind]. set (z := 20 - Z.of_nat c) in *.
  destruct (Z.ltb_spec 17 (20 - z)); [|lia]. cbn [orb andb]. change (17 >? 0) with true. cbv iota. cbn [andb].
  change (Z.min 17 20) with 17. change (17 =? 17) with true. cbv iota.
  destruct (reduce_round_total r' zbuf z (20 - z + ex) (20 - z) ex Hdig Hlead ltac:(lia)) as (k & -> & Hk). cbn [mbind outcome_bind].
  destruct (digit_at zbuf z (z + k) Hdig ltac:(lia)) as (b & -> & _). cbn [mbind outcome_bind].
  assert (exists zb z' n i', (if b >=? 53 then carry_loop (Z.to_nat (k - 1)) zbuf z k (20 - z + ex) else Ok (zbuf, z, k, 20 - z + ex)) =
    Ok (zb, z', n, i') /\ digits_at zb z' /\ 0 <= z' /\ 0 <= n /\ z' + n <= 20) as (zb' & z' & n & i' & -> & Hd' & Hz' & Hn' & Hle).
  { destruct (b >=? 53).
    - destruct (carry_loop_total z k (20 - z + ex) (Z.to_nat (k - 1)) zbuf Hdig ltac:(lia) ltac:(lia)) as (zb' & z' & n & i' & -> & ? & ?).
      exists zb', z', n, i'. split_and!; (done || lia).
    - exists zbuf, z, k, (20 - z + ex). split_and!; (done || lia). }
  cbn [mbind outcome_bind]. destruct (strip_loop_total zb' z' Hd' (Z.to_nat n) ltac:(lia)) as (m & -> & Hm). cbn [mbind outcome_bind].
  destruct Hd' as [Hl _]. rewrite sub_range_in by lia. cbn [mbind outcome_bind]. eexists. split; [done|].
  unfold decoded. cbn. rewrite zlen_zslice by lia. lia.
Qed.

(** C33: every double has a text: no bit pattern, subnormal, infinite or NaN,
    makes [fp_to_text] panic by an index out of range, an oversized shift or an
    integer underflow. *)
Theorem fp_to_text_total r : is_u64 r -> exists t, fp_to_text r = Ok t.
Proof.
  intros Hr. destruct (fp_decode_total r Hr) as (s & Hs & Hd). unfold fp_to_text, render.
  change (17 <? 0) with false. cbv iota beta zeta. change (17 =? 0) with false. cbv iota. rewrite Hs. cbn [mbind outcome_bind].
  destruct (negb _); [by eexists|]. cbv iota. unfold decoded in Hd. pose proof (zlen_nonneg (fd_digits s)).
  destruct (if _ || _ then _ else _) as [[precision rtz] xexp].
  set (e2 := if xexp then 0 else fd_i_dp s - 1).
  match goal with |- context [if e2 <? 0 then Ok ?a else ?m] =>
    assert (exists ip j e2', (if e2 <? 0 then Ok a else m) = Ok (ip, j, e2') /\ 0 <= j <= fd_n s) as (ip & j & e2' & -> & Hj) end.
  { destruct (Z.ltb_spec e2 0); [by eexists _, 0, _; split; [reflexivity|lia]|].
    rewrite sub_range_in by lia. cbn [mbind outcome_bind]. eexists _, _, _. split; [reflexivity|lia]. }
  cbn [mbind outcome_bind]. destruct (if _ && _ then _ else _) as [zeros prec].
  match goal with |- context [if prec >? 0 then ?a else Ok ?b] =>
    assert (exists fr, (if prec >? 0 then a else Ok b) = Ok fr) as (fr & ->) end.
  { destruct (prec >? 0); [|by eexists]. destruct (Z.gtb_spec (Z.min (fd_n s - j) prec) 0); [|by eexists].
    rewrite sub_range_in by lia. by eexists. }
  by eexists.
Qed.
Lemma fp_to_text_total_witness : exists t, fp_to_text 0x3FB999999999999A = Ok t.
Proof. apply (fp_to_text_total 0x3FB999999999999A). unfold is_u64. lia. Defined.

(** ** The text of an integer *)

Lemma span_app p a b : forallb p a = true -> (match b with c :: _ => p c = false | [] => True end) -> span p (a ++ b) = (a, b).
Proof.
  intros Ha Hb. induction a as [|x a IH]; cbn in *.
  - destruct b as [|c b]; [done|]. cbn. by rewrite Hb.
  - apply andb_true_iff in Ha as [-> Ha]. by rewrite IH.
Qed.

Lemma digits_of_spec fuel : forall n, 0 <= n < 10 ^ Z.of_nat fuel ->
  forallb is_digit (digits_of fuel n) = true /\ digits_value (digits_of fuel n) = n /\ (fuel <> 0%nat -> digits_of fuel n <> []).
Proof.
  induction fuel as [|fuel IH]; intros n Hn; [cbn in Hn; split_and!; [done|cbn; lia|done]|]. cbn [digits_of].
  rewrite Nat2Z.inj_succ, Z.pow_succ_r in Hn by lia. destruct (Z.ltb_spec n 10).
  - split_and!; [|cbn; lia|done]. cbn. unfold is_digit. destruct (Z.leb_spec 48 (48 + n)), (Z.leb_spec (48 + n) 57); (done || lia).
  - pose proof (Z.mod_pos_bound n 10 ltac:(lia)). pose proof (Z.div_mod n 10 ltac:(lia)).
    destruct (IH (n / 10)) as (Hf & Hv & _); [split; [apply Z.div_pos; lia|apply Z.div_lt_upper_bound; lia]|]. split_and!.
    + rewrite forallb_app, Hf. cbn. unfold is_digit. destruct (Z.leb_spec 48 (48 + n mod 10)), (Z.leb_spec (48 + n mod 10) 57); (done || lia).
    + unfold digits_value in *. rewrite foldl_app, Hv. cbn. lia.
    + intros _. by destruct (digits_of fuel (n / 10)).
Qed.

Definition blank (w : bytes) : Prop := forallb is_ascii_whitespace w = true.

Lemma blank_head w : blank w -> match w with c :: _ => is_digit c = false /\ c <> 46 /\ c <> 101 /\ c <> 69 | [] => True end.
Proof.
  destruct w as [|c w]; [done|]. unfold blank. cbn. intros [Hc _]%andb_true_iff. unfold is_ascii_whitespace in Hc.
  rewrite !orb_true_iff, !Z.eqb_eq in Hc. unfold is_digit. destruct (Z.leb_spec 48 c), (Z.leb_spec c 57); split_and!; (done || lia).
Qed.

Lemma take_digits_sign neg ds : forallb is_digit ds = true -> forall rest, ds <> [] ->
  take_sign ((if (neg : bool) then [45] else []) ++ ds ++ rest) = (neg, ds ++ rest).
Proof.
  intros Hd rest Hne. destruct neg; [done|]. destruct ds as [|d ds]; [done|]. cbn in Hd |- *.
  apply andb_true_iff in Hd as [Hd _]. unfold is_digit in Hd. rewrite andb_true_iff, !Z.leb_le in Hd.
  destruct (Z.eqb_spec d 43); [lia|]. by destruct (Z.eqb_spec d 45); [lia|].
Qed.

Lemma numeric_prefix_digits neg ds w1 w2 : blank w1 -> blank w2 -> forallb is_digit ds = true -> ds <> [] ->
  let i := if (neg : bool) then - digits_value ds else digits_value ds in is_i64 i ->
  numeric_prefix (w1 ++ (if neg then [45] else []) ++ ds ++ w2) = (Some (Int i), true).
Proof.
  intros H1 H2 Hd Hne i Hi. unfold numeric_prefix. rewrite span_app; [|exact H1|].
  2:{ destruct neg; [done|]. destruct ds as [|d ds]; [done|]. cbn in Hd |- *. apply andb_true_iff in Hd as [Hd _].
      unfold is_digit in Hd. rewrite andb_true_iff, !Z.leb_le in Hd. unfold is_ascii_whitespace.
      by repeat match goal with |- context [d =? ?k] => destruct (Z.eqb_spec d k); [lia|] end. }
  rewrite (take_digits_sign neg ds Hd w2 Hne). pose proof (blank_head w2 H2) as Hh.
  rewrite span_app; [|exact Hd|by destruct w2 as [|c w2]; [|destruct Hh]].
  assert (zlen ds =? 0 = false) as Hz by (destruct ds; [done|]; rewrite zlen_cons; pose proof (zlen_nonneg ds); by apply Z.eqb_neq; lia).
  assert ((- 2 ^ 63 <=? i) && (i <? 2 ^ 63) = true) as Hr
    by (unfold is_i64 in Hi; rewrite andb_true_iff, Z.leb_le, Z.ltb_lt; lia).
  assert (forall r, (if negb false && negb false && (- 2 ^ 63 <=? i) && (i <? 2 ^ 63) then Int i else r) = Int i) as Hval
    by (intros r; cbn [negb andb]; by rewrite Hr).
  destruct w2 as [|c w2]; cbv iota beta zeta.
  - rewrite Hz. cbn [andb]. cbv iota. fold i. by rewrite Hval.
  - destruct Hh as (_ & H46 & H101 & H69). destruct (Z.eqb_spec c 46); [done|]. cbv iota beta. rewrite Hz. cbn [andb]. cbv iota.
    destruct (Z.eqb_spec c 101); [done|]. destruct (Z.eqb_spec c 69); [done|]. cbn [orb]. cbv iota beta zeta. fold i. by rewrite Hval, H2.
Qed.

(** C34: the decimal text of an integer, with white space around it, is
    recognised as that integer, the whole text being the number, for every
    64-bit integer, the least one included; so TEXT affinity followed by NUMERIC
    affinity gives an integer back, and reading its text as an integer does. *)
Theorem integer_text_roundtrip i w1 w2 : is_i64 i -> blank w1 -> blank w2 ->
  numeric_prefix (w1 ++ i64_to_string i ++ w2) = (Some (Int i), true) /\
  as_i64 (Text (w1 ++ i64_to_string i ++ w2)) = i /\
  exists v, apply_affinity (Int i) AffText = Ok v /\ apply_affinity v AffNumeric = Ok (Int i).
Proof.
  intros Hi H1 H2.
  assert (forall w1 w2, blank w1 -> blank w2 -> numeric_prefix (w1 ++ i64_to_string i ++ w2) = (Some (Int i), true)) as Hp.
  { clear w1 w2 H1 H2. intros w1 w2 H1 H2. unfold i64_to_string, is_i64 in *. destruct (Z.ltb_spec i 0).
    - destruct (digits_of_spec 20 (- i)) as (Hd & Hv & Hne); [change (10 ^ Z.of_nat 20) with (10 ^ 20); lia|].
      pose proof (numeric_prefix_digits true (digits_of 20 (- i)) w1 w2 H1 H2 Hd (Hne ltac:(done))) as Hn.
      cbv zeta in Hn. rewrite Hv, Z.opp_involutive in Hn. by apply Hn.
    - destruct (digits_of_spec 20 i) as (Hd & Hv & Hne); [change (10 ^ Z.of_nat 20) with (10 ^ 20); lia|].
      pose proof (numeric_prefix_digits false (digits_of 20 i) w1 w2 H1 H2 Hd (Hne ltac:(done))) as Hn.
      cbv zeta in Hn. rewrite Hv in Hn. by apply Hn. }
  split; [by apply Hp|]. split; [cbn [as_i64]; unfold prefix_i64; by rewrite Hp|].
  exists (Text (i64_to_string i)). split; [done|]. cbn. unfold numeric_value_of.
  pose proof (Hp [] [] eq_refl eq_refl) as E. rewrite app_nil_r in E. cbn [app] in E. by rewrite E.
Qed.
Lemma integer_text_roundtrip_witness :
  numeric_prefix ([32] ++ i64_to_string (- 2 ^ 63) ++ [10; 32]) = (Some (Int (- 2 ^ 63)), true) /\
  as_i64 (Text ([32] ++ i64_to_string (- 2 ^ 63) ++ [10; 32])) = - 2 ^ 63 /\
  exists v, apply_affinity (Int (- 2 ^ 63)) AffText = Ok v /\ apply_affinity v AffNumeric = Ok (Int (- 2 ^ 63)).
Proof. apply (integer_text_roundtrip (- 2 ^ 63) [32] [10; 32]); [unfold is_i64; lia|done|done]. Defined.
