(* ===== verification/Like.v ===== *)
(** * LIKE and GLOB

    [func/like.rs]: the matcher [compare] with its indices into the pattern and
    the string and its three outcomes, and the SQL functions over it. The
    specification is a relation on characters; where the code agrees with it is
    the theorem [pattern_compare_spec]. *)

From S2P Require Import Prelude Utf8 Str Float64 Value Fp.
#[local] Open Scope Z_scope.

(** ** The code *)

Record CompareInfo := mkCompareInfo { match_all : Z; match_one : Z; no_case : bool; match_set_flag : bool }.
(** ['%'], ['_']; ['*'], ['?']. *)
Definition LIKE_INFO : CompareInfo := mkCompareInfo 37 95 true false.
Definition GLOB_INFO : CompareInfo := mkCompareInfo 42 63 false true.

Definition to_lower (c : Z) : Z := if (65 <=? c) && (c <=? 90) then c + 32 else c.
Definition is_ascii (c : Z) : bool := c <? 0x80.

Inductive Outcome := Match | NoMatch | NoWildcardMatch.

(** The character at [i] and the index after it; 0 at the end. *)
Definition read (cs : list Z) (i : Z) : Z * Z :=
  match zget cs i with Some c => (c, i + 1) | None => (0, i) end.

(** [while c2 != 0 && c2 != ']'] of [match_set]. *)
Fixpoint set_loop (fuel : nat) (pattern : list Z) (pi c c2 prior_c : Z) (seen : bool) : outcome (Z * Z * bool) :=
  match fuel with
  | O => Panic
  | S f =>
      if (c2 =? 0) || (c2 =? 93) then Ok (c2, pi, seen)
      else
        let next := match zget pattern pi with Some x => x | None => 0 end in
        if (c2 =? 45) && negb (next =? 93) && negb (next =? 0) && negb (prior_c =? 0)
        then
          let '(c2, pi) := read pattern pi in
          let seen := if (prior_c <=? c) && (c <=? c2) then true else seen in
          let '(c2, pi) := read pattern pi in
          set_loop f pattern pi c c2 0 seen
        else
          let seen := if c =? c2 then true else seen in
          let prior_c := c2 in
          let '(c2, pi) := read pattern pi in
          set_loop f pattern pi c c2 prior_c seen
  end.

(** Whether the set matches, and the indices after it. *)
Definition match_set (pattern : list Z) (pi : Z) (string : list Z) (si : Z) : outcome (bool * Z * Z) :=
  let '(c, si) := read string si in
  if c =? 0 then Ok (false, pi, si)
  else
    let '(c2, pi) := read pattern pi in
    let '(invert, c2, pi) :=
      if c2 =? 94 then let '(c2, pi) := read pattern pi in (true, c2, pi) else (false, c2, pi) in
    let '(seen, c2, pi) :=
      if c2 =? 93 then let '(c3, pi) := read pattern pi in (c =? 93, c3, pi) else (false, c2, pi) in
    '(c2, pi, seen) ← set_loop (S (length pattern)) pattern pi c c2 0 seen;
    Ok (negb ((c2 =? 0) || negb (xorb seen invert)), pi, si).

(** The run of wildcards after a [match_all]; [None] when the string ends. *)
Fixpoint skip_run (fuel : nat) (pattern : list Z) (pi : Z) (string : list Z) (si : Z) (info : CompareInfo)
    : outcome (option (Z * Z * Z)) :=
  match fuel with
  | O => Panic
  | S f =>
      let '(c, pi) := read pattern pi in
      if (c =? match_all info) || ((c =? match_one info) && negb (match_one info =? 0))
      then
        if c =? match_one info
        then
          let '(d, si) := read string si in
          if d =? 0 then Ok None else skip_run f pattern pi string si info
        else skip_run f pattern pi string si info
      else Ok (Some (c, pi, si))
  end.

(** Equal, or equal up to ASCII case. *)
Definition same_char (info : CompareInfo) (c c2 : Z) : bool :=
  (c =? c2) || (no_case info && (to_lower c =? to_lower c2) && is_ascii c && is_ascii c2).

(** Try every suffix of the string in turn. *)
Fixpoint retry_loop (cmp : Z -> outcome Outcome) (string : list Z) (fuel : nat) (si : Z) : outcome Outcome :=
  match fuel with
  | O => Panic
  | S f =>
      m ← cmp si;
      match m with
      | NoMatch => let '(d, si) := read string si in if d =? 0 then Ok NoWildcardMatch else retry_loop cmp string f si
      | m => Ok m
      end
  end.

Fixpoint compare (fuel : nat) (pattern : list Z) (pi : Z) (string : list Z) (si : Z) (info : CompareInfo)
    (match_other : Z) : outcome Outcome :=
  match fuel with
  | O => Panic
  | S f =>
      let '(c, pi) := read pattern pi in
      if c =? 0 then Ok (if si >=? zlen string then Match else NoMatch)
      else if c =? match_all info
      then
        r ← skip_run (S (length pattern)) pattern pi string si info;
        match r with
        | None => Ok NoWildcardMatch
        | Some (c, pi, si) =>
            if c =? 0 then Ok Match
            else
              '(stop, pi) ← (if (c =? match_other) && negb (match_set_flag info)
                             then let '(c, pi) := read pattern pi in Ok (c =? 0, pi)
                             else Ok (false, pi));
              if (stop : bool) then Ok NoWildcardMatch
              else
                pi ← chk_sub pi 1;
                retry_loop (fun si => compare f pattern pi string si info match_other) string (S (length string)) si
        end
      else if c =? match_other
      then
        if negb (match_set_flag info)
        then
          let '(c2, pi) := read pattern pi in
          if c2 =? 0 then Ok NoMatch
          else
            let '(cc, si) := read string si in
            if same_char info c2 cc then compare f pattern pi string si info match_other else Ok NoMatch
        else
          '(matched, pi, si) ← match_set pattern pi string si;
          if (matched : bool) then compare f pattern pi string si info match_other else Ok NoMatch
      else
        let '(c2, si) := read string si in
        if same_char info c c2 then compare f pattern pi string si info match_other
        else if (c =? match_one info) && negb (c2 =? 0) then compare f pattern pi string si info match_other
        else Ok NoMatch
  end.

Definition pattern_compare (pattern string : list Z) (info : CompareInfo) (match_other : Z) : outcome bool :=
  o ← compare (S (length pattern)) pattern 0 string 0 info match_other;
  Ok (match o with Match => true | _ => false end).

Definition escape_error : Error := Error_msg "ESCAPE expression must be a single character".
Definition parse_escape (escape : option Value) : outcome (option Z) :=
  match escape with
  | None => Ok None
  | Some ev =>
      t ← to_text ev;
      s ← ok_or t escape_error;
      match chars s with [c] => Ok (Some c) | _ => Err escape_error end
  end.
Definition bool_val (b : bool) : Value := Int (if b then 1 else 0).
Definition text_chars (v : Value) : outcome (list Z) := t ← to_text v; Ok (chars (default [] t)).

Definition like (pattern text : Value) (escape : option Value) : outcome Value :=
  if is_null pattern || is_null text then Ok Null
  else if match escape with Some Null => true | _ => false end then Ok Null
  else
    e ← parse_escape escape;
    pat ← text_chars pattern;
    txt ← text_chars text;
    b ← pattern_compare pat txt LIKE_INFO (default 0 e);
    Ok (bool_val b).
Definition glob (pattern text : Value) : outcome Value :=
  if is_null pattern || is_null text then Ok Null
  else
    pat ← text_chars pattern;
    txt ← text_chars text;
    b ← pattern_compare pat txt GLOB_INFO 91;
    Ok (bool_val b).

(** ** The specification *)

Definition in_range (c : Z) (r : Z * Z) : bool := (fst r <=? c) && (c <=? snd r).

(** The members of a set up to the closing bracket, and what follows it. *)
Fixpoint set_items (prior : option Z) (p : list Z) : option (list (Z * Z) * list Z) :=
  match p with
  | [] => None
  | c :: r =>
      if c =? 93 then Some ([], r)
      else
        match r with
        | [] => None
        | d :: r' =>
            match prior with
            | Some a =>
                if (c =? 45) && negb (d =? 93)
                then '(l, q) ← set_items None r'; Some ((a, d) :: l, q)
                else '(l, q) ← set_items (Some c) r; Some ((c, c) :: l, q)
            | None => '(l, q) ← set_items (Some c) r; Some ((c, c) :: l, q)
            end
        end
  end.
(** The characters a set accepts, and the pattern after it; [None] when it is
    not closed. *)
Definition glob_set (p : list Z) : option ((Z -> bool) * list Z) :=
  let '(invert, p) := match p with c :: r => if c =? 94 then (true, r) else (false, p) | [] => (false, p) end in
  let '(first, p) := match p with c :: r => if c =? 93 then ([(93, 93)], r) else ([], p) | [] => ([], p) end in
  '(items, rest) ← set_items None p;
  Some (fun c => xorb (existsb (in_range c) (first ++ items)) invert, rest).

(** What it means for a string to match a pattern. *)
Inductive matches (info : CompareInfo) (mo : Z) : list Z -> list Z -> Prop :=
  | m_end : matches info mo [] []
  | m_all p s1 s2 : matches info mo p s2 -> matches info mo (match_all info :: p) (s1 ++ s2)
  | m_one p d s : matches info mo p s -> matches info mo (match_one info :: p) (d :: s)
  | m_escaped p c d s : match_set_flag info = false -> same_char info c d = true -> matches info mo p s ->
      matches info mo (mo :: c :: p) (d :: s)
  | m_set p f rest d s : match_set_flag info = true -> glob_set p = Some (f, rest) -> f d = true ->
      matches info mo rest s -> matches info mo (mo :: p) (d :: s)
  | m_char p c d s : c <> match_all info -> c <> match_one info -> c <> mo -> same_char info c d = true ->
      matches info mo p s -> matches info mo (c :: p) (d :: s).

(** No escape comes right after a run of wildcards with a [match_all] in it:
    there the code reads the escaped character as a wildcard again. *)
Fixpoint escapes_apart (info : CompareInfo) (mo : Z) (after : bool) (p : list Z) : bool :=
  match p with
  | [] => true
  | c :: p' =>
      if c =? match_all info then escapes_apart info mo true p'
      else if c =? match_one info then escapes_apart info mo after p'
      else if (c =? mo) && negb (match_set_flag info)
      then negb after && match p' with [] => true | _ :: p'' => escapes_apart info mo false p'' end
      else escapes_apart info mo false p'
  end.

(** ** Reading characters *)

Notation no_nul := (Forall (fun c : Z => c <> 0)).

Lemma read_spec cs i : 0 <= i <= zlen cs ->
  (zdrop i cs = [] /\ read cs i = (0, i)) \/
  (exists c r, zdrop i cs = c :: r /\ read cs i = (c, i + 1) /\ zdrop (i + 1) cs = r /\ i < zlen cs).
Proof.
  intros Hi. unfold read. destruct (zget cs i) as [c|] eqn:Hg.
  - right. exists c, (zdrop (i + 1) cs). pose proof (zget_Some _ _ _ Hg). split_and!; [|done|done|lia].
    rewrite (zdrop_zget_cons cs i) by lia. by rewrite Hg.
  - left. apply zget_None in Hg. split; [|done]. apply zdrop_all. lia.
Qed.
Lemma no_nul_zdrop i cs c r : no_nul cs -> zdrop i cs = c :: r -> c <> 0 /\ no_nul r.
Proof. intros HF E. assert (no_nul (zdrop i cs)) as H by (by apply Forall_drop). rewrite E in H. by inversion H. Qed.

(** ** Sets *)

Lemma set_loop_spec pattern c : no_nul pattern -> forall fuel pi c2 prior seen,
  0 <= pi <= zlen pattern -> zlen pattern - pi + (if c2 =? 0 then 0 else 1) < Z.of_nat fuel ->
  exists c2' pi' seen', set_loop fuel pattern pi c c2 prior seen = Ok (c2', pi', seen') /\ pi <= pi' <= zlen pattern /\
    match (if c2 =? 0 then None else set_items (if prior =? 0 then None else Some prior) (c2 :: zdrop pi pattern)) with
    | None => c2' = 0
    | Some (items, rest) => c2' = 93 /\ zdrop pi' pattern = rest /\ seen' = seen || existsb (in_range c) items
    end.
Proof.
  intros HN. induction fuel as [|fuel IH]; intros pi c2 prior seen Hpi Hf; [destruct (c2 =? 0); lia|]. cbn [set_loop].
  destruct (Z.eqb_spec c2 0) as [->|Hc2]; cbn [orb].
  { exists 0, pi, seen. split; [done|]. split; [lia|done]. }
  cbn [set_items]. destruct (Z.eqb_spec c2 93) as [->|H93].
  { exists 93, pi, seen. split; [done|]. split; [lia|]. split_and!; [done|done|]. cbn. by rewrite orb_false_r. }
  assert (zget pattern pi = head (zdrop pi pattern)) as Hnext.
  { destruct (zget pattern pi) eqn:Hg; [pose proof (zget_Some _ _ _ Hg); rewrite (zdrop_zget_cons pattern pi) by lia; by rewrite Hg|].
    apply zget_None in Hg. by rewrite zdrop_all by lia. }
  rewrite Hnext. clear Hnext. destruct (read_spec pattern pi Hpi) as [[Ed Er]|(d & r & Ed & Er & Er' & Hlt)].
  - rewrite Ed. cbn [head]. rewrite Z.eqb_refl. cbn [negb]. rewrite !andb_false_r. cbn [andb]. cbv zeta. rewrite Er.
    destruct (IH pi 0 c2 (if c =? c2 then true else seen) Hpi ltac:(cbn; lia)) as (c2' & pi' & sn & E & Hr & Hm).
    exists c2', pi', sn. split; [exact E|]. split; [lia|exact Hm].
  - rewrite Ed. cbn [head]. destruct (no_nul_zdrop _ _ _ _ HN Ed) as [Hd0 _]. destruct (Z.eqb_spec d 0); [done|]. cbn [negb]. rewrite andb_true_r.
    assert (forall sn, exists c2' pi' seen', set_loop fuel pattern (pi + 1) c d c2 sn = Ok (c2', pi', seen') /\ pi <= pi' <= zlen pattern /\
      match set_items (Some c2) (d :: r) with
      | None => c2' = 0
      | Some (items, rest) => c2' = 93 /\ zdrop pi' pattern = rest /\ seen' = sn || existsb (in_range c) items end) as Hone.
    { intros sn. destruct (IH (pi + 1) d c2 sn ltac:(lia) ltac:(destruct (d =? 0); lia)) as (c2' & pi' & s' & E & Hr & Hm).
      exists c2', pi', s'. split; [done|]. split; [lia|]. destruct (Z.eqb_spec d 0); [done|]. destruct (Z.eqb_spec c2 0); [done|].
      by rewrite Er' in Hm. }
    assert (forall sn : bool, sn = (if c =? c2 then true else seen) -> forall l, sn || existsb (in_range c) l = seen || existsb (in_range c) ((c2, c2) :: l)) as Hsn.
    { intros sn -> l. cbn [existsb]. unfold in_range at 2. cbn [fst snd].
      destruct (Z.eqb_spec c c2) as [->|]; [rewrite Z.leb_refl; by destruct seen|].
      by destruct (Z.leb_spec c2 c), (Z.leb_spec c c2); try lia. }
    destruct (Z.eqb_spec prior 0) as [->|Hprior].
    + rewrite andb_false_r. cbv zeta. rewrite Er. destruct (Hone (if c =? c2 then true else seen)) as (c2' & pi' & s' & E & Hr & Hm).
      exists c2', pi', s'. split; [exact E|]. split; [done|]. destruct (set_items (Some c2) (d :: r)) as [[l q]|]; cbn; [|done].
      destruct Hm as (-> & Hq & ->). split_and!; [done|done|]. by apply Hsn.
    + cbn [negb]. rewrite andb_true_r. destruct (Z.eqb_spec c2 45) as [->|H45]; cbn [andb].
      * destruct (Z.eqb_spec d 93) as [->|Hd93]; cbn [negb]; cbv iota zeta; rewrite Er.
        -- destruct (Hone (if c =? 45 then true else seen)) as (c2' & pi' & s' & E & Hr & Hm).
           exists c2', pi', s'. split; [exact E|]. split; [done|]. destruct (set_items (Some 45) (93 :: r)) as [[l q]|]; cbn; [|done].
           destruct Hm as (-> & Hq & ->). split_and!; [done|done|]. by apply Hsn.
        -- cbv iota beta.
           assert (0 <= pi + 1 <= zlen pattern) as Hpi1 by lia.
           destruct (read_spec pattern (pi + 1) Hpi1) as [[Ed2 Er2]|(d2 & r2 & Ed2 & Er2 & Er2' & Hlt2)].
           ++ rewrite Er2. assert (r = []) as -> by congruence.
              destruct (IH (pi + 1) 0 0 (if (prior <=? c) && (c <=? d) then true else seen) ltac:(lia) ltac:(cbn; lia)) as (c2' & pi' & s' & E & Hr & Hm).
              exists c2', pi', s'. split; [exact E|]. split; [lia|exact Hm].
           ++ rewrite Er2. destruct (no_nul_zdrop _ _ _ _ HN Ed2) as [Hd2 _].
              destruct (IH (pi + 1 + 1) d2 0 (if (prior <=? c) && (c <=? d) then true else seen) ltac:(lia) ltac:(destruct (d2 =? 0); lia)) as (c2' & pi' & s' & E & Hr & Hm).
              exists c2', pi', s'. split; [exact E|]. split; [lia|]. destruct (Z.eqb_spec d2 0); [done|].
              rewrite Er2' in Hm. assert (r = d2 :: r2) as -> by congruence. cbn [Z.eqb] in Hm.
              destruct (set_items None (d2 :: r2)) as [[l q]|]; cbn [mbind option_bind]; [|done].
              destruct Hm as (-> & Hq & ->). split_and!; [done|done|]. cbn [existsb]. unfold in_range at 2. cbn [fst snd].
              by destruct ((prior <=? c) && (c <=? d)), seen.
      * cbv zeta. rewrite Er. destruct (Hone (if c =? c2 then true else seen)) as (c2' & pi' & s' & E & Hr & Hm).
        exists c2', pi', s'. split; [exact E|]. split; [done|]. destruct (set_items (Some c2) (d :: r)) as [[l q]|]; cbn; [|done].
        destruct Hm as (-> & Hq & ->). split_and!; [done|done|]. by apply Hsn.
Qed.

Lemma zdrop_nil_len {A} (l : list A) i : 0 <= i <= zlen l -> zdrop i l = [] -> i = zlen l.
Proof. intros Hi E. assert (zlen (zdrop i l) = 0) as Hz by (by rewrite E). rewrite zlen_zdrop in Hz. lia. Qed.

(** The loop from the character at [pi] on. *)
Lemma set_run_spec pattern d (si : Z) invert pi seen : no_nul pattern ->
  0 <= pi <= zlen pattern -> 1 <= pi \/ zdrop pi pattern = [] -> exists b pi',
  (let '(c2, pi) := read pattern pi in
   '(c2, pi, seen) ← set_loop (S (length pattern)) pattern pi d c2 0 seen : outcome (Z * Z * bool);
   Ok (negb ((c2 =? 0) || negb (xorb seen invert)), pi, si) : outcome (bool * Z * Z)) = Ok (b, pi', si) /\ pi <= pi' <= zlen pattern /\
  match set_items None (zdrop pi pattern) with
  | None => b = false
  | Some (items, rest) => b = xorb (seen || existsb (in_range d) items) invert /\ zdrop pi' pattern = rest
  end.
Proof.
  intros HP Hpi Hge. destruct (read_spec pattern pi Hpi) as [[Ed ->]|(c & r & Ed & -> & Er & Hlt)].
  - destruct (set_loop_spec pattern d HP (S (length pattern)) pi 0 0 seen Hpi) as (c2' & pi' & sn & -> & Hr & Hm).
    { pose proof (zdrop_nil_len _ _ Hpi Ed). cbn. lia. }
    cbn in Hm |- *. subst c2'. cbn. exists false, pi'. rewrite Ed. split; [done|]. split; [lia|done].
  - destruct (no_nul_zdrop _ _ _ _ HP Ed) as [Hc _].
    destruct (set_loop_spec pattern d HP (S (length pattern)) (pi + 1) c 0 seen ltac:(lia)) as (c2' & pi' & sn & -> & Hr & Hm).
    { destruct Hge as [|Hge]; [|congruence]. destruct (c =? 0); unfold zlen in *; lia. }
    cbn [mbind outcome_bind]. rewrite Ed. destruct (Z.eqb_spec c 0); [done|]. rewrite Er in Hm. cbn [Z.eqb] in Hm.
    destruct (set_items None (c :: r)) as [[items rest]|].
    + destruct Hm as (-> & Hz & ->). eexists _, _. split; [reflexivity|]. split; [lia|]. split; [|done].
      change (93 =? 0) with false. cbn [orb]. by rewrite negb_involutive.
    + subst c2'. eexists _, _. split; [reflexivity|]. split; [lia|done].
Qed.

(** With the literal bracket a set may start with. *)
Definition set_body (p : list Z) : option (list (Z * Z) * list Z) :=
  let '(first, p) := match p with c :: r => if c =? 93 then ([(93, 93)], r) else ([], p) | [] => ([], p) end in
  '(items, rest) ← set_items None p; Some (first ++ items, rest).

Lemma set_body_spec pattern d (si : Z) invert pi : no_nul pattern -> 0 <= pi <= zlen pattern -> 1 <= pi \/ zdrop pi pattern = [] ->
  exists b pi',
  (let '(c2, pi) := read pattern pi in
   let '(seen, c2, pi) :=
     if c2 =? 93 then let '(c3, pi) := read pattern pi in (d =? 93, c3, pi) else (false, c2, pi) in
   '(c2, pi, seen) ← set_loop (S (length pattern)) pattern pi d c2 0 seen : outcome (Z * Z * bool);
   Ok (negb ((c2 =? 0) || negb (xorb seen invert)), pi, si) : outcome (bool * Z * Z)) = Ok (b, pi', si) /\ pi <= pi' <= zlen pattern /\
  match set_body (zdrop pi pattern) with
  | None => b = false
  | Some (items, rest) => b = xorb (existsb (in_range d) items) invert /\ zdrop pi' pattern = rest
  end.
Proof.
  intros HP Hpi Hge. destruct (read_spec pattern pi Hpi) as [[Ed Er]|(c & r & Ed & Er & Er' & Hlt)].
  - destruct (set_run_spec pattern d si invert pi false HP Hpi Hge) as (b & pi' & E & Hr & Hm). rewrite Er in E |- *.
    exists b, pi'. split; [exact E|]. split; [lia|]. rewrite Ed in *. exact Hm.
  - rewrite Er, Ed. cbn [set_body]. destruct (Z.eqb_spec c 93) as [->|Hc].
    + destruct (set_run_spec pattern d si invert (pi + 1) (d =? 93) HP ltac:(lia) ltac:(left; lia)) as (b & pi' & E & Hr & Hm).
      destruct (read pattern (pi + 1)) as [c3 pi3]. exists b, pi'. split; [exact E|]. split; [lia|]. rewrite Er' in Hm.
      unfold set_body. rewrite Z.eqb_refl. cbv iota.
      destruct (set_items None r) as [[items rest]|]; cbn [mbind option_bind]; [|done]. destruct Hm as [-> Hz]. split; [|done].
      f_equal. cbn [app existsb]. unfold in_range at 2. cbn [fst snd]. f_equal.
      destruct (Z.eqb_spec d 93), (Z.leb_spec 93 d), (Z.leb_spec d 93); (done || lia).
    + destruct (set_run_spec pattern d si invert pi false HP Hpi Hge) as (b & pi' & E & Hr & Hm). rewrite Er in E.
      exists b, pi'. split; [exact E|]. split; [lia|]. rewrite Ed in Hm. unfold set_body. destruct (Z.eqb_spec c 93); [done|].
      destruct (set_items None (c :: r)) as [[items rest]|]; cbn [mbind option_bind app] in *; done.
Qed.

Lemma glob_set_body p : glob_set p =
  let '(invert, p) := match p with c :: r => if c =? 94 then (true, r) else (false, p) | [] => (false, p) end in
  '(items, rest) ← set_body p; Some (fun c => xorb (existsb (in_range c) items) invert, rest).
Proof.
  unfold glob_set, set_body. destruct (match p with [] => _ | _ => _ end) as [inv q].
  destruct (match q with [] => _ | _ => _ end) as [fs q']. by destruct (set_items None q') as [[? ?]|].
Qed.

Lemma match_set_spec pattern string pi si d s : no_nul pattern -> no_nul string -> 1 <= pi <= zlen pattern ->
  0 <= si <= zlen string -> zdrop si string = d :: s ->
  exists b pi', match_set pattern pi string si = Ok (b, pi', si + 1) /\ pi <= pi' <= zlen pattern /\
    match glob_set (zdrop pi pattern) with
    | None => b = false
    | Some (f, rest) => b = f d /\ zdrop pi' pattern = rest
    end.
Proof.
  intros HP HS Hpi Hsi Es. unfold match_set. destruct (no_nul_zdrop _ _ _ _ HS Es) as [Hd _].
  destruct (read_spec string si Hsi) as [[E _]|(d' & s' & E & -> & _ & _)]; [congruence|].
  assert (d' = d) as -> by congruence. destruct (Z.eqb_spec d 0); [done|]. rewrite glob_set_body.
  destruct (read_spec pattern pi ltac:(lia)) as [[Ed Er]|(c & r & Ed & Er & Er' & Hlt)].
  - destruct (set_body_spec pattern d (si + 1) false pi HP ltac:(lia) ltac:(by left; lia)) as (b & pi' & E' & Hr & Hm).
    rewrite Er in E' |- *. exists b, pi'. split; [exact E'|]. split; [lia|]. rewrite Ed in *.
    destruct (set_body []) as [[items rest]|]; done.
  - rewrite Er, Ed. destruct (Z.eqb_spec c 94) as [->|Hc].
    + destruct (set_body_spec pattern d (si + 1) true (pi + 1) HP ltac:(lia) ltac:(by left; lia)) as (b & pi' & E' & Hr & Hm).
      destruct (read pattern (pi + 1)) as [c2 pi2]. exists b, pi'. split; [exact E'|]. split; [lia|]. rewrite Er' in Hm.
      destruct (set_body r) as [[items rest]|]; done.
    + destruct (set_body_spec pattern d (si + 1) false pi HP ltac:(lia) ltac:(by left; lia)) as (b & pi' & E' & Hr & Hm).
      rewrite Er in E'. exists b, pi'. split; [exact E'|]. split; [lia|]. rewrite Ed in Hm.
      destruct (set_body (c :: r)) as [[items rest]|]; done.
Qed.

(** ** The matcher *)

(** [t] is a suffix of [s]. *)
Definition suffix_of (t s : list Z) : Prop := exists u, s = u ++ t.

Section Matcher.
Context (info : CompareInfo) (mo : Z).
Context (H1 : match_one info <> match_all info) (H2 : mo <> match_all info) (H3 : mo <> match_one info)
  (H4 : match_all info <> 0) (H5 : match_one info <> 0).
Notation matches := (matches info mo).

Lemma matches_nil s : matches [] s <-> s = [].
Proof. split; [by inversion 1|intros ->; constructor]. Qed.
Lemma matches_all p s : matches (match_all info :: p) s <-> exists t, suffix_of t s /\ matches p t.
Proof.
  split.
  - inversion 1 as [|? s1 s2 Hm| | | |]; subst; try congruence. exists s2. split; [by exists s1|done].
  - intros (t & [u ->] & Hm). by constructor.
Qed.
Lemma matches_one p s : matches (match_one info :: p) s <-> exists d t, s = d :: t /\ matches p t.
Proof.
  split.
  - inversion 1; subst; try congruence. by eexists _, _.
  - intros (d & t & -> & Hm). by constructor.
Qed.
Lemma matches_char c p s : c <> match_all info -> c <> match_one info -> c <> mo ->
  matches (c :: p) s <-> exists d t, s = d :: t /\ same_char info c d = true /\ matches p t.
Proof.
  intros Ha Ho He. split.
  - inversion 1; subst; try congruence. by eexists _, _.
  - intros (d & t & -> & Hs & Hm). by constructor.
Qed.
Lemma matches_escaped p s : match_set_flag info = false -> matches (mo :: p) s <->
  exists c q d t, p = c :: q /\ s = d :: t /\ same_char info c d = true /\ matches q t.
Proof.
  intros Hf. split.
  - inversion 1; subst; try congruence. by eexists _, _, _, _.
  - intros (c & q & d & t & -> & -> & Hs & Hm). by constructor.
Qed.
Lemma matches_set p s : match_set_flag info = true -> matches (mo :: p) s <->
  exists f rest d t, glob_set p = Some (f, rest) /\ s = d :: t /\ f d = true /\ matches rest t.
Proof.
  intros Hf. split.
  - inversion 1; subst; try congruence. by eexists _, _, _, _.
  - intros (f & rest & d & t & Hg & -> & Hs & Hm). by eapply m_set.
Qed.

Lemma suffix_of_refl s : suffix_of s s.
Proof. by exists []. Qed.
Lemma suffix_of_cons d t s : suffix_of t s -> suffix_of t (d :: s).
Proof. intros [u ->]. by exists (d :: u). Qed.
Lemma suffix_of_inv t d s : suffix_of t (d :: s) -> t = d :: s \/ suffix_of t s.
Proof. intros [[|x u] E]; [by left|]. injection E as -> ->. right. by exists u. Qed.
Lemma suffix_of_nil t : suffix_of t [] -> t = [].
Proof. intros [u E]. symmetry in E. by apply app_nil in E as [_ ->]. Qed.
Lemma suffix_of_drop k t s : suffix_of t s -> suffix_of (drop k t) (drop k s).
Proof.
  intros [u ->]. destruct (Nat.le_gt_cases k (length u)).
  - rewrite drop_app_le by lia. exists (drop k u ++ take k t). by rewrite <- app_assoc, take_drop.
  - rewrite drop_app_ge by lia. exists (take (length u) (drop (k - length u) t)).
    replace k with ((k - length u) + length u)%nat at 3 by lia. rewrite <- drop_drop. by rewrite take_drop.
Qed.

(** The wildcards after a [match_all] only ask for [k] more characters. *)
Lemma matches_all_all p s : matches (match_all info :: match_all info :: p) s <-> matches (match_all info :: p) s.
Proof.
  rewrite (matches_all (_ :: p)). split.
  - intros (t & [u ->] & (v & [w ->] & Hm)%matches_all). apply matches_all. exists v. split; [|done]. exists (u ++ w). by rewrite <- app_assoc.
  - intros Hm. exists s. split; [apply suffix_of_refl|done].
Qed.
Lemma matches_all_one p s : matches (match_all info :: match_one info :: p) s <->
  exists d t, s = d :: t /\ matches (match_all info :: p) t.
Proof.
  rewrite matches_all. split.
  - intros (t & [u ->] & (d & v & -> & Hm)%matches_one). destruct u as [|x u]; cbn.
    + exists d, v. split; [done|]. apply matches_all. exists v. split; [apply suffix_of_refl|done].
    + exists x, (u ++ d :: v). split; [done|]. apply matches_all. exists v. split; [|done]. exists (u ++ [d]). by rewrite <- app_assoc.
  - intros (d & t & -> & (v & [u ->] & Hm)%matches_all). destruct (exists_last (l := d :: u)) as (u' & x & E); [done|].
    exists (x :: v). split; [|by constructor]. exists u'. change (d :: u ++ v) with ((d :: u) ++ v). rewrite E. by rewrite <- app_assoc.
Qed.

(** The run of wildcards after a [match_all] only asks for [k] more characters. *)
Lemma skip_run_spec pattern string : no_nul pattern -> no_nul string -> forall fuel pi si,
  0 <= pi <= zlen pattern -> 0 <= si <= zlen string -> zlen pattern - pi < Z.of_nat fuel ->
  exists r (k : nat), skip_run fuel pattern pi string si info = Ok r /\
  match r with
  | None => (length (zdrop si string) < k)%nat /\ forall s, matches (match_all info :: zdrop pi pattern) s -> (k <= length s)%nat
  | Some (c, pi', si') =>
      si' = si + Z.of_nat k /\ si' <= zlen string /\
      (forall s, matches (match_all info :: zdrop pi pattern) s <->
                 (k <= length s)%nat /\ matches (match_all info :: if c =? 0 then [] else zdrop (pi' - 1) pattern) (drop k s)) /\
      (c = 0 \/ c <> 0 /\ c <> match_all info /\ c <> match_one info /\ pi < pi' <= zlen pattern /\
       exists q, zdrop (pi' - 1) pattern = c :: q) /\
      (escapes_apart info mo true (zdrop pi pattern) = true -> c <> 0 -> escapes_apart info mo true (zdrop (pi' - 1) pattern) = true)
  end.
Proof.
  intros HP HS. induction fuel as [|fuel IH]; intros pi si Hpi Hsi Hf; [lia|]. cbn [skip_run].
  destruct (read_spec pattern pi Hpi) as [[Ed ->]|(c & q & Ed & -> & Eq & Hlt)].
  - destruct (Z.eqb_spec 0 (match_all info)); [congruence|]. destruct (Z.eqb_spec 0 (match_one info)); [congruence|]. cbn [orb andb].
    exists (Some (0, pi, si)), 0%nat. split; [done|]. rewrite Ed. split; [lia|]. split; [lia|]. split; [|split; [by left|done]].
    intros s. change (drop 0 s) with s. change (0 =? 0) with true. cbv iota. split; [intros ?; split; [lia|done]|by intros [_ ?]].
  - destruct (no_nul_zdrop _ _ _ _ HP Ed) as [Hc _]. destruct (Z.eqb_spec c (match_all info)) as [->|Ha]; cbn [orb].
    { destruct (Z.eqb_spec (match_all info) (match_one info)); [congruence|].
      destruct (IH (pi + 1) si ltac:(lia) Hsi ltac:(lia)) as (r & k & E & Hr). exists r, k. split; [done|].
      rewrite Ed. rewrite Eq in Hr. destruct r as [[[c' pi'] si']|].
      - destruct Hr as (? & ? & Hm & Hn & Hcl). split; [done|]. split; [done|]. split; [intros s; by rewrite matches_all_all|].
        split; [destruct Hn as [?|(? & ? & ? & ? & ?)]; [by left|right; split_and!; (done || lia)]|].
        cbn [escapes_apart]. by rewrite Z.eqb_refl.
      - destruct Hr as [? Hm]. split; [done|]. intros s Hs. rewrite matches_all_all in Hs. by apply Hm. }
    destruct (Z.eqb_spec c (match_one info)) as [->|Ho]; cbn [andb].
    { destruct (Z.eqb_spec (match_one info) 0); [done|]. cbn [negb]. cbv iota.
      destruct (read_spec string si Hsi) as [[Es ->]|(d & t & Es & -> & Et & Hslt)].
      - exists None, 1%nat. split; [done|]. rewrite Es, Ed. split; [cbn; lia|]. intros s (d & t & -> & _)%matches_all_one. cbn. lia.
      - destruct (no_nul_zdrop _ _ _ _ HS Es) as [Hd _]. destruct (Z.eqb_spec d 0); [done|].
        destruct (IH (pi + 1) (si + 1) ltac:(lia) ltac:(lia) ltac:(lia)) as (r & k & E & Hr). exists r, (S k). split; [done|].
        rewrite Ed, Es. rewrite Eq, Et in Hr. destruct r as [[[c' pi'] si']|].
        + destruct Hr as (? & ? & Hm & Hn & Hcl). split; [lia|]. split; [done|]. split.
          { intros s. rewrite matches_all_one. split.
            - intros (d' & t' & -> & Ht). apply Hm in Ht as [? ?]. cbn. split; [lia|done].
            - intros [Hk Ht]. destruct s as [|d' t']; [cbn in Hk; lia|]. exists d', t'. split; [done|]. apply Hm. cbn in *. split; [lia|done]. }
          split; [destruct Hn as [?|(? & ? & ? & ? & ?)]; [by left|right; split_and!; (done || lia)]|].
          cbn [escapes_apart]. destruct (Z.eqb_spec (match_one info) (match_all info)); [done|]. by rewrite Z.eqb_refl.
        + destruct Hr as [? Hm]. split; [cbn; lia|]. intros s (d' & t' & -> & Ht)%matches_all_one. apply Hm in Ht. cbn. lia. }
    exists (Some (c, pi + 1, si)), 0%nat. split; [done|]. replace (pi + 1 - 1) with pi by lia. rewrite Ed. split; [lia|]. split; [lia|].
    destruct (Z.eqb_spec c 0); [done|]. split; [|split; [right; split_and!; (done || lia || by exists q)|done]].
    intros s. change (drop 0 s) with s. split; [intros ?; split; [lia|done]|by intros [_ ?]].
Qed.

(** What an outcome says: [NoWildcardMatch] also that no suffix matches. *)
Definition good (p s : list Z) (o : Outcome) : Prop :=
  match o with
  | Match => matches p s
  | NoMatch => ~ matches p s
  | NoWildcardMatch => forall t, suffix_of t s -> ~ matches p t
  end.

Lemma good_step p q d s o : (forall t, matches q t -> exists e u, t = e :: u /\ matches p u) ->
  (matches p s -> matches q (d :: s)) -> good p s o -> good q (d :: s) o.
Proof.
  intros Hinv Hin. destruct o; cbn; [done| |].
  - intros Hn (e & u & [= <- <-] & Hm)%Hinv. by apply Hn.
  - intros Hn t Ht (e & u & -> & Hm)%Hinv. apply (Hn u); [|done]. apply suffix_of_inv in Ht as [[= <- <-]|Ht]; [apply suffix_of_refl|].
    destruct Ht as [v ->]. exists (v ++ [e]). by rewrite <- app_assoc.
Qed.
Lemma good_none q s : (forall t, matches q t -> t <> s) -> good q s NoMatch.
Proof. intros Hn Hm. by apply (Hn s). Qed.

Lemma retry_loop_spec cmp string p : no_nul string ->
  (forall si, 0 <= si <= zlen string -> exists o, cmp si = Ok o /\ good p (zdrop si string) o) ->
  forall fuel si, 0 <= si <= zlen string -> zlen string - si < Z.of_nat fuel ->
  exists o, retry_loop cmp string fuel si = Ok o /\
    match o with
    | Match => exists t, suffix_of t (zdrop si string) /\ matches p t
    | NoMatch => False
    | NoWildcardMatch => forall t, suffix_of t (zdrop si string) -> ~ matches p t
    end.
Proof.
  intros HS Hcmp. induction fuel as [|fuel IH]; intros si Hsi Hf; [lia|]. cbn [retry_loop].
  destruct (Hcmp si Hsi) as (o & -> & Ho). cbn [mbind outcome_bind]. destruct o.
  - exists Match. split; [done|]. exists (zdrop si string). split; [apply suffix_of_refl|exact Ho].
  - destruct (read_spec string si Hsi) as [[Es ->]|(d & t & Es & -> & Et & Hlt)].
    + exists NoWildcardMatch. split; [done|]. rewrite Es in *. by intros t ->%suffix_of_nil.
    + destruct (no_nul_zdrop _ _ _ _ HS Es) as [Hd _]. destruct (Z.eqb_spec d 0); [done|].
      destruct (IH (si + 1) ltac:(lia) ltac:(lia)) as (o & -> & Hr). exists o. split; [done|]. rewrite Es in *. rewrite Et in Hr.
      destruct o; [|done|].
      * destruct Hr as (u & Hu & Hm). exists u. split; [by apply suffix_of_cons|done].
      * intros u [->|Hu]%suffix_of_inv; [exact Ho|by apply Hr].
  - exists NoWildcardMatch. by split.
Qed.

Lemma apart_weaken p : escapes_apart info mo true p = true -> escapes_apart info mo false p = true.
Proof.
  induction p as [|c p IH]; [done|]. cbn [escapes_apart]. destruct (c =? match_all info); [done|].
  destruct (c =? match_one info); [done|]. by destruct (_ && _).
Qed.
Lemma apart_set p : match_set_flag info = true -> forall after, escapes_apart info mo after p = true.
Proof.
  intros Hf. induction p as [|c p IH]; intros after; [done|]. cbn [escapes_apart]. rewrite Hf. cbn [negb]. rewrite andb_false_r.
  by repeat case_match.
Qed.
Lemma same_char_nul c : c <> 0 -> same_char info c 0 = false.
Proof.
  intros Hc. unfold same_char. destruct (Z.eqb_spec c 0); [done|]. cbn [orb]. change (to_lower 0) with 0.
  assert (to_lower c =? 0 = false) as ->; [|by rewrite andb_false_r].
  apply Z.eqb_neq. unfold to_lower. destruct (Z.leb_spec 65 c), (Z.leb_spec c 90); cbn [andb]; lia.
Qed.

Lemma all_good pattern q s k p' o : (forall t, matches (match_all info :: q) t <-> (k <= length t)%nat /\ matches (match_all info :: p') (drop k t)) ->
  (k <= length s)%nat ->
  match o with
  | Match => exists t, suffix_of t (drop k s) /\ matches p' t
  | NoMatch => False
  | NoWildcardMatch => forall t, suffix_of t (drop k s) -> ~ matches p' t
  end -> good (match_all info :: q) s (match o with NoMatch => pattern | o => o end).
Proof.
  intros Hm Hk. destruct o; cbn; [|done|].
  - intros Ht. apply Hm. split; [done|]. by apply matches_all.
  - intros Hn t Ht Hmt. apply Hm in Hmt as [? (u & Hu & Hmu)%matches_all]. apply (Hn u); [|done].
    destruct Hu as [v Ev]. destruct (suffix_of_drop k t s Ht) as [w Ew]. exists (w ++ v). by rewrite Ew, Ev, app_assoc.
Qed.

Lemma compare_spec pattern string : no_nul pattern -> no_nul string -> forall fuel pi si,
  0 <= pi <= zlen pattern -> 0 <= si <= zlen string -> zlen pattern - pi < Z.of_nat fuel ->
  escapes_apart info mo false (zdrop pi pattern) = true ->
  exists o, compare fuel pattern pi string si info mo = Ok o /\ good (zdrop pi pattern) (zdrop si string) o.
Proof.
  intros HP HS. induction fuel as [|fuel IH]; intros pi si Hpi Hsi Hf Hap; [lia|]. cbn [compare].
  destruct (read_spec pattern pi Hpi) as [[Ed ->]|(c & q & Ed & -> & Eq & Hlt)].
  { change (0 =? 0) with true. cbv iota. eexists. split; [reflexivity|]. rewrite Ed.
    destruct (Z.geb_spec si (zlen string)); cbn; rewrite matches_nil; [by apply zdrop_all|].
    intros E. apply zdrop_nil_len in E; lia. }
  destruct (no_nul_zdrop _ _ _ _ HP Ed) as [Hc _]. destruct (Z.eqb_spec c 0); [done|]. rewrite Ed in Hap |- *. rewrite <- Eq in Hap.
  destruct (Z.eqb_spec c (match_all info)) as [->|Ha].
  { (* a wildcard run *)
    destruct (skip_run_spec pattern string HP HS (S (length pattern)) (pi + 1) si ltac:(lia) Hsi ltac:(unfold zlen in *; lia))
      as (r & k & -> & Hr). cbn [mbind outcome_bind]. rewrite Eq in Hr. destruct r as [[[c pi'] si']|].
    2:{ destruct Hr as [Hk Hr]. exists NoWildcardMatch. split; [done|]. intros t [u Hu] Hm%Hr. rewrite Hu, length_app in Hk. lia. }
    destruct Hr as (-> & Hsi' & Hm & Hn & Hcl).
    assert ((k <= length (zdrop si string))%nat) as Hk
      by (pose proof (zlen_zdrop si string); unfold zlen in *; lia).
    destruct (Z.eqb_spec c 0) as [->|Hc0].
    { exists Match. split; [done|]. cbn. apply Hm. split; [done|]. apply matches_all. exists []. split; [|constructor].
      exists (drop k (zdrop si string)). by rewrite app_nil_r. }
    destruct Hn as [|(_ & Hca & Hco & Hpi' & q' & Eq')]; [done|].
    assert (escapes_apart info mo true (zdrop (pi' - 1) pattern) = true) as Hap'.
    { apply Hcl; [|done]. cbn [escapes_apart] in Hap. rewrite Z.eqb_refl in Hap. by rewrite <- Eq. }
    assert ((c =? mo) && negb (match_set_flag info) = false) as ->.
    { rewrite Eq' in Hap'. cbn [escapes_apart] in Hap'. destruct (Z.eqb_spec c (match_all info)); [done|].
      destruct (Z.eqb_spec c (match_one info)); [done|]. by destruct (_ && _). }
    cbn [mbind outcome_bind]. cbv iota. unfold chk_sub. destruct (Z.ltb_spec pi' 1); [lia|]. cbn [mbind outcome_bind].
    destruct (retry_loop_spec (fun si => compare fuel pattern (pi' - 1) string si info mo) string (zdrop (pi' - 1) pattern) HS)
      with (fuel := S (length string)) (si := si + Z.of_nat k) as (o & -> & Ho); [|lia|unfold zlen in *; lia|].
    { intros si0 Hsi0. apply IH; [lia|lia|lia|by apply apart_weaken]. }
    exists o. split; [done|]. pose proof (all_good Match q (zdrop si string) k (zdrop (pi' - 1) pattern) o) as Hg.
    assert (drop k (zdrop si string) = zdrop (si + Z.of_nat k) string) as Edrop.
    { unfold zdrop. rewrite drop_drop. f_equal. lia. }
    destruct o; [|done|]; apply Hg; try done; by rewrite Edrop. }
  assert (forall after, c <> match_one info -> c <> mo -> escapes_apart info mo after (c :: q) = escapes_apart info mo false q) as Hord.
  { intros after Ho Hmo. cbn [escapes_apart]. destruct (Z.eqb_spec c (match_all info)); [done|]. destruct (Z.eqb_spec c (match_one info)); [done|].
    by destruct (Z.eqb_spec c mo). }
  destruct (Z.eqb_spec c mo) as [->|Hmo].
  - destruct (match_set_flag info) eqn:Hflag; cbn [negb].
    + (* a set *)
      destruct (read_spec string si Hsi) as [[Es Er]|(d & s & Es & Er & Es' & Hslt)].
      { unfold match_set. rewrite Er. exists NoMatch. split; [done|]. rewrite Es. apply good_none.
        by intros t (f & rest & d & u & _ & -> & _)%matches_set. }
      destruct (match_set_spec pattern string (pi + 1) si d s HP HS ltac:(lia) Hsi Es) as (b & pi' & -> & Hpi' & Hb).
      cbn [mbind outcome_bind]. rewrite Eq in Hb. rewrite Es. destruct b.
      * destruct (glob_set q) as [[f rest]|] eqn:Hset; [|done]. destruct Hb as [Hb Hrest].
        destruct (IH pi' (si + 1)) as (o & -> & Ho); [lia..|by apply apart_set|]. exists o. split; [done|]. rewrite Hrest, Es' in Ho.
        eapply good_step; [| |exact Ho].
        -- intros t (f' & rest' & e & u & E & -> & _ & Hmu)%matches_set; [|done]. exists e, u. rewrite Hset in E. by injection E as <- <-.
        -- intros Hms. apply matches_set; [done|]. by exists f, rest, d, s.
      * exists NoMatch. split; [done|]. intros (f & rest & e & u & E & [= <- <-] & Hf' & _)%matches_set; [|done].
        rewrite E in Hb. by destruct Hb; congruence.
    + (* an escaped character *)
      destruct (read_spec pattern (pi + 1) ltac:(lia)) as [[Eq2 Er]|(c2 & q2 & Eq2 & Er & Eq2' & Hlt2)]; rewrite Er.
      { change (0 =? 0) with true. cbv iota. exists NoMatch. split; [done|]. intros (? & ? & ? & ? & E & _)%matches_escaped; [|done]. congruence. }
      destruct (no_nul_zdrop _ _ _ _ HP Eq2) as [Hc2 _]. destruct (Z.eqb_spec c2 0); [done|]. assert (q = c2 :: q2) as -> by congruence.
      destruct (read_spec string si Hsi) as [[Es Ers]|(d & s & Es & Ers & Es' & Hslt)]; rewrite Ers.
      { rewrite same_char_nul by done. exists NoMatch. split; [done|]. rewrite Es. intros (? & ? & ? & ? & _ & E & _)%matches_escaped; done. }
      rewrite Es. destruct (same_char info c2 d) eqn:Hsame.
      * destruct (IH (pi + 1 + 1) (si + 1)) as (o & -> & Ho); [lia..| |].
        { rewrite Eq2'. rewrite Eq2 in Hap. cbn [escapes_apart] in Hap. destruct (Z.eqb_spec mo (match_all info)); [done|].
          destruct (Z.eqb_spec mo (match_one info)); [done|]. rewrite Z.eqb_refl, Hflag in Hap. exact Hap. }
        exists o. split; [done|]. rewrite Eq2', Es' in Ho. eapply good_step; [| |exact Ho].
        -- intros t (c3 & q3 & e & u & [= <- <-] & -> & _ & Hmu)%matches_escaped; [|done]. by exists e, u.
        -- intros Hms. apply matches_escaped; [done|]. by exists c2, q2, d, s.
      * exists NoMatch. split; [done|]. intros (c3 & q3 & e & u & [= <- <-] & [= <- <-] & Hs & _)%matches_escaped; [|done]. congruence.
  - (* any other character *)
    destruct (read_spec string si Hsi) as [[Es Ers]|(d & s & Es & Ers & Es' & Hslt)]; rewrite Ers.
    { rewrite same_char_nul by done. change (negb (0 =? 0)) with false. rewrite andb_false_r. exists NoMatch. split; [done|]. rewrite Es.
      destruct (decide (c = match_one info)) as [->|Ho]; [by intros (? & ? & ? & _)%matches_one|].
      intros (? & ? & ? & _)%matches_char; done. }
    destruct (no_nul_zdrop _ _ _ _ HS Es) as [Hd _]. rewrite Es.
    assert (same_char info c d || (c =? match_one info) = true -> exists o, compare fuel pattern (pi + 1) string (si + 1) info mo = Ok o /\
      good (c :: q) (d :: s) o) as Hgo.
    { intros Hok. destruct (IH (pi + 1) (si + 1)) as (o & -> & Ho); [lia..| |].
      - rewrite Eq in *. destruct (decide (c = match_one info)) as [->|Ho]; [|by rewrite Hord in Hap].
        cbn [escapes_apart] in Hap. destruct (Z.eqb_spec (match_one info) (match_all info)); [done|]. by rewrite Z.eqb_refl in Hap.
      - exists o. split; [done|]. rewrite Eq, Es' in Ho. destruct (decide (c = match_one info)) as [->|Hone].
        + eapply good_step; [| |exact Ho]; [by intros t (e & u & -> & ?)%matches_one; exists e, u|by constructor].
        + destruct (Z.eqb_spec c (match_one info)); [done|]. rewrite orb_false_r in Hok.
          eapply good_step; [| |exact Ho]; [intros t (e & u & -> & _ & ?)%matches_char; try done; by exists e, u|].
          intros Hms. by constructor. }
    destruct (same_char info c d) eqn:Hsame; [by apply Hgo|].
    destruct (Z.eqb_spec c (match_one info)) as [->|Hone]; cbn [andb].
    { destruct (Z.eqb_spec d 0); [done|]. by apply Hgo. }
    exists NoMatch. split; [done|]. intros (e & u & [= <- <-] & Hs & _)%matches_char; [congruence|done..].
Qed.
End Matcher.

(** ** LIKE and GLOB on texts *)

Lemma pattern_compare_spec info mo pattern string : match_one info <> match_all info -> mo <> match_all info ->
  mo <> match_one info -> match_all info <> 0 -> match_one info <> 0 -> no_nul pattern -> no_nul string ->
  escapes_apart info mo false pattern = true ->
  exists b, pattern_compare pattern string info mo = Ok b /\ (b = true <-> matches info mo pattern string).
Proof.
  intros H1 H2 H3 H4 H5 HP HS Hap. unfold pattern_compare.
  destruct (compare_spec info mo H1 H2 H3 H4 H5 pattern string HP HS (S (length pattern)) 0 0) as (o & -> & Ho);
    [pose proof (zlen_nonneg pattern); lia|pose proof (zlen_nonneg string); lia|unfold zlen; lia|done|].
  cbn [mbind outcome_bind]. change (zdrop 0 pattern) with pattern in Ho. change (zdrop 0 string) with string in Ho.
  eexists. split; [reflexivity|]. destruct o; cbn in Ho; [done|done|].
  split; [done|]. intros Hm. by destruct (Ho string (suffix_of_refl string)).
Qed.

(** C32: on a pattern and a text without NUL characters, GLOB and LIKE decide the
    matching relation of their patterns: the matcher returns, its early exits and
    its search for the end of a wildcard miss no match, and sets mean the ranges
    they spell. For LIKE, ASCII letters match up to case and the escape, a
    character other than % and _ that does not come right after a run of
    wildcards with a [%] in it ([escapes_apart]), makes the next character
    literal. (Outside these the code departs from its own description:
    [like_escape_after_wildcard], [like_wildcard_as_escape], [like_nul].) *)
Theorem like_glob_spec p s esc : no_nul (chars p) -> no_nul (chars s) ->
  esc = 0 \/ (is_scalar esc /\ esc <> 37 /\ esc <> 95) -> escapes_apart LIKE_INFO esc false (chars p) = true ->
  (exists b, glob (Text p) (Text s) = Ok (bool_val b) /\ (b = true <-> matches GLOB_INFO 91 (chars p) (chars s))) /\
  (exists b, like (Text p) (Text s) (if esc =? 0 then None else Some (Text (encode_char esc))) = Ok (bool_val b) /\
     (b = true <-> matches LIKE_INFO esc (chars p) (chars s))).
Proof.
  intros HP HS Hesc Hap. split.
  - destruct (pattern_compare_spec GLOB_INFO 91 (chars p) (chars s)) as (b & E & Hb); try done; [by apply apart_set|].
    exists b. split; [|done]. unfold glob, text_chars. cbn [is_null orb to_text mbind outcome_bind default from_option id]. by rewrite E.
  - destruct (pattern_compare_spec LIKE_INFO esc (chars p) (chars s)) as (b & E & Hb); try done; [cbn; lia..|].
    exists b. split; [|done]. unfold like, text_chars.
    destruct (Z.eqb_spec esc 0) as [->|Hne]; cbn [is_null orb to_text parse_escape ok_or mbind outcome_bind default from_option id]; [by rewrite E|].
    rewrite chars_encode by (destruct Hesc as [?|[? _]]; done). cbn [mbind outcome_bind default from_option id]. by rewrite E.
Qed.
Lemma like_glob_spec_witness :
  (exists b, glob (Text (bytes_of "a*[x-z]")) (Text (bytes_of "abcy")) = Ok (bool_val b) /\
     (b = true <-> matches GLOB_INFO 91 (chars (bytes_of "a*[x-z]")) (chars (bytes_of "abcy")))) /\
  (exists b, like (Text (bytes_of "a*[x-z]")) (Text (bytes_of "abcy")) (Some (Text (encode_char 92))) = Ok (bool_val b) /\
     (b = true <-> matches LIKE_INFO 92 (chars (bytes_of "a*[x-z]")) (chars (bytes_of "abcy")))).
Proof.
  apply (like_glob_spec (bytes_of "a*[x-z]") (bytes_of "abcy") 92).
  - by_decide.
  - by_decide.
  - right. split; [left; lia|lia].
  - by vm_compute.
Defined.

(** A wildcard given as the escape stays a wildcard: [ab LIKE a%% ESCAPE %] and
    [ab LIKE %__ ESCAPE _] hold, although the last character of each pattern is
    escaped and the text has none of it. *)
Lemma like_wildcard_as_escape :
  like (Text (bytes_of "a%%")) (Text (bytes_of "ab")) (Some (Text (bytes_of "%"))) = Ok (Int 1) /\
  like (Text (bytes_of "%__")) (Text (bytes_of "ab")) (Some (Text (bytes_of "_"))) = Ok (Int 1).
Proof. by vm_compute. Qed.
(** A NUL in the text ends the search of a wildcard and is no character for [_];
    a NUL in the pattern ends it. *)
Lemma like_nul :
  like (Text (bytes_of "%b")) (Text [97; 0; 98]) None = Ok (Int 0) /\
  like (Text (bytes_of "a_b")) (Text [97; 0; 98]) None = Ok (Int 0) /\
  like (Text [97; 0; 98]) (Text (bytes_of "a")) None = Ok (Int 1).
Proof. by vm_compute. Qed.

(** An escaped wildcard right after a [%] is still a wildcard. *)
Lemma like_escape_after_wildcard :
  like (Text (bytes_of "%\%")) (Text (bytes_of "ab")) (Some (Text (bytes_of "\"))) = Ok (Int 1) /\
  ~ matches LIKE_INFO 92 (chars (bytes_of "%\%")) (chars (bytes_of "ab")).
Proof.
  split; [by vm_compute|]. change (chars (bytes_of "%\%")) with [match_all LIKE_INFO; 92; 37]. change (chars (bytes_of "ab")) with [97; 98].
  intros (t & [u E] & Hm)%matches_all; try (cbn; lia).
  apply matches_escaped in Hm as (c & q & d & t' & [= <- <-] & -> & Hs & ->%matches_nil); try (cbn; lia).
  destruct u as [|? [|? [|? ?]]]; [discriminate E| |discriminate E..]. injection E as _ <-. by vm_compute in Hs.
Qed.
