(* ===== verification/Json.v ===== *)
(** * JSON

    [func/json.rs]: the RFC 8259 parser, the canonical renderer, path lookup
    and the [json_*] functions. The parser runs over its position and depth as
    state, so that the position at an error is kept. Parsing never panics, and
    reading a rendered tree gives the tree back. *)

From S2P Require Import Prelude Utf8 Str Float64 Value Fp FloatOps.
#[local] Open Scope Z_scope.

(** ** The tree *)

Inductive JsonNode :=
  | JNull
  | JBool (b : bool)
  | JInt (i : Z)
  | JReal (r : Z)
  | JString (s : bytes)
  | JArray (items : list JsonNode)
  | JObject (entries : list (bytes * JsonNode)).

Definition type_label (n : JsonNode) : bytes :=
  match n with
  | JNull => bytes_of "null"
  | JBool true => bytes_of "true"
  | JBool false => bytes_of "false"
  | JInt _ => bytes_of "integer"
  | JReal _ => bytes_of "real"
  | JString _ => bytes_of "text"
  | JArray _ => bytes_of "array"
  | JObject _ => bytes_of "object"
  end.

(** [entries.iter().rposition(|(k, _)| k == key)]. *)
Fixpoint rposition (key : bytes) (entries : list (bytes * JsonNode)) : option nat :=
  match entries with
  | [] => None
  | (k, _) :: t =>
      match rposition key t with
      | Some i => Some (S i)
      | None => if bool_decide (k = key) then Some O else None
      end
  end.
(** [entries.iter().rev().find(|(k, _)| k == key)]: the last value wins. *)
Definition find_last (key : bytes) (entries : list (bytes * JsonNode)) : option JsonNode :=
  i ← rposition key entries; snd <$> entries !! i.
Definition object_lookup (n : JsonNode) (key : bytes) : option JsonNode :=
  match n with JObject entries => find_last key entries | _ => None end.
Definition is_scalar_node (n : JsonNode) : bool :=
  match n with JArray _ | JObject _ => false | _ => true end.

(** ** The parser *)

Definition JSON_MAX_DEPTH : Z := 1000.
Definition malformed (msg : string) : Error := Error_msg ("malformed JSON: " +:+ msg).

Record Parser := mkParser { j_pos : Z; j_depth : Z }.

Section Parser.
Context (input : bytes).

Definition PJ (A : Type) : Type := M Parser A.
Definition adv (n : Z) : PJ unit := modify (fun p => mkParser (j_pos p + n) (j_depth p)).
Definition set_depth (f : Z -> Z) : PJ unit := modify (fun p => mkParser (j_pos p) (f (j_depth p))).
Definition pos : PJ Z := p ← get; mret (j_pos p).
Definition peek : PJ (option Z) := i ← pos; mret (zget input i).
Definition bad {A} (msg : string) : PJ A := fail (malformed msg).

Definition is_ws (b : Z) : bool := (b =? 32) || (b =? 9) || (b =? 10) || (b =? 13).
Fixpoint skip_while (p : Z -> bool) (fuel : nat) : PJ unit :=
  match fuel with
  | O => lift Panic
  | S f =>
      c ← peek;
      match c with
      | Some b => if p b then _ ← adv 1; skip_while p f else mret tt
      | None => mret tt
      end
  end.
Definition loop_fuel : nat := S (length input).
Definition skip_ws : PJ unit := skip_while is_ws loop_fuel.
Definition skip_digits : PJ unit := skip_while is_digit loop_fuel.

Definition expect_byte (b : Z) : PJ unit :=
  c ← peek;
  if bool_decide (c = Some b) then adv 1 else bad "expected a character".

Definition parse_literal (lit : bytes) (value : JsonNode) : PJ JsonNode :=
  i ← pos;
  if zlen input <? i + zlen lit then bad "expected a literal"
  else
    s ← lift (sub_range input i (i + zlen lit));
    if bool_decide (s = lit) then _ ← adv (zlen lit); mret value else bad "expected a literal".

Definition hex_digit (b : Z) : option Z :=
  if is_digit b then Some (b - 48)
  else if (97 <=? b) && (b <=? 102) then Some (b - 97 + 10)
  else if (65 <=? b) && (b <=? 70) then Some (b - 65 + 10)
  else None.
Fixpoint hex_value (v : Z) (hex : bytes) : option Z :=
  match hex with
  | [] => Some v
  | b :: t => d ← hex_digit b; hex_value (Z.lor (u32 (Z.shiftl v 4)) d) t
  end.
Definition parse_4_hex : PJ Z :=
  i ← pos;
  if zlen input <? i + 4 then bad "incomplete \u escape"
  else
    hex ← lift (sub_range input i (i + 4));
    _ ← adv 4;
    match hex_value 0 hex with
    | Some v => mret v
    | None => bad "invalid hex digit in \u escape"
    end.

(** [char::from_u32]. *)
Definition char_from_u32 (c : Z) : option Z :=
  if (c <? 0xD800) || ((0xE000 <=? c) && (c <? 0x110000)) then Some c else None.

(** The character after a backslash; its code point. *)
Definition parse_unicode : PJ Z :=
  cp ← parse_4_hex;
  if (0xD800 <=? cp) && (cp <=? 0xDBFF) then
    c ← peek;
    if negb (bool_decide (c = Some 92)) then bad "expected low surrogate"
    else
      _ ← adv 1;
      c ← peek;
      if negb (bool_decide (c = Some 117)) then bad "expected '\u' for low surrogate"
      else
        _ ← adv 1;
        lo ← parse_4_hex;
        if negb ((0xDC00 <=? lo) && (lo <=? 0xDFFF)) then bad "invalid low surrogate"
        else
          match char_from_u32 (0x10000 + Z.shiftl (cp - 0xD800) 10 + (lo - 0xDC00)) with
          | Some c => mret c
          | None => bad "invalid surrogate pair"
          end
  else if (0xDC00 <=? cp) && (cp <=? 0xDFFF) then bad "unexpected low surrogate"
  else match char_from_u32 cp with Some c => mret c | None => bad "invalid codepoint" end.

Definition short_escape (esc : Z) : option Z :=
  if esc =? 34 then Some 34 else if esc =? 92 then Some 92 else if esc =? 47 then Some 47
  else if esc =? 98 then Some 8 else if esc =? 102 then Some 12 else if esc =? 110 then Some 10
  else if esc =? 114 then Some 13 else if esc =? 116 then Some 9 else None.

Fixpoint string_loop (fuel : nat) (out : bytes) : PJ bytes :=
  match fuel with
  | O => lift Panic
  | S f =>
      c ← peek;
      match c with
      | None => bad "unterminated string"
      | Some b =>
          if b =? 34 then _ ← adv 1; mret out
          else if b =? 92 then
            _ ← adv 1;
            e ← peek;
            match e with
            | None => bad "unterminated escape"
            | Some esc =>
                _ ← adv 1;
                match short_escape esc with
                | Some c => string_loop f (out ++ encode_char c)
                | None =>
                    if esc =? 117
                    then c ← parse_unicode; string_loop f (out ++ encode_char c)
                    else bad "invalid escape character"
                end
            end
          else if b <? 0x20 then bad "unescaped control character in string"
          else
            i ← pos;
            rest ← lift (sub_from input i);
            let c := zlen (fst (span (fun b => 0x80 <=? b) rest)) in
            let len := if c =? 0 then 1 else c in
            chunk ← lift (sub_range input i (i + len));
            if utf8_valid chunk then _ ← adv len; string_loop f (out ++ chunk)
            else bad "invalid UTF-8 in string"
      end
  end.
Definition parse_string : PJ bytes := _ ← expect_byte 34; string_loop loop_fuel [].

Definition peek_digit : PJ bool := c ← peek; mret (match c with Some b => is_digit b | None => false end).
Definition peek_in (bs : list Z) : PJ bool :=
  c ← peek; mret (match c with Some b => bool_decide (b ∈ bs) | None => false end).

Definition frac_part : PJ bool :=
  dot ← peek_in [46];
  if dot : bool then
    _ ← adv 1;
    d ← peek_digit;
    if d : bool then _ ← skip_digits; mret true else bad "expected digit after '.'"
  else mret false.
Definition exp_part : PJ bool :=
  e ← peek_in [101; 69];
  if e : bool then
    _ ← adv 1;
    sg ← peek_in [43; 45];
    _ ← (if sg : bool then adv 1 else mret tt);
    d ← peek_digit;
    if d : bool then _ ← skip_digits; mret true else bad "expected digit in exponent"
  else mret false.

(** The characters of a number; whether it has a fraction or an exponent. *)
Definition scan_number : PJ bool :=
  neg ← peek_in [45];
  _ ← (if neg : bool then adv 1 else mret tt);
  c ← peek;
  _ ← (match c with
       | Some b =>
           if b =? 48 then adv 1
           else if is_digit b then _ ← adv 1; skip_digits
           else bad "expected digit in number"
       | None => bad "expected digit in number"
       end);
  is_frac ← frac_part;
  is_exp ← exp_part;
  mret (is_frac || is_exp).
Definition parse_number : PJ JsonNode :=
  start ← pos;
  is_real ← scan_number;
  stop ← pos;
  text ← lift (sub_range input start stop);
  _ ← lift (if utf8_valid text then Ok tt else Panic);
  let real := match parse_f64 text with Some r => mret (JReal r) | None => bad "invalid number" end in
  if is_real : bool then real
  else match parse_i64 text with Some i => mret (JInt i) | None => real end.

Fixpoint object_loop (pv : PJ JsonNode) (fuel : nat) (entries : list (bytes * JsonNode)) : PJ JsonNode :=
  match fuel with
  | O => lift Panic
  | S f =>
      _ ← skip_ws;
      c ← peek;
      if negb (bool_decide (c = Some 34)) then bad "expected a quote for object key"
      else
        key ← parse_string;
        _ ← skip_ws;
        c ← peek;
        if negb (bool_decide (c = Some 58)) then bad "expected ':' after object key"
        else
          _ ← adv 1;
          _ ← skip_ws;
          value ← pv;
          let entries := entries ++ [(key, value)] in
          _ ← skip_ws;
          c ← peek;
          if bool_decide (c = Some 44) then _ ← adv 1; object_loop pv f entries
          else if bool_decide (c = Some 125) then _ ← adv 1; mret (JObject entries)
          else bad "expected ',' or '}' in object"
  end.
Definition parse_object (pv : PJ JsonNode) : PJ JsonNode :=
  _ ← expect_byte 123;
  _ ← skip_ws;
  c ← peek;
  if bool_decide (c = Some 125) then _ ← adv 1; mret (JObject [])
  else object_loop pv loop_fuel [].

Fixpoint array_loop (pv : PJ JsonNode) (fuel : nat) (items : list JsonNode) : PJ JsonNode :=
  match fuel with
  | O => lift Panic
  | S f =>
      _ ← skip_ws;
      value ← pv;
      let items := items ++ [value] in
      _ ← skip_ws;
      c ← peek;
      if bool_decide (c = Some 44) then _ ← adv 1; array_loop pv f items
      else if bool_decide (c = Some 93) then _ ← adv 1; mret (JArray items)
      else bad "expected ',' or ']' in array"
  end.
Definition parse_array (pv : PJ JsonNode) : PJ JsonNode :=
  _ ← expect_byte 91;
  _ ← skip_ws;
  c ← peek;
  if bool_decide (c = Some 93) then _ ← adv 1; mret (JArray [])
  else array_loop pv loop_fuel [].

(** The depth check bounds the recursion: [fuel] is the levels that are left. *)
Fixpoint parse_value (fuel : nat) : PJ JsonNode :=
  p ← get;
  if JSON_MAX_DEPTH <=? j_depth p then bad "JSON nested too deeply"
  else
    match fuel with
    | O => lift Panic
    | S f =>
        c ← peek;
        match c with
        | None => bad "unexpected end of input"
        | Some b =>
            _ ← set_depth (fun d => d + 1);
            node ←
              (if b =? 123 then parse_object (parse_value f)
               else if b =? 91 then parse_array (parse_value f)
               else if b =? 34 then s ← parse_string; mret (JString s)
               else if b =? 116 then parse_literal (bytes_of "true") (JBool true)
               else if b =? 102 then parse_literal (bytes_of "false") (JBool false)
               else if b =? 110 then parse_literal (bytes_of "null") JNull
               else if (b =? 45) || is_digit b then parse_number
               else bad "unexpected character");
            _ ← set_depth (fun d => d - 1);
            mret node
        end
    end.

Definition parse_top : PJ JsonNode :=
  _ ← skip_ws;
  node ← parse_value (Z.to_nat JSON_MAX_DEPTH);
  _ ← skip_ws;
  mret node.

End Parser.

(** Small inputs are parsed on the current stack and deep ones on a larger
    one: the result is the same. *)
Definition parse_inner (input : bytes) : outcome JsonNode :=
  let '(r, p) := parse_top input (mkParser 0 0) in
  node ← r;
  if j_pos p =? zlen input then Ok node else Err (malformed "extra text after JSON value").
Definition json_parse (input : bytes) : outcome JsonNode := parse_inner input.

(** The position [json_error_position] reports. *)
Definition first_error_offset (input : bytes) : outcome (option Z) :=
  match parse_top input (mkParser 0 0) with
  | (Ok _, p) => Ok (if j_pos p =? zlen input then None else Some 0)
  | (Err _, p) => Ok (Some (j_pos p))
  | (Panic, _) => Panic
  end.

(** ** Rendering *)

(** [{:04x}]. *)
Definition hex_char (d : Z) : Z := if d <? 10 then 48 + d else 87 + d.
Definition hex4 (c : Z) : bytes := (fun k => hex_char (Z.shiftr c (4 * k) mod 16)) <$> [3; 2; 1; 0].
Definition escape_char (c : Z) : bytes :=
  if c =? 34 then [92; 34] else if c =? 92 then [92; 92]
  else if c =? 8 then [92; 98] else if c =? 12 then [92; 102]
  else if c =? 10 then [92; 110] else if c =? 13 then [92; 114] else if c =? 9 then [92; 116]
  else if c <? 0x20 then [92; 117] ++ hex4 c
  else encode_char c.
Definition render_string (s out : bytes) : bytes :=
  foldl (fun out c => out ++ escape_char c) (out ++ [34]) (chars s) ++ [34].

Fixpoint render_into (node : JsonNode) (out : bytes) {struct node} : outcome bytes :=
  match node with
  | JNull => Ok (out ++ bytes_of "null")
  | JBool true => Ok (out ++ bytes_of "true")
  | JBool false => Ok (out ++ bytes_of "false")
  | JInt i => Ok (out ++ i64_to_string i)
  | JReal r => t ← fp_to_text r; Ok (out ++ t)
  | JString s => Ok (render_string s out)
  | JArray items =>
      out ← (fix go (first : bool) (l : list JsonNode) (out : bytes) : outcome bytes :=
               match l with
               | [] => Ok out
               | item :: t => out ← render_into item (if first then out else out ++ [44]); go false t out
               end) true items (out ++ [91]);
      Ok (out ++ [93])
  | JObject entries =>
      out ← (fix go (first : bool) (l : list (bytes * JsonNode)) (out : bytes) : outcome bytes :=
               match l with
               | [] => Ok out
               | (k, v) :: t =>
                   out ← render_into v (render_string k (if first then out else out ++ [44]) ++ [58]);
                   go false t out
               end) true entries (out ++ [123]);
      Ok (out ++ [125])
  end.
Definition json_render (node : JsonNode) : outcome bytes := render_into node [].

Definition push_indent (out indent : bytes) (depth : nat) : bytes := out ++ mjoin (replicate depth indent).
Fixpoint pretty_render (node : JsonNode) (out indent : bytes) (depth : nat) {struct node} : outcome bytes :=
  match node with
  | JNull => Ok (out ++ bytes_of "null")
  | JBool true => Ok (out ++ bytes_of "true")
  | JBool false => Ok (out ++ bytes_of "false")
  | JInt i => Ok (out ++ i64_to_string i)
  | JReal r => t ← fp_to_text r; Ok (out ++ t)
  | JString s => Ok (render_string s out)
  | JArray [] => Ok (out ++ [91; 93])
  | JArray items =>
      out ← (fix go (first : bool) (l : list JsonNode) (out : bytes) : outcome bytes :=
               match l with
               | [] => Ok out
               | item :: t =>
                   let out := if first then out else out ++ [44; 10] in
                   out ← pretty_render item (push_indent out indent (S depth)) indent (S depth); go false t out
               end) true items (out ++ [91; 10]);
      Ok (push_indent (out ++ [10]) indent depth ++ [93])
  | JObject [] => Ok (out ++ [123; 125])
  | JObject entries =>
      out ← (fix go (first : bool) (l : list (bytes * JsonNode)) (out : bytes) : outcome bytes :=
               match l with
               | [] => Ok out
               | (k, v) :: t =>
                   let out := if first then out else out ++ [44; 10] in
                   let out := render_string k (push_indent out indent (S depth)) ++ [58; 32] in
                   out ← pretty_render v out indent (S depth); go false t out
               end) true entries (out ++ [123; 10]);
      Ok (push_indent (out ++ [10]) indent depth ++ [125])
  end.

(** ** Values and trees *)

Definition blob_error : Error := Error_msg "JSON cannot hold BLOB values".

Definition value_to_json (arg : Value) : outcome JsonNode :=
  match arg with
  | Null => Ok JNull
  | Int i => Ok (JInt i)
  | Real r => Ok (JReal r)
  | Text s => json_parse s
  | Blob _ => Err blob_error
  end.
(** The rule for value arguments: a text is a JSON string, not parsed. *)
Definition value_arg_to_json (arg : Value) : outcome JsonNode :=
  match arg with
  | Null => Ok JNull
  | Int i => Ok (JInt i)
  | Real r => Ok (JReal r)
  | Text s => Ok (JString s)
  | Blob _ => Err blob_error
  end.
Definition append_sql_value (arg : Value) (out : bytes) : outcome bytes :=
  match arg with
  | Null => Ok (out ++ bytes_of "null")
  | Int i => Ok (out ++ i64_to_string i)
  | Real r => t ← fp_to_text r; Ok (out ++ t)
  | Text s => Ok (render_string s out)
  | Blob _ => Err blob_error
  end.
Definition json_node_to_sql_value (node : JsonNode) : outcome Value :=
  match node with
  | JNull => Ok Null
  | JBool b => Ok (Int (if b then 1 else 0))
  | JInt i => Ok (Int i)
  | JReal r => Ok (Real r)
  | JString s => Ok (Text s)
  | JArray _ | JObject _ => t ← json_render node; Ok (Text t)
  end.

(** ** Paths *)

Definition bad_path : Error := Error_msg "bad JSON path".

Inductive PathSeg :=
  | Key (k : bytes)
  | Index (n : Z)
  | Append
  | FromEnd (n : Z).

Definition utf8_len (b : Z) : Z :=
  if b <? 0x80 then 1
  else if Z.shiftr b 5 =? 6 then 2
  else if Z.shiftr b 4 =? 14 then 3
  else if Z.shiftr b 3 =? 30 then 4
  else 1.

Section Paths.
Context (path : bytes).

Fixpoint quoted_key_loop (fuel : nat) (quote i : Z) (key : bytes) : outcome (bytes * Z) :=
  match fuel with
  | O => Panic
  | S f =>
      match zget path i with
      | None => Ok (key, i)
      | Some b =>
          if b =? quote then Ok (key, i)
          else if (b =? 92) && (i + 1 <? zlen path) then
            esc ← idx path (i + 1);
            match short_escape esc with
            | Some c => quoted_key_loop f quote (i + 2) (key ++ encode_char c)
            | None =>
                if esc =? 117 then
                  if zlen path <? i + 6 then Err bad_path
                  else
                    hex ← sub_range path (i + 2) (i + 6);
                    v ← ok_or (hex_value 0 hex) bad_path;
                    c ← ok_or (char_from_u32 v) bad_path;
                    quoted_key_loop f quote (i + 6) (key ++ encode_char c)
                else Err bad_path
            end
          else
            let len := utf8_len b in
            if zlen path <? i + len then Err bad_path
            else
              s ← sub_range path i (i + len);
              if utf8_valid s then quoted_key_loop f quote (i + len) (key ++ s) else Err bad_path
      end
  end.
(** The key that starts at [i], and the position after it. *)
Definition parse_key_segment (i : Z) : outcome (bytes * Z) :=
  match zget path i with
  | None => Err bad_path
  | Some b =>
      if (b =? 34) || (b =? 39) then
        '(key, j) ← quoted_key_loop (S (length path)) b (i + 1) [];
        if bool_decide (zget path j = Some b) then Ok (key, j + 1) else Err bad_path
      else
        let '(key, _) := span (fun b => negb ((b =? 46) || (b =? 91))) (zdrop i path) in
        if zlen key =? 0 then Err bad_path
        else if utf8_valid key then Ok (key, i + zlen key) else Err bad_path
  end.

Definition sat64 (x : Z) : Z := Z.min x (2 ^ 64 - 1).
Record BracketSeg := mkBracket { br_from_end : bool; br_negative : bool; br_idx : Z; br_have_digit : bool; br_next : Z }.
(** After ['[']: an optional ['#'], an optional ['-'], digits and [']']. *)
Definition parse_bracket (i : Z) : outcome BracketSeg :=
  let from_end := bool_decide (zget path i = Some 35) in
  let i := if from_end then i + 1 else i in
  let negative := bool_decide (zget path i = Some 45) in
  let i := if negative then i + 1 else i in
  let '(ds, _) := span is_digit (zdrop i path) in
  let idx := foldl (fun v b => sat64 (sat64 (v * 10) + (b - 48))) 0 ds in
  let i := i + zlen ds in
  if bool_decide (zget path i = Some 93)
  then Ok (mkBracket from_end negative idx (negb (zlen ds =? 0)) (i + 1))
  else Err bad_path.

Definition checked_sub (a b : Z) : option Z := if b <=? a then Some (a - b) else None.
(** The element a bracket selects in an array of [len] elements. *)
Definition bracket_target (br : BracketSeg) (len : Z) : outcome (option Z) :=
  if br_from_end br then
    if br_negative br then Ok (checked_sub len (br_idx br))
    else if negb (br_have_digit br) then Ok (Some len)
    else Ok (checked_sub len (br_idx br))
  else if br_negative br then Ok (checked_sub len (br_idx br))
  else if negb (br_have_digit br) then Err bad_path
  else Ok (Some (br_idx br)).

Fixpoint walk (fuel : nat) (node : JsonNode) (i : Z) : outcome (option JsonNode) :=
  match fuel with
  | O => Panic
  | S f =>
      match zget path i with
      | None => Ok (Some node)
      | Some b =>
          if b =? 46 then
            '(key, i) ← parse_key_segment (i + 1);
            match node with
            | JObject entries =>
                match find_last key entries with
                | Some v => walk f v i
                | None => Ok None
                end
            | _ => Ok None
            end
          else if b =? 91 then
            br ← parse_bracket (i + 1);
            match node with
            | JArray items =>
                target ← bracket_target br (zlen items);
                match target with
                | Some t =>
                    if t <? zlen items then v ← idx items t; walk f v (br_next br) else Ok None
                | None => Ok None
                end
            | _ => Ok None
            end
          else Err bad_path
      end
  end.

Fixpoint segments_loop (fuel : nat) (i : Z) (segs : list PathSeg) : outcome (list PathSeg) :=
  match fuel with
  | O => Panic
  | S f =>
      match zget path i with
      | None => Ok segs
      | Some b =>
          if b =? 46 then
            '(key, i) ← parse_key_segment (i + 1);
            segments_loop f i (segs ++ [Key key])
          else if b =? 91 then
            br ← parse_bracket (i + 1);
            seg ←
              (if br_from_end br then
                 Ok (if negb (br_have_digit br) && negb (br_negative br) then Append else FromEnd (br_idx br))
               else if br_negative br then Ok (FromEnd (br_idx br))
               else if negb (br_have_digit br) then Err bad_path
               else Ok (Index (br_idx br)));
            segments_loop f (br_next br) (segs ++ [seg])
          else Err bad_path
      end
  end.
Definition parse_path_segments : outcome (list PathSeg) := segments_loop (S (length path)) 0 [].
End Paths.

Definition path_error : Error := Error_msg "JSON path error near '".
(** The part of a path after the leading [$]. *)
Definition path_rest (path : bytes) : outcome bytes :=
  match path with b :: rest => if b =? 36 then Ok rest else Err path_error | [] => Err path_error end.
Definition lookup_path (root : JsonNode) (path : bytes) : outcome (option JsonNode) :=
  rest ← path_rest path;
  if zlen rest =? 0 then Ok (Some root) else walk rest (S (length rest)) root 0.

Definition path_as_str (v : Value) : outcome bytes :=
  match v with
  | Text s => Ok s
  | Int i => Ok (i64_to_string i)
  | Real r => fp_to_text r
  | Null => Err (Error_msg "json_extract() path cannot be NULL")
  | Blob _ => Err (Error_msg "json_extract() path cannot be a BLOB")
  end.

(** ** Edits *)

Definition resolve_index (seg : PathSeg) (len : Z) : option Z :=
  i ← match seg with
      | Index n => Some n
      | Append => Some len
      | FromEnd n => Some (default (len + 1) (checked_sub len n))
      | Key _ => None
      end;
  if i <=? len then Some i else None.

Fixpoint path_exists (cur : JsonNode) (segs : list PathSeg) : bool :=
  match segs with
  | [] => true
  | s :: rest =>
      match s, cur with
      | Key k, JObject entries =>
          match find_last k entries with Some v => path_exists v rest | None => false end
      | Key _, _ => false
      | seg, JArray items =>
          match resolve_index seg (zlen items) with
          | Some i => match zget items i with Some v => path_exists v rest | None => false end
          | None => false
          end
      | _, _ => false
      end
  end.

(** [navigate_to_parent_mut], with what the caller does to the parent: object
    keys on the way are created, and stay when the parent is not reached. *)
Fixpoint at_parent (segs : list PathSeg) (f : JsonNode -> outcome JsonNode) (cur : JsonNode) : outcome JsonNode :=
  match segs with
  | [] | [_] => f cur
  | s :: rest =>
      match s, cur with
      | Key k, JObject entries =>
          match rposition k entries with
          | Some i =>
              '(ek, v) ← expect (entries !! i);
              v ← at_parent rest f v;
              Ok (JObject (<[i := (ek, v)]> entries))
          | None => v ← at_parent rest f (JObject []); Ok (JObject (entries ++ [(k, v)]))
          end
      | Key _, _ => Ok cur
      | seg, JArray items =>
          match resolve_index seg (zlen items) with
          | Some i =>
              match zget items i with
              | Some v => v ← at_parent rest f v; Ok (JArray (<[Z.to_nat i := v]> items))
              | None => Ok cur
              end
          | None => Ok cur
          end
      | _, _ => Ok cur
      end
  end.

Inductive UpdateMode := UM_Insert | UM_Replace | UM_Set.

Definition write_last (seg : PathSeg) (value : Value) (parent : JsonNode) : outcome JsonNode :=
  match seg, parent with
  | Key k, JObject entries =>
      new_node ← value_arg_to_json value;
      match rposition k entries with
      | Some i => '(ek, _) ← expect (entries !! i); Ok (JObject (<[i := (ek, new_node)]> entries))
      | None => Ok (JObject (entries ++ [(k, new_node)]))
      end
  | Key _, _ => Ok parent
  | seg, JArray items =>
      new_node ← value_arg_to_json value;
      match resolve_index seg (zlen items) with
      | Some i =>
          if i <? zlen items then Ok (JArray (<[Z.to_nat i := new_node]> items))
          else if i =? zlen items then Ok (JArray (items ++ [new_node]))
          else Ok parent
      | None => Ok parent
      end
  | _, _ => Ok parent
  end.

Definition apply_path_update (root : JsonNode) (segs : list PathSeg) (value : Value) (mode : UpdateMode)
    : outcome JsonNode :=
  match last segs with
  | None => match mode with UM_Insert => Ok root | _ => value_arg_to_json value end
  | Some seg =>
      let exists_ := path_exists root segs in
      let should_write := match mode with UM_Insert => negb exists_ | UM_Replace => exists_ | UM_Set => true end in
      if negb should_write then Ok root else at_parent segs (write_last seg value) root
  end.

Definition drop_last (seg : PathSeg) (parent : JsonNode) : outcome JsonNode :=
  match seg, parent with
  | Key k, JObject entries =>
      match rposition k entries with
      | Some i => Ok (JObject (delete i entries))
      | None => Ok parent
      end
  | seg, JArray items =>
      match resolve_index seg (zlen items) with
      | Some i => if i <? zlen items then Ok (JArray (delete (Z.to_nat i) items)) else Ok parent
      | None => Ok parent
      end
  | _, _ => Ok parent
  end.
Definition remove_at_path (root : JsonNode) (segs : list PathSeg) : outcome JsonNode :=
  match last segs with
  | None => Panic
  | Some seg => if path_exists root segs then at_parent segs (drop_last seg) root else Ok root
  end.

(** All entries with a key. *)
Definition remove_key (key : bytes) (entries : list (bytes * JsonNode)) : list (bytes * JsonNode) :=
  filter (fun e => fst e <> key) entries.

Fixpoint merge_patch (target patch : JsonNode) {struct patch} : JsonNode :=
  match patch with
  | JObject patch_entries =>
      let target_entries := match target with JObject es => es | _ => [] end in
      JObject
        ((fix go (ps : list (bytes * JsonNode)) (es : list (bytes * JsonNode)) : list (bytes * JsonNode) :=
            match ps with
            | [] => es
            | (key, pval) :: ps =>
                go ps
                  (match pval with
                   | JNull => remove_key key es
                   | _ =>
                       match rposition key es with
                       | Some i =>
                           match es !! i with
                           | Some (ek, v) => <[i := (ek, merge_patch v pval)]> es
                           | None => es
                           end
                       | None => es ++ [(key, pval)]
                       end
                   end)
            end) patch_entries target_entries)
  | _ => patch
  end.

(** ** SQL functions *)

Definition too_few (name : string) : Error := Error_msg (name +:+ " requires at least 1 argument").

Definition json_text (arg : Value) : outcome (option bytes) :=
  match arg with
  | Null => Ok None
  | Int i => Ok (Some (i64_to_string i))
  | Real r => t ← fp_to_text r; Ok (Some t)
  | Text s => node ← json_parse s; t ← json_render node; Ok (Some t)
  | Blob _ => Err blob_error
  end.
Definition json_fn (arg : Value) : outcome Value := t ← json_text arg; Ok (from_option Text Null t).
Definition jsonb_fn (arg : Value) : outcome Value := t ← json_text arg; Ok (from_option Blob Null t).

Fixpoint array_args (first : bool) (args : list Value) (out : bytes) : outcome bytes :=
  match args with
  | [] => Ok out
  | a :: t => out ← append_sql_value a (if first then out else out ++ [44]); array_args false t out
  end.
Definition json_array_fn (args : list Value) : outcome Value :=
  out ← array_args true args [91]; Ok (Text (out ++ [93])).

Definition labels_error : Error := Error_msg "json_object() labels must be TEXT".
Fixpoint object_args (first : bool) (args : list Value) (out : bytes) : outcome bytes :=
  match args with
  | k :: v :: t =>
      match k with
      | Text k => out ← append_sql_value v (render_string k (if first then out else out ++ [44]) ++ [58]);
                  object_args false t out
      | _ => Err labels_error
      end
  | [_] => Panic
  | [] => Ok out
  end.
Definition json_object_fn (args : list Value) : outcome Value :=
  if negb (zlen args mod 2 =? 0) then Err (Error_msg "json_object() requires an even number of arguments")
  else out ← object_args true args [123]; Ok (Text (out ++ [125])).

Fixpoint extract_args (root : JsonNode) (first : bool) (paths : list Value) (out : bytes) : outcome bytes :=
  match paths with
  | [] => Ok out
  | p :: t =>
      let out := if first then out else out ++ [44] in
      path ← path_as_str p;
      hit ← lookup_path root path;
      out ← match hit with Some node => render_into node out | None => Ok (out ++ bytes_of "null") end;
      extract_args root false t out
  end.
Definition json_extract_fn (args : list Value) : outcome Value :=
  match args with
  | x :: p :: paths =>
      root ← value_to_json x;
      match paths with
      | [] =>
          path ← path_as_str p;
          hit ← lookup_path root path;
          match hit with Some node => json_node_to_sql_value node | None => Ok Null end
      | _ => out ← extract_args root true (p :: paths) [91]; Ok (Text (out ++ [93]))
      end
  | _ => Err (Error_msg "json_extract requires at least 2 arguments")
  end.

(** The common part of [json_type] and [json_array_length]. *)
Definition with_node (name : string) (args : list Value) (f : JsonNode -> Value) : outcome Value :=
  match args with
  | [] => Err (too_few name)
  | x :: rest =>
      if is_null x then Ok Null
      else
        root ← value_to_json x;
        match rest with
        | [] => Ok (f root)
        | p :: _ => path ← path_as_str p; hit ← lookup_path root path; Ok (from_option f Null hit)
        end
  end.
Definition json_type_fn (args : list Value) : outcome Value :=
  with_node "json_type" args (fun n => Text (type_label n)).
Definition json_array_length_fn (args : list Value) : outcome Value :=
  with_node "json_array_length" args (fun n => match n with JArray items => Int (zlen items) | _ => Int 0 end).

Definition json_valid_fn (args : list Value) : outcome Value :=
  match args with
  | [] => Err (too_few "json_valid")
  | x :: _ =>
      match x with
      | Null => Ok Null
      | Text s =>
          match json_parse s with Ok _ => Ok (Int 1) | Err _ => Ok (Int 0) | Panic => Panic end
      | Int _ | Real _ => Ok (Int 1)
      | Blob _ => Ok (Int 0)
      end
  end.
Definition json_quote_fn (arg : Value) : outcome Value := t ← append_sql_value arg []; Ok (Text t).
Definition json_pretty_fn (args : list Value) : outcome Value :=
  match args with
  | [] => Err (too_few "json_pretty")
  | x :: rest =>
      if is_null x then Ok Null
      else
        root ← value_to_json x;
        let spaces := bytes_of "    " in
        let indent := match rest with Text s :: _ => if zlen s =? 0 then spaces else s | _ => spaces end in
        t ← pretty_render root [] indent 0; Ok (Text t)
  end.
Definition json_error_position_fn (arg : Value) : outcome Value :=
  match arg with
  | Null => Ok Null
  | Int _ | Real _ => Ok (Int 0)
  | Text s =>
      match json_parse s with
      | Ok _ => Ok (Int 0)
      | Err _ =>
          off ← first_error_offset s;
          pre ← str_to s (Z.min (default (zlen s) off) (zlen s));
          Ok (Int (zlen (chars pre) + 1))
      | Panic => Panic
      end
  | Blob _ => Ok (Int 1)
  end.

Fixpoint edit_loop (mode : UpdateMode) (root : JsonNode) (args : list Value) : outcome JsonNode :=
  match args with
  | p :: v :: t =>
      path ← path_as_str p;
      rest ← path_rest path;
      segs ← parse_path_segments rest;
      root ← apply_path_update root segs v mode;
      edit_loop mode root t
  | _ => Ok root
  end.
Definition json_edit_fn (args : list Value) (mode : UpdateMode) : outcome Value :=
  match args with
  | [] => Err (too_few "json function")
  | x :: rest =>
      if zlen args mod 2 =? 0 then Err (Error_msg "wrong number of arguments to function")
      else if is_null x then Ok Null
      else root ← value_to_json x; root ← edit_loop mode root rest; t ← json_render root; Ok (Text t)
  end.

Fixpoint remove_loop (root : JsonNode) (paths : list Value) : outcome (option JsonNode) :=
  match paths with
  | [] => Ok (Some root)
  | p :: t =>
      path ← path_as_str p;
      rest ← path_rest path;
      segs ← parse_path_segments rest;
      match segs with
      | [] => Ok None
      | _ => root ← remove_at_path root segs; remove_loop root t
      end
  end.
Definition json_remove_fn (args : list Value) : outcome Value :=
  match args with
  | [] => Err (too_few "json_remove")
  | x :: paths =>
      if is_null x then Ok Null
      else
        root ← value_to_json x;
        r ← remove_loop root paths;
        match r with Some root => t ← json_render root; Ok (Text t) | None => Ok Null end
  end.

Definition json_patch_fn (args : list Value) : outcome Value :=
  match args with
  | [x; p] =>
      if is_null x || is_null p then Ok Null
      else
        patch ← value_to_json p;
        target ← value_to_json x;
        t ← json_render (merge_patch target patch); Ok (Text t)
  | _ => Err (Error_msg "json_patch requires 2 arguments")
  end.

Definition json_arrow_path_value (arg : Value) : outcome bytes :=
  match arg with
  | Text s => Ok (if starts_with [36] s then s else bytes_of "$." ++ s)
  | Int n =>
      if 0 <=? n then Ok (bytes_of "$[" ++ i64_to_string n ++ [93])
      else
        let k := if n =? - 2 ^ 63 then 0 else - n in
        Ok (bytes_of "$[#-" ++ i64_to_string k ++ [93])
  | Null => Err (Error_msg "JSON path cannot be NULL")
  | Real _ | Blob _ => Err bad_path
  end.
Definition json_arrow_fn (args : list Value) (json_mode : bool) : outcome Value :=
  match args with
  | [x; p] =>
      path ← json_arrow_path_value p;
      if is_null x then Ok Null
      else
        root ← value_to_json x;
        hit ← lookup_path root path;
        match hit with
        | Some node => if json_mode then t ← json_render node; Ok (Text t) else json_node_to_sql_value node
        | None => Ok Null
        end
  | _ => Err (Error_msg "JSON arrow operator requires 2 arguments")
  end.
