(* ===== verification/DbHeader.v ===== *)
(** * The 100-byte database header ([format/header.rs]) *)

From S2P Require Import Prelude.

(** ** Definitions *)

Definition MAGIC : bytes :=
  [0x53; 0x51; 0x4c; 0x69; 0x74; 0x65; 0x20; 0x66; 0x6f; 0x72; 0x6d; 0x61; 0x74; 0x20; 0x33; 0].

Inductive TextEncoding := Utf8 | Utf16Le | Utf16Be.
#[export] Instance TextEncoding_eq_dec : EqDecision TextEncoding.
Proof. solve_decision. Defined.

Definition TextEncoding_from_code (code : Z) : TextEncoding :=
  match code with 2 => Utf16Le | 3 => Utf16Be | _ => Utf8 end.
Definition TextEncoding_code (e : TextEncoding) : Z :=
  match e with Utf8 => 1 | Utf16Le => 2 | Utf16Be => 3 end.

Record DbHeader := mkDbHeader {
  page_size : Z;               (* u32 *)
  write_version : Z;           (* u8 *)
  read_version : Z;            (* u8 *)
  reserved_space : Z;          (* u8 *)
  file_change_counter : Z;     (* u32 *)
  db_size_pages : Z;           (* u32 *)
  first_freelist_trunk : Z;    (* u32 *)
  freelist_count : Z;          (* u32 *)
  schema_cookie : Z;           (* u32 *)
  schema_format : Z;           (* u32 *)
  default_cache_size : Z;      (* i32 *)
  largest_root_page : Z;       (* u32 *)
  text_encoding : TextEncoding;
  user_version : Z;            (* i32 *)
  incremental_vacuum : Z;      (* u32 *)
  application_id : Z;          (* u32 *)
  version_valid_for : Z;       (* u32 *)
  sqlite_version_number : Z    (* u32 *)
}.
#[export] Instance DbHeader_eq_dec : EqDecision DbHeader.
Proof. solve_decision. Defined.

(** What the field types guarantee. *)
Definition header_typed (h : DbHeader) : Prop :=
  is_u32 (page_size h) /\ is_u8 (write_version h) /\ is_u8 (read_version h) /\
  is_u8 (reserved_space h) /\ is_u32 (file_change_counter h) /\ is_u32 (db_size_pages h) /\
  is_u32 (first_freelist_trunk h) /\ is_u32 (freelist_count h) /\ is_u32 (schema_cookie h) /\
  is_u32 (schema_format h) /\ is_i32 (default_cache_size h) /\ is_u32 (largest_root_page h) /\
  is_i32 (user_version h) /\ is_u32 (incremental_vacuum h) /\ is_u32 (application_id h) /\
  is_u32 (version_valid_for h) /\ is_u32 (sqlite_version_number h).

(** [page_size - reserved_space] on [u32]. *)
Definition header_usable_size (h : DbHeader) : outcome Z :=
  chk_sub (page_size h) (reserved_space h).

(** [u32::is_power_of_two]. *)
Definition is_power_of_two (x : Z) : bool := (0 <? x) && (x =? 2 ^ Z.log2 x).
Definition is_valid_page_size (ps : Z) : bool :=
  (512 <=? ps) && (ps <=? 65536) && is_power_of_two ps.

Definition header_parse (b : bytes) : outcome DbHeader :=
  if zlen b <? 100 then Err (Error_not_a_db "file is shorter than the 100-byte header")
  else
    magic ← sub_range b 0 16;
    if negb (bool_decide (magic = MAGIC))
    then Err (Error_not_a_db "file is not a database (bad header magic)")
    else
      raw_page_size ← be_at 2 b 16;
      let page_size := if raw_page_size =? 1 then 65536 else raw_page_size in
      if negb (is_valid_page_size page_size)
      then Err (Error_corrupt ("invalid page size " +:+ pretty page_size))
      else
        reserved_space ← idx b 20;
        if page_size <? 480 + reserved_space
        then Err (Error_not_a_db "usable page size is below the 480-byte minimum")
        else
          read_version ← idx b 19;
          if 2 <? read_version
          then Err (Error_not_a_db ("unsupported file format read version " +:+ pretty read_version))
          else
            write_version ← idx b 18;
            file_change_counter ← be_at 4 b 24;
            db_size_pages ← be_at 4 b 28;
            first_freelist_trunk ← be_at 4 b 32;
            freelist_count ← be_at 4 b 36;
            schema_cookie ← be_at 4 b 40;
            schema_format ← be_at 4 b 44;
            default_cache_size ← be_at 4 b 48;
            largest_root_page ← be_at 4 b 52;
            text_encoding ← be_at 4 b 56;
            user_version ← be_at 4 b 60;
            incremental_vacuum ← be_at 4 b 64;
            application_id ← be_at 4 b 68;
            version_valid_for ← be_at 4 b 92;
            sqlite_version_number ← be_at 4 b 96;
            Ok {| page_size := page_size; write_version := write_version;
                  read_version := read_version; reserved_space := reserved_space;
                  file_change_counter := file_change_counter; db_size_pages := db_size_pages;
                  first_freelist_trunk := first_freelist_trunk; freelist_count := freelist_count;
                  schema_cookie := schema_cookie; schema_format := schema_format;
                  default_cache_size := i32 default_cache_size;
                  largest_root_page := largest_root_page;
                  text_encoding := TextEncoding_from_code text_encoding;
                  user_version := i32 user_version; incremental_vacuum := incremental_vacuum;
                  application_id := application_id; version_valid_for := version_valid_for;
                  sqlite_version_number := sqlite_version_number |}.

(** The fixed-size array [b] is written field by field; all offsets are
    constants inside it, so no write can fail. *)
Definition header_serialize (h : DbHeader) : bytes :=
  let raw_page_size := if page_size h =? 65536 then 1 else u16 (page_size h) in
  let b := zrep 100 0 in
  let b := splice 0 MAGIC b in
  let b := splice 16 (be_bytes 2 raw_page_size) b in
  let b := splice 18 [write_version h] b in
  let b := splice 19 [read_version h] b in
  let b := splice 20 [reserved_space h] b in
  let b := splice 21 [64] b in
  let b := splice 22 [32] b in
  let b := splice 23 [32] b in
  let b := splice 24 (be_bytes 4 (file_change_counter h)) b in
  let b := splice 28 (be_bytes 4 (db_size_pages h)) b in
  let b := splice 32 (be_bytes 4 (first_freelist_trunk h)) b in
  let b := splice 36 (be_bytes 4 (freelist_count h)) b in
  let b := splice 40 (be_bytes 4 (schema_cookie h)) b in
  let b := splice 44 (be_bytes 4 (schema_format h)) b in
  let b := splice 48 (be_bytes 4 (u32 (default_cache_size h))) b in
  let b := splice 52 (be_bytes 4 (largest_root_page h)) b in
  let b := splice 56 (be_bytes 4 (TextEncoding_code (text_encoding h))) b in
  let b := splice 60 (be_bytes 4 (u32 (user_version h))) b in
  let b := splice 64 (be_bytes 4 (incremental_vacuum h)) b in
  let b := splice 68 (be_bytes 4 (application_id h)) b in
  let b := splice 92 (be_bytes 4 (version_valid_for h)) b in
  splice 96 (be_bytes 4 (sqlite_version_number h)) b.

(** ** Lemmas *)

Lemma TextEncoding_code_roundtrip e : TextEncoding_from_code (TextEncoding_code e) = e.
Proof. by destruct e. Qed.
Lemma TextEncoding_code_u32 e : is_u32 (TextEncoding_code e).
Proof. unfold is_u32. destruct e; simpl; lia. Qed.

Lemma is_power_of_two_spec x : is_power_of_two x = true <-> exists k, 0 <= k /\ x = 2 ^ k.
Proof.
  unfold is_power_of_two. rewrite andb_true_iff, Z.ltb_lt, Z.eqb_eq. split.
  - intros [? ?]. exists (Z.log2 x). split; [apply Z.log2_nonneg|done].
  - intros (k & ? & ->). rewrite Z.log2_pow2 by done. split; [apply Z.pow_pos_nonneg; lia|done].
Qed.
Lemma is_valid_page_size_spec x :
  is_valid_page_size x = true <-> exists k, 9 <= k <= 16 /\ x = 2 ^ k.
Proof.
  unfold is_valid_page_size. rewrite !andb_true_iff, is_power_of_two_spec, !Z.leb_le. split.
  - intros ((? & ?) & k & ? & ->). exists k. split; [|done]. split.
    + destruct (Z_lt_le_dec k 9); [|done].
      pose proof (Z.pow_le_mono_r 2 k 8 ltac:(lia) ltac:(lia)). lia.
    + destruct (Z_lt_le_dec 16 k); [|done].
      pose proof (Z.pow_le_mono_r 2 17 k ltac:(lia) ltac:(lia)). lia.
  - intros (k & Hk & ->). split; [|exists k; lia].
    split; [apply (Z.pow_le_mono_r 2 9)|apply (Z.pow_le_mono_r 2 k 16)]; lia.
Qed.

(** Every page size the format allows. *)
Lemma valid_page_size_cases x : is_valid_page_size x = true ->
  x = 512 \/ x = 1024 \/ x = 2048 \/ x = 4096 \/ x = 8192 \/ x = 16384 \/ x = 32768 \/ x = 65536.
Proof.
  intros (k & Hk & ->)%is_valid_page_size_spec.
  assert (k = 9 \/ k = 10 \/ k = 11 \/ k = 12 \/ k = 13 \/ k = 14 \/ k = 15 \/ k = 16) as Hc by lia.
  destruct_or! Hc; subst; simpl; auto 10.
Qed.

Definition raw_page_size (h : DbHeader) : Z :=
  if page_size h =? 65536 then 1 else u16 (page_size h).
Lemma raw_page_size_ok h : is_valid_page_size (page_size h) = true ->
  is_u16 (raw_page_size h) /\
  (if raw_page_size h =? 1 then 65536 else raw_page_size h) = page_size h.
Proof.
  intros H%valid_page_size_cases. unfold raw_page_size, is_u16.
  destruct_or! H; rewrite H; by vm_compute.
Qed.

(** Where [header_serialize] puts each field. *)
Lemma header_serialize_fields h :
  let b := header_serialize h in
  zlen b = 100 /\ sub_range b 0 16 = Ok MAGIC /\
  be_at 2 b 16 = Ok (be_val (be_bytes 2 (raw_page_size h))) /\
  idx b 18 = Ok (write_version h) /\ idx b 19 = Ok (read_version h) /\
  idx b 20 = Ok (reserved_space h) /\
  be_at 4 b 24 = Ok (be_val (be_bytes 4 (file_change_counter h))) /\
  be_at 4 b 28 = Ok (be_val (be_bytes 4 (db_size_pages h))) /\
  be_at 4 b 32 = Ok (be_val (be_bytes 4 (first_freelist_trunk h))) /\
  be_at 4 b 36 = Ok (be_val (be_bytes 4 (freelist_count h))) /\
  be_at 4 b 40 = Ok (be_val (be_bytes 4 (schema_cookie h))) /\
  be_at 4 b 44 = Ok (be_val (be_bytes 4 (schema_format h))) /\
  be_at 4 b 48 = Ok (be_val (be_bytes 4 (u32 (default_cache_size h)))) /\
  be_at 4 b 52 = Ok (be_val (be_bytes 4 (largest_root_page h))) /\
  be_at 4 b 56 = Ok (be_val (be_bytes 4 (TextEncoding_code (text_encoding h)))) /\
  be_at 4 b 60 = Ok (be_val (be_bytes 4 (u32 (user_version h)))) /\
  be_at 4 b 64 = Ok (be_val (be_bytes 4 (incremental_vacuum h))) /\
  be_at 4 b 68 = Ok (be_val (be_bytes 4 (application_id h))) /\
  be_at 4 b 92 = Ok (be_val (be_bytes 4 (version_valid_for h))) /\
  be_at 4 b 96 = Ok (be_val (be_bytes 4 (sqlite_version_number h))).
Proof. intros b. unfold b. split_and!; reflexivity. Qed.

Lemma zlen_header_serialize h : zlen (header_serialize h) = 100.
Proof. reflexivity. Qed.
#[export] Hint Rewrite zlen_header_serialize : zlen.

Lemma header_parse_app b rest : zlen b = 100 -> header_parse (b ++ rest) = header_parse b.
Proof.
  intros Hb. unfold header_parse. rewrite zlen_app, Hb. pose proof (zlen_nonneg rest).
  destruct (Z.ltb_spec (100 + zlen rest) 100); [lia|]. simpl Z.ltb. cbv iota.
  by rewrite !sub_range_app_l, !be_at_app_l, !idx_app_l by lia.
Qed.

Lemma i32_u32 x : is_i32 x -> i32 (u32 x) = x.
Proof. intros. unfold i32, u32. rewrite sext_mod by lia. by apply sext_small. Qed.

Lemma be4_u32 x : is_u32 x -> be_val (be_bytes 4 x) = x.
Proof. intros. by apply be_val_be_bytes_small. Qed.
Lemma be2_u16 x : is_u16 x -> be_val (be_bytes 2 x) = x.
Proof. intros. by apply be_val_be_bytes_small. Qed.

Lemma header_bytes_ok h : header_typed h -> bytes_ok (header_serialize h).
Proof.
  intros Hh. unfold header_typed in Hh. destruct_and! Hh. unfold header_serialize.
  assert (bytes_ok MAGIC) by (by apply (bool_decide_unpack _); vm_compute).
  assert (bytes_ok (zrep 100 0)) by (apply bytes_ok_zrep; unfold byte_ok; lia).
  repeat (apply bytes_ok_splice; [first [apply bytes_ok_be_bytes|done|
    constructor; [unfold byte_ok, is_u8 in *; lia|constructor]]|]). done.
Qed.

(** ** Properties *)

(** C29: parsing the first 100 bytes of any file that starts with a serialized
    header gives that header back, for every header the engine can hold: a
    valid page size (65536 included, which is stored as 1), a usable size of
    at least 480 bytes and a read version of at most 2. *)
Theorem header_roundtrip h rest
  (Ht : header_typed h) (Hps : is_valid_page_size (page_size h) = true)
  (Hus : 480 <= page_size h - reserved_space h) (Hrv : read_version h <= 2) :
  header_parse (header_serialize h ++ rest) = Ok h.
Proof.
  rewrite header_parse_app by apply zlen_header_serialize.
  pose proof (header_serialize_fields h) as F. cbv zeta in F.
  destruct (raw_page_size_ok h Hps) as [Hraw Hps'].
  unfold header_typed in Ht. destruct_and! Ht.
  rewrite be2_u16 in F by done.
  repeat (rewrite (be4_u32 _) in F by (done || apply TextEncoding_code_u32 || apply Z.mod_pos_bound; lia)).
  destruct_and! F. unfold header_parse.
  repeat match goal with E : _ (header_serialize h) _ = Ok _ |- _ => rewrite E; clear E
    | E : _ (header_serialize h) _ _ = Ok _ |- _ => rewrite E; clear E
    | E : zlen (header_serialize h) = _ |- _ => rewrite E; clear E end.
  simpl. rewrite Hps', Hps. simpl.
  destruct (Z.ltb_spec (page_size h) (480 + reserved_space h)); [lia|].
  destruct (Z.ltb_spec 2 (read_version h)); [lia|].
  rewrite !i32_u32, TextEncoding_code_roundtrip by done. by destruct h.
Qed.
Definition sample_header : DbHeader :=
  {| page_size := 65536; write_version := 1; read_version := 1; reserved_space := 12;
     file_change_counter := 3; db_size_pages := 2; first_freelist_trunk := 0; freelist_count := 0;
     schema_cookie := 1; schema_format := 4; default_cache_size := -2000; largest_root_page := 0;
     text_encoding := Utf16Be; user_version := -7; incremental_vacuum := 0; application_id := 9;
     version_valid_for := 3; sqlite_version_number := 3053001 |}.
Lemma header_roundtrip_witness :
  header_parse (header_serialize sample_header ++ [1; 2; 3]) = Ok sample_header.
Proof.
  apply header_roundtrip; [|by vm_compute|simpl; lia|simpl; lia].
  unfold header_typed, is_u32, is_u8, is_i32, sample_header; simpl; lia.
Defined.

(** on any bytes, [header_parse] never panics; what it accepts has a page
    size that is a power of two in 512..=65536, at least 480 usable bytes (so
    [usable_size] cannot underflow) and a read version of at most 2; what it
    rejects it rejects as SQLITE_NOTADB or SQLITE_CORRUPT. *)
Theorem header_parse_safe b (Hb : bytes_ok b) :
  match header_parse b with
  | Ok h => header_typed h /\ is_valid_page_size (page_size h) = true /\ read_version h <= 2 /\
            header_usable_size h = Ok (page_size h - reserved_space h) /\
            480 <= page_size h - reserved_space h /\ 100 <= zlen b
  | Err e => code e = RC_NotADb \/ code e = RC_Corrupt
  | Panic => False
  end.
Proof.
  unfold header_parse. destruct (Z.ltb_spec (zlen b) 100); [by left|].
  rewrite sub_range_in by lia. simpl. destruct (bool_decide _); simpl; [|by left].
  destruct (be_at_total 2 b 16) as [raw Eraw]; [lia..|]. rewrite Eraw. simpl.
  destruct (is_valid_page_size _) eqn:Hps; simpl; [|by right].
  destruct (idx_total b 20) as [rs Ers]; [lia|]. rewrite Ers. simpl.
  destruct (Z.ltb_spec (if raw =? 1 then 65536 else raw) (480 + rs)); [by left|].
  destruct (idx_total b 19) as [rver Erv]; [lia|]. rewrite Erv. simpl.
  destruct (Z.ltb_spec 2 rver); [by left|].
  destruct (idx_total b 18) as [wver Ewv]; [lia|]. rewrite Ewv. simpl.
  repeat match goal with
    | |- context [be_at 4 b ?i ≫= _] =>
        let v := fresh "v" in let E := fresh "E" in
        destruct (be_at_total 4 b i) as [v E]; [lia..|]; rewrite E; simpl;
        apply (be_at_range 4 b i v Hb) in E
    end.
  apply (idx_range b _ _ Hb) in Ers, Erv, Ewv. apply (be_at_range 2 b _ _ Hb) in Eraw.
  unfold byte_ok in *.
  split_and!; try done; try lia.
  - unfold header_typed, is_u32, is_u8, is_i32; simpl.
    assert (forall x, - 2 ^ 31 <= i32 x < 2 ^ 31) as Hi by (intros; by apply (sext_range 32)).
    pose proof (Hi v5). pose proof (Hi v8).
    destruct (valid_page_size_cases _ Hps) as [E'|E']; destruct_or? E'; rewrite E'; lia.
  - unfold header_usable_size, chk_sub. simpl.
    destruct (Z.ltb_spec (if raw =? 1 then 65536 else raw) rs); [lia|done].
Qed.
Lemma header_parse_safe_witness :
  match header_parse (header_serialize sample_header) with
  | Ok h => header_typed h /\ is_valid_page_size (page_size h) = true /\ read_version h <= 2 /\
            header_usable_size h = Ok (page_size h - reserved_space h) /\
            480 <= page_size h - reserved_space h /\ 100 <= zlen (header_serialize sample_header)
  | Err e => code e = RC_NotADb \/ code e = RC_Corrupt
  | Panic => False
  end.
Proof. apply header_parse_safe. by apply (bool_decide_unpack _); vm_compute. Defined.
