(* ===== verification/Record.v ===== *)
(** * Serial types and the record format ([format/serial_type.rs],
    [format/record.rs])

    The record codec: every list of values the engine can hold survives
    [encode_record] followed by [decode_record], and [decode_record] is total
    on arbitrary bytes. *)

From S2P Require Import Prelude Varint Utf8 Value DbHeader.

(** ** Serial types *)

Inductive SerialType :=
  | ST_Null | ST_I8 | ST_I16 | ST_I24 | ST_I32 | ST_I48 | ST_I64 | ST_F64
  | ST_Const0 | ST_Const1 | ST_Reserved (n : Z) | ST_Blob (len : Z) | ST_Text (len : Z).
#[export] Instance SerialType_eq_dec : EqDecision SerialType.
Proof. solve_decision. Defined.

Definition from_code (code : Z) : SerialType :=
  match code with
  | 0 => ST_Null | 1 => ST_I8 | 2 => ST_I16 | 3 => ST_I24 | 4 => ST_I32
  | 5 => ST_I48 | 6 => ST_I64 | 7 => ST_F64 | 8 => ST_Const0 | 9 => ST_Const1
  | 10 | 11 => ST_Reserved code
  | n => if n mod 2 =? 0 then ST_Blob ((n - 12) / 2) else ST_Text ((n - 13) / 2)
  end.

Definition st_code (st : SerialType) : Z :=
  match st with
  | ST_Null => 0 | ST_I8 => 1 | ST_I16 => 2 | ST_I24 => 3 | ST_I32 => 4
  | ST_I48 => 5 | ST_I64 => 6 | ST_F64 => 7 | ST_Const0 => 8 | ST_Const1 => 9
  | ST_Reserved n => n
  | ST_Blob len => 12 + len * 2
  | ST_Text len => 13 + len * 2
  end.

Definition byte_len (st : SerialType) : Z :=
  match st with
  | ST_Null | ST_Const0 | ST_Const1 => 0
  | ST_Reserved _ => 0
  | ST_I8 => 1 | ST_I16 => 2 | ST_I24 => 3 | ST_I32 => 4 | ST_I48 => 6
  | ST_I64 | ST_F64 => 8
  | ST_Blob len | ST_Text len => len
  end.

(** [(v << 8) | b as i64] over the bytes, from all ones if negative. *)
Definition decode_be_int (b : bytes) : Z :=
  let start := match b with x :: _ => if Z.land x 0x80 =? 0 then 0 else -1 | [] => 0 end in
  fold_left (fun v x => Z.lor (i64 (Z.shiftl v 8)) x) b start.

(** [bytes.chunks_exact(2)]: a trailing odd byte is dropped. *)
Fixpoint utf16_units (big : bool) (b : bytes) : list Z :=
  match b with
  | x :: y :: b' => (if big then x * 256 + y else y * 256 + x) :: utf16_units big b'
  | _ => []
  end.
Definition decode_text (b : bytes) (encoding : TextEncoding) : bytes :=
  match encoding with
  | Utf8 => from_utf8_lossy b
  | Utf16Be => from_utf16_lossy (utf16_units true b)
  | Utf16Le => from_utf16_lossy (utf16_units false b)
  end.

Definition st_decode (st : SerialType) (b : bytes) (encoding : TextEncoding) : outcome Value :=
  if negb (zlen b =? byte_len st) then Panic (* debug_assert_eq! *)
  else
    match st with
    | ST_Null => Ok Null
    | ST_Const0 => Ok (Int 0)
    | ST_Const1 => Ok (Int 1)
    | ST_I8 | ST_I16 | ST_I24 | ST_I32 | ST_I48 | ST_I64 => Ok (Int (decode_be_int b))
    | ST_F64 => r ← be_uint 8 b; Ok (Real r)
    | ST_Blob _ => Ok (Blob b)
    | ST_Text _ => Ok (Text (decode_text b encoding))
    | ST_Reserved n => Err (Error_corrupt ("reserved serial type " +:+ pretty n))
    end.

Definition in_range (lo hi i : Z) : bool := (lo <=? i) && (i <=? hi).
Definition encode_int (i : Z) : SerialType * bytes :=
  if i =? 0 then (ST_Const0, [])
  else if i =? 1 then (ST_Const1, [])
  else if in_range (-0x80) 0x7f i then (ST_I8, [u8 i])
  else if in_range (-0x8000) 0x7fff i then (ST_I16, be_bytes 2 (i16 i))
  else if in_range (-0x800000) 0x7fffff i then (ST_I24, zslice 1 4 (be_bytes 4 (i32 i)))
  else if in_range (-0x80000000) 0x7fffffff i then (ST_I32, be_bytes 4 (i32 i))
  else if in_range (-0x800000000000) 0x7fffffffffff i then (ST_I48, zslice 2 8 (be_bytes 8 i))
  else (ST_I64, be_bytes 8 i).

Definition st_encode (v : Value) : SerialType * bytes :=
  match v with
  | Null => (ST_Null, [])
  | Int i => encode_int i
  | Real r => (ST_F64, be_bytes 8 r)
  | Text s => (ST_Text (zlen s), s)
  | Blob b => (ST_Blob (zlen b), b)
  end.

(** ** Records *)

(** The [while header_pos < header_len] loop; every iteration consumes at
    least one header byte, so [length payload] iterations are enough. *)
Fixpoint decode_loop (fuel : nat) (payload : bytes) (encoding : TextEncoding)
    (header_len header_pos body_pos : Z) (values : list Value) : outcome (list Value) :=
  if negb (header_pos <? header_len) then Ok values
  else
    match fuel with
    | O => Panic
    | S f =>
        s ← sub_from payload header_pos;
        ck ← ok_or (read_varint s) (Error_corrupt "record serial-type varint");
        let '(code, k) := ck : Z * Z in
        let header_pos := header_pos + k in
        let st := from_code code in
        let len := byte_len st in
        if 2 ^ 64 <=? body_pos + len then Err (Error_corrupt "record body overflow")
        else
          let end_ := body_pos + len in
          if zlen payload <? end_
          then Err (Error_corrupt "record body shorter than serial types imply")
          else
            b ← sub_range payload body_pos end_;
            v ← st_decode st b encoding;
            decode_loop f payload encoding header_len header_pos end_ (values ++ [v])
    end.

Definition decode_record (payload : bytes) (encoding : TextEncoding) : outcome (list Value) :=
  hl ← ok_or (read_varint payload) (Error_corrupt "record header length varint");
  let '(header_len, n0) := hl : Z * Z in
  if (zlen payload <? header_len) || (header_len <? n0)
  then Err (Error_corrupt "record header length out of range")
  else decode_loop (length payload) payload encoding header_len n0 header_len [].

(** [while varint_len(serial_bytes + hv) > hv { hv += 1 }]: a varint takes at
    most nine bytes. *)
Fixpoint header_varint_loop (fuel : nat) (serial_bytes hv : Z) : Z :=
  match fuel with
  | O => hv
  | S f => if hv <? varint_len (serial_bytes + hv) then header_varint_loop f serial_bytes (hv + 1)
           else hv
  end.

Definition zsum (l : list Z) : Z := fold_right Z.add 0 l.

Definition encode_record (values : list Value) : bytes :=
  let enc := st_encode <$> values in
  let serials := fst <$> enc in
  let bodies := snd <$> enc in
  let serial_bytes := zsum (varint_len ∘ st_code <$> serials) in
  let hv := header_varint_loop 9 serial_bytes 1 in
  let header_len := serial_bytes + hv in
  varint_bytes header_len ++ mjoin (varint_bytes ∘ st_code <$> serials) ++ mjoin bodies.

(** ** Integers in the record body *)

Lemma decode_step v x : byte_ok x -> Z.lor (i64 (Z.shiftl v 8)) x = i64 (v * 256 + x).
Proof.
  intros Hx. unfold byte_ok in Hx. rewrite Z.shiftl_mul_pow2 by lia. change (2 ^ 8) with 256.
  unfold i64, sext. change (2 ^ (64 - 1)) with (2 ^ 55 * 256). change (2 ^ 64) with (2 ^ 56 * 256).
  rewrite Z.mul_mod_distr_r by lia.
  assert ((v * 256 + x) mod (2 ^ 56 * 256) = v mod 2 ^ 56 * 256 + x) as ->.
  { rewrite (Z.mul_comm (2 ^ 56)), Z.rem_mul_r by lia.
    rewrite Z.div_add_l, (Z.div_small x), Z.add_0_r by lia.
    rewrite (Z.add_comm (v * 256)), Z.mod_add, (Z.mod_small x) by lia. lia. }
  pose proof (Z.mod_pos_bound v (2 ^ 56) ltac:(lia)) as Hr. set (r := v mod 2 ^ 56) in *.
  assert (forall q, Z.lor (q * 256) x = q * 256 + x) as Hlor.
  { intros q. pose proof (lor_shiftl_add q x 8 ltac:(lia) ltac:(lia)) as E.
    by rewrite Z.shiftl_mul_pow2 in E by lia. }
  destruct (Z.ltb_spec (r * 256) (2 ^ 55 * 256)), (Z.ltb_spec (r * 256 + x) (2 ^ 55 * 256)); try lia; [apply Hlor|].
  replace (r * 256 - 2 ^ 56 * 256) with ((r - 2 ^ 56) * 256) by lia. rewrite Hlor. lia.
Qed.

Lemma decode_fold v b : bytes_ok b ->
  i64 (fold_left (fun v x => Z.lor (i64 (Z.shiftl v 8)) x) b v) = i64 (v * 256 ^ zlen b + be_val b) /\
  (b <> [] -> is_i64 (fold_left (fun v x => Z.lor (i64 (Z.shiftl v 8)) x) b v)).
Proof.
  revert v. induction b as [|x b IH] using rev_ind; intros v Hb.
  - split; [|done]. rewrite be_val_nil. simpl. f_equal. unfold zlen. simpl. lia.
  - apply Forall_app in Hb as [Hb [Hx _]%Forall_cons_1]. rewrite fold_left_app. simpl.
    rewrite decode_step by done. destruct (IH v Hb) as [IHv _].
    set (w := fold_left _ b v) in *. split; [|intros _; by apply (sext_range 64)].
    rewrite be_val_snoc. replace (zlen (b ++ [x])) with (zlen b + 1) by len_lia.
    rewrite Z.pow_add_r, Z.pow_1_r by len_lia.
    replace (v * (256 ^ zlen b * 256) + (be_val b * 256 + x))
      with ((v * 256 ^ zlen b + be_val b) * 256 + x) by lia.
    assert (forall a, i64 (i64 a * 256 + x) = i64 (a * 256 + x)) as Hcong.
    { intros a. unfold i64. rewrite <- (sext_mod 64 (_ * 256 + x)), <- (sext_mod 64 (a * 256 + x)) by lia.
      f_equal. rewrite <- Z.add_mod_idemp_l, <- (Z.mul_mod_idemp_l (sext 64 a)) by lia.
      rewrite sext_unsigned by lia. by rewrite Z.mul_mod_idemp_l, Z.add_mod_idemp_l by lia. }
    rewrite <- (Hcong (v * 256 ^ zlen b + be_val b)), <- IHv, Hcong.
    unfold i64. by rewrite <- (sext_mod 64 (sext 64 _)), sext_unsigned, sext_mod by lia.
Qed.

Lemma decode_be_int_i64 b : bytes_ok b -> is_i64 (decode_be_int b).
Proof.
  intros Hb. unfold decode_be_int. destruct b as [|x b]; [done|]. by apply decode_fold.
Qed.

(** The loop is the big-endian two's complement reading of its bytes. *)
Lemma decode_be_int_sext b : bytes_ok b -> 1 <= zlen b <= 8 ->
  decode_be_int b = sext (8 * zlen b) (be_val b).
Proof.
  intros Hb Hl. destruct b as [|x b]; [unfold zlen in Hl; simpl in Hl; lia|].
  pose proof (be_val_range _ Hb) as Hr. pose proof Hb as [Hx Hb']%Forall_cons. unfold byte_ok in Hx.
  pose proof (be_val_range _ Hb') as Hr'. rewrite be_val_cons in *. rewrite zlen_cons in *.
  set (n := zlen b) in *. pose proof (zlen_nonneg b) as Hn. fold n in Hn.
  assert (256 ^ (1 + n) = 256 * 256 ^ n) as E256 by (rewrite Z.pow_add_r by lia; lia).
  assert (2 ^ (8 * (1 + n)) = 256 * 256 ^ n) as Ew.
  { rewrite Z.pow_mul_r by lia. change (2 ^ 8) with 256. done. }
  assert (2 ^ (8 * (1 + n) - 1) = 128 * 256 ^ n) as Ew1.
  { replace (8 * (1 + n) - 1) with (7 + 8 * n) by lia. rewrite Z.pow_add_r by lia.
    rewrite (Z.pow_mul_r 2 8) by lia. done. }
  assert (256 ^ n <= 256 ^ 7) as H7 by (apply Z.pow_le_mono_r; lia). change (256 ^ 7) with (2 ^ 56) in H7.
  unfold sext. rewrite Ew, Ew1, Z.mod_small by lia.
  pose proof (decode_fold (if Z.land x 128 =? 0 then 0 else -1) (x :: b) Hb) as [Hv Hi].
  unfold decode_be_int. specialize (Hi ltac:(done)).
  set (w := fold_left _ _ _) in *. unfold i64 in Hv. rewrite (sext_small 64 w) in Hv by (done || lia).
  rewrite Hv, zlen_cons, be_val_cons. fold n. rewrite E256, land_80 by done.
  destruct (Z.ltb_spec x 128).
  - rewrite sext_small by (change (2 ^ (64 - 1)) with (2 ^ 55 * 256); nia).
    destruct (Z.ltb_spec (x * 256 ^ n + be_val b) (128 * 256 ^ n)); nia.
  - rewrite sext_small by (change (2 ^ (64 - 1)) with (2 ^ 55 * 256); nia).
    destruct (Z.ltb_spec (x * 256 ^ n + be_val b) (128 * 256 ^ n)); nia.
Qed.

Lemma decode_be_bytes n i : (1 <= n <= 8)%nat ->
  - 2 ^ (8 * Z.of_nat n - 1) <= i < 2 ^ (8 * Z.of_nat n - 1) ->
  decode_be_int (be_bytes n i) = i.
Proof.
  intros Hn Hi. rewrite decode_be_int_sext by (auto using bytes_ok_be_bytes; len_lia).
  rewrite zlen_be_bytes, be_val_be_bytes. replace (256 ^ Z.of_nat n) with (2 ^ (8 * Z.of_nat n)).
  - rewrite sext_mod by lia. apply sext_small; lia.
  - by rewrite Z.pow_mul_r by lia.
Qed.

Lemma be_bytes_sext n w x : (8 * Z.of_nat n <= w) -> 0 < w -> be_bytes n (sext w x) = be_bytes n x.
Proof.
  intros Hn Hw. rewrite <- (be_bytes_mod n (sext w x)), <- (be_bytes_mod n x). f_equal.
  replace (256 ^ Z.of_nat n) with (2 ^ (8 * Z.of_nat n)) by (by rewrite Z.pow_mul_r by lia).
  assert (2 ^ w = 2 ^ (8 * Z.of_nat n) * 2 ^ (w - 8 * Z.of_nat n)) as E
    by (rewrite <- Z.pow_add_r by lia; f_equal; lia).
  rewrite <- (Z.mod_mod_divide (sext w x) (2 ^ w)), <- (Z.mod_mod_divide x (2 ^ w))
    by (exists (2 ^ (w - 8 * Z.of_nat n)); lia).
  by rewrite sext_unsigned by lia.
Qed.

Lemma zslice_be_tail3 x : zslice 1 4 (be_bytes 4 x) = be_bytes 3 x.
Proof. rewrite be_bytes_cons. unfold zslice, zdrop. simpl drop. apply ztake_all. len_lia. Qed.
Lemma zslice_be_tail6 x : zslice 2 8 (be_bytes 8 x) = be_bytes 6 x.
Proof. rewrite !be_bytes_cons. unfold zslice, zdrop. simpl drop. apply ztake_all. len_lia. Qed.

(** What [encode_int] picks, with the bytes in normal form. *)
Lemma encode_int_spec i : is_i64 i ->
  (i = 0 /\ encode_int i = (ST_Const0, [])) \/ (i = 1 /\ encode_int i = (ST_Const1, [])) \/
  exists n st, encode_int i = (st, be_bytes n i) /\ (1 <= n <= 8)%nat /\
    byte_len st = Z.of_nat n /\ In st [ST_I8; ST_I16; ST_I24; ST_I32; ST_I48; ST_I64] /\
    - 2 ^ (8 * Z.of_nat n - 1) <= i < 2 ^ (8 * Z.of_nat n - 1).
Proof.
  intros Hi. unfold is_i64 in Hi. unfold encode_int, in_range.
  destruct (Z.eqb_spec i 0); [by left|]. destruct (Z.eqb_spec i 1); [right; by left|]. right; right.
  destruct (Z.leb_spec (-0x80) i), (Z.leb_spec i 0x7f); cbn [andb];
    try (exists 1%nat, ST_I8; simpl; split_and!; try lia; auto; done).
  all: destruct (Z.leb_spec (-0x8000) i), (Z.leb_spec i 0x7fff); cbn [andb];
    try (exists 2%nat, ST_I16; unfold i16; rewrite be_bytes_sext by lia; simpl; split_and!; try lia; auto; done).
  all: destruct (Z.leb_spec (-0x800000) i), (Z.leb_spec i 0x7fffff); cbn [andb];
    try (exists 3%nat, ST_I24; unfold i32; rewrite zslice_be_tail3, be_bytes_sext by lia; simpl;
         split_and!; try lia; auto; done).
  all: destruct (Z.leb_spec (-0x80000000) i), (Z.leb_spec i 0x7fffffff); cbn [andb];
    try (exists 4%nat, ST_I32; unfold i32; rewrite be_bytes_sext by lia; simpl; split_and!; try lia; auto 10; done).
  all: destruct (Z.leb_spec (-0x800000000000) i), (Z.leb_spec i 0x7fffffffffff); cbn [andb];
    try (exists 6%nat, ST_I48; rewrite zslice_be_tail6; simpl; split_and!; try lia; auto 10; done).
  all: exists 8%nat, ST_I64; simpl; split_and!; try lia; auto 10.
Qed.

(** ** Serial type codes *)

Lemma from_code_ge n : 12 <= n ->
  from_code n = if n mod 2 =? 0 then ST_Blob ((n - 12) / 2) else ST_Text ((n - 13) / 2).
Proof.
  intros Hn. destruct n as [|p|p]; [lia| |lia].
  do 4 (destruct p as [p|p|]; try reflexivity; try lia).
Qed.

Lemma from_code_blob n : 0 <= n -> from_code (12 + n * 2) = ST_Blob n.
Proof.
  intros. rewrite from_code_ge by lia. replace (12 + n * 2) with (0 + (6 + n) * 2) by lia.
  rewrite Z.mod_add by lia. simpl. f_equal.
  replace (0 + (6 + n) * 2 - 12) with (n * 2) by lia. by apply Z.div_mul.
Qed.
Lemma from_code_text n : 0 <= n -> from_code (13 + n * 2) = ST_Text n.
Proof.
  intros. rewrite from_code_ge by lia. replace (13 + n * 2) with (1 + (6 + n) * 2) by lia.
  rewrite Z.mod_add by lia. simpl. f_equal.
  replace (1 + (6 + n) * 2 - 13) with (n * 2) by lia. by apply Z.div_mul.
Qed.

Lemma from_code_nonneg n : 0 <= n -> 0 <= byte_len (from_code n) <= Z.max 8 n.
Proof.
  intros Hn. destruct (Z_lt_le_dec n 12).
  - destruct n as [|p|p]; [done| |lia].
    do 4 (destruct p as [p|p|]; try done; try lia).
  - rewrite from_code_ge by done. destruct (_ =? _) eqn:E; simpl.
    + pose proof (Z.div_pos (n - 12) 2). pose proof (Z.div_le_upper_bound (n - 12) 2 n). lia.
    + assert (n <> 12) by (intros ->; done).
      pose proof (Z.div_pos (n - 13) 2). pose proof (Z.div_le_upper_bound (n - 13) 2 n). lia.
Qed.

(** What the encoder promises the decoder about one column. *)
Record column_ok (v : Value) (st : SerialType) (b : bytes) : Prop := {
  col_code : from_code (st_code st) = st;
  col_code_range : 0 <= st_code st <= 13 + 2 * zlen b;
  col_len : byte_len st = zlen b;
  col_bytes : bytes_ok b;
  col_decode : st_decode st b Utf8 = Ok v
}.

Lemma st_encode_ok v : value_ok v -> column_ok v (fst (st_encode v)) (snd (st_encode v)).
Proof.
  destruct v as [|i|r|s|b]; simpl; intros Hv.
  - by split.
  - destruct (encode_int_spec i Hv) as [[-> ->]|[[-> ->]|(n & st & -> & Hn & Hl & Hst & Hi)]];
      [by split..|]. simpl.
    assert (zlen (be_bytes n i) = Z.of_nat n) as Hz by len_lia.
    assert (st_decode st (be_bytes n i) Utf8 = Ok (Int i)) as Hd.
    { unfold st_decode. rewrite Hz, Hl, Z.eqb_refl. simpl.
      repeat destruct Hst as [<-|Hst]; try done; by rewrite decode_be_bytes. }
    split; auto using bytes_ok_be_bytes; try congruence.
    + by repeat destruct Hst as [<-|Hst].
    + rewrite Hz. repeat destruct Hst as [<-|Hst]; simpl; (lia || done).
  - split; try done; auto using bytes_ok_be_bytes. simpl. unfold st_decode.
    change (zlen (be_bytes 8 r)) with 8. simpl. unfold be_uint.
    change (zlen (be_bytes 8 r) =? 8) with true. simpl. by rewrite be_val_be_bytes_small.
  - destruct Hv as [Hs Hv]. split; simpl; try done; try len_lia.
    + by rewrite from_code_text by apply zlen_nonneg.
    + unfold st_decode. simpl. rewrite Z.eqb_refl. simpl. by rewrite from_utf8_lossy_valid.
  - split; simpl; try done; try len_lia.
    + by rewrite from_code_blob by apply zlen_nonneg.
    + unfold st_decode. simpl. by rewrite Z.eqb_refl.
Qed.

(** ** The header length *)

Lemma header_varint_loop_spec fuel sb hv :
  0 <= sb < 2 ^ 63 -> 1 <= hv -> Z.of_nat fuel + hv = 10 -> hv <= varint_len (sb + hv) ->
  let r := header_varint_loop fuel sb hv in varint_len (sb + r) = r /\ 1 <= r <= 9.
Proof.
  revert hv. induction fuel as [|f IH]; intros hv Hsb Hhv Hf Hle; cbn [header_varint_loop].
  - pose proof (varint_len_range (sb + hv) ltac:(unfold is_u64; lia)). lia.
  - pose proof (varint_len_range (sb + hv) ltac:(unfold is_u64; lia)).
    destruct (Z.ltb_spec hv (varint_len (sb + hv))); [|simpl; lia].
    apply IH; [done|lia|lia|].
    pose proof (varint_len_mono (sb + hv) (sb + (hv + 1)) ltac:(unfold is_u64; lia)
      ltac:(unfold is_u64; lia)). lia.
Qed.

(** ** Decoding what was encoded *)

Definition serials_of (vs : list Value) : bytes :=
  mjoin ((fun v => varint_bytes (st_code (fst (st_encode v)))) <$> vs).
Definition bodies_of (vs : list Value) : bytes := mjoin ((fun v => snd (st_encode v)) <$> vs).

Lemma serials_of_cons v vs :
  serials_of (v :: vs) = varint_bytes (st_code (fst (st_encode v))) ++ serials_of vs.
Proof. done. Qed.
Lemma bodies_of_cons v vs : bodies_of (v :: vs) = snd (st_encode v) ++ bodies_of vs.
Proof. done. Qed.

Lemma serials_of_ok vs : bytes_ok (serials_of vs).
Proof. induction vs; [constructor|]. rewrite serials_of_cons. apply Forall_app; auto using varint_bytes_ok. Qed.
Lemma bodies_of_ok vs : Forall value_ok vs -> bytes_ok (bodies_of vs).
Proof.
  induction 1; [constructor|]. rewrite bodies_of_cons. apply Forall_app; split; [|done].
  by apply st_encode_ok.
Qed.

Lemma sub_from_app {A} (l1 l2 : list A) : sub_from (l1 ++ l2) (zlen l1) = Ok l2.
Proof.
  unfold sub_from. rewrite get_from_in by len_lia. simpl.
  rewrite zdrop_app_ge, zdrop_0 by lia. done.
Qed.
Lemma sub_range_app_mid {A} (l1 l2 l3 : list A) :
  sub_range (l1 ++ l2 ++ l3) (zlen l1) (zlen l1 + zlen l2) = Ok l2.
Proof. rewrite sub_range_in by len_lia. by rewrite zslice_app3. Qed.

Lemma decode_loop_spec vs fuel A B acc :
  Forall value_ok vs -> bytes_ok A -> bytes_ok B ->
  zlen (A ++ serials_of vs ++ B ++ bodies_of vs) < 2 ^ 62 -> (length (serials_of vs) <= fuel)%nat ->
  decode_loop fuel (A ++ serials_of vs ++ B ++ bodies_of vs) Utf8
    (zlen A + zlen (serials_of vs)) (zlen A) (zlen A + zlen (serials_of vs) + zlen B) acc
  = Ok (acc ++ vs).
Proof.
  revert fuel A B acc. induction vs as [|v vs IH]; intros fuel A B acc Hvs HA HB Hlen Hf.
  - change (serials_of []) with (@nil Z). rewrite zlen_nil, Z.add_0_r.
    destruct fuel; cbn [decode_loop]; rewrite Z.ltb_irrefl; simpl; by rewrite app_nil_r.
  - apply Forall_cons in Hvs as [Hv Hvs]. rewrite serials_of_cons, bodies_of_cons in *.
    pose proof (st_encode_ok v Hv) as [Hfc Hcr Hbl Hbok Hdec].
    destruct (st_encode v) as [st b]. cbn [fst snd] in *.
    set (S := serials_of vs) in *. set (D := bodies_of vs) in *.
    assert (is_u64 (st_code st)) as Hu by (unfold is_u64; len_lia).
    pose proof (zlen_varint_bytes _ Hu) as Hzl. pose proof (varint_len_range _ Hu).
    pose proof (serials_of_ok vs) as HS. fold S in HS.
    pose proof (bodies_of_ok vs Hvs) as HD. fold D in HD.
    destruct fuel as [|fuel].
    { rewrite length_app in Hf. unfold zlen in Hzl. lia. }
    cbn [decode_loop].
    destruct (Z.ltb_spec (zlen A) (zlen A + zlen (varint_bytes (st_code st) ++ S))); [|len_lia]. simpl.
    rewrite sub_from_app, <- !app_assoc. simpl.
    rewrite read_varint_app by (done || (rewrite !Forall_app; auto)). simpl.
    rewrite Hfc, Hbl.
    set (BP := zlen A + zlen (varint_bytes (st_code st) ++ S) + zlen B).
    assert (BP = zlen (A ++ varint_bytes (st_code st) ++ S ++ B)) as HBP
      by (unfold BP; rewrite !zlen_app; lia).
    destruct (Z.leb_spec (2 ^ 64) (BP + zlen b)); [len_lia|].
    destruct (Z.ltb_spec (zlen (A ++ varint_bytes (st_code st) ++ S ++ B ++ b ++ D)) (BP + zlen b));
      [len_lia|].
    replace (A ++ varint_bytes (st_code st) ++ S ++ B ++ b ++ D)
      with ((A ++ varint_bytes (st_code st) ++ S ++ B) ++ b ++ D) by (rewrite <- !app_assoc; done).
    rewrite HBP, sub_range_app_mid. simpl. rewrite Hdec. simpl. rewrite <- HBP.
    replace ((A ++ varint_bytes (st_code st) ++ S ++ B) ++ b ++ D)
      with ((A ++ varint_bytes (st_code st)) ++ S ++ (B ++ b) ++ D) by (rewrite <- !app_assoc; done).
    rewrite <- Hzl, <- (zlen_app A (varint_bytes (st_code st))).
    replace (zlen A + zlen (varint_bytes (st_code st) ++ S))
      with (zlen (A ++ varint_bytes (st_code st)) + zlen S) by (rewrite !zlen_app; lia).
    replace (BP + zlen b) with (zlen (A ++ varint_bytes (st_code st)) + zlen S + zlen (B ++ b))
      by (unfold BP; rewrite !zlen_app; lia).
    replace (acc ++ v :: vs) with ((acc ++ [v]) ++ vs) by (rewrite <- app_assoc; done).
    apply IH; auto using Forall_app_2, varint_bytes_ok.
    + rewrite !zlen_app in *. lia.
    + rewrite length_app in Hf. unfold zlen in Hzl. fold S. lia.
Qed.

Lemma zsum_varint_len vs : Forall value_ok vs -> zlen (bodies_of vs) < 2 ^ 62 ->
  zsum (varint_len ∘ st_code <$> (fst <$> (st_encode <$> vs))) = zlen (serials_of vs).
Proof.
  induction 1 as [|v vs Hv Hvs IH]; intros Hlen; [done|].
  rewrite serials_of_cons, bodies_of_cons in *. pose proof (st_encode_ok v Hv) as [_ Hcr _ _ _].
  change (varint_len (st_code (fst (st_encode v))) +
    zsum (varint_len ∘ st_code <$> (fst <$> (st_encode <$> vs))) =
    zlen (varint_bytes (st_code (fst (st_encode v))) ++ serials_of vs)).
  by rewrite zlen_app, IH, zlen_varint_bytes by (unfold is_u64; len_lia).
Qed.

Lemma encode_record_len vs :
  zlen (serials_of vs) + zlen (bodies_of vs) <= zlen (encode_record vs).
Proof.
  unfold encode_record. rewrite <- !list_fmap_compose, !zlen_app.
  pose proof (zlen_nonneg (varint_bytes (zsum ((varint_len ∘ st_code) ∘ (fst ∘ st_encode) <$> vs) +
    header_varint_loop 9 (zsum ((varint_len ∘ st_code) ∘ (fst ∘ st_encode) <$> vs)) 1))).
  unfold serials_of, bodies_of, compose in *. lia.
Qed.

Lemma encode_record_eq vs : Forall value_ok vs -> zlen (encode_record vs) < 2 ^ 61 ->
  exists hv, 1 <= hv <= 9 /\ varint_len (zlen (serials_of vs) + hv) = hv /\
    encode_record vs = varint_bytes (zlen (serials_of vs) + hv) ++ serials_of vs ++ bodies_of vs.
Proof.
  intros Hvs Hlen. pose proof (encode_record_len vs).
  assert (zlen (serials_of vs) + zlen (bodies_of vs) < 2 ^ 61) by lia. clear Hlen.
  pose proof (zlen_nonneg (serials_of vs)). pose proof (zlen_nonneg (bodies_of vs)).
  unfold encode_record in *. rewrite zsum_varint_len by (done || len_lia).
  destruct (header_varint_loop_spec 9 (zlen (serials_of vs)) 1) as [Hl Hr]; [lia|lia|lia| |].
  { apply varint_len_range. unfold is_u64. lia. }
  eexists; split; [exact Hr|]. split; [exact Hl|].
  f_equal. f_equal; unfold serials_of, bodies_of; f_equal; by rewrite <- !list_fmap_compose.
Qed.

(** ** Decoding arbitrary bytes *)

Lemma utf16_units_ok big b : bytes_ok b -> Forall is_u16 (utf16_units big b).
Proof.
  intros Hb. remember (length b) as n eqn:Hn. assert (length b <= n)%nat as Hle by lia. clear Hn.
  revert b Hb Hle. induction n as [|n IH]; intros [|x [|y b]] Hb Hle; simpl in *; try lia; try constructor.
  - apply Forall_cons in Hb as [Hx [Hy _]%Forall_cons]. unfold byte_ok, is_u16 in *. destruct big; lia.
  - apply Forall_cons in Hb as [_ [_ Hb]%Forall_cons]. apply IH; [done|lia].
Qed.

Lemma st_decode_safe st b enc v : byte_len st = zlen b -> bytes_ok b ->
  no_panic (st_decode st b enc) /\ (st_decode st b enc = Ok v -> value_ok v) /\
  (forall e, st_decode st b enc = Err e -> code e = RC_Corrupt).
Proof.
  intros Hl Hb. unfold st_decode. rewrite <- Hl, Z.eqb_refl. simpl.
  pose proof (decode_be_int_i64 b Hb).
  destruct st; cbn [byte_len] in Hl; try (split_and!; [done|by intros [= <-]|done]).
  - unfold be_uint. rewrite <- Hl. simpl. split_and!; [done| |done]. intros [= <-].
    pose proof (be_val_range b Hb) as Hr. rewrite <- Hl in Hr. exact Hr.
  - split_and!; [done..|]. by intros e [= <-].
  - split_and!; [done| |done]. intros [= <-]. simpl. destruct enc; simpl.
    + split; [by apply from_utf8_lossy_ok|apply from_utf8_lossy_is_valid].
    + split; [apply from_utf16_lossy_ok|apply from_utf16_lossy_valid]; by apply utf16_units_ok.
    + split; [apply from_utf16_lossy_ok|apply from_utf16_lossy_valid]; by apply utf16_units_ok.
Qed.

Lemma bytes_ok_sub_range b i j s : bytes_ok b -> sub_range b i j = Ok s -> bytes_ok s.
Proof. intros Hb (?&?&?&->)%sub_range_ok. auto with bytes. Qed.

Lemma decode_loop_safe fuel p enc hl hp bp acc :
  bytes_ok p -> 0 <= hp -> hl <= zlen p -> hl <= bp <= zlen p ->
  hl - hp <= Z.of_nat fuel -> Forall value_ok acc ->
  no_panic (decode_loop fuel p enc hl hp bp acc) /\
  (forall vs, decode_loop fuel p enc hl hp bp acc = Ok vs -> Forall value_ok vs) /\
  (forall e, decode_loop fuel p enc hl hp bp acc = Err e -> code e = RC_Corrupt).
Proof.
  intros Hb. revert hp bp acc. induction fuel as [|f IH]; intros hp bp acc Hhp Hhl Hbp Hf Hacc;
    cbn [decode_loop]; destruct (Z.ltb_spec hp hl); simpl negb; cbn iota;
    try (split_and!; [done|by intros ? [= <-]|done]); [lia|].
  unfold sub_from. rewrite get_from_in by lia. simpl.
  destruct (read_varint (zdrop hp p)) as [[c k]|] eqn:Hr; simpl;
    [|split_and!; [done..|by intros ? [= <-]]].
  apply read_varint_inv in Hr as (Hk & _ & Hc & _); [|auto with bytes].
  unfold is_u64 in Hc. pose proof (from_code_nonneg c ltac:(lia)) as Hl.
  destruct (Z.leb_spec (2 ^ 64) (bp + byte_len (from_code c))); [split_and!; [done..|by intros ? [= <-]]|].
  destruct (Z.ltb_spec (zlen p) (bp + byte_len (from_code c))); [split_and!; [done..|by intros ? [= <-]]|].
  rewrite sub_range_in by lia. simpl.
  set (b := zslice _ _ p). assert (bytes_ok b) as Hbb by (unfold b; auto with bytes).
  assert (byte_len (from_code c) = zlen b) as Hlb by (unfold b; rewrite zlen_zslice by lia; lia).
  destruct (st_decode (from_code c) b enc) as [v|e|] eqn:Hd;
    destruct (st_decode_safe (from_code c) b enc (if st_decode (from_code c) b enc is Ok w then w else Null) Hlb Hbb)
      as (Hnp & Hok & Her); rewrite Hd in *; simpl; try done.
  - apply IH; [lia|done|lia|lia|]. apply Forall_app; split; [done|]. constructor; auto.
  - split_and!; [done..|]. intros ? [= <-]. by apply Her.
Qed.

(** ** Properties *)

(** C21: [decode_record] inverts [encode_record] on every list of values the
    engine can hold (of less than 2^61 bytes): integers come back whatever
    width was chosen for them, reals bit for bit, text and blobs byte for
    byte, and the self-referential header length is resolved. *)
Theorem record_roundtrip vs (Hvs : Forall value_ok vs) (Hlen : zlen (encode_record vs) < 2 ^ 61) :
  decode_record (encode_record vs) Utf8 = Ok vs /\ bytes_ok (encode_record vs).
Proof.
  destruct (encode_record_eq vs Hvs Hlen) as (hv & Hhv & Hl & E).
  pose proof (encode_record_len vs). rewrite E in *.
  pose proof (zlen_nonneg (serials_of vs)). pose proof (zlen_nonneg (bodies_of vs)).
  set (hl := zlen (serials_of vs) + hv) in *.
  assert (is_u64 hl) as Hu by (unfold is_u64, hl; lia).
  pose proof (zlen_varint_bytes hl Hu) as Hz.
  pose proof (serials_of_ok vs) as HS. pose proof (bodies_of_ok vs Hvs) as HB.
  split; [|rewrite !Forall_app; auto using varint_bytes_ok].
  unfold decode_record. rewrite read_varint_app by (done || (apply Forall_app; done)). simpl.
  destruct (Z.ltb_spec (zlen (varint_bytes hl ++ serials_of vs ++ bodies_of vs)) hl);
    [rewrite !zlen_app in *; lia|].
  destruct (Z.ltb_spec hl (varint_len hl)); [lia|]. simpl.
  pose proof (decode_loop_spec vs (length (varint_bytes hl ++ serials_of vs ++ bodies_of vs))
    (varint_bytes hl) [] [] Hvs (varint_bytes_ok hl) ltac:(constructor)) as D. simpl app in D.
  rewrite zlen_nil, Z.add_0_r, Hz in D.
  replace (varint_len hl + zlen (serials_of vs)) with hl in D by lia.
  apply D; [lia|]. rewrite !length_app. lia.
Qed.
Lemma record_roundtrip_witness :
  let vs := [Null; Int 0; Int (-1); Int 100000; Real 0x4004000000000000; Text [0x68; 0x69]; Blob [0xde; 0xad]] in
  decode_record (encode_record vs) Utf8 = Ok vs /\ bytes_ok (encode_record vs).
Proof.
  intros vs. apply (record_roundtrip vs).
  - unfold vs. repeat constructor; unfold is_i64, is_u64, byte_ok; lia.
  - vm_compute. reflexivity.
Defined.

(** C30: [decode_record] is total on arbitrary bytes: it terminates without
    panicking, every value it returns satisfies the invariants of the Rust
    types (valid UTF-8 text, in-range integers), and its only error is
    [SQLITE_CORRUPT]. *)
Theorem decode_record_safe p enc (Hb : bytes_ok p) :
  no_panic (decode_record p enc) /\
  (forall vs, decode_record p enc = Ok vs -> Forall value_ok vs) /\
  (forall e, decode_record p enc = Err e -> code e = RC_Corrupt).
Proof.
  unfold decode_record.
  destruct (read_varint p) as [[hl n0]|] eqn:Hr; simpl; [|split_and!; [done..|by intros ? [= <-]]].
  apply read_varint_inv in Hr as (Hk & Hkl & Hc & _); [|done].
  destruct (Z.ltb_spec (zlen p) hl), (Z.ltb_spec hl n0); simpl;
    try (split_and!; [done..|by intros ? [= <-]]).
  apply decode_loop_safe; [done|lia|lia|lia|unfold zlen in *; lia|constructor].
Qed.
Lemma decode_record_safe_witness :
  let p := [3; 0x19; 1; 0xff; 0x41] in
  no_panic (decode_record p Utf16Le) /\
  (forall vs, decode_record p Utf16Le = Ok vs -> Forall value_ok vs) /\
  (forall e, decode_record p Utf16Le = Err e -> code e = RC_Corrupt).
Proof. intros p. apply decode_record_safe. repeat constructor; unfold byte_ok; lia. Defined.

(** The library's own layout tests. *)
Example record_empty : encode_record [] = [0x01].
Proof. reflexivity. Qed.
Example record_text_abc : encode_record [Text [97; 98; 99]] = [0x02; 0x13; 97; 98; 99].
Proof. reflexivity. Qed.
Example record_short_body : decode_record [2; 4; 0] Utf8
  = Err (Error_corrupt "record body shorter than serial types imply").
Proof. reflexivity. Qed.
