(* ===== verification/JsonText.v ===== *)
(** * JSON texts and trees

    The parser of [Json] never panics: every index it takes is in range and
    its loops end, so that a text is either a tree or an error. Reading the
    rendering of a tree without reals gives the tree back. *)

From S2P Require Import Prelude Utf8 Str Float64 Value Fp FloatOps NumberText Json Record.
#[local] Open Scope Z_scope.

(** ** Code over the parser that does not panic *)

Section Safe.
Context (input : bytes) (d0 : Z).

Definition safe {A} (m : PJ A) (p : Parser) (Q : A -> Parser -> Prop) : Prop :=
  match m p with (Ok a, p') => Q a p' | (Err _, _) => True | (Panic, _) => False end.
Lemma safe_ret {A} (a : A) p (Q : A -> Parser -> Prop) : Q a p -> safe (mret a) p Q.
Proof. done. Qed.
Lemma safe_bad {A} msg p (Q : A -> Parser -> Prop) : safe (bad msg) p Q.
Proof. done. Qed.
Lemma safe_bind {A B} (m : PJ A) (f : A -> PJ B) p (Q : B -> Parser -> Prop) :
  safe m p (fun a p' => safe (f a) p' Q) -> safe (m ≫= f) p Q.
Proof. unfold safe, mbind, M_bind. destruct (m p) as [[a|e|] p']; done. Qed.
Lemma safe_weaken {A} (m : PJ A) p (Q R : A -> Parser -> Prop) :
  safe m p Q -> (forall a p', Q a p' -> R a p') -> safe m p R.
Proof. unfold safe. destruct (m p) as [[a|e|] p']; auto. Qed.
Lemma safe_peek p (Q : option Z -> Parser -> Prop) : Q (zget input (j_pos p)) p -> safe (peek input) p Q.
Proof. done. Qed.
Lemma safe_pos p (Q : Z -> Parser -> Prop) : Q (j_pos p) p -> safe pos p Q.
Proof. done. Qed.
Lemma safe_adv n p (Q : unit -> Parser -> Prop) : Q tt (mkParser (j_pos p + n) (j_depth p)) -> safe (adv n) p Q.
Proof. done. Qed.
Lemma safe_lift_ok {A} (o : outcome A) p (Q : A -> Parser -> Prop) a : o = Ok a -> Q a p -> safe (lift o) p Q.
Proof. by intros ->. Qed.

(** At depth [d0]; [p'] is [k] bytes or more after [p], inside the input. *)
Definition inside (p : Parser) : Prop := 0 <= j_pos p <= zlen input /\ j_depth p = d0.
Definition past (k : Z) (p p' : Parser) : Prop :=
  j_pos p + k <= j_pos p' <= zlen input /\ j_depth p' = j_depth p.
(** [m] moves on by [k] or more. *)
Definition moves {A} (k : Z) (m : PJ A) : Prop := forall p, inside p -> safe m p (fun _ p' => past k p p').

Lemma past_trans k l p q r : past k p q -> past l q r -> past (k + l) p r.
Proof. unfold past. intros [? ?] [? ?]. split; [lia|congruence]. Qed.
Lemma past_inside k p q : 0 <= k -> inside p -> past k p q -> inside q.
Proof. unfold past, inside. lia. Qed.
Lemma past_refl p : inside p -> past 0 p p.
Proof. unfold past, inside. split; [lia|done]. Qed.

Lemma moves_bind {A B} k l (m : PJ A) (f : A -> PJ B) : 0 <= k -> 0 <= l ->
  moves k m -> (forall a, moves l (f a)) -> moves (k + l) (m ≫= f).
Proof.
  intros Hk Hl Hm Hf p Hp. apply safe_bind. eapply safe_weaken; [by apply Hm|]. intros a q Hq. cbn in Hq.
  eapply safe_weaken; [by apply Hf, (past_inside k p)|]. intros b r Hr. by eapply past_trans.
Qed.
Lemma moves_ret {A} (a : A) : moves 0 (mret a).
Proof. intros p Hp. apply safe_ret. by apply past_refl. Qed.
Lemma moves_bad {A} k msg : moves (A := A) k (bad msg).
Proof. intros p Hp. apply safe_bad. Qed.
Lemma moves_weaken {A} k l (m : PJ A) : l <= k -> moves k m -> moves l m.
Proof.
  intros Hl Hm p Hp. eapply safe_weaken; [by apply Hm|]. intros a q. unfold past. intros [? ?]. split; [lia|done].
Qed.
(** Code that looks at the next byte; there is one when [Some]. *)
Lemma moves_peek {A} k (f : option Z -> PJ A) :
  (forall p b, inside p -> zget input (j_pos p) = Some b -> safe (f (Some b)) p (fun _ p' => past k p p')) ->
  moves k (f None) -> moves k (peek input ≫= f).
Proof.
  intros Hs Hn p Hp. apply safe_bind, safe_peek. destruct (zget input (j_pos p)) eqn:E; [by apply Hs|by apply Hn].
Qed.
(** After the byte just seen. *)
Lemma safe_next {A} k (m : PJ A) p b : inside p -> zget input (j_pos p) = Some b -> moves k m ->
  safe (_ ← adv 1; m) p (fun _ p' => past (1 + k) p p').
Proof.
  intros Hp Hb Hm. apply safe_bind, safe_adv. pose proof (zget_Some _ _ _ Hb).
  assert (past 1 p (mkParser (j_pos p + 1) (j_depth p))) as H1 by (unfold past; cbn; split; [lia|done]).
  eapply safe_weaken; [by apply Hm, (past_inside 1 p)|]. intros a q Hq. by eapply past_trans.
Qed.
Lemma safe_adv1 p b : inside p -> zget input (j_pos p) = Some b -> safe (adv 1) p (fun _ p' => past 1 p p').
Proof. intros Hp Hb. apply safe_adv. pose proof (zget_Some _ _ _ Hb). unfold past. cbn. split; [lia|done]. Qed.

Lemma skip_while_moves p0 f : forall p, inside p -> zlen input - j_pos p < Z.of_nat f ->
  safe (skip_while input p0 f) p (fun _ p' => past 0 p p').
Proof.
  induction f as [|f IH]; intros p Hp Hf; [unfold inside in Hp; lia|]. cbn [skip_while].
  apply safe_bind, safe_peek. destruct (zget input (j_pos p)) as [b|] eqn:E; [|by apply safe_ret, past_refl].
  destruct (p0 b); [|by apply safe_ret, past_refl]. apply safe_bind, safe_adv.
  pose proof (zget_Some _ _ _ E). eapply safe_weaken; [apply IH; unfold inside in *; cbn; lia|].
  intros a q. unfold past. cbn. intros [? ?]. split; [lia|done].
Qed.
Lemma skip_moves p0 : moves 0 (skip_while input p0 (loop_fuel input)).
Proof. intros p Hp. apply skip_while_moves; [done|]. unfold loop_fuel, inside, zlen in *. lia. Qed.
Lemma skip_ws_moves : moves 0 (skip_ws input).
Proof. apply skip_moves. Qed.

Lemma sub_range_moves {A} n (f : bytes -> PJ A) k p : inside p -> 0 <= n -> j_pos p + n <= zlen input ->
  (forall s, safe (f s) p (fun _ p' => past k p p')) ->
  safe (s ← lift (sub_range input (j_pos p) (j_pos p + n)); f s) p (fun _ p' => past k p p').
Proof.
  intros Hp Hn Hle Hf. apply safe_bind. eapply safe_lift_ok; [|apply Hf].
  unfold inside in Hp. apply sub_range_in; lia.
Qed.
Lemma safe_adv_n n p : inside p -> 0 <= n -> j_pos p + n <= zlen input -> safe (adv n) p (fun _ p' => past n p p').
Proof. intros. apply safe_adv. unfold past, inside in *. cbn. split; [lia|done]. Qed.

Lemma expect_moves b : moves 1 (expect_byte input b).
Proof.
  unfold expect_byte. apply moves_peek; [|apply moves_bad]. intros p c Hp Hc.
  case_bool_decide; [|apply safe_bad]. by eapply safe_adv1.
Qed.
Lemma literal_moves lit v : moves 0 (parse_literal input lit v).
Proof.
  intros p Hp. unfold parse_literal. apply safe_bind, safe_pos. destruct (Z.ltb_spec (zlen input) (j_pos p + zlen lit)); [done|].
  pose proof (zlen_nonneg lit).
  apply sub_range_moves; [done|lia..|]. intros s. case_bool_decide; [|apply safe_bad]. apply safe_bind, safe_adv, safe_ret.
  unfold past, inside in *. cbn. split; [lia|done].
Qed.
Lemma hex_moves : moves 4 (parse_4_hex input).
Proof.
  intros p Hp. unfold parse_4_hex. apply safe_bind, safe_pos. destruct (Z.ltb_spec (zlen input) (j_pos p + 4)); [done|].
  apply sub_range_moves; [done|lia..|]. intros s. apply safe_bind, safe_adv. destruct (hex_value 0 s); [|apply safe_bad].
  apply safe_ret. unfold past, inside in *. cbn. split; [lia|done].
Qed.
Lemma unicode_moves : moves 0 (parse_unicode input).
Proof.
  unfold parse_unicode. apply (moves_weaken (4 + 0)); [lia|]. apply moves_bind; [lia..|apply hex_moves|]. intros cp.
  destruct (_ && _).
  - apply moves_peek; [|apply moves_bad]. intros p b Hp Hb. case_bool_decide; [|apply safe_bad]. cbn [negb].
    eapply safe_weaken; [eapply (safe_next 0); [done..|]|by unfold past; intros ? ? [? ?]; split; [lia|]].
    apply moves_peek; [|apply moves_bad]. intros q c Hq Hc. case_bool_decide; [|apply safe_bad]. cbn [negb].
    eapply safe_weaken; [eapply (safe_next 0); [done..|]|by unfold past; intros ? ? [? ?]; split; [lia|]].
    apply (moves_weaken (4 + 0)); [lia|]. apply moves_bind; [lia..|apply hex_moves|]. intros lo.
    destruct (negb _); [apply moves_bad|]. case_match; [apply moves_ret|apply moves_bad].
  - destruct (_ && _); [apply moves_bad|]. case_match; [apply moves_ret|apply moves_bad].
Qed.

Lemma past_le k l p q : l <= k -> past k p q -> past l p q.
Proof. unfold past. intros ? [? ?]. split; [lia|done]. Qed.
Lemma span_zlen (f : Z -> bool) (s : bytes) : 0 <= zlen (fst (span f s)) <= zlen s.
Proof.
  split; [apply zlen_nonneg|]. induction s as [|b s IH]; cbn; [done|]. destruct (f b); [|apply (zlen_nonneg (b :: s))].
  destruct (span f s) as [x y]. cbn in *. rewrite !zlen_cons. lia.
Qed.

Lemma string_loop_moves f : forall out p, inside p -> zlen input - j_pos p < Z.of_nat f ->
  safe (string_loop input f out) p (fun _ p' => past 0 p p').
Proof.
  induction f as [|f IH]; intros out p Hp Hf; [unfold inside in Hp; lia|]. cbn [string_loop].
  (* any code that has moved on may go round again *)
  assert (forall k out q, 1 <= k -> past k p q -> safe (string_loop input f out) q (fun _ p' => past 0 p p')) as Hgo.
  { intros k out' q Hk Hq. pose proof (past_inside k _ _ ltac:(lia) Hp Hq) as Hi. unfold past in Hq.
    eapply safe_weaken; [apply IH; [done|lia]|]. intros a r Hr. cbn in Hr. unfold past in *. split; [lia|intuition congruence]. }
  apply safe_bind, safe_peek. destruct (zget input (j_pos p)) as [b|] eqn:E; [|apply safe_bad].
  destruct (b =? 34). { eapply safe_weaken; [eapply (safe_next 0); [done..|apply moves_ret]|]. intros ? ?. by apply past_le. }
  destruct (b =? 92).
  - apply safe_bind. eapply safe_weaken; [by eapply safe_adv1|]. intros [] q Hq. pose proof (past_inside 1 _ _ ltac:(lia) Hp Hq) as Hi.
    apply safe_bind, safe_peek. destruct (zget input (j_pos q)) as [esc|] eqn:E2; [|apply safe_bad].
    apply safe_bind. eapply safe_weaken; [by eapply safe_adv1|]. intros [] r Hr. pose proof (past_inside 1 _ _ ltac:(lia) Hi Hr) as Hi2.
    pose proof (past_trans _ _ _ _ _ Hq Hr) as Hpr.
    destruct (short_escape esc); [apply (Hgo (1 + 1)); [lia|done]|]. destruct (esc =? 117); [|apply safe_bad].
    apply safe_bind. eapply safe_weaken; [by apply unicode_moves|]. intros c t Ht. apply (Hgo (1 + 1 + 0)); [lia|by eapply past_trans].
  - destruct (b <? 0x20); [apply safe_bad|]. apply safe_bind, safe_pos. apply safe_bind.
    pose proof (zget_Some _ _ _ E). eapply safe_lift_ok.
    { unfold sub_from. by rewrite get_from_in by lia. }
    cbv zeta. match goal with |- context [sub_range input _ (_ + ?e)] => set (k := e) end.
    assert (1 <= k /\ j_pos p + k <= zlen input) as [Hk1 Hk2].
    { subst k. pose proof (span_zlen (fun b => 0x80 <=? b) (zdrop (j_pos p) input)) as Hs. rewrite zlen_zdrop in Hs.
      match goal with |- context [if ?c then _ else _] => destruct c eqn:Hc end; [|apply Z.eqb_neq in Hc]; lia. }
    apply sub_range_moves; [done|lia..|]. intros chunk. destruct (utf8_valid chunk); [|apply safe_bad].
    apply safe_bind. eapply safe_weaken; [apply (safe_adv_n k); (done || lia)|]. intros [] q Hq. by eapply Hgo.
Qed.
Lemma string_moves : moves 1 (parse_string input).
Proof.
  apply (moves_weaken (1 + 0)); [lia|]. apply moves_bind; [lia..|apply expect_moves|]. intros [] p Hp.
  apply string_loop_moves; [done|]. unfold loop_fuel, inside, zlen in *. lia.
Qed.

Lemma moves0_bind {A B} (m : PJ A) (f : A -> PJ B) : moves 0 m -> (forall a, moves 0 (f a)) -> moves 0 (m ≫= f).
Proof. intros. by apply (moves_bind 0 0). Qed.
(** A number is made of ASCII bytes: the slice it is parsed from is UTF-8. *)
Definition ascii (b : Z) : bool := (0 <=? b) && (b <? 128).
Lemma ascii_valid s : forallb ascii s = true -> utf8_valid s = true.
Proof.
  induction s as [|b s IH]; [done|]. cbn. intros [Hb Hs]%andb_true_iff. apply andb_true_iff in Hb as [Hb1%Z.leb_le Hb2%Z.ltb_lt].
  change (b :: s) with ([b] ++ s). eapply (utf8_valid_char [b] 1); [|done|by apply IH].
  cbn. by destruct (Z.ltb_spec b 128); [|lia].
Qed.
Definition over (p q : Parser) : Prop := past 0 p q /\ forallb ascii (zslice (j_pos p) (j_pos q) input) = true.
Definition reads {A} (m : PJ A) : Prop := forall p, inside p -> safe m p (fun _ q => over p q).
Lemma over_refl p : inside p -> over p p.
Proof. intros Hp. split; [by apply past_refl|]. unfold zslice. by rewrite Z.sub_diag, ztake_0 by lia. Qed.
Lemma over_trans p q r : inside p -> over p q -> over q r -> over p r.
Proof.
  intros Hp [[Hpq Hd] Ha] [[Hqr Hd'] Hb]. unfold inside in Hp. split; [split; [lia|congruence]|].
  replace (zslice (j_pos p) (j_pos r) input) with (zslice (j_pos p) (j_pos q) input ++ zslice (j_pos q) (j_pos r) input).
  { by rewrite forallb_app, Ha, Hb. }
  unfold zslice. rewrite <- (ztake_zdrop_id (j_pos q - j_pos p) (ztake (j_pos r - j_pos p) (zdrop (j_pos p) input))).
  f_equal; [rewrite ztake_ztake; f_equal; lia|]. rewrite zdrop_ztake, zdrop_zdrop by lia. f_equal; [lia|f_equal; lia].
Qed.
Lemma over_inside p q : inside p -> over p q -> inside q.
Proof. intros Hp [Hq _]. by eapply (past_inside 0). Qed.
Lemma reads_bind {A B} (m : PJ A) (f : A -> PJ B) : reads m -> (forall a, reads (f a)) -> reads (m ≫= f).
Proof.
  intros Hm Hf p Hp. apply safe_bind. eapply safe_weaken; [by apply Hm|]. intros a q Hq. cbn in Hq.
  eapply safe_weaken; [by apply Hf, (over_inside p)|]. intros b r Hr. by eapply over_trans.
Qed.
Lemma reads_ret {A} (a : A) : reads (mret a).
Proof. intros p Hp. apply safe_ret. by apply over_refl. Qed.
Lemma reads_bad {A} msg : reads (A := A) (bad msg).
Proof. intros p Hp. apply safe_bad. Qed.
Lemma over_next p b : inside p -> zget input (j_pos p) = Some b -> ascii b = true -> over p (mkParser (j_pos p + 1) (j_depth p)).
Proof.
  intros Hp Hb Ha. pose proof (zget_Some _ _ _ Hb). split; [unfold past; cbn; split; [lia|done]|].
  cbn. by rewrite (zget_zslice1 _ _ _ Hb); cbn; rewrite Ha.
Qed.
Lemma safe_read {A} (m : PJ A) p b : inside p -> zget input (j_pos p) = Some b -> ascii b = true -> reads m ->
  safe (_ ← adv 1; m) p (fun _ q => over p q).
Proof.
  intros Hp Hb Ha Hm. apply safe_bind, safe_adv. pose proof (over_next p b Hp Hb Ha) as Ho.
  eapply safe_weaken; [by apply Hm, (over_inside p)|]. intros a q Hq. by eapply over_trans.
Qed.
Lemma digit_ascii b : is_digit b = true -> ascii b = true.
Proof. unfold is_digit, ascii. intros [?%Z.leb_le ?%Z.leb_le]%andb_true_iff. apply andb_true_iff. rewrite Z.leb_le, Z.ltb_lt. lia. Qed.
Lemma digits_read : reads (skip_digits input).
Proof.
  unfold skip_digits. intros p Hp. assert (zlen input - j_pos p < Z.of_nat (loop_fuel input)) as Hf
    by (unfold loop_fuel, inside, zlen in *; lia).
  revert p Hp Hf. induction (loop_fuel input) as [|f IH]; intros p Hp Hf; [unfold inside in Hp; lia|]. cbn [skip_while].
  apply safe_bind, safe_peek. destruct (zget input (j_pos p)) as [b|] eqn:E; [|by apply reads_ret].
  destruct (is_digit b) eqn:Ed; [|by apply reads_ret]. apply safe_bind, safe_adv.
  pose proof (over_next p b Hp E (digit_ascii _ Ed)) as Ho. pose proof (zget_Some _ _ _ E).
  eapply safe_weaken; [apply IH; [by apply (over_inside p)|cbn; lia]|]. intros a q Hq. by eapply over_trans.
Qed.
Lemma peek_in_spec bs p : safe (peek_in input bs) p
  (fun r q => q = p /\ (r = true -> exists b, zget input (j_pos p) = Some b /\ b ∈ bs)).
Proof.
  apply safe_bind, safe_peek, safe_ret. split; [done|]. destruct (zget input (j_pos p)) as [b|]; [|done].
  case_bool_decide; [eauto|done].
Qed.
Lemma peek_digit_spec p : safe (peek_digit input) p (fun _ q => q = p).
Proof. by apply safe_bind, safe_peek, safe_ret. Qed.
(** A part that starts with one of the bytes [bs], if it is there. *)
Lemma optional_reads {A} bs (m1 m2 : PJ A) : forallb ascii bs = true -> reads m1 -> reads m2 ->
  reads (b ← peek_in input bs; if b : bool then _ ← adv 1; m1 else m2).
Proof.
  intros Ha H1 H2 p Hp. apply safe_bind. eapply safe_weaken; [apply peek_in_spec|]. intros b q [-> Hb].
  destruct b; [|by apply H2]. destruct (Hb eq_refl) as (c & Hc & Hin). eapply safe_read; [done..| |done].
  rewrite forallb_forall in Ha. by apply Ha, list_elem_of_In.
Qed.
Lemma sign_reads {A} bs (k : PJ A) : forallb ascii bs = true -> reads k ->
  reads (b ← peek_in input bs; _ ← (if b : bool then adv 1 else mret tt); k).
Proof.
  intros Ha Hk p Hp. pose proof (optional_reads bs k k Ha Hk Hk p Hp) as Ho.
  unfold safe, mbind, M_bind in *. by destruct (peek_in input bs p) as [[[|]|e|] q].
Qed.
Lemma digits_or_bad msg : reads (d ← peek_digit input; if d : bool then _ ← skip_digits input; mret true else bad msg).
Proof.
  intros p Hp. apply safe_bind. eapply safe_weaken; [apply peek_digit_spec|]. intros [] q ->; [|apply safe_bad].
  apply reads_bind; [apply digits_read|intros; apply reads_ret|done].
Qed.
Lemma frac_reads : reads (frac_part input).
Proof. apply optional_reads; [done|apply digits_or_bad|apply reads_ret]. Qed.
Lemma exp_reads : reads (exp_part input).
Proof. apply optional_reads; [done|by apply sign_reads, digits_or_bad|apply reads_ret]. Qed.
Lemma int_reads {A} msg (k : PJ A) : reads k ->
  reads (c ← peek input; _ ← (match c with
       | Some b => if b =? 48 then adv 1 else if is_digit b then _ ← adv 1; skip_digits input else bad msg
       | None => bad msg end); k).
Proof.
  intros Hk p Hp. apply safe_bind, safe_peek. destruct (zget input (j_pos p)) as [b|] eqn:E; [|apply safe_bad].
  destruct (Z.eqb_spec b 48) as [->|]; [by eapply safe_read|]. destruct (is_digit b) eqn:Ed; [|apply safe_bad].
  pose proof (safe_read (_ ← skip_digits input; k) p b Hp E (digit_ascii _ Ed) ltac:(apply reads_bind; [apply digits_read|done])) as Hs.
  done.
Qed.

Lemma scan_reads : reads (scan_number input).
Proof.
  apply sign_reads; [done|]. apply int_reads. apply reads_bind; [apply frac_reads|intros]. apply reads_bind; [apply exp_reads|intros].
  apply reads_ret.
Qed.
Lemma number_moves : moves 0 (parse_number input).
Proof.
  intros p Hp. unfold parse_number. apply safe_bind, safe_pos, safe_bind. eapply safe_weaken; [by apply scan_reads|].
  intros real q [[Hle Hd] Ha]. unfold inside in *. apply safe_bind, safe_pos, safe_bind.
  eapply safe_lift_ok; [by apply sub_range_in; lia|]. rewrite (ascii_valid _ Ha). apply safe_bind. eapply safe_lift_ok; [done|].
  cbv zeta. repeat case_match; try apply safe_bad; apply safe_ret; by split; [lia|].
Qed.

(** Steps of code that started at [p0] and has moved on by [k]. *)
Lemma go_bind {A B} k l p0 p (m : PJ A) (f : A -> PJ B) Q : 0 <= k -> inside p0 -> past k p0 p -> moves l m ->
  (forall a q, past (k + l) p0 q -> safe (f a) q Q) -> safe (m ≫= f) p Q.
Proof.
  intros Hk H0 Hp Hm Hf. apply safe_bind. eapply safe_weaken; [by apply Hm, (past_inside k p0)|].
  intros a q Hq. eapply Hf, past_trans; done.
Qed.
Lemma go_next {A} k p0 p b (m : PJ A) Q : past k p0 p -> zget input (j_pos p) = Some b ->
  (forall q, past (k + 1) p0 q -> safe m q Q) -> safe (_ ← adv 1; m) p Q.
Proof.
  intros Hp Hb Hm. apply safe_bind, safe_adv, Hm. pose proof (zget_Some _ _ _ Hb). unfold past in *. cbn. split; [lia|]. apply Hp.
Qed.
(** The loops go round after having moved on, and so end. *)
Lemma again {A} k p q f (loop : PJ A) : 1 <= k -> inside p -> past k p q ->
  zlen input - j_pos p < Z.of_nat (S f) ->
  (inside q -> zlen input - j_pos q < Z.of_nat f -> safe loop q (fun _ r => past 0 q r)) ->
  safe loop q (fun _ r => past 0 p r).
Proof.
  intros Hk Hp Hq Hf Hl. pose proof (past_inside k p q ltac:(lia) Hp Hq). pose proof Hq as [? _].
  eapply safe_weaken; [apply Hl; [done|lia]|].
  intros a r Hr. apply (past_le (k + 0)); [lia|]. by apply (past_trans _ _ p q).
Qed.

Ltac go := eapply go_bind; [|eassumption|eassumption|first [apply skip_ws_moves|apply string_moves|eassumption]|]; [lia|intros].
Ltac look E := apply safe_bind, safe_peek; case_bool_decide as E; cbn [negb]; try apply safe_bad.

Lemma object_loop_moves pv f : moves 0 pv -> forall es p, inside p -> zlen input - j_pos p < Z.of_nat f ->
  safe (object_loop input pv f es) p (fun _ p' => past 0 p p').
Proof.
  intros Hpv. induction f as [|f IH]; intros es p Hp Hf; [unfold inside in Hp; lia|]. cbn [object_loop].
  pose proof (past_refl p Hp) as H0. go. look E1. go. go. look E2. eapply go_next; [done..|]. intros. go. go. cbv zeta. go.
  apply safe_bind, safe_peek. case_bool_decide as E3; [|case_bool_decide as E4; [|apply safe_bad]].
  - eapply go_next; [done..|]. intros r Hr. eapply (again _ p r); [| |exact Hr|exact Hf|intros; by apply IH]; [lia|done].
  - eapply go_next; [done..|]. intros r Hr. apply safe_ret. eapply past_le, Hr. lia.
Qed.
Lemma array_loop_moves pv f : moves 0 pv -> forall l p, inside p -> zlen input - j_pos p < Z.of_nat f ->
  safe (array_loop input pv f l) p (fun _ p' => past 0 p p').
Proof.
  intros Hpv. induction f as [|f IH]; intros l p Hp Hf; [unfold inside in Hp; lia|]. cbn [array_loop].
  pose proof (past_refl p Hp) as H0. go. go. cbv zeta. go.
  apply safe_bind, safe_peek. case_bool_decide as E3; [|case_bool_decide as E4; [|apply safe_bad]].
  - eapply go_next; [done..|]. intros r Hr. eapply (again _ p r); [| |exact Hr|exact Hf|intros; by apply IH]; [lia|done].
  - eapply go_next; [done..|]. intros r Hr. apply safe_ret. eapply past_le, Hr. lia.
Qed.

Lemma object_moves pv : moves 0 pv -> moves 1 (parse_object input pv).
Proof.
  intros Hpv p Hp. unfold parse_object. pose proof (past_refl p Hp) as H0.
  eapply (go_bind 0 1); [lia|done..|apply expect_moves|]. intros. go. apply safe_bind, safe_peek. case_bool_decide as E1.
  - eapply go_next; [done..|]. intros r Hr. apply safe_ret. eapply past_le, Hr. lia.
  - assert (inside q0) as Hq by (by apply (past_inside (0 + 1 + 0) p)).
    eapply safe_weaken; [apply object_loop_moves; [done..|unfold loop_fuel, inside, zlen in *; lia]|].
    intros b r Hr. eapply past_trans in Hr; [|done]. by eapply past_le, Hr.
Qed.
Lemma array_moves pv : moves 0 pv -> moves 1 (parse_array input pv).
Proof.
  intros Hpv p Hp. unfold parse_array. pose proof (past_refl p Hp) as H0.
  eapply (go_bind 0 1); [lia|done..|apply expect_moves|]. intros. go. apply safe_bind, safe_peek. case_bool_decide as E1.
  - eapply go_next; [done..|]. intros r Hr. apply safe_ret. eapply past_le, Hr. lia.
  - assert (inside q0) as Hq by (by apply (past_inside (0 + 1 + 0) p)).
    eapply safe_weaken; [apply array_loop_moves; [done..|unfold loop_fuel, inside, zlen in *; lia]|].
    intros b r Hr. eapply past_trans in Hr; [|done]. by eapply past_le, Hr.
Qed.
End Safe.

(** With as much fuel as levels are left, every value is parsed or refused. *)
Lemma value_moves input f : forall d, 0 <= d -> JSON_MAX_DEPTH - d <= Z.of_nat f -> moves input d 0 (parse_value input f).
Proof.
  unfold JSON_MAX_DEPTH. induction f as [|f IH]; intros d Hd Hf p Hp; pose proof Hp as [Hin Hdp]; cbn [parse_value];
    apply safe_bind; unfold safe at 1; cbn; unfold JSON_MAX_DEPTH; (destruct (Z.leb_spec 1000 (j_depth p)); [done|]); [lia|].
  apply safe_bind, safe_peek. destruct (zget input (j_pos p)) as [b|] eqn:E; [|done].
  apply safe_bind. unfold set_depth, safe at 1. cbn. set (p1 := mkParser (j_pos p) (j_depth p + 1)).
  assert (inside input (d + 1) p1) as Hp1 by (unfold inside; cbn; lia).
  assert (moves input (d + 1) 0 (parse_value input f)) as Hpv by (apply IH; lia).
  apply safe_bind. eapply (safe_weaken _ _ (fun _ p' => past input 0 p1 p')).
  - repeat match goal with |- safe (if ?c then _ else _) _ _ => destruct c end; try done.
    + eapply safe_weaken; [by apply (object_moves input (d + 1))|]. intros ? ?. by apply past_le.
    + eapply safe_weaken; [by apply (array_moves input (d + 1))|]. intros ? ?. by apply past_le.
    + apply safe_bind. eapply safe_weaken; [by apply (string_moves input (d + 1))|]. intros ? ? Hq. apply safe_ret. by eapply past_le, Hq.
    + by apply (literal_moves input (d + 1)).
    + by apply (literal_moves input (d + 1)).
    + by apply (literal_moves input (d + 1)).
    + by apply (number_moves input (d + 1)).
  - intros n q [Hq Hdq]. cbn in *. apply safe_bind. unfold safe at 1. cbn. apply safe_ret. unfold past. cbn. split; [lia|]. lia.
Qed.

(** C35: parsing ends with a tree or an error, whatever the input: the loops and
    the recursion end within their fuel, and no index is out of range. *)
Theorem json_parse_total input : (exists n, json_parse input = Ok n) \/ (exists e, json_parse input = Err e).
Proof.
  unfold json_parse, parse_inner.
  assert (safe (parse_top input) (mkParser 0 0) (fun _ _ => True)) as Hs.
  { assert (inside input 0 (mkParser 0 0)) as Hp by (unfold inside; cbn; pose proof (zlen_nonneg input); lia).
    eapply safe_weaken; [|done]. apply (moves0_bind input 0); [apply skip_ws_moves|intros _|exact Hp].
    apply moves0_bind; [apply value_moves; cbn; lia|intros n]. apply moves0_bind; [apply skip_ws_moves|intros _; apply moves_ret]. }
  unfold safe in Hs. destruct (parse_top input (mkParser 0 0)) as [[n|e|] p]; [| |done]; cbn [mbind outcome_bind]; [|by right; eexists].
  destruct (j_pos p =? zlen input); [left|right]; by eexists.
Qed.

(** ** The text of a tree *)

Section Induction.
Context (P : JsonNode -> Prop) (Hnull : P JNull) (Hbool : forall b, P (JBool b)) (Hint : forall i, P (JInt i))
  (Hreal : forall r, P (JReal r)) (Hstr : forall s, P (JString s))
  (Harr : forall items, Forall P items -> P (JArray items))
  (Hobj : forall entries, Forall (fun e => P (snd e)) entries -> P (JObject entries)).
Fixpoint node_ind (n : JsonNode) : P n :=
  match n with
  | JNull => Hnull
  | JBool b => Hbool b
  | JInt i => Hint i
  | JReal r => Hreal r
  | JString s => Hstr s
  | JArray items => Harr items ((fix go l : Forall P l :=
      match l with [] => List.Forall_nil _ | x :: t => List.Forall_cons _ _ _ (node_ind x) (go t) end) items)
  | JObject es => Hobj es ((fix go l : Forall (fun e => P (snd e)) l :=
      match l with [] => List.Forall_nil _ | x :: t => List.Forall_cons _ _ _ (node_ind (snd x)) (go t) end) es)
  end.
End Induction.

(** Trees of values the parser can produce, reals apart. *)
Inductive plain : JsonNode -> Prop :=
  | plain_null : plain JNull
  | plain_bool b : plain (JBool b)
  | plain_int i : is_i64 i -> plain (JInt i)
  | plain_string s : bytes_ok s -> utf8_valid s = true -> plain (JString s)
  | plain_array items : Forall plain items -> plain (JArray items)
  | plain_object es : Forall (fun e => bytes_ok (fst e) /\ utf8_valid (fst e) = true /\ plain (snd e)) es -> plain (JObject es).

Definition max_list (l : list Z) : Z := foldr Z.max 0 l.
Fixpoint node_depth (n : JsonNode) : Z :=
  match n with
  | JArray items => 1 + max_list (node_depth <$> items)
  | JObject es => 1 + max_list ((fun e => node_depth (snd e)) <$> es)
  | _ => 1
  end.

Definition escaped (cs : list Z) : bytes := mjoin (escape_char <$> cs).
Lemma escaped_cons c cs : escaped (c :: cs) = escape_char c ++ escaped cs.
Proof. done. Qed.
Definition string_text (s : bytes) : bytes := 34 :: escaped (chars s) ++ [34].
Definition separated (l : list bytes) : bytes :=
  match l with [] => [] | x :: t => x ++ mjoin ((cons 44) <$> t) end.
Lemma separated_one x : separated [x] = x.
Proof. apply app_nil_r. Qed.
Lemma separated_cons x y l : separated (x :: y :: l) = x ++ 44 :: separated (y :: l).
Proof. done. Qed.
(** The grammar of the rendering. *)
Fixpoint text_of (n : JsonNode) : bytes :=
  match n with
  | JNull => bytes_of "null"
  | JBool true => bytes_of "true"
  | JBool false => bytes_of "false"
  | JInt i => i64_to_string i
  | JReal _ => []
  | JString s => string_text s
  | JArray items => 91 :: separated (text_of <$> items) ++ [93]
  | JObject es => 123 :: separated ((fun e => string_text (fst e) ++ 58 :: text_of (snd e)) <$> es) ++ [125]
  end.

Lemma render_string_text s out : render_string s out = out ++ string_text s.
Proof.
  unfold render_string, string_text. cbn [app].
  assert (forall cs o, foldl (fun out c => out ++ escape_char c) o cs = o ++ mjoin (escape_char <$> cs)) as Hf.
  { induction cs as [|c cs IH]; intros o; cbn; [by rewrite app_nil_r|]. rewrite IH. by rewrite <- app_assoc. }
  rewrite Hf. rewrite <- !app_assoc. done.
Qed.
Lemma render_text n : plain n -> forall out, render_into n out = Ok (out ++ text_of n).
Proof.
  induction n as [|b|i|r|s|items IH|es IH] using node_ind; intros Hp out; cbn [render_into text_of]; try done.
  - by destruct b.
  - inversion Hp.
  - by rewrite render_string_text.
  - inversion Hp as [| | | |? Hps|]; subst. clear Hp.
    match goal with |- (?f true items _ ≫= _) = _ => set (go := f);
      enough (forall l fst o, Forall (fun n => plain n -> forall out, render_into n out = Ok (out ++ text_of n)) l -> Forall plain l ->
        go fst l o = Ok (o ++ (if fst then separated (text_of <$> l) else mjoin (cons 44 <$> (text_of <$> l))))) as Hg end.
    { rewrite (Hg _ true) by done. cbn. by rewrite <- !app_assoc. }
    clear. induction l as [|x l IH]; intros b o Hl Hpl; [by destruct b; cbn; rewrite app_nil_r|].
    inversion Hl as [|? ? Hx Hl']; inversion Hpl as [|? ? Hpx Hpl']; subst. cbn. rewrite Hx by done. cbn. fold go.
    rewrite IH by done. f_equal. cbn [fmap list_fmap]. destruct b; cbn; by rewrite <- !app_assoc.
  - inversion Hp as [| | | | |? Hps]; subst. clear Hp.
    match goal with |- (?f true es _ ≫= _) = _ => set (go := f);
      enough (forall l fst o, Forall (fun e => plain (snd e) -> forall out, render_into (snd e) out = Ok (out ++ text_of (snd e))) l ->
        Forall (fun e => bytes_ok (e.1) /\ utf8_valid (e.1) = true /\ plain (snd e)) l ->
        let ts := (fun e => string_text (e.1) ++ 58 :: text_of (snd e)) <$> l in
        go fst l o = Ok (o ++ (if fst then separated ts else mjoin (cons 44 <$> ts)))) as Hg end.
    { rewrite (Hg _ true) by done. cbn. by rewrite <- !app_assoc. }
    clear. induction l as [|[k v] l IH]; intros b o Hl Hpl; [by destruct b; cbn; rewrite app_nil_r|].
    inversion Hl as [|? ? Hx Hl']; inversion Hpl as [|? ? (_ & _ & Hpx) Hpl']; subst. cbn in Hx, Hpx. cbn.
    rewrite Hx by done. cbn. fold go. rewrite IH by done. f_equal. cbn. rewrite render_string_text.
    destruct b; cbn; rewrite <- !app_assoc; cbn; by rewrite <- !app_assoc.
Qed.

(** ** Reading the text back *)

Lemma encode_char_small c : 0 <= c < 128 -> encode_char c = [c].
Proof. intros. unfold encode_char. by destruct (Z.ltb_spec c 128); [|lia]. Qed.
Lemma encode_char_large c : is_scalar c -> 128 <= c -> forallb (fun b => 0x80 <=? b) (encode_char c) = true /\ encode_char c <> [].
Proof.
  intros Hs Hc. unfold is_scalar, encode_char in *.
  destruct (Z.ltb_spec c 0x80); [lia|]. destruct (Z.ltb_spec c 0x800); [|destruct (Z.ltb_spec c 0x10000)];
    (split; [|done]); cbn [forallb]; rewrite !andb_true_iff, !Z.leb_le; Z.to_euclidean_division_equations; lia.
Qed.
Lemma of_chars_valid cs : Forall is_scalar cs -> utf8_valid (of_chars cs) = true.
Proof. induction 1; [done|]. rewrite of_chars_cons. by apply encode_char_valid. Qed.

Inductive char_kind (c : Z) : Prop :=
  | kind_short e : short_escape e = Some c -> escape_char c = [92; e] -> 0 <= c < 128 -> char_kind c
  | kind_control : escape_char c = [92; 117] ++ hex4 c -> hex_value 0 (hex4 c) = Some c -> 0 <= c < 32 -> char_kind c
  | kind_ascii : escape_char c = [c] -> 32 <= c < 128 -> c <> 34 -> c <> 92 -> char_kind c
  | kind_wide : escape_char c = encode_char c -> 128 <= c -> char_kind c.
Lemma hex4_small : forallb (fun c => bool_decide (hex_value 0 (hex4 c) = Some c)) (seqZ 0 32) = true.
Proof. vm_compute. reflexivity. Qed.
Lemma char_kinds c : is_scalar c -> char_kind c.
Proof.
  intros Hs. unfold is_scalar in Hs. destruct (Z.leb_spec 128 c).
  { apply kind_wide; [|done]. unfold escape_char. ranges. }
  destruct (decide (c = 34)) as [->|]; [by apply (kind_short _ 34)|]. destruct (decide (c = 92)) as [->|]; [by apply (kind_short _ 92)|].
  destruct (decide (c = 8)) as [->|]; [by apply (kind_short _ 98)|]. destruct (decide (c = 12)) as [->|]; [by apply (kind_short _ 102)|].
  destruct (decide (c = 10)) as [->|]; [by apply (kind_short _ 110)|]. destruct (decide (c = 13)) as [->|]; [by apply (kind_short _ 114)|].
  destruct (decide (c = 9)) as [->|]; [by apply (kind_short _ 116)|].
  destruct (Z.ltb_spec c 32).
  - apply kind_control; [|  |lia].
    + unfold escape_char. ranges.
    + pose proof hex4_small as H4. rewrite forallb_forall in H4. specialize (H4 c). cbn beta in H4. rewrite bool_decide_eq_true in H4.
      apply H4, list_elem_of_In, elem_of_seqZ. lia.
  - apply kind_ascii; [|lia..]. unfold escape_char. rewrite !(proj2 (Z.eqb_neq _ _)), (proj2 (Z.ltb_ge _ _)) by lia. apply encode_char_small. lia.
Qed.

Lemma int_text i : is_i64 i -> forallb ascii (i64_to_string i) = true /\ parse_i64 (i64_to_string i) = Some i.
Proof.
  intros Hi. unfold is_i64 in Hi.
  assert (forall ds, forallb is_digit ds = true -> forallb ascii ds = true) as Hasc.
  { intros ds. rewrite !forallb_forall. intros Hd x Hx. apply digit_ascii. auto. }
  assert (forall neg ds, ds <> [] -> forallb is_digit ds = true -> take_sign (if neg : bool then 45 :: ds else ds) = (neg, ds)) as Hts.
  { intros [|] ds Hne Hf; [done|]. destruct ds as [|d ds]; [done|]. cbn in Hf |- *. apply andb_true_iff in Hf as [Hd _].
    unfold is_digit in Hd. apply andb_true_iff in Hd as [?%Z.leb_le ?%Z.leb_le].
    by destruct (Z.eqb_spec d 43), (Z.eqb_spec d 45); [lia..|]. }
  assert (forall n, 0 <= n <= 2 ^ 63 -> forallb is_digit (digits_of 20 n) = true /\ digits_value (digits_of 20 n) = n /\
    digits_of 20 n <> [] /\ (zlen (digits_of 20 n) =? 0) = false) as Hdig.
  { intros n Hn. destruct (digits_of_spec 20 n) as (Hf & Hv & Hne); [lia|]. split_and!; [done..|by apply Hne|].
    apply Z.eqb_neq. specialize (Hne ltac:(done)). destruct (digits_of 20 n); [done|]. rewrite zlen_cons. pose proof (zlen_nonneg l). lia. }
  unfold i64_to_string, parse_i64. destruct (Z.ltb_spec i 0).
  - destruct (Hdig (- i)) as (Hf & Hv & Hne & Hz); [lia|]. split; [cbn; by apply Hasc|].
    rewrite (Hts true), Hz, Hf, Hv by done. cbn [negb andb]. rewrite Z.opp_involutive.
    destruct (Z.leb_spec (- 2 ^ 63) i), (Z.ltb_spec i (2 ^ 63)); (done || lia).
  - destruct (Hdig i) as (Hf & Hv & Hne & Hz); [lia|]. split; [by apply Hasc|].
    rewrite (Hts false), Hz, Hf, Hv by done. cbn [negb andb].
    destruct (Z.leb_spec (- 2 ^ 63) i), (Z.ltb_spec i (2 ^ 63)); (done || lia).
Qed.

Section ReadBack.
Context (input : bytes).

(** What is left to read is [s]. *)
Definition at_ (p : Parser) (s : bytes) : Prop := exists pre, input = pre ++ s /\ j_pos p = zlen pre.
Definition mv (p : Parser) (n : Z) : Parser := mkParser (j_pos p + n) (j_depth p).

Lemma at_mv p a s : at_ p (a ++ s) -> at_ (mv p (zlen a)) s.
Proof. intros (pre & -> & Hp). exists (pre ++ a). rewrite <- app_assoc. split; [done|]. cbn. rewrite zlen_app. lia. Qed.
Lemma at_mv1 p c s : at_ p (c :: s) -> at_ (mv p 1) s.
Proof. apply (at_mv p [c]). Qed.
Lemma mv_mv p n m : mv (mv p n) m = mv p (n + m).
Proof. unfold mv. cbn. f_equal. lia. Qed.
Lemma peek_at p s : at_ p s -> peek input p = (Ok (head s), p).
Proof.
  intros (pre & Hi & Hp). unfold peek, pos, get, mbind, M_bind, mret, M_ret. cbn. rewrite Hi, Hp. f_equal. f_equal.
  rewrite zget_app_r by lia. rewrite Z.sub_diag. by destruct s.
Qed.
Lemma adv_at n p : adv n p = (Ok tt, mv p n).
Proof. done. Qed.
Lemma sub_range_at p a s : at_ p (a ++ s) -> sub_range input (j_pos p) (j_pos p + zlen a) = Ok a.
Proof. intros (pre & -> & ->). apply sub_range_app_mid. Qed.
Lemma sub_from_at p s : at_ p s -> sub_from input (j_pos p) = Ok s.
Proof. intros (pre & -> & ->). apply sub_from_app. Qed.
Lemma at_zlen p s : at_ p s -> j_pos p + zlen s = zlen input.
Proof. intros (pre & -> & ->). by rewrite zlen_app. Qed.

Ltac pk H := erewrite (M_bind_ok (peek input)) by (apply (peek_at _ _ H)); cbn [head].
Ltac ad := rewrite (M_bind_ok (adv _) _ _ _ _ (adv_at _ _)).

Lemma unicode_at p c s : at_ p (hex4 c ++ s) -> hex_value 0 (hex4 c) = Some c -> 0 <= c < 32 ->
  parse_unicode input p = (Ok c, mv p 4).
Proof.
  intros Hp Hh Hc. unfold parse_unicode. erewrite (M_bind_ok (parse_4_hex input) _ _ c (mv p 4)).
  - destruct (Z.leb_spec 0xD800 c); [lia|]. destruct (Z.leb_spec 0xDC00 c); [lia|]. cbn [andb]. unfold char_from_u32.
    destruct (Z.ltb_spec c 0xD800); [done|lia].
  - unfold parse_4_hex. rewrite (M_bind_ok pos _ p (j_pos p) p) by done. pose proof (at_zlen _ _ Hp) as Hz.
    rewrite zlen_app in Hz. change (zlen (hex4 c)) with 4 in Hz. pose proof (zlen_nonneg s).
    destruct (Z.ltb_spec (zlen input) (j_pos p + 4)); [lia|].
    rewrite (M_bind_ok (lift _) _ p (hex4 c) p) by (unfold lift; by rewrite <- (sub_range_at p (hex4 c) s Hp)).
    ad. by rewrite Hh.
Qed.

Definition starts_low (s : bytes) : Prop := match s with b :: _ => (0x80 <=? b) = false | [] => True end.
Lemma escapes_low cs rest : Forall is_scalar cs -> match cs with c :: _ => c < 128 | [] => True end -> starts_low rest ->
  starts_low (escaped cs ++ rest).
Proof.
  intros Hs Hc Hr. destruct cs as [|c cs]; [done|]. inversion Hs as [|? ? Hsc]; subst. rewrite escaped_cons.
  destruct (char_kinds c Hsc) as [e _ -> ? | -> _ ? | -> ? _ _ |_ ?]; [done..| |lia]. cbn. by destruct (Z.leb_spec 128 c); [lia|].
Qed.
(** The characters outside ASCII at the head of [cs]. *)
Lemma split_wide cs : Forall is_scalar cs -> exists run cs', cs = run ++ cs' /\ Forall (fun c => 128 <= c) run /\
  match cs' with c :: _ => c < 128 | [] => True end.
Proof.
  induction 1 as [|c cs Hc Hcs (run & cs' & -> & Hr & Hl)]; [by exists [], []|].
  destruct (Z.ltb_spec c 128); [by exists [], (c :: run ++ cs')|]. exists (c :: run), cs'. split_and!; [done|by constructor|done].
Qed.
Lemma wide_text run : Forall is_scalar run -> Forall (fun c => 128 <= c) run ->
  escaped run = of_chars run /\ forallb (fun b => 0x80 <=? b) (of_chars run) = true.
Proof.
  induction run as [|c run IH]; [done|]. intros [Hs Hss]%Forall_cons [Hw Hws]%Forall_cons.
  destruct (IH Hss Hws) as [IH1 IH2]. rewrite of_chars_cons, escaped_cons. split.
  - destruct (char_kinds c Hs) as [? _ _ ?|_ _ ?|_ ? _ _ | -> _]; [lia..|]. by rewrite IH1.
  - rewrite forallb_app, IH2. by destruct (encode_char_large c Hs Hw) as [-> _].
Qed.

Lemma escaped_app cs1 cs2 : escaped (cs1 ++ cs2) = escaped cs1 ++ escaped cs2.
Proof. unfold escaped. by rewrite fmap_app, join_app. Qed.
Lemma of_chars_app cs1 cs2 : of_chars (cs1 ++ cs2) = of_chars cs1 ++ of_chars cs2.
Proof. unfold of_chars. by rewrite fmap_app, join_app. Qed.

(** A chunk that is copied verbatim. *)
Lemma copy_chunk f out p b chunk s : at_ p (chunk ++ s) -> head (chunk ++ s) = Some b -> b <> 34 -> b <> 92 -> 32 <= b ->
  (let c := zlen (fst (span (fun b => 0x80 <=? b) (chunk ++ s))) in (if c =? 0 then 1 else c) = zlen chunk) ->
  utf8_valid chunk = true ->
  string_loop input (S f) out p = string_loop input f (out ++ chunk) (mv p (zlen chunk)).
Proof.
  intros Hp Hb H34 H92 H32 Hlen Hv. cbn [string_loop]. pk Hp. rewrite Hb.
  destruct (Z.eqb_spec b 34); [done|]. destruct (Z.eqb_spec b 92); [done|]. destruct (Z.ltb_spec b 32); [lia|].
  rewrite (M_bind_ok pos _ p (j_pos p) p) by done.
  rewrite (M_bind_ok (lift _) _ p (chunk ++ s) p) by (unfold lift; by rewrite (sub_from_at _ _ Hp)).
  cbv zeta in Hlen |- *. rewrite Hlen.
  rewrite (M_bind_ok (lift _) _ p chunk p) by (unfold lift; by rewrite (sub_range_at _ _ _ Hp)). rewrite Hv. cbv iota. by ad.
Qed.

Lemma string_loop_at f : forall cs out p s, Forall is_scalar cs -> at_ p (escaped cs ++ 34 :: s) -> (length cs < f)%nat ->
  string_loop input f out p = (Ok (out ++ of_chars cs), mv p (zlen (escaped cs) + 1)).
Proof.
  induction f as [|f IH]; intros cs out p s Hs Hp Hf; [lia|]. destruct cs as [|c cs].
  { cbn [string_loop]. cbn in Hp. pk Hp. cbn. rewrite app_nil_r. done. }
  pose proof Hs as [Hc Hcs]%Forall_cons. rewrite escaped_cons in *. rewrite <- app_assoc in Hp. rewrite of_chars_cons.
  simpl length in Hf. destruct (char_kinds c Hc) as [e He Hesc Hr|Hesc Hh Hr|Hesc Hr H34 H92|Hesc Hw].
  - rewrite Hesc in *. cbn [app] in Hp. cbn [string_loop]. pk Hp. cbn [Z.eqb Pos.eqb]. ad. apply at_mv1 in Hp. pk Hp. ad.
    apply at_mv1 in Hp. rewrite He, encode_char_small, (IH cs _ _ s) by (done || lia). rewrite !mv_mv, <- app_assoc. f_equal. f_equal. len_lia.
  - rewrite Hesc in *. rewrite <- app_assoc in Hp. cbn [app] in Hp. cbn [string_loop]. pk Hp. cbn [Z.eqb Pos.eqb]. ad. apply at_mv1 in Hp. pk Hp. ad.
    apply at_mv1 in Hp. change (short_escape 117) with (@None Z). cbn [Z.eqb Pos.eqb].
    rewrite (M_bind_ok (parse_unicode input) _ _ c (mv (mv (mv p 1) 1) 4)) by (eapply unicode_at; done).
    apply (at_mv _ (hex4 c)) in Hp. change (zlen (hex4 c)) with 4 in Hp.
    rewrite encode_char_small, (IH cs _ _ s) by (done || lia). rewrite !mv_mv, <- app_assoc. f_equal. f_equal.
    rewrite !zlen_app. change (zlen (hex4 c)) with 4. len_lia.
  - rewrite Hesc in *. rewrite (copy_chunk f out p c [c] (escaped cs ++ 34 :: s)); [|done..|lia| |].
    + apply at_mv in Hp. change (zlen [c]) with 1 in *. rewrite (IH cs _ _ s) by (done || lia). rewrite encode_char_small by lia.
      rewrite !mv_mv, <- app_assoc. f_equal. f_equal. len_lia.
    + cbn. destruct (Z.leb_spec 128 c); [lia|done].
    + apply ascii_valid. cbn. unfold ascii. destruct (Z.leb_spec 0 c), (Z.ltb_spec c 128); (done || lia).
  - rewrite <- escaped_cons, <- of_chars_cons in *.
    rewrite app_assoc, <- escaped_cons in Hp.
    destruct (split_wide _ Hs) as (run & cs' & Erun & Hrun & Hlow). destruct run as [|c0 run].
    { cbn in Erun. subst cs'. lia. }
    cbn in Erun. injection Erun as <- ->. pose proof Hs as [Hsr Hsc]%(Forall_app _ (c :: run) cs').
    destruct (wide_text _ Hsr Hrun) as [Et Ew]. change (c :: run ++ cs') with ((c :: run) ++ cs') in *.
    rewrite escaped_app, of_chars_app, Et in *. rewrite <- app_assoc in Hp.
    set (chunk := of_chars (c :: run)) in *.
    assert (chunk <> []) as Hne by (subst chunk; rewrite of_chars_cons; destruct (encode_char_large c Hc Hw) as [_ ?]; by destruct (encode_char c)).
    destruct chunk as [|b ch] eqn:Ech; [done|]. pose proof Ew as Hb. cbn in Hb. apply andb_true_iff in Hb as [Hb%Z.leb_le _].
    rewrite (copy_chunk f out p b (b :: ch) (escaped cs' ++ 34 :: s)); [|done|done|lia..| |].
    + apply at_mv in Hp. rewrite (IH cs' _ _ s); [|done..|rewrite length_app in Hf; lia].
      rewrite !mv_mv, <- app_assoc. f_equal. f_equal. len_lia.
    + cbv zeta. rewrite span_app; [|done|].
      * cbn [fst]. pose proof (zlen_nonneg ch). rewrite zlen_cons. by destruct (Z.eqb_spec (1 + zlen ch) 0); [lia|].
      * pose proof (escapes_low cs' (34 :: s) Hsc Hlow eq_refl) as Hl. unfold starts_low in Hl.
        by destruct (escaped cs' ++ 34 :: s).
    + rewrite <- Ech. by apply of_chars_valid.
Qed.

Lemma escaped_length cs : Forall is_scalar cs -> (length cs <= length (escaped cs))%nat.
Proof.
  induction 1 as [|c cs Hc Hcs IH]; [done|]. rewrite escaped_cons, length_app. cbn [length].
  destruct (char_kinds c Hc) as [? _ -> _| -> _ _| -> _ _ _| -> Hw]; cbn [length app]; try lia.
  destruct (encode_char_large c Hc Hw) as [_ ?]. destruct (encode_char c); [done|]. cbn. lia.
Qed.
Lemma parse_string_at k p s : bytes_ok k -> utf8_valid k = true -> at_ p (string_text k ++ s) ->
  parse_string input p = (Ok k, mv p (zlen (string_text k))).
Proof.
  intros Hk Hv Hp. unfold string_text in Hp. cbn [app] in Hp. rewrite <- app_assoc in Hp. unfold parse_string.
  assert (expect_byte input 34 p = (Ok tt, mv p 1)) as He.
  { unfold expect_byte. pk Hp. done. }
  rewrite (M_bind_ok (expect_byte input 34) _ _ _ _ He). pose proof (at_zlen _ _ Hp) as Hz. apply at_mv1 in Hp. cbn [app] in Hp.
  pose proof (chars_scalar k Hk Hv) as Hs. rewrite (string_loop_at _ (chars k) [] _ s Hs Hp).
  - cbn [app]. rewrite of_chars_chars, mv_mv by done. f_equal. f_equal. unfold string_text. len_lia.
  - unfold loop_fuel. pose proof (escaped_length _ Hs). destruct Hp as (pre & -> & _). rewrite !length_app. lia.
Qed.

(** What may follow a value. *)
Definition stops (s : bytes) : Prop := match s with b :: _ => b ∈ [44; 93; 125] | [] => True end.
Lemma skip_while_at p0 f : forall ds p s, forallb p0 ds = true -> match s with b :: _ => p0 b = false | [] => True end ->
  at_ p (ds ++ s) -> (length ds < f)%nat -> skip_while input p0 f p = (Ok tt, mv p (zlen ds)).
Proof.
  induction f as [|f IH]; intros ds p s Hd Hs Hp Hf; [lia|]. cbn [skip_while]. pk Hp. destruct ds as [|b ds].
  - cbn. assert (mv p (zlen []) = p) as -> by (unfold mv; cbn; rewrite Z.add_0_r; by destruct p).
    destruct s as [|b s]; cbn; [done|]. by rewrite Hs.
  - cbn [app head]. cbn in Hd. apply andb_true_iff in Hd as [-> Hd]. ad. apply at_mv1 in Hp. simpl length in Hf.
    rewrite (IH ds _ s) by (done || lia). rewrite mv_mv. do 2 f_equal. len_lia.
Qed.
Lemma skip_ws_at p s : at_ p s -> match s with b :: _ => is_ws b = false | [] => True end -> skip_ws input p = (Ok tt, p).
Proof.
  intros Hp Hs. unfold skip_ws. rewrite (skip_while_at is_ws _ [] p s); [|done|done|done|unfold loop_fuel; cbn; lia].
  f_equal. unfold mv. cbn. rewrite Z.add_0_r. by destruct p.
Qed.
Lemma peek_in_at bs p s : at_ p s -> peek_in input bs p = (Ok (match s with b :: _ => bool_decide (b ∈ bs) | [] => false end), p).
Proof. intros Hp. unfold peek_in. pk Hp. by destruct s. Qed.

Lemma literal_at lit v p s : at_ p (lit ++ s) -> parse_literal input lit v p = (Ok v, mv p (zlen lit)).
Proof.
  intros Hp. unfold parse_literal. rewrite (M_bind_ok pos _ p (j_pos p) p) by done.
  pose proof (at_zlen _ _ Hp) as Hz. rewrite zlen_app in Hz. pose proof (zlen_nonneg s).
  destruct (Z.ltb_spec (zlen input) (j_pos p + zlen lit)); [lia|].
  rewrite (M_bind_ok (lift _) _ p lit p) by (unfold lift; by rewrite (sub_range_at _ _ _ Hp)).
  rewrite bool_decide_eq_true_2 by done. by ad.
Qed.

Lemma digits_head fuel n : 0 < n < 10 ^ Z.of_nat fuel -> exists d ds, digits_of fuel n = d :: ds /\ d <> 48.
Proof.
  revert n. induction fuel as [|fuel IH]; intros n Hn; [cbn in Hn; lia|]. cbn [digits_of].
  rewrite Nat2Z.inj_succ, Z.pow_succ_r in Hn by lia. destruct (Z.ltb_spec n 10); [exists (48 + n), []; split; [done|lia]|].
  destruct (IH (n / 10)) as (d & ds & -> & Hd); [split; [apply Z.div_str_pos; lia|apply Z.div_lt_upper_bound; lia]|].
  by exists d, (ds ++ [48 + n mod 10]).
Qed.
(** The digits of a number: one zero, or digits that do not start with it. *)
Lemma digits_shape n : 0 <= n < 10 ^ 20 -> exists d ds, digits_of 20 n = d :: ds /\ is_digit d = true /\ forallb is_digit ds = true /\
  (d = 48 -> ds = []).
Proof.
  intros Hn. destruct (digits_of_spec 20 n Hn) as (Hf & _ & Hne). destruct (decide (n = 0)) as [->|].
  { by exists 48, []. }
  destruct (digits_head 20 n) as (d & ds & E & Hd); [lia|]. rewrite E in Hf |- *. cbn in Hf. apply andb_true_iff in Hf as [? ?].
  exists d, ds. split_and!; [done..|]. intros ->. done.
Qed.

Lemma stops_not p s : stops s -> p 44 = false -> p 93 = false -> p 125 = false -> match s with b :: _ => p b = false | [] => True end.
Proof. destruct s as [|b s]; [done|]. unfold stops. rewrite !elem_of_cons, elem_of_nil. by intros [->|[->|[->|]]]. Qed.

Lemma digits_scan d ds p s : at_ p (d :: ds ++ s) -> is_digit d = true -> forallb is_digit ds = true -> (d = 48 -> ds = []) -> stops s ->
  (c ← peek input;
   _ ← (match c with
        | Some b => if b =? 48 then adv 1 else if is_digit b then _ ← adv 1; skip_digits input
                    else bad "expected digit in number"
        | None => bad "expected digit in number" end);
   is_frac ← frac_part input; is_exp ← exp_part input; mret (is_frac || is_exp)) p = (Ok false, mv p (1 + zlen ds)).
Proof.
  intros Hp Hd Hds H48 Hs. pk Hp.
  assert ((if d =? 48 then adv 1 else if is_digit d then _ ← adv 1; skip_digits input else bad "expected digit in number") p
    = (Ok tt, mv p (1 + zlen ds))) as E.
  { destruct (Z.eqb_spec d 48) as [->|]; [by rewrite H48|]. rewrite Hd. ad. apply at_mv1 in Hp as Hp'.
    unfold skip_digits. rewrite (skip_while_at is_digit _ ds _ s); [by rewrite mv_mv|done|by apply stops_not|done|].
    unfold loop_fuel. destruct Hp as (pre & -> & _). rewrite length_app. cbn. rewrite length_app. lia. }
  rewrite (M_bind_ok _ _ _ _ _ E). change (d :: ds ++ s) with ((d :: ds) ++ s) in Hp. apply at_mv in Hp. rewrite zlen_cons in Hp.
  unfold frac_part, exp_part.
  assert (forall bs, forallb (fun b => negb (bool_decide (b ∈ bs))) [44; 93; 125] = true ->
    peek_in input bs (mv p (1 + zlen ds)) = (Ok false, mv p (1 + zlen ds))) as Hno.
  { intros bs Hbs. rewrite (peek_in_at bs _ _ Hp). do 2 f_equal.
    cbn in Hbs. rewrite !andb_true_iff, !negb_true_iff in Hbs. destruct Hbs as (H1 & H2 & H3 & _).
    pose proof (stops_not (fun b => bool_decide (b ∈ bs)) s Hs H1 H2 H3) as Hn. by destruct s. }
  unfold mbind, M_bind. rewrite !Hno by done. cbn. rewrite !Hno by done. done.
Qed.

Lemma int_at i p s : is_i64 i -> at_ p (i64_to_string i ++ s) -> stops s ->
  parse_number input p = (Ok (JInt i), mv p (zlen (i64_to_string i))).
Proof.
  intros Hi Hp Hs. unfold is_i64 in Hi.
  assert (scan_number input p = (Ok false, mv p (zlen (i64_to_string i)))) as Hscan.
  { unfold scan_number. unfold i64_to_string in *. destruct (Z.ltb_spec i 0).
    - destruct (digits_shape (- i)) as (d & ds & E & Hd & Hds & H48); [lia|]. rewrite E in *. cbn [app] in Hp.
      rewrite (M_bind_ok (peek_in input [45]) _ p true p) by (by rewrite (peek_in_at _ _ _ Hp)). ad. apply at_mv1 in Hp.
      rewrite (digits_scan d ds _ s) by done. rewrite mv_mv. do 2 f_equal. len_lia.
    - destruct (digits_shape i) as (d & ds & E & Hd & Hds & H48); [lia|]. rewrite E in *. cbn [app] in Hp.
      rewrite (M_bind_ok (peek_in input [45]) _ p false p).
      + cbv iota. rewrite (M_bind_ok (mret tt) _ p tt p) by done. rewrite (digits_scan d ds _ s) by done. do 2 f_equal. len_lia.
      + rewrite (peek_in_at _ _ _ Hp). do 2 f_equal. apply bool_decide_eq_false_2. rewrite list_elem_of_singleton. intros ->. done. }
  unfold parse_number. rewrite (M_bind_ok pos _ p (j_pos p) p) by done. rewrite (M_bind_ok (scan_number input) _ _ _ _ Hscan).
  rewrite (M_bind_ok pos _ _ (j_pos p + zlen (i64_to_string i)) (mv p (zlen (i64_to_string i)))) by done.
  rewrite (M_bind_ok (lift _) _ _ (i64_to_string i) (mv p (zlen (i64_to_string i)))) by (unfold lift; by rewrite (sub_range_at _ _ _ Hp)).
  destruct (int_text i Hi) as [Ha Hv]. rewrite (ascii_valid _ Ha).
  rewrite (M_bind_ok (lift _) _ _ tt (mv p (zlen (i64_to_string i)))) by done. cbv zeta iota. by rewrite Hv.
Qed.

Lemma int_head i : is_i64 i -> exists b t, i64_to_string i = b :: t /\ (b = 45 \/ is_digit b = true).
Proof.
  intros Hi. unfold is_i64 in Hi. unfold i64_to_string. destruct (Z.ltb_spec i 0); [eauto|].
  destruct (digits_shape i) as (d & ds & -> & Hd & _); [lia|]. eauto.
Qed.
Lemma text_head n : plain n -> exists b t, text_of n = b :: t /\ is_ws b = false /\ b <> 93.
Proof.
  intros Hp. destruct Hp as [|[|]|i Hi| | |]; cbn [text_of]; try (by eexists _, _).
  destruct (int_head i Hi) as (b & t & -> & Hb). exists b, t. split; [done|]. destruct Hb as [->|Hd]; [done|].
  unfold is_digit in Hd. apply andb_true_iff in Hd as [?%Z.leb_le ?%Z.leb_le]. split; [|lia]. unfold is_ws.
  by rewrite !(proj2 (Z.eqb_neq _ _)) by lia.
Qed.

(** [pv] reads the text of [n] wherever it is, at depth [d]. *)
Definition reads_node (pv : PJ JsonNode) (d : Z) (n : JsonNode) : Prop := forall p s,
  j_depth p = d -> at_ p (text_of n ++ s) -> stops s -> pv p = (Ok n, mv p (zlen (text_of n))).

Lemma array_loop_at pv d f : forall l x acc p s, Forall (reads_node pv d) (x :: l) -> Forall plain (x :: l) -> j_depth p = d ->
  at_ p (separated (text_of <$> x :: l) ++ 93 :: s) -> (length l < f)%nat ->
  array_loop input pv f acc p = (Ok (JArray (acc ++ x :: l)), mv p (zlen (separated (text_of <$> x :: l)) + 1)).
Proof.
  induction f as [|f IH]; intros l x acc p s Hr Hpl Hd Hp Hf; [lia|]. cbn [array_loop].
  pose proof Hr as [Hrx Hrl]%Forall_cons. pose proof Hpl as [Hpx Hpll]%Forall_cons.
  destruct (text_head x Hpx) as (b & t & Et & Hws & _). rewrite fmap_cons in *.
  assert (exists tl, at_ p (text_of x ++ tl) /\ match l with [] => tl = 93 :: s | y :: l => tl = 44 :: separated (text_of <$> y :: l) ++ 93 :: s end) as (tl & Hp' & Htl).
  { destruct l as [|y l]; [rewrite separated_one in Hp|rewrite fmap_cons, separated_cons, <- app_assoc in Hp]; eexists; (split; [exact Hp|done]). }
  clear Hp. rename Hp' into Hp.
  rewrite (M_bind_ok (skip_ws input) _ p tt p) by (eapply skip_ws_at; [exact Hp|by rewrite Et]). destruct l as [|y l].
  - subst tl. rewrite separated_one. erewrite (M_bind_ok pv) by (eapply Hrx; [done|exact Hp|by right; left]). apply at_mv in Hp.
    cbv zeta. erewrite (M_bind_ok (skip_ws input)) by (by eapply skip_ws_at). pk Hp. rewrite bool_decide_eq_false_2, bool_decide_eq_true_2 by done. ad. by rewrite mv_mv.
  - subst tl. rewrite fmap_cons, separated_cons.
    erewrite (M_bind_ok pv) by (eapply Hrx; [done|exact Hp|by left]). apply at_mv in Hp. cbn [app] in Hp.
    cbv zeta. erewrite (M_bind_ok (skip_ws input)) by (by eapply skip_ws_at). pk Hp.
    rewrite bool_decide_eq_true_2 by done. ad. apply at_mv1 in Hp. simpl length in Hf.
    rewrite (IH l y (acc ++ [x]) _ s); [|done..|lia].
    rewrite <- app_assoc, fmap_cons. cbn [app]. rewrite !mv_mv. do 2 f_equal.
    repeat first [rewrite zlen_app|rewrite zlen_cons]. lia.
Qed.

Definition entry_text (e : bytes * JsonNode) : bytes := string_text (fst e) ++ 58 :: text_of (snd e).
Lemma entry_zlen e : zlen (entry_text e) = zlen (string_text (fst e)) + 1 + zlen (text_of (snd e)).
Proof. unfold entry_text. rewrite zlen_app, zlen_cons. lia. Qed.
Definition key_ok (e : bytes * JsonNode) : Prop := bytes_ok (fst e) /\ utf8_valid (fst e) = true /\ plain (snd e).

Lemma object_loop_at pv d f : forall l x acc p s, Forall (fun e => reads_node pv d (snd e)) (x :: l) -> Forall key_ok (x :: l) ->
  j_depth p = d -> at_ p (separated (entry_text <$> x :: l) ++ 125 :: s) -> (length l < f)%nat ->
  object_loop input pv f acc p = (Ok (JObject (acc ++ x :: l)), mv p (zlen (separated (entry_text <$> x :: l)) + 1)).
Proof.
  induction f as [|f IH]; intros l [k v] acc p s Hr Hpl Hd Hp Hf; [lia|]. cbn [object_loop].
  pose proof Hr as [Hrx Hrl]%Forall_cons. pose proof Hpl as [(Hk1 & Hk2 & Hpx) Hpll]%Forall_cons. cbn [fst snd] in *.
  destruct (text_head v Hpx) as (b & t & Et & Hws & _). rewrite fmap_cons in *.
  assert (exists tl, at_ p (string_text k ++ 58 :: text_of v ++ tl) /\ match l with [] => tl = 125 :: s | y :: l => tl = 44 :: separated (entry_text <$> y :: l) ++ 125 :: s end) as (tl & Hp' & Htl).
  { destruct l as [|y l]; [rewrite separated_one in Hp|rewrite fmap_cons, separated_cons in Hp]; unfold entry_text at 1 in Hp;
      cbn [fst snd] in Hp; rewrite <- !app_assoc in Hp; eexists; (split; [exact Hp|done]). }
  clear Hp. rename Hp' into Hp.
  rewrite (M_bind_ok (skip_ws input) _ p tt p) by (by eapply skip_ws_at). pk Hp. rewrite bool_decide_eq_true_2 by done. cbn [negb].
  erewrite (M_bind_ok (parse_string input)) by (by eapply parse_string_at). apply at_mv in Hp.
  erewrite (M_bind_ok (skip_ws input)) by (by eapply skip_ws_at). pk Hp. rewrite bool_decide_eq_true_2 by done. cbn [negb]. ad.
  apply at_mv1 in Hp. erewrite (M_bind_ok (skip_ws input)) by (eapply skip_ws_at; [exact Hp|by rewrite Et]).
  destruct l as [|y l].
  - subst tl. rewrite separated_one. erewrite (M_bind_ok pv) by (eapply Hrx; [done|exact Hp|by right; right; left]).
    apply at_mv in Hp. cbv zeta. erewrite (M_bind_ok (skip_ws input)) by (by eapply skip_ws_at). pk Hp.
    rewrite bool_decide_eq_false_2, bool_decide_eq_true_2 by done. ad. rewrite !mv_mv. unfold mret, M_ret. do 2 f_equal. unfold entry_text. cbn [fst snd]. rewrite zlen_app, zlen_cons. lia.
  - subst tl. rewrite fmap_cons, separated_cons.
    erewrite (M_bind_ok pv) by (eapply Hrx; [done|exact Hp|by left]). apply at_mv in Hp. cbn [app] in Hp.
    cbv zeta. erewrite (M_bind_ok (skip_ws input)) by (by eapply skip_ws_at). pk Hp.
    rewrite bool_decide_eq_true_2 by done. ad. apply at_mv1 in Hp. simpl length in Hf.
    rewrite (IH l y (acc ++ [(k, v)]) _ s); [|done..|lia].
    rewrite <- app_assoc, fmap_cons. cbn [app]. rewrite !mv_mv. do 2 f_equal.
    repeat first [rewrite zlen_app|rewrite zlen_cons]. rewrite (entry_zlen (k, v)). cbn [fst snd]. lia.
Qed.

Lemma max_list_le l x : x ∈ l -> x <= max_list l.
Proof. induction l as [|y l IH]; [by intros ?%not_elem_of_nil|]. change (max_list (y :: l)) with (Z.max y (max_list l)). intros [->|Hx]%elem_of_cons; [lia|]. specialize (IH Hx). lia. Qed.

Lemma max_list_nonneg l : 0 <= max_list l.
Proof. unfold max_list. induction l; cbn; lia. Qed.
Lemma depth_pos n : 1 <= node_depth n.
Proof. destruct n; cbn; try lia; match goal with |- context [max_list ?l] => pose proof (max_list_nonneg l); lia end. Qed.

(** What [parse_value] does once it has dispatched on the first byte. *)
Lemma value_step f p b s m n k : at_ p (b :: s) -> j_depth p < JSON_MAX_DEPTH ->
  (if b =? 123 then parse_object input (parse_value input f)
   else if b =? 91 then parse_array input (parse_value input f)
   else if b =? 34 then s ← parse_string input; mret (JString s)
   else if b =? 116 then parse_literal input (bytes_of "true") (JBool true)
   else if b =? 102 then parse_literal input (bytes_of "false") (JBool false)
   else if b =? 110 then parse_literal input (bytes_of "null") JNull
   else if (b =? 45) || is_digit b then parse_number input
   else bad "unexpected character") = m ->
  m (mkParser (j_pos p) (j_depth p + 1)) = (Ok n, mv (mkParser (j_pos p) (j_depth p + 1)) k) ->
  parse_value input (S f) p = (Ok n, mv p k).
Proof.
  intros Hp Hd Hm Hk. cbn [parse_value]. rewrite (M_bind_ok get _ p p p) by done.
  destruct (Z.leb_spec JSON_MAX_DEPTH (j_depth p)); [lia|]. pk Hp. rewrite Hm.
  rewrite (M_bind_ok (set_depth _) _ p tt (mkParser (j_pos p) (j_depth p + 1))) by done.
  rewrite (M_bind_ok m _ _ _ _ Hk). unfold mv, mbind, M_bind, set_depth, modify, mret, M_ret. cbn. do 2 f_equal. lia.
Qed.

(** A list is not longer than its text. *)
Lemma loop_fuel_enough {A} (g : A -> bytes) l x p s : at_ p (separated (g <$> x :: l) ++ s) -> (length l < loop_fuel input)%nat.
Proof.
  intros (pre & -> & _). unfold loop_fuel. rewrite !length_app.
  enough (length l <= length (separated (g <$> x :: l)))%nat by lia. clear. revert x.
  induction l as [|y l IHl]; intros x; [cbn; lia|]. rewrite fmap_cons, fmap_cons, separated_cons, length_app. cbn [length].
  specialize (IHl y). rewrite fmap_cons in IHl. lia.
Qed.
Lemma value_at n : plain n -> forall f d, node_depth n <= Z.of_nat f -> d + node_depth n <= JSON_MAX_DEPTH ->
  reads_node (parse_value input f) d n.
Proof.
  induction n as [|b|i|r|k|items IH|es IH] using node_ind; intros Hpl f d Hf Hd p s Hdp Hp Hs;
    match type of Hd with _ + node_depth ?m <= _ => pose proof (depth_pos m) end; cbn [node_depth] in *;
    assert (forall b s, at_ p (b :: s) -> at_ (mkParser (j_pos p) (j_depth p + 1)) (b :: s)) as Hin by (intros ? ? (pre & ? & ?); by exists pre).
  - destruct f as [|f]; [lia|]. apply (value_step f p 110 (bytes_of "ull" ++ s) _ JNull 4 Hp ltac:(lia) eq_refl).
    by apply (literal_at (bytes_of "null") _ _ s), Hin.
  - destruct f as [|f]; [lia|]. destruct b.
    + apply (value_step f p 116 (bytes_of "rue" ++ s) _ (JBool true) 4 Hp ltac:(lia) eq_refl).
      by apply (literal_at (bytes_of "true") _ _ s), Hin.
    + apply (value_step f p 102 (bytes_of "alse" ++ s) _ (JBool false) 5 Hp ltac:(lia) eq_refl).
      by apply (literal_at (bytes_of "false") _ _ s), Hin.
  - destruct f as [|f]; [lia|]. inversion Hpl as [| |? Hi| | |]; subst. cbn [text_of] in *.
    destruct (int_head i Hi) as (b & t & Et & Hb). pose proof Hp as Hp'. rewrite Et in Hp'. cbn [app] in Hp'.
    eapply (value_step f p b (t ++ s)); [done|lia| |eapply int_at; [done| |done]].
    + destruct Hb as [->|Hb]; [done|]. pose proof Hb as Hb'. unfold is_digit in Hb'. apply andb_true_iff in Hb' as [?%Z.leb_le ?%Z.leb_le].
      rewrite !(proj2 (Z.eqb_neq _ _)) by lia. by rewrite Hb, orb_true_r.
    + rewrite Et. by apply Hin.
  - inversion Hpl.
  - destruct f as [|f]; [lia|]. inversion Hpl as [| | |? Hk Hv| |]; subst. cbn [text_of] in *.
    eapply (value_step f p 34 _ (s ← parse_string input; mret (JString s))); [exact Hp|lia|reflexivity|].
    erewrite (M_bind_ok (parse_string input)); [|eapply parse_string_at; [done|done|exact (Hin 34 _ Hp)]]. done.
  - destruct f as [|f]; [lia|]. inversion Hpl as [| | | |? Hps|]; subst. cbn [text_of app] in *. rewrite <- app_assoc in Hp.
    eapply (value_step f p 91 _ (parse_array input (parse_value input f))); [exact Hp|lia|reflexivity|]. apply Hin in Hp. set (q := mkParser _ _) in *.
    unfold parse_array. assert (expect_byte input 91 q = (Ok tt, mv q 1)) as He by (unfold expect_byte; pk Hp; done).
    rewrite (M_bind_ok (expect_byte input 91) _ _ _ _ He). pose proof (at_zlen _ _ Hp) as Hz. apply at_mv1 in Hp.
    destruct items as [|x l].
    + cbn [fmap list_fmap separated app] in Hp |- *. erewrite (M_bind_ok (skip_ws input)) by (by eapply skip_ws_at). pk Hp.
      rewrite bool_decide_eq_true_2 by done. ad. by rewrite mv_mv.
    + pose proof Hps as [Hpx Hpll]%Forall_cons. destruct (text_head x Hpx) as (b & t & Et & Hws & H93).
      assert (exists tl, separated (text_of <$> x :: l) ++ [93] ++ s = b :: tl) as [tl Etl].
      { rewrite fmap_cons. destruct l; [rewrite separated_one|rewrite fmap_cons, separated_cons]; rewrite Et; by eexists. }
      pose proof Hp as Hp'. rewrite Etl in Hp'. erewrite (M_bind_ok (skip_ws input)) by (by eapply skip_ws_at). pk Hp'.
      rewrite bool_decide_eq_false_2 by congruence.
      rewrite (array_loop_at (parse_value input f) (j_depth p + 1) _ l x [] _ s); [|..|done|exact Hp|].
      * rewrite mv_mv. do 2 f_equal. rewrite zlen_cons, zlen_app. change (zlen [93]) with 1. lia.
      * rewrite Forall_forall in IH, Hps |- *. intros y Hy. pose proof (max_list_le (node_depth <$> x :: l) (node_depth y)
          ltac:(by apply list_elem_of_fmap_2)). apply IH; [done|by apply Hps|lia..].
      * done.
      * by eapply loop_fuel_enough.
  - destruct f as [|f]; [lia|]. inversion Hpl as [| | | | |? Hps]; subst. cbn [text_of app] in *. rewrite <- app_assoc in Hp.
    change (fun e => string_text e.1 ++ 58 :: text_of e.2) with entry_text in *.
    eapply (value_step f p 123 _ (parse_object input (parse_value input f))); [exact Hp|lia|reflexivity|]. apply Hin in Hp. set (q := mkParser _ _) in *.
    unfold parse_object. assert (expect_byte input 123 q = (Ok tt, mv q 1)) as He by (unfold expect_byte; pk Hp; done).
    rewrite (M_bind_ok (expect_byte input 123) _ _ _ _ He). apply at_mv1 in Hp.
    destruct es as [|x l].
    + cbn [fmap list_fmap separated app] in Hp |- *. erewrite (M_bind_ok (skip_ws input)) by (by eapply skip_ws_at). pk Hp.
      rewrite bool_decide_eq_true_2 by done. ad. by rewrite mv_mv.
    + assert (exists tl, separated (entry_text <$> x :: l) ++ [125] ++ s = 34 :: tl) as [tl Etl].
      { rewrite fmap_cons. destruct l; [rewrite separated_one|rewrite fmap_cons, separated_cons]; by eexists. }
      pose proof Hp as Hp'. rewrite Etl in Hp'. erewrite (M_bind_ok (skip_ws input)) by (by eapply skip_ws_at). pk Hp'.
      rewrite bool_decide_eq_false_2 by congruence.
      rewrite (object_loop_at (parse_value input f) (j_depth p + 1) _ l x [] _ s); [|..|done|exact Hp|].
      * rewrite mv_mv. do 2 f_equal. rewrite zlen_cons, zlen_app. change (zlen [125]) with 1. lia.
      * rewrite Forall_forall in IH, Hps |- *. intros y Hy.
        pose proof (max_list_le ((fun e => node_depth e.2) <$> x :: l) (node_depth y.2)
          ltac:(by apply (list_elem_of_fmap_2 (fun e => node_depth e.2)))). apply IH; [done|by apply Hps|lia..].
      * done.
      * by eapply loop_fuel_enough.
Qed.
End ReadBack.

(** C36: a tree without reals that is not nested too deeply is what its
    rendering parses to. *)
Theorem json_render_parse n : plain n -> node_depth n <= JSON_MAX_DEPTH ->
  exists t, json_render n = Ok t /\ json_parse t = Ok n.
Proof.
  intros Hp Hd. exists (text_of n). unfold json_render. rewrite render_text by done. split; [done|].
  unfold json_parse, parse_inner, parse_top. set (p := mkParser 0 0).
  assert (at_ (text_of n) p (text_of n ++ [])) as Hat by (exists []; by rewrite app_nil_r).
  destruct (text_head n Hp) as (b & tl & Et & Hws & _).
  rewrite (M_bind_ok (skip_ws _) _ p tt p); [|eapply skip_ws_at; [exact Hat|by rewrite Et]].
  erewrite (M_bind_ok (parse_value _ _)); [|eapply (value_at _ n Hp _ 0); [unfold JSON_MAX_DEPTH in *; lia..|done|exact Hat|done]].
  apply at_mv in Hat. erewrite (M_bind_ok (skip_ws _)) by (by eapply skip_ws_at). cbn. by rewrite Z.eqb_refl.
Qed.
Lemma json_render_parse_witness :
  let n := JObject [(bytes_of "a", JArray [JInt (-10); JString [0xC3; 0xA9; 10; 34]; JBool true]); ([], JNull)] in
  exists t, json_render n = Ok t /\ json_parse t = Ok n.
Proof.
  apply (json_render_parse (JObject [(bytes_of "a", JArray [JInt (-10); JString [0xC3; 0xA9; 10; 34]; JBool true]); ([], JNull)])).
  - constructor. repeat (apply List.Forall_cons || apply List.Forall_nil); cbn; split_and!;
      repeat first [apply List.Forall_cons|apply List.Forall_nil|constructor|reflexivity|unfold byte_ok, is_i64; lia].
  - vm_compute. discriminate.
Defined.

(** ** Where the functions go wrong *)

(** [json_error_position] cuts the text at the position of the error, which may
    be inside a character: the slice panics. *)
Lemma error_position_panics : json_error_position_fn (Text ([34; 92] ++ [0xC3; 0xA9] ++ [34])) = Panic.
Proof. vm_compute. reflexivity. Qed.
(** A patch object that is added under a new key keeps its nulls (RFC 7396
    removes them). *)
Lemma patch_keeps_nulls :
  merge_patch (JObject []) (JObject [([97], JObject [([98], JNull)])]) = JObject [([97], JObject [([98], JNull)])].
Proof. reflexivity. Qed.
(** An update whose parent is not reached still creates the keys before it. *)
Lemma update_vivifies :
  apply_path_update (JObject []) [Key [97]; Key [98]; Index 0; Key [99]] (Int 1) UM_Set = Ok (JObject [([97], JObject [([98], JObject [])])]).
Proof. reflexivity. Qed.
