(* ===== verification/Aggregate.v ===== *)
(** * Aggregates

    [func/aggregate.rs]: the accumulator behind [AggStep], [AggInverse],
    [AggValue] and [AggFinal] for the built-in aggregates and window
    functions, one row at a time. [i64] counters are overflow-checked. The
    theorems relate runs of the accumulator to functions of the list of rows. *)

From S2P Require Import Prelude Utf8 Str Float64 Value Fp FloatOps Json.
#[local] Open Scope Z_scope.

(** ** Kinds *)

Module AggregateKind.
Inductive AggregateKind :=
  | Count | Sum | Total | Avg | Min | Max | GroupConcat | JsonGroupArray | JsonGroupObject
  | RowNumber | Rank | DenseRank | PercentRank | CumeDist | Ntile | FirstValue | LastValue | NthValue | Lead | Lag.
End AggregateKind.
Notation AggregateKind := AggregateKind.AggregateKind.
#[export] Instance AggregateKind_eq_dec : EqDecision AggregateKind.
Proof. solve_decision. Defined.

(** [lname.as_str()] against a literal. *)
Definition is_name (s : string) (lname : bytes) : bool := bool_decide (lname = bytes_of s).

Definition from_name (name : bytes) (n_arg : Z) : option AggregateKind :=
  let l := to_ascii_lowercase name in
  if is_name "count" l && ((n_arg =? 0) || (n_arg =? 1)) then Some AggregateKind.Count
  else if is_name "sum" l && (n_arg =? 1) then Some AggregateKind.Sum
  else if is_name "total" l && (n_arg =? 1) then Some AggregateKind.Total
  else if is_name "avg" l && (n_arg =? 1) then Some AggregateKind.Avg
  else if is_name "min" l && (n_arg =? 1) then Some AggregateKind.Min
  else if is_name "max" l && (n_arg =? 1) then Some AggregateKind.Max
  else if (is_name "group_concat" l || is_name "string_agg" l) && ((n_arg =? 1) || (n_arg =? 2))
  then Some AggregateKind.GroupConcat
  else if is_name "json_group_array" l && (n_arg =? 1) then Some AggregateKind.JsonGroupArray
  else if is_name "json_group_object" l && (n_arg =? 2) then Some AggregateKind.JsonGroupObject
  else if is_name "row_number" l && (n_arg =? 0) then Some AggregateKind.RowNumber
  else if is_name "rank" l && (n_arg =? 0) then Some AggregateKind.Rank
  else if is_name "dense_rank" l && (n_arg =? 0) then Some AggregateKind.DenseRank
  else if is_name "percent_rank" l && (n_arg =? 0) then Some AggregateKind.PercentRank
  else if is_name "cume_dist" l && (n_arg =? 0) then Some AggregateKind.CumeDist
  else if is_name "ntile" l && (n_arg =? 1) then Some AggregateKind.Ntile
  else if is_name "first_value" l && (n_arg =? 1) then Some AggregateKind.FirstValue
  else if is_name "last_value" l && (n_arg =? 1) then Some AggregateKind.LastValue
  else if is_name "nth_value" l && (n_arg =? 2) then Some AggregateKind.NthValue
  else if is_name "lead" l && ((1 <=? n_arg) && (n_arg <=? 3)) then Some AggregateKind.Lead
  else if is_name "lag" l && ((1 <=? n_arg) && (n_arg <=? 3)) then Some AggregateKind.Lag
  else None.

Definition window_only (k : AggregateKind) : bool :=
  match k with
  | AggregateKind.RowNumber | AggregateKind.Rank | AggregateKind.DenseRank | AggregateKind.PercentRank
  | AggregateKind.CumeDist | AggregateKind.Ntile | AggregateKind.FirstValue | AggregateKind.LastValue
  | AggregateKind.NthValue | AggregateKind.Lead | AggregateKind.Lag => true
  | _ => false
  end.

Definition n_arg (k : AggregateKind) : Z :=
  match k with
  | AggregateKind.GroupConcat | AggregateKind.JsonGroupObject | AggregateKind.NthValue => 2
  | AggregateKind.RowNumber | AggregateKind.Rank | AggregateKind.DenseRank
  | AggregateKind.PercentRank | AggregateKind.CumeDist => 0
  | _ => 1
  end.

Inductive DefaultFrameMode := FM_Rows | FM_Range | FM_Groups.
Inductive DefaultFrameBound :=
  | UnboundedPreceding | CurrentRow | Preceding (n : Z) | Following (n : Z) | UnboundedFollowing.
Definition default_frame (k : AggregateKind) : DefaultFrameMode * DefaultFrameBound * DefaultFrameBound :=
  match k with
  | AggregateKind.RowNumber => (FM_Rows, UnboundedPreceding, CurrentRow)
  | AggregateKind.Rank | AggregateKind.DenseRank => (FM_Range, UnboundedPreceding, CurrentRow)
  | AggregateKind.PercentRank => (FM_Groups, CurrentRow, UnboundedFollowing)
  | AggregateKind.CumeDist => (FM_Groups, Following 1, UnboundedFollowing)
  | AggregateKind.Ntile => (FM_Rows, CurrentRow, UnboundedFollowing)
  | AggregateKind.Lead => (FM_Rows, UnboundedPreceding, UnboundedFollowing)
  | AggregateKind.Lag => (FM_Rows, UnboundedPreceding, CurrentRow)
  | _ => (FM_Range, UnboundedPreceding, CurrentRow)
  end.

Definition plain_names : list string :=
  ["count"; "sum"; "total"; "avg"; "min"; "max"; "group_concat"; "string_agg"; "json_group_array"; "json_group_object"].
Definition window_names : list string :=
  ["row_number"; "rank"; "dense_rank"; "percent_rank"; "cume_dist"; "ntile"; "first_value"; "last_value"; "nth_value";
   "lead"; "lag"].
Definition is_aggregate_name (name : bytes) : bool :=
  existsb (fun s => is_name s (to_ascii_lowercase name)) (plain_names ++ window_names).
Definition is_window_only_name (name : bytes) : bool :=
  existsb (fun s => is_name s (to_ascii_lowercase name)) window_names.
Definition is_aggregate_call (name : bytes) (n_arg : Z) : bool :=
  match from_name name n_arg with Some _ => true | None => false end.

(** ** The accumulator *)

Record Accumulator := mkAcc {
  a_kind : AggregateKind;
  a_count : Z; a_sum_i : Z; a_sum_r : Z; a_has_real : bool; a_overflowed : bool;
  a_best : option Value; a_concat : option bytes; a_sep : bytes; a_finalized : bool;
  a_n_value : Z; a_n_step : Z; a_n_total : Z; a_n_param : Z; a_nth_step : Z;
  a_captured : option Value; a_json_array : option bytes; a_json_object : option bytes }.

Definition acc_new (kind : AggregateKind) : Accumulator :=
  mkAcc kind 0 0 0 false false None None [44] false 0 0 0 0 0 None None None.

(** Field updates. *)
Definition with_count (n : Z) (a : Accumulator) : Accumulator :=
  mkAcc (a_kind a) n (a_sum_i a) (a_sum_r a) (a_has_real a) (a_overflowed a) (a_best a) (a_concat a) (a_sep a) (a_finalized a)
    (a_n_value a) (a_n_step a) (a_n_total a) (a_n_param a) (a_nth_step a) (a_captured a) (a_json_array a) (a_json_object a).
Definition with_sum_i (n : Z) (a : Accumulator) : Accumulator :=
  mkAcc (a_kind a) (a_count a) n (a_sum_r a) (a_has_real a) (a_overflowed a) (a_best a) (a_concat a) (a_sep a) (a_finalized a)
    (a_n_value a) (a_n_step a) (a_n_total a) (a_n_param a) (a_nth_step a) (a_captured a) (a_json_array a) (a_json_object a).
Definition with_sum_r (r : Z) (overflowed : bool) (a : Accumulator) : Accumulator :=
  mkAcc (a_kind a) (a_count a) (a_sum_i a) r true (overflowed || a_overflowed a) (a_best a) (a_concat a) (a_sep a) (a_finalized a)
    (a_n_value a) (a_n_step a) (a_n_total a) (a_n_param a) (a_nth_step a) (a_captured a) (a_json_array a) (a_json_object a).
Definition with_best (v : Value) (a : Accumulator) : Accumulator :=
  mkAcc (a_kind a) (a_count a) (a_sum_i a) (a_sum_r a) (a_has_real a) (a_overflowed a) (Some v) (a_concat a) (a_sep a) (a_finalized a)
    (a_n_value a) (a_n_step a) (a_n_total a) (a_n_param a) (a_nth_step a) (a_captured a) (a_json_array a) (a_json_object a).
Definition with_concat (c : option bytes) (sep : bytes) (a : Accumulator) : Accumulator :=
  mkAcc (a_kind a) (a_count a) (a_sum_i a) (a_sum_r a) (a_has_real a) (a_overflowed a) (a_best a) c sep (a_finalized a)
    (a_n_value a) (a_n_step a) (a_n_total a) (a_n_param a) (a_nth_step a) (a_captured a) (a_json_array a) (a_json_object a).
Definition with_ranks (n_value n_step n_total n_param : Z) (a : Accumulator) : Accumulator :=
  mkAcc (a_kind a) (a_count a) (a_sum_i a) (a_sum_r a) (a_has_real a) (a_overflowed a) (a_best a) (a_concat a) (a_sep a) (a_finalized a)
    n_value n_step n_total n_param (a_nth_step a) (a_captured a) (a_json_array a) (a_json_object a).
Definition with_captured (nth_step : Z) (v : option Value) (a : Accumulator) : Accumulator :=
  mkAcc (a_kind a) (a_count a) (a_sum_i a) (a_sum_r a) (a_has_real a) (a_overflowed a) (a_best a) (a_concat a) (a_sep a) (a_finalized a)
    (a_n_value a) (a_n_step a) (a_n_total a) (a_n_param a) nth_step v (a_json_array a) (a_json_object a).
Definition with_json (arr obj : option bytes) (a : Accumulator) : Accumulator :=
  mkAcc (a_kind a) (a_count a) (a_sum_i a) (a_sum_r a) (a_has_real a) (a_overflowed a) (a_best a) (a_concat a) (a_sep a) (a_finalized a)
    (a_n_value a) (a_n_step a) (a_n_total a) (a_n_param a) (a_nth_step a) (a_captured a) arr obj.

(** The result of [i64] arithmetic. *)
Definition chk_i64 (x : Z) : outcome Z := if (- 2 ^ 63 <=? x) && (x <? 2 ^ 63) then Ok x else Panic.
Definition checked_i64 (x : Z) : option Z := if (- 2 ^ 63 <=? x) && (x <? 2 ^ 63) then Some x else None.
(** [self.count += d]; [self.count = self.count.saturating_sub(1)]. *)
Definition add_count (d : Z) (a : Accumulator) : outcome Accumulator := n ← chk_i64 (a_count a + d); Ok (with_count n a).
Definition sat_dec (a : Accumulator) : Accumulator := with_count (Z.max (a_count a - 1) (- 2 ^ 63)) a.

(** [args.first()] when it is not NULL. *)
Definition first_value_arg (args : list Value) : option Value :=
  match args with v :: _ => if is_null v then None else Some v | [] => None end.

Definition json_render_value_arg (arg : Value) : outcome bytes :=
  match arg with
  | Null => Ok (bytes_of "null")
  | Int i => Ok (i64_to_string i)
  | Real r => fp_to_text r
  | Text s => Ok (render_string s [])
  | Blob _ => Ok (bytes_of "null")
  end.

(** The sums add ([sub = false]) or remove a value. *)
Definition sum_step (sub : bool) (arg : Value) (a : Accumulator) : Accumulator :=
  let int x y := if sub then x - y else x + y in
  let real x y := if sub then f64_sub x y else f64_add x y in
  let of_i := i64_as_f64 (a_sum_i a) in
  if a_has_real a then with_sum_r (real (a_sum_r a) (as_f64 arg)) false a
  else
    match arg with
    | Int i =>
        match checked_i64 (int (a_sum_i a) i) with
        | Some n => with_sum_i n a
        | None => with_sum_r (real of_i (i64_as_f64 i)) true a
        end
    | Real r => with_sum_r (real of_i r) false a
    | _ =>
        let n := as_f64 arg in
        if f64_is_integral n then
          match checked_i64 (int (a_sum_i a) (f64_to_i64 n)) with
          | Some m => with_sum_i m a
          | None => with_sum_r (real of_i n) true a
          end
        else with_sum_r (real of_i n) false a
    end.

Definition push_json (open_ : Z) (item : bytes) (cur : option bytes) : option bytes :=
  Some (match cur with None => open_ :: item | Some c => c ++ [44] ++ item end).

Definition acc_step (a : Accumulator) (args : list Value) (is_count_star : bool) : outcome Accumulator :=
  let a := if a_finalized a then acc_new (a_kind a) else a in
  match a_kind a with
  | AggregateKind.Count =>
      if is_count_star then add_count 1 a
      else match first_value_arg args with Some _ => add_count 1 a | None => Ok a end
  | AggregateKind.Sum | AggregateKind.Total | AggregateKind.Avg =>
      match first_value_arg args with
      | Some arg => a ← add_count 1 a; Ok (sum_step false arg a)
      | None => Ok a
      end
  | AggregateKind.Min | AggregateKind.Max =>
      match first_value_arg args with
      | Some arg =>
          a ← add_count 1 a;
          match a_best a with
          | None => Ok (with_best arg a)
          | Some cur =>
              let ord := mem_compare arg cur Binary in
              let take := match a_kind a with AggregateKind.Min => bool_decide (ord = Lt) | _ => bool_decide (ord = Gt) end in
              Ok (if take then with_best arg a else a)
          end
      | None => Ok a
      end
  | AggregateKind.GroupConcat =>
      sep ← match args with _ :: v :: _ => to_text v | _ => Ok None end;
      let a := match sep with
               | Some sep => if negb (zlen sep =? 0) || (a_count a =? 0) then with_concat (a_concat a) sep a else a
               | None => a
               end in
      match first_value_arg args with
      | Some arg =>
          t ← to_text arg;
          let text := default [] t in
          let c := match a_concat a with None => text | Some cur => cur ++ a_sep a ++ text end in
          add_count 1 (with_concat (Some c) (a_sep a) a)
      | None => Ok a
      end
  | AggregateKind.JsonGroupArray =>
      rendered ← json_render_value_arg (default Null (head args));
      add_count 1 (with_json (push_json 91 rendered (a_json_array a)) (a_json_object a) a)
  | AggregateKind.JsonGroupObject =>
      name ← match head args with Some v => to_text v | None => Ok None end;
      match name with
      | None => Ok a
      | Some name =>
          val ← json_render_value_arg (default Null (args !! 1%nat));
          let item := render_string name [] ++ [58] ++ val in
          add_count 1 (with_json (a_json_array a) (push_json 123 item (a_json_object a)) a)
      end
  | AggregateKind.RowNumber => add_count 1 a
  | AggregateKind.Rank =>
      s ← chk_i64 (a_n_step a + 1);
      Ok (with_ranks (if a_n_value a =? 0 then s else a_n_value a) s (a_n_total a) (a_n_param a) a)
  | AggregateKind.DenseRank => Ok (with_ranks (a_n_value a) 1 (a_n_total a) (a_n_param a) a)
  | AggregateKind.PercentRank | AggregateKind.CumeDist =>
      n ← chk_i64 (a_n_total a + 1); Ok (with_ranks (a_n_value a) (a_n_step a) n (a_n_param a) a)
  | AggregateKind.Ntile =>
      let param := match head args with
                   | Some v => if a_n_total a =? 0 then as_i64 v else a_n_param a
                   | None => a_n_param a
                   end in
      n ← chk_i64 (a_n_total a + 1); Ok (with_ranks (a_n_value a) (a_n_step a) n param a)
  | AggregateKind.FirstValue => Ok (if a_nth_step a =? 0 then with_captured 1 (head args) a else a)
  | AggregateKind.LastValue => n ← chk_i64 (a_nth_step a + 1); Ok (with_captured n (head args) a)
  | AggregateKind.NthValue =>
      let n := match args !! 1%nat with Some v => as_i64 v | None => 1 end in
      if n <=? 0 then Ok a
      else
        s ← chk_i64 (a_nth_step a + 1);
        Ok (with_captured s (if s =? n then head args else a_captured a) a)
  | AggregateKind.Lead | AggregateKind.Lag => Ok a
  end.

(** What is left of the concatenation [cur] when its first text is removed:
    [drain] panics inside a character. *)
Definition drop_front (cur text sep : bytes) : outcome (option bytes) :=
  rest ← (if zlen cur <=? zlen text then Ok []
          else str_from cur (if zlen text + zlen sep <=? zlen cur then zlen text + zlen sep else zlen cur));
  Ok (if zlen rest =? 0 then None else Some rest).

Definition acc_inverse (a : Accumulator) (args : list Value) (is_count_star : bool) : outcome Accumulator :=
  if a_finalized a then Ok a
  else
    match a_kind a with
    | AggregateKind.Count =>
        if is_count_star then add_count (-1) a
        else match first_value_arg args with Some _ => add_count (-1) a | None => Ok a end
    | AggregateKind.Sum | AggregateKind.Total | AggregateKind.Avg =>
        match first_value_arg args with
        | Some arg => a ← add_count (-1) a; Ok (sum_step true arg a)
        | None => Ok a
        end
    | AggregateKind.Min | AggregateKind.Max | AggregateKind.JsonGroupArray | AggregateKind.JsonGroupObject => Ok (sat_dec a)
    | AggregateKind.GroupConcat =>
        match first_value_arg args with
        | Some arg =>
            t ← to_text arg;
            match a_concat a with
            | Some cur => c ← drop_front cur (default [] t) (a_sep a); Ok (sat_dec (with_concat c (a_sep a) a))
            | None => Ok (sat_dec a)
            end
        | None => Ok a
        end
    | AggregateKind.PercentRank | AggregateKind.CumeDist | AggregateKind.Ntile =>
        s ← chk_i64 (a_n_step a + 1); Ok (with_ranks (a_n_value a) s (a_n_total a) (a_n_param a) a)
    | AggregateKind.LastValue =>
        n ← chk_i64 (a_nth_step a - 1);
        Ok (with_captured n (if n <=? 0 then None else a_captured a) a)
    | _ => Ok a
    end.

Definition sum_total (a : Accumulator) : Z := if a_has_real a then a_sum_r a else i64_as_f64 (a_sum_i a).
Definition acc_value (a : Accumulator) : Value :=
  match a_kind a with
  | AggregateKind.Count => Int (a_count a)
  | AggregateKind.Sum =>
      if a_count a =? 0 then Null else if a_has_real a then Real (a_sum_r a) else Int (a_sum_i a)
  | AggregateKind.Total => Real (sum_total a)
  | AggregateKind.Avg => if a_count a =? 0 then Null else Real (f64_div (sum_total a) (i64_as_f64 (a_count a)))
  | AggregateKind.Min | AggregateKind.Max => default Null (a_best a)
  | AggregateKind.GroupConcat => from_option Text Null (a_concat a)
  | AggregateKind.JsonGroupArray => Text (from_option (fun s => s ++ [93]) [91; 93] (a_json_array a))
  | AggregateKind.JsonGroupObject => Text (from_option (fun s => s ++ [125]) [123; 125] (a_json_object a))
  | _ => Null
  end.

(** [i64] division truncates; its operands are positive here. *)
Definition ntile_bucket (i_row n_total n_param : Z) : outcome Z :=
  let n_size := Z.quot n_total n_param in
  if n_size =? 0 then chk_i64 (i_row + 1)
  else
    let n_large := n_total - n_param * n_size in
    i_small ← chk_i64 (n_large * (n_size + 1));
    if i_row <? i_small then chk_i64 (1 + Z.quot i_row (n_size + 1))
    else chk_i64 (1 + n_large + Z.quot (i_row - i_small) n_size).
Definition acc_value_mut (a : Accumulator) : outcome (Value * Accumulator) :=
  match a_kind a with
  | AggregateKind.RowNumber => Ok (Int (a_count a), a)
  | AggregateKind.Rank => Ok (Int (a_n_value a), with_ranks 0 (a_n_step a) (a_n_total a) (a_n_param a) a)
  | AggregateKind.DenseRank =>
      if negb (a_n_step a =? 0) then
        n ← chk_i64 (a_n_value a + 1); Ok (Int n, with_ranks n 0 (a_n_total a) (a_n_param a) a)
      else Ok (Int (a_n_value a), a)
  | AggregateKind.PercentRank =>
      let a := with_ranks (a_n_step a) (a_n_step a) (a_n_total a) (a_n_param a) a in
      Ok (Real (if 1 <? a_n_total a then f64_div (i64_as_f64 (a_n_value a)) (i64_as_f64 (a_n_total a - 1)) else 0), a)
  | AggregateKind.CumeDist =>
      Ok (Real (if 0 <? a_n_total a then f64_div (i64_as_f64 (a_n_step a)) (i64_as_f64 (a_n_total a)) else 0), a)
  | AggregateKind.Ntile =>
      if a_n_param a <=? 0 then Ok (Null, a)
      else b ← ntile_bucket (a_n_step a) (a_n_total a) (a_n_param a); Ok (Int b, a)
  | AggregateKind.FirstValue | AggregateKind.NthValue | AggregateKind.LastValue => Ok (default Null (a_captured a), a)
  | _ => Ok (Null, a)
  end.

(** ** Runs over rows *)

Fixpoint acc_steps (a : Accumulator) (rows : list Value) : outcome Accumulator :=
  match rows with
  | [] => Ok a
  | v :: t => a ← acc_step a [v] false; acc_steps a t
  end.
Fixpoint acc_inverses (a : Accumulator) (rows : list Value) : outcome Accumulator :=
  match rows with
  | [] => Ok a
  | v :: t => a ← acc_inverse a [v] false; acc_inverses a t
  end.

Definition not_null (rows : list Value) : list Value := filter (fun v => is_null v = false) rows.
Definition int_of (v : Value) : Z := match v with Int i => i | _ => 0 end.
Definition ints (rows : list Value) : list Z := int_of <$> rows.
Definition zsum (l : list Z) : Z := foldr Z.add 0 l.
Definition zabs_sum (l : list Z) : Z := zsum (Z.abs <$> l).
Definition text_value (v : Value) : bytes :=
  match v with Int i => i64_to_string i | Text s => s | _ => [] end.
(** The texts joined by commas. *)
Fixpoint joined (ts : list bytes) : option bytes :=
  match ts with
  | [] => None
  | t :: ts => Some (t ++ from_option (cons 44) [] (joined ts))
  end.

(** The rows a frame of kind [k] slides over exactly. *)
Definition slides (k : AggregateKind) (v : Value) : Prop :=
  match k, v with
  | (AggregateKind.Count | AggregateKind.Sum | AggregateKind.Total | AggregateKind.Avg), (Null | Int _) => True
  | AggregateKind.Count, (Real _ | Text _ | Blob _) => True
  | AggregateKind.GroupConcat, Null => True
  | AggregateKind.GroupConcat, Text s => s <> [] /\ utf8_valid s = true
  | _, _ => False
  end.

(** The state after the rows [vs]. *)
Record window_state (k : AggregateKind) (vs : list Value) (a : Accumulator) : Prop := {
  ws_kind : a_kind a = k;
  ws_live : a_finalized a = false;
  ws_count : a_count a = zlen (not_null vs);
  ws_int : a_has_real a = false;
  ws_sum : match k with AggregateKind.Sum | AggregateKind.Total | AggregateKind.Avg => a_sum_i a = zsum (ints vs) | _ => True end;
  ws_sep : a_sep a = [44];
  ws_concat : match k with AggregateKind.GroupConcat => a_concat a = joined (text_value <$> not_null vs) | _ => True end }.

(** Counters and sums stay in range. *)
Definition small (vs : list Value) : Prop := zlen vs < 2 ^ 63 /\ zabs_sum (ints vs) < 2 ^ 63.

Lemma window_new k : window_state k [] (acc_new k).
Proof. by split; destruct k. Qed.

Lemma chk_i64_in x : - 2 ^ 63 <= x < 2 ^ 63 -> chk_i64 x = Ok x.
Proof. intros. unfold chk_i64. by destruct (Z.leb_spec (- 2 ^ 63) x), (Z.ltb_spec x (2 ^ 63)); try lia. Qed.
Lemma checked_i64_in x : - 2 ^ 63 <= x < 2 ^ 63 -> checked_i64 x = Some x.
Proof. intros. unfold checked_i64. by destruct (Z.leb_spec (- 2 ^ 63) x), (Z.ltb_spec x (2 ^ 63)); try lia. Qed.

Lemma zsum_app l1 l2 : zsum (l1 ++ l2) = zsum l1 + zsum l2.
Proof. unfold zsum. induction l1; cbn; lia. Qed.
Lemma zsum_abs l : Z.abs (zsum l) <= zabs_sum l /\ 0 <= zabs_sum l.
Proof. unfold zsum, zabs_sum, zsum. induction l; cbn in *; lia. Qed.
Lemma zabs_sum_app l1 l2 : zabs_sum (l1 ++ l2) = zabs_sum l1 + zabs_sum l2.
Proof. unfold zabs_sum. by rewrite fmap_app, zsum_app. Qed.
Lemma not_null_app l1 l2 : not_null (l1 ++ l2) = not_null l1 ++ not_null l2.
Proof. apply filter_app. Qed.
Lemma not_null_len l : zlen (not_null l) <= zlen l.
Proof. unfold not_null, zlen. pose proof (length_filter (fun v => is_null v = false) l). lia. Qed.
Lemma small_app l1 l2 : small (l1 ++ l2) -> small l1 /\ small l2.
Proof.
  unfold small, ints. rewrite fmap_app, zabs_sum_app, zlen_app. pose proof (zsum_abs (int_of <$> l1)).
  pose proof (zsum_abs (int_of <$> l2)). pose proof (zlen_nonneg l1). pose proof (zlen_nonneg l2). lia.
Qed.
Lemma joined_snoc ts t : joined (ts ++ [t]) = Some (match joined ts with None => t | Some c => c ++ [44] ++ t end).
Proof.
  induction ts as [|x ts IH]; [cbn; by rewrite app_nil_r|]. cbn [app joined]. rewrite IH. cbn. f_equal.
  destruct (joined ts); cbn; [by rewrite <- app_assoc|by rewrite app_nil_r].
Qed.

Lemma sum_step_int sub i a : a_has_real a = false ->
  let n := if sub : bool then a_sum_i a - i else a_sum_i a + i in - 2 ^ 63 <= n < 2 ^ 63 ->
  sum_step sub (Int i) a = with_sum_i n a.
Proof. intros Hr n Hn. unfold sum_step. rewrite Hr. by rewrite checked_i64_in. Qed.

(** How one row changes what the state stands for. *)
Lemma not_null_one v : not_null [v] = if is_null v then [] else [v].
Proof. unfold not_null. by destruct v. Qed.
Lemma state_null k vs v a : is_null v = true -> window_state k vs a -> window_state k (vs ++ [v]) a /\ (forall ws, vs = v :: ws -> window_state k ws a).
Proof.
  intros Hn [Hk Hl Hc Hi Hsum Hsep Hcat]. destruct v; try done. split; [|intros ws ->].
  - assert (not_null (vs ++ [Null]) = not_null vs) as E by (rewrite not_null_app; apply app_nil_r).
    split; rewrite ?E; try done. destruct k; try done; unfold ints in *; rewrite fmap_app, zsum_app; cbn; lia.
  - split; try done; by destruct k.
Qed.

(** A row is taken in. *)
Lemma window_step k vs v a : slides k v -> small (vs ++ [v]) -> window_state k vs a ->
  exists b, acc_step a [v] false = Ok b /\ window_state k (vs ++ [v]) b.
Proof.
  intros Hv [Hlen Habs] Hw. pose proof Hw as [Hk Hl Hc Hi Hsum Hsep Hcat].
  destruct (is_null v) eqn:Hn.
  { exists a. split; [|by apply state_null]. destruct v; try done. unfold acc_step. rewrite Hl, Hk.
    destruct k; cbn in Hv; done. }
  pose proof (not_null_len (vs ++ [v])) as Hle. rewrite not_null_app, zlen_app, (not_null_one v), Hn in Hle.
  change (zlen [v]) with 1 in *. pose proof (zlen_nonneg (not_null vs)) as Hnn.
  assert (forall b, a_count b = a_count a -> add_count 1 b = Ok (with_count (zlen (not_null (vs ++ [v]))) b)) as Hadd.
  { intros b Hb. unfold add_count. rewrite not_null_app, zlen_app, (not_null_one v), Hn, Hb, Hc. change (zlen [v]) with 1.
    rewrite chk_i64_in by lia. done. }
  unfold ints in Habs. rewrite fmap_app, zabs_sum_app in Habs. pose proof (zsum_abs (int_of <$> vs)) as Hz.
  unfold acc_step. rewrite Hl, Hk. unfold first_value_arg. rewrite Hn. unfold ints in Hsum.
  destruct k; cbn in Hv; try (by destruct v).
  1: { rewrite Hadd by done. eexists. split; [done|]. by split. }
  1-3: destruct v as [|i| | |]; try done; rewrite Hadd by done; cbn [mbind outcome_bind]; eexists; (split; [done|]);
    cbn in Habs; rewrite sum_step_int by (cbn; (done || lia)); split; try done; cbn; unfold ints; rewrite fmap_app, zsum_app; cbn; lia.
  destruct v as [| | |t|]; try done. cbn [mbind outcome_bind to_text]. cbv zeta. rewrite Hadd by done. eexists. split; [done|].
  split; try done. cbn. rewrite not_null_app, (not_null_one (Text t)). cbn [is_null]. rewrite fmap_app. cbn [fmap list_fmap].
  rewrite joined_snoc, Hcat, Hsep. done.
Qed.

(** Removing the oldest row. *)
Lemma head_not_cont s : s <> [] -> utf8_valid s = true -> match head s with Some b => is_cont b = false | None => False end.
Proof.
  intros Hs Hv. destruct s as [|b s]; [done|]. cbn [head]. unfold utf8_valid in Hv. cbn [length utf8_valid_loop] in Hv.
  destruct (utf8_next (b :: s)) as [ok n] eqn:E. destruct ok; [|done]. unfold utf8_next in E. unfold is_cont.
  destruct (Z.ltb_spec b 0x80); [by destruct (Z.leb_spec 128 b); [lia|]|].
  destruct (Z.leb_spec 0xC2 b); [destruct (Z.ltb_spec b 192); [lia|by rewrite andb_false_r]|].
  destruct (Z.leb_spec 0xE0 b); [lia|]. destruct (Z.leb_spec 0xF0 b); [lia|]. done.
Qed.
Lemma drop_front_joined t ts : t <> [] -> Forall (fun s => s <> [] /\ utf8_valid s = true) ts ->
  drop_front (t ++ from_option (cons 44) [] (joined ts)) t [44] = Ok (joined ts).
Proof.
  intros Ht Hts. unfold drop_front. destruct ts as [|u ts].
  { cbn. rewrite app_nil_r. destruct (Z.leb_spec (zlen t) (zlen t)); [done|lia]. }
  cbn [joined from_option]. apply Forall_cons in Hts as [[Hu Huv] _]. set (rest := u ++ _).
  assert (rest <> []) as Hr by (subst rest; by destruct u).
  assert (zlen rest > 0) by (destruct rest; [done|rewrite zlen_cons; pose proof (zlen_nonneg rest); lia]).
  rewrite zlen_app, zlen_cons. change (zlen [44]) with 1.
  destruct (Z.leb_spec (zlen t + (1 + zlen rest)) (zlen t)); [lia|]. destruct (Z.leb_spec (zlen t + 1) (zlen t + (1 + zlen rest))); [|lia].
  unfold str_from, is_char_boundary.
  replace (zget (t ++ 44 :: rest) (zlen t + 1)) with (head rest).
  - pose proof (head_not_cont u Hu Huv) as Hh. assert (head rest = head u) as -> by (subst rest; by destruct u).
    destruct (head u) as [b|]; [|done]. rewrite Hh, orb_true_r. cbn [mbind outcome_bind].
    replace (zdrop (zlen t + 1) (t ++ 44 :: rest)) with rest.
    + destruct (Z.eqb_spec (zlen rest) 0); [lia|done].
    + rewrite zdrop_app_ge by lia. by replace (zlen t + 1 - zlen t) with 1 by lia.
  - rewrite zget_app_r by lia. replace (zlen t + 1 - zlen t) with 1 by lia. by destruct rest.
Qed.
Lemma window_inverse k vs v a : slides k v -> Forall (slides k) vs -> small (v :: vs) -> window_state k (v :: vs) a ->
  exists b, acc_inverse a [v] false = Ok b /\ window_state k vs b.
Proof.
  intros Hv Hvs [Hlen Habs] Hw. pose proof Hw as [Hk Hl Hc Hi Hsum Hsep Hcat].
  destruct (is_null v) eqn:Hn.
  { exists a. split; [|by eapply state_null]. destruct v; try done. unfold acc_inverse. rewrite Hl, Hk.
    destruct k; cbn in Hv; done. }
  change (v :: vs) with ([v] ++ vs) in *. rewrite not_null_app, (not_null_one v), Hn, zlen_app in *. change (zlen [v]) with 1 in *.
  pose proof (zlen_nonneg (not_null vs)) as Hnn. pose proof (not_null_len vs) as Hle.
  assert (forall b, a_count b = a_count a -> add_count (-1) b = Ok (with_count (zlen (not_null vs)) b)) as Hadd.
  { intros b Hb. unfold add_count. rewrite Hb, Hc, chk_i64_in by lia. cbn. do 2 f_equal. lia. }
  unfold ints in Habs, Hsum. rewrite fmap_app, zabs_sum_app in Habs. pose proof (zsum_abs (int_of <$> vs)) as Hz.
  unfold acc_inverse. rewrite Hl, Hk. unfold first_value_arg. rewrite Hn.
  destruct k; cbn in Hv; try (by destruct v).
  1: { rewrite Hadd by done. eexists. split; [done|]. by split. }
  1-3: destruct v as [|i| | |]; try done; rewrite Hadd by done; cbn [mbind outcome_bind]; eexists; (split; [done|]);
    rewrite fmap_app, zsum_app in Hsum; cbn in Habs, Hsum; rewrite sum_step_int by (cbn; (done || lia));
    split; try done; cbn; unfold ints; lia.
  destruct v as [| | |t|]; try done. destruct Hv as [Ht Hv]. cbn [mbind outcome_bind to_text default]. rewrite Hcat, Hsep.
  rewrite fmap_app. cbn [fmap list_fmap app joined text_value].
  rewrite drop_front_joined; [|done|].
  - cbn [mbind outcome_bind]. eexists. split; [done|]. split; try done. unfold sat_dec. cbn. rewrite Hc. lia.
  - apply Forall_forall. intros s (u & -> & Hu)%list_elem_of_fmap. unfold not_null in Hu. apply list_elem_of_filter in Hu as [Hu1 Hu].
    pose proof (proj1 (Forall_forall _ _) Hvs u Hu) as Hs. by destruct u.
Qed.

Lemma window_steps k rows : forall vs a, Forall (slides k) (vs ++ rows) -> small (vs ++ rows) -> window_state k vs a ->
  exists b, acc_steps a rows = Ok b /\ window_state k (vs ++ rows) b.
Proof.
  induction rows as [|v rows IH]; intros vs a Hv Hs Hw; [exists a; by rewrite app_nil_r|].
  change (v :: rows) with ([v] ++ rows) in *. rewrite app_assoc in *.
  pose proof (small_app _ _ Hs) as [Hs1 _]. pose proof Hv as [[_ [Hv1 _]%Forall_cons]%Forall_app _]%Forall_app.
  destruct (window_step k vs v a Hv1 Hs1 Hw) as (b & Hb & Hwb). destruct (IH (vs ++ [v]) b) as (c & Hc & Hwc); [done..|].
  exists c. split; [|done]. cbn [acc_steps app]. by rewrite Hb.
Qed.
Lemma window_inverses k rows : forall vs a, Forall (slides k) (rows ++ vs) -> small (rows ++ vs) -> window_state k (rows ++ vs) a ->
  exists b, acc_inverses a rows = Ok b /\ window_state k vs b.
Proof.
  induction rows as [|v rows IH]; intros vs a Hv Hs Hw; [by exists a|]. cbn [app] in *. pose proof Hv as [Hv1 Hvs]%Forall_cons.
  destruct (window_inverse k _ v a Hv1 Hvs Hs Hw) as (b & Hb & Hwb).
  pose proof (small_app [v] _ Hs) as [_ Hs2]. destruct (IH vs b) as (c & Hc & Hwc); [done..|].
  exists c. split; [|done]. cbn [acc_inverses]. by rewrite Hb.
Qed.
Lemma window_value k vs a b : window_state k vs a -> window_state k vs b ->
  match k with AggregateKind.Count | AggregateKind.Sum | AggregateKind.Total | AggregateKind.Avg | AggregateKind.GroupConcat => acc_value a = acc_value b
  | _ => True end.
Proof.
  intros [Hk Hl Hc Hi Hsum Hsep Hcat] [Hk' Hl' Hc' Hi' Hsum' Hsep' Hcat'].
  destruct k; try done; unfold acc_value, sum_total; rewrite Hk, Hk', ?Hi, ?Hi', ?Hc, ?Hc', ?Hsum, ?Hsum', ?Hcat, ?Hcat'; done.
Qed.

(** C37: for COUNT, SUM, TOTAL, AVG and GROUP_CONCAT, sliding a window frame gives
    what aggregating the frame from scratch does: after the rows [gone ++ frame]
    are stepped and [gone] removed again, the value is that of [frame]. The rows
    are those of [slides] -- any value for COUNT of a column, NULLs and integers
    for the sums, NULLs and non-empty valid texts with the default separator for
    GROUP_CONCAT -- and [small]: fewer than 2^63 rows, and the absolute values of
    the integers sum below 2^63. (MIN, MAX and the JSON aggregates have no
    inverse, [slide_keeps_maximum]; a sum that has met a real stays one,
    [slide_stays_real]; an empty text is lost, [slide_loses_empty_text].) *)
Theorem window_slide k gone frame : Forall (slides k) (gone ++ frame) -> small (gone ++ frame) ->
  exists a b c, acc_steps (acc_new k) (gone ++ frame) = Ok a /\ acc_inverses a gone = Ok b /\
    acc_steps (acc_new k) frame = Ok c /\ acc_value b = acc_value c.
Proof.
  intros Hv Hs. pose proof (small_app _ _ Hs) as [_ Hs2]. pose proof Hv as [_ Hv2]%Forall_app.
  destruct (window_steps k (gone ++ frame) [] (acc_new k) Hv Hs (window_new k)) as (a & Ha & Hwa).
  destruct (window_inverses k gone frame a Hv Hs Hwa) as (b & Hb & Hwb).
  destruct (window_steps k frame [] (acc_new k) Hv2 Hs2 (window_new k)) as (c & Hc & Hwc).
  exists a, b, c. split_and!; [done..|]. pose proof (window_value k frame b c Hwb Hwc) as Hval.
  destruct k; try done; destruct gone as [|v ?]; cbn in Hv; try (apply Forall_cons in Hv as [Hv _]; by destruct v);
    cbn in Hb, Ha; injection Hb as <-; rewrite Ha in Hc; by injection Hc as <-.
Qed.
Lemma window_slide_witness : exists a b c,
  acc_steps (acc_new AggregateKind.GroupConcat) ([Text (bytes_of "a"); Null] ++ [Text (bytes_of "bc"); Text (bytes_of "d")]) = Ok a /\
  acc_inverses a [Text (bytes_of "a"); Null] = Ok b /\
  acc_steps (acc_new AggregateKind.GroupConcat) [Text (bytes_of "bc"); Text (bytes_of "d")] = Ok c /\ acc_value b = acc_value c.
Proof.
  apply (window_slide AggregateKind.GroupConcat).
  - cbn [app]. repeat (apply List.Forall_cons || apply List.Forall_nil); cbn; try done; (split; [done|vm_compute; reflexivity]).
  - split; vm_compute; reflexivity.
Defined.

(** ** Where the accumulator goes wrong *)

(** A text that is a large whole number is added as the nearest [i64]. *)
Lemma sum_text_saturates :
  (a ← acc_steps (acc_new AggregateKind.Sum) [Text (bytes_of "1e300")]; Ok (acc_value a)) = Ok (Int (2 ^ 63 - 1)).
Proof. vm_compute. reflexivity. Qed.
(** With an empty text left in the frame, [group_concat] is NULL after the
    other one is removed. *)
Lemma slide_loses_empty_text :
  (a ← acc_steps (acc_new AggregateKind.GroupConcat) [Text []; Text []]; b ← acc_inverses a [Text []]; Ok (acc_value b)) = Ok Null /\
  (a ← acc_steps (acc_new AggregateKind.GroupConcat) [Text []]; Ok (acc_value a)) = Ok (Text []).
Proof. vm_compute. done. Qed.
(** The inverse of a maximum only counts, as its comment says: the value removed
    stays the maximum. *)
Lemma slide_keeps_maximum :
  (a ← acc_steps (acc_new AggregateKind.Max) [Int 9; Int 2]; b ← acc_inverses a [Int 9]; Ok (acc_value b)) = Ok (Int 9).
Proof. vm_compute. reflexivity. Qed.
(** A sum does not become an integer again when its last real leaves the frame. *)
Lemma slide_stays_real :
  (a ← acc_steps (acc_new AggregateKind.Sum) [Real 0x3FF8000000000000; Int 2]; b ← acc_inverses a [Real 0x3FF8000000000000]; Ok (acc_value b))
    = Ok (Real 0x4000000000000000) /\
  (a ← acc_steps (acc_new AggregateKind.Sum) [Int 2]; Ok (acc_value a)) = Ok (Int 2).
Proof. vm_compute. done. Qed.
