(* ===== verification/Program.v ===== *)
(** * VDBE programs

    [vdbe/opcode.rs], [vdbe/program.rs] and [vdbe/oe.rs]: the instruction set,
    the instruction with its typed [P4] operand, programs (which nest in
    [P4_SubProgram]) and the flag bits of [p5]. Operands [p1], [p2], [p3] are
    [i32], [p5] is a [u8]. *)

From S2P Require Import Prelude Utf8 Float64 Value Fp Aggregate.
#[local] Open Scope Z_scope.

(** ** Opcodes *)

Module Opcode.
Inductive Opcode :=
  (* control flow *)
  | Init | Goto | Halt | Gosub | Return | InitCoroutine | EndCoroutine | Yield | Once | Program | Param | Compare | Jump
  (* transactions, schema *)
  | Transaction | AutoCommit | Savepoint | SetCookie | ParseSchema | CreateBtree | Destroy | Clear
  (* cursors *)
  | OpenRead | OpenWrite | OpenWriteReg | Close
  (* scans *)
  | Rewind | Next | NotExists | NullRow
  (* row access *)
  | Rowid | Column | ResultRow
  (* records, writes *)
  | MakeRecord | NewRowid | Insert | Delete | IdxInsert | IdxDelete | IdxRowid
  | SeekGE | SeekGT | SeekLE | SeekLT | IdxGE | IdxGT | IdxLE | IdxLT | Found | NotFound | NoConflict
  (* loads *)
  | Integer | Int64 | Real | String8 | Null | Blob
  (* arithmetic *)
  | Add | Subtract | Multiply | Divide | Remainder | Concat | BitAnd | BitOr | ShiftLeft | ShiftRight | BitNot
  (* comparisons *)
  | Eq | Ne | Lt | Le | Gt | Ge
  (* logic *)
  | And | Or | Not | IsNull | NotNull | If | IfNot
  (* moves *)
  | Copy | SCopy | Move
  (* coercion, functions *)
  | Affinity | MustBeInt | RealAffinity | Function
  (* sorter, ephemeral tables *)
  | SorterOpen | SorterInsert | SorterSort | SorterData | SorterNext
  | OpenEphemeral | OpenPseudo | OpenDup | RowData
  (* LIMIT, OFFSET *)
  | DecrJumpZero | IfPos
  (* aggregates *)
  | AggStep | AggInverse | AggFinal | AggValue | HaltIfNull | AddImm | MemMax | SeekRowid | ResetSorter | Last | Prev
  | Checkpoint | FkCheck.
End Opcode.
Notation Opcode := Opcode.Opcode.

(** The mnemonic of [EXPLAIN]. *)
Definition opcode_name (op : Opcode) : string :=
  match op with
  | Opcode.Init => "Init" | Opcode.Goto => "Goto" | Opcode.Halt => "Halt" | Opcode.Gosub => "Gosub"
  | Opcode.Return => "Return" | Opcode.InitCoroutine => "InitCoroutine" | Opcode.EndCoroutine => "EndCoroutine"
  | Opcode.Yield => "Yield" | Opcode.Once => "Once" | Opcode.Program => "Program" | Opcode.Param => "Param"
  | Opcode.Compare => "Compare" | Opcode.Jump => "Jump" | Opcode.Transaction => "Transaction"
  | Opcode.AutoCommit => "AutoCommit" | Opcode.Savepoint => "Savepoint" | Opcode.SetCookie => "SetCookie"
  | Opcode.ParseSchema => "ParseSchema" | Opcode.CreateBtree => "CreateBtree" | Opcode.Destroy => "Destroy"
  | Opcode.Clear => "Clear" | Opcode.OpenRead => "OpenRead" | Opcode.OpenWrite => "OpenWrite"
  | Opcode.OpenWriteReg => "OpenWriteReg" | Opcode.Close => "Close" | Opcode.Rewind => "Rewind"
  | Opcode.Next => "Next" | Opcode.SeekGE => "SeekGE" | Opcode.SeekGT => "SeekGT" | Opcode.SeekLE => "SeekLE"
  | Opcode.SeekLT => "SeekLT" | Opcode.IdxGE => "IdxGE" | Opcode.IdxGT => "IdxGT" | Opcode.IdxLE => "IdxLE"
  | Opcode.IdxLT => "IdxLT" | Opcode.Found => "Found" | Opcode.NotFound => "NotFound"
  | Opcode.NoConflict => "NoConflict" | Opcode.NotExists => "NotExists" | Opcode.NullRow => "NullRow"
  | Opcode.Rowid => "Rowid" | Opcode.Column => "Column" | Opcode.ResultRow => "ResultRow"
  | Opcode.MakeRecord => "MakeRecord" | Opcode.NewRowid => "NewRowid" | Opcode.Insert => "Insert"
  | Opcode.Delete => "Delete" | Opcode.IdxInsert => "IdxInsert" | Opcode.IdxDelete => "IdxDelete"
  | Opcode.IdxRowid => "IdxRowid" | Opcode.Integer => "Integer" | Opcode.Int64 => "Int64" | Opcode.Real => "Real"
  | Opcode.String8 => "String8" | Opcode.Null => "Null" | Opcode.Blob => "Blob" | Opcode.Add => "Add"
  | Opcode.Subtract => "Subtract" | Opcode.Multiply => "Multiply" | Opcode.Divide => "Divide"
  | Opcode.Remainder => "Remainder" | Opcode.Concat => "Concat" | Opcode.BitAnd => "BitAnd" | Opcode.BitOr => "BitOr"
  | Opcode.ShiftLeft => "ShiftLeft" | Opcode.ShiftRight => "ShiftRight" | Opcode.BitNot => "BitNot"
  | Opcode.Eq => "Eq" | Opcode.Ne => "Ne" | Opcode.Lt => "Lt" | Opcode.Le => "Le" | Opcode.Gt => "Gt"
  | Opcode.Ge => "Ge" | Opcode.And => "And" | Opcode.Or => "Or" | Opcode.Not => "Not" | Opcode.IsNull => "IsNull"
  | Opcode.NotNull => "NotNull" | Opcode.If => "If" | Opcode.IfNot => "IfNot" | Opcode.Copy => "Copy"
  | Opcode.SCopy => "SCopy" | Opcode.Move => "Move" | Opcode.Affinity => "Affinity"
  | Opcode.RealAffinity => "RealAffinity" | Opcode.Function => "Function" | Opcode.SorterOpen => "SorterOpen"
  | Opcode.SorterInsert => "SorterInsert" | Opcode.SorterSort => "SorterSort" | Opcode.SorterData => "SorterData"
  | Opcode.SorterNext => "SorterNext" | Opcode.OpenEphemeral => "OpenEphemeral" | Opcode.OpenPseudo => "OpenPseudo"
  | Opcode.OpenDup => "OpenDup" | Opcode.RowData => "RowData" | Opcode.DecrJumpZero => "DecrJumpZero"
  | Opcode.IfPos => "IfPos" | Opcode.AggStep => "AggStep" | Opcode.AggInverse => "AggInverse"
  | Opcode.AggFinal => "AggFinal" | Opcode.AggValue => "AggValue" | Opcode.HaltIfNull => "HaltIfNull"
  | Opcode.AddImm => "AddImm" | Opcode.MemMax => "MemMax" | Opcode.SeekRowid => "SeekRowid"
  | Opcode.ResetSorter => "ResetSorter" | Opcode.Last => "Last" | Opcode.Prev => "Prev"
  | Opcode.Checkpoint => "Checkpoint" | Opcode.FkCheck => "FkCheck" | Opcode.MustBeInt => "MustBeInt"
  end.

(** ** Instructions *)

Record KeyField := mkKeyField { kf_desc : bool; kf_collation : Collation }.
Definition asc_binary : KeyField := mkKeyField false Binary.
#[export] Instance KeyField_eq_dec : EqDecision KeyField.
Proof. solve_decision. Defined.

Inductive FkLookup :=
  | RowidSeek (root : Z)
  | IndexSeek (root : Z) (key_info : list KeyField)
  | TableScan (root : Z) (parent_col_indices : list Z) (parent_rowid_alias : option Z)
  | ParentMissing.
Record FkCheckP4 := mkFkCheck {
  fk_child_table : bytes; fk_child_columns : list bytes; fk_parent_table : bytes; fk_lookup : FkLookup }.

Inductive P4 :=
  | P4_None
  | P4_Int (v : Z)
  | P4_Real (r : Z)
  | P4_Text (s : bytes)
  | P4_Blob (b : bytes)
  | P4_Symbol (s : bytes)
  | P4_KeyInfo (keys : list KeyField)
  | P4_FuncDef (k : AggregateKind)
  | P4_SubProgram (p : Program)
  | P4_FkCheck (f : FkCheckP4)
with Instruction :=
  mkInstruction (opcode : Opcode) (p1 p2 p3 : Z) (p4 : P4) (p5 : Z)
with Program :=
  mkProgram (instructions : list Instruction) (num_registers num_cursors default_oe : Z).

Definition opcode (i : Instruction) : Opcode := let '(mkInstruction op _ _ _ _ _) := i in op.
Definition p1 (i : Instruction) : Z := let '(mkInstruction _ x _ _ _ _) := i in x.
Definition p2 (i : Instruction) : Z := let '(mkInstruction _ _ x _ _ _) := i in x.
Definition p3 (i : Instruction) : Z := let '(mkInstruction _ _ _ x _ _) := i in x.
Definition p4 (i : Instruction) : P4 := let '(mkInstruction _ _ _ _ x _) := i in x.
Definition p5 (i : Instruction) : Z := let '(mkInstruction _ _ _ _ _ x) := i in x.
Definition instructions (p : Program) : list Instruction := let '(mkProgram l _ _ _) := p in l.
Definition num_registers (p : Program) : Z := let '(mkProgram _ n _ _) := p in n.
Definition num_cursors (p : Program) : Z := let '(mkProgram _ _ n _) := p in n.
Definition default_oe (p : Program) : Z := let '(mkProgram _ _ _ n) := p in n.

Definition Instruction_new (op : Opcode) (a b c : Z) : Instruction := mkInstruction op a b c P4_None 0.
Definition Program_empty : Program := mkProgram [Instruction_new Opcode.Halt 0 0 0] 0 0 0.

(** ** Flags of [p5] *)

Definition P5_AFF_MASK : Z := 0x07.
Definition P5_AFF_NONE : Z := 0.
Definition P5_AFF_BLOB : Z := 1.
Definition P5_AFF_TEXT : Z := 2.
Definition P5_AFF_NUMERIC : Z := 3.
Definition P5_AFF_INTEGER : Z := 4.
Definition P5_AFF_REAL : Z := 5.
Definition P5_JUMPIFNULL : Z := 0x10.
Definition P5_STOREP2 : Z := 0x20.
Definition P5_NULLEQ : Z := 0x80.
Definition P5_ISUPDATE : Z := 0x04.
Definition P5_NCHANGE : Z := 0x01.
Definition P5_PREFORMAT : Z := 0x02.
Definition P5_UNIQUE : Z := 0x08.

Definition aff_to_p5 (aff : option Affinity) : Z :=
  match aff with
  | None => P5_AFF_NONE
  | Some AffBlob => P5_AFF_BLOB
  | Some AffText => P5_AFF_TEXT
  | Some AffNumeric => P5_AFF_NUMERIC
  | Some AffInteger => P5_AFF_INTEGER
  | Some AffReal => P5_AFF_REAL
  end.
Definition p5_to_aff (p5 : Z) : option Affinity :=
  let a := Z.land p5 P5_AFF_MASK in
  if a =? P5_AFF_BLOB then Some AffBlob
  else if a =? P5_AFF_TEXT then Some AffText
  else if a =? P5_AFF_NUMERIC then Some AffNumeric
  else if a =? P5_AFF_INTEGER then Some AffInteger
  else if a =? P5_AFF_REAL then Some AffReal
  else None.

(** The bits above the affinity do not disturb it. *)
Lemma p5_aff_roundtrip aff flags : Z.land flags P5_AFF_MASK = 0 -> p5_to_aff (Z.lor flags (aff_to_p5 aff)) = aff.
Proof.
  intros Hf. unfold p5_to_aff. rewrite Z.land_lor_distr_l, Hf, Z.lor_0_l. by destruct aff as [[]|].
Qed.

(** ** Conflict resolution *)

Module OeAction.
Inductive OeAction := None | Rollback | Abort | Fail | Ignore | Replace | Update.
End OeAction.
Notation OeAction := OeAction.OeAction.
Definition oe_from_u8 (v : Z) : OeAction :=
  if v =? 0 then OeAction.None
  else if v =? 1 then OeAction.Rollback
  else if v =? 2 then OeAction.Abort
  else if v =? 3 then OeAction.Fail
  else if v =? 4 then OeAction.Ignore
  else if v =? 5 then OeAction.Replace
  else if v =? 6 then OeAction.Update
  else OeAction.Abort.
