(* ===== verification/Sorter.v ===== *)
(** * Sorters and ephemeral tables

    [vdbe/sorter.rs] and [vdbe/ephemeral.rs]: the in-memory [ORDER BY] sorter
    and the in-memory tables behind [RETURNING], [DISTINCT] and window frames.
    The storage of an ephemeral table is shared by the cursors [OpenDup] makes:
    it is a cell of a store, and a cursor holds its address. *)

From S2P Require Import Prelude Utf8 Float64 Value Fp DbHeader Record Aggregate Program.
From Stdlib Require Import Sorted Permutation.
#[local] Open Scope Z_scope.

(** ** [sort_by]

    The standard library's sort is stable; the order is the one an insertion
    sort from the right gives (any stable sort gives the same, [sort_unique]). *)

Section SortBy.
Context {A : Type} (cmp : A -> A -> comparison).

Fixpoint insert_sorted (x : A) (l : list A) : list A :=
  match l with
  | [] => [x]
  | y :: t => match cmp x y with Gt => y :: insert_sorted x t | _ => x :: l end
  end.
Fixpoint sort_by (l : list A) : list A :=
  match l with [] => [] | x :: t => insert_sorted x (sort_by t) end.

Lemma insert_perm x l : Permutation (insert_sorted x l) (x :: l).
Proof.
  induction l as [|y l IH]; [done|]. cbn. destruct (cmp x y); [done..|]. rewrite IH. constructor.
Qed.
Lemma sort_perm l : Permutation (sort_by l) l.
Proof. induction l as [|x l IH]; [done|]. cbn. by rewrite insert_perm, IH. Qed.

(** [cmp] orders the elements of [P]. *)
Record orders (P : A -> Prop) : Prop := {
  ord_antisym x y : P x -> P y -> cmp y x = CompOpp (cmp x y);
  ord_trans x y z : P x -> P y -> P z -> cmp x y = Lt -> cmp y z = Lt -> cmp x z = Lt;
  ord_eq x y z : P x -> P y -> P z -> cmp x y = Eq -> cmp x z = cmp y z }.
Definition le (x y : A) : Prop := cmp x y <> Gt.
Definition same (x : A) (l : list A) : list A := filter (fun y => cmp x y = Eq) l.

Context (P : A -> Prop) (Ho : orders P).

Lemma ord_refl x : P x -> cmp x x = Eq.
Proof. intros Hx. pose proof (ord_antisym _ Ho x x Hx Hx). by destruct (cmp x x). Qed.
Lemma le_trans x y z : P x -> P y -> P z -> le x y -> le y z -> le x z.
Proof.
  intros Hx Hy Hz Hxy Hyz. unfold le in *. destruct (cmp x y) eqn:E1; [|destruct (cmp y z) eqn:E2|done]; try done.
  - by rewrite (ord_eq _ Ho x y z).
  - pose proof (ord_antisym _ Ho x z Hx Hz) as Hxz. pose proof (ord_antisym _ Ho y z Hy Hz) as Hzy.
    pose proof (ord_antisym _ Ho x y Hx Hy) as Hyx. rewrite E1 in Hyx. rewrite E2 in Hzy. cbn in Hyx, Hzy.
    pose proof (ord_eq _ Ho z y x Hz Hy Hx Hzy) as He. rewrite Hyx in He. rewrite He in Hxz. by destruct (cmp x z).
  - by rewrite (ord_trans _ Ho x y z).
Qed.

Lemma insert_ss x l : P x -> Forall P l -> StronglySorted le l -> StronglySorted le (insert_sorted x l).
Proof.
  intros Hx Hl Hs. induction Hs as [|y l Hs IH Hy]; [repeat constructor|]. apply Forall_cons in Hl as [HPy Hl].
  cbn. destruct (cmp x y) eqn:E.
  1-2: constructor; [by constructor|constructor; [unfold le; congruence|]]; rewrite Forall_forall in Hy, Hl |- *;
    intros z Hz; eapply (le_trans x y z); auto; unfold le; congruence.
  constructor; [by apply IH|]. rewrite Forall_forall in Hy |- *. intros z Hz.
  rewrite insert_perm in Hz. apply elem_of_cons in Hz as [->|Hz]; [|by apply Hy].
  unfold le. rewrite (ord_antisym _ Ho x y) by done. by rewrite E.
Qed.
Lemma insert_same x z l : P x -> P z -> Forall P l -> same z (insert_sorted x l) = same z (x :: l).
Proof.
  intros Hx Hz Hl. induction Hl as [|y l Hy Hl IH]; [done|]. cbn [insert_sorted]. destruct (cmp x y) eqn:E; [done..|].
  unfold same in *. rewrite filter_cons, IH, !filter_cons. destruct (decide (cmp z y = Eq)) as [Hzy|]; [|done].
  destruct (decide (cmp z x = Eq)) as [Hzx|]; [|done]. exfalso.
  rewrite (ord_eq _ Ho z x y Hz Hx Hy Hzx) in Hzy. congruence.
Qed.

Lemma sort_P l : Forall P l -> Forall P (sort_by l).
Proof. intros. by rewrite sort_perm. Qed.
(** The result is sorted, and stable: elements that compare equal keep their order. *)
Lemma sort_sorted l : Forall P l -> StronglySorted le (sort_by l).
Proof. induction 1; [constructor|]. cbn. apply insert_ss; [done|by apply sort_P|done]. Qed.
Lemma sort_same z l : P z -> Forall P l -> same z (sort_by l) = same z l.
Proof.
  intros Hz. induction 1 as [|x l Hx Hl IH]; [done|]. cbn [sort_by]. rewrite insert_same by (done || by apply sort_P).
  unfold same in *. by rewrite !filter_cons, IH.
Qed.
(** There is only one such list. *)
Lemma sort_unique l1 l2 : Forall P l1 -> Forall P l2 -> StronglySorted le l1 -> StronglySorted le l2 ->
  (forall z, P z -> same z l1 = same z l2) -> l1 = l2.
Proof.
  intros H1 H2 Hs1. revert l2 H2. induction Hs1 as [|x l1 Hs1 IH Hx]; intros l2 H2 Hs2 Hsame.
  - destruct l2 as [|y l2]; [done|]. apply Forall_cons in H2 as [Hy _]. specialize (Hsame y Hy).
    unfold same in Hsame. rewrite filter_cons, decide_True in Hsame by by apply ord_refl. done.
  - apply Forall_cons in H1 as [HPx HP1].
    assert (x ∈ same x l2) as Hin.
    { rewrite <- Hsame by done. unfold same. rewrite filter_cons, decide_True by by apply ord_refl. by left. }
    unfold same in Hin. apply list_elem_of_filter in Hin as [_ Hin].
    destruct l2 as [|y l2]; [by apply not_elem_of_nil in Hin|]. apply Forall_cons in H2 as [HPy HP2].
    inversion Hs2 as [|? ? Hs2' Hy]; subst.
    assert (cmp x y = Eq) as Exy.
    { assert (le y x) as Hyx. { apply elem_of_cons in Hin as [->|Hin]; [unfold le; by rewrite ord_refl|]. rewrite Forall_forall in Hy. by apply Hy. }
      assert (y ∈ same y (x :: l1)) as Hiny.
      { rewrite Hsame by done. unfold same. rewrite filter_cons, decide_True by by apply ord_refl. by left. }
      apply list_elem_of_filter in Hiny as [_ Hiny].
      assert (le x y) as Hxy. { apply elem_of_cons in Hiny as [->|Hiny]; [unfold le; by rewrite ord_refl|]. rewrite Forall_forall in Hx. by apply Hx. }
      unfold le in *. rewrite (ord_antisym _ Ho x y) in Hyx by done. by destruct (cmp x y). }
    assert (x = y) as ->.
    { pose proof (Hsame x HPx) as Hq. unfold same in Hq. rewrite !filter_cons, decide_True in Hq by by apply ord_refl.
      rewrite decide_True in Hq by done. congruence. }
    f_equal. apply IH; [done..|]. intros z Hz. specialize (Hsame z Hz). unfold same in *. rewrite !filter_cons in Hsame.
    destruct (decide (cmp z y = Eq)); congruence.
Qed.
End SortBy.

(** ** The sorter *)

Fixpoint compare_keys_from (i : Z) (a b : list Value) (keys : list KeyField) : comparison :=
  match keys with
  | [] => Eq
  | key :: keys =>
      match mem_compare (default Null (zget a i)) (default Null (zget b i)) (kf_collation key) with
      | Eq => compare_keys_from (i + 1) a b keys
      | ord => if kf_desc key then CompOpp ord else ord
      end
  end.
Definition compare_keys (a b : list Value) (keys : list KeyField) : comparison := compare_keys_from 0 a b keys.

Record Sorter := mkSorter {
  so_keys : list KeyField; so_encoding : TextEncoding; so_records : list bytes; so_pos : Z; so_current : option (list Value) }.
Definition sorter_new (keys : list KeyField) (encoding : TextEncoding) : Sorter := mkSorter keys encoding [] 0 None.
Definition set_records (rs : list bytes) (s : Sorter) : Sorter :=
  mkSorter (so_keys s) (so_encoding s) rs (so_pos s) (so_current s).
Definition sorter_insert (record : bytes) (s : Sorter) : Sorter := set_records (so_records s ++ [record]) s.

Fixpoint decode_all (encoding : TextEncoding) (recs : list bytes) : outcome (list (list Value * bytes)) :=
  match recs with
  | [] => Ok []
  | rec :: t => values ← decode_record rec encoding; rest ← decode_all encoding t; Ok ((values, rec) :: rest)
  end.
(** The records are taken out first: a record that does not decode loses them. *)
Definition sorter_sort : M Sorter bool := fun s =>
  match decode_all (so_encoding s) (so_records s) with
  | Ok decoded =>
      let recs := snd <$> sort_by (fun a b => compare_keys (fst a) (fst b) (so_keys s)) decoded in
      (Ok (negb (zlen recs =? 0)), mkSorter (so_keys s) (so_encoding s) recs 0 None)
  | Err e => (Err e, set_records [] s)
  | Panic => (Panic, set_records [] s)
  end.
Definition sorter_is_valid (s : Sorter) : bool := so_pos s <? zlen (so_records s).
Definition set_current (vs : option (list Value)) (s : Sorter) : Sorter :=
  mkSorter (so_keys s) (so_encoding s) (so_records s) (so_pos s) vs.
Definition sorter_data : M Sorter unit :=
  s ← get;
  rec ← lift (idx (so_records s) (so_pos s));
  values ← lift (decode_record rec (so_encoding s));
  modify (set_current (Some values)).
Definition sorter_next (s : Sorter) : Sorter :=
  mkSorter (so_keys s) (so_encoding s) (so_records s) (so_pos s + 1) (so_current s).
(** [Column] of a decoded record: NULL when it is not loaded or too short. *)
Definition current_column (current : option (list Value)) (i : Z) : Value :=
  default Null (vals ← current; zget vals i).
Definition sorter_column (s : Sorter) (i : Z) : Value := current_column (so_current s) i.
Definition sorter_clear (s : Sorter) : Sorter := mkSorter (so_keys s) (so_encoding s) [] 0 None.

(** ** Ephemeral tables *)

Inductive EphemeralKind := EK_Table | EK_Index.
Record EphemeralData := mkEphData {
  ed_records : list bytes; ed_next_rowid : Z; ed_encoding : TextEncoding; ed_kind : EphemeralKind }.
(** The cells of the shared storage, by address, and the next free address. *)
Record EphStore := mkEphStore { es_cells : gmap Z EphemeralData; es_next : Z }.
Record Ephemeral := mkEph { e_data : Z; e_pos : Z; e_current : option (list Value) }.
Definition EphM (A : Type) : Type := M (EphStore * Ephemeral) A.

Definition eph_alloc (d : EphemeralData) : M EphStore Ephemeral := fun st =>
  (Ok (mkEph (es_next st) 0 None), mkEphStore (<[es_next st := d]> (es_cells st)) (es_next st + 1)).
Definition eph_new (encoding : TextEncoding) : M EphStore Ephemeral := eph_alloc (mkEphData [] 1 encoding EK_Table).
Definition eph_new_index (encoding : TextEncoding) : M EphStore Ephemeral := eph_alloc (mkEphData [] 1 encoding EK_Index).
Definition eph_dup (e : Ephemeral) : Ephemeral := mkEph (e_data e) 0 None.

Definition eph_get : EphM EphemeralData := fun s => (expect (es_cells (fst s) !! e_data (snd s)), s).
Definition eph_set (f : EphemeralData -> EphemeralData) : EphM unit := fun '(st, e) =>
  (Ok tt, (mkEphStore (alter f (e_data e) (es_cells st)) (es_next st), e)).
Definition eph_cursor (f : Ephemeral -> Ephemeral) : EphM unit := on_snd (modify f).
Definition eph_pos : EphM Z := on_snd (fun e => (Ok (e_pos e), e)).
Definition at_row (pos : Z) (e : Ephemeral) : Ephemeral := mkEph (e_data e) pos None.
Definition map_records (f : list bytes -> list bytes) (d : EphemeralData) : EphemeralData :=
  mkEphData (f (ed_records d)) (ed_next_rowid d) (ed_encoding d) (ed_kind d).

Definition eph_kind : EphM EphemeralKind := d ← eph_get; mret (ed_kind d).
Definition eph_next_rowid : EphM Z :=
  d ← eph_get;
  n ← lift (chk_i64 (ed_next_rowid d + 1));
  _ ← eph_set (fun d => mkEphData (ed_records d) n (ed_encoding d) (ed_kind d));
  mret (ed_next_rowid d).
Definition eph_insert (rowid : Z) (record : bytes) : EphM unit := eph_set (map_records (fun rs => rs ++ [record])).
Definition eph_find_record (needle : bytes) : EphM bool :=
  d ← eph_get; mret (existsb (fun rec => bool_decide (rec = needle)) (ed_records d)).
Definition eph_idx_insert (record : bytes) : EphM bool :=
  found ← eph_find_record record;
  if found : bool then mret false else _ ← eph_set (map_records (fun rs => rs ++ [record])); mret true.
Definition eph_find_values (values : list Value) : EphM bool := eph_find_record (encode_record values).
Definition eph_rewind : EphM bool :=
  _ ← eph_cursor (at_row 0); d ← eph_get; mret (negb (zlen (ed_records d) =? 0)).
Definition eph_is_valid : EphM bool := pos ← eph_pos; d ← eph_get; mret (pos <? zlen (ed_records d)).
Definition eph_next : EphM unit := eph_cursor (fun e => at_row (e_pos e + 1) e).
Definition eph_load : EphM unit :=
  pos ← eph_pos;
  d ← eph_get;
  match zget (ed_records d) pos with
  | Some rec =>
      values ← lift (decode_record rec (ed_encoding d));
      eph_cursor (fun e => mkEph (e_data e) (e_pos e) (Some values))
  | None => mret tt
  end.
Definition eph_column (e : Ephemeral) (i : Z) : Value := current_column (e_current e) i.
Definition eph_record_at (pos : Z) : EphM (option bytes) := d ← eph_get; mret (zget (ed_records d) pos).
Definition eph_delete_current : EphM unit :=
  pos ← eph_pos;
  d ← eph_get;
  if pos <? zlen (ed_records d) then
    _ ← eph_set (map_records (delete (Z.to_nat pos))); eph_cursor (at_row pos)
  else mret tt.
Definition eph_is_empty : EphM bool := d ← eph_get; mret (zlen (ed_records d) =? 0).
Definition eph_clear : EphM unit :=
  _ ← eph_set (fun d => mkEphData [] 1 (ed_encoding d) (ed_kind d)); eph_cursor (at_row 0).
Definition eph_len : EphM Z := d ← eph_get; mret (zlen (ed_records d)).
(** [(rowid - 1) as usize]: the position is the row number less one. *)
Definition eph_seek_rowid (rowid : Z) : EphM bool :=
  i ← lift (chk_i64 (rowid - 1));
  d ← eph_get;
  if u64 i <? zlen (ed_records d) then _ ← eph_cursor (at_row (u64 i)); mret true else mret false.
Definition eph_rowid (e : Ephemeral) : Z := e_pos e + 1.
Definition eph_reset : EphM unit := eph_cursor (at_row 0).

(** ** What the sorter returns *)

Definition field (vs : list Value) (i : Z) : Value := default Null (zget vs i).
Definition field_ok (v : Value) : Prop := value_ok v /\ not_nan v.
Lemma field_ok_of vs i : Forall field_ok vs -> field_ok (field vs i).
Proof.
  intros Hv. unfold field, zget. destruct (i <? 0); [done|]. destruct (vs !! Z.to_nat i) eqn:E; [|done].
  rewrite Forall_lookup in Hv. by eapply Hv.
Qed.

(** Orders are closed under reversal and lexicographic products. *)
Section Products.
Context {A : Type} (P : A -> Prop).
Lemma orders_ext (c d : A -> A -> comparison) : (forall x y, c x y = d x y) -> orders c P -> orders d P.
Proof. intros E [Ha Ht He]. split; intros; rewrite <- !E in *; eauto. Qed.
Lemma orders_rev c : orders c P -> orders (fun x y => CompOpp (c x y)) P.
Proof.
  intros [Ha Ht He]. split.
  - intros x y Hx Hy. by rewrite (Ha x y).
  - intros x y z Hx Hy Hz H1 H2. rewrite <- (Ha x z) by done. rewrite <- (Ha x y) in H1 by done. rewrite <- (Ha y z) in H2 by done.
    by apply (Ht z y x).
  - intros x y z Hx Hy Hz H1. f_equal. apply He; [done..|]. by destruct (c x y).
Qed.
Lemma orders_lex c d : orders c P -> orders d P -> orders (fun x y => match c x y with Eq => d x y | o => o end) P.
Proof.
  intros [Ha Ht He] [Ha' Ht' He']. split.
  - intros x y Hx Hy. rewrite (Ha x y), (Ha' x y) by done. by destruct (c x y).
  - intros x y z Hx Hy Hz. destruct (c x y) eqn:E1.
    + rewrite (He x y z) by done. destruct (c y z); [by apply (Ht' x y z)|done..].
    + intros _. destruct (c y z) eqn:E2; [|by rewrite (Ht x y z)|done].
      assert (c z y = Eq) as E3 by (rewrite (Ha y z), E2 by done; done).
      rewrite (Ha z x), (He z y x), (Ha x y), E1 by done. done.
    + done.
  - intros x y z Hx Hy Hz. destruct (c x y) eqn:E1; [|done..]. intros H1. by rewrite (He x y z), (He' x y z) by done.
Qed.
End Products.

Lemma compare_keys_orders keys : orders (fun a b => compare_keys a b keys) (Forall field_ok).
Proof.
  unfold compare_keys. generalize 0. induction keys as [|key ks IH]; intros i; [by split|].
  assert (orders (fun x y => mem_compare (field x i) (field y i) (kf_collation key)) (Forall field_ok)) as Hc.
  { split; intros x y; [|intros z..]; intros Hx Hy; try intros Hz; destruct (field_ok_of x i Hx), (field_ok_of y i Hy);
      try destruct (field_ok_of z i Hz); rewrite !mem_compare_key by done.
    - apply key_compare_antisym.
    - apply key_compare_lt_trans.
    - by intros ->%key_compare_eq. }
  set (c := fun x y => mem_compare (field x i) (field y i) (kf_collation key)) in *.
  assert (orders (fun x y => if kf_desc key then CompOpp (c x y) else c x y) (Forall field_ok)) as Hd
    by (destruct (kf_desc key); [by apply orders_rev|done]).
  eapply orders_ext; [|exact (orders_lex _ _ _ Hd (IH (i + 1)))]. intros x y. cbn [compare_keys_from].
  subst c. cbn beta. unfold field. destruct (mem_compare _ _ _), (kf_desc key); done.
Qed.

(** *** The order that ORDER BY asks for

    Stated on the keys of the values ([value_key]: storage class, exact number,
    bytes under the collation), not on the comparison of the code. *)
Definition key_at (key : KeyField) (row : list Value) (n : nat) : sort_key :=
  value_key (kf_collation key) (field row (Z.of_nat n)).
Definition key_before (key : KeyField) (x y : sort_key) : Prop :=
  if kf_desc key then key_compare y x = Lt else key_compare x y = Lt.
#[export] Instance sort_key_eq_dec : EqDecision sort_key.
Proof. solve_decision. Defined.

(** Two rows tie when every key of one is that of the other; one comes before
    another when the first of their keys that differ says so. The keys are the
    fields from [i] on. *)
Definition tied_from (i : nat) (keys : list KeyField) (a b : list Value) : Prop :=
  Forall (fun p => key_at p.2 a p.1 = key_at p.2 b p.1) (imap (fun j key => ((i + j)%nat, key)) keys).
Definition before_from (i : nat) (keys : list KeyField) (a b : list Value) : Prop :=
  exists n key, keys !! n = Some key /\ tied_from i (take n keys) a b /\
    key_before key (key_at key a (i + n)) (key_at key b (i + n)).
Definition tied : list KeyField -> list Value -> list Value -> Prop := tied_from 0.
Definition row_before : list KeyField -> list Value -> list Value -> Prop := before_from 0.
#[export] Instance tied_dec keys a b : Decision (tied keys a b).
Proof. unfold tied, tied_from. apply _. Defined.

Lemma tied_cons i key keys a b : tied_from i (key :: keys) a b <-> key_at key a i = key_at key b i /\ tied_from (S i) keys a b.
Proof.
  unfold tied_from. rewrite imap_cons, Forall_cons. cbn [fst snd]. rewrite Nat.add_0_r.
  assert (imap ((fun j k => ((i + j)%nat, k)) ∘ S) keys = imap (fun j k => ((S i + j)%nat, k)) keys) as ->; [|done].
  apply imap_ext. intros j k _. cbn. f_equal. lia.
Qed.
Lemma before_cons i key keys a b : before_from i (key :: keys) a b <->
  key_before key (key_at key a i) (key_at key b i) \/ key_at key a i = key_at key b i /\ before_from (S i) keys a b.
Proof.
  split.
  - intros ([|n] & k & Hk & Ht & Hb).
    + injection Hk as ->. rewrite Nat.add_0_r in Hb. by left.
    + right. cbn [take] in Ht. apply tied_cons in Ht as [Hq Ht]. split; [done|]. exists n, k. rewrite Nat.add_succ_r in Hb. done.
  - intros [Hb|(Hq & n & k & Hk & Ht & Hb)].
    + exists 0%nat, key. rewrite Nat.add_0_r. split_and!; [done|constructor|done].
    + exists (S n), k. split_and!; [done|cbn [take]; by apply tied_cons|by rewrite Nat.add_succ_r].
Qed.
Lemma key_at_compare key i a b : Forall field_ok a -> Forall field_ok b ->
  mem_compare (field a (Z.of_nat i)) (field b (Z.of_nat i)) (kf_collation key) = key_compare (key_at key a i) (key_at key b i).
Proof. intros Ha Hb. destruct (field_ok_of a (Z.of_nat i) Ha), (field_ok_of b (Z.of_nat i) Hb). by apply mem_compare_key. Qed.
Lemma compare_keys_from_eq keys : forall i a b, Forall field_ok a -> Forall field_ok b ->
  compare_keys_from (Z.of_nat i) a b keys = Eq <-> tied_from i keys a b.
Proof.
  induction keys as [|key keys IH]; intros i a b Ha Hb; [by split; [constructor|]|].
  rewrite tied_cons. cbn [compare_keys_from]. fold (field a (Z.of_nat i)) (field b (Z.of_nat i)).
  rewrite (key_at_compare key i a b), <- key_compare_eq by done. replace (Z.of_nat i + 1) with (Z.of_nat (S i)) by lia.
  rewrite <- IH by done. destruct (key_compare _ _), (kf_desc key); cbn; naive_solver.
Qed.
Lemma compare_keys_from_lt keys : forall i a b, Forall field_ok a -> Forall field_ok b ->
  compare_keys_from (Z.of_nat i) a b keys = Lt <-> before_from i keys a b.
Proof.
  induction keys as [|key keys IH]; intros i a b Ha Hb; [split; [done|by intros (n & k & ? & _)]|].
  rewrite before_cons. cbn [compare_keys_from]. fold (field a (Z.of_nat i)) (field b (Z.of_nat i)).
  rewrite (key_at_compare key i a b) by done. replace (Z.of_nat i + 1) with (Z.of_nat (S i)) by lia.
  rewrite <- IH, <- key_compare_eq by done. unfold key_before. rewrite (key_compare_antisym (key_at key a i)).
  destruct (key_compare _ _), (kf_desc key); cbn; naive_solver.
Qed.

(** *** Inserting, sorting and reading back *)

Definition sorter_row : M Sorter (list Value) := sorter_data ;; s ← get; mret (default [] (so_current s)).
Fixpoint sorter_rows (fuel : nat) : M Sorter (list (list Value)) :=
  s ← get;
  if sorter_is_valid s then
    match fuel with
    | O => mret []
    | S fuel => row ← sorter_row; modify sorter_next ;; rows ← sorter_rows fuel; mret (row :: rows)
    end
  else mret [].
(** The records of an ORDER BY go in, are sorted, and the rows are read from the
    first to the last. *)
Definition order_by (keys : list KeyField) (enc : TextEncoding) (recs : list bytes) : outcome (list (list Value)) :=
  fst ((sorter_sort ;; sorter_rows (length recs)) (foldl (fun s rec => sorter_insert rec s) (sorter_new keys enc) recs)).

Definition decodes (enc : TextEncoding) (rec : bytes) (row : list Value) : Prop :=
  decode_record rec enc = Ok row /\ Forall field_ok row.

Lemma inserted recs : forall s,
  foldl (fun s rec => sorter_insert rec s) s recs = set_records (so_records s ++ recs) s.
Proof.
  induction recs as [|r recs IH]; intros s; cbn [foldl]; [by destruct s; cbn; rewrite app_nil_r|].
  rewrite IH. cbn. by rewrite <- app_assoc.
Qed.
Lemma rows_read enc : forall rest done cur keys fuel, Forall (fun d => decode_record d.2 enc = Ok d.1) rest -> (length rest <= fuel)%nat ->
  exists s', sorter_rows fuel (mkSorter keys enc (done ++ rest.*2) (zlen done) cur) = (Ok rest.*1, s').
Proof.
  induction rest as [|[row rec] rest IH]; intros done cur keys fuel Hd Hf.
  - exists (mkSorter keys enc (done ++ []) (zlen done) cur). cbn [fmap list_fmap].
    assert (sorter_is_valid (mkSorter keys enc (done ++ []) (zlen done) cur) = false) as Hv
      by (unfold sorter_is_valid; cbn [so_pos so_records]; rewrite app_nil_r; apply Z.ltb_irrefl).
    destruct fuel; cbn [sorter_rows]; by rewrite (M_bind_ok get _ _ _ _ eq_refl), Hv.
  - apply Forall_cons in Hd as [Hrow Hd]. cbn [fst snd] in Hrow. destruct fuel as [|fuel]; [cbn in Hf; lia|].
    destruct (IH (done ++ [rec]) (Some row) keys fuel Hd ltac:(cbn in Hf; lia)) as (s' & Hs'). exists s'. cbn [fmap list_fmap fst snd].
    assert (sorter_is_valid (mkSorter keys enc (done ++ rec :: rest.*2) (zlen done) cur) = true) as Hv.
    { unfold sorter_is_valid. cbn. apply Z.ltb_lt. rewrite zlen_app, zlen_cons. pose proof (zlen_nonneg rest.*2). lia. }
    assert (idx (done ++ rec :: rest.*2) (zlen done) = Ok rec) as Hi.
    { unfold idx, zget. destruct (Z.ltb_spec (zlen done) 0); [pose proof (zlen_nonneg done); lia|].
      unfold zlen. rewrite Nat2Z.id, list_lookup_middle by done. done. }
    cbn [sorter_rows]. rewrite (M_bind_ok get _ _ _ _ eq_refl), Hv.
    assert (sorter_row (mkSorter keys enc (done ++ rec :: rest.*2) (zlen done) cur)
      = (Ok row, mkSorter keys enc (done ++ rec :: rest.*2) (zlen done) (Some row))) as Hr.
    { unfold sorter_row, sorter_data. unfold mbind, M_bind, get, lift, modify. cbn [so_records so_pos so_encoding]. rewrite Hi. cbn [so_encoding]. by rewrite Hrow. }
    rewrite (M_bind_ok _ _ _ _ _ Hr). rewrite <- app_assoc, zlen_app in Hs'. change (zlen [rec]) with 1 in Hs'. cbn [app] in Hs'.
    rewrite (M_bind_ok (modify sorter_next) _ (mkSorter keys enc (done ++ rec :: rest.*2) (zlen done) (Some row)) tt
      (mkSorter keys enc (done ++ rec :: rest.*2) (zlen done + 1) (Some row)) eq_refl).
    by rewrite (M_bind_ok _ _ _ _ _ Hs').
Qed.

Lemma sort_by_fmap {A B} (f : A -> B) (c : B -> B -> comparison) l :
  f <$> sort_by (fun x y => c (f x) (f y)) l = sort_by c (f <$> l).
Proof.
  induction l as [|x l IH]; [done|]. cbn [sort_by fmap list_fmap]. rewrite <- IH. generalize (sort_by (fun x y => c (f x) (f y)) l).
  intros s. induction s as [|y s IHs]; [done|]. cbn [insert_sorted fmap list_fmap]. destruct (c (f x) (f y)); cbn; [done..|].
  f_equal. exact IHs.
Qed.
Lemma decode_all_rows enc recs rows : Forall2 (decodes enc) recs rows -> exists l, decode_all enc recs = Ok l /\
  l.*1 = rows /\ l.*2 = recs /\ Forall (fun d => decode_record d.2 enc = Ok d.1) l.
Proof.
  induction 1 as [|rec row recs rows [Hd _] _ (l & Hl & E1 & E2 & Hf)]; [by exists []|]. exists ((row, rec) :: l).
  cbn. rewrite Hd, Hl, E1, E2. split_and!; [done..|by constructor].
Qed.
Lemma sorted_impl {A} (P : A -> Prop) (R S : A -> A -> Prop) l : Forall P l -> (forall x y, P x -> P y -> R x y -> S x y) ->
  StronglySorted R l -> StronglySorted S l.
Proof.
  intros HP Hi. induction 1 as [|x l Hs IH Hx]; [constructor|]. apply Forall_cons in HP as [HPx HP]. constructor; [by apply IH|].
  rewrite Forall_forall in HP, Hx |- *. auto.
Qed.
Lemma order_by_sorts keys enc recs rows : Forall2 (decodes enc) recs rows ->
  order_by keys enc recs = Ok (sort_by (fun a b => compare_keys a b keys) rows).
Proof.
  intros Hr. destruct (decode_all_rows _ _ _ Hr) as (l & Hl & <- & <- & Hf). rewrite <- (sort_by_fmap fst).
  set (sorted := sort_by _ l). assert (Permutation sorted l) as Hp by apply sort_perm.
  unfold order_by. rewrite inserted. set (s := set_records _ _).
  assert (sorter_sort s = (Ok (negb (zlen sorted.*2 =? 0)), mkSorter keys enc sorted.*2 0 None)) as Hs.
  { unfold sorter_sort, s. cbn [so_encoding so_records so_keys sorter_new set_records app]. by rewrite Hl. }
  rewrite (M_bind_ok _ _ _ _ _ Hs).
  destruct (rows_read enc sorted [] None keys (length l.*2)) as (s' & Hs'); [by rewrite Hp| |exact (f_equal fst Hs')].
  by rewrite length_fmap, (Permutation_length Hp).
Qed.

(** C40: ORDER BY. When the records put into a sorter decode to [rows] (of
    well-formed values without NaN), sorting and then reading the sorter row by
    row gives back exactly these rows, arranged so that no row precedes an
    earlier one in the order of the keys: for the first key where two rows
    differ, by storage class, exact numeric value and bytes under the collation
    of the key, reversed for a DESC key. Rows that tie in every key come out in
    the order in which they were inserted. *)
Theorem order_by_spec keys enc recs rows : Forall2 (decodes enc) recs rows ->
  exists out, order_by keys enc recs = Ok out /\
    Permutation out rows /\
    StronglySorted (fun a b => ~ row_before keys b a) out /\
    (forall r, Forall field_ok r -> filter (tied keys r) out = filter (tied keys r) rows).
Proof.
  intros Hr. exists (sort_by (fun a b => compare_keys a b keys) rows). split; [by apply order_by_sorts|].
  assert (Forall (Forall field_ok) rows) as Hok by (clear - Hr; induction Hr as [|? ? ? ? [_ ?]]; by constructor).
  pose proof (compare_keys_orders keys) as Ho. pose proof (sort_P (fun a b => compare_keys a b keys) _ rows Hok) as Hsok.
  assert (forall r l, Forall field_ok r -> Forall (Forall field_ok) l ->
    filter (tied keys r) l = same (fun a b => compare_keys a b keys) r l) as Hfilter.
  { intros r l Hr0. induction 1 as [|a l Ha Hl IH]; [done|]. unfold same in *. rewrite !filter_cons, IH.
    pose proof (compare_keys_from_eq keys 0 r a Hr0 Ha) as Hiff. change (compare_keys r a keys = Eq <-> tied keys r a) in Hiff.
    by destruct (decide (tied keys r a)), (decide (compare_keys r a keys = Eq)); try tauto. }
  split_and!.
  - apply sort_perm.
  - eapply sorted_impl; [exact Hsok| |by apply (sort_sorted _ _ Ho)]. intros a b Ha Hb Hle Hba.
    apply (compare_keys_from_lt keys 0) in Hba; [|done..]. apply Hle. rewrite (ord_antisym _ _ Ho b a) by done.
    change (compare_keys b a keys = Lt) in Hba. by rewrite Hba.
  - intros r Hr0. rewrite !Hfilter by done. by apply (sort_same _ _ Ho).
Qed.
(** [ORDER BY 1 DESC, 2 COLLATE NOCASE] on [(1,'b'), (2,'z'), (1,'A'), (1,'B')]. *)
Definition sample_keys : list KeyField := [mkKeyField true Binary; mkKeyField false NoCase].
Definition sample_rows : list (list Value) :=
  [[Int 1; Text [98]]; [Int 2; Text [122]]; [Int 1; Text [65]]; [Int 1; Text [66]]].
Lemma order_by_spec_witness :
  order_by sample_keys Utf8 (encode_record <$> sample_rows) =
    Ok [[Int 2; Text [122]]; [Int 1; Text [65]]; [Int 1; Text [98]]; [Int 1; Text [66]]] /\
  exists out, order_by sample_keys Utf8 (encode_record <$> sample_rows) = Ok out /\
    Permutation out sample_rows /\ StronglySorted (fun a b => ~ row_before sample_keys b a) out /\
    (forall r, Forall field_ok r -> filter (tied sample_keys r) out = filter (tied sample_keys r) sample_rows).
Proof.
  split; [vm_compute; reflexivity|]. apply (order_by_spec sample_keys Utf8 (encode_record <$> sample_rows)).
  assert (forall a b, (0 <=? a) && (a <? 10) && (65 <=? b) && (b <? 128) = true ->
    decode_record (encode_record [Int a; Text [b]]) Utf8 = Ok [Int a; Text [b]] ->
    decodes Utf8 (encode_record [Int a; Text [b]]) [Int a; Text [b]]) as Hrow.
  { intros a b Hab Hd. split; [exact Hd|].
    assert (bytes_ok [b]) by (repeat constructor; unfold byte_ok; lia).
    assert (utf8_valid [b] = true) by (cbn; by destruct (Z.ltb_spec b 128); [|lia]).
    constructor; [|constructor; [|constructor]]; split; cbn [value_ok not_nan]; unfold is_i64; (done || lia || split; done). }
  do 4 (apply List.Forall2_cons; [by apply Hrow; vm_compute|]). apply List.Forall2_nil.
Defined.

(** Records are always written in UTF-8 and read back in the encoding of the
    database: the text of a UTF-16 database does not survive a sorter. *)
Lemma order_by_utf16_text :
  order_by sample_keys Utf16Le [encode_record [Int 1; Text [97; 98]]] = Ok [[Int 1; Text [0xE6; 0x89; 0xA1]]].
Proof. vm_compute. reflexivity. Qed.

(** Where the ephemeral index differs from value equality: records are compared
    as bytes, so 1 and 1.0 are different keys of a DISTINCT. *)
Lemma ephemeral_distinguishes_reals :
  mem_compare (Int 1) (Real 0x3FF0000000000000) Binary = Eq /\
  encode_record [Int 1] <> encode_record [Real 0x3FF0000000000000].
Proof. vm_compute. done. Qed.
