(* ===== verification/WalFormat.v ===== *)
(** * The write-ahead log and wal-index formats ([format/wal.rs],
      [format/wal_index.rs])

    The byte codecs of the WAL header, the frame headers and the wal-index
    structures, and the running checksum. *)

From S2P Require Import Prelude.

(** ** The WAL file *)

Definition WAL_MAGIC_BE : Z := 0x377f0683.
Definition WAL_MAGIC_LE : Z := 0x377f0682.
Definition WAL_FORMAT_VERSION : Z := 3007000.
Definition WAL_HEADER_SIZE : Z := 32.
Definition WAL_FRAME_HEADER_SIZE : Z := 24.

Record WalHeader := mkWalHeader {
  wh_magic : Z; wh_format_version : Z; wh_page_size : Z; wh_checkpoint_seq : Z;
  wh_salt1 : Z; wh_salt2 : Z; wh_checksum1 : Z; wh_checksum2 : Z
}.

Definition WalHeader_decode (buf : bytes) : outcome WalHeader :=
  if zlen buf <? WAL_HEADER_SIZE then Err (Error_msg "WAL header is too short")
  else
    magic ← be_at 4 buf 0;
    format_version ← be_at 4 buf 4;
    page_size ← be_at 4 buf 8;
    checkpoint_seq ← be_at 4 buf 12;
    salt1 ← be_at 4 buf 16;
    salt2 ← be_at 4 buf 20;
    checksum1 ← be_at 4 buf 24;
    checksum2 ← be_at 4 buf 28;
    Ok (mkWalHeader magic format_version page_size checkpoint_seq salt1 salt2 checksum1 checksum2).

Definition WalHeader_encode (h : WalHeader) (out : bytes) : outcome bytes :=
  if zlen out <? WAL_HEADER_SIZE then Panic (* assert! *)
  else
    out ← copy_into out 0 (be_bytes 4 (wh_magic h));
    out ← copy_into out 4 (be_bytes 4 (wh_format_version h));
    out ← copy_into out 8 (be_bytes 4 (wh_page_size h));
    out ← copy_into out 12 (be_bytes 4 (wh_checkpoint_seq h));
    out ← copy_into out 16 (be_bytes 4 (wh_salt1 h));
    out ← copy_into out 20 (be_bytes 4 (wh_salt2 h));
    out ← copy_into out 24 (be_bytes 4 (wh_checksum1 h));
    copy_into out 28 (be_bytes 4 (wh_checksum2 h)).

Definition checksum_big_endian (h : WalHeader) : bool := wh_magic h =? WAL_MAGIC_BE.

Record WalFrameHeader := mkWalFrameHeader {
  fh_page_number : Z; fh_commit_size : Z; fh_salt1 : Z; fh_salt2 : Z;
  fh_checksum1 : Z; fh_checksum2 : Z
}.

Definition WalFrameHeader_decode (buf : bytes) : outcome WalFrameHeader :=
  if zlen buf <? WAL_FRAME_HEADER_SIZE then Err (Error_msg "WAL frame header is too short")
  else
    page_number ← be_at 4 buf 0;
    commit_size ← be_at 4 buf 4;
    salt1 ← be_at 4 buf 8;
    salt2 ← be_at 4 buf 12;
    checksum1 ← be_at 4 buf 16;
    checksum2 ← be_at 4 buf 20;
    Ok (mkWalFrameHeader page_number commit_size salt1 salt2 checksum1 checksum2).

Definition WalFrameHeader_encode (h : WalFrameHeader) (out : bytes) : outcome bytes :=
  if zlen out <? WAL_FRAME_HEADER_SIZE then Panic (* assert! *)
  else
    out ← copy_into out 0 (be_bytes 4 (fh_page_number h));
    out ← copy_into out 4 (be_bytes 4 (fh_commit_size h));
    out ← copy_into out 8 (be_bytes 4 (fh_salt1 h));
    out ← copy_into out 12 (be_bytes 4 (fh_salt2 h));
    out ← copy_into out 16 (be_bytes 4 (fh_checksum1 h));
    copy_into out 20 (be_bytes 4 (fh_checksum2 h)).

(** [read_u32] of a four-byte word. *)
Definition read_u32 (b : bytes) (big_endian : bool) : Z := if big_endian then be_val b else le_val b.

(** The loop of [wal_checksum], two words ([s0 += x0 + s1; s1 += x1 + s0]) a
    step. *)
Fixpoint wal_checksum_loop (buf : bytes) (big_endian : bool) (s0 s1 : Z) : Z * Z :=
  match buf with
  | a :: b :: c :: d :: a' :: b' :: c' :: d' :: buf' =>
      let x0 := read_u32 [a; b; c; d] big_endian in
      let x1 := read_u32 [a'; b'; c'; d'] big_endian in
      let s0 := u32 (u32 (s0 + x0) + s1) in
      let s1 := u32 (u32 (s1 + x1) + s0) in
      wal_checksum_loop buf' big_endian s0 s1
  | _ => (s0, s1)
  end.
Definition wal_checksum (buf : bytes) (big_endian : bool) (s0_in s1_in : Z) : outcome (Z * Z) :=
  if zlen buf mod 8 =? 0 then Ok (wal_checksum_loop buf big_endian s0_in s1_in)
  else Panic (* assert! *).

(** ** The wal-index

    [to_ne_bytes]/[from_ne_bytes] are the native byte order; the hosts the
    project builds for are little-endian. *)

Definition SQLITE_SHM_NLOCK : Z := 8.
Definition WAL_NREADER : Z := SQLITE_SHM_NLOCK - 3.
Definition READMARK_NOT_USED : Z := 0xffffffff.
Definition WAL_WRITE_LOCK : Z := 0.
Definition WAL_CKPT_LOCK : Z := 1.
Definition WAL_RECOVER_LOCK : Z := 2.
Definition wal_read_lock (i : Z) : Z := 3 + i.
Definition WAL_INDEX_HDR_SIZE : Z := 48.
Definition WAL_CKPT_INFO_SIZE : Z := 4 + 4 * WAL_NREADER + SQLITE_SHM_NLOCK + 4 + 4.
Definition WAL_INDEX_HEADER_SIZE : Z := 2 * WAL_INDEX_HDR_SIZE + WAL_CKPT_INFO_SIZE.
Definition WALINDEX_LOCK_OFFSET : Z := 2 * WAL_INDEX_HDR_SIZE + 4 + 4 * WAL_NREADER.
Definition HASHTABLE_NPAGE : Z := 4096.
Definition HASHTABLE_NPAGE_ONE : Z := 4062.
Definition HASHTABLE_NSLOT : Z := 2 * HASHTABLE_NPAGE.

Definition ne_bytes := le_bytes.
Definition ne_at (n : Z) (b : bytes) (i : Z) : outcome Z :=
  s ← sub_range b i (i + n); if zlen s =? n then Ok (le_val s) else Panic.

Record WalIndexHdr := mkWalIndexHdr {
  i_version : Z; unused : Z; i_change : Z; is_init : Z; big_end_cksum : Z; sz_page : Z;
  wi_mx_frame : Z; wi_n_page : Z; a_frame_cksum : Z * Z; a_salt : Z * Z; a_cksum : Z * Z
}.
Definition WalIndexHdr_default : WalIndexHdr :=
  mkWalIndexHdr 0 0 0 0 0 0 0 0 (0, 0) (0, 0) (0, 0).
Definition WalIndexHdr_SIZE : Z := 4 + 4 + 4 + 1 + 1 + 2 + 4 + 4 + 8 + 8 + 8.

Definition WalIndexHdr_encode (h : WalIndexHdr) (out : bytes) : outcome bytes :=
  if zlen out <? WalIndexHdr_SIZE then Panic (* assert! *)
  else
    out ← copy_into out 0 (ne_bytes 4 (i_version h));
    out ← copy_into out 4 (ne_bytes 4 (unused h));
    out ← copy_into out 8 (ne_bytes 4 (i_change h));
    out ← copy_into out 12 [is_init h];
    out ← copy_into out 13 [big_end_cksum h];
    out ← copy_into out 14 (ne_bytes 2 (sz_page h));
    out ← copy_into out 16 (ne_bytes 4 (wi_mx_frame h));
    out ← copy_into out 20 (ne_bytes 4 (wi_n_page h));
    out ← copy_into out 24 (ne_bytes 4 (fst (a_frame_cksum h)));
    out ← copy_into out 28 (ne_bytes 4 (snd (a_frame_cksum h)));
    out ← copy_into out 32 (ne_bytes 4 (fst (a_salt h)));
    out ← copy_into out 36 (ne_bytes 4 (snd (a_salt h)));
    out ← copy_into out 40 (ne_bytes 4 (fst (a_cksum h)));
    copy_into out 44 (ne_bytes 4 (snd (a_cksum h))).

Definition WalIndexHdr_decode (buf : bytes) : outcome WalIndexHdr :=
  if zlen buf <? WalIndexHdr_SIZE then Err (Error_msg "wal-index header too short")
  else
    i_version ← ne_at 4 buf 0;
    unused ← ne_at 4 buf 4;
    i_change ← ne_at 4 buf 8;
    is_init ← idx buf 12;
    big_end_cksum ← idx buf 13;
    sz_page ← ne_at 2 buf 14;
    mx_frame ← ne_at 4 buf 16;
    n_page ← ne_at 4 buf 20;
    fc0 ← ne_at 4 buf 24; fc1 ← ne_at 4 buf 28;
    s0 ← ne_at 4 buf 32; s1 ← ne_at 4 buf 36;
    c0 ← ne_at 4 buf 40; c1 ← ne_at 4 buf 44;
    Ok (mkWalIndexHdr i_version unused i_change is_init big_end_cksum sz_page mx_frame n_page
          (fc0, fc1) (s0, s1) (c0, c1)).

Record WalCkptInfo := mkWalCkptInfo {
  n_backfill : Z; a_read_mark : list Z (* WAL_NREADER *); ck_a_lock : bytes (* SQLITE_SHM_NLOCK *);
  n_backfill_attempted : Z; not_used_0 : Z
}.
Definition WalCkptInfo_default : WalCkptInfo :=
  mkWalCkptInfo 0 (zrep WAL_NREADER READMARK_NOT_USED) (zrep SQLITE_SHM_NLOCK 0) 0 0.

Definition WalCkptInfo_encode (c : WalCkptInfo) (out : bytes) : outcome bytes :=
  if zlen out <? WAL_CKPT_INFO_SIZE then Panic (* assert! *)
  else
    out ← copy_into out 0 (ne_bytes 4 (n_backfill c));
    '(out, o) ← mfold (fun '(out, o) i =>
        m ← idx (a_read_mark c) i;
        out ← copy_into out o (ne_bytes 4 m);
        Ok (out, o + 4)) (out, 4) (seqZ 0 WAL_NREADER);
    out ← copy_into out o (ck_a_lock c);
    let o := o + SQLITE_SHM_NLOCK in
    out ← copy_into out o (ne_bytes 4 (n_backfill_attempted c));
    copy_into out (o + 4) (ne_bytes 4 (not_used_0 c)).

Definition WalCkptInfo_decode (buf : bytes) : outcome WalCkptInfo :=
  if zlen buf <? WAL_CKPT_INFO_SIZE then Err (Error_msg "wal-index ckpt-info too short")
  else
    n_backfill ← ne_at 4 buf 0;
    '(marks, o) ← mfold (fun '(marks, o) (_ : Z) =>
        m ← ne_at 4 buf o;
        Ok (marks ++ [m], o + 4)) ([], 4) (seqZ 0 WAL_NREADER);
    a_lock ← sub_range buf o (o + SQLITE_SHM_NLOCK);
    let o := o + SQLITE_SHM_NLOCK in
    n_backfill_attempted ← ne_at 4 buf o;
    not_used_0 ← ne_at 4 buf (o + 4);
    Ok (mkWalCkptInfo n_backfill marks a_lock n_backfill_attempted not_used_0).

Definition wal_hash_key (page : Z) : Z := u32 (page * 383) mod HASHTABLE_NSLOT.

(** [i64] arithmetic under overflow checks. *)
Definition wal_frame_offset (i_frame page_size : Z) : outcome Z :=
  let o := WAL_HEADER_SIZE + (i_frame - 1) * (page_size + WAL_FRAME_HEADER_SIZE) in
  if (- 2 ^ 63 <=? o) && (o <? 2 ^ 63) then Ok o else Panic.

(** ** Lemmas *)

Definition wal_header_ok (h : WalHeader) : Prop :=
  is_u32 (wh_magic h) /\ is_u32 (wh_format_version h) /\ is_u32 (wh_page_size h) /\
  is_u32 (wh_checkpoint_seq h) /\ is_u32 (wh_salt1 h) /\ is_u32 (wh_salt2 h) /\
  is_u32 (wh_checksum1 h) /\ is_u32 (wh_checksum2 h).
Definition frame_header_ok (h : WalFrameHeader) : Prop :=
  is_u32 (fh_page_number h) /\ is_u32 (fh_commit_size h) /\ is_u32 (fh_salt1 h) /\
  is_u32 (fh_salt2 h) /\ is_u32 (fh_checksum1 h) /\ is_u32 (fh_checksum2 h).

(** The encoders as concatenations. *)
Definition wal_header_bytes (h : WalHeader) : bytes :=
  be_bytes 4 (wh_magic h) ++ be_bytes 4 (wh_format_version h) ++ be_bytes 4 (wh_page_size h) ++
  be_bytes 4 (wh_checkpoint_seq h) ++ be_bytes 4 (wh_salt1 h) ++ be_bytes 4 (wh_salt2 h) ++
  be_bytes 4 (wh_checksum1 h) ++ be_bytes 4 (wh_checksum2 h).
Definition frame_header_bytes (h : WalFrameHeader) : bytes :=
  be_bytes 4 (fh_page_number h) ++ be_bytes 4 (fh_commit_size h) ++ be_bytes 4 (fh_salt1 h) ++
  be_bytes 4 (fh_salt2 h) ++ be_bytes 4 (fh_checksum1 h) ++ be_bytes 4 (fh_checksum2 h).

Lemma WalHeader_encode_eq h out : 32 <= zlen out ->
  WalHeader_encode h out = Ok (wal_header_bytes h ++ zdrop 32 out).
Proof.
  intros Hl. unfold WalHeader_encode, WAL_HEADER_SIZE. destruct (Z.ltb_spec (zlen out) 32); [lia|].
  change out with ([] ++ zdrop 0 out) at 1. fill_fields.
  by rewrite <- ?app_assoc.
Qed.
Lemma WalFrameHeader_encode_eq h out : 24 <= zlen out ->
  WalFrameHeader_encode h out = Ok (frame_header_bytes h ++ zdrop 24 out).
Proof.
  intros Hl. unfold WalFrameHeader_encode, WAL_FRAME_HEADER_SIZE.
  destruct (Z.ltb_spec (zlen out) 24); [lia|].
  change out with ([] ++ zdrop 0 out) at 1. fill_fields.
  by rewrite <- ?app_assoc.
Qed.

Lemma be4_small x : is_u32 x -> be_val (be_bytes 4 x) = x.
Proof. intros. apply be_val_be_bytes_small. exact H. Qed.

Lemma WalHeader_decode_eq h rest : wal_header_ok h ->
  WalHeader_decode (wal_header_bytes h ++ rest) = Ok h.
Proof.
  intros (?&?&?&?&?&?&?&?). unfold WalHeader_decode, WAL_HEADER_SIZE.
  destruct (Z.ltb_spec (zlen (wal_header_bytes h ++ rest)) 32) as [Hl|_].
  { rewrite zlen_app in Hl. change (zlen (wal_header_bytes h)) with 32 in Hl. len_lia. }
  rewrite !be_at_app_l by (change (zlen (wal_header_bytes h)) with 32; lia).
  destruct h as [a b c d e f g i]; cbn in *.
  change (Ok (mkWalHeader (be_val (be_bytes 4 a)) (be_val (be_bytes 4 b)) (be_val (be_bytes 4 c))
    (be_val (be_bytes 4 d)) (be_val (be_bytes 4 e)) (be_val (be_bytes 4 f)) (be_val (be_bytes 4 g))
    (be_val (be_bytes 4 i))) = Ok (mkWalHeader a b c d e f g i)).
  by rewrite !be4_small.
Qed.
Lemma WalFrameHeader_decode_eq h rest : frame_header_ok h ->
  WalFrameHeader_decode (frame_header_bytes h ++ rest) = Ok h.
Proof.
  intros (?&?&?&?&?&?). unfold WalFrameHeader_decode, WAL_FRAME_HEADER_SIZE.
  destruct (Z.ltb_spec (zlen (frame_header_bytes h ++ rest)) 24) as [Hl|_].
  { rewrite zlen_app in Hl. change (zlen (frame_header_bytes h)) with 24 in Hl. len_lia. }
  rewrite !be_at_app_l by (change (zlen (frame_header_bytes h)) with 24; lia).
  destruct h as [a b c d e f]; cbn in *.
  change (Ok (mkWalFrameHeader (be_val (be_bytes 4 a)) (be_val (be_bytes 4 b)) (be_val (be_bytes 4 c))
    (be_val (be_bytes 4 d)) (be_val (be_bytes 4 e)) (be_val (be_bytes 4 f)))
    = Ok (mkWalFrameHeader a b c d e f)).
  by rewrite !be4_small.
Qed.

Lemma sub_range_ne_app_l n b r i : i + n <= zlen b -> ne_at n (b ++ r) i = ne_at n b i.
Proof. intros. unfold ne_at. by rewrite sub_range_app_l. Qed.
Lemma ne4_small x : is_u32 x -> le_val (ne_bytes 4 x) = x.
Proof. intros. unfold ne_bytes. rewrite le_val_le_bytes. by apply Z.mod_small. Qed.
Lemma ne2_small x : is_u16 x -> le_val (ne_bytes 2 x) = x.
Proof. intros. unfold ne_bytes. rewrite le_val_le_bytes. by apply Z.mod_small. Qed.
Lemma zlen_ne_bytes n x : zlen (ne_bytes n x) = Z.of_nat n.
Proof. apply zlen_le_bytes. Qed.
#[export] Hint Rewrite zlen_ne_bytes : zlen.

Definition u32_pair (p : Z * Z) : Prop := is_u32 (fst p) /\ is_u32 (snd p).
Definition wal_index_hdr_ok (h : WalIndexHdr) : Prop :=
  Forall is_u32 [i_version h; unused h; i_change h; wi_mx_frame h; wi_n_page h] /\
  Forall is_u8 [is_init h; big_end_cksum h] /\ is_u16 (sz_page h) /\
  Forall u32_pair [a_frame_cksum h; a_salt h; a_cksum h].
Definition wal_ckpt_info_ok (c : WalCkptInfo) : Prop :=
  Forall is_u32 [n_backfill c; n_backfill_attempted c; not_used_0 c] /\
  Forall is_u32 (a_read_mark c) /\ length (a_read_mark c) = 5%nat /\ length (ck_a_lock c) = 8%nat.

Definition wal_index_hdr_bytes (h : WalIndexHdr) : bytes :=
  ne_bytes 4 (i_version h) ++ ne_bytes 4 (unused h) ++ ne_bytes 4 (i_change h) ++
  [is_init h] ++ [big_end_cksum h] ++ ne_bytes 2 (sz_page h) ++
  ne_bytes 4 (wi_mx_frame h) ++ ne_bytes 4 (wi_n_page h) ++
  ne_bytes 4 (fst (a_frame_cksum h)) ++ ne_bytes 4 (snd (a_frame_cksum h)) ++
  ne_bytes 4 (fst (a_salt h)) ++ ne_bytes 4 (snd (a_salt h)) ++
  ne_bytes 4 (fst (a_cksum h)) ++ ne_bytes 4 (snd (a_cksum h)).

Lemma WalIndexHdr_encode_eq h out : 48 <= zlen out ->
  WalIndexHdr_encode h out = Ok (wal_index_hdr_bytes h ++ zdrop 48 out).
Proof.
  intros Hl. unfold WalIndexHdr_encode. change WalIndexHdr_SIZE with 48.
  destruct (Z.ltb_spec (zlen out) 48); [lia|].
  change out with ([] ++ zdrop 0 out) at 1. fill_fields.
  by rewrite <- ?app_assoc.
Qed.

(** Read a field at the head of a buffer, or skip the field before it. *)
Lemma ne_at_head n x rest : ne_at (Z.of_nat n) (ne_bytes n x ++ rest) 0 = Ok (x mod 256 ^ Z.of_nat n).
Proof.
  unfold ne_at. rewrite sub_range_in by len_lia. simpl.
  rewrite (zslice_app3 [] (ne_bytes n x) rest) by len_lia.
  rewrite zlen_ne_bytes, Z.eqb_refl. f_equal. apply le_val_le_bytes.
Qed.
Lemma ne_at_skip n d rest i : zlen d <= i -> 0 <= n ->
  ne_at n (d ++ rest) i = ne_at n rest (i - zlen d).
Proof.
  intros. unfold ne_at, sub_range. pose proof (zlen_nonneg d). rewrite zlen_app.
  destruct (Z.leb_spec 0 i), (Z.leb_spec 0 (i - zlen d)), (Z.leb_spec i (i + n)),
    (Z.leb_spec (i - zlen d) (i - zlen d + n)), (Z.leb_spec (i + n) (zlen d + zlen rest)),
    (Z.leb_spec (i - zlen d + n) (zlen rest)); try lia; try done.
  simpl. rewrite zslice_app_r by lia. by replace (i + n - zlen d) with (i - zlen d + n) by lia.
Qed.
Ltac read_ne :=
  match goal with
  | |- context [ne_at 4 (ne_bytes 4 ?x ++ ?r) 0] =>
      change (ne_at 4 (ne_bytes 4 x ++ r) 0) with (ne_at (Z.of_nat 4) (ne_bytes 4 x ++ r) 0);
      rewrite (ne_at_head 4); change (256 ^ Z.of_nat 4) with (2 ^ 32);
      rewrite (Z.mod_small x) by (split; assumption)
  | |- context [ne_at 2 (ne_bytes 2 ?x ++ ?r) 0] =>
      change (ne_at 2 (ne_bytes 2 x ++ r) 0) with (ne_at (Z.of_nat 2) (ne_bytes 2 x ++ r) 0);
      rewrite (ne_at_head 2); change (256 ^ Z.of_nat 2) with (2 ^ 16);
      rewrite (Z.mod_small x) by (split; assumption)
  | |- context [ne_at ?n (?d ++ ?r) ?i] =>
      let k := eval vm_compute in (zlen d) in
      let j := eval vm_compute in (i - k) in
      replace (ne_at n (d ++ r) i) with (ne_at n r j)
        by (symmetry; apply (ne_at_skip n d r i); (vm_compute; discriminate))
  end; cbn [mbind outcome_bind].

Lemma WalIndexHdr_decode_eq h rest : wal_index_hdr_ok h ->
  WalIndexHdr_decode (wal_index_hdr_bytes h ++ rest) = Ok h.
Proof.
  intros (Hw&_&Hp&Hq). unfold WalIndexHdr_decode. change WalIndexHdr_SIZE with 48.
  destruct (Z.ltb_spec (zlen (wal_index_hdr_bytes h ++ rest)) 48) as [Hl|_].
  { rewrite zlen_app in Hl. change (zlen (wal_index_hdr_bytes h)) with 48 in Hl. len_lia. }
  destruct h as [a b c d e f g i [j k] [l m] [n o]].
  unfold wal_index_hdr_bytes, u32_pair, is_u32, is_u16 in *.
  cbn [i_version unused i_change is_init big_end_cksum sz_page wi_mx_frame wi_n_page
       a_frame_cksum a_salt a_cksum fst snd] in *.
  rewrite !Forall_cons in Hw. rewrite !Forall_cons in Hq. cbn [fst snd] in *.
  destruct_and?. rewrite <- !app_assoc.
  repeat read_ne.
  match goal with |- context [idx ?l 12] => change (idx l 12) with (Ok d) end.
  match goal with |- context [idx ?l 13] => change (idx l 13) with (Ok e) end.
  cbn [mbind outcome_bind]. repeat read_ne. reflexivity.
Qed.

Ltac idx_step :=
  match goal with
  | |- context [idx (?x :: ?l) ?i] =>
      let v := eval cbv in (idx (x :: l) i) in
      lazymatch v with Ok _ => change (idx (x :: l) i) with v end
  end; cbn [mbind outcome_bind].

Lemma WalCkptInfo_roundtrip c out : wal_ckpt_info_ok c -> 40 <= zlen out ->
  exists b, WalCkptInfo_encode c out = Ok (b ++ zdrop 40 out) /\ zlen b = 40 /\
    forall rest, WalCkptInfo_decode (b ++ rest) = Ok c.
Proof.
  intros (Hw&Hm&Hl5&Hl8) Hl. destruct c as [nb marks lk na nu]; cbn in *.
  destruct marks as [|m0 [|m1 [|m2 [|m3 [|m4 [|? ?]]]]]]; try discriminate.
  unfold is_u32 in *. rewrite !Forall_cons in Hw. rewrite !Forall_cons in Hm. destruct_and?.
  assert (zlen lk = 8) as Hlk by (unfold zlen; by rewrite Hl8).
  destruct lk as [|l0 [|l1 [|l2 [|l3 [|l4 [|l5 [|l6 [|l7 [|? ?]]]]]]]]]; try discriminate.
  exists (ne_bytes 4 nb ++ ne_bytes 4 m0 ++ ne_bytes 4 m1 ++ ne_bytes 4 m2 ++ ne_bytes 4 m3 ++
    ne_bytes 4 m4 ++ [l0; l1; l2; l3; l4; l5; l6; l7] ++ ne_bytes 4 na ++ ne_bytes 4 nu).
  split_and!; [|reflexivity|intros rest].
  - unfold WalCkptInfo_encode. change WAL_CKPT_INFO_SIZE with 40.
    destruct (Z.ltb_spec (zlen out) 40); [lia|].
    change (seqZ 0 WAL_NREADER) with [0; 1; 2; 3; 4].
    cbn [n_backfill a_read_mark ck_a_lock n_backfill_attempted not_used_0 mfold].
    change out with ([] ++ zdrop 0 out) at 1. repeat first [fill_field|idx_step].
    by rewrite <- ?app_assoc.
  - unfold WalCkptInfo_decode. change WAL_CKPT_INFO_SIZE with 40.
    set (b := ne_bytes 4 nb ++ _). assert (zlen b = 40) as Hb by done.
    destruct (Z.ltb_spec (zlen (b ++ rest)) 40) as [Hl'|_]; [len_lia|].
    change (seqZ 0 WAL_NREADER) with [0; 1; 2; 3; 4]. cbn [mfold]. subst b. rewrite <- !app_assoc.
    repeat read_ne. change SQLITE_SHM_NLOCK with 8.
    rewrite sub_range_in by (rewrite ?zlen_app, ?zlen_ne_bytes, ?zlen_cons; len_lia). reflexivity.
Qed.

(** The checksum of a concatenation continues the checksum of its first part. *)
Lemma wal_checksum_loop_app n a b big s0 s1 : length a = (8 * n)%nat ->
  wal_checksum_loop (a ++ b) big s0 s1 =
  (let '(t0, t1) := wal_checksum_loop a big s0 s1 in wal_checksum_loop b big t0 t1).
Proof.
  revert a s0 s1. induction n as [|n IH]; intros a s0 s1 Ha.
  - destruct a; [done|discriminate].
  - do 8 (destruct a as [|? a]; [simpl in Ha; lia|]). cbn [app wal_checksum_loop].
    apply IH. simpl in Ha. lia.
Qed.
Lemma zlen_mult8 {A} (l : list A) : zlen l mod 8 = 0 -> exists n, length l = (8 * n)%nat.
Proof.
  intros H. apply Z.mod_divide in H as [k Hk]; [|lia]. exists (Z.to_nat k). unfold zlen in Hk. lia.
Qed.
Lemma wal_checksum_ok b big s0 s1 : zlen b mod 8 = 0 ->
  wal_checksum b big s0 s1 = Ok (wal_checksum_loop b big s0 s1).
Proof. intros H. unfold wal_checksum. by rewrite H. Qed.
Lemma wal_checksum_loop_range n b big s0 s1 : length b = (8 * n)%nat -> is_u32 s0 -> is_u32 s1 ->
  is_u32 (fst (wal_checksum_loop b big s0 s1)) /\ is_u32 (snd (wal_checksum_loop b big s0 s1)).
Proof.
  revert b s0 s1. induction n as [|n IH]; intros b s0 s1 Hb H0 H1; [destruct b; [done|discriminate]|].
  do 8 (destruct b as [|? b]; [simpl in Hb; lia|]). cbn [wal_checksum_loop].
  apply IH; [simpl in Hb; lia| |]; unfold is_u32, u32; apply Z.mod_pos_bound; lia.
Qed.

(** ** Properties *)

(** the WAL header and the frame headers round-trip through their codecs:
    [encode] overwrites exactly the first 32 (24) bytes of the buffer and
    [decode] reads the same header back, whatever follows. *)
Theorem wal_headers_roundtrip h fh out rest (Hh : wal_header_ok h) (Hf : frame_header_ok fh)
    (Hl : 32 <= zlen out) :
  (exists b, WalHeader_encode h out = Ok (b ++ zdrop 32 out) /\ zlen b = 32 /\
     WalHeader_decode (b ++ rest) = Ok h) /\
  (exists b, WalFrameHeader_encode fh out = Ok (b ++ zdrop 24 out) /\ zlen b = 24 /\
     WalFrameHeader_decode (b ++ rest) = Ok fh).
Proof.
  split; [exists (wal_header_bytes h)|exists (frame_header_bytes fh)]; split_and!;
    auto using WalHeader_encode_eq, WalHeader_decode_eq, WalFrameHeader_decode_eq.
  apply WalFrameHeader_encode_eq. lia.
Qed.
Lemma wal_headers_roundtrip_witness :
  let h := mkWalHeader WAL_MAGIC_BE WAL_FORMAT_VERSION 4096 7 0x11223344 0x55667788 1 2 in
  let fh := mkWalFrameHeader 3 9 0x11223344 0x55667788 5 6 in
  let out := zrep 40 0xaa in
  (exists b, WalHeader_encode h out = Ok (b ++ zdrop 32 out) /\ zlen b = 32 /\
     WalHeader_decode (b ++ [1; 2]) = Ok h) /\
  (exists b, WalFrameHeader_encode fh out = Ok (b ++ zdrop 24 out) /\ zlen b = 24 /\
     WalFrameHeader_decode (b ++ [1; 2]) = Ok fh).
Proof.
  intros h fh out. apply (wal_headers_roundtrip h fh out [1; 2]).
  - unfold wal_header_ok, is_u32, h, WAL_MAGIC_BE, WAL_FORMAT_VERSION. cbn. lia.
  - unfold frame_header_ok, is_u32, fh. cbn. lia.
  - vm_compute. discriminate.
Defined.

(** The wal-index header and checkpoint-info records round-trip through
    their native-order codecs. *)
Theorem wal_index_roundtrip h c out rest (Hh : wal_index_hdr_ok h) (Hc : wal_ckpt_info_ok c)
    (Hl : 48 <= zlen out) :
  (exists b, WalIndexHdr_encode h out = Ok (b ++ zdrop 48 out) /\ zlen b = 48 /\
     WalIndexHdr_decode (b ++ rest) = Ok h) /\
  (exists b, WalCkptInfo_encode c out = Ok (b ++ zdrop 40 out) /\ zlen b = 40 /\
     WalCkptInfo_decode (b ++ rest) = Ok c).
Proof.
  split.
  - exists (wal_index_hdr_bytes h). auto using WalIndexHdr_encode_eq, WalIndexHdr_decode_eq.
  - destruct (WalCkptInfo_roundtrip c out Hc ltac:(lia)) as (b & ? & ? & ?). eauto.
Qed.
Lemma wal_index_roundtrip_witness :
  let h := mkWalIndexHdr 3007000 0 42 1 1 4096 17 9 (1, 2) (3, 4) (5, 6) in
  let out := zrep 50 0 in
  (exists b, WalIndexHdr_encode h out = Ok (b ++ zdrop 48 out) /\ zlen b = 48 /\
     WalIndexHdr_decode (b ++ []) = Ok h) /\
  (exists b, WalCkptInfo_encode WalCkptInfo_default out = Ok (b ++ zdrop 40 out) /\ zlen b = 40 /\
     WalCkptInfo_decode (b ++ []) = Ok WalCkptInfo_default).
Proof.
  intros h out. apply (wal_index_roundtrip h WalCkptInfo_default out []).
  - unfold wal_index_hdr_ok, u32_pair. by_decide.
  - unfold wal_ckpt_info_ok. by_decide.
  - vm_compute. discriminate.
Defined.

(** [wal_checksum] is a streaming checksum: running it over two chunks in
    turn gives the checksum of their concatenation, and it never leaves the
    [u32] range. *)
Theorem wal_checksum_stream a b big s0 s1 (Ha : zlen a mod 8 = 0) (Hb : zlen b mod 8 = 0)
    (H0 : is_u32 s0) (H1 : is_u32 s1) :
  exists t0 t1, wal_checksum a big s0 s1 = Ok (t0, t1) /\ is_u32 t0 /\ is_u32 t1 /\
    wal_checksum (a ++ b) big s0 s1 = wal_checksum b big t0 t1.
Proof.
  destruct (zlen_mult8 a Ha) as [n Hn].
  pose proof (wal_checksum_loop_range n a big s0 s1 Hn H0 H1) as Hr.
  destruct (wal_checksum_loop a big s0 s1) as [t0 t1] eqn:E. exists t0, t1.
  rewrite wal_checksum_ok, E by done. split_and!; try apply Hr; [done|].
  rewrite !wal_checksum_ok; [|done|].
  - by rewrite (wal_checksum_loop_app n), E by done.
  - rewrite zlen_app. by rewrite Z.add_mod, Ha, Hb by lia.
Qed.
Lemma wal_checksum_stream_witness :
  exists t0 t1, wal_checksum (zrep 8 255) true 1 2 = Ok (t0, t1) /\ is_u32 t0 /\ is_u32 t1 /\
    wal_checksum (zrep 8 255 ++ zrep 16 7) true 1 2 = wal_checksum (zrep 16 7) true t0 t1.
Proof.
  apply (wal_checksum_stream (zrep 8 255) (zrep 16 7) true 1 2);
    [reflexivity|reflexivity|unfold is_u32; lia|unfold is_u32; lia].
Defined.

(** The header constants of the wal-index module. *)
Example wal_index_layout : WAL_INDEX_HEADER_SIZE = 136 /\ WALINDEX_LOCK_OFFSET = 120.
Proof. split; reflexivity. Qed.
Example wal_checksum_word_order :
  wal_checksum [0; 0; 0; 1; 0; 0; 0; 2] true 0 0 = Ok (1, 3) /\
  wal_checksum [1; 0; 0; 0; 2; 0; 0; 0] false 0 0 = Ok (1, 3).
Proof. split; reflexivity. Qed.
