(* ===== verification/Vfs.v ===== *)
(** * The virtual file system ([vfs/mod.rs], [vfs/memvfs.rs])

    The [Vfs]/[VfsFile] traits as type classes ([VfsOps] with the laws
    [VfsLaws] the storage engine relies on), the file-lock and wal-index lock
    state machines, and the in-memory implementation [MemVfs], which is shown
    to satisfy the laws. *)

From S2P Require Import Prelude.

(** ** Flags and lock levels *)

Definition SQLITE_OPEN_READONLY : Z := 1.
Definition SQLITE_OPEN_READWRITE : Z := 2.
Definition SQLITE_OPEN_CREATE : Z := 4.
Definition OpenFlags_READONLY : Z := SQLITE_OPEN_READONLY.
Definition OpenFlags_READWRITE : Z := SQLITE_OPEN_READWRITE.
Definition OpenFlags_READWRITE_CREATE : Z := Z.lor SQLITE_OPEN_READWRITE SQLITE_OPEN_CREATE.
Definition flags_contains (flags flag : Z) : bool := negb (Z.land flags flag =? 0).
Definition is_readonly (flags : Z) : bool :=
  flags_contains flags SQLITE_OPEN_READONLY && negb (flags_contains flags SQLITE_OPEN_READWRITE).

Inductive LockLevel := Unlocked | Shared | Reserved | Pending | Exclusive.
#[export] Instance LockLevel_eq_dec : EqDecision LockLevel.
Proof. solve_decision. Defined.

(** [level as u8]; the derived [PartialOrd] compares these. *)
Definition LockLevel_u8 (l : LockLevel) : Z :=
  match l with Unlocked => 0 | Shared => 1 | Reserved => 2 | Pending => 3 | Exclusive => 4 end.
Definition LockLevel_from_u8 (v : Z) : LockLevel :=
  match v with 0 => Unlocked | 1 => Shared | 2 => Reserved | 3 => Pending | 4 => Exclusive
  | _ => Unlocked end.
Definition level_le (a b : LockLevel) : bool := LockLevel_u8 a <=? LockLevel_u8 b.

Record LockState := mkLockState { n_shared : Z; writer : option LockLevel }.
Definition LockState_default : LockState := mkLockState 0 None.

Definition busy_locked : Error := Error_busy "database is locked".
(** [u32::saturating_sub(1)]. *)
Definition sat_pred (x : Z) : Z := if x =? 0 then 0 else x - 1.

Definition apply_lock (current target : LockLevel) : M LockState unit := fun self =>
  if level_le target current then (Ok tt, self)
  else
    match current, target with
    | Unlocked, Shared =>
        match writer self with
        | Some Pending | Some Exclusive => (Err busy_locked, self)
        | _ =>
            match chk_add32 (n_shared self) 1 with
            | Ok n => (Ok tt, mkLockState n (writer self))
            | Err e => (Err e, self) | Panic => (Panic, self)
            end
        end
    | Shared, Reserved =>
        if writer self then (Err busy_locked, self)
        else (Ok tt, mkLockState (sat_pred (n_shared self)) (Some Reserved))
    | _, Exclusive =>
        let self := if bool_decide (current = Shared)
                    then mkLockState (sat_pred (n_shared self)) (writer self) else self in
        if (0 <? n_shared self) || (if writer self then true else false)
        then (Err busy_locked, self)
        else (Ok tt, mkLockState (n_shared self) (Some Exclusive))
    | _, _ => (Ok tt, self)
    end.

Definition apply_unlock (current target : LockLevel) : M LockState unit := fun self =>
  if level_le current Shared
  then
    if bool_decide (current = Shared) && bool_decide (target = Unlocked)
    then (Ok tt, mkLockState (sat_pred (n_shared self)) (writer self))
    else (Ok tt, self)
  else if bool_decide (target = Shared)
  then
    match chk_add32 (n_shared self) 1 with
    | Ok n => (Ok tt, mkLockState n None)
    | Err e => (Err e, mkLockState (n_shared self) None)
    | Panic => (Panic, mkLockState (n_shared self) None)
    end
  else (Ok tt, mkLockState (n_shared self) None).

(** [MemFile::lock]/[unlock] on a file with a shared lock state: the pair is
    the path's [LockState] and the handle's [lock_level]. *)
Definition memfile_lock (level : LockLevel) : M (LockState * LockLevel) unit :=
  fun '(st, current) =>
    if level_le level current then (Ok tt, (st, current))
    else match apply_lock current level st with
         | (Ok _, st') => (Ok tt, (st', level))
         | (r, st') => (r, (st', current))
         end.
Definition memfile_unlock (level : LockLevel) : M (LockState * LockLevel) unit :=
  fun '(st, current) =>
    if level_le current level then (Ok tt, (st, current))
    else match apply_unlock current level st with
         | (Ok _, st') => (Ok tt, (st', level))
         | (r, st') => (r, (st', current))
         end.

(** ** The traits *)

(** [Vfs] and [VfsFile]: [E] is the state of the file system, [F] an open
    file. [read_at f off len] returns the bytes stored at the front of the
    caller's buffer of length [len]; its length is the returned count. *)
Class VfsOps (E F : Type) := {
  vfs_open : string -> Z -> M E F;
  vfs_delete : string -> M E unit;
  vfs_exists : string -> M E bool;
  read_at : F -> Z -> Z -> M E bytes;
  write_at : F -> Z -> bytes -> M E unit;
  truncate : F -> Z -> M E unit;
  sync : F -> M E unit;
  file_size : F -> M E Z;
  file_lock : F -> LockLevel -> M E unit;
  file_unlock : F -> LockLevel -> M E unit;
  check_reserved_lock : F -> M E bool
}.

(** What a write and a truncation do to the contents of a file. *)
Definition mem_write (off : Z) (d b : bytes) : bytes :=
  splice off d (b ++ zrep (off + zlen d - zlen b) 0).
Definition mem_resize (size : Z) (b : bytes) : bytes := ztake size b ++ zrep (size - zlen b) 0.

(** The laws of a file system whose operations do not fail: [contents e f] is
    the file behind the handle [f] ([None] if there is no such handle), and
    handles that are not aliases do not interfere. *)
Class VfsLaws (E F : Type) `{VfsOps E F} := {
  contents : E -> F -> option bytes;
  alias : E -> F -> F -> Prop;
  alias_refl e f : alias e f f;
  read_at_spec e f b off len :
    contents e f = Some b -> 0 <= off -> 0 <= len ->
    read_at f off len e = (Ok (zslice off (off + len) b), e);
  file_size_spec e f b : contents e f = Some b -> file_size f e = (Ok (zlen b), e);
  write_at_spec e f b off d :
    contents e f = Some b -> 0 <= off -> off + zlen d < 2 ^ 64 ->
    exists e', write_at f off d e = (Ok tt, e') /\ contents e' f = Some (mem_write off d b) /\
      (forall g, ~ alias e f g -> contents e' g = contents e g) /\
      (forall g h, alias e' g h <-> alias e g h);
  truncate_spec e f b size :
    contents e f = Some b -> 0 <= size < 2 ^ 64 ->
    exists e', truncate f size e = (Ok tt, e') /\ contents e' f = Some (mem_resize size b) /\
      (forall g, ~ alias e f g -> contents e' g = contents e g) /\
      (forall g h, alias e' g h <-> alias e g h);
  sync_spec e f b :
    contents e f = Some b -> exists e', sync f e = (Ok tt, e') /\
      (forall g, contents e' g = contents e g) /\ (forall g h, alias e' g h <-> alias e g h)
}.

(** ** The in-memory file system

    The [Arc<Mutex<..>>] cells are maps from addresses; a handle is the
    address of its [MemFile]. *)

Record ShmNode := mkShmNode { regions : list nat; a_lock : list Z (* [i32; SQLITE_SHM_NLOCK] *) }.
Definition ShmNode_new : ShmNode := mkShmNode [] (zrep 8 0).

Record MemFile := mkMemFile {
  mf_data : nat; mf_lock_level : LockLevel; mf_lock_state : option nat; mf_shm_node : option nat;
  shm_shared_mask : Z; shm_excl_mask : Z
}.

Record MemVfs := mkMemVfs {
  mv_files : gmap string nat; mv_locks : gmap string nat; mv_shms : gmap string nat;
  bufs : gmap nat bytes; lock_states : gmap nat LockState; shm_nodes : gmap nat ShmNode;
  handles : gmap nat MemFile; next_addr : nat
}.
Definition MemVfs_new : MemVfs := mkMemVfs ∅ ∅ ∅ ∅ ∅ ∅ ∅ 0.

Definition set_bufs (f : gmap nat bytes -> gmap nat bytes) (v : MemVfs) : MemVfs :=
  mkMemVfs (mv_files v) (mv_locks v) (mv_shms v) (f (bufs v)) (lock_states v) (shm_nodes v)
    (handles v) (next_addr v).
Definition set_lock_states (f : gmap nat LockState -> gmap nat LockState) (v : MemVfs) : MemVfs :=
  mkMemVfs (mv_files v) (mv_locks v) (mv_shms v) (bufs v) (f (lock_states v)) (shm_nodes v)
    (handles v) (next_addr v).
Definition set_shm_nodes (f : gmap nat ShmNode -> gmap nat ShmNode) (v : MemVfs) : MemVfs :=
  mkMemVfs (mv_files v) (mv_locks v) (mv_shms v) (bufs v) (lock_states v) (f (shm_nodes v))
    (handles v) (next_addr v).
Definition set_handles (f : gmap nat MemFile -> gmap nat MemFile) (v : MemVfs) : MemVfs :=
  mkMemVfs (mv_files v) (mv_locks v) (mv_shms v) (bufs v) (lock_states v) (shm_nodes v)
    (f (handles v)) (next_addr v).

(** Dereference an address; every address in a reachable state is allocated. *)
Definition deref {A} (sel : MemVfs -> gmap nat A) (a : nat) : M MemVfs A :=
  fun v => (expect (sel v !! a), v).
(** A fresh address. *)
Definition alloc : M MemVfs nat := fun v =>
  (Ok (next_addr v), mkMemVfs (mv_files v) (mv_locks v) (mv_shms v) (bufs v) (lock_states v)
    (shm_nodes v) (handles v) (S (next_addr v))).

Definition is_private (path : string) : bool :=
  bool_decide (path = "") || bool_decide (path = ":memory:").

Definition lock_state_for (path : string) : M MemVfs (option nat) :=
  if is_private path then mret None
  else
    v ← get;
    match mv_locks v !! path with
    | Some a => mret (Some a)
    | None =>
        a ← alloc;
        modify (fun v => mkMemVfs (mv_files v) (<[path := a]> (mv_locks v)) (mv_shms v) (bufs v)
          (<[a := LockState_default]> (lock_states v)) (shm_nodes v) (handles v) (next_addr v)) ;;
        mret (Some a)
    end.
Definition shm_node_for (path : string) : M MemVfs (option nat) :=
  if is_private path then mret None
  else
    v ← get;
    match mv_shms v !! path with
    | Some a => mret (Some a)
    | None =>
        a ← alloc;
        modify (fun v => mkMemVfs (mv_files v) (mv_locks v) (<[path := a]> (mv_shms v)) (bufs v)
          (lock_states v) (<[a := ShmNode_new]> (shm_nodes v)) (handles v) (next_addr v)) ;;
        mret (Some a)
    end.

Definition new_handle (h : MemFile) : M MemVfs nat :=
  a ← alloc; modify (set_handles <[a := h]>) ;; mret a.
Definition new_buf : M MemVfs nat := a ← alloc; modify (set_bufs <[a := []]>) ;; mret a.

Definition mem_open (path : string) (_flags : Z) : M MemVfs nat :=
  data ← (if is_private path then new_buf
          else
            v ← get;
            match mv_files v !! path with
            | Some a => mret a
            | None =>
                a ← new_buf;
                modify (fun v => mkMemVfs (<[path := a]> (mv_files v)) (mv_locks v) (mv_shms v)
                  (bufs v) (lock_states v) (shm_nodes v) (handles v) (next_addr v)) ;;
                mret a
            end);
  lock_state ← lock_state_for path;
  shm_node ← shm_node_for path;
  new_handle (mkMemFile data Unlocked lock_state shm_node 0 0).

Definition mem_delete (path : string) : M MemVfs unit :=
  modify (fun v => mkMemVfs (delete path (mv_files v)) (delete path (mv_locks v))
    (delete path (mv_shms v)) (bufs v) (lock_states v) (shm_nodes v) (handles v) (next_addr v)).
Definition mem_exists (path : string) : M MemVfs bool :=
  v ← get; mret (if mv_files v !! path then true else false).

(** [MemFile::empty_boxed]. *)
Definition empty_boxed : M MemVfs nat :=
  data ← new_buf; new_handle (mkMemFile data Unlocked None None 0 0).

Definition mem_read_at (f : nat) (offset len : Z) : M MemVfs bytes :=
  h ← deref handles f;
  data ← deref bufs (mf_data h);
  if zlen data <=? offset then mret []
  else
    let n := Z.min len (zlen data - offset) in
    lift (sub_range data offset (offset + n)).

Definition mem_write_at (f : nat) (offset : Z) (src : bytes) : M MemVfs unit :=
  h ← deref handles f;
  data ← deref bufs (mf_data h);
  end_ ← lift (chk_add64 offset (zlen src));
  let data := if zlen data <? end_ then mem_resize end_ data else data in
  data ← lift (copy_into data offset src);
  modify (set_bufs <[mf_data h := data]>).

Definition mem_truncate (f : nat) (size : Z) : M MemVfs unit :=
  h ← deref handles f;
  data ← deref bufs (mf_data h);
  modify (set_bufs <[mf_data h := mem_resize size data]>).

Definition mem_sync (f : nat) : M MemVfs unit := mret tt.
Definition mem_file_size (f : nat) : M MemVfs Z :=
  h ← deref handles f; data ← deref bufs (mf_data h); mret (zlen data).

Definition set_lock_level (l : LockLevel) (h : MemFile) : MemFile :=
  mkMemFile (mf_data h) l (mf_lock_state h) (mf_shm_node h) (shm_shared_mask h) (shm_excl_mask h).

(** Run [memfile_lock]/[memfile_unlock] against the handle's lock state. *)
Definition with_lock_state (f : nat) (m : M (LockState * LockLevel) unit) (level : LockLevel)
    (done_ : LockLevel -> bool) : M MemVfs unit :=
  h ← deref handles f;
  match mf_lock_state h with
  | None =>
      if done_ (mf_lock_level h) then mret tt
      else modify (set_handles <[f := set_lock_level level h]>)
  | Some a =>
      st ← deref lock_states a;
      let '(r, (st', lvl)) := m (st, mf_lock_level h) in
      modify (fun v => set_handles <[f := set_lock_level lvl h]> (set_lock_states <[a := st']> v)) ;;
      lift r
  end.
Definition mem_lock (f : nat) (level : LockLevel) : M MemVfs unit :=
  with_lock_state f (memfile_lock level) level (level_le level).
Definition mem_unlock (f : nat) (level : LockLevel) : M MemVfs unit :=
  with_lock_state f (memfile_unlock level) level (fun current => level_le current level).

Definition mem_check_reserved_lock (f : nat) : M MemVfs bool :=
  h ← deref handles f;
  match mf_lock_state h with
  | Some a => st ← deref lock_states a; mret (if writer st then true else false)
  | None => mret false
  end.

(** *** The wal-index shared memory *)

Definition SHM_UNLOCK : Z := 1.
Definition SHM_LOCK : Z := 2.
Definition SHM_SHARED : Z := 4.
Definition SHM_EXCLUSIVE : Z := 8.
Definition SHM_NLOCK : Z := 8.

Definition mem_shm_map (f : nat) (i_region sz_region : Z) (b_extend : bool) : M MemVfs (option nat) :=
  h ← deref handles f;
  match mf_shm_node h with
  | None => mret None
  | Some a =>
      node ← deref shm_nodes a;
      if (zlen (regions node) <=? i_region) && negb b_extend then mret None
      else
        (* regions are pushed up through [i_region] *)
        mfor (seqZ (zlen (regions node)) (i_region + 1 - zlen (regions node))) (fun _ =>
          r ← alloc;
          modify (set_bufs <[r := zrep sz_region 0]>) ;;
          node ← deref shm_nodes a;
          modify (set_shm_nodes <[a := mkShmNode (regions node ++ [r]) (a_lock node)]>)) ;;
        node ← deref shm_nodes a;
        r ← lift (idx (regions node) i_region);
        mret (Some r)
  end.

(** The state one [shm_lock] call works on: the node's [a_lock] and the
    handle's shared and exclusive masks. *)
Record ShmView := mkShmView { sv_lock : list Z; sv_shared : Z; sv_excl : Z }.

Definition lock_slot (l : list Z) (i : Z) : outcome Z := idx l i.
Definition set_slot (i v : Z) (l : list Z) : list Z := splice i [v] l.
Definition flag_set (flags f : Z) : bool := negb (Z.land flags f =? 0).
Definition slot_mask (ofst n_slots : Z) : Z :=
  Z.land (Z.shiftl 1 (ofst + n_slots) - Z.shiftl 1 ofst) 0xff.
Definition mask_not (mask : Z) : Z := Z.lxor mask 0xff.
Definition busy_shm : Error := Error_busy "wal-index lock busy".

Definition shm_lock_slots (ofst n_slots flags : Z) : M ShmView unit := fun s =>
  let mask := slot_mask ofst n_slots in
  let slots := seqZ ofst n_slots in
  if flag_set flags SHM_UNLOCK then
    if flag_set flags SHM_SHARED then
      if negb (n_slots =? 1)
      then (Err (Error_io_err "xShmLock: SHARED unlock must have n==1"), s)
      else if Z.land (sv_shared s) mask =? 0 then (Ok tt, s)
      else
        match lock_slot (sv_lock s) ofst with
        | Ok v =>
            (Ok tt, mkShmView (set_slot ofst (if 1 <? v then v - 1 else 0) (sv_lock s))
                      (Z.land (sv_shared s) (mask_not mask)) (sv_excl s))
        | _ => (Panic, s)
        end
    else if Z.land (sv_excl s) mask =? 0 then (Ok tt, s)
    else (Ok tt, mkShmView (fold_left (fun l i => set_slot i 0 l) slots (sv_lock s))
                   (sv_shared s) (Z.land (sv_excl s) (mask_not mask)))
  else if flag_set flags SHM_SHARED then
    if negb (Z.land (sv_shared s) mask =? 0) then (Ok tt, s)
    else
      match lock_slot (sv_lock s) ofst with
      | Ok v =>
          if v <? 0 then (Err busy_shm, s)
          else (Ok tt, mkShmView (set_slot ofst (v + 1) (sv_lock s))
                         (Z.lor (sv_shared s) mask) (sv_excl s))
      | _ => (Panic, s)
      end
  else if flag_set flags SHM_EXCLUSIVE then
    if negb (Z.land (sv_excl s) mask =? 0) then (Ok tt, s)
    else if negb (Z.land (sv_shared s) mask =? 0)
    then (Err (Error_io_err "xShmLock: cannot upgrade SHARED to EXCLUSIVE"), s)
    else if forallb (fun i => if lock_slot (sv_lock s) i is Ok v then v =? 0 else false) slots
    then (Ok tt, mkShmView (fold_left (fun l i => set_slot i (-1) l) slots (sv_lock s))
                   (sv_shared s) (Z.lor (sv_excl s) mask))
    else (Err busy_shm, s)
  else (Err (Error_io_err "xShmLock: invalid flags (neither LOCK nor UNLOCK)"), s).

Definition set_masks (sh ex : Z) (h : MemFile) : MemFile :=
  mkMemFile (mf_data h) (mf_lock_level h) (mf_lock_state h) (mf_shm_node h) sh ex.

Definition mem_shm_lock (f : nat) (ofst n_slots flags : Z) : M MemVfs unit :=
  h ← deref handles f;
  if (SHM_NLOCK <? ofst + n_slots) || (n_slots =? 0)
  then fail (Error_io_err "invalid xShmLock range")
  else match mf_shm_node h with
  | None => fail (Error_io_err "xShmLock: no shm node")
  | Some a =>
      node ← deref shm_nodes a;
      let '(r, s) := shm_lock_slots ofst n_slots flags
                       (mkShmView (a_lock node) (shm_shared_mask h) (shm_excl_mask h)) in
      modify (fun v => set_handles <[f := set_masks (sv_shared s) (sv_excl s) h]>
                (set_shm_nodes <[a := mkShmNode (regions node) (sv_lock s)]> v)) ;;
      lift r
  end.

(** The loop of [shm_unmap] over the slots. *)
Definition shm_drop_slots (s : ShmView) : list Z :=
  fold_left (fun l i =>
    let l := if negb (Z.land (sv_shared s) (Z.shiftl 1 i) =? 0)
             then match lock_slot l i with
                  | Ok v => if 0 <? v then set_slot i (v - 1) l else l
                  | _ => l
                  end
             else l in
    if negb (Z.land (sv_excl s) (Z.shiftl 1 i) =? 0) then set_slot i 0 l else l)
    (seqZ 0 SHM_NLOCK) (sv_lock s).
Definition mem_shm_unmap (f : nat) (delete_flag : bool) : M MemVfs unit :=
  h ← deref handles f;
  match mf_shm_node h with
  | None => mret tt
  | Some a =>
      node ← deref shm_nodes a;
      let l := shm_drop_slots (mkShmView (a_lock node) (shm_shared_mask h) (shm_excl_mask h)) in
      modify (fun v => set_handles <[f := set_masks 0 0 h]>
                (set_shm_nodes <[a := mkShmNode (if delete_flag then [] else regions node) l]> v))
  end.

#[export] Instance MemVfs_ops : VfsOps MemVfs nat := {
  vfs_open := mem_open; vfs_delete := mem_delete; vfs_exists := mem_exists;
  read_at := mem_read_at; write_at := mem_write_at; truncate := mem_truncate; sync := mem_sync;
  file_size := mem_file_size; file_lock := mem_lock; file_unlock := mem_unlock;
  check_reserved_lock := mem_check_reserved_lock
}.

(** *** The laws *)

Definition mem_contents (v : MemVfs) (f : nat) : option bytes :=
  h ← handles v !! f; bufs v !! mf_data h.
Definition mem_alias (v : MemVfs) (f g : nat) : Prop :=
  mf_data <$> handles v !! f = mf_data <$> handles v !! g.

Lemma mem_contents_Some v f b : mem_contents v f = Some b ->
  exists h, handles v !! f = Some h /\ bufs v !! mf_data h = Some b.
Proof. unfold mem_contents. destruct (handles v !! f) as [h|]; simpl; [eauto|done]. Qed.
Lemma deref_ok {A} (sel : MemVfs -> gmap nat A) a v x :
  sel v !! a = Some x -> deref sel a v = (Ok x, v).
Proof. unfold deref. by intros ->. Qed.

(** Replacing the buffer behind a handle. *)
Lemma mem_contents_update v f h b' :
  handles v !! f = Some h ->
  let v' := set_bufs <[mf_data h := b']> v in
  mem_contents v' f = Some b' /\
  (forall g, ~ mem_alias v f g -> mem_contents v' g = mem_contents v g) /\
  (forall g k, mem_alias v' g k <-> mem_alias v g k).
Proof.
  intros Hh v'. split_and!; [|intros g Hg|done].
  - unfold mem_contents, v', set_bufs; simpl. rewrite Hh; simpl. apply lookup_insert_eq.
  - unfold mem_contents, v', set_bufs; simpl. destruct (handles v !! g) as [k|] eqn:Hk; [|done]. simpl.
    apply lookup_insert_ne. intros Heq. apply Hg. unfold mem_alias. by rewrite Hh, Hk; simpl; rewrite Heq.
Qed.

Lemma mem_resize_grow size b : zlen b <= size -> mem_resize size b = b ++ zrep (size - zlen b) 0.
Proof. intros. unfold mem_resize. by rewrite ztake_all. Qed.
Lemma zlen_mem_resize size b : 0 <= size -> zlen (mem_resize size b) = size.
Proof. intros. unfold mem_resize. len_lia. Qed.
Lemma zlen_mem_write off d b : 0 <= off -> zlen (mem_write off d b) = Z.max (zlen b) (off + zlen d).
Proof. intros. unfold mem_write. rewrite zlen_splice; len_lia. Qed.

Lemma mem_write_at_spec v f b off d :
  mem_contents v f = Some b -> 0 <= off -> off + zlen d < 2 ^ 64 ->
  exists h, handles v !! f = Some h /\
    mem_write_at f off d v = (Ok tt, set_bufs <[mf_data h := mem_write off d b]> v).
Proof.
  intros (h & Hh & Hb)%mem_contents_Some Ho Hd. exists h. split; [done|].
  unfold mem_write_at. erewrite M_bind_ok by by apply deref_ok. erewrite M_bind_ok by by apply deref_ok.
  unfold chk_add64. destruct (Z.ltb_spec (off + zlen d) (2 ^ 64)); [|lia].
  unfold lift, mbind, M_bind. cbn iota beta.
  assert ((if zlen b <? off + zlen d then mem_resize (off + zlen d) b else b) =
          b ++ zrep (off + zlen d - zlen b) 0) as ->.
  { destruct (Z.ltb_spec (zlen b) (off + zlen d)).
    - apply mem_resize_grow. lia.
    - unfold zrep. rewrite Z2Nat.nonpos by lia. by rewrite app_nil_r. }
  rewrite copy_into_in by len_lia. done.
Qed.

#[export] Program Instance MemVfs_laws : VfsLaws MemVfs nat := {
  contents := mem_contents; alias := mem_alias
}.
Next Obligation. done. Qed.
Next Obligation.
  intros v f b off len (h & Hh & Hb)%mem_contents_Some Ho Hl. simpl. unfold mem_read_at.
  erewrite M_bind_ok by by apply deref_ok. erewrite M_bind_ok by by apply deref_ok.
  pose proof (zlen_nonneg b). destruct (Z.leb_spec (zlen b) off).
  - unfold mret, M_ret. do 2 f_equal. unfold zslice. rewrite zdrop_all by lia.
    by rewrite ztake_all by len_lia.
  - unfold lift. rewrite sub_range_in by lia. do 2 f_equal. unfold zslice.
    destruct (Z.le_ge_cases len (zlen b - off)); [f_equal; lia|].
    rewrite !ztake_all by len_lia. done.
Qed.
Next Obligation.
  intros v f b (h & Hh & Hb)%mem_contents_Some. simpl. unfold mem_file_size.
  erewrite M_bind_ok by by apply deref_ok. by erewrite M_bind_ok by by apply deref_ok.
Qed.
Next Obligation.
  intros v f b off d Hc Ho Hd. simpl.
  destruct (mem_write_at_spec v f b off d Hc Ho Hd) as (h & Hh & E). eexists. split; [exact E|].
  by apply mem_contents_update.
Qed.
Next Obligation.
  intros v f b size (h & Hh & Hb)%mem_contents_Some Hs. simpl. unfold mem_truncate.
  erewrite M_bind_ok by by apply deref_ok. erewrite M_bind_ok by by apply deref_ok.
  eexists. split; [done|]. by apply mem_contents_update.
Qed.
Next Obligation. intros v f b Hc. simpl. eexists. split; [done|]. done. Qed.

(** ** Files as byte arrays *)

Lemma mem_write_eq off d b : 0 <= off ->
  zslice off (off + zlen d) (mem_write off d b) = d.
Proof. intros. unfold mem_write. apply zslice_splice_eq; len_lia. Qed.
Lemma mem_write_ne off d b i j : 0 <= off -> 0 <= i -> i <= j -> j <= zlen b ->
  j <= off \/ off + zlen d <= i -> zslice i j (mem_write off d b) = zslice i j b.
Proof.
  intros. unfold mem_write. rewrite zslice_splice_ne by len_lia. apply zslice_app_l; lia.
Qed.
Lemma mem_write_app pre d post : zlen post <= zlen d ->
  mem_write (zlen pre) d (pre ++ post) = pre ++ d.
Proof.
  intros. unfold mem_write, splice. rewrite <- app_assoc, ztake_app_ge, ztake_0, app_nil_r by lia.
  f_equal. rewrite zdrop_app_ge by len_lia. rewrite zdrop_all by len_lia. by rewrite app_nil_r.
Qed.
Lemma mem_write_over pre d post :
  mem_write (zlen pre) d (pre ++ post) = pre ++ d ++ zdrop (zlen d) post.
Proof.
  unfold mem_write, splice. pose proof (zlen_nonneg d). rewrite <- app_assoc, ztake_app_ge, ztake_0, app_nil_r by lia.
  do 2 f_equal. rewrite zdrop_app_ge by lia. rewrite Z.add_simpl_l.
  destruct (Z.le_ge_cases (zlen d) (zlen post)).
  - rewrite zdrop_app_le by lia. unfold zrep. rewrite Z2Nat.nonpos by len_lia. by rewrite app_nil_r.
  - rewrite !zdrop_all by len_lia. done.
Qed.
Lemma zrep_add {A} n m (x : A) : 0 <= n -> 0 <= m -> zrep (n + m) x = zrep n x ++ zrep m x.
Proof. intros. unfold zrep. by rewrite Z2Nat.inj_add, replicate_add by lia. Qed.
Lemma mem_write_gap off d b : zlen b <= off ->
  mem_write off d b = b ++ zrep (off - zlen b) 0 ++ d.
Proof.
  intros. unfold mem_write, splice. pose proof (zlen_nonneg d).
  replace (off + zlen d - zlen b) with ((off - zlen b) + zlen d) by lia.
  rewrite zrep_add, (app_assoc b) by lia.
  rewrite ztake_app_le by len_lia. rewrite ztake_all by (rewrite zlen_app, zlen_zrep; lia).
  rewrite zdrop_all by len_lia. by rewrite app_nil_r, <- app_assoc.
Qed.
Lemma mem_write_bytes_ok off d b : bytes_ok d -> bytes_ok b -> bytes_ok (mem_write off d b).
Proof.
  intros. apply bytes_ok_splice; [done|]. apply Forall_app; split; [done|].
  apply bytes_ok_zrep. unfold byte_ok. lia.
Qed.

(** ** Handles on one path

    Several open files over one path share a [LockState]; the pager takes
    SHARED first, RESERVED only from SHARED, and EXCLUSIVE from any level. *)

Inductive lock_op := OpLock (i : nat) (l : LockLevel) | OpUnlock (i : nat) (l : LockLevel).
Definition LockSys : Type := LockState * list LockLevel.

Definition lock_sys_step (op : lock_op) (s : LockSys) : outcome unit * LockSys :=
  let '(i, m) := match op with
                 | OpLock i l => (i, memfile_lock l)
                 | OpUnlock i l => (i, memfile_unlock l)
                 end in
  match snd s !! i with
  | None => (Ok tt, s)
  | Some current =>
      let '(r, (st, l)) := m (fst s, current) in (r, (st, <[i := l]> (snd s)))
  end.

(** The requests the pager makes. *)
Definition pager_lock_op (s : LockSys) (op : lock_op) : Prop :=
  match op with
  | OpLock i Shared | OpLock i Exclusive => True
  | OpLock i Reserved => snd s !! i <> Some Unlocked
  | OpLock i _ => False
  | OpUnlock i l => l = Unlocked \/ l = Shared
  end.

Inductive lock_reach (k : nat) : LockSys -> Prop :=
  | lock_reach_init : lock_reach k (LockState_default, replicate k Unlocked)
  | lock_reach_step s op r s' :
      lock_reach k s -> pager_lock_op s op -> lock_sys_step op s = (r, s') -> r <> Panic ->
      lock_reach k s'.

(** At most one handle is above SHARED, and [writer] is its level. *)
Definition lock_inv (s : LockSys) : Prop :=
  match writer (fst s) with
  | None => forall j l, snd s !! j = Some l -> level_le l Shared = true
  | Some w => (w = Reserved \/ w = Exclusive) /\
      exists i, snd s !! i = Some w /\
        forall j l, j <> i -> snd s !! j = Some l -> level_le l Shared = true
  end.

Lemma lock_inv_init k : lock_inv (LockState_default, replicate k Unlocked).
Proof. intros j l H. by apply lookup_replicate in H as [-> _]. Qed.

(** Changing a handle within UNLOCKED/SHARED. *)
Lemma lock_inv_low st ls n i l l' :
  lock_inv (st, ls) -> ls !! i = Some l -> level_le l Shared = true -> level_le l' Shared = true ->
  lock_inv (mkLockState n (writer st), <[i := l']> ls).
Proof.
  unfold lock_inv; simpl. intros Hinv Hi Hl Hl'. destruct (writer st) as [w|].
  - destruct Hinv as (Hw & k & Hk & Hothers). split; [done|]. exists k.
    assert (k <> i) as Hki 
      by (intros ->; rewrite Hi in Hk; injection Hk as ->; by destruct Hw as [-> | ->]).
    split; [by rewrite list_lookup_insert_ne|]. intros j m Hj.
    destruct (decide (i = j)) as [->|Hne].
    + rewrite list_lookup_insert_eq by (by eapply lookup_lt_Some). by intros [= <-].
    + rewrite list_lookup_insert_ne by done. by apply Hothers.
  - intros j m. destruct (decide (i = j)) as [->|Hne].
    + rewrite list_lookup_insert_eq by (by eapply lookup_lt_Some). by intros [= <-].
    + rewrite list_lookup_insert_ne by done. apply Hinv.
Qed.

(** A handle becoming the writer when there is none. *)
Lemma lock_inv_take st ls n i l w :
  lock_inv (st, ls) -> writer st = None -> ls !! i = Some l -> w = Reserved \/ w = Exclusive ->
  lock_inv (mkLockState n (Some w), <[i := w]> ls).
Proof.
  unfold lock_inv; simpl. intros Hinv Hw Hi Hlw. rewrite Hw in Hinv. split; [done|]. exists i.
  split; [by rewrite list_lookup_insert_eq by (by eapply lookup_lt_Some)|].
  intros j m Hj. rewrite list_lookup_insert_ne by done. apply Hinv.
Qed.

(** The writer stepping down. *)
Lemma lock_inv_drop st ls n i l l' :
  lock_inv (st, ls) -> ls !! i = Some l -> level_le l Shared = false -> level_le l' Shared = true ->
  lock_inv (mkLockState n None, <[i := l']> ls).
Proof.
  unfold lock_inv; simpl. intros Hinv Hi Hl Hl' j m. destruct (decide (i = j)) as [->|Hne].
  - rewrite list_lookup_insert_eq by (by eapply lookup_lt_Some). by intros [= <-].
  - rewrite list_lookup_insert_ne by done. intros Hj. destruct (writer st) as [w|].
    + destruct Hinv as (_ & k & Hk & Hothers). destruct (decide (k = i)) as [->|]; [eauto|].
      specialize (Hothers i l ltac:(done) Hi). congruence.
    + by eapply Hinv.
Qed.

Lemma apply_lock_cases l t st r st' :
  t = Shared \/ t = Exclusive \/ (t = Reserved /\ l <> Unlocked) -> level_le t l = false ->
  apply_lock l t st = (r, st') -> r <> Panic ->
  (exists e, r = Err e) /\ writer st' = writer st \/
  r = Ok tt /\ t = Shared /\ l = Unlocked /\ writer st' = writer st \/
  r = Ok tt /\ (t = Reserved \/ t = Exclusive) /\ writer st = None /\ writer st' = Some t.
Proof.
  intros Ht Hle E Hr. unfold apply_lock in E. rewrite Hle in E.
  destruct st as [n w]; simpl in E.
  destruct Ht as [->|[->|[-> Hl]]]; destruct l; try discriminate Hle; try done; simpl in E.
  all: try (destruct w as [[]|]; simpl in E).
  all: unfold chk_add32 in E; rewrite ?orb_true_r in E;
    repeat match type of E with context [if ?c then _ else _] => destruct c end;
    injection E as <- <-; try done; eauto 10.
Qed.

Lemma apply_unlock_cases l t st r st' :
  t = Unlocked \/ t = Shared -> level_le l t = false -> apply_unlock l t st = (r, st') -> r <> Panic ->
  r = Ok tt /\ (level_le l Shared = true /\ writer st' = writer st \/
                level_le l Shared = false /\ writer st' = None).
Proof.
  intros Ht Hle E Hr. unfold apply_unlock, chk_add32 in E.
  destruct Ht as [-> | ->]; destruct l; try discriminate Hle; simpl in E;
    repeat match type of E with context [if ?c then _ else _] => destruct c end;
    injection E as <- <-; try done; auto.
Qed.

Lemma lock_inv_writer st st' ls : writer st' = writer st -> lock_inv (st, ls) -> lock_inv (st', ls).
Proof. unfold lock_inv; simpl. by intros ->. Qed.

Lemma lock_inv_step s op r s' :
  lock_inv s -> pager_lock_op s op -> lock_sys_step op s = (r, s') -> r <> Panic -> lock_inv s'.
Proof.
  destruct s as [st ls]. intros Hinv Hop Hstep Hr.
  destruct op as [i t|i t]; unfold lock_sys_step in Hstep; simpl in Hstep, Hop;
    destruct (ls !! i) as [l|] eqn:Hi; try (by injection Hstep as <- <-).
  - unfold memfile_lock in Hstep.
    destruct (level_le t l) eqn:Hle; [injection Hstep as <- <-; by rewrite list_insert_id|].
    destruct (apply_lock l t st) as [r' st'] eqn:E.
    assert (r' <> Panic) as Hr' by (intros ->; by injection Hstep as <- _).
    destruct (apply_lock_cases l t st r' st') as [[[e ->] Hw]|[(-> & -> & -> & Hw)|(-> & Ht & Hn & Hw)]];
      [by destruct t; try done; auto; right; right; split; congruence|done..| | |];
      injection Hstep as <- <-.
    + rewrite list_insert_id by done. by eapply lock_inv_writer.
    + destruct st' as [n w]; simpl in Hw; subst w. by eapply lock_inv_low.
    + destruct st' as [n w]; simpl in Hw; subst w. by eapply lock_inv_take.
  - unfold memfile_unlock in Hstep.
    destruct (level_le l t) eqn:Hle; [injection Hstep as <- <-; by rewrite list_insert_id|].
    destruct (apply_unlock l t st) as [r' st'] eqn:E.
    assert (r' <> Panic) as Hr' by (intros ->; by injection Hstep as <- _).
    destruct (apply_unlock_cases l t st r' st' Hop Hle E Hr') as [-> Hc].
    injection Hstep as <- <-. destruct st' as [n w]. simpl in Hc.
    assert (level_le t Shared = true) by (by destruct Hop as [-> | ->]).
    destruct Hc as [[Hl ->]|[Hl ->]]; [by eapply lock_inv_low|by eapply lock_inv_drop].
Qed.

Lemma lock_reach_inv k s : lock_reach k s -> lock_inv s.
Proof.
  induction 1 as [|s op r s' _ IH Hop Hstep Hr]; [apply lock_inv_init|by eapply lock_inv_step].
Qed.

(** ** Properties *)

(** C25: single writer. However the handles on a path interleave the requests
    that the pager makes -- SHARED and EXCLUSIVE from any level, RESERVED by a
    handle that holds a lock already, releases to SHARED or to UNLOCKED
    ([pager_lock_op]) -- at most one of them is above SHARED, and the shared
    [writer] slot records exactly that handle's level. (Other requests are
    granted without a look at the other handles, [two_reserved], [two_pending].) *)
Theorem single_writer k s (Hr : lock_reach k s) :
  (forall i j li lj, snd s !! i = Some li -> snd s !! j = Some lj ->
     level_le li Shared = false -> level_le lj Shared = false -> i = j) /\
  (forall i l, snd s !! i = Some l -> level_le l Shared = false -> writer (fst s) = Some l).
Proof.
  apply lock_reach_inv in Hr. unfold lock_inv in Hr. destruct (writer (fst s)) as [w|].
  - destruct Hr as (_ & k' & Hk & Hothers).
    assert (forall i l, snd s !! i = Some l -> level_le l Shared = false -> i = k') as Huniq.
    { intros i l Hi Hl. destruct (decide (i = k')); [done|].
      rewrite (Hothers i l) in Hl by done. discriminate. }
    split; [intros i j li lj Hi Hj Hli Hlj; rewrite (Huniq i li), (Huniq j lj); done|].
    intros i l Hi Hl. rewrite (Huniq i l) in Hi by done. congruence.
  - split; intros; by erewrite Hr in *.
Qed.
Lemma single_writer_witness :
  (forall i j li lj, snd (mkLockState 1 (Some Reserved), [Reserved; Shared]) !! i = Some li ->
     snd (mkLockState 1 (Some Reserved), [Reserved; Shared]) !! j = Some lj ->
     level_le li Shared = false -> level_le lj Shared = false -> i = j) /\
  (forall i l, snd (mkLockState 1 (Some Reserved), [Reserved; Shared]) !! i = Some l ->
     level_le l Shared = false -> writer (fst (mkLockState 1 (Some Reserved), [Reserved; Shared])) = Some l).
Proof.
  apply (single_writer 2 (mkLockState 1 (Some Reserved), [Reserved; Shared])).
  apply (lock_reach_step 2 (mkLockState 2 None, [Shared; Shared]) (OpLock 0 Reserved) (Ok tt));
    [|done|reflexivity|done].
  apply (lock_reach_step 2 (mkLockState 1 None, [Shared; Unlocked]) (OpLock 1 Shared) (Ok tt));
    [|done|reflexivity|done].
  apply (lock_reach_step 2 (LockState_default, replicate 2 Unlocked) (OpLock 0 Shared) (Ok tt));
    [constructor|done|reflexivity|done].
Defined.

(** RESERVED asked for from UNLOCKED, and PENDING from any level, are granted to
    everybody: the last branch of [apply_lock] grants without recording it. *)
Lemma two_reserved :
  let '(r1, s1) := lock_sys_step (OpLock 0 Reserved) (LockState_default, [Unlocked; Unlocked]) in
  let '(r2, s2) := lock_sys_step (OpLock 1 Reserved) s1 in
  r1 = Ok tt /\ r2 = Ok tt /\ snd s2 = [Reserved; Reserved] /\ writer (fst s2) = None.
Proof. done. Qed.
Lemma two_pending :
  let '(r1, s1) := lock_sys_step (OpLock 0 Pending) (mkLockState 2 None, [Shared; Shared]) in
  let '(r2, s2) := lock_sys_step (OpLock 1 Pending) s1 in
  r1 = Ok tt /\ r2 = Ok tt /\ snd s2 = [Pending; Pending] /\ writer (fst s2) = None.
Proof. done. Qed.

(** A failed SHARED-to-EXCLUSIVE request has already given up the handle's
    share, so that another handle can then become EXCLUSIVE although the first
    still holds SHARED. *)
Lemma exclusive_with_reader :
  exists s, lock_reach 2 s /\ snd s = [Shared; Exclusive].
Proof.
  exists (mkLockState 0 (Some Exclusive), [Shared; Exclusive]). split; [|done].
  apply (lock_reach_step 2 (mkLockState 1 None, [Shared; Shared]) (OpLock 1 Exclusive) (Ok tt));
    [|done|reflexivity|done].
  apply (lock_reach_step 2 (mkLockState 2 None, [Shared; Shared]) (OpLock 0 Exclusive) (Err busy_locked));
    [|done|reflexivity|done].
  apply (lock_reach_step 2 (mkLockState 1 None, [Shared; Unlocked]) (OpLock 1 Shared) (Ok tt));
    [|done|reflexivity|done].
  apply (lock_reach_step 2 (LockState_default, replicate 2 Unlocked) (OpLock 0 Shared) (Ok tt));
    [constructor|done|reflexivity|done].
Qed.
(** The RESERVED-to-EXCLUSIVE upgrade the comment lists is always refused. *)
Lemma reserved_to_exclusive_busy n :
  apply_lock Reserved Exclusive (mkLockState n (Some Reserved)) =
  (Err busy_locked, mkLockState n (Some Reserved)).
Proof. unfold apply_lock. simpl. by rewrite orb_true_r. Qed.

(** The in-memory file system behaves as an array of bytes with named,
    shared files: what is written at an offset is read back from it, the bytes
    outside it keep their values, the file grows to hold the write (with zeros
    in a gap), and an open of the same path sees the same bytes. *)
Theorem memvfs_read_write v f g b off d (Hc : mem_contents v f = Some b) (Ho : 0 <= off)
    (Hd : off + zlen d < 2 ^ 64) :
  exists v', mem_write_at f off d v = (Ok tt, v') /\
    mem_read_at f off (zlen d) v' = (Ok d, v') /\
    mem_file_size f v' = (Ok (Z.max (zlen b) (off + zlen d)), v') /\
    (forall i j, 0 <= i -> i <= j -> j <= zlen b -> j <= off \/ off + zlen d <= i ->
       mem_read_at f i (j - i) v' = (Ok (zslice i j b), v')) /\
    (mem_alias v f g -> mem_contents v' g = mem_contents v' f) /\
    (~ mem_alias v f g -> mem_contents v' g = mem_contents v g).
Proof.
  destruct (@write_at_spec MemVfs nat _ MemVfs_laws v f b off d Hc Ho Hd) as (v' & E & Hc' & Hne & Ha).
  change (write_at f off d v) with (mem_write_at f off d v) in E.
  change (mem_contents v' f = Some (mem_write off d b)) in Hc'.
  exists v'. pose proof (zlen_nonneg d). split_and!; [done| | | | |apply Hne].
  - rewrite <- (mem_write_eq off d b) at 2 by done.
    by apply (@read_at_spec MemVfs nat _ MemVfs_laws v' f (mem_write off d b)).
  - rewrite <- zlen_mem_write by done. by apply (@file_size_spec MemVfs nat _ MemVfs_laws v' f).
  - intros i j Hi Hij Hj Hdis. rewrite <- (mem_write_ne off d b i j) by done.
    replace j with (i + (j - i)) at 2 by lia.
    apply (@read_at_spec MemVfs nat _ MemVfs_laws v' f (mem_write off d b)); [done|lia|lia].
  - intros Hal. apply (Ha f g) in Hal. change (mem_alias v' f g) in Hal. unfold mem_alias in Hal.
    unfold mem_contents. destruct (handles v' !! f), (handles v' !! g); simpl in *; congruence.
Qed.
Definition two_handles : MemVfs :=
  snd ((a ← mem_open "t.db" OpenFlags_READWRITE_CREATE; mem_open "t.db" OpenFlags_READONLY) MemVfs_new).
Lemma memvfs_read_write_witness :
  exists v', mem_write_at 3 2 [7; 8] two_handles = (Ok tt, v') /\
    mem_read_at 3 2 (zlen [7; 8]) v' = (Ok [7; 8], v') /\
    mem_file_size 3 v' = (Ok (Z.max (zlen (@nil Z)) (2 + zlen [7; 8])), v') /\
    (forall i j, 0 <= i -> i <= j -> j <= zlen (@nil Z) -> j <= 2 \/ 2 + zlen [7; 8] <= i ->
       mem_read_at 3 i (j - i) v' = (Ok (zslice i j []), v')) /\
    (mem_alias two_handles 3 4 -> mem_contents v' 4 = mem_contents v' 3) /\
    (~ mem_alias two_handles 3 4 -> mem_contents v' 4 = mem_contents two_handles 4).
Proof. apply (memvfs_read_write two_handles 3 4 [] 2 [7; 8]); [reflexivity|lia|reflexivity]. Defined.
