(* ===== verification/WalIndex.v ===== *)
(** * The in-memory wal-index ([pager/wal.rs], [format/wal_index.rs])

    One block per [HASHTABLE_NPAGE] frames, each with a page map and a
    linear-probing hash table; appending a frame, and finding the latest frame
    of a page. *)

From S2P Require Import Prelude WalFormat.

(** ** The wal-index *)

Record IndexBlock := mkIndexBlock {
  i_zero : Z; page_mapping : list Z; hash_table : list Z
}.

Definition IndexBlock_new (i_zero capacity : Z) : IndexBlock :=
  mkIndexBlock i_zero (zrep capacity 0) (zrep HASHTABLE_NSLOT 0).

Definition next_slot (i : Z) : Z := Z.land (i + 1) (HASHTABLE_NSLOT - 1).

(** [for _ in 0..HASHTABLE_NSLOT]: store [v] in the first empty slot. *)
Fixpoint probe_insert (n : nat) (i v : Z) (table : list Z) : outcome (list Z) :=
  match n with
  | O => Panic (* debug_assert!(false, "wal-index hash table full") *)
  | S n =>
      h ← idx table i;
      if h =? 0 then copy_into table i [v] else probe_insert n (next_slot i) v table
  end.

Definition IndexBlock_append (self : IndexBlock) (i_frame pgno : Z) : outcome IndexBlock :=
  d ← chk_sub i_frame (i_zero self);
  idx_ ← chk_sub d 1;
  pm ← copy_into (page_mapping self) idx_ [pgno];
  ht ← probe_insert (Z.to_nat HASHTABLE_NSLOT) (wal_hash_key pgno) (u16 (idx_ + 1)) (hash_table self);
  Ok (mkIndexBlock (i_zero self) pm ht).

(** [i_frame + HASHTABLE_NPAGE as u32 - ..] in checked [u32] arithmetic. *)
Definition wal_frame_page (i_frame : Z) : outcome Z :=
  a ← chk_add32 i_frame HASHTABLE_NPAGE;
  b ← chk_sub a HASHTABLE_NPAGE_ONE;
  c ← chk_sub b 1;
  Ok (c / HASHTABLE_NPAGE).

(** The [while self.blocks.len() <= block_idx] loop; one block a step. *)
Fixpoint grow_blocks (n : nat) (bs : list IndexBlock) : outcome (list IndexBlock) :=
  match n with
  | O => Ok bs
  | S n =>
      i_zero ← match last bs with
               | None => Ok 0
               | Some prev => chk_add32 (i_zero prev) (zlen (page_mapping prev))
               end;
      let cap := match bs with [] => HASHTABLE_NPAGE_ONE | _ => HASHTABLE_NPAGE end in
      grow_blocks n (bs ++ [IndexBlock_new i_zero cap])
  end.
Definition append_blocks (bs : list IndexBlock) (i_frame pgno : Z) : outcome (list IndexBlock) :=
  block_idx ← wal_frame_page i_frame;
  bs ← grow_blocks (Z.to_nat (block_idx + 1 - zlen bs)) bs;
  b ← idx bs block_idx;
  b ← IndexBlock_append b i_frame pgno;
  copy_into bs block_idx [b].
(** Build the index blocks from page numbers [l] of frames [i], [i + 1], ... *)
Fixpoint append_all (bs : list IndexBlock) (i : Z) (l : list Z) : outcome (list IndexBlock) :=
  match l with
  | [] => Ok bs
  | p :: l => bs ← append_blocks bs i p; append_all bs (i + 1) l
  end.

(** The collision-chain [loop] of [find_frame] in one block: [None] is the
    early [return 0]. *)
Fixpoint chain_loop (n_collide : nat) (b : IndexBlock) (mx pgno i_key i_read : Z) : outcome (option Z) :=
  h ← idx (hash_table b) i_key;
  if h =? 0 then Ok (Some i_read)
  else
    i_frame ← chk_add32 (i_zero b) h;
    i_read ← (if mx <? i_frame then Ok i_read
              else
                p ← idx (page_mapping b) (Z.land (h - 1) (HASHTABLE_NPAGE - 1));
                Ok (if negb (p =? pgno) then i_read
                    else if i_read <? i_frame then i_frame else i_read));
    match n_collide with
    | O => Ok None
    | S n => chain_loop n b mx pgno (next_slot i_key) i_read
    end.

(** [for block_idx in (0..=last_block).rev()]: [n] is [block_idx + 1]. *)
Fixpoint find_in_blocks (n : nat) (bs : list IndexBlock) (mx pgno i_read : Z) : outcome Z :=
  match n with
  | O => Ok 0
  | S n =>
      match bs !! n with
      | None => find_in_blocks n bs mx pgno i_read
      | Some b =>
          r ← chain_loop (Z.to_nat HASHTABLE_NSLOT) b mx pgno (wal_hash_key pgno) i_read;
          match r with
          | None => Ok 0
          | Some i_read => if negb (i_read =? 0) then Ok i_read
                           else find_in_blocks n bs mx pgno i_read
          end
      end
  end.
(** The body of [find_frame]. *)
Definition index_find (bs : list IndexBlock) (mx pgno : Z) : outcome Z :=
  if mx =? 0 then Ok 0
  else
    last_block ← wal_frame_page mx;
    find_in_blocks (Z.to_nat (last_block + 1)) bs mx pgno 0.

(** ** Slots of the hash table *)

Notation NSLOT := 8192 (only parsing).
Definition slot (k d : Z) : Z := (k + d) mod NSLOT.

Lemma hash_key_range p : 0 <= wal_hash_key p < NSLOT.
Proof. apply Z.mod_pos_bound. reflexivity. Qed.
Lemma next_slot_mod i : 0 <= i -> next_slot i = (i + 1) mod NSLOT.
Proof.
  intros. unfold next_slot. change (HASHTABLE_NSLOT - 1) with (Z.ones 13).
  by rewrite Z.land_ones by lia.
Qed.
Lemma slot_range k d : 0 <= slot k d < NSLOT.
Proof. apply Z.mod_pos_bound. lia. Qed.
Lemma slot_0 k : 0 <= k < NSLOT -> slot k 0 = k.
Proof. intros. unfold slot. rewrite Z.add_0_r. by apply Z.mod_small. Qed.
Lemma next_slot_slot k d : next_slot (slot k d) = slot k (d + 1).
Proof.
  rewrite next_slot_mod by apply slot_range. unfold slot.
  rewrite Z.add_mod_idemp_l by lia. f_equal. lia.
Qed.
Lemma slot_onto k s : 0 <= k < NSLOT -> 0 <= s < NSLOT -> exists d, 0 <= d < NSLOT /\ slot k d = s.
Proof.
  intros. exists ((s - k) mod NSLOT). split; [apply Z.mod_pos_bound; lia|].
  unfold slot. rewrite Z.add_mod_idemp_r by lia. replace (k + (s - k)) with s by lia.
  by apply Z.mod_small.
Qed.

Lemma least_nat (P : nat -> Prop) `{!forall n, Decision (P n)} n :
  P n -> exists m, (m <= n)%nat /\ P m /\ forall m', (m' < m)%nat -> ~ P m'.
Proof.
  induction n as [n IH] using lt_wf_ind. intros Hn.
  destruct (decide (Exists P (seq 0 n))) as [HE|HE].
  - apply Exists_exists in HE as (m & Hm%elem_of_seq & HP).
    destruct (IH m ltac:(lia) HP) as (k & ? & ?). exists k. split; [lia|done].
  - exists n. split; [lia|]. split; [done|]. intros m' Hm' HP. apply HE, Exists_exists.
    exists m'. split; [apply elem_of_seq; lia|done].
Qed.

(** ** Probing *)

(** The number of occupied slots. *)
Definition occupied (t : list Z) : nat := length (filter (fun v => v <> 0) t).
(** The slot at distance [d] from [k] is the first empty one. *)
Definition first_empty (t : list Z) (k d : Z) : Prop :=
  0 <= d < NSLOT /\ zget t (slot k d) = Some 0 /\
  forall d', 0 <= d' < d -> exists v, zget t (slot k d') = Some v /\ v <> 0.

Lemma occupied_le t : (occupied t <= length t)%nat.
Proof. unfold occupied. apply length_filter. Qed.
Lemma occupied_full t : (occupied t < length t)%nat -> exists s, zget t s = Some 0.
Proof.
  unfold occupied. induction t as [|v t IH]; simpl; [lia|]. intros Hlt.
  rewrite filter_cons in Hlt. destruct (decide (v <> 0)) as [Hv|Hv].
  - destruct IH as [s Hs]; [simpl in Hlt; lia|]. exists (s + 1).
    pose proof (zget_Some _ _ _ Hs). unfold zget in *.
    destruct (Z.ltb_spec s 0), (Z.ltb_spec (s + 1) 0); try lia.
    by replace (Z.to_nat (s + 1)) with (S (Z.to_nat s)) by lia.
  - exists 0. unfold zget. simpl. f_equal. lia.
Qed.

Lemma first_empty_exists t k :
  zlen t = NSLOT -> (occupied t < length t)%nat -> 0 <= k < NSLOT -> exists d, first_empty t k d.
Proof.
  intros Ht Hocc Hk. destruct (occupied_full t Hocc) as [s Hs].
  destruct (slot_onto k s Hk) as (d & Hd & Hds); [pose proof (zget_Some _ _ _ Hs); lia|].
  destruct (least_nat (fun n => zget t (slot k (Z.of_nat n)) = Some 0) (Z.to_nat d))
    as (m & Hm & HP & Hleast).
  { rewrite Z2Nat.id by lia. by rewrite Hds. }
  exists (Z.of_nat m). split; [lia|]. split; [done|]. intros d' Hd'.
  destruct (zget_in t (slot k d')) as [v Hv]; [rewrite Ht; apply slot_range|].
  exists v. split; [done|]. intros ->. apply (Hleast (Z.to_nat d')); [lia|].
  by rewrite Z2Nat.id by lia.
Qed.

Lemma idx_zget {A} (l : list A) i x : zget l i = Some x -> idx l i = Ok x.
Proof. unfold idx. by intros ->. Qed.

Lemma probe_insert_spec t k v d0 d n :
  first_empty t k d0 -> 0 <= d <= d0 -> d0 - d < Z.of_nat n ->
  probe_insert n (slot k d) v t = Ok (splice (slot k d0) [v] t).
Proof.
  intros (Hd0 & Hz & Hnz). revert d. induction n as [|n IH]; intros d Hd Hn; [lia|].
  cbn [probe_insert]. destruct (Z.eq_dec d d0) as [->|Hne].
  - rewrite (idx_zget _ _ _ Hz). simpl. apply copy_into_in; [apply slot_range|].
    pose proof (zget_Some _ _ _ Hz). len_lia.
  - destruct (Hnz d ltac:(lia)) as (w & Hw & Hw0). rewrite (idx_zget _ _ _ Hw). simpl.
    destruct (Z.eqb_spec w 0); [done|]. rewrite next_slot_slot. apply IH; lia.
Qed.

Lemma nslot_fuel : Z.of_nat (Z.to_nat HASHTABLE_NSLOT) = NSLOT.
Proof. rewrite Z2Nat.id; [reflexivity|]. unfold HASHTABLE_NSLOT, HASHTABLE_NPAGE. lia. Qed.
Lemma probe_insert_all t k v d0 : 0 <= k < NSLOT -> first_empty t k d0 ->
  probe_insert (Z.to_nat HASHTABLE_NSLOT) k v t = Ok (splice (slot k d0) [v] t).
Proof.
  intros Hk Hd. rewrite <- (slot_0 k Hk) at 1. pose proof Hd as (Hr & _).
  apply probe_insert_spec; [exact Hd|lia|rewrite nslot_fuel; lia].
Qed.

Lemma zget_splice_eq1 {A} i (x : A) l : 0 <= i < zlen l -> zget (splice i [x] l) i = Some x.
Proof.
  intros. unfold splice. rewrite zget_app_r by len_lia. rewrite zlen_ztake.
  replace (i - Z.max 0 (Z.min i (zlen l))) with 0 by lia. done.
Qed.
Lemma zget_splice_1 {A} i j (x : A) l : 0 <= i < zlen l ->
  zget (splice i [x] l) j = if j =? i then Some x else zget l j.
Proof.
  intros. destruct (Z.eqb_spec j i) as [->|Hne]; [by apply zget_splice_eq1|].
  apply zget_splice_ne; len_lia.
Qed.

Lemma occupied_app l1 l2 : occupied (l1 ++ l2) = (occupied l1 + occupied l2)%nat.
Proof. unfold occupied. by rewrite filter_app, length_app. Qed.
Lemma occupied_splice t i v : zget t i = Some 0 -> v <> 0 -> occupied (splice i [v] t) = S (occupied t).
Proof.
  intros Hi Hv. pose proof (zget_Some _ _ _ Hi). rewrite (zslice_split i (i + 1) t) at 2 by lia.
  rewrite (zget_zslice1 _ _ _ Hi). unfold splice. rewrite !occupied_app.
  change (zlen [v]) with 1. unfold occupied at 2 5. rewrite !filter_cons.
  destruct (decide (v <> 0)); [|done]. destruct (decide (0 <> 0)); [done|]. simpl. lia.
Qed.

(** ** One block *)

(** The first [m] entries of the page map are in the table. *)
Record hash_inv (t pm : list Z) (m : Z) : Prop := {
  hi_len : zlen t = NSLOT;
  hi_m : 0 <= m <= 4096 /\ m <= zlen pm;
  hi_range : forall s v, zget t s = Some v -> 0 <= v <= m;
  hi_occ : Z.of_nat (occupied t) = m;
  hi_present : forall j q, 0 <= j < m -> zget pm j = Some q ->
    exists d, 0 <= d < NSLOT /\ zget t (slot (wal_hash_key q) d) = Some (j + 1) /\
      forall d', 0 <= d' < d -> exists v, zget t (slot (wal_hash_key q) d') = Some v /\ v <> 0
}.

Lemma zget_zrep {A} n (x : A) i : 0 <= i < n -> zget (zrep n x) i = Some x.
Proof.
  intros. unfold zget, zrep. destruct (Z.ltb_spec i 0); [lia|].
  apply lookup_replicate. split; [done|lia].
Qed.
Lemma occupied_zrep n : occupied (zrep n 0) = 0%nat.
Proof.
  unfold occupied, zrep. induction (Z.to_nat n); [done|]. simpl. rewrite filter_cons.
  by destruct (decide (0 <> 0)).
Qed.
Lemma hash_inv_new cap : 0 <= cap -> hash_inv (zrep HASHTABLE_NSLOT 0) (zrep cap 0) 0.
Proof.
  intros. split.
  - by rewrite zlen_zrep.
  - rewrite zlen_zrep. lia.
  - intros s v Hs. pose proof (zget_Some _ _ _ Hs) as Hr. rewrite zlen_zrep in Hr.
    rewrite zget_zrep in Hs by (change HASHTABLE_NSLOT with NSLOT in *; lia). injection Hs as <-. lia.
  - by rewrite occupied_zrep.
  - intros j q Hj. lia.
Qed.

Lemma hash_inv_insert t pm m p d :
  hash_inv t pm m -> m < 4096 -> m < zlen pm -> first_empty t (wal_hash_key p) d ->
  hash_inv (splice (slot (wal_hash_key p) d) [m + 1] t) (splice m [p] pm) (m + 1).
Proof.
  intros [Hl [Hm Hmp] Hr Ho Hp] Hm' Hpm' (Hd & Hz & Hnz).
  pose proof (slot_range (wal_hash_key p) d) as Hs. set (s := slot (wal_hash_key p) d) in *.
  assert (forall i, zget (splice s [m + 1] t) i = if i =? s then Some (m + 1) else zget t i) as Hget
    by (intros; apply zget_splice_1; lia).
  assert (forall i, (exists v, zget t i = Some v /\ v <> 0) ->
            exists v, zget (splice s [m + 1] t) i = Some v /\ v <> 0) as Hkeep.
  { intros i (v & Hv & Hv0). rewrite Hget. destruct (Z.eqb_spec i s); [exists (m + 1); split; [done|lia]|eauto]. }
  split.
  - rewrite zlen_splice; len_lia.
  - rewrite zlen_splice; len_lia.
  - intros i v. rewrite Hget. destruct (Z.eqb_spec i s); [intros [= <-]; lia|].
    intros Hv%Hr. lia.
  - rewrite occupied_splice by (done || lia). lia.
  - intros j q Hj. rewrite zget_splice_1 by lia. destruct (Z.eqb_spec j m) as [->|Hne].
    + intros [= ->]. exists d. split; [lia|]. fold s. rewrite Hget, Z.eqb_refl. split; [done|].
      intros d' Hd'. apply Hkeep, Hnz. lia.
    + intros Hq. destruct (Hp j q ltac:(lia) Hq) as (e & He & Hje & Hbefore). exists e.
      split; [done|]. split; [|intros d' Hd'; apply Hkeep, Hbefore; lia].
      rewrite Hget. destruct (Z.eqb_spec (slot (wal_hash_key q) e) s) as [Heq|]; [|done].
      rewrite Heq, Hz in Hje. injection Hje as Hje. lia.
Qed.

Lemma IndexBlock_append_spec b m p :
  hash_inv (hash_table b) (page_mapping b) m -> m < 4096 -> m < zlen (page_mapping b) -> 0 <= i_zero b ->
  exists t, IndexBlock_append b (i_zero b + m + 1) p =
      Ok (mkIndexBlock (i_zero b) (splice m [p] (page_mapping b)) t) /\
    hash_inv t (splice m [p] (page_mapping b)) (m + 1).
Proof.
  intros Hinv Hm Hpm Hz. pose proof Hinv as [Hl [Hm0 _] _ Ho _].
  destruct (first_empty_exists (hash_table b) (wal_hash_key p) Hl) as [d Hd];
    [unfold zlen in Hl; lia|apply hash_key_range|].
  exists (splice (slot (wal_hash_key p) d) [m + 1] (hash_table b)).
  split; [|by apply hash_inv_insert].
  pose proof (probe_insert_all _ _ (m + 1) d (hash_key_range p) Hd) as Hpi.
  unfold IndexBlock_append, chk_sub. revert Hpi. generalize (Z.to_nat HASHTABLE_NSLOT). intros n Hpi.
  destruct (Z.ltb_spec (i_zero b + m + 1) (i_zero b)); [lia|]. simpl.
  destruct (Z.ltb_spec (i_zero b + m + 1 - i_zero b) 1); [lia|]. simpl.
  replace (i_zero b + m + 1 - i_zero b - 1) with m by lia.
  rewrite copy_into_in by len_lia. simpl.
  replace (u16 (m + 1)) with (m + 1) by (unfold u16; rewrite Z.mod_small by lia; done).
  by rewrite Hpi.
Qed.

(** ** Searching one block *)

Lemma chain_loop_spec t pm b mx p r0 d0 d m n :
  t = hash_table b -> pm = page_mapping b -> hash_inv t pm m -> 0 <= i_zero b ->
  i_zero b + m < 2 ^ 32 -> first_empty t (wal_hash_key p) d0 -> 0 <= d <= d0 -> d0 - d <= Z.of_nat n ->
  exists r, chain_loop n b mx p (slot (wal_hash_key p) d) r0 = Ok (Some r) /\ r0 <= r /\
    (r = r0 \/ exists j, 0 <= j < m /\ zget pm j = Some p /\ r = i_zero b + j + 1 /\ r <= mx) /\
    (forall d' j, d <= d' < d0 -> zget t (slot (wal_hash_key p) d') = Some (j + 1) ->
       zget pm j = Some p -> i_zero b + j + 1 <= mx -> i_zero b + j + 1 <= r).
Proof.
  intros -> -> Hinv Hz Hb Hfe. revert d r0. pose proof Hfe as (Hd0 & Hzero & Hnz).
  pose proof Hinv as [Hl [Hm Hmp] Hr Ho Hp].
  induction n as [|n IH]; intros d r0 Hd Hn.
  - replace d with d0 by lia. exists r0. cbn [chain_loop].
    rewrite (idx_zget _ _ _ Hzero). cbn. split_and!; [done|lia|by left|lia].
  - destruct (Z.eq_dec d d0) as [->|Hne].
    { exists r0. cbn [chain_loop]. rewrite (idx_zget _ _ _ Hzero). cbn.
      split_and!; [done|lia|by left|lia]. }
    destruct (Hnz d ltac:(lia)) as (h & Hh & Hh0). pose proof (Hr _ _ Hh) as Hhr.
    cbn [chain_loop]. rewrite (idx_zget _ _ _ Hh). cbn [mbind outcome_bind].
    destruct (Z.eqb_spec h 0); [lia|]. unfold chk_add32.
    destruct (Z.ltb_spec (i_zero b + h) (2 ^ 32)); [|lia]. cbn [mbind outcome_bind].
    replace (Z.land (h - 1) (HASHTABLE_NPAGE - 1)) with (h - 1).
    2:{ change (HASHTABLE_NPAGE - 1) with (Z.ones 12). rewrite Z.land_ones by lia.
        change (2 ^ 12) with 4096. by rewrite Z.mod_small by lia. }
    destruct (zget_in (page_mapping b) (h - 1)) as [q Hq]; [lia|].
    set (r1 := if mx <? i_zero b + h then r0
               else if negb (q =? p) then r0 else if r0 <? i_zero b + h then i_zero b + h else r0).
    assert ((if mx <? i_zero b + h then Ok r0
             else p0 ← idx (page_mapping b) (h - 1);
                  Ok (if negb (p0 =? p) then r0 else if r0 <? i_zero b + h then i_zero b + h else r0))
            = Ok r1) as ->.
    { unfold r1. destruct (mx <? i_zero b + h); [done|]. by rewrite (idx_zget _ _ _ Hq). }
    cbn [mbind outcome_bind]. rewrite next_slot_slot.
    destruct (IH (d + 1) r1 ltac:(lia) ltac:(lia)) as (r & Hrun & Hge & Hcase & Hmax).
    exists r. split; [done|].
    assert (r0 <= r1 /\ (r1 = r0 \/ (q = p /\ r1 = i_zero b + h /\ r1 <= mx)) /\
            (q = p -> i_zero b + h <= mx -> i_zero b + h <= r1)) as (Hr1 & Hr1c & Hr1m).
    { unfold r1. destruct (Z.ltb_spec mx (i_zero b + h)), (Z.eqb_spec q p);
        destruct (Z.ltb_spec r0 (i_zero b + h)); simpl; lia. }
    split; [lia|]. split.
    + destruct Hcase as [->|?]; [|by right]. destruct Hr1c as [->|(-> & Hr1c & ?)]; [by left|].
      right. exists (h - 1). split_and!; [lia|lia|done|lia|lia].
    + intros d' j Hd' Hj Hpj Hmx. destruct (Z.eq_dec d' d) as [->|].
      * rewrite Hh in Hj. injection Hj as ->. replace (j + 1 - 1) with j in Hq by lia.
        assert (q = p) by congruence. specialize (Hr1m ltac:(done) ltac:(lia)). lia.
      * apply (Hmax d' j); [lia|done..].
Qed.

(** Searching a block finds the latest of its frames, up to [mx], that holds
    the page. *)
Lemma chain_loop_block b mx p m :
  hash_inv (hash_table b) (page_mapping b) m -> 0 <= i_zero b -> i_zero b + m < 2 ^ 32 ->
  exists r, chain_loop (Z.to_nat HASHTABLE_NSLOT) b mx p (wal_hash_key p) 0 = Ok (Some r) /\
    (r = 0 \/ exists j, 0 <= j < m /\ zget (page_mapping b) j = Some p /\ r = i_zero b + j + 1 /\ r <= mx) /\
    (forall j, 0 <= j < m -> zget (page_mapping b) j = Some p -> i_zero b + j + 1 <= mx ->
       i_zero b + j + 1 <= r).
Proof.
  intros Hinv Hz Hb. pose proof Hinv as [Hl [Hm Hmp] Hr Ho Hp].
  destruct (first_empty_exists (hash_table b) (wal_hash_key p) Hl) as [d0 Hd0];
    [unfold zlen in Hl; lia|apply hash_key_range|]. pose proof Hd0 as (Hd0r & Hzero & Hnz).
  destruct (chain_loop_spec _ _ b mx p 0 d0 0 m (Z.to_nat HASHTABLE_NSLOT) eq_refl eq_refl Hinv Hz Hb Hd0)
    as (r & Hrun & _ & Hcase & Hmax); [lia|rewrite nslot_fuel; lia|].
  rewrite slot_0 in Hrun by apply hash_key_range.
  exists r. split; [done|]. split; [done|]. intros j Hj Hpj Hmx.
  destruct (Hp j p Hj Hpj) as (d & Hd & Hdj & Hbefore).
  apply (Hmax d j); [|done..]. split; [lia|].
  destruct (Z_lt_le_dec d d0); [done|]. exfalso. destruct (Z.eq_dec d d0) as [->|].
  - rewrite Hzero in Hdj. injection Hdj as Hdj. lia.
  - destruct (Hbefore d0 ltac:(lia)) as (v & Hv & Hv0). rewrite Hzero in Hv. congruence.
Qed.

(** ** The whole index *)

(** Block [k] covers the 0-based frames [izero k .. izero k + cap k). *)
Definition izero (k : Z) : Z := Z.max 0 (4096 * k - 34).
Definition cap (k : Z) : Z := if k =? 0 then 4062 else 4096.

Record block_inv (k : Z) (b : IndexBlock) (l : list Z) (m : Z) : Prop := {
  bi_zero : i_zero b = izero k;
  bi_cap : zlen (page_mapping b) = cap k;
  bi_hash : hash_inv (hash_table b) (page_mapping b) m;
  bi_map : forall j, 0 <= j < m -> zget (page_mapping b) j = zget l (izero k + j)
}.

(** The index of the frames whose page numbers are [l]. *)
Record index_inv (bs : list IndexBlock) (l : list Z) : Prop := {
  ii_len : zlen bs = if zlen l =? 0 then 0 else (zlen l + 33) / 4096 + 1;
  ii_block : forall k b, zget bs k = Some b ->
    block_inv k b l (Z.min (cap k) (zlen l - izero k))
}.

Lemma wal_frame_page_eq n : 1 <= n -> n + 4096 < 2 ^ 32 -> wal_frame_page n = Ok ((n + 33) / 4096).
Proof.
  intros. unfold wal_frame_page, chk_add32, chk_sub, HASHTABLE_NPAGE, HASHTABLE_NPAGE_ONE.
  destruct (Z.ltb_spec (n + 4096) (2 ^ 32)); [|lia]. simpl.
  destruct (Z.ltb_spec (n + 4096) 4062); [lia|]. simpl.
  destruct (Z.ltb_spec (n + 4096 - 4062) 1); [lia|]. simpl. do 2 f_equal. lia.
Qed.

Lemma block_inv_snoc k b l p : 0 <= k -> izero k + cap k <= zlen l ->
  block_inv k b l (Z.min (cap k) (zlen l - izero k)) ->
  block_inv k b (l ++ [p]) (Z.min (cap k) (zlen (l ++ [p]) - izero k)).
Proof.
  intros Hk Hc [H1 H2 H3 H4].
  replace (Z.min (cap k) (zlen (l ++ [p]) - izero k)) with (Z.min (cap k) (zlen l - izero k)) by len_lia.
  split; [done..|]. intros j Hj. rewrite H4 by done. rewrite zget_app_l; [done|lia].
Qed.

Lemma block_inv_new k l : 0 <= k -> block_inv k (IndexBlock_new (izero k) (cap k)) l 0.
Proof.
  intros Hk. assert (0 <= cap k) by (unfold cap; destruct (k =? 0); lia).
  split; simpl; [done|rewrite zlen_zrep; lia|by apply hash_inv_new|lia].
Qed.

Lemma last_zget {A} (l : list A) : last l = zget l (zlen l - 1).
Proof.
  rewrite last_lookup. unfold zget, zlen. destruct l as [|x l]; [done|].
  destruct (Z.ltb_spec (Z.of_nat (length (x :: l)) - 1) 0); [simpl length in *; lia|].
  f_equal. lia.
Qed.

(** The block of the next frame exists after [grow_blocks]. *)
Lemma grow_blocks_spec bs l :
  index_inv bs l -> zlen l + 4097 < 2 ^ 32 ->
  let B := (zlen l + 34) / 4096 in
  exists bs1 b, grow_blocks (Z.to_nat (B + 1 - zlen bs)) bs = Ok bs1 /\
    zlen bs1 = B + 1 /\ zget bs1 B = Some b /\ block_inv B b l (zlen l - izero B) /\
    (forall k bk, k <> B -> zget bs1 k = Some bk -> zget bs k = Some bk).
Proof.
  intros [Hlen Hblk] Hn B. pose proof (zlen_nonneg l).
  assert (izero B <= zlen l < izero B + cap B) as HB.
  { unfold izero, cap, B. destruct (Z.eqb_spec ((zlen l + 34) / 4096) 0); Z.div_mod_to_equations; lia. }
  assert (zlen bs = B + 1 \/ zlen bs = B /\ izero B = zlen l) as [Hcase|[Hcase Hiz]].
  { rewrite Hlen. unfold izero, B. destruct (Z.eqb_spec (zlen l) 0); [right|];
      Z.div_mod_to_equations; lia. }
  - exists bs. assert (0 <= B) by (unfold B; Z.div_mod_to_equations; lia).
    destruct (zget_in bs B) as [b Hb]; [lia|]. exists b.
    replace (Z.to_nat (B + 1 - zlen bs)) with 0%nat by lia.
    split_and!; [done|done|done| |done]. pose proof (Hblk B b Hb) as Hbi.
    by replace (Z.min (cap B) (zlen l - izero B)) with (zlen l - izero B) in Hbi by lia.
  - assert (0 <= B) by (unfold B; Z.div_mod_to_equations; lia).
    exists (bs ++ [IndexBlock_new (izero B) (cap B)]), (IndexBlock_new (izero B) (cap B)).
    replace (Z.to_nat (B + 1 - zlen bs)) with 1%nat by lia.
    split_and!.
    + cbn [grow_blocks]. rewrite last_zget.
      destruct (Z.eq_dec B 0) as [HB0|HB0].
      * destruct bs as [|b0 bs]; [|rewrite zlen_cons in Hcase; len_lia]. simpl.
        rewrite HB0. reflexivity.
      * destruct (zget_in bs (zlen bs - 1)) as [b Hb]; [lia|]. rewrite Hb.
        destruct (Hblk _ _ Hb) as [Hz Hc _ _]. rewrite Hz, Hc, Hcase. unfold chk_add32.
        assert (izero (B - 1) + cap (B - 1) = izero B) as ->
          by (unfold izero, cap; destruct (Z.eqb_spec (B - 1) 0); lia).
        destruct (Z.ltb_spec (izero B) (2 ^ 32)); [|lia]. simpl.
        destruct bs as [|b0 bs]; [rewrite zlen_nil in Hcase; lia|]. do 4 f_equal.
        unfold cap. by destruct (Z.eqb_spec B 0).
    + len_lia.
    + rewrite zget_app_r by lia. by rewrite Hcase, Z.sub_diag.
    + rewrite Hiz, Z.sub_diag. rewrite <- Hiz at 1. by apply block_inv_new.
    + intros k bk Hk Hbk. pose proof (zget_Some _ _ _ Hbk) as Hr. rewrite zlen_app in Hr.
      change (zlen [_]) with 1 in Hr. rewrite zget_app_l in Hbk by lia. done.
Qed.

Lemma append_blocks_spec bs l p :
  index_inv bs l -> zlen l + 4097 < 2 ^ 32 ->
  exists bs', append_blocks bs (zlen l + 1) p = Ok bs' /\ index_inv bs' (l ++ [p]).
Proof.
  intros Hinv Hn. pose proof (zlen_nonneg l).
  destruct (grow_blocks_spec bs l Hinv Hn) as (bs1 & b & Hg & Hl1 & Hb & Hbi & Hold).
  unfold append_blocks. rewrite wal_frame_page_eq by lia. simpl.
  replace (zlen l + 1 + 33) with (zlen l + 34) by lia. set (B := (zlen l + 34) / 4096) in *.
  rewrite Hg. simpl. rewrite (idx_zget _ _ _ Hb). simpl. destruct Hbi as [Hz Hc Hh Hmap].
  assert (0 <= B) by (unfold B; Z.div_mod_to_equations; lia).
  assert (izero B <= zlen l < izero B + cap B) as HB.
  { unfold izero, cap, B. destruct (Z.eqb_spec ((zlen l + 34) / 4096) 0); Z.div_mod_to_equations; lia. }
  assert (cap B <= 4096) by (unfold cap; destruct (B =? 0); lia).
  destruct (IndexBlock_append_spec b (zlen l - izero B) p Hh) as (t & Happ & Ht);
    [lia|lia|rewrite Hz; unfold izero; lia|].
  rewrite Hz in Happ at 1. replace (izero B + (zlen l - izero B) + 1) with (zlen l + 1) in Happ by lia.
  rewrite Happ. simpl. set (b' := mkIndexBlock _ _ _).
  exists (splice B [b'] bs1). split; [apply copy_into_in; [done|]; change (zlen [b']) with 1; lia|].
  split.
  - rewrite zlen_splice by (change (zlen [b']) with 1; lia).
    rewrite Hl1, zlen_app. change (zlen [p]) with 1.
    destruct (Z.eqb_spec (zlen l + 1) 0); [lia|]. unfold B. f_equal. f_equal. lia.
  - intros k bk. rewrite zget_splice_1 by lia. destruct (Z.eqb_spec k B) as [->|Hk].
    + intros [= <-]. replace (Z.min (cap B) (zlen (l ++ [p]) - izero B))
        with (zlen l - izero B + 1) by len_lia.
      split; [done|simpl; rewrite zlen_splice by len_lia; done|done|].
      intros j Hj. simpl. rewrite zget_splice_1 by lia.
      destruct (Z.eqb_spec j (zlen l - izero B)) as [->|].
      * rewrite zget_app_r by lia. by replace (izero B + (zlen l - izero B) - zlen l) with 0 by lia.
      * rewrite Hmap by lia. symmetry. apply zget_app_l. lia.
    + intros Hbk. pose proof (zget_Some _ _ _ Hbk). apply Hold in Hbk; [|done].
      apply block_inv_snoc; [lia| |by apply Hinv].
      unfold izero, cap, B in *. destruct (Z.eqb_spec k 0); Z.div_mod_to_equations; lia.
Qed.

Lemma index_inv_nil : index_inv [] [].
Proof. split; [done|]. intros k b Hk. pose proof (zget_Some _ _ _ Hk). unfold zlen in *. simpl in *. lia. Qed.

Lemma append_all_spec bs l l' :
  index_inv bs l -> zlen l + zlen l' + 4096 < 2 ^ 32 ->
  exists bs', append_all bs (zlen l + 1) l' = Ok bs' /\ index_inv bs' (l ++ l').
Proof.
  revert bs l. induction l' as [|p l' IH]; intros bs l Hinv Hn.
  - exists bs. by rewrite app_nil_r.
  - rewrite zlen_cons in Hn. pose proof (zlen_nonneg l').
    destruct (append_blocks_spec bs l p Hinv ltac:(lia)) as (bs1 & Ha & Hi1).
    destruct (IH bs1 (l ++ [p]) Hi1 ltac:(len_lia)) as (bs' & Hr & Hi').
    exists bs'. rewrite <- app_assoc in Hi'. split; [|done]. cbn [append_all].
    rewrite Ha. simpl. rewrite zlen_app in Hr. exact Hr.
Qed.

(** ** The latest frame of a page *)

(** The number of the last frame holding page [p], [0] if there is none. *)
Definition latest (l : list Z) (p : Z) : Z :=
  snd (fold_left (fun '(i, r) q => (i + 1, if q =? p then i + 1 else r)) l (0, 0)).

Lemma latest_fold l p : fold_left (fun '(i, r) q => (i + 1, if q =? p then i + 1 else r)) l (0, 0)
  = (zlen l, latest l p).
Proof.
  unfold latest. induction l as [|q l IH] using rev_ind; [done|].
  rewrite fold_left_app. simpl. destruct (fold_left _ l (0, 0)) as [i r]. simpl in *.
  injection IH as ->. f_equal. len_lia.
Qed.
Lemma latest_snoc l q p : latest (l ++ [q]) p = if q =? p then zlen l + 1 else latest l p.
Proof. unfold latest at 1. rewrite fold_left_app, latest_fold. simpl. by destruct (q =? p). Qed.

Lemma latest_spec l p r :
  (r = 0 \/ exists i, 0 <= i < zlen l /\ zget l i = Some p /\ r = i + 1) ->
  (forall i, 0 <= i -> zget l i = Some p -> i + 1 <= r) -> latest l p = r.
Proof.
  induction l as [|q l IH] using rev_ind in r |- *; intros Hr Hmax.
  - destruct Hr as [->|(i & Hi & _)]; [done|]. unfold zlen in Hi. simpl in Hi. lia.
  - rewrite latest_snoc. destruct (Z.eqb_spec q p) as [->|Hq].
    + assert (zlen l + 1 <= r) by (apply Hmax; [apply zlen_nonneg|];
        rewrite zget_app_r by lia; by rewrite Z.sub_diag).
      destruct Hr as [->|(i & Hi & _ & ->)]; len_lia.
    + apply IH.
      * destruct Hr as [->|(i & Hi & Hp & ->)]; [by left|]. right. exists i.
        assert (i < zlen l).
        { destruct (Z_lt_le_dec i (zlen l)); [done|]. rewrite zget_app_r in Hp by done.
          replace (i - zlen l) with 0 in Hp by len_lia. injection Hp as ->. done. }
        rewrite zget_app_l in Hp by done. split_and!; [lia|lia|done|done].
      * intros i Hi Hp. pose proof (zget_Some _ _ _ Hp). apply Hmax; [done|]. by rewrite zget_app_l by lia.
Qed.

Lemma latest_le l p : 0 <= latest l p <= zlen l.
Proof.
  induction l as [|q l IH] using rev_ind; [done|]. rewrite latest_snoc.
  destruct (q =? p); len_lia.
Qed.

Lemma find_in_blocks_spec bs l mx p n :
  index_inv bs l -> zlen l + 4096 < 2 ^ 32 -> Z.of_nat n <= zlen bs -> 0 <= mx <= zlen l ->
  (forall i, zget (ztake mx l) i = Some p -> i < izero (Z.of_nat n)) ->
  find_in_blocks n bs mx p 0 = Ok (latest (ztake mx l) p).
Proof.
  intros Hinv Hl. induction n as [|n IH]; intros Hn Hmx Habove.
  - cbn [find_in_blocks]. f_equal. symmetry. apply latest_spec; [by left|].
    intros i Hi Hp. specialize (Habove i Hp). unfold izero in Habove. lia.
  - cbn [find_in_blocks]. destruct (zget_in bs (Z.of_nat n)) as [b Hb]; [lia|].
    assert (bs !! n = Some b) as ->.
    { unfold zget in Hb. destruct (Z.ltb_spec (Z.of_nat n) 0); [lia|]. by rewrite Nat2Z.id in Hb. }
    destruct (ii_block _ _ Hinv _ _ Hb) as [Hz Hc Hh Hmap].
    set (k := Z.of_nat n) in *. set (m := Z.min (cap k) (zlen l - izero k)) in *.
    assert (0 <= izero k) by (unfold izero; lia).
    destruct (chain_loop_block b mx p m Hh) as (r & Hrun & Hcase & Hmax); [lia|unfold m; lia|].
    rewrite Hrun. cbn [mbind outcome_bind].
    assert (izero (Z.of_nat (S n)) = izero k + cap k) as Hnext.
    { unfold izero, cap, k. destruct (Z.eqb_spec (Z.of_nat n) 0); lia. }
    assert (forall j, 0 <= j < m -> izero k + j + 1 <= mx ->
              zget (ztake mx l) (izero k + j) = zget (page_mapping b) j) as Hview.
    { intros j Hj Hjm. rewrite zget_ztake by lia. symmetry. by apply Hmap. }
    destruct (Z.eqb_spec r 0) as [->|Hr]; simpl.
    + apply IH; [lia|done|]. intros i Hp. specialize (Habove i Hp). rewrite Hnext in Habove.
      destruct (Z_lt_le_dec i (izero k)); [done|]. exfalso.
      pose proof (zget_Some _ _ _ Hp) as Hi. rewrite zlen_ztake in Hi.
      assert (0 <= i - izero k < m) as Hj by (unfold m; lia).
      specialize (Hview (i - izero k) Hj ltac:(lia)).
      replace (izero k + (i - izero k)) with i in Hview by lia.
      specialize (Hmax (i - izero k) Hj ltac:(congruence) ltac:(lia)). lia.
    + f_equal. symmetry. destruct Hcase as [?|(j & Hj & Hp & -> & Hjm)]; [done|].
      apply latest_spec.
      * right. exists (izero k + j). rewrite Hview by lia.
        split_and!; [lia|rewrite zlen_ztake; lia|done|lia].
      * intros i Hi Hpi. pose proof (Habove i Hpi) as Hia. rewrite Hnext in Hia.
        pose proof (zget_Some _ _ _ Hpi) as Hi'. rewrite zlen_ztake in Hi'.
        destruct (Z_lt_le_dec i (izero k)); [lia|].
        assert (0 <= i - izero k < m) as Hj' by (unfold m; lia).
        pose proof (Hview (i - izero k) Hj' ltac:(lia)) as Hv.
        replace (izero k + (i - izero k)) with i in Hv by lia.
        specialize (Hmax (i - izero k) Hj' ltac:(congruence) ltac:(lia)). lia.
Qed.

Lemma index_find_spec bs l mx p :
  index_inv bs l -> zlen l + 4096 < 2 ^ 32 -> 0 <= mx <= zlen l ->
  index_find bs mx p = Ok (latest (ztake mx l) p).
Proof.
  intros Hinv Hl Hmx. unfold index_find. destruct (Z.eqb_spec mx 0) as [->|].
  { by rewrite ztake_0 by lia. }
  rewrite wal_frame_page_eq by lia. cbn [mbind outcome_bind].
  set (B := (mx + 33) / 4096). assert (0 <= B) by (unfold B; Z.div_mod_to_equations; lia).
  apply find_in_blocks_spec with (l := l); try done.
  - rewrite Z2Nat.id by lia. rewrite (ii_len _ _ Hinv). destruct (Z.eqb_spec (zlen l) 0); [lia|].
    unfold B. assert ((mx + 33) / 4096 <= (zlen l + 33) / 4096) by (apply Z.div_le_mono; lia). lia.
  - intros i Hi. pose proof (zget_Some _ _ _ Hi) as Hr. rewrite zlen_ztake in Hr.
    rewrite Z2Nat.id by lia. unfold izero, B. Z.div_mod_to_equations. lia.
Qed.

(** ** Properties *)

(** C24: the wal-index answers exactly "the last frame at or before [mx] that
    holds page [p], or 0": however the frames were appended over the blocks
    and however the pages collide in the linear-probing hash tables, appending
    never overflows a table and [find_frame]'s walk terminates with that
    frame. *)
Theorem find_frame_latest l mx p (Hl : zlen l + 4096 < 2 ^ 32) (Hmx : 0 <= mx <= zlen l) :
  exists bs, append_all [] 1 l = Ok bs /\ index_find bs mx p = Ok (latest (ztake mx l) p).
Proof.
  destruct (append_all_spec [] [] l index_inv_nil) as (bs & Ha & Hi); [done|].
  exists bs. split; [done|]. by apply index_find_spec.
Qed.
Lemma find_frame_latest_witness :
  exists bs, append_all [] 1 [2; 8194; 2; 5] = Ok bs /\
    index_find bs 2 2 = Ok (latest (ztake 2 [2; 8194; 2; 5]) 2).
Proof. apply (find_frame_latest [2; 8194; 2; 5] 2 2); [reflexivity|split; discriminate]. Defined.

Example latest_examples : latest [2; 8194; 2; 5] 2 = 3 /\ latest [2; 8194] 7 = 0.
Proof. split; reflexivity. Qed.
