(* ===== verification/Wal.v ===== *)
(** * The write-ahead log ([pager/wal.rs])

    Recovery, the commit path and checkpointing, over any file system of the
    class [VfsOps]. *)

From S2P Require Import Prelude WalFormat Utf8 Vfs WalIndex.

(** ** The open WAL *)

Record Wal (F : Type) := mkWal {
  wal_file : option F; wal_path_ : string; wal_header : WalHeader; wal_page_size : Z;
  blocks : list IndexBlock; mx_frame : Z; n_page : Z; frame_cksum : option (Z * Z)
}.
Arguments mkWal {F}. Arguments wal_file {F}. Arguments wal_path_ {F}. Arguments wal_header {F}.
Arguments wal_page_size {F}. Arguments blocks {F}. Arguments mx_frame {F}. Arguments n_page {F}.
Arguments frame_cksum {F}.

(** What the process keeps outside the pager: its id, and the two static
    counters of [next_wal_salt] and [next_cksum_init]. *)
Record Proc := mkProc { pid : Z; salt_counter : Z; cksum_counter : Z }.

Definition xorshift_mul (k m x : Z) : Z := u64 (Z.lxor x (Z.shiftr x k) * m).
Definition splitmix (pid bump : Z) : Z :=
  let seed := Z.lxor (u64 (Z.shiftl pid 32)) (u64 (bump * 0x9e3779b97f4a7c15)) in
  let seed := xorshift_mul 30 0xbf58476d1ce4e5b9 seed in
  let seed := xorshift_mul 27 0x94d049bb133111eb seed in
  u32 (Z.lxor seed (Z.shiftr seed 31)).
Definition next_wal_salt : M Proc Z := fun p =>
  let v := splitmix (pid p) (salt_counter p) in
  (Ok (if v =? 0 then 1 else v), mkProc (pid p) (u64 (salt_counter p + 1)) (cksum_counter p)).

Inductive CheckpointMode := Passive | Full | Restart | Truncate.
#[export] Instance CheckpointMode_eq_dec : EqDecision CheckpointMode.
Proof. solve_decision. Defined.
Definition CheckpointMode_from_name (name : bytes) : option CheckpointMode :=
  if eq_ignore_ascii_case name (bytes_of "passive") then Some Passive
  else if eq_ignore_ascii_case name (bytes_of "full") then Some Full
  else if eq_ignore_ascii_case name (bytes_of "restart") then Some Restart
  else if eq_ignore_ascii_case name (bytes_of "truncate") then Some Truncate
  else None.

Section Wal.
Context {E F : Type} `{VfsOps E F}.

Definition placeholder (file : option F) (path : string) (page_size : Z) : Wal F :=
  mkWal file path (mkWalHeader 0 0 page_size 0 0 0 0 0) page_size [] 0 0 None.

Definition set_blocks (b : list IndexBlock) (w : Wal F) : Wal F :=
  mkWal (wal_file w) (wal_path_ w) (wal_header w) (wal_page_size w) b (mx_frame w) (n_page w)
    (frame_cksum w).

(** [u64] arithmetic: the product stays below 2^64 for the page sizes that
    occur; a [u32] frame number and page size cannot overflow it. *)
Definition frame_data_offset (w : Wal F) (i_frame : Z) : outcome Z :=
  k ← chk_sub i_frame 1;
  Ok (WAL_HEADER_SIZE + k * (wal_page_size w + WAL_FRAME_HEADER_SIZE) + WAL_FRAME_HEADER_SIZE).

Definition append_frame (w : Wal F) (i_frame pgno : Z) : outcome (Wal F) :=
  bs ← append_blocks (blocks w) i_frame pgno; Ok (set_blocks bs w).

Definition find_frame (w : Wal F) (pgno : Z) : outcome Z :=
  index_find (blocks w) (mx_frame w) pgno.

(** [out] is returned; the caller's buffer has [out_len] bytes. *)
Definition read_frame (w : Wal F) (i_frame out_len : Z) : M E bytes :=
  if i_frame =? 0 then fail (Error_corrupt "wal::read_frame: frame 0 is invalid")
  else match wal_file w with
  | None => fail (Error_corrupt "wal::read_frame: no WAL file")
  | Some file =>
      if negb (out_len =? wal_page_size w)
      then fail (Error_corrupt ("wal::read_frame: buffer is " +:+ pretty out_len +:+
                                " bytes, expected " +:+ pretty (wal_page_size w)))
      else
        offset ← lift (frame_data_offset w i_frame);
        b ← read_at file offset out_len;
        if negb (zlen b =? wal_page_size w)
        then fail (Error_corrupt ("wal::read_frame: short read for frame " +:+ pretty i_frame +:+
                     ": got " +:+ pretty (zlen b) +:+ " of " +:+ pretty (wal_page_size w) +:+ " bytes"))
        else mret b
  end.

(** *** Recovery *)

Definition running_pair (h : WalHeader) : Z * Z := (wh_checksum1 h, wh_checksum2 h).

(** The body of the recovery loop on a full frame: its page number, commit
    size and the running checksum after it, or [None] to stop. *)
Definition check_frame (h : WalHeader) (running : Z * Z) (frame_buf : bytes)
    : outcome (option (Z * Z * (Z * Z))) :=
  b ← sub_range frame_buf 0 WAL_FRAME_HEADER_SIZE;
  fh ← WalFrameHeader_decode b;
  if negb (fh_salt1 fh =? wh_salt1 h) || negb (fh_salt2 fh =? wh_salt2 h) then Ok None
  else if fh_page_number fh =? 0 then Ok None
  else
    let big := checksum_big_endian h in
    b8 ← sub_range frame_buf 0 8;
    '(s0, s1) ← wal_checksum b8 big (fst running) (snd running);
    data ← sub_from frame_buf WAL_FRAME_HEADER_SIZE;
    '(s0, s1) ← wal_checksum data big s0 s1;
    if negb (s0 =? fh_checksum1 fh) || negb (s1 =? fh_checksum2 fh) then Ok None
    else Ok (Some (fh_page_number fh, fh_commit_size fh, (s0, s1))).

Record RecoverSt := mkRecoverSt {
  rs_running : Z * Z; rs_commit_frame : Z; rs_commit_npage : Z; rs_commit_cksum : Z * Z;
  rs_pgnos : list Z
}.

Fixpoint recover_loop (frames : list Z) (w : Wal F) (file : F) (frame_size : Z) (st : RecoverSt)
    : M E RecoverSt :=
  match frames with
  | [] => mret st
  | i_frame :: frames =>
      frame_buf ← read_at file (WAL_HEADER_SIZE + (i_frame - 1) * frame_size) frame_size;
      if zlen frame_buf <? frame_size then mret st
      else
        r ← lift (check_frame (wal_header w) (rs_running st) frame_buf);
        match r with
        | None => mret st
        | Some (pgno, commit_size, running) =>
            let pgnos := rs_pgnos st ++ [pgno] in
            recover_loop frames w file frame_size
              (if negb (commit_size =? 0)
               then mkRecoverSt running i_frame commit_size running pgnos
               else mkRecoverSt running (rs_commit_frame st) (rs_commit_npage st)
                      (rs_commit_cksum st) pgnos)
        end
  end.

Definition recover (w : Wal F) (file_size_ : Z) : M E (Wal F) :=
  let frame_size := wal_page_size w + WAL_FRAME_HEADER_SIZE in
  let n_frames := (file_size_ - WAL_HEADER_SIZE) / frame_size in
  if n_frames =? 0 then mret w
  else match wal_file w with
  | None => mret w
  | Some file =>
      let running := running_pair (wal_header w) in
      st ← recover_loop (seqZ 1 (u32 n_frames)) w file frame_size
             (mkRecoverSt running 0 0 (0, 0) []);
      bs ← lift (append_all (blocks w) 1 (ztake (rs_commit_frame st) (rs_pgnos st)));
      mret (mkWal (wal_file w) (wal_path_ w) (wal_header w) (wal_page_size w) bs
              (rs_commit_frame st) (rs_commit_npage st)
              (Some (if rs_commit_frame st =? 0 then running else rs_commit_cksum st)))
  end.

(** [Wal::open] once the [-wal] file is open. *)
Definition wal_open_file (file : F) (wal_path : string) (page_size : Z) : M E (Wal F) :=
  size ← file_size file;
  if size <? WAL_HEADER_SIZE then mret (placeholder (Some file) wal_path page_size)
  else
    hdr_buf ← read_at file 0 WAL_HEADER_SIZE;
    if zlen hdr_buf <? WAL_HEADER_SIZE then mret (placeholder (Some file) wal_path page_size)
    else
      header ← lift (WalHeader_decode hdr_buf);
      if negb (wh_page_size header =? page_size)
      then mret (placeholder (Some file) wal_path page_size)
      else
        b24 ← lift (sub_range hdr_buf 0 24);
        '(c0, c1) ← lift (wal_checksum b24 (checksum_big_endian header) 0 0);
        if negb (c0 =? wh_checksum1 header) || negb (c1 =? wh_checksum2 header)
        then mret (placeholder (Some file) wal_path page_size)
        else recover (mkWal (Some file) wal_path header page_size [] 0 0
                        (Some (wh_checksum1 header, wh_checksum2 header))) size.
Definition wal_open (path : string) (page_size : Z) : M E (Wal F) :=
  let wal_path := path +:+ "-wal" in
  ex ← vfs_exists wal_path;
  if negb ex then mret (placeholder None wal_path page_size)
  else
    file ← vfs_open wal_path OpenFlags_READWRITE_CREATE;
    wal_open_file file wal_path page_size.

(** *** Writing

    A [&mut Wal] method runs over the [Wal], the process counters and the file
    system; [io] lifts file operations into it. *)
Definition WalM (A : Type) : Type := M (Wal F * (Proc * E)) A.
Definition io {A} (m : M E A) : WalM A := on_snd (on_snd m).
Definition proc {A} (m : M Proc A) : WalM A := on_snd (on_fst m).
Definition gets_wal {A} (f : Wal F -> A) : WalM A := on_fst (fun w => (Ok (f w), w)).
Definition upd_wal (f : Wal F -> Wal F) : WalM unit := on_fst (modify f).

Definition set_header (h : WalHeader) (w : Wal F) : Wal F :=
  mkWal (wal_file w) (wal_path_ w) h (wal_page_size w) (blocks w) (mx_frame w) (n_page w)
    (frame_cksum w).
Definition set_file (f : F) (w : Wal F) : Wal F :=
  mkWal (Some f) (wal_path_ w) (wal_header w) (wal_page_size w) (blocks w) (mx_frame w) (n_page w)
    (frame_cksum w).
Definition set_state (mx np : Z) (ck : option (Z * Z)) (w : Wal F) : Wal F :=
  mkWal (wal_file w) (wal_path_ w) (wal_header w) (wal_page_size w) (blocks w) mx np ck.
Definition with_checksum (c : Z * Z) (h : WalHeader) : WalHeader :=
  mkWalHeader (wh_magic h) (wh_format_version h) (wh_page_size h) (wh_checkpoint_seq h)
    (wh_salt1 h) (wh_salt2 h) (fst c) (snd c).

(** Encode a header, checksum its first 24 bytes and patch the checksum in. *)
Definition seal_header (h : WalHeader) (big : bool) : outcome (Z * Z * bytes) :=
  hdr_buf ← WalHeader_encode h (zrep WAL_HEADER_SIZE 0);
  b24 ← sub_range hdr_buf 0 24;
  '(c0, c1) ← wal_checksum b24 big 0 0;
  hdr_buf ← copy_into hdr_buf 24 (be_bytes 4 c0);
  hdr_buf ← copy_into hdr_buf 28 (be_bytes 4 c1);
  Ok ((c0, c1), hdr_buf).

(** The frame header fields, the page and the chained checksum, written over
    the reused [frame_buf]. *)
Definition build_frame (frame_buf : bytes) (h : WalHeader) (running : Z * Z) (pgno commit_size : Z)
    (data : bytes) : outcome (bytes * (Z * Z)) :=
  let big := checksum_big_endian h in
  fb ← copy_into frame_buf 0 (be_bytes 4 pgno);
  fb ← copy_into fb 4 (be_bytes 4 commit_size);
  fb ← copy_into fb 8 (be_bytes 4 (wh_salt1 h));
  fb ← copy_into fb 12 (be_bytes 4 (wh_salt2 h));
  fb ← (if zlen fb =? WAL_FRAME_HEADER_SIZE + zlen data
        then copy_into fb WAL_FRAME_HEADER_SIZE data else Panic);
  b8 ← sub_range fb 0 8;
  '(s0, s1) ← wal_checksum b8 big (fst running) (snd running);
  d ← sub_from fb WAL_FRAME_HEADER_SIZE;
  '(s0, s1) ← wal_checksum d big s0 s1;
  fb ← copy_into fb 16 (be_bytes 4 s0);
  fb ← copy_into fb 20 (be_bytes 4 s1);
  Ok (fb, (s0, s1)).

(** The loop over the frames; [nleft] counts those still to come after this
    one, so the last one carries [n_truncate]. *)
Fixpoint write_loop (frames : list (Z * bytes)) (file : F) (h : WalHeader) (page_size n_truncate : Z)
    (frame_buf : bytes) (i_frame : Z) (running : Z * Z) : M E (Z * (Z * Z)) :=
  match frames with
  | [] => mret (i_frame, running)
  | (pgno, data) :: frames =>
      if negb (zlen data =? page_size)
      then fail (Error_corrupt ("wal::write_frames: page " +:+ pretty pgno +:+ " is " +:+
             pretty (zlen data) +:+ " bytes, expected " +:+ pretty page_size))
      else
        i_frame ← lift (chk_add32 i_frame 1);
        let commit_size := match frames with [] => n_truncate | _ => 0 end in
        '(fb, running) ← lift (build_frame frame_buf h running pgno commit_size data);
        write_at file (WAL_HEADER_SIZE + (i_frame - 1) * (page_size + WAL_FRAME_HEADER_SIZE)) fb ;;
        write_loop frames file h page_size n_truncate fb i_frame running
  end.

(** The header branch of [write_frames]. *)
Definition start_log (file : F) : WalM (Z * Z) :=
  salt1 ← proc next_wal_salt;
  salt2 ← proc next_wal_salt;
  page_size ← gets_wal wal_page_size;
  let h := mkWalHeader WAL_MAGIC_BE WAL_FORMAT_VERSION page_size 0 salt1 salt2 0 0 in
  upd_wal (set_header h) ;;
  '(c, hdr_buf) ← lift (seal_header h true);
  upd_wal (set_header (with_checksum c h)) ;;
  io (write_at file 0 hdr_buf) ;;
  io (sync file) ;;
  mret c.

Definition write_frames (frames : list (Z * bytes)) (n_truncate : Z) : WalM unit :=
  match frames with
  | [] => mret tt
  | _ =>
      mx0 ← gets_wal mx_frame;
      let need_header := mx0 =? 0 in
      file0 ← gets_wal wal_file;
      file ← match file0 with
             | Some f => mret f
             | None =>
                 path ← gets_wal wal_path_;
                 f ← io (vfs_open path OpenFlags_READWRITE_CREATE);
                 upd_wal (set_file f) ;;
                 mret f
             end;
      running ← (if need_header then start_log file
                 else gets_wal (fun w => default (running_pair (wal_header w)) (frame_cksum w)));
      page_size ← gets_wal wal_page_size;
      h ← gets_wal wal_header;
      '(i_frame, running) ← io (write_loop frames file h page_size n_truncate
          (zrep (page_size + WAL_FRAME_HEADER_SIZE) 0) mx0 running);
      io (sync file) ;;
      bs ← gets_wal blocks;
      bs ← lift (append_all bs (mx0 + 1) (fst <$> frames));
      upd_wal (set_blocks bs) ;;
      upd_wal (set_state i_frame n_truncate (Some running))
  end.

(** *** Checkpointing *)

Fixpoint checkpoint_loop (frames : list Z) (h : WalHeader) (file db_file : F) (page_size n_ckpt : Z)
    : M E Z :=
  match frames with
  | [] => mret n_ckpt
  | i_frame :: frames =>
      let frame_size := page_size + WAL_FRAME_HEADER_SIZE in
      buf ← read_at file (WAL_HEADER_SIZE + (i_frame - 1) * frame_size) frame_size;
      if zlen buf <? frame_size
      then fail (Error_corrupt ("wal::checkpoint: short read for frame " +:+ pretty i_frame))
      else
        b ← lift (sub_range buf 0 WAL_FRAME_HEADER_SIZE);
        fh ← lift (WalFrameHeader_decode b);
        if negb (fh_salt1 fh =? wh_salt1 h) || negb (fh_salt2 fh =? wh_salt2 h) then mret n_ckpt
        else
          data ← lift (sub_from buf WAL_FRAME_HEADER_SIZE);
          k ← lift (chk_sub (fh_page_number fh) 1);
          write_at db_file (k * page_size) data ;;
          checkpoint_loop frames h file db_file page_size (n_ckpt + 1)
  end.

Definition checkpoint (db_file : F) (mode : CheckpointMode) : WalM (Z * Z) :=
  n_log ← gets_wal mx_frame;
  if n_log =? 0 then mret (0, 0)
  else
    page_size ← gets_wal wal_page_size;
    file0 ← gets_wal wal_file;
    file ← lift (ok_or file0 (Error_corrupt "wal::checkpoint: no WAL file open"));
    h ← gets_wal wal_header;
    n_ckpt ← io (checkpoint_loop (seqZ 1 n_log) h file db_file page_size 0);
    np ← gets_wal n_page;
    io (truncate db_file (np * page_size)) ;;
    io (sync db_file) ;;
    match mode with
    | Passive | Full => mret tt
    | Restart | Truncate =>
        salt1 ← proc next_wal_salt;
        salt2 ← proc next_wal_salt;
        let h := mkWalHeader (wh_magic h) (wh_format_version h) (wh_page_size h)
                   (u32 (wh_checkpoint_seq h + 1)) salt1 salt2 (wh_checksum1 h) (wh_checksum2 h) in
        upd_wal (set_header h) ;;
        '(c, hdr_buf) ← lift (seal_header h (checksum_big_endian h));
        upd_wal (set_header (with_checksum c h)) ;;
        io (write_at file 0 hdr_buf) ;;
        io (sync file) ;;
        (if bool_decide (mode = Truncate) then io (truncate file 0) else mret tt) ;;
        upd_wal (set_blocks []) ;;
        upd_wal (set_state 0 0 (Some c))
    end ;;
    mret (n_log, n_ckpt).
End Wal.

(** ** The abstract log

    A log is a list of entries; [log_bytes] is its encoding in the file after
    the header, each frame carrying the checksum chained from the header. *)

Record Entry := mkEntry { e_pgno : Z; e_commit : Z; e_data : bytes }.

Definition chain (h : WalHeader) (run : Z * Z) (e : Entry) : Z * Z :=
  wal_checksum_loop (be_bytes 4 (e_pgno e) ++ be_bytes 4 (e_commit e) ++ e_data e)
    (checksum_big_endian h) (fst run) (snd run).
Definition frame_of (h : WalHeader) (run : Z * Z) (e : Entry) : bytes :=
  frame_header_bytes (mkWalFrameHeader (e_pgno e) (e_commit e) (wh_salt1 h) (wh_salt2 h)
    (fst (chain h run e)) (snd (chain h run e))) ++ e_data e.
Fixpoint log_bytes (h : WalHeader) (run : Z * Z) (L : list Entry) : bytes :=
  match L with [] => [] | e :: L => frame_of h run e ++ log_bytes h (chain h run e) L end.
Definition log_run (h : WalHeader) (run : Z * Z) (L : list Entry) : Z * Z :=
  fold_left (chain h) L run.

Definition entry_ok (ps : Z) (e : Entry) : Prop :=
  is_u32 (e_pgno e) /\ e_pgno e <> 0 /\ is_u32 (e_commit e) /\ zlen (e_data e) = ps.
Definition run_ok (r : Z * Z) : Prop := is_u32 (fst r) /\ is_u32 (snd r).
(** A header whose stored checksum is right, for pages of [ps] bytes. *)
Definition header_valid (h : WalHeader) (ps : Z) : Prop :=
  wal_header_ok h /\ wh_page_size h = ps /\
  wal_checksum_loop (ztake 24 (wal_header_bytes h)) (checksum_big_endian h) 0 0 = running_pair h.
(** A page size the pager accepts, for what follows. *)
Definition page_size_ok (ps : Z) : Prop := 512 <= ps <= 65536 /\ ps mod 8 = 0.

(** The number of frames up to the last commit frame, and its database size. *)
Definition last_commit (L : list Entry) : Z * Z :=
  snd (fold_left (fun '(i, r) e => (i + 1, if e_commit e =? 0 then r else (i + 1, e_commit e)))
         L (0, (0, 0))).
Definition committed (L : list Entry) : list Entry := ztake (fst (last_commit L)) L.

Lemma zlen_frame_header_bytes h : zlen (frame_header_bytes h) = 24.
Proof. done. Qed.
Lemma zlen_frame_of h run e : zlen (frame_of h run e) = 24 + zlen (e_data e).
Proof. unfold frame_of. by rewrite zlen_app. Qed.
Lemma log_bytes_app h run L1 L2 :
  log_bytes h run (L1 ++ L2) = log_bytes h run L1 ++ log_bytes h (log_run h run L1) L2.
Proof.
  revert run. induction L1 as [|e L1 IH]; intros run; [done|]. cbn [app log_bytes log_run fold_left].
  by rewrite IH, app_assoc.
Qed.
Lemma log_run_app h run L1 L2 : log_run h run (L1 ++ L2) = log_run h (log_run h run L1) L2.
Proof. apply fold_left_app. Qed.
Lemma zlen_log_bytes h run ps L : Forall (entry_ok ps) L ->
  zlen (log_bytes h run L) = zlen L * (ps + 24).
Proof.
  intros HL. revert run. induction HL as [|e L (_&_&_&He) _ IH]; intros run; [done|].
  cbn [log_bytes]. rewrite zlen_app, zlen_frame_of, IH, zlen_cons. lia.
Qed.

Lemma chain_ok h run e ps : entry_ok ps e -> ps mod 8 = 0 -> run_ok run -> run_ok (chain h run e).
Proof.
  intros (_&_&_&He) Hps [H0 H1]. unfold run_ok, chain.
  destruct (zlen_mult8 (be_bytes 4 (e_pgno e) ++ be_bytes 4 (e_commit e) ++ e_data e)) as [n Hn].
  { rewrite !zlen_app, !zlen_be_bytes, He. change (Z.of_nat 4) with 4.
    replace (4 + (4 + ps)) with (ps + 1 * 8) by lia. by rewrite Z.mod_add by lia. }
  by apply (wal_checksum_loop_range n).
Qed.
Lemma log_run_ok h run L ps : Forall (entry_ok ps) L -> ps mod 8 = 0 -> run_ok run -> run_ok (log_run h run L).
Proof.
  intros HL Hps. revert run. induction HL as [|e L He _ IH]; intros run Hr; [exact Hr|].
  apply IH. by eapply chain_ok.
Qed.

(** The two checksum calls of a frame are one call on their concatenation. *)
Lemma two_checksums a b big s0 s1 : zlen a mod 8 = 0 ->
  (let '(t0, t1) := wal_checksum_loop a big s0 s1 in wal_checksum_loop b big t0 t1)
  = wal_checksum_loop (a ++ b) big s0 s1.
Proof. intros [n Hn]%zlen_mult8. symmetry. by apply (wal_checksum_loop_app n). Qed.

Lemma build_frame_spec fb h run pgno commit data ps :
  zlen data = ps -> ps mod 8 = 0 -> zlen fb = ps + WAL_FRAME_HEADER_SIZE ->
  build_frame fb h run pgno commit data =
    Ok (frame_of h run (mkEntry pgno commit data), chain h run (mkEntry pgno commit data)).
Proof.
  intros Hd Hps Hfb. unfold WAL_FRAME_HEADER_SIZE in *. pose proof (zlen_nonneg data).
  unfold build_frame, WAL_FRAME_HEADER_SIZE. change fb with ([] ++ zdrop 0 fb) at 1. fill_fields.
  set (pre := ((([] ++ be_bytes 4 pgno) ++ be_bytes 4 commit) ++ be_bytes 4 (wh_salt1 h)) ++
    be_bytes 4 (wh_salt2 h)). assert (zlen pre = 16) as Hpre by done.
  destruct (Z.eqb_spec (zlen (pre ++ zdrop 16 fb)) (24 + zlen data)) as [_|Hne]; [|exfalso; len_lia].
  rewrite copy_into_in by len_lia. cbn [mbind outcome_bind].
  assert (splice 24 data (pre ++ zdrop 16 fb) = pre ++ zslice 16 24 fb ++ data) as ->.
  { unfold splice. rewrite ztake_app_ge by lia. rewrite <- app_assoc, Hpre. f_equal.
    unfold zslice. change (24 - 16) with 8. f_equal.
    rewrite zdrop_all by len_lia. by rewrite app_nil_r. }
  set (mid := zslice 16 24 fb). assert (zlen mid = 8) as Hmid
    by (unfold mid; rewrite zlen_zslice; lia).
  assert (zslice 0 8 (pre ++ mid ++ data) = be_bytes 4 pgno ++ be_bytes 4 commit) as Hb8.
  { rewrite zslice_app_l by len_lia. reflexivity. }
  rewrite sub_range_in by len_lia. cbn [mbind outcome_bind]. rewrite Hb8.
  rewrite wal_checksum_ok by reflexivity. cbn [mbind outcome_bind].
  destruct (wal_checksum_loop (be_bytes 4 pgno ++ be_bytes 4 commit)
    (checksum_big_endian h) (fst run) (snd run)) as [t0 t1] eqn:E1.
  unfold sub_from. rewrite get_from_in by len_lia. cbn [expect mbind outcome_bind].
  replace (zdrop 24 (pre ++ mid ++ data)) with data.
  2:{ rewrite app_assoc, zdrop_app_ge by len_lia. by rewrite zdrop_0 by len_lia. }
  rewrite wal_checksum_ok by (by rewrite Hd). cbn [mbind outcome_bind].
  assert (wal_checksum_loop data (checksum_big_endian h) t0 t1 = chain h run (mkEntry pgno commit data)) as ->.
  { unfold chain. simpl e_pgno. simpl e_commit. simpl e_data. rewrite (app_assoc (be_bytes 4 pgno)).
    rewrite <- (two_checksums (be_bytes 4 pgno ++ be_bytes 4 commit)) by reflexivity. by rewrite E1. }
  destruct (chain h run _) as [c0 c1] eqn:Ec.
  change (pre ++ mid ++ data) with (pre ++ zdrop 0 (mid ++ data)). fill_fields.
  do 2 f_equal. unfold frame_of, frame_header_bytes. rewrite Ec. cbn [fst snd fh_page_number fh_commit_size
    fh_salt1 fh_salt2 fh_checksum1 fh_checksum2 e_pgno e_commit e_data].
  rewrite zdrop_app_ge, zdrop_0 by len_lia. unfold pre. rewrite <- !app_assoc. done.
Qed.

Lemma check_frame_spec h run e ps :
  entry_ok ps e -> ps mod 8 = 0 -> wal_header_ok h -> run_ok run ->
  check_frame h run (frame_of h run e) = Ok (Some (e_pgno e, e_commit e, chain h run e)).
Proof.
  intros He Hps Hh Hrun. pose proof (chain_ok h run e ps He Hps Hrun) as [Hc0 Hc1].
  destruct He as (Hp & Hp0 & Hc & Hd). destruct Hh as (_&_&_&_&Hs1&Hs2&_).
  pose proof (zlen_nonneg (e_data e)).
  unfold check_frame, WAL_FRAME_HEADER_SIZE. unfold frame_of at 1 2 3.
  set (fh := mkWalFrameHeader _ _ _ _ _ _).
  rewrite (sub_range_in _ 0 24) by (rewrite ?zlen_app, ?zlen_frame_header_bytes; lia). cbn [mbind outcome_bind].
  rewrite (zslice_app_l 0 24) by (rewrite ?zlen_frame_header_bytes; lia).
  change (zslice 0 24 (frame_header_bytes fh)) with (frame_header_bytes fh).
  assert (WalFrameHeader_decode (frame_header_bytes fh) = Ok fh) as ->.
  { rewrite <- (app_nil_r (frame_header_bytes fh)). apply WalFrameHeader_decode_eq.
    unfold frame_header_ok, fh. cbn. auto 10. }
  cbn [mbind outcome_bind fh fh_salt1 fh_salt2 fh_page_number fh_checksum1 fh_checksum2 fh_commit_size].
  rewrite !Z.eqb_refl. cbn [negb orb]. destruct (Z.eqb_spec (e_pgno e) 0); [done|].
  rewrite (sub_range_in _ 0 8) by (rewrite ?zlen_app, ?zlen_frame_header_bytes; lia). cbn [mbind outcome_bind].
  rewrite (zslice_app_l 0 8) by (rewrite ?zlen_frame_header_bytes; lia).
  change (zslice 0 8 (frame_header_bytes fh)) with (be_bytes 4 (e_pgno e) ++ be_bytes 4 (e_commit e)).
  rewrite wal_checksum_ok by reflexivity. cbn [mbind outcome_bind].
  destruct (wal_checksum_loop (be_bytes 4 (e_pgno e) ++ be_bytes 4 (e_commit e))
    (checksum_big_endian h) (fst run) (snd run)) as [t0 t1] eqn:E1.
  unfold sub_from. rewrite get_from_in by (rewrite ?zlen_app, ?zlen_frame_header_bytes; lia).
  cbn [expect mbind outcome_bind].
  rewrite zdrop_app_ge, zdrop_0 by (rewrite ?zlen_frame_header_bytes; lia).
  rewrite wal_checksum_ok by (by rewrite Hd). cbn [mbind outcome_bind].
  assert (wal_checksum_loop (e_data e) (checksum_big_endian h) t0 t1 = chain h run e) as ->.
  { unfold chain. rewrite (app_assoc (be_bytes 4 _)).
    rewrite <- (two_checksums (be_bytes 4 (e_pgno e) ++ be_bytes 4 (e_commit e))) by reflexivity.
    by rewrite E1. }
  destruct (chain h run e) as [c0 c1]. cbn [fst snd]. by rewrite !Z.eqb_refl.
Qed.

(** ** Recovery *)

(** One entry read by the recovery loop. *)
Definition rec_step (h : WalHeader) (st : RecoverSt) (e : Entry) : RecoverSt :=
  let running := chain h (rs_running st) e in
  let pgnos := rs_pgnos st ++ [e_pgno e] in
  if negb (e_commit e =? 0) then mkRecoverSt running (zlen pgnos) (e_commit e) running pgnos
  else mkRecoverSt running (rs_commit_frame st) (rs_commit_npage st) (rs_commit_cksum st) pgnos.

(** The bytes after the log do not continue it. *)
Definition bad_tail (h : WalHeader) (run : Z * Z) (ps : Z) (tail : bytes) : Prop :=
  zlen tail < ps + 24 \/ check_frame h run (ztake (ps + 24) tail) = Ok None.

Lemma seqZ_split i n : 0 < n -> seqZ i n = i :: seqZ (i + 1) (n - 1).
Proof. intros. by rewrite seqZ_cons by lia. Qed.

Section RecoverProofs.
Context {E F : Type} `{VfsLaws E F}.

Lemma read_frame_at (e : E) (f : F) pre mid post off len :
  contents e f = Some (pre ++ mid ++ post) -> off = zlen pre -> len = zlen mid ->
  read_at f off len e = (Ok mid, e).
Proof.
  intros Hc -> ->. rewrite (read_at_spec _ _ _ _ _ Hc) by apply zlen_nonneg.
  by rewrite zslice_app3.
Qed.

Lemma recover_loop_spec (e : E) (w : Wal F) (f : F) ps L pre tail cnt st :
  contents e f = Some (pre ++ log_bytes (wal_header w) (rs_running st) L ++ tail) ->
  Forall (entry_ok ps) L -> page_size_ok ps -> wal_header_ok (wal_header w) -> run_ok (rs_running st) ->
  zlen pre = 32 + zlen (rs_pgnos st) * (ps + 24) -> cnt = zlen L + zlen tail / (ps + 24) ->
  bad_tail (wal_header w) (log_run (wal_header w) (rs_running st) L) ps tail ->
  recover_loop (seqZ (zlen (rs_pgnos st) + 1) cnt) w f (ps + 24) st e =
    (Ok (fold_left (rec_step (wal_header w)) L st), e).
Proof.
  intros Hc HL [Hps Hps8] Hh. revert pre st cnt Hc.
  induction HL as [|en L He HL IH]; intros pre st cnt Hc Hrun Hpre -> Hbad.
  - cbn [log_bytes app] in Hc. simpl fold_left. pose proof (zlen_nonneg tail).
    change (zlen (@nil Entry)) with 0. rewrite Z.add_0_l.
    destruct (Z_lt_le_dec (zlen tail) (ps + 24)) as [Hs|Hs].
    { rewrite Z.div_small by lia. done. }
    rewrite seqZ_split by (apply Z.div_str_pos; lia). cbn [recover_loop].
    destruct Hbad as [?|Hbad]; [lia|].
    rewrite (M_bind_ok _ _ _ (ztake (ps + 24) tail) e).
    2:{ apply (read_frame_at e f pre (ztake (ps + 24) tail) (zdrop (ps + 24) tail)).
        - by rewrite ztake_zdrop_id.
        - unfold WAL_HEADER_SIZE. lia.
        - rewrite zlen_ztake. lia. }
    rewrite zlen_ztake. destruct (Z.ltb_spec (Z.max 0 (Z.min (ps + 24) (zlen tail))) (ps + 24)); [lia|].
    unfold lift. simpl in Hbad. unfold mbind, M_bind. by rewrite Hbad.
  - cbn [log_bytes] in Hc. pose proof (zlen_nonneg tail). pose proof (zlen_nonneg L).
    assert (0 <= zlen tail / (ps + 24)) by (apply Z.div_pos; lia).
    rewrite zlen_cons, seqZ_split by lia. cbn [recover_loop fold_left].
    set (fr := frame_of (wal_header w) (rs_running st) en) in *.
    assert (zlen fr = ps + 24) as Hfr
      by (unfold fr; rewrite zlen_frame_of; destruct He as (_&_&_&->); lia).
    rewrite (M_bind_ok _ _ _ fr e).
    2:{ rewrite <- app_assoc in Hc. apply (read_frame_at e f _ _ _ _ _ Hc); [|lia].
        unfold WAL_HEADER_SIZE. lia. }
    destruct (Z.ltb_spec (zlen fr) (ps + 24)); [lia|].
    unfold lift at 1. unfold mbind at 1, M_bind at 1. unfold fr at 1.
    rewrite (check_frame_spec _ _ _ ps) by done.
    fold (rec_step (wal_header w) st en).
    assert ((if negb (e_commit en =? 0)
             then mkRecoverSt (chain (wal_header w) (rs_running st) en) (zlen (rs_pgnos st) + 1)
                    (e_commit en) (chain (wal_header w) (rs_running st) en) (rs_pgnos st ++ [e_pgno en])
             else mkRecoverSt (chain (wal_header w) (rs_running st) en) (rs_commit_frame st)
                    (rs_commit_npage st) (rs_commit_cksum st) (rs_pgnos st ++ [e_pgno en]))
            = rec_step (wal_header w) st en) as ->
      by (unfold rec_step; by rewrite zlen_app).
    assert (rs_running (rec_step (wal_header w) st en) = chain (wal_header w) (rs_running st) en) as Hr'
      by (unfold rec_step; by destruct (negb _)).
    assert (zlen (rs_pgnos (rec_step (wal_header w) st en)) = zlen (rs_pgnos st) + 1) as Hp'
      by (unfold rec_step; destruct (negb _); simpl; by rewrite zlen_app).
    rewrite <- Hp'. apply (IH (pre ++ fr)).
    + rewrite Hr'. rewrite Hc. f_equal. by rewrite <- !app_assoc.
    + rewrite Hr'. by eapply chain_ok.
    + rewrite Hp', zlen_app. lia.
    + lia.
    + by rewrite Hr'.
Qed.
End RecoverProofs.

(** What the loop has accumulated after a log. *)
Definition last_npage (L : list Entry) : Z := snd (last_commit L).

Lemma last_commit_fold L :
  fold_left (fun '(i, r) e => (i + 1, if e_commit e =? 0 then r else (i + 1, e_commit e))) L (0, (0, 0))
  = (zlen L, last_commit L).
Proof.
  unfold last_commit. induction L as [|e L IH] using rev_ind; [done|].
  rewrite fold_left_app. simpl. destruct (fold_left _ L (0, (0, 0))) as [i r]. simpl in *.
  injection IH as ->. f_equal. len_lia.
Qed.
Lemma last_commit_snoc L e :
  last_commit (L ++ [e]) = if e_commit e =? 0 then last_commit L else (zlen L + 1, e_commit e).
Proof. unfold last_commit at 1. rewrite fold_left_app, last_commit_fold. simpl. by destruct (_ =? 0). Qed.
Lemma last_commit_range L : 0 <= fst (last_commit L) <= zlen L.
Proof.
  induction L as [|e L IH] using rev_ind; [done|]. rewrite last_commit_snoc.
  destruct (e_commit e =? 0); simpl; len_lia.
Qed.

Lemma rec_fold h L run : 
  let st := fold_left (rec_step h) L (mkRecoverSt run 0 0 (0, 0) []) in
  rs_running st = log_run h run L /\ rs_pgnos st = e_pgno <$> L /\
  rs_commit_frame st = fst (last_commit L) /\ rs_commit_npage st = last_npage L /\
  (fst (last_commit L) <> 0 -> rs_commit_cksum st = log_run h run (committed L)).
Proof.
  induction L as [|e L IH] using rev_ind; [done|]. cbn zeta in *.
  rewrite fold_left_app. cbn [fold_left].
  set (st := fold_left (rec_step h) L _) in *. destruct IH as (Hr & Hp & Hf & Hn & Hc).
  unfold rec_step, last_npage, committed. rewrite last_commit_snoc, log_run_app, fmap_app, Hr, Hp.
  destruct (Z.eqb_spec (e_commit e) 0); cbn [negb rs_running rs_pgnos rs_commit_frame rs_commit_npage rs_commit_cksum fst snd].
  - split_and!; try done. intros Hne. rewrite (Hc Hne). unfold committed. f_equal.
    symmetry. apply ztake_app_le. apply last_commit_range.
  - split_and!; try done; [len_lia|]. intros _.
    rewrite ztake_all by len_lia. by rewrite log_run_app.
Qed.

(** ** The open WAL represents its log *)

Record wal_repr {F} (w : Wal F) (f : F) (h : WalHeader) (ps : Z) (L : list Entry) : Prop := {
  wr_file : wal_file w = Some f;
  wr_header : wal_header w = h;
  wr_page_size : wal_page_size w = ps;
  wr_index : index_inv (blocks w) (e_pgno <$> L);
  wr_mx : mx_frame w = zlen L;
  wr_npage : n_page w = last_npage L;
  wr_cksum : default (running_pair h) (frame_cksum w) = log_run h (running_pair h) L
}.
(** The file holds the header [h], the log [L] and then [tail]. *)
Definition log_file (h : WalHeader) (L : list Entry) (tail : bytes) : bytes :=
  wal_header_bytes h ++ log_bytes h (running_pair h) L ++ tail.

Lemma zlen_wal_header_bytes h : zlen (wal_header_bytes h) = 32.
Proof. done. Qed.
Lemma last_npage_committed L : fst (last_commit L) = 0 -> last_npage L = 0.
Proof.
  induction L as [|e L IH] using rev_ind; [done|]. unfold last_npage. rewrite last_commit_snoc.
  destruct (e_commit e =? 0); [done|]. simpl. pose proof (zlen_nonneg L). lia.
Qed.
Lemma last_npage_prefix L : last_npage (committed L) = last_npage L.
Proof.
  unfold committed, last_npage. induction L as [|e L IH] using rev_ind; [done|].
  rewrite !last_commit_snoc. destruct (Z.eqb_spec (e_commit e) 0) as [|Hne].
  - rewrite ztake_app_le by apply last_commit_range. done.
  - simpl fst. rewrite ztake_all by len_lia. rewrite last_commit_snoc.
    by destruct (Z.eqb_spec (e_commit e) 0).
Qed.
Lemma zlen_committed L : zlen (committed L) = fst (last_commit L).
Proof. unfold committed. pose proof (last_commit_range L). rewrite zlen_ztake. lia. Qed.

Lemma ztake_fmap {A B} (f : A -> B) n l : f <$> ztake n l = ztake n (f <$> l).
Proof. unfold ztake. apply fmap_take. Qed.

Section OpenProofs.
Context {E F : Type} `{VfsLaws E F}.

Lemma recover_spec (e : E) (w : Wal F) (f : F) h ps L tail :
  contents e f = Some (log_file h L tail) ->
  wal_file w = Some f -> wal_header w = h -> wal_page_size w = ps -> blocks w = [] ->
  mx_frame w = 0 -> n_page w = 0 -> frame_cksum w = Some (running_pair h) ->
  header_valid h ps -> page_size_ok ps -> Forall (entry_ok ps) L ->
  bad_tail h (log_run h (running_pair h) L) ps tail ->
  zlen L + zlen tail / (ps + 24) + 4096 < 2 ^ 32 ->
  exists w', recover w (zlen (log_file h L tail)) e = (Ok w', e) /\
    wal_repr w' f h ps (committed L) /\ wal_path_ w' = wal_path_ w.
Proof.
  intros Hc Hf Hh Hp Hb Hmx Hnp Hck Hv Hps HL Hbad Hn.
  pose proof Hv as (Hho & _ & Hck2). pose proof Hps as [Hps1 Hps2].
  assert (run_ok (running_pair h)) as Hrun by (destruct Hho as (_&_&_&_&_&_&?&?); by split).
  assert ((zlen (log_file h L tail) - 32) / (ps + 24) = zlen L + zlen tail / (ps + 24)) as Hcnt.
  { unfold log_file. rewrite !zlen_app, zlen_wal_header_bytes, (zlen_log_bytes _ _ ps) by done.
    replace (32 + (zlen L * (ps + 24) + zlen tail) - 32) with (zlen L * (ps + 24) + zlen tail) by lia.
    apply Z.div_add_l. lia. }
  pose proof (zlen_nonneg L). pose proof (zlen_nonneg tail).
  assert (0 <= zlen tail / (ps + 24)) by (apply Z.div_pos; lia).
  unfold recover, WAL_FRAME_HEADER_SIZE, WAL_HEADER_SIZE. rewrite Hp, Hcnt, Hf, Hh.
  destruct (Z.eqb_spec (zlen L + zlen tail / (ps + 24)) 0) as [Hz0|Hz0].
  { assert (L = []) as -> by (destruct L; [done|rewrite zlen_cons in *; pose proof (zlen_nonneg L); lia]).
    exists w. split; [done|]. split; [|done]. split; try done; [by rewrite Hb; apply index_inv_nil|].
    by rewrite Hck. }
  assert (u32 (zlen L + zlen tail / (ps + 24)) = zlen L + zlen tail / (ps + 24)) as ->
    by (apply Z.mod_small; lia).
  set (st0 := mkRecoverSt (running_pair h) 0 0 (0, 0) []).
  rewrite (M_bind_ok _ _ _ (fold_left (rec_step h) L st0) e).
  2:{ pose proof (recover_loop_spec e w f ps L (wal_header_bytes h) tail
        (zlen L + zlen tail / (ps + 24)) st0) as Hl. rewrite Hh in Hl. by apply Hl. }
  pose proof (rec_fold h L (running_pair h)) as Hfold. cbn zeta in Hfold. fold st0 in Hfold.
  destruct Hfold as (Hr & Hpg & Hcf & Hcn & Hcc).
  set (st := fold_left (rec_step h) L st0) in *. rewrite Hcf, Hpg, Hcn.
  assert (ztake (fst (last_commit L)) (e_pgno <$> L) = e_pgno <$> committed L) as ->
    by (unfold committed; by rewrite ztake_fmap).
  destruct (append_all_spec [] [] (e_pgno <$> committed L) index_inv_nil) as (bs & Ha & Hi).
  { rewrite zlen_fmap, zlen_committed. change (zlen (@nil Z)) with 0.
    pose proof (last_commit_range L). lia. }
  rewrite Hb. change (zlen (@nil Z) + 1) with 1 in Ha. unfold lift, mbind, M_bind. rewrite Ha.
  eexists. split; [done|]. split; [|done].
  split; cbn [wal_file wal_header wal_page_size blocks mx_frame n_page frame_cksum]; try done.
  - by rewrite zlen_committed.
  - by rewrite last_npage_prefix.
  - simpl. destruct (Z.eqb_spec (fst (last_commit L)) 0) as [Hz|Hz]; [|by rewrite Hcc].
    unfold committed. by rewrite Hz, ztake_0 by lia.
Qed.

Lemma wal_open_spec (e : E) (f : F) path h ps L tail :
  contents e f = Some (log_file h L tail) ->
  header_valid h ps -> page_size_ok ps -> Forall (entry_ok ps) L ->
  bad_tail h (log_run h (running_pair h) L) ps tail ->
  zlen L + zlen tail / (ps + 24) + 4096 < 2 ^ 32 ->
  exists w, wal_open_file f path ps e = (Ok w, e) /\ wal_repr w f h ps (committed L).
Proof.
  intros Hc Hv Hps HL Hbad Hn. pose proof Hv as (Hho & Hpsz & Hck).
  assert (32 <= zlen (log_file h L tail)) as Hlen.
  { unfold log_file. rewrite zlen_app, zlen_wal_header_bytes. len_lia. }
  unfold wal_open_file, WAL_HEADER_SIZE. rewrite (M_bind_ok _ _ _ _ _ (file_size_spec _ _ _ Hc)).
  destruct (Z.ltb_spec (zlen (log_file h L tail)) 32); [lia|].
  rewrite (M_bind_ok _ _ _ (wal_header_bytes h) e).
  2:{ apply (read_frame_at e f [] _ (log_bytes h (running_pair h) L ++ tail)); done. }
  rewrite zlen_wal_header_bytes. simpl Z.ltb. cbn iota.
  assert (WalHeader_decode (wal_header_bytes h) = Ok h) as Hdec
    by (rewrite <- (app_nil_r (wal_header_bytes h)); by apply WalHeader_decode_eq).
  unfold lift. unfold mbind at 1, M_bind at 1. rewrite Hdec. rewrite Hpsz, Z.eqb_refl. simpl negb. cbn iota.
  unfold mbind at 1, M_bind at 1. rewrite sub_range_in by (rewrite ?zlen_wal_header_bytes; lia).
  unfold mbind at 1, M_bind at 1. rewrite wal_checksum_ok by reflexivity.
  change (zslice 0 24 (wal_header_bytes h)) with (ztake 24 (wal_header_bytes h)). rewrite Hck.
  unfold running_pair. rewrite !Z.eqb_refl. cbn [negb orb].
  destruct (recover_spec e (mkWal (Some f) path h ps [] 0 0 (Some (wh_checksum1 h, wh_checksum2 h)))
    f h ps L tail) as (w & Hw & Hrepr & _); try done. eauto.
Qed.
End OpenProofs.

(** ** Committing *)

(** The entries [write_frames] appends: the last one carries [n_truncate]. *)
Fixpoint entries_of (frames : list (Z * bytes)) (n_truncate : Z) : list Entry :=
  match frames with
  | [] => []
  | (p, d) :: frames =>
      mkEntry p (match frames with [] => n_truncate | _ => 0 end) d :: entries_of frames n_truncate
  end.

Lemma seal_header_spec h big c :
  c = wal_checksum_loop (ztake 24 (wal_header_bytes h)) big 0 0 ->
  seal_header h big = Ok (c, wal_header_bytes (with_checksum c h)).
Proof.
  intros ->. unfold seal_header, WAL_HEADER_SIZE. rewrite WalHeader_encode_eq by done.
  rewrite zdrop_all by done. rewrite app_nil_r. cbn [mbind outcome_bind].
  rewrite (sub_range_in _ 0 24) by (rewrite ?zlen_wal_header_bytes; lia). cbn [mbind outcome_bind].
  change (zslice 0 24 (wal_header_bytes h)) with (ztake 24 (wal_header_bytes h)).
  rewrite wal_checksum_ok by reflexivity. cbn [mbind outcome_bind].
  destruct (wal_checksum_loop _ big 0 0) as [c0 c1].
  rewrite <- (ztake_zdrop_id 24 (wal_header_bytes h)) at 1.
  change (ztake 24 (wal_header_bytes h) ++ zdrop 24 (wal_header_bytes h))
    with ((be_bytes 4 (wh_magic h) ++ be_bytes 4 (wh_format_version h) ++ be_bytes 4 (wh_page_size h) ++
      be_bytes 4 (wh_checkpoint_seq h) ++ be_bytes 4 (wh_salt1 h) ++ be_bytes 4 (wh_salt2 h)) ++
      zdrop 0 (be_bytes 4 (wh_checksum1 h) ++ be_bytes 4 (wh_checksum2 h))).
  fill_fields. do 3 f_equal.
Qed.

Lemma wal_header_bytes_24 c h :
  ztake 24 (wal_header_bytes (with_checksum c h)) = ztake 24 (wal_header_bytes h).
Proof. reflexivity. Qed.

(** The sealed header is valid. *)
Lemma seal_valid h ps : is_u32 (wh_magic h) -> is_u32 (wh_format_version h) -> wh_page_size h = ps ->
  is_u32 ps -> is_u32 (wh_checkpoint_seq h) -> is_u32 (wh_salt1 h) -> is_u32 (wh_salt2 h) ->
  header_valid (with_checksum (wal_checksum_loop (ztake 24 (wal_header_bytes h)) (checksum_big_endian h) 0 0) h) ps.
Proof.
  intros. destruct (wal_checksum_loop_range 3 (ztake 24 (wal_header_bytes h)) (checksum_big_endian h) 0 0)
    as [Hc0 Hc1]; [done|by_decide|by_decide|].
  split; [|split; [done|]].
  - unfold wal_header_ok; cbn. subst ps. auto 10.
  - rewrite wal_header_bytes_24. unfold with_checksum at 1, checksum_big_endian at 1, running_pair; cbn.
    by destruct (wal_checksum_loop _ _ 0 0).
Qed.

Lemma next_wal_salt_spec p : exists s p', next_wal_salt p = (Ok s, p') /\ is_u32 s /\ s <> 0.
Proof.
  unfold next_wal_salt. eexists _, _. split; [done|].
  destruct (Z.eqb_spec (splitmix (pid p) (salt_counter p)) 0); [by split; [by_decide|]|].
  split; [|done]. apply Z.mod_pos_bound. lia.
Qed.

(** [e'] differs from [e] only in the contents of [f]. *)
Definition only_changes {E F} `{VfsLaws E F} (e : E) (f : F) (e' : E) (b : bytes) : Prop :=
  contents e' f = Some b /\ (forall g, ~ alias e f g -> contents e' g = contents e g) /\
  (forall g k, alias e' g k <-> alias e g k).

Section WriteProofs.
Context {E F : Type} `{VfsLaws E F}.

Lemma only_changes_trans (e e1 e2 : E) (f : F) b1 b2 :
  only_changes e f e1 b1 -> only_changes e1 f e2 b2 -> only_changes e f e2 b2.
Proof.
  intros (H1 & Hn1 & Ha1) (H2 & Hn2 & Ha2). split_and!; [done| |].
  - intros g Hg. rewrite Hn2; [by apply Hn1|]. by rewrite Ha1.
  - intros g k. by rewrite Ha2.
Qed.
Lemma write_only (e : E) (f : F) b off d : contents e f = Some b -> 0 <= off -> off + zlen d < 2 ^ 64 ->
  exists e', write_at f off d e = (Ok tt, e') /\ only_changes e f e' (mem_write off d b).
Proof. intros Hc Ho Hd. destruct (write_at_spec _ _ _ _ _ Hc Ho Hd) as (e' & ? & ? & ? & ?). by exists e'. Qed.
Lemma sync_only (e : E) (f : F) b : contents e f = Some b ->
  exists e', sync f e = (Ok tt, e') /\ only_changes e f e' b.
Proof.
  intros Hc. destruct (sync_spec _ _ _ Hc) as (e' & Hs & Hk & Ha). exists e'. split; [done|].
  split_and!; [by rewrite Hk|intros g _; apply Hk|done].
Qed.

Lemma write_loop_spec (f : F) h ps n frames (e : E) fb i run pre post :
  contents e f = Some (pre ++ post) -> page_size_ok ps ->
  Forall (fun fr => zlen (snd fr) = ps) frames ->
  zlen fb = ps + 24 -> 0 <= i -> zlen pre = 32 + i * (ps + 24) -> i + zlen frames < 2 ^ 32 ->
  let new := entries_of frames n in
  exists e', write_loop frames f h ps n fb i run e =
      (Ok (i + zlen frames, log_run h run new), e') /\
    only_changes e f e' (pre ++ log_bytes h run new ++ zdrop (zlen (log_bytes h run new)) post).
Proof.
  intros Hc [Hps Hps8] Hfr. cbn zeta. revert e fb i run pre post Hc.
  induction Hfr as [|[p d] frames Hd _ IH]; intros e fb i run pre post Hc Hfb Hi Hpre Hn.
  - exists e. cbn [write_loop entries_of log_bytes log_run fold_left app]. change (zlen (@nil (Z * bytes))) with 0.
    rewrite Z.add_0_r. split; [done|]. rewrite zdrop_0 by (rewrite zlen_nil; lia). by split_and!.
  - rewrite zlen_cons in Hn. pose proof (zlen_nonneg frames). simpl in Hd.
    cbn [write_loop entries_of log_bytes log_run fold_left]. rewrite Hd, Z.eqb_refl. simpl negb. cbn iota.
    set (en := mkEntry p _ d). unfold lift. unfold mbind at 1, M_bind at 1. unfold chk_add32.
    destruct (Z.ltb_spec (i + 1) (2 ^ 32)); [|lia].
    unfold mbind at 1, M_bind at 1. rewrite (build_frame_spec _ _ _ _ _ _ ps) by (done || unfold WAL_FRAME_HEADER_SIZE; lia).
    fold en. set (fr := frame_of h run en).
    assert (zlen fr = ps + 24) as Hfrl by (unfold fr; rewrite zlen_frame_of; simpl; lia).
    replace (WAL_HEADER_SIZE + (i + 1 - 1) * (ps + WAL_FRAME_HEADER_SIZE)) with (zlen pre)
      by (unfold WAL_HEADER_SIZE, WAL_FRAME_HEADER_SIZE; lia).
    destruct (write_only e f _ (zlen pre) fr Hc) as (e1 & Hw & Hch); [lia|nia|].
    cbn [negb]. cbn beta iota. rewrite (M_bind_ok _ _ _ _ _ Hw). rewrite mem_write_over in Hch.
    destruct (IH e1 fr (i + 1) (chain h run en) (pre ++ fr) (zdrop (zlen fr) post))
      as (e2 & Hl & Hch2); [|lia|lia|rewrite zlen_app; lia|lia|].
    { rewrite <- app_assoc. apply Hch. }
    exists e2. rewrite Hl, zlen_cons. split; [do 3 f_equal; lia|].
    pose proof (only_changes_trans _ _ _ _ _ _ Hch Hch2) as Hfin.
    rewrite zdrop_zdrop in Hfin by apply zlen_nonneg. rewrite <- !app_assoc in Hfin.
    rewrite zlen_app, <- app_assoc. by rewrite (Z.add_comm (zlen fr)).
Qed.
End WriteProofs.

Lemma zlen_entries_of frames n : zlen (entries_of frames n) = zlen frames.
Proof. induction frames as [|[p d] frames IH]; [done|]. cbn [entries_of]. by rewrite !zlen_cons, IH. Qed.
Lemma entries_of_pgno frames n : e_pgno <$> entries_of frames n = fst <$> frames.
Proof. induction frames as [|[p d] frames IH]; [done|]. cbn [entries_of fmap list_fmap]. simpl. by f_equal. Qed.
(** A page the pager can hand over. *)
Definition frame_ok (ps : Z) (fr : Z * bytes) : Prop :=
  is_u32 (fst fr) /\ fst fr <> 0 /\ zlen (snd fr) = ps.
Lemma entries_of_ok ps frames n : Forall (frame_ok ps) frames -> is_u32 n ->
  Forall (entry_ok ps) (entries_of frames n).
Proof.
  intros HF Hn. induction HF as [|[p d] frames (Hp & Hp0 & Hd) _ IH]; constructor; [|done].
  split_and!; simpl; try done. destruct frames; [done|by_decide].
Qed.
Lemma last_commit_zeros L Z0 : Forall (fun e => e_commit e = 0) Z0 -> last_commit (L ++ Z0) = last_commit L.
Proof.
  induction Z0 as [|e Z0 IH] using rev_ind; intros HZ; [by rewrite app_nil_r|].
  apply Forall_app in HZ as [HZ [He _]%Forall_cons]. rewrite app_assoc, last_commit_snoc, He. by apply IH.
Qed.
(** The appended entries end with the commit frame. *)
Lemma entries_of_last frames n : frames <> [] ->
  exists Z0 p d, entries_of frames n = Z0 ++ [mkEntry p n d] /\ Forall (fun e => e_commit e = 0) Z0.
Proof.
  induction frames as [|[p d] frames IH]; [done|]. intros _. destruct frames as [|fr frames].
  - by exists [], p, d.
  - destruct IH as (Z0 & q & c & E & HZ); [done|].
    exists (mkEntry p 0 d :: Z0), q, c. cbn [entries_of] in *. rewrite E. split; [done|by constructor].
Qed.
Lemma last_commit_entries L frames n : frames <> [] -> n <> 0 ->
  last_commit (L ++ entries_of frames n) = (zlen L + zlen frames, n).
Proof.
  intros Hf Hn. destruct (entries_of_last frames n Hf) as (Z0 & p & d & E & HZ).
  pose proof (zlen_entries_of frames n) as Hl. rewrite E in *. rewrite app_assoc, last_commit_snoc. simpl.
  destruct (Z.eqb_spec n 0); [done|]. f_equal. len_lia.
Qed.
Lemma committed_entries L frames n : frames <> [] -> n <> 0 ->
  committed (L ++ entries_of frames n) = L ++ entries_of frames n.
Proof.
  intros. unfold committed. rewrite last_commit_entries by done. simpl.
  apply ztake_all. rewrite zlen_app, zlen_entries_of. lia.
Qed.

(** An open WAL, with the log [L] in its file followed by [tail]; an empty log
    may have any file, since committing starts it over. *)
Definition wal_state {E F} `{VfsLaws E F} (w : Wal F) (e : E) (f : F) (ps : Z) (L : list Entry)
    (tail : bytes) : Prop :=
  wal_file w = Some f /\ wal_page_size w = ps /\
  (L = [] /\ mx_frame w = 0 /\ blocks w = [] /\ (exists b, contents e f = Some b /\ tail = zdrop 32 b) \/
   L <> [] /\ exists h, wal_repr w f h ps L /\ header_valid h ps /\ Forall (entry_ok ps) L /\
     contents e f = Some (log_file h L tail)).

Section CommitProofs.
Context {E F : Type} `{VfsLaws E F}.

Lemma io_ok {A} (m : M E A) (w : Wal F) p e a e' : m e = (Ok a, e') -> io m (w, (p, e)) = (Ok a, (w, (p, e'))).
Proof. intros Hm. unfold io, on_snd. by rewrite Hm. Qed.
Lemma proc_ok {A} (m : M Proc A) (w : Wal F) p (e : E) a p' : m p = (Ok a, p') -> proc m (w, (p, e)) = (Ok a, (w, (p', e))).
Proof. intros Hm. unfold proc, on_snd, on_fst. by rewrite Hm. Qed.
Lemma gets_wal_ok {A} (g : Wal F -> A) w p (e : E) : gets_wal g (w, (p, e)) = (Ok (g w), (w, (p, e))).
Proof. done. Qed.
Lemma upd_wal_ok (g : Wal F -> Wal F) w p (e : E) : upd_wal g (w, (p, e)) = (Ok tt, (g w, (p, e))).
Proof. done. Qed.
Lemma lift_ok {A} (o : outcome A) a (s : Wal F * (Proc * E)) : o = Ok a -> lift o s = (Ok a, s).
Proof. by intros ->. Qed.

Lemma start_log_spec (w : Wal F) p e f ps b :
  contents e f = Some b -> wal_page_size w = ps -> page_size_ok ps ->
  exists h p' e', start_log f (w, (p, e)) = (Ok (running_pair h), (set_header h w, (p', e'))) /\
    header_valid h ps /\ wh_magic h = WAL_MAGIC_BE /\
    only_changes e f e' (wal_header_bytes h ++ zdrop 32 b).
Proof.
  intros Hc Hps [Hpr _]. unfold start_log.
  destruct (next_wal_salt_spec p) as (s1 & p1 & Hs1 & Hs1u & _).
  destruct (next_wal_salt_spec p1) as (s2 & p2 & Hs2 & Hs2u & _).
  rewrite (M_bind_ok _ _ _ _ _ (proc_ok _ _ _ _ _ _ Hs1)).
  rewrite (M_bind_ok _ _ _ _ _ (proc_ok _ _ _ _ _ _ Hs2)).
  rewrite (M_bind_ok _ _ _ _ _ (gets_wal_ok _ _ _ _)).
  rewrite (M_bind_ok _ _ _ _ _ (upd_wal_ok _ _ _ _)). rewrite Hps.
  set (h0 := mkWalHeader WAL_MAGIC_BE WAL_FORMAT_VERSION ps 0 s1 s2 0 0).
  set (c := wal_checksum_loop (ztake 24 (wal_header_bytes h0)) true 0 0).
  rewrite (M_bind_ok _ _ _ _ _ (lift_ok _ _ _ (seal_header_spec h0 true c eq_refl))).
  set (h := with_checksum c h0).
  assert (header_valid h ps) as Hv.
  { pose proof (seal_valid h0 ps) as Hv. change (checksum_big_endian h0) with true in Hv.
    fold c in Hv.
    assert (is_u32 WAL_MAGIC_BE) as Hm by by_decide. assert (is_u32 WAL_FORMAT_VERSION) as Hfv by by_decide.
    assert (is_u32 0) as Hz by by_decide. assert (is_u32 ps) as Hpu by (unfold is_u32; lia).
    exact (Hv Hm Hfv eq_refl Hpu Hz Hs1u Hs2u). }
  rewrite (M_bind_ok _ _ _ _ _ (upd_wal_ok _ _ _ _)).
  destruct (write_only e f b 0 (wal_header_bytes h) Hc) as (e1 & Hw & Hch1); [lia|done|].
  rewrite (M_bind_ok _ _ _ _ _ (io_ok _ _ _ _ _ _ Hw)).
  destruct (sync_only e1 f _ (proj1 Hch1)) as (e2 & Hs & Hch2).
  rewrite (M_bind_ok _ _ _ _ _ (io_ok _ _ _ _ _ _ Hs)).
  exists h, p2, e2. split; [|split_and!; [done|done|]].
  - unfold mret, M_ret. unfold running_pair, h, with_checksum. cbn [wh_checksum1 wh_checksum2]. by destruct c.
  - pose proof (only_changes_trans _ _ _ _ _ _ Hch1 Hch2) as Hch.
    pose proof (mem_write_over [] (wal_header_bytes h) b) as Hmw. cbn [app] in Hmw.
    change (zlen (@nil Z)) with 0 in Hmw. rewrite zlen_wal_header_bytes in Hmw.
    by rewrite Hmw in Hch.
Qed.

(** The common tail: append the frames, sync, and advance the state. *)
Lemma write_frames_tail (w : Wal F) p e f h ps L tail frames n :
  wal_file w = Some f -> wal_header w = h -> wal_page_size w = ps ->
  index_inv (blocks w) (e_pgno <$> L) -> page_size_ok ps -> Forall (entry_ok ps) L ->
  contents e f = Some (log_file h L tail) -> Forall (frame_ok ps) frames -> frames <> [] ->
  is_u32 n -> n <> 0 -> zlen L + zlen frames + 4096 < 2 ^ 32 ->
  let new := entries_of frames n in
  exists w' e',
    ('(i_frame, running) ← io (write_loop frames f h ps n (zrep (ps + WAL_FRAME_HEADER_SIZE) 0)
          (zlen L) (log_run h (running_pair h) L));
      io (sync f) ;;
      bs ← gets_wal blocks;
      bs ← lift (append_all bs (zlen L + 1) (fst <$> frames));
      upd_wal (set_blocks bs) ;;
      upd_wal (set_state i_frame n (Some running))) (w, (p, e)) = (Ok tt, (w', (p, e'))) /\
    wal_repr w' f h ps (L ++ new) /\ Forall (entry_ok ps) (L ++ new) /\
    only_changes e f e' (log_file h (L ++ new) (zdrop (zlen frames * (ps + 24)) tail)).
Proof.
  intros Hf Hh Hp Hix Hps HL Hc Hfr Hne Hn Hn0 Hlen. cbn zeta. pose proof (zlen_nonneg L).
  pose proof (entries_of_ok ps frames n Hfr Hn) as Hnew.
  pose proof (zlen_nonneg frames). pose proof Hps as [Hpr _].
  destruct (write_loop_spec f h ps n frames e (zrep (ps + WAL_FRAME_HEADER_SIZE) 0) (zlen L)
    (log_run h (running_pair h) L) (wal_header_bytes h ++ log_bytes h (running_pair h) L) tail)
    as (e1 & Hw & Hch1); try done.
  { eapply Forall_impl; [exact Hfr|]. by intros ? (_&_&?). }
  { unfold WAL_FRAME_HEADER_SIZE. rewrite zlen_zrep. lia. }
  { rewrite zlen_app, zlen_wal_header_bytes, (zlen_log_bytes _ _ ps) by done. lia. }
  { lia. }
  rewrite (M_bind_ok _ _ _ _ _ (io_ok _ _ _ _ _ _ Hw)).
  destruct (sync_only e1 f _ (proj1 Hch1)) as (e2 & Hs & Hch2).
  rewrite (M_bind_ok _ _ _ _ _ (io_ok _ _ _ _ _ _ Hs)).
  rewrite (M_bind_ok _ _ _ _ _ (gets_wal_ok _ _ _ _)).
  destruct (append_all_spec (blocks w) (e_pgno <$> L) (fst <$> frames) Hix)
    as (bs & Ha & Hi); [rewrite !zlen_fmap; lia|].
  rewrite zlen_fmap in Ha. rewrite (M_bind_ok _ _ _ _ _ (lift_ok _ _ _ Ha)).
  rewrite (M_bind_ok _ _ _ _ _ (upd_wal_ok _ _ _ _)), upd_wal_ok.
  eexists _, e2. split; [done|]. split; [|split; [by apply Forall_app|]].
  - split; simpl; try done.
    + by rewrite fmap_app, entries_of_pgno.
    + by rewrite zlen_app, zlen_entries_of.
    + unfold last_npage. by rewrite last_commit_entries.
    + by rewrite log_run_app.
  - pose proof (only_changes_trans _ _ _ _ _ _ Hch1 Hch2) as Hch.
    unfold log_file. rewrite log_bytes_app. rewrite <- !app_assoc in *.
    rewrite (zlen_log_bytes _ _ ps) in Hch by done. by rewrite zlen_entries_of in Hch.
Qed.

(** Appending to a log that has frames. *)
Lemma write_frames_append (w : Wal F) p e f h ps L tail frames n :
  wal_repr w f h ps L -> Forall (entry_ok ps) L -> contents e f = Some (log_file h L tail) -> L <> [] ->
  page_size_ok ps -> Forall (frame_ok ps) frames -> frames <> [] ->
  is_u32 n -> n <> 0 -> zlen L + zlen frames + 4096 < 2 ^ 32 ->
  let new := entries_of frames n in
  exists w' e', write_frames frames n (w, (p, e)) = (Ok tt, (w', (p, e'))) /\
    wal_repr w' f h ps (L ++ new) /\ Forall (entry_ok ps) (L ++ new) /\
    only_changes e f e' (log_file h (L ++ new) (zdrop (zlen frames * (ps + 24)) tail)).
Proof.
  intros Hr HL Hc HL0 Hps Hfr Hne Hn Hn0 Hlen. cbn zeta.
  destruct (write_frames_tail w p e f h ps L tail frames n)
    as (w' & e' & Hrun & Hrest); try done; try apply Hr.
  exists w', e'. split; [|done]. unfold write_frames.
  destruct frames as [|fr0 frs] eqn:Efr; [done|]. rewrite <- Efr in *. clear Efr fr0 frs.
  do 2 rewrite (M_bind_ok _ _ _ _ _ (gets_wal_ok _ _ _ _)). rewrite (wr_file _ _ _ _ _ Hr).
  rewrite (M_bind_ok _ _ _ f (w, (p, e))) by done.
  assert (mx_frame w <> 0) as Hmx.
  { rewrite (wr_mx _ _ _ _ _ Hr). destruct L; [done|]. rewrite zlen_cons. len_lia. }
  destruct (Z.eqb_spec (mx_frame w) 0); [done|].
  do 3 rewrite (M_bind_ok _ _ _ _ _ (gets_wal_ok _ _ _ _)).
  rewrite (wr_page_size _ _ _ _ _ Hr), (wr_header _ _ _ _ _ Hr), (wr_cksum _ _ _ _ _ Hr), (wr_mx _ _ _ _ _ Hr).
  exact Hrun.
Qed.

Lemma write_frames_spec (w : Wal F) p e f ps L tail frames n :
  wal_state w e f ps L tail -> page_size_ok ps -> Forall (frame_ok ps) frames -> frames <> [] ->
  is_u32 n -> n <> 0 -> zlen L + zlen frames + 4096 < 2 ^ 32 ->
  exists w' p' e', write_frames frames n (w, (p, e)) = (Ok tt, (w', (p', e'))) /\
    wal_state w' e' f ps (L ++ entries_of frames n) (zdrop (zlen frames * (ps + 24)) tail) /\
    (forall g, ~ alias e f g -> contents e' g = contents e g).
Proof.
  intros (Hf & Hp & Hcase) Hps Hfr Hne Hn Hn0 Hlen.
  assert (forall w' e' h, wal_repr w' f h ps (L ++ entries_of frames n) -> header_valid h ps ->
      Forall (entry_ok ps) (L ++ entries_of frames n) ->
      contents e' f = Some (log_file h (L ++ entries_of frames n) (zdrop (zlen frames * (ps + 24)) tail)) ->
      wal_state w' e' f ps (L ++ entries_of frames n) (zdrop (zlen frames * (ps + 24)) tail)) as Hdone.
  { intros w' e' h Hr Hv HL Hc. split; [apply Hr|]. split; [apply Hr|]. right. split; [|eauto].
    destruct frames as [|[? ?] ?]; [done|]. cbn [entries_of]. by destruct L. }
  destruct Hcase as [(-> & Hmx & Hb & b & Hc & Htail)|(HLne & h & Hr & Hv & HL & Hc)].
  - unfold write_frames. destruct frames as [|fr0 frs] eqn:Efr; [done|]. rewrite <- Efr in *. clear Efr fr0 frs.
    do 2 rewrite (M_bind_ok _ _ _ _ _ (gets_wal_ok _ _ _ _)). rewrite Hf.
    rewrite (M_bind_ok _ _ _ f (w, (p, e))) by done. rewrite Hmx. change (0 =? 0) with true. cbn iota.
    destruct (start_log_spec w p e f ps b Hc Hp Hps) as (h & p1 & e1 & Hst & Hv & _ & Hch).
    rewrite (M_bind_ok _ _ _ _ _ Hst).
    rewrite (M_bind_ok _ _ _ _ _ (gets_wal_ok _ _ _ _)), (M_bind_ok _ _ _ _ _ (gets_wal_ok _ _ _ _)).
    cbn [wal_page_size wal_header set_header]. rewrite Hp.
    destruct (write_frames_tail (set_header h w) p1 e1 f h ps [] tail frames n)
      as (w' & e' & Hrun & Hr' & HL' & Hch'); try done.
    { cbn [blocks set_header]. rewrite Hb. apply index_inv_nil. }
    { rewrite Htail. apply Hch. }
    exists w', p1, e'. split; [exact Hrun|]. split; [by eapply Hdone; [done..|apply Hch']|].
    intros g Hg. rewrite (proj1 (proj2 Hch') g) by (by rewrite (proj2 (proj2 Hch))).
    by apply Hch.
  - destruct (write_frames_append w p e f h ps L tail frames n)
      as (w' & e' & Hrun & Hr' & HL' & Hch'); try done.
    exists w', p, e'. split; [exact Hrun|]. split; [by eapply Hdone; [done..|apply Hch']|apply Hch'].
Qed.

(** ** Crashes while a transaction is being appended *)

(** A byte prefix of the encoded entries is whole frames and part of one. *)
Lemma log_bytes_prefix h run ps L k : Forall (entry_ok ps) L -> 0 <= k < zlen L * (ps + 24) -> 0 <= ps ->
  exists m rest, 0 <= m < zlen L /\ zlen rest < ps + 24 /\
    ztake k (log_bytes h run L) = log_bytes h run (ztake m L) ++ rest.
Proof.
  intros HL. revert run k. induction HL as [|e L He HL IH]; intros run k Hk Hps.
  { unfold zlen in Hk. simpl in Hk. lia. }
  cbn [log_bytes]. pose proof He as (_&_&_&Hd). rewrite zlen_cons in *. pose proof (zlen_nonneg L).
  assert (zlen (frame_of h run e) = ps + 24) as Hfl by (rewrite zlen_frame_of; lia).
  destruct (Z_lt_le_dec k (ps + 24)) as [Hs|Hs].
  - exists 0, (ztake k (frame_of h run e)). rewrite ztake_app_le by lia.
    split_and!; [lia|lia|rewrite zlen_ztake; lia|by rewrite (ztake_0 0) by lia].
  - destruct (IH (chain h run e) (k - (ps + 24)) ltac:(lia) Hps) as (m & rest & Hm & Hr & Eq).
    exists (m + 1), rest. split_and!; [lia|lia|done|].
    rewrite ztake_app_ge by lia. rewrite Hfl, Eq, app_assoc. f_equal.
    unfold ztake. replace (Z.to_nat (m + 1)) with (S (Z.to_nat m)) by lia. done.
Qed.

Lemma entries_prefix_zeros frames n m : 0 <= m < zlen frames ->
  Forall (fun e => e_commit e = 0) (ztake m (entries_of frames n)).
Proof.
  intros Hm. destruct (entries_of_last frames n) as (Z0 & p & d & Eq & HZ).
  { intros ->. unfold zlen in Hm. simpl in Hm. lia. }
  pose proof (zlen_entries_of frames n) as Hl. rewrite Eq in *.
  rewrite ztake_app_le by len_lia. by apply Forall_take.
Qed.

(** ** Checkpoints *)

Definition page_bytes (ps p : Z) (D : bytes) : bytes := zslice ((p - 1) * ps) (p * ps) D.
Definition apply_entries (ps : Z) (L : list Entry) (D : bytes) : bytes :=
  fold_left (fun D e => mem_write ((e_pgno e - 1) * ps) (e_data e) D) L D.

Lemma apply_entries_snoc ps L e D :
  apply_entries ps (L ++ [e]) D = mem_write ((e_pgno e - 1) * ps) (e_data e) (apply_entries ps L D).
Proof. unfold apply_entries. by rewrite fold_left_app. Qed.
Lemma entry_pgno_pos ps e : entry_ok ps e -> 1 <= e_pgno e < 2 ^ 32.
Proof. intros ([? ?] & ? & _). lia. Qed.

(** Reading a page of a buffer one page of which was overwritten. *)
Lemma page_bytes_write ps p q d D : 0 < ps -> 1 <= p -> 1 <= q -> zlen d = ps ->
  q = p \/ p * ps <= zlen D ->
  page_bytes ps p (mem_write ((q - 1) * ps) d D) = if q =? p then d else page_bytes ps p D.
Proof.
  intros Hps Hp Hq Hd Hlen. unfold page_bytes. destruct (Z.eqb_spec q p) as [->|Hne].
  - replace (p * ps) with ((p - 1) * ps + zlen d) by nia. apply mem_write_eq. nia.
  - destruct Hlen as [?|Hlen]; [done|]. apply mem_write_ne; [nia|nia|nia|lia|].
    rewrite Hd. destruct (Z_lt_le_dec p q); [left|right]; nia.
Qed.

Lemma zlen_apply_entries ps L D : 0 <= ps -> Forall (entry_ok ps) L -> zlen D <= zlen (apply_entries ps L D).
Proof.
  intros Hps. induction L as [|e L IH] using rev_ind; intros HL; [simpl; lia|].
  apply Forall_app in HL as [HL [He _]%Forall_cons]. pose proof (entry_pgno_pos _ _ He).
  rewrite apply_entries_snoc, zlen_mem_write by nia. specialize (IH HL). lia.
Qed.

Lemma latest_written ps L p D : 0 < ps -> Forall (entry_ok ps) L -> 1 <= p ->
  latest (e_pgno <$> L) p <> 0 -> p * ps <= zlen (apply_entries ps L D).
Proof.
  intros Hps. induction L as [|e L IH] using rev_ind; intros HL Hp Hl; [done|].
  apply Forall_app in HL as [HL [He _]%Forall_cons]. pose proof (entry_pgno_pos _ _ He).
  rewrite apply_entries_snoc, zlen_mem_write by nia. rewrite fmap_app in Hl. simpl fmap in Hl.
  rewrite latest_snoc in Hl. destruct He as (_&_&_&Hd).
  destruct (Z.eqb_spec (e_pgno e) p) as [Heq|]; [rewrite Heq, Hd; nia|]. specialize (IH HL Hp Hl). lia.
Qed.

(** A checkpointed page holds the data of its last frame. *)
Lemma page_bytes_apply ps L p D : 0 < ps -> Forall (entry_ok ps) L -> 1 <= p ->
  (latest (e_pgno <$> L) p = 0 -> p * ps <= zlen D) ->
  page_bytes ps p (apply_entries ps L D) =
    match zget L (latest (e_pgno <$> L) p - 1) with Some e => e_data e | None => page_bytes ps p D end.
Proof.
  intros Hps. induction L as [|e L IH] using rev_ind; intros HL Hp HD; [done|].
  apply Forall_app in HL as [HL [He _]%Forall_cons]. pose proof (entry_pgno_pos _ _ He).
  rewrite apply_entries_snoc, fmap_app in *. simpl fmap in *. rewrite latest_snoc in *.
  destruct (Z.eqb_spec (e_pgno e) p) as [Heq|Hne].
  - rewrite page_bytes_write; [|lia|lia|lia|apply He|by left].
    rewrite (proj2 (Z.eqb_eq _ _) Heq), zlen_fmap, zget_app_r by lia.
    by replace (zlen L + 1 - 1 - zlen L) with 0 by lia.
  - rewrite page_bytes_write; [|lia|lia|lia|apply He|].
    + rewrite (proj2 (Z.eqb_neq _ _) Hne), IH by done.
      destruct (Z_lt_le_dec (latest (e_pgno <$> L) p - 1) (zlen L)); [by rewrite zget_app_l|].
      exfalso. pose proof (latest_le (e_pgno <$> L) p) as Hle. rewrite zlen_fmap in Hle. lia.
    + right. destruct (Z.eq_dec (latest (e_pgno <$> L) p) 0) as [Hz|Hz].
      * pose proof (zlen_apply_entries ps L D ltac:(lia) HL). specialize (HD Hz). lia.
      * apply (latest_written ps L p D); done || lia.
Qed.

Lemma decode_frame_header h run e ps :
  entry_ok ps e -> ps mod 8 = 0 -> wal_header_ok h -> run_ok run ->
  exists fh, WalFrameHeader_decode (zslice 0 24 (frame_of h run e)) = Ok fh /\
    fh_salt1 fh = wh_salt1 h /\ fh_salt2 fh = wh_salt2 h /\ fh_page_number fh = e_pgno e.
Proof.
  intros He Hps Hh Hrun. pose proof (chain_ok h run e ps He Hps Hrun) as [Hc0 Hc1].
  destruct He as (Hp & Hp0 & Hc & Hd). destruct Hh as (_&_&_&_&Hs1&Hs2&_).
  unfold frame_of. set (fh := mkWalFrameHeader _ _ _ _ _ _).
  exists fh. split; [|done]. rewrite zslice_app_l by (rewrite ?zlen_frame_header_bytes; lia).
  change (zslice 0 24 (frame_header_bytes fh)) with (frame_header_bytes fh).
  rewrite <- (app_nil_r (frame_header_bytes fh)). apply WalFrameHeader_decode_eq.
  unfold frame_header_ok, fh. cbn. auto 10.
Qed.

Lemma checkpoint_loop_spec (f g : F) h ps L (e : E) pre run tail D i n :
  contents e f = Some (pre ++ log_bytes h run L ++ tail) -> contents e g = Some D -> ~ alias e g f ->
  Forall (entry_ok ps) L -> page_size_ok ps -> wal_header_ok h -> run_ok run ->
  zlen pre = 32 + i * (ps + 24) -> 0 <= i ->
  exists e', checkpoint_loop (seqZ (i + 1) (zlen L)) h f g ps n e = (Ok (n + zlen L), e') /\
    only_changes e g e' (apply_entries ps L D).
Proof.
  intros Hc Hg Hna HL [Hps Hps8] Hh. revert e pre run D i n Hc Hg Hna.
  induction HL as [|en L He HL IH]; intros e pre run D i n Hc Hg Hna Hrun Hpre Hi.
  - exists e. change (zlen (@nil Entry)) with 0. rewrite Z.add_0_r. by split_and!.
  - rewrite zlen_cons, seqZ_split by len_lia. replace (1 + zlen L - 1) with (zlen L) by lia.
    cbn [checkpoint_loop log_bytes] in *. set (fr := frame_of h run en) in *.
    pose proof (entry_pgno_pos _ _ He) as Hpg. pose proof He as (_&_&_&Hd).
    assert (zlen fr = ps + 24) as Hfr by (unfold fr; rewrite zlen_frame_of; lia).
    rewrite (M_bind_ok _ _ _ fr e).
    2:{ rewrite <- app_assoc in Hc. apply (read_frame_at e f _ _ _ _ _ Hc);
        unfold WAL_HEADER_SIZE, WAL_FRAME_HEADER_SIZE; lia. }
    unfold WAL_FRAME_HEADER_SIZE at 1 2 3. destruct (Z.ltb_spec (zlen fr) (ps + 24)); [lia|].
    destruct (decode_frame_header h run en ps He Hps8 Hh Hrun) as (fh & Hdec & Hs1 & Hs2 & Hpn).
    unfold lift. unfold mbind at 1, M_bind at 1. rewrite sub_range_in by lia.
    unfold mbind at 1, M_bind at 1. fold fr in Hdec. rewrite Hdec, Hs1, Hs2, !Z.eqb_refl. cbn [negb orb].
    unfold mbind at 1, M_bind at 1. unfold sub_from. rewrite get_from_in by lia. cbn [expect].
    unfold mbind at 1, M_bind at 1. unfold chk_sub. rewrite Hpn.
    destruct (Z.ltb_spec (e_pgno en) 1); [lia|].
    assert (zdrop 24 fr = e_data en) as ->.
    { unfold fr, frame_of. rewrite zdrop_app_ge by (rewrite zlen_frame_header_bytes; lia).
      apply zdrop_0. rewrite zlen_frame_header_bytes. lia. }
    destruct (write_only e g D ((e_pgno en - 1) * ps) (e_data en) Hg) as (e1 & Hw & Hch1); [nia|nia|].
    rewrite (M_bind_ok _ _ _ _ _ Hw).
    destruct Hch1 as (Hg1 & Hne1 & Ha1).
    destruct (IH e1 (pre ++ fr) (chain h run en) (mem_write ((e_pgno en - 1) * ps) (e_data en) D)
      (i + 1) (n + 1)) as (e2 & Hl & Hch2); try done; try lia.
    { rewrite Hne1 by done. rewrite Hc. f_equal. by rewrite <- !app_assoc. }
    { by rewrite Ha1. }
    { by eapply chain_ok. }
    { rewrite zlen_app. lia. }
    exists e2. rewrite Hl. split; [f_equal; f_equal; lia|].
    by apply (only_changes_trans e e1 e2 g (mem_write ((e_pgno en - 1) * ps) (e_data en) D)).
Qed.

(** After the frames are copied back, the reset of a RESTART or TRUNCATE. *)
Definition resets (mode : CheckpointMode) : bool :=
  match mode with Passive | Full => false | Restart | Truncate => true end.

Lemma checkpoint_spec (w : Wal F) p e f g ps L tail D mode :
  wal_state w e f ps L tail -> L <> [] -> contents e g = Some D -> ~ alias e g f -> ~ alias e f g ->
  page_size_ok ps -> zlen L < 2 ^ 32 -> is_u32 (last_npage L) ->
  exists w' p' e', checkpoint g mode (w, (p, e)) = (Ok (zlen L, zlen L), (w', (p', e'))) /\
    contents e' g = Some (mem_resize (last_npage L * ps) (apply_entries ps L D)) /\
    (exists tail', wal_state w' e' f ps (if resets mode then [] else L) tail').
Proof.
  intros (Hf & Hp & Hcase) HL Hg Hna Hna' Hps HLn Hnp.
  destruct Hcase as [(-> & _)|(_ & h & Hr & Hv & HLok & Hc)]; [done|].
  pose proof Hv as (Hho & Hpsz & _). pose proof Hps as [Hpr Hp8].
  assert (run_ok (running_pair h)) as Hrun by (destruct Hho as (_&_&_&_&_&_&?&?); by split).
  unfold checkpoint. rewrite (M_bind_ok _ _ _ _ _ (gets_wal_ok _ _ _ _)), (wr_mx _ _ _ _ _ Hr).
  pose proof (zlen_nonneg L).
  destruct (Z.eqb_spec (zlen L) 0) as [H0'|_]; [destruct L; [done|rewrite zlen_cons in *; len_lia]|].
  do 2 rewrite (M_bind_ok _ _ _ _ _ (gets_wal_ok _ _ _ _)). rewrite Hf, Hp.
  rewrite (M_bind_ok _ _ _ _ _ (lift_ok (ok_or (Some f) _) f _ eq_refl)).
  rewrite (M_bind_ok _ _ _ _ _ (gets_wal_ok _ _ _ _)), (wr_header _ _ _ _ _ Hr).
  destruct (checkpoint_loop_spec f g h ps L e (wal_header_bytes h) (running_pair h) tail D 0 0)
    as (e1 & Hl & Hg1 & Hne1 & Ha1); try done.
  rewrite Z.add_0_l in Hl. rewrite (M_bind_ok _ _ _ _ _ (io_ok _ _ _ _ _ _ Hl)).
  rewrite (M_bind_ok _ _ _ _ _ (gets_wal_ok _ _ _ _)), (wr_npage _ _ _ _ _ Hr).
  unfold is_u32 in Hnp.
  destruct (truncate_spec e1 g _ (last_npage L * ps) Hg1) as (e2 & Ht & Hg2 & Hne2 & Ha2); [nia|].
  rewrite (M_bind_ok _ _ _ _ _ (io_ok _ _ _ _ _ _ Ht)).
  destruct (sync_spec e2 g _ Hg2) as (e3 & Hs & Hk3 & Ha3).
  rewrite (M_bind_ok _ _ _ _ _ (io_ok _ _ _ _ _ _ Hs)).
  assert (contents e3 f = Some (log_file h L tail)) as Hf3
    by (rewrite Hk3, Hne2, Hne1; [done|done|by rewrite Ha1]).
  assert (~ alias e3 f g) as Hna3 by (by rewrite Ha3, Ha2, Ha1).
  rewrite <- Hk3 in Hg2. clear Hl Ht Hs Hk3 Hne1 Hne2 Ha1 Ha2 Hg1 e1 e2 Ha3.
  destruct (decide (resets mode = false)) as [Hm|Hm].
  { exists w, p, e3. split; [by destruct mode|]. split; [done|]. exists tail. rewrite Hm.
    split; [done|]. split; [done|]. right. split; [done|]. by exists h. }
  assert (resets mode = true) as Hm' by (by destruct mode). rewrite Hm'.
  destruct (next_wal_salt_spec p) as (s1 & p1 & Hs1 & Hs1u & _).
  destruct (next_wal_salt_spec p1) as (s2 & p2 & Hs2 & Hs2u & _).
  set (h0 := mkWalHeader (wh_magic h) (wh_format_version h) (wh_page_size h)
    (u32 (wh_checkpoint_seq h + 1)) s1 s2 (wh_checksum1 h) (wh_checksum2 h)).
  remember (wal_checksum_loop (ztake 24 (wal_header_bytes h0)) (checksum_big_endian h0) 0 0) as c eqn:Ec.
  destruct (write_only e3 f _ 0 (wal_header_bytes (with_checksum c h0)) Hf3) as (e4 & Hw & Hf4 & Hne4 & Ha4);
    [lia|done|].
  destruct (sync_spec e4 f _ Hf4) as (e5 & Hsy & Hk5 & Ha5).
  assert (exists e6 b6, (if bool_decide (mode = Truncate) then io (truncate f 0) else mret tt)
            (set_header (with_checksum c h0) (set_header h0 w), (p2, e5))
          = (Ok tt, (set_header (with_checksum c h0) (set_header h0 w), (p2, e6))) /\
          contents e6 f = Some b6 /\ contents e6 g = contents e3 g) as (e6 & b6 & Htr & Hf6 & Hg6).
  { assert (contents e5 g = contents e3 g) as Hg5 by (rewrite Hk5; by apply Hne4).
    destruct (decide (mode = Truncate)) as [Ht|Ht].
    - rewrite bool_decide_eq_true_2 by done.
      destruct (truncate_spec e5 f _ 0 (eq_trans (Hk5 f) Hf4)) as (e6 & Htr & Hf6 & Hne6 & _); [lia|].
      exists e6. eexists. split; [by apply io_ok|]. split; [done|]. rewrite Hne6; [done|].
      by rewrite Ha5, Ha4.
    - rewrite bool_decide_eq_false_2 by done. exists e5. eexists. split; [done|]. split; [by rewrite Hk5|done]. }
  exists (set_state 0 0 (Some c) (set_blocks [] (set_header (with_checksum c h0) (set_header h0 w)))), p2, e6.
  split; [|split].
  - destruct mode; try done.
    all: rewrite (M_bind_ok _ _ _ tt (set_state 0 0 (Some c) (set_blocks [] (set_header (with_checksum c h0) (set_header h0 w))), (p2, e6))); [done|].
    all: rewrite (M_bind_ok _ _ _ _ _ (proc_ok _ _ _ _ _ _ Hs1)), (M_bind_ok _ _ _ _ _ (proc_ok _ _ _ _ _ _ Hs2)).
    all: cbv zeta; fold h0; rewrite (M_bind_ok _ _ _ _ _ (upd_wal_ok _ _ _ _)).
    all: rewrite (M_bind_ok _ _ _ _ _ (lift_ok _ _ _ (seal_header_spec h0 (checksum_big_endian h0) c Ec))).
    all: rewrite (M_bind_ok _ _ _ _ _ (upd_wal_ok _ _ _ _)), (M_bind_ok _ _ _ _ _ (io_ok _ _ _ _ _ _ Hw)),
      (M_bind_ok _ _ _ _ _ (io_ok _ _ _ _ _ _ Hsy)), (M_bind_ok _ _ _ _ _ Htr).
    all: by rewrite (M_bind_ok _ _ _ _ _ (upd_wal_ok _ _ _ _)), upd_wal_ok.
  - by rewrite Hg6.
  - exists (zdrop 32 b6). split; [done|]. split; [done|]. left. eauto 10.
Qed.
End CommitProofs.

(** ** Reading through the index *)

Lemma log_bytes_at h run ps L i : Forall (entry_ok ps) L -> 0 <= i < zlen L ->
  exists en pre post, zget L i = Some en /\
    log_bytes h run L = pre ++ e_data en ++ post /\ zlen pre = i * (ps + 24) + 24.
Proof.
  intros HL. revert run i. induction HL as [|en L He HL IH]; intros run i Hi.
  { unfold zlen in Hi. simpl in Hi. lia. }
  cbn [log_bytes]. rewrite zlen_cons in Hi. pose proof He as (_&_&_&Hd).
  destruct (Z.eq_dec i 0) as [->|Hne].
  - exists en, (frame_header_bytes (mkWalFrameHeader (e_pgno en) (e_commit en) (wh_salt1 h) (wh_salt2 h)
      (fst (chain h run en)) (snd (chain h run en)))), (log_bytes h (chain h run en) L).
    split_and!; [done|unfold frame_of; by rewrite <- app_assoc|done].
  - destruct (IH (chain h run en) (i - 1) ltac:(lia)) as (en' & pre & post & Hg & Heq & Hpre).
    exists en', (frame_of h run en ++ pre), post. split_and!.
    + change (en :: L) with ([en] ++ L). rewrite zget_app_r by (change (zlen [en]) with 1; lia). done.
    + by rewrite Heq, <- app_assoc.
    + rewrite zlen_app, zlen_frame_of, Hpre. lia.
Qed.

Section Properties.
Context {E F : Type} `{VfsLaws E F}.

Lemma read_frame_spec (w : Wal F) e f h ps L tail i :
  wal_repr w f h ps L -> contents e f = Some (log_file h L tail) -> Forall (entry_ok ps) L ->
  1 <= i <= zlen L -> exists en, zget L (i - 1) = Some en /\ read_frame w i ps e = (Ok (e_data en), e).
Proof.
  intros Hr Hc HL Hi.
  destruct (log_bytes_at h (running_pair h) ps L (i - 1) HL ltac:(lia)) as (en & pre & post & Hg & Heq & Hpre).
  exists en. split; [done|]. unfold read_frame. destruct (Z.eqb_spec i 0); [lia|].
  rewrite (wr_file _ _ _ _ _ Hr), (wr_page_size _ _ _ _ _ Hr), Z.eqb_refl. cbn [negb].
  unfold lift, frame_data_offset, chk_sub. destruct (Z.ltb_spec i 1); [lia|].
  unfold mbind at 1, M_bind at 1. cbn [mbind outcome_bind].
  assert (zlen (e_data en) = ps) as Hd.
  { unfold zget in Hg. destruct (Z.ltb_spec (i - 1) 0); [done|].
    by destruct (Forall_lookup_1 _ _ _ _ HL Hg) as (_&_&_&?). }
  rewrite (M_bind_ok _ _ _ (e_data en) e).
  - by rewrite Hd, Z.eqb_refl.
  - apply (read_frame_at e f (wal_header_bytes h ++ pre) _ (post ++ tail)); [|
      rewrite zlen_app, zlen_wal_header_bytes, Hpre, (wr_page_size _ _ _ _ _ Hr);
      unfold WAL_HEADER_SIZE, WAL_FRAME_HEADER_SIZE; lia|lia].
    rewrite Hc. unfold log_file. rewrite Heq. f_equal. by rewrite <- !app_assoc.
Qed.

(** Looking a page up in the log. *)
Lemma lookup_spec (w : Wal F) e f h ps L tail p :
  wal_repr w f h ps L -> contents e f = Some (log_file h L tail) -> Forall (entry_ok ps) L ->
  zlen L + 4096 < 2 ^ 32 ->
  exists i, find_frame w p = Ok i /\ i = latest (e_pgno <$> L) p /\
    (i <> 0 -> exists en, zget L (i - 1) = Some en /\ read_frame w i ps e = (Ok (e_data en), e)).
Proof.
  intros Hr Hc HL Hn. exists (latest (e_pgno <$> L) p). split_and!; [|done|].
  - unfold find_frame. rewrite (wr_mx _ _ _ _ _ Hr).
    rewrite (index_find_spec _ _ _ _ (wr_index _ _ _ _ _ Hr)) by (rewrite zlen_fmap; len_lia).
    by rewrite ztake_all by (rewrite zlen_fmap; lia).
  - intros Hi. pose proof (latest_le (e_pgno <$> L) p) as Hle. rewrite zlen_fmap in Hle.
    apply (read_frame_spec w e f h ps L tail); done || lia.
Qed.

(** C17: recovery. Opening a WAL whose file holds a valid header, any list of
    correctly chained frames and then bytes that do not continue the chain
    yields exactly the frames up to the last commit frame: [mx_frame] and
    [n_page] are those of that commit, the index has those frames and no
    others, and the next transaction continues their checksum. *)
Theorem wal_recovery (e : E) (f : F) path h ps L tail
    (Hc : contents e f = Some (log_file h L tail)) (Hv : header_valid h ps) (Hps : page_size_ok ps)
    (HL : Forall (entry_ok ps) L) (Hbad : bad_tail h (log_run h (running_pair h) L) ps tail)
    (Hn : zlen L + zlen tail / (ps + 24) + 4096 < 2 ^ 32) :
  exists w, wal_open_file f path ps e = (Ok w, e) /\ wal_repr w f h ps (committed L).
Proof. by eapply wal_open_spec. Qed.

(** C19: commit. Writing a transaction's frames to an open WAL succeeds, leaves
    every other file alone and appends exactly those frames to the log; from
    then on [find_frame] gives the latest frame of every page and
    [read_frame] its data, the new version where the transaction wrote the
    page and the old one elsewhere. *)
Theorem wal_commit_visible (w : Wal F) p e f ps L tail frames n
    (Hst : wal_state w e f ps L tail) (Hps : page_size_ok ps) (Hfr : Forall (frame_ok ps) frames)
    (Hne : frames <> []) (Hn : is_u32 n) (Hn0 : n <> 0) (Hlen : zlen L + zlen frames + 4096 < 2 ^ 32) :
  let L' := L ++ entries_of frames n in
  exists w' p' e' tail', write_frames frames n (w, (p, e)) = (Ok tt, (w', (p', e'))) /\
    wal_state w' e' f ps L' tail' /\
    mx_frame w' = zlen L' /\ n_page w' = n /\
    (forall g, ~ alias e f g -> contents e' g = contents e g) /\
    (forall pg, exists i, find_frame w' pg = Ok i /\ i = latest (e_pgno <$> L') pg /\
       (i <> 0 -> exists en, zget L' (i - 1) = Some en /\ read_frame w' i ps e' = (Ok (e_data en), e'))).
Proof.
  cbn zeta. destruct (write_frames_spec w p e f ps L tail frames n)
    as (w' & p' & e' & Hrun & Hst' & Hother); try done.
  exists w', p', e', (zdrop (zlen frames * (ps + 24)) tail). split; [done|]. split; [done|].
  destruct Hst' as (_ & _ & [(Hnil & _)|(_ & h & Hr & _ & HL & Hc)]).
  { destruct frames as [|[? ?] ?]; [done|]. cbn [entries_of] in Hnil. by destruct L. }
  split_and!; [apply Hr| |done|].
  - rewrite (wr_npage _ _ _ _ _ Hr). unfold last_npage. by rewrite last_commit_entries.
  - intros pg. eapply lookup_spec; try done. rewrite zlen_app, zlen_entries_of. lia.
Qed.

(** C18: atomic commit. However much of a transaction's frames reached the file
    before a crash, reopening the WAL finds either the log before the
    transaction (any strict prefix of its bytes) or the log with the whole of
    it (all of them), never a part. *)
Theorem wal_commit_atomic (w : Wal F) p e f ps L frames n
    (Hst : wal_state w e f ps L []) (HL0 : L <> []) (HcL : committed L = L) (Hps : page_size_ok ps)
    (Hfr : Forall (frame_ok ps) frames) (Hne : frames <> []) (Hn : is_u32 n) (Hn0 : n <> 0)
    (Hlen : zlen L + zlen frames + 4096 < 2 ^ 32) :
  exists b w' p' e' b', contents e f = Some b /\
    write_frames frames n (w, (p, e)) = (Ok tt, (w', (p', e'))) /\ contents e' f = Some b' /\
    zlen b' = zlen b + zlen frames * (ps + 24) /\
    (forall e2 path k, contents e2 f = Some (ztake k b') -> zlen b <= k <= zlen b' ->
       exists h w2, wal_open_file f path ps e2 = (Ok w2, e2) /\
         wal_repr w2 f h ps (if k <? zlen b' then L else L ++ entries_of frames n)).
Proof.
  destruct Hst as (_ & _ & [(? & _)|(_ & h & Hr & Hv & HL & Hc)]); [done|].
  destruct (write_frames_append w p e f h ps L [] frames n) as (w' & e' & Hrun & Hr' & HL' & Hc' & _); try done.
  pose proof (entries_of_ok ps frames n Hfr Hn) as Hnew.
  rewrite zdrop_all in Hc' by (rewrite zlen_nil; pose proof (zlen_nonneg frames); destruct Hps; nia).
  set (new := entries_of frames n) in *. set (run := log_run h (running_pair h) L).
  assert (log_file h (L ++ new) [] = log_file h L [] ++ log_bytes h run new) as Hb'.
  { unfold log_file. rewrite log_bytes_app, !app_nil_r, <- app_assoc. done. }
  pose proof (zlen_log_bytes h run ps new Hnew) as Hzl. unfold new in Hzl at 2. rewrite zlen_entries_of in Hzl.
  exists (log_file h L []), w', p, e', (log_file h (L ++ new) []).
  rewrite Hb', zlen_app, Hzl. split_and!; try done; [by rewrite <- Hb'|].
  intros e2 path k Hc2 Hk. exists h. destruct Hps as [Hpr Hp8]. pose proof (zlen_nonneg frames).
  destruct (Z.ltb_spec k (zlen (log_file h L []) + zlen frames * (ps + 24))) as [Hlt|Hge].
  - destruct (log_bytes_prefix h run ps new (k - zlen (log_file h L []))) as (m & rest & Hm & Hrest & Hpre);
      [done|unfold new; rewrite zlen_entries_of; lia|lia|].
    assert (contents e2 f = Some (log_file h (L ++ ztake m new) rest)) as Hc3.
    { rewrite Hc2. rewrite ztake_app_ge by lia. rewrite Hpre. unfold log_file.
      rewrite log_bytes_app. by rewrite <- !app_assoc. }
    unfold new in Hm. rewrite zlen_entries_of in Hm.
    destruct (wal_open_spec e2 f path h ps (L ++ ztake m new) rest) as (w2 & Hw2 & Hr2); try done.
    { apply Forall_app. split; [done|]. by apply Forall_take. }
    { left. done. }
    { rewrite Z.div_small by (pose proof (zlen_nonneg rest); lia). rewrite zlen_app, zlen_ztake. unfold new.
      rewrite zlen_entries_of. lia. }
    exists w2. split; [done|].
    assert (committed (L ++ ztake m new) = L) as Hcm; [|by rewrite Hcm in Hr2].
    unfold committed. rewrite last_commit_zeros by (by apply entries_prefix_zeros).
    rewrite ztake_app_le by apply last_commit_range. exact HcL.
  - rewrite ztake_all in Hc2 by (rewrite zlen_app; lia). rewrite <- Hb' in Hc2.
    destruct (wal_open_spec e2 f path h ps (L ++ new) []) as (w2 & Hw2 & Hr2); try done.
    { left. change (zlen (@nil Z)) with 0. lia. }
    { change (zlen (@nil Z)) with 0. rewrite Z.div_0_l by lia. rewrite zlen_app. unfold new. rewrite zlen_entries_of. lia. }
    exists w2. split; [done|]. unfold new in *. by rewrite committed_entries in Hr2 by done.
Qed.

(** C20: a checkpoint copies the log back. It reports all frames of the log as
    copied; afterwards every page of the database (truncated to the committed
    size) is the data of its last frame in the log, or what it was if the log
    does not have it; PASSIVE and FULL keep the log, RESTART and TRUNCATE leave
    the WAL empty. *)
Theorem wal_checkpoint_copies (w : Wal F) p e f g ps L tail D mode
    (Hst : wal_state w e f ps L tail) (HL0 : L <> []) (Hg : contents e g = Some D)
    (Hna : ~ alias e g f) (Hna' : ~ alias e f g) (Hps : page_size_ok ps) (HL : Forall (entry_ok ps) L)
    (HLn : zlen L < 2 ^ 32) (Hnp : is_u32 (last_npage L)) :
  exists w' p' e' D', checkpoint g mode (w, (p, e)) = (Ok (zlen L, zlen L), (w', (p', e'))) /\
    contents e' g = Some D' /\ zlen D' = last_npage L * ps /\
    (forall pg, 1 <= pg <= last_npage L -> (latest (e_pgno <$> L) pg = 0 -> pg * ps <= zlen D) ->
       page_bytes ps pg D' =
         match zget L (latest (e_pgno <$> L) pg - 1) with
         | Some en => e_data en
         | None => page_bytes ps pg D
         end) /\
    (exists tail', wal_state w' e' f ps (if resets mode then [] else L) tail').
Proof.
  destruct (checkpoint_spec w p e f g ps L tail D mode) as (w' & p' & e' & Hrun & Hc & Hst'); try done.
  exists w', p', e'. eexists. split; [done|]. split; [done|]. destruct Hps as [Hpr Hp8]. unfold is_u32 in Hnp.
  split; [apply zlen_mem_resize; nia|]. split; [|done].
  intros pg Hpg HD. rewrite <- (page_bytes_apply ps L pg D) by (done || lia).
  unfold page_bytes, mem_resize.
  assert (pg * ps <= zlen (apply_entries ps L D)) as Hle.
  { destruct (Z.eq_dec (latest (e_pgno <$> L) pg) 0) as [Hz|Hz].
    - pose proof (zlen_apply_entries ps L D ltac:(lia) HL). specialize (HD Hz). lia.
    - apply (latest_written ps L pg D); done || lia. }
  rewrite zslice_app_l; [|nia|nia|rewrite zlen_ztake; nia]. apply zslice_ztake; nia.
Qed.
End Properties.

(** ** Instances on the in-memory file system *)

#[export] Instance wal_header_ok_dec h : Decision (wal_header_ok h).
Proof. unfold wal_header_ok. apply _. Defined.
#[export] Instance entry_ok_dec ps e : Decision (entry_ok ps e).
Proof. unfold entry_ok. apply _. Defined.
#[export] Instance frame_ok_dec ps e : Decision (frame_ok ps e).
Proof. unfold frame_ok. apply _. Defined.
#[export] Instance page_size_ok_dec ps : Decision (page_size_ok ps).
Proof. unfold page_size_ok. apply _. Defined.
#[export] Instance header_valid_dec h ps : Decision (header_valid h ps).
Proof. unfold header_valid. apply _. Defined.

(** A log file (handle 3) and a database file (handle 7), both empty. *)
Definition sample_vfs : MemVfs :=
  snd ((mem_open "t.db-wal" OpenFlags_READWRITE_CREATE ;;
        mem_open "t.db" OpenFlags_READWRITE_CREATE) MemVfs_new).
Definition sample_wal : Wal nat := placeholder (Some 3%nat) "t.db-wal" 512.
Definition sample_proc : Proc := mkProc 4711 0 0.
Definition sample_frames : list (Z * bytes) := [(2, zrep 512 7); (1, zrep 512 9)].
Definition sample_log : list Entry := entries_of sample_frames 2.

Lemma sample_state : wal_state sample_wal sample_vfs 3%nat 512 [] [].
Proof. split; [done|]. split; [done|]. left. split_and!; [done..|]. by exists []. Qed.

Lemma wal_commit_visible_witness :
  let L' := [] ++ entries_of sample_frames 2 in
  exists w' p' e' tail',
    write_frames sample_frames 2 (sample_wal, (sample_proc, sample_vfs)) = (Ok tt, (w', (p', e'))) /\
    wal_state w' e' 3%nat 512 L' tail' /\
    mx_frame w' = zlen L' /\ n_page w' = 2 /\
    (forall g, ~ alias sample_vfs 3%nat g -> contents e' g = contents sample_vfs g) /\
    (forall pg, exists i, find_frame w' pg = Ok i /\ i = latest (e_pgno <$> L') pg /\
       (i <> 0 -> exists en, zget L' (i - 1) = Some en /\ read_frame w' i 512 e' = (Ok (e_data en), e'))).
Proof.
  apply (wal_commit_visible sample_wal sample_proc sample_vfs 3%nat 512 [] [] sample_frames 2 sample_state);
    by_decide.
Defined.

(** The state after that commit. *)
Definition sample_state1 : Wal nat * (Proc * MemVfs) :=
  snd (write_frames sample_frames 2 (sample_wal, (sample_proc, sample_vfs))).
Lemma sample_state1_ok :
  wal_state (fst sample_state1) (snd (snd sample_state1)) 3%nat 512 sample_log [].
Proof.
  destruct (write_frames_spec sample_wal sample_proc sample_vfs 3%nat 512 [] [] sample_frames 2 sample_state)
    as (w' & p' & e' & Hrun & Hst & _); [by_decide..|].
  unfold sample_state1. by rewrite Hrun.
Qed.

Lemma wal_commit_atomic_witness :
  exists b w' p' e' b', contents (snd (snd sample_state1)) 3%nat = Some b /\
    write_frames [(2, zrep 512 1); (3, zrep 512 5)] 3
      (fst sample_state1, (sample_proc, snd (snd sample_state1))) = (Ok tt, (w', (p', e'))) /\
    contents e' 3%nat = Some b' /\ zlen b' = zlen b + zlen [(2, zrep 512 1); (3, zrep 512 5)] * (512 + 24) /\
    (forall (e2 : MemVfs) path k, contents e2 3%nat = Some (ztake k b') -> zlen b <= k <= zlen b' ->
       exists h w2, wal_open_file 3%nat path 512 e2 = (Ok w2, e2) /\
         wal_repr w2 3%nat h 512 (if k <? zlen b' then sample_log
                                  else sample_log ++ entries_of [(2, zrep 512 1); (3, zrep 512 5)] 3)).
Proof.
  apply (wal_commit_atomic (fst sample_state1) sample_proc (snd (snd sample_state1)) 3%nat 512 sample_log
    [(2, zrep 512 1); (3, zrep 512 5)] 3 sample_state1_ok); [done|reflexivity|by_decide..].
Defined.

Lemma wal_checkpoint_copies_witness :
  exists w' p' e' D',
    checkpoint 7%nat Truncate (fst sample_state1, (sample_proc, snd (snd sample_state1))) =
      (Ok (zlen sample_log, zlen sample_log), (w', (p', e'))) /\
    contents e' 7%nat = Some D' /\ zlen D' = last_npage sample_log * 512 /\
    (forall pg, 1 <= pg <= last_npage sample_log ->
       (latest (e_pgno <$> sample_log) pg = 0 -> pg * 512 <= zlen (@nil Z)) ->
       page_bytes 512 pg D' =
         match zget sample_log (latest (e_pgno <$> sample_log) pg - 1) with
         | Some en => e_data en
         | None => page_bytes 512 pg []
         end) /\
    (exists tail', wal_state w' e' 3%nat 512 (if resets Truncate then [] else sample_log) tail').
Proof.
  apply (wal_checkpoint_copies (fst sample_state1) sample_proc (snd (snd sample_state1)) 3%nat 7%nat 512
    sample_log [] [] Truncate sample_state1_ok); [done|vm_compute; reflexivity| | |by_decide..];
    unfold alias, MemVfs_laws, mem_alias; vm_compute; discriminate.
Defined.

(** A log with an uncommitted frame and garbage after its commit. *)
Definition sample_header : WalHeader :=
  let h := mkWalHeader WAL_MAGIC_BE WAL_FORMAT_VERSION 512 0 11 22 0 0 in
  with_checksum (wal_checksum_loop (ztake 24 (wal_header_bytes h)) true 0 0) h.
Definition sample_vfs2 : MemVfs :=
  snd (mem_write_at 3 0 (log_file sample_header (sample_log ++ [mkEntry 2 0 (zrep 512 8)]) [1; 2; 3]) sample_vfs).
Lemma wal_recovery_witness :
  exists w, wal_open_file 3%nat "t.db-wal" 512 sample_vfs2 = (Ok w, sample_vfs2) /\
    wal_repr w 3%nat sample_header 512 (committed (sample_log ++ [mkEntry 2 0 (zrep 512 8)])).
Proof.
  apply (wal_recovery sample_vfs2 3%nat "t.db-wal" sample_header 512
    (sample_log ++ [mkEntry 2 0 (zrep 512 8)]) [1; 2; 3]);
    [vm_compute; reflexivity|by_decide|by_decide|by_decide|left; vm_compute; reflexivity|reflexivity].
Defined.
Example sample_committed : committed (sample_log ++ [mkEntry 2 0 (zrep 512 8)]) = sample_log.
Proof. reflexivity. Qed.
