(* ===== verification/Journal.v ===== *)
(** * The rollback journal's on-disk format

    [pager/journal.rs]: the page checksum, the header sector, the page records
    and the header parser. The pager's use of them is in [Pager]. *)

From S2P Require Import Prelude.

Definition JOURNAL_MAGIC : bytes := [0xd9; 0xd5; 0x05; 0xf9; 0x20; 0xa1; 0x63; 0xd7].
Definition SECTOR_SIZE : Z := 512.
Definition JOURNAL_HDR_SZ : Z := SECTOR_SIZE.
Definition HEADER_FIELDS_LEN : Z := 28.

(** The body of [pager_cksum]'s [while i > 0]; [i] is below the page length
    throughout, so the index never fails. *)
Fixpoint cksum_loop (fuel : nat) (page : bytes) (i cksum : Z) : Z :=
  match fuel with
  | O => cksum
  | S fuel' =>
      if i >? 0
      then cksum_loop fuel' page (i - 200) (u32 (cksum + default 0 (zget page i)))
      else cksum
  end.

Definition pager_cksum (cksum_init : Z) (page : bytes) : Z :=
  cksum_loop (length page) page (zlen page - 200) cksum_init.

Definition build_header (nrec cksum_init db_orig_size page_size : Z) : outcome bytes :=
  let h := zrep JOURNAL_HDR_SZ 0 in
  h ← copy_into h 0 JOURNAL_MAGIC;
  h ← copy_into h 8 (be_bytes 4 nrec);
  h ← copy_into h 12 (be_bytes 4 cksum_init);
  h ← copy_into h 16 (be_bytes 4 db_orig_size);
  h ← copy_into h 20 (be_bytes 4 SECTOR_SIZE);
  h ← copy_into h 24 (be_bytes 4 page_size);
  Ok h.

Definition build_record (pgno : Z) (page : bytes) (cksum_init : Z) : bytes :=
  be_bytes 4 pgno ++ page ++ be_bytes 4 (pager_cksum cksum_init page).

Definition record_len (page_size : Z) : Z := 4 + page_size + 4.

Record JournalHeader := mkJournalHeader {
  jh_nrec : Z; jh_cksum_init : Z; jh_db_orig_size : Z; jh_sector_size : Z; jh_page_size : Z }.

#[export] Instance JournalHeader_eq_dec : EqDecision JournalHeader.
Proof. solve_decision. Defined.

(** The slices below are in range once the length test has passed. *)
Definition be32_at (b : bytes) (i : Z) : Z := be_val (zslice i (i + 4) b).

Definition parse_header (b : bytes) : option JournalHeader :=
  if (zlen b <? HEADER_FIELDS_LEN) then None
  else if bool_decide (zslice 0 8 b <> JOURNAL_MAGIC) then None
  else Some (mkJournalHeader (be32_at b 8) (be32_at b 12) (be32_at b 16)
                             (be32_at b 20) (be32_at b 24)).

(** ** The header *)

(** What [build_header] returns, field by field. *)
Definition header_image (nrec cksum_init db_orig_size page_size : Z) : bytes :=
  JOURNAL_MAGIC ++ be_bytes 4 nrec ++ be_bytes 4 cksum_init ++ be_bytes 4 db_orig_size ++
  be_bytes 4 SECTOR_SIZE ++ be_bytes 4 page_size ++ zrep 484 0.

Lemma build_header_image nrec ck db ps :
  build_header nrec ck db ps = Ok (header_image nrec ck db ps).
Proof.
  unfold build_header.
  set (out := zrep JOURNAL_HDR_SZ 0).
  assert (zlen out = 512) as Hl by reflexivity.
  change (copy_into out 0 JOURNAL_MAGIC) with (copy_into ([] ++ zdrop 0 out) 0 JOURNAL_MAGIC).
  fill_fields. reflexivity.
Qed.

Lemma zlen_header_image nrec ck db ps : zlen (header_image nrec ck db ps) = JOURNAL_HDR_SZ.
Proof. reflexivity. Qed.

Lemma be32_at_pre (pre d rest : bytes) i :
  i = zlen pre -> zlen d = 4 -> be32_at (pre ++ d ++ rest) i = be_val d.
Proof. intros -> Hd. unfold be32_at. by rewrite zslice_app3 by lia. Qed.

Lemma header_image_parse nrec ck db ps rest :
  is_u32 nrec -> is_u32 ck -> is_u32 db -> is_u32 ps ->
  parse_header (header_image nrec ck db ps ++ rest) =
    Some (mkJournalHeader nrec ck db SECTOR_SIZE ps).
Proof.
  unfold is_u32. intros ????. unfold parse_header.
  assert (zlen (header_image nrec ck db ps ++ rest) <? HEADER_FIELDS_LEN = false) as ->.
  { apply Z.ltb_ge. rewrite zlen_app, zlen_header_image. pose proof (zlen_nonneg rest).
    unfold HEADER_FIELDS_LEN, JOURNAL_HDR_SZ, SECTOR_SIZE. lia. }
  unfold header_image. rewrite <- !app_assoc.
  rewrite bool_decide_eq_false_2.
  2:{ intros Hn. apply Hn. by apply (zslice_app3 []). }
  assert (forall x, 0 <= x < 2 ^ 32 -> be_val (be_bytes 4 x) = x) as Hv
    by (intros; apply be_val_be_bytes_small; simpl; lia).
  do 2 f_equal.
  - rewrite (be32_at_pre JOURNAL_MAGIC) by reflexivity. by apply Hv.
  - rewrite (app_assoc JOURNAL_MAGIC), be32_at_pre by reflexivity. by apply Hv.
  - rewrite (app_assoc JOURNAL_MAGIC), (app_assoc (JOURNAL_MAGIC ++ _)), be32_at_pre by reflexivity.
    by apply Hv.
  - do 4 rewrite app_assoc. rewrite be32_at_pre by reflexivity. by apply Hv.
Qed.

(** ** The records *)

Lemma zlen_build_record pgno page ck : zlen (build_record pgno page ck) = record_len (zlen page).
Proof. unfold build_record, record_len. len_lia. Qed.

Lemma build_record_pgno pgno page ck rest :
  zslice 0 4 (build_record pgno page ck ++ rest) = be_bytes 4 pgno.
Proof.
  unfold build_record. rewrite <- !app_assoc.
  by apply (zslice_app3 [] (be_bytes 4 pgno)).
Qed.
Lemma build_record_page pgno page ck rest :
  zslice 4 (4 + zlen page) (build_record pgno page ck ++ rest) = page.
Proof.
  unfold build_record. rewrite <- !app_assoc. apply zslice_app3; len_lia.
Qed.
Lemma build_record_cksum pgno page ck rest :
  zslice (4 + zlen page) (4 + zlen page + 4) (build_record pgno page ck ++ rest) =
    be_bytes 4 (pager_cksum ck page).
Proof.
  unfold build_record. rewrite <- !app_assoc.
  rewrite (app_assoc (be_bytes 4 pgno)). apply zslice_app3; len_lia.
Qed.

Lemma cksum_loop_range fuel page i ck : is_u32 ck -> is_u32 (cksum_loop fuel page i ck).
Proof.
  revert i ck. induction fuel as [|fuel IH]; intros i ck Hck; simpl; [done|].
  destruct (i >? 0); [|done]. apply IH. unfold is_u32, u32. apply Z.mod_pos_bound. lia.
Qed.
Lemma pager_cksum_range page ck : is_u32 ck -> is_u32 (pager_cksum ck page).
Proof. apply cksum_loop_range. Qed.

(** The checksum is the seed plus the sampled bytes, modulo 2^32. *)
Lemma cksum_loop_sum fuel page i ck :
  is_u32 ck -> i < 200 * Z.of_nat fuel + 1 ->
  cksum_loop fuel page i ck =
    u32 (ck + foldr (fun k s => default 0 (zget page (i - 200 * k)) + s) 0
                    (seqZ 0 ((i + 199) / 200))).
Proof.
  revert i ck. induction fuel as [|fuel IH]; intros i ck Hck Hi.
  - assert ((i + 199) / 200 <= 0) as Hn
      by (apply Z.lt_succ_r, Z.div_lt_upper_bound; lia).
    simpl. rewrite seqZ_nil by lia. simpl. unfold u32. rewrite Z.add_0_r, Z.mod_small; done.
  - cbn [cksum_loop]. destruct (Z.gtb_spec i 0).
    + assert ((i + 199) / 200 = (i - 200 + 199) / 200 + 1) as En
        by (replace (i + 199) with (i - 200 + 199 + 1 * 200) by lia;
            rewrite Z.div_add by lia; lia).
      assert (0 <= (i - 200 + 199) / 200) as Hn by (apply Z.div_pos; lia).
      rewrite IH; [|apply Z.mod_pos_bound; lia|lia].
      rewrite En, (seqZ_cons 0 (_ + 1)) by lia. cbn [foldr].
      rewrite Z.mul_0_r, Z.sub_0_r. unfold u32. rewrite Zplus_mod_idemp_l.
      rewrite <- Z.add_assoc. do 3 f_equal.
      replace (Z.pred ((i - 200 + 199) / 200 + 1)) with ((i - 200 + 199) / 200) by lia.
      change (Z.succ 0) with (1 + 0). rewrite <- (fmap_add_seqZ 1 0), foldr_fmap.
      generalize (seqZ 0 ((i - 200 + 199) / 200)). intros l.
      induction l as [|k l IHl]; [done|]. cbn [foldr]. rewrite IHl. do 3 f_equal. lia.
    + assert ((i + 199) / 200 <= 0) as Hn
        by (apply Z.lt_succ_r, Z.div_lt_upper_bound; lia).
      rewrite seqZ_nil by lia. simpl. unfold u32. rewrite Z.add_0_r, Z.mod_small; done.
Qed.

(** The bytes the checksum samples. *)
Definition sampled (page : bytes) (i : Z) : Prop :=
  exists k, 0 <= k /\ i = zlen page - 200 * (k + 1) /\ 0 < i.

Lemma pager_cksum_sum page ck : is_u32 ck ->
  pager_cksum ck page =
    u32 (ck + foldr (fun k s => default 0 (zget page (zlen page - 200 * (k + 1))) + s) 0
                    (seqZ 0 ((zlen page - 1) / 200))).
Proof.
  intros Hck. unfold pager_cksum. rewrite cksum_loop_sum by (unfold zlen; done || lia).
  do 2 f_equal. replace (zlen page - 200 + 199) with (zlen page - 1) by lia.
  induction (seqZ 0 ((zlen page - 1) / 200)) as [|k l IHl]; [done|].
  cbn [foldr]. rewrite IHl. by replace (zlen page - 200 * (k + 1)) with (zlen page - 200 - 200 * k) by lia.
Qed.

(** Changing one element of a sum over distinct indices. *)
Lemma foldr_sum_change (f g : Z -> Z) k l :
  NoDup l -> k ∈ l -> (forall j, j <> k -> f j = g j) ->
  foldr (fun j s => f j + s) 0 l = foldr (fun j s => g j + s) 0 l + (f k - g k).
Proof.
  intros Hnd. induction Hnd as [|j l Hj Hnd IH]; intros Hk Hfg; [by apply not_elem_of_nil in Hk|].
  cbn [foldr]. destruct (decide (j = k)) as [->|Hjk].
  - assert (foldr (fun j s => f j + s) 0 l = foldr (fun j s => g j + s) 0 l) as ->; [|lia].
    clear IH Hk Hnd. induction l as [|i l IHl]; [done|]. cbn [foldr].
    apply not_elem_of_cons in Hj as [? ?]. rewrite IHl by done. rewrite Hfg by done. done.
  - apply elem_of_cons in Hk as [->|Hk]; [done|]. rewrite IH by done. rewrite (Hfg j) by done. lia.
Qed.

Lemma cksum_change ck page i x y :
  is_u32 ck -> byte_ok x -> byte_ok y -> zget page i = Some y -> x <> y -> sampled page i ->
  pager_cksum ck (splice i [x] page) <> pager_cksum ck page.
Proof.
  intros Hck Hx Hy Hi Hxy (k & Hk & -> & Hpos).
  set (i := zlen page - 200 * (k + 1)) in *.
  pose proof (zget_Some _ _ _ Hi) as Hr.
  assert (zlen (splice i [x] page) = zlen page) as Hl by (apply zlen_splice; len_lia).
  rewrite !pager_cksum_sum, Hl by done.
  set (f := fun k => default 0 (zget (splice i [x] page) (zlen page - 200 * (k + 1)))).
  set (g := fun k => default 0 (zget page (zlen page - 200 * (k + 1)))).
  change (foldr _ 0 _) with (foldr (fun j s => f j + s) 0 (seqZ 0 ((zlen page - 1) / 200))) at 1.
  change (foldr (fun k s => default 0 _ + s) 0 _)
    with (foldr (fun j s => g j + s) 0 (seqZ 0 ((zlen page - 1) / 200))) at 1.
  rewrite (foldr_sum_change f g k).
  - assert (f k = x) as ->.
    { unfold f. fold i. unfold splice. rewrite zget_app_r by len_lia.
      replace (i - zlen (ztake i page)) with 0 by len_lia. done. }
    assert (g k = y) as -> by (unfold g; fold i; by rewrite Hi).
    unfold u32, byte_ok in *. intros Heq.
    set (s := foldr _ 0 _) in *.
    assert ((ck + (s + (x - y)) - (ck + s)) mod 2 ^ 32 = 0) as Hm
      by (rewrite Zminus_mod, Heq, Z.sub_diag; done).
    replace (ck + (s + (x - y)) - (ck + s)) with (x - y) in Hm by lia.
    apply Z.mod_divide in Hm as [q Hq]; [|lia]. assert (q = 0) by nia. lia.
  - apply NoDup_seqZ.
  - apply elem_of_seqZ. split; [lia|]. apply Z.lt_le_trans with (k + 1); [lia|].
    apply Z.div_le_lower_bound; lia.
  - intros j Hj. unfold f, g. f_equal. apply zget_splice_ne; len_lia.
Qed.

(** ** Properties *)

(** The journal header sector is 512 bytes and parses back: whatever
    follows it in the file, [parse_header] returns the record count, checksum
    seed, original database size and page size that [build_header] stored. *)
Theorem journal_header_roundtrip (nrec ck db ps : Z) (rest : bytes)
    (Hn : is_u32 nrec) (Hc : is_u32 ck) (Hd : is_u32 db) (Hp : is_u32 ps) :
  exists h, build_header nrec ck db ps = Ok h /\ zlen h = JOURNAL_HDR_SZ /\
    parse_header (h ++ rest) = Some (mkJournalHeader nrec ck db SECTOR_SIZE ps).
Proof.
  exists (header_image nrec ck db ps).
  split_and!; [apply build_header_image|apply zlen_header_image|by apply header_image_parse].
Qed.

Lemma journal_header_roundtrip_witness :
  exists h, build_header 2 0xdeadbeef 7 4096 = Ok h /\ zlen h = JOURNAL_HDR_SZ /\
    parse_header (h ++ [1; 2; 3]) = Some (mkJournalHeader 2 0xdeadbeef 7 SECTOR_SIZE 4096).
Proof. apply (journal_header_roundtrip 2 0xdeadbeef 7 4096 [1; 2; 3]); by_decide. Defined.

(** A journal record detects a damaged pre-image: the stored checksum of a
    page differs from the checksum of any page in which one of the sampled
    bytes (every 200th, counted down from the end) was replaced, whatever the
    checksum seed. *)
Theorem journal_cksum_detects (ck : Z) (page : bytes) (i x y : Z)
    (Hck : is_u32 ck) (Hx : byte_ok x) (Hy : byte_ok y) (Hi : zget page i = Some y)
    (Hxy : x <> y) (Hs : sampled page i) :
  pager_cksum ck (splice i [x] page) <> pager_cksum ck page.
Proof. by apply cksum_change with y. Qed.

Lemma journal_cksum_detects_witness :
  pager_cksum 5 (splice 312 [9] (zrep 512 7)) <> pager_cksum 5 (zrep 512 7).
Proof.
  apply (journal_cksum_detects 5 (zrep 512 7) 312 9 7);
    [by_decide|by_decide|by_decide|reflexivity|lia|].
  exists 0. split_and!; [lia|reflexivity|lia].
Defined.
