(* ===== verification/BtreePage.v ===== *)
(** * B-tree pages

    [btree/page.rs] and the two integer readers of [btree/mod.rs]: the page
    header and its parser, the cell-pointer array, the initialisers of the four
    page types, and the routines that put cells on a page. A page is the byte
    buffer the code mutates; [h] is the [base_offset] of the b-tree header. *)

From S2P Require Import Prelude.

Inductive PageType := InteriorIndex | InteriorTable | LeafIndex | LeafTable.
#[export] Instance PageType_eq_dec : EqDecision PageType.
Proof. solve_decision. Defined.

Definition from_byte (b : Z) : outcome PageType :=
  match b with
  | 0x02 => Ok InteriorIndex
  | 0x05 => Ok InteriorTable
  | 0x0a => Ok LeafIndex
  | 0x0d => Ok LeafTable
  | other => Err (Error_corrupt ("invalid b-tree page type " +:+ hex_u8 other))
  end.

Definition is_leaf (t : PageType) : bool :=
  match t with LeafIndex | LeafTable => true | _ => false end.
Definition is_table (t : PageType) : bool :=
  match t with InteriorTable | LeafTable => true | _ => false end.

(** [be_u16(&b[i..i + 2])] and [be_u32(&b[i..i + 4])]. *)
Definition be_u16 (b : bytes) (i : Z) : outcome Z := be_at 2 b i.
Definition be_u32 (b : bytes) (i : Z) : outcome Z := be_at 4 b i.

Record PageHeader := mkPageHeader {
  page_type : PageType;
  first_freeblock : Z;
  num_cells : Z;
  cell_content_start : Z;
  fragmented_free_bytes : Z;
  right_most_pointer : option Z;
  header_size : Z;
  base_offset : Z }.

#[export] Instance PageHeader_eq_dec : EqDecision PageHeader.
Proof. solve_decision. Defined.

Definition parse (page : bytes) (h : Z) : outcome PageHeader :=
  if zlen page <? h + 8 then Err (Error_corrupt "page too small for a b-tree header")
  else
    b ← idx page h;
    ty ← from_byte b;
    raw_ccs ← be_u16 page (h + 5);
    '(rm, hs) ←
      (if is_leaf ty then Ok (None, 8)
       else if zlen page <? h + 12
       then Err (Error_corrupt "interior page too small for a 12-byte header")
       else r ← be_u32 page (h + 8); Ok (Some r, 12));
    fb ← be_u16 page (h + 1);
    nc ← be_u16 page (h + 3);
    fr ← idx page (h + 7);
    Ok (mkPageHeader ty fb nc (if raw_ccs =? 0 then 65536 else raw_ccs) fr rm hs h).

Definition cell_pointer (self : PageHeader) (page : bytes) (i : Z) : outcome Z :=
  let ptr_off := base_offset self + header_size self + i * 2 in
  if zlen page <? ptr_off + 2 then Err (Error_corrupt "cell pointer array out of range")
  else be_u16 page ptr_off.

(** ** Page mutation *)

(** [for b in &mut page[base_offset..] { *b = 0; }]. *)
Definition zero_from (page : bytes) (h : Z) : outcome bytes :=
  tail ← sub_from page h; Ok (ztake h page ++ zrep (zlen tail) 0).

(** [page[i] = x]. *)
Definition set_byte (page : bytes) (i x : Z) : outcome bytes := copy_into page i [x].

(** [page.copy_within(i..j, d)]. *)
Definition copy_within (page : bytes) (i j d : Z) : outcome bytes :=
  s ← sub_range page i j; copy_into page d s.

Definition ccs_of_size (page_size : Z) : Z := if page_size =? 65536 then 0 else u16 page_size.

Definition init_empty_index_leaf (page : bytes) (h : Z) : outcome bytes :=
  let page_size := zlen page in
  page ← zero_from page h;
  page ← set_byte page h 0x0a;
  page ← copy_into page (h + 1) (be_bytes 2 0);
  page ← copy_into page (h + 3) (be_bytes 2 0);
  page ← copy_into page (h + 5) (be_bytes 2 (ccs_of_size page_size));
  set_byte page (h + 7) 0.

Definition init_empty_interior_index (page : bytes) (h right_most : Z) : outcome bytes :=
  let page_size := zlen page in
  page ← zero_from page h;
  page ← set_byte page h 0x02;
  page ← copy_into page (h + 1) (be_bytes 2 0);
  page ← copy_into page (h + 3) (be_bytes 2 0);
  page ← copy_into page (h + 5) (be_bytes 2 (ccs_of_size page_size));
  page ← set_byte page (h + 7) 0;
  copy_into page (h + 8) (be_bytes 4 right_most).

Definition init_empty_leaf (page : bytes) (h : Z) : outcome bytes :=
  let page_size := zlen page in
  page ← zero_from page h;
  page ← set_byte page h 0x0d;
  page ← copy_into page (h + 1) (be_bytes 2 0);
  page ← copy_into page (h + 3) (be_bytes 2 0);
  page ← copy_into page (h + 5) (be_bytes 2 (ccs_of_size page_size));
  set_byte page (h + 7) 0.

Definition init_empty_interior (page : bytes) (h right_most : Z) : outcome bytes :=
  let page_size := zlen page in
  page ← zero_from page h;
  page ← set_byte page h 0x05;
  page ← copy_into page (h + 1) (be_bytes 2 0);
  page ← copy_into page (h + 3) (be_bytes 2 0);
  page ← copy_into page (h + 5) (be_bytes 2 (ccs_of_size page_size));
  page ← set_byte page (h + 7) 0;
  copy_into page (h + 8) (be_bytes 4 right_most).

Definition LEAF_HEADER_SIZE : Z := 8.
Definition INTERIOR_HEADER_SIZE : Z := 12.

Definition leaf_free_space (page : bytes) (h : Z) : outcome Z :=
  num_cells ← be_u16 page (h + 3);
  raw_ccs ← be_u16 page (h + 5);
  let cell_content_start := if raw_ccs =? 0 then 65536 else raw_ccs in
  let ptr_array_end := h + LEAF_HEADER_SIZE + num_cells * 2 in
  Ok (Z.max 0 (cell_content_start - ptr_array_end)).

Definition interior_free_space (page : bytes) (h : Z) : outcome Z :=
  num_cells ← be_u16 page (h + 3);
  raw_ccs ← be_u16 page (h + 5);
  let cell_content_start := if raw_ccs =? 0 then 65536 else raw_ccs in
  let ptr_array_end := h + INTERIOR_HEADER_SIZE + num_cells * 2 in
  Ok (Z.max 0 (cell_content_start - ptr_array_end)).

Definition page_full_error : Error := Error_msg "btree page is full".

Definition insert_leaf_cell (page : bytes) (h i : Z) (cell : bytes) : outcome bytes :=
  page_type ← idx page h;
  if (if page_type =? 0x0d then false else negb (page_type =? 0x0a))
  then Err (Error_corrupt "insert_leaf_cell: not a leaf-table or leaf-index page")
  else
    num_cells ← be_u16 page (h + 3);
    if i >? num_cells then Err (Error_corrupt "insert_leaf_cell: index past cell count")
    else
      raw_ccs ← be_u16 page (h + 5);
      let cell_content_start := if raw_ccs =? 0 then 65536 else raw_ccs in
      let ptr_array_end := h + LEAF_HEADER_SIZE + num_cells * 2 in
      if cell_content_start <? ptr_array_end + zlen cell + 2 then Err page_full_error
      else
        let new_content_start := cell_content_start - zlen cell in
        page ← copy_into page new_content_start cell;
        let ptr_at i := h + LEAF_HEADER_SIZE + i * 2 in
        page ← (if i <? num_cells
                then copy_within page (ptr_at i) (ptr_at num_cells) (ptr_at (i + 1))
                else Ok page);
        page ← copy_into page (ptr_at i) (be_bytes 2 (u16 new_content_start));
        page ← copy_into page (h + 3) (be_bytes 2 (u16 (num_cells + 1)));
        let stored_ccs := if new_content_start =? 65536 then 0 else u16 new_content_start in
        copy_into page (h + 5) (be_bytes 2 stored_ccs).

Definition insert_interior_cell (page : bytes) (h i : Z) (cell : bytes) : outcome bytes :=
  page_type ← idx page h;
  if (if page_type =? 0x05 then false else negb (page_type =? 0x02))
  then Err (Error_corrupt "insert_interior_cell: not an interior-table or interior-index page")
  else
    num_cells ← be_u16 page (h + 3);
    if i >? num_cells then Err (Error_corrupt "insert_interior_cell: index past cell count")
    else
      raw_ccs ← be_u16 page (h + 5);
      let cell_content_start := if raw_ccs =? 0 then 65536 else raw_ccs in
      let ptr_array_end := h + INTERIOR_HEADER_SIZE + num_cells * 2 in
      if cell_content_start <? ptr_array_end + zlen cell + 2 then Err page_full_error
      else
        let new_content_start := cell_content_start - zlen cell in
        page ← copy_into page new_content_start cell;
        let ptr_at i := h + INTERIOR_HEADER_SIZE + i * 2 in
        page ← (if i <? num_cells
                then copy_within page (ptr_at i) (ptr_at num_cells) (ptr_at (i + 1))
                else Ok page);
        page ← copy_into page (ptr_at i) (be_bytes 2 (u16 new_content_start));
        page ← copy_into page (h + 3) (be_bytes 2 (u16 (num_cells + 1)));
        let stored_ccs := if new_content_start =? 65536 then 0 else u16 new_content_start in
        copy_into page (h + 5) (be_bytes 2 stored_ccs).

(** The offsets [write_page_cells] gives the cells, from the end of the page
    downward: the last cell is placed first. [None] is the [usize] underflow of
    [cell_content_start -= len] (a panic). *)
Fixpoint layout (top : Z) (cells : list bytes) : outcome (Z * list Z) :=
  match cells with
  | [] => Ok (top, [])
  | cell :: rest =>
      '(below, offs) ← layout top rest;
      o ← chk_sub below (zlen cell);
      Ok (o, o :: offs)
  end.

(** The loop that copies the cells and writes the pointer array. *)
Fixpoint place_cells (page : bytes) (ptr_at : Z) (items : list (Z * bytes)) : outcome bytes :=
  match items with
  | [] => Ok page
  | (off, cell) :: rest =>
      page ← copy_into page off cell;
      page ← copy_into page ptr_at (be_bytes 2 (u16 off));
      place_cells page (ptr_at + 2) rest
  end.

Definition page_type_byte (t : PageType) : Z :=
  match t with
  | LeafTable => 0x0d | InteriorTable => 0x05 | LeafIndex => 0x0a | InteriorIndex => 0x02
  end.

(** The buffer is dropped by the callers when this fails, so only a
    successful run's buffer is returned. The [u16] of each pair is not used. *)
Definition write_page_cells (page : bytes) (h : Z) (ty : PageType) (right_most : option Z)
    (cells : list (Z * bytes)) : outcome bytes :=
  let page_size := zlen page in
  page ← zero_from page h;
  page ← set_byte page h (page_type_byte ty);
  page ← copy_into page (h + 1) (be_bytes 2 0);
  page ← copy_into page (h + 3) (be_bytes 2 (u16 (zlen cells)));
  let header_size := if is_leaf ty then 8 else 12 in
  let ptr_array_end := h + header_size + zlen cells * 2 in
  '(cell_content_start, offsets) ← layout page_size (snd <$> cells);
  if cell_content_start <? ptr_array_end then Err page_full_error
  else
    page ← place_cells page (h + header_size) (zip offsets (snd <$> cells));
    let stored_ccs := if cell_content_start =? 65536 then 0 else u16 cell_content_start in
    page ← copy_into page (h + 5) (be_bytes 2 stored_ccs);
    page ← set_byte page (h + 7) 0;
    match right_most with
    | Some rm => copy_into page (h + 8) (be_bytes 4 rm)
    | None => Ok page
    end.

(** ** What a page stores

    [page_rep page h ty cells]: the b-tree page at [h] is a page of type [ty]
    whose cell [i], in key order, is the byte string [cells !! i]. Its content
    area starts at [content_start]; the gap below it is free. *)

Definition hdr_size (ty : PageType) : Z := if is_leaf ty then 8 else 12.

Record page_rep (page : bytes) (h : Z) (ty : PageType) (ccs : Z) (cells : list bytes) : Prop := {
  pr_size : zlen page <= 65536;
  pr_base : 0 <= h;
  pr_bytes : bytes_ok page;
  pr_type : zget page h = Some (page_type_byte ty);
  pr_num : be_at 2 page (h + 3) = Ok (zlen cells);
  pr_ccs : be_at 2 page (h + 5) = Ok (if ccs =? 65536 then 0 else ccs);
  pr_room : h + hdr_size ty + 2 * zlen cells <= ccs <= zlen page;
  pr_cells : forall i c, zget cells i = Some c ->
    exists p, be_at 2 page (h + hdr_size ty + 2 * i) = Ok p /\
      ccs <= p /\ p + zlen c <= zlen page /\ zslice p (p + zlen c) page = c;
  pr_nonempty : Forall (fun c => 0 < zlen c) cells }.

(** [cells] with [c] inserted before index [i]. *)
Definition zinsert {A} (i : Z) (c : A) (cells : list A) : list A :=
  ztake i cells ++ c :: zdrop i cells.

Lemma zlen_zinsert {A} i (c : A) cells : zlen (zinsert i c cells) = zlen cells + 1.
Proof. unfold zinsert. len_lia. Qed.
Lemma zget_zinsert {A} i (c : A) cells j :
  0 <= i <= zlen cells ->
  zget (zinsert i c cells) j =
    if j <? i then zget cells j else if j =? i then Some c else zget cells (j - 1).
Proof.
  intros Hi. unfold zinsert.
  destruct (Z.ltb_spec j i), (Z.eqb_spec j i); try lia.
  - rewrite zget_app_l by len_lia. by apply zget_ztake.
  - subst j. rewrite zget_app_r by len_lia.
    by replace (i - zlen (ztake i cells)) with 0 by len_lia.
  - rewrite zget_app_r by len_lia.
    replace (j - zlen (ztake i cells)) with ((j - i - 1) + 1) by len_lia.
    change (c :: zdrop i cells) with ([c] ++ zdrop i cells).
    rewrite zget_app_r by len_lia. rewrite zget_zdrop by len_lia. f_equal. len_lia.
Qed.

Lemma pr_ccs_value page h ty ccs cells :
  page_rep page h ty ccs cells ->
  exists raw, be_u16 page (h + 5) = Ok raw /\ (if raw =? 0 then 65536 else raw) = ccs /\ 0 < ccs.
Proof.
  intros R. pose proof (pr_ccs _ _ _ _ _ R) as Hc. pose proof (pr_room _ _ _ _ _ R) as [Hr _].
  pose proof (pr_base _ _ _ _ _ R). eexists. split; [exact Hc|].
  unfold hdr_size in Hr. pose proof (zlen_nonneg cells).
  assert (0 < ccs) by (destruct (is_leaf ty); lia).
  destruct (Z.eqb_spec ccs 65536); [subst; split; [done|lia]|].
  destruct (Z.eqb_spec ccs 0); lia.
Qed.

(** The header and pointers that [PageHeader::parse] and [cell_pointer] see. *)
Lemma page_rep_parse page h ty ccs cells :
  page_rep page h ty ccs cells ->
  exists hdr, parse page h = Ok hdr /\ page_type hdr = ty /\ num_cells hdr = zlen cells /\
    cell_content_start hdr = ccs /\ base_offset hdr = h /\ header_size hdr = hdr_size ty.
Proof.
  intros R. destruct (pr_ccs_value _ _ _ _ _ R) as (raw & Hraw & Hccs & Hpos).
  pose proof (pr_room _ _ _ _ _ R) as [Hr1 Hr2]. pose proof (pr_base _ _ _ _ _ R).
  pose proof (zlen_nonneg cells). unfold hdr_size in *.
  assert (h + 8 <= zlen page) by (destruct (is_leaf ty); lia).
  unfold parse. destruct (Z.ltb_spec (zlen page) (h + 8)); [lia|].
  unfold idx. rewrite (pr_type _ _ _ _ _ R). cbn [mbind outcome_bind expect].
  assert (from_byte (page_type_byte ty) = Ok ty) as -> by (by destruct ty).
  cbn [mbind outcome_bind]. rewrite Hraw. cbn [mbind outcome_bind].
  destruct (be_at_total 2 page (h + 1)) as [fb Hfb]; [lia..|].
  destruct (idx_total page (h + 7)) as [fr Hfr]; [lia|].
  destruct (is_leaf ty) eqn:Hl; cbn [mbind outcome_bind].
  - unfold be_u16. rewrite Hfb. cbn [mbind outcome_bind]. rewrite (pr_num _ _ _ _ _ R).
    cbn [mbind outcome_bind]. unfold idx in Hfr. rewrite Hfr. cbn [mbind outcome_bind].
    eexists. split; [reflexivity|]. done.
  - destruct (Z.ltb_spec (zlen page) (h + 12)); [lia|].
    destruct (be_at_total 4 page (h + 8)) as [rm Hrm]; [lia..|].
    unfold be_u32, be_u16. rewrite Hrm. cbn [mbind outcome_bind]. rewrite Hfb.
    cbn [mbind outcome_bind]. rewrite (pr_num _ _ _ _ _ R). cbn [mbind outcome_bind].
    unfold idx in Hfr. rewrite Hfr. cbn [mbind outcome_bind].
    eexists. split; [reflexivity|]. done.
Qed.

Lemma page_rep_cell_pointer page h ty ccs cells hdr i c :
  page_rep page h ty ccs cells -> parse page h = Ok hdr -> zget cells i = Some c ->
  exists p, cell_pointer hdr page i = Ok p /\ ccs <= p /\ p + zlen c <= zlen page /\
    zslice p (p + zlen c) page = c.
Proof.
  intros R Hp Hi. destruct (page_rep_parse _ _ _ _ _ R) as (hdr' & Hp' & _ & _ & _ & Hb & Hs).
  rewrite Hp in Hp'. injection Hp' as <-.
  destruct (pr_cells _ _ _ _ _ R i c Hi) as (p & Hpp & ?).
  exists p. split; [|done]. unfold cell_pointer, be_u16. rewrite Hb, Hs, (Z.mul_comm i 2).
  destruct (be_at_ok _ _ _ _ Hpp) as (?&?&?&_).
  by destruct (Z.ltb_spec (zlen page) (h + hdr_size ty + 2 * i + 2)); [lia|].
Qed.

(** ** Inserting a cell

    The two insertion routines share everything but the page types they accept
    and the header size. *)

Definition insert_body (hs : Z) (page : bytes) (h i n ccs : Z) (cell : bytes) : outcome bytes :=
  page ← copy_into page (ccs - zlen cell) cell;
  page ← (if i <? n
          then copy_within page (h + hs + i * 2) (h + hs + n * 2) (h + hs + (i + 1) * 2)
          else Ok page);
  page ← copy_into page (h + hs + i * 2) (be_bytes 2 (u16 (ccs - zlen cell)));
  page ← copy_into page (h + 3) (be_bytes 2 (u16 (n + 1)));
  copy_into page (h + 5)
    (be_bytes 2 (if ccs - zlen cell =? 65536 then 0 else u16 (ccs - zlen cell))).

(** The pointer array after the shift and the new pointer. *)
Definition shifted (hs : Z) (page : bytes) (h i n : Z) (ptr : bytes) : bytes :=
  let base := h + hs in
  splice (base + 2 * i) ptr
    (splice (base + 2 * (i + 1)) (zslice (base + 2 * i) (base + 2 * n) page) page).

Definition inserted (hs : Z) (page : bytes) (h i n ccs : Z) (cell : bytes) : bytes :=
  splice (h + 5) (be_bytes 2 (ccs - zlen cell))
    (splice (h + 3) (be_bytes 2 (n + 1))
      (shifted hs (splice (ccs - zlen cell) cell page) h i n (be_bytes 2 (ccs - zlen cell)))).

Lemma splice_nil {A} i (l : list A) : 0 <= i <= zlen l -> splice i [] l = l.
Proof.
  intros. unfold splice. cbn [app]. rewrite zlen_nil, Z.add_0_r. apply ztake_zdrop_id.
Qed.

(** Lengths through nested [splice]s. *)
Ltac splen :=
  autorewrite with zlen; repeat (rewrite zlen_splice by splen; autorewrite with zlen); lia.

Section Insert.
Context (hs h i n ccs : Z) (page cell : bytes).
Context (Hh : 0 <= h) (Hhs : 8 <= hs) (Hi : 0 <= i <= n) (Hsz : zlen page <= 65536).
Context (Hc : 0 < zlen cell) (Hfit : h + hs + 2 * n + zlen cell + 2 <= ccs)
        (Hend : ccs <= zlen page).

Let off := ccs - zlen cell.

Lemma insert_body_run : insert_body hs page h i n ccs cell = Ok (inserted hs page h i n ccs cell).
Proof.
  unfold insert_body. fold off.
  rewrite copy_into_in by (unfold off; lia). cbn [mbind outcome_bind].
  set (p1 := splice off cell page).
  assert (zlen p1 = zlen page) as L1 by (apply zlen_splice; unfold off; lia).
  assert ((if i <? n then copy_within p1 (h + hs + i * 2) (h + hs + n * 2) (h + hs + (i + 1) * 2)
           else Ok p1) =
          Ok (splice (h + hs + 2 * (i + 1)) (zslice (h + hs + 2 * i) (h + hs + 2 * n) p1) p1))
    as ->.
  { destruct (Z.ltb_spec i n).
    - unfold copy_within. rewrite sub_range_in by lia. cbn [mbind outcome_bind].
      rewrite copy_into_in by (rewrite ?zlen_zslice; lia).
      do 2 f_equal; [lia|]. f_equal; lia.
    - replace i with n by lia. unfold zslice. rewrite ztake_0 by lia.
      by rewrite splice_nil by lia. }
  cbn [mbind outcome_bind].
  set (p2 := splice _ _ p1).
  assert (zlen p2 = zlen page) as L2
    by (unfold p2; rewrite zlen_splice; rewrite ?zlen_zslice; lia).
  assert (u16 off = off) as -> by (unfold u16, off; rewrite Z.mod_small; lia).
  assert (u16 (n + 1) = n + 1) as -> by (unfold u16; rewrite Z.mod_small; lia).
  destruct (Z.eqb_spec off 65536); [unfold off in *; lia|].
  rewrite copy_into_in by len_lia. cbn [mbind outcome_bind].
  rewrite copy_into_in by (rewrite ?zlen_splice; len_lia). cbn [mbind outcome_bind].
  rewrite copy_into_in by (rewrite ?zlen_splice; rewrite ?zlen_splice; len_lia).
  unfold inserted, shifted. fold off p1. unfold p2.
  by rewrite (Z.mul_comm i 2).
Qed.

Lemma zlen_shifted (q ptr : bytes) : zlen q = zlen page -> zlen ptr = 2 ->
  zlen (shifted hs q h i n ptr) = zlen page.
Proof.
  intros Hq Hp. unfold shifted.
  rewrite zlen_splice; rewrite ?zlen_splice; rewrite ?zlen_zslice; lia.
Qed.
Lemma zlen_inserted : zlen (inserted hs page h i n ccs cell) = zlen page.
Proof.
  unfold inserted.
  set (q := shifted _ _ _ _ _ _).
  assert (zlen q = zlen page) as L by (apply zlen_shifted; splen).
  splen.
Qed.

(** The bytes outside the pointer array's tail and the counters. *)
Lemma inserted_slice a b :
  0 <= a -> a <= b -> b <= zlen page ->
  (b <= h + 3 \/ (h + 7 <= a /\ b <= h + hs + 2 * i) \/ h + hs + 2 * (n + 1) <= a) ->
  zslice a b (inserted hs page h i n ccs cell) = zslice a b (splice off cell page).
Proof.
  intros Ha Hab Hb Hout. unfold inserted, shifted. fold off. set (p1 := splice off cell page).
  assert (zlen p1 = zlen page) as L1 by (apply zlen_splice; unfold off; lia).
  set (s := zslice (h + hs + 2 * i) (h + hs + 2 * n) p1).
  assert (zlen s = 2 * n - 2 * i) as L2 by (unfold s; rewrite zlen_zslice; lia).
  repeat (rewrite zslice_splice_ne; [|splen..]). done.
Qed.

Lemma inserted_get a : a < h + 3 -> zget (inserted hs page h i n ccs cell) a = zget page a.
Proof.
  intros Ha. unfold inserted, shifted. fold off. set (p1 := splice off cell page).
  assert (zlen p1 = zlen page) as L1 by (apply zlen_splice; unfold off; lia).
  set (s := zslice (h + hs + 2 * i) (h + hs + 2 * n) p1).
  assert (zlen s = 2 * n - 2 * i) as L2 by (unfold s; rewrite zlen_zslice; lia).
  repeat (rewrite zget_splice_ne; [|splen..]). unfold p1.
  by rewrite zget_splice_ne by (unfold off; lia).
Qed.

Lemma inserted_num : be_at 2 (inserted hs page h i n ccs cell) (h + 3) = Ok (n + 1).
Proof.
  unfold inserted. fold off. set (q := shifted _ _ _ _ _ _).
  assert (zlen q = zlen page) as L by (apply zlen_shifted; unfold off; splen).
  rewrite be_at_splice_ne by splen. rewrite (be_at_splice_eq 2) by splen.
  rewrite Z.mod_small by lia. done.
Qed.

Lemma inserted_ccs : be_at 2 (inserted hs page h i n ccs cell) (h + 5) = Ok off.
Proof.
  unfold inserted. fold off. set (q := shifted _ _ _ _ _ _).
  assert (zlen q = zlen page) as L by (apply zlen_shifted; unfold off; splen).
  rewrite (be_at_splice_eq 2) by splen. rewrite Z.mod_small by (unfold off; lia). done.
Qed.

Lemma inserted_ptr j : 0 <= j <= n ->
  be_at 2 (inserted hs page h i n ccs cell) (h + hs + 2 * j) =
    if j <? i then be_at 2 page (h + hs + 2 * j)
    else if j =? i then Ok off else be_at 2 page (h + hs + 2 * (j - 1)).
Proof.
  intros Hj. unfold inserted. fold off. set (p1 := splice off cell page).
  assert (zlen p1 = zlen page) as L1 by (apply zlen_splice; unfold off; lia).
  assert (zlen (shifted hs p1 h i n (be_bytes 2 off)) = zlen page) as L
    by (apply zlen_shifted; splen).
  rewrite be_at_splice_ne by splen. rewrite be_at_splice_ne by splen. unfold shifted.
  set (s := zslice (h + hs + 2 * i) (h + hs + 2 * n) p1).
  assert (zlen s = 2 * n - 2 * i) as L2 by (unfold s; rewrite zlen_zslice; lia).
  assert (forall a, a + 2 <= off -> 0 <= a -> be_at 2 p1 a = be_at 2 page a) as Hp1
    by (intros; apply be_at_splice_ne; unfold off; lia).
  destruct (Z.ltb_spec j i).
  - rewrite be_at_splice_ne by splen. rewrite be_at_splice_ne by splen.
    apply Hp1; unfold off; lia.
  - destruct (Z.eqb_spec j i) as [->|].
    + rewrite (be_at_splice_eq 2) by splen. rewrite Z.mod_small by (unfold off; lia). done.
    + rewrite be_at_splice_ne by splen. rewrite be_at_splice_in by lia.
      unfold s. rewrite be_at_zslice by lia.
      replace (h + hs + 2 * i + (h + hs + 2 * j - (h + hs + 2 * (i + 1))))
        with (h + hs + 2 * (j - 1)) by lia.
      apply Hp1; unfold off; lia.
Qed.

Lemma inserted_bytes : bytes_ok page -> bytes_ok cell ->
  bytes_ok (inserted hs page h i n ccs cell).
Proof. intros. unfold inserted, shifted. auto 10 with bytes. Qed.
End Insert.

Lemma zget_Forall {A} (P : A -> Prop) l i x : Forall P l -> zget l i = Some x -> P x.
Proof.
  unfold zget. intros HF. destruct (Z.ltb_spec i 0); [done|]. intros. by eapply Forall_lookup_1.
Qed.

Lemma Forall_zinsert {A} (P : A -> Prop) i c l : Forall P l -> P c -> Forall P (zinsert i c l).
Proof.
  intros HF Hc. unfold zinsert. apply Forall_app; split; [by apply Forall_take|].
  constructor; [done|]. by apply Forall_drop.
Qed.

Lemma inserted_rep page h ty ccs cells i cell :
  page_rep page h ty ccs cells -> 0 <= i <= zlen cells -> 0 < zlen cell -> bytes_ok cell ->
  h + hdr_size ty + 2 * zlen cells + zlen cell + 2 <= ccs ->
  page_rep (inserted (hdr_size ty) page h i (zlen cells) ccs cell) h ty (ccs - zlen cell)
    (zinsert i cell cells).
Proof.
  intros R Hi Hc Hb Hfit. pose proof (pr_room _ _ _ _ _ R) as [_ Hend].
  pose proof (pr_base _ _ _ _ _ R) as Hh. pose proof (pr_size _ _ _ _ _ R) as Hs.
  assert (8 <= hdr_size ty) as Hhs by (unfold hdr_size; destruct (is_leaf ty); lia).
  assert (zlen (inserted (hdr_size ty) page h i (zlen cells) ccs cell) = zlen page) as L
    by (apply zlen_inserted; lia).
  constructor.
  - by rewrite L.
  - done.
  - apply inserted_bytes; [apply R|done].
  - rewrite inserted_get by lia. apply R.
  - rewrite inserted_num by lia. f_equal. rewrite zlen_zinsert. lia.
  - rewrite inserted_ccs by lia. destruct (Z.eqb_spec (ccs - zlen cell) 65536); [lia|done].
  - rewrite L, zlen_zinsert. lia.
  - intros j c Hj. rewrite L. pose proof (zget_Some _ _ _ Hj) as Hr. rewrite zlen_zinsert in Hr.
    rewrite inserted_ptr by lia. rewrite zget_zinsert in Hj by lia.
    assert (forall k, zget cells k = Some c -> exists p, be_at 2 page (h + hdr_size ty + 2 * k) = Ok p /\
      ccs - zlen cell <= p /\ p + zlen c <= zlen page /\
      zslice p (p + zlen c) (inserted (hdr_size ty) page h i (zlen cells) ccs cell) = c) as Hold.
    { intros k Hk. destruct (pr_cells _ _ _ _ _ R k c Hk) as (p & Hp & ? & ? & Hsl).
      pose proof (zlen_nonneg c). exists p. split_and!; [done|lia|lia|].
      rewrite inserted_slice by lia. by rewrite zslice_splice_ne by lia. }
    destruct (Z.ltb_spec j i); [by apply Hold|].
    destruct (Z.eqb_spec j i); [|by apply Hold]. injection Hj as <-.
    exists (ccs - zlen cell). split_and!; [done|lia|lia|].
    rewrite inserted_slice by lia. apply zslice_splice_eq; lia.
  - apply Forall_zinsert; [apply R|done].
Qed.

(** The cell found at index [i] through the header and the pointer array, as
    the cursors find it, starts with the bytes [c]. *)
Definition cell_at (page : bytes) (h i : Z) (c : bytes) : Prop :=
  exists hdr p, parse page h = Ok hdr /\ i < num_cells hdr /\ cell_pointer hdr page i = Ok p /\
    zslice p (p + zlen c) page = c.

Lemma page_rep_cell_at page h ty ccs cells i c :
  page_rep page h ty ccs cells -> zget cells i = Some c -> cell_at page h i c.
Proof.
  intros R Hi. destruct (page_rep_parse _ _ _ _ _ R) as (hdr & Hp & _ & Hn & _).
  destruct (page_rep_cell_pointer _ _ _ _ _ _ _ _ R Hp Hi) as (p & Hcp & _ & _ & Hsl).
  exists hdr, p. apply zget_Some in Hi. split_and!; (done || lia).
Qed.

Lemma insert_leaf_cell_eq page h ty ccs cells i cell :
  page_rep page h ty ccs cells -> is_leaf ty = true ->
  insert_leaf_cell page h i cell =
    if i >? zlen cells then Err (Error_corrupt "insert_leaf_cell: index past cell count")
    else if ccs <? h + 8 + zlen cells * 2 + zlen cell + 2 then Err page_full_error
    else insert_body 8 page h i (zlen cells) ccs cell.
Proof.
  intros R Hl. destruct (pr_ccs_value _ _ _ _ _ R) as (raw & Hraw & Hccs & _).
  unfold insert_leaf_cell, idx. rewrite (pr_type _ _ _ _ _ R). cbn [mbind outcome_bind expect].
  replace (if page_type_byte ty =? 13 then false else negb (page_type_byte ty =? 10)) with false
    by (by destruct ty).
  cbn [mbind outcome_bind]. unfold be_u16 in *. rewrite (pr_num _ _ _ _ _ R).
  cbn [mbind outcome_bind]. destruct (i >? zlen cells); [done|]. rewrite Hraw.
  cbn [mbind outcome_bind]. rewrite Hccs. done.
Qed.

Lemma insert_interior_cell_eq page h ty ccs cells i cell :
  page_rep page h ty ccs cells -> is_leaf ty = false ->
  insert_interior_cell page h i cell =
    if i >? zlen cells then Err (Error_corrupt "insert_interior_cell: index past cell count")
    else if ccs <? h + 12 + zlen cells * 2 + zlen cell + 2 then Err page_full_error
    else insert_body 12 page h i (zlen cells) ccs cell.
Proof.
  intros R Hl. destruct (pr_ccs_value _ _ _ _ _ R) as (raw & Hraw & Hccs & _).
  unfold insert_interior_cell, idx. rewrite (pr_type _ _ _ _ _ R). cbn [mbind outcome_bind expect].
  replace (if page_type_byte ty =? 5 then false else negb (page_type_byte ty =? 2)) with false
    by (by destruct ty).
  cbn [mbind outcome_bind]. unfold be_u16 in *. rewrite (pr_num _ _ _ _ _ R).
  cbn [mbind outcome_bind]. destruct (i >? zlen cells); [done|]. rewrite Hraw.
  cbn [mbind outcome_bind]. rewrite Hccs. done.
Qed.

Lemma free_space_eq page h ty ccs cells :
  page_rep page h ty ccs cells ->
  (if is_leaf ty then leaf_free_space page h else interior_free_space page h) =
    Ok (ccs - (h + hdr_size ty + 2 * zlen cells)).
Proof.
  intros R. destruct (pr_ccs_value _ _ _ _ _ R) as (raw & Hraw & Hccs & _).
  pose proof (pr_room _ _ _ _ _ R) as [Hr _]. unfold hdr_size in *.
  unfold leaf_free_space, interior_free_space, be_u16 in *. rewrite (pr_num _ _ _ _ _ R).
  cbn [mbind outcome_bind]. rewrite Hraw. cbn [mbind outcome_bind].
  rewrite Hccs. unfold LEAF_HEADER_SIZE, INTERIOR_HEADER_SIZE.
  destruct (is_leaf ty); f_equal; lia.
Qed.

(** ** Initialising a page *)

Lemma zero_from_in page h : 0 <= h <= zlen page ->
  zero_from page h = Ok (ztake h page ++ zrep (zlen page - h) 0).
Proof.
  intros. unfold zero_from, sub_from. rewrite get_from_in by lia. cbn [expect mbind outcome_bind].
  do 3 f_equal. len_lia.
Qed.

(** An empty page's header over a zeroed page. *)
Definition blank (page : bytes) (h tb ccs : Z) : bytes :=
  splice (h + 7) [0] (splice (h + 5) (be_bytes 2 ccs) (splice (h + 3) (be_bytes 2 0)
    (splice (h + 1) (be_bytes 2 0) (splice h [tb] (ztake h page ++ zrep (zlen page - h) 0))))).

Lemma blank_len page h tb ccs : 0 <= h -> h + 8 <= zlen page ->
  zlen (blank page h tb ccs) = zlen page.
Proof.
  intros. unfold blank.
  assert (zlen (ztake h page ++ zrep (zlen page - h) 0) = zlen page) as L by len_lia.
  splen.
Qed.

Lemma blank_rep page h ty :
  bytes_ok page -> 0 <= h -> h + hdr_size ty <= zlen page -> zlen page <= 65536 ->
  page_rep (blank page h (page_type_byte ty) (ccs_of_size (zlen page))) h ty (zlen page) [].
Proof.
  intros Hb Hh Hr Hs.
  assert (8 <= hdr_size ty) as Hhs by (unfold hdr_size; destruct (is_leaf ty); lia).
  pose proof (blank_len page h (page_type_byte ty) (ccs_of_size (zlen page)) Hh ltac:(lia)) as L.
  assert (zlen (ztake h page ++ zrep (zlen page - h) 0) = zlen page) as L0 by len_lia.
  assert (byte_ok (page_type_byte ty)) as Ht by (destruct ty; unfold byte_ok; simpl; lia).
  assert (byte_ok 0) as H0 by (unfold byte_ok; lia).
  constructor; rewrite ?L; try done.
  - unfold blank. repeat (apply bytes_ok_splice; [first [apply bytes_ok_be_bytes|by constructor]|]).
    apply Forall_app; split; [auto with bytes|by apply bytes_ok_zrep].
  - unfold blank. repeat (rewrite zget_splice_ne; [|splen..]). unfold splice.
    rewrite zget_app_r by len_lia. by replace (h - _) with 0 by len_lia.
  - unfold blank. rewrite be_at_splice_ne by splen. rewrite be_at_splice_ne by splen.
    rewrite (be_at_splice_eq 2) by splen. done.
  - unfold blank. rewrite be_at_splice_ne by splen. rewrite (be_at_splice_eq 2) by splen.
    unfold ccs_of_size, u16. destruct (Z.eqb_spec (zlen page) 65536) as [|]; [done|].
    rewrite Z.mod_mod, Z.mod_small by lia. done.
  - change (zlen []) with 0. lia.
  - intros i c Hi%zget_Some. change (zlen []) with 0 in Hi. lia.
Qed.

(** Storing the right-most pointer of an interior page. *)
Lemma splice_right_most_rep page h ty ccs cells rm :
  page_rep page h ty ccs cells -> is_leaf ty = false ->
  page_rep (splice (h + 8) (be_bytes 4 rm) page) h ty ccs cells.
Proof.
  intros R Hl. pose proof (pr_room _ _ _ _ _ R) as [Hr1 Hr2]. pose proof (pr_base _ _ _ _ _ R).
  pose proof (zlen_nonneg cells). unfold hdr_size in *. rewrite Hl in *.
  assert (zlen (splice (h + 8) (be_bytes 4 rm) page) = zlen page) as L by splen.
  destruct R. unfold hdr_size in *. rewrite Hl in *.
  constructor; rewrite ?L; unfold hdr_size; rewrite ?Hl; try done.
  - auto with bytes.
  - by rewrite zget_splice_ne by splen.
  - by rewrite be_at_splice_ne by splen.
  - by rewrite be_at_splice_ne by splen.
  - intros i c Hi. destruct (pr_cells0 i c Hi) as (p & Hp & ? & ? & Hsl).
    apply zget_Some in Hi as Hi'. pose proof (zlen_nonneg c). exists p. split_and!; try done.
    + by rewrite be_at_splice_ne by splen.
    + by rewrite zslice_splice_ne by splen.
Qed.

(** ** Writing a whole set of cells *)

Definition total_len (cells : list bytes) : Z := foldr (fun c s => zlen c + s) 0 cells.

Lemma total_len_nonneg cells : 0 <= total_len cells.
Proof. induction cells as [|c cells IH]; simpl; [lia|]. pose proof (zlen_nonneg c). lia. Qed.

(** Consecutive offsets from [lo]. *)
Fixpoint contiguous (lo : Z) (cells : list bytes) : list Z :=
  match cells with [] => [] | c :: rest => lo :: contiguous (lo + zlen c) rest end.

Lemma layout_eq top cells :
  layout top cells = if top <? total_len cells then
    (if decide (cells = []) then Ok (top, []) else Panic)
    else Ok (top - total_len cells, contiguous (top - total_len cells) cells).
Proof.
  induction cells as [|c cells IH]; cbn [layout total_len foldr contiguous].
  - rewrite decide_True by done. destruct (top <? 0); [done|]. by rewrite Z.sub_0_r.
  - fold (total_len cells). rewrite IH. pose proof (total_len_nonneg cells).
    pose proof (zlen_nonneg c). rewrite (decide_False (P := c :: cells = [])) by done.
    destruct (Z.ltb_spec top (total_len cells)).
    + destruct (Z.ltb_spec top (zlen c + total_len cells)); [|lia].
      destruct (decide (cells = [])) as [->|]; [|done]. cbn [mbind outcome_bind].
      unfold chk_sub. change (total_len []) with 0 in *. by destruct (Z.ltb_spec top (zlen c)); [|lia].
    + cbn [mbind outcome_bind]. unfold chk_sub.
      destruct (Z.ltb_spec (top - total_len cells) (zlen c)),
        (Z.ltb_spec top (zlen c + total_len cells)); try lia; [done|].
      cbn [mbind outcome_bind].
      replace (top - (zlen c + total_len cells)) with (top - total_len cells - zlen c) by lia.
      by rewrite Z.sub_add.
Qed.

Lemma place_cells_spec cells : forall page ptr lo,
  0 <= ptr -> ptr + 2 * zlen cells <= lo -> lo + total_len cells <= zlen page ->
  zlen page <= 65536 -> Forall (fun c => 0 < zlen c) cells ->
  exists page', place_cells page ptr (zip (contiguous lo cells) cells) = Ok page' /\
    zlen page' = zlen page /\
    (bytes_ok page -> Forall bytes_ok cells -> bytes_ok page') /\
    (forall a b, 0 <= a -> a <= b -> b <= zlen page ->
       (b <= ptr \/ (ptr + 2 * zlen cells <= a /\ b <= lo) \/ lo + total_len cells <= a) ->
       zslice a b page' = zslice a b page) /\
    (forall i c, zget cells i = Some c ->
       exists p, be_at 2 page' (ptr + 2 * i) = Ok p /\ lo <= p /\
         p + zlen c <= lo + total_len cells /\ zslice p (p + zlen c) page' = c).
Proof.
  induction cells as [|c cells IH]; intros page ptr lo Hptr Hlo Hhi Hs Hne.
  - exists page. split_and!; try done. intros i c Hi%zget_Some.
    change (zlen []) with 0 in Hi. lia.
  - apply Forall_cons_1 in Hne as [Hc Hne]. rewrite zlen_cons in Hlo.
    cbn [total_len foldr] in Hhi |- *. fold (total_len cells) in Hhi |- *.
    pose proof (total_len_nonneg cells) as Ht. pose proof (zlen_nonneg cells) as Hn.
    cbn [contiguous zip_with place_cells].
    rewrite copy_into_in by lia. cbn [mbind outcome_bind].
    set (p1 := splice lo c page). assert (zlen p1 = zlen page) as L1 by (apply zlen_splice; lia).
    assert (u16 lo = lo) as -> by (unfold u16; rewrite Z.mod_small; lia).
    rewrite copy_into_in by splen. cbn [mbind outcome_bind].
    set (p2 := splice ptr (be_bytes 2 lo) p1). assert (zlen p2 = zlen page) as L2 by (unfold p2; splen).
    destruct (IH p2 (ptr + 2) (lo + zlen c)) as (page' & Hrun & Hlen & Hok & Hsame & Hcells);
      [lia..|done|].
    exists page'. split_and!; [exact Hrun|lia|..].
    + intros Hb Hcs. apply Forall_cons_1 in Hcs as [Hcb Hcs]. apply Hok; [|done].
      unfold p2, p1. auto 10 with bytes.
    + intros a b Ha Hab Hb Hout. rewrite zlen_cons in Hout. rewrite Hsame by lia.
      unfold p2. rewrite zslice_splice_ne by splen. unfold p1. by rewrite zslice_splice_ne by lia.
    + intros i c' Hi. destruct (decide (i = 0)) as [->|Hi0].
      * injection Hi as <-. exists lo. rewrite Z.mul_0_r, Z.add_0_r. split_and!; [|lia|lia|].
        -- rewrite be_at_in by lia. rewrite Hsame by lia. unfold p2.
           rewrite zslice_splice_eq by splen. rewrite be_val_be_bytes, Z.mod_small by lia. done.
        -- rewrite Hsame by lia. unfold p2. rewrite zslice_splice_ne by splen.
           apply zslice_splice_eq; lia.
      * assert (zget cells (i - 1) = Some c') as Hi'.
        { pose proof (zget_Some _ _ _ Hi). change (c :: cells) with ([c] ++ cells) in Hi.
          by rewrite zget_app_r in Hi by len_lia. }
        destruct (Hcells _ _ Hi') as (p & Hp & ? & ? & ?). exists p.
        replace (ptr + 2 * i) with (ptr + 2 + 2 * (i - 1)) by lia. split_and!; (done || lia).
Qed.

Lemma zip_offsets_length lo cells : zlen (contiguous lo cells) = zlen cells.
Proof.
  revert lo. induction cells as [|c cells IH]; intros lo; [done|]. cbn [contiguous].
  by rewrite !zlen_cons, IH.
Qed.

(** What the right-most pointer argument must be for a page type. *)
Definition rm_ok (ty : PageType) (right_most : option Z) : Prop :=
  if is_leaf ty then right_most = None else exists rm, right_most = Some rm /\ is_u32 rm.

Lemma hdr_size_ge ty : 8 <= hdr_size ty.
Proof. unfold hdr_size. destruct (is_leaf ty); lia. Qed.

Section WriteCells.
Context (page : bytes) (h : Z) (ty : PageType) (cells : list bytes).
Context (Hb : bytes_ok page) (Hh : 0 <= h) (Hr : h + hdr_size ty <= zlen page)
        (Hs : zlen page <= 65536).
Context (Hne : Forall (fun c => 0 < zlen c) cells) (Hcb : Forall bytes_ok cells).
Context (Hroom : h + hdr_size ty + 2 * zlen cells <= zlen page - total_len cells).

Let lo := zlen page - total_len cells.
Let start := splice (h + 3) (be_bytes 2 (zlen cells)) (splice (h + 1) (be_bytes 2 0)
  (splice h [page_type_byte ty] (ztake h page ++ zrep (zlen page - h) 0))).

Lemma start_len : zlen start = zlen page.
Proof.
  pose proof (hdr_size_ge ty). unfold start.
  assert (zlen (ztake h page ++ zrep (zlen page - h) 0) = zlen page) as L by len_lia.
  splen.
Qed.

(** The page once the cells and pointers are in place and the content start
    and the fragment count are stored. *)
Lemma written_rep :
  exists p', place_cells start (h + hdr_size ty) (zip (contiguous lo cells) cells) = Ok p' /\
    zlen p' = zlen page /\
    page_rep (splice (h + 7) [0]
               (splice (h + 5) (be_bytes 2 (if lo =? 65536 then 0 else u16 lo)) p'))
      h ty lo cells /\
    zslice 0 h p' = zslice 0 h page.
Proof using Hb Hh Hr Hs Hne Hcb Hroom.
  pose proof (hdr_size_ge ty) as Hhs. pose proof start_len as L0.
  pose proof (zlen_nonneg cells) as Hn. pose proof (total_len_nonneg cells) as Ht.
  destruct (place_cells_spec cells start (h + hdr_size ty) lo)
    as (p' & Hrun & Hlen & Hok & Hsame & Hcells); [unfold lo; lia..|done|].
  exists p'. rewrite L0 in *.
  set (sc := if lo =? 65536 then 0 else u16 lo).
  assert (zlen (splice (h + 7) [0] (splice (h + 5) (be_bytes 2 sc) p')) = zlen page) as Lf by splen.
  assert (zlen (ztake h page ++ zrep (zlen page - h) 0) = zlen page) as L by len_lia.
  assert (byte_ok 0) as B0 by (unfold byte_ok; lia).
  assert (byte_ok (page_type_byte ty)) as Bt by (destruct ty; unfold byte_ok; simpl; lia).
  split_and!; [done|done| |].
  - constructor; rewrite ?Lf; try done.
    + repeat (apply bytes_ok_splice; [first [apply bytes_ok_be_bytes|by constructor]|]).
      apply Hok; [|done]. unfold start.
      repeat (apply bytes_ok_splice; [first [apply bytes_ok_be_bytes|by constructor]|]).
      apply Forall_app; split; [auto with bytes|by apply bytes_ok_zrep].
    + rewrite zget_splice_ne by splen. rewrite zget_splice_ne by splen.
      destruct (zget_in p' h) as [x Hx]; [lia|].
      pose proof (zget_zslice1 _ _ _ Hx) as Hx1. rewrite Hsame in Hx1 by lia.
      unfold start in Hx1. rewrite zslice_splice_ne in Hx1 by splen.
      rewrite zslice_splice_ne in Hx1 by splen. rewrite zslice_splice_eq in Hx1 by len_lia.
      rewrite Hx. by injection Hx1 as ->.
    + rewrite be_at_splice_ne by splen. rewrite be_at_splice_ne by splen.
      rewrite be_at_in by lia. rewrite Hsame by lia. unfold start.
      rewrite zslice_splice_eq by splen. rewrite be_val_be_bytes, Z.mod_small; [done|].
      unfold lo in *. lia.
    + rewrite be_at_splice_ne by splen. rewrite (be_at_splice_eq 2) by splen.
      unfold sc, u16. destruct (Z.eqb_spec lo 65536); [done|].
      rewrite Z.mod_mod, Z.mod_small by (unfold lo in *; lia). done.
    + unfold lo. lia.
    + intros i c Hi. destruct (Hcells i c Hi) as (p & Hp & ? & ? & Hsl).
      apply zget_Some in Hi. pose proof (zlen_nonneg c). exists p.
      destruct (be_at_ok _ _ _ _ Hp) as (_ & ? & ? & _).
      rewrite be_at_splice_ne by splen. rewrite be_at_splice_ne by splen.
      split_and!; [done|lia|unfold lo in *; lia|].
      rewrite zslice_splice_ne by (unfold lo in *; splen).
      by rewrite zslice_splice_ne by (unfold lo in *; splen).
  - rewrite Hsame by lia. unfold start. rewrite zslice_splice_ne by splen.
    rewrite zslice_splice_ne by splen. rewrite zslice_splice_ne by splen.
    rewrite zslice_app_l by len_lia. unfold zslice. rewrite (zdrop_0 _ page), zdrop_0 by lia.
    rewrite ztake_ztake by lia. f_equal. lia.
Qed.
End WriteCells.

Lemma write_page_cells_run page h ty rm (pairs : list (Z * bytes)) :
  let cells := snd <$> pairs in
  bytes_ok page -> 0 <= h -> h + hdr_size ty <= zlen page -> zlen page <= 65536 ->
  Forall (fun c => 0 < zlen c) cells -> Forall bytes_ok cells -> rm_ok ty rm ->
  h + hdr_size ty + 2 * zlen cells <= zlen page - total_len cells ->
  exists page', write_page_cells page h ty rm pairs = Ok page' /\ zlen page' = zlen page /\
    page_rep page' h ty (zlen page - total_len cells) cells /\
    zslice 0 h page' = zslice 0 h page /\
    (forall r, rm = Some r -> be_at 4 page' (h + 8) = Ok r).
Proof.
  intros cells Hb Hh Hr Hs Hne Hcb Hrm Hroom. subst cells. pose proof (hdr_size_ge ty) as Hhs.
  pose proof (zlen_nonneg pairs) as Hn. pose proof (total_len_nonneg (snd <$> pairs)) as Ht.
  destruct (written_rep page h ty (snd <$> pairs)) as (p' & Hrun & Hlen & R & Hpre); [done..|].
  assert (zlen (ztake h page ++ zrep (zlen page - h) 0) = zlen page) as L by len_lia.
  rewrite zlen_fmap in *. unfold write_page_cells.
  rewrite zero_from_in by lia. cbn [mbind outcome_bind].
  unfold set_byte. rewrite copy_into_in by len_lia. cbn [mbind outcome_bind].
  rewrite copy_into_in by splen. cbn [mbind outcome_bind].
  rewrite copy_into_in by splen. cbn [mbind outcome_bind].
  assert (u16 (zlen pairs) = zlen pairs) as -> by (unfold u16; rewrite Z.mod_small; lia).
  rewrite layout_eq. destruct (Z.ltb_spec (zlen page) (total_len (snd <$> pairs))); [lia|].
  cbn [mbind outcome_bind]. fold (hdr_size ty). rewrite (Z.mul_comm (zlen pairs)).
  destruct (Z.ltb_spec (zlen page - total_len (snd <$> pairs)) (h + hdr_size ty + 2 * zlen pairs));
    [lia|].
  rewrite Hrun. cbn [mbind outcome_bind].
  set (lo := zlen page - total_len (snd <$> pairs)) in *.
  set (sc := if lo =? 65536 then 0 else u16 lo) in *.
  rewrite copy_into_in by splen. cbn [mbind outcome_bind].
  rewrite copy_into_in by splen. cbn [mbind outcome_bind].
  set (q := splice (h + 7) [0] _) in *. assert (zlen q = zlen page) as Lq by (unfold q; splen).
  assert (zslice 0 h q = zslice 0 h page) as Hq.
  { unfold q. rewrite zslice_splice_ne by splen. by rewrite zslice_splice_ne by splen. }
  unfold rm_ok in Hrm. destruct (is_leaf ty) eqn:Hl.
  - subst rm. exists q. split_and!; (done || by intros).
  - destruct Hrm as (r & -> & Hr32). unfold hdr_size in *. rewrite Hl in *.
    rewrite copy_into_in by len_lia. eexists. split; [done|].
    split_and!; [splen|by apply splice_right_most_rep| |].
    + by rewrite zslice_splice_ne by splen.
    + intros ? [= <-]. rewrite (be_at_splice_eq 4) by splen. unfold is_u32 in Hr32.
      by rewrite Z.mod_small by (simpl; lia).
Qed.

Lemma write_page_cells_full page h ty rm (pairs : list (Z * bytes)) :
  0 <= h -> h + hdr_size ty <= zlen page -> zlen page <= 65536 ->
  zlen page - total_len (snd <$> pairs) < h + hdr_size ty + 2 * zlen pairs ->
  write_page_cells page h ty rm pairs =
    if zlen page <? total_len (snd <$> pairs) then Panic else Err page_full_error.
Proof.
  intros Hh Hr Hs Hroom. pose proof (hdr_size_ge ty) as Hhs.
  assert (zlen (ztake h page ++ zrep (zlen page - h) 0) = zlen page) as L by len_lia.
  unfold write_page_cells. rewrite zero_from_in by lia. cbn [mbind outcome_bind].
  unfold set_byte. rewrite copy_into_in by len_lia. cbn [mbind outcome_bind].
  rewrite copy_into_in by splen. cbn [mbind outcome_bind].
  rewrite copy_into_in by splen. cbn [mbind outcome_bind].
  rewrite layout_eq. fold (hdr_size ty). rewrite (Z.mul_comm (zlen pairs)).
  destruct (Z.ltb_spec (zlen page) (total_len (snd <$> pairs))).
  - rewrite decide_False; [done|]. intros E. rewrite E in *. cbn in *. len_lia.
  - cbn [mbind outcome_bind].
    by destruct (Z.ltb_spec (zlen page - total_len (snd <$> pairs))
                            (h + hdr_size ty + 2 * zlen pairs)); [|lia].
Qed.

Lemma init_run (f : bytes -> Z -> outcome bytes) ty page h :
  f = (fun page h =>
    let page_size := zlen page in
    page ← zero_from page h;
    page ← set_byte page h (page_type_byte ty);
    page ← copy_into page (h + 1) (be_bytes 2 0);
    page ← copy_into page (h + 3) (be_bytes 2 0);
    page ← copy_into page (h + 5) (be_bytes 2 (ccs_of_size page_size));
    set_byte page (h + 7) 0) ->
  0 <= h -> h + 8 <= zlen page ->
  f page h = Ok (blank page h (page_type_byte ty) (ccs_of_size (zlen page))).
Proof.
  intros -> Hh Hr. cbv beta zeta.
  assert (zlen (ztake h page ++ zrep (zlen page - h) 0) = zlen page) as L by len_lia.
  rewrite zero_from_in by lia. cbn [mbind outcome_bind]. unfold set_byte.
  rewrite copy_into_in by len_lia. cbn [mbind outcome_bind].
  repeat (rewrite copy_into_in by splen; cbn [mbind outcome_bind]). done.
Qed.

Lemma init_interior_run (f : bytes -> Z -> Z -> outcome bytes) ty page h rm :
  f = (fun page h right_most =>
    let page_size := zlen page in
    page ← zero_from page h;
    page ← set_byte page h (page_type_byte ty);
    page ← copy_into page (h + 1) (be_bytes 2 0);
    page ← copy_into page (h + 3) (be_bytes 2 0);
    page ← copy_into page (h + 5) (be_bytes 2 (ccs_of_size page_size));
    page ← set_byte page (h + 7) 0;
    copy_into page (h + 8) (be_bytes 4 right_most)) ->
  0 <= h -> h + 12 <= zlen page ->
  f page h rm = Ok (splice (h + 8) (be_bytes 4 rm)
                      (blank page h (page_type_byte ty) (ccs_of_size (zlen page)))).
Proof.
  intros -> Hh Hr. cbv beta zeta.
  assert (zlen (ztake h page ++ zrep (zlen page - h) 0) = zlen page) as L by len_lia.
  rewrite zero_from_in by lia. cbn [mbind outcome_bind]. unfold set_byte.
  rewrite copy_into_in by len_lia. cbn [mbind outcome_bind].
  repeat (rewrite copy_into_in by splen; cbn [mbind outcome_bind]). done.
Qed.

(** ** Properties *)

(** Each of the four initialisers makes the b-tree region of any buffer an
    empty page of its type with the whole region free, whatever the buffer
    held, and the interior ones store the right-most child. *)
Theorem page_init_empty (page : bytes) (h rm : Z)
    (Hb : bytes_ok page) (Hh : 0 <= h) (Hr : h + 12 <= zlen page <= 65536) (Hrm : is_u32 rm) :
  (exists p, init_empty_leaf page h = Ok p /\ page_rep p h LeafTable (zlen page) []) /\
  (exists p, init_empty_index_leaf page h = Ok p /\ page_rep p h LeafIndex (zlen page) []) /\
  (exists p, init_empty_interior page h rm = Ok p /\
     page_rep p h InteriorTable (zlen page) [] /\ be_u32 p (h + 8) = Ok rm) /\
  (exists p, init_empty_interior_index page h rm = Ok p /\
     page_rep p h InteriorIndex (zlen page) [] /\ be_u32 p (h + 8) = Ok rm).
Proof.
  assert (forall p, zlen p = zlen page -> be_at 4 (splice (h + 8) (be_bytes 4 rm) p) (h + 8) = Ok rm)
    as Hget.
  { intros p Hp. rewrite (be_at_splice_eq 4) by lia. unfold is_u32 in Hrm.
    by rewrite Z.mod_small by (simpl; lia). }
  split_and!.
  - rewrite (init_run init_empty_leaf LeafTable) by (done || lia). eexists. split; [done|].
    apply (blank_rep _ _ LeafTable); [done..|cbv [hdr_size is_leaf]; lia|lia].
  - rewrite (init_run init_empty_index_leaf LeafIndex) by (done || lia). eexists. split; [done|].
    apply (blank_rep _ _ LeafIndex); [done..|cbv [hdr_size is_leaf]; lia|lia].
  - rewrite (init_interior_run init_empty_interior InteriorTable) by (done || lia).
    eexists. split; [done|]. split.
    + apply splice_right_most_rep; [|done].
      apply (blank_rep _ _ InteriorTable); [done..|cbv [hdr_size is_leaf]; lia|lia].
    + apply Hget, blank_len; lia.
  - rewrite (init_interior_run init_empty_interior_index InteriorIndex) by (done || lia).
    eexists. split; [done|]. split.
    + apply splice_right_most_rep; [|done].
      apply (blank_rep _ _ InteriorIndex); [done..|cbv [hdr_size is_leaf]; lia|lia].
    + apply Hget, blank_len; lia.
Qed.

(** A concrete page: 64 bytes, no database header. *)
Definition sample_page : bytes :=
  match init_empty_leaf (zrep 64 0xff) 0 with Ok p => p | _ => [] end.
Lemma sample_page_rep : page_rep sample_page 0 LeafTable 64 [].
Proof.
  apply (blank_rep (zrep 64 0xff) 0 LeafTable); [|done..].
  apply bytes_ok_zrep. unfold byte_ok. lia.
Qed.

Lemma page_init_empty_witness :
  (exists p, init_empty_leaf (zrep 64 7) 0 = Ok p /\ page_rep p 0 LeafTable 64 []) /\
  (exists p, init_empty_index_leaf (zrep 64 7) 0 = Ok p /\ page_rep p 0 LeafIndex 64 []) /\
  (exists p, init_empty_interior (zrep 64 7) 0 5 = Ok p /\
     page_rep p 0 InteriorTable 64 [] /\ be_u32 p 8 = Ok 5) /\
  (exists p, init_empty_interior_index (zrep 64 7) 0 5 = Ok p /\
     page_rep p 0 InteriorIndex 64 [] /\ be_u32 p 8 = Ok 5).
Proof. apply (page_init_empty (zrep 64 7) 0 5); by_decide. Defined.

(** C22: Inserting a cell into a leaf page puts it at the given index of the
    key-ordered cells and keeps every other cell: read back through the header
    and the pointer array, cell [j] of the new page is cell [j] of the old
    cells with the new one inserted. It succeeds exactly when
    [leaf_free_space] has room for the cell and its 2-byte pointer, reports
    "page full" otherwise, and rejects an index past the cells. *)
Theorem insert_leaf_cell_spec (page : bytes) (h i : Z) (ty : PageType) (ccs : Z)
    (cells : list bytes) (cell : bytes)
    (R : page_rep page h ty ccs cells) (Hl : is_leaf ty = true) (Hi : 0 <= i)
    (Hc : 0 < zlen cell) (Hb : bytes_ok cell) :
  exists free, leaf_free_space page h = Ok free /\
  (zlen cells < i -> is_ok (insert_leaf_cell page h i cell) = false) /\
  (i <= zlen cells -> free < zlen cell + 2 ->
     insert_leaf_cell page h i cell = Err page_full_error) /\
  (i <= zlen cells -> zlen cell + 2 <= free ->
     exists page', insert_leaf_cell page h i cell = Ok page' /\ zlen page' = zlen page /\
       page_rep page' h ty (ccs - zlen cell) (zinsert i cell cells) /\
       leaf_free_space page' h = Ok (free - zlen cell - 2) /\
       forall j c, zget (zinsert i cell cells) j = Some c -> cell_at page' h j c).
Proof.
  pose proof (free_space_eq _ _ _ _ _ R) as Hf. rewrite Hl in Hf.
  assert (hdr_size ty = 8) as Hs by (unfold hdr_size; by rewrite Hl). rewrite Hs in *.
  pose proof (pr_base _ _ _ _ _ R). pose proof (pr_size _ _ _ _ _ R).
  pose proof (pr_room _ _ _ _ _ R) as [_ ?].
  eexists. split; [exact Hf|]. rewrite (insert_leaf_cell_eq _ _ _ _ _ _ _ R Hl).
  destruct (Z.gtb_spec i (zlen cells)); split_and!; try (intros; lia); try done.
  - intros _ Hfree. by destruct (Z.ltb_spec ccs (h + 8 + zlen cells * 2 + zlen cell + 2)); [|lia].
  - intros _ Hfree. destruct (Z.ltb_spec ccs (h + 8 + zlen cells * 2 + zlen cell + 2)); [lia|].
    rewrite insert_body_run by lia. eexists. split; [done|].
    assert (page_rep (inserted 8 page h i (zlen cells) ccs cell) h ty (ccs - zlen cell)
              (zinsert i cell cells)) as R'.
    { rewrite <- Hs. apply inserted_rep; (done || lia). }
    split_and!; [by apply zlen_inserted; lia|done| |].
    + pose proof (free_space_eq _ _ _ _ _ R') as Hf'. rewrite Hl, Hs, zlen_zinsert in Hf'.
      rewrite Hf'. f_equal. lia.
    + intros j c Hj. by eapply page_rep_cell_at.
Qed.

Lemma insert_leaf_cell_spec_witness :
  exists free, leaf_free_space sample_page 0 = Ok free /\
  (zlen (@nil bytes) < 0 -> is_ok (insert_leaf_cell sample_page 0 0 [1; 2; 3]) = false) /\
  (0 <= zlen (@nil bytes) -> free < 3 + 2 ->
     insert_leaf_cell sample_page 0 0 [1; 2; 3] = Err page_full_error) /\
  (0 <= zlen (@nil bytes) -> 3 + 2 <= free ->
     exists page', insert_leaf_cell sample_page 0 0 [1; 2; 3] = Ok page' /\
       zlen page' = zlen sample_page /\
       page_rep page' 0 LeafTable (64 - 3) (zinsert 0 [1; 2; 3] []) /\
       leaf_free_space page' 0 = Ok (free - 3 - 2) /\
       forall j c, zget (zinsert 0 [1; 2; 3] []) j = Some c -> cell_at page' 0 j c).
Proof.
  apply (insert_leaf_cell_spec sample_page 0 0 LeafTable 64 [] [1; 2; 3]);
    [exact sample_page_rep|done|lia|reflexivity|by_decide].
Defined.

(** The same for interior pages, whose header is four bytes longer: the
    cell lands at its index, the other cells and the right-most child pointer
    are kept, and the page is full exactly when [interior_free_space] says so. *)
Theorem insert_interior_cell_spec (page : bytes) (h i : Z) (ty : PageType) (ccs : Z)
    (cells : list bytes) (cell : bytes)
    (R : page_rep page h ty ccs cells) (Hl : is_leaf ty = false) (Hi : 0 <= i)
    (Hc : 0 < zlen cell) (Hb : bytes_ok cell) :
  exists free, interior_free_space page h = Ok free /\
  (zlen cells < i -> is_ok (insert_interior_cell page h i cell) = false) /\
  (i <= zlen cells -> free < zlen cell + 2 ->
     insert_interior_cell page h i cell = Err page_full_error) /\
  (i <= zlen cells -> zlen cell + 2 <= free ->
     exists page', insert_interior_cell page h i cell = Ok page' /\
       page_rep page' h ty (ccs - zlen cell) (zinsert i cell cells) /\
       interior_free_space page' h = Ok (free - zlen cell - 2) /\
       be_u32 page' (h + 8) = be_u32 page (h + 8) /\
       forall j c, zget (zinsert i cell cells) j = Some c -> cell_at page' h j c).
Proof.
  pose proof (free_space_eq _ _ _ _ _ R) as Hf. rewrite Hl in Hf.
  assert (hdr_size ty = 12) as Hs by (unfold hdr_size; by rewrite Hl). rewrite Hs in *.
  pose proof (pr_base _ _ _ _ _ R). pose proof (pr_size _ _ _ _ _ R).
  pose proof (pr_room _ _ _ _ _ R) as [_ ?].
  eexists. split; [exact Hf|]. rewrite (insert_interior_cell_eq _ _ _ _ _ _ _ R Hl).
  destruct (Z.gtb_spec i (zlen cells)); split_and!; try (intros; lia); try done.
  - intros _ Hfree. by destruct (Z.ltb_spec ccs (h + 12 + zlen cells * 2 + zlen cell + 2)); [|lia].
  - intros _ Hfree. destruct (Z.ltb_spec ccs (h + 12 + zlen cells * 2 + zlen cell + 2)); [lia|].
    rewrite insert_body_run by lia. eexists. split; [done|].
    assert (page_rep (inserted 12 page h i (zlen cells) ccs cell) h ty (ccs - zlen cell)
              (zinsert i cell cells)) as R'.
    { rewrite <- Hs. apply inserted_rep; (done || lia). }
    split_and!; [done| | |].
    + pose proof (free_space_eq _ _ _ _ _ R') as Hf'. rewrite Hl, Hs, zlen_zinsert in Hf'.
      rewrite Hf'. f_equal. lia.
    + unfold be_u32. rewrite !be_at_in by (rewrite ?zlen_inserted; lia). do 2 f_equal.
      rewrite inserted_slice by lia. rewrite zslice_splice_ne by lia. done.
    + intros j c Hj. by eapply page_rep_cell_at.
Qed.

Definition sample_interior : bytes :=
  match init_empty_interior (zrep 64 0xff) 0 9 with Ok p => p | _ => [] end.
Lemma sample_interior_rep : page_rep sample_interior 0 InteriorTable 64 [].
Proof.
  apply (splice_right_most_rep (blank (zrep 64 0xff) 0 0x05 64) 0 InteriorTable 64 [] 9); [|done].
  apply (blank_rep (zrep 64 0xff) 0 InteriorTable); [|done..].
  apply bytes_ok_zrep. unfold byte_ok. lia.
Qed.

Lemma insert_interior_cell_spec_witness :
  exists free, interior_free_space sample_interior 0 = Ok free /\
  (zlen (@nil bytes) < 0 -> is_ok (insert_interior_cell sample_interior 0 0 [1; 2; 3]) = false) /\
  (0 <= zlen (@nil bytes) -> free < 3 + 2 ->
     insert_interior_cell sample_interior 0 0 [1; 2; 3] = Err page_full_error) /\
  (0 <= zlen (@nil bytes) -> 3 + 2 <= free ->
     exists page', insert_interior_cell sample_interior 0 0 [1; 2; 3] = Ok page' /\
       page_rep page' 0 InteriorTable (64 - 3) (zinsert 0 [1; 2; 3] []) /\
       interior_free_space page' 0 = Ok (free - 3 - 2) /\
       be_u32 page' 8 = be_u32 sample_interior 8 /\
       forall j c, zget (zinsert 0 [1; 2; 3] []) j = Some c -> cell_at page' 0 j c).
Proof.
  apply (insert_interior_cell_spec sample_interior 0 0 InteriorTable 64 [] [1; 2; 3]);
    [exact sample_interior_rep|done|lia|reflexivity|by_decide].
Defined.

(** C23: [write_page_cells] (the split, merge and delete paths) turns any buffer
    into a page of the given type holding exactly the given cells in order,
    with the bytes before the b-tree header untouched and the right-most child
    stored. Cells that do not leave room for the pointer array give "page
    full"; cells longer than the page in total underflow an offset (a panic). *)
Theorem write_page_cells_spec (page : bytes) (h : Z) (ty : PageType) (rm : option Z)
    (pairs : list (Z * bytes))
    (Hb : bytes_ok page) (Hh : 0 <= h) (Hr : h + hdr_size ty <= zlen page <= 65536)
    (Hne : Forall (fun c => 0 < zlen c) (snd <$> pairs)) (Hcb : Forall bytes_ok (snd <$> pairs))
    (Hrm : rm_ok ty rm) :
  let cells := snd <$> pairs in
  let need := h + hdr_size ty + 2 * zlen cells + total_len cells in
  (need <= zlen page ->
     exists page', write_page_cells page h ty rm pairs = Ok page' /\
       page_rep page' h ty (zlen page - total_len cells) cells /\
       zslice 0 h page' = zslice 0 h page /\
       (forall r, rm = Some r -> be_u32 page' (h + 8) = Ok r) /\
       (forall j c, zget cells j = Some c -> cell_at page' h j c)) /\
  (zlen page < need -> total_len cells <= zlen page ->
     write_page_cells page h ty rm pairs = Err page_full_error) /\
  (zlen page < total_len cells -> write_page_cells page h ty rm pairs = Panic).
Proof.
  intros cells need. pose proof (hdr_size_ge ty). pose proof (zlen_nonneg pairs).
  assert (zlen cells = zlen pairs) as Hl by apply zlen_fmap.
  split_and!.
  - intros Hn. destruct (write_page_cells_run page h ty rm pairs)
      as (page' & Hrun & Hlen & R & Hpre & Hget); [(done || lia)..|unfold need, cells in *; lia|].
    exists page'. split_and!; [done..|]. intros j c Hj. by eapply page_rep_cell_at.
  - intros Hn Ht. rewrite write_page_cells_full by (unfold need, cells in *; lia).
    fold cells. by destruct (Z.ltb_spec (zlen page) (total_len cells)); [lia|].
  - intros Ht. rewrite write_page_cells_full by (unfold need, cells in *; lia).
    fold cells. by destruct (Z.ltb_spec (zlen page) (total_len cells)); [|lia].
Qed.

Lemma write_page_cells_spec_witness :
  let pairs := [(0, [1; 2; 3]); (1, [4; 5])] in
  let cells := snd <$> pairs in
  let need := 0 + hdr_size LeafTable + 2 * zlen cells + total_len cells in
  (need <= 64 ->
     exists page', write_page_cells (zrep 64 9) 0 LeafTable None pairs = Ok page' /\
       page_rep page' 0 LeafTable (64 - total_len cells) cells /\
       zslice 0 0 page' = zslice 0 0 (zrep 64 9) /\
       (forall r, None = Some r -> be_u32 page' 8 = Ok r) /\
       (forall j c, zget cells j = Some c -> cell_at page' 0 j c)) /\
  (64 < need -> total_len cells <= 64 ->
     write_page_cells (zrep 64 9) 0 LeafTable None pairs = Err page_full_error) /\
  (64 < total_len cells -> write_page_cells (zrep 64 9) 0 LeafTable None pairs = Panic).
Proof.
  intros pairs. apply (write_page_cells_spec (zrep 64 9) 0 LeafTable None pairs);
    by_decide || reflexivity.
Defined.
