(* ===== verification/Ptrmap.v ===== *)
(** * Pointer-map geometry

    The pure half of [btree/ptrmap.rs]: entry types and their codes, which pages
    are pointer-map or pending-byte pages, and where the entry of a page lies.
    The readers and writers of entries are in [Pager]. *)

From S2P Require Import Prelude.

Definition PTRMAP_ENTRY_SIZE : Z := 5.

Inductive PtrMapType := RootPage | FreePage | Overflow1 | Overflow2 | Btree.
#[export] Instance PtrMapType_eq_dec : EqDecision PtrMapType.
Proof. solve_decision. Defined.

Definition ptr_code (t : PtrMapType) : Z :=
  match t with RootPage => 1 | FreePage => 2 | Overflow1 => 3 | Overflow2 => 4 | Btree => 5 end.
Definition ptr_from_code (c : Z) : outcome PtrMapType :=
  match c with
  | 1 => Ok RootPage | 2 => Ok FreePage | 3 => Ok Overflow1 | 4 => Ok Overflow2 | 5 => Ok Btree
  | _ => Err (Error_corrupt ("invalid ptrmap type " +:+ pretty c))
  end.

Definition PENDING_BYTE : Z := 0x40000000.
(** The argument is not used: the page size is taken to be 4096. *)
Definition pending_byte_page (_page_size : Z) : Z := u32 (PENDING_BYTE / 4096 + 1).
Definition is_pending_byte_page (_usable_size pgno : Z) : bool := pgno =? pending_byte_page 0.

Definition pages_per_map_page (usable_size : Z) : Z := u32 usable_size / PTRMAP_ENTRY_SIZE + 1.

Definition ptrmap_pageno (usable_size pgno : Z) : Z :=
  if pgno <? 2 then 0
  else
    let npp := pages_per_map_page usable_size in
    let i := u32 ((pgno - 2) / npp) in
    let ret := u32 (i * npp) + 2 in
    if ret =? pending_byte_page 0 then ret + 1 else ret.

Definition is_ptrmap_page (usable_size pgno : Z) : bool :=
  if 2 <=? pgno then ptrmap_pageno usable_size pgno =? pgno else false.
Definition is_reserved_page (usable_size pgno : Z) : bool :=
  if is_ptrmap_page usable_size pgno then true else is_pending_byte_page usable_size pgno.

(** [u32] arithmetic: a page at or below its map page underflows. *)
Definition ptrmap_offset (ptrmap_pgno pgno : Z) : outcome Z :=
  d ← chk_sub pgno ptrmap_pgno; d ← chk_sub d 1;
  if PTRMAP_ENTRY_SIZE * d <? 2 ^ 32 then Ok (PTRMAP_ENTRY_SIZE * d) else Panic.

(** ** Lemmas *)

Lemma ptr_code_range t : 1 <= ptr_code t <= 5.
Proof. destruct t; simpl; lia. Qed.
Lemma ptr_from_code_code t : ptr_from_code (ptr_code t) = Ok t.
Proof. by destruct t. Qed.

(** The arithmetic without the casts: a [usable_size] of at least 480 puts at
    least 97 pages behind every map page. *)
Lemma ptrmap_pageno_eq us pgno :
  480 <= us <= 65536 -> is_u32 pgno -> 2 <= pgno ->
  let npp := us / 5 + 1 in
  let start := (pgno - 2) / npp * npp + 2 in
  ptrmap_pageno us pgno = (if start =? 262145 then start + 1 else start) /\
  97 <= npp /\ start <= pgno < start + npp.
Proof.
  intros Hus Hp H2 npp start. unfold is_u32 in Hp.
  assert (97 <= npp) as Hnpp by (apply Z.le_trans with (480 / 5 + 1);
    [done|]; unfold npp; apply Z.add_le_mono_r, Z.div_le_mono; lia).
  assert (0 <= (pgno - 2) / npp) as Hq by (apply Z.div_pos; lia).
  pose proof (Z.div_mod (pgno - 2) npp ltac:(lia)) as Hdm.
  pose proof (Z.mod_pos_bound (pgno - 2) npp ltac:(lia)) as Hm.
  assert (start <= pgno < start + npp) as Hs by (unfold start; nia).
  split; [|done].
  unfold ptrmap_pageno. destruct (Z.ltb_spec pgno 2); [lia|].
  assert (pages_per_map_page us = npp) as ->.
  { unfold pages_per_map_page, u32, PTRMAP_ENTRY_SIZE. by rewrite Z.mod_small by lia. }
  assert (u32 ((pgno - 2) / npp) = (pgno - 2) / npp) as ->.
  { unfold u32. apply Z.mod_small. split; [lia|].
    apply Z.le_lt_trans with (pgno - 2); [|lia]. nia. }
  assert (u32 ((pgno - 2) / npp * npp) = (pgno - 2) / npp * npp) as ->.
  { unfold u32. apply Z.mod_small. unfold start in Hs. lia. }
  done.
Qed.

(** A page and its map page fall in the same group. *)
Lemma group_eq a b npp : 0 < npp -> a / npp * npp <= b < a / npp * npp + npp -> b / npp = a / npp.
Proof. intros Hn Hb. symmetry. apply Z.div_unique with (b - a / npp * npp); nia. Qed.

Lemma ptrmap_spec us pgno :
  480 <= us <= 65536 -> is_u32 pgno -> 2 <= pgno -> is_reserved_page us pgno = false ->
  let pm := ptrmap_pageno us pgno in
  2 <= pm < pgno /\ pm <> 262145 /\ is_ptrmap_page us pm = true /\
  ptrmap_offset pm pgno = Ok (5 * (pgno - pm - 1)) /\ 5 * (pgno - pm - 1) + 5 <= us.
Proof.
  intros Hus Hp H2 Hres pm. unfold is_reserved_page, is_ptrmap_page, is_pending_byte_page in Hres.
  destruct (Z.leb_spec 2 pgno); [|lia].
  change (pending_byte_page 0) with 262145 in Hres.
  destruct (Z.eqb_spec (ptrmap_pageno us pgno) pgno); [done|].
  destruct (Z.eqb_spec pgno 262145) as [|Hpb]; [done|]. fold pm in n.
  destruct (ptrmap_pageno_eq us pgno Hus Hp H2) as (Heq & Hnpp & Hs). fold pm in Heq.
  set (npp := us / 5 + 1) in *. set (q := (pgno - 2) / npp) in *.
  assert (0 <= q) as Hq by (apply Z.div_pos; lia).
  assert (5 * (us / 5) <= us) as H5 by (apply Z.mul_div_le; lia).
  assert (q * npp + 2 <= pm <= q * npp + 3 /\ pm <= pgno /\ pm <> 262145) as (Hpm & Hle & Hne)
    by (destruct (Z.eqb_spec (q * npp + 2) 262145); lia).
  assert (pm < pgno) as Hlt by lia.
  assert (q * npp >= 0) as Hqn by nia.
  split_and!; [lia|lia|done| | |].
  - unfold is_ptrmap_page. destruct (Z.leb_spec 2 pm); [|lia].
    apply Z.eqb_eq. destruct (ptrmap_pageno_eq us pm Hus) as (Heq' & _ & _);
      [unfold is_u32 in *; lia|lia|]. fold npp in Heq'. rewrite Heq'.
    rewrite (group_eq (pgno - 2)) by (fold q; lia). fold q. by rewrite Heq.
  - unfold ptrmap_offset, chk_sub. destruct (Z.ltb_spec pgno pm); [lia|]. cbn [mbind outcome_bind].
    destruct (Z.ltb_spec (pgno - pm) 1); [lia|]. cbn [mbind outcome_bind]. unfold PTRMAP_ENTRY_SIZE.
    destruct (Z.ltb_spec (5 * (pgno - pm - 1)) (2 ^ 32)); [done|]. unfold npp in *. lia.
  - unfold npp in *. lia.
Qed.

Lemma is_ptrmap_page_eq us a : 480 <= us <= 65536 -> is_u32 a -> is_ptrmap_page us a = true ->
  let start := (a - 2) / (us / 5 + 1) * (us / 5 + 1) + 2 in
  2 <= a /\ a = (if start =? 262145 then start + 1 else start).
Proof.
  intros Hus Ha. unfold is_ptrmap_page. destruct (Z.leb_spec 2 a); [|done]. intros Hp%Z.eqb_eq.
  destruct (ptrmap_pageno_eq us a Hus Ha) as (Heq & _); [done|]. cbv zeta in *. split; [done|].
  by rewrite Heq in Hp.
Qed.

(** Pointer-map pages are far apart. *)
Lemma ptrmap_pages_apart us a b : 480 <= us <= 65536 -> is_u32 a -> is_u32 b ->
  is_ptrmap_page us a = true -> is_ptrmap_page us b = true -> a < b -> a + 96 <= b.
Proof.
  intros Hus Ha Hb Pa Pb Hlt.
  destruct (is_ptrmap_page_eq us a Hus Ha Pa) as [Ha2 Hae].
  destruct (is_ptrmap_page_eq us b Hus Hb Pb) as [Hb2 Hbe].
  destruct (ptrmap_pageno_eq us a Hus Ha Ha2) as (_ & Hnpp & _).
  set (npp := us / 5 + 1) in *. set (qa := (a - 2) / npp) in *. set (qb := (b - 2) / npp) in *.
  assert (qa <= qb) as Hq by (apply Z.div_le_mono; lia).
  destruct (Z.eq_dec qa qb) as [Heq|Hne].
  { rewrite Heq in Hae. rewrite <- Hbe in Hae. lia. }
  assert ((qa + 1) * npp <= qb * npp) as Hm by (apply Z.mul_le_mono_nonneg_r; lia).
  destruct (Z.eqb_spec (qa * npp + 2) 262145), (Z.eqb_spec (qb * npp + 2) 262145); lia.
Qed.

(** Of three consecutive pages one can hold data. *)
Lemma three_pages_one_free us a : 480 <= us <= 65536 -> 0 <= a -> a + 2 < 2 ^ 32 ->
  is_reserved_page us a = true -> is_reserved_page us (a + 1) = true ->
  is_reserved_page us (a + 2) = false.
Proof.
  intros Hus Ha Hlt. unfold is_reserved_page, is_pending_byte_page.
  change (pending_byte_page 0) with 262145.
  destruct (is_ptrmap_page us a) eqn:P0, (is_ptrmap_page us (a + 1)) eqn:P1,
    (is_ptrmap_page us (a + 2)) eqn:P2; try done; intros H0 H1;
    repeat match goal with H : (_ =? _) = true |- _ => apply Z.eqb_eq in H end;
    try apply Z.eqb_neq; try lia; exfalso.
  all: pose proof (ptrmap_pages_apart us) as Hap; unfold is_u32 in *.
  all: first
    [ specialize (Hap a (a + 1) Hus ltac:(lia) ltac:(lia) P0 P1 ltac:(lia)); lia
    | specialize (Hap a (a + 2) Hus ltac:(lia) ltac:(lia) P0 P2 ltac:(lia)); lia
    | specialize (Hap (a + 1) (a + 2) Hus ltac:(lia) ltac:(lia) P1 P2 ltac:(lia)); lia ].
Qed.

(** ** Properties *)

(** C31: Every page that can hold data has its pointer-map entry on a
    pointer-map page before it, at an offset that is inside the usable part of
    that page; the entries of two different pages never overlap; and neither
    the map page nor the page itself is the pending-byte page. *)
Theorem ptrmap_entries_disjoint (us p1 p2 : Z)
    (Hus : 480 <= us <= 65536) (H1 : is_u32 p1) (H2 : is_u32 p2) (G1 : 2 <= p1) (G2 : 2 <= p2)
    (R1 : is_reserved_page us p1 = false) (R2 : is_reserved_page us p2 = false) (Hne : p1 <> p2) :
  exists o1 o2, ptrmap_offset (ptrmap_pageno us p1) p1 = Ok o1 /\
    ptrmap_offset (ptrmap_pageno us p2) p2 = Ok o2 /\
    is_ptrmap_page us (ptrmap_pageno us p1) = true /\
    is_pending_byte_page us (ptrmap_pageno us p1) = false /\
    ptrmap_pageno us p1 < p1 /\
    0 <= o1 /\ o1 + PTRMAP_ENTRY_SIZE <= us /\
    (ptrmap_pageno us p1 = ptrmap_pageno us p2 ->
       o1 + PTRMAP_ENTRY_SIZE <= o2 \/ o2 + PTRMAP_ENTRY_SIZE <= o1).
Proof.
  destruct (ptrmap_spec us p1 Hus H1 G1 R1) as (Hr1 & Hn1 & Hm1 & Ho1 & Hb1).
  destruct (ptrmap_spec us p2 Hus H2 G2 R2) as (Hr2 & Hn2 & Hm2 & Ho2 & Hb2).
  do 2 eexists. split; [exact Ho1|]. split; [exact Ho2|]. unfold PTRMAP_ENTRY_SIZE.
  split_and!; try (done || lia). unfold is_pending_byte_page. by apply Z.eqb_neq.
Qed.

Lemma ptrmap_entries_disjoint_witness :
  exists o1 o2, ptrmap_offset (ptrmap_pageno 4096 3) 3 = Ok o1 /\
    ptrmap_offset (ptrmap_pageno 4096 262147) 262147 = Ok o2 /\
    is_ptrmap_page 4096 (ptrmap_pageno 4096 3) = true /\
    is_pending_byte_page 4096 (ptrmap_pageno 4096 3) = false /\
    ptrmap_pageno 4096 3 < 3 /\
    0 <= o1 /\ o1 + PTRMAP_ENTRY_SIZE <= 4096 /\
    (ptrmap_pageno 4096 3 = ptrmap_pageno 4096 262147 ->
       o1 + PTRMAP_ENTRY_SIZE <= o2 \/ o2 + PTRMAP_ENTRY_SIZE <= o1).
Proof. apply (ptrmap_entries_disjoint 4096 3 262147); (by_decide || reflexivity). Defined.
