(* ===== verification/Pager.v ===== *)
(** * The pager: page cache, allocation, freelist and pointer map

    [pager/mod.rs] (the parts used while a statement runs) and the readers and
    writers of pointer-map entries in [btree/ptrmap.rs], which the pager calls
    and which call the pager. Transactions are in [PagerTxn]. *)

From S2P Require Import Prelude Utf8 DbHeader Vfs Wal Journal Ptrmap.

(** ** State *)

Inductive JournalMode := JM_Delete | JM_Persist | JM_Off | JM_Truncate | JM_Memory | JM_Wal | JM_Query.
#[export] Instance JournalMode_eq_dec : EqDecision JournalMode.
Proof. solve_decision. Defined.

Definition jm_name (m : JournalMode) : bytes :=
  match m with
  | JM_Delete => bytes_of "delete" | JM_Persist => bytes_of "persist" | JM_Off => bytes_of "off"
  | JM_Truncate => bytes_of "truncate" | JM_Memory => bytes_of "memory" | JM_Wal => bytes_of "wal"
  | JM_Query => bytes_of "query"
  end.

(** The loop over [modes]: the first whose name equals, or is extended by, the
    argument, without regard to ASCII case. *)
Fixpoint jm_find (modes : list JournalMode) (name : bytes) : option JournalMode :=
  match modes with
  | [] => None
  | m :: rest =>
      let n := zlen name in
      if eq_ignore_ascii_case name (jm_name m) then Some m
      else if (if 1 <=? n then n <=? zlen (jm_name m) else false)
      then if eq_ignore_ascii_case (ztake n (jm_name m)) name then Some m else jm_find rest name
      else jm_find rest name
  end.
Definition jm_from_name (name : bytes) : option JournalMode :=
  jm_find [JM_Delete; JM_Persist; JM_Off; JM_Truncate; JM_Memory; JM_Wal] name.
Definition jm_is_rollback (m : JournalMode) : bool :=
  match m with JM_Wal | JM_Query => false | _ => true end.

Definition SQLITE_VERSION_NUMBER : Z := 3053001.

Record PagerSavepoint := mkSavepoint {
  sp_name : bytes; sp_n_orig : Z; sp_dirty : gmap Z bytes }.

(** The journal handle of a WAL-mode transaction is a placeholder that nothing
    reads: [None]. *)
Record WriteTxn (F : Type) := mkTxn {
  tx_journal : option F; tx_cksum_init : Z; tx_db_orig_size : Z; tx_nrec : Z; tx_journal_off : Z;
  tx_journaled : gset Z }.
Arguments mkTxn {F}. Arguments tx_journal {F}. Arguments tx_cksum_init {F}.
Arguments tx_db_orig_size {F}. Arguments tx_nrec {F}. Arguments tx_journal_off {F}.
Arguments tx_journaled {F}.

Record Pager (F : Type) := mkPager {
  pg_path : string; pg_file : F; pg_page_size : Z; pg_usable_size : Z;
  pg_header : DbHeader; pg_count : Z; pg_cache : gmap Z bytes; pg_dirty : gmap Z bytes;
  pg_txn : option (WriteTxn F); pg_savepoints : list PagerSavepoint; pg_wal : option (Wal F) }.
Arguments mkPager {F}. Arguments pg_path {F}. Arguments pg_file {F}. Arguments pg_page_size {F}.
Arguments pg_usable_size {F}. Arguments pg_header {F}. Arguments pg_count {F}.
Arguments pg_cache {F}. Arguments pg_dirty {F}. Arguments pg_txn {F}.
Arguments pg_savepoints {F}. Arguments pg_wal {F}.

(** [with_header_mut] applies one of these record updates. *)
Definition h_set_freelist (first count : Z) (h : DbHeader) : DbHeader :=
  mkDbHeader (page_size h) (write_version h) (read_version h) (reserved_space h)
    (file_change_counter h) (db_size_pages h) first count (schema_cookie h) (schema_format h)
    (default_cache_size h) (largest_root_page h) (text_encoding h) (user_version h)
    (incremental_vacuum h) (application_id h) (version_valid_for h) (sqlite_version_number h).
Definition h_set_vacuum (lrp incr : Z) (h : DbHeader) : DbHeader :=
  mkDbHeader (page_size h) (write_version h) (read_version h) (reserved_space h)
    (file_change_counter h) (db_size_pages h) (first_freelist_trunk h) (freelist_count h)
    (schema_cookie h) (schema_format h) (default_cache_size h) lrp (text_encoding h)
    (user_version h) incr (application_id h) (version_valid_for h) (sqlite_version_number h).
Definition h_set_versions (wv rv : Z) (h : DbHeader) : DbHeader :=
  mkDbHeader (page_size h) wv rv (reserved_space h)
    (file_change_counter h) (db_size_pages h) (first_freelist_trunk h) (freelist_count h)
    (schema_cookie h) (schema_format h) (default_cache_size h) (largest_root_page h)
    (text_encoding h) (user_version h) (incremental_vacuum h) (application_id h)
    (version_valid_for h) (sqlite_version_number h).
(** The stamp of a commit. *)
Definition h_commit (pages : Z) (h : DbHeader) : DbHeader :=
  let c := u32 (file_change_counter h + 1) in
  mkDbHeader (page_size h) (write_version h) (read_version h) (reserved_space h)
    c pages (first_freelist_trunk h) (freelist_count h)
    (schema_cookie h) (schema_format h) (default_cache_size h) (largest_root_page h)
    (text_encoding h) (user_version h) (incremental_vacuum h) (application_id h)
    c SQLITE_VERSION_NUMBER.

Section Pager.
Context {E F : Type} `{VfsOps E F}.

Definition PagerM (A : Type) : Type := M (Pager F * (Proc * E)) A.
Definition pio {A} (m : M E A) : PagerM A := on_snd (on_snd m).
Definition gets {A} (f : Pager F -> A) : PagerM A := on_fst (fun p => (Ok (f p), p)).
Definition upd (f : Pager F -> Pager F) : PagerM unit := on_fst (modify f).

Definition set_cache (c : gmap Z bytes) (p : Pager F) : Pager F :=
  mkPager (pg_path p) (pg_file p) (pg_page_size p) (pg_usable_size p) (pg_header p) (pg_count p)
    c (pg_dirty p) (pg_txn p) (pg_savepoints p) (pg_wal p).
Definition set_dirty (d : gmap Z bytes) (p : Pager F) : Pager F :=
  mkPager (pg_path p) (pg_file p) (pg_page_size p) (pg_usable_size p) (pg_header p) (pg_count p)
    (pg_cache p) d (pg_txn p) (pg_savepoints p) (pg_wal p).
Definition set_pg_header (h : DbHeader) (p : Pager F) : Pager F :=
  mkPager (pg_path p) (pg_file p) (pg_page_size p) (pg_usable_size p) h (pg_count p)
    (pg_cache p) (pg_dirty p) (pg_txn p) (pg_savepoints p) (pg_wal p).
Definition set_count (n : Z) (p : Pager F) : Pager F :=
  mkPager (pg_path p) (pg_file p) (pg_page_size p) (pg_usable_size p) (pg_header p) n
    (pg_cache p) (pg_dirty p) (pg_txn p) (pg_savepoints p) (pg_wal p).
Definition set_txn (t : option (WriteTxn F)) (p : Pager F) : Pager F :=
  mkPager (pg_path p) (pg_file p) (pg_page_size p) (pg_usable_size p) (pg_header p) (pg_count p)
    (pg_cache p) (pg_dirty p) t (pg_savepoints p) (pg_wal p).
Definition set_savepoints (l : list PagerSavepoint) (p : Pager F) : Pager F :=
  mkPager (pg_path p) (pg_file p) (pg_page_size p) (pg_usable_size p) (pg_header p) (pg_count p)
    (pg_cache p) (pg_dirty p) (pg_txn p) l (pg_wal p).
Definition set_wal (w : option (Wal F)) (p : Pager F) : Pager F :=
  mkPager (pg_path p) (pg_file p) (pg_page_size p) (pg_usable_size p) (pg_header p) (pg_count p)
    (pg_cache p) (pg_dirty p) (pg_txn p) (pg_savepoints p) w.

Definition with_header_mut (f : DbHeader -> DbHeader) : PagerM unit :=
  upd (fun p => set_pg_header (f (pg_header p)) p).

(** ** Page count and modes *)

Definition page_count_of (p : Pager F) : Z :=
  match pg_wal p with
  | Some w => if negb (mx_frame w =? 0) then Z.max (n_page w) (pg_count p) else pg_count p
  | None => pg_count p
  end.
Definition page_count : PagerM Z := gets page_count_of.
Definition auto_vacuum (p : Pager F) : bool := negb (largest_root_page (pg_header p) =? 0).
Definition incr_vacuum (p : Pager F) : bool := negb (incremental_vacuum (pg_header p) =? 0).
Definition btree_header_offset (pgno : Z) : Z := if pgno =? 1 then 100 else 0.
Definition in_write_txn (p : Pager F) : bool := if pg_txn p then true else false.

Definition set_auto_vacuum (mode : Z) : PagerM unit :=
  n ← page_count;
  if n >? 1
  then fail (Error_msg "cannot change auto_vacuum mode after the database has been written")
  else
    let av := negb (mode =? 0) in
    let incr := mode =? 2 in
    with_header_mut (h_set_vacuum (if av then 1 else 0) (if incr then 1 else 0)).

(** ** Reading pages *)

Definition overlay (p : Pager F) (pgno : Z) : option bytes :=
  match pg_dirty p !! pgno with Some page => Some page | None => pg_cache p !! pgno end.

(** The re-check of the overlay after a read, then the insertion into the clean
    cache. *)
Definition install (pgno : Z) (page : bytes) : PagerM bytes :=
  p ← gets id;
  match overlay p pgno with
  | Some q => mret q
  | None => upd (fun p => set_cache (<[pgno := page]> (pg_cache p)) p) ;; mret page
  end.

Definition get_page (pgno : Z) : PagerM bytes :=
  p ← gets id;
  let effective_count := page_count_of p in
  if (if pgno =? 0 then true else pgno >? effective_count)
  then fail (Error_corrupt ("page " +:+ pretty pgno +:+ " out of range (page count " +:+
                            pretty effective_count +:+ ")"))
  else match overlay p pgno with
  | Some page => mret page
  | None =>
      '(i_frame, file, offset) ←
        (match pg_wal p with
         | Some w =>
             i_frame ← lift (find_frame w pgno);
             if i_frame =? 0 then mret (0, None, 0)
             else offset ← lift (frame_data_offset w i_frame); mret (i_frame, wal_file w, offset)
         | None => mret (0, None, 0)
         end);
      if negb (i_frame =? 0)
      then
        file ← lift (expect file);
        b ← pio (read_at file offset (pg_page_size p));
        install pgno (b ++ zrep (pg_page_size p - zlen b) 0)
      else
        b ← pio (read_at (pg_file p) ((pgno - 1) * pg_page_size p) (pg_page_size p));
        if zlen b <? pg_page_size p
        then fail (Error_corrupt ("short read for page " +:+ pretty pgno +:+ ": got " +:+
               pretty (zlen b) +:+ " of " +:+ pretty (pg_page_size p) +:+ " bytes"))
        else install pgno b
  end.

(** ** Writing pages *)

(** The transaction with one more journal record reserved. *)
Definition reserve_record (pgno page_size : Z) (t : WriteTxn F) : WriteTxn F :=
  mkTxn (tx_journal t) (tx_cksum_init t) (tx_db_orig_size t) (tx_nrec t + 1)
    (tx_journal_off t + record_len page_size) ({[pgno]} ∪ tx_journaled t).

Definition journal_page (pgno : Z) (preimage : bytes) : PagerM unit :=
  p ← gets id;
  if pg_wal p then mret tt
  else match pg_txn p with
  | None => mret tt
  | Some t =>
      if (if pgno >? tx_db_orig_size t then true else bool_decide (pgno ∈ tx_journaled t))
      then mret tt
      else
        upd (set_txn (Some (reserve_record pgno (pg_page_size p) t))) ;;
        journal ← lift (expect (tx_journal t));
        pio (write_at journal (tx_journal_off t) (build_record pgno preimage (tx_cksum_init t)))
  end.

Definition read_page_for_write (pgno : Z) : PagerM bytes :=
  page ← get_page pgno;
  journal_page pgno page ;;
  mret page.

Definition insert_dirty (pgno : Z) (data : bytes) : PagerM unit :=
  upd (fun p => set_dirty (<[pgno := data]> (pg_dirty p)) p).

Definition write_page (pgno : Z) (data : bytes) : PagerM unit :=
  p ← gets id;
  if negb (zlen data =? pg_page_size p)
  then fail (Error_corrupt ("write_page: page " +:+ pretty pgno +:+ " is " +:+ pretty (zlen data) +:+
         " bytes, expected " +:+ pretty (pg_page_size p)))
  else insert_dirty pgno data.

(** ** Pointer-map entries *)

Definition ptrmap_get (pgno : Z) : PagerM (PtrMapType * Z) :=
  usable ← gets pg_usable_size;
  let pm := ptrmap_pageno usable pgno in
  if pm =? 0 then fail (Error_corrupt ("ptrmap_get: page " +:+ pretty pgno +:+ " has no ptrmap"))
  else
    page ← get_page pm;
    off ← lift (ptrmap_offset pm pgno);
    if off + PTRMAP_ENTRY_SIZE >? usable
    then fail (Error_corrupt ("ptrmap_get: offset " +:+ pretty off +:+ " out of range"))
    else
      t ← lift (idx page off);
      parent ← lift (be_at 4 page (off + 1));
      ty ← lift (ptr_from_code t);
      mret (ty, parent).

(** Whether [ptrmap_put] has to write: [Err] of the read means yes. *)
Definition entry_differs (usable pm pgno : Z) (ty : PtrMapType) (parent : Z) (page : bytes)
    : outcome bool :=
  off ← ptrmap_offset pm pgno;
  if off + PTRMAP_ENTRY_SIZE >? usable
  then Err (Error_corrupt ("ptrmap_put: offset " +:+ pretty off +:+ " out of range"))
  else
    t ← idx page off;
    if negb (t =? ptr_code ty) then Ok true
    else q ← be_at 4 page (off + 1); Ok (negb (q =? parent)).

Definition try_get_page (pgno : Z) : PagerM (option bytes) :=
  or_else (page ← get_page pgno; mret (Some page)) None.

Definition ptrmap_put (pgno : Z) (ty : PtrMapType) (parent : Z) : PagerM unit :=
  usable ← gets pg_usable_size;
  let pm := ptrmap_pageno usable pgno in
  if pm =? 0 then fail (Error_corrupt ("ptrmap_put: page " +:+ pretty pgno +:+ " has no ptrmap"))
  else
    r ← try_get_page pm;
    needs_write ← (match r with
                   | Some page => lift (entry_differs usable pm pgno ty parent page)
                   | None => mret true
                   end);
    if negb needs_write then mret tt
    else
      page ← read_page_for_write pm;
      off ← lift (ptrmap_offset pm pgno);
      page ← lift (copy_into page off [ptr_code ty]);
      page ← lift (copy_into page (off + 1) (be_bytes 4 parent));
      write_page pm page.

(** The synchronous variant is a placeholder that records nothing. *)
Definition ptrmap_put_sync (_pgno : Z) (_ty : PtrMapType) (_parent : Z) : PagerM unit := mret tt.

Definition init_ptrmap_page (pgno : Z) : PagerM unit :=
  page ← read_page_for_write pgno;
  usable ← gets pg_usable_size;
  s ← lift (sub_range page 0 usable);
  write_page pgno (zrep (zlen s) 0 ++ zdrop usable page).

(** ** Allocation and the freelist *)

Definition zero_page (p : Pager F) : bytes := zrep (pg_page_size p) 0.

Definition allocate_from_freelist (first_trunk : Z) : PagerM Z :=
  p ← gets id;
  trunk_page ← or_else (get_page first_trunk) (zero_page p);
  k ← lift (be_at 4 trunk_page 4);
  '(allocated, new_first, new_count) ←
    (if k =? 0
     then
       next_trunk ← lift (be_at 4 trunk_page 0);
       h ← gets pg_header;
       c ← lift (chk_sub (freelist_count h) 1);
       mret (first_trunk, next_trunk, c)
     else
       leaf ← lift (be_at 4 trunk_page (4 + k * 4));
       new_trunk ← lift (copy_into trunk_page 4 (be_bytes 4 (k - 1)));
       unwrap (write_page first_trunk new_trunk) ;;
       h ← gets pg_header;
       c ← lift (chk_sub (freelist_count h) 1);
       mret (leaf, first_trunk, c));
  (if allocated =? first_trunk
   then with_header_mut (h_set_freelist new_first new_count)
   else with_header_mut (fun h => h_set_freelist (first_freelist_trunk h) new_count h)) ;;
  insert_dirty allocated (zero_page p) ;;
  mret allocated.

(** The [loop] of [allocate_page]: reserved pages are zeroed and skipped. Two
    consecutive reserved pages are followed by an ordinary one, so the loop
    ends in at most three rounds ([three_pages_one_free] of [Ptrmap]). *)
Fixpoint allocate_loop (fuel : nat) : PagerM Z :=
  match fuel with
  | O => lift Panic
  | S fuel' =>
      p ← gets id;
      pgno ← lift (chk_add32 (pg_count p) 1);
      upd (set_count pgno) ;;
      insert_dirty pgno (zero_page p) ;;
      if is_pending_byte_page (pg_usable_size p) pgno then allocate_loop fuel'
      else if auto_vacuum p
      then if is_ptrmap_page (pg_usable_size p) pgno then allocate_loop fuel' else mret pgno
      else mret pgno
  end.

Definition allocate_page : PagerM Z :=
  p ← gets id;
  let h := pg_header p in
  if (if freelist_count h >? 0 then negb (first_freelist_trunk h =? 0) else false)
  then allocate_from_freelist (first_freelist_trunk h)
  else allocate_loop 3.

Definition free_page (pgno : Z) : PagerM unit :=
  preimage ← get_page pgno;
  journal_page pgno preimage ;;
  h ← gets pg_header;
  buf ← lift (copy_into preimage 0 (be_bytes 4 (first_freelist_trunk h)));
  tail ← lift (sub_from buf 4);
  write_page pgno (ztake 4 buf ++ zrep (zlen tail) 0) ;;
  with_header_mut (fun h => h_set_freelist pgno (u32 (freelist_count h + 1)) h) ;;
  p ← gets id;
  if auto_vacuum p then ptrmap_put pgno FreePage 0 else mret tt.

Definition truncate_image (n_fin : Z) : PagerM unit :=
  upd (fun p =>
    set_count n_fin
      (set_dirty (filter (fun kv => fst kv <= n_fin) (pg_dirty p))
        (set_cache (filter (fun kv => fst kv <= n_fin) (pg_cache p)) p))).

End Pager.
