(* ===== verification/Cell.v ===== *)
(** * B-tree cells

    [btree/cell.rs], with the payload reader of [btree/cursor.rs] and the cell
    sizes of [btree/delete.rs] and [btree/autovac.rs]: how much of a payload is
    stored on the page, the parsers and builders of the four cell types, and
    the overflow chains that hold the rest. *)

From S2P Require Import Prelude Varint Vfs Wal Ptrmap BtreePage Pager.

(** ** Local payload *)

(** [usize] arithmetic; the subtractions underflow on absurd usable sizes. *)
Definition local_payload_len (payload usable max_local : Z) : outcome (Z * bool) :=
  if payload <=? max_local then Ok (payload, false)
  else
    u12 ← chk_sub usable 12;
    min_local ← chk_sub (u12 * 32 / 255) 23;
    u4 ← chk_sub usable 4;
    d ← chk_sub payload min_local;
    let surplus := min_local + d mod u4 in
    Ok (if surplus <=? max_local then surplus else min_local, true).

Definition table_leaf_max_local (usable : Z) : outcome Z := chk_sub usable 35.
Definition index_max_local (usable : Z) : outcome Z :=
  u12 ← chk_sub usable 12; chk_sub (u12 * 64 / 255) 23.

(** ** Parsing *)

Record TableLeafCell := mkTableLeafCell {
  tl_payload_size : Z; tl_rowid : Z; tl_local : bytes; tl_overflow : option Z }.
Record TableInteriorCell := mkTableInteriorCell { ti_left_child : Z; ti_rowid : Z }.
Record IndexLeafCell := mkIndexLeafCell {
  il_payload_size : Z; il_local : bytes; il_overflow : option Z }.
Record IndexInteriorCell := mkIndexInteriorCell {
  ii_left_child : Z; ii_payload_size : Z; ii_local : bytes; ii_overflow : option Z }.

(** [page.get(start..start + len).ok_or_else(..)]. *)
Definition slice (page : bytes) (start len : Z) : outcome bytes :=
  match sub_range page start (start + len) with
  | Ok s => Ok s
  | _ => Err (Error_corrupt "cell extends past end of page")
  end.
(** [page.get(i..).ok_or_else(|| corrupt(m))]. *)
Definition tail_or (page : bytes) (i : Z) (m : string) : outcome bytes :=
  ok_or (get_from page i) (Error_corrupt m).

(** The local payload at [content] and the overflow pointer after it. *)
Definition read_local (page : bytes) (content local_len : Z) (has_overflow : bool)
    : outcome (bytes * option Z) :=
  local_payload ← slice page content local_len;
  overflow ← (if has_overflow
              then s ← slice page (content + local_len) 4; v ← be_uint 4 s; Ok (Some v)
              else Ok None);
  Ok (local_payload, overflow).

Definition parse_table_leaf_cell (page : bytes) (offset usable : Z) : outcome TableLeafCell :=
  t ← tail_or page offset "cell offset";
  '(payload_size, n1) ← ok_or (read_varint t) (Error_corrupt "table leaf payload-size varint");
  t ← sub_from page (offset + n1);
  '(rowid, n2) ← ok_or (read_varint_i64 t) (Error_corrupt "table leaf rowid varint");
  let content := offset + n1 + n2 in
  max_local ← table_leaf_max_local usable;
  '(local_len, has_overflow) ← local_payload_len payload_size usable max_local;
  '(local_payload, overflow) ← read_local page content local_len has_overflow;
  Ok (mkTableLeafCell payload_size rowid local_payload overflow).

Definition table_leaf_cell_rowid (page : bytes) (offset : Z) : outcome Z :=
  t ← tail_or page offset "cell offset";
  '(_, n1) ← ok_or (read_varint t) (Error_corrupt "table leaf payload-size varint");
  t ← sub_from page (offset + n1);
  '(rowid, _) ← ok_or (read_varint_i64 t) (Error_corrupt "table leaf rowid varint");
  Ok rowid.

Definition build_table_interior_cell (left_child rowid : Z) : bytes :=
  be_bytes 4 left_child ++ varint_bytes (u64 rowid).

Definition parse_table_interior_cell (page : bytes) (offset : Z) : outcome TableInteriorCell :=
  s ← slice page offset 4;
  left_child ← be_uint 4 s;
  t ← sub_from page (offset + 4);
  '(rowid, _) ← ok_or (read_varint_i64 t) (Error_corrupt "table interior rowid varint");
  Ok (mkTableInteriorCell left_child rowid).

Definition parse_index_leaf_cell (page : bytes) (offset usable : Z) : outcome IndexLeafCell :=
  t ← tail_or page offset "cell offset";
  '(payload_size, n1) ← ok_or (read_varint t) (Error_corrupt "index leaf payload-size varint");
  let content := offset + n1 in
  max_local ← index_max_local usable;
  '(local_len, has_overflow) ← local_payload_len payload_size usable max_local;
  '(local_payload, overflow) ← read_local page content local_len has_overflow;
  Ok (mkIndexLeafCell payload_size local_payload overflow).

Definition parse_index_interior_cell (page : bytes) (offset usable : Z) : outcome IndexInteriorCell :=
  s ← slice page offset 4;
  left_child ← be_uint 4 s;
  t ← sub_from page (offset + 4);
  '(payload_size, n1) ← ok_or (read_varint t) (Error_corrupt "index interior payload-size varint");
  let content := offset + 4 + n1 in
  max_local ← index_max_local usable;
  '(local_len, has_overflow) ← local_payload_len payload_size usable max_local;
  '(local_payload, overflow) ← read_local page content local_len has_overflow;
  Ok (mkIndexInteriorCell left_child payload_size local_payload overflow).

(** *** Sizes and overflow pointers of cells in place *)

(** [cell_on_page_size] of [delete.rs]. *)
Definition cell_on_page_size (page : bytes) (offset usable : Z) : outcome Z :=
  t ← tail_or page offset "cell offset";
  '(payload_size, n1) ← ok_or (read_varint t) (Error_corrupt "table leaf payload-size varint");
  t ← tail_or page (offset + n1) "rowid bytes";
  '(_, rowid_size) ← ok_or (read_varint_i64 t) (Error_corrupt "table leaf rowid varint");
  max_local ← chk_sub usable 35;
  '(local_len, has_overflow) ← local_payload_len payload_size usable max_local;
  let overflow := if (has_overflow : bool) then 4 else 0 in
  Ok (n1 + rowid_size + local_len + overflow).

(** [cell_overflow_page] of [autovac.rs]. *)
Definition cell_overflow_page (page : bytes) (off : Z) (ty : PageType) (usable : Z)
    : outcome (option Z) :=
  t ← tail_or page off "cell offset";
  '(payload_size, n1) ← ok_or (read_varint t) (Error_corrupt "cell payload-size varint");
  r ← (match ty with
       | LeafTable =>
           t ← tail_or page (off + n1) "rowid bytes";
           '(_, rowid_size) ← ok_or (read_varint_i64 t) (Error_corrupt "table leaf rowid varint");
           max_local ← chk_sub usable 35;
           '(ll, ho) ← local_payload_len payload_size usable max_local;
           Ok (Some (n1 + rowid_size, ll, ho))
       | LeafIndex =>
           max_local ← index_max_local usable;
           '(ll, ho) ← local_payload_len payload_size usable max_local;
           Ok (Some (n1, ll, ho))
       | _ => Ok None
       end);
  match r with
  | None => Ok None
  | Some (header_len, local_len, has_overflow) =>
      if negb has_overflow then Ok None
      else ptr ← be_at 4 page (off + header_len + local_len); Ok (Some ptr)
  end.

(** ** Building cells and overflow chains *)

Section Cells.
Context {E F : Type} `{VfsOps E F}.
Notation PM := (PagerM (E := E) (F := F)).

(** The [loop] that fills the chain: one page per [usable - 4] bytes of [tail].
    [put] is the pointer-map call of the table-leaf and index-leaf builders. *)
Fixpoint overflow_loop (fuel : nat) (tail : bytes) (chunk offset curr_pgno : Z)
    (put : Z -> Z -> PM unit) : PM unit :=
  match fuel with
  | O => lift Panic
  | S fuel' =>
      let take := Z.min (zlen tail - offset) chunk in
      let is_last := offset + take =? zlen tail in
      next_pgno ← (if is_last then mret 0 else allocate_page);
      page_size ← gets pg_page_size;
      let buf := zrep page_size 0 in
      buf ← lift (copy_into buf 0 (be_bytes 4 next_pgno));
      s ← lift (sub_range tail offset (offset + take));
      buf ← lift (copy_into buf 4 s);
      unwrap (write_page curr_pgno buf) ;;
      (if is_last then mret tt
       else put next_pgno curr_pgno ;; overflow_loop fuel' tail chunk (offset + take) next_pgno put)
  end.

(** The pointer-map call for an overflow page. *)
Definition record_ptr (record_ptrmap autovac : bool) (pgno : Z) (ty : PtrMapType)
    (parent : option Z) : PM unit :=
  if record_ptrmap
  then if autovac
       then match parent with Some h => ptrmap_put_sync pgno ty h | None => mret tt end
       else mret tt
  else mret tt.

(** Spill [tail] to a fresh chain; the first page's number. *)
Definition spill (tail : bytes) (usable : Z) (host_pgno : option Z) (record_ptrmap : bool) : PM Z :=
  chunk ← lift (chk_sub usable 4);
  first_pgno ← allocate_page;
  autovac ← gets auto_vacuum;
  record_ptr record_ptrmap autovac first_pgno Overflow1 host_pgno ;;
  overflow_loop (Z.to_nat (zlen tail / chunk + 1)) tail chunk 0 first_pgno
    (fun next curr => record_ptr record_ptrmap autovac next Overflow2 (Some curr)) ;;
  mret first_pgno.

(** The part shared by the three builders: the cell head, the local part of the
    payload, and the pointer to the chain if there is one. *)
Definition finish_cell (head payload : bytes) (usable local_len : Z) (has_overflow : bool)
    (host_pgno : option Z) (record_ptrmap : bool) : PM bytes :=
  local ← lift (sub_range payload 0 local_len);
  let cell := head ++ local in
  if has_overflow
  then
    tail ← lift (sub_from payload local_len);
    first_pgno ← spill tail usable host_pgno record_ptrmap;
    mret (cell ++ be_bytes 4 first_pgno)
  else mret cell.

Definition build_table_leaf_cell_with_host (rowid : Z) (payload : bytes) (usable : Z)
    (host_pgno : option Z) : PM bytes :=
  max_local ← lift (chk_sub usable 35);
  '(local_len, has_overflow) ← lift (local_payload_len (zlen payload) usable max_local);
  finish_cell (varint_bytes (zlen payload) ++ varint_bytes (u64 rowid)) payload usable local_len
    has_overflow host_pgno true.
Definition build_table_leaf_cell (rowid : Z) (payload : bytes) (usable : Z) :=
  build_table_leaf_cell_with_host rowid payload usable None.

Definition build_index_leaf_cell_with_host (key_record : bytes) (usable : Z)
    (host_pgno : option Z) : PM bytes :=
  max_local ← lift (index_max_local usable);
  '(local_len, has_overflow) ← lift (local_payload_len (zlen key_record) usable max_local);
  finish_cell (varint_bytes (zlen key_record)) key_record usable local_len has_overflow
    host_pgno true.
Definition build_index_leaf_cell (key_record : bytes) (usable : Z) :=
  build_index_leaf_cell_with_host key_record usable None.

Definition build_index_interior_cell (left_child : Z) (key_record : bytes) (usable : Z)
    : PM bytes :=
  max_local ← lift (index_max_local usable);
  '(local_len, has_overflow) ← lift (local_payload_len (zlen key_record) usable max_local);
  finish_cell (be_bytes 4 left_child ++ varint_bytes (zlen key_record)) key_record usable local_len
    has_overflow None false.

(** ** Reassembling a payload *)

(** The [while payload.len() < total] loop; every round adds a byte or more, and
    all but the last a full page of them. *)
Fixpoint assemble_loop (fuel : nat) (total : Z) (payload : bytes) (next : option Z)
    : PM bytes :=
  match fuel with
  | O => lift Panic
  | S fuel' =>
      if zlen payload <? total
      then
        match next with
        | Some pgno =>
            if pgno =? 0 then mret payload
            else
              page ← get_page pgno;
              next_pgno ← lift (be_at 4 page 0);
              usable ← gets pg_usable_size;
              u4 ← lift (chk_sub usable 4);
              let want := Z.min (total - zlen payload) u4 in
              if 4 + want >? zlen page
              then fail (Error_corrupt "overflow page shorter than expected")
              else
                s ← lift (sub_range page 4 (4 + want));
                assemble_loop fuel' total (payload ++ s)
                  (if next_pgno =? 0 then None else Some next_pgno)
        | None => mret payload
        end
      else mret payload
  end.

(** The body of [assemble_payload], [assemble_index_payload] and
    [assemble_index_interior_payload]: the three differ in the cell type only.
    [Vec::with_capacity] panics beyond [isize::MAX]. *)
Definition assemble (total : Z) (local : bytes) (overflow : option Z)
    : PM bytes :=
  if total >=? 2 ^ 63 then lift Panic
  else
    usable ← gets pg_usable_size;
    payload ← assemble_loop (S (Z.to_nat (total / (usable - 4) + 1))) total local overflow;
    if zlen payload <? total then fail (Error_corrupt "payload shorter than declared size")
    else mret (ztake total payload).

Definition assemble_payload (cell : TableLeafCell) : PM bytes :=
  assemble (tl_payload_size cell) (tl_local cell) (tl_overflow cell).
Definition assemble_index_payload (cell : IndexLeafCell) : PM bytes :=
  assemble (il_payload_size cell) (il_local cell) (il_overflow cell).
Definition assemble_index_interior_payload (cell : IndexInteriorCell)
    : PM bytes :=
  assemble (ii_payload_size cell) (ii_local cell) (ii_overflow cell).

End Cells.
