(* ===== verification/Balance.v ===== *)
(** * B-tree balancing ([btree/balance.rs])

    Splitting leaves and interior pages, promoting a root, installing dividers,
    and merging or redistributing sibling leaves after a delete. *)

From S2P Require Import Prelude Varint Vfs Wal Ptrmap BtreePage Pager Cell.
#[local] Open Scope Z_scope.

(** ** Cells in place *)

(** [page.get(offset..).ok_or_else(..)] then [read_varint]. *)
Definition read_payload_size (page : bytes) (offset : Z) : outcome (Z * Z) :=
  t ← tail_or page offset "cell offset";
  ok_or (read_varint t) (Error_corrupt "table leaf payload-size varint").

Definition cell_total_size (page : bytes) (offset payload_size_bytes usable : Z) : outcome Z :=
  '(payload_size, _) ← read_payload_size page offset;
  t ← tail_or page (offset + payload_size_bytes) "rowid bytes";
  '(_, rowid_size) ← ok_or (read_varint_i64 t) (Error_corrupt "table leaf rowid varint");
  max_local ← chk_sub usable 35;
  '(local_payload_size, _) ← local_payload_len payload_size usable max_local;
  let overflow := if local_payload_size <? payload_size then 4 else 0 in
  Ok (payload_size_bytes + rowid_size + local_payload_size + overflow).

Definition max_rowid_of_cell (cell : bytes) : outcome Z :=
  match table_leaf_cell_rowid cell 0 with
  | Err _ =>
      '(_, n1) ← ok_or (read_varint cell) (Error_corrupt "payload varint");
      t ← sub_from cell n1;
      '(rowid, _) ← ok_or (read_varint_i64 t) (Error_corrupt "rowid varint");
      Ok rowid
  | r => r
  end.

Definition index_leaf_cell_on_page_size (page : bytes) (offset usable : Z) : outcome Z :=
  t ← tail_or page offset "cell offset";
  '(payload_size, n1) ← ok_or (read_varint t) (Error_corrupt "index leaf payload-size varint");
  max_local ← index_max_local usable;
  '(local_len, has_overflow) ← local_payload_len payload_size usable max_local;
  Ok (n1 + local_len + if (has_overflow : bool) then 4 else 0).

Definition index_interior_cell_on_page_size (page : bytes) (offset usable : Z) : outcome Z :=
  t ← sub_from page (offset + 4);
  '(payload_size, n1) ← ok_or (read_varint t) (Error_corrupt "index interior payload-size varint");
  max_local ← index_max_local usable;
  '(local_len, has_overflow) ← local_payload_len payload_size usable max_local;
  Ok (n1 + 4 + local_len + if (has_overflow : bool) then 4 else 0).

Definition table_interior_cell_on_page_size (page : bytes) (offset : Z) : outcome Z :=
  t ← sub_from page (offset + 4);
  '(_, rowid_size) ← ok_or (read_varint_i64 t) (Error_corrupt "table interior rowid varint");
  Ok (4 + rowid_size).

(** The key of an index cell, without the part in an overflow chain. *)
Definition index_key_from_leaf_cell (cell : bytes) (usable : Z) : outcome bytes :=
  '(payload_size, n1) ← ok_or (read_varint cell)
      (Error_corrupt "index leaf payload-size varint in divider key");
  max_local ← index_max_local usable;
  '(local_len, has_overflow) ← local_payload_len payload_size usable max_local;
  let key_len := if (has_overflow : bool) then local_len else payload_size in
  sub_range cell n1 (n1 + key_len).

Definition index_key_from_interior_cell (cell : bytes) (usable : Z) : outcome bytes :=
  t ← sub_from cell 4;
  '(payload_size, n1) ← ok_or (read_varint t)
      (Error_corrupt "index interior payload-size varint in divider key");
  let n1 := n1 + 4 in
  max_local ← index_max_local usable;
  '(local_len, has_overflow) ← local_payload_len payload_size usable max_local;
  let key_len := if (has_overflow : bool) then local_len else payload_size in
  sub_range cell n1 (n1 + key_len).

(** The loop [for i in 0..num_cells] that copies every cell of a page out of
    it; [size off] is the footprint of the cell at [off]. *)
Definition cells_of (page : bytes) (hdr : PageHeader) (size : Z -> outcome Z) : outcome (list bytes) :=
  mapM (fun i =>
    off ← cell_pointer hdr page i;
    n ← size off;
    sub_range page off (off + n)) (seqZ 0 (num_cells hdr)).

(** The footprint of a table-leaf cell. *)
Definition leaf_cell_size (page : bytes) (usable off : Z) : outcome Z :=
  '(_, n1) ← read_payload_size page off;
  cell_total_size page off n1 usable.

Definition read_table_leaf_cells (page : bytes) (base usable : Z) : outcome (list bytes) :=
  hdr ← parse page base;
  if negb (bool_decide (page_type hdr = LeafTable))
  then Err (Error_corrupt "read_table_leaf_cells: not a table leaf")
  else cells_of page hdr (leaf_cell_size page usable).

(** ** Choosing a split point *)

(** The loop that looks for the first cell, not the very first, that would take
    the left half past [target] bytes; [n] is its result when there is none. *)
Fixpoint split_loop (target i left_size n : Z) (cells : list bytes) : Z :=
  match cells with
  | [] => n
  | c :: rest =>
      let projected := left_size + zlen c + 2 in
      if (if projected >? target then i >? 0 else false) then i
      else split_loop target (i + 1) projected n rest
  end.
Definition split_point (usable : Z) (cells : list bytes) : Z :=
  split_loop (usable / 2) 0 0 (zlen cells) cells.

(** [.iter().enumerate().map(|(i, c)| (i as u16, c.clone()))]. *)
Definition enumerate_u16 (cells : list bytes) : list (Z * bytes) :=
  imap (fun i c => (u16 (Z.of_nat i), c)) cells.

(** [while k < n - 1 { .. }] of [redistribute_table_cells]. *)
Fixpoint fill_left (usable k left_layout : Z) (cells : list bytes) : Z :=
  match cells with
  | c :: ((_ :: _) as rest) =>
      let next_layout := left_layout + zlen c + 2 in
      if next_layout >? usable then k else fill_left usable (k + 1) next_layout rest
  | _ => k
  end.
Definition redistribute_table_cells (usable : Z) (left_cells right_cells : list bytes)
    : outcome (list bytes * list bytes) :=
  let combined := left_cells ++ right_cells in
  if zlen combined <? 2
  then Err (Error_corrupt "redistribute_table_cells: need at least two cells")
  else
    let k := fill_left usable 0 8 combined in
    let k := if k =? 0 then 1 else k in
    Ok (ztake k combined, zdrop k combined).

Definition table_cells_layout_size (cells : list bytes) : Z :=
  8 + zlen cells * 2 + total_len cells.

Definition max_rowid_of_cells (cells : list bytes) : outcome Z :=
  match last cells with Some c => max_rowid_of_cell c | None => Ok 0 end.

(** ** Finding a child *)

Fixpoint find_child_loop (ixs : list Z) (page : bytes) (hdr : PageHeader) (target : Z)
    (child : Z -> outcome Z) : outcome Z :=
  match ixs with
  | [] => Err (Error_corrupt ("child page " +:+ pretty target +:+ " not found among " +:+
                 pretty (num_cells hdr) +:+ " interior cells"))
  | i :: ixs =>
      off ← cell_pointer hdr page i;
      c ← child off;
      if c =? target then Ok i else find_child_loop ixs page hdr target child
  end.
Definition find_child_cell_index (page : bytes) (hdr : PageHeader) (target : Z) : outcome Z :=
  match page_type hdr with
  | InteriorTable =>
      find_child_loop (seqZ 0 (num_cells hdr)) page hdr target
        (fun off => cell ← parse_table_interior_cell page off; Ok (ti_left_child cell))
  | InteriorIndex =>
      find_child_loop (seqZ 0 (num_cells hdr)) page hdr target (fun off => be_u32 page off)
  | _ => Err (Error_corrupt "find_child_cell_index: page is not an interior page")
  end.

(** The interior-table cells of a parent, read as [left_child] and [rowid] and
    encoded again; [None] is the [?] on an [Option]. *)
Fixpoint reencode_loop (ixs : list Z) (page : bytes) (hdr : PageHeader) : outcome (option (list bytes)) :=
  match ixs with
  | [] => Ok (Some [])
  | i :: ixs =>
      match cell_pointer hdr page i with
      | Err _ => Ok None
      | Panic => Panic
      | Ok off =>
          left ← be_u32 page off;
          t ← sub_from page (off + 4);
          match read_varint_i64 t with
          | None => Ok None
          | Some (rowid, _) =>
              r ← reencode_loop ixs page hdr;
              Ok (option_map (cons (be_bytes 4 left ++ varint_bytes (u64 rowid))) r)
          end
      end
  end.

(** ** On the pager *)

Section Balance.
Context {E F : Type} `{VfsOps E F}.
Notation PM := (PagerM (E := E) (F := F)).

Definition header_of (page : bytes) (pgno : Z) : outcome PageHeader := parse page (btree_header_offset pgno).

(** A fresh buffer filled by [write_page_cells] and written to [pgno]. *)
Definition write_fresh (pgno : Z) (ty : PageType) (right_most : option Z) (cells : list bytes) : PM unit :=
  page_size ← gets pg_page_size;
  buf ← lift (write_page_cells (zrep page_size 0) (btree_header_offset pgno) ty right_most
                (enumerate_u16 cells));
  write_page pgno buf.

(** [if pager.auto_vacuum() { ptrmap_put(..) }]. *)
Definition put_if_autovac (pgno parent : Z) : PM unit :=
  p ← gets id;
  if auto_vacuum p then ptrmap_put pgno Btree parent else mret tt.

(** The divider of [split_leaf]. *)
Definition install_leaf_divider (parent_pgno leaf_pgno new_pgno divider_rowid : Z) : PM unit :=
  let pbase := btree_header_offset parent_pgno in
  pbuf ← read_page_for_write parent_pgno;
  phdr ← lift (parse pbuf pbase);
  if negb (bool_decide (page_type phdr = InteriorTable))
  then fail (Error_corrupt "split_leaf: declared parent is not an interior table page")
  else
    let is_rightmost := bool_decide (right_most_pointer phdr = Some leaf_pgno) in
    insert_idx ← lift (if is_rightmost then Ok (num_cells phdr)
                       else i ← find_child_cell_index pbuf phdr leaf_pgno; Ok (i + 1));
    pbuf ← (if is_rightmost
            then
              let cell := build_table_interior_cell leaf_pgno divider_rowid in
              pbuf ← lift (insert_interior_cell pbuf pbase insert_idx cell);
              lift (copy_into pbuf (pbase + 8) (be_bytes 4 new_pgno))
            else
              let cell := build_table_interior_cell new_pgno divider_rowid in
              lift (insert_interior_cell pbuf pbase insert_idx cell));
    write_page parent_pgno pbuf ;;
    put_if_autovac new_pgno parent_pgno.

Definition split_leaf (leaf_pgno : Z) (parent_root : option Z) : PM Z :=
  usable ← gets pg_usable_size;
  leaf_buf ← read_page_for_write leaf_pgno;
  hdr ← lift (header_of leaf_buf leaf_pgno);
  if negb (bool_decide (page_type hdr = LeafTable))
  then fail (Error_corrupt "split_leaf called on a non-leaf page")
  else
    cells ← lift (cells_of leaf_buf hdr (leaf_cell_size leaf_buf usable));
    let split_at := split_point usable cells in
    new_pgno ← allocate_page;
    write_fresh new_pgno LeafTable None (zdrop split_at cells) ;;
    write_fresh leaf_pgno LeafTable None (ztake split_at cells) ;;
    k ← lift (chk_sub split_at 1);
    last ← lift (idx cells k);
    divider_rowid ← lift (max_rowid_of_cell last);
    match parent_root with
    | Some parent_pgno => install_leaf_divider parent_pgno leaf_pgno new_pgno divider_rowid
    | None => mret tt
    end ;;
    mret new_pgno.

Definition promote_root_and_split (root_pgno : Z) : PM unit :=
  usable ← gets pg_usable_size;
  leaf_buf ← read_page_for_write root_pgno;
  hdr ← lift (header_of leaf_buf root_pgno);
  if negb (bool_decide (page_type hdr = LeafTable))
  then fail (Error_corrupt "promote_root_and_split: root is not a leaf")
  else if num_cells hdr =? 0
  then fail (Error_corrupt "promote_root_and_split called on an empty leaf")
  else
    cells ← lift (cells_of leaf_buf hdr (leaf_cell_size leaf_buf usable));
    let split_at := split_point usable cells in
    left_pgno ← allocate_page;
    write_fresh left_pgno LeafTable None (ztake split_at cells) ;;
    right_pgno ← allocate_page;
    write_fresh right_pgno LeafTable None (zdrop split_at cells) ;;
    k ← lift (chk_sub split_at 1);
    last ← lift (idx cells k);
    divider_rowid ← lift (max_rowid_of_cell last);
    write_fresh root_pgno InteriorTable (Some right_pgno)
      [build_table_interior_cell left_pgno divider_rowid] ;;
    p ← gets id;
    if auto_vacuum p
    then ptrmap_put left_pgno Btree root_pgno ;; ptrmap_put right_pgno Btree root_pgno
    else mret tt.

Definition update_children_ptrmap_to_new_parent (new_parent_pgno : Z) (cells : list bytes)
    (right_most : option Z) : PM unit :=
  mfor cells (fun cell =>
    child ← lift (be_u32 cell 0);
    ptrmap_put child Btree new_parent_pgno) ;;
  match right_most with
  | Some rm => ptrmap_put rm Btree new_parent_pgno
  | None => mret tt
  end.

Definition install_table_divider (parent_pgno old_child new_child divider_rowid : Z) : PM unit :=
  let pbase := btree_header_offset parent_pgno in
  pbuf ← read_page_for_write parent_pgno;
  phdr ← lift (parse pbuf pbase);
  if negb (bool_decide (page_type phdr = InteriorTable))
  then fail (Error_corrupt "install_table_divider: declared parent is not an interior-table page")
  else
    pbuf ← (if bool_decide (right_most_pointer phdr = Some old_child)
            then
              let cell := build_table_interior_cell old_child divider_rowid in
              pbuf ← lift (insert_interior_cell pbuf pbase (num_cells phdr) cell);
              lift (copy_into pbuf (pbase + 8) (be_bytes 4 new_child))
            else
              child_idx ← lift (find_child_cell_index pbuf phdr old_child);
              r ← lift (reencode_loop (seqZ 0 (num_cells phdr)) pbuf phdr);
              cells ← lift (ok_or r (Error_corrupt "install_table_divider: bad parent cell"));
              old ← lift (idx cells child_idx);
              old_rowid ← lift (max_rowid_of_cell old);
              let new_cells := ztake child_idx cells ++
                [build_table_interior_cell old_child divider_rowid;
                 build_table_interior_cell new_child old_rowid] ++ zdrop (child_idx + 1) cells in
              lift (write_page_cells pbuf pbase InteriorTable (right_most_pointer phdr)
                      (enumerate_u16 new_cells)));
    write_page parent_pgno pbuf.

Definition split_table_interior_page (interior_pgno : Z) (parent_root : option Z) : PM Z :=
  usable ← gets pg_usable_size;
  buf ← read_page_for_write interior_pgno;
  hdr ← lift (header_of buf interior_pgno);
  if negb (bool_decide (page_type hdr = InteriorTable))
  then fail (Error_corrupt "split_table_interior_page called on a non-table-interior page")
  else
    let right_most := right_most_pointer hdr in
    cells ← lift (cells_of buf hdr (table_interior_cell_on_page_size buf));
    let split_at := split_point usable cells in
    if split_at >=? zlen cells
    then fail (Error_corrupt "split_table_interior_page: cannot find a split point")
    else
      k ← lift (chk_sub split_at 1);
      last ← lift (idx cells k);
      divider_rowid ← lift (max_rowid_of_cell last);
      left_right_most ← lift (be_u32 last 0);
      new_pgno ← allocate_page;
      match parent_root with
      | Some parent_pgno => install_table_divider parent_pgno interior_pgno new_pgno divider_rowid
      | None => mret tt
      end ;;
      write_fresh new_pgno InteriorTable right_most (zdrop split_at cells) ;;
      write_fresh interior_pgno InteriorTable (Some left_right_most) (ztake split_at cells) ;;
      p ← gets id;
      (if auto_vacuum p
       then
         match parent_root with
         | Some parent_pgno => ptrmap_put new_pgno Btree parent_pgno
         | None => mret tt
         end ;;
         update_children_ptrmap_to_new_parent new_pgno (zdrop split_at cells) right_most
       else mret tt) ;;
      mret new_pgno.

(** *** Index pages *)

(** A parent's cell copied as it is, its payload-size varint read after the
    child pointer. *)
Definition copy_parent_cell (pbuf : bytes) (phdr : PageHeader) (usable i : Z) : outcome bytes :=
  off ← cell_pointer phdr pbuf i;
  t ← sub_from pbuf (off + 4);
  '(payload, vn) ← ok_or (read_varint t) (Error_corrupt "payload varint in parent cell");
  max_local ← index_max_local usable;
  '(ll, ho) ← local_payload_len payload usable max_local;
  sub_range pbuf off (off + (4 + vn + ll + if (ho : bool) then 4 else 0)).

Definition install_index_divider (parent_pgno old_child new_child : Z) (divider_key : bytes) : PM unit :=
  usable ← gets pg_usable_size;
  let pbase := btree_header_offset parent_pgno in
  pbuf ← read_page_for_write parent_pgno;
  phdr ← lift (parse pbuf pbase);
  if negb (bool_decide (page_type phdr = InteriorIndex))
  then fail (Error_corrupt "install_index_divider: declared parent is not an interior-index page")
  else
    pbuf ← (if bool_decide (right_most_pointer phdr = Some old_child)
            then
              cell ← build_index_interior_cell old_child divider_key usable;
              pbuf ← lift (insert_interior_cell pbuf pbase (num_cells phdr) cell);
              lift (copy_into pbuf (pbase + 8) (be_bytes 4 new_child))
            else
              child_idx ← lift (find_child_cell_index pbuf phdr old_child);
              cell_off ← lift (cell_pointer phdr pbuf child_idx);
              old_cell ← lift (parse_index_interior_cell pbuf cell_off usable);
              old_key ← assemble_index_interior_payload old_cell;
              cell_old ← build_index_interior_cell old_child divider_key usable;
              cell_new ← build_index_interior_cell new_child old_key usable;
              before ← lift (mapM (copy_parent_cell pbuf phdr usable) (seqZ 0 child_idx));
              after ← lift (mapM (copy_parent_cell pbuf phdr usable)
                              (seqZ (child_idx + 1) (num_cells phdr - (child_idx + 1))));
              lift (write_page_cells pbuf pbase InteriorIndex (right_most_pointer phdr)
                      (enumerate_u16 (before ++ [cell_old; cell_new] ++ after))));
    write_page parent_pgno pbuf.

(** [_key_info] is not used. *)
Definition split_index_leaf (leaf_pgno : Z) (parent_root : option Z) : PM (Z * bytes) :=
  usable ← gets pg_usable_size;
  leaf_buf ← read_page_for_write leaf_pgno;
  hdr ← lift (header_of leaf_buf leaf_pgno);
  if negb (bool_decide (page_type hdr = LeafIndex))
  then fail (Error_corrupt "split_index_leaf called on a non-index-leaf page")
  else
    cells ← lift (cells_of leaf_buf hdr (fun off => index_leaf_cell_on_page_size leaf_buf off usable));
    let split_at := split_point usable cells in
    let split_at := if split_at >=? zlen cells then Z.max 0 (zlen cells - 1) else split_at in
    divider ← lift (idx cells split_at);
    divider_key ← lift (index_key_from_leaf_cell divider usable);
    new_pgno ← allocate_page;
    match parent_root with
    | Some parent_pgno => install_index_divider parent_pgno leaf_pgno new_pgno divider_key
    | None => mret tt
    end ;;
    write_fresh new_pgno LeafIndex None (zdrop (split_at + 1) cells) ;;
    write_fresh leaf_pgno LeafIndex None (ztake split_at cells) ;;
    p ← gets id;
    (if auto_vacuum p
     then match parent_root with
          | Some parent_pgno => ptrmap_put new_pgno Btree parent_pgno
          | None => mret tt
          end
     else mret tt) ;;
    mret (new_pgno, divider_key).

Definition split_index_interior_page (interior_pgno : Z) (parent_root : option Z) : PM (Z * bytes) :=
  usable ← gets pg_usable_size;
  buf ← read_page_for_write interior_pgno;
  hdr ← lift (header_of buf interior_pgno);
  if negb (bool_decide (page_type hdr = InteriorIndex))
  then fail (Error_corrupt "split_index_interior_page called on a non-index-interior page")
  else
    let right_most := right_most_pointer hdr in
    cells ← lift (cells_of buf hdr (fun off => index_interior_cell_on_page_size buf off usable));
    let split_at := split_point usable cells in
    if split_at >=? zlen cells
    then fail (Error_corrupt "split_index_interior_page: cannot find a split point")
    else
      divider ← lift (idx cells split_at);
      divider_key ← lift (index_key_from_interior_cell divider usable);
      left_right_most ← lift (be_u32 divider 0);
      let right_cells := zdrop (split_at + 1) cells in
      new_pgno ← allocate_page;
      match parent_root with
      | Some parent_pgno => install_index_divider parent_pgno interior_pgno new_pgno divider_key
      | None => mret tt
      end ;;
      write_fresh new_pgno InteriorIndex right_most right_cells ;;
      write_fresh interior_pgno InteriorIndex (Some left_right_most) (ztake split_at cells) ;;
      p ← gets id;
      (if auto_vacuum p
       then
         match parent_root with
         | Some parent_pgno => ptrmap_put new_pgno Btree parent_pgno
         | None => mret tt
         end ;;
         update_children_ptrmap_to_new_parent new_pgno right_cells right_most
       else mret tt) ;;
      mret (new_pgno, divider_key).

Definition page_type_debug (ty : PageType) : string :=
  match ty with
  | InteriorIndex => "InteriorIndex" | InteriorTable => "InteriorTable"
  | LeafIndex => "LeafIndex" | LeafTable => "LeafTable"
  end.

(** The promoted key, and the left child's right-most pointer. With
    [split_at == cells.len()] a leaf root indexes past its cells. *)
Definition index_divider (is_interior : bool) (cells : list bytes) (split_at usable : Z)
    (right_most : option Z) : outcome (bytes * option Z) :=
  if is_interior
  then
    if split_at <? zlen cells
    then
      c ← idx cells split_at;
      key ← index_key_from_interior_cell c usable;
      left_ptr ← be_u32 c 0;
      Ok (key, Some left_ptr)
    else Ok ([], right_most)
  else
    c ← idx cells split_at;
    key ← index_key_from_leaf_cell c usable;
    Ok (key, right_most).

Definition promote_index_root (root_pgno : Z) (child_type : PageType) : PM unit :=
  usable ← gets pg_usable_size;
  root_buf ← read_page_for_write root_pgno;
  hdr ← lift (header_of root_buf root_pgno);
  if negb (bool_decide (page_type hdr = child_type))
  then fail (Error_corrupt ("promote_index_root: root is not a " +:+ page_type_debug child_type +:+ " page"))
  else
    let is_interior := bool_decide (child_type = InteriorIndex) in
    if num_cells hdr =? 0
    then fail (Error_corrupt "promote_index_root called on an empty page")
    else
      cells ← lift (cells_of root_buf hdr (fun off =>
                if is_interior then index_interior_cell_on_page_size root_buf off usable
                else index_leaf_cell_on_page_size root_buf off usable));
      let split_at := split_point usable cells in
      let right_most := if is_interior then right_most_pointer hdr else None in
      '(divider_key, left_right_most) ← lift (index_divider is_interior cells split_at usable right_most);
      right_cells ← lift (sub_from cells (split_at + 1));
      left_pgno ← allocate_page;
      write_fresh left_pgno child_type (if is_interior then left_right_most else right_most)
        (ztake split_at cells) ;;
      right_pgno ← allocate_page;
      write_fresh right_pgno child_type right_most right_cells ;;
      cell ← build_index_interior_cell left_pgno divider_key usable;
      write_fresh root_pgno InteriorIndex (Some right_pgno) [cell].
Definition promote_index_root_and_split (root_pgno : Z) : PM unit := promote_index_root root_pgno LeafIndex.
Definition promote_index_root_interior (root_pgno : Z) : PM unit := promote_index_root root_pgno InteriorIndex.

(** *** Rebalancing after a delete *)

Record RebalanceOutcome := mkRebalance { rb_leaf_pgno : Z; rb_cell_idx_offset : Z }.

Definition write_table_leaf (pgno base : Z) (cells : list bytes) : PM unit :=
  buf ← read_page_for_write pgno;
  buf ← lift (write_page_cells buf base LeafTable None (enumerate_u16 cells));
  write_page pgno buf.

Definition collapse_root_into_child (root_pgno child_pgno : Z) : PM unit :=
  usable ← gets pg_usable_size;
  child_buf ← get_page child_pgno;
  cells ← lift (read_table_leaf_cells child_buf (btree_header_offset child_pgno) usable);
  write_table_leaf root_pgno (btree_header_offset root_pgno) cells ;;
  free_page child_pgno.

(** The cells of the parent but [skip], read and encoded again; the rowid of
    the cell [replace] is replaced. *)
Definition parent_cell (pbuf : bytes) (phdr : PageHeader) (replace : option (Z * Z)) (i : Z) : outcome bytes :=
  off ← cell_pointer phdr pbuf i;
  left_child ← be_u32 pbuf off;
  rowid ← (match replace with
           | Some (j, r) =>
               if i =? j then Ok r
               else t ← sub_from pbuf (off + 4);
                    '(r, _) ← ok_or (read_varint_i64 t) (Error_corrupt "parent rowid varint"); Ok r
           | None =>
               t ← sub_from pbuf (off + 4);
               '(r, _) ← ok_or (read_varint_i64 t) (Error_corrupt "parent rowid varint"); Ok r
           end);
  Ok (be_bytes 4 left_child ++ varint_bytes (u64 rowid)).

Definition rebuild_parent_without_divider (parent_pgno divider_idx : Z) (is_root_parent : bool) : PM unit :=
  let pbase := btree_header_offset parent_pgno in
  pbuf ← get_page parent_pgno;
  phdr ← lift (parse pbuf pbase);
  if negb (bool_decide (page_type phdr = InteriorTable))
  then fail (Error_corrupt "rebuild_parent_without_divider: not interior")
  else
    let n := num_cells phdr in
    if divider_idx >=? n then fail (Error_corrupt "rebuild_parent_without_divider: bad idx")
    else
      cells ← lift (mapM (parent_cell pbuf phdr None)
                      (seqZ 0 divider_idx ++ seqZ (divider_idx + 1) (n - (divider_idx + 1))));
      right_most ← lift (if divider_idx =? n - 1
                         then off ← cell_pointer phdr pbuf (n - 1); r ← be_u32 pbuf off; Ok (Some r)
                         else Ok (right_most_pointer phdr));
      new_parent ← read_page_for_write parent_pgno;
      new_parent ← lift (write_page_cells new_parent pbase InteriorTable right_most (enumerate_u16 cells));
      write_page parent_pgno new_parent ;;
      (if (if is_root_parent then zlen cells =? 0 else false)
       then match right_most with
            | Some child => collapse_root_into_child parent_pgno child
            | None => mret tt
            end
       else mret tt).

Definition rebuild_parent_with_divider (parent_pgno divider_idx new_rowid : Z) : PM unit :=
  let pbase := btree_header_offset parent_pgno in
  pbuf ← get_page parent_pgno;
  phdr ← lift (parse pbuf pbase);
  if negb (bool_decide (page_type phdr = InteriorTable))
  then fail (Error_corrupt "rebuild_parent_with_divider: not interior")
  else
    let n := num_cells phdr in
    if divider_idx >=? n then fail (Error_corrupt "rebuild_parent_with_divider: bad idx")
    else
      cells ← lift (mapM (parent_cell pbuf phdr (Some (divider_idx, new_rowid))) (seqZ 0 n));
      new_parent ← read_page_for_write parent_pgno;
      new_parent ← lift (write_page_cells new_parent pbase InteriorTable (right_most_pointer phdr)
                           (enumerate_u16 cells));
      write_page parent_pgno new_parent.

(** The child of the parent's cell [i]. *)
Definition child_of_cell (pbuf : bytes) (phdr : PageHeader) (i : Z) : outcome Z :=
  off ← cell_pointer phdr pbuf i;
  cell ← parse_table_interior_cell pbuf off;
  Ok (ti_left_child cell).

(** The layout of the two cell lists on one page, as the code adds it up. *)
Definition combined_layout (cells more : list bytes) : Z :=
  table_cells_layout_size cells + total_len more + zlen more * 2.

Definition merge_right (leaf_pgno right_pgno parent_pgno child_idx usable : Z) (is_root_parent : bool)
    (leaf_cells : list bytes) : PM (option RebalanceOutcome) :=
  let base := btree_header_offset leaf_pgno in
  let right_base := btree_header_offset right_pgno in
  right_buf ← get_page right_pgno;
  right_cells ← lift (read_table_leaf_cells right_buf right_base usable);
  if combined_layout leaf_cells right_cells + 8 <=? usable
  then
    write_table_leaf leaf_pgno base (leaf_cells ++ right_cells) ;;
    free_page right_pgno ;;
    rebuild_parent_without_divider parent_pgno child_idx is_root_parent ;;
    mret None
  else
    '(left_cells, right_cells) ← lift (redistribute_table_cells usable leaf_cells right_cells);
    divider_rowid ← lift (max_rowid_of_cells left_cells);
    write_table_leaf leaf_pgno base left_cells ;;
    write_table_leaf right_pgno right_base right_cells ;;
    rebuild_parent_with_divider parent_pgno child_idx divider_rowid ;;
    mret None.

Definition merge_left (leaf_pgno left_pgno parent_pgno child_idx usable : Z) (is_root_parent : bool)
    (leaf_cells : list bytes) : PM (option RebalanceOutcome) :=
  let base := btree_header_offset leaf_pgno in
  let left_base := btree_header_offset left_pgno in
  left_buf ← get_page left_pgno;
  left_cells ← lift (read_table_leaf_cells left_buf left_base usable);
  if combined_layout left_cells leaf_cells + 8 <=? usable
  then
    write_table_leaf left_pgno left_base (left_cells ++ leaf_cells) ;;
    free_page leaf_pgno ;;
    rebuild_parent_without_divider parent_pgno (child_idx - 1) is_root_parent ;;
    mret (Some (mkRebalance left_pgno (zlen left_cells)))
  else
    '(left_cells, right_cells) ← lift (redistribute_table_cells usable left_cells leaf_cells);
    divider_rowid ← lift (max_rowid_of_cells left_cells);
    write_table_leaf left_pgno left_base left_cells ;;
    write_table_leaf leaf_pgno base right_cells ;;
    rebuild_parent_with_divider parent_pgno (child_idx - 1) divider_rowid ;;
    mret None.

Definition rebalance_table_leaf_after_delete (leaf_pgno parent_pgno child_idx : Z) (is_root_parent : bool)
    : PM (option RebalanceOutcome) :=
  usable ← gets pg_usable_size;
  let base := btree_header_offset leaf_pgno in
  leaf_buf ← get_page leaf_pgno;
  hdr ← lift (parse leaf_buf base);
  if negb (bool_decide (page_type hdr = LeafTable))
  then fail (Error_corrupt "rebalance_table_leaf_after_delete: not a leaf-table page")
  else
    free_space ← lift (leaf_free_space leaf_buf base);
    if (if free_space * 3 <=? usable * 2 then true else num_cells hdr =? 0) then mret None
    else
      pbuf ← get_page parent_pgno;
      phdr ← lift (header_of pbuf parent_pgno);
      match page_type phdr with
      | LeafTable => mret None
      | InteriorTable =>
          let n := num_cells phdr in
          right_sibling ← lift (if child_idx <? n
                                then c ← child_of_cell pbuf phdr child_idx; Ok (Some c) else Ok None);
          left_sibling ← lift (if child_idx >? 0
                               then c ← child_of_cell pbuf phdr (child_idx - 1); Ok (Some c) else Ok None);
          leaf_cells ← lift (read_table_leaf_cells leaf_buf base usable);
          match right_sibling, left_sibling with
          | Some right_pgno, _ =>
              merge_right leaf_pgno right_pgno parent_pgno child_idx usable is_root_parent leaf_cells
          | None, Some left_pgno =>
              merge_left leaf_pgno left_pgno parent_pgno child_idx usable is_root_parent leaf_cells
          | None, None => mret None
          end
      | _ => fail (Error_corrupt "rebalance_table_leaf_after_delete: parent is not an interior table")
      end.

End Balance.
