(* ===== verification/BtreeInsert.v ===== *)
(** * Table b-tree insertion ([btree/insert.rs])

    Descent, insertion in a leaf, and what happens when the leaf is full; the
    creation of a b-tree ([btree/mod.rs]) and the largest rowid. *)

From S2P Require Import Prelude Varint DbHeader Vfs Wal Ptrmap BtreePage Pager Cell Balance.
From Stdlib Require String.
#[local] Open Scope Z_scope.

(** [e.message.contains("page is full")]. *)
Definition is_page_full (e : Error) : bool :=
  if String.index 0 "page is full" (message e) then true else false.

Fixpoint pick_child_loop (ixs : list Z) (page : bytes) (hdr : PageHeader) (rowid : Z) : outcome Z :=
  match ixs with
  | [] => ok_or (right_most_pointer hdr) (Error_corrupt "interior table page has no right pointer")
  | i :: ixs =>
      off ← cell_pointer hdr page i;
      cell ← parse_table_interior_cell page off;
      if rowid <=? ti_rowid cell then Ok (ti_left_child cell) else pick_child_loop ixs page hdr rowid
  end.
Definition pick_child (page : bytes) (hdr : PageHeader) (rowid : Z) : outcome Z :=
  pick_child_loop (seqZ 0 (num_cells hdr)) page hdr rowid.

Fixpoint leaf_insert_loop (ixs : list Z) (page : bytes) (hdr : PageHeader) (rowid : Z) : outcome Z :=
  match ixs with
  | [] => Ok (num_cells hdr)
  | i :: ixs =>
      off ← cell_pointer hdr page i;
      r ← table_leaf_cell_rowid page off;
      if rowid <=? r then Ok i else leaf_insert_loop ixs page hdr rowid
  end.
Definition leaf_insert_index (page : bytes) (hdr : PageHeader) (rowid : Z) : outcome Z :=
  leaf_insert_loop (seqZ 0 (num_cells hdr)) page hdr rowid.

Section Insert.
Context {E F : Type} `{VfsOps E F}.
Notation PM := (PagerM (E := E) (F := F)).

(** [match m { Err(e) if is_page_full(&e) => h, r => r }]. *)
Definition if_page_full {A} (m h : PM A) : PM A := fun s =>
  match m s with
  | (Err e, s') => if is_page_full e then h s' else (Err e, s')
  | r => r
  end.

Fixpoint target_loop (ixs : list Z) (buf : bytes) (hdr : PageHeader) (new_pgno pending_rowid : Z)
    : outcome (option Z) :=
  match ixs with
  | [] => Ok None
  | i :: ixs =>
      off ← cell_pointer hdr buf i;
      cell ← parse_table_interior_cell buf off;
      if ti_left_child cell =? new_pgno
      then Ok (Some (if pending_rowid >? ti_rowid cell then new_pgno else ti_left_child cell))
      else target_loop ixs buf hdr new_pgno pending_rowid
  end.

Definition target_after_split (parent_pgno new_pgno pending_rowid : Z) : PM Z :=
  buf ← get_page parent_pgno;
  hdr ← lift (header_of buf parent_pgno);
  if negb (bool_decide (page_type hdr = InteriorTable)) then mret new_pgno
  else
    r ← lift (target_loop (seqZ 0 (num_cells hdr)) buf hdr new_pgno pending_rowid);
    match r with
    | Some t => mret t
    | None =>
        if bool_decide (right_most_pointer hdr = Some new_pgno)
        then
          if num_cells hdr =? 0 then mret new_pgno
          else
            last_off ← lift (cell_pointer hdr buf (num_cells hdr - 1));
            last ← lift (parse_table_interior_cell buf last_off);
            mret (if pending_rowid >? ti_rowid last then new_pgno else ti_left_child last)
        else mret new_pgno
    end.

(** The ancestors are the [path] of the code, the immediate parent first.
    [grand] is [None] only in a recursive call whose own caller had no
    further ancestor: the [unwrap] of [grand_pgno] panics there. *)
Fixpoint split_table_parent (path : list Z) (parent_pgno : Z) (grand : option Z) : PM unit :=
  if_page_full (split_table_interior_page parent_pgno grand ;; mret tt)
    (match grand with
     | None => lift Panic
     | Some g =>
         match path with
         | next :: path => split_table_parent path g (Some next)
         | [] => if_page_full (split_table_interior_page g None ;; mret tt) (lift Panic)
         end
     end).

(** The child of a freshly promoted root that takes the pending row. *)
Definition promotion_target (root_pgno pending_rowid : Z) : PM Z :=
  buf ← get_page root_pgno;
  hdr ← lift (header_of buf root_pgno);
  if num_cells hdr =? 0
  then fail (Error_corrupt "insert_after_root_promotion: promoted root has no cells")
  else
    cell_off ← lift (cell_pointer hdr buf 0);
    interior ← lift (parse_table_interior_cell buf cell_off);
    lift (if pending_rowid <=? ti_rowid interior then Ok (ti_left_child interior)
          else ok_or (right_most_pointer hdr) (Error_corrupt "promoted root missing right-most child")).

(** [insert_with_splitting] and [insert_with_splitting_autovac], which differ in
    when the cell is built ([cell_for] the leaf); [balance_leaf] and
    [insert_after_root_promotion] call the former with the cell they have. The
    recursion has no bound of its own: see [table_insert]. *)
Fixpoint insert_with_splitting (fuel : nat) (pgno rowid : Z) (cell_for : Z -> PM bytes) (path : list Z)
    : PM unit :=
  match fuel with
  | O => lift Panic
  | S fuel' =>
      buf ← get_page pgno;
      hdr ← lift (header_of buf pgno);
      match page_type hdr with
      | LeafTable =>
          cell ← cell_for pgno;
          i ← lift (leaf_insert_index buf hdr rowid);
          leaf ← read_page_for_write pgno;
          match insert_leaf_cell leaf (btree_header_offset pgno) i cell with
          | Ok leaf => write_page pgno leaf
          | Panic => lift Panic
          | Err e =>
              if is_page_full e
              then
                (* balance_leaf *)
                let again pgno := insert_with_splitting fuel' pgno rowid (fun _ => mret cell) [] in
                match path with
                | [] =>
                    promote_root_and_split pgno ;;
                    t ← promotion_target pgno rowid; again t
                | parent_pgno :: path =>
                    r ← if_page_full (new ← split_leaf pgno (Some parent_pgno); mret (Some new))
                          (match path with
                           | grand :: path =>
                               split_table_parent path parent_pgno (Some grand) ;; again pgno ;; mret None
                           | [] =>
                               promote_root_and_split parent_pgno ;;
                               t ← promotion_target parent_pgno rowid; again t ;; mret None
                           end);
                    match r with
                    | None => mret tt
                    | Some new_pgno =>
                        t ← target_after_split parent_pgno new_pgno rowid; again t
                    end
                end
              else fail e
          end
      | InteriorTable =>
          child ← lift (pick_child buf hdr rowid);
          insert_with_splitting fuel' child rowid cell_for (pgno :: path)
      | _ => fail (Error_corrupt "table_insert: not a table b-tree page")
      end
  end.

(** The cell is built before the descent, or, with auto-vacuum on, at the leaf.
    [fuel] bounds the depth of the recursion: the levels of the tree, and the
    splits that follow. *)
Definition table_insert (fuel : nat) (root rowid : Z) (payload : bytes) : PM unit :=
  usable ← gets pg_usable_size;
  p ← gets id;
  if auto_vacuum p
  then
    insert_with_splitting fuel root rowid
      (fun pgno => build_table_leaf_cell_with_host rowid payload usable (Some pgno)) []
  else
    cell ← build_table_leaf_cell rowid payload usable;
    insert_with_splitting fuel root rowid (fun _ => mret cell) [].

(** The [loop] down the right-most children; one round per level. *)
Fixpoint max_rowid (fuel : nat) (pgno : Z) : PM Z :=
  match fuel with
  | O => lift Panic
  | S fuel' =>
      page ← get_page pgno;
      hdr ← lift (header_of page pgno);
      match page_type hdr with
      | LeafTable =>
          if num_cells hdr =? 0 then mret 0
          else
            off ← lift (cell_pointer hdr page (num_cells hdr - 1));
            lift (table_leaf_cell_rowid page off)
      | InteriorTable =>
          child ← lift (ok_or (right_most_pointer hdr)
                          (Error_corrupt "interior table page has no right pointer"));
          max_rowid fuel' child
      | _ => fail (Error_corrupt "max_rowid: not a table b-tree page")
      end
  end.

(** ** Creating b-trees *)

(** [while is_ptrmap_page(..) || is_pending_byte_page(..) { pgno_root += 1; }]:
    at most two reserved pages follow one another. *)
Fixpoint skip_reserved (fuel : nat) (usable pgno : Z) : outcome Z :=
  match fuel with
  | O => Panic
  | S fuel' =>
      if (if is_ptrmap_page usable pgno then true else is_pending_byte_page usable pgno)
      then pgno ← chk_add32 pgno 1; skip_reserved fuel' usable pgno
      else Ok pgno
  end.
Definition next_autovac_root_slot : PM Z :=
  p ← gets id;
  slot ← lift (chk_add32 (largest_root_page (pg_header p)) 1);
  slot ← lift (skip_reserved 3 (pg_usable_size p) slot);
  mret (if slot <? 3 then 3 else slot).

(** [h.largest_root_page = pgno]. *)
Definition h_set_largest_root (pgno : Z) (h : DbHeader) : DbHeader :=
  h_set_vacuum pgno (incremental_vacuum h) h.

Definition create_table_btree_plain : PM Z :=
  pgno ← allocate_page;
  buf ← read_page_for_write pgno;
  buf ← lift (init_empty_leaf buf (btree_header_offset pgno));
  write_page pgno buf ;;
  mret pgno.

(** The two auto-vacuum variants differ in the initialiser; the
    [debug_assert_eq] is not part of a release build. *)
Definition create_btree_autovac (init : bytes -> Z -> outcome bytes) : PM Z :=
  pgno_root ← next_autovac_root_slot;
  _allocated ← allocate_page;
  buf ← read_page_for_write pgno_root;
  buf ← lift (init buf (btree_header_offset pgno_root));
  write_page pgno_root buf ;;
  ptrmap_put pgno_root RootPage 0 ;;
  with_header_mut (h_set_largest_root pgno_root) ;;
  mret pgno_root.
Definition create_table_btree_autovac : PM Z := create_btree_autovac init_empty_leaf.
Definition create_index_btree_autovac : PM Z := create_btree_autovac init_empty_index_leaf.

Definition create_table_btree : PM Z :=
  p ← gets id;
  if auto_vacuum p then create_table_btree_autovac else create_table_btree_plain.

End Insert.
