(* ===== verification/TableCursor.v ===== *)
(** * Cursors over a table b-tree

    [btree/cursor.rs] and [btree/delete.rs]: the scan of a whole tree, the
    streaming cursor, and the removal of the row a cursor is on. *)

From S2P Require Import Prelude Varint Vfs Wal Ptrmap BtreePage Pager Cell Balance BtreeInsert.
#[local] Open Scope Z_scope.

(** The [k]-th child of an interior page. *)
Definition interior_child (hdr : PageHeader) (page : bytes) (k : Z) : outcome (option Z) :=
  let n := num_cells hdr in
  if k <? n
  then
    off ← cell_pointer hdr page k;
    cell ← parse_table_interior_cell page off;
    Ok (Some (ti_left_child cell))
  else if k =? n then Ok (right_most_pointer hdr)
  else Ok None.

(** The same loop as [pick_child] of [insert.rs]. *)
Definition pick_child_for_rowid (page : bytes) (hdr : PageHeader) (target : Z) : outcome Z :=
  pick_child_loop (seqZ 0 (num_cells hdr)) page hdr target.

(** [for x in l { b = f(b, x)?; }]. *)
Fixpoint mfoldl {S A B} (f : B -> A -> M S B) (b : B) (l : list A) : M S B :=
  match l with
  | [] => mret b
  | x :: l => b ← f b x; mfoldl f b l
  end.

Section Scan.
Context {E F : Type} `{VfsOps E F}.
Notation PM := (PagerM (E := E) (F := F)).

Definition visit_leaf_cell (page : bytes) (hdr : PageHeader) (out : list (Z * bytes)) (i : Z)
    : PM (list (Z * bytes)) :=
  cell_off ← lift (cell_pointer hdr page i);
  usable ← gets pg_usable_size;
  cell ← lift (parse_table_leaf_cell page cell_off usable);
  payload ← assemble_payload cell;
  mret (out ++ [(tl_rowid cell, payload)]).

(** The recursion has no bound of its own (a cyclic tree would not end): [fuel]
    is the depth it may reach. *)
Fixpoint visit (fuel : nat) (pgno : Z) (out : list (Z * bytes)) : PM (list (Z * bytes)) :=
  match fuel with
  | O => lift Panic
  | S fuel' =>
      page ← get_page pgno;
      hdr ← lift (header_of page pgno);
      match page_type hdr with
      | LeafTable => mfoldl (visit_leaf_cell page hdr) out (seqZ 0 (num_cells hdr))
      | InteriorTable =>
          out ← mfoldl (fun out i =>
                  cell_off ← lift (cell_pointer hdr page i);
                  cell ← lift (parse_table_interior_cell page cell_off);
                  visit fuel' (ti_left_child cell) out) out (seqZ 0 (num_cells hdr));
          match right_most_pointer hdr with
          | Some rm => visit fuel' rm out
          | None => mret out
          end
      | _ => fail (Error_corrupt "expected a table b-tree page during scan")
      end
  end.
Definition scan_table (fuel : nat) (root : Z) : PM (list (Z * bytes)) := visit fuel root [].

(** *** Deleting a cell *)

Fixpoint free_overflow_chain (fuel : nat) (pgno : Z) : PM unit :=
  match fuel with
  | O => lift Panic
  | S fuel' =>
      if pgno =? 0 then mret tt
      else
        page ← get_page pgno;
        next ← lift (be_at 4 page 0);
        free_page pgno ;;
        free_overflow_chain fuel' next
  end.

(** [fuel] bounds the length of the cell's overflow chain. *)
Definition leaf_delete_current (fuel : nat) (leaf_pgno cell_idx : Z) : PM unit :=
  let base := btree_header_offset leaf_pgno in
  leaf ← read_page_for_write leaf_pgno;
  hdr ← lift (parse leaf base);
  if negb (bool_decide (page_type hdr = LeafTable))
  then fail (Error_corrupt "leaf_delete_current called on a non-leaf page")
  else if cell_idx >=? num_cells hdr
  then fail (Error_corrupt "leaf_delete_current: cell_idx out of range")
  else
    cell_off ← lift (cell_pointer hdr leaf cell_idx);
    usable ← gets pg_usable_size;
    cell ← lift (parse_table_leaf_cell leaf cell_off usable);
    match tl_overflow cell with
    | Some first_overflow => free_overflow_chain fuel first_overflow
    | None => mret tt
    end ;;
    cells ← lift (mapM (fun i =>
              off ← cell_pointer hdr leaf i;
              size ← cell_on_page_size leaf off usable;
              sub_range leaf off (off + size))
            (seqZ 0 cell_idx ++ seqZ (cell_idx + 1) (num_cells hdr - (cell_idx + 1))));
    leaf ← lift (write_page_cells leaf base LeafTable None (enumerate_u16 cells));
    write_page leaf_pgno leaf.

End Scan.

(** ** The cursor *)

(** The stack holds, innermost first, the interior pages on the way down: the
    page, its header and the index of the next child to visit. *)
Record TableCursor := mkCursor {
  tc_root : Z; tc_usable : Z; tc_stack : list (bytes * PageHeader * Z);
  tc_leaf : option bytes; tc_leaf_hdr : option PageHeader; tc_leaf_pgno : Z; tc_cell_idx : Z;
  tc_at_end : bool; tc_pending_advance : bool; tc_rebalance_in_progress : bool; tc_null_row : bool }.

Definition leaf_cells (c : TableCursor) : Z :=
  match tc_leaf_hdr c with Some h => num_cells h | None => 0 end.
Definition is_valid (c : TableCursor) : bool :=
  if tc_at_end c then false
  else match tc_leaf c with Some _ => tc_cell_idx c <? leaf_cells c | None => false end.
Definition is_null_row (c : TableCursor) : bool := tc_null_row c.
Definition leaf_pgno (c : TableCursor) : Z := tc_leaf_pgno c.

Definition set_stack (s : list (bytes * PageHeader * Z)) (c : TableCursor) : TableCursor :=
  mkCursor (tc_root c) (tc_usable c) s (tc_leaf c) (tc_leaf_hdr c) (tc_leaf_pgno c) (tc_cell_idx c)
    (tc_at_end c) (tc_pending_advance c) (tc_rebalance_in_progress c) (tc_null_row c).
Definition set_leaf (l : option bytes) (h : option PageHeader) (c : TableCursor) : TableCursor :=
  mkCursor (tc_root c) (tc_usable c) (tc_stack c) l h (tc_leaf_pgno c) (tc_cell_idx c)
    (tc_at_end c) (tc_pending_advance c) (tc_rebalance_in_progress c) (tc_null_row c).
Definition set_leaf_pgno (g : Z) (c : TableCursor) : TableCursor :=
  mkCursor (tc_root c) (tc_usable c) (tc_stack c) (tc_leaf c) (tc_leaf_hdr c) g (tc_cell_idx c)
    (tc_at_end c) (tc_pending_advance c) (tc_rebalance_in_progress c) (tc_null_row c).
Definition set_cell_idx (i : Z) (c : TableCursor) : TableCursor :=
  mkCursor (tc_root c) (tc_usable c) (tc_stack c) (tc_leaf c) (tc_leaf_hdr c) (tc_leaf_pgno c) i
    (tc_at_end c) (tc_pending_advance c) (tc_rebalance_in_progress c) (tc_null_row c).
Definition set_at_end (b : bool) (c : TableCursor) : TableCursor :=
  mkCursor (tc_root c) (tc_usable c) (tc_stack c) (tc_leaf c) (tc_leaf_hdr c) (tc_leaf_pgno c)
    (tc_cell_idx c) b (tc_pending_advance c) (tc_rebalance_in_progress c) (tc_null_row c).
Definition set_pending_advance (b : bool) (c : TableCursor) : TableCursor :=
  mkCursor (tc_root c) (tc_usable c) (tc_stack c) (tc_leaf c) (tc_leaf_hdr c) (tc_leaf_pgno c)
    (tc_cell_idx c) (tc_at_end c) b (tc_rebalance_in_progress c) (tc_null_row c).
Definition set_rebalancing (b : bool) (c : TableCursor) : TableCursor :=
  mkCursor (tc_root c) (tc_usable c) (tc_stack c) (tc_leaf c) (tc_leaf_hdr c) (tc_leaf_pgno c)
    (tc_cell_idx c) (tc_at_end c) (tc_pending_advance c) b (tc_null_row c).
Definition set_null (b : bool) (c : TableCursor) : TableCursor :=
  mkCursor (tc_root c) (tc_usable c) (tc_stack c) (tc_leaf c) (tc_leaf_hdr c) (tc_leaf_pgno c)
    (tc_cell_idx c) (tc_at_end c) (tc_pending_advance c) (tc_rebalance_in_progress c) b.
Definition set_null_row : TableCursor -> TableCursor := set_null true.

(** The assignments that open [rewind] and [seek_rowid]. *)
Definition reset (c : TableCursor) : TableCursor :=
  mkCursor (tc_root c) (tc_usable c) [] None None 0 0 false false (tc_rebalance_in_progress c) false.

Definition not_positioned : Error := Error_msg "table cursor is not positioned on a row".

Definition current_cell (c : TableCursor) : outcome TableLeafCell :=
  leaf ← ok_or (if is_valid c then tc_leaf c else None) not_positioned;
  hdr ← expect (tc_leaf_hdr c);
  off ← cell_pointer hdr leaf (tc_cell_idx c);
  parse_table_leaf_cell leaf off (tc_usable c).

Definition rowid (c : TableCursor) : outcome Z :=
  if tc_null_row c then Ok 0 else cell ← current_cell c; Ok (tl_rowid cell).

(** The [while lo < hi] of [leaf_index_for_rowid]. *)
Fixpoint search_loop (fuel : nat) (leaf : bytes) (hdr : PageHeader) (usable target lo hi : Z) : outcome Z :=
  match fuel with
  | O => Panic
  | S fuel' =>
      if lo <? hi
      then
        let mid := (lo + hi) / 2 in
        off ← cell_pointer hdr leaf mid;
        cell ← parse_table_leaf_cell leaf off usable;
        if tl_rowid cell <? target
        then search_loop fuel' leaf hdr usable target (mid + 1) hi
        else search_loop fuel' leaf hdr usable target lo mid
      else Ok lo
  end.
Definition leaf_index_for_rowid (c : TableCursor) (target : Z) : outcome Z :=
  leaf ← expect (tc_leaf c);
  hdr ← expect (tc_leaf_hdr c);
  search_loop (S (Z.to_nat (num_cells hdr))) leaf hdr (tc_usable c) target 0 (num_cells hdr).

(** [resolve_parent_pgno] walks the frames from the root. *)
Fixpoint resolve_loop (frames : list (bytes * PageHeader * Z)) (pgno leaf_pgno : Z) : outcome (option Z) :=
  match frames with
  | [] => Ok (Some pgno)
  | (page, hdr, next_k) :: frames =>
      if is_leaf (page_type hdr) then Ok (Some pgno)
      else
        let k := Z.max 0 (next_k - 1) in
        r ← (if k <? num_cells hdr
             then match cell_pointer hdr page k with
                  | Err _ => Ok None
                  | Panic => Panic
                  | Ok off => g ← be_u32 page off; Ok (Some g)
                  end
             else Ok (right_most_pointer hdr));
        match r with
        | None => Ok None
        | Some pgno => if pgno =? leaf_pgno then Ok (Some pgno) else resolve_loop frames pgno leaf_pgno
        end
  end.
Definition resolve_parent_pgno (c : TableCursor) (leaf_pgno : Z) : outcome (option Z) :=
  match tc_stack c with
  | [] => Ok None
  | _ => resolve_loop (reverse (tc_stack c)) (tc_root c) leaf_pgno
  end.

(** The scan for the cell whose child is the leaf; the outer [None] is the
    early return of [?]. *)
Fixpoint child_scan (ixs : list Z) (page : bytes) (hdr : PageHeader) (leaf_pgno : Z)
    : outcome (option (option Z)) :=
  match ixs with
  | [] => Ok (Some None)
  | i :: ixs =>
      match cell_pointer hdr page i with
      | Err _ => Ok None
      | Panic => Panic
      | Ok off =>
          left_child ← be_u32 page off;
          if left_child =? leaf_pgno then Ok (Some (Some i)) else child_scan ixs page hdr leaf_pgno
      end
  end.
Definition parent_info (c : TableCursor) (leaf_pgno : Z) : outcome (option (Z * Z * bool)) :=
  match tc_stack c with
  | [] => Ok None
  | (parent_page, parent_hdr, child_k) :: _ =>
      let is_root_parent := zlen (tc_stack c) =? 1 in
      r ← resolve_parent_pgno c leaf_pgno;
      match r with
      | None => Ok None
      | Some parent_pgno =>
          let is_right := bool_decide (right_most_pointer parent_hdr = Some leaf_pgno) in
          let child_idx := if is_right then num_cells parent_hdr else Z.max 0 (child_k - 1) in
          found ← child_scan (seqZ 0 (num_cells parent_hdr)) parent_page parent_hdr leaf_pgno;
          match found with
          | None => Ok None
          | Some (Some i) => Ok (Some (parent_pgno, i, is_root_parent))
          | Some None =>
              if is_right then Ok (Some (parent_pgno, child_idx, is_root_parent)) else Ok None
          end
      end
  end.

Section Cursor.
Context {E F : Type} `{VfsOps E F}.
Notation State := (Pager F * (Proc * E))%type.

(** A [&mut self] method: the cursor, then the pager it shares. *)
Definition CursorM (A : Type) : Type := M (TableCursor * State) A.
Definition onpg {A} (m : PagerM (E := E) (F := F) A) : CursorM A := on_snd m.
Definition getc {A} (f : TableCursor -> A) : CursorM A := on_fst (fun c => (Ok (f c), c)).
Definition updc (f : TableCursor -> TableCursor) : CursorM unit := on_fst (modify f).

(** [TableCursor::new]. *)
Definition cursor_new (root : Z) (p : Pager F) : TableCursor :=
  mkCursor root (pg_usable_size p) [] None None 0 0 true false false false.

Fixpoint descend_left (fuel : nat) (pgno : Z) : CursorM unit :=
  match fuel with
  | O => lift Panic
  | S fuel' =>
      page ← onpg (get_page pgno);
      hdr ← lift (header_of page pgno);
      match page_type hdr with
      | LeafTable =>
          updc (fun c => set_pending_advance false (set_cell_idx 0
                           (set_leaf (Some page) (Some hdr) (set_leaf_pgno pgno c))))
      | InteriorTable =>
          r ← lift (interior_child hdr page 0);
          first ← lift (ok_or r (Error_corrupt "interior table page with no children"));
          updc (fun c => set_stack ((page, hdr, 1) :: tc_stack c) c) ;;
          descend_left fuel' first
      | _ => fail (Error_corrupt "expected a table b-tree page during scan")
      end
  end.

Fixpoint descend_to_target (fuel : nat) (pgno target : Z) : CursorM unit :=
  match fuel with
  | O => lift Panic
  | S fuel' =>
      page ← onpg (get_page pgno);
      hdr ← lift (header_of page pgno);
      match page_type hdr with
      | LeafTable =>
          updc (fun c => set_leaf (Some page) (Some hdr) (set_leaf_pgno pgno c)) ;;
          c ← getc id;
          i ← lift (leaf_index_for_rowid c target);
          updc (fun c => set_pending_advance false (set_cell_idx i c))
      | InteriorTable =>
          child ← lift (pick_child_for_rowid page hdr target);
          updc (fun c => set_stack ((page, hdr, 0) :: tc_stack c) c) ;;
          descend_to_target fuel' child target
      | _ => fail (Error_corrupt "expected a table b-tree page during seek")
      end
  end.

(** One round per frame popped or child visited. *)
Fixpoint advance_to_next_leaf (fuel : nat) : CursorM unit :=
  match fuel with
  | O => lift Panic
  | S fuel' =>
      stack ← getc tc_stack;
      match stack with
      | [] => updc (fun c => set_leaf None None (set_at_end true c))
      | (page, hdr, next_k) :: below =>
          r ← lift (interior_child hdr page next_k);
          match r with
          | Some child =>
              updc (set_stack ((page, hdr, next_k + 1) :: below)) ;;
              descend_left fuel' child ;;
              n ← getc leaf_cells;
              if n >? 0 then mret tt else advance_to_next_leaf fuel'
          | None => updc (set_stack below) ;; advance_to_next_leaf fuel'
          end
      end
  end.

Definition rewind (fuel : nat) : CursorM unit :=
  updc reset ;;
  root ← getc tc_root;
  descend_left fuel root ;;
  n ← getc leaf_cells;
  if n =? 0 then advance_to_next_leaf fuel else mret tt.

Definition next (fuel : nat) : CursorM unit :=
  at_end ← getc tc_at_end;
  if (at_end : bool) then mret tt
  else
    updc (set_null false) ;;
    pending ← getc tc_pending_advance;
    (if (pending : bool) then updc (set_pending_advance false)
     else updc (fun c => set_cell_idx (tc_cell_idx c + 1) c)) ;;
    c ← getc id;
    if tc_cell_idx c <? leaf_cells c then mret tt else advance_to_next_leaf fuel.

Definition payload : CursorM bytes :=
  c ← getc id;
  if tc_null_row c then mret []
  else cell ← lift (current_cell c); onpg (assemble_payload cell).

Definition seek_rowid (fuel : nat) (target : Z) : CursorM bool :=
  updc reset ;;
  root ← getc tc_root;
  descend_to_target fuel root target ;;
  c ← getc id;
  if negb (is_valid c) then mret false
  else
    cell ← lift (current_cell c);
    if negb (tl_rowid cell =? target)
    then
      updc (fun c => set_cell_idx 0 (set_leaf_pgno 0 (set_leaf None None (set_at_end true c)))) ;;
      mret false
    else mret true.

(** Re-read the leaf [pgno] into the cursor. *)
Definition delete_current (fuel : nat) : CursorM unit :=
  c ← getc id;
  if negb (is_valid c) then fail not_positioned
  else
    let pgno := tc_leaf_pgno c in
    let cell_idx := tc_cell_idx c in
    onpg (leaf_delete_current fuel pgno cell_idx) ;;
    page ← onpg (get_page pgno);
    hdr ← lift (header_of page pgno);
    updc (fun c => set_pending_advance true (set_leaf (Some page) (Some hdr) c)) ;;
    c ← getc id;
    if tc_rebalance_in_progress c then mret tt
    else
      updc (set_rebalancing true) ;;
      info ← lift (parent_info c pgno);
      match info with
      | Some (parent_pgno, child_idx, is_root_parent) =>
          r ← onpg (rebalance_table_leaf_after_delete pgno parent_pgno child_idx is_root_parent);
          match r with
          | Some o =>
              page ← onpg (get_page (rb_leaf_pgno o));
              hdr ← lift (header_of page (rb_leaf_pgno o));
              updc (fun c => set_pending_advance true (set_cell_idx (cell_idx + rb_cell_idx_offset o)
                     (set_leaf (Some page) (Some hdr) (set_leaf_pgno (rb_leaf_pgno o) c))))
          | None => mret tt
          end
      | None => mret tt
      end ;;
      updc (set_rebalancing false).

End Cursor.
