(* ===== verification/IndexBtree.v ===== *)
(** * Index b-trees

    [btree/index.rs], [btree/index_cursor.rs], [btree/index_insert.rs],
    [btree/index_delete.rs] and [btree/destroy.rs]: creation and scan of an
    index, the cursor with its seeks, insertion with splits and the UNIQUE
    check, deletion of a key, and the release of a whole tree.

    A key is a record whose last field is the rowid. The recursion over a tree
    has no bound of its own in the code: [fuel] is the depth (or the number of
    rounds) it may reach, and running out of it is [Panic]. *)

From S2P Require Import Prelude Varint Value Fp DbHeader Record Program Vfs Wal Ptrmap BtreePage Pager Cell Balance BtreeInsert TableCursor.
#[local] Open Scope Z_scope.

(** ** Comparing keys *)

Definition key_collation (key_info : list KeyField) (i : Z) : Collation :=
  from_option kf_collation Binary (zget key_info i).

(** The loop over the common fields: [Eq] when they are all equal. *)
Fixpoint compare_fields (i : Z) (a b : list Value) (key_info : list KeyField) : comparison :=
  match a, b with
  | x :: a, y :: b =>
      match mem_compare x y (key_collation key_info i) with
      | Eq => compare_fields (i + 1) a b key_info
      | non_eq => non_eq
      end
  | _, _ => Eq
  end.
Definition compare_prefix (prefix key : list Value) (key_info : list KeyField) : comparison :=
  match compare_fields 0 prefix key key_info with
  | Eq => zlen prefix ?= zlen key
  | non_eq => non_eq
  end.
Definition compare_record_prefixes (key_info : list KeyField) (a_prefix : list Value) (a_rowid : Value)
    (b_prefix : list Value) (b_rowid : Value) : comparison :=
  match compare_fields 0 a_prefix b_prefix key_info with
  | Eq =>
      match zlen a_prefix ?= zlen b_prefix with
      | Eq => mem_compare a_rowid b_rowid Binary
      | non_eq => non_eq
      end
  | non_eq => non_eq
  end.
Fixpoint all_equal (i : Z) (a b : list Value) (key_info : list KeyField) : bool :=
  match a, b with
  | x :: a, y :: b =>
      match mem_compare x y (key_collation key_info i) with
      | Eq => all_equal (i + 1) a b key_info
      | _ => false
      end
  | _, _ => true
  end.
Definition prefixes_equal (a b : list Value) (key_info : list KeyField) : bool :=
  if negb (zlen a =? zlen b) then false else all_equal 0 a b key_info.

(** [&values[..values.len().saturating_sub(1)]] and the field after it, which
    an empty record does not have. *)
Definition key_prefix (values : list Value) : list Value := ztake (Z.max (zlen values - 1) 0) values.
Definition key_rowid (values : list Value) : outcome Value := idx values (Z.max (zlen values - 1) 0).

(** [decode_record(..)?.last().map(|v| v.as_i64())]. *)
Definition record_rowid (values : list Value) : outcome Z :=
  ok_or (as_i64 <$> last values) (Error_corrupt "index key record has no rowid field").

(** ** Creation and scan *)

Section Index.
Context {E F : Type} `{VfsOps E F}.
Notation PM := (PagerM (E := E) (F := F)).

Definition encoding_of : PM TextEncoding := gets (fun p => text_encoding (pg_header p)).

Definition create_index_btree_plain : PM Z :=
  pgno ← allocate_page;
  buf ← read_page_for_write pgno;
  buf ← lift (init_empty_index_leaf buf (btree_header_offset pgno));
  write_page pgno buf ;;
  mret pgno.
Definition create_index_btree : PM Z :=
  p ← gets id;
  if auto_vacuum p then create_index_btree_autovac else create_index_btree_plain.

Definition key_record_rowid (key_record : bytes) : PM Z :=
  encoding ← encoding_of;
  values ← lift (decode_record key_record encoding);
  lift (record_rowid values).

Definition visit_index_leaf_cell (page : bytes) (hdr : PageHeader) (out : list (bytes * Z)) (i : Z)
    : PM (list (bytes * Z)) :=
  cell_off ← lift (cell_pointer hdr page i);
  usable ← gets pg_usable_size;
  cell ← lift (parse_index_leaf_cell page cell_off usable);
  key ← assemble_index_payload cell;
  rowid ← key_record_rowid key;
  mret (out ++ [(key, rowid)]).

Fixpoint visit_index (fuel : nat) (pgno : Z) (out : list (bytes * Z)) : PM (list (bytes * Z)) :=
  match fuel with
  | O => lift Panic
  | S fuel' =>
      page ← get_page pgno;
      hdr ← lift (header_of page pgno);
      match page_type hdr with
      | LeafIndex => mfoldl (visit_index_leaf_cell page hdr) out (seqZ 0 (num_cells hdr))
      | InteriorIndex =>
          usable ← gets pg_usable_size;
          out ← mfoldl (fun out i =>
                  cell_off ← lift (cell_pointer hdr page i);
                  cell ← lift (parse_index_interior_cell page cell_off usable);
                  out ← visit_index fuel' (ii_left_child cell) out;
                  key ← assemble_index_interior_payload cell;
                  rowid ← key_record_rowid key;
                  mret (out ++ [(key, rowid)])) out (seqZ 0 (num_cells hdr));
          match right_most_pointer hdr with
          | Some rm => visit_index fuel' rm out
          | None => mret out
          end
      | _ => fail (Error_corrupt "expected an index b-tree page during scan")
      end
  end.
Definition scan_index (fuel : nat) (root : Z) : PM (list (bytes * Z)) := visit_index fuel root [].

End Index.

(** ** The cursor *)

Inductive SeekOp := Seek_Ge | Seek_Gt | Seek_Le | Seek_Lt.

Record IndexCursor := mkIndexCursor {
  ic_root : Z; ic_usable : Z; ic_key_info : list KeyField; ic_stack : list (bytes * PageHeader * Z);
  ic_leaf : option bytes; ic_leaf_hdr : option PageHeader; ic_leaf_pgno : Z; ic_cell_idx : Z;
  ic_at_end : bool; ic_pending_advance : bool; ic_current_payload : option bytes }.

Definition ic_leaf_cells (c : IndexCursor) : Z :=
  match ic_leaf_hdr c with Some h => num_cells h | None => 0 end.
Definition ic_is_valid (c : IndexCursor) : bool :=
  if ic_at_end c then false
  else match ic_leaf c with Some _ => ic_cell_idx c <? ic_leaf_cells c | None => false end.

Definition ic_set_stack (s : list (bytes * PageHeader * Z)) (c : IndexCursor) : IndexCursor :=
  mkIndexCursor (ic_root c) (ic_usable c) (ic_key_info c) s (ic_leaf c) (ic_leaf_hdr c) (ic_leaf_pgno c)
    (ic_cell_idx c) (ic_at_end c) (ic_pending_advance c) (ic_current_payload c).
(** [self.leaf_pgno = pgno; self.leaf = Some(page); self.leaf_hdr = Some(hdr);]. *)
Definition ic_set_leaf (pgno : Z) (page : bytes) (hdr : PageHeader) (c : IndexCursor) : IndexCursor :=
  mkIndexCursor (ic_root c) (ic_usable c) (ic_key_info c) (ic_stack c) (Some page) (Some hdr) pgno
    (ic_cell_idx c) (ic_at_end c) (ic_pending_advance c) (ic_current_payload c).
(** [self.at_end = true; self.leaf = None; self.leaf_hdr = None;]. *)
Definition ic_set_end (c : IndexCursor) : IndexCursor :=
  mkIndexCursor (ic_root c) (ic_usable c) (ic_key_info c) (ic_stack c) None None (ic_leaf_pgno c)
    (ic_cell_idx c) true (ic_pending_advance c) (ic_current_payload c).
Definition ic_set_cell_idx (i : Z) (c : IndexCursor) : IndexCursor :=
  mkIndexCursor (ic_root c) (ic_usable c) (ic_key_info c) (ic_stack c) (ic_leaf c) (ic_leaf_hdr c)
    (ic_leaf_pgno c) i (ic_at_end c) (ic_pending_advance c) (ic_current_payload c).
Definition ic_set_pending (b : bool) (c : IndexCursor) : IndexCursor :=
  mkIndexCursor (ic_root c) (ic_usable c) (ic_key_info c) (ic_stack c) (ic_leaf c) (ic_leaf_hdr c)
    (ic_leaf_pgno c) (ic_cell_idx c) (ic_at_end c) b (ic_current_payload c).
Definition ic_set_payload (p : option bytes) (c : IndexCursor) : IndexCursor :=
  mkIndexCursor (ic_root c) (ic_usable c) (ic_key_info c) (ic_stack c) (ic_leaf c) (ic_leaf_hdr c)
    (ic_leaf_pgno c) (ic_cell_idx c) (ic_at_end c) (ic_pending_advance c) p.
(** The assignments that open [rewind] and [seek]. *)
Definition ic_reset (c : IndexCursor) : IndexCursor :=
  mkIndexCursor (ic_root c) (ic_usable c) (ic_key_info c) [] None None 0 0 false false None.
(** [mark_deleted]. *)
Definition ic_mark_deleted : IndexCursor -> IndexCursor := ic_set_pending true.
Definition ic_payload (c : IndexCursor) : bytes := default [] (ic_current_payload c).

Definition index_interior_child (hdr : PageHeader) (page : bytes) (k usable : Z) : outcome (option Z) :=
  let n := num_cells hdr in
  if k <? n
  then
    off ← cell_pointer hdr page k;
    cell ← parse_index_interior_cell page off usable;
    Ok (Some (ii_left_child cell))
  else if k =? n then Ok (right_most_pointer hdr)
  else Ok None.

(** The divider is decoded from the part of its key on the page, as UTF-8. *)
Fixpoint pick_child_for_key_loop (ixs : list Z) (key_info : list KeyField) (page : bytes) (hdr : PageHeader)
    (key : list Value) (op : SeekOp) (usable : Z) : outcome Z :=
  match ixs with
  | [] => ok_or (right_most_pointer hdr) (Error_corrupt "interior index page has no right pointer")
  | i :: ixs =>
      off ← cell_pointer hdr page i;
      cell ← parse_index_interior_cell page off usable;
      values ← decode_record (ii_local cell) Utf8;
      let prefix_len := Z.min (Z.max (zlen values - 1) 0) (zlen key) in
      let cmp := compare_prefix (ztake prefix_len values) key key_info in
      let go_left := match op with
                     | Seek_Ge | Seek_Gt => negb (bool_decide (cmp = Gt))
                     | Seek_Le | Seek_Lt => bool_decide (cmp = Lt)
                     end in
      if go_left then Ok (ii_left_child cell)
      else pick_child_for_key_loop ixs key_info page hdr key op usable
  end.
Definition pick_child_for_key (key_info : list KeyField) (page : bytes) (hdr : PageHeader) (key : list Value)
    (op : SeekOp) (usable : Z) : outcome Z :=
  pick_child_for_key_loop (seqZ 0 (num_cells hdr)) key_info page hdr key op usable.

(** Whether the binary search goes to the right of a cell. *)
Definition seek_pos (op : SeekOp) (cmp : comparison) : bool :=
  match op with
  | Seek_Ge => bool_decide (cmp = Lt)
  | Seek_Gt => negb (bool_decide (cmp = Gt))
  | Seek_Le => negb (bool_decide (cmp = Gt))
  | Seek_Lt => bool_decide (cmp = Gt)
  end.

Section Cursor.
Context {E F : Type} `{VfsOps E F}.
Notation State := (Pager F * (Proc * E))%type.

(** A [&mut self] method: the cursor, then the pager it shares. *)
Definition IndexM (A : Type) : Type := M (IndexCursor * State) A.
Definition on_pager {A} (m : PagerM (E := E) (F := F) A) : IndexM A := on_snd m.
Definition geti {A} (f : IndexCursor -> A) : IndexM A := on_fst (fun c => (Ok (f c), c)).
Definition updi (f : IndexCursor -> IndexCursor) : IndexM unit := on_fst (modify f).

Definition ic_new (root : Z) (key_info : list KeyField) (p : Pager F) : IndexCursor :=
  mkIndexCursor root (pg_usable_size p) key_info [] None None 0 0 true false None.

Definition refresh_payload : IndexM unit :=
  c ← geti id;
  if negb (ic_is_valid c) then updi (ic_set_payload None)
  else
    leaf ← lift (expect (ic_leaf c));
    hdr ← lift (expect (ic_leaf_hdr c));
    off ← lift (cell_pointer hdr leaf (ic_cell_idx c));
    cell ← lift (parse_index_leaf_cell leaf off (ic_usable c));
    payload ← on_pager (assemble_index_payload cell);
    updi (ic_set_payload (Some payload)).

Fixpoint ic_descend_left (fuel : nat) (pgno : Z) : IndexM unit :=
  match fuel with
  | O => lift Panic
  | S fuel' =>
      page ← on_pager (get_page pgno);
      hdr ← lift (header_of page pgno);
      match page_type hdr with
      | LeafIndex => updi (fun c => ic_set_pending false (ic_set_cell_idx 0 (ic_set_leaf pgno page hdr c)))
      | InteriorIndex =>
          usable ← geti ic_usable;
          r ← lift (index_interior_child hdr page 0 usable);
          first ← lift (ok_or r (Error_corrupt "interior index page with no children"));
          updi (fun c => ic_set_stack ((page, hdr, 1) :: ic_stack c) c) ;;
          ic_descend_left fuel' first
      | _ => fail (Error_corrupt "expected an index b-tree page during scan")
      end
  end.

(** The [while lo < hi] of [leaf_index_for_key]. *)
Fixpoint key_search_loop (fuel : nat) (leaf : bytes) (hdr : PageHeader) (encoding : TextEncoding)
    (key : list Value) (op : SeekOp) (lo hi : Z) : IndexM Z :=
  match fuel with
  | O => lift Panic
  | S fuel' =>
      if lo <? hi
      then
        c ← geti id;
        let mid := (lo + hi) / 2 in
        off ← lift (cell_pointer hdr leaf mid);
        cell ← lift (parse_index_leaf_cell leaf off (ic_usable c));
        payload ← on_pager (assemble_index_payload cell);
        values ← lift (decode_record payload encoding);
        let prefix_len := Z.min (Z.max (zlen values - 1) 0) (zlen key) in
        let cmp := compare_prefix (ztake prefix_len values) key (ic_key_info c) in
        if seek_pos op cmp
        then key_search_loop fuel' leaf hdr encoding key op (mid + 1) hi
        else key_search_loop fuel' leaf hdr encoding key op lo mid
      else mret lo
  end.
Definition leaf_index_for_key (key : list Value) (op : SeekOp) : IndexM Z :=
  c ← geti id;
  leaf ← lift (expect (ic_leaf c));
  hdr ← lift (expect (ic_leaf_hdr c));
  encoding ← on_pager encoding_of;
  lo ← key_search_loop (S (Z.to_nat (num_cells hdr))) leaf hdr encoding key op 0 (num_cells hdr);
  mret (match op with Seek_Ge | Seek_Gt => lo | Seek_Le | Seek_Lt => Z.max (lo - 1) 0 end).

Fixpoint ic_descend_to_target (fuel : nat) (pgno : Z) (op : SeekOp) (key : list Value) : IndexM unit :=
  match fuel with
  | O => lift Panic
  | S fuel' =>
      page ← on_pager (get_page pgno);
      hdr ← lift (header_of page pgno);
      match page_type hdr with
      | LeafIndex =>
          updi (ic_set_leaf pgno page hdr) ;;
          i ← leaf_index_for_key key op;
          updi (fun c => ic_set_pending false (ic_set_cell_idx i c))
      | InteriorIndex =>
          c ← geti id;
          child ← lift (pick_child_for_key (ic_key_info c) page hdr key op (ic_usable c));
          updi (fun c => ic_set_stack ((page, hdr, 0) :: ic_stack c) c) ;;
          ic_descend_to_target fuel' child op key
      | _ => fail (Error_corrupt "expected an index b-tree page during seek")
      end
  end.

(** One round per frame popped or child visited. *)
Fixpoint ic_advance_to_next_leaf (fuel : nat) : IndexM unit :=
  match fuel with
  | O => lift Panic
  | S fuel' =>
      stack ← geti ic_stack;
      match stack with
      | [] => updi ic_set_end
      | (page, hdr, next_k) :: below =>
          usable ← geti ic_usable;
          r ← lift (index_interior_child hdr page next_k usable);
          match r with
          | Some child =>
              updi (ic_set_stack ((page, hdr, next_k + 1) :: below)) ;;
              ic_descend_left fuel' child ;;
              n ← geti ic_leaf_cells;
              if n >? 0 then mret tt else ic_advance_to_next_leaf fuel'
          | None => updi (ic_set_stack below) ;; ic_advance_to_next_leaf fuel'
          end
      end
  end.

Definition ic_rewind (fuel : nat) : IndexM unit :=
  updi ic_reset ;;
  root ← geti ic_root;
  ic_descend_left fuel root ;;
  n ← geti ic_leaf_cells;
  (if n =? 0 then ic_advance_to_next_leaf fuel else mret tt) ;;
  refresh_payload.

Definition ic_next (fuel : nat) : IndexM unit :=
  at_end ← geti ic_at_end;
  if (at_end : bool) then mret tt
  else
    pending ← geti ic_pending_advance;
    (if (pending : bool) then updi (ic_set_pending false)
     else updi (fun c => ic_set_cell_idx (ic_cell_idx c + 1) c)) ;;
    c ← geti id;
    if ic_cell_idx c <? ic_leaf_cells c then refresh_payload
    else ic_advance_to_next_leaf fuel ;; refresh_payload.

Definition ic_rowid : IndexM Z :=
  c ← geti id;
  payload ← lift (ok_or (ic_current_payload c) (Error_msg "index cursor is not positioned on an entry"));
  encoding ← on_pager encoding_of;
  values ← lift (decode_record payload encoding);
  lift (record_rowid values).

Definition ic_seek (fuel : nat) (op : SeekOp) (key : list Value) : IndexM bool :=
  updi ic_reset ;;
  root ← geti ic_root;
  ic_descend_to_target fuel root op key ;;
  refresh_payload ;;
  geti ic_is_valid.

End Cursor.

(** ** Insertion *)

(** [e.message == ..]. *)
Definition restart_message : string := "index insert needs restart after ancestor split".
Definition needs_restart (e : Error) : bool := bool_decide (message e = restart_message).

(** The comparison of a key on a page with the one searched. *)
Definition compare_with (key_info : list KeyField) (existing search : list Value) : outcome comparison :=
  existing_rowid ← key_rowid existing;
  search_rowid ← key_rowid search;
  Ok (compare_record_prefixes key_info (key_prefix existing) existing_rowid (key_prefix search) search_rowid).

Fixpoint pick_index_child_loop (ixs : list Z) (key_info : list KeyField) (page : bytes) (hdr : PageHeader)
    (search : list Value) (search_rowid : Value) (encoding : TextEncoding) (usable : Z) : outcome Z :=
  match ixs with
  | [] => ok_or (right_most_pointer hdr) (Error_corrupt "interior index page has no right pointer")
  | i :: ixs =>
      off ← cell_pointer hdr page i;
      cell ← parse_index_interior_cell page off usable;
      existing ← decode_record (ii_local cell) encoding;
      existing_rowid ← key_rowid existing;
      let existing_prefix := ztake (zlen (key_prefix search)) (key_prefix existing) in
      if negb (bool_decide
           (compare_record_prefixes key_info existing_prefix existing_rowid (key_prefix search) search_rowid = Lt))
      then Ok (ii_left_child cell)
      else pick_index_child_loop ixs key_info page hdr search search_rowid encoding usable
  end.
Definition pick_index_child (key_info : list KeyField) (page : bytes) (hdr : PageHeader) (key_record : bytes)
    (encoding : TextEncoding) (usable : Z) : outcome Z :=
  search ← decode_record key_record encoding;
  search_rowid ← key_rowid search;
  pick_index_child_loop (seqZ 0 (num_cells hdr)) key_info page hdr search search_rowid encoding usable.

(** The key a leaf cell holds, without the part in an overflow chain. *)
Definition leaf_key (page : bytes) (hdr : PageHeader) (encoding : TextEncoding) (usable i : Z)
    : outcome (list Value) :=
  off ← cell_pointer hdr page i;
  cell ← parse_index_leaf_cell page off usable;
  decode_record (il_local cell) encoding.

Fixpoint insert_position_loop (fuel : nat) (key_info : list KeyField) (page : bytes) (hdr : PageHeader)
    (search : list Value) (usable : Z) (encoding : TextEncoding) (lo hi : Z) : outcome Z :=
  match fuel with
  | O => Panic
  | S fuel' =>
      if lo <? hi
      then
        let mid := (lo + hi) / 2 in
        existing ← leaf_key page hdr encoding usable mid;
        cmp ← compare_with key_info existing search;
        if bool_decide (cmp = Lt)
        then insert_position_loop fuel' key_info page hdr search usable encoding (mid + 1) hi
        else insert_position_loop fuel' key_info page hdr search usable encoding lo mid
      else Ok lo
  end.
Definition index_leaf_insert_position (key_info : list KeyField) (page : bytes) (hdr : PageHeader)
    (key_record : bytes) (usable : Z) (encoding : TextEncoding) : outcome Z :=
  search ← decode_record key_record encoding;
  insert_position_loop (S (Z.to_nat (num_cells hdr))) key_info page hdr search usable encoding 0 (num_cells hdr).

Section Insert.
Context {E F : Type} `{VfsOps E F}.
Notation PM := (PagerM (E := E) (F := F)).

(** [match m { Err(e) if test(&e) => h, r => r }]. *)
Definition on_error {A} (test : Error -> bool) (m h : PM A) : PM A := fun s =>
  match m s with
  | (Err e, s') => if test e then h s' else (Err e, s')
  | r => r
  end.

(** Run code over a cursor that is local. *)
Definition with_cursor {A} (c : IndexCursor) (m : IndexM (E := E) (F := F) A) : PM (A * IndexCursor) := fun s =>
  match m (c, s) with
  | (Ok a, (c', s')) => (Ok (a, c'), s')
  | (Err e, (_, s')) => (Err e, s')
  | (Panic, (_, s')) => (Panic, s')
  end.

Definition check_unique_constraint (fuel : nat) (root : Z) (key_record : bytes) (key_info : list KeyField)
    : PM unit :=
  encoding ← encoding_of;
  search ← lift (decode_record key_record encoding);
  let prefix := key_prefix search in
  if zlen prefix =? 0 then mret tt
  else if existsb is_null prefix then mret tt
  else
    p ← gets id;
    '(found, cursor) ← with_cursor (ic_new root key_info p) (ic_seek fuel Seek_Ge prefix);
    if negb found then mret tt
    else
      existing ← lift (decode_record (ic_payload cursor) encoding);
      if negb (zlen (key_prefix existing) =? zlen prefix) then mret tt
      else if prefixes_equal (key_prefix existing) prefix key_info
      then fail (Error_new RC_Constraint "UNIQUE constraint failed")
      else mret tt.

Fixpoint split_ancestor_page (ancestor_path : list Z) (pgno : Z) : PM unit :=
  match ancestor_path with
  | [] => promote_index_root_interior pgno
  | parent_pgno :: ancestor_path =>
      on_error is_page_full (split_index_interior_page pgno (Some parent_pgno) ;; mret tt)
        (split_ancestor_page ancestor_path parent_pgno)
  end.

Definition choose_index_child_after_split (key_info : list KeyField) (left_pgno right_pgno : Z)
    (divider_key pending_key : bytes) : PM Z :=
  encoding ← encoding_of;
  div_values ← lift (decode_record divider_key encoding);
  key_values ← lift (decode_record pending_key encoding);
  cmp ← lift (compare_with key_info div_values key_values);
  mret (if bool_decide (cmp = Gt) then left_pgno else right_pgno).

(** [again] is the recursive descent. *)
Definition balance_index_page (again : Z -> PM unit) (pgno : Z) (path : list Z) (key_info : list KeyField)
    (pending_key : bytes) : PM unit :=
  match path with
  | [] =>
      buf ← get_page pgno;
      hdr ← lift (header_of buf pgno);
      match page_type hdr with
      | LeafIndex => promote_index_root_and_split pgno
      | InteriorIndex => promote_index_root_interior pgno
      | _ => fail (Error_corrupt "balance_index_page: root is not an index page")
      end ;;
      again pgno
  | parent_pgno :: ancestor_path =>
      '(new_pgno, divider_key) ← on_error is_page_full (split_index_leaf pgno (Some parent_pgno))
         (split_ancestor_page ancestor_path parent_pgno ;; fail (Error_msg restart_message));
      target ← choose_index_child_after_split key_info pgno new_pgno divider_key pending_key;
      again target
  end.

Definition insert_into_index_leaf (again : Z -> PM unit) (leaf_pgno : Z) (key_record : bytes)
    (key_info : list KeyField) (path : list Z) : PM unit :=
  usable ← gets pg_usable_size;
  page ← get_page leaf_pgno;
  hdr ← lift (header_of page leaf_pgno);
  encoding ← encoding_of;
  i ← lift (index_leaf_insert_position key_info page hdr key_record usable encoding);
  p ← gets id;
  cell ← (if auto_vacuum p then build_index_leaf_cell_with_host key_record usable (Some leaf_pgno)
          else build_index_leaf_cell key_record usable);
  leaf ← read_page_for_write leaf_pgno;
  match insert_leaf_cell leaf (btree_header_offset leaf_pgno) i cell with
  | Ok leaf => write_page leaf_pgno leaf
  | Panic => lift Panic
  | Err e =>
      if is_page_full e then balance_index_page again leaf_pgno path key_info key_record else fail e
  end.

(** [path] holds the ancestors, innermost first. *)
Fixpoint index_insert_with_splitting (fuel : nat) (pgno : Z) (key_record : bytes) (key_info : list KeyField)
    (path : list Z) : PM unit :=
  match fuel with
  | O => lift Panic
  | S fuel' =>
      buf ← get_page pgno;
      hdr ← lift (header_of buf pgno);
      match page_type hdr with
      | LeafIndex =>
          insert_into_index_leaf (fun pgno => index_insert_with_splitting fuel' pgno key_record key_info [])
            pgno key_record key_info path
      | InteriorIndex =>
          encoding ← encoding_of;
          usable ← gets pg_usable_size;
          child ← lift (pick_index_child key_info buf hdr key_record encoding usable);
          index_insert_with_splitting fuel' child key_record key_info (pgno :: path)
      | _ => fail (Error_corrupt "index_insert: not an index b-tree page")
      end
  end.

(** The [loop] of restarts. *)
Fixpoint insert_restarting (rounds fuel : nat) (root : Z) (key_record : bytes) (key_info : list KeyField)
    : PM unit :=
  match rounds with
  | O => lift Panic
  | S rounds' =>
      on_error needs_restart (index_insert_with_splitting fuel root key_record key_info [])
        (insert_restarting rounds' fuel root key_record key_info)
  end.
Definition index_insert (fuel : nat) (root : Z) (key_record : bytes) (key_info : list KeyField) (unique : bool)
    : PM unit :=
  (if unique then check_unique_constraint fuel root key_record key_info else mret tt) ;;
  insert_restarting fuel fuel root key_record key_info.

End Insert.

(** ** Deletion *)

(** [cell_on_page_size] of [index_delete.rs]. *)
Definition index_cell_size (page : bytes) (offset usable : Z) : outcome Z :=
  let '(payload_size, n1) := default (0, 0) (read_varint (default [] (get_from page offset))) in
  max_local ← index_max_local usable;
  '(local_len, has_overflow) ← local_payload_len payload_size usable max_local;
  Ok (n1 + local_len + (if (has_overflow : bool) then 4 else 0)).

Fixpoint find_key (ixs : list Z) (key_info : list KeyField) (page : bytes) (hdr : PageHeader)
    (search_prefix : list Value) (search_rowid : Value) (encoding : TextEncoding) (usable : Z)
    : outcome (option Z) :=
  match ixs with
  | [] => Ok None
  | i :: ixs =>
      existing ← leaf_key page hdr encoding usable i;
      existing_rowid ← key_rowid existing;
      if (if prefixes_equal (key_prefix existing) search_prefix key_info
          then bool_decide (mem_compare existing_rowid search_rowid Binary = Eq) else false)
      then Ok (Some i)
      else find_key ixs key_info page hdr search_prefix search_rowid encoding usable
  end.

Section Delete.
Context {E F : Type} `{VfsOps E F}.
Notation PM := (PagerM (E := E) (F := F)).

Definition index_leaf_delete (fuel : nat) (root : Z) (key_record : bytes) (key_info : list KeyField) : PM bool :=
  usable ← gets pg_usable_size;
  let base := btree_header_offset root in
  page ← get_page root;
  hdr ← lift (parse page base);
  if negb (bool_decide (page_type hdr = LeafIndex))
  then fail (Error_corrupt "index_leaf_delete: not a leaf-index page")
  else
    let n := num_cells hdr in
    encoding ← encoding_of;
    search ← lift (decode_record key_record encoding);
    search_rowid ← lift (key_rowid search);
    found ← lift (find_key (seqZ 0 n) key_info page hdr (key_prefix search) search_rowid encoding usable);
    match found with
    | None => mret false
    | Some idx_to_remove =>
        cell_off ← lift (cell_pointer hdr page idx_to_remove);
        cell ← lift (parse_index_leaf_cell page cell_off usable);
        match il_overflow cell with
        | Some first_overflow => free_overflow_chain fuel first_overflow
        | None => mret tt
        end ;;
        cells ← lift (mapM (fun i =>
                  off ← cell_pointer hdr page i;
                  size ← index_cell_size page off usable;
                  sub_range page off (off + size))
                (seqZ 0 idx_to_remove ++ seqZ (idx_to_remove + 1) (n - (idx_to_remove + 1))));
        leaf ← read_page_for_write root;
        leaf ← lift (write_page_cells leaf base LeafIndex None (enumerate_u16 cells));
        write_page root leaf ;;
        mret true
    end.

(** ** Releasing a tree ([destroy.rs]) *)

(** [parse(..).ok().and_then(|c| c.overflow_page)]. *)
Definition ok_overflow {A} (f : A -> option Z) (o : outcome A) : outcome (option Z) :=
  match o with Ok c => Ok (f c) | Err _ => Ok None | Panic => Panic end.
Definition leaf_overflow (page : bytes) (hdr : PageHeader) (usable i : Z) : outcome (option Z) :=
  off ← cell_pointer hdr page i;
  match page_type hdr with
  | LeafTable => ok_overflow tl_overflow (parse_table_leaf_cell page off usable)
  | LeafIndex => ok_overflow il_overflow (parse_index_leaf_cell page off usable)
  | _ => Ok None
  end.
Definition reap_leaf (fuel : nat) (page : bytes) (hdr : PageHeader) : PM unit :=
  usable ← gets pg_usable_size;
  mfor (seqZ 0 (num_cells hdr)) (fun i =>
    overflow ← lift (leaf_overflow page hdr usable i);
    match overflow with
    | Some first => free_overflow_chain fuel first
    | None => mret tt
    end).
(** The children in the order they are pushed. *)
Definition children_of (page : bytes) (hdr : PageHeader) (usable : Z) : outcome (list Z) :=
  cs ← mapM (fun i =>
         off ← cell_pointer hdr page i;
         match page_type hdr with
         | InteriorTable => c ← parse_table_interior_cell page off; Ok (ti_left_child c)
         | InteriorIndex => c ← parse_index_interior_cell page off usable; Ok (ii_left_child c)
         | _ => Panic
         end) (seqZ 0 (num_cells hdr));
  Ok (cs ++ match right_most_pointer hdr with Some rm => [rm] | None => [] end).

(** The [while let Some(pgno) = stack.pop()] loops of [destroy] and [clear]; the
    second takes table pages only. The top of the stack comes first. *)
Fixpoint release_loop (fuel : nat) (any : bool) (stack : list Z) (freed : Z) : PM Z :=
  match fuel with
  | O => lift Panic
  | S fuel' =>
      match stack with
      | [] => mret freed
      | pgno :: stack =>
          page ← get_page pgno;
          hdr ← lift (header_of page pgno);
          let leaf := reap_leaf fuel' page hdr ;;
                      free_page pgno ;;
                      release_loop fuel' any stack (freed + 1) in
          let interior :=
            usable ← gets pg_usable_size;
            cs ← lift (children_of page hdr usable);
            free_page pgno ;;
            release_loop fuel' any (reverse cs ++ stack) (freed + 1) in
          let other := fail (Error_corrupt ("clear: unexpected page type on page " +:+ pretty pgno)) in
          match page_type hdr with
          | LeafTable => leaf
          | LeafIndex => if any then leaf else other
          | InteriorTable => interior
          | InteriorIndex => if any then interior else other
          end
      end
  end.
Definition destroy (fuel : nat) (root : Z) : PM Z :=
  if root =? 0 then mret 0 else release_loop fuel true [root] 0.

Definition clear (fuel : nat) (root : Z) : PM Z :=
  if root =? 0 then mret 0
  else
    let base := btree_header_offset root in
    page ← get_page root;
    hdr ← lift (parse page base);
    usable ← gets pg_usable_size;
    stack ← match page_type hdr with
            | LeafTable => mret []
            | InteriorTable => lift (children_of page hdr usable)
            | _ => fail (Error_corrupt ("clear: unexpected page type on root page " +:+ pretty root))
            end;
    freed ← release_loop fuel false (reverse stack) 0;
    root_buf ← read_page_for_write root;
    root_buf ← lift (init_empty_leaf root_buf base);
    write_page root root_buf ;;
    mret freed.

End Delete.
