(* ===== verification/Autovac.v ===== *)
(** * Auto-vacuum

    [btree/autovac.rs]: the final size of the database, one step of the vacuum
    (find a free page, move the last page into it, fix the pointers to it) and
    the vacuum that a commit runs. *)

From S2P Require Import Prelude Varint DbHeader Vfs Wal Ptrmap BtreePage Pager Cell.

(** ** The final size *)

(** [while is_ptrmap_page(n) || is_pending_byte_page(n) { n -= 1; }]; of any
    three consecutive pages one is ordinary. *)
Fixpoint skip_reserved_down (fuel : nat) (usable n : Z) : outcome Z :=
  match fuel with
  | O => Panic
  | S fuel' =>
      if is_reserved_page usable n then m ← chk_sub n 1; skip_reserved_down fuel' usable m
      else Ok n
  end.

Definition final_db_size (usable n_orig n_free : Z) : outcome Z :=
  let n_entry := u32 usable / 5 in
  s ← chk_add32 (Z.max 0 (n_free - n_orig)) (ptrmap_pageno usable n_orig);
  s ← chk_add32 s n_entry;
  if n_entry =? 0 then Panic
  else
    let n_ptrmap := s / n_entry in
    a ← chk_sub n_orig n_free;
    n_fin ← chk_sub a n_ptrmap;
    n_fin ← (if n_orig >? pending_byte_page 0
             then if n_fin <? pending_byte_page 0 then chk_sub n_fin 1 else Ok n_fin
             else Ok n_fin);
    skip_reserved_down 4 usable n_fin.

(** ** Pointers inside a page *)

(** The bytes of the overflow pointer of the cell at [off], when its type has
    one: where it is, recomputed as [modify_page_pointer] does. *)
Definition overflow_ptr_off (pbuf : bytes) (off : Z) (ty : PageType) (usable : Z)
    : outcome (option Z) :=
  t ← tail_or pbuf off "cell off";
  '(payload_size, n1) ← ok_or (read_varint t) (Error_corrupt "payload varint");
  match ty with
  | LeafTable =>
      t ← tail_or pbuf (off + n1) "rowid bytes";
      '(_, rs) ← ok_or (read_varint_i64 t) (Error_corrupt "rowid varint");
      ml ← chk_sub usable 35;
      '(ll, _) ← local_payload_len payload_size usable ml;
      Ok (Some (off + (n1 + rs) + ll))
  | LeafIndex =>
      ml ← index_max_local usable;
      '(ll, _) ← local_payload_len payload_size usable ml;
      Ok (Some (off + n1 + ll))
  | _ => Ok None
  end.

(** The loop over the cells: [Some page] when the pointer was found and
    rewritten (or the early [return Ok(())]), [None] at the end. *)
Fixpoint modify_cells (idxs : list Z) (pbuf : bytes) (hdr : PageHeader) (i_from i_to : Z)
    (btree : bool) (usable : Z) : outcome (option bytes) :=
  match idxs with
  | [] => Ok None
  | i :: rest =>
      off ← cell_pointer hdr pbuf i;
      if btree
      then
        child ← be_at 4 pbuf off;
        if child =? i_from then p ← copy_into pbuf off (be_bytes 4 i_to); Ok (Some p)
        else modify_cells rest pbuf hdr i_from i_to btree usable
      else
        o ← cell_overflow_page pbuf off (page_type hdr) usable;
        match o with
        | None => modify_cells rest pbuf hdr i_from i_to btree usable
        | Some ovfl =>
            w ← overflow_ptr_off pbuf off (page_type hdr) usable;
            match w with
            | None => Ok (Some pbuf)
            | Some ptr_off =>
                cur ← be_at 4 pbuf ptr_off;
                if (if cur =? i_from then ovfl =? i_from else false)
                then p ← copy_into pbuf ptr_off (be_bytes 4 i_to); Ok (Some p)
                else modify_cells rest pbuf hdr i_from i_to btree usable
            end
        end
  end.

Definition modify_page_pointer (pbuf : bytes) (parent_pgno i_from i_to : Z) (e_type : PtrMapType)
    (usable : Z) : outcome bytes :=
  let base := btree_header_offset parent_pgno in
  match e_type with
  | Overflow2 =>
      cur ← be_at 4 pbuf 0;
      if negb (cur =? i_from)
      then Err (Error_corrupt ("modify_page_pointer: OVERFLOW2 page's next ptr is " +:+ pretty cur +:+
                               ", expected " +:+ pretty i_from))
      else copy_into pbuf 0 (be_bytes 4 i_to)
  | Btree | Overflow1 =>
      let btree := bool_decide (e_type = Btree) in
      hdr ← parse pbuf base;
      r ← modify_cells (seqZ 0 (num_cells hdr)) pbuf hdr i_from i_to btree usable;
      match r with
      | Some p => Ok p
      | None =>
          if (if btree then bool_decide (right_most_pointer hdr = Some i_from) else false)
          then copy_into pbuf (base + 8) (be_bytes 4 i_to)
          else Err (Error_corrupt ("modify_page_pointer: pointer to " +:+ pretty i_from +:+
                                   " not found on page " +:+ pretty parent_pgno))
      end
  | _ => Ok pbuf
  end.

Section Autovac.
Context {E F : Type} `{VfsOps E F}.
Notation PM := (PagerM (E := E) (F := F)).

(** ** The freelist search *)

(** The first leaf of a trunk that is at most [n_fin], and its index. *)
Fixpoint find_leaf (n : nat) (i : Z) (trunk : bytes) (n_fin : Z) : outcome (option (Z * Z)) :=
  match n with
  | O => Ok None
  | S n' =>
      leaf ← be_at 4 trunk (8 + i * 4);
      if leaf <=? n_fin then Ok (Some (i, leaf)) else find_leaf n' (i + 1) trunk n_fin
  end.

(** Point the previous trunk, or the header, at [to]. *)
Definition relink (prev_trunk : option Z) (to : Z) : PM unit :=
  match prev_trunk with
  | Some pt =>
      pbuf ← read_page_for_write pt;
      pbuf ← lift (copy_into pbuf 0 (be_bytes 4 to));
      write_page pt pbuf
  | None => with_header_mut (fun h => h_set_freelist to (freelist_count h) h)
  end.

Definition dec_freelist_count : PM unit :=
  h ← gets pg_header;
  c ← lift (chk_sub (freelist_count h) 1);
  with_header_mut (fun h => h_set_freelist (first_freelist_trunk h) c h).

(** [for i in 0..(k - 1)]: copy the leaf slots of [trunk] down by one. *)
Fixpoint copy_slots (n : nat) (i : Z) (trunk rebuilt : bytes) : outcome bytes :=
  match n with
  | O => Ok rebuilt
  | S n' =>
      s ← sub_range trunk (12 + i * 4) (12 + i * 4 + 4);
      r ← copy_into rebuilt (8 + i * 4) s;
      copy_slots n' (i + 1) trunk r
  end.

(** Rebuild the first leaf of a trunk as the new trunk. *)
Definition promote_leaf (trunk new_trunk : bytes) (next_trunk k usable : Z) : outcome bytes :=
  r ← copy_into new_trunk 0 (be_bytes 4 next_trunk);
  r ← copy_into r 4 (be_bytes 4 (k - 1));
  r ← copy_slots (Z.to_nat (k - 1)) 0 trunk r;
  let tail_start := 8 + (k - 1) * 4 in
  z ← sub_range r tail_start usable;
  copy_into r tail_start (zrep (zlen z) 0).

(** Remove leaf [i] from a trunk: the last leaf takes its slot. *)
Definition drop_leaf (trunk_buf : bytes) (i k : Z) : outcome bytes :=
  let last_off := 8 + (k - 1) * 4 in
  b ← (if i <? k - 1
       then s ← sub_range trunk_buf last_off (last_off + 4); copy_into trunk_buf (8 + i * 4) s
       else Ok trunk_buf);
  b ← copy_into b 4 (be_bytes 4 (k - 1));
  copy_into b last_off [0; 0; 0; 0].

Fixpoint find_free_loop (fuel : nat) (trunk_pgno : Z) (prev_trunk : option Z) (n_fin : Z)
    : PM (option Z) :=
  match fuel with
  | O => lift Panic
  | S fuel' =>
      if trunk_pgno =? 0 then mret None
      else
        trunk ← get_page trunk_pgno;
        next_trunk ← lift (be_at 4 trunk 0);
        k ← lift (be_at 4 trunk 4);
        if trunk_pgno <=? n_fin
        then
          (if k =? 0 then relink prev_trunk next_trunk
           else
             new_trunk_pgno ← lift (be_at 4 trunk 8);
             new_trunk ← read_page_for_write new_trunk_pgno;
             usable ← gets pg_usable_size;
             rebuilt ← lift (promote_leaf trunk new_trunk next_trunk k usable);
             write_page new_trunk_pgno rebuilt ;;
             relink prev_trunk new_trunk_pgno) ;;
          dec_freelist_count ;;
          mret (Some trunk_pgno)
        else
          r ← lift (find_leaf (Z.to_nat k) 0 trunk n_fin);
          match r with
          | Some (i, leaf) =>
              trunk_buf ← read_page_for_write trunk_pgno;
              trunk_buf ← lift (drop_leaf trunk_buf i k);
              write_page trunk_pgno trunk_buf ;;
              dec_freelist_count ;;
              mret (Some leaf)
          | None => find_free_loop fuel' next_trunk (Some trunk_pgno) n_fin
          end
  end.

(** A chain of distinct trunks is no longer than the database; a cyclic one
    never ends. *)
Definition find_free_page_at_or_below (n_fin : Z) : PM (option Z) :=
  h ← gets pg_header;
  let first_trunk := first_freelist_trunk h in
  if first_trunk =? 0 then mret None
  else n ← page_count; find_free_loop (S (S (Z.to_nat n))) first_trunk None n_fin.

(** ** Moving a page *)

Definition set_child_ptrmaps (pgno : Z) : PM unit :=
  let base := btree_header_offset pgno in
  page ← get_page pgno;
  hdr ← lift (parse page base);
  usable ← gets pg_usable_size;
  match page_type hdr with
  | LeafTable | LeafIndex =>
      mfor (seqZ 0 (num_cells hdr)) (fun i =>
        off ← lift (cell_pointer hdr page i);
        o ← lift (cell_overflow_page page off (page_type hdr) usable);
        match o with Some ovfl => ptrmap_put ovfl Overflow1 pgno | None => mret tt end)
  | InteriorTable =>
      mfor (seqZ 0 (num_cells hdr)) (fun i =>
        off ← lift (cell_pointer hdr page i);
        cell ← lift (parse_table_interior_cell page off);
        ptrmap_put (ti_left_child cell) Btree pgno) ;;
      match right_most_pointer hdr with Some rm => ptrmap_put rm Btree pgno | None => mret tt end
  | InteriorIndex =>
      mfor (seqZ 0 (num_cells hdr)) (fun i =>
        off ← lift (cell_pointer hdr page i);
        child ← lift (be_at 4 page off);
        ptrmap_put child Btree pgno) ;;
      match right_most_pointer hdr with Some rm => ptrmap_put rm Btree pgno | None => mret tt end
  end.

(** The next page of a moved overflow page now has it as its parent. *)
Definition relink_overflow (i_free_page : Z) : PM unit :=
  page ← get_page i_free_page;
  next ← lift (be_at 4 page 0);
  if negb (next =? 0) then ptrmap_put next Overflow2 i_free_page else mret tt.

Definition relocate_page (i_db_page : Z) (e_type : PtrMapType) (i_ptr_page i_free_page : Z)
    : PM unit :=
  if i_db_page <? 3 then fail (Error_corrupt "relocate_page: refusing to move page < 3")
  else
    content ← get_page i_db_page;
    _ ← read_page_for_write i_free_page;
    write_page i_free_page content ;;
    (match e_type with
     | Btree | RootPage => set_child_ptrmaps i_free_page
     | Overflow1 | Overflow2 => relink_overflow i_free_page
     | FreePage => mret tt
     end) ;;
    if negb (bool_decide (e_type = RootPage))
    then
      pbuf ← read_page_for_write i_ptr_page;
      usable ← gets pg_usable_size;
      pbuf ← lift (modify_page_pointer pbuf i_ptr_page i_db_page i_free_page e_type usable);
      write_page i_ptr_page pbuf ;;
      ptrmap_put i_free_page e_type i_ptr_page
    else ptrmap_put i_free_page RootPage 0.

Definition autovacuum_done : Error := Error_msg "autovacuum done".

Definition incr_vacuum_step (n_fin i_last_pg : Z) (b_commit : bool) : PM unit :=
  h ← gets pg_header;
  if freelist_count h =? 0 then fail autovacuum_done
  else
    '(e_type, i_ptr_page) ← ptrmap_get i_last_pg;
    match e_type with
    | RootPage =>
        fail (Error_corrupt ("incr_vacuum_step: page " +:+ pretty i_last_pg +:+
                             " is a root page at the end of the file"))
    | FreePage =>
        if negb b_commit then fail autovacuum_done
        else fail (Error_corrupt
          "incr_vacuum_step: free page at end of file (not removed from freelist)")
    | _ =>
        i_free_pg ← find_free_page_at_or_below n_fin;
        match i_free_pg with
        | Some p => relocate_page i_last_pg e_type i_ptr_page p
        | None => fail autovacuum_done
        end
    end.

Definition incr_vacuum_step_impl (n_fin i_last_pg : Z) : PM unit :=
  incr_vacuum_step n_fin i_last_pg false.

(** [match step { Err(e) if e.message == "autovacuum done" => break, .. }]: whether
    to go on. *)
Definition try_step (n_fin i_last : Z) : PM bool := fun s =>
  match incr_vacuum_step n_fin i_last true s with
  | (Ok _, s') => (Ok true, s')
  | (Err e, s') => if bool_decide (message e = "autovacuum done"%string) then (Ok false, s') else (Err e, s')
  | (Panic, s') => (Panic, s')
  end.

(** [while i_last > n_fin]: [i_last] goes down by one each round. *)
Fixpoint vacuum_loop (fuel : nat) (usable n_fin i_last : Z) : PM unit :=
  match fuel with
  | O => mret tt
  | S fuel' =>
      if i_last >? n_fin
      then
        if is_reserved_page usable i_last then vacuum_loop fuel' usable n_fin (i_last - 1)
        else
          go ← try_step n_fin i_last;
          if (go : bool) then vacuum_loop fuel' usable n_fin (i_last - 1) else mret tt
      else mret tt
  end.

Definition h_set_db_size (n : Z) (h : DbHeader) : DbHeader :=
  mkDbHeader (page_size h) (write_version h) (read_version h) (reserved_space h)
    (file_change_counter h) n (first_freelist_trunk h) (freelist_count h)
    (schema_cookie h) (schema_format h) (default_cache_size h) (largest_root_page h)
    (text_encoding h) (user_version h) (incremental_vacuum h) (application_id h)
    (version_valid_for h) (sqlite_version_number h).

Definition auto_vacuum_commit : PM unit :=
  usable ← gets pg_usable_size;
  n_orig ← page_count;
  if is_reserved_page usable n_orig
  then fail (Error_corrupt ("auto_vacuum_commit: last page " +:+ pretty n_orig +:+ " is reserved"))
  else
    h ← gets pg_header;
    let n_free := freelist_count h in
    if (if n_free =? 0 then true else n_free >=? n_orig) then mret tt
    else
      n_fin ← lift (final_db_size usable n_orig n_free);
      if n_fin >? n_orig then fail (Error_corrupt "auto_vacuum_commit: nFin > nOrig")
      else if n_fin =? n_orig then mret tt
      else
        vacuum_loop (Z.to_nat (n_orig - n_fin)) usable n_fin n_orig ;;
        with_header_mut (fun h => h_set_db_size n_fin (h_set_freelist 0 0 h)) ;;
        truncate_image n_fin.

End Autovac.
