(* ===== verification/PagerTxn.v ===== *)
(** * Transactions of the pager

    The rest of [pager/mod.rs]: opening and creating a database, [begin_write],
    [commit], [rollback], savepoints, journal-mode switches, checkpoints and
    the recovery of a hot journal. *)

From S2P Require Import Prelude Utf8 DbHeader Vfs Wal Journal Ptrmap BtreePage Pager Autovac.
From stdpp Require Import sorting.
#[local] Open Scope Z_scope.

Definition fresh_header (page_size : Z) : DbHeader :=
  mkDbHeader page_size 1 1 0 0 1 0 0 0 4 0 0 Utf8 0 0 0 0 SQLITE_VERSION_NUMBER.

Definition build_fresh_page1 (header : DbHeader) (page_size : Z) : outcome bytes :=
  let page := zrep page_size 0 in
  page ← copy_into page 0 (header_serialize header);
  page ← copy_into page 100 [0x0d];
  page ← copy_into page 101 (be_bytes 2 0);
  page ← copy_into page 103 (be_bytes 2 0);
  page ← copy_into page 105 (be_bytes 2 (ccs_of_size page_size));
  copy_into page 107 [0].

(** [sort_by_key(|(pgno, _)| *pgno)]: the keys are distinct. *)
Definition pgno_le (a b : Z * bytes) : Prop := fst a <= fst b.
#[export] Instance pgno_le_dec a b : Decision (pgno_le a b).
Proof. unfold pgno_le. apply _. Defined.

Section PagerTxn.
Context {E F : Type} `{VfsOps E F}.
Notation PM := (PagerM (E := E) (F := F)).

(** The order in which a [HashMap] is drained is unspecified. *)
Context (drain : gmap Z bytes -> list (Z * bytes)).

Definition journal_path (p : Pager F) : string := pg_path p +:+ "-journal".
Definition wal_path (p : Pager F) : string := pg_path p +:+ "-wal".

(** ** Hot-journal recovery *)

(** One record: [None] ends the playback. *)
Definition check_record (h : JournalHeader) (page_size : Z) (rec : bytes)
    : outcome (option (Z * bytes)) :=
  pgno ← be_at 4 rec 0;
  data ← sub_range rec 4 (4 + page_size);
  stored ← be_at 4 rec (4 + page_size);
  if (if pgno =? 0 then true else negb (pager_cksum (jh_cksum_init h) data =? stored))
  then Ok None else Ok (Some (pgno, data)).

Fixpoint playback_loop (n : nat) (h : JournalHeader) (page_size off : Z) (jfile db : F) : M E unit :=
  match n with
  | O => mret tt
  | S n' =>
      let rec_len := record_len page_size in
      rec ← read_at jfile off rec_len;
      if zlen rec <? rec_len then mret tt
      else
        r ← lift (check_record h page_size rec);
        match r with
        | None => mret tt
        | Some (pgno, data) =>
            (if pgno <=? jh_db_orig_size h then write_at db ((pgno - 1) * page_size) data
             else mret tt) ;;
            playback_loop n' h page_size (off + rec_len) jfile db
        end
  end.

(** The playback of an open journal file with a valid header. *)
Definition playback (h : JournalHeader) (jpath : string) (jfile db : F) : M E unit :=
  file_lock db Exclusive ;;
  playback_loop (Z.to_nat (jh_nrec h)) h (jh_page_size h) JOURNAL_HDR_SZ jfile db ;;
  truncate db (jh_db_orig_size h * jh_page_size h) ;;
  sync db ;;
  vfs_delete jpath ;;
  file_unlock db Shared.

Definition recover_hot_journal (path : string) (db : F) : M E unit :=
  let jpath := path +:+ "-journal" in
  ex ← vfs_exists jpath;
  if negb ex then mret tt
  else
    locked ← check_reserved_lock db;
    if (locked : bool) then mret tt
    else
      jfile ← vfs_open jpath OpenFlags_READWRITE_CREATE;
      hdr ← read_at jfile 0 JOURNAL_HDR_SZ;
      match parse_header hdr with
      | None => ignore (vfs_delete jpath)
      | Some header =>
          if jh_page_size header =? 0 then ignore (vfs_delete jpath)
          else playback header jpath jfile db
      end.

(** ** Opening *)

Definition pager_open (path : string) (file : F) : M E (Pager F) :=
  recover_hot_journal path file ;;
  head ← read_at file 0 100;
  if zlen head <? 100 then fail (Error_not_a_db "file is shorter than the 100-byte header")
  else
    header ← lift (header_parse head);
    let page_size := page_size header in
    usable_size ← lift (header_usable_size header);
    fsize ← file_size file;
    let page_count := u32 (fsize / page_size) in
    wal ← (if (if write_version header =? 2 then true else read_version header =? 2)
           then w ← wal_open path page_size; mret (Some w)
           else mret None);
    mret (mkPager path file page_size usable_size header page_count ∅ ∅ None [] wal).

Definition create_fresh (path : string) (file : F) (page_size : Z) : M E (Pager F) :=
  if (if (if 512 <=? page_size then page_size <=? 65536 else false)
      then negb (is_power_of_two page_size) else true)
  then fail (Error_msg ("invalid page size " +:+ pretty page_size))
  else
    let header := fresh_header page_size in
    page1 ← lift (build_fresh_page1 header page_size);
    write_at file 0 page1 ;;
    sync file ;;
    usable_size ← lift (header_usable_size header);
    mret (mkPager path file page_size usable_size header 1 {[1 := page1]} ∅ None [] None).

(** ** Write transactions *)

Definition begin_read : PM unit := file ← gets pg_file; pio (file_lock file Shared).

(** [next_cksum_init]. *)
Definition next_cksum_init : M Proc Z := fun pr =>
  (Ok (splitmix (pid pr) (cksum_counter pr)),
   mkProc (pid pr) (salt_counter pr) (u64 (cksum_counter pr + 1))).

Definition begin_write (ex_flag : bool) : PM unit :=
  p ← gets id;
  if in_write_txn p then mret tt
  else
    pio (file_lock (pg_file p) Shared) ;;
    pio (file_lock (pg_file p) (if ex_flag then Exclusive else Reserved)) ;;
    db_orig_size ← page_count;
    if pg_wal p then upd (set_txn (Some (mkTxn None 0 db_orig_size 0 0 ∅)))
    else
      cksum_init ← on_snd (on_fst next_cksum_init);
      jfile ← pio (vfs_open (journal_path p) OpenFlags_READWRITE_CREATE);
      pio (truncate jfile 0) ;;
      header ← lift (build_header 0 cksum_init db_orig_size (pg_page_size p));
      pio (write_at jfile 0 header) ;;
      pio (sync jfile) ;;
      upd (set_txn (Some (mkTxn (Some jfile) cksum_init db_orig_size 0 JOURNAL_HDR_SZ ∅))).

Definition end_txn : PM unit :=
  p ← gets id;
  ignore (pio (vfs_delete (journal_path p))) ;;
  pio (file_unlock (pg_file p) Shared) ;;
  upd (fun p => set_savepoints [] (set_txn None p)).

(** [for (pgno, data) in &pending { file.write_at(..) }]. *)
Definition write_pages (pending : list (Z * bytes)) : PM unit :=
  p ← gets id;
  mfor pending (fun '(pgno, data) => pio (write_at (pg_file p) ((pgno - 1) * pg_page_size p) data)).

(** [for (pgno, data) in pending { st.cache.insert(pgno, data); }]. *)
Definition promote (pending : list (Z * bytes)) : PM unit :=
  upd (fun p => set_cache (fold_left (fun c kv => <[fst kv := snd kv]> c) pending (pg_cache p)) p).

Definition drain_dirty : PM (list (Z * bytes)) :=
  d ← gets pg_dirty; upd (set_dirty ∅) ;; mret (drain d).

(** Run a [&mut Wal] method on the open WAL. *)
Definition with_wal {A} (m : WalM (E := E) (F := F) A) : PM A := fun '(p, r) =>
  match pg_wal p with
  | None => (Panic, (p, r))
  | Some w => let '(res, (w', r')) := m (w, r) in (res, (set_wal (Some w') p, r'))
  end.

(** Page 1's header is restamped and page 1 put in the dirty overlay. *)
Definition stamp_header (pages : Z) : PM unit :=
  with_header_mut (h_commit pages) ;;
  h ← gets pg_header;
  page1 ← read_page_for_write 1;
  page1 ← lift (copy_into page1 0 (header_serialize h));
  write_page 1 page1.

Definition commit_wal (pages : Z) : PM unit :=
  pending ← drain_dirty;
  let pending := merge_sort pgno_le pending in
  with_wal (write_frames pending pages) ;;
  promote pending ;;
  end_txn.

Definition commit_journal (pages : Z) : PM unit :=
  t ← gets pg_txn;
  t ← lift (expect t);
  journal ← lift (expect (tx_journal t));
  pio (sync journal) ;;
  pio (write_at journal 8 (be_bytes 4 (tx_nrec t))) ;;
  pio (sync journal) ;;
  pending ← drain_dirty;
  write_pages pending ;;
  p ← gets id;
  pio (truncate (pg_file p) (pages * pg_page_size p)) ;;
  pio (sync (pg_file p)) ;;
  promote pending ;;
  end_txn.

Definition needs_autovac (p : Pager F) : bool :=
  if auto_vacuum p
  then if incr_vacuum p then false else freelist_count (pg_header p) >? 0
  else false.

Definition commit : PM unit :=
  p ← gets id;
  if negb (in_write_txn p) then mret tt
  else if bool_decide (pg_dirty p = ∅) then end_txn
  else
    (if needs_autovac p then auto_vacuum_commit else mret tt) ;;
    pages ← page_count;
    stamp_header pages ;;
    p ← gets id;
    if pg_wal p then commit_wal pages else commit_journal pages.

Definition rollback : PM unit :=
  t ← gets pg_txn;
  match t with
  | None => mret tt
  | Some t =>
      let orig := tx_db_orig_size t in
      upd (fun p => set_count orig
        (set_dirty ∅ (set_cache (filter (fun kv => fst kv <= orig) (pg_cache p)) p))) ;;
      end_txn
  end.

Definition flush_dirty : PM unit :=
  pending ← drain_dirty;
  match pending with
  | [] => mret tt
  | _ =>
      write_pages pending ;;
      p ← gets id;
      pio (sync (pg_file p)) ;;
      promote pending
  end.

(** ** Savepoints *)

Definition open_savepoint (name : bytes) : PM unit :=
  p ← gets id;
  upd (set_savepoints (pg_savepoints p ++ [mkSavepoint name (pg_count p) (pg_dirty p)])).

(** [iter().position(..)]: the outermost match. *)
Fixpoint position {A} (f : A -> bool) (l : list A) : option Z :=
  match l with
  | [] => None
  | x :: l' => if f x then Some 0 else Z.succ <$> position f l'
  end.
Definition savepoint_index (name : bytes) (p : Pager F) : option Z :=
  position (fun s => eq_ignore_ascii_case (sp_name s) name) (pg_savepoints p).

Definition drop_savepoint_named (name : bytes) : PM Z :=
  p ← gets id;
  match position (fun s => bool_decide (sp_name s = name)) (pg_savepoints p) with
  | Some i =>
      upd (set_savepoints (ztake i (pg_savepoints p))) ;; mret (zlen (pg_savepoints p) - i)
  | None => mret 0
  end.

(** The message quotes the name; the model keeps the fixed part. *)
Definition no_such_savepoint : Error := Error_msg "no such savepoint".

Definition release_savepoint (name : bytes) : PM bool :=
  p ← gets id;
  match savepoint_index name p with
  | None => fail no_such_savepoint
  | Some i => upd (set_savepoints (ztake i (pg_savepoints p))) ;; mret true
  end.

Definition rollback_to_savepoint (name : bytes) : PM unit :=
  p ← gets id;
  match savepoint_index name p with
  | None => fail no_such_savepoint
  | Some i =>
      sp ← lift (idx (pg_savepoints p) i);
      upd (set_savepoints (ztake (i + 1) (pg_savepoints p))) ;;
      upd (fun p => set_count (sp_n_orig sp)
        (set_cache (filter (fun kv => fst kv <= sp_n_orig sp) (pg_cache p))
          (set_dirty (sp_dirty sp) p)))
  end.

Definition clear_savepoints : PM unit := upd (set_savepoints []).
Definition savepoint_depth (p : Pager F) : Z := zlen (pg_savepoints p).

(** ** Journal modes and checkpoints *)

Definition journal_mode (p : Pager F) : JournalMode := if pg_wal p then JM_Wal else JM_Delete.
Definition is_in_memory (p : Pager F) : bool :=
  if decide (pg_path p = ":memory:") then true else bool_decide (pg_path p = "").

Definition pager_checkpoint (mode : CheckpointMode) : PM (Z * Z) :=
  p ← gets id;
  match pg_wal p with
  | None => mret (0, 0)
  | Some w =>
      if mx_frame w =? 0 then mret (0, 0)
      else with_wal (checkpoint (pg_file p) mode)
  end.

Definition persist_header_bytes : PM unit :=
  begin_write true ;;
  page1 ← read_page_for_write 1;
  h ← gets pg_header;
  page1 ← lift (copy_into page1 0 (header_serialize h));
  write_page 1 page1 ;;
  commit ;;
  end_txn.

Definition set_journal_mode (to : JournalMode) : PM JournalMode :=
  p ← gets id;
  let current := journal_mode p in
  if bool_decide (to = JM_Query) then mret current
  else
    let to_eff := if jm_is_rollback to then JM_Delete else to in
    if bool_decide (to_eff = current) then mret to_eff
    else if (if bool_decide (to_eff = JM_Wal) then is_in_memory p else false) then mret current
    else if in_write_txn p
    then fail (Error_msg ("cannot change " +:+
           (if bool_decide (to_eff = JM_Wal) then "into" else "out of") +:+
           " wal mode from within a transaction"))
    else match current, to_eff with
    | JM_Wal, JM_Delete =>
        pager_checkpoint Wal.Truncate ;;
        upd (set_wal None) ;;
        ignore (pio (vfs_delete (wal_path p))) ;;
        with_header_mut (h_set_versions 1 1) ;;
        persist_header_bytes ;;
        mret JM_Delete
    | JM_Delete, JM_Wal =>
        with_header_mut (h_set_versions 2 2) ;;
        persist_header_bytes ;;
        w ← pio (wal_open (pg_path p) (pg_page_size p));
        upd (set_wal (Some w)) ;;
        mret JM_Wal
    | _, _ => mret to_eff
    end.

End PagerTxn.
