(* ===== verification/IndexOrder.v ===== *)
(** * The order of an index

    Keys are ordered by their fields, each under its collation, and then by
    rowid: a total order. On a leaf whose keys are in that order the binary
    searches of insertion and of the cursor are lower bounds, and the UNIQUE
    check finds a duplicate exactly when there is one. *)

From stdpp Require Import sorting.
From S2P Require Import Prelude Varint Value Fp DbHeader Record Program Sorter Vfs Wal Ptrmap BtreePage Pager Cell Balance BtreeInsert TableCursor IndexBtree PagerTxn.
#[local] Open Scope Z_scope.

(** ** The order of keys *)

(** The lexicographic order, a prefix being less. *)
Fixpoint fields_cmp (i : Z) (a b : list Value) (key_info : list KeyField) : comparison :=
  match a, b with
  | [], [] => Eq
  | [], _ :: _ => Lt
  | _ :: _, [] => Gt
  | x :: a, y :: b =>
      match mem_compare x y (key_collation key_info i) with
      | Eq => fields_cmp (i + 1) a b key_info
      | non_eq => non_eq
      end
  end.
Lemma fields_cmp_eq i a b ki :
  match compare_fields i a b ki with Eq => zlen a ?= zlen b | o => o end = fields_cmp i a b ki.
Proof.
  revert i b. induction a as [|x a IH]; intros i [|y b]; [done| |done|].
  - cbn [compare_fields fields_cmp]. rewrite zlen_cons. pose proof (zlen_nonneg b). apply Z.compare_lt_iff. rewrite zlen_nil. lia.
  - cbn [compare_fields fields_cmp]. destruct (mem_compare _ _ _); [|done..]. rewrite <- (IH (i + 1) b).
    rewrite (zlen_cons x a), (zlen_cons y b). destruct (compare_fields _ _ _ _); [|done..]. apply Z.add_compare_mono_l.
Qed.
Lemma compare_prefix_fields a b ki : compare_prefix a b ki = fields_cmp 0 a b ki.
Proof. apply fields_cmp_eq. Qed.

Lemma mem_compare_orders coll : orders (fun x y => mem_compare x y coll) field_ok.
Proof.
  split; intros x y; [|intros z..]; intros [] []; try intros []; rewrite !mem_compare_key by done.
  - apply key_compare_antisym.
  - apply key_compare_lt_trans.
  - by intros ->%key_compare_eq.
Qed.
Lemma fields_cmp_orders i ki : orders (fun a b => fields_cmp i a b ki) (Forall field_ok).
Proof.
  split.
  - intros x y Hx. revert i y. induction Hx as [|v x Hv Hx IH]; intros i [|w y] Hy; [done..|]. apply Forall_cons in Hy as [Hw Hy].
    cbn [fields_cmp]. rewrite (ord_antisym _ _ (mem_compare_orders _) v w) by done. destruct (mem_compare v w _); cbn; [by apply IH|done..].
  - intros x y z Hx. revert i y z. induction Hx as [|v x Hv Hx IH]; intros i [|w y] [|u z] Hy Hz; try done.
    apply Forall_cons in Hy as [Hw Hy], Hz as [Hu Hz]. cbn [fields_cmp].
    pose proof (mem_compare_orders (key_collation ki i)) as Ho. destruct (mem_compare v w _) eqn:E1; [| |done].
    + rewrite (ord_eq _ _ Ho v w u) by done. destruct (mem_compare w u _) eqn:E2; [by apply IH|done..].
    + intros _. destruct (mem_compare w u _) eqn:E2; [|by rewrite (ord_trans _ _ Ho v w u)|done].
      assert (mem_compare u w (key_collation ki i) = Eq) as E3 by (rewrite (ord_antisym _ _ Ho w u), E2 by done; done).
      rewrite (ord_antisym _ _ Ho u v), (ord_eq _ _ Ho u w v), (ord_antisym _ _ Ho v w), E1 by done. done.
  - intros x y z Hx. revert i y z. induction Hx as [|v x Hv Hx IH]; intros i [|w y] [|u z] Hy Hz; try done.
    apply Forall_cons in Hy as [Hw Hy], Hz as [Hu Hz]. cbn [fields_cmp].
    destruct (mem_compare v w _) eqn:E1; [|done..]. intros E2. rewrite (ord_eq _ _ (mem_compare_orders _) v w u) by done.
    destruct (mem_compare w u _); [by apply IH|done..].
Qed.

(** A key has a rowid field. *)
Definition key_ok (k : list Value) : Prop := k <> [] /\ Forall field_ok k.
Definition rowid_of (k : list Value) : Value := default Null (last k).
Definition key_cmp (ki : list KeyField) (a b : list Value) : comparison :=
  match fields_cmp 0 (key_prefix a) (key_prefix b) ki with
  | Eq => mem_compare (rowid_of a) (rowid_of b) Binary
  | o => o
  end.

Lemma key_snoc k : k <> [] -> key_prefix k ++ [rowid_of k] = k /\ key_rowid k = Ok (rowid_of k).
Proof.
  intros Hk. destruct (exists_last Hk) as (p & r & ->). unfold key_prefix, key_rowid, rowid_of.
  rewrite last_snoc, zlen_app. change (zlen [r]) with 1. pose proof (zlen_nonneg p).
  replace (Z.max (zlen p + 1 - 1) 0) with (zlen p) by lia. rewrite ztake_app_le by lia. rewrite ztake_all by lia. split; [done|].
  unfold idx. rewrite zget_app_r by lia. by rewrite Z.sub_diag.
Qed.
Lemma key_ok_parts k : key_ok k -> Forall field_ok (key_prefix k) /\ field_ok (rowid_of k).
Proof.
  intros [Hk Hf]. destruct (key_snoc k Hk) as [E _]. rewrite <- E in Hf. apply Forall_app in Hf as [? Hr]. split; [done|].
  by apply Forall_cons in Hr as [? _].
Qed.
Lemma key_cmp_orders ki : orders (key_cmp ki) key_ok.
Proof.
  assert (orders (fun a b => fields_cmp 0 (key_prefix a) (key_prefix b) ki) key_ok) as H1.
  { destruct (fields_cmp_orders 0 ki) as [Ha Ht He]. split; intros x y; [|intros z..]; intros [Hx _]%key_ok_parts [Hy _]%key_ok_parts;
      try intros [Hz _]%key_ok_parts; eauto. }
  assert (orders (fun a b => mem_compare (rowid_of a) (rowid_of b) Binary) key_ok) as H2.
  { destruct (mem_compare_orders Binary) as [Ha Ht He]. split; intros x y; [|intros z..]; intros [_ Hx]%key_ok_parts [_ Hy]%key_ok_parts;
      try intros [_ Hz]%key_ok_parts; eauto. }
  exact (orders_lex _ _ _ H1 H2).
Qed.
Lemma compare_with_eq ki a b : key_ok a -> key_ok b -> compare_with ki a b = Ok (key_cmp ki a b).
Proof.
  intros [Ha _] [Hb _]. unfold compare_with. destruct (key_snoc a Ha) as [_ ->], (key_snoc b Hb) as [_ ->]. cbn [mbind outcome_bind].
  f_equal. unfold compare_record_prefixes, key_cmp. rewrite <- fields_cmp_eq. by destruct (compare_fields _ _ _ _).
Qed.

(** The rest of the order only depends on the prefix. *)
Definition prefix_le (ki : list KeyField) (a b : list Value) : Prop := fields_cmp 0 (key_prefix a) (key_prefix b) ki <> Gt.
Lemma key_le_prefix ki a b : key_cmp ki a b <> Gt -> prefix_le ki a b.
Proof. unfold key_cmp, prefix_le. by destruct (fields_cmp _ _ _ _). Qed.

(** ** Binary searches *)

Lemma zget_nat {A} (l : list A) j a : l !! j = Some a -> zget l (Z.of_nat j) = Some a.
Proof. intros Ha. unfold zget. destruct (Z.ltb_spec (Z.of_nat j) 0); [lia|]. by rewrite Nat2Z.id. Qed.

Section LowerBound.
Context {A : Type} (p : A -> bool) (l : list A).

(** [p] holds up to some place and not after it. *)
Definition downward : Prop :=
  forall i j a b, zget l i = Some a -> zget l j = Some b -> i <= j -> p b = true -> p a = true.
Definition between (lo hi : Z) : Prop :=
  0 <= lo <= hi /\ hi <= zlen l /\
  (forall j a, zget l j = Some a -> j < lo -> p a = true) /\ (forall j a, zget l j = Some a -> hi <= j -> p a = false).
Definition lower_bound (i : Z) : Prop := between i i.

Lemma between_start : between 0 (zlen l).
Proof.
  pose proof (zlen_nonneg l). split_and!; [lia..| |]; intros j a Ha; apply zget_Some in Ha; lia.
Qed.
Lemma between_mid lo hi : between lo hi -> lo < hi ->
  exists a, zget l ((lo + hi) / 2) = Some a /\ lo <= (lo + hi) / 2 < hi.
Proof.
  intros (? & ? & _) ?. assert (lo <= (lo + hi) / 2 < hi) by (split; [apply Z.div_le_lower_bound|apply Z.div_lt_upper_bound]; lia).
  destruct (zget_in l ((lo + hi) / 2)) as [a Ha]; [lia|]. by exists a.
Qed.
Lemma between_right lo hi a : downward -> between lo hi -> lo < hi ->
  zget l ((lo + hi) / 2) = Some a -> p a = true -> between ((lo + hi) / 2 + 1) hi.
Proof.
  intros Hd (? & ? & Hl & Hr) Hlt Ha Hp. assert (lo <= (lo + hi) / 2 < hi) by (split; [apply Z.div_le_lower_bound|apply Z.div_lt_upper_bound]; lia).
  split_and!; [lia..| |done]. intros j b Hb Hj. apply (Hd j ((lo + hi) / 2) b a); [done..|lia|done].
Qed.
Lemma between_left lo hi a : downward -> between lo hi -> lo < hi ->
  zget l ((lo + hi) / 2) = Some a -> p a = false -> between lo ((lo + hi) / 2).
Proof.
  intros Hd (? & ? & Hl & Hr) Hlt Ha Hp. assert (lo <= (lo + hi) / 2 < hi) by (split; [apply Z.div_le_lower_bound|apply Z.div_lt_upper_bound]; lia).
  split_and!; [lia..|done|]. intros j b Hb Hj. destruct (p b) eqn:E; [|done]. by rewrite (Hd ((lo + hi) / 2) j a b) in Hp.
Qed.
Lemma lower_bound_split i : lower_bound i -> Forall (fun a => p a = true) (ztake i l) /\ Forall (fun a => p a = false) (zdrop i l).
Proof.
  intros (? & ? & Hl & Hr). split; apply Forall_lookup; intros j a Ha.
  - assert (zget (ztake i l) (Z.of_nat j) = Some a) as Hz by (by apply zget_nat).
    pose proof (zget_Some _ _ _ Hz). rewrite zlen_ztake in *. rewrite zget_ztake in Hz by lia. apply (Hl (Z.of_nat j)); [done|lia].
  - assert (zget (zdrop i l) (Z.of_nat j) = Some a) as Hz by (by apply zget_nat).
    rewrite zget_zdrop in Hz by lia. apply (Hr (Z.of_nat j + i)); [done|lia].
Qed.
End LowerBound.

Lemma ss_zget {A} (R : A -> A -> Prop) l i j a b : StronglySorted R l ->
  zget l i = Some a -> zget l j = Some b -> i < j -> R a b.
Proof.
  intros Hs Ha Hb Hij. pose proof (zget_Some _ _ _ Ha). pose proof (zget_Some _ _ _ Hb). unfold zget in *.
  destruct (Z.ltb_spec i 0), (Z.ltb_spec j 0); [lia..|]. revert Hs Ha Hb. assert (Z.to_nat i < Z.to_nat j)%nat as Hlt by lia.
  revert Hlt. generalize (Z.to_nat i) (Z.to_nat j). clear. induction l as [|x l IH]; intros n m Hlt Hs; [done|].
  apply StronglySorted_inv in Hs as [Hs Hx]. destruct m as [|m]; [lia|]. destruct n as [|n]; cbn.
  - intros [= ->] Hb. rewrite Forall_lookup in Hx. by eapply Hx.
  - apply (IH n m); [lia|done].
Qed.

Lemma Forall_zget {A} (P : A -> Prop) l i a : Forall P l -> zget l i = Some a -> P a.
Proof. intros Hl Ha. unfold zget in Ha. destruct (i <? 0); [done|]. rewrite Forall_lookup in Hl. by eapply Hl. Qed.

(** Where a sorted list of keys stops being below [s]. *)
Section SortedBound.
Context {A : Type} (cmp : A -> A -> comparison) (P : A -> Prop) (Ho : orders cmp P).
Definition below (s a : A) : bool := bool_decide (cmp a s = Lt).
Lemma below_downward s l : P s -> Forall P l -> StronglySorted (fun a b => cmp a b <> Gt) l -> downward (below s) l.
Proof.
  intros Hs Hl Hss i j a b Ha Hb Hij Hp. apply bool_decide_eq_true in Hp. apply bool_decide_eq_true.
  destruct (Z.eq_dec i j) as [->|]; [congruence|]. pose proof (ss_zget _ l i j a b Hss Ha Hb ltac:(lia)) as Hab. cbn in Hab.
  pose proof (Forall_zget _ _ _ _ Hl Ha) as Pa. pose proof (Forall_zget _ _ _ _ Hl Hb) as Pb.
  destruct (cmp a b) eqn:E; [|by apply (ord_trans _ _ Ho a b s)|done]. by rewrite (ord_eq _ _ Ho a b s).
Qed.
Lemma below_insert s l i : P s -> Forall P l -> StronglySorted (fun a b => cmp a b <> Gt) l -> lower_bound (below s) l i ->
  StronglySorted (fun a b => cmp a b <> Gt) (ztake i l ++ s :: zdrop i l).
Proof.
  intros Hs Hl Hss Hb. apply lower_bound_split in Hb as [Ht Hd]. rewrite Forall_forall in Ht. rewrite Forall_forall in Hd. rewrite Forall_forall in Hl.
  rewrite <- (ztake_zdrop_id i l) in Hss, Hl. apply StronglySorted_app in Hss as (Hcross & Hst & Hsd).
  assert (forall a, a ∈ ztake i l -> cmp a s <> Gt) as H1 by (intros a Ha; specialize (Ht a Ha); apply bool_decide_eq_true in Ht; by rewrite Ht).
  assert (forall a, a ∈ zdrop i l -> cmp s a <> Gt) as H2.
  { intros a Ha. specialize (Hd a Ha). apply bool_decide_eq_false in Hd. assert (P a) by (apply Hl; set_solver).
    rewrite (ord_antisym _ _ Ho a s) by done. by destruct (cmp a s). }
  apply StronglySorted_app. split_and!; [|done|constructor; [done|by apply Forall_forall]].
  intros a b Ha [->|Hb]%elem_of_cons; auto.
Qed.
End SortedBound.

(** ** A leaf and its keys *)

(** Entry [i] of the leaf is [k], with its payload on the page. *)
Definition leaf_entry (page : bytes) (hdr : PageHeader) (usable : Z) (enc : TextEncoding) (i : Z) (k : list Value) : Prop :=
  exists off cell, cell_pointer hdr page i = Ok off /\ parse_index_leaf_cell page off usable = Ok cell /\
    il_overflow cell = None /\ zlen (il_local cell) = il_payload_size cell /\ il_payload_size cell < 2 ^ 63 /\
    decode_record (il_local cell) enc = Ok k.
Definition leaf_holds (page : bytes) (hdr : PageHeader) (usable : Z) (enc : TextEncoding) (keys : list (list Value)) : Prop :=
  zlen keys = num_cells hdr /\ forall i k, zget keys i = Some k -> leaf_entry page hdr usable enc i k.

Lemma leaf_entry_key page hdr usable enc i k : leaf_entry page hdr usable enc i k -> leaf_key page hdr enc usable i = Ok k.
Proof. intros (off & cell & H1 & H2 & _ & _ & _ & H3). unfold leaf_key. by rewrite H1; cbn; rewrite H2. Qed.

Lemma insert_position_loop_spec ki page hdr usable enc keys search fuel lo hi :
  leaf_holds page hdr usable enc keys -> Forall key_ok keys -> key_ok search ->
  downward (below (key_cmp ki) search) keys -> between (below (key_cmp ki) search) keys lo hi ->
  hi - lo < Z.of_nat fuel ->
  exists i, insert_position_loop fuel ki page hdr search usable enc lo hi = Ok i /\ lower_bound (below (key_cmp ki) search) keys i.
Proof.
  intros Hp Hk Hs Hd. revert lo hi. induction fuel as [|fuel IH]; intros lo hi Hb Hf; [destruct Hb; lia|]. cbn [insert_position_loop].
  destruct (Z.ltb_spec lo hi) as [Hlt|Hge].
  - destruct (between_mid _ _ _ _ Hb Hlt) as (k & Hget & Hmid). set (mid := (lo + hi) / 2) in *.
    rewrite (leaf_entry_key _ _ _ _ _ k) by by apply Hp. cbn [mbind outcome_bind].
    rewrite compare_with_eq by (done || by eapply Forall_zget). cbn [mbind outcome_bind].
    case_bool_decide as Hc; apply IH; try lia.
    + eapply between_right; eauto. by apply bool_decide_eq_true.
    + eapply between_left; eauto. by apply bool_decide_eq_false.
  - exists lo. split; [done|]. assert (lo = hi) as <- by (destruct Hb; lia). exact Hb.
Qed.

(** C39: the position found for a new key on a leaf whose keys are in order
    keeps them in order: every key before it is smaller, none after it is. *)
Theorem index_insert_position_spec ki page hdr usable enc keys key_record search :
  decode_record key_record enc = Ok search -> key_ok search ->
  leaf_holds page hdr usable enc keys -> Forall key_ok keys ->
  StronglySorted (fun a b => key_cmp ki a b <> Gt) keys ->
  exists i, index_leaf_insert_position ki page hdr key_record usable enc = Ok i /\
    Forall (fun k => key_cmp ki k search = Lt) (ztake i keys) /\
    Forall (fun k => key_cmp ki k search <> Lt) (zdrop i keys) /\
    StronglySorted (fun a b => key_cmp ki a b <> Gt) (ztake i keys ++ search :: zdrop i keys).
Proof.
  intros Hdec Hs Hp Hk Hss. unfold index_leaf_insert_position. rewrite Hdec. cbn [mbind outcome_bind].
  destruct (insert_position_loop_spec ki page hdr usable enc keys search (S (Z.to_nat (num_cells hdr))) 0 (num_cells hdr))
    as (i & -> & Hb); try done.
  - by apply (below_downward _ _ (key_cmp_orders ki)).
  - destruct Hp as [<- _]. apply between_start.
  - destruct Hp as [<- _]. pose proof (zlen_nonneg keys). lia.
  - exists i. split; [done|]. pose proof (lower_bound_split _ _ _ Hb) as [Ht Hd]. split_and!.
    + eapply Forall_impl; [exact Ht|]. intros k Hlt. by apply bool_decide_eq_true in Hlt.
    + eapply Forall_impl; [exact Hd|]. intros k Hlt. by apply bool_decide_eq_false in Hlt.
    + by apply (below_insert _ _ (key_cmp_orders ki)).
Qed.

Module Sample.
Definition key_list : list (list Value) := [[Int 3; Int 1]; [Int 5; Int 2]; [Text [97]; Int 7]].
Definition cell (k : list Value) : bytes := let r := encode_record k in zlen r :: r.
Definition page : bytes :=
  match write_page_cells (zrep 512 0) 0 LeafIndex None (enumerate_u16 (cell <$> key_list)) with Ok b => b | _ => [] end.
Definition hdr : PageHeader := match header_of page 2 with Ok h => h | _ => mkPageHeader LeafIndex 0 0 0 0 None 0 0 end.
Definition key_info : list KeyField := [mkKeyField false NoCase].

Lemma value_key_ok v r : v = Text [97] \/ (exists i, v = Int i /\ 0 <= i < 100) -> 0 <= r < 100 -> key_ok [v; Int r].
Proof.
  intros Hv Hr. split; [done|]. assert (forall i, 0 <= i < 100 -> field_ok (Int i)) as Hint by (intros i Hi; split; [cbn; unfold is_i64; lia|done]).
  constructor; [|by repeat constructor; apply Hint]. destruct Hv as [->|(i & -> & Hi)]; [|by apply Hint].
  split; [|done]. split; [repeat constructor; unfold byte_ok; lia|vm_compute; reflexivity].
Qed.
Lemma keys_ok : Forall key_ok key_list.
Proof. repeat constructor; try done; apply value_key_ok; (lia || (by left) || (right; eexists; split; [done|lia])). Qed.
Lemma keys_sorted : StronglySorted (fun a b => key_cmp key_info a b <> Gt) key_list.
Proof. repeat constructor; by vm_compute. Qed.
Lemma page_holds : leaf_holds page hdr 512 Utf8 key_list.
Proof.
  split; [by vm_compute|]. intros i k Hk. pose proof (zget_Some _ _ _ Hk) as Hb. change (zlen key_list) with 3 in Hb.
  assert (i = 0 \/ i = 1 \/ i = 2) as [->|[->| ->]] by lia; injection Hk as <-; unfold leaf_entry;
    eexists _, _; (split; [vm_compute; reflexivity|]); (split; [vm_compute; reflexivity|]); vm_compute; done.
Qed.
End Sample.

Lemma index_insert_position_spec_witness :
  index_leaf_insert_position Sample.key_info Sample.page Sample.hdr (encode_record [Int 5; Int 1]) 512 Utf8 = Ok 1 /\
  exists i, index_leaf_insert_position Sample.key_info Sample.page Sample.hdr (encode_record [Int 5; Int 1]) 512 Utf8 = Ok i /\
    Forall (fun k => key_cmp Sample.key_info k [Int 5; Int 1] = Lt) (ztake i Sample.key_list) /\
    Forall (fun k => key_cmp Sample.key_info k [Int 5; Int 1] <> Lt) (zdrop i Sample.key_list) /\
    StronglySorted (fun a b => key_cmp Sample.key_info a b <> Gt) (ztake i Sample.key_list ++ [Int 5; Int 1] :: zdrop i Sample.key_list).
Proof.
  split; [vm_compute; reflexivity|]. apply index_insert_position_spec.
  - vm_compute. reflexivity.
  - apply Sample.value_key_ok; [right; eexists; split; [done|lia]|lia].
  - apply Sample.page_holds.
  - apply Sample.keys_ok.
  - apply Sample.keys_sorted.
Defined.

(** ** The UNIQUE check *)

Lemma all_equal_fields i a b ki : zlen a = zlen b -> all_equal i a b ki = bool_decide (fields_cmp i a b ki = Eq).
Proof.
  revert i b. induction a as [|x a IH]; intros i [|y b] Hl; rewrite ?zlen_cons, ?zlen_nil in Hl;
    try (pose proof (zlen_nonneg a)); try (pose proof (zlen_nonneg b)); [done|lia..|].
  cbn [all_equal fields_cmp]. destruct (mem_compare _ _ _); [apply IH; lia|done..].
Qed.
Lemma prefixes_equal_fields a b ki : zlen a = zlen b -> prefixes_equal a b ki = bool_decide (fields_cmp 0 a b ki = Eq).
Proof. intros Hl. unfold prefixes_equal. rewrite Hl, Z.eqb_refl. by apply all_equal_fields. Qed.
Lemma key_prefix_len k : zlen (key_prefix k) = Z.max (zlen k - 1) 0.
Proof. unfold key_prefix. rewrite zlen_ztake. pose proof (zlen_nonneg k). lia. Qed.
Lemma key_prefix_take (k key : list Value) : zlen k = zlen key + 1 ->
  ztake (Z.min (Z.max (zlen k - 1) 0) (zlen key)) k = key_prefix k.
Proof. intros Hl. unfold key_prefix. pose proof (zlen_nonneg key). f_equal. lia. Qed.

Section Unique.
Context {E F : Type} `{VfsOps E F}.
Notation State := (Pager F * (Proc * E))%type.

Lemma assemble_local total local s : zlen local = total -> total < 2 ^ 63 ->
  assemble total local None s = (Ok local, s).
Proof.
  intros Hl Ht. unfold assemble. destruct (Z.geb_spec total (2 ^ 63)); [lia|]. rewrite (M_bind_ok (gets pg_usable_size) _ s (pg_usable_size (fst s)) s) by by destruct s.
  rewrite (M_bind_ok (assemble_loop _ _ _ _) _ s local s).
  - rewrite Hl, Z.ltb_irrefl. by rewrite ztake_all by lia.
  - cbn [assemble_loop]. by rewrite Hl, Z.ltb_irrefl.
Qed.

Context (ki : list KeyField) (page : bytes) (hdr : PageHeader) (usable : Z) (enc : TextEncoding)
  (keys : list (list Value)) (prefix : list Value) (s : State) (root : Z).
Hypothesis Hpage : get_page root s = (Ok page, s).
Hypothesis Hhdr : header_of page root = Ok hdr.
Hypothesis Hleaf : page_type hdr = LeafIndex.
Hypothesis Hus : pg_usable_size (fst s) = usable.
Hypothesis Henc : text_encoding (pg_header (fst s)) = enc.
Hypothesis Hkeys : leaf_holds page hdr usable enc keys.
Hypothesis Hlen : Forall (fun k => zlen k = zlen prefix + 1) keys.

Definition prefix_below (k : list Value) : bool := bool_decide (fields_cmp 0 (key_prefix k) prefix ki = Lt).

Lemma key_search_loop_ge fuel c lo hi :
  ic_usable c = usable -> ic_key_info c = ki ->
  downward prefix_below keys -> between prefix_below keys lo hi -> hi - lo < Z.of_nat fuel ->
  exists i, key_search_loop fuel page hdr enc prefix Seek_Ge lo hi (c, s) = (Ok i, (c, s)) /\ lower_bound prefix_below keys i.
Proof using Hkeys Hlen.
  intros Hcu Hck Hd. revert lo hi. induction fuel as [|fuel IH]; intros lo hi Hb Hf; [destruct Hb; lia|]. cbn [key_search_loop].
  destruct (Z.ltb_spec lo hi) as [Hlt|Hge].
  - destruct (between_mid _ _ _ _ Hb Hlt) as (k & Hget & Hmid).
    destruct (proj2 Hkeys _ _ Hget) as (off & cell & H1 & H2 & H3 & H4 & H5 & H6).
    pose proof (Forall_zget _ _ _ _ Hlen Hget) as Hk. cbn beta in Hk.
    rewrite (M_bind_ok (geti id) _ (c, s) c (c, s)) by done. cbn beta zeta. rewrite H1.
    rewrite (M_bind_ok (lift (Ok off)) _ (c, s) off (c, s)) by done. rewrite Hcu, H2.
    rewrite (M_bind_ok (lift (Ok cell)) _ (c, s) cell (c, s)) by done.
    rewrite (M_bind_ok (on_pager _) _ (c, s) (il_local cell) (c, s)).
    2: { unfold on_pager, on_snd, assemble_index_payload. rewrite H3. by rewrite assemble_local. }
    rewrite H6. rewrite (M_bind_ok (lift (Ok k)) _ (c, s) k (c, s)) by done.
    rewrite key_prefix_take, Hck, compare_prefix_fields by done. cbn [seek_pos].
    fold (prefix_below k). destruct (prefix_below k) eqn:Hp; apply IH; try lia.
    + by apply (between_right _ _ lo hi k).
    + by apply (between_left _ _ lo hi k).
  - exists lo. split; [done|]. assert (lo = hi) as <- by (destruct Hb; lia). exact Hb.
Qed.

(** Seeking the first entry not below [prefix] on a root that is a leaf. *)
Lemma ic_seek_leaf fuel : (0 < fuel)%nat -> downward prefix_below keys ->
  exists i c, lower_bound prefix_below keys i /\
    ic_seek fuel Seek_Ge prefix (ic_new root ki (fst s), s) = (Ok (bool_decide (i < zlen keys)), (c, s)) /\
    (forall k, zget keys i = Some k -> decode_record (ic_payload c) enc = Ok k).
Proof using All.
  intros Hfuel Hd. destruct fuel as [|fuel]; [lia|].
  set (c1 := ic_set_leaf root page hdr (ic_reset (ic_new root ki (fst s)))).
  destruct (key_search_loop_ge (S (Z.to_nat (num_cells hdr))) c1 0 (num_cells hdr)) as (i & Hloop & Hb); try done.
  { by rewrite <- (proj1 Hkeys); apply between_start. }
  { pose proof (proj1 Hkeys). pose proof (zlen_nonneg keys). lia. }
  set (c2 := ic_set_pending false (ic_set_cell_idx i c1)).
  assert (ic_descend_to_target (S fuel) root Seek_Ge prefix (ic_reset (ic_new root ki (fst s)), s) = (Ok tt, (c2, s))) as Hdesc.
  { cbn [ic_descend_to_target]. rewrite (M_bind_ok (on_pager _) _ _ page (ic_reset (ic_new root ki (fst s)), s)).
    2: { unfold on_pager, on_snd. by rewrite Hpage. }
    rewrite Hhdr. rewrite (M_bind_ok (lift (Ok hdr)) _ _ hdr (ic_reset (ic_new root ki (fst s)), s)) by done. rewrite Hleaf.
    rewrite (M_bind_ok (updi _) _ _ tt (c1, s)) by done.
    rewrite (M_bind_ok (leaf_index_for_key _ _) _ _ i (c1, s)); [done|].
    unfold leaf_index_for_key. rewrite (M_bind_ok (geti id) _ (c1, s) c1 (c1, s)) by done.
    rewrite (M_bind_ok (lift (expect (ic_leaf c1))) _ (c1, s) page (c1, s)) by done.
    rewrite (M_bind_ok (lift (expect (ic_leaf_hdr c1))) _ (c1, s) hdr (c1, s)) by done.
    rewrite (M_bind_ok (on_pager encoding_of) _ (c1, s) enc (c1, s)).
    2: { rewrite <- Henc. by destruct s. }
    by rewrite (M_bind_ok (key_search_loop _ _ _ _ _ _ _ _) _ (c1, s) i (c1, s)). }
  assert (ic_is_valid c2 = bool_decide (i < zlen keys)) as Hvalid.
  { unfold ic_is_valid, c2. cbn. rewrite (proj1 Hkeys). destruct (Z.ltb_spec i (num_cells hdr)); [by rewrite bool_decide_eq_true_2|by rewrite bool_decide_eq_false_2 by lia]. }
  destruct (zget keys i) as [k|] eqn:Hget.
  - destruct (proj2 Hkeys _ _ Hget) as (off & cell & H1 & H2 & H3 & H4 & H5 & H6). pose proof (zget_Some _ _ _ Hget).
    exists i, (ic_set_payload (Some (il_local cell)) c2). split_and!; [done| |intros k' Hk'; assert (k' = k) as -> by congruence; exact H6].
    unfold ic_seek. rewrite (M_bind_ok (updi ic_reset) _ _ tt (ic_reset (ic_new root ki (fst s)), s)) by done.
    rewrite (M_bind_ok (geti ic_root) _ _ root (ic_reset (ic_new root ki (fst s)), s)) by done.
    rewrite (M_bind_ok _ _ _ tt (c2, s) Hdesc).
    rewrite (M_bind_ok refresh_payload _ _ tt (ic_set_payload (Some (il_local cell)) c2, s)).
    { change (geti ic_is_valid (ic_set_payload (Some (il_local cell)) c2, s)) with (@Ok bool (ic_is_valid c2), (ic_set_payload (Some (il_local cell)) c2, s)).
      rewrite Hvalid. done. }
    unfold refresh_payload. rewrite (M_bind_ok (geti id) _ (c2, s) c2 (c2, s)) by done. rewrite Hvalid, bool_decide_eq_true_2 by lia.
    cbn [negb]. rewrite (M_bind_ok (lift (expect (ic_leaf c2))) _ (c2, s) page (c2, s)) by done.
    rewrite (M_bind_ok (lift (expect (ic_leaf_hdr c2))) _ (c2, s) hdr (c2, s)) by done.
    change (ic_cell_idx c2) with i. rewrite H1. rewrite (M_bind_ok (lift (Ok off)) _ (c2, s) off (c2, s)) by done.
    change (ic_usable c2) with (pg_usable_size (fst s)). rewrite Hus, H2. rewrite (M_bind_ok (lift (Ok cell)) _ (c2, s) cell (c2, s)) by done.
    rewrite (M_bind_ok (on_pager _) _ (c2, s) (il_local cell) (c2, s)); [done|].
    unfold on_pager, on_snd, assemble_index_payload. rewrite H3. by rewrite assemble_local.
  - exists i, (ic_set_payload None c2). split_and!; [done| |intros ? Hk; congruence]. apply zget_None in Hget. destruct Hb as (? & ? & _).
    unfold ic_seek. rewrite (M_bind_ok (updi ic_reset) _ _ tt (ic_reset (ic_new root ki (fst s)), s)) by done.
    rewrite (M_bind_ok (geti ic_root) _ _ root (ic_reset (ic_new root ki (fst s)), s)) by done.
    rewrite (M_bind_ok _ _ _ tt (c2, s) Hdesc).
    rewrite (M_bind_ok refresh_payload _ _ tt (ic_set_payload None c2, s)).
    { change (geti ic_is_valid (ic_set_payload None c2, s)) with (@Ok bool (ic_is_valid c2), (ic_set_payload None c2, s)).
      rewrite Hvalid. done. }
    unfold refresh_payload. rewrite (M_bind_ok (geti id) _ (c2, s) c2 (c2, s)) by done. by rewrite Hvalid, bool_decide_eq_false_2 by lia.
Qed.

Lemma prefix_below_downward search : key_prefix search = prefix -> key_ok search -> Forall key_ok keys ->
  StronglySorted (fun a b => key_cmp ki a b <> Gt) keys -> downward prefix_below keys.
Proof using Type.
  intros Hpre Hs Hk Hss i j a b Ha Hb Hij Hp. apply bool_decide_eq_true in Hp. apply bool_decide_eq_true.
  destruct (Z.eq_dec i j) as [->|]; [congruence|]. pose proof (ss_zget _ keys i j a b Hss Ha Hb ltac:(lia)) as Hab.
  apply key_le_prefix in Hab. unfold prefix_le in Hab. pose proof (fields_cmp_orders 0 ki) as Ho.
  destruct (key_ok_parts _ (Forall_zget _ _ _ _ Hk Ha)) as [Fa _], (key_ok_parts _ (Forall_zget _ _ _ _ Hk Hb)) as [Fb _].
  destruct (key_ok_parts _ Hs) as [Fs _]. rewrite Hpre in Fs. set (pa := key_prefix a) in *. set (pb := key_prefix b) in *.
  destruct (fields_cmp 0 pa pb ki) eqn:Hc; [by rewrite (ord_eq _ _ Ho pa pb prefix)|by apply (ord_trans _ _ Ho pa pb prefix)|done].
Qed.

(** A key with the fields [prefix] is found at the lower bound, if there is one. *)
Lemma equal_at_bound search i : key_prefix search = prefix -> key_ok search -> Forall key_ok keys ->
  StronglySorted (fun a b => key_cmp ki a b <> Gt) keys -> lower_bound prefix_below keys i ->
  existsb (fun k => bool_decide (fields_cmp 0 (key_prefix k) prefix ki = Eq)) keys =
  match zget keys i with Some k => bool_decide (fields_cmp 0 (key_prefix k) prefix ki = Eq) | None => false end.
Proof using Type.
  intros Hpre Hs Hk Hss Hb. destruct (existsb _ keys) eqn:Ex.
  - apply existsb_exists in Ex as (k & Hin & Heq). apply bool_decide_eq_true in Heq.
    apply list_elem_of_In, list_elem_of_lookup in Hin as (n & Hn). apply zget_nat in Hn. set (j := Z.of_nat n) in *.
    destruct Hb as (? & ? & Hlo & Hhi). assert (i <= j) as Hij.
    { destruct (Z.le_gt_cases i j); [done|]. assert (prefix_below k = true) as Hp by (apply (Hlo j); [done|lia]).
      apply bool_decide_eq_true in Hp. congruence. }
    pose proof (zget_Some _ _ _ Hn). destruct (zget_in keys i) as [a Ha]; [lia|]. rewrite Ha. symmetry. apply bool_decide_eq_true.
    destruct (Z.eq_dec i j) as [Hij'|Hne]; [rewrite Hij' in Ha; congruence|].
    assert (prefix_below a = false) as Hp by (apply (Hhi i); [done|lia]). apply bool_decide_eq_false in Hp.
    pose proof (ss_zget _ keys i j a k Hss Ha Hn ltac:(lia)) as Hab. apply key_le_prefix in Hab. unfold prefix_le in Hab.
    pose proof (fields_cmp_orders 0 ki) as Ho.
    destruct (key_ok_parts _ (Forall_zget _ _ _ _ Hk Ha)) as [Fa _], (key_ok_parts _ (Forall_zget _ _ _ _ Hk Hn)) as [Fk _].
    destruct (key_ok_parts _ Hs) as [Fs _]. rewrite Hpre in Fs.
    assert (fields_cmp 0 (key_prefix a) prefix ki <> Gt) as Hng by (apply (le_trans _ _ Ho _ (key_prefix k)); unfold le; [done..|by rewrite Heq]).
    by destruct (fields_cmp 0 (key_prefix a) prefix ki).
  - destruct (zget keys i) as [a|] eqn:Ha; [|done]. symmetry. apply bool_decide_eq_false. intros Heq.
    assert (existsb (fun k => bool_decide (fields_cmp 0 (key_prefix k) prefix ki = Eq)) keys = true); [|congruence].
    apply existsb_exists. exists a. split; [|by apply bool_decide_eq_true].
    apply list_elem_of_In. unfold zget in Ha. destruct (i <? 0); [done|]. by eapply list_elem_of_lookup_2.
Qed.
End Unique.

(** C38: the UNIQUE check of an index that is one leaf in order fails exactly
    when the key has no NULL among its fields and a key with the same fields is
    there; it changes nothing. *)
Theorem check_unique_constraint_spec {E F} `{VfsOps E F} ki page hdr enc keys (s : Pager F * (Proc * E)) root key_record search fuel :
  get_page root s = (Ok page, s) -> header_of page root = Ok hdr -> page_type hdr = LeafIndex ->
  text_encoding (pg_header (fst s)) = enc -> leaf_holds page hdr (pg_usable_size (fst s)) enc keys ->
  Forall key_ok keys -> StronglySorted (fun a b => key_cmp ki a b <> Gt) keys ->
  decode_record key_record enc = Ok search -> key_ok search -> 1 < zlen search ->
  Forall (fun k => zlen k = zlen search) keys -> (0 < fuel)%nat ->
  check_unique_constraint fuel root key_record ki s =
    (if (if existsb is_null (key_prefix search) then false
         else existsb (fun k => bool_decide (fields_cmp 0 (key_prefix k) (key_prefix search) ki = Eq)) keys)
     then Err (Error_new RC_Constraint "UNIQUE constraint failed") else Ok tt, s).
Proof.
  intros Hpage Hhdr Hleaf Henc Hkeys Hk Hss Hdec Hs Hl1 Hlen Hfuel. unfold check_unique_constraint.
  rewrite (M_bind_ok encoding_of _ s enc s) by (by destruct s; rewrite <- Henc). rewrite Hdec.
  rewrite (M_bind_ok (lift (Ok search)) _ s search s) by done. cbn zeta. pose proof (key_prefix_len search) as Hpl.
  destruct (Z.eqb_spec (zlen (key_prefix search)) 0); [lia|]. destruct (existsb is_null _); [done|].
  rewrite (M_bind_ok (gets id) _ s (fst s) s) by by destruct s.
  assert (Forall (fun k => zlen k = zlen (key_prefix search) + 1) keys) as Hlen'.
  { eapply Forall_impl; [exact Hlen|]. intros k ->. lia. }
  assert (downward (prefix_below ki (key_prefix search)) keys) as Hd by by eapply prefix_below_downward.
  destruct (ic_seek_leaf ki page hdr _ enc keys (key_prefix search) s root Hpage Hhdr Hleaf eq_refl Henc Hkeys Hlen' fuel Hfuel Hd)
    as (i & c & Hb & Hseek & Hdecode).
  rewrite (equal_at_bound ki keys (key_prefix search) search i) by done.
  rewrite (M_bind_ok (with_cursor _ _) _ s (bool_decide (i < zlen keys), c) s) by (unfold with_cursor; by rewrite Hseek).
  destruct (zget keys i) as [k|] eqn:Hget.
  - pose proof (zget_Some _ _ _ Hget). rewrite bool_decide_eq_true_2 by lia. cbn [negb]. rewrite (Hdecode k eq_refl).
    rewrite (M_bind_ok (lift (Ok k)) _ s k s) by done. pose proof (Forall_zget _ _ _ _ Hlen Hget) as Hkl. cbn beta in Hkl.
    assert (zlen (key_prefix k) = zlen (key_prefix search)) as Hpe by (rewrite !key_prefix_len; lia).
    rewrite Hpe, Z.eqb_refl. cbn [negb]. rewrite prefixes_equal_fields by done. destruct (bool_decide (fields_cmp 0 (key_prefix k) (key_prefix search) ki = Eq)); reflexivity.
  - apply zget_None in Hget. destruct Hb as (? & ? & _). by rewrite bool_decide_eq_false_2 by lia.
Qed.

Lemma check_unique_constraint_spec_witness :
  let s := (mkPager "db" 1%nat 512 512 (fresh_header 512) 2 {[2 := Sample.page]} ∅ None [] None,
            (mkProc 7 0 0, mkMemVfs ∅ ∅ ∅ ∅ ∅ ∅ ∅ 0)) in
  check_unique_constraint 1 2 (encode_record [Text [65]; Int 9]) Sample.key_info s =
    (Err (Error_new RC_Constraint "UNIQUE constraint failed"), s).
Proof.
  cbv zeta. set (s := (mkPager _ _ _ _ _ _ _ _ _ _ _, _)).
  rewrite (check_unique_constraint_spec Sample.key_info Sample.page Sample.hdr Utf8 Sample.key_list s 2 _ [Text [65]; Int 9] 1).
  - vm_compute. reflexivity.
  - vm_compute. reflexivity.
  - vm_compute. reflexivity.
  - vm_compute. reflexivity.
  - reflexivity.
  - apply Sample.page_holds.
  - apply Sample.keys_ok.
  - apply Sample.keys_sorted.
  - vm_compute. reflexivity.
  - split; [done|]. repeat constructor; try done; unfold byte_ok, is_i64; try lia; vm_compute; reflexivity.
  - by vm_compute.
  - repeat constructor.
  - lia.
Defined.

(** ** Where the seeks go wrong *)

Definition sample_seek (op : SeekOp) (key : list Value) : outcome bool * Z :=
  let p := mkPager "db" 1%nat 512 512 (fresh_header 512) 2 {[2 := Sample.page]} ∅ None [] None in
  let '(r, (c, _)) := ic_seek 1 op key (ic_new 2 Sample.key_info p, (p, (mkProc 7 0 0, mkMemVfs ∅ ∅ ∅ ∅ ∅ ∅ ∅ 0))) in
  (r, ic_cell_idx c).
(** The keys are 3, 5 and a text. No key is [<= 2], yet the seek succeeds, on
    the first key. *)
Lemma seek_le_no_match : sample_seek Seek_Le [Int 2] = (Ok true, 0).
Proof. vm_compute. reflexivity. Qed.
(** The last key below 6 is the second; the search is inverted and stops on the
    first. *)
Lemma seek_lt_inverted : sample_seek Seek_Lt [Int 6] = (Ok true, 0).
Proof. vm_compute. reflexivity. Qed.
