(* ===== verification/VdbeOps.v ===== *)
(** * Value operations of the virtual machine

    The functions at the end of [vdbe/exec.rs] that compute on values:
    arithmetic, bit operations, concatenation, three-valued logic, the final
    value of an accumulator; and the runtime context with its generator. *)

From S2P Require Import Prelude Utf8 Float64 Value Str Fp FloatOps DbHeader Record Aggregate Program.
#[local] Open Scope Z_scope.

(** ** P4 accessors *)

Definition as_p4_int (p : P4) : Z := match p with P4_Int i => i | _ => 0 end.
Definition as_p4_real (p : P4) : Z := match p with P4_Real r => r | _ => 0 end.
Definition as_p4_text (p : P4) : bytes := match p with P4_Text s | P4_Symbol s => s | _ => [] end.
Definition as_p4_blob (p : P4) : bytes := match p with P4_Blob b => b | _ => [] end.
Definition p4_len (p : P4) : Z := match p with P4_Int n => Z.max n 0 | _ => 0 end.
Definition collation_of (p : P4) : Collation :=
  match p with P4_Symbol name => default Binary (Collation_from_name name) | _ => Binary end.

Definition char_to_aff (ch : Z) : Affinity :=
  let ch := if (97 <=? ch) && (ch <=? 122) then ch - 32 else ch in
  if ch =? 65 then AffBlob
  else if ch =? 66 then AffText
  else if ch =? 67 then AffNumeric
  else if ch =? 68 then AffInteger
  else if ch =? 69 then AffReal
  else if ch =? 84 then AffText
  else if ch =? 78 then AffNumeric
  else if ch =? 73 then AffInteger
  else if ch =? 82 then AffReal
  else AffBlob.

(** ** Three-valued logic *)

Definition truth (v : Value) : option bool :=
  if is_null v then None else Some (negb (f64_is_zero (as_f64 v))).
Definition and3 (a b : option bool) : option bool :=
  match a, b with
  | Some false, _ | _, Some false => Some false
  | Some true, Some true => Some true
  | _, _ => None
  end.
Definition or3 (a b : option bool) : option bool :=
  match a, b with
  | Some true, _ | _, Some true => Some true
  | Some false, Some false => Some false
  | _, _ => None
  end.
Definition bool3_to_value (b : option bool) : Value :=
  match b with None => Null | Some t => Int (if t then 1 else 0) end.

(** ** Arithmetic *)

Inductive Num := N_I (i : Z) | N_R (r : Z).
Definition parse_num (s : bytes) : Num :=
  match fst (numeric_prefix s) with
  | Some (Int i) => N_I i
  | Some (Real r) => N_R r
  | _ => N_I 0
  end.
Definition to_num (v : Value) : option Num :=
  match v with
  | Null => None
  | Int i => Some (N_I i)
  | Real r => Some (N_R r)
  | Text s => Some (parse_num s)
  | Blob b => Some (parse_num (from_utf8_lossy b))
  end.
Definition num_f (n : Num) : Z := match n with N_I i => i64_as_f64 i | N_R r => r end.

(** The arms for two integers. *)
Definition arith_int (op : Opcode) (ib ia : Z) : outcome Value :=
  let or_real r f := Ok (from_option Int (Real (f (i64_as_f64 ib) (i64_as_f64 ia))) (checked_i64 r)) in
  match op with
  | Opcode.Add => or_real (ib + ia) f64_add
  | Opcode.Subtract => or_real (ib - ia) f64_sub
  | Opcode.Multiply => or_real (ib * ia) f64_mul
  | Opcode.Divide =>
      if ia =? 0 then Ok Null
      else if (ia =? -1) && (ib =? - 2 ^ 63) then Ok (Real (f64_div (i64_as_f64 ib) (i64_as_f64 ia)))
      else Ok (Int (Z.quot ib ia))
  | Opcode.Remainder =>
      if ia =? 0 then Ok Null
      else let ia := if ia =? -1 then 1 else ia in Ok (Int (Z.rem ib ia))
  | _ => Panic
  end.
Definition arith (op : Opcode) (b a : Value) : outcome Value :=
  match to_num b, to_num a with
  | Some nb, Some na =>
      match nb, na with
      | N_I ib, N_I ia => arith_int op ib ia
      | _, _ =>
          let rb := num_f nb in
          let ra := num_f na in
          r ← match op with
              | Opcode.Add => Ok (Some (f64_add rb ra))
              | Opcode.Subtract => Ok (Some (f64_sub rb ra))
              | Opcode.Multiply => Ok (Some (f64_mul rb ra))
              | Opcode.Divide => Ok (if f64_is_zero ra then None else Some (f64_div rb ra))
              | Opcode.Remainder =>
                  let ia := f64_to_i64 ra in
                  let ib := f64_to_i64 rb in
                  Ok (if ia =? 0 then None
                      else let ia := if ia =? -1 then 1 else ia in Some (i64_as_f64 (Z.rem ib ia)))
              | _ => Panic
              end;
          Ok (match r with
              | Some r => if f64_is_nan r then Null else Real r
              | None => Null
              end)
      end
  | _, _ => Ok Null
  end.

(** ** Bit operations *)

Definition is_shift (op : Opcode) : bool := match op with Opcode.ShiftLeft | Opcode.ShiftRight => true | _ => false end.
Definition is_left (op : Opcode) : bool := match op with Opcode.ShiftLeft => true | _ => false end.

(** The shift of [ia] by [ib], in the direction [to_left]. *)
Definition shift (to_left : bool) (ia ib : Z) : Z :=
  let '(to_left, ib) := if ib <? 0 then (negb to_left, if ib >? -64 then - ib else 64) else (to_left, ib) in
  if ib >=? 64 then (if (0 <=? ia) || to_left then 0 else -1)
  else
    let ua := u64 ia in
    let ua := if to_left then u64 (Z.shiftl ua ib)
              else
                let ua := Z.shiftr ua ib in
                if ia <? 0 then Z.lor ua (u64 (Z.shiftl (2 ^ 64 - 1) (64 - ib))) else ua in
    i64 ua.
Definition bitwise (op : Opcode) (b a : Value) : outcome Value :=
  if is_null b || is_null a then Ok Null
  else
    let ia := as_i64 b in
    let ib := as_i64 a in
    let ia' := if negb (ib =? 0) && is_shift op then shift (is_left op) ia ib else ia in
    match op with
    | Opcode.BitAnd => Ok (Int (Z.land ia' ib))
    | Opcode.BitOr => Ok (Int (Z.lor ia' ib))
    | Opcode.ShiftLeft | Opcode.ShiftRight => Ok (Int ia')
    | _ => Panic
    end.
Definition bit_not (v : Value) : Value := match v with Null => Null | v => Int (- as_i64 v - 1) end.

Definition concat (b a : Value) : outcome Value :=
  tb ← to_text b;
  ta ← to_text a;
  Ok (match tb, ta with Some tb, Some ta => Text (tb ++ ta) | _, _ => Null end).

(** ** Comparison *)

(** [compare]: the operands are those in the registers; [None] is unknown. *)
Definition compare_values (op : Opcode) (left right : Value) (p5 : Z) (p : P4) : outcome (option bool) :=
  let nulleq := negb (Z.land p5 P5_NULLEQ =? 0) in
  if negb nulleq && (is_null left || is_null right) then Ok None
  else
    '(l, r) ← (if nulleq then Ok (left, right)
               else match p5_to_aff p5 with
                    | Some af => l ← apply_affinity left af; r ← apply_affinity right af; Ok (l, r)
                    | None => Ok (left, right)
                    end);
    let ord := mem_compare l r (collation_of p) in
    match op with
    | Opcode.Eq => Ok (Some (bool_decide (ord = Eq)))
    | Opcode.Ne => Ok (Some (negb (bool_decide (ord = Eq))))
    | Opcode.Lt => Ok (Some (bool_decide (ord = Lt)))
    | Opcode.Le => Ok (Some (negb (bool_decide (ord = Gt))))
    | Opcode.Gt => Ok (Some (bool_decide (ord = Gt)))
    | Opcode.Ge => Ok (Some (negb (bool_decide (ord = Lt))))
    | _ => Panic
    end.

(** ** Accumulators *)

Definition finalize_accumulator (acc : Accumulator) (kind : AggregateKind) : outcome Value :=
  match kind with
  | AggregateKind.Count => Ok (Int (a_count acc))
  | AggregateKind.Sum =>
      Ok (if a_count acc =? 0 then Null
          else if a_has_real acc then Real (a_sum_r acc) else Int (a_sum_i acc))
  | AggregateKind.Total => Ok (Real (if a_has_real acc then a_sum_r acc else i64_as_f64 (a_sum_i acc)))
  | AggregateKind.Avg =>
      Ok (if a_count acc =? 0 then Null
          else
            let total := if a_has_real acc then a_sum_r acc else i64_as_f64 (a_sum_i acc) in
            Real (f64_div total (i64_as_f64 (a_count acc))))
  | AggregateKind.Min | AggregateKind.Max => Ok (default Null (a_best acc))
  | AggregateKind.GroupConcat => Ok (from_option Text Null (a_concat acc))
  | AggregateKind.JsonGroupArray => Ok (Text (match a_json_array acc with Some cur => cur ++ [93] | None => bytes_of "[]" end))
  | AggregateKind.JsonGroupObject => Ok (Text (match a_json_object acc with Some cur => cur ++ [125] | None => bytes_of "{}" end))
  | _ => '(v, _) ← acc_value_mut acc; Ok v
  end.
Definition empty_aggregate_result (kind : AggregateKind) : Value :=
  match kind with
  | AggregateKind.Count => Int 0
  | AggregateKind.Sum | AggregateKind.Avg | AggregateKind.Min | AggregateKind.Max | AggregateKind.GroupConcat => Null
  | AggregateKind.Total => Real 0
  | AggregateKind.JsonGroupArray => Text (bytes_of "[]")
  | AggregateKind.JsonGroupObject => Text (bytes_of "{}")
  | AggregateKind.RowNumber | AggregateKind.Rank | AggregateKind.DenseRank | AggregateKind.Ntile => Int 0
  | AggregateKind.PercentRank | AggregateKind.CumeDist => Real 0
  | AggregateKind.FirstValue | AggregateKind.LastValue | AggregateKind.NthValue | AggregateKind.Lead
  | AggregateKind.Lag => Null
  end.

(** ** The runtime context *)

(** [DateCtx::now()] reads the clock: [rc_clock] is what it would answer. *)
Record DateCtx := mkDateCtx { now_jd : Z }.
Record RuntimeCtx := mkCtx {
  rng_state : Z; changes : Z; total_changes : Z; last_insert_rowid : Z; did_insert : bool;
  date_ctx : option DateCtx; rc_clock : option DateCtx }.

Definition xorshift_mul64 (k m x : Z) : Z := u64 (Z.lxor x (Z.shiftr x k) * m).
(** [bump] is the process-wide counter. *)
Definition RuntimeCtx_new (pid bump : Z) (clock : option DateCtx) : RuntimeCtx :=
  let seed := Z.lxor (u64 (Z.shiftl pid 32)) (u64 (bump * 0x9e3779b97f4a7c15)) in
  let seed := xorshift_mul64 30 0xbf58476d1ce4e5b9 seed in
  let seed := xorshift_mul64 27 0x94d049bb133111eb seed in
  mkCtx (Z.lxor seed (Z.shiftr seed 31)) 0 0 0 false None clock.
Definition with_rng (r : Z) (c : RuntimeCtx) : RuntimeCtx :=
  mkCtx r (changes c) (total_changes c) (last_insert_rowid c) (did_insert c) (date_ctx c) (rc_clock c).
Definition with_changes (n t : Z) (c : RuntimeCtx) : RuntimeCtx :=
  mkCtx (rng_state c) n t (last_insert_rowid c) (did_insert c) (date_ctx c) (rc_clock c).
Definition with_rowid (r : Z) (ins : bool) (c : RuntimeCtx) : RuntimeCtx :=
  mkCtx (rng_state c) (changes c) (total_changes c) r ins (date_ctx c) (rc_clock c).

Definition next_u64 (c : RuntimeCtx) : Z * RuntimeCtx :=
  let s := u64 (rng_state c + 0x9e3779b97f4a7c15) in
  let z := xorshift_mul64 30 0xbf58476d1ce4e5b9 s in
  let z := xorshift_mul64 27 0x94d049bb133111eb z in
  (Z.lxor z (Z.shiftr z 31), with_rng s c).
Definition next_i64 (c : RuntimeCtx) : Z * RuntimeCtx := let '(x, c) := next_u64 c in (i64 x, c).

(** The loop draws eight bytes a round. *)
Fixpoint random_loop (fuel : nat) (n : Z) (out : bytes) (c : RuntimeCtx) : bytes * RuntimeCtx :=
  match fuel with
  | O => (out, c)
  | S fuel' =>
      if zlen out <? n
      then let '(x, c) := next_u64 c in random_loop fuel' n (out ++ le_bytes 8 x) c
      else (out, c)
  end.
Definition random_bytes (n : Z) (c : RuntimeCtx) : bytes * RuntimeCtx :=
  let '(out, c) := random_loop (Z.to_nat (n / 8 + 1)) n [] c in (ztake n out, c).
(** The clock is read once per statement. *)
Definition get_date_ctx (c : RuntimeCtx) : option DateCtx * RuntimeCtx :=
  let d := match date_ctx c with None => rc_clock c | some => some end in
  (d, mkCtx (rng_state c) (changes c) (total_changes c) (last_insert_rowid c) (did_insert c) d (rc_clock c)).

Definition SQLITE_MAX_LENGTH : Z := 1000000000.
Definition randomblob_len (arg : option Value) : outcome Z :=
  let n := match arg with Some v => if is_null v then 1 else as_i64 v | None => 1 end in
  if n >? SQLITE_MAX_LENGTH then Err (Error_msg "string or blob too big") else Ok (Z.max n 1).
Definition SQLITE_VERSION : bytes := bytes_of "3.53.1".
