(* ===== verification/Vdbe.v ===== *)
(** * The virtual machine: state and instructions

    [vdbe/exec.rs] and [vdbe/cursor.rs]: the registers, cursors, frames and
    accumulators of a running program, one definition per arm of the dispatch,
    and the loop that runs until a row or the end.

    The machine shares its pager: a method works on the [Vdbe] and on the state
    of the pager beside it, which is there when [v_open] says so. The
    [autocommit] flags are cells shared with the connection, the storage of
    ephemeral tables a store shared by their cursors. [bf] is the fuel of the
    b-tree operations, [drain] the order of the pager's hash map. Scalar and
    date functions come through the class [SqlFunctions]. *)

From S2P Require Import Prelude Varint Utf8 Float64 Value Str Fp FloatOps DbHeader Record Aggregate Program Sorter VdbeOps Vfs Wal Ptrmap BtreePage Pager Cell Balance BtreeInsert TableCursor IndexBtree PagerTxn.
#[local] Open Scope Z_scope.

(** ** Cursors ([vdbe/cursor.rs]) *)

Record PseudoCursor := mkPseudo { ps_reg : Z; ps_current : option (list Value); ps_encoding : TextEncoding }.
Definition pseudo_new (r : Z) (encoding : TextEncoding) : PseudoCursor := mkPseudo r None encoding.
Definition pseudo_data (p : PseudoCursor) (regs : list Value) : outcome PseudoCursor :=
  match zget regs (ps_reg p) with
  | Some (Blob b) => vs ← decode_record b (ps_encoding p); Ok (mkPseudo (ps_reg p) (Some vs) (ps_encoding p))
  | _ => Err (Error_msg "pseudo-cursor register is not a record blob")
  end.
Definition pseudo_column (p : PseudoCursor) (i : Z) : Value := current_column (ps_current p) i.

Inductive VdbeCursor :=
  | C_Table (c : TableCursor)
  | C_Index (c : IndexCursor)
  | C_Sorter (s : Sorter)
  | C_Ephemeral (e : Ephemeral)
  | C_Pseudo (p : PseudoCursor).

(** ** The machine *)

(** What [Program] saves of the caller. *)
Record VdbeFrame := mkFrame {
  fr_program : Program; fr_pc : Z; fr_regs : list Value; fr_cursors : list (option VdbeCursor);
  fr_cursor_root : gmap Z Z; fr_decoded : option (Z * Z * list Value); fr_aggregates : gmap Z Accumulator;
  fr_once_done : gset Z; fr_write_txn : bool; fr_param_base : Z; fr_token : Z }.

(** [v_frames] has the innermost frame first. *)
Record Vdbe := mkVdbe {
  v_program : Program; v_open : bool; v_encoding : TextEncoding; v_pc : Z; v_regs : list Value; v_cursors : list
  (option VdbeCursor); v_result_start : Z; v_result_count : Z; v_halted : bool; v_decoded : option (Z * Z * list
  Value); v_ctx : RuntimeCtx; v_cursor_root : gmap Z Z; v_write_txn : bool; v_autocommit : option bool;
  v_txn_savepoint : option bool; v_aggregates : gmap Z Accumulator; v_last_compare : comparison; v_once_done :
  gset Z; v_frames : list VdbeFrame; v_stmt_savepoint : option bytes; v_oe_override : option Z; v_eph : EphStore }.

Definition v_set_prog (x : Program) (v : Vdbe) : Vdbe := mkVdbe x (v_open v) (v_encoding v) (v_pc v) (v_regs v)
  (v_cursors v) (v_result_start v) (v_result_count v) (v_halted v) (v_decoded v) (v_ctx v) (v_cursor_root v)
  (v_write_txn v) (v_autocommit v) (v_txn_savepoint v) (v_aggregates v) (v_last_compare v) (v_once_done v) (v_frames
  v) (v_stmt_savepoint v) (v_oe_override v) (v_eph v).
Definition v_set_pc (x : Z) (v : Vdbe) : Vdbe := mkVdbe (v_program v) (v_open v) (v_encoding v) x (v_regs v)
  (v_cursors v) (v_result_start v) (v_result_count v) (v_halted v) (v_decoded v) (v_ctx v) (v_cursor_root v)
  (v_write_txn v) (v_autocommit v) (v_txn_savepoint v) (v_aggregates v) (v_last_compare v) (v_once_done v) (v_frames
  v) (v_stmt_savepoint v) (v_oe_override v) (v_eph v).
Definition v_set_regs (x : list Value) (v : Vdbe) : Vdbe := mkVdbe (v_program v) (v_open v) (v_encoding v) (v_pc v)
  x (v_cursors v) (v_result_start v) (v_result_count v) (v_halted v) (v_decoded v) (v_ctx v) (v_cursor_root v)
  (v_write_txn v) (v_autocommit v) (v_txn_savepoint v) (v_aggregates v) (v_last_compare v) (v_once_done v) (v_frames
  v) (v_stmt_savepoint v) (v_oe_override v) (v_eph v).
Definition v_set_cursors (x : list (option VdbeCursor)) (v : Vdbe) : Vdbe := mkVdbe (v_program v) (v_open v)
  (v_encoding v) (v_pc v) (v_regs v) x (v_result_start v) (v_result_count v) (v_halted v) (v_decoded v) (v_ctx v)
  (v_cursor_root v) (v_write_txn v) (v_autocommit v) (v_txn_savepoint v) (v_aggregates v) (v_last_compare v)
  (v_once_done v) (v_frames v) (v_stmt_savepoint v) (v_oe_override v) (v_eph v).
Definition v_set_halted (x : bool) (v : Vdbe) : Vdbe := mkVdbe (v_program v) (v_open v) (v_encoding v) (v_pc v)
  (v_regs v) (v_cursors v) (v_result_start v) (v_result_count v) x (v_decoded v) (v_ctx v) (v_cursor_root v)
  (v_write_txn v) (v_autocommit v) (v_txn_savepoint v) (v_aggregates v) (v_last_compare v) (v_once_done v) (v_frames
  v) (v_stmt_savepoint v) (v_oe_override v) (v_eph v).
Definition v_set_decoded (x : option (Z * Z * list Value)) (v : Vdbe) : Vdbe := mkVdbe (v_program v) (v_open v)
  (v_encoding v) (v_pc v) (v_regs v) (v_cursors v) (v_result_start v) (v_result_count v) (v_halted v) x (v_ctx v)
  (v_cursor_root v) (v_write_txn v) (v_autocommit v) (v_txn_savepoint v) (v_aggregates v) (v_last_compare v)
  (v_once_done v) (v_frames v) (v_stmt_savepoint v) (v_oe_override v) (v_eph v).
Definition v_set_ctx (x : RuntimeCtx) (v : Vdbe) : Vdbe := mkVdbe (v_program v) (v_open v) (v_encoding v) (v_pc v)
  (v_regs v) (v_cursors v) (v_result_start v) (v_result_count v) (v_halted v) (v_decoded v) x (v_cursor_root v)
  (v_write_txn v) (v_autocommit v) (v_txn_savepoint v) (v_aggregates v) (v_last_compare v) (v_once_done v) (v_frames
  v) (v_stmt_savepoint v) (v_oe_override v) (v_eph v).
Definition v_set_cursor_root (x : gmap Z Z) (v : Vdbe) : Vdbe := mkVdbe (v_program v) (v_open v) (v_encoding v)
  (v_pc v) (v_regs v) (v_cursors v) (v_result_start v) (v_result_count v) (v_halted v) (v_decoded v) (v_ctx v) x
  (v_write_txn v) (v_autocommit v) (v_txn_savepoint v) (v_aggregates v) (v_last_compare v) (v_once_done v) (v_frames
  v) (v_stmt_savepoint v) (v_oe_override v) (v_eph v).
Definition v_set_write_txn (x : bool) (v : Vdbe) : Vdbe := mkVdbe (v_program v) (v_open v) (v_encoding v) (v_pc v)
  (v_regs v) (v_cursors v) (v_result_start v) (v_result_count v) (v_halted v) (v_decoded v) (v_ctx v) (v_cursor_root
  v) x (v_autocommit v) (v_txn_savepoint v) (v_aggregates v) (v_last_compare v) (v_once_done v) (v_frames v)
  (v_stmt_savepoint v) (v_oe_override v) (v_eph v).
Definition v_set_autocommit (x : option bool) (v : Vdbe) : Vdbe := mkVdbe (v_program v) (v_open v) (v_encoding v)
  (v_pc v) (v_regs v) (v_cursors v) (v_result_start v) (v_result_count v) (v_halted v) (v_decoded v) (v_ctx v)
  (v_cursor_root v) (v_write_txn v) x (v_txn_savepoint v) (v_aggregates v) (v_last_compare v) (v_once_done v)
  (v_frames v) (v_stmt_savepoint v) (v_oe_override v) (v_eph v).
Definition v_set_txn_savepoint (x : option bool) (v : Vdbe) : Vdbe := mkVdbe (v_program v) (v_open v) (v_encoding v)
  (v_pc v) (v_regs v) (v_cursors v) (v_result_start v) (v_result_count v) (v_halted v) (v_decoded v) (v_ctx v)
  (v_cursor_root v) (v_write_txn v) (v_autocommit v) x (v_aggregates v) (v_last_compare v) (v_once_done v) (v_frames
  v) (v_stmt_savepoint v) (v_oe_override v) (v_eph v).
Definition v_set_aggregates (x : gmap Z Accumulator) (v : Vdbe) : Vdbe := mkVdbe (v_program v) (v_open v)
  (v_encoding v) (v_pc v) (v_regs v) (v_cursors v) (v_result_start v) (v_result_count v) (v_halted v) (v_decoded v)
  (v_ctx v) (v_cursor_root v) (v_write_txn v) (v_autocommit v) (v_txn_savepoint v) x (v_last_compare v) (v_once_done
  v) (v_frames v) (v_stmt_savepoint v) (v_oe_override v) (v_eph v).
Definition v_set_last_compare (x : comparison) (v : Vdbe) : Vdbe := mkVdbe (v_program v) (v_open v) (v_encoding v)
  (v_pc v) (v_regs v) (v_cursors v) (v_result_start v) (v_result_count v) (v_halted v) (v_decoded v) (v_ctx v)
  (v_cursor_root v) (v_write_txn v) (v_autocommit v) (v_txn_savepoint v) (v_aggregates v) x (v_once_done v)
  (v_frames v) (v_stmt_savepoint v) (v_oe_override v) (v_eph v).
Definition v_set_once_done (x : gset Z) (v : Vdbe) : Vdbe := mkVdbe (v_program v) (v_open v) (v_encoding v) (v_pc v)
  (v_regs v) (v_cursors v) (v_result_start v) (v_result_count v) (v_halted v) (v_decoded v) (v_ctx v) (v_cursor_root
  v) (v_write_txn v) (v_autocommit v) (v_txn_savepoint v) (v_aggregates v) (v_last_compare v) x (v_frames v)
  (v_stmt_savepoint v) (v_oe_override v) (v_eph v).
Definition v_set_frames (x : list VdbeFrame) (v : Vdbe) : Vdbe := mkVdbe (v_program v) (v_open v) (v_encoding v)
  (v_pc v) (v_regs v) (v_cursors v) (v_result_start v) (v_result_count v) (v_halted v) (v_decoded v) (v_ctx v)
  (v_cursor_root v) (v_write_txn v) (v_autocommit v) (v_txn_savepoint v) (v_aggregates v) (v_last_compare v)
  (v_once_done v) x (v_stmt_savepoint v) (v_oe_override v) (v_eph v).
Definition v_set_stmt_savepoint (x : option bytes) (v : Vdbe) : Vdbe := mkVdbe (v_program v) (v_open v) (v_encoding
  v) (v_pc v) (v_regs v) (v_cursors v) (v_result_start v) (v_result_count v) (v_halted v) (v_decoded v) (v_ctx v)
  (v_cursor_root v) (v_write_txn v) (v_autocommit v) (v_txn_savepoint v) (v_aggregates v) (v_last_compare v)
  (v_once_done v) (v_frames v) x (v_oe_override v) (v_eph v).
Definition v_set_oe_override (x : option Z) (v : Vdbe) : Vdbe := mkVdbe (v_program v) (v_open v) (v_encoding v)
  (v_pc v) (v_regs v) (v_cursors v) (v_result_start v) (v_result_count v) (v_halted v) (v_decoded v) (v_ctx v)
  (v_cursor_root v) (v_write_txn v) (v_autocommit v) (v_txn_savepoint v) (v_aggregates v) (v_last_compare v)
  (v_once_done v) (v_frames v) (v_stmt_savepoint v) x (v_eph v).
Definition v_set_eph (x : EphStore) (v : Vdbe) : Vdbe := mkVdbe (v_program v) (v_open v) (v_encoding v) (v_pc v)
  (v_regs v) (v_cursors v) (v_result_start v) (v_result_count v) (v_halted v) (v_decoded v) (v_ctx v) (v_cursor_root
  v) (v_write_txn v) (v_autocommit v) (v_txn_savepoint v) (v_aggregates v) (v_last_compare v) (v_once_done v)
  (v_frames v) (v_stmt_savepoint v) (v_oe_override v) x.
Definition v_set_result (start count : Z) (v : Vdbe) : Vdbe := mkVdbe (v_program v) (v_open v) (v_encoding v) (v_pc
  v) (v_regs v) (v_cursors v) start count (v_halted v) (v_decoded v) (v_ctx v) (v_cursor_root v) (v_write_txn v)
  (v_autocommit v) (v_txn_savepoint v) (v_aggregates v) (v_last_compare v) (v_once_done v) (v_frames v)
  (v_stmt_savepoint v) (v_oe_override v) (v_eph v).

Inductive StepResult := SR_Row | SR_Done.
#[export] Instance StepResult_eq_dec : EqDecision StepResult.
Proof. solve_decision. Defined.

Definition nregs (p : Program) : list Value := zrep (Z.max (num_registers p) 1) Null.
Definition Vdbe_new (p : Program) (opened : bool) (encoding : TextEncoding) (ctx : RuntimeCtx) : Vdbe :=
  mkVdbe p opened (if opened then encoding else Utf8) 0 (nregs p) [] 0 0 false None ctx ∅ false None None ∅ Eq ∅ []
    None None (mkEphStore ∅ 0).
Definition vdbe_reset (v : Vdbe) : Vdbe :=
  mkVdbe (v_program v) (v_open v) (v_encoding v) 0 (zrep (zlen (v_regs v)) Null) [] 0 0 false None (v_ctx v) ∅ false
    (v_autocommit v) (v_txn_savepoint v) ∅ Eq ∅ [] (v_stmt_savepoint v) (v_oe_override v) (v_eph v).
Definition result_value (v : Vdbe) (i : Z) : Value := default Null (zget (v_regs v) (v_result_start v + i)).
Definition change_counts (v : Vdbe) : Z * Z * Z * bool :=
  let c := v_ctx v in (changes c, total_changes c, last_insert_rowid c, did_insert c).
Definition is_autocommit (v : Vdbe) : bool := default true (v_autocommit v).
Definition is_txn_savepoint (v : Vdbe) : bool := default false (v_txn_savepoint v).
(** [if let Some(h) = handle { *h.lock().unwrap() = b; }]. *)
Definition set_autocommit (b : bool) (v : Vdbe) : Vdbe := v_set_autocommit ((fun _ => b) <$> v_autocommit v) v.
Definition set_is_txn_savepoint (b : bool) (v : Vdbe) : Vdbe := v_set_txn_savepoint ((fun _ => b) <$> v_txn_savepoint v) v.

Definition cursor_at (v : Vdbe) (i : Z) : option VdbeCursor := mjoin (zget (v_cursors v) i).
Definition put_cursor (i : Z) (c : option VdbeCursor) (v : Vdbe) : Vdbe :=
  v_set_cursors (<[Z.to_nat i := c]> (v_cursors v)) v.
Definition index_key_info (v : Vdbe) (i : Z) : list KeyField :=
  match cursor_at v i with Some (C_Index c) => ic_key_info c | _ => [] end.
Definition is_ephemeral (v : Vdbe) (i : Z) : bool :=
  match cursor_at v i with Some (C_Ephemeral _) => true | _ => false end.

(** The scalar functions ([func/registry.rs]) and the date functions. *)
Inductive DateFn := DF_Date | DF_Time | DF_Datetime | DF_Julianday | DF_Unixepoch | DF_Strftime | DF_Timediff.
Class SqlFunctions := {
  call_scalar : bytes -> list Value -> outcome Value;
  call_date : DateFn -> list Value -> option DateCtx -> outcome Value }.

Section Vdbe.
Context {E F : Type} `{VfsOps E F} `{SqlFunctions} (drain : gmap Z bytes -> list (Z * bytes)) (bf : nat).
Notation State := (Pager F * (Proc * E))%type.
Notation PM := (PagerM (E := E) (F := F)).

Definition VdbeM (A : Type) : Type := M (Vdbe * State) A.
Definition getv {A} (f : Vdbe -> A) : VdbeM A := on_fst (fun v => (Ok (f v), v)).
Definition updv (f : Vdbe -> Vdbe) : VdbeM unit := on_fst (modify f).
Definition no_database : Error := Error_msg "no database is open".
Definition with_pager {A} (m : PM A) : VdbeM A :=
  opened ← getv v_open;
  if (opened : bool) then on_snd m else fail no_database.
(** [if let Some(pager) = &self.pager { .. }]. *)
Definition if_pager (m : PM unit) : VdbeM unit :=
  opened ← getv v_open;
  if (opened : bool) then on_snd m else mret tt.

(** *** Registers and jumps *)

Definition reg (i : Z) : VdbeM Value := v ← getv id; lift (idx (v_regs v) i).
Definition regs_range (start n : Z) : VdbeM (list Value) := v ← getv id; lift (sub_range (v_regs v) start (start + n)).
Definition set_reg (i : Z) (x : Value) : VdbeM unit :=
  v ← getv id;
  if (0 <=? i) && (i <? zlen (v_regs v)) then updv (v_set_regs (<[Z.to_nat i := x]> (v_regs v))) else lift Panic.
(** [p as usize] for an [i32]. *)
Definition goto (p : Z) : VdbeM unit := updv (v_set_pc (u64 p)).
Definition advance : VdbeM unit := updv (fun v => v_set_pc (v_pc v + 1) v).
Definition jump_if (b : bool) (p : Z) : VdbeM unit := if b then goto p else advance.
Definition blob_reg (i : Z) (msg : string) : VdbeM bytes :=
  r ← reg i;
  match r with Blob b => mret b | _ => fail (Error_msg msg) end.

(** *** Cursors *)

(** [resize_with] of an index that was negative does not return. *)
Definition set_cursor (i : Z) (c : VdbeCursor) : VdbeM unit :=
  if i <? 0 then lift Panic
  else updv (fun v =>
    v_set_cursors (<[Z.to_nat i := Some c]> (v_cursors v ++ zrep (i + 1 - zlen (v_cursors v)) None)) v).
Definition cursor_root_of (i : Z) : VdbeM Z :=
  v ← getv id; lift (ok_or (v_cursor_root v !! i) (Error_msg "cursor has no recorded rootpage")).
(** Run a method of the cursor [i], which is changed in place. *)
Definition on_table {A} (i : Z) (m : CursorM (E := E) (F := F) A) : VdbeM A := fun '(v, st) =>
  match cursor_at v i with
  | Some (C_Table c) => let '(r, (c', st')) := m (c, st) in (r, (put_cursor i (Some (C_Table c')) v, st'))
  | _ => (Err (Error_msg "cursor is not an open table cursor"), (v, st))
  end.
Definition on_index {A} (i : Z) (m : IndexM (E := E) (F := F) A) : VdbeM A := fun '(v, st) =>
  match cursor_at v i with
  | Some (C_Index c) => let '(r, (c', st')) := m (c, st) in (r, (put_cursor i (Some (C_Index c')) v, st'))
  | _ => (Err (Error_msg "cursor is not an open index cursor"), (v, st))
  end.
Definition on_sorter {A} (i : Z) (m : M Sorter A) : VdbeM A := fun '(v, st) =>
  match cursor_at v i with
  | Some (C_Sorter s) => let '(r, s') := m s in (r, (put_cursor i (Some (C_Sorter s')) v, st))
  | _ => (Err (Error_msg "cursor is not an open sorter"), (v, st))
  end.
Definition on_ephemeral {A} (i : Z) (other : Error) (m : EphM A) : VdbeM A := fun '(v, st) =>
  match cursor_at v i with
  | Some (C_Ephemeral e) =>
      let '(r, (es, e')) := m (v_eph v, e) in (r, (v_set_eph es (put_cursor i (Some (C_Ephemeral e')) v), st))
  | _ => (Err other, (v, st))
  end.
Definition not_open : Error := Error_msg "cursor is not open".
(** [cursor_mut]. *)
Definition open_cursor (i : Z) : VdbeM VdbeCursor := v ← getv id; lift (ok_or (cursor_at v i) not_open).

(** The value of column [col] of cursor [i], through the cache of the last row. *)
Definition table_column (i col : Z) : VdbeM Value :=
  null ← on_table i (getc is_null_row);
  if (null : bool) then mret Null
  else
    rid ← on_table i (c ← getc id; lift (rowid c));
    v ← getv id;
    let hit := match v_decoded v with
               | Some (ci, r, vals) => if (ci =? i) && (r =? rid) then Some vals else None
               | None => None
               end in
    match hit with
    | Some vals => mret (default Null (zget vals col))
    | None =>
        pl ← on_table i payload;
        vals ← lift (decode_record pl (v_encoding v));
        updv (v_set_decoded (Some (i, rid, vals))) ;;
        mret (default Null (zget vals col))
    end.
Definition column (i col : Z) : VdbeM Value :=
  v ← getv id;
  match cursor_at v i with
  | Some (C_Sorter s) => mret (sorter_column s col)
  | Some (C_Ephemeral _) => on_ephemeral i not_open (eph_load ;; on_snd (fun e => (Ok (eph_column e col), e)))
  | Some (C_Pseudo p) =>
      p ← lift (pseudo_data p (v_regs v));
      updv (put_cursor i (Some (C_Pseudo p))) ;;
      mret (pseudo_column p col)
  | Some (C_Index c) =>
      if zlen (ic_payload c) =? 0 then mret Null
      else
        vals ← lift (decode_record (ic_payload c) (v_encoding v));
        mret (default Null (zget vals col))
  | _ => table_column i col
  end.
(** ** The arms of the dispatch *)

(** [pc] is the address of the instruction. *)
Definition exec_Once (pc : Z) (i : Instruction) : VdbeM unit :=
  v ← getv id;
  if decide (pc ∈ v_once_done v) then goto (p2 i)
  else updv (v_set_once_done ({[pc]} ∪ v_once_done v)) ;; advance.

(** *** Sub-programs and coroutines *)

Definition exec_Program (pc : Z) (i : Instruction) : VdbeM unit :=
  v ← getv id;
  if negb (p5 i =? 0) && existsb (fun f => fr_token f =? p5 i) (v_frames v) then advance
  else
    match p4 i with
    | P4_SubProgram sub =>
        let f := mkFrame (v_program v) (pc + 1) (v_regs v) (v_cursors v) (v_cursor_root v) (v_decoded v)
                   (v_aggregates v) (v_once_done v) (v_write_txn v) (p1 i) (p5 i) in
        updv (fun v => v_set_pc 0 (v_set_once_done ∅ (v_set_aggregates ∅ (v_set_decoded None (v_set_cursor_root ∅
          (v_set_cursors [] (v_set_regs (nregs sub) (v_set_frames (f :: v_frames v) (v_set_prog sub v)))))))))
    | _ => fail (Error_msg "OP_Program requires a SubProgram p4")
    end.
(** [param_base + p1] is an addition of [i32]s. *)
Definition exec_Param (i : Instruction) : VdbeM unit :=
  v ← getv id;
  match v_frames v with
  | [] => fail (Error_msg "OP_Param outside of a sub-program (no parent frame)")
  | f :: _ =>
      let parent_idx := fr_param_base f + p1 i in
      if (- 2 ^ 31 <=? parent_idx) && (parent_idx <? 2 ^ 31)
      then set_reg (p2 i) (default Null (zget (fr_regs f) parent_idx)) ;; advance
      else lift Panic
  end.
Definition exec_Gosub (pc : Z) (i : Instruction) : VdbeM unit := set_reg (p1 i) (Int (pc + 1)) ;; goto (p2 i).
Definition exec_Return (i : Instruction) : VdbeM unit :=
  r ← reg (p1 i);
  match r with
  | Int addr => goto addr
  | _ =>
      if p3 i =? 0 then fail (Error_msg "OP_Return: return-address register is not an integer")
      else advance
  end.
Definition exec_InitCoroutine (i : Instruction) : VdbeM unit :=
  set_reg (p1 i) (Int (p3 i)) ;; if negb (p2 i =? 0) then goto (p2 i) else advance.
Definition inst_at (p : Program) (pc : Z) : option Instruction := zget (instructions p) pc.
Definition exec_EndCoroutine (pc : Z) (i : Instruction) : VdbeM unit :=
  r ← reg (p1 i);
  match r with
  | Int a =>
      k ← lift (chk_i64 (a - 1));
      v ← getv id;
      caller ← lift (ok_or (inst_at (v_program v) (u64 k)) (Error_msg "OP_EndCoroutine: caller Yield not found"));
      match opcode caller with
      | Opcode.Yield => set_reg (p1 i) (Int pc) ;; goto (p2 caller)
      | _ => fail (Error_msg "OP_EndCoroutine: caller is not a Yield")
      end
  | _ => fail (Error_msg "OP_EndCoroutine: register does not hold a coroutine address")
  end.
Definition exec_Yield (pc : Z) (i : Instruction) : VdbeM unit :=
  r ← reg (p1 i);
  match r with
  | Int dest =>
      set_reg (p1 i) (Int (pc + 1)) ;;
      v ← getv id;
      match opcode <$> inst_at (v_program v) (u64 dest) with
      | Some Opcode.EndCoroutine => goto (p2 i)
      | _ => goto dest
      end
  | _ => fail (Error_msg "OP_Yield: register does not hold a coroutine address")
  end.

(** *** Comparing vectors of registers *)

Fixpoint compare_loop (ixs : list Z) (a b : Z) (ki : list KeyField) : VdbeM comparison :=
  match ixs with
  | [] => mret Eq
  | i :: ixs =>
      x ← reg (a + i);
      y ← reg (b + i);
      key ← lift (idx ki i);
      match (let o := mem_compare x y (kf_collation key) in if kf_desc key then CompOpp o else o) with
      | Eq => compare_loop ixs a b ki
      | o => mret o
      end
  end.
(** [0..n] for an [n] cast from a negative [i32] ends at the first register out
    of range, or at the first difference: registers are fewer than [2 ^ 31]. *)
Definition exec_Compare (i : Instruction) : VdbeM unit :=
  match p4 i with
  | P4_KeyInfo ki =>
      let n := if p3 i <? 0 then zlen ki + 1 else p3 i in
      ord ← compare_loop (seqZ 0 n) (p1 i) (p2 i) ki;
      updv (v_set_last_compare ord) ;; advance
  | _ => fail (Error_msg "OP_Compare requires a KeyInfo p4")
  end.
Definition exec_Jump (i : Instruction) : VdbeM unit :=
  c ← getv v_last_compare;
  goto (match c with Lt => p1 i | Eq => p2 i | Gt => p3 i end).

(** *** Halting *)

Definition fail_constraint (p2 : Z) (msg : string) : VdbeM unit :=
  (if negb (p2 =? 0) then updv (v_set_oe_override (Some (u8 p2))) else mret tt) ;;
  fail (Error_new RC_Constraint msg).
(** The text of an error, as the machine reports it. *)
Definition message_of (b : bytes) : string := String.string_of_list_ascii ((fun c => Ascii.ascii_of_N (Z.to_N c)) <$> b).
Definition constraint_message (p5 : Z) (base : string) : string :=
  if negb (p5 =? 0) && negb (bool_decide (base = EmptyString))
  then (if p5 =? 1 then "NOT NULL constraint failed: " else if p5 =? 2 then "UNIQUE constraint failed: "
        else if p5 =? 3 then "CHECK constraint failed: " else if p5 =? 4 then "FOREIGN KEY constraint failed: "
        else EmptyString) +:+ base
  else base.
(** Back to the calling program, past its [Program] or, for a conflict that is
    ignored, to the target of that instruction. *)
Definition pop_frame (f : VdbeFrame) (below : list VdbeFrame) (ignore : bool) : VdbeM unit :=
  updv (fun v => v_set_frames below (v_set_prog (fr_program f) (v_set_pc (fr_pc f) (v_set_regs (fr_regs f)
    (v_set_cursors (fr_cursors f) (v_set_cursor_root (fr_cursor_root f) (v_set_decoded (fr_decoded f)
    (v_set_aggregates (fr_aggregates f) (v_set_once_done (fr_once_done f) (v_set_write_txn (fr_write_txn f) v)))))))))) ;;
  if ignore
  then
    caller_pc ← lift (chk_sub (fr_pc f) 1);
    match inst_at (fr_program f) caller_pc with
    | Some c => match opcode c with Opcode.Program => goto (p2 c) | _ => mret tt end
    | None => mret tt
    end
  else mret tt.
Definition halt_done : VdbeM (option StepResult) := updv (v_set_halted true) ;; mret (Some SR_Done).
Definition exec_Halt (i : Instruction) : VdbeM (option StepResult) :=
  v ← getv id;
  match v_frames v with
  | f :: below =>
      if p1 i =? 0 then pop_frame f below (p2 i =? 5) ;; mret None
      else
        fail_constraint (p2 i) (constraint_message (p5 i) (match p4 i with P4_Text s => message_of s | _ => EmptyString end)) ;;
        mret None
  | [] =>
      if negb (p1 i =? 0)
      then
        fail_constraint (p2 i) (constraint_message (p5 i) (match p4 i with P4_Text s => message_of s | _ => EmptyString end)) ;;
        mret None
      else
        (if v_write_txn v && is_autocommit v
         then if_pager (commit drain) ;; updv (v_set_write_txn false)
         else
           updv (v_set_stmt_savepoint None) ;;
           match v_stmt_savepoint v with
           | Some name => if_pager (ignore (release_savepoint name))
           | None => mret tt
           end) ;;
        halt_done
  end.
Definition exec_HaltIfNull (i : Instruction) : VdbeM unit :=
  r ← reg (p3 i);
  if is_null r
  then fail_constraint (p2 i) (match p4 i with P4_Text s => message_of s | _ => "NOT NULL constraint failed" end)
  else advance.

(** *** Counters *)

Definition exec_AddImm (i : Instruction) : VdbeM unit :=
  r ← reg (p1 i);
  n ← lift (chk_i64 (as_i64 r + p2 i));
  set_reg (p1 i) (Int n) ;; advance.
Definition exec_MemMax (i : Instruction) : VdbeM unit :=
  a ← reg (p1 i);
  b ← reg (p2 i);
  (if as_i64 b >? as_i64 a then set_reg (p1 i) (Int (as_i64 b)) else mret tt) ;; advance.
Definition exec_DecrJumpZero (i : Instruction) : VdbeM unit :=
  r ← reg (p1 i);
  n ← lift (chk_i64 (as_i64 r - 1));
  set_reg (p1 i) (Int n) ;; jump_if (n =? 0) (p2 i).
Definition exec_IfPos (i : Instruction) : VdbeM unit :=
  r ← reg (p1 i);
  let n := as_i64 r in
  if n >? 0 then m ← lift (chk_i64 (n - p3 i)); set_reg (p1 i) (Int m) ;; goto (p2 i) else advance.

(** *** Ephemeral cursors moved by rowid *)

Definition exec_SeekRowid (i : Instruction) : VdbeM unit :=
  r ← reg (p3 i);
  found ← on_ephemeral (p1 i) (Error_msg "SeekRowid on an unsupported cursor type (only ephemeral supported)")
            (eph_seek_rowid (as_i64 r));
  jump_if (negb found) (p2 i).
Definition exec_ResetSorter (i : Instruction) : VdbeM unit :=
  v ← getv id;
  match cursor_at v (p1 i) with
  | Some (C_Ephemeral _) => on_ephemeral (p1 i) not_open eph_clear
  | Some (C_Sorter s) => updv (put_cursor (p1 i) (Some (C_Sorter (sorter_clear s))))
  | _ => fail (Error_msg "ResetSorter on an unsupported cursor type")
  end ;; advance.
Definition exec_Last (i : Instruction) : VdbeM unit :=
  nonempty ← on_ephemeral (p1 i) (Error_msg "Last on an unsupported cursor type")
               (n ← eph_len; if n =? 0 then mret false else eph_seek_rowid n);
  jump_if (negb nonempty) (p2 i).
Definition exec_Prev (i : Instruction) : VdbeM unit :=
  has_prev ← on_ephemeral (p1 i) (Error_msg "Prev on an unsupported cursor type")
               (cur ← eph_pos; if cur >? 0 then eph_seek_rowid cur else mret false);
  jump_if has_prev (p2 i).

(** *** Transactions *)

Definition STMT_SP : bytes := bytes_of "__rustqlite_stmt_abort".
Definition exec_Transaction (i : Instruction) : VdbeM unit :=
  v ← getv id;
  (if p2 i =? 0 then with_pager begin_read
   else
     with_pager (begin_write (2 <=? p2 i)) ;;
     updv (v_set_write_txn true) ;;
     if negb (v_write_txn v) && negb (is_autocommit v)
     then with_pager (_ ← drop_savepoint_named STMT_SP; open_savepoint STMT_SP) ;;
          updv (v_set_stmt_savepoint (Some STMT_SP))
     else mret tt) ;;
  advance.
Definition in_txn : PM bool := gets in_write_txn.
Definition exec_AutoCommit (i : Instruction) : VdbeM (option StepResult) :=
  v ← getv id;
  let desired := negb (p1 i =? 0) in
  let roll := negb (p2 i =? 0) in
  if Bool.eqb desired (is_autocommit v)
  then fail (Error_msg (if negb desired then "cannot start a transaction within a transaction"
                        else if roll then "cannot rollback - no transaction is active"
                        else "cannot commit - no transaction is active"))
  else
    updv (set_autocommit desired) ;;
    (if desired
     then
       if_pager (b ← in_txn;
                 (if (b : bool) then if roll then rollback else commit drain else mret tt) ;;
                 clear_savepoints) ;;
       updv (fun v => v_set_write_txn false (set_is_txn_savepoint false v))
     else mret tt) ;;
    halt_done.
Definition exec_Savepoint (i : Instruction) : VdbeM (option StepResult) :=
  match p4 i with
  | P4_Text name =>
      (if p1 i =? 0
       then
         v ← getv id;
         (if is_autocommit v then updv (fun v => set_is_txn_savepoint true (set_autocommit false v)) else mret tt) ;;
         if v_open v then on_snd (open_savepoint name)
         else fail (Error_msg "cannot open savepoint - no database is open")
       else if p1 i =? 1
       then
         k ← with_pager (gets (savepoint_index name));
         v ← getv id;
         if bool_decide (k = Some 0) && is_txn_savepoint v
         then
           with_pager (b ← in_txn; (if (b : bool) then commit drain else mret tt) ;; clear_savepoints) ;;
           updv (fun v => v_set_write_txn false (set_autocommit true (set_is_txn_savepoint false v)))
         else with_pager (_ ← release_savepoint name; mret tt)
       else if p1 i =? 2 then with_pager (_ ← rollback_to_savepoint name; mret tt)
       else fail (Error_msg ("OP_Savepoint: invalid p1 operand " +:+ pretty (p1 i)))) ;;
      halt_done
  | _ => fail (Error_msg "OP_Savepoint requires a Text name in p4")
  end.
Definition exec_Checkpoint (i : Instruction) : VdbeM unit :=
  with_pager (mret tt) ;;
  mode ← (if p2 i =? 0 then mret Passive else if p2 i =? 1 then mret Full else if p2 i =? 2 then mret Restart
          else if p2 i =? 3 then mret Truncate
          else fail (Error_msg ("OP_Checkpoint: invalid mode " +:+ pretty (p2 i))));
  let base := p3 i in
  set_reg base (Int 0) ;; set_reg (base + 1) (Int (-1)) ;; set_reg (base + 2) (Int (-1)) ;;
  '(n_log, n_ckpt) ← with_pager (pager_checkpoint mode);
  set_reg base (Int 0) ;; set_reg (base + 1) (Int n_log) ;; set_reg (base + 2) (Int n_ckpt) ;;
  advance.

(** *** Foreign keys *)

(** Run code over a table cursor that is local. *)
Definition with_table_cursor {A} (c : TableCursor) (m : CursorM (E := E) (F := F) A) : PM A := fun st =>
  let '(r, (_, st')) := m (c, st) in (r, st').
(** Whether the entry the index seek found has the fields [key]. *)
Definition entry_matches (payload : bytes) (encoding : TextEncoding) (key : list Value) (n : Z) (ki : list KeyField)
    : outcome bool :=
  entry ← decode_record payload encoding;
  let prefix_len := Z.min (Z.max (zlen entry - 1) 0) n in
  Ok (bool_decide (compare_prefix (ztake prefix_len entry) key ki = Eq)).
Fixpoint row_matches (cols : list Z) (i rowid : Z) (pvalues child_key : list Value) (rowid_alias : option Z) : outcome bool :=
  match cols with
  | [] => Ok true
  | c :: cols =>
      let pv := if bool_decide (rowid_alias = Some c) then Int rowid else default Null (zget pvalues c) in
      k ← idx child_key i;
      if bool_decide (mem_compare pv k Binary = Eq) then row_matches cols (i + 1) rowid pvalues child_key rowid_alias
      else Ok false
  end.
Fixpoint any_row_matches (rows : list (Z * bytes)) (encoding : TextEncoding) (cols : list Z) (rowid_alias : option Z)
    (child_key : list Value) : outcome bool :=
  match rows with
  | [] => Ok false
  | (rowid, payload) :: rows =>
      pvalues ← decode_record payload encoding;
      m ← row_matches cols 0 rowid pvalues child_key rowid_alias;
      if (m : bool) then Ok true else any_row_matches rows encoding cols rowid_alias child_key
  end.
Definition fk_parent_exists (lookup : FkLookup) (child_key : list Value) : PM bool :=
  match lookup with
  | RowidSeek root =>
      k ← lift (idx child_key 0);
      p ← gets id;
      with_table_cursor (cursor_new root p) (seek_rowid bf (as_i64 k))
  | IndexSeek root ki =>
      p ← gets id;
      '(positioned, cur) ← with_cursor (ic_new root ki p) (ic_seek bf Seek_Ge child_key);
      if negb positioned then mret false
      else
        encoding ← encoding_of;
        lift (entry_matches (ic_payload cur) encoding child_key (zlen child_key) ki)
  | TableScan root cols rowid_alias =>
      rows ← scan_table bf root;
      encoding ← encoding_of;
      lift (any_row_matches rows encoding cols rowid_alias child_key)
  | ParentMissing => mret false
  end.
Definition exec_FkCheck (i : Instruction) : VdbeM unit :=
  match p4 i with
  | P4_FkCheck fk =>
      key ← regs_range (p1 i) (zlen (fk_child_columns fk));
      if existsb is_null key then advance
      else found ← with_pager (fk_parent_exists (fk_lookup fk) key); jump_if (negb found) (p2 i)
  | _ => fail (Error_msg "OP_FkCheck: missing P4::FkCheck")
  end.

(** *** Opening, closing and moving cursors *)

(** [OpenRead] and [OpenWrite] do the same. *)
Definition exec_Open (i : Instruction) : VdbeM unit :=
  p ← with_pager (gets id);
  let root := u32 (p2 i) in
  set_cursor (p1 i) (match p4 i with
                     | P4_KeyInfo ki => C_Index (ic_new root ki p)
                     | _ => C_Table (cursor_new root p)
                     end) ;;
  updv (fun v => v_set_cursor_root (<[p1 i := root]> (v_cursor_root v)) v) ;; advance.
Definition exec_OpenWriteReg (i : Instruction) : VdbeM unit :=
  p ← with_pager (gets id);
  r ← reg (p2 i);
  let root := u32 (as_i64 r) in
  set_cursor (p1 i) (if p3 i =? 1 then C_Table (cursor_new root p) else C_Index (ic_new root [] p)) ;;
  updv (fun v => v_set_cursor_root (<[p1 i := root]> (v_cursor_root v)) v) ;; advance.
Definition exec_Close (i : Instruction) : VdbeM unit :=
  updv (fun v => if (0 <=? p1 i) && (p1 i <? zlen (v_cursors v)) then put_cursor (p1 i) None v else v) ;; advance.
Definition exec_NullRow (i : Instruction) : VdbeM unit :=
  c ← open_cursor (p1 i);
  match c with
  | C_Table _ => on_table (p1 i) (updc set_null_row)
  | C_Index _ => fail (Error_msg "NullRow on an index cursor is not supported")
  | C_Sorter _ | C_Ephemeral _ => fail (Error_msg "NullRow on a sorter/ephemeral cursor is not supported")
  | C_Pseudo p => updv (put_cursor (p1 i) (Some (C_Pseudo (mkPseudo (ps_reg p) None (ps_encoding p)))))
  end ;;
  updv (v_set_decoded None) ;; advance.
Definition exec_Rewind (i : Instruction) : VdbeM unit :=
  c ← open_cursor (p1 i);
  match c with
  | C_Table _ =>
      valid ← on_table (p1 i) (rewind bf ;; getc is_valid);
      updv (v_set_decoded None) ;; jump_if (negb valid) (p2 i)
  | C_Index _ => valid ← on_index (p1 i) (ic_rewind bf ;; geti ic_is_valid); jump_if (negb valid) (p2 i)
  | C_Sorter _ => fail (Error_msg "Rewind is not valid on a sorter cursor")
  | C_Ephemeral _ => nonempty ← on_ephemeral (p1 i) not_open eph_rewind; jump_if (negb nonempty) (p2 i)
  | C_Pseudo _ => advance
  end.
Definition sorter_step : M Sorter bool := modify sorter_next ;; s ← get; mret (sorter_is_valid s).
Definition exec_Next (i : Instruction) : VdbeM unit :=
  c ← open_cursor (p1 i);
  match c with
  | C_Table _ =>
      valid ← on_table (p1 i) (next bf ;; getc is_valid);
      updv (v_set_decoded None) ;; jump_if valid (p2 i)
  | C_Index _ => valid ← on_index (p1 i) (ic_next bf ;; geti ic_is_valid); jump_if valid (p2 i)
  | C_Sorter _ => valid ← on_sorter (p1 i) sorter_step; jump_if valid (p2 i)
  | C_Ephemeral _ => valid ← on_ephemeral (p1 i) not_open (eph_next ;; eph_is_valid); jump_if valid (p2 i)
  | C_Pseudo _ => advance
  end.

(** *** Reading rows *)

Definition exec_Rowid (i : Instruction) : VdbeM unit :=
  v ← getv id;
  r ← match cursor_at v (p1 i) with
      | Some (C_Table _) => on_table (p1 i) (c ← getc id; lift (rowid c))
      | Some (C_Ephemeral e) => mret (eph_rowid e)
      | _ => fail (Error_msg "Rowid on an unsupported cursor type")
      end;
  set_reg (p2 i) (Int r) ;; advance.
Definition exec_NotExists (i : Instruction) : VdbeM unit :=
  r ← reg (p3 i);
  found ← on_table (p1 i) (seek_rowid bf (as_i64 r));
  updv (v_set_decoded None) ;; jump_if (negb found) (p2 i).
Definition exec_Column (i : Instruction) : VdbeM unit :=
  x ← column (p1 i) (p2 i);
  set_reg (p3 i) x ;; advance.

(** *** Index cursors *)

Definition seek_op (op : Opcode) : outcome SeekOp :=
  match op with
  | Opcode.SeekGE => Ok Seek_Ge | Opcode.SeekGT => Ok Seek_Gt | Opcode.SeekLE => Ok Seek_Le | Opcode.SeekLT => Ok Seek_Lt
  | _ => Panic
  end.
Definition exec_Seek (i : Instruction) : VdbeM unit :=
  op ← lift (seek_op (opcode i));
  key ← regs_range (p3 i) (p4_len (p4 i));
  found ← on_index (p1 i) (ic_seek bf op key);
  jump_if (negb found) (p2 i).
Definition exec_IdxCompare (i : Instruction) : VdbeM unit :=
  v ← getv id;
  let n := p4_len (p4 i) in
  search_key ← regs_range (p3 i) n;
  payload ← on_index (p1 i) (geti ic_payload);
  values ← lift (decode_record payload (v_encoding v));
  let ord := compare_prefix (ztake (Z.min (Z.max (zlen values - 1) 0) n) values) search_key (index_key_info v (p1 i)) in
  jump ← match opcode i with
         | Opcode.IdxGE => mret (bool_decide (ord = Lt))
         | Opcode.IdxGT | Opcode.IdxLE | Opcode.IdxLT => mret (bool_decide (ord = Gt))
         | _ => lift Panic
         end;
  jump_if jump (p2 i).
Definition exec_IdxRowid (i : Instruction) : VdbeM unit :=
  r ← on_index (p1 i) ic_rowid;
  set_reg (p2 i) (Int r) ;; advance.
Definition count_change (c : RuntimeCtx) : outcome RuntimeCtx :=
  n ← chk_i64 (changes c + 1); t ← chk_i64 (total_changes c + 1); Ok (with_changes n t c).
Definition bump_changes : VdbeM unit :=
  c ← getv v_ctx; c' ← lift (count_change c); updv (v_set_ctx c').
(** [Err(e) if e.code == Constraint && unique]: the error is reported anew. *)
Definition if_constraint (unique : bool) (m h : VdbeM unit) : VdbeM unit := fun s =>
  match m s with
  | (Err e, s') => if bool_decide (code e = RC_Constraint) && unique then h s' else (Err e, s')
  | r => r
  end.
Definition exec_IdxInsert (i : Instruction) : VdbeM unit :=
  v ← getv id;
  if is_ephemeral v (p1 i)
  then
    record ← blob_reg (p2 i) "IdxInsert expects a record blob in p2";
    _ ← on_ephemeral (p1 i) not_open (eph_idx_insert record);
    advance
  else
    with_pager (mret tt) ;;
    root ← cursor_root_of (p1 i);
    record ← blob_reg (p2 i) "IdxInsert expects a record blob in p2";
    let unique := negb (Z.land (p5 i) P5_UNIQUE =? 0) in
    let per_constraint_oe := Z.land (Z.shiftr (p5 i) 4) 0x0F in
    if_constraint unique (with_pager (index_insert bf root record (index_key_info v (p1 i)) unique))
      (fail_constraint per_constraint_oe
         (match p4 i with P4_Text s => message_of s | _ => "UNIQUE constraint failed" end)) ;;
    (if negb (Z.land (p5 i) P5_NCHANGE =? 0) then bump_changes else mret tt) ;;
    advance.
Definition exec_IdxDelete (i : Instruction) : VdbeM unit :=
  with_pager (mret tt) ;;
  root ← cursor_root_of (p1 i);
  (if p3 i <? 0 then lift Panic else mret tt) ;;
  key ← regs_range (p2 i) (p3 i);
  v ← getv id;
  _ ← with_pager (index_leaf_delete bf root (encode_record key) (index_key_info v (p1 i)));
  updv (fun v => match cursor_at v (p1 i) with
                 | Some (C_Index c) => put_cursor (p1 i) (Some (C_Index (ic_mark_deleted c))) v
                 | _ => v
                 end) ;;
  advance.
Definition exec_Found (i : Instruction) : VdbeM unit :=
  let n := p4_len (p4 i) in
  values ← regs_range (p3 i) n;
  let no_conflict := match opcode i with Opcode.NoConflict => true | _ => false end in
  if no_conflict && existsb is_null values then goto (p2 i)
  else
    c ← open_cursor (p1 i);
    found ← match c with
            | C_Ephemeral _ => on_ephemeral (p1 i) not_open (eph_find_values values)
            | C_Index _ =>
                positioned ← on_index (p1 i) (ic_seek bf Seek_Ge values);
                if negb positioned then mret false
                else
                  v ← getv id;
                  payload ← on_index (p1 i) (geti ic_payload);
                  lift (entry_matches payload (v_encoding v) values n (index_key_info v (p1 i)))
            | _ => fail (Error_msg "Found/NotFound/NoConflict requires an index cursor")
            end;
    jump ← match opcode i with
           | Opcode.Found => mret (found : bool)
           | Opcode.NotFound | Opcode.NoConflict => mret (negb found)
           | _ => lift Panic
           end;
    jump_if jump (p2 i).

(** *** Rows and constants *)

Definition exec_ResultRow (i : Instruction) : VdbeM (option StepResult) :=
  updv (v_set_result (u64 (p1 i)) (u64 (p2 i))) ;; advance ;; mret (Some SR_Row).
Definition null_reg (r : Z) : VdbeM unit :=
  set_reg r Null ;; updv (fun v => v_set_aggregates (delete r (v_aggregates v)) v).
Definition exec_Null (i : Instruction) : VdbeM unit :=
  (if p3 i >? p2 i then mfor (seqZ (p2 i) (p3 i - p2 i + 1)) null_reg else null_reg (p2 i)) ;; advance.

Definition load (r : Z) (x : Value) : VdbeM unit := set_reg r x ;; advance.
Definition exec_Integer (i : Instruction) : VdbeM unit := load (p2 i) (Int (p1 i)).
Definition exec_Int64 (i : Instruction) : VdbeM unit := load (p2 i) (Int (as_p4_int (p4 i))).
Definition exec_Real (i : Instruction) : VdbeM unit := load (p2 i) (Real (as_p4_real (p4 i))).
Definition exec_String8 (i : Instruction) : VdbeM unit := load (p2 i) (Text (as_p4_text (p4 i))).
Definition exec_Blob (i : Instruction) : VdbeM unit := load (p2 i) (Blob (as_p4_blob (p4 i))).

(** *** Operators *)

Definition exec_binary (f : Value -> Value -> outcome Value) (i : Instruction) : VdbeM unit :=
  b ← reg (p2 i);
  a ← reg (p1 i);
  r ← lift (f b a);
  set_reg (p3 i) r ;; advance.
Definition exec_BitNot (i : Instruction) : VdbeM unit := r ← reg (p1 i); set_reg (p2 i) (bit_not r) ;; advance.
Definition exec_Compare_op (i : Instruction) : VdbeM unit :=
  l ← reg (p3 i);
  r ← reg (p1 i);
  res ← lift (compare_values (opcode i) l r (p5 i) (p4 i));
  if negb (Z.land (p5 i) P5_STOREP2 =? 0)
  then set_reg (p2 i) (bool3_to_value res) ;; advance
  else jump_if (match res with Some b => b | None => negb (Z.land (p5 i) P5_JUMPIFNULL =? 0) end) (p2 i).
Definition exec_logic (f : option bool -> option bool -> option bool) (i : Instruction) : VdbeM unit :=
  a ← reg (p1 i);
  b ← reg (p2 i);
  set_reg (p3 i) (bool3_to_value (f (truth a) (truth b))) ;; advance.
Definition exec_Not (i : Instruction) : VdbeM unit :=
  r ← reg (p1 i); set_reg (p2 i) (bool3_to_value (negb <$> truth r)) ;; advance.
Definition exec_IsNull (i : Instruction) : VdbeM unit := r ← reg (p1 i); jump_if (is_null r) (p2 i).
Definition exec_NotNull (i : Instruction) : VdbeM unit := r ← reg (p1 i); jump_if (negb (is_null r)) (p2 i).
Definition exec_If (i : Instruction) : VdbeM unit :=
  r ← reg (p1 i); jump_if (match truth r with Some b => b | None => negb (p3 i =? 0) end) (p2 i).
Definition exec_IfNot (i : Instruction) : VdbeM unit :=
  r ← reg (p1 i); jump_if (match truth r with Some b => negb b | None => negb (p3 i =? 0) end) (p2 i).

(** *** Moving and converting registers *)

Definition exec_Copy (i : Instruction) : VdbeM unit :=
  mfor (seqZ 0 (p3 i + 1)) (fun k => r ← reg (p1 i + k); set_reg (p2 i + k) r) ;; advance.
Definition exec_SCopy (i : Instruction) : VdbeM unit := r ← reg (p1 i); set_reg (p2 i) r ;; advance.
Definition exec_Move (i : Instruction) : VdbeM unit :=
  mfor (seqZ 0 (p3 i)) (fun k => r ← reg (p1 i + k); set_reg (p1 i + k) Null ;; set_reg (p2 i + k) r) ;; advance.
Fixpoint affinity_loop (affs : bytes) (r : Z) : VdbeM unit :=
  match affs with
  | [] => mret tt
  | ch :: affs =>
      x ← reg r;
      set_reg r Null ;;
      x ← lift (apply_affinity x (char_to_aff ch));
      set_reg r x ;;
      affinity_loop affs (r + 1)
  end.
(** [.take(p2 as usize)]: a negative count takes all. *)
Definition exec_Affinity (i : Instruction) : VdbeM unit :=
  let affs := as_p4_text (p4 i) in
  affinity_loop (if p2 i <? 0 then affs else ztake (p2 i) affs) (p1 i) ;; advance.
Definition exec_RealAffinity (i : Instruction) : VdbeM unit :=
  r ← reg (p1 i);
  match r with Int n => set_reg (p1 i) (Real (i64_as_f64 n)) | _ => mret tt end ;; advance.
Definition exec_MustBeInt (i : Instruction) : VdbeM unit :=
  r ← reg (p1 i);
  set_reg (p1 i) Null ;;
  r ← lift (apply_affinity r AffNumeric);
  match r with
  | Int _ => set_reg (p1 i) r ;; advance
  | _ =>
      if negb (p2 i =? 0) then set_reg (p1 i) r ;; goto (p2 i)
      else fail (Error_new RC_Mismatch "datatype mismatch")
  end.

(** *** Functions *)

Definition on_ctx {A} (f : RuntimeCtx -> A * RuntimeCtx) : VdbeM A :=
  c ← getv v_ctx; let '(a, c) := f c in updv (v_set_ctx c) ;; mret a.
Definition date_call (f : DateFn) (args : list Value) : VdbeM Value :=
  d ← on_ctx get_date_ctx; lift (call_date f args d).
(** The functions that need the machine come before the others. *)
Definition function_table (name : bytes) (args : list Value) : list (string * VdbeM Value) :=
  [("random", x ← on_ctx next_i64; mret (Int x));
   ("randomblob", n ← lift (randomblob_len (head args)); b ← on_ctx (random_bytes n); mret (Blob b));
   ("changes", c ← getv v_ctx; mret (Int (changes c)));
   ("total_changes", c ← getv v_ctx; mret (Int (total_changes c)));
   ("last_insert_rowid", c ← getv v_ctx; mret (Int (last_insert_rowid c)));
   ("sqlite_version", mret (Text SQLITE_VERSION));
   ("date", date_call DF_Date args); ("time", date_call DF_Time args); ("datetime", date_call DF_Datetime args);
   ("julianday", date_call DF_Julianday args); ("unixepoch", date_call DF_Unixepoch args);
   ("strftime", date_call DF_Strftime args); ("timediff", date_call DF_Timediff args);
   ("current_date", date_call DF_Date []); ("current_time", date_call DF_Time []);
   ("current_timestamp", date_call DF_Datetime [])]%string.
(** Their names, and whether the machine evaluates a name itself. *)
Definition machine_functions : list string :=
  Eval cbv [function_table fmap list_fmap fst] in fst <$> function_table [] [].
Definition handled (lname : bytes) : bool := existsb (fun s => bool_decide (bytes_of s = lname)) machine_functions.
Definition call_function (name : bytes) (args : list Value) : VdbeM Value :=
  let lname := to_ascii_lowercase name in
  match find (fun e => bool_decide (bytes_of (fst e) = lname)) (function_table name args) with
  | Some (_, m) => m
  | None => lift (call_scalar name args)
  end.
Definition exec_Function (i : Instruction) : VdbeM unit :=
  args ← regs_range (p2 i) (p5 i);
  r ← call_function (as_p4_text (p4 i)) args;
  set_reg (p3 i) r ;; advance.

(** *** Records, b-trees and rows *)

Definition exec_MakeRecord (i : Instruction) : VdbeM unit :=
  (if p2 i <? 0 then lift Panic else mret tt) ;;
  vs ← regs_range (p1 i) (p2 i);
  set_reg (p3 i) (Blob (encode_record vs)) ;; advance.
Definition exec_CreateBtree (i : Instruction) : VdbeM unit :=
  root ← with_pager (if p3 i =? 1 then create_table_btree else create_index_btree);
  set_reg (p2 i) (Int root) ;; advance.
Definition exec_Destroy (i : Instruction) : VdbeM unit := _ ← with_pager (destroy bf (u32 (p1 i))); advance.
Definition exec_Clear (i : Instruction) : VdbeM unit :=
  v ← getv id;
  if is_ephemeral v (p1 i) then on_ephemeral (p1 i) not_open eph_clear ;; advance
  else _ ← with_pager (clear bf (u32 (p1 i))); advance.
Definition exec_NewRowid (i : Instruction) : VdbeM unit :=
  v ← getv id;
  if is_ephemeral v (p1 i)
  then r ← on_ephemeral (p1 i) not_open eph_next_rowid; set_reg (p2 i) (Int r) ;; advance
  else
    with_pager (mret tt) ;;
    root ← cursor_root_of (p1 i);
    m ← with_pager (max_rowid bf root);
    set_reg (p2 i) (Int (i64 (m + 1))) ;; advance.
Definition exec_Insert (i : Instruction) : VdbeM unit :=
  v ← getv id;
  if is_ephemeral v (p1 i)
  then
    record ← blob_reg (p2 i) "Insert expects a record blob in p2";
    r ← reg (p3 i);
    on_ephemeral (p1 i) not_open (eph_insert (as_i64 r) record) ;; advance
  else
    with_pager (mret tt) ;;
    root ← cursor_root_of (p1 i);
    record ← blob_reg (p2 i) "Insert expects a record blob in p2";
    r ← reg (p3 i);
    with_pager (table_insert bf root (as_i64 r) record) ;;
    (if Z.land (p5 i) P5_ISUPDATE =? 0 then updv (fun v => v_set_ctx (with_rowid (as_i64 r) true (v_ctx v)) v)
     else mret tt) ;;
    bump_changes ;;
    updv (v_set_decoded None) ;; advance.
Definition exec_Delete (i : Instruction) : VdbeM unit :=
  v ← getv id;
  if is_ephemeral v (p1 i) then on_ephemeral (p1 i) not_open eph_delete_current ;; advance
  else
    _ ← cursor_root_of (p1 i);
    rowid_before ← on_table (p1 i) (c ← getc id; lift (rowid c));
    on_table (p1 i) (delete_current bf) ;;
    (if Z.land (p5 i) P5_ISUPDATE =? 0
     then
       c ← getv v_ctx;
       n ← lift (chk_i64 (changes c + 1));
       updv (v_set_ctx (with_rowid rowid_before (did_insert c) (with_changes n (total_changes c) c)))
     else mret tt) ;;
    c ← getv v_ctx;
    t ← lift (chk_i64 (total_changes c + 1));
    updv (fun v => v_set_decoded None (v_set_ctx (with_changes (changes c) t c) v)) ;; advance.
Definition h_set_cookie (cookie : Z) (h : DbHeader) : DbHeader :=
  mkDbHeader (page_size h) (write_version h) (read_version h) (reserved_space h)
    (file_change_counter h) (db_size_pages h) (first_freelist_trunk h) (freelist_count h)
    cookie (schema_format h) (default_cache_size h) (largest_root_page h) (text_encoding h)
    (user_version h) (incremental_vacuum h) (application_id h) (version_valid_for h) (sqlite_version_number h).
Definition exec_SetCookie (i : Instruction) : VdbeM unit :=
  if_pager (with_header_mut (h_set_cookie (u32 (p3 i)))) ;; advance.

(** *** Ephemeral tables, pseudo cursors and sorters *)

Definition alloc_eph (m : M EphStore Ephemeral) : VdbeM Ephemeral := fun '(v, st) =>
  let '(r, es) := m (v_eph v) in (r, (v_set_eph es v, st)).
Definition exec_OpenEphemeral (i : Instruction) : VdbeM unit :=
  v ← getv id;
  e ← alloc_eph (match p4 i with P4_KeyInfo _ => eph_new_index (v_encoding v) | _ => eph_new (v_encoding v) end);
  set_cursor (p1 i) (C_Ephemeral e) ;; advance.
Definition exec_OpenPseudo (i : Instruction) : VdbeM unit :=
  v ← getv id;
  set_cursor (p1 i) (C_Pseudo (pseudo_new (p2 i) (v_encoding v))) ;; advance.
Definition exec_OpenDup (i : Instruction) : VdbeM unit :=
  v ← getv id;
  match cursor_at v (p2 i) with
  | Some (C_Ephemeral e) => set_cursor (p1 i) (C_Ephemeral (eph_dup e)) ;; advance
  | _ => fail (Error_msg "OpenDup source is not an ephemeral cursor")
  end.
Definition exec_RowData (i : Instruction) : VdbeM unit :=
  v ← getv id;
  c ← lift (ok_or (cursor_at v (p1 i)) (Error_msg "RowData on a closed cursor"));
  match c with
  | C_Ephemeral e =>
      r ← on_ephemeral (p1 i) not_open (eph_record_at (e_pos e));
      b ← lift (ok_or r (Error_msg "RowData: ephemeral cursor has no current record"));
      set_reg (p2 i) (Blob b) ;; advance
  | _ => fail (Error_msg "RowData on an unsupported cursor type")
  end.
Definition exec_SorterOpen (i : Instruction) : VdbeM unit :=
  v ← getv id;
  set_cursor (p1 i) (C_Sorter (sorter_new (match p4 i with P4_KeyInfo k => k | _ => [] end) (v_encoding v))) ;; advance.
Definition exec_SorterInsert (i : Instruction) : VdbeM unit :=
  rec ← blob_reg (p2 i) "SorterInsert expects a record blob";
  on_sorter (p1 i) (modify (sorter_insert rec)) ;; advance.
Definition exec_SorterSort (i : Instruction) : VdbeM unit :=
  nonempty ← on_sorter (p1 i) sorter_sort; jump_if (negb nonempty) (p2 i).
Definition exec_SorterData (i : Instruction) : VdbeM unit := on_sorter (p1 i) sorter_data ;; advance.
Definition exec_SorterNext (i : Instruction) : VdbeM unit :=
  valid ← on_sorter (p1 i) sorter_step; jump_if valid (p2 i).

(** *** Aggregates *)

Definition func_def (i : Instruction) (msg : string) : VdbeM AggregateKind :=
  match p4 i with P4_FuncDef k => mret k | _ => fail (Error_msg msg) end.
Definition agg_args (i : Instruction) (kind : AggregateKind) : VdbeM (list Value * bool) :=
  let is_count_star := bool_decide (kind = AggregateKind.Count) && (p5 i =? 0) in
  args ← (if is_count_star then mret [] else regs_range (p2 i) (p5 i));
  mret (args, is_count_star).
Definition put_acc (r : Z) (a : Accumulator) : VdbeM unit :=
  updv (fun v => v_set_aggregates (<[r := a]> (v_aggregates v)) v).
(** The key of the map is [p3 as usize]. *)
Definition exec_AggStep (i : Instruction) : VdbeM unit :=
  kind ← func_def i "AggStep requires a FuncDef p4";
  '(args, star) ← agg_args i kind;
  v ← getv id;
  acc ← lift (acc_step (default (acc_new kind) (v_aggregates v !! u64 (p3 i))) args star);
  put_acc (u64 (p3 i)) acc ;; advance.
Definition exec_AggInverse (i : Instruction) : VdbeM unit :=
  kind ← func_def i "AggInverse requires a FuncDef p4";
  '(args, star) ← agg_args i kind;
  v ← getv id;
  acc ← lift (ok_or (v_aggregates v !! u64 (p3 i)) (Error_msg "AggInverse without a preceding AggStep on the accumulator"));
  acc ← lift (acc_inverse acc args star);
  put_acc (u64 (p3 i)) acc ;; advance.
Definition exec_AggFinal (i : Instruction) : VdbeM unit :=
  kind ← func_def i "AggFinal requires a FuncDef p4";
  v ← getv id;
  updv (fun v => v_set_aggregates (delete (u64 (p1 i)) (v_aggregates v)) v) ;;
  r ← match v_aggregates v !! u64 (p1 i) with
      | Some acc => lift (finalize_accumulator acc kind)
      | None => mret (empty_aggregate_result kind)
      end;
  set_reg (p1 i) r ;; advance.
Definition exec_AggValue (i : Instruction) : VdbeM unit :=
  kind ← func_def i "AggValue requires a FuncDef p4";
  v ← getv id;
  r ← match v_aggregates v !! u64 (p1 i) with
      | Some acc =>
          if window_only kind
          then '(r, acc) ← lift (acc_value_mut acc); put_acc (u64 (p1 i)) acc ;; mret r
          else mret (acc_value acc)
      | None => mret (empty_aggregate_result kind)
      end;
  set_reg (p3 i) r ;; advance.

(** ** The dispatch *)

Definition cont (m : VdbeM unit) : VdbeM (option StepResult) := m ;; mret None.
Definition exec_inst (pc : Z) (i : Instruction) : VdbeM (option StepResult) :=
  match opcode i with
  | Opcode.Init | Opcode.Goto => cont (goto (p2 i))
  | Opcode.Once => cont (exec_Once pc i)
  | Opcode.Program => cont (exec_Program pc i)
  | Opcode.Param => cont (exec_Param i)
  | Opcode.Gosub => cont (exec_Gosub pc i)
  | Opcode.Return => cont (exec_Return i)
  | Opcode.InitCoroutine => cont (exec_InitCoroutine i)
  | Opcode.EndCoroutine => cont (exec_EndCoroutine pc i)
  | Opcode.Yield => cont (exec_Yield pc i)
  | Opcode.Compare => cont (exec_Compare i)
  | Opcode.Jump => cont (exec_Jump i)
  | Opcode.Halt => exec_Halt i
  | Opcode.HaltIfNull => cont (exec_HaltIfNull i)
  | Opcode.AddImm => cont (exec_AddImm i)
  | Opcode.MemMax => cont (exec_MemMax i)
  | Opcode.SeekRowid => cont (exec_SeekRowid i)
  | Opcode.ResetSorter => cont (exec_ResetSorter i)
  | Opcode.Last => cont (exec_Last i)
  | Opcode.Prev => cont (exec_Prev i)
  | Opcode.Transaction => cont (exec_Transaction i)
  | Opcode.AutoCommit => exec_AutoCommit i
  | Opcode.Savepoint => exec_Savepoint i
  | Opcode.Checkpoint => cont (exec_Checkpoint i)
  | Opcode.FkCheck => cont (exec_FkCheck i)
  | Opcode.OpenRead | Opcode.OpenWrite => cont (exec_Open i)
  | Opcode.OpenWriteReg => cont (exec_OpenWriteReg i)
  | Opcode.Close => cont (exec_Close i)
  | Opcode.NullRow => cont (exec_NullRow i)
  | Opcode.Rewind => cont (exec_Rewind i)
  | Opcode.Next => cont (exec_Next i)
  | Opcode.Rowid => cont (exec_Rowid i)
  | Opcode.NotExists => cont (exec_NotExists i)
  | Opcode.Column => cont (exec_Column i)
  | Opcode.SeekGE | Opcode.SeekGT | Opcode.SeekLE | Opcode.SeekLT => cont (exec_Seek i)
  | Opcode.IdxGE | Opcode.IdxGT | Opcode.IdxLE | Opcode.IdxLT => cont (exec_IdxCompare i)
  | Opcode.IdxRowid => cont (exec_IdxRowid i)
  | Opcode.IdxInsert => cont (exec_IdxInsert i)
  | Opcode.IdxDelete => cont (exec_IdxDelete i)
  | Opcode.Found | Opcode.NotFound | Opcode.NoConflict => cont (exec_Found i)
  | Opcode.ResultRow => exec_ResultRow i
  | Opcode.Integer => cont (exec_Integer i)
  | Opcode.Int64 => cont (exec_Int64 i)
  | Opcode.Real => cont (exec_Real i)
  | Opcode.String8 => cont (exec_String8 i)
  | Opcode.Null => cont (exec_Null i)
  | Opcode.Blob => cont (exec_Blob i)
  | Opcode.Add | Opcode.Subtract | Opcode.Multiply | Opcode.Divide | Opcode.Remainder => cont (exec_binary (arith (opcode i)) i)
  | Opcode.Concat => cont (exec_binary concat i)
  | Opcode.BitAnd | Opcode.BitOr | Opcode.ShiftLeft | Opcode.ShiftRight => cont (exec_binary (bitwise (opcode i)) i)
  | Opcode.BitNot => cont (exec_BitNot i)
  | Opcode.Eq | Opcode.Ne | Opcode.Lt | Opcode.Le | Opcode.Gt | Opcode.Ge => cont (exec_Compare_op i)
  | Opcode.And => cont (exec_logic and3 i)
  | Opcode.Or => cont (exec_logic or3 i)
  | Opcode.Not => cont (exec_Not i)
  | Opcode.IsNull => cont (exec_IsNull i)
  | Opcode.NotNull => cont (exec_NotNull i)
  | Opcode.If => cont (exec_If i)
  | Opcode.IfNot => cont (exec_IfNot i)
  | Opcode.Copy => cont (exec_Copy i)
  | Opcode.SCopy => cont (exec_SCopy i)
  | Opcode.Move => cont (exec_Move i)
  | Opcode.Affinity => cont (exec_Affinity i)
  | Opcode.RealAffinity => cont (exec_RealAffinity i)
  | Opcode.MustBeInt => cont (exec_MustBeInt i)
  | Opcode.Function => cont (exec_Function i)
  | Opcode.MakeRecord => cont (exec_MakeRecord i)
  | Opcode.CreateBtree => cont (exec_CreateBtree i)
  | Opcode.Destroy => cont (exec_Destroy i)
  | Opcode.Clear => cont (exec_Clear i)
  | Opcode.NewRowid => cont (exec_NewRowid i)
  | Opcode.Insert => cont (exec_Insert i)
  | Opcode.Delete => cont (exec_Delete i)
  | Opcode.SetCookie => cont (exec_SetCookie i)
  | Opcode.ParseSchema => cont advance
  | Opcode.OpenEphemeral => cont (exec_OpenEphemeral i)
  | Opcode.OpenPseudo => cont (exec_OpenPseudo i)
  | Opcode.OpenDup => cont (exec_OpenDup i)
  | Opcode.RowData => cont (exec_RowData i)
  | Opcode.SorterOpen => cont (exec_SorterOpen i)
  | Opcode.SorterInsert => cont (exec_SorterInsert i)
  | Opcode.SorterSort => cont (exec_SorterSort i)
  | Opcode.SorterData => cont (exec_SorterData i)
  | Opcode.SorterNext => cont (exec_SorterNext i)
  | Opcode.DecrJumpZero => cont (exec_DecrJumpZero i)
  | Opcode.IfPos => cont (exec_IfPos i)
  | Opcode.AggStep => cont (exec_AggStep i)
  | Opcode.AggInverse => cont (exec_AggInverse i)
  | Opcode.AggFinal => cont (exec_AggFinal i)
  | Opcode.AggValue => cont (exec_AggValue i)
  end.

(** The [loop] of [step_inner]: [steps] bounds the instructions it runs. *)
Definition exec_one : VdbeM (option StepResult) :=
  v ← getv id;
  i ← lift (ok_or (inst_at (v_program v) (v_pc v)) (Error_msg "program counter ran off the end of the program"));
  exec_inst (v_pc v) i.
Fixpoint step_loop (steps : nat) : VdbeM StepResult :=
  match steps with
  | O => lift Panic
  | S steps' => r ← exec_one; match r with Some r => mret r | None => step_loop steps' end
  end.
Definition step_inner (steps : nat) : VdbeM StepResult :=
  halted ← getv v_halted;
  if (halted : bool) then mret SR_Done else step_loop steps.

(** What becomes of the transaction when a statement fails. *)
Definition cleanup (oe : OeAction) : VdbeM unit :=
  v ← getv id;
  match oe with
  | OeAction.Fail =>
      match v_stmt_savepoint v with
      | Some name => updv (v_set_stmt_savepoint None) ;; on_snd (ignore (release_savepoint name))
      | None =>
          if is_autocommit v then on_snd (ignore (commit drain)) ;; updv (v_set_write_txn false) else mret tt
      end
  | OeAction.Rollback =>
      on_snd (ignore rollback) ;; updv (fun v => v_set_stmt_savepoint None (v_set_write_txn false v))
  | _ =>
      match v_stmt_savepoint v with
      | Some name =>
          updv (v_set_stmt_savepoint None) ;;
          on_snd (ignore (rollback_to_savepoint name)) ;;
          on_snd (ignore (release_savepoint name))
      | None => on_snd (ignore rollback) ;; updv (v_set_write_txn false)
      end
  end.
Definition on_failure (e : Error) : VdbeM StepResult :=
  v ← getv id;
  updv (v_set_oe_override None) ;;
  (if v_write_txn v && v_open v
   then cleanup (oe_from_u8 (default (default_oe (v_program v)) (v_oe_override v)))
   else mret tt) ;;
  updv (v_set_halted true) ;; fail e.
Definition step (steps : nat) : VdbeM StepResult := fun s =>
  match step_inner steps s with
  | (Err e, s') => on_failure e s'
  | r => r
  end.

End Vdbe.
