(* ===== verification/Disk.v ===== *)
(** * Disks that can crash

    An interface to the file system in which every operation either takes
    effect or is the moment of a crash: a write may then have stored any prefix
    of its bytes, any other operation has happened or not, and afterwards
    nothing succeeds. It is what the atomicity theorems of [PagerTxn] are
    proved against. Two instances: the in-memory VFS, which never crashes, and
    the same (or any) disk with a budget of operations. *)

From S2P Require Import Prelude Vfs.

(** ** Running a program to a normal or a failing end *)

(** [run m s ok err]: from [s], [m] does not panic; if it returns, [ok] holds of
    the result and the final state, and if it fails, [err] holds. *)
Definition run {S A} (m : M S A) (s : S) (ok : A -> S -> Prop) (err : S -> Prop) : Prop :=
  match m s with (Ok a, s') => ok a s' | (Err _, s') => err s' | (Panic, _) => False end.

Lemma run_bind {S A B} (m : M S A) (f : A -> M S B) s ok err :
  run m s (fun a s' => run (f a) s' ok err) err -> run (m ≫= f) s ok err.
Proof. unfold run, mbind, M_bind. by destruct (m s) as [[?|?|] ?]. Qed.
Lemma run_ret {S A} (a : A) (s : S) (ok : A -> S -> Prop) err : ok a s -> run (mret a) s ok err.
Proof. done. Qed.
Lemma run_lift {S A} (o : outcome A) a (s : S) (ok : A -> S -> Prop) err :
  o = Ok a -> ok a s -> run (lift o) s ok err.
Proof. by intros ->. Qed.
Lemma run_mono {S A} (m : M S A) s (ok ok' : A -> S -> Prop) (err err' : S -> Prop) :
  run m s ok err -> (forall a s', ok a s' -> ok' a s') -> (forall s', err s' -> err' s') ->
  run m s ok' err'.
Proof. unfold run. destruct (m s) as [[?|?|] ?]; auto. Qed.
(** A loop: the invariant [I] is indexed by the part already done. *)
Lemma run_mfor {S A} (l : list A) (f : A -> M S unit) s (I : list A -> S -> Prop) err :
  I [] s ->
  (forall l1 a l2 s', l = l1 ++ a :: l2 -> I l1 s' -> run (f a) s' (fun _ => I (l1 ++ [a])) err) ->
  run (mfor l f) s (fun _ => I l) err.
Proof.
  intros H0 Hstep.
  cut (forall l2 l1 s', l = l1 ++ l2 -> I l1 s' -> run (mfor l2 f) s' (fun _ => I l) err).
  { intros Hc. by apply (Hc l [] s). }
  induction l2 as [|a l2 IH]; intros l1 s' Hl HI.
  - rewrite app_nil_r in Hl. by subst l1.
  - cbn [mfor]. apply run_bind. eapply run_mono; [by apply Hstep with l2| |done].
    intros [] s'' HI'. apply (IH (l1 ++ [a])); [by rewrite <- app_assoc|done].
Qed.

(** ** The interface *)

Definition crashed : Error := Error_io_err "crash".

Class DiskLaws (E F : Type) `{VfsOps E F} := {
  files : E -> gmap nat bytes;          (* file contents *)
  names : E -> gmap string nat;         (* the directory *)
  inode : E -> F -> option nat;         (* what a handle is open on *)
  ordinary : string -> Prop;            (* paths that name persistent files *)
  reserved : E -> F -> bool;            (* someone holds RESERVED *)
  live : E -> Prop;
  dead : E -> Prop;

  disk_read e f i b off len :
    live e -> inode e f = Some i -> files e !! i = Some b -> 0 <= off -> 0 <= len ->
    run (read_at f off len) e (fun r e' => r = zslice off (off + len) b /\ e' = e)
      (fun e' => dead e' /\ e' = e);
  disk_write e f i b off d :
    live e -> inode e f = Some i -> files e !! i = Some b -> 0 <= off -> off + zlen d < 2 ^ 64 ->
    run (write_at f off d) e
      (fun _ e' => live e' /\ files e' = <[i := mem_write off d b]> (files e) /\
                   names e' = names e /\ (forall g, inode e' g = inode e g))
      (fun e' => dead e' /\ names e' = names e /\ (forall g, inode e' g = inode e g) /\
                 (files e' = files e \/
                  exists k, files e' = <[i := mem_write off (ztake k d) b]> (files e)));
  disk_truncate e f i b size :
    live e -> inode e f = Some i -> files e !! i = Some b -> 0 <= size < 2 ^ 64 ->
    run (truncate f size) e
      (fun _ e' => live e' /\ files e' = <[i := mem_resize size b]> (files e) /\
                   names e' = names e /\ (forall g, inode e' g = inode e g))
      (fun e' => dead e' /\ names e' = names e /\ (forall g, inode e' g = inode e g) /\
                 (files e' = files e \/ files e' = <[i := mem_resize size b]> (files e)));
  disk_sync e f i :
    live e -> inode e f = Some i ->
    run (sync f) e
      (fun _ e' => live e' /\ files e' = files e /\ names e' = names e /\ (forall g, inode e' g = inode e g))
      (fun e' => dead e' /\ files e' = files e /\ names e' = names e /\ (forall g, inode e' g = inode e g));
  disk_exists e p :
    live e -> ordinary p ->
    run (vfs_exists p) e (fun r e' => r = bool_decide (is_Some (names e !! p)) /\ e' = e)
      (fun e' => dead e' /\ e' = e);
  disk_delete e p :
    live e -> ordinary p ->
    run (vfs_delete p) e
      (fun _ e' => live e' /\ files e' = files e /\ names e' = delete p (names e) /\
                   (forall g, inode e' g = inode e g))
      (fun e' => dead e' /\ files e' = files e /\ (forall g, inode e' g = inode e g) /\
                 (names e' = names e \/ names e' = delete p (names e)));
  (* opening a file that is there, and creating one that is not *)
  disk_open e p i :
    live e -> ordinary p -> names e !! p = Some i -> is_Some (files e !! i) ->
    run (vfs_open p OpenFlags_READWRITE_CREATE) e
      (fun f e' => live e' /\ files e' = files e /\ names e' = names e /\ inode e' f = Some i /\
                   (forall g, is_Some (inode e g) -> inode e' g = inode e g))
      (fun e' => dead e' /\ files e' = files e /\ names e' = names e /\
                 (forall g, is_Some (inode e g) -> inode e' g = inode e g));
  disk_create e p :
    live e -> ordinary p -> names e !! p = None ->
    run (vfs_open p OpenFlags_READWRITE_CREATE) e
      (fun f e' => live e' /\ exists i, files e !! i = None /\ files e' = <[i := []]> (files e) /\
                   names e' = <[p := i]> (names e) /\ inode e' f = Some i /\
                   (forall g, is_Some (inode e g) -> inode e' g = inode e g))
      (fun e' => dead e' /\ (forall g, is_Some (inode e g) -> inode e' g = inode e g) /\
                 ((files e' = files e /\ names e' = names e) \/
                  exists i, files e !! i = None /\ files e' = <[i := []]> (files e) /\
                            names e' = <[p := i]> (names e)));
  (* locks do not touch the files; a lock may be refused *)
  disk_lock e f l i :
    live e -> inode e f = Some i ->
    run (file_lock f l) e
      (fun _ e' => live e' /\ files e' = files e /\ names e' = names e /\ (forall g, inode e' g = inode e g))
      (fun e' => files e' = files e /\ names e' = names e /\ (forall g, inode e' g = inode e g));
  disk_unlock e f l i :
    live e -> inode e f = Some i ->
    run (file_unlock f l) e
      (fun _ e' => live e' /\ files e' = files e /\ names e' = names e /\ (forall g, inode e' g = inode e g))
      (fun e' => dead e' /\ files e' = files e /\ names e' = names e /\ (forall g, inode e' g = inode e g));
  disk_reserved e f i :
    live e -> inode e f = Some i ->
    run (check_reserved_lock f) e (fun r e' => r = reserved e f /\ e' = e)
      (fun e' => dead e' /\ e' = e);
  (* after a crash nothing succeeds *)
  live_not_dead e : live e -> dead e -> False;
  dead_delete e p : dead e -> exists err, vfs_delete p e = (Err err, e);
  dead_unlock e f l : dead e -> exists err, file_unlock f l e = (Err err, e)
}.

(** ** A disk with a budget of operations

    [CrashFs] is the in-memory VFS of [memvfs.rs] behind a counter: the
    operation that uses up the budget is cut short (a write keeps the first
    [torn] bytes, another operation happens if [torn] is not zero) and every
    later one fails. *)

Record CrashFs := mkCrashFs { cf_vfs : MemVfs; cf_budget : nat; cf_torn : Z }.

Definition tick {A} (m : M MemVfs A) (cut : Z -> M MemVfs unit) : M CrashFs A := fun s =>
  match cf_budget s with
  | O => (Err crashed, s)
  | S O => (Err crashed, mkCrashFs (snd (cut (cf_torn s) (cf_vfs s))) 0 (cf_torn s))
  | S k => let '(r, v) := m (cf_vfs s) in (r, mkCrashFs v k (cf_torn s))
  end.
(** Operations that do not change the disk are not counted. *)
Definition peek {A} (m : M MemVfs A) : M CrashFs A := fun s =>
  match cf_budget s with
  | O => (Err crashed, s)
  | _ => let '(r, v) := m (cf_vfs s) in (r, mkCrashFs v (cf_budget s) (cf_torn s))
  end.
Definition all_or_nothing {A} (m : M MemVfs A) (torn : Z) : M MemVfs unit :=
  if torn =? 0 then mret tt else ignore m.

#[export] Instance CrashFs_ops : VfsOps CrashFs nat := {
  vfs_open p fl := tick (vfs_open p fl) (all_or_nothing (vfs_open p fl));
  vfs_delete p := tick (vfs_delete p) (all_or_nothing (vfs_delete p));
  vfs_exists p := peek (vfs_exists p);
  read_at f off len := peek (read_at f off len);
  write_at f off d := tick (write_at f off d) (fun k => write_at f off (ztake k d));
  truncate f n := tick (truncate f n) (all_or_nothing (truncate f n));
  sync f := tick (sync f) (fun _ => mret tt);
  file_size f := peek (file_size f);
  file_lock f l := tick (file_lock f l) (fun _ => mret tt);
  file_unlock f l := tick (file_unlock f l) (fun _ => mret tt);
  check_reserved_lock f := peek (check_reserved_lock f)
}.

(** Addresses in use are below the next one, the lock states that are referred
    to exist, and the reader counts leave room for the remaining budget. *)
Record vfs_wf (v : MemVfs) (k : nat) : Prop := {
  wf_bufs a b : bufs v !! a = Some b -> (a < next_addr v)%nat;
  wf_handles f h : handles v !! f = Some h -> (f < next_addr v)%nat;
  wf_handle_locks f h a : handles v !! f = Some h -> mf_lock_state h = Some a ->
    is_Some (lock_states v !! a);
  wf_path_locks p a : mv_locks v !! p = Some a -> is_Some (lock_states v !! a);
  wf_shared a st : lock_states v !! a = Some st -> 0 <= n_shared st /\ n_shared st + Z.of_nat k < 2 ^ 32;
  wf_budget : Z.of_nat k < 2 ^ 32
}.

Lemma vfs_wf_S v k : vfs_wf v (S k) -> vfs_wf v k.
Proof.
  intros []. constructor; try done; [|lia]. intros a st Ha. destruct (wf_shared0 a st Ha). lia.
Qed.

Definition cf_inode (s : CrashFs) (f : nat) : option nat := mf_data <$> handles (cf_vfs s) !! f.
Definition cf_reserved (s : CrashFs) (f : nat) : bool :=
  match mem_check_reserved_lock f (cf_vfs s) with (Ok b, _) => b | _ => false end.
Definition cf_live (s : CrashFs) : Prop := (0 < cf_budget s)%nat /\ vfs_wf (cf_vfs s) (cf_budget s).
Definition cf_dead (s : CrashFs) : Prop := cf_budget s = O.

Lemma run_tick {A} (m : M MemVfs A) cut s (P : A -> MemVfs -> Prop) (Q R : MemVfs -> Prop) :
  cf_live s ->
  (forall k, vfs_wf (cf_vfs s) (S k) -> run m (cf_vfs s) (fun a v => vfs_wf v k /\ P a v) R) ->
  Q (snd (cut (cf_torn s) (cf_vfs s))) ->
  run (tick m cut) s (fun a s' => cf_live s' /\ P a (cf_vfs s'))
    (fun s' => R (cf_vfs s') \/ (cf_dead s' /\ Q (cf_vfs s'))).
Proof.
  intros [Hk Hwf] Hm HQ. unfold run, tick. destruct (cf_budget s) as [|[|k]]; [lia|by right|].
  specialize (Hm _ Hwf). unfold run in Hm. destruct (m (cf_vfs s)) as [[a|er|] v]; [|by left|done].
  destruct Hm as [? ?]. split; [|done]. split; [simpl; lia|done].
Qed.

Lemma run_peek {A} (m : M MemVfs A) s (a : A) (err : CrashFs -> Prop) :
  cf_live s -> m (cf_vfs s) = (Ok a, cf_vfs s) ->
  run (peek m) s (fun r s' => r = a /\ s' = s) err.
Proof.
  intros [Hk _] Hm. unfold run, peek. destruct s as [v k t]. simpl in *.
  destruct k; [lia|]. by rewrite Hm.
Qed.

(** *** What the operations of [MemVfs] do to well-formed states *)

Lemma wf_set_buf v k i b x : vfs_wf v k -> bufs v !! i = Some b -> vfs_wf (set_bufs <[i := x]> v) k.
Proof.
  intros [] Hi. constructor; simpl; try done. intros a y. rewrite lookup_insert_Some.
  intros [[<- _]|[_ ?]]; eauto.
Qed.

Lemma mem_inode_handle v f i : mf_data <$> handles v !! f = Some i ->
  exists h, handles v !! f = Some h /\ mf_data h = i.
Proof. destruct (handles v !! f) as [h|]; simpl; [|done]. intros [= <-]. eauto. Qed.

Lemma mem_write_run v f i b off d :
  mf_data <$> handles v !! f = Some i -> bufs v !! i = Some b -> 0 <= off ->
  off + zlen d < 2 ^ 64 ->
  mem_write_at f off d v = (Ok tt, set_bufs <[i := mem_write off d b]> v).
Proof.
  intros (h & Hh & <-)%mem_inode_handle Hb Ho Hd.
  destruct (mem_write_at_spec v f b off d) as (h' & Hh' & Hr); [|done..|].
  - unfold mem_contents. by rewrite Hh.
  - rewrite Hh in Hh'. injection Hh' as <-. done.
Qed.

Lemma mem_truncate_run v f i b size :
  mf_data <$> handles v !! f = Some i -> bufs v !! i = Some b ->
  mem_truncate f size v = (Ok tt, set_bufs <[i := mem_resize size b]> v).
Proof.
  intros (h & Hh & <-)%mem_inode_handle Hb. unfold mem_truncate.
  erewrite M_bind_ok by by apply deref_ok. by erewrite M_bind_ok by by apply deref_ok.
Qed.

(** A lock or unlock changes the handle's level and the path's lock state only. *)
Lemma with_lock_state_run v k f i (m : M (LockState * LockLevel) unit) level done_ (strict : bool) :
  vfs_wf v (S k) -> mf_data <$> handles v !! f = Some i ->
  (forall st l, 0 <= n_shared st -> n_shared st + Z.of_nat (S k) < 2 ^ 32 ->
     let '(r, (st', l')) := m (st, l) in
     0 <= n_shared st' <= n_shared st + 1 /\ r <> Panic /\ (strict = true -> is_ok r = true)) ->
  run (with_lock_state f m level done_) v
    (fun _ v' => vfs_wf v' k /\ bufs v' = bufs v /\ mv_files v' = mv_files v /\
       (forall g, mf_data <$> handles v' !! g = mf_data <$> handles v !! g))
    (fun v' => strict = false /\ bufs v' = bufs v /\ mv_files v' = mv_files v /\
       (forall g, mf_data <$> handles v' !! g = mf_data <$> handles v !! g)).
Proof.
  intros Hwf (h & Hh & <-)%mem_inode_handle Hm. unfold run, with_lock_state.
  erewrite M_bind_ok by by apply deref_ok.
  assert (forall l (h' := set_lock_level l h) g (hs := <[f := h']> (handles v)),
    mf_data <$> hs !! g = mf_data <$> handles v !! g) as Hsame.
  { intros l h' g hs. unfold hs. destruct (decide (f = g)) as [<-|].
    - by rewrite lookup_insert_eq, Hh.
    - by rewrite lookup_insert_ne. }
  destruct (mf_lock_state h) as [a|] eqn:Ha.
  - destruct (wf_handle_locks _ _ Hwf f h a Hh Ha) as [st Hst].
    erewrite M_bind_ok by by apply deref_ok.
    destruct (wf_shared _ _ Hwf a st Hst) as [Hn0 Hn1].
    specialize (Hm st (mf_lock_level h) Hn0 Hn1).
    destruct (m (st, mf_lock_level h)) as [r [st' lvl]]. destruct Hm as (Hn & Hp & Hs).
    unfold modify, lift, mbind, M_bind. cbn iota beta.
    assert (vfs_wf (set_handles <[f:=set_lock_level lvl h]> (set_lock_states <[a:=st']> v)) k) as Hwf'.
    { destruct (vfs_wf_S _ _ Hwf). constructor; simpl; try done.
      - intros g h'. rewrite lookup_insert_Some. intros [[<- _]|[_ ?]]; eauto.
      - intros g h' a'. rewrite lookup_insert_Some. intros [[<- <-]|[_ Hg]] Hl.
        + simpl in Hl. apply lookup_insert_is_Some. destruct (decide (a = a')); eauto.
        + apply lookup_insert_is_Some. destruct (decide (a = a')); eauto.
      - intros p a' Hp'. apply lookup_insert_is_Some. destruct (decide (a = a')); eauto.
      - intros a' s'. rewrite lookup_insert_Some. intros [[<- <-]|[_ Hg]]; [lia|eauto]. }
    destruct r as [[]|er|]; [| |done].
    2:{ split_and!; [destruct strict; [by specialize (Hs eq_refl)|done]|done|done|].
        intros g; apply Hsame. }
    split_and!; try done. intros g. apply Hsame.
  - destruct (done_ (mf_lock_level h)).
    + unfold mret, M_ret. split; [by apply vfs_wf_S|done].
    + unfold modify. split_and!; try done; [|intros g; apply Hsame].
      destruct (vfs_wf_S _ _ Hwf). constructor; simpl; try done.
      * intros g h'. rewrite lookup_insert_Some. intros [[<- _]|[_ ?]]; eauto.
      * intros g h' a'. rewrite lookup_insert_Some. intros [[<- <-]|[_ Hg]] Hl; [|eauto].
        simpl in Hl. congruence.
Qed.

Lemma memfile_lock_bound level st l k : 0 <= n_shared st -> n_shared st + Z.of_nat (S k) < 2 ^ 32 ->
  let '(r, (st', l')) := memfile_lock level (st, l) in
  0 <= n_shared st' <= n_shared st + 1 /\ r <> Panic /\ (false = true -> is_ok r = true).
Proof.
  intros H0 Hk. unfold memfile_lock. destruct (level_le level l); [split_and!; simpl; lia || done|].
  unfold apply_lock, sat_pred, chk_add32. destruct (level_le level l); [split_and!; simpl; lia || done|].
  destruct l, level, (writer st) as [[]|]; cbn [bool_decide decide];
    repeat match goal with
      | |- context [n_shared st + 1 <? 2 ^ 32] => destruct (Z.ltb_spec (n_shared st + 1) (2 ^ 32)); [|lia]
      | |- context [bool_decide ?P] => destruct (bool_decide_reflect P)
      | |- context [if ?b then _ else _] => destruct b eqn:?
      end; split_and!; simpl; (lia || done).
Qed.

Lemma memfile_unlock_bound level st l k : 0 <= n_shared st -> n_shared st + Z.of_nat (S k) < 2 ^ 32 ->
  let '(r, (st', l')) := memfile_unlock level (st, l) in
  0 <= n_shared st' <= n_shared st + 1 /\ r <> Panic /\ (true = true -> is_ok r = true).
Proof.
  intros H0 Hk. unfold memfile_unlock. destruct (level_le l level); [split_and!; simpl; lia || done|].
  unfold apply_unlock, sat_pred, chk_add32.
  repeat match goal with
    | |- context [n_shared st + 1 <? 2 ^ 32] => destruct (Z.ltb_spec (n_shared st + 1) (2 ^ 32)); [|lia]
    | |- context [if ?b then _ else _] => destruct b eqn:?
    end; split_and!; simpl; (lia || done).
Qed.

(** The part of the state that opening a file may change besides its own
    handle: lock states, wal-index nodes and the address counter. *)
Definition same_files (v v' : MemVfs) : Prop :=
  bufs v' = bufs v /\ mv_files v' = mv_files v /\ handles v' = handles v /\
  (next_addr v <= next_addr v')%nat.

Lemma lock_state_for_run v k p : vfs_wf v k ->
  run (lock_state_for p) v
    (fun o v' => vfs_wf v' k /\ same_files v v' /\ forall a, o = Some a -> is_Some (lock_states v' !! a))
    (fun _ => False).
Proof.
  intros Hwf. unfold lock_state_for. destruct (is_private p); [by split_and!|].
  apply run_bind. unfold get. cbn. destruct (mv_locks v !! p) as [a|] eqn:Ha.
  - split_and!; [done|done|]. intros ? [= <-]. by eapply wf_path_locks.
  - unfold run, alloc, modify, mbind, M_bind, mret, M_ret. cbn. split_and!; [|split_and!; simpl; (done || lia)|].
    + destruct Hwf. constructor; cbn; [|..|done].
      * intros a b Hb. specialize (wf_bufs0 a b Hb). lia.
      * intros f h Hf. specialize (wf_handles0 f h Hf). lia.
      * intros f h a Hf Hl. apply lookup_insert_is_Some.
        destruct (decide (next_addr v = a)); eauto.
      * intros q a. rewrite lookup_insert_Some. intros [[<- <-]|[_ Hq]]; apply lookup_insert_is_Some;
          [by left|]. destruct (decide (next_addr v = a)); eauto.
      * intros a st. rewrite lookup_insert_Some. intros [[<- <-]|[_ Hs]]; [cbn; lia|eauto].
    + intros a [= <-]. cbn. rewrite lookup_insert_eq. eauto.
Qed.

Lemma shm_node_for_run v k p : vfs_wf v k ->
  run (shm_node_for p) v
    (fun _ v' => vfs_wf v' k /\ same_files v v' /\ lock_states v' = lock_states v) (fun _ => False).
Proof.
  intros Hwf. unfold shm_node_for. destruct (is_private p); [by split_and!|].
  apply run_bind. unfold get. cbn. destruct (mv_shms v !! p) as [a|] eqn:Ha; [by split_and!|].
  unfold run, alloc, modify, mbind, M_bind, mret, M_ret. cbn.
  split_and!; [|split_and!; simpl; (done || lia)|done].
  destruct Hwf. constructor; cbn; try done.
  - intros a b Hb. specialize (wf_bufs0 a b Hb). lia.
  - intros f h Hf. specialize (wf_handles0 f h Hf). lia.
Qed.

(** The tail of [mem_open], once the buffer [data] is known. *)
Lemma open_tail_run v k p data : vfs_wf v k ->
  run (lock_state ← lock_state_for p; shm_node ← shm_node_for p;
       new_handle (mkMemFile data Unlocked lock_state shm_node 0 0)) v
    (fun f v' => vfs_wf v' k /\ bufs v' = bufs v /\ mv_files v' = mv_files v /\
       mf_data <$> handles v' !! f = Some data /\
       (forall g, is_Some (mf_data <$> handles v !! g) ->
          mf_data <$> handles v' !! g = mf_data <$> handles v !! g))
    (fun _ => False).
Proof.
  intros Hwf. apply run_bind. eapply run_mono; [by apply (lock_state_for_run v k p)| |done].
  intros o v1 (Hwf1 & (Hb1 & Hf1 & Hh1 & Hn1) & Ho). apply run_bind.
  eapply run_mono; [by apply (shm_node_for_run v1 k p)| |done].
  intros o2 v2 (Hwf2 & (Hb2 & Hf2 & Hh2 & Hn2) & Hl2).
  unfold run, new_handle, alloc, modify, mbind, M_bind, mret, M_ret. cbn.
  split_and!.
  - destruct Hwf2. constructor; cbn; try done.
    + intros a b Hb. specialize (wf_bufs0 a b Hb). lia.
    + intros f h. rewrite lookup_insert_Some. intros [[<- _]|[_ Hf]]; [lia|].
      specialize (wf_handles0 f h Hf). lia.
    + intros f h a. rewrite lookup_insert_Some. intros [[<- <-]|[_ Hf]] Hl; [|eauto].
      cbn in Hl. rewrite Hl2. by apply Ho.
  - congruence.
  - congruence.
  - by rewrite lookup_insert_eq.
  - intros g [h Hg]. rewrite lookup_insert_ne; [congruence|].
    intros Heq. destruct (handles v !! g) as [h'|] eqn:Hg'; [|done].
    rewrite <- Hh1, <- Hh2 in Hg'. specialize (wf_handles _ _ Hwf2 g h' Hg'). lia.
Qed.

Lemma mem_open_run v k p i fl : vfs_wf v k -> is_private p = false -> mv_files v !! p = Some i ->
  run (mem_open p fl) v
    (fun f v' => vfs_wf v' k /\ bufs v' = bufs v /\ mv_files v' = mv_files v /\
       mf_data <$> handles v' !! f = Some i /\
       (forall g, is_Some (mf_data <$> handles v !! g) ->
          mf_data <$> handles v' !! g = mf_data <$> handles v !! g))
    (fun _ => False).
Proof.
  intros Hwf Hp Hi. unfold mem_open. rewrite Hp. apply run_bind. apply run_bind.
  unfold get. cbn. rewrite Hi. cbn. by apply open_tail_run.
Qed.

Lemma mem_create_run v k p fl : vfs_wf v k -> is_private p = false -> mv_files v !! p = None ->
  run (mem_open p fl) v
    (fun f v' => vfs_wf v' k /\ exists i, bufs v !! i = None /\ bufs v' = <[i := []]> (bufs v) /\
       mv_files v' = <[p := i]> (mv_files v) /\ mf_data <$> handles v' !! f = Some i /\
       (forall g, is_Some (mf_data <$> handles v !! g) ->
          mf_data <$> handles v' !! g = mf_data <$> handles v !! g))
    (fun _ => False).
Proof.
  intros Hwf Hp Hi. unfold mem_open. rewrite Hp. apply run_bind. apply run_bind.
  unfold get at 1. cbn. rewrite Hi. cbn.
  unfold run, new_buf, alloc, modify, mbind, M_bind, mret, M_ret. cbn.
  set (v1 := mkMemVfs _ _ _ _ _ _ _ _).
  assert (vfs_wf v1 k) as Hwf1.
  { destruct Hwf. constructor; cbn; try done.
    - intros a b. rewrite lookup_insert_Some. intros [[<- _]|[_ Hb]]; [lia|].
      specialize (wf_bufs0 a b Hb). lia.
    - intros f h Hf. specialize (wf_handles0 f h Hf). lia. }
  pose proof (open_tail_run v1 k p (next_addr v) Hwf1) as Ht. unfold run, mbind, M_bind in Ht.
  destruct (lock_state_for p v1) as [[o| |] v2]; [|done..].
  destruct (shm_node_for p v2) as [[o2| |] v3]; [|done..].
  destruct (new_handle _ v3) as [[f| |] v4]; [|done..].
  destruct Ht as (Hwf' & Hb & Hf & Hin & Hold). split; [done|]. exists (next_addr v).
  split_and!; [|done|done|done|exact Hold].
  destruct (bufs v !! next_addr v) as [b|] eqn:E; [|done].
  pose proof (wf_bufs _ _ Hwf _ _ E). lia.
Qed.

Lemma wf_delete v k p : vfs_wf v k ->
  vfs_wf (mkMemVfs (delete p (mv_files v)) (delete p (mv_locks v)) (delete p (mv_shms v)) (bufs v)
            (lock_states v) (shm_nodes v) (handles v) (next_addr v)) k.
Proof.
  intros []. constructor; cbn; try done. intros q a. rewrite lookup_delete_Some. intros [_ ?]. eauto.
Qed.

Lemma mem_check_run v k f i : vfs_wf v k -> mf_data <$> handles v !! f = Some i ->
  exists b, mem_check_reserved_lock f v = (Ok b, v).
Proof.
  intros Hwf (h & Hh & _)%mem_inode_handle. unfold mem_check_reserved_lock.
  erewrite M_bind_ok by by apply deref_ok. destruct (mf_lock_state h) as [a|] eqn:Ha; [|by eexists].
  destruct (wf_handle_locks _ _ Hwf f h a Hh Ha) as [st Hst].
  erewrite M_bind_ok by by apply deref_ok. by eexists.
Qed.

(** The cut variant of an operation that the laws describe in both outcomes. *)
Lemma all_or_nothing_run {A} (m : M MemVfs A) v t (P : MemVfs -> Prop) :
  P v -> run m v (fun _ v' => P v') (fun v' => P v') -> P (snd (all_or_nothing m t v)).
Proof.
  intros Hv Hm. unfold all_or_nothing. destruct (t =? 0); [done|]. unfold ignore, run in *.
  by destruct (m v) as [[?|?|] ?].
Qed.

#[export] Program Instance CrashFs_laws : DiskLaws CrashFs nat := {
  files s := bufs (cf_vfs s); names s := mv_files (cf_vfs s); inode := cf_inode;
  ordinary p := is_private p = false; reserved := cf_reserved; live := cf_live; dead := cf_dead
}.
Next Obligation.
  intros s f i b off len Hl Hi Hb Ho Hn. cbn in *. eapply run_peek; [done|].
  destruct (mem_inode_handle _ _ _ Hi) as (h & Hh & <-).
  apply (@read_at_spec MemVfs nat _ MemVfs_laws); [|done..]. cbn. unfold mem_contents. by rewrite Hh.
Qed.
Next Obligation.
  intros s f i b off d Hl Hi Hb Ho Hn. cbn in *.
  eapply run_mono; [apply run_tick with
    (P := fun _ v => bufs v = <[i := mem_write off d b]> (bufs (cf_vfs s)) /\
       mv_files v = mv_files (cf_vfs s) /\ handles v = handles (cf_vfs s))
    (Q := fun v => mv_files v = mv_files (cf_vfs s) /\ handles v = handles (cf_vfs s) /\
       bufs v = <[i := mem_write off (ztake (cf_torn s) d) b]> (bufs (cf_vfs s)))
    (R := fun _ => False)| |].
  - done.
  - intros k Hwf. unfold run. erewrite mem_write_run by done. split_and!; try done.
    by eapply wf_set_buf; [apply vfs_wf_S|].
  - erewrite mem_write_run; try done. len_lia.
  - cbn. intros _ s' (Hl' & Hb' & Hf' & Hh'). split_and!; try done. intros g. unfold cf_inode. by rewrite Hh'.
  - cbn. intros s' [[]|(Hd & Hf' & Hh' & Hb')]. split_and!; try done; [|right; by eexists].
    intros g. unfold cf_inode. by rewrite Hh'.
Qed.
Next Obligation.
  intros s f i b size Hl Hi Hb Hs. cbn in *.
  eapply run_mono; [apply run_tick with
    (P := fun _ v => bufs v = <[i := mem_resize size b]> (bufs (cf_vfs s)) /\
       mv_files v = mv_files (cf_vfs s) /\ handles v = handles (cf_vfs s))
    (Q := fun v => mv_files v = mv_files (cf_vfs s) /\ handles v = handles (cf_vfs s) /\
       (bufs v = bufs (cf_vfs s) \/ bufs v = <[i := mem_resize size b]> (bufs (cf_vfs s))))
    (R := fun _ => False)| |].
  - done.
  - intros k Hwf. unfold run. erewrite mem_truncate_run by done. split_and!; try done.
    by eapply wf_set_buf; [apply vfs_wf_S|].
  - apply all_or_nothing_run; [by split_and!; [..|left]|]. unfold run.
    erewrite mem_truncate_run by done. by split_and!; [..|right].
  - cbn. intros _ s' (Hl' & Hb' & Hf' & Hh'). split_and!; try done. intros g. unfold cf_inode. by rewrite Hh'.
  - cbn. intros s' [[]|(Hd & Hf' & Hh' & Hb')]. split_and!; try done.
    intros g. unfold cf_inode. by rewrite Hh'.
Qed.
Next Obligation.
  intros s f i Hl Hi. cbn in *.
  eapply run_mono; [apply run_tick with
    (P := fun _ v => v = cf_vfs s) (Q := fun v => v = cf_vfs s) (R := fun _ => False)| |].
  - done.
  - intros k Hwf. split; [by apply vfs_wf_S|done].
  - done.
  - cbn. intros _ s' (Hl' & Hv). unfold cf_inode. by rewrite Hv.
  - cbn. intros s' [[]|(Hd & Hv)]. unfold cf_inode. by rewrite Hv.
Qed.
Next Obligation.
  intros s p Hl Hp. cbn in *. eapply run_peek; [done|]. unfold mem_exists, get, mbind, M_bind, mret, M_ret.
  cbn. by destruct (mv_files (cf_vfs s) !! p).
Qed.
Next Obligation.
  intros s p Hl Hp. cbn in *.
  eapply run_mono; [apply run_tick with
    (P := fun _ v => bufs v = bufs (cf_vfs s) /\ mv_files v = delete p (mv_files (cf_vfs s)) /\
       handles v = handles (cf_vfs s))
    (Q := fun v => bufs v = bufs (cf_vfs s) /\ handles v = handles (cf_vfs s) /\
       (mv_files v = mv_files (cf_vfs s) \/ mv_files v = delete p (mv_files (cf_vfs s))))
    (R := fun _ => False)| |].
  - done.
  - intros k Hwf. split; [by apply vfs_wf_S, wf_delete|done].
  - apply all_or_nothing_run; [by split_and!; [..|left]|]. by split_and!; [..|right].
  - cbn. intros _ s' (Hl' & Hb' & Hf' & Hh'). split_and!; try done. intros g. unfold cf_inode. by rewrite Hh'.
  - cbn. intros s' [[]|(Hd & Hb' & Hh' & Hf')]. split_and!; try done.
    intros g. unfold cf_inode. by rewrite Hh'.
Qed.
Next Obligation.
  intros s p i Hl Hp Hi Hb. cbn in *. unfold cf_inode in *.
  eapply run_mono; [apply run_tick with
    (P := fun f v => bufs v = bufs (cf_vfs s) /\ mv_files v = mv_files (cf_vfs s) /\
       mf_data <$> handles v !! f = Some i /\
       (forall g, is_Some (mf_data <$> handles (cf_vfs s) !! g) ->
          mf_data <$> handles v !! g = mf_data <$> handles (cf_vfs s) !! g))
    (Q := fun v => bufs v = bufs (cf_vfs s) /\ mv_files v = mv_files (cf_vfs s) /\
       (forall g, is_Some (mf_data <$> handles (cf_vfs s) !! g) ->
          mf_data <$> handles v !! g = mf_data <$> handles (cf_vfs s) !! g))
    (R := fun _ => False)| |].
  - done.
  - intros k Hwf. eapply run_mono; [by eapply mem_open_run; [apply vfs_wf_S|..]| |done].
    cbn. intros f v (?&?&?&?&?). by split_and!.
  - apply all_or_nothing_run; [by split_and!|].
    eapply run_mono; [by eapply mem_open_run; [apply Hl|..]| |done].
    cbn. intros f v (?&?&?&?&?). by split_and!.
  - cbn. intros f s' (Hl' & Hb' & Hf' & Hin & Hold). by split_and!.
  - cbn. intros s' [[]|(Hd & Hb' & Hf' & Hold)]. by split_and!.
Qed.
Next Obligation.
  intros s p Hl Hp Hn. cbn in *. unfold cf_inode in *.
  set (P := fun v => exists i, bufs (cf_vfs s) !! i = None /\ bufs v = <[i := []]> (bufs (cf_vfs s)) /\
       mv_files v = <[p := i]> (mv_files (cf_vfs s))).
  set (K := fun v => forall g, is_Some (mf_data <$> handles (cf_vfs s) !! g) ->
          mf_data <$> handles v !! g = mf_data <$> handles (cf_vfs s) !! g).
  eapply run_mono; [apply run_tick with
    (P := fun f v => exists i, bufs (cf_vfs s) !! i = None /\ bufs v = <[i := []]> (bufs (cf_vfs s)) /\
       mv_files v = <[p := i]> (mv_files (cf_vfs s)) /\ mf_data <$> handles v !! f = Some i /\ K v)
    (Q := fun v => K v /\ ((bufs v = bufs (cf_vfs s) /\ mv_files v = mv_files (cf_vfs s)) \/ P v))
    (R := fun _ => False)| |].
  - done.
  - intros k Hwf. eapply run_mono; [by eapply mem_create_run; [apply vfs_wf_S|..]| |done].
    cbn. intros f v (? & i & ?&?&?&?&?). split; [done|]. by exists i.
  - apply all_or_nothing_run; [by split; [|left]|].
    eapply run_mono; [by eapply mem_create_run; [apply Hl|..]| |done].
    cbn. intros f v (? & i & ?&?&?&?&?). split; [done|]. right. by exists i.
  - cbn. intros f s' (Hl' & Hi). by split_and!.
  - cbn. intros s' [[]|(Hd & Hk & Hf)]. by split_and!.
Qed.
Next Obligation.
  intros s f l i Hl Hi. cbn in *. unfold cf_inode in *.
  eapply run_mono; [apply run_tick with
    (P := fun _ v => bufs v = bufs (cf_vfs s) /\ mv_files v = mv_files (cf_vfs s) /\
       forall g, mf_data <$> handles v !! g = mf_data <$> handles (cf_vfs s) !! g)
    (Q := fun v => v = cf_vfs s)
    (R := fun v => bufs v = bufs (cf_vfs s) /\ mv_files v = mv_files (cf_vfs s) /\
       forall g, mf_data <$> handles v !! g = mf_data <$> handles (cf_vfs s) !! g)| |].
  - done.
  - intros k Hwf. eapply run_mono; [eapply (with_lock_state_run _ k f i _ _ _ false); [done|done|]| |].
    + intros st l'. apply memfile_lock_bound.
    + cbn. done.
    + cbn. intros v (_ & ?). done.
  - done.
  - cbn. intros _ s' (Hl' & ?). done.
  - cbn. intros s' [?|(Hd & Hv)]; [done|]. by rewrite Hv.
Qed.
Next Obligation.
  intros s f l i Hl Hi. cbn in *. unfold cf_inode in *.
  eapply run_mono; [apply run_tick with
    (P := fun _ v => bufs v = bufs (cf_vfs s) /\ mv_files v = mv_files (cf_vfs s) /\
       forall g, mf_data <$> handles v !! g = mf_data <$> handles (cf_vfs s) !! g)
    (Q := fun v => v = cf_vfs s) (R := fun _ => False)| |].
  - done.
  - intros k Hwf. eapply run_mono; [eapply (with_lock_state_run _ k f i _ _ _ true); [done|done|]| |].
    + intros st l'. apply memfile_unlock_bound.
    + cbn. done.
    + cbn. intros v (? & _). done.
  - done.
  - cbn. intros _ s' (Hl' & ?). done.
  - cbn. intros s' [[]|(Hd & Hv)]. by rewrite Hv.
Qed.
Next Obligation.
  intros s f i Hl Hi. cbn in *. destruct Hl as [Hk Hwf].
  destruct (mem_check_run _ _ _ _ Hwf Hi) as [b Hb]. unfold cf_reserved. rewrite Hb.
  by apply run_peek.
Qed.
Next Obligation. intros s [Hk _] Hd. cbn in *. unfold cf_dead in Hd. lia. Qed.
Next Obligation. intros s p Hd. cbn in *. unfold tick. rewrite Hd. by eexists. Qed.
Next Obligation. intros s f l Hd. cbn in *. unfold tick. rewrite Hd. by eexists. Qed.
