(* ===== verification/Recovery.v ===== *)
(** * Hot-journal recovery

    What a journal on disk stands for, and the proof that
    [recover_hot_journal] of [pager/mod.rs] brings the database back to the
    image the journal was written for, also when it is itself interrupted. *)

From S2P Require Import Prelude Vfs Wal Journal Pager PagerTxn Disk.

(** ** Journal contents *)

Definition preimage (ck ps : Z) (D : bytes) (g : Z) : bytes := build_record g (page_bytes ps g D) ck.
Definition records (ck ps : Z) (D : bytes) (R : list Z) : bytes := concat (preimage ck ps D <$> R).

(** The database [D] has [n] pages of [ps] bytes. *)
Definition geometry (ps n : Z) (D : bytes) : Prop :=
  512 <= ps <= 65536 /\ 0 <= n < 2 ^ 32 /\ zlen D = n * ps.
Definition page_ok (n g : Z) : Prop := 1 <= g <= n.

Lemma zlen_page_bytes ps n D g : geometry ps n D -> page_ok n g -> zlen (page_bytes ps g D) = ps.
Proof. intros (? & ? & ?) [? ?]. unfold page_bytes. rewrite zlen_zslice; nia. Qed.

Lemma zlen_preimage ck ps n D g : geometry ps n D -> page_ok n g ->
  zlen (preimage ck ps D g) = ps + 8.
Proof.
  intros HG Hg. unfold preimage. rewrite zlen_build_record, (zlen_page_bytes ps n D g HG Hg).
  unfold record_len. lia.
Qed.

Lemma records_app ck ps D R1 R2 : records ck ps D (R1 ++ R2) = records ck ps D R1 ++ records ck ps D R2.
Proof. unfold records. by rewrite fmap_app, concat_app. Qed.
Lemma records_cons ck ps D g R : records ck ps D (g :: R) = preimage ck ps D g ++ records ck ps D R.
Proof. done. Qed.

Lemma zlen_records ck ps n D R : geometry ps n D -> Forall (page_ok n) R ->
  zlen (records ck ps D R) = zlen R * (ps + 8).
Proof.
  intros HG. induction 1 as [|g R Hg HR IH]; [done|].
  rewrite records_cons, zlen_app, zlen_cons, IH, (zlen_preimage ck ps n D g HG Hg). lia.
Qed.

(** The record after those of [R1]. *)
Lemma record_slice ck ps n D H R1 g R2 tail off J :
  geometry ps n D -> Forall (page_ok n) (R1 ++ g :: R2) ->
  zlen H = 512 -> J = H ++ records ck ps D (R1 ++ g :: R2) ++ tail -> off = 512 + zlen R1 * (ps + 8) ->
  zslice off (off + record_len ps) J = preimage ck ps D g.
Proof.
  intros HG HR HH -> ->. apply Forall_app in HR as [HR1 [Hg HR2]%Forall_cons].
  rewrite records_app, records_cons, <- !app_assoc, (app_assoc H). unfold record_len.
  pose proof (zlen_records ck ps n D R1 HG HR1). pose proof (zlen_preimage ck ps n D g HG Hg).
  apply zslice_app3; rewrite zlen_app; lia.
Qed.

(** Past the last record there is nothing to read. *)
Lemma record_slice_end ck ps n D H R off J :
  geometry ps n D -> Forall (page_ok n) R ->
  zlen H <= 512 -> J = H ++ records ck ps D R -> off = 512 + zlen R * (ps + 8) ->
  zlen (zslice off (off + record_len ps) J) < record_len ps.
Proof.
  intros HG HR HH -> ->. pose proof (zlen_records ck ps n D R HG HR). destruct HG as (? & ? & ?).
  unfold zslice. rewrite zlen_ztake, zdrop_all by (rewrite zlen_app; lia).
  change (zlen (@nil Z)) with 0. unfold record_len. lia.
Qed.

(** A record written by the pager passes the checks of the playback. *)
Lemma check_record_ok h ck ps n D g :
  geometry ps n D -> page_ok n g -> is_u32 ck -> jh_cksum_init h = ck ->
  check_record h ps (preimage ck ps D g) = Ok (Some (g, page_bytes ps g D)).
Proof.
  intros HG Hg Hck <-. pose proof (zlen_page_bytes ps n D g HG Hg) as Hl.
  unfold check_record, preimage. set (ck := jh_cksum_init h) in *.
  set (P := page_bytes ps g D) in *. pose proof (zlen_build_record g P ck) as Hr.
  unfold record_len in Hr. rewrite Hl in Hr. destruct HG as (? & ? & ?), Hg as [? ?].
  rewrite <- (app_nil_r (build_record g P ck)) in *.
  rewrite (be_at_in 4 _ 0) by lia. change (0 + 4) with 4. rewrite build_record_pgno. cbn [mbind outcome_bind].
  rewrite sub_range_in by lia. cbn [mbind outcome_bind].
  rewrite be_at_in by lia. cbn [mbind outcome_bind]. replace (4 + ps) with (4 + zlen P) by lia.
  rewrite build_record_page, build_record_cksum.
  rewrite !be_val_be_bytes_small.
  - destruct (Z.eqb_spec g 0); [lia|]. by rewrite Z.eqb_refl.
  - apply pager_cksum_range, Hck.
  - simpl. lia.
Qed.

(** ** Recoverable disks *)

(** [D'] agrees with [D] except on pages of [S]. *)
Definition agrees (ps n : Z) (D D' : bytes) (S : list Z) : Prop :=
  n * ps <= zlen D' /\ forall g, page_ok n g -> g ∉ S -> page_bytes ps g D' = page_bytes ps g D.

(** The journal [J] can bring [D'] back to [D]: it is not a journal and nothing
    has changed, or its first [k] records cover every page that may differ. *)
Definition journal_restores (J D D' : bytes) : Prop :=
  (parse_header (zslice 0 512 J) = None /\ D' = D) \/
  exists k ck n ps R tail,
    parse_header (zslice 0 512 J) = Some (mkJournalHeader k ck n SECTOR_SIZE ps) /\
    zdrop 512 J = records ck ps D R ++ tail /\ (tail = [] \/ k <= zlen R) /\
    geometry ps n D /\ Forall (page_ok n) R /\ is_u32 ck /\
    0 <= k /\ agrees ps n D D' (ztake k R).

Lemma agrees_mono ps n D D' S S' : (forall g, g ∈ S -> g ∈ S') -> agrees ps n D D' S -> agrees ps n D D' S'.
Proof. intros HS [Hl Ha]. split; [done|]. intros g Hg Hn. apply Ha; [done|]. intros ?. by apply Hn, HS. Qed.

(** A buffer that agrees everywhere and has the right length is [D]. *)
Lemma pages_determine ps m (D D' : bytes) : 0 < ps -> 0 <= m ->
  zlen D = m * ps -> zlen D' = m * ps ->
  (forall g, page_ok m g -> page_bytes ps g D' = page_bytes ps g D) -> D' = D.
Proof.
  intros Hps Hm. revert D D'. pattern m. apply natlike_ind; [..|done].
  - intros D D' HD HD' _. destruct D, D'; (done || (rewrite zlen_cons in *; len_lia)).
  - clear m Hm. intros m Hm IH D D' HD HD' Hg.
    rewrite <- (ztake_zdrop_id (m * ps) D), <- (ztake_zdrop_id (m * ps) D'). f_equal.
    + apply IH; [rewrite zlen_ztake; nia..|]. intros g Hgm. unfold page_ok, page_bytes in *.
      rewrite !zslice_ztake by nia. apply (Hg g). lia.
    + specialize (Hg (m + 1) ltac:(unfold page_ok; lia)). unfold page_bytes, zslice in Hg.
      replace (m + 1 - 1) with m in Hg by lia.
      rewrite !ztake_all in Hg by (rewrite zlen_zdrop; nia). done.
Qed.

Lemma page_bytes_resize ps n size D g : 0 < ps -> page_ok n g -> n * ps <= size -> n * ps <= zlen D ->
  page_bytes ps g (mem_resize size D) = page_bytes ps g D.
Proof.
  intros Hps [? ?] ? ?. unfold page_bytes, mem_resize.
  rewrite zslice_app_l by (rewrite ?zlen_ztake; nia). apply zslice_ztake; nia.
Qed.

Lemma agrees_resize ps n D D' S size : 0 < ps -> n * ps <= size ->
  agrees ps n D D' S -> agrees ps n D (mem_resize size D') S.
Proof.
  intros Hps Hn [Hl Ha]. pose proof (zlen_nonneg D'). split.
  - unfold mem_resize. rewrite zlen_app, zlen_ztake, zlen_zrep. lia.
  - intros g Hg HS. rewrite (page_bytes_resize ps n) by done. by apply Ha.
Qed.

(** Writing (part of) one page leaves the others alone. *)
Lemma page_bytes_write_ne ps n g q d D :
  0 < ps -> page_ok n g -> 1 <= q -> g <> q -> zlen d <= ps -> n * ps <= zlen D ->
  page_bytes ps g (mem_write ((q - 1) * ps) d D) = page_bytes ps g D.
Proof.
  intros Hps [? ?] ? ? ? ?. unfold page_bytes. pose proof (zlen_nonneg d).
  apply mem_write_ne; [nia|nia|nia|nia|]. destruct (Z_lt_le_dec g q); [left|right]; nia.
Qed.
Lemma zlen_mem_write_ge off d b : 0 <= off -> zlen b <= zlen (mem_write off d b).
Proof. intros. rewrite zlen_mem_write by done. lia. Qed.

Lemma agrees_write ps n D D' S q d :
  0 < ps -> 1 <= q -> q ∈ S -> zlen d <= ps ->
  agrees ps n D D' S -> agrees ps n D (mem_write ((q - 1) * ps) d D') S.
Proof.
  intros Hps Hq HS Hd [Hl Ha]. split.
  - pose proof (zlen_mem_write_ge ((q - 1) * ps) d D' ltac:(nia)). lia.
  - intros g Hg Hn. rewrite (page_bytes_write_ne ps n) by (done || congruence). by apply Ha.
Qed.

Section Recovery.
Context {E F : Type} `{DiskLaws E F}.

(** The database file [i] holds [D]; nothing else changed since [e]. *)
Definition db_now (e e' : E) (i : nat) (D : bytes) : Prop :=
  files e' = <[i := D]> (files e) /\ names e' = names e /\ (forall g, inode e' g = inode e g).

Lemma db_now_refl e i D : files e !! i = Some D -> db_now e e i D.
Proof. intros. split; [by rewrite insert_id|done]. Qed.
Lemma db_now_lookup e e' i D : db_now e e' i D -> files e' !! i = Some D.
Proof. intros (-> & _). apply lookup_insert_eq. Qed.
Lemma db_now_other e e' i j D : db_now e e' i D -> i <> j -> files e' !! j = files e !! j.
Proof. intros (-> & _) ?. by apply lookup_insert_ne. Qed.
Lemma db_now_trans e e1 e2 i D1 D2 : db_now e e1 i D1 -> db_now e1 e2 i D2 -> db_now e e2 i D2.
Proof.
  intros (Hf1 & Hn1 & Hi1) (Hf2 & Hn2 & Hi2). split_and!; [|congruence|intros; congruence].
  by rewrite Hf2, Hf1, insert_insert_eq.
Qed.

Lemma write_run e f i b off d (ok : unit -> E -> Prop) (err : E -> Prop) :
  live e -> inode e f = Some i -> files e !! i = Some b -> 0 <= off -> off + zlen d < 2 ^ 64 ->
  (forall e', live e' -> db_now e e' i (mem_write off d b) -> ok tt e') ->
  (forall e' k (d' := ztake k d), dead e' -> zlen d' <= zlen d ->
     db_now e e' i b \/ db_now e e' i (mem_write off d' b) -> err e') ->
  run (write_at f off d) e ok err.
Proof.
  intros Hl Hi Hb Ho Hd Hok Herr. eapply run_mono; [by apply (disk_write e f i b off d)| |].
  - intros [] e' (? & ? & ? & ?). by apply Hok.
  - intros e' (? & Hn & Hin & [Hf|[k Hf]]).
    + apply (Herr e' 0); [done|len_lia|left]. split_and!; try done. by rewrite Hf, insert_id.
    + apply (Herr e' k); [done|len_lia|right]. by split_and!.
Qed.

Section Playback.
Context (h : JournalHeader) (ck ps n : Z) (D J tail : bytes) (R : list Z) (jfile db : F) (i_j i_db : nat).
Context (HG : geometry ps n D) (HR : Forall (page_ok n) R) (Hck : is_u32 ck)
        (Hh : jh_cksum_init h = ck) (Hhn : jh_db_orig_size h = n)
        (HJ : zdrop 512 J = records ck ps D R ++ tail) (Hne : i_j <> i_db).

Lemma journal_split : exists B, zlen B <= 512 /\ J = B ++ records ck ps D R ++ tail /\ (R <> [] -> zlen B = 512).
Proof.
  exists (ztake 512 J). rewrite <- HJ, ztake_zdrop_id. split_and!; [len_lia|done|].
  intros HRne. pose proof (zlen_records ck ps n D R HG HR) as Hl.
  apply (f_equal zlen) in HJ. rewrite zlen_zdrop, zlen_app, Hl in HJ.
  destruct R as [|g R']; [done|]. rewrite zlen_cons in HJ. destruct HG as (? & _).
  pose proof (zlen_nonneg R'). pose proof (zlen_nonneg tail). rewrite zlen_ztake. nia.
Qed.

Lemma playback_loop_run m : forall R1 R2 e D' Sx,
  R = R1 ++ R2 -> (tail = [] \/ Z.of_nat m <= zlen R2) -> live e -> inode e jfile = Some i_j -> inode e db = Some i_db ->
  files e !! i_j = Some J -> files e !! i_db = Some D' ->
  agrees ps n D D' (ztake (Z.of_nat m) R2) -> (forall g, g ∈ ztake (Z.of_nat m) R2 -> g ∈ Sx) ->
  run (playback_loop m h ps (512 + zlen R1 * (ps + 8)) jfile db) e
    (fun _ e' => live e' /\ exists D'', db_now e e' i_db D'' /\ agrees ps n D D'' [])
    (fun e' => dead e' /\ exists D'', db_now e e' i_db D'' /\ agrees ps n D D'' Sx).
Proof.
  destruct journal_split as (B & HHl & HJeq & HHr). pose proof HG as (Hps & Hn & HD).
  induction m as [|m IH]; intros R1 R2 e D' Sx HReq Htl Hl Hij Hid Hfj Hfd Hag HSx.
  - apply run_ret. split; [done|]. exists D'. split; [by apply db_now_refl|done].
  - cbn [playback_loop]. apply run_bind.
    pose proof (zlen_nonneg R1) as HR1. unfold record_len at 1.
    eapply run_mono; [apply (disk_read e jfile i_j J); [done..|nia|lia]| |].
    2:{ cbn. intros ? [Hd ->]. split; [done|]. exists D'. split; [by apply db_now_refl|].
        by eapply agrees_mono. }
    cbn. intros rec ? [-> ->]. fold (record_len ps).
    destruct R2 as [|g R2].
    + rewrite app_nil_r in HReq. subst R1.
      destruct Htl as [->|Hm]; [|change (zlen (@nil Z)) with 0 in Hm; lia]. rewrite app_nil_r in HJeq.
      pose proof (record_slice_end ck ps n D B R _ J HG HR HHl HJeq eq_refl) as Hend.
      destruct (Z.ltb_spec (zlen (zslice (512 + zlen R * (ps + 8))
        (512 + zlen R * (ps + 8) + record_len ps) J)) (record_len ps)); [|lia].
      apply run_ret. split; [done|]. exists D'. split; [by apply db_now_refl|].
      unfold ztake in Hag. by rewrite firstn_nil in Hag.
    + assert (page_ok n g) as Hg by (rewrite HReq in HR; by apply Forall_app in HR as [_ [? _]%Forall_cons]).
      assert (zlen B = 512) as HH by (apply HHr; rewrite HReq; by destruct R1).
      erewrite (record_slice ck ps n D B R1 g R2 tail _ J); [|done|by rewrite <- HReq|done|by rewrite <- HReq|done].
      rewrite (zlen_preimage ck ps n D g HG Hg). unfold record_len at 1.
      destruct (Z.ltb_spec (ps + 8) (4 + ps + 4)); [lia|].
      apply run_bind. eapply run_lift; [by apply (check_record_ok h ck ps n)|].
      rewrite Hhn. destruct (Z.leb_spec g n); [|destruct Hg; lia]. apply run_bind.
      pose proof (zlen_page_bytes ps n D g HG Hg) as Hlp. destruct Hg as [Hg1 Hg2].
      assert (ztake (Z.of_nat (S m)) (g :: R2) = g :: ztake (Z.of_nat m) R2) as Htk
        by (unfold ztake; by rewrite !Nat2Z.id).
      rewrite Htk in *.
      apply (write_run e db i_db D'); [done..|nia|nia| |].
      * intros e1 Hl1 Hnow. unfold record_len. 
        replace (512 + zlen R1 * (ps + 8) + (4 + ps + 4)) with (512 + zlen (R1 ++ [g]) * (ps + 8)) by len_lia.
        set (D1 := mem_write ((g - 1) * ps) (page_bytes ps g D) D') in *.
        assert (agrees ps n D D1 (ztake (Z.of_nat m) R2)) as Hag1.
        { destruct Hag as [HlD' Ha]. split.
          - pose proof (zlen_mem_write_ge ((g - 1) * ps) (page_bytes ps g D) D' ltac:(nia)) as Hge.
            fold D1 in Hge. lia.
          - intros g' Hg' Hn'. destruct (decide (g' = g)) as [->|Hgg].
            + unfold D1. rewrite page_bytes_write by (try lia; by left). by rewrite Z.eqb_refl.
            + unfold D1. rewrite (page_bytes_write_ne ps n) by (done || lia).
              apply Ha; [done|]. rewrite elem_of_cons. intros [->|?]; done. }
        pose proof Hnow as (Hf1 & Hnm1 & Hin1).
        eapply run_mono; [apply (IH (R1 ++ [g]) R2 e1 D1 Sx)| |].
        -- by rewrite <- app_assoc.
        -- rewrite zlen_cons in Htl. destruct Htl as [?|?]; [by left|right; lia].
        -- done.
        -- by rewrite Hin1.
        -- by rewrite Hin1.
        -- rewrite (db_now_other _ _ _ _ _ Hnow); done.
        -- by eapply db_now_lookup.
        -- done.
        -- intros g' ?. apply HSx. by right.
        -- intros [] e2 (Hl2 & D2 & Hnow2 & Hag2). split; [done|]. exists D2.
           split; [by eapply db_now_trans|done].
        -- intros e2 (Hd2 & D2 & Hnow2 & Hag2). split; [done|]. exists D2.
           split; [by eapply db_now_trans|done].
      * intros e1 k d' Hd Hd' [Hnow|Hnow]; (split; [done|]); eexists; (split; [exact Hnow|]).
        -- by eapply agrees_mono.
        -- apply agrees_write; [lia|lia|apply HSx; by left|lia|]. by eapply agrees_mono.
Qed.
End Playback.

(** The next opening of the database finds [D]: there is no journal and the
    file holds [D], or the journal restores it. *)
Definition recoverable (jpath : string) (i : nat) (e : E) (D : bytes) : Prop :=
  exists D', files e !! i = Some D' /\
    match names e !! jpath with
    | None => D' = D
    | Some j => j <> i /\ exists J, files e !! j = Some J /\ journal_restores J D D'
    end.

Lemma recoverable_same jpath i e e' D :
  files e' = files e -> names e' = names e -> recoverable jpath i e D -> recoverable jpath i e' D.
Proof. unfold recoverable. by intros -> ->. Qed.

(** The database changed under an unchanged journal. *)
Lemma recoverable_db jpath i e e' j J D D' k ck n ps R tail :
  names e !! jpath = Some j -> j <> i -> files e !! j = Some J ->
  parse_header (zslice 0 512 J) = Some (mkJournalHeader k ck n SECTOR_SIZE ps) ->
  zdrop 512 J = records ck ps D R ++ tail -> tail = [] \/ k <= zlen R ->
  geometry ps n D -> Forall (page_ok n) R -> is_u32 ck -> 0 <= k ->
  db_now e e' i D' -> agrees ps n D D' (ztake k R) -> recoverable jpath i e' D.
Proof.
  intros Hn Hne HJ Hp Hd Htl HG HR Hck Hk Hnow Hag. exists D'. split; [by eapply db_now_lookup|].
  destruct Hnow as (Hf & -> & _). rewrite Hn. split; [done|]. exists J.
  split; [by rewrite Hf, lookup_insert_ne|]. right. by exists k, ck, n, ps, R, tail.
Qed.

Lemma agrees_nil_resize ps n D D' : geometry ps n D -> agrees ps n D D' [] -> mem_resize (n * ps) D' = D.
Proof.
  intros (Hps & Hn & HD) [Hl Ha]. apply (pages_determine ps n); try lia.
  - apply zlen_mem_resize. nia.
  - intros g Hg. rewrite (page_bytes_resize ps n) by (done || lia). apply Ha; [done|].
    apply not_elem_of_nil.
Qed.

(** Deleting a file whose loss the disk survives: [recoverable] both ways. *)
Lemma delete_run (e : E) p (ok : unit -> E -> Prop) (err : E -> Prop) :
  live e -> ordinary p ->
  (forall e', live e' -> files e' = files e -> names e' = delete p (names e) ->
     (forall g, inode e' g = inode e g) -> ok tt e') ->
  (forall e', dead e' -> files e' = files e -> (forall g, inode e' g = inode e g) ->
     names e' = names e \/ names e' = delete p (names e) -> err e') ->
  run (vfs_delete p) e ok err.
Proof.
  intros Hl Hp Hok Herr. eapply run_mono; [by apply disk_delete| |].
  - intros [] e' (?&?&?&?). by apply Hok.
  - intros e' (?&?&?&?). by apply Herr.
Qed.

(** What recovery establishes. *)
Definition recovered (jpath : string) (i : nat) (db : F) (D : bytes) (e : E) : Prop :=
  files e !! i = Some D /\ inode e db = Some i /\ recoverable jpath i e D /\
  (live e -> names e !! jpath = None).

Lemma playback_run jpath jfile db i j e J D D' k ck n ps R tail :
  live e -> ordinary jpath -> inode e db = Some i -> inode e jfile = Some j -> j <> i ->
  names e !! jpath = Some j -> files e !! j = Some J -> files e !! i = Some D' ->
  parse_header (zslice 0 512 J) = Some (mkJournalHeader k ck n SECTOR_SIZE ps) ->
  zdrop 512 J = records ck ps D R ++ tail -> tail = [] \/ k <= zlen R ->
  geometry ps n D -> Forall (page_ok n) R -> is_u32 ck -> 0 <= k ->
  agrees ps n D D' (ztake k R) ->
  run (playback (mkJournalHeader k ck n SECTOR_SIZE ps) jpath jfile db) e
    (fun _ => recovered jpath i db D) (fun e' => recoverable jpath i e' D).
Proof.
  intros Hl Hord Hid Hij Hne Hnm HJ HD' Hp Hd Htl HG HR Hck Hk Hag. pose proof HG as (Hps & Hn & HDl).
  assert (forall e' D'', db_now e e' i D'' -> agrees ps n D D'' (ztake k R) -> recoverable jpath i e' D)
    as Hrec by (intros; by eapply recoverable_db).
  unfold playback. apply run_bind. eapply run_mono; [by apply (disk_lock e db Exclusive i)| |].
  2:{ intros e' (Hf & Hn' & Hi). apply (Hrec e' D'); [|done].
      split_and!; [by rewrite Hf, insert_id|done..]. }
  intros [] e1 (Hl1 & Hf1 & Hn1 & Hi1). apply run_bind.
  assert (db_now e e1 i D') as Hnow1 by (split_and!; [by rewrite Hf1, insert_id|done..]).
  eapply run_mono; [apply (playback_loop_run (mkJournalHeader k ck n SECTOR_SIZE ps) ck ps n D J tail R jfile db j i)
    with (m := Z.to_nat k) (R1 := []) (R2 := R) (e := e1) (D' := D') (Sx := ztake k R)| |].
  all: try done.
  { by rewrite Z2Nat.id. } { by rewrite Hi1. } { by rewrite Hi1. } { by rewrite Hf1. } { by rewrite Hf1. }
  { by rewrite Z2Nat.id. } { by rewrite Z2Nat.id. }
  2:{ intros e2 (_ & D2 & Hnow2 & Hag2). apply (Hrec e2 D2); [by eapply db_now_trans|done]. }
  intros [] e2 (Hl2 & D2 & Hnow2 & Hag2). pose proof (db_now_trans _ _ _ _ _ _ Hnow1 Hnow2) as Hnow.
  assert (forall Sx, agrees ps n D D2 Sx) as HagA
    by (intros Sx; eapply agrees_mono; [|exact Hag2]; intros ? ?%not_elem_of_nil; done).
  apply run_bind. cbn [jh_db_orig_size jh_page_size].
  eapply run_mono; [apply (disk_truncate e2 db i D2); [done| |by eapply db_now_lookup|nia]| |].
  { destruct Hnow as (_ & _ & ->). done. }
  2:{ intros e3 (_ & Hn3 & Hi3 & [Hf3|Hf3]).
      - apply (Hrec e3 D2); [|apply HagA]. eapply db_now_trans; [exact Hnow|].
        split_and!; [|done..]. rewrite Hf3, insert_id; [done|]. by eapply db_now_lookup.
      - apply (Hrec e3 (mem_resize (n * ps) D2)); [|apply agrees_resize; [lia..|apply HagA]].
        eapply db_now_trans; [exact Hnow|]. by split_and!. }
  intros [] e3 (Hl3 & Hf3 & Hn3 & Hi3). rewrite (agrees_nil_resize ps n D D2) in Hf3 by done.
  assert (db_now e e3 i D) as Hnow3 by (eapply db_now_trans; [exact Hnow|]; by split_and!).
  assert (forall e', files e' = files e3 -> names e' = names e3 -> (forall g, inode e' g = inode e3 g) ->
    recoverable jpath i e' D) as Hrec3.
  { intros e' Hf' Hn' Hi'. apply (Hrec e' D); [|split; [lia|done]].
    destruct Hnow3 as (? & ? & ?). split_and!; [congruence|congruence|intros; congruence]. }
  apply run_bind. eapply run_mono; [apply (disk_sync e3 db i); [done|]| |].
  { destruct Hnow3 as (_ & _ & ->). done. }
  2:{ intros e4 (_ & ? & ? & ?). by apply Hrec3. }
  intros [] e4 (Hl4 & Hf4 & Hn4 & Hi4). apply run_bind.
  assert (files e4 !! i = Some D) as HD4 by (rewrite Hf4; by eapply db_now_lookup).
  assert (inode e4 db = Some i) as Hid4 by (rewrite Hi4; destruct Hnow3 as (_ & _ & ->); done).
  apply delete_run; [done|done| |].
  2:{ intros e5 _ Hf5 Hi5 [Hn5|Hn5]; [apply Hrec3; [congruence..|intros; congruence]|].
      exists D. split; [by rewrite Hf5|]. by rewrite Hn5, lookup_delete_eq. }
  intros e5 Hl5 Hf5 Hn5 Hi5.
  assert (recoverable jpath i e5 D) as Hrec5
    by (exists D; split; [by rewrite Hf5|by rewrite Hn5, lookup_delete_eq]).
  eapply run_mono; [apply (disk_unlock e5 db Shared i); [done|by rewrite Hi5]| |].
  - intros [] e6 (Hl6 & Hf6 & Hn6 & Hi6). split_and!.
    + by rewrite Hf6, Hf5.
    + by rewrite Hi6, Hi5.
    + by eapply recoverable_same.
    + intros _. by rewrite Hn6, Hn5, lookup_delete_eq.
  - intros e6 (_ & Hf6 & Hn6 & Hi6). by eapply recoverable_same.
Qed.

Lemma recover_run path db i e D :
  let jpath := path +:+ "-journal" in
  live e -> ordinary jpath -> inode e db = Some i -> reserved e db = false ->
  recoverable jpath i e D ->
  run (recover_hot_journal path db) e (fun _ => recovered jpath i db D)
    (fun e' => recoverable jpath i e' D).
Proof.
  intros jpath Hl Hord Hid Hres (D' & HD' & Hrec).
  assert (recoverable jpath i e D) as Hrec0 by (by exists D').
  unfold recover_hot_journal. fold jpath. apply run_bind.
  eapply run_mono; [by apply (disk_exists e jpath)| |by intros ? [_ ->]].
  intros ex ? [-> ->]. destruct (names e !! jpath) as [j|] eqn:Hj; cbn [negb].
  2:{ rewrite bool_decide_eq_false_2 by (by intros [? ?]). subst D'.
      cbn [negb]. apply run_ret. by split_and!. }
  rewrite bool_decide_eq_true_2 by eauto. cbn [negb]. apply run_bind.
  eapply run_mono; [by apply (disk_reserved e db i)| |by intros ? [_ ->]].
  intros locked ? [-> ->]. rewrite Hres. destruct Hrec as (Hne & J & HJ & Hrest). apply run_bind.
  eapply run_mono; [by apply (disk_open e jpath j)| |].
  2:{ intros e1 (_ & Hf1 & Hn1 & _). by eapply recoverable_same. }
  intros jfile e1 (Hl1 & Hf1 & Hn1 & Hij & Hi1).
  assert (recoverable jpath i e1 D) as Hrec1 by (by eapply recoverable_same).
  assert (inode e1 db = Some i) as Hid1 by (rewrite Hi1; [done|by rewrite Hid]).
  apply run_bind. eapply run_mono;
    [apply (disk_read e1 jfile j J 0 JOURNAL_HDR_SZ); [done|done|by rewrite Hf1|lia|done]| |by intros ? [_ ->]].
  intros hdr ? [-> ->]. change (0 + JOURNAL_HDR_SZ) with 512.
  destruct Hrest as [[Hp ->]|(k & ck & n & ps & R & tail & Hp & Hd & Htl & HG & HR & Hck & Hk & Hag)]; rewrite Hp.
  - unfold run, ignore. pose proof (disk_delete e1 jpath Hl1 Hord) as Hdel. unfold run in Hdel.
    destruct (vfs_delete jpath e1) as [[[]|er|] e2]; [| |done].
    + destruct Hdel as (Hl2 & Hf2 & Hn2 & Hi2). split_and!.
      * by rewrite Hf2, Hf1.
      * by rewrite Hi2.
      * exists D. split; [by rewrite Hf2, Hf1|]. by rewrite Hn2, lookup_delete_eq.
      * intros _. by rewrite Hn2, lookup_delete_eq.
    + destruct Hdel as (Hd2 & Hf2 & Hi2 & Hn2). split_and!.
      * by rewrite Hf2, Hf1.
      * by rewrite Hi2.
      * destruct Hn2 as [Hn2|Hn2]; [by eapply recoverable_same|].
        exists D. split; [by rewrite Hf2, Hf1|]. by rewrite Hn2, lookup_delete_eq.
      * intros Hl2. exfalso. by eapply live_not_dead.
  - cbn [jh_page_size]. pose proof HG as (Hps & _). destruct (Z.eqb_spec ps 0); [lia|].
    eapply playback_run with (e := e1) (J := J) (D' := D') (R := R) (tail := tail); try done.
    + by rewrite Hn1.
    + by rewrite Hf1.
    + by rewrite Hf1.
Qed.

End Recovery.
