(* ===== verification/Atomic.v ===== *)
(** * Rollback-journal transactions are atomic

    A write transaction of [pager/mod.rs] from [begin_write] to [commit] or
    [rollback] on a disk that can crash at any operation: the states it goes
    through, and what a later recovery finds. *)

From S2P Require Import Prelude DbHeader Vfs Wal Journal Ptrmap Pager Autovac PagerTxn Disk Recovery.

(** ** The journal on disk *)

Definition jimage (k ck n ps : Z) (D : bytes) (R : list Z) : bytes :=
  header_image k ck n ps ++ records ck ps D R.

Lemma jimage_head k ck n ps D R : zslice 0 512 (jimage k ck n ps D R) = header_image k ck n ps.
Proof. unfold jimage. by apply (zslice_app3 [] (header_image k ck n ps)). Qed.
Lemma jimage_tail k ck n ps D R : zdrop 512 (jimage k ck n ps D R) = records ck ps D R.
Proof.
  unfold jimage. rewrite zdrop_app_ge by (rewrite zlen_header_image; done).
  by rewrite zlen_header_image, zdrop_0.
Qed.
Lemma jimage_parse k ck n ps D R : is_u32 k -> is_u32 ck -> is_u32 n -> is_u32 ps ->
  parse_header (zslice 0 512 (jimage k ck n ps D R)) = Some (mkJournalHeader k ck n SECTOR_SIZE ps).
Proof.
  intros. rewrite jimage_head, <- (app_nil_r (header_image k ck n ps)). by apply header_image_parse.
Qed.

Lemma jimage_snoc k ck n ps D R g off : geometry ps n D -> Forall (page_ok n) R -> page_ok n g ->
  off = 512 + zlen R * (ps + 8) ->
  mem_write off (preimage ck ps D g) (jimage k ck n ps D R) = jimage k ck n ps D (R ++ [g]).
Proof.
  intros HG HR Hg ->. unfold jimage. rewrite records_app, records_cons.
  change (records ck ps D []) with (@nil Z). rewrite app_nil_r, (app_assoc (header_image k ck n ps)).
  pose proof (zlen_records ck ps n D R HG HR). rewrite mem_write_gap.
  - rewrite zlen_app, zlen_header_image. replace (512 + _ - _) with 0 by (unfold JOURNAL_HDR_SZ, SECTOR_SIZE; lia).
    done.
  - rewrite zlen_app, zlen_header_image. unfold JOURNAL_HDR_SZ, SECTOR_SIZE. lia.
Qed.

(** Patching (a prefix of) the record count. *)
Lemma jimage_patch k0 b4 ck n ps D R : zlen b4 <= 4 ->
  mem_write 8 b4 (jimage k0 ck n ps D R) =
    JOURNAL_MAGIC ++ (b4 ++ zdrop (zlen b4) (be_bytes 4 k0)) ++ be_bytes 4 ck ++ be_bytes 4 n ++
      be_bytes 4 SECTOR_SIZE ++ be_bytes 4 ps ++ zrep 484 0 ++ records ck ps D R.
Proof.
  intros Hb. unfold jimage, header_image. rewrite <- !app_assoc.
  change 8 with (zlen JOURNAL_MAGIC) at 1. rewrite mem_write_over. do 3 f_equal.
  apply zdrop_app_le. rewrite zlen_be_bytes. lia.
Qed.
Lemma jimage_patch_full k0 k ck n ps D R :
  mem_write 8 (be_bytes 4 k) (jimage k0 ck n ps D R) = jimage k ck n ps D R.
Proof.
  rewrite jimage_patch by done. rewrite (zdrop_all _ (be_bytes 4 k0)), app_nil_r by done.
  unfold jimage, header_image. by rewrite <- !app_assoc.
Qed.
Lemma jimage_patch_torn k0 k t ck n ps D R : exists k', is_u32 k' /\
  mem_write 8 (ztake t (be_bytes 4 k)) (jimage k0 ck n ps D R) = jimage k' ck n ps D R.
Proof.
  set (b4 := ztake t (be_bytes 4 k)). set (c := b4 ++ zdrop (zlen b4) (be_bytes 4 k0)).
  assert (zlen b4 <= 4) as Hl by (unfold b4; len_lia).
  assert (zlen c = 4) as Hc by (unfold c; pose proof (zlen_nonneg b4); len_lia).
  assert (bytes_ok c) as Hok by (apply Forall_app; split; unfold b4; auto with bytes).
  exists (be_val c). split.
  - pose proof (be_val_range c Hok). rewrite Hc in *. unfold is_u32. simpl in *. lia.
  - rewrite jimage_patch by done. fold c. unfold jimage, header_image.
    assert (be_bytes 4 (be_val c) = c) as ->; [|by rewrite <- !app_assoc].
    rewrite <- (be_bytes_be_val c Hok) at 2. unfold zlen in Hc.
    by replace (length c) with 4%nat by lia.
Qed.

(** A prefix of a header with no records is no journal or an empty one. *)
Lemma header_prefix t ck n ps D : is_u32 ck -> geometry ps n D ->
  journal_restores (ztake t (header_image 0 ck n ps)) D D.
Proof.
  intros Hck HG. pose proof HG as (Hps & Hn & HD). unfold journal_restores.
  set (img := header_image 0 ck n ps). assert (zlen img = 512) as Hl by apply zlen_header_image.
  assert (zslice 0 512 (ztake t img) = ztake t img) as ->.
  { unfold zslice. rewrite zdrop_0 by lia. apply ztake_all. len_lia. }
  destruct (Z_lt_le_dec t 28) as [Ht|Ht].
  - left. split; [|done]. unfold parse_header, HEADER_FIELDS_LEN.
    by destruct (Z.ltb_spec (zlen (ztake t img)) 28); [|len_lia].
  - right. exists 0, ck, n, ps, [], []. split_and!; try done.
    + rewrite <- (header_image_parse 0 ck n ps []) by (unfold is_u32 in *; done || lia).
      rewrite app_nil_r. fold img. unfold parse_header, HEADER_FIELDS_LEN, be32_at.
      destruct (Z.ltb_spec (zlen (ztake t img)) 28), (Z.ltb_spec (zlen img) 28); try len_lia.
      by rewrite !zslice_ztake by lia.
    + apply zdrop_all. len_lia.
    + by left.
    + by split; [lia|].
Qed.

(** ** The states of a transaction *)

Section Atomic.
Context {E F : Type} `{DiskLaws E F}.
Notation State := (Pager F * (Proc * E))%type.
Notation PM := (PagerM (E := E) (F := F)).

(** What a reader sees at page [g] over the database image [D]. *)
Definition cur (p : Pager F) (D : bytes) (g : Z) : bytes :=
  match pg_dirty p !! g with Some b => b | None => page_bytes (pg_page_size p) g D end.

(** [i] is the database file, whose content is [D], of [n] pages. *)
Record attached (i : nat) (D : bytes) (n : Z) (p : Pager F) (e : E) : Prop := {
  at_live : live e;
  at_file : inode e (pg_file p) = Some i;
  at_path : ordinary (journal_path p);
  at_data : files e !! i = Some D;
  at_geo : geometry (pg_page_size p) n D;
  at_one : 1 <= n;
  at_usable : 480 <= pg_usable_size p <= 65536;
  at_wal : pg_wal p = None;
  at_cache g b : pg_cache p !! g = Some b -> page_ok n g /\ b = page_bytes (pg_page_size p) g D }.

(** Between transactions. *)
Record idle (i : nat) (D : bytes) (n : Z) (p : Pager F) (e : E) : Prop := {
  id_at : attached i D n p e;
  id_none : names e !! journal_path p = None;
  id_txn : pg_txn p = None;
  id_dirty : pg_dirty p = ∅;
  id_count : pg_count p = n }.

(** The open transaction that has journaled the pages [R]. *)
Definition txn_of (jf : F) (ck ps n : Z) (R : list Z) : WriteTxn F :=
  mkTxn (Some jf) ck n (zlen R) (512 + zlen R * (ps + 8)) (list_to_set R).

Record active (i : nat) (D : bytes) (n : Z) (R : list Z) (p : Pager F) (e : E) : Prop := {
  ac_at : attached i D n p e;
  ac_jrnl : exists jf j ck, pg_txn p = Some (txn_of jf ck (pg_page_size p) n R) /\ is_u32 ck /\
    inode e jf = Some j /\ j <> i /\ names e !! journal_path p = Some j /\
    files e !! j = Some (jimage 0 ck n (pg_page_size p) D R);
  ac_R : Forall (page_ok n) R;
  ac_nodup : NoDup R;
  ac_count : n <= pg_count p < 2 ^ 32 - 4;
  ac_dirty g b : pg_dirty p !! g = Some b ->
    page_ok (pg_count p) g /\ zlen b = pg_page_size p /\ (g <= n -> g ∈ R);
  ac_fresh g : n < g <= pg_count p -> is_Some (pg_dirty p !! g) }.

Lemma nrec_u32 n (R : list Z) : 0 <= n -> Forall (page_ok n) R -> NoDup R -> zlen R <= n.
Proof.
  intros Hn HR Hnd. unfold zlen.
  assert (length R <= length (seqZ 1 n))%nat as Hle.
  { apply submseteq_length, NoDup_submseteq; [done|]. intros g Hg.
    rewrite Forall_forall in HR. apply elem_of_seqZ. destruct (HR g Hg). lia. }
  rewrite length_seqZ in Hle. lia.
Qed.

(** In an open transaction the database is untouched. *)
Lemma active_recoverable i D n R p e : active i D n R p e -> recoverable (journal_path p) i e D.
Proof.
  intros A. destruct (ac_jrnl _ _ _ _ _ _ A) as (jf & j & ck & _ & Hck & _ & Hne & Hn & Hf).
  pose proof (ac_at _ _ _ _ _ _ A) as T. pose proof (at_geo _ _ _ _ _ T) as HG.
  pose proof HG as (Hps & Hnn & HD). exists D. split; [apply T|]. rewrite Hn. split; [done|].
  eexists. split; [exact Hf|]. right. exists 0, ck, n, (pg_page_size p), R, [].
  split_and!; try done.
  - apply jimage_parse; unfold is_u32 in *; (done || lia).
  - by rewrite app_nil_r, jimage_tail.
  - by left.
  - apply A.
  - by split; [lia|].
Qed.
Lemma idle_recoverable i D n p e : idle i D n p e -> recoverable (journal_path p) i e D.
Proof. intros A. exists D. split; [apply A|]. by rewrite (id_none _ _ _ _ _ A). Qed.

Lemma page_count_plain (p : Pager F) : pg_wal p = None -> page_count_of p = pg_count p.
Proof. unfold page_count_of. by intros ->. Qed.

(** [run] through the lifted pieces. *)
Lemma run_gets {A} (f : Pager F -> A) p r (ok : A -> State -> Prop) err :
  ok (f p) (p, r) -> run (gets f) (p, r) ok err.
Proof. done. Qed.
Lemma run_upd (f : Pager F -> Pager F) p (r : Proc * E) (ok : unit -> State -> Prop) err :
  ok tt (f p, r) -> run (upd f) (p, r) ok err.
Proof. done. Qed.
Lemma run_pio {A} (m : M E A) p (pr : Proc) e (ok : A -> State -> Prop) (err : State -> Prop) :
  run m e (fun a e' => ok a (p, (pr, e'))) (fun e' => err (p, (pr, e'))) ->
  run (pio m) (p, (pr, e)) ok err.
Proof. unfold run, pio, on_snd. by destruct (m e) as [[?|?|] ?]. Qed.

(** Only the clean cache and the journal bookkeeping changed. *)
Definition same_pages (p p' : Pager F) : Prop :=
  exists c t, p' = set_txn t (set_cache c p).

Lemma same_pages_refl p : same_pages p p.
Proof. exists (pg_cache p), (pg_txn p). by destruct p. Qed.
Lemma same_pages_trans p1 p2 p3 : same_pages p1 p2 -> same_pages p2 p3 -> same_pages p1 p3.
Proof. intros (c1 & t1 & ->) (c2 & t2 & ->). by exists c2, t2. Qed.

Lemma install_run g b p pr e i D n R :
  active i D n R p e -> page_ok n g -> b = page_bytes (pg_page_size p) g D ->
  pg_dirty p !! g = None ->
  run (install g b) (p, (pr, e))
    (fun r '(p', (pr', e')) => r = b /\ active i D n R p' e' /\ same_pages p p') (fun _ => False).
Proof.
  intros A Hg Hb Hd. pose proof (ac_at _ _ _ _ _ _ A) as T. unfold install. apply run_bind, run_gets.
  unfold overlay, id. rewrite Hd. destruct (pg_cache p !! g) as [q|] eqn:Hc.
  - apply run_ret. destruct (at_cache _ _ _ _ _ T g q Hc) as [_ ->]. split_and!; [done|done|].
    apply same_pages_refl.
  - apply run_bind, run_upd, run_ret. split_and!; [done| |exists (<[g:=b]> (pg_cache p)), (pg_txn p); by destruct p].
    destruct T, A. constructor; try done. constructor; try done. intros g' b'. cbn.
    rewrite lookup_insert_Some. intros [[<- <-]|[_ ?]]; [done|eauto].
Qed.

Lemma get_page_run g p pr e i D n R :
  active i D n R p e -> page_ok (pg_count p) g ->
  run (get_page g) (p, (pr, e))
    (fun b '(p', (pr', e')) => b = cur p D g /\ active i D n R p' e' /\ same_pages p p')
    (fun '(p', (pr', e')) => recoverable (journal_path p) i e' D).
Proof.
  intros A [Hg1 Hg2]. pose proof (ac_at _ _ _ _ _ _ A) as T. unfold get_page.
  apply run_bind, run_gets. unfold id. rewrite (page_count_plain p) by apply T.
  destruct (Z.eqb_spec g 0); [lia|]. destruct (Z.gtb_spec g (pg_count p)); [lia|].
  pose proof (same_pages_refl p) as Hs.
  unfold overlay, cur. destruct (pg_dirty p !! g) as [q|] eqn:Hd; [by apply run_ret|].
  assert (page_ok n g) as Hg.
  { split; [done|]. destruct (Z_le_gt_dec g n); [done|].
    destruct (ac_fresh _ _ _ _ _ _ A g ltac:(lia)) as [? ?]. congruence. }
  destruct (pg_cache p !! g) as [q|] eqn:Hc.
  { apply run_ret. by destruct (at_cache _ _ _ _ _ T g q Hc) as [_ ->]. }
  rewrite (at_wal _ _ _ _ _ T). apply run_bind, run_ret. cbn [negb Z.eqb].
  pose proof (at_geo _ _ _ _ _ T) as HG. pose proof HG as (Hps & Hn & HD). destruct Hg as [_ Hgn].
  apply run_bind, run_pio.
  eapply run_mono; [apply (disk_read e (pg_file p) i D); [apply T|apply T|apply T|nia|lia]| |].
  - cbn. intros b ? [-> ->].
    replace ((g - 1) * pg_page_size p + pg_page_size p) with (g * pg_page_size p) by lia.
    fold (page_bytes (pg_page_size p) g D). rewrite (zlen_page_bytes (pg_page_size p) n D g HG) by done.
    rewrite Z.ltb_irrefl. eapply run_mono; [by eapply install_run| |done]. done.
  - cbn. intros ? [_ ->]. by eapply active_recoverable.
Qed.

Lemma journal_page_run g b p pr e i D n R :
  active i D n R p e -> page_ok (pg_count p) g -> b = cur p D g ->
  run (journal_page g b) (p, (pr, e))
    (fun _ '(p', (pr', e')) => same_pages p p' /\
       exists R', active i D n R' p' e' /\ (g <= n -> g ∈ R') /\ forall x, x ∈ R -> x ∈ R')
    (fun '(p', (pr', e')) => recoverable (journal_path p) i e' D).
Proof.
  intros A [Hg1 Hg2] Hb. pose proof (ac_at _ _ _ _ _ _ A) as T.
  destruct (ac_jrnl _ _ _ _ _ _ A) as (jf & j & ck & Ht & Hck & Hij & Hne & Hnm & Hfj).
  unfold journal_page. apply run_bind, run_gets. unfold id. rewrite (at_wal _ _ _ _ _ T), Ht.
  cbn [txn_of tx_db_orig_size tx_journaled tx_journal tx_journal_off tx_cksum_init].
  destruct (Z.gtb_spec g n) as [Hgn|Hgn].
  { apply run_ret. split; [apply same_pages_refl|]. exists R. split_and!; [done|lia|done]. }
  destruct (bool_decide_reflect (g ∈@{gset Z} list_to_set R)) as [HgR|HgR].
  { apply run_ret. split; [apply same_pages_refl|]. exists R.
    apply elem_of_list_to_set in HgR. by split_and!. }
  rewrite elem_of_list_to_set in HgR. unfold cur in Hb.
  destruct (pg_dirty p !! g) as [q|] eqn:Hd.
  { destruct (ac_dirty _ _ _ _ _ _ A g q Hd) as (_ & _ & Hin). by apply Hin in Hgn. }
  subst b. fold (preimage ck (pg_page_size p) D g).
  pose proof (at_geo _ _ _ _ _ T) as HG. pose proof HG as (Hps & Hn & HD).
  assert (page_ok n g) as Hg by (by split). pose proof (ac_R _ _ _ _ _ _ A) as HR.
  pose proof (nrec_u32 n R ltac:(lia) HR (ac_nodup _ _ _ _ _ _ A)) as HRn.
  pose proof (zlen_nonneg R) as HR0. pose proof (zlen_preimage ck _ n D g HG Hg) as Hlp.
  assert (reserve_record g (pg_page_size p) (txn_of jf ck (pg_page_size p) n R) =
          txn_of jf ck (pg_page_size p) n (R ++ [g])) as Htxn.
  { unfold reserve_record, txn_of, record_len. cbn. f_equal; [len_lia|len_lia|].
    rewrite list_to_set_app_L. set_solver. }
  rewrite Htxn. apply run_bind, run_upd, run_bind. eapply run_lift; [reflexivity|].
  apply run_pio, (write_run e jf j (jimage 0 ck n (pg_page_size p) D R));
    [apply T|done|done|nia|rewrite Hlp; nia| |].
  - intros e1 Hl1 (Hf1 & Hn1 & Hi1). rewrite (jimage_snoc _ _ n) in Hf1 by done.
    split; [exists (pg_cache p); by eexists|]. exists (R ++ [g]). split_and!.
    + destruct T, A. constructor; try done.
      * constructor; try done; cbn; [by rewrite Hi1|by rewrite Hf1, lookup_insert_ne].
      * exists jf, j, ck. cbn. split_and!; try done; [by rewrite Hi1|by rewrite Hn1|].
        by rewrite Hf1, lookup_insert_eq.
      * apply Forall_app; split; [done|by constructor].
      * apply NoDup_app; split_and!; [done| |apply NoDup_singleton].
        intros x Hx ->%list_elem_of_singleton. done.
      * cbn. intros x bx Hx. destruct (ac_dirty0 x bx Hx) as (? & ? & Hin).
        split_and!; [done|done|]. intros Hxn. apply elem_of_app. left. by apply Hin.
    + intros _. apply elem_of_app. right. by apply list_elem_of_singleton.
    + intros x Hx. apply elem_of_app. by left.
  - intros e1 k d' Hd1 Hld Hnow. cbn. exists D.
    assert (files e1 !! i = Some D) as Hdb.
    { destruct Hnow as [Hnow|Hnow]; rewrite (db_now_other _ _ _ _ _ Hnow) by done; apply T. }
    split; [done|]. assert (names e1 = names e) as -> by (by destruct Hnow as [(_ & -> & _)|(_ & -> & _)]).
    rewrite Hnm. split; [done|].
    assert (exists tl, files e1 !! j = Some (jimage 0 ck n (pg_page_size p) D R ++ tl)) as [tl Htl].
    { destruct Hnow as [Hnow|Hnow]; rewrite (db_now_lookup _ _ _ _ Hnow).
      - exists []. by rewrite app_nil_r.
      - exists d'. f_equal. unfold jimage.
        pose proof (zlen_records ck _ n D R HG HR) as Hrl. rewrite mem_write_gap.
        + rewrite zlen_app, zlen_header_image. replace (512 + _ - _) with 0; [done|].
          unfold JOURNAL_HDR_SZ, SECTOR_SIZE. lia.
        + rewrite zlen_app, zlen_header_image. unfold JOURNAL_HDR_SZ, SECTOR_SIZE. lia. }
    eexists. split; [exact Htl|]. right. exists 0, ck, n, (pg_page_size p), R, tl.
    assert (512 <= zlen (jimage 0 ck n (pg_page_size p) D R)) as Hjl.
    { unfold jimage. rewrite zlen_app, zlen_header_image. pose proof (zlen_nonneg (records ck (pg_page_size p) D R)).
      unfold JOURNAL_HDR_SZ, SECTOR_SIZE. lia. }
    split_and!; try done.
    + rewrite zslice_app_l by lia. apply jimage_parse; unfold is_u32 in *; (done || lia).
    + right. lia.
    + by split; [lia|].
Qed.

Lemma read_page_for_write_run g p pr e i D n R :
  active i D n R p e -> page_ok (pg_count p) g ->
  run (read_page_for_write g) (p, (pr, e))
    (fun b '(p', (pr', e')) => b = cur p D g /\ same_pages p p' /\
       exists R', active i D n R' p' e' /\ (g <= n -> g ∈ R') /\ forall x, x ∈ R -> x ∈ R')
    (fun '(p', (pr', e')) => recoverable (journal_path p) i e' D).
Proof.
  intros A Hg. unfold read_page_for_write. apply run_bind.
  eapply run_mono; [by eapply get_page_run| |by intros [? [? ?]]].
  intros b (p1 & pr1 & e1) (-> & A1 & S1). apply run_bind.
  eapply run_mono; [eapply (journal_page_run g _ p1 pr1 e1); [exact A1|..]| |].
  - by destruct S1 as (? & ? & ->).
  - by destruct S1 as (? & ? & ->).
  - intros [] (p2 & pr2 & e2) (S2 & HR2). apply run_ret. split_and!; [done| |done].
    by eapply same_pages_trans.
  - intros (p2 & pr2 & e2). by destruct S1 as (? & ? & ->).
Qed.

(** The pager with [b] in the dirty overlay at [g]. *)
Definition put_dirty (g : Z) (b : bytes) (p : Pager F) : Pager F :=
  set_dirty (<[g := b]> (pg_dirty p)) p.

Lemma active_put g b p e i D n R :
  active i D n R p e -> page_ok (pg_count p) g -> zlen b = pg_page_size p -> (g <= n -> g ∈ R) ->
  active i D n R (put_dirty g b p) e.
Proof.
  intros A Hg Hb HgR. destruct (ac_at _ _ _ _ _ _ A), A. constructor; try done; try by constructor.
  - cbn. intros x bx. rewrite lookup_insert_Some. intros [[<- <-]|[_ Hx]]; [done|eauto].
  - cbn. intros x Hx. apply lookup_insert_is_Some. destruct (decide (g = x)); eauto.
Qed.

Lemma write_page_run g b p pr e i D n R :
  active i D n R p e -> page_ok (pg_count p) g -> zlen b = pg_page_size p -> (g <= n -> g ∈ R) ->
  run (write_page g b) (p, (pr, e))
    (fun _ s => s = (put_dirty g b p, (pr, e)) /\ active i D n R (put_dirty g b p) e) (fun _ => False).
Proof.
  intros A Hg Hb HgR. unfold write_page. apply run_bind, run_gets. unfold id.
  rewrite Hb, Z.eqb_refl. cbn [negb]. apply run_upd. split; [done|]. by apply active_put.
Qed.

(** ** Allocation at the end of the file *)

(** [p'] is [p] after up to [k] zeroed pages were added at the end. *)
Definition extends (k : Z) (p p' : Pager F) : Prop :=
  pg_count p < pg_count p' <= pg_count p + k /\
  p' = set_dirty (pg_dirty p') (set_count (pg_count p') p) /\
  (forall g, g <= pg_count p -> pg_dirty p' !! g = pg_dirty p !! g) /\
  (forall g, pg_count p < g <= pg_count p' -> pg_dirty p' !! g = Some (zero_page p)).

Lemma active_extend i D n R p e :
  active i D n R p e -> pg_count p + 1 < 2 ^ 32 - 4 ->
  active i D n R (put_dirty (pg_count p + 1) (zero_page p) (set_count (pg_count p + 1) p)) e.
Proof.
  intros A Hc. destruct (ac_at _ _ _ _ _ _ A) as [], A. constructor; try done; try by constructor.
  - cbn. lia.
  - cbn. intros x bx. rewrite lookup_insert_Some. intros [[<- <-]|[_ Hx]].
    + split_and!; [split; lia| |lia]. unfold zero_page. rewrite zlen_zrep. destruct at_geo0. lia.
    + destruct (ac_dirty0 x bx Hx) as ([? ?] & ? & ?). split_and!; [split; lia|done|done].
  - cbn. intros x Hx. apply lookup_insert_is_Some. destruct (decide (pg_count p + 1 = x)); [by left|].
    right. split; [done|]. apply ac_fresh0. lia.
Qed.

Lemma allocate_loop_run fuel : forall p pr e i D n R,
  active i D n R p e -> pg_count p + Z.of_nat fuel < 2 ^ 32 - 4 -> (fuel <= 3)%nat ->
  (* one of the next [fuel] pages can be used *)
  (exists k, 1 <= k <= Z.of_nat fuel /\ is_reserved_page (pg_usable_size p) (pg_count p + k) = false) ->
  run (allocate_loop fuel) (p, (pr, e))
    (fun g '(p', (pr', e')) => extends (Z.of_nat fuel) p p' /\ g = pg_count p' /\ active i D n R p' e')
    (fun _ => False).
Proof.
  induction fuel as [|fuel IH]; intros p pr e i D n R A Hc Hfu (k & Hk & Hfree); [lia|].
  cbn [allocate_loop]. apply run_bind, run_gets, run_bind. unfold id.
  pose proof (ac_count _ _ _ _ _ _ A) as Hcnt. pose proof (at_geo _ _ _ _ _ (ac_at _ _ _ _ _ _ A)) as (_ & Hn & _).
  eapply run_lift.
  { unfold chk_add32. destruct (Z.ltb_spec (pg_count p + 1) (2 ^ 32)); [reflexivity|lia]. }
  apply run_bind, run_upd, run_bind. unfold insert_dirty. apply run_upd.
  pose proof (active_extend i D n R p e A ltac:(lia)) as A1.
  change (set_dirty (<[pg_count p + 1 := zero_page p]> (pg_dirty (set_count (pg_count p + 1) p)))
    (set_count (pg_count p + 1) p))
    with (put_dirty (pg_count p + 1) (zero_page p) (set_count (pg_count p + 1) p)).
  set (p1 := put_dirty _ _ _) in *.
  assert (pg_count p1 = pg_count p + 1) as E1 by done.
  assert (pg_dirty p1 = <[pg_count p + 1 := zero_page p]> (pg_dirty p)) as E2 by done.
  assert (extends (Z.of_nat (S fuel)) p p1) as X1.
  { unfold extends. rewrite E1, E2. split_and!; [lia|lia|by unfold p1; destruct p| |].
    - intros g Hg. by rewrite lookup_insert_ne by lia.
    - intros g Hg. replace g with (pg_count p + 1) by lia. by rewrite lookup_insert_eq. }
  assert (run (mret (pg_count p + 1)) (p1, (pr, e))
    (fun g '(p', (pr', e')) => extends (Z.of_nat (S fuel)) p p' /\ g = pg_count p' /\ active i D n R p' e') (fun _ => False)) as Hdone
    by (by apply run_ret).
  assert (is_reserved_page (pg_usable_size p) (pg_count p + 1) = true ->
    run (allocate_loop fuel) (p1, (pr, e))
      (fun g '(p', (pr', e')) => extends (Z.of_nat (S fuel)) p p' /\ g = pg_count p' /\ active i D n R p' e')
      (fun _ => False)) as Hgo.
  { intros Hres. eapply run_mono; [apply (IH p1 pr e i D n R A1)| |done].
    - lia.
    - lia.
    - assert (k <> 1) by (intros ->; congruence). exists (k - 1). rewrite E1. split; [lia|].
      by replace (pg_count p + 1 + (k - 1)) with (pg_count p + k) by lia.
    - intros g (p2 & pr2 & e2) ((Hc2 & Hp2 & Ho2 & Hz2) & -> & A2). split_and!; [|done|done].
      rewrite E1 in *. unfold extends. split_and!; [lia|lia|rewrite Hp2; by unfold p1; destruct p| |].
      + intros g Hg. rewrite Ho2 by lia. by rewrite E2, lookup_insert_ne by lia.
      + intros g Hg. destruct (decide (g = pg_count p + 1)) as [->|].
        * rewrite Ho2 by lia. by rewrite E2, lookup_insert_eq.
        * by rewrite Hz2 by lia. }
  unfold is_reserved_page in Hgo.
  destruct (is_pending_byte_page (pg_usable_size p) (pg_count p + 1)).
  { apply Hgo. by destruct (is_ptrmap_page _ _). }
  destruct (auto_vacuum p); [|exact Hdone].
  destruct (is_ptrmap_page (pg_usable_size p) (pg_count p + 1)); [by apply Hgo|exact Hdone].
Qed.

Definition no_freelist (p : Pager F) : Prop :=
  freelist_count (pg_header p) <= 0 \/ first_freelist_trunk (pg_header p) = 0.

Lemma allocate_page_run p pr e i D n R :
  active i D n R p e -> no_freelist p -> pg_count p + 4 < 2 ^ 32 - 4 ->
  run allocate_page (p, (pr, e))
    (fun g '(p', (pr', e')) => extends 3 p p' /\ g = pg_count p' /\ active i D n R p' e')
    (fun _ => False).
Proof.
  intros A Hf Hc. unfold allocate_page. apply run_bind, run_gets. unfold id.
  assert ((if freelist_count (pg_header p) >? 0
           then negb (first_freelist_trunk (pg_header p) =? 0) else false) = false) as ->.
  { destruct (Z.gtb_spec (freelist_count (pg_header p)) 0); [|done].
    destruct Hf as [?|Hf]; [lia|]. by rewrite Hf. }
  pose proof (ac_count _ _ _ _ _ _ A) as Hcnt. pose proof (ac_at _ _ _ _ _ _ A) as T.
  pose proof (at_geo _ _ _ _ _ T) as (_ & Hn & _).
  eapply run_mono; [apply (allocate_loop_run 3 p pr e i D n R)| |done]; [done|lia|lia| |done].
  destruct (is_reserved_page (pg_usable_size p) (pg_count p + 1)) eqn:R1; [|by exists 1].
  destruct (is_reserved_page (pg_usable_size p) (pg_count p + 2)) eqn:R2; [|by exists 2].
  exists 3. split; [lia|].
  replace (pg_count p + 3) with (pg_count p + 1 + 2) by lia.
  apply three_pages_one_free; [apply T|lia|lia|done|].
  by replace (pg_count p + 1 + 1) with (pg_count p + 2) by lia.
Qed.

(** ** Beginning *)

Lemma splitmix_u32 a b : is_u32 (splitmix a b).
Proof. unfold splitmix, u32, is_u32. apply Z.mod_pos_bound. lia. Qed.

Lemma attached_same i D n p e e' :
  attached i D n p e -> live e' -> files e' !! i = files e !! i -> inode e' (pg_file p) = inode e (pg_file p) ->
  attached i D n p e'.
Proof. intros [] Hl Hf Hi. constructor; try done; congruence. Qed.
Lemma attached_txn i D n p e t : attached i D n p e -> attached i D n (set_txn t p) e.
Proof. intros []. by constructor. Qed.

Lemma lock_run (e : E) f i l (ok : unit -> E -> Prop) (err : E -> Prop) :
  live e -> inode e f = Some i ->
  (forall e', live e' -> files e' = files e -> names e' = names e -> (forall g, inode e' g = inode e g) -> ok tt e') ->
  (forall e', files e' = files e -> names e' = names e -> (forall g, inode e' g = inode e g) -> err e') ->
  run (file_lock f l) e ok err.
Proof.
  intros Hl Hi Hok Herr. eapply run_mono; [by apply (disk_lock e f l i)| |].
  - intros [] e' (?&?&?&?). by apply Hok.
  - intros e' (?&?&?). by apply Herr.
Qed.
Lemma sync_run (e : E) f i (ok : unit -> E -> Prop) (err : E -> Prop) :
  live e -> inode e f = Some i ->
  (forall e', live e' -> files e' = files e -> names e' = names e -> (forall g, inode e' g = inode e g) -> ok tt e') ->
  (forall e', files e' = files e -> names e' = names e -> (forall g, inode e' g = inode e g) -> err e') ->
  run (sync f) e ok err.
Proof.
  intros Hl Hi Hok Herr. eapply run_mono; [by apply (disk_sync e f i)| |].
  - intros [] e' (?&?&?&?). by apply Hok.
  - intros e' (_&?&?&?). by apply Herr.
Qed.

Lemma begin_write_run ex p pr e i D n :
  idle i D n p e -> n < 2 ^ 32 - 4 ->
  run (begin_write ex) (p, (pr, e))
    (fun _ '(p', (pr', e')) => active i D n [] p' e' /\ exists t, p' = set_txn (Some t) p)
    (fun '(p', (pr', e')) => recoverable (journal_path p) i e' D).
Proof.
  intros I Hn32. pose proof (id_at _ _ _ _ _ I) as T. pose proof (at_geo _ _ _ _ _ T) as HG.
  pose proof HG as (Hps & Hn & HD).
  assert (forall e', files e' !! i = files e !! i -> names e' = names e ->
    recoverable (journal_path p) i e' D) as Hrec.
  { intros e' Hf Hnm. exists D. rewrite Hf, Hnm, (id_none _ _ _ _ _ I). split; [apply T|done]. }
  unfold begin_write. apply run_bind, run_gets. unfold id, in_write_txn.
  rewrite (id_txn _ _ _ _ _ I). apply run_bind, run_pio, (lock_run e _ i); [apply T|apply T| |].
  2:{ intros e' Hf Hnm _. apply Hrec; [by rewrite Hf|done]. }
  intros e1 Hl1 Hf1 Hn1 Hi1. apply run_bind, run_pio, (lock_run e1 _ i);
    [done|rewrite Hi1; apply T| |].
  2:{ intros e' Hf Hnm _. apply Hrec; [by rewrite Hf, Hf1|congruence]. }
  intros e2 Hl2 Hf2 Hn2 Hi2. apply run_bind, run_gets.
  rewrite (page_count_plain p) by apply T. rewrite (at_wal _ _ _ _ _ T), (id_count _ _ _ _ _ I).
  apply run_bind. set (ck := splitmix (pid pr) (cksum_counter pr)).
  assert (is_u32 ck) as Hck by apply splitmix_u32.
  unfold on_snd at 1, on_fst at 1, next_cksum_init at 1. unfold run at 1. fold ck.
  set (pr1 := mkProc _ _ _). apply run_bind, run_pio.
  assert (files e2 = files e) as Hfe by congruence. assert (names e2 = names e) as Hne by congruence.
  eapply run_mono; [apply (disk_create e2 (journal_path p)); [done|apply T|]| |].
  { rewrite Hne. apply I. }
  2:{ intros e3 (_ & _ & [[Hf3 Hn3]|(j & Hj & Hf3 & Hn3)]).
      - apply Hrec; congruence.
      - exists D. rewrite Hn3, lookup_insert_eq. rewrite Hfe in *.
        assert (j <> i) by (intros ->; rewrite (at_data _ _ _ _ _ T) in Hj; done).
        rewrite Hf3, lookup_insert_ne by done. split; [apply T|]. split; [done|].
        exists []. rewrite lookup_insert_eq. split; [done|]. by left. }
  intros jf e3 (Hl3 & j & Hj & Hf3 & Hn3 & Hij & Hi3). rewrite Hfe in *. rewrite Hne in *.
  assert (j <> i) as Hji by (intros ->; rewrite (at_data _ _ _ _ _ T) in Hj; done).
  assert (forall g k, inode e g = Some k -> inode e3 g = Some k) as Hold.
  { intros g k Hg. rewrite Hi3; [by rewrite Hi2, Hi1|]. by rewrite Hi2, Hi1, Hg. }
  (* a crash from here on leaves the database and some journal file *)
  assert (forall e' J, files e' = <[j := J]> (files e3) -> names e' = names e3 ->
    journal_restores J D D -> recoverable (journal_path p) i e' D) as Hrec3.
  { intros e' J Hf Hnm HJ. exists D. rewrite Hnm, Hn3, lookup_insert_eq, Hf, Hf3.
    rewrite insert_insert_eq, lookup_insert_ne by done. split; [apply T|]. split; [done|].
    exists J. by rewrite lookup_insert_eq. }
  assert (journal_restores [] D D) as Hnil by by left.
  assert (files e3 !! j = Some []) as Hj3 by (by rewrite Hf3, lookup_insert_eq).
  apply run_bind, run_pio. eapply run_mono; [apply (disk_truncate e3 jf j []); [done..|lia]| |].
  2:{ intros e4 (_ & Hn4 & _ & [Hf4|Hf4]); eapply Hrec3; try done. by rewrite Hf4, insert_id. }
  intros [] e4 (Hl4 & Hf4 & Hn4 & Hi4). change (mem_resize 0 []) with (@nil Z) in Hf4.
  rewrite insert_id in Hf4 by done. apply run_bind.
  eapply run_lift; [apply build_header_image|]. apply run_bind, run_pio.
  apply (write_run e4 jf j []); [done|by rewrite Hi4|by rewrite Hf4|lia|by rewrite zlen_header_image| |].
  2:{ intros e5 k d' _ _ [(Hf5 & Hn5 & _)|(Hf5 & Hn5 & _)]; rewrite Hf4 in Hf5.
      - eapply Hrec3; [exact Hf5|congruence|done].
      - eapply Hrec3; [exact Hf5|congruence|]. unfold d'.
        replace (mem_write 0 _ []) with (ztake k (header_image 0 ck n (pg_page_size p))).
        + by apply (header_prefix k ck n).
        + rewrite mem_write_gap by done. done. }
  intros e5 Hl5 (Hf5 & Hn5 & Hi5). rewrite Hf4 in Hf5.
  assert (mem_write 0 (header_image 0 ck n (pg_page_size p)) [] = jimage 0 ck n (pg_page_size p) D []) as HJ.
  { rewrite mem_write_gap by done. unfold jimage. change (records _ _ _ []) with (@nil Z).
    by rewrite app_nil_r. }
  rewrite HJ in Hf5. apply run_bind, run_pio, (sync_run e5 jf j); [done|by rewrite Hi5, Hi4| |].
  2:{ intros e6 Hf6 Hn6 _. eapply Hrec3; [by rewrite Hf6|congruence|].
      rewrite <- HJ. rewrite mem_write_gap by done. cbn [app].
      change (zrep (0 - zlen []) 0 ++ ?x) with x.
      rewrite <- (ztake_all 512 (header_image 0 ck n (pg_page_size p))) by done.
      by apply (header_prefix _ ck n). }
  intros e6 Hl6 Hf6 Hn6 Hi6. apply run_upd. split; [|by eexists].
  assert (forall g k, inode e g = Some k -> inode e6 g = Some k) as Hold6
    by (intros g k Hg; rewrite Hi6, Hi5, Hi4; by apply Hold).
  constructor.
  - apply attached_txn. eapply attached_same; [exact T|done| |].
    + by rewrite Hf6, Hf5, lookup_insert_ne, Hf3, lookup_insert_ne by done.
    + rewrite (at_file _ _ _ _ _ T). apply Hold6, T.
  - exists jf, j, ck. split_and!; try done.
    + by rewrite Hi6, Hi5, Hi4.
    + rewrite Hn6, Hn5, Hn4, Hn3. apply lookup_insert_eq.
    + rewrite Hf6, Hf5. apply lookup_insert_eq.
  - constructor.
  - constructor.
  - cbn. rewrite (id_count _ _ _ _ _ I). lia.
  - cbn. intros g b. by rewrite (id_dirty _ _ _ _ _ I), lookup_empty.
  - cbn. rewrite (id_count _ _ _ _ _ I). lia.
Qed.

(** ** Committing *)

#[local] Opaque header_serialize.

Lemma zlen_cur i D n R p e g : active i D n R p e -> page_ok (pg_count p) g ->
  zlen (cur p D g) = pg_page_size p.
Proof.
  intros A [Hg1 Hg2]. unfold cur. destruct (pg_dirty p !! g) as [b|] eqn:Hd.
  - by destruct (ac_dirty _ _ _ _ _ _ A g b Hd) as (_ & ? & _).
  - assert (page_ok n g).
    { split; [done|]. destruct (Z_le_gt_dec g n); [done|].
      destruct (ac_fresh _ _ _ _ _ _ A g ltac:(lia)) as [? ?]. congruence. }
    apply (zlen_page_bytes _ n); [apply (ac_at _ _ _ _ _ _ A)|done].
Qed.

Lemma active_header i D n R p e h : active i D n R p e -> active i D n R (set_pg_header h p) e.
Proof. intros A. destruct (ac_at _ _ _ _ _ _ A), A. constructor; try done; by constructor. Qed.

Definition stamped_page1 (p : Pager F) (D : bytes) : bytes :=
  splice 0 (header_serialize (h_commit (pg_count p) (pg_header p))) (cur p D 1).

(** The pager after page 1 was restamped. *)
Definition stamped (p : Pager F) (D : bytes) (p' : Pager F) : Prop :=
  pg_dirty p' = <[1 := stamped_page1 p D]> (pg_dirty p) /\ pg_count p' = pg_count p /\
  pg_path p' = pg_path p /\ pg_file p' = pg_file p /\ pg_page_size p' = pg_page_size p /\
  pg_usable_size p' = pg_usable_size p /\ pg_header p' = h_commit (pg_count p) (pg_header p).

Lemma stamp_header_run p pr e i D n R :
  active i D n R p e ->
  run (stamp_header (pg_count p)) (p, (pr, e))
    (fun _ '(p', (pr', e')) => stamped p D p' /\ exists R', active i D n R' p' e')
    (fun '(p', (pr', e')) => recoverable (journal_path p) i e' D).
Proof.
  intros A. pose proof (ac_at _ _ _ _ _ _ A) as T. pose proof (at_one _ _ _ _ _ T) as H1.
  pose proof (ac_count _ _ _ _ _ _ A) as Hc. pose proof (at_geo _ _ _ _ _ T) as (Hps & _).
  unfold stamp_header. apply run_bind. unfold with_header_mut. apply run_upd.
  set (h' := h_commit (pg_count p) (pg_header p)). apply run_bind, run_gets, run_bind.
  pose proof (active_header i D n R p e h' A) as A1.
  assert (page_ok (pg_count p) 1) as Hpg1 by (split; lia).
  eapply run_mono; [by apply (read_page_for_write_run 1 _ pr e i D n R A1)| |done].
  intros b (p2 & pr2 & e2) (-> & (c & t & ->) & R' & A2 & HR' & _).
  change (cur (set_pg_header h' p) D 1) with (cur p D 1).
  assert (zlen (cur p D 1) = pg_page_size p) as Hl by (by eapply zlen_cur).
  apply run_bind. eapply run_lift.
  { apply copy_into_in; [lia|]. rewrite zlen_header_serialize. lia. }
  eapply run_mono; [apply (write_page_run 1 _ _ pr2 e2 i D n R' A2)| |done].
  - done.
  - cbn. rewrite zlen_splice; [done|lia|]. rewrite zlen_header_serialize. lia.
  - intros _. by apply HR'.
  - intros [] s' (-> & A3). split; [done|]. by exists R'.
Qed.

(** [Dn] is the image of [cnt] pages whose page [g] is [f g]. *)
Definition is_image (ps cnt : Z) (f : Z -> bytes) (Dn : bytes) : Prop :=
  zlen Dn = cnt * ps /\ forall g, page_ok cnt g -> page_bytes ps g Dn = f g.

(** While the dirty pages are written: those of [done] have been. *)
Definition half_written (ps n : Z) (D D1 : bytes) (written : list (Z * bytes)) : Prop :=
  n * ps <= zlen D1 /\
  (forall g b, (g, b) ∈ written -> g * ps <= zlen D1 /\ page_bytes ps g D1 = b) /\
  (forall g, page_ok n g -> g ∉ written.*1 -> page_bytes ps g D1 = page_bytes ps g D).

Lemma half_written_snoc ps n D D1 l g b :
  0 < ps -> 1 <= g -> zlen b = ps -> Forall (fun kv => 1 <= fst kv) l -> g ∉ l.*1 ->
  half_written ps n D D1 l ->
  half_written ps n D (mem_write ((g - 1) * ps) b D1) (l ++ [(g, b)]).
Proof.
  intros Hps Hg Hb Hl Hgl (HD & Hw & Ho). set (D2 := mem_write _ _ _).
  assert (zlen D1 <= zlen D2) as Hlen by (apply zlen_mem_write_ge; nia).
  assert (zlen D2 = Z.max (zlen D1) (g * ps)) as HD2
    by (unfold D2; rewrite zlen_mem_write by nia; nia).
  split_and!; [lia| |].
  - intros g' b' [Hin|Heq%list_elem_of_singleton]%elem_of_app.
    + destruct (Hw g' b' Hin) as [? Hb']. split; [lia|].
      assert (g' <> g) by (intros ->; apply Hgl, list_elem_of_fmap; by exists (g, b')).
      rewrite Forall_forall in Hl. specialize (Hl _ Hin). cbn in Hl.
      unfold D2. rewrite page_bytes_write by (try lia; by right).
      by rewrite (proj2 (Z.eqb_neq g g')) by congruence.
    + injection Heq as -> ->. split; [lia|]. unfold D2.
      rewrite page_bytes_write by (try lia; by left). by rewrite Z.eqb_refl.
  - intros g' Hg' Hn. rewrite fmap_app, not_elem_of_app in Hn. destruct Hn as [Hn1 Hn2].
    cbn in Hn2. apply not_elem_of_cons in Hn2 as [Hne _]. destruct Hg' as [? ?].
    unfold D2. rewrite page_bytes_write by (try lia; right; nia).
    rewrite (proj2 (Z.eqb_neq g g')) by congruence. apply Ho; [by split|done].
Qed.
Lemma half_written_agrees ps n D D1 l S : (forall g, g ∈ l.*1 -> g <= n -> g ∈ S) ->
  half_written ps n D D1 l -> agrees ps n D D1 S.
Proof.
  intros HS (HD & _ & Ho). split; [done|]. intros g Hg Hn. apply Ho; [done|].
  intros Hin. apply Hn, HS; [done|]. by destruct Hg.
Qed.

Context (drain : gmap Z bytes -> list (Z * bytes)).
Context (drain_perm : forall m, drain m ≡ₚ map_to_list m).

Lemma drain_elem m g b : (g, b) ∈ drain m <-> m !! g = Some b.
Proof. rewrite drain_perm. apply elem_of_map_to_list. Qed.
Lemma drain_keys_nodup m : NoDup (drain m).*1.
Proof. rewrite drain_perm. apply NoDup_fst_map_to_list. Qed.

(** All dirty pages written and the file cut to size. *)
Lemma written_image i D n R p e D1 :
  active i D n R p e -> half_written (pg_page_size p) n D D1 (drain (pg_dirty p)) ->
  is_image (pg_page_size p) (pg_count p) (cur p D) (mem_resize (pg_count p * pg_page_size p) D1).
Proof.
  intros A (HD & Hw & Ho). pose proof (ac_at _ _ _ _ _ _ A) as T.
  pose proof (at_geo _ _ _ _ _ T) as (Hps & Hn & _). pose proof (ac_count _ _ _ _ _ _ A) as Hc.
  split; [apply zlen_mem_resize; nia|]. intros g [Hg1 Hg2].
  assert (forall D0, g * pg_page_size p <= zlen D0 ->
    page_bytes (pg_page_size p) g (mem_resize (pg_count p * pg_page_size p) D0) =
    page_bytes (pg_page_size p) g D0) as Hres.
  { intros D0 HD0. apply (page_bytes_resize _ g); [lia|by split|nia|done]. }
  unfold cur. destruct (pg_dirty p !! g) as [b|] eqn:Hd.
  - apply drain_elem in Hd. destruct (Hw g b Hd) as [? <-]. by apply Hres.
  - assert (page_ok n g) as [_ Hgn].
    { split; [done|]. destruct (Z_le_gt_dec g n); [done|].
      destruct (ac_fresh _ _ _ _ _ _ A g ltac:(lia)) as [? ?]. congruence. }
    rewrite Hres by nia. apply Ho; [by split|].
    intros ([g' b] & -> & Hin)%list_elem_of_fmap. apply drain_elem in Hin. cbn in Hd. congruence.
Qed.

(** The clean cache after the committed pages were promoted into it. *)
Lemma promote_lookup l (c : gmap Z bytes) g b : NoDup l.*1 ->
  fold_left (fun c kv => <[fst kv := snd kv]> c) l c !! g = Some b ->
  (g, b) ∈ l \/ (g ∉ l.*1 /\ c !! g = Some b).
Proof.
  revert c. induction l as [|[g' b'] l IH]; intros c Hnd; cbn; [right; split; [apply not_elem_of_nil|done]|].
  apply NoDup_cons in Hnd as [Hg' Hnd]. intros [Hin|[Hn Hc]]%IH; [left; by right| |done].
  apply lookup_insert_Some in Hc as [[-> ->]|[Hne Hc]]; [left; by left|].
  right. split; [|done]. apply not_elem_of_cons. split; [congruence|done].
Qed.

Lemma run_ignore {S A} (m : M S A) (s : S) (ok : S -> Prop) (err : S -> Prop) :
  run m s (fun _ s' => ok s') (fun s' => ok s') -> run (ignore m) s (fun _ s' => ok s') err.
Proof. unfold run, ignore. by destruct (m s) as [[?|?|] ?]. Qed.

(** Ending a transaction whose database file holds [D2]: the journal is deleted,
    which is the commit point; before it the disk is recoverable to [D1]. *)
Lemma end_txn_run p pr e i D1 D2 (f_ok : inode e (pg_file p) = Some i) :
  live e -> ordinary (journal_path p) -> files e !! i = Some D2 ->
  recoverable (journal_path p) i e D1 ->
  run end_txn (p, (pr, e))
    (fun _ '(p', (pr', e')) => p' = set_savepoints [] (set_txn None p) /\ live e' /\
       files e' = files e /\ names e' = delete (journal_path p) (names e) /\
       (forall g, inode e' g = inode e g))
    (fun '(p', (pr', e')) => recoverable (journal_path p) i e' D1 \/ recoverable (journal_path p) i e' D2).
Proof.
  intros Hl Hord HD2 Hrec. unfold end_txn. apply run_bind, run_gets. unfold id. apply run_bind.
  assert (forall e', files e' = files e -> names e' = delete (journal_path p) (names e) ->
    recoverable (journal_path p) i e' D2) as Hgone.
  { intros e' Hf Hn. exists D2. split; [by rewrite Hf|]. by rewrite Hn, lookup_delete_eq. }
  eapply run_mono; [apply (run_ignore _ _ (fun s' => fst s' = p /\ exists pr' e', snd s' = (pr', e') /\
      files e' = files e /\ (forall g, inode e' g = inode e g) /\
      ((live e' /\ names e' = delete (journal_path p) (names e)) \/
       (dead e' /\ (names e' = names e \/ names e' = delete (journal_path p) (names e)))))
      (fun _ => False))| |done].
  - apply run_pio. apply delete_run; [done|done| |].
    + intros e' Hl' Hf Hn Hi. split; [done|]. exists pr, e'. by split_and!; [..|left].
    + intros e' Hd Hf Hi Hn. split; [done|]. exists pr, e'. by split_and!; [..|right].
  - intros [] [p1 r1] (Hp1 & pr1 & e1 & Hr1 & Hf1 & Hi1 & Hcase). cbn in Hp1, Hr1. subst p1 r1.
    apply run_bind, run_pio. destruct Hcase as [[Hl1 Hn1]|[Hd1 Hn1]].
    + eapply run_mono; [apply (disk_unlock e1 _ Shared i); [done|by rewrite Hi1]| |].
      * intros [] e2 (Hl2 & Hf2 & Hn2 & Hi2). apply run_upd. split_and!; try congruence; try done.
      * intros e2 (_ & Hf2 & Hn2 & _). right. apply Hgone; congruence.
    + destruct (dead_unlock e1 (pg_file p) Shared Hd1) as [er Her]. unfold run. rewrite Her.
      destruct Hn1 as [Hn1|Hn1]; [left; by eapply recoverable_same|right; by apply Hgone].
Qed.

(** *** The journal is sealed: synced, its record count patched, synced again *)

Section Sealed.
Context (i j : nat) (jp : string) (ck ps n : Z) (D : bytes) (R : list Z).
Context (HG : geometry ps n D) (HR : Forall (page_ok n) R) (Hck : is_u32 ck) (HRn : zlen R <= n) (Hne : j <> i).

Lemma jimage_restores k D' : is_u32 k -> agrees ps n D D' (ztake k R) ->
  journal_restores (jimage k ck n ps D R) D D'.
Proof.
  intros Hk Hag. right. exists k, ck, n, ps, R, []. pose proof HG as (? & ? & ?).
  assert (parse_header (zslice 0 512 (jimage k ck n ps D R)) = Some (mkJournalHeader k ck n SECTOR_SIZE ps))
    by (apply jimage_parse; unfold is_u32 in *; (done || lia)).
  assert (zdrop 512 (jimage k ck n ps D R) = records ck ps D R ++ []) by (by rewrite app_nil_r, jimage_tail).
  destruct Hk. by split_and!; [..|left| | | | |].
Qed.

(** A sealed journal: what the commit may change from now on is covered. *)
Definition sealed (e : E) : Prop :=
  names e !! jp = Some j /\ files e !! j = Some (jimage (zlen R) ck n ps D R).

Lemma sealed_recoverable e e' D1 : sealed e -> db_now e e' i D1 -> agrees ps n D D1 R ->
  recoverable jp i e' D.
Proof.
  intros [Hn Hf] Hnow Hag. exists D1. split; [by eapply db_now_lookup|].
  pose proof (db_now_other _ _ _ j _ Hnow) as Hfj. destruct Hnow as (_ & -> & _). rewrite Hn.
  split; [done|]. eexists. rewrite Hfj by done. split; [done|]. pose proof HG as (? & ? & ?).
  pose proof (zlen_nonneg R). apply jimage_restores; [unfold is_u32; lia|]. by rewrite ztake_all by lia.
Qed.

Lemma seal_run jf p pr e (k : PM unit) ok (err : State -> Prop) :
  live e -> inode e jf = Some j -> names e !! jp = Some j -> files e !! i = Some D ->
  files e !! j = Some (jimage 0 ck n ps D R) ->
  (forall p' pr' e', recoverable jp i e' D -> err (p', (pr', e'))) ->
  (forall e', live e' -> sealed e' -> files e' !! i = Some D ->
     (forall g, inode e' g = inode e g) -> run k (p, (pr, e')) ok err) ->
  run (pio (sync jf) ;; pio (write_at jf 8 (be_bytes 4 (zlen R))) ;; pio (sync jf) ;; k) (p, (pr, e)) ok err.
Proof.
  intros Hl Hij Hnm HD Hj Herr Hk. pose proof HG as (Hps & Hn & _). pose proof (zlen_nonneg R) as HR0.
  assert (forall e' c, files e' = <[j := jimage c ck n ps D R]> (files e) -> names e' = names e ->
    is_u32 c -> recoverable jp i e' D) as Hrec.
  { intros e' c Hf Hn' Hc. exists D. rewrite Hn', Hnm, Hf, lookup_insert_ne by done.
    split; [done|]. split; [done|]. eexists. rewrite lookup_insert_eq. split; [done|].
    apply jimage_restores; [done|]. by split; [destruct HG as (_ & _ & ->); lia|]. }
  apply run_bind, run_pio, (sync_run e jf j); [done..| |].
  2:{ intros e1 Hf1 Hn1 _. apply Herr, (Hrec e1 0); [by rewrite Hf1, insert_id|done|by_decide]. }
  intros e1 Hl1 Hf1 Hn1 Hi1. apply run_bind, run_pio.
  apply (write_run e1 jf j (jimage 0 ck n ps D R)); [done|by rewrite Hi1|by rewrite Hf1|lia|done| |].
  2:{ intros e2 c d' _ _ [(Hf2 & Hn2 & _)|(Hf2 & Hn2 & _)]; apply Herr; rewrite Hf1 in Hf2.
      - apply (Hrec e2 0); [done|congruence|by_decide].
      - destruct (jimage_patch_torn 0 (zlen R) c ck n ps D R) as (c' & Hc' & HJ).
        apply (Hrec e2 c'); [by rewrite Hf2; unfold d'; rewrite HJ|congruence|done]. }
  intros e2 Hl2 (Hf2 & Hn2 & Hi2). rewrite jimage_patch_full, Hf1 in Hf2.
  apply run_bind, run_pio, (sync_run e2 jf j); [done|by rewrite Hi2, Hi1| |].
  2:{ intros e3 Hf3 Hn3 _. apply Herr, (Hrec e3 (zlen R)); [congruence|congruence|unfold is_u32; lia]. }
  intros e3 Hl3 Hf3 Hn3 Hi3. apply Hk; [done| | |].
  - split; [congruence|]. by rewrite Hf3, Hf2, lookup_insert_eq.
  - by rewrite Hf3, Hf2, lookup_insert_ne.
  - intros g. by rewrite Hi3, Hi2, Hi1.
Qed.
End Sealed.

(** *** The dirty pages are written to the database file *)

Definition covered (jp : string) (i : nat) (ps n : Z) (D : bytes) (R : list Z) (e : E) : Prop :=
  forall e' D1, db_now e e' i D1 -> agrees ps n D D1 R -> recoverable jp i e' D.

Lemma covered_same jp i ps n D R e e' : (files e = files e' /\ names e = names e' /\ forall g, inode e g = inode e' g) ->
  covered jp i ps n D R e -> covered jp i ps n D R e'.
Proof.
  intros (Hf & Hn & Hi) Hc e1 D1 (Hf1 & Hn1 & Hi1) Hag. apply (Hc e1 D1); [|done].
  split_and!; [congruence|congruence|]. intros g. by rewrite Hi1, Hi.
Qed.

Lemma write_dirty_run p pr e0 e i D n R :
  active i D n R p e0 -> covered (journal_path p) i (pg_page_size p) n D R e ->
  live e -> inode e (pg_file p) = Some i -> files e !! i = Some D ->
  run (write_pages (drain (pg_dirty p))) (set_dirty ∅ p, (pr, e))
    (fun _ s' => exists e4 D1, s' = (set_dirty ∅ p, (pr, e4)) /\ live e4 /\ db_now e e4 i D1 /\
       half_written (pg_page_size p) n D D1 (drain (pg_dirty p)))
    (fun '(p', (pr', e')) => recoverable (journal_path p) i e' D).
Proof.
  intros A Hcov Hl Hid Hfd. pose proof (ac_at _ _ _ _ _ _ A) as T.
  pose proof (at_geo _ _ _ _ _ T) as (Hps & Hn & HD). pose proof (ac_count _ _ _ _ _ _ A) as Hc.
  set (ps := pg_page_size p) in *. set (l := drain (pg_dirty p)) in *. set (p1 := set_dirty ∅ p).
  assert (forall l1 g b l2, l = l1 ++ (g, b) :: l2 -> forall x, x ∈ l1.*1 -> x <= n -> x ∈ R) as HlR.
  { intros l1 g b l2 Hll x ([x' bx] & -> & Hin)%list_elem_of_fmap Hx.
    apply (ac_dirty _ _ _ _ _ _ A x' bx); [|done]. apply drain_elem. fold l. rewrite Hll. set_solver. }
  unfold write_pages. apply run_bind, run_gets. unfold id.
  apply (run_mfor l _ _ (fun w s' => exists e4 D1, s' = (p1, (pr, e4)) /\ live e4 /\
      db_now e e4 i D1 /\ half_written ps n D D1 w)).
  { exists e, D. split_and!; [done|done|by apply db_now_refl|]. split_and!; [lia| |done].
    intros g b Hin. by apply not_elem_of_nil in Hin. }
  intros l1 [g b] l2 s' Hll (e4 & D1 & -> & Hl4 & Hnow & Hhw).
  assert (pg_dirty p !! g = Some b) as Hd by (apply drain_elem; fold l; rewrite Hll; set_solver).
  destruct (ac_dirty _ _ _ _ _ _ A g b Hd) as ([Hg1 Hg2] & Hlb & HgR). fold ps in Hlb.
  assert (agrees ps n D D1 R) as Hag by (eapply half_written_agrees; [by eapply HlR|exact Hhw]).
  apply run_pio. change (pg_page_size p1) with ps. change (pg_file p1) with (pg_file p).
  pose proof Hnow as (Hf4 & Hn4 & Hi4).
  apply (write_run e4 (pg_file p) i D1); [done|by rewrite Hi4|by rewrite Hf4, lookup_insert_eq|nia|nia| |].
  - intros e5 Hl5 Hnow5. exists e5, (mem_write ((g - 1) * ps) b D1).
    split_and!; [done|done|by eapply db_now_trans|]. apply half_written_snoc; [lia|lia|done| | |done].
    + apply Forall_forall. intros [g' b'] Hin'. apply (ac_dirty _ _ _ _ _ _ A g' b').
      apply drain_elem. fold l. rewrite Hll. set_solver.
    + intros Hin'. pose proof (drain_keys_nodup (pg_dirty p)) as Hnd. fold l in Hnd.
      rewrite Hll, fmap_app in Hnd. apply NoDup_app in Hnd as (_ & Hnd & _). apply (Hnd g Hin'). by left.
  - intros e5 k d' _ Hld [Hnow5|Hnow5].
    + apply (Hcov e5 D1); [by eapply db_now_trans|done].
    + apply (Hcov e5 (mem_write ((g - 1) * ps) d' D1)); [by eapply db_now_trans|].
      destruct (Z_le_gt_dec g n) as [Hgn|Hgn]; [apply agrees_write; [lia|lia|by apply HgR|lia|done]|].
      destruct Hag as [Hal Ha]. split.
      * pose proof (zlen_mem_write_ge ((g - 1) * ps) d' D1 ltac:(nia)). lia.
      * intros g' Hg' Hn'. rewrite (page_bytes_write_ne ps n);
          [by apply Ha|lia|done|lia|destruct Hg'; lia|lia|done].
Qed.

(** Cutting the file to the committed size and syncing it. *)
Lemma settle_run p pr e0 e e4 D1 i D n R (k : PM unit) ok (err : State -> Prop) (Dn := mem_resize (pg_count p * pg_page_size p) D1) q :
  active i D n R p e0 -> covered (journal_path p) i (pg_page_size p) n D R e ->
  live e4 -> inode e (pg_file p) = Some i -> db_now e e4 i D1 -> agrees (pg_page_size p) n D D1 R ->
  (forall p' pr' e', recoverable (journal_path p) i e' D -> err (p', (pr', e'))) ->
  (forall e', live e' -> db_now e e' i Dn -> recoverable (journal_path p) i e' D -> run k (q, (pr, e')) ok err) ->
  run (pio (truncate (pg_file p) (pg_count p * pg_page_size p)) ;; pio (sync (pg_file p)) ;; k) (q, (pr, e4)) ok err.
Proof.
  intros A Hcov Hl4 Hid Hnow Hag Herr Hk. pose proof (ac_at _ _ _ _ _ _ A) as T.
  pose proof (at_geo _ _ _ _ _ T) as (Hps & Hn & HD). pose proof (ac_count _ _ _ _ _ _ A) as Hc.
  pose proof Hnow as (Hf4 & Hn4 & Hi4). set (ps := pg_page_size p) in *.
  assert (agrees ps n D Dn R) as HagN by (apply agrees_resize; [lia|nia|done]).
  apply run_bind, run_pio. eapply run_mono; [apply (disk_truncate e4 (pg_file p) i D1);
    [done|by rewrite Hi4|by rewrite Hf4, lookup_insert_eq|nia]| |].
  2:{ intros e5 (_ & Hn5 & Hi5 & [Hf5|Hf5]); apply Herr.
      - apply (Hcov e5 D1); [|done]. eapply db_now_trans; [exact Hnow|].
        split_and!; [by rewrite Hf5, Hf4, insert_insert_eq|done..].
      - apply (Hcov e5 Dn); [|done]. eapply db_now_trans; [exact Hnow|]. by split_and!. }
  intros [] e5 (Hl5 & Hf5 & Hn5 & Hi5).
  assert (db_now e e5 i Dn) as Hnow5 by (eapply db_now_trans; [exact Hnow|]; by split_and!).
  pose proof Hnow5 as (Hf5' & Hn5' & Hi5').
  assert (forall e6, files e6 = files e5 -> names e6 = names e5 -> (forall g, inode e6 g = inode e5 g) ->
    db_now e e6 i Dn) as Hsame
    by (intros e6 Hf Hnm Hi; split_and!; [congruence|congruence|intros; by rewrite Hi]).
  apply run_bind, run_pio, (sync_run e5 _ i); [done|by rewrite Hi5'| |].
  2:{ intros e6 Hf6 Hn6 Hi6. by apply Herr, (Hcov e6 Dn); [apply Hsame|]. }
  intros e6 Hl6 Hf6 Hn6 Hi6. apply Hk; [done|by apply Hsame|]. by apply (Hcov e6 Dn); [apply Hsame|].
Qed.

(** The pager after its transaction ended with the image [Dn]. *)
Lemma promoted_idle p e0 e i D n R Dn (q := set_savepoints [] (set_txn None
    (set_cache (fold_left (fun c kv => <[fst kv := snd kv]> c) (drain (pg_dirty p)) (pg_cache p)) (set_dirty ∅ p)))) :
  active i D n R p e0 -> is_image (pg_page_size p) (pg_count p) (cur p D) Dn ->
  live e -> inode e (pg_file p) = Some i -> files e !! i = Some Dn -> names e !! journal_path p = None ->
  idle i Dn (pg_count p) q e.
Proof.
  intros A Himg Hl Hi Hf Hn. pose proof (ac_at _ _ _ _ _ _ A) as T.
  pose proof (ac_count _ _ _ _ _ _ A) as Hc. pose proof (at_one _ _ _ _ _ T) as H1.
  pose proof (at_geo _ _ _ _ _ T) as (Hps & _).
  constructor; try done. constructor; try apply T; try done.
  - split_and!; try (cbn; lia). apply Himg.
  - cbn. lia.
  - cbn. intros g b Hgb. destruct Himg as [_ Himg]. apply promote_lookup in Hgb; [|apply drain_keys_nodup].
    destruct Hgb as [Hin|[Hnin Hgb]].
    + apply drain_elem in Hin. destruct (ac_dirty _ _ _ _ _ _ A g b Hin) as (Hg & _ & _).
      split; [done|]. rewrite Himg by done. unfold cur. by rewrite Hin.
    + destruct (at_cache _ _ _ _ _ T g b Hgb) as [[Hg1 Hg2] ->].
      assert (page_ok (pg_count p) g) as Hg by (split; lia). split; [done|].
      rewrite Himg by done. unfold cur. destruct (pg_dirty p !! g) as [b'|] eqn:Hd; [|done].
      exfalso. apply Hnin, list_elem_of_fmap. exists (g, b'). by split; [|apply drain_elem].
Qed.

Lemma commit_journal_run p pr e i D n R :
  active i D n R p e ->
  run (commit_journal drain (pg_count p)) (p, (pr, e))
    (fun _ '(p', (pr', e')) => exists Dn, is_image (pg_page_size p) (pg_count p) (cur p D) Dn /\
       idle i Dn (pg_count p) p' e')
    (fun '(p', (pr', e')) => recoverable (journal_path p) i e' D \/
       exists Dn, is_image (pg_page_size p) (pg_count p) (cur p D) Dn /\
                  recoverable (journal_path p) i e' Dn).
Proof.
  intros A. pose proof (ac_at _ _ _ _ _ _ A) as T. pose proof (at_geo _ _ _ _ _ T) as HG.
  pose proof (ac_R _ _ _ _ _ _ A) as HR. pose proof (at_one _ _ _ _ _ T) as H1.
  pose proof (nrec_u32 n R ltac:(lia) HR (ac_nodup _ _ _ _ _ _ A)) as HRn.
  destruct (ac_jrnl _ _ _ _ _ _ A) as (jf & j & ck & Ht & Hck & Hij & Hne & Hnm & Hfj).
  unfold commit_journal. apply run_bind, run_gets. rewrite Ht. apply run_bind.
  eapply run_lift; [reflexivity|]. apply run_bind. eapply run_lift; [reflexivity|].
  change (tx_nrec (txn_of jf ck (pg_page_size p) n R)) with (zlen R).
  eapply (seal_run i j (journal_path p) ck _ n D R HG HR Hck HRn Hne); [apply T|done..|apply T|done|by left|].
  intros e3 Hl3 Hs3 HD3 Hi3.
  assert (covered (journal_path p) i (pg_page_size p) n D R e3) as Hcov
    by (intros e' D1 Hnow Hag; by eapply sealed_recoverable).
  assert (inode e3 (pg_file p) = Some i) as Hid3 by (rewrite Hi3; apply T).
  apply run_bind. unfold drain_dirty. apply run_bind, run_gets, run_bind, run_upd, run_ret.
  apply run_bind. eapply run_mono;
    [by apply (write_dirty_run p pr e e3 i D n R)| |intros (p' & pr' & e'); by left].
  intros [] s' (e4 & D1 & -> & Hl4 & Hnow & Hhw).
  assert (agrees (pg_page_size p) n D D1 R) as Hag.
  { eapply half_written_agrees; [|exact Hhw]. intros g ([g' b] & -> & Hin)%list_elem_of_fmap Hg.
    apply drain_elem in Hin. by apply (ac_dirty _ _ _ _ _ _ A g' b Hin). }
  pose proof (written_image i D n R p e D1 A Hhw) as Himg.
  apply run_bind, run_gets. unfold id.
  eapply (settle_run p pr e e3 e4 D1 i D n R _ _ _ (set_dirty ∅ p)); try done; [by left|].
  set (Dn := mem_resize _ D1) in *. intros e6 Hl6 (Hf6 & Hn6 & Hi6) Hrec6.
  apply run_bind. unfold promote. apply run_upd.
  set (p2 := set_cache _ (set_dirty ∅ p)).
  eapply run_mono; [apply (end_txn_run p2 pr e6 i D Dn)| |].
  - change (pg_file p2) with (pg_file p). by rewrite Hi6.
  - done.
  - apply T.
  - by rewrite Hf6, lookup_insert_eq.
  - done.
  - intros [] (p3 & pr3 & e7) (-> & Hl7 & Hf7 & Hn7 & Hi7). exists Dn. split; [done|].
    apply (promoted_idle p e e7 i D n R Dn A Himg Hl7).
    + by rewrite Hi7, Hi6.
    + by rewrite Hf7, Hf6, lookup_insert_eq.
    + rewrite Hn7. apply lookup_delete_eq.
  - intros (p3 & pr3 & e7) [?|?]; [by left|right]. by exists Dn.
Qed.

End Atomic.
