(* ===== verification/Transaction.v ===== *)
(** * What a write transaction promises

    The abstract specification of a transaction -- an image of pages that a
    list of operations transforms -- and the refinement: [begin_write], the
    operations, then [commit] or [rollback], with a crash at any moment and the
    recovery at the next opening. *)

From S2P Require Import Prelude Utf8 DbHeader Vfs Wal Journal Ptrmap Pager Autovac PagerTxn Disk Recovery Atomic.
#[local] Open Scope Z_scope.

(** ** The specification *)

Record Image := mkImage { im_count : Z; im_page : Z -> bytes }.

(** What a client does between [begin_write] and [commit]: change a page, or
    allocate one and fill it. *)
Inductive TxnOp := OpUpdate (g : Z) (f : bytes -> bytes) | OpAppend (f : Z -> bytes).

Definition im_set (g : Z) (b : bytes) (im : Image) : Image :=
  mkImage (im_count im) (fun x => if x =? g then b else im_page im x).
(** The image grown to [c] pages, the new ones zeroed. *)
Definition im_grow (ps c : Z) (im : Image) : Image :=
  mkImage c (fun x => if x <=? im_count im then im_page im x else zrep ps 0).

Inductive op_step (ps : Z) : TxnOp -> Image -> Image -> Prop :=
  | step_update g f im : page_ok (im_count im) g -> op_step ps (OpUpdate g f) im (im_set g (f (im_page im g)) im)
  | step_append f im c : im_count im < c <= im_count im + 3 ->
      op_step ps (OpAppend f) im (im_set c (f c) (im_grow ps c im)).

Inductive op_steps (ps : Z) : list TxnOp -> Image -> Image -> Prop :=
  | steps_nil im : op_steps ps [] im im
  | steps_snoc ops op im im1 im2 :
      op_steps ps ops im im1 -> op_step ps op im1 im2 -> op_steps ps (ops ++ [op]) im im2.

(** The image a file of [n] pages holds. *)
Definition file_image (ps n : Z) (D : bytes) : Image := mkImage n (fun g => page_bytes ps g D).

(** The file content [Dn] a commit of [im] leaves: page 1 carries the new header. *)
Definition commits_to (ps : Z) (h : DbHeader) (ops : list TxnOp) (D : bytes) (n : Z) (Dn : bytes) : Prop :=
  exists im, op_steps ps ops (file_image ps n D) im /\
    if decide (ops = []) then Dn = D
    else is_image ps (im_count im)
           (fun g => if g =? 1 then splice 0 (header_serialize (h_commit (im_count im) h)) (im_page im 1)
                     else im_page im g) Dn.

(** ** The implementation *)

#[local] Opaque header_serialize.

Section Transaction.
Context {E F : Type} `{DiskLaws E F}.
Notation State := (Pager F * (Proc * E))%type.
Notation PM := (PagerM (E := E) (F := F)).
(** The client's use of the pager's interface, as in [btree/]. *)
Definition do_op (op : TxnOp) : PM unit :=
  match op with
  | OpUpdate g f => b ← read_page_for_write g; write_page g (f b)
  | OpAppend f => g ← allocate_page; write_page g (f g)
  end.

Definition write_transaction (drain : gmap Z bytes -> list (Z * bytes)) (ex_flag : bool) (ops : list TxnOp) : PM unit :=
  begin_write ex_flag ;; mfor ops do_op ;; commit drain.
Definition rolled_back (ex_flag : bool) (ops : list TxnOp) : PM unit :=
  begin_write ex_flag ;; mfor ops do_op ;; rollback.

(** The pager [q] runs a transaction of [p0] that has come to [im]. *)
Record running (i : nat) (D : bytes) (n : Z) (p0 : Pager F) (ops : list TxnOp) (im : Image)
    (q : Pager F) (e : E) : Prop := {
  rn_active : exists R, active i D n R q e;
  rn_steps : op_steps (pg_page_size p0) ops (file_image (pg_page_size p0) n D) im;
  rn_count : pg_count q = im_count im;
  rn_bound : im_count im <= n + 3 * zlen ops;
  rn_pages g : page_ok (im_count im) g -> cur q D g = im_page im g;
  rn_dirty : ops <> [] -> pg_dirty q <> ∅;
  rn_clean : ops = [] -> pg_dirty q = ∅;
  rn_same : pg_header q = pg_header p0 /\ pg_page_size q = pg_page_size p0 /\
            pg_path q = pg_path p0 /\ pg_file q = pg_file p0 }.

Lemma running_recoverable i D n p0 ops im q e :
  running i D n p0 ops im q e -> recoverable (journal_path p0) i e D.
Proof.
  intros Rn. destruct (rn_active _ _ _ _ _ _ _ _ Rn) as [R A]. apply active_recoverable in A.
  unfold journal_path in *. by destruct (rn_same _ _ _ _ _ _ _ _ Rn) as (_ & _ & <- & _).
Qed.

Lemma cur_put g b (q : Pager F) D x : cur (put_dirty g b q) D x = if x =? g then b else cur q D x.
Proof.
  unfold cur. cbn. destruct (Z.eqb_spec x g) as [->|Hne]; [by rewrite lookup_insert_eq|].
  by rewrite lookup_insert_ne.
Qed.

Lemma write_op_run i D n p0 ops op im im1 g b q pr e R :
  active i D n R q e -> page_ok (pg_count q) g -> (g <= n -> g ∈ R) ->
  op_steps (pg_page_size p0) ops (file_image (pg_page_size p0) n D) im ->
  op_step (pg_page_size p0) op im (im_set g b im1) ->
  pg_count q = im_count im1 -> im_count im1 <= n + 3 * zlen (ops ++ [op]) ->
  (forall x, page_ok (im_count im1) x -> x <> g -> cur q D x = im_page im1 x) ->
  pg_header q = pg_header p0 /\ pg_page_size q = pg_page_size p0 /\ pg_path q = pg_path p0 /\ pg_file q = pg_file p0 ->
  run (write_page g b) (q, (pr, e))
    (fun _ '(q', (pr', e')) => exists im', running i D n p0 (ops ++ [op]) im' q' e')
    (fun '(q', (pr', e')) => recoverable (journal_path p0) i e' D).
Proof.
  intros A Hg HgR Hst Hop Hc Hb Hpg (Hh & Hps & Hpath & Hfile).
  destruct (decide (zlen b = pg_page_size q)) as [Hl|Hl].
  - eapply run_mono; [by apply (write_page_run g b q pr e i D n R A)| |done].
    intros [] s' (-> & A'). exists (im_set g b im1). constructor; try done.
    + by exists R.
    + by eapply steps_snoc.
    + intros x Hx. rewrite cur_put. cbn. destruct (Z.eqb_spec x g); [done|]. by apply Hpg.
    + intros _ He. cbn in He. by apply insert_non_empty in He.
    + intros He. by destruct ops.
  - unfold write_page. apply run_bind, run_gets. unfold id.
    rewrite (proj2 (Z.eqb_neq _ _)) by done. cbn. apply active_recoverable in A.
    unfold journal_path in *. by rewrite <- Hpath.
Qed.

Lemma cur_same (q q' : Pager F) D x : same_pages q q' -> cur q' D x = cur q D x.
Proof. by intros (c & t & ->). Qed.

Lemma get_page_out g (q : Pager F) (pr : Proc) (e : E) ok (err : State -> Prop) : pg_wal q = None -> ~ page_ok (pg_count q) g -> 0 <= g ->
  err (q, (pr, e)) -> run (get_page g) (q, (pr, e)) ok err.
Proof.
  intros Hw Hg Hg0 He. unfold get_page. apply run_bind, run_gets. unfold id.
  rewrite (page_count_plain q Hw). unfold page_ok in Hg.
  destruct (Z.eqb_spec g 0); [done|]. destruct (Z.gtb_spec g (pg_count q)); [done|lia].
Qed.

Definition op_ok (op : TxnOp) : Prop := match op with OpUpdate g _ => 0 <= g | OpAppend _ => True end.

Lemma do_op_run i D n p0 ops op im q pr e :
  running i D n p0 ops im q e -> op_ok op ->
  no_freelist p0 -> n + 3 * zlen ops + 4 < 2 ^ 32 - 4 ->
  run (do_op op) (q, (pr, e))
    (fun _ '(q', (pr', e')) => exists im', running i D n p0 (ops ++ [op]) im' q' e')
    (fun '(q', (pr', e')) => recoverable (journal_path p0) i e' D).
Proof.
  intros Rn Hop Hfree Hbound. pose proof (running_recoverable _ _ _ _ _ _ _ _ Rn) as Hrec.
  destruct Rn as [[R A] Hst Hcnt Hle Hpg _ _ (Hh & Hps & Hpath & Hfile)].
  pose proof (ac_at _ _ _ _ _ _ A) as T. pose proof (zlen_nonneg ops).
  assert (journal_path q = journal_path p0) as Hj by (unfold journal_path; by rewrite Hpath).
  destruct op as [g f|f]; cbn [do_op]; apply run_bind.
  - destruct (decide (page_ok (pg_count q) g)) as [Hg|Hg].
    2:{ unfold read_page_for_write. apply run_bind, get_page_out; [apply T|done|done|done]. }
    eapply run_mono; [by apply (read_page_for_write_run g q pr e i D n R A)| |].
    2:{ intros (q' & pr' & e'). by rewrite Hj. }
    intros b (q1 & pr1 & e1) (-> & Hs & R1 & A1 & HgR & _). destruct Hg as [Hg1 Hg2].
    assert (pg_count q1 = pg_count q) as Hc1 by (by destruct Hs as (? & ? & ->)).
    eapply (write_op_run i D n p0 ops _ im im g); [done|by rewrite Hc1|done|done| | | | |].
    + rewrite (Hpg g) by (rewrite <- Hcnt; by split). apply step_update. rewrite <- Hcnt. by split.
    + congruence.
    + len_lia.
    + intros x Hx _. rewrite (cur_same q) by done. by apply Hpg.
    + by destruct Hs as (? & ? & ->).
  - eapply run_mono; [apply (allocate_page_run q pr e i D n R A)| |done].
    { unfold no_freelist in *. by rewrite Hh. }
    { lia. }
    intros g (q1 & pr1 & e1) ((Hc1 & Hq1 & Hold & Hnew) & -> & A1).
    pose proof (ac_count _ _ _ _ _ _ A) as Hcq. pose proof (at_one _ _ _ _ _ T) as Hone.
    eapply (write_op_run i D n p0 ops _ im (im_grow (pg_page_size p0) (pg_count q1) im) (pg_count q1));
      [done|split; lia|lia|done| | | | |].
    + apply step_append. lia.
    + done.
    + cbn. len_lia.
    + cbn. intros x [Hx1 Hx2] Hne. rewrite <- Hcnt. unfold cur.
      destruct (Z.leb_spec x (pg_count q)) as [Hx|Hx].
      * rewrite Hold by done. assert (pg_page_size q1 = pg_page_size q) as -> by (by rewrite Hq1).
        apply Hpg. rewrite <- Hcnt. by split.
      * rewrite Hnew by lia. unfold zero_page. by rewrite Hps.
    + by rewrite Hq1.
Qed.

Lemma begin_running ex p0 pr e i D n :
  idle i D n p0 e -> n < 2 ^ 32 - 4 ->
  run (begin_write ex) (p0, (pr, e))
    (fun _ '(q, (pr', e')) => running i D n p0 [] (file_image (pg_page_size p0) n D) q e')
    (fun '(q, (pr', e')) => recoverable (journal_path p0) i e' D).
Proof.
  intros I Hn. eapply run_mono; [by apply (begin_write_run ex p0 pr e i D n I)| |done].
  intros [] (q & pr1 & e1) (A & t & ->). constructor; try done.
  - by exists [].
  - apply steps_nil.
  - cbn. apply I.
  - cbn. change (zlen (@nil TxnOp)) with 0. lia.
  - cbn. intros x _. unfold cur. cbn. by rewrite (id_dirty _ _ _ _ _ I), lookup_empty.
  - intros _. apply I.
Qed.

Lemma body_running p0 q pr e i D n ops :
  running i D n p0 [] (file_image (pg_page_size p0) n D) q e ->
  Forall op_ok ops -> no_freelist p0 -> n + 3 * zlen ops + 4 < 2 ^ 32 - 4 ->
  run (mfor ops do_op) (q, (pr, e))
    (fun _ '(q', (pr', e')) => exists im, running i D n p0 ops im q' e')
    (fun '(q', (pr', e')) => recoverable (journal_path p0) i e' D).
Proof.
  intros Rn Hok Hfree Hb.
  apply (run_mfor ops do_op (q, (pr, e)) (fun done '(q', (_, e')) => exists im, running i D n p0 done im q' e')).
  - by eexists.
  - intros l1 op l2 (q' & pr' & e') Hl (im & Rn').
    assert (op_ok op) by (rewrite Forall_forall in Hok; apply Hok; rewrite Hl; set_solver).
    apply (do_op_run i D n p0 l1 op im); try done.
    rewrite Hl in Hb. rewrite zlen_app, zlen_cons in Hb. pose proof (zlen_nonneg l2). lia.
Qed.

(** [end_txn] when the file still holds [D]. *)
Lemma abandon_run q pr e i D :
  live e -> ordinary (journal_path q) -> inode e (pg_file q) = Some i -> files e !! i = Some D ->
  recoverable (journal_path q) i e D ->
  run end_txn (q, (pr, e))
    (fun _ '(q', (pr', e')) => q' = set_savepoints [] (set_txn None q) /\ live e' /\
       files e' = files e /\ names e' = delete (journal_path q) (names e) /\
       (forall g, inode e' g = inode e g))
    (fun '(q', (pr', e')) => recoverable (journal_path q) i e' D).
Proof.
  intros Hl Ho Hi Hf Hr. eapply run_mono; [by apply (end_txn_run q pr e i D D)|done|].
  by intros (q' & pr' & e') [?|?].
Qed.

Lemma attached_ended i D n (q : Pager F) e e' :
  attached i D n q e -> live e' -> files e' = files e -> (forall g, inode e' g = inode e g) ->
  attached i D n (set_savepoints [] (set_txn None q)) e'.
Proof. intros [] Hl Hf Hi. constructor; try done; cbn; by rewrite ?Hi, ?Hf. Qed.

Lemma rollback_run p0 q pr e i D n ops im :
  running i D n p0 ops im q e ->
  run rollback (q, (pr, e))
    (fun _ '(q', (pr', e')) => idle i D n q' e')
    (fun '(q', (pr', e')) => recoverable (journal_path p0) i e' D).
Proof.
  intros Rn. pose proof (running_recoverable _ _ _ _ _ _ _ _ Rn) as Hrec.
  destruct Rn as [[R A] _ _ _ _ _ _ (_ & Hps & Hpath & _)].
  assert (journal_path q = journal_path p0) as Hj by (unfold journal_path; by rewrite Hpath).
  pose proof (ac_at _ _ _ _ _ _ A) as T. destruct (ac_jrnl _ _ _ _ _ _ A) as (jf & j & ck & Ht & _).
  unfold rollback. apply run_bind, run_gets. rewrite Ht. apply run_bind, run_upd.
  change (tx_db_orig_size (txn_of jf ck (pg_page_size q) n R)) with n.
  set (q1 := set_count n _).
  eapply run_mono; [apply (abandon_run q1 pr e i D)| |].
  - apply T.
  - change (journal_path q1) with (journal_path q). apply T.
  - apply T.
  - apply T.
  - change (journal_path q1) with (journal_path q). by rewrite Hj.
  - intros [] (q' & pr' & e') (-> & Hl & Hf & Hn & Hi). constructor; try done.
    + apply (attached_ended _ _ _ q1 e); try done. constructor; try apply T. cbn.
      intros g b [Hg _]%map_lookup_filter_Some. by eapply (at_cache _ _ _ _ _ T).
    + rewrite Hn. apply lookup_delete_eq.
  - intros (q' & pr' & e'). change (journal_path q1) with (journal_path q). by rewrite Hj.
Qed.

(** What the file holds once [q] has committed over [D]: [D] if nothing was
    written, else the pages [q] shows, with the new header on page 1. *)
Definition committed (q : Pager F) (D Dn : bytes) : Prop :=
  if decide (pg_dirty q = ∅) then Dn = D
  else is_image (pg_page_size q) (pg_count q)
         (fun g => if g =? 1
                   then splice 0 (header_serialize (h_commit (pg_count q) (pg_header q))) (cur q D 1)
                   else cur q D g) Dn.

Lemma active_clean i D n R (q : Pager F) e : active i D n R q e -> pg_dirty q = ∅ -> pg_count q = n.
Proof.
  intros A Hd. pose proof (ac_count _ _ _ _ _ _ A). destruct (decide (pg_count q = n)); [done|].
  destruct (ac_fresh _ _ _ _ _ _ A (pg_count q) ltac:(lia)) as [b Hb]. by rewrite Hd, lookup_empty in Hb.
Qed.

Section Commit.
Context (drain : gmap Z bytes -> list (Z * bytes)).
Context (drain_perm : forall m, drain m ≡ₚ map_to_list m).

Lemma commit_txn_run q pr e i D n R :
  active i D n R q e -> freelist_count (pg_header q) = 0 ->
  run (commit drain) (q, (pr, e))
    (fun _ '(q', (pr', e')) => exists Dn, committed q D Dn /\ idle i Dn (pg_count q) q' e')
    (fun '(q', (pr', e')) => recoverable (journal_path q) i e' D \/
       exists Dn, committed q D Dn /\ recoverable (journal_path q) i e' Dn).
Proof.
  intros A Hfree. pose proof (active_recoverable _ _ _ _ _ _ A) as Hrec.
  pose proof (ac_at _ _ _ _ _ _ A) as T. destruct (ac_jrnl _ _ _ _ _ _ A) as (jf & j & ck & Ht & _).
  unfold commit. apply run_bind, run_gets. unfold id, in_write_txn. rewrite Ht. cbn [negb].
  case_bool_decide as Hd.
  { (* nothing was written *)
    assert (committed q D D) as Hc by (unfold committed; by rewrite decide_True).
    eapply run_mono; [apply (abandon_run q pr e i D); try apply T; done| |by intros (q' & pr' & e'); left].
    intros [] (q' & pr' & e') (-> & Hl & Hf & Hn & Hi). exists D. split; [done|].
    rewrite (active_clean _ _ _ _ _ _ A Hd).
    constructor; try done; [by apply (attached_ended _ _ _ q e)|rewrite Hn; apply lookup_delete_eq|].
    apply (active_clean _ _ _ _ _ _ A Hd). }
  assert (needs_autovac q = false) as ->.
  { unfold needs_autovac. rewrite Hfree. by destruct (auto_vacuum q), (incr_vacuum q). }
  apply run_bind, run_ret, run_bind, run_gets. rewrite (page_count_plain q) by apply T.
  apply run_bind. eapply run_mono; [by apply (stamp_header_run q pr e i D n R A)| |by intros (q' & pr' & e'); left].
  intros [] (q1 & pr1 & e1) ((Sd & Sc & Sp & Sf & Sps & Su & Sh) & R1 & A1).
  apply run_bind, run_gets. unfold id. rewrite (at_wal _ _ _ _ _ (ac_at _ _ _ _ _ _ A1)), <- Sc.
  assert (forall Dn, is_image (pg_page_size q1) (pg_count q1) (cur q1 D) Dn -> committed q D Dn) as Hto.
  { intros Dn [HlD Hg]. unfold committed. rewrite decide_False by done.
    rewrite Sps, Sc in *. split; [done|]. intros g Hgo. rewrite Hg by done.
    unfold cur at 1. rewrite Sd. destruct (Z.eqb_spec g 1) as [->|Hne].
    - by rewrite lookup_insert_eq.
    - rewrite lookup_insert_ne by done. unfold cur. by rewrite Sps. }
  assert (journal_path q1 = journal_path q) as Hj1 by (unfold journal_path; by rewrite Sp).
  eapply run_mono; [by apply (commit_journal_run drain drain_perm q1 pr1 e1 i D n R1 A1)| |].
  - intros [] (q' & pr' & e') (Dn & Him & I). exists Dn. split; [by apply Hto|done].
  - intros (q' & pr' & e'). rewrite Hj1. intros [?|(Dn & Him & ?)]; [by left|right].
    exists Dn. split; [by apply Hto|done].
Qed.

Lemma commit_run p0 q pr e i D n ops im :
  running i D n p0 ops im q e -> freelist_count (pg_header p0) = 0 ->
  run (commit drain) (q, (pr, e))
    (fun _ '(q', (pr', e')) => exists Dn m, commits_to (pg_page_size p0) (pg_header p0) ops D n Dn /\ idle i Dn m q' e')
    (fun '(q', (pr', e')) => recoverable (journal_path p0) i e' D \/
       exists Dn, commits_to (pg_page_size p0) (pg_header p0) ops D n Dn /\
         recoverable (journal_path p0) i e' Dn).
Proof.
  intros Rn Hfree. destruct Rn as [[R A] Hst Hcnt _ Hpg Hdirty Hclean (Hh & Hps & Hpath & Hfile)].
  assert (journal_path q = journal_path p0) as Hj by (unfold journal_path; by rewrite Hpath).
  assert (forall Dn, committed q D Dn -> commits_to (pg_page_size p0) (pg_header p0) ops D n Dn) as Hto.
  { intros Dn. unfold committed. destruct (decide (pg_dirty q = ∅)) as [Hd|Hd].
    - intros ->. exists im. split; [done|]. rewrite decide_True; [done|].
      destruct ops; [done|]. by destruct Hdirty.
    - intros [HlD Hg]. exists im. split; [done|]. rewrite decide_False by (intros ->; by rewrite Hclean in Hd).
      rewrite Hps, Hcnt, Hh in *. split; [done|]. intros g Hgo. rewrite Hg by done.
      destruct (Z.eqb_spec g 1) as [->|Hne]; by rewrite Hpg. }
  eapply run_mono; [apply (commit_txn_run q pr e i D n R A); by rewrite Hh| |].
  - intros [] (q' & pr' & e') (Dn & Hc & I). exists Dn, (pg_count q). split; [by apply Hto|done].
  - intros (q' & pr' & e'). rewrite Hj. intros [?|(Dn & Hc & ?)]; [by left|right].
    exists Dn. split; [by apply Hto|done].
Qed.

Lemma write_transaction_run ex p0 pr e i D n ops :
  idle i D n p0 e -> Forall op_ok ops -> freelist_count (pg_header p0) = 0 ->
  n + 3 * zlen ops + 4 < 2 ^ 32 - 4 ->
  run (write_transaction drain ex ops) (p0, (pr, e))
    (fun _ '(q', (pr', e')) => exists Dn m, commits_to (pg_page_size p0) (pg_header p0) ops D n Dn /\ idle i Dn m q' e')
    (fun '(q', (pr', e')) => recoverable (journal_path p0) i e' D \/
       exists Dn, commits_to (pg_page_size p0) (pg_header p0) ops D n Dn /\
         recoverable (journal_path p0) i e' Dn).
Proof.
  intros I Hok Hfree Hb. pose proof (zlen_nonneg ops). unfold write_transaction. apply run_bind.
  eapply run_mono; [apply (begin_running ex p0 pr e i D n I); lia| |intros (?&?&?); by left].
  intros [] (q1 & pr1 & e1) Rn1. apply run_bind.
  eapply run_mono; [apply (body_running p0 q1 pr1 e1 i D n ops Rn1 Hok); [by left; lia|done]| |intros (?&?&?); by left].
  intros [] (q2 & pr2 & e2) (im & Rn2). by eapply commit_run.
Qed.
End Commit.

End Transaction.

(** ** The properties *)

(** The machine restarts: [e2] has the files of [e] and a working handle [db]
    on the database, on which nobody holds RESERVED. *)
Definition restarts {E F} `{DiskLaws E F} (e e2 : E) (i : nat) (db : F) : Prop :=
  live e2 /\ files e2 = files e /\ names e2 = names e /\ inode e2 db = Some i /\ reserved e2 db = false.

Section Properties.
Context {E F : Type} `{DiskLaws E F}.

Lemma restart_run path (e e2 : E) (db : F) i D :
  ordinary (path +:+ "-journal") -> recoverable (path +:+ "-journal") i e D -> restarts e e2 i db ->
  run (recover_hot_journal path db) e2
    (fun _ e3 => files e3 !! i = Some D /\ recoverable (path +:+ "-journal") i e3 D)
    (fun e3 => recoverable (path +:+ "-journal") i e3 D).
Proof.
  intros Ho Hrec (Hl & Hf & Hn & Hi & Hr).
  eapply run_mono; [apply (recover_run path db i e2 D Hl Ho Hi Hr); by eapply recoverable_same| |done].
  intros [] e3 (? & _ & ? & _). done.
Qed.

(** C1: a write transaction -- [begin_write], any list of page updates (of page
    numbers that are not negative) and allocations, [commit] -- by a pager that
    is idle in rollback-journal mode, on a disk that may crash at any of its
    operations, in the middle of a write too. The database has no free pages
    ([freelist_count = 0]: the allocation of a free page rewrites its trunk
    without journaling it, and then atomicity fails,
    [freelist_reuse_not_atomic]), and the page count cannot overflow
    ([n + 3 * zlen ops + 4 < 2 ^ 32 - 4]). If the transaction returns, the
    database file holds the image the operations describe, with the new header
    on page 1, and the journal is gone. If it does not, then at the next opening
    the recovery of the hot journal, itself interrupted or not, leaves the image
    from before or that image, and nothing in between. *)
Theorem transaction_crash_atomic (drain : gmap Z bytes -> list (Z * bytes))
    (drain_perm : forall m, drain m ≡ₚ map_to_list m) ex (p : Pager F) pr e i D n ops :
  idle i D n p e -> Forall op_ok ops -> freelist_count (pg_header p) = 0 ->
  n + 3 * zlen ops + 4 < 2 ^ 32 - 4 ->
  run (write_transaction drain ex ops) (p, (pr, e))
    (fun _ '(q, (_, e')) => exists Dn m, commits_to (pg_page_size p) (pg_header p) ops D n Dn /\
       idle i Dn m q e')
    (fun '(_, (_, e')) => exists Dn,
       (Dn = D \/ commits_to (pg_page_size p) (pg_header p) ops D n Dn) /\
       forall e2 db, restarts e' e2 i db ->
         run (recover_hot_journal (pg_path p) db) e2
           (fun _ e3 => files e3 !! i = Some Dn /\ recoverable (journal_path p) i e3 Dn)
           (fun e3 => recoverable (journal_path p) i e3 Dn)).
Proof.
  intros I Hok Hfree Hb. pose proof (at_path _ _ _ _ _ (id_at _ _ _ _ _ I)) as Ho.
  eapply run_mono; [by apply (write_transaction_run drain drain_perm ex p pr e i D n ops)|done|].
  intros (q & pr' & e') [Hrec|(Dn & Hto & Hrec)].
  - exists D. split; [by left|]. intros e2 db Hr. by apply (restart_run _ e').
  - exists Dn. split; [by right|]. intros e2 db Hr. by apply (restart_run _ e').
Qed.

(** C3: [rollback] after any list of page updates and allocations, for a database
    without free pages ([freelist_count = 0]) and with room for the pages
    ([n + 3 * zlen ops + 4 < 2 ^ 32 - 4]), restores the pager to the database as
    it was, page by page and in its length, and deletes the journal; a crash on
    the way leaves a disk that the next opening recovers to the database as it
    was. (With free pages the cached header keeps the freelist of the abandoned
    transaction, [rollback_keeps_freelist].) *)
Theorem rollback_restores ex (p : Pager F) pr e i D n ops :
  idle i D n p e -> Forall op_ok ops -> freelist_count (pg_header p) = 0 ->
  n + 3 * zlen ops + 4 < 2 ^ 32 - 4 ->
  run (rolled_back ex ops) (p, (pr, e))
    (fun _ '(q, (_, e')) => idle i D n q e')
    (fun '(_, (_, e')) => forall e2 db, restarts e' e2 i db ->
       run (recover_hot_journal (pg_path p) db) e2
         (fun _ e3 => files e3 !! i = Some D /\ recoverable (journal_path p) i e3 D)
         (fun e3 => recoverable (journal_path p) i e3 D)).
Proof.
  intros I Hok Hfree Hb. pose proof (at_path _ _ _ _ _ (id_at _ _ _ _ _ I)) as Ho. pose proof (zlen_nonneg ops).
  assert (forall e', recoverable (journal_path p) i e' D -> forall e2 db, restarts e' e2 i db ->
       run (recover_hot_journal (pg_path p) db) e2
         (fun _ e3 => files e3 !! i = Some D /\ recoverable (journal_path p) i e3 D)
         (fun e3 => recoverable (journal_path p) i e3 D)) as Hrec
    by (intros e' He' e2 db Hr; by apply (restart_run _ e')).
  unfold rolled_back. apply run_bind.
  eapply run_mono; [apply (begin_running ex p pr e i D n I); lia| |intros (?&?&?); apply Hrec].
  intros [] (q1 & pr1 & e1) Rn1. apply run_bind.
  eapply run_mono; [apply (body_running p q1 pr1 e1 i D n ops Rn1 Hok); [by left; lia|done]| |intros (?&?&?); apply Hrec].
  intros [] (q2 & pr2 & e2) (im & Rn2).
  eapply run_mono; [by apply (rollback_run p q2 pr2 e2 i D n ops im)|done|intros (?&?&?); apply Hrec].
Qed.


(** C2: recovery of a hot journal. Whatever the database file holds, if the
    journal has a valid header for an image of [n] pages and its first [k]
    records are the pre-images of all the pages on which the file may differ
    from [D], then recovery ends with the file holding [D] again (also when the
    file had grown) and deletes the journal; interrupted, it leaves a disk on
    which recovery still leads to [D]. A torn record after the last one, or a
    record count the journal does not reach, does not matter. *)
Theorem hot_journal_recovery path (db : F) (e : E) i j J D D1 k ck n ps R tail :
  live e -> ordinary (path +:+ "-journal") -> inode e db = Some i -> reserved e db = false ->
  names e !! (path +:+ "-journal") = Some j -> j <> i -> files e !! j = Some J ->
  parse_header (zslice 0 512 J) = Some (mkJournalHeader k ck n SECTOR_SIZE ps) ->
  zdrop 512 J = records ck ps D R ++ tail -> (tail = [] \/ k <= zlen R) ->
  geometry ps n D -> Forall (page_ok n) R -> is_u32 ck -> 0 <= k ->
  files e !! i = Some D1 -> agrees ps n D D1 (ztake k R) ->
  run (recover_hot_journal path db) e
    (fun _ e' => files e' !! i = Some D /\ (live e' -> names e' !! (path +:+ "-journal") = None))
    (fun e' => recoverable (path +:+ "-journal") i e' D).
Proof.
  intros Hl Ho Hi Hr Hn Hne Hj Hp Hd Ht HG HR Hck Hk Hf Hag.
  eapply run_mono; [apply (recover_run path db i e D Hl Ho Hi Hr)| |done].
  - exists D1. rewrite Hn. split; [done|]. split; [done|]. exists J. split; [done|].
    right. by exists k, ck, n, ps, R, tail.
  - intros [] e' (Hf' & _ & _ & Hn'). done.
Qed.

End Properties.

(** ** A database of one page on a disk with a budget *)

Module Sample.

Definition page1 : bytes :=
  match build_fresh_page1 (fresh_header 512) 512 with Ok b => b | _ => [] end.
Definition vfs : MemVfs :=
  mkMemVfs {["db" := 0%nat]} {["db" := 2%nat]} ∅ {[0%nat := page1]} {[2%nat := LockState_default]} ∅
    {[1%nat := mkMemFile 0 Unlocked (Some 2%nat) None 0 0]} 3.
(** The disk crashes at its [k]-th operation. *)
Definition disk (k : nat) : CrashFs := mkCrashFs vfs k 5.
Definition pager : Pager nat := mkPager "db" 1%nat 512 512 (fresh_header 512) 1 ∅ ∅ None [] None.
Definition proc : Proc := mkProc 7 0 0.
Definition ops : list TxnOp := [OpUpdate 1 (splice 200 [1; 2; 3]); OpAppend (fun g => zrep 512 g)].

Lemma vfs_well_formed k : Z.of_nat k < 2 ^ 32 -> vfs_wf vfs k.
Proof.
  intros Hk. constructor; cbn; try lia.
  - intros a b [<- _]%lookup_singleton_Some. lia.
  - intros f h [<- _]%lookup_singleton_Some. lia.
  - intros f h a [<- <-]%lookup_singleton_Some [= <-]. by eexists.
  - intros p a [<- <-]%lookup_singleton_Some. by eexists.
  - intros a st [<- <-]%lookup_singleton_Some. cbn. lia.
Qed.

Lemma pager_idle k : (0 < k)%nat -> Z.of_nat k < 2 ^ 32 -> idle 0 page1 1 pager (disk k).
Proof.
  intros H0 Hk. constructor; try done. constructor; try done.
  split; [done|]. by apply vfs_well_formed.
Qed.


Lemma sample_transaction k : (0 < k)%nat -> Z.of_nat k < 2 ^ 32 ->
  idle 0 page1 1 pager (disk k) /\ Forall op_ok ops.
Proof. intros. split; [by apply pager_idle|by repeat constructor]. Qed.

(** The disk after a crash in the middle of writing page 1: five bytes of the
    new page are there, and the journal has its pre-image. *)
Definition torn : bytes := mem_write 0 [9; 9; 9; 9; 9] page1 ++ zrep 512 2.
Definition journal : bytes := jimage 1 77 1 512 page1 [1].
Definition crashed_disk : CrashFs :=
  mkCrashFs
    (mkMemVfs {["db" := 0%nat; "db-journal" := 3%nat]} {["db" := 2%nat]} ∅
       {[0%nat := torn; 3%nat := journal]} {[2%nat := LockState_default]} ∅
       {[1%nat := mkMemFile 0 Unlocked (Some 2%nat) None 0 0]} 4) 100 0.

Lemma crashed_live : live crashed_disk.
Proof.
  split; [cbn; lia|]. constructor; cbn; try lia.
  - intros a b. rewrite lookup_insert_Some. intros [[<- _]|[_ [<- _]%lookup_singleton_Some]]; lia.
  - intros f h [<- _]%lookup_singleton_Some. lia.
  - intros f h a [<- <-]%lookup_singleton_Some [= <-]. by eexists.
  - intros p a [<- <-]%lookup_singleton_Some. by eexists.
  - intros a st [<- <-]%lookup_singleton_Some. cbn. lia.
Qed.

End Sample.

Lemma transaction_crash_atomic_witness :
  run (write_transaction map_to_list false Sample.ops) (Sample.pager, (Sample.proc, Sample.disk 13))
    (fun _ '(q, (_, e')) => exists Dn m,
       commits_to 512 (fresh_header 512) Sample.ops Sample.page1 1 Dn /\ idle 0 Dn m q e')
    (fun '(_, (_, e')) => exists Dn,
       (Dn = Sample.page1 \/ commits_to 512 (fresh_header 512) Sample.ops Sample.page1 1 Dn) /\
       forall e2 db, restarts e' e2 0%nat db ->
         run (recover_hot_journal "db" db) e2
           (fun _ e3 => files e3 !! 0%nat = Some Dn /\ recoverable "db-journal" 0 e3 Dn)
           (fun e3 => recoverable "db-journal" 0 e3 Dn)).
Proof.
  destruct (Sample.sample_transaction 13) as [I Hok]; [lia|done|].
  by apply (transaction_crash_atomic map_to_list (fun m => reflexivity _) false Sample.pager Sample.proc
    (Sample.disk 13) 0 Sample.page1 1 Sample.ops I Hok).
Defined.

Lemma rollback_restores_witness :
  run (rolled_back true Sample.ops) (Sample.pager, (Sample.proc, Sample.disk 40))
    (fun _ '(q, (_, e')) => idle 0 Sample.page1 1 q e')
    (fun '(_, (_, e')) => forall e2 db, restarts e' e2 0%nat db ->
       run (recover_hot_journal "db" db) e2
         (fun _ e3 => files e3 !! 0%nat = Some Sample.page1 /\ recoverable "db-journal" 0 e3 Sample.page1)
         (fun e3 => recoverable "db-journal" 0 e3 Sample.page1)).
Proof.
  destruct (Sample.sample_transaction 40) as [I Hok]; [lia|done|].
  by apply (rollback_restores true Sample.pager Sample.proc (Sample.disk 40) 0 Sample.page1 1 Sample.ops I Hok).
Defined.

Lemma hot_journal_recovery_witness :
  run (recover_hot_journal "db" 1%nat) Sample.crashed_disk
    (fun _ e' => files e' !! 0%nat = Some Sample.page1 /\ (live e' -> names e' !! "db-journal" = None))
    (fun e' => recoverable "db-journal" 0 e' Sample.page1).
Proof.
  apply (hot_journal_recovery "db" 1%nat Sample.crashed_disk 0 3 Sample.journal Sample.page1 Sample.torn
    1 77 1 512 [1] []).
  - apply Sample.crashed_live.
  - done.
  - done.
  - done.
  - done.
  - done.
  - done.
  - by apply jimage_parse.
  - rewrite app_nil_r. apply jimage_tail.
  - by left.
  - split_and!; by vm_compute.
  - by repeat constructor.
  - done.
  - done.
  - done.
  - split; [by vm_compute|]. intros g [? ?] Hg. exfalso. apply Hg. assert (g = 1) as -> by lia. by left.
Defined.


(** ** Free pages

    A database of three pages whose freelist is the trunk page 2 with the one
    leaf 3. An allocation takes page 3 and rewrites the trunk, which is not in
    the journal: when the disk fails after the trunk is written, recovery
    restores page 1, with its two free pages, and not the trunk, which lists
    none but itself. *)
Module Reuse.
Definition header : DbHeader := mkDbHeader 512 1 1 0 0 3 2 2 0 4 0 0 Utf8 0 0 0 0 SQLITE_VERSION_NUMBER.
Definition first_page : bytes := match build_fresh_page1 header 512 with Ok b => b | _ => [] end.
Definition trunk : bytes := be_bytes 4 0 ++ be_bytes 4 1 ++ be_bytes 4 3 ++ zrep 500 0.
Definition before : bytes := first_page ++ trunk ++ zrep 512 7.
Definition disk_of (names : gmap string nat) (files : gmap nat bytes) (k : nat) : CrashFs :=
  mkCrashFs (mkMemVfs names {["db" := 2%nat]} ∅ files {[2%nat := LockState_default]} ∅
    {[1%nat := mkMemFile 0 Unlocked (Some 2%nat) None 0 0]} 9) k 0.
Definition pager : Pager nat := mkPager "db" 1%nat 512 512 header 3 ∅ ∅ None [] None.
Definition state (k : nat) : Pager nat * (Proc * CrashFs) :=
  (pager, (Sample.proc, disk_of {["db" := 0%nat]} {[0%nat := before]} k)).
Definition ops : list TxnOp := [OpAppend (fun _ => zrep 512 9)].
(** The database file after the transaction stopped at the [k]-th operation of
    the disk, the machine restarted and the journal was recovered. *)
Definition recovered (k : nat) : option bytes :=
  let v := cf_vfs (snd (snd (snd (write_transaction map_to_list false ops (state k))))) in
  bufs (cf_vfs (snd (recover_hot_journal "db" 1%nat (disk_of (mv_files v) (bufs v) 100)))) !! 0%nat.
End Reuse.
Lemma freelist_reuse_not_atomic :
  is_ok (fst (write_transaction map_to_list false Reuse.ops (Reuse.state 13))) = false /\
  match Reuse.recovered 13 with
  | Some D => zslice 0 512 D = Reuse.first_page /\ zslice 516 520 D = be_bytes 4 0 /\ zslice 516 520 Reuse.before = be_bytes 4 1
  | None => False
  end.
Proof. by vm_compute. Qed.
(** The cached header after a rollback. *)
Lemma rollback_keeps_freelist :
  let '(r, (q, _)) := rolled_back false Reuse.ops (Reuse.state 100) in
  r = Ok tt /\ freelist_count Reuse.header = 2 /\ freelist_count (pg_header q) = 1.
Proof. by vm_compute. Qed.
