(* ===== verification/Store.v ===== *)
(** * What the pager promises to the b-trees

    Two interfaces, [PageReader] and [PageWriter]: the pager shows an image of
    pages; reading does not change it, a page read for writing may then be
    written, and an allocated page is new. The b-tree theorems are proved
    against them. The instances are an idle pager and a pager in a
    rollback-journal transaction, on a disk that may crash. *)

From S2P Require Import Prelude Utf8 DbHeader Vfs Wal Journal Ptrmap Pager BtreeInsert Autovac PagerTxn Disk Recovery Atomic.
From S2P Require Import Transaction.
#[local] Open Scope Z_scope.

(** Two images that agree on the pages they have. *)
#[export] Instance im_equiv : Equiv Image := fun im im' =>
  im_count im = im_count im' /\ forall g, page_ok (im_count im) g -> im_page im g = im_page im' g.
#[export] Instance im_equiv_equivalence : Equivalence (≡@{Image}).
Proof.
  split.
  - by intros im.
  - intros im im' [Hc Hp]. split; [done|]. intros g Hg. symmetry. apply Hp. by rewrite Hc.
  - intros a b c [Hc Hp] [Hc' Hp']. split; [congruence|]. intros g Hg. rewrite Hp by done.
    apply Hp'. by rewrite <- Hc.
Qed.

(** ** Errors that are not mistaken for a full page

    [insert.rs] recognises a full page by the text of the error. *)

(** From [s], the error of [m], if it fails, is not taken for a full page. *)
Definition quiet {S A} (m : M S A) (s : S) : Prop :=
  forall e s', m s = (Err e, s') -> is_page_full e = false.

Lemma quiet_bind {S A B} (m : M S A) (f : A -> M S B) s :
  quiet m s -> (forall a s', m s = (Ok a, s') -> quiet (f a) s') -> quiet (m ≫= f) s.
Proof.
  unfold quiet, mbind, M_bind. intros Hm Hf e s'. destruct (m s) as [[a|er|] s1] eqn:E; [|naive_solver..].
  by apply Hf.
Qed.
Lemma quiet_ret {S A} (a : A) (s : S) : quiet (mret a) s.
Proof. done. Qed.
Lemma quiet_lift {S A} (a : A) (s : S) : quiet (lift (Ok a)) s.
Proof. done. Qed.
Lemma run_quiet {S A} (m : M S A) s ok : run m s ok (fun _ => False) -> quiet m s.
Proof. unfold run, quiet. destruct (m s) as [[?|?|] ?]; naive_solver. Qed.
Lemma run_ok {S A} (m : M S A) s (ok : A -> S -> Prop) err a s' :
  run m s ok err -> m s = (Ok a, s') -> ok a s'.
Proof. unfold run. by intros Hr E; rewrite E in Hr. Qed.

(** [run], and the error is not taken for a full page. *)
Definition qrun {S A} (m : M S A) (s : S) (ok : A -> S -> Prop) (err : S -> Prop) : Prop :=
  run m s ok err /\ quiet m s.
Lemma qrun_bind {S A B} (m : M S A) (f : A -> M S B) s ok err :
  qrun m s (fun a s' => qrun (f a) s' ok err) err -> qrun (m ≫= f) s ok err.
Proof.
  intros [Hr Hq]. split.
  - apply run_bind. eapply run_mono; [exact Hr| |done]. by intros a s' [? _].
  - apply quiet_bind; [done|]. intros a s' E. by apply (run_ok _ _ _ _ _ _ Hr E).
Qed.
Lemma qrun_run {S A} (m : M S A) s (ok : A -> S -> Prop) (err : S -> Prop) :
  run m s ok (fun _ => False) -> qrun m s ok err.
Proof. intros Hr. split; [by eapply run_mono|by eapply run_quiet]. Qed.
Lemma qrun_mono {S A} (m : M S A) s (ok ok' : A -> S -> Prop) (err : S -> Prop) :
  qrun m s ok err -> (forall a s', ok a s' -> ok' a s') -> qrun m s ok' err.
Proof. intros [Hr Hq] Ho. split; [by eapply run_mono|done]. Qed.
Lemma qrun_lift {S A} (o : outcome A) a (s : S) (ok : A -> S -> Prop) err :
  o = Ok a -> ok a s -> qrun (lift o) s ok err.
Proof. by intros ->. Qed.
Lemma qrun_gets {E F A} (f : Pager F -> A) p (r : Proc * E) (ok : A -> Pager F * (Proc * E) -> Prop) err :
  ok (f p) (p, r) -> qrun (gets f) (p, r) ok err.
Proof. done. Qed.
Lemma qrun_ret {S A} (a : A) (s : S) (ok : A -> S -> Prop) err : ok a s -> qrun (mret a) s ok err.
Proof. done. Qed.
Lemma run_if_page_full {E F} `{VfsOps E F} {A} (m h : PagerM (E:=E) (F:=F) A) s ok err :
  qrun m s ok err -> run (if_page_full m h) s ok err.
Proof.
  intros [Hr Hq]. unfold run, if_page_full in *. destruct (m s) as [[a|e|] s'] eqn:Em; [done| |done].
  by rewrite (Hq e s').
Qed.

(** What is asked of a file system: its read and write errors do not say
    "page is full". *)
Class QuietVfs (E F : Type) `{VfsOps E F} : Prop := {
  quiet_read (f : F) off len (e : E) : quiet (read_at f off len) e;
  quiet_write (f : F) off d (e : E) : quiet (write_at f off d) e }.

Section Store.
Context {E F : Type} `{VfsOps E F}.
Notation State := (Pager F * (Proc * E))%type.

(** [view im s]: the pager in [s] shows the image [im]; [dead s] is what is
    known after a failed operation. *)
Class PageReader (ps us : Z) (view : Image -> State -> Prop) (dead : State -> Prop) : Prop := {
  rd_sizes : 512 <= ps <= 65536 /\ 480 <= us <= ps;
  rd_params im s : view im s -> pg_page_size (fst s) = ps /\ pg_usable_size (fst s) = us;
  rd_count im s : view im s -> 1 <= im_count im < 2 ^ 32 /\ page_count_of (fst s) = im_count im;
  rd_len im s g : view im s -> page_ok (im_count im) g -> zlen (im_page im g) = ps;
  rd_get im s g : view im s -> page_ok (im_count im) g ->
    run (get_page g) s (fun b s' => b = im_page im g /\ view im s') dead }.

(** [view im W s]: moreover the pages in [W] may be written. The database has
    neither a freelist nor auto-vacuum. *)
Class PageWriter (ps us : Z) (view : Image -> gset Z -> State -> Prop) (dead : State -> Prop) : Prop := {
  wr_reader W :: PageReader ps us (fun im => view im W) dead;
  wr_plain im W s : view im W s -> auto_vacuum (fst s) = false;
  wr_subset im W W' s : view im W s -> W' ⊆ W -> view im W' s;
  wr_equiv im im' W s : view im W s -> im ≡ im' -> view im' W s;
  wr_read im W s g : view im W s -> page_ok (im_count im) g ->
    run (read_page_for_write g) s (fun b s' => b = im_page im g /\ view im ({[g]} ∪ W) s') dead;
  wr_read_quiet im W s g : view im W s -> page_ok (im_count im) g -> quiet (read_page_for_write g) s;
  wr_write im W s g b : view im W s -> g ∈ W -> zlen b = ps ->
    run (write_page g b) s (fun _ s' => view (im_set g b im) W s') (fun _ => False);
  wr_allocate im W s : view im W s -> im_count im + 4 < 2 ^ 32 - 4 ->
    run allocate_page s
      (fun g s' => im_count im < g <= im_count im + 3 /\ view (im_grow ps g im) ({[g]} ∪ W) s')
      (fun _ => False) }.

End Store.

(** ** The instances *)

Section Instances.
Context {E F : Type} `{DiskLaws E F} `{!QuietVfs E F}.
Notation State := (Pager F * (Proc * E))%type.
Context (i : nat) (D : bytes) (n : Z) (p0 : Pager F).

(** What the pagers of one connection have in common. *)
Definition same_session (q : Pager F) : Prop :=
  pg_header q = pg_header p0 /\ pg_page_size q = pg_page_size p0 /\
  pg_usable_size q = pg_usable_size p0 /\ pg_path q = pg_path p0 /\ pg_file q = pg_file p0.

Lemma same_session_pages q q' : same_session q -> same_pages q q' -> same_session q'.
Proof. by intros ? (c & t & ->). Qed.

Definition session_dead : State -> Prop := fun '(_, (_, e)) => recoverable (journal_path p0) i e D.

(** A pager between transactions. *)
Definition idle_view (im : Image) : State -> Prop := fun '(q, (pr, e)) =>
  idle i D n q e /\ same_session q /\ im ≡ file_image (pg_page_size p0) n D.

(** A pager in a transaction; the pages of [W] are journaled or new. *)
Definition txn_view (im : Image) (W : gset Z) : State -> Prop := fun '(q, (pr, e)) =>
  exists R, active i D n R q e /\ same_session q /\ pg_count q = im_count im /\
    (forall g, page_ok (im_count im) g -> cur q D g = im_page im g) /\
    (forall g, g ∈ W -> page_ok (im_count im) g /\ (g <= n -> g ∈ R)).

Context (Hsize : 480 <= pg_usable_size p0 <= pg_page_size p0) (Hps : 512 <= pg_page_size p0 <= 65536).
Context (Hplain : largest_root_page (pg_header p0) = 0) (Hfree : freelist_count (pg_header p0) = 0).

Lemma session_journal q : same_session q -> journal_path q = journal_path p0.
Proof. intros (_ & _ & _ & Hp & _). unfold journal_path. by rewrite Hp. Qed.

Lemma attached_get g p pr e :
  attached i D n p e -> pg_dirty p = ∅ -> pg_count p = n -> page_ok n g ->
  run (get_page g) (p, (pr, e))
    (fun b '(p', (pr', e')) => b = page_bytes (pg_page_size p) g D /\ e' = e /\
       attached i D n p' e /\ exists c, p' = set_cache c p)
    (fun '(p', (pr', e')) => files e' = files e /\ names e' = names e).
Proof.
  intros T Hd Hc [Hg1 Hg2]. unfold get_page.
  apply run_bind, run_gets. unfold id. rewrite (page_count_plain p) by apply T. rewrite Hc.
  destruct (Z.eqb_spec g 0); [lia|]. destruct (Z.gtb_spec g n); [lia|].
  assert (exists c, p = set_cache c p) as Hs by (exists (pg_cache p); by destruct p).
  unfold overlay. rewrite Hd, lookup_empty.
  destruct (pg_cache p !! g) as [b|] eqn:Hg.
  { apply run_ret. destruct (at_cache _ _ _ _ _ T g b Hg) as [_ ->]. by split_and!. }
  rewrite (at_wal _ _ _ _ _ T). apply run_bind, run_ret. cbn [negb Z.eqb].
  pose proof (at_geo _ _ _ _ _ T) as HG. pose proof HG as (Hps1 & Hn & HD).
  apply run_bind, run_pio.
  eapply run_mono; [apply (disk_read e (pg_file p) i D); [apply T|apply T|apply T|nia|lia]| |].
  2:{ cbn. by intros ? [_ ->]. }
  cbn. intros b ? [-> ->].
  replace ((g - 1) * pg_page_size p + pg_page_size p) with (g * pg_page_size p) by lia.
  fold (page_bytes (pg_page_size p) g D). rewrite (zlen_page_bytes (pg_page_size p) n D g HG) by done.
  rewrite Z.ltb_irrefl. unfold install. apply run_bind, run_gets. unfold overlay, id. rewrite Hd, lookup_empty, Hg.
  apply run_bind, run_upd, run_ret. split_and!; [done|done| |by eexists].
  destruct T. constructor; try done. intros g' b'. cbn. rewrite lookup_insert_Some.
  intros [[<- <-]|[_ ?]]; [done|eauto].
Qed.

#[export] Instance idle_reader : PageReader (pg_page_size p0) (pg_usable_size p0) idle_view session_dead.
Proof.
  constructor.
  - done.
  - intros im (q & pr & e) (I & (_ & ? & ? & _) & _). done.
  - intros im (q & pr & e) (I & _ & [Hc _]). cbn. rewrite Hc. cbn.
    pose proof (id_at _ _ _ _ _ I) as T. pose proof (at_geo _ _ _ _ _ T) as (_ & ? & _).
    pose proof (at_one _ _ _ _ _ T). rewrite page_count_plain by apply T. split; [lia|apply I].
  - intros im (q & pr & e) g (I & (_ & Hp & _) & [Hc Hpg]) Hg. rewrite Hpg by done. cbn.
    rewrite Hc in Hg. cbn in Hg. apply (zlen_page_bytes _ n); [|done].
    rewrite <- Hp. apply (id_at _ _ _ _ _ I).
  - intros im (q & pr & e) g (I & S & [Hc Hpg]) Hg. pose proof Hg as Hg'. rewrite Hc in Hg'. cbn in Hg'.
    pose proof (id_at _ _ _ _ _ I) as T.
    eapply run_mono; [apply (attached_get g q pr e); [done|apply I|apply I|done]| |].
    + intros b (q' & pr' & e') (-> & -> & T' & c & ->). rewrite Hpg by done. cbn.
      destruct S as (Hh & Hp & Hu & Hpt & Hf). rewrite Hp. split; [done|]. split; [|done].
      destruct I. constructor; done.
    + intros (q' & pr' & e') [Hf Hn]. cbn. apply (recoverable_same _ _ e e'); [done|done|].
      rewrite <- (session_journal q S). by eapply idle_recoverable.
Qed.

Lemma quiet_pio {A} (m : M E A) p (pr : Proc) e : quiet m e -> quiet (pio m) (p : Pager F, (pr, e)).
Proof.
  unfold quiet, pio, on_snd. intros Hq er s'. destruct (m e) as [[a|er'|] e'] eqn:Em; [done| |done].
  intros [= <- _]. by eapply Hq.
Qed.

Lemma read_page_for_write_quiet g p pr e R : active i D n R p e -> page_ok (pg_count p) g ->
  quiet (read_page_for_write g) (p, (pr, e)).
Proof.
  intros A Hg. pose proof (ac_at _ _ _ _ _ _ A) as T. unfold read_page_for_write. apply quiet_bind.
  - unfold get_page. apply quiet_bind; [done|]. intros px s0 [= <- <-]. unfold id.
    rewrite (page_count_plain p) by apply T. destruct Hg as [Hg1 Hg2].
    destruct (Z.eqb_spec g 0); [lia|]. destruct (Z.gtb_spec g (pg_count p)); [lia|].
    destruct (overlay p g) eqn:Ho; [done|].
    rewrite (at_wal _ _ _ _ _ T). apply quiet_bind; [done|]. intros r s1 [= <- <-]. cbn [negb Z.eqb].
    assert (page_ok n g) as [_ Hgn].
    { split; [done|]. destruct (Z_le_gt_dec g n); [done|].
      destruct (ac_fresh _ _ _ _ _ _ A g ltac:(lia)) as [b Hb]. unfold overlay in Ho. by rewrite Hb in Ho. }
    pose proof (at_geo _ _ _ _ _ T) as HG. pose proof HG as (Hps1 & Hn & HD).
    apply quiet_bind; [apply quiet_pio, quiet_read|]. intros b s' Er.
    assert (zlen b = pg_page_size p) as ->.
    { pose proof (disk_read e (pg_file p) i D ((g - 1) * pg_page_size p) (pg_page_size p)
                    ltac:(apply T) ltac:(apply T) ltac:(apply T) ltac:(nia) ltac:(lia)) as Hd.
      unfold pio, on_snd in Er. unfold run in Hd.
      destruct (read_at (pg_file p) ((g - 1) * pg_page_size p) (pg_page_size p) e) as [[b'|?|] e']; [|done..].
      injection Er as -> _. destruct Hd as [-> _].
      replace ((g - 1) * pg_page_size p + pg_page_size p) with (g * pg_page_size p) by lia.
      by apply (zlen_page_bytes (pg_page_size p) n D g HG). }
    rewrite Z.ltb_irrefl. unfold install. destruct s' as [p1 r1]. apply quiet_bind; [done|].
    intros p2 s2 [= <- <-]. unfold id. by destruct (overlay p1 g).
  - intros b [p1 [pr1 e1]] Eg.
    destruct (run_ok _ _ _ _ _ _ (get_page_run g p pr e i D n R A Hg) Eg) as (_ & A1 & S1).
    apply quiet_bind; [|done]. unfold journal_page. apply quiet_bind; [done|].
    intros px s0 [= <- <-]. unfold id. destruct (pg_wal p1); [done|].
    destruct (ac_jrnl _ _ _ _ _ _ A1) as (jf & j & ck & Ht & _). rewrite Ht.
    destruct (if g >? _ then true else _); [done|].
    apply quiet_bind; [done|]. intros [] s0 [= <-]. apply quiet_bind; [done|].
    intros j0 s0 [= <- <-]. apply quiet_pio, quiet_write.
Qed.

Lemma txn_view_len im W q pr e g : txn_view im W (q, (pr, e)) -> page_ok (im_count im) g ->
  zlen (im_page im g) = pg_page_size p0.
Proof.
  intros (R & A & (_ & Hp & _) & Hc & Hpg & _) Hg. rewrite <- Hpg by done. rewrite <- Hp.
  apply (zlen_cur i D n R q e); [done|]. by rewrite Hc.
Qed.

#[export] Instance txn_writer : PageWriter (pg_page_size p0) (pg_usable_size p0) txn_view session_dead.
Proof.
  constructor.
  - intros W. constructor.
    + done.
    + by intros im (q & pr & e) (R & A & (_ & ? & ? & _) & _).
    + intros im (q & pr & e) (R & A & S & Hc & _). cbn. pose proof (ac_count _ _ _ _ _ _ A). pose proof (at_one _ _ _ _ _ (ac_at _ _ _ _ _ _ A)).
      rewrite page_count_plain by apply (ac_at _ _ _ _ _ _ A). lia.
    + intros im (q & pr & e) g V. by apply (txn_view_len im W q pr e).
    + intros im (q & pr & e) g (R & A & S & Hc & Hpg & HW) Hg.
      eapply run_mono; [apply (get_page_run g q pr e i D n R A); by rewrite Hc| |].
      * intros b (q' & pr' & e') (-> & A' & Sp). split; [by apply Hpg|]. exists R.
        split_and!; [done|by eapply same_session_pages| | |done].
        { destruct Sp as (? & ? & ->). done. }
        { intros x Hx. rewrite (cur_same q) by done. by apply Hpg. }
      * intros (q' & pr' & e'). cbn. by rewrite (session_journal q S).
  - intros im W (q & pr & e) (R & A & (Hh & _) & _). cbn. unfold auto_vacuum. by rewrite Hh, Hplain.
  - intros im W W' (q & pr & e) (R & A & S & Hc & Hpg & HW) Hs. exists R. split_and!; try done.
    intros g Hg. apply HW. set_solver.
  - intros im im' W (q & pr & e) (R & A & S & Hc & Hpg & HW) [Hc' Hpg']. exists R.
    rewrite <- Hc'. split_and!; try done. intros g Hg. rewrite <- Hpg' by done. by apply Hpg.
  - intros im W (q & pr & e) g (R & A & S & Hc & Hpg & HW) Hg.
    eapply run_mono; [apply (read_page_for_write_run g q pr e i D n R A); by rewrite Hc| |].
    + intros b (q' & pr' & e') (-> & Sp & R' & A' & HgR & HR). split; [by apply Hpg|]. exists R'.
      split_and!; [done|by eapply same_session_pages| | |].
      { destruct Sp as (? & ? & ->). done. }
      { intros x Hx. rewrite (cur_same q) by done. by apply Hpg. }
      { intros x [->%elem_of_singleton|Hx]%elem_of_union; [done|]. destruct (HW x Hx) as [? HR']. auto. }
    + intros (q' & pr' & e'). cbn. by rewrite (session_journal q S).
  - intros im W (q & pr & e) g (R & A & S & Hc & Hpg & HW) Hg.
    apply (read_page_for_write_quiet g q pr e R A). by rewrite Hc.
  - intros im W (q & pr & e) g b (R & A & S & Hc & Hpg & HW) Hg Hb.
    destruct (HW g Hg) as [Hok HgR]. pose proof S as (_ & Hp & _).
    eapply run_mono; [apply (write_page_run g b q pr e i D n R A); [by rewrite Hc|by rewrite Hp|done]| |done].
    intros [] s' [-> A']. exists R. split_and!; try done.
    intros x Hx. rewrite cur_put. cbn. destruct (Z.eqb_spec x g); [done|]. by apply Hpg.
  - intros im W (q & pr & e) (R & A & S & Hc & Hpg & HW) Hb. pose proof S as (Hh & Hp & _).
    pose proof (ac_count _ _ _ _ _ _ A). pose proof (at_one _ _ _ _ _ (ac_at _ _ _ _ _ _ A)).
    eapply run_mono; [apply (allocate_page_run q pr e i D n R A); [left; rewrite Hh; lia|lia]| |done].
    intros g (q' & pr' & e') ((Hc' & Hq' & Hold & Hnew) & -> & A'). split; [lia|]. exists R.
    split_and!; [done| |done| |].
    + by rewrite Hq'.
    + cbn. intros x [Hx1 Hx2]. unfold cur. destruct (Z.leb_spec x (im_count im)) as [Hx|Hx].
      * rewrite Hold by lia. assert (pg_page_size q' = pg_page_size q) as -> by (by rewrite Hq').
        by apply Hpg.
      * rewrite Hnew by lia. unfold zero_page. by rewrite Hp.
    + cbn. intros x [->%elem_of_singleton|Hx]%elem_of_union.
      * split; [split; lia|intros; lia].
      * destruct (HW x Hx) as [[? ?] ?]. split; [split; lia|done].
Qed.

End Instances.

(** The in-memory file system and the one that crashes are quiet. *)
#[export] Instance MemVfs_quiet : QuietVfs MemVfs nat.
Proof.
  split.
  - intros f off len e. unfold read_at, MemVfs_ops, mem_read_at.
    apply quiet_bind; [by intros er s'; unfold deref; destruct (handles e !! f)|]. intros h s1 _.
    apply quiet_bind; [by intros er s'; unfold deref; destruct (bufs s1 !! mf_data h)|]. intros b s2 _.
    destruct (zlen b <=? off); [done|]. intros er s'. unfold lift, sub_range. by destruct (_ && _).
  - intros f off d e. unfold write_at, MemVfs_ops, mem_write_at.
    apply quiet_bind; [by intros er s'; unfold deref; destruct (handles e !! f)|]. intros h s1 _.
    apply quiet_bind; [by intros er s'; unfold deref; destruct (bufs s1 !! mf_data h)|]. intros b s2 _.
    apply quiet_bind; [by intros er s'; unfold lift, chk_add64; destruct (_ <? _)|]. intros en s3 _.
    apply quiet_bind; [|done]. intros er s'. unfold lift, copy_into. by destruct (_ && _).
Qed.

#[export] Instance CrashFs_quiet : QuietVfs CrashFs nat.
Proof.
  split.
  - intros f off len e er s'. unfold read_at, CrashFs_ops, peek. destruct (cf_budget e); [by intros [= <- _]|].
    destruct (read_at f off len (cf_vfs e)) as [[?|er'|] v] eqn:E; [done| |done]. intros [= <- _].
    by eapply quiet_read.
  - intros f off d e er s'. unfold write_at, CrashFs_ops, tick.
    destruct (cf_budget e) as [|[|k]]; [by intros [= <- _]|by intros [= <- _]|].
    destruct (write_at f off d (cf_vfs e)) as [[?|er'|] v] eqn:E; [done| |done]. intros [= <- _].
    by eapply quiet_write.
Qed.
