(* ===== verification/TableCell.v ===== *)
(** * Table-leaf cells and their overflow chains

    What a cell of a table leaf stores: the payload's length, the rowid, the
    local part of the payload and, when there is more, a chain of overflow pages.
    The parsers, the builder and the payload reader of [Cell] agree on it. *)

From S2P Require Import Prelude Varint DbHeader Vfs Wal Ptrmap BtreePage Pager Cell Autovac PagerTxn Disk Recovery Atomic.
From S2P Require Import Transaction Store.
#[local] Open Scope Z_scope.

(** ** How much is local *)

Lemma local_payload_len_ok us max payload : 480 <= us -> 0 <= payload -> (us - 12) * 32 / 255 - 23 <= max ->
  exists ll ho, local_payload_len payload us max = Ok (ll, ho) /\ 0 <= ll <= payload /\ ll <= max /\
    (if ho : bool then ll < payload /\ max < payload else ll = payload).
Proof.
  intros Hus Hp Hmax. unfold local_payload_len. destruct (Z.leb_spec payload max).
  { by exists payload, false. }
  assert (0 <= (us - 12) * 32 / 255 - 23) as Hmin.
  { assert (23 <= (us - 12) * 32 / 255) by (apply Z.div_le_lower_bound; lia). lia. }
  set (m := (us - 12) * 32 / 255 - 23) in *.
  assert (chk_sub us 12 = Ok (us - 12)) as -> by (unfold chk_sub; destruct (Z.ltb_spec us 12); [lia|done]).
  cbn [mbind outcome_bind].
  assert (chk_sub ((us - 12) * 32 / 255) 23 = Ok m) as ->
    by (unfold chk_sub; destruct (Z.ltb_spec ((us - 12) * 32 / 255) 23); [lia|done]).
  cbn [mbind outcome_bind].
  assert (chk_sub us 4 = Ok (us - 4)) as -> by (unfold chk_sub; destruct (Z.ltb_spec us 4); [lia|done]).
  assert (chk_sub payload m = Ok (payload - m)) as ->
    by (unfold chk_sub; destruct (Z.ltb_spec payload m); [lia|done]).
  cbn [mbind outcome_bind].
  pose proof (Z.mod_pos_bound (payload - m) (us - 4) ltac:(lia)).
  eexists _, true. split; [reflexivity|].
  destruct (Z.leb_spec (m + (payload - m) mod (us - 4)) max); lia.
Qed.

Lemma min_local_le us : 480 <= us -> (us - 12) * 32 / 255 - 23 <= us - 35.
Proof. intros. assert ((us - 12) * 32 / 255 <= us - 12) by (apply Z.div_le_upper_bound; lia). lia. Qed.

(** The split of a table-leaf payload. *)
Definition leaf_split (us : Z) (payload : bytes) : Z * bool :=
  match local_payload_len (zlen payload) us (us - 35) with Ok r => r | _ => (0, false) end.

Lemma leaf_split_ok us payload : 480 <= us ->
  let '(ll, ho) := leaf_split us payload in
  local_payload_len (zlen payload) us (us - 35) = Ok (ll, ho) /\
  0 <= ll <= zlen payload /\ ll <= us - 35 /\
  if ho then ll < zlen payload else ll = zlen payload.
Proof.
  intros Hus. unfold leaf_split.
  destruct (local_payload_len_ok us (us - 35) (zlen payload)) as (ll & ho & -> & ? & ? & Hho);
    [done|apply zlen_nonneg|by apply min_local_le|].
  split_and!; try lia; [done|]. destruct ho; lia.
Qed.

(** A bound on the pages a cell's chain adds to the database. *)
Definition cell_room (us : Z) (payload : bytes) : Z := 3 * (zlen payload / (us - 4) + 2).

(** ** What a cell stores *)

Notation row := (Z * bytes)%type.

(** The chain of overflow pages [ov], which starts at page [g] and holds [data]. *)
Fixpoint chain_rep (im : Image) (us g : Z) (data : bytes) (ov : list Z) : Prop :=
  match ov with
  | [] => g = 0 /\ data = []
  | x :: ov' => x = g /\ page_ok (im_count im) g /\ data <> [] /\
      exists next rest, is_u32 next /\
        im_page im g = be_bytes 4 next ++ ztake (us - 4) data ++ rest /\
        chain_rep im us next (zdrop (us - 4) data) ov'
  end.

Definition cell_head (r : row) : bytes := varint_bytes (zlen (snd r)) ++ varint_bytes (u64 (fst r)).
(** The pointer to the chain, for a payload that has one. *)
Definition cell_tail (us : Z) (r : row) (g : Z) : bytes := if snd (leaf_split us (snd r)) then be_bytes 4 g else [].
Definition cell_bytes (us : Z) (r : row) (g : Z) : bytes :=
  cell_head r ++ ztake (fst (leaf_split us (snd r))) (snd r) ++ cell_tail us r g.

Definition row_ok (r : row) : Prop := is_i64 (fst r) /\ bytes_ok (snd r) /\ zlen (snd r) < 2 ^ 63.

(** The payload of the row [r] that does not fit its cell is the chain at [g],
    of the pages [ov]. *)
Definition payload_at (im : Image) (us : Z) (r : row) (g : Z) (ov : list Z) : Prop :=
  row_ok r /\ is_u32 g /\
  if snd (leaf_split us (snd r)) then chain_rep im us g (zdrop (fst (leaf_split us (snd r))) (snd r)) ov
  else ov = [].

(** [c] is the cell of the row [r], whose overflow pages are [ov]. *)
Definition cell_rep (im : Image) (us : Z) (c : bytes) (r : row) (ov : list Z) : Prop :=
  exists g, c = cell_bytes us r g /\ payload_at im us r g ov.

(** The cell as the parser returns it. *)
Definition parsed_cell (us : Z) (r : row) (g : Z) : TableLeafCell :=
  mkTableLeafCell (zlen (snd r)) (fst r) (ztake (fst (leaf_split us (snd r))) (snd r))
    (if snd (leaf_split us (snd r)) then Some g else None).

Lemma row_ok_u64 r : row_ok r -> is_u64 (zlen (snd r)) /\ is_u64 (u64 (fst r)).
Proof.
  intros (_ & _ & Hl). pose proof (zlen_nonneg (snd r)). split; [unfold is_u64; lia|].
  unfold is_u64, u64. apply Z.mod_pos_bound. lia.
Qed.
Lemma i64_u64 x : is_i64 x -> i64 (u64 x) = x.
Proof. intros Hx. unfold i64, u64. rewrite sext_mod by lia. apply sext_small; [lia|exact Hx]. Qed.

Lemma zlen_cell_head r : row_ok r ->
  zlen (cell_head r) = varint_len (zlen (snd r)) + varint_len (u64 (fst r)).
Proof.
  intros [H1 H2]%row_ok_u64. unfold cell_head. by rewrite zlen_app, !zlen_varint_bytes.
Qed.
Lemma cell_head_bounds r : row_ok r -> 2 <= zlen (cell_head r) <= 18.
Proof.
  intros Hr. rewrite zlen_cell_head by done. apply row_ok_u64 in Hr as [H1 H2].
  pose proof (varint_len_range _ H1). pose proof (varint_len_range _ H2). lia.
Qed.
Lemma cell_tail_ok us r g : bytes_ok (cell_tail us r g).
Proof. unfold cell_tail. destruct (snd (leaf_split _ _)); auto with bytes. Qed.
#[export] Hint Resolve cell_tail_ok varint_bytes_ok : bytes.
Lemma cell_bytes_ok us r g : row_ok r -> bytes_ok (cell_bytes us r g).
Proof.
  intros (_ & Hb & _). unfold cell_bytes, cell_head. repeat (apply Forall_app; split); auto with bytes.
Qed.

Lemma be_uint_bytes g : is_u32 g -> be_uint 4 (be_bytes 4 g) = Ok g.
Proof.
  intros Hg. unfold be_uint. rewrite zlen_be_bytes. change (Z.of_nat 4 =? 4) with true. cbn [mbind].
  by rewrite be_val_be_bytes_small.
Qed.

(** ** Reading a cell in place *)

Section InPlace.
Context (page : bytes) (off us : Z) (r : row) (g : Z).
Context (Hb : bytes_ok page) (Hus : 480 <= us) (Hr : row_ok r) (Hg : is_u32 g).
Context (Hoff : 0 <= off) (Hend : off + zlen (cell_bytes us r g) <= zlen page).
Context (Hcell : zslice off (off + zlen (cell_bytes us r g)) page = cell_bytes us r g).

Lemma cell_at_split : zdrop off page = cell_bytes us r g ++ zdrop (off + zlen (cell_bytes us r g)) page.
Proof.
  rewrite <- Hcell at 1. pose proof (zlen_nonneg (cell_bytes us r g)).
  rewrite <- (ztake_zdrop_id (zlen (cell_bytes us r g)) (zdrop off page)) at 1.
  unfold zslice. rewrite zdrop_zdrop by lia.
  replace (off + zlen (cell_bytes us r g) - off) with (zlen (cell_bytes us r g)) by lia. f_equal. f_equal. lia.
Qed.

Lemma read_size_at : get_from page off = Some (zdrop off page) /\
  read_varint (zdrop off page) = Some (zlen (snd r), varint_len (zlen (snd r))).
Proof.
  destruct (row_ok_u64 r Hr) as [H1 _]. pose proof (zlen_nonneg (cell_bytes us r g)).
  split; [apply get_from_in; lia|]. rewrite cell_at_split. unfold cell_bytes, cell_head.
  rewrite <- !app_assoc. apply read_varint_app; [done|].
  destruct Hr as (_ & Hbr & _). repeat (apply Forall_app; split); auto with bytes.
Qed.

Lemma read_rowid_at : let o := off + varint_len (zlen (snd r)) in
  get_from page o = Some (zdrop o page) /\
  read_varint_i64 (zdrop o page) = Some (fst r, varint_len (u64 (fst r))).
Proof.
  destruct (row_ok_u64 r Hr) as [H1 H2]. pose proof (zlen_cell_head r Hr) as Hh.
  pose proof (varint_len_range _ H1). pose proof (varint_len_range _ H2).
  assert (zlen (cell_head r) <= zlen (cell_bytes us r g)) by (unfold cell_bytes; len_lia).
  cbn zeta. split; [apply get_from_in; lia|].
  replace (off + varint_len (zlen (snd r))) with (varint_len (zlen (snd r)) + off) by lia.
  rewrite <- zdrop_zdrop by lia. rewrite cell_at_split. unfold cell_bytes, cell_head. rewrite <- !app_assoc.
  rewrite zdrop_app_ge by (by rewrite zlen_varint_bytes by done).
  rewrite zlen_varint_bytes by done. rewrite Z.sub_diag, zdrop_0 by lia.
  unfold read_varint_i64. rewrite read_varint_app; [|done|].
  - cbn. rewrite i64_u64 by apply Hr. done.
  - destruct Hr as (_ & Hbr & _). repeat (apply Forall_app; split); auto with bytes.
Qed.

Lemma cell_slice a b : 0 <= a -> a <= b -> b <= zlen (cell_bytes us r g) ->
  zslice (off + a) (off + b) page = zslice a b (cell_bytes us r g).
Proof.
  intros Ha Hab Hle. rewrite <- Hcell. rewrite zslice_zslice by lia. done.
Qed.

Lemma read_local_at : read_local page (off + varint_len (zlen (snd r)) + varint_len (u64 (fst r)))
    (fst (leaf_split us (snd r))) (snd (leaf_split us (snd r))) =
  Ok (tl_local (parsed_cell us r g), tl_overflow (parsed_cell us r g)).
Proof.
  pose proof (zlen_cell_head r Hr) as Hh. pose proof (leaf_split_ok us (snd r) Hus) as Hs.
  unfold parsed_cell. destruct (leaf_split us (snd r)) as [ll ho] eqn:Els. cbn [fst snd] in *.
  destruct Hs as (_ & Hll & _ & Hho). pose proof (zlen_nonneg (cell_head r)).
  assert (zlen (cell_bytes us r g) = zlen (cell_head r) + ll + (if ho then 4 else 0)) as HL.
  { unfold cell_bytes, cell_tail. rewrite Els. cbn [fst snd]. destruct ho; len_lia. }
  replace (off + varint_len (zlen (snd r)) + varint_len (u64 (fst r))) with (off + zlen (cell_head r)) by lia.
  unfold read_local, slice.
  rewrite (sub_range_in page (off + zlen (cell_head r)) (off + zlen (cell_head r) + ll)) by (destruct ho; lia).
  replace (off + zlen (cell_head r) + ll) with (off + (zlen (cell_head r) + ll)) by lia.
  rewrite cell_slice by (destruct ho; lia). cbn [mbind outcome_bind].
  assert (zslice (zlen (cell_head r)) (zlen (cell_head r) + ll) (cell_bytes us r g) = ztake ll (snd r)) as ->.
  { unfold cell_bytes. rewrite Els. cbn [fst]. rewrite zslice_app_r by lia.
    rewrite Z.sub_diag. replace (zlen (cell_head r) + ll - zlen (cell_head r)) with ll by lia.
    rewrite zslice_app_l by len_lia. unfold zslice. rewrite zdrop_0, Z.sub_0_r by lia.
    apply ztake_all. len_lia. }
  destruct ho; [|done].
  rewrite sub_range_in by lia.
  replace (off + (zlen (cell_head r) + ll) + 4) with (off + (zlen (cell_head r) + ll + 4)) by lia.
  rewrite cell_slice by lia. cbn [mbind outcome_bind].
  assert (zslice (zlen (cell_head r) + ll) (zlen (cell_head r) + ll + 4) (cell_bytes us r g) = be_bytes 4 g) as ->.
  { unfold cell_bytes, cell_tail. rewrite Els. cbn [fst snd]. rewrite zslice_app_r by lia.
    rewrite zslice_app_r by len_lia. unfold zslice. rewrite zdrop_0 by len_lia. apply ztake_all. len_lia. }
  by rewrite be_uint_bytes.
Qed.

Lemma parse_table_leaf_cell_at : parse_table_leaf_cell page off us = Ok (parsed_cell us r g).
Proof.
  destruct read_size_at as [G1 R1]. destruct read_rowid_at as [G2 R2].
  pose proof (leaf_split_ok us (snd r) Hus) as Hs.
  unfold parse_table_leaf_cell, tail_or. rewrite G1. cbn [ok_or mbind outcome_bind]. rewrite R1.
  cbn [ok_or mbind outcome_bind]. unfold sub_from. rewrite G2. cbn [expect mbind outcome_bind]. rewrite R2.
  cbn [ok_or mbind outcome_bind].
  assert (table_leaf_max_local us = Ok (us - 35)) as ->
    by (unfold table_leaf_max_local, chk_sub; destruct (Z.ltb_spec us 35); [lia|done]).
  cbn [mbind outcome_bind]. pose proof read_local_at as Hl. unfold parsed_cell in *.
  destruct (leaf_split us (snd r)) as [ll ho]. cbn [fst snd] in *. destruct Hs as (-> & _).
  cbn [mbind outcome_bind]. rewrite Hl. done.
Qed.

Lemma table_leaf_cell_rowid_at : table_leaf_cell_rowid page off = Ok (fst r).
Proof.
  destruct read_size_at as [G1 R1]. destruct read_rowid_at as [G2 R2].
  unfold table_leaf_cell_rowid, tail_or. rewrite G1. cbn [ok_or mbind outcome_bind]. rewrite R1.
  cbn [ok_or mbind outcome_bind]. unfold sub_from. rewrite G2. cbn [expect mbind outcome_bind]. by rewrite R2.
Qed.

Lemma cell_on_page_size_at : cell_on_page_size page off us = Ok (zlen (cell_bytes us r g)).
Proof.
  destruct read_size_at as [G1 R1]. destruct read_rowid_at as [G2 R2].
  pose proof (leaf_split_ok us (snd r) Hus) as Hs. pose proof (zlen_cell_head r Hr) as Hh.
  unfold cell_on_page_size, tail_or. rewrite G1. cbn [ok_or mbind outcome_bind]. rewrite R1.
  cbn [ok_or mbind outcome_bind]. rewrite G2. cbn [ok_or mbind outcome_bind]. rewrite R2.
  cbn [ok_or mbind outcome_bind].
  assert (chk_sub us 35 = Ok (us - 35)) as -> by (unfold chk_sub; destruct (Z.ltb_spec us 35); [lia|done]).
  cbn [mbind outcome_bind]. unfold cell_bytes, cell_tail.
  destruct (leaf_split us (snd r)) as [ll ho]. cbn [fst snd] in *. destruct Hs as (-> & ? & ? & ?).
  cbn [mbind outcome_bind]. f_equal. destruct ho; len_lia.
Qed.

End InPlace.

(** ** Chains *)

(** [im'] shows the pages [l] as [im] does. *)
Definition same_on (l : list Z) (im im' : Image) : Prop :=
  im_count im <= im_count im' /\ forall x, x ∈ l -> im_page im' x = im_page im x.

Lemma same_on_refl l im : same_on l im im.
Proof. by split. Qed.
Lemma same_on_trans l a b c : same_on l a b -> same_on l b c -> same_on l a c.
Proof. intros [? Hab] [? Hbc]. split; [lia|]. intros x Hx. by rewrite Hbc, Hab. Qed.
Lemma same_on_subset l l' im im' : same_on l im im' -> (forall x, x ∈ l' -> x ∈ l) -> same_on l' im im'.
Proof. intros [? Hp] Hs. split; [done|]. intros x Hx. by apply Hp, Hs. Qed.
Lemma same_on_set l im g b : g ∉ l -> same_on l im (im_set g b im).
Proof.
  intros Hg. split; [done|]. intros x Hx. cbn. destruct (Z.eqb_spec x g) as [->|]; done.
Qed.
Lemma same_on_grow l ps c im : Forall (page_ok (im_count im)) l -> im_count im <= c ->
  same_on l im (im_grow ps c im).
Proof.
  intros Hl Hc. split; [done|]. intros x Hx. cbn. rewrite Forall_forall in Hl.
  destruct (Hl x Hx). by destruct (Z.leb_spec x (im_count im)); [|lia].
Qed.

Lemma chain_rep_frame im im' us ov : forall g data,
  same_on ov im im' -> chain_rep im us g data ov -> chain_rep im' us g data ov.
Proof.
  induction ov as [|x ov IH]; intros g data [Hc Hp] Hch; [done|].
  destruct Hch as (-> & [Hg1 Hg2] & Hd & next & rest & Hn & Hpg & Hch).
  split; [done|]. split; [split; lia|]. split; [done|]. exists next, rest.
  split; [done|]. split; [rewrite Hp by apply list_elem_of_here; done|].
  apply IH; [|done]. eapply same_on_subset; [by split|]. intros y Hy. by apply list_elem_of_further.
Qed.
Lemma cell_rep_frame im im' us c r ov : same_on ov im im' -> cell_rep im us c r ov -> cell_rep im' us c r ov.
Proof.
  intros Hs (g & Hc & Hr & Hg & Hov). exists g. split_and!; [done|]. split_and!; [done|done|].
  destruct (snd (leaf_split _ _)); [|done]. by eapply chain_rep_frame.
Qed.
Lemma chain_rep_pages im us ov : forall g data, chain_rep im us g data ov -> Forall (page_ok (im_count im)) ov.
Proof.
  induction ov as [|x ov IH]; intros g data Hch; [constructor|].
  destruct Hch as (-> & Hg & _ & next & rest & _ & _ & Hch). constructor; [done|]. by eapply IH.
Qed.
Lemma cell_rep_pages im us c r ov : cell_rep im us c r ov -> Forall (page_ok (im_count im)) ov.
Proof.
  intros (g & Hc & Hr & Hg & Hov). destruct (snd (leaf_split _ _)); [by eapply chain_rep_pages|].
  subst. constructor.
Qed.
Lemma chain_rep_len im us ov : 4 < us -> forall g data, chain_rep im us g data ov ->
  Z.of_nat (length ov) * (us - 4) <= zlen data + (us - 4) - 1 /\ (data <> [] -> ov <> []).
Proof.
  intros Hus. induction ov as [|x ov IH]; intros g data Hch.
  - destruct Hch as [_ ->]. change (zlen (@nil Z)) with 0. cbn [length]. split; [lia|done].
  - destruct Hch as (-> & _ & Hd & next & rest & _ & _ & Hch). apply IH in Hch as [Hl Hne].
    split; [|done]. rewrite zlen_zdrop in Hl. cbn [length].
    destruct (decide (zdrop (us - 4) data = [])) as [He|He].
    + assert (ov = []) as ->; [|cbn; destruct data; [done|rewrite zlen_cons; pose proof (zlen_nonneg data); lia]].
      pose proof (f_equal zlen He) as Hz. rewrite zlen_zdrop in Hz. change (zlen (@nil Z)) with 0 in Hz.
      destruct ov; [done|]. cbn [length] in Hl. nia.
    + assert (0 < zlen (zdrop (us - 4) data)).
      { destruct (zdrop (us - 4) data) as [|? l]; [done|]. rewrite zlen_cons. pose proof (zlen_nonneg l). lia. }
      rewrite zlen_zdrop in *. lia.
Qed.

Section Chains.
Context {E F : Type} `{VfsOps E F} {ps us : Z}.
Notation State := (Pager F * (Proc * E))%type.

Lemma assemble_loop_run {view : Image -> State -> Prop} {dead} `{!PageReader ps us view dead} im ov :
  forall fuel s g data pre next,
  view im s -> chain_rep im us g data ov -> (length ov < fuel)%nat -> (data <> [] -> next = Some g) ->
  run (assemble_loop fuel (zlen pre + zlen data) pre next) s
    (fun b s' => b = pre ++ data /\ view im s') dead.
Proof.
  destruct rd_sizes as [Hps Hus].
  induction ov as [|x ov IH]; intros fuel s g data pre next V Hch Hf Hn;
    (destruct fuel as [|fuel]; [cbn in Hf; lia|]); cbn [assemble_loop].
  - destruct Hch as [_ ->]. change (zlen (@nil Z)) with 0. rewrite Z.add_0_r, Z.ltb_irrefl, app_nil_r. by apply run_ret.
  - destruct Hch as (-> & Hg & Hd & nx & rest & Hnx & Hpg & Hch). rewrite (Hn Hd).
    assert (0 < zlen data) as Hpos by (destruct data as [|? l]; [done|rewrite zlen_cons; pose proof (zlen_nonneg l); lia]).
    destruct (Z.ltb_spec (zlen pre) (zlen pre + zlen data)); [|lia]. destruct Hg as [Hg1 Hg2].
    destruct (Z.eqb_spec g 0); [lia|]. apply run_bind.
    eapply run_mono; [by apply rd_get| |done]. intros b s1 [-> V1].
    apply run_bind. eapply run_lift.
    { rewrite Hpg. unfold be_at. rewrite sub_range_in by len_lia. cbn [mbind outcome_bind].
      rewrite zslice_app_l by len_lia. unfold zslice. rewrite zdrop_0, ztake_all by len_lia.
      by apply be_uint_bytes. }
    apply run_bind. destruct s1 as [q r]. apply run_gets. destruct (rd_params _ _ V1) as [_ Hu]. cbn in Hu. rewrite Hu.
    apply run_bind. eapply run_lift; [unfold chk_sub; destruct (Z.ltb_spec us 4); [lia|reflexivity]|].
    replace (zlen pre + zlen data - zlen pre) with (zlen data) by lia.
    assert (zlen (im_page im g) = ps) as Hlen by (apply (rd_len _ _ g V1); by split).
    assert (4 + Z.min (zlen data) (us - 4) <= zlen (im_page im g)) as Hfit by (rewrite Hpg; len_lia).
    destruct (Z.gtb_spec (4 + Z.min (zlen data) (us - 4)) (zlen (im_page im g))); [lia|].
    apply run_bind. eapply run_lift.
    { rewrite sub_range_in by lia. reflexivity. }
    assert (zslice 4 (4 + Z.min (zlen data) (us - 4)) (im_page im g) = ztake (us - 4) data) as ->.
    { rewrite Hpg, zslice_app_r by len_lia. rewrite zlen_be_bytes. change (Z.of_nat 4) with 4.
      replace (4 + Z.min (zlen data) (us - 4) - 4) with (Z.min (zlen data) (us - 4)) by lia.
      rewrite zslice_app_l by len_lia. unfold zslice. rewrite zdrop_0 by lia. apply ztake_all. len_lia. }
    replace (zlen pre + zlen data) with (zlen (pre ++ ztake (us - 4) data) + zlen (zdrop (us - 4) data)) by len_lia.
    eapply run_mono; [eapply (IH fuel (q, r) nx (zdrop (us - 4) data)); [done|done|cbn in Hf; lia|]| |done].
    + intros Hd'. destruct (chain_rep_len im us ov ltac:(lia) _ _ Hch) as [_ Hne].
      destruct ov as [|y ov]; [by destruct Hne|]. destruct Hch as (_ & [? _] & _).
      destruct (Z.eqb_spec nx 0); [lia|done].
    + intros b s' [-> V']. split; [|done]. by rewrite <- app_assoc, ztake_zdrop_id.
Qed.

(** The reader of a cell's payload. *)
Lemma assemble_payload_run {view : Image -> State -> Prop} {dead} `{!PageReader ps us view dead} im s r g ov :
  view im s -> payload_at im us r g ov ->
  run (assemble_payload (parsed_cell us r g)) s (fun b s' => b = snd r /\ view im s') dead.
Proof.
  intros V ((_ & _ & Hlen) & Hg & Hov). destruct rd_sizes as [Hps Hus].
  pose proof (leaf_split_ok us (snd r) ltac:(lia)) as Hs.
  unfold assemble_payload, assemble, parsed_cell. cbn [tl_payload_size tl_local tl_overflow].
  destruct (Z.geb_spec (zlen (snd r)) (2 ^ 63)); [lia|].
  apply run_bind. destruct s as [q pe]. apply run_gets. destruct (rd_params _ _ V) as [_ Hu]. cbn in Hu.
  rewrite Hu. destruct (leaf_split us (snd r)) as [ll ho] eqn:Els. cbn [fst snd] in *.
  destruct Hs as (_ & Hll & _ & Hho). set (local := ztake ll (snd r)).
  assert (zlen (snd r) = zlen local + zlen (zdrop ll (snd r))) as Hz by (unfold local; len_lia).
  apply run_bind.
  assert (exists ov', chain_rep im us (if ho then g else 0) (zdrop ll (snd r)) ov') as [ov' Hch].
  { destruct ho; [by exists ov|]. exists []. split; [done|]. apply zdrop_all. lia. }
  destruct (chain_rep_len im us ov' ltac:(lia) _ _ Hch) as [Hl _].
  pose proof (fun fuel => assemble_loop_run im ov' fuel (q, pe) _ _ local (if ho then Some g else None) V Hch) as HL.
  rewrite <- Hz in HL. eapply run_mono; [apply HL| |done].
  - rewrite zlen_zdrop in Hl.
    assert (Z.of_nat (length ov') <= zlen (snd r) / (us - 4) + 1); [|lia].
    assert (Z.of_nat (length ov') - 1 <= zlen (snd r) / (us - 4)); [|lia].
    apply Z.div_le_lower_bound; lia.
  - intros Hd. destruct ho; [done|]. destruct Hd. apply zdrop_all. lia.
  - intros b s' [-> V']. unfold local. rewrite ztake_zdrop_id, Z.ltb_irrefl. apply run_ret.
    split; [|done]. apply ztake_all. lia.
Qed.

(** ** Building a cell *)

(** From [im] to [im'] no page of [im] outside [M] changed. *)
Definition only_changes (M : gset Z) (im im' : Image) : Prop :=
  im_count im <= im_count im' /\
  forall x, page_ok (im_count im) x -> x ∉ M -> im_page im' x = im_page im x.

Lemma only_changes_refl M im : only_changes M im im.
Proof. by split. Qed.
Lemma changes_trans M M' a b c :
  only_changes M a b -> only_changes M' b c -> only_changes (M ∪ M') a c.
Proof.
  intros [Hc Hp] [Hc' Hp']. split; [lia|]. intros x [Hx1 Hx2] Hn. rewrite Hp', Hp; [done|done|set_solver|split; lia|set_solver].
Qed.
Lemma only_changes_mono M M' a b : only_changes M a b ->
  (forall x, x ∈ M -> page_ok (im_count a) x -> x ∈ M') -> only_changes M' a b.
Proof. intros [Hc Hp] Hs. split; [done|]. intros x Hx Hn. apply Hp; [done|]. intros Hm. by apply Hn, Hs. Qed.
Lemma only_changes_set g b im : only_changes {[g]} im (im_set g b im).
Proof. split; [done|]. intros x _ Hx. cbn. destruct (Z.eqb_spec x g); [set_solver|done]. Qed.
Lemma only_changes_grow c im : im_count im <= c -> only_changes ∅ im (im_grow ps c im).
Proof. intros Hc. split; [done|]. intros x [_ Hx] _. cbn. by destruct (Z.leb_spec x (im_count im)); [|lia]. Qed.
Lemma only_changes_same_on M im im' l : only_changes M im im' -> Forall (page_ok (im_count im)) l ->
  (forall x, x ∈ l -> x ∉ M) -> same_on l im im'.
Proof.
  intros [Hc Hp] Hl Hd. split; [done|]. intros x Hx. rewrite Forall_forall in Hl. apply Hp; auto.
Qed.

Lemma run_unwrap {S A} (m : M S A) (s : S) ok (err : S -> Prop) :
  run m s ok (fun _ => False) -> run (unwrap m) s ok err.
Proof. unfold run, unwrap. by destruct (m s) as [[?|?|] ?]. Qed.

Section Build.
Context {view : Image -> gset Z -> State -> Prop} {dead : State -> Prop} `{!PageWriter ps us view dead}.

Lemma writer_sizes : 512 <= ps <= 65536 /\ 480 <= us <= ps.
Proof. apply (rd_sizes (PageReader:=wr_reader ∅)). Qed.
Lemma writer_gets im W q r : view im W (q, r) ->
  pg_page_size q = ps /\ pg_usable_size q = us /\ auto_vacuum q = false /\ 0 <= im_count im < 2 ^ 32.
Proof.
  intros V. destruct (rd_params (PageReader:=wr_reader W) _ _ V) as [? ?].
  destruct (rd_count (PageReader:=wr_reader W) _ _ V) as [? _].
  split_and!; try done; [by apply (wr_plain _ _ _ V)|lia..].
Qed.

(** The page of a chain, as the loop writes it. *)
Definition chain_page (next : Z) (data : bytes) : bytes :=
  splice 4 data (splice 0 (be_bytes 4 next) (zrep ps 0)).
Lemma chain_page_len next data : 4 + zlen data <= ps -> zlen (chain_page next data) = ps.
Proof.
  intros Hl. pose proof (zlen_nonneg data). unfold chain_page. rewrite zlen_splice; rewrite ?zlen_splice; len_lia.
Qed.
Lemma chain_page_eq next data : 4 + zlen data <= ps ->
  exists rest, chain_page next data = be_bytes 4 next ++ data ++ rest.
Proof.
  intros Hl. pose proof (zlen_nonneg data). exists (zdrop (4 + zlen data) (zrep ps 0)).
  unfold chain_page, splice.
  rewrite (ztake_0 0) by lia. cbn [app]. change (0 + zlen (be_bytes 4 next)) with 4.
  rewrite ztake_app_le by len_lia. rewrite ztake_all by len_lia.
  rewrite zdrop_app_ge by len_lia. rewrite zlen_be_bytes, zdrop_zdrop by lia. do 3 f_equal. lia.
Qed.

Lemma overflow_loop_run (tail : bytes) (put : Z -> Z -> PagerM unit) :
  (forall a b, put a b = mret tt) ->
  forall fuel s im W offset curr,
  view im W s -> curr ∈ W -> page_ok (im_count im) curr -> 0 <= offset < zlen tail ->
  zlen tail - offset <= Z.of_nat fuel * (us - 4) ->
  im_count im + 3 * Z.of_nat fuel + 4 < 2 ^ 32 - 4 ->
  run (overflow_loop fuel tail (us - 4) offset curr put) s
    (fun _ s' => exists im' W' ov, view im' W' s' /\ W ⊆ W' /\ only_changes {[curr]} im im' /\
       chain_rep im' us curr (zdrop offset tail) (curr :: ov) /\
       Forall (fun x => im_count im < x) ov /\ NoDup ov /\
       im_count im' <= im_count im + 3 * Z.of_nat fuel) dead.
Proof.
  intros Hput. destruct writer_sizes as [Hps Hus].
  induction fuel as [|fuel IH]; intros s im W offset curr V Hcw Hc Ho Hf Hb; [lia|].
  cbn [overflow_loop]. set (tk := Z.min (zlen tail - offset) (us - 4)).
  assert (zslice offset (offset + tk) tail = ztake (us - 4) (zdrop offset tail)) as Hsl.
  { unfold zslice. replace (offset + tk - offset) with tk by lia. unfold tk.
    destruct (Z.min_spec (zlen tail - offset) (us - 4)) as [[? ->]|[? ->]]; [|done].
    rewrite !ztake_all by len_lia. done. }
  assert (zlen (ztake (us - 4) (zdrop offset tail)) = tk) as Htk by (unfold tk; len_lia).
  assert (forall next s1 im1 W1, view im1 W1 s1 -> curr ∈ W1 ->
    forall (k : PagerM unit) Q,
    (forall s2, view (im_set curr (chain_page next (ztake (us - 4) (zdrop offset tail))) im1) W1 s2 -> run k s2 Q dead) ->
    run (page_size ← gets pg_page_size; let buf := zrep page_size 0 in
         buf ← lift (copy_into buf 0 (be_bytes 4 next));
         s ← lift (sub_range tail offset (offset + tk));
         buf ← lift (copy_into buf 4 s);
         unwrap (write_page curr buf) ;; k) s1 Q dead) as Hwrite.
  { intros next [q r] im1 W1 V1 Hcw1 k Q Hk. apply run_bind, run_gets.
    destruct (writer_gets _ _ _ _ V1) as (-> & _). cbn zeta.
    apply run_bind. eapply run_lift; [apply copy_into_in; len_lia|].
    apply run_bind. eapply run_lift; [apply sub_range_in; lia|]. rewrite Hsl.
    apply run_bind. eapply run_lift; [apply copy_into_in; rewrite ?zlen_splice; len_lia|].
    apply run_bind, run_unwrap. eapply run_mono; [apply (wr_write im1 W1 _ curr); [done|done|]| |done].
    - apply chain_page_len. lia.
    - intros [] s2 V2. by apply Hk. }
  destruct (Z.eqb_spec (offset + tk) (zlen tail)) as [Hlast|Hmore].
  - apply run_bind, run_ret. apply (Hwrite 0 s im W V Hcw). intros s2 V2. apply run_ret.
    destruct (chain_page_eq 0 (ztake (us - 4) (zdrop offset tail))) as (rest & Heq); [lia|].
    eexists _, W, []. split_and!; [exact V2|done|apply only_changes_set| |constructor|constructor|cbn; lia].
    cbn [chain_rep]. split_and!; [done|done| |].
    { intros He. apply (f_equal zlen) in He. rewrite zlen_zdrop in He. change (zlen (@nil Z)) with 0 in He. lia. }
    exists 0, rest. split; [unfold is_u32; lia|]. cbn. rewrite Z.eqb_refl. split; [done|]. split; [done|].
    apply zdrop_all. len_lia.
  - apply run_bind. eapply run_mono; [apply (wr_allocate im W s V); lia| |done].
    intros next s1 [Hnext V1]. apply (Hwrite next s1 _ _ V1 ltac:(set_solver)). intros s2 V2.
    rewrite Hput. apply run_bind, run_ret.
    destruct (chain_page_eq next (ztake (us - 4) (zdrop offset tail))) as (rest & Heq); [lia|].
    set (im2 := im_set curr _ _) in V2. assert (im_count im2 = next) as Hc2 by done.
    destruct (rd_count (PageReader:=wr_reader _) _ _ V2) as [Hc32 _].
    eapply run_mono; [apply (IH s2 im2 ({[next]} ∪ W) (offset + tk) next V2)| |done].
    + set_solver.
    + rewrite Hc2. split; destruct Hc; lia.
    + lia.
    + lia.
    + lia.
    + intros [] s3 (im3 & W3 & ov & V3 & HW & Hch & Hrep & Hnew & Hnd & Hcnt).
      assert (only_changes {[curr]} im im2) as H2.
      { eapply only_changes_mono; [eapply changes_trans; [apply only_changes_grow|apply only_changes_set]|].
        - lia.
        - intros x Hx _. set_solver. }
      exists im3, W3, (next :: ov). split_and!; [done|set_solver| | | | |lia].
      * eapply only_changes_mono; [eapply changes_trans; [exact H2|exact Hch]|].
        intros x Hx [_ Hx2]. assert (x <> next) by lia. set_solver.
      * cbn [chain_rep]. split_and!; [done| | |].
        { destruct Hch as [? _], Hc. split; lia. }
        { intros He. apply (f_equal zlen) in He. rewrite zlen_zdrop in He. change (zlen (@nil Z)) with 0 in He. lia. }
        exists next, rest. split; [unfold is_u32; destruct Hc; lia|]. split.
        { destruct Hch as [_ Hp]. rewrite Hp; [|split; destruct Hc; lia|destruct Hc; set_solver by lia].
          cbn. rewrite Z.eqb_refl. exact Heq. }
        rewrite zdrop_zdrop by lia.
        replace (us - 4 + offset) with (offset + tk); [done|]. unfold tk in *. lia.
      * constructor; [lia|]. eapply Forall_impl; [exact Hnew|]. cbn. lia.
      * constructor; [|done]. intros Hin. rewrite Forall_forall in Hnew. specialize (Hnew _ Hin). cbn in Hnew. lia.
Qed.

Lemma spill_run tail s im W host :
  view im W s -> tail <> [] -> im_count im + 3 * (zlen tail / (us - 4) + 2) + 4 < 2 ^ 32 - 4 ->
  run (spill tail us host true) s
    (fun g s' => exists im' W' ov, view im' W' s' /\ W ⊆ W' /\ only_changes ∅ im im' /\ is_u32 g /\
       chain_rep im' us g tail ov /\ Forall (fun x => im_count im < x) ov /\ NoDup ov /\
       im_count im' <= im_count im + 3 * (zlen tail / (us - 4) + 2)) dead.
Proof.
  intros V Ht Hb. destruct writer_sizes as [Hps Hus]. unfold spill.
  assert (0 < zlen tail) as Hpos by (destruct tail as [|? l]; [done|rewrite zlen_cons; pose proof (zlen_nonneg l); lia]).
  assert (0 <= zlen tail / (us - 4)) as Hq by (apply Z.div_pos; lia).
  apply run_bind. eapply run_lift; [unfold chk_sub; destruct (Z.ltb_spec us 4); [lia|reflexivity]|].
  apply run_bind. eapply run_mono; [apply (wr_allocate im W s V); lia| |done].
  intros g [q pe] [Hg V1]. apply run_bind, run_gets. destruct (writer_gets _ _ _ _ V1) as (_ & _ & -> & Hc32).
  assert (record_ptr true false g Overflow1 host = mret tt :> PagerM (E:=E) (F:=F) unit) as -> by done.
  pose proof (rd_count (PageReader:=wr_reader W) _ _ V) as [Hc0 _].
  apply run_bind, run_ret. apply run_bind.
  eapply run_mono; [apply (overflow_loop_run tail _ ltac:(done) _ _ _ _ 0 g V1)| |done].
  - set_solver.
  - cbn. split; lia.
  - lia.
  - rewrite Z2Nat.id by lia. pose proof (Z.div_mod (zlen tail) (us - 4)).
    pose proof (Z.mod_pos_bound (zlen tail) (us - 4)). lia.
  - cbn. rewrite Z2Nat.id by lia. lia.
  - cbn [im_count im_grow]. intros [] s2 (im2 & W2 & ov & V2 & HW & Hch & Hrep & Hnew & Hnd & Hcnt).
    apply run_ret. rewrite Z2Nat.id in Hcnt by lia. exists im2, W2, (g :: ov).
    split_and!; [done|set_solver| |unfold is_u32; cbn in Hc32; lia| | | |lia].
    + eapply only_changes_mono; [eapply changes_trans; [apply (only_changes_grow g im)|exact Hch]|]; [lia|].
      intros x Hx [_ ?]. set_solver by lia.
    + by rewrite zdrop_0 in Hrep by lia.
    + constructor; [lia|]. eapply Forall_impl; [exact Hnew|]. cbn. lia.
    + constructor; [|done]. intros Hin. rewrite Forall_forall in Hnew. specialize (Hnew _ Hin). cbn in Hnew. lia.
Qed.

Lemma cell_room_pos payload : 0 < cell_room us payload.
Proof.
  destruct writer_sizes as [_ Hus]. unfold cell_room. pose proof (zlen_nonneg payload).
  assert (0 <= zlen payload / (us - 4)) by (apply Z.div_pos; lia). lia.
Qed.

Lemma build_table_leaf_cell_run r s im W :
  view im W s -> row_ok r -> im_count im + cell_room us (snd r) + 4 < 2 ^ 32 - 4 ->
  run (build_table_leaf_cell (fst r) (snd r) us) s
    (fun c s' => exists im' W' ov, view im' W' s' /\ W ⊆ W' /\ only_changes ∅ im im' /\
       cell_rep im' us c r ov /\ Forall (fun x => im_count im < x) ov /\ NoDup ov /\
       im_count im' <= im_count im + cell_room us (snd r)) dead.
Proof.
  intros V Hr Hb. destruct writer_sizes as [Hps Hus]. pose proof (cell_room_pos (snd r)) as Hroom.
  pose proof (leaf_split_ok us (snd r) ltac:(lia)) as Hs.
  unfold build_table_leaf_cell, build_table_leaf_cell_with_host.
  apply run_bind. eapply run_lift; [unfold chk_sub; destruct (Z.ltb_spec us 35); [lia|reflexivity]|].
  destruct (leaf_split us (snd r)) as [ll ho] eqn:Els. destruct Hs as (Hll & Hb1 & Hb2 & Hho).
  apply run_bind. eapply run_lift; [exact Hll|]. unfold finish_cell.
  apply run_bind. eapply run_lift; [apply sub_range_in; lia|].
  assert (zslice 0 ll (snd r) = ztake ll (snd r)) as -> by (unfold zslice; by rewrite zdrop_0, Z.sub_0_r by lia).
  fold (cell_head r). destruct ho.
  - apply run_bind. eapply run_lift; [unfold sub_from; by rewrite get_from_in by lia|].
    apply run_bind. unfold cell_room in *.
    assert (zlen (zdrop ll (snd r)) / (us - 4) <= zlen (snd r) / (us - 4)) by (apply Z.div_le_mono; len_lia).
    eapply run_mono; [apply (spill_run (zdrop ll (snd r)) s im W None V)| |done].
    + intros He. apply (f_equal zlen) in He. rewrite zlen_zdrop in He. change (zlen (@nil Z)) with 0 in He. lia.
    + lia.
    + intros g s2 (im2 & W2 & ov & V2 & HW & Hch & Hg & Hrep & Hnew & Hnd & Hcnt). apply run_ret.
      exists im2, W2, ov. split_and!; try done; [|lia]. exists g. split.
      { unfold cell_bytes, cell_tail. rewrite Els. cbn [fst snd]. by rewrite <- app_assoc. }
      split_and!; [done|done|]. rewrite Els. done.
  - apply run_ret. exists im, W, []. split_and!; [done|done|apply only_changes_refl| |constructor|constructor|lia].
    exists 0. split.
    { unfold cell_bytes, cell_tail. rewrite Els. cbn [fst snd]. by rewrite app_nil_r. }
    split_and!; [done|unfold is_u32; lia|]. by rewrite Els.
Qed.
End Build.
End Chains.
