(* ===== verification/TableTree.v ===== *)
(** * What a table b-tree stores

    [table_at]: the pages of an image form a table b-tree with given rows, in
    ascending order of rowid, each interior cell bounding the rows of its child.
    The scan of [btree/cursor.rs] returns those rows. *)

From S2P Require Import Prelude Varint DbHeader Vfs Wal Ptrmap BtreePage Pager Cell Balance BtreeInsert TableCursor Autovac PagerTxn.
From S2P Require Import Disk Recovery Atomic Transaction Store TableCell.
From Stdlib Require Import Sorted.
#[local] Open Scope Z_scope.

(** ** Cells in place *)

Lemma zget_mid {A} (l1 : list A) x l2 : zget (l1 ++ x :: l2) (zlen l1) = Some x.
Proof. rewrite zget_app_r by lia. by rewrite Z.sub_diag. Qed.

(** The header a b-tree page is read with. *)
Definition header_for (page : bytes) (h : Z) (ty : PageType) (n : Z) (hdr : PageHeader) : Prop :=
  parse page h = Ok hdr /\ page_type hdr = ty /\ num_cells hdr = n.

Lemma page_rep_header page h ty ccs cells : page_rep page h ty ccs cells ->
  exists hdr, header_for page h ty (zlen cells) hdr.
Proof.
  intros R. destruct (page_rep_parse _ _ _ _ _ R) as (hdr & Hp & Ht & Hn & _). by exists hdr.
Qed.

Lemma parse_right_most page h hdr rm : parse page h = Ok hdr -> is_leaf (page_type hdr) = false ->
  be_u32 page (h + 8) = Ok rm -> right_most_pointer hdr = Some rm.
Proof.
  unfold parse. intros Hp Hl Hrm. destruct (zlen page <? h + 8); [done|].
  destruct (idx page h) as [b| |]; [|done..]. cbn [mbind outcome_bind] in Hp.
  destruct (from_byte b) as [ty| |]; [|done..]. cbn [mbind outcome_bind] in Hp.
  destruct (be_u16 page (h + 5)) as [raw| |]; [|done..]. cbn [mbind outcome_bind] in Hp.
  destruct (is_leaf ty) eqn:El; cbn [mbind outcome_bind] in Hp.
  - destruct (be_u16 page (h + 1)); [|done..]. destruct (be_u16 page (h + 3)); [|done..].
    destruct (idx page (h + 7)); [|done..]. injection Hp as <-. cbn in Hl. congruence.
  - destruct (zlen page <? h + 12); [done|]. rewrite Hrm in Hp. cbn [mbind outcome_bind] in Hp.
    destruct (be_u16 page (h + 1)); [|done..]. destruct (be_u16 page (h + 3)); [|done..].
    destruct (idx page (h + 7)); [|done..]. by injection Hp as <-.
Qed.

(** A leaf cell, as every reader of it sees it. *)
Definition leaf_cell_at (page : bytes) (us off : Z) (r : row) (g : Z) : Prop :=
  parse_table_leaf_cell page off us = Ok (parsed_cell us r g) /\
  table_leaf_cell_rowid page off = Ok (fst r) /\
  cell_on_page_size page off us = Ok (zlen (cell_bytes us r g)) /\
  leaf_cell_size page us off = Ok (zlen (cell_bytes us r g)) /\
  sub_range page off (off + zlen (cell_bytes us r g)) = Ok (cell_bytes us r g).

Lemma leaf_cell_size_at page off us r g : bytes_ok page -> 480 <= us -> row_ok r -> is_u32 g ->
  0 <= off -> off + zlen (cell_bytes us r g) <= zlen page ->
  zslice off (off + zlen (cell_bytes us r g)) page = cell_bytes us r g ->
  leaf_cell_size page us off = Ok (zlen (cell_bytes us r g)).
Proof.
  intros Hb Hus Hr Hg Ho He Hc.
  destruct (read_size_at page off us r g Hb Hr Ho He Hc) as [G1 R1].
  destruct (read_rowid_at page off us r g Hb Hr Ho He Hc) as [G2 R2].
  pose proof (leaf_split_ok us (snd r) Hus) as Hs. pose proof (zlen_cell_head r Hr) as Hh.
  unfold leaf_cell_size, cell_total_size, read_payload_size, tail_or.
  rewrite G1. cbn [ok_or mbind outcome_bind]. rewrite R1. cbn [ok_or mbind outcome_bind].
  rewrite G2. cbn [ok_or mbind outcome_bind]. rewrite R2. cbn [ok_or mbind outcome_bind].
  assert (chk_sub us 35 = Ok (us - 35)) as -> by (unfold chk_sub; destruct (Z.ltb_spec us 35); [lia|done]).
  cbn [mbind outcome_bind]. unfold cell_bytes, cell_tail.
  destruct (leaf_split us (snd r)) as [ll ho]. cbn [fst snd] in *. destruct Hs as (-> & ? & ? & Hho).
  cbn [mbind outcome_bind]. f_equal. destruct ho.
  - destruct (Z.ltb_spec ll (zlen (snd r))); [|lia]. len_lia.
  - destruct (Z.ltb_spec ll (zlen (snd r))); [lia|]. len_lia.
Qed.

Lemma leaf_cell_read page h ccs us cells hdr i r g :
  page_rep page h LeafTable ccs cells -> parse page h = Ok hdr -> 480 <= us ->
  zget cells i = Some (cell_bytes us r g) -> row_ok r -> is_u32 g ->
  exists off, cell_pointer hdr page i = Ok off /\ leaf_cell_at page us off r g.
Proof.
  intros R Hp Hus Hi Hr Hg.
  destruct (page_rep_cell_pointer _ _ _ _ _ _ _ _ R Hp Hi) as (off & Hcp & Hlo & Hhi & Hsl).
  pose proof (pr_room _ _ _ _ _ R) as [Hroom _]. pose proof (pr_base _ _ _ _ _ R).
  pose proof (pr_bytes _ _ _ _ _ R) as Hb. pose proof (zlen_nonneg cells).
  assert (0 <= off) by (unfold hdr_size in Hroom; cbn in Hroom; lia).
  exists off. split; [done|]. split_and!.
  - by apply parse_table_leaf_cell_at.
  - by eapply table_leaf_cell_rowid_at.
  - by apply cell_on_page_size_at.
  - by apply leaf_cell_size_at.
  - rewrite sub_range_in by (pose proof (zlen_nonneg (cell_bytes us r g)); lia). by rewrite Hsl.
Qed.

Definition child_cell (ck : Z * Z) : bytes := build_table_interior_cell (fst ck) (snd ck).
Definition child_ok (ck : Z * Z) : Prop := is_u32 (fst ck) /\ is_i64 (snd ck).

Lemma child_cell_len ck : child_ok ck -> zlen (child_cell ck) = 4 + varint_len (u64 (snd ck)).
Proof.
  intros _. unfold child_cell, build_table_interior_cell. rewrite zlen_app, zlen_be_bytes.
  rewrite zlen_varint_bytes; [done|]. unfold is_u64, u64. apply Z.mod_pos_bound. lia.
Qed.
Lemma child_cell_bounds ck : child_ok ck -> 5 <= zlen (child_cell ck) <= 13.
Proof.
  intros Hc. rewrite child_cell_len by done.
  pose proof (varint_len_range (u64 (snd ck)) ltac:(unfold is_u64, u64; apply Z.mod_pos_bound; lia)). lia.
Qed.
Lemma child_cell_ok ck : bytes_ok (child_cell ck).
Proof. unfold child_cell, build_table_interior_cell. apply Forall_app; auto with bytes. Qed.

Lemma child_cell_read page h ccs cells hdr i ck :
  page_rep page h InteriorTable ccs cells -> parse page h = Ok hdr ->
  zget cells i = Some (child_cell ck) -> child_ok ck ->
  exists off, cell_pointer hdr page i = Ok off /\
    parse_table_interior_cell page off = Ok (mkTableInteriorCell (fst ck) (snd ck)).
Proof.
  intros R Hp Hi Hck. pose proof Hck as [Hc Hk].
  destruct (page_rep_cell_pointer _ _ _ _ _ _ _ _ R Hp Hi) as (off & Hcp & Hlo & Hhi & Hsl).
  pose proof (pr_room _ _ _ _ _ R) as [Hroom _]. pose proof (pr_base _ _ _ _ _ R).
  pose proof (pr_bytes _ _ _ _ _ R) as Hb. pose proof (zlen_nonneg cells).
  assert (0 <= off) by (unfold hdr_size in Hroom; cbn in Hroom; lia).
  pose proof (child_cell_len ck Hck) as Hl. pose proof (child_cell_bounds ck Hck).
  exists off. split; [done|]. unfold parse_table_interior_cell, slice.
  rewrite sub_range_in by lia.
  assert (zdrop off page = child_cell ck ++ zdrop (off + zlen (child_cell ck)) page) as Hd.
  { rewrite <- Hsl at 1. unfold zslice.
    rewrite <- (ztake_zdrop_id (zlen (child_cell ck)) (zdrop off page)) at 1.
    rewrite zdrop_zdrop by lia. f_equal; [f_equal; lia|f_equal; lia]. }
  assert (zslice off (off + 4) page = be_bytes 4 (fst ck)) as ->.
  { unfold zslice. rewrite Hd. unfold child_cell, build_table_interior_cell.
    rewrite <- app_assoc, ztake_app_le by len_lia. apply ztake_all. len_lia. }
  cbn [mbind outcome_bind]. rewrite be_uint_bytes by done. cbn [mbind outcome_bind].
  unfold sub_from. rewrite get_from_in by lia. cbn [expect mbind outcome_bind].
  replace (off + 4) with (4 + off) by lia. rewrite <- zdrop_zdrop by lia. rewrite Hd.
  unfold child_cell at 1, build_table_interior_cell. rewrite <- app_assoc.
  rewrite zdrop_app_ge by len_lia. rewrite zlen_be_bytes, Z.sub_diag, zdrop_0 by lia.
  unfold read_varint_i64. rewrite read_varint_app; [|unfold is_u64, u64; apply Z.mod_pos_bound; lia|auto with bytes].
  cbn. by rewrite i64_u64.
Qed.

(** ** Loops over the cells of a page *)

Lemma seqZ_step {A} (l1 : list A) x l2 :
  seqZ (zlen l1) (zlen (x :: l2)) = zlen l1 :: seqZ (zlen (l1 ++ [x])) (zlen l2).
Proof.
  rewrite seqZ_cons by (rewrite zlen_cons; pose proof (zlen_nonneg l2); lia). f_equal.
  rewrite zlen_app, zlen_cons. change (zlen (@nil A)) with 0. f_equal; rewrite ?zlen_cons; lia.
Qed.
Lemma seqZ_nil_len {A} k : seqZ k (zlen (@nil A)) = [].
Proof. done. Qed.

Lemma run_mfoldl {S A B} (xs : list A) (f : B -> Z -> M S B) (I : list A -> B -> S -> Prop) b s err :
  I [] b s ->
  (forall l1 x l2 b' s', xs = l1 ++ x :: l2 -> I l1 b' s' -> run (f b' (zlen l1)) s' (I (l1 ++ [x])) err) ->
  run (mfoldl f b (seqZ 0 (zlen xs))) s (I xs) err.
Proof.
  intros H0 Hstep.
  cut (forall l2 l1 b' s', xs = l1 ++ l2 -> I l1 b' s' ->
         run (mfoldl f b' (seqZ (zlen l1) (zlen l2))) s' (I xs) err).
  { intros Hc. by apply (Hc xs []). }
  induction l2 as [|x l2 IH]; intros l1 b' s' Hx HI.
  - rewrite app_nil_r in Hx. by subst l1.
  - rewrite seqZ_step. cbn [mfoldl]. apply run_bind.
    eapply run_mono; [by apply Hstep with (l2 := l2)| |done].
    intros b'' s'' HI'. apply IH; [by rewrite <- app_assoc|done].
Qed.

Lemma mapM_seq {A B} (xs : list A) (f : Z -> outcome B) (ys : list B) k :
  Forall2 (fun ix y => f ix = Ok y) (seqZ k (zlen xs)) ys -> mapM f (seqZ k (zlen xs)) = Ok ys.
Proof.
  generalize (seqZ k (zlen xs)). intros l. revert ys.
  induction l as [|i l IH]; intros ys HF; inversion HF as [|? y ? ys' Hy HF']; subst; [done|].
  cbn. rewrite Hy. cbn. by rewrite (IH ys').
Qed.

(** ** Trees *)

Definition sorted_rows (rows : list row) : Prop := StronglySorted (fun a b : row => fst a < fst b) rows.
Definition between (lo hi : Z) (r : row) : Prop := lo < fst r <= hi.

(** The children [ch], each with the largest rowid it may hold, then the
    right-most child [rm]. *)
Fixpoint kids (P : Z -> Z -> Z -> list Z -> list row -> Prop) (lo : Z) (ch : list (Z * Z)) (rm hi : Z)
    (pgs : list Z) (rows : list row) : Prop :=
  match ch with
  | [] => P rm lo hi pgs rows
  | (c, k) :: ch' => lo <= k <= hi /\ exists p1 p2 r1 r2, pgs = p1 ++ p2 /\ rows = r1 ++ r2 /\
      P c lo k p1 r1 /\ kids P k ch' rm hi p2 r2
  end.

(** The page [g] is a leaf with the rows [rows], whose overflow pages are
    [ovs]; its cells do not overlap. *)
Definition leaf_at (im : Image) (us g : Z) (rows : list row) (ovs : list (list Z)) : Prop :=
  exists ccs cells, page_rep (im_page im g) (btree_header_offset g) LeafTable ccs cells /\
    ccs + total_len cells <= zlen (im_page im g) /\ Forall3 (cell_rep im us) cells rows ovs.
(** The page [g] is an interior page. *)
Definition node_at (im : Image) (g : Z) (ch : list (Z * Z)) (rm : Z) : Prop :=
  exists ccs, page_rep (im_page im g) (btree_header_offset g) InteriorTable ccs (child_cell <$> ch) /\
    be_u32 (im_page im g) (btree_header_offset g + 8) = Ok rm /\ Forall child_ok ch.

(** The subtree of height at most [d] at page [g] uses the pages [pgs], and its
    rows [rows] have rowids above [lo] and up to [hi]. *)
Fixpoint table_at (im : Image) (us : Z) (d : nat) (g lo hi : Z) (pgs : list Z) (rows : list row) : Prop :=
  page_ok (im_count im) g /\
  ((exists ovs, leaf_at im us g rows ovs /\ pgs = g :: mjoin ovs /\
      sorted_rows rows /\ Forall (between lo hi) rows) \/
   match d with
   | O => False
   | S d' => exists ch rm pgs', node_at im g ch rm /\ pgs = g :: pgs' /\
       kids (table_at im us d') lo ch rm hi pgs' rows
   end).

Definition I64_MIN : Z := - 2 ^ 63.
Definition I64_MAX : Z := 2 ^ 63 - 1.
(** The table b-tree at [root]. *)
Definition table_rep (im : Image) (us : Z) (d : nat) (root : Z) (pgs : list Z) (rows : list row) : Prop :=
  table_at im us d root (I64_MIN - 1) I64_MAX pgs rows /\ NoDup pgs.

(** *** Locality *)

Lemma cells_frame im im' us cells rows ovs : same_on (mjoin ovs) im im' ->
  Forall3 (cell_rep im us) cells rows ovs -> Forall3 (cell_rep im' us) cells rows ovs.
Proof.
  intros Hs HF. induction HF as [|c r ov cells' rows' ovs' Hc HF IH]; [constructor|]. cbn in Hs. constructor.
  - eapply cell_rep_frame; [|exact Hc]. eapply same_on_subset; [exact Hs|].
    intros x Hx. apply elem_of_app. by left.
  - apply IH. eapply same_on_subset; [exact Hs|]. intros x Hx. apply elem_of_app. by right.
Qed.
Lemma leaf_at_frame im im' us g rows ovs :
  same_on (g :: mjoin ovs) im im' -> leaf_at im us g rows ovs -> leaf_at im' us g rows ovs.
Proof.
  intros Hs (ccs & cells & R & Htot & HF). exists ccs, cells.
  rewrite (proj2 Hs) by apply list_elem_of_here. split_and!; [done|done|].
  eapply cells_frame; [|exact HF]. eapply same_on_subset; [exact Hs|]. intros x Hx. by apply list_elem_of_further.
Qed.
Lemma node_at_frame im im' g ch rm : same_on [g] im im' -> node_at im g ch rm -> node_at im' g ch rm.
Proof. intros [_ Hs] (ccs & R & Hrm & Hok). exists ccs. by rewrite Hs by apply list_elem_of_here. Qed.

Lemma kids_mono (P Q : Z -> Z -> Z -> list Z -> list row -> Prop) ch rm hi : forall lo pgs rows,
  (forall c lo' hi' p r, (forall x, x ∈ p -> x ∈ pgs) -> P c lo' hi' p r -> Q c lo' hi' p r) ->
  kids P lo ch rm hi pgs rows -> kids Q lo ch rm hi pgs rows.
Proof.
  induction ch as [|[c k] ch IH]; intros lo pgs rows HPQ; cbn [kids]; [by apply HPQ|].
  intros (Hk & p1 & p2 & r1 & r2 & -> & -> & HP & Hch). split; [done|]. exists p1, p2, r1, r2.
  split_and!; [done|done| |].
  - apply HPQ; [|done]. intros x Hx. apply elem_of_app. by left.
  - apply IH; [|done]. intros c' lo' hi' p r Hp. apply HPQ. intros x Hx. apply elem_of_app. right. by apply Hp.
Qed.

Lemma table_at_frame im im' us d : forall g lo hi pgs rows,
  same_on pgs im im' -> table_at im us d g lo hi pgs rows -> table_at im' us d g lo hi pgs rows.
Proof.
  induction d as [|d IH]; intros g lo hi pgs rows Hs [[Hg1 Hg2] Ht];
    (split; [destruct Hs; split; lia|]).
  - destruct Ht as [(ovs & Hl & -> & Hsort)|[]]. left. exists ovs. split; [by eapply leaf_at_frame|done].
  - destruct Ht as [(ovs & Hl & -> & Hsort)|(ch & rm & pgs' & Hn & -> & Hk)].
    + left. exists ovs. split; [by eapply leaf_at_frame|done].
    + right. exists ch, rm, pgs'. split; [|split; [done|]].
      * eapply node_at_frame; [|done]. eapply same_on_subset; [done|].
        intros x ->%list_elem_of_singleton. apply list_elem_of_here.
      * eapply kids_mono; [|exact Hk]. intros c lo' hi' p r Hp. apply IH.
        eapply same_on_subset; [done|]. intros x Hx. apply list_elem_of_further. by apply Hp.
Qed.

Lemma table_at_mono im us d : forall d' g lo hi pgs rows, (d <= d')%nat ->
  table_at im us d g lo hi pgs rows -> table_at im us d' g lo hi pgs rows.
Proof.
  induction d as [|d IH]; intros d' g lo hi pgs rows Hd [Hg Ht].
  - destruct Ht as [Hl|[]]. destruct d'; (split; [done|by left]).
  - destruct d' as [|d']; [lia|]. split; [done|]. destruct Ht as [Hl|(ch & rm & pgs' & Hn & -> & Hk)]; [by left|].
    right. exists ch, rm, pgs'. split_and!; [done|done|]. eapply kids_mono; [|exact Hk].
    intros c lo' hi' p r _. apply IH. lia.
Qed.

(** *** Order *)

Lemma sorted_app (r1 r2 : list row) k lo hi : sorted_rows r1 -> sorted_rows r2 ->
  Forall (between lo k) r1 -> Forall (between k hi) r2 -> sorted_rows (r1 ++ r2).
Proof.
  intros H1 H2 F1 F2. induction r1 as [|a r1 IH]; [done|]. inversion H1; inversion F1; subst. constructor.
  - by apply IH.
  - apply Forall_app. split; [done|]. eapply Forall_impl; [exact F2|]. intros b [? ?].
    match goal with H : between _ _ a |- _ => destruct H end. lia.
Qed.
Lemma between_weaken lo lo' hi hi' rows : lo' <= lo -> hi <= hi' ->
  Forall (between lo hi) rows -> Forall (between lo' hi') rows.
Proof. intros ? ? HF. eapply Forall_impl; [exact HF|]. intros r [? ?]. split; lia. Qed.

Lemma kids_sorted (P : Z -> Z -> Z -> list Z -> list row -> Prop) ch rm hi :
  (forall c lo hi pgs rows, P c lo hi pgs rows -> sorted_rows rows /\ Forall (between lo hi) rows) ->
  forall lo pgs rows, kids P lo ch rm hi pgs rows -> sorted_rows rows /\ Forall (between lo hi) rows.
Proof.
  intros HP. induction ch as [|[c k] ch IH]; intros lo pgs rows; cbn [kids]; [apply HP|].
  intros (Hk & p1 & p2 & r1 & r2 & -> & -> & H1 & H2). apply HP in H1 as [S1 F1]. apply IH in H2 as [S2 F2].
  split; [by eapply sorted_app|]. apply Forall_app. split; eapply between_weaken; try eassumption; lia.
Qed.

Lemma table_at_sorted im us d : forall g lo hi pgs rows, table_at im us d g lo hi pgs rows ->
  sorted_rows rows /\ Forall (between lo hi) rows.
Proof.
  induction d as [|d IH]; intros g lo hi pgs rows [_ [(ovs & _ & _ & ? & ?)|Ht]]; try done.
  destruct Ht as (ch & rm & pgs' & _ & _ & Hk). by eapply kids_sorted.
Qed.

Lemma leaf_at_pages im us g rows ovs : leaf_at im us g rows ovs -> Forall (page_ok (im_count im)) (mjoin ovs).
Proof.
  intros (ccs & cells & _ & _ & HF). induction HF as [|c r ov cells' rows' ovs' Hc HF IH]; [constructor|].
  cbn. apply Forall_app. split; [by eapply cell_rep_pages|done].
Qed.
Lemma kids_pages (P : Z -> Z -> Z -> list Z -> list row -> Prop) (Q : Z -> Prop) ch rm hi :
  (forall c lo hi pgs rows, P c lo hi pgs rows -> Forall Q pgs) ->
  forall lo pgs rows, kids P lo ch rm hi pgs rows -> Forall Q pgs.
Proof.
  intros HP. induction ch as [|[c k] ch IH]; intros lo pgs rows; cbn [kids]; [apply HP|].
  intros (Hk & p1 & p2 & r1 & r2 & -> & -> & H1 & H2). apply Forall_app. eauto.
Qed.
Lemma table_at_pages im us d : forall g lo hi pgs rows, table_at im us d g lo hi pgs rows ->
  Forall (page_ok (im_count im)) pgs /\ g ∈ pgs.
Proof.
  induction d as [|d IH]; intros g lo hi pgs rows [Hg [(ovs & Hl & -> & _)|Ht]]; try done;
    try (split; [constructor; [done|by eapply leaf_at_pages]|apply list_elem_of_here]).
  destruct Ht as (ch & rm & pgs' & _ & -> & Hk). split; [|apply list_elem_of_here].
  constructor; [done|]. eapply kids_pages; [|exact Hk]. intros. by eapply IH.
Qed.

(** ** Scanning *)

Lemma fmap_mid {A B} (f : A -> B) (xs : list A) l1 y l2 : f <$> xs = l1 ++ y :: l2 ->
  exists l1' x l2', xs = l1' ++ x :: l2' /\ l1 = f <$> l1' /\ y = f x /\ l2 = f <$> l2'.
Proof.
  intros E. apply fmap_app_inv in E as (l1' & r & -> & E & ->).
  symmetry in E. apply fmap_cons_inv in E as (x & l2' & -> & -> & ->). by exists l1', x, l2'.
Qed.

Lemma Forall3_mid {A B C} (P : A -> B -> C -> Prop) l k l' l1 x l2 :
  Forall3 P l k l' -> l = l1 ++ x :: l2 ->
  exists k1 y k2 l1' z l2', k = k1 ++ y :: k2 /\ l' = l1' ++ z :: l2' /\ length k1 = length l1 /\
    Forall3 P l1 k1 l1' /\ P x y z /\ Forall3 P l2 k2 l2'.
Proof.
  intros HF E. rewrite E in HF. apply Forall3_app_inv_l in HF as (k1 & k2' & z1 & z2' & -> & -> & H1 & H2).
  inversion H2 as [|? y z ? k2 l2' Hxyz H3]; subst. exists k1, y, k2, z1, z, l2'.
  split_and!; try done. symmetry. by eapply Forall3_length_lm.
Qed.

Section Scan.
Context {E F : Type} `{VfsOps E F} {ps us : Z}.
Notation State := (Pager F * (Proc * E))%type.
Context {view : Image -> State -> Prop} {dead : State -> Prop} `{!PageReader ps us view dead}.

(** Reading a page and its header. *)
Lemma read_header_run {B} im s g ty ccs cells (k : bytes -> PageHeader -> PagerM (E:=E) (F:=F) B) ok :
  view im s -> page_ok (im_count im) g ->
  page_rep (im_page im g) (btree_header_offset g) ty ccs cells ->
  (forall hdr s', view im s' -> header_for (im_page im g) (btree_header_offset g) ty (zlen cells) hdr ->
     run (k (im_page im g) hdr) s' ok dead) ->
  run (page ← get_page g; hdr ← lift (header_of page g); k page hdr) s ok dead.
Proof.
  intros V Hg R Hk. apply run_bind. eapply run_mono; [by apply rd_get| |done]. intros b s' [-> V'].
  destruct (page_rep_header _ _ _ _ _ R) as (hdr & Hh). apply run_bind.
  eapply run_lift; [apply Hh|]. by apply Hk.
Qed.

Lemma scan_leaf_run im s g rows ovs hdr out : view im s ->
  leaf_at im us g rows ovs ->
  header_for (im_page im g) (btree_header_offset g) LeafTable (num_cells hdr) hdr ->
  run (mfoldl (visit_leaf_cell (im_page im g) hdr) out (seqZ 0 (num_cells hdr))) s
    (fun o s' => o = out ++ rows /\ view im s') dead.
Proof.
  intros V (ccs & cells & R & Htot & HF) (Hp & _ & _). destruct rd_sizes as [_ Hus].
  destruct (page_rep_parse _ _ _ _ _ R) as (hdr' & Hp' & _ & Hn & _). rewrite Hp in Hp'. injection Hp' as <-.
  rewrite Hn. eapply run_mono.
  - apply (run_mfoldl cells _ (fun l1 o s' => (exists k1 k2, rows = k1 ++ k2 /\ length k1 = length l1 /\ o = out ++ k1) /\ view im s')).
    + split; [|done]. exists [], rows. by rewrite app_nil_r.
    + intros l1 c l2 o s' Hc [(k1 & k2 & Hr & Hlen & ->) V'].
      destruct (Forall3_mid _ _ _ _ _ _ _ HF Hc) as (k1' & r & k2' & ? & ov & ? & Hr' & _ & Hlen' & _ & Hcell & _).
      destruct Hcell as (gp & Hcb & Hrow & Hgp & Hov).
      destruct (leaf_cell_read _ _ _ us _ hdr (zlen l1) r gp R Hp ltac:(lia)) as (off & Hcp & Hat & _);
        [rewrite Hc, <- Hcb; apply zget_mid|done|done|].
      unfold visit_leaf_cell. apply run_bind. eapply run_lift; [exact Hcp|].
      apply run_bind. destruct s' as [q pe]. apply run_gets. destruct (rd_params _ _ V') as [_ Hu].
      cbn in Hu. rewrite Hu. apply run_bind. eapply run_lift; [exact Hat|].
      apply run_bind. eapply run_mono; [by apply (assemble_payload_run im (q, pe) r gp ov)| |done].
      intros b s2 [-> V2]. apply run_ret. split; [|done].
      assert (k1 = k1') as <-.
      { rewrite Hr' in Hr. by apply app_inj_1 in Hr as [-> _]; [|congruence]. }
      exists (k1 ++ [r]), k2'. split_and!; [by rewrite <- app_assoc|rewrite !length_app; cbn; lia|].
      cbn. rewrite <- app_assoc. by destruct r.
  - intros o s' [(k1 & k2 & -> & Hlen & ->) V']. split; [|done].
    apply Forall3_length_lm in HF. rewrite length_app in HF.
    assert (k2 = []) as -> by (destruct k2; [done|cbn in HF; lia]). by rewrite app_nil_r.
  - done.
Qed.

Lemma scan_kids_run im page hdr ch rm hi (P : Z -> Z -> Z -> list Z -> list row -> Prop)
    (rec : Z -> list row -> PagerM (E:=E) (F:=F) (list row)) lo pgs rows ccs s out :
  page_rep page (base_offset hdr) InteriorTable ccs (child_cell <$> ch) -> parse page (base_offset hdr) = Ok hdr ->
  Forall child_ok ch -> view im s -> kids P lo ch rm hi pgs rows ->
  (forall c lo' hi' p r s' o, P c lo' hi' p r -> view im s' ->
     run (rec c o) s' (fun o' s'' => o' = o ++ r /\ view im s'') dead) ->
  run (out ← mfoldl (fun out i =>
          cell_off ← lift (cell_pointer hdr page i);
          cell ← lift (parse_table_interior_cell page cell_off);
          rec (ti_left_child cell) out) out (seqZ 0 (zlen (child_cell <$> ch)));
       rec rm out) s (fun o s' => o = out ++ rows /\ view im s') dead.
Proof.
  intros R Hp Hok V Hk Hrec. apply run_bind. eapply run_mono.
  - apply (run_mfoldl (child_cell <$> ch) _ (fun l1 o s' => (exists ch1 ch2 r1 r2 lo' pgs',
      ch = ch1 ++ ch2 /\ l1 = child_cell <$> ch1 /\ rows = r1 ++ r2 /\ o = out ++ r1 /\
      kids P lo' ch2 rm hi pgs' r2) /\ view im s')).
    + split; [|done]. exists [], ch, [], rows, lo, pgs. rewrite app_nil_r. by split_and!.
    + intros l1 c l2 o s' Hc [(ch1 & ch2 & r1 & r2 & lo' & pgs' & Hch & Hl1 & Hr & -> & Hk') V'].
      assert (exists ck ch2', ch2 = ck :: ch2' /\ c = child_cell ck) as (ck & ch2' & -> & ->).
      { rewrite Hch, fmap_app, <- Hl1 in Hc. apply app_inv_head in Hc.
        destruct ch2 as [|ck ch2']; [done|]. injection Hc as <- _. by exists ck, ch2'. }
      assert (child_ok ck) as Hck.
      { rewrite Hch in Hok. apply Forall_app in Hok as [_ Hok]. by inversion Hok. }
      destruct (child_cell_read _ _ _ _ hdr (zlen l1) ck R Hp) as (off & Hcp & Hpc);
        [rewrite Hc; apply zget_mid|done|].
      apply run_bind. eapply run_lift; [exact Hcp|]. apply run_bind. eapply run_lift; [exact Hpc|].
      destruct ck as [cc k]. cbn [kids fst snd ti_left_child] in *.
      destruct Hk' as (_ & p1 & p2 & r3 & r4 & -> & -> & HP & Hk').
      eapply run_mono; [by apply (Hrec cc lo' k p1 r3)| |done]. intros o' s2 [-> V2]. split; [|done].
      exists (ch1 ++ [(cc, k)]), ch2', (r1 ++ r3), r4, k, p2.
      split_and!; [by rewrite <- app_assoc|by rewrite fmap_app, Hl1|by rewrite <- app_assoc|by rewrite <- app_assoc|done].
  - intros o s' [(ch1 & ch2 & r1 & r2 & lo' & pgs' & Hch & Hl1 & -> & -> & Hk') V'].
    assert (ch2 = []) as ->.
    { apply (f_equal length) in Hl1. rewrite !length_fmap, Hch, length_app in Hl1.
      destruct ch2; [done|cbn in Hl1; lia]. }
    cbn in Hk'. eapply run_mono; [by eapply Hrec| |done]. intros o' s2 [-> V2].
    by rewrite <- app_assoc.
  - done.
Qed.

Lemma visit_run im d : forall fuel s g lo hi pgs rows out,
  view im s -> table_at im us d g lo hi pgs rows -> (d < fuel)%nat ->
  run (visit fuel g out) s (fun o s' => o = out ++ rows /\ view im s') dead.
Proof.
  induction d as [|d IH]; intros fuel s g lo hi pgs rows out V [Hg Ht] Hf;
    (destruct fuel as [|fuel]; [lia|]); cbn [visit];
    destruct Ht as [(ovs & Hl & _)|Ht]; try done.
  1,2: pose proof Hl as (ccs & cells & R & _); eapply read_header_run; [done|done|exact R|];
    intros hdr s' V' Hh; pose proof Hh as (_ & -> & Hn);
    rewrite <- Hn in Hh; by eapply scan_leaf_run.
  destruct Ht as (ch & rm & pgs' & (ccs & R & Hrm & Hok) & -> & Hk).
  eapply read_header_run; [done|done|exact R|]. intros hdr s' V' (Hp & Ht & Hn). rewrite Ht.
  destruct (page_rep_parse _ _ _ _ _ R) as (hdr' & Hp' & _ & _ & _ & Hb & _).
  rewrite Hp in Hp'. injection Hp' as <-. rewrite Hn.
  rewrite (parse_right_most _ _ _ rm Hp); [|by rewrite Ht|done].
  rewrite <- Hb in R, Hp.
  eapply (scan_kids_run im _ hdr ch rm hi _ (visit fuel)); try done.
  intros c lo' hi' p r s2 o HP V2. eapply IH; [done|done|lia].
Qed.

End Scan.
