(* ===== verification/TableInsert.v ===== *)
(** * Inserting into a table b-tree

    [table_insert] of [btree/insert.rs] against [table_at]: a row goes where its
    rowid says when its leaf has room, and an appended row goes last, whatever
    pages split on the way. *)

From S2P Require Import Prelude Varint DbHeader Vfs Wal Ptrmap BtreePage Pager Cell Balance BtreeInsert TableCursor Autovac PagerTxn.
From S2P Require Import Disk Recovery Atomic Transaction Store TableCell TableTree.
From Stdlib Require Import Sorted.
#[local] Open Scope Z_scope.

(** ** The specification on rows *)

Fixpoint insert_pos (x : Z) (rows : list row) : Z :=
  match rows with
  | [] => 0
  | a :: rows => if x <=? fst a then 0 else 1 + insert_pos x rows
  end.
Definition insert_row (r : row) (rows : list row) : list row := zinsert (insert_pos (fst r) rows) r rows.

Lemma insert_pos_range x rows : 0 <= insert_pos x rows <= zlen rows.
Proof.
  induction rows as [|a rows IH]; [done|]. cbn [insert_pos]. rewrite zlen_cons.
  destruct (x <=? fst a); lia.
Qed.
Lemma zinsert_cons {A} i (c a : A) l : 0 <= i -> zinsert (1 + i) c (a :: l) = a :: zinsert i c l.
Proof.
  intros Hi. unfold zinsert, ztake, zdrop. by replace (Z.to_nat (1 + i)) with (S (Z.to_nat i)) by lia.
Qed.
Lemma zinsert_0 {A} (c : A) l : zinsert 0 c l = c :: l.
Proof. done. Qed.
Lemma insert_row_cons r a rows :
  insert_row r (a :: rows) = if fst r <=? fst a then r :: a :: rows else a :: insert_row r rows.
Proof.
  unfold insert_row. cbn [insert_pos]. destruct (fst r <=? fst a); [done|].
  apply zinsert_cons. apply insert_pos_range.
Qed.
Lemma insert_row_middle r r1 rc r2 : Forall (fun a : row => fst a < fst r) r1 ->
  Forall (fun a : row => fst r < fst a) r2 ->
  insert_row r (r1 ++ rc ++ r2) = r1 ++ insert_row r rc ++ r2.
Proof.
  intros H1 H2. induction r1 as [|a r1 IH]; cbn [app].
  - induction rc as [|a rc IH]; cbn [app].
    + destruct r2 as [|b r2]; [done|]. inversion H2; subst. rewrite insert_row_cons.
      destruct (Z.leb_spec (fst r) (fst b)); [done|lia].
    + rewrite !insert_row_cons. destruct (fst r <=? fst a); [done|]. cbn [app]. by rewrite IH.
  - inversion H1; subst. rewrite insert_row_cons. destruct (Z.leb_spec (fst r) (fst a)); [lia|].
    by rewrite IH.
Qed.
Lemma insert_row_last r rows : Forall (fun a : row => fst a < fst r) rows -> insert_row r rows = rows ++ [r].
Proof.
  intros HF. pose proof (insert_row_middle r rows [] [] HF ltac:(constructor)) as E.
  by rewrite app_nil_r in E.
Qed.
Lemma insert_row_perm r rows : insert_row r rows ≡ₚ r :: rows.
Proof. unfold insert_row, zinsert. rewrite <- Permutation_middle. by rewrite ztake_zdrop_id. Qed.

Lemma insert_row_sorted r rows : sorted_rows rows -> Forall (fun a : row => fst a <> fst r) rows ->
  sorted_rows (insert_row r rows).
Proof.
  intros HS Hne. induction HS as [|a rows HS IH HF]; [by repeat constructor|].
  inversion Hne; subst. rewrite insert_row_cons. destruct (Z.leb_spec (fst r) (fst a)).
  - constructor; [by constructor|]. constructor; [lia|]. eapply Forall_impl; [exact HF|]. cbn. lia.
  - constructor; [by apply IH|]. rewrite insert_row_perm. constructor; [lia|done].
Qed.

(** ** Choosing a child *)

(** The children [ch] left of some point, the last of them bounded by [mid]. *)
Fixpoint lefts (P : Z -> Z -> Z -> list Z -> list row -> Prop) (hi lo : Z) (ch : list (Z * Z)) (mid : Z)
    (pgs : list Z) (rows : list row) : Prop :=
  match ch with
  | [] => mid = lo /\ pgs = [] /\ rows = []
  | (c, k) :: ch' => lo <= k <= hi /\ exists p1 p2 r1 r2, pgs = p1 ++ p2 /\ rows = r1 ++ r2 /\
      P c lo k p1 r1 /\ lefts P hi k ch' mid p2 r2
  end.

Lemma kids_app P ch1 ch2 rm hi : forall lo pgs rows,
  kids P lo (ch1 ++ ch2) rm hi pgs rows <->
  exists mid p1 p2 r1 r2, pgs = p1 ++ p2 /\ rows = r1 ++ r2 /\
    lefts P hi lo ch1 mid p1 r1 /\ kids P mid ch2 rm hi p2 r2.
Proof.
  induction ch1 as [|[c k] ch1 IH]; intros lo pgs rows; cbn [app kids lefts].
  - split.
    + intros HK. by exists lo, [], pgs, [], rows.
    + by intros (mid & p1 & p2 & r1 & r2 & -> & -> & (-> & -> & ->) & HK).
  - split.
    + intros (Hk & p1 & p2 & r1 & r2 & -> & -> & HP & HK).
      apply IH in HK as (mid & p3 & p4 & r3 & r4 & -> & -> & HL & HK).
      exists mid, (p1 ++ p3), p4, (r1 ++ r3), r4. rewrite <- !app_assoc.
      split; [done|]. split; [done|]. split; [|done]. split; [done|]. by exists p1, p3, r1, r3.
    + intros (mid & p1 & p2 & r1 & r2 & -> & -> & (Hk & p3 & p4 & r3 & r4 & -> & -> & HP & HL) & HK).
      split; [done|]. exists p3, (p4 ++ p2), r3, (r4 ++ r2).
      split_and!; [by rewrite app_assoc|by rewrite app_assoc|done|].
      apply IH. by exists mid, p4, p2, r4, r2.
Qed.

Lemma lefts_mono P Q hi ch : forall lo mid pgs rows,
  (forall c lo' hi' p r, (forall x, x ∈ p -> x ∈ pgs) -> P c lo' hi' p r -> Q c lo' hi' p r) ->
  lefts P hi lo ch mid pgs rows -> lefts Q hi lo ch mid pgs rows.
Proof.
  induction ch as [|[c k] ch IH]; intros lo mid pgs rows HPQ; cbn [lefts]; [done|].
  intros (Hk & p1 & p2 & r1 & r2 & -> & -> & HP & HL). split; [done|]. exists p1, p2, r1, r2.
  split_and!; [done|done| |].
  - apply HPQ; [|done]. intros x Hx. apply elem_of_app. by left.
  - apply IH; [|done]. intros c' lo' hi' p r Hp. apply HPQ. intros x Hx. apply elem_of_app. right. by apply Hp.
Qed.

Lemma lefts_bound P hi ch :
  (forall c lo hi pgs rows, P c lo hi pgs rows -> Forall (between lo hi) rows) ->
  forall lo mid pgs rows, lefts P hi lo ch mid pgs rows ->
  lo <= mid /\ Forall (fun r => fst r <= mid) rows /\ (ch <> [] -> mid <= hi) /\
  (forall x, Forall (fun ck => snd ck < x) ch -> lo < x -> mid < x).
Proof.
  intros HP. induction ch as [|[c k] ch IH]; intros lo mid pgs rows; cbn [lefts].
  - intros (-> & -> & ->). split_and!; [lia|constructor|done|by intros].
  - intros (Hk & p1 & p2 & r1 & r2 & -> & -> & H1 & HL).
    destruct (IH _ _ _ _ HL) as (Hm & HF & Hhi & Hx). split_and!; [lia| | |].
    + apply Forall_app. split; [|done]. eapply Forall_impl; [by eapply HP|]. intros r [? ?]. lia.
    + intros _. destruct ch as [|b ch]; [destruct HL as (-> & _); lia|by apply Hhi].
    + intros x HFx Hlo. inversion HFx; subst. cbn in *. by apply Hx.
Qed.

(** The child of [x]: the first whose bound reaches [x], else the right-most. *)
Fixpoint child_for (x : Z) (ch : list (Z * Z)) (rm : Z) : list (Z * Z) * Z * list (Z * Z) :=
  match ch with
  | [] => ([], rm, [])
  | (c, k) :: ch' =>
      if x <=? k then ([], c, ch)
      else let '(l, g, r) := child_for x ch' rm in ((c, k) :: l, g, r)
  end.

Lemma pick_child_eq page ccs hdr ch rm x :
  page_rep page (base_offset hdr) InteriorTable ccs (child_cell <$> ch) ->
  parse page (base_offset hdr) = Ok hdr -> Forall child_ok ch -> right_most_pointer hdr = Some rm ->
  num_cells hdr = zlen ch ->
  pick_child page hdr x = Ok (snd (fst (child_for x ch rm))).
Proof.
  intros R Hp Hok Hrm Hn. unfold pick_child. rewrite Hn.
  cut (forall ch2 ch1, ch = ch1 ++ ch2 ->
    pick_child_loop (seqZ (zlen ch1) (zlen ch2)) page hdr x = Ok (snd (fst (child_for x ch2 rm)))).
  { intros Hc. by apply (Hc ch []). }
  induction ch2 as [|[c k] ch2 IH]; intros ch1 Hch.
  - rewrite seqZ_nil_len. cbn [pick_child_loop]. by rewrite Hrm.
  - rewrite seqZ_step. cbn [pick_child_loop child_for].
    destruct (child_cell_read _ _ _ _ hdr (zlen ch1) (c, k) R Hp) as (off & Hcp & Hpc).
    { rewrite Hch, fmap_app. cbn. replace (zlen ch1) with (zlen (child_cell <$> ch1)) by (by rewrite zlen_fmap).
      apply zget_mid. }
    { rewrite Hch in Hok. apply Forall_app in Hok as [_ Hok]. by inversion Hok. }
    rewrite Hcp. cbn [mbind outcome_bind]. rewrite Hpc. cbn [mbind outcome_bind ti_rowid ti_left_child fst snd].
    destruct (x <=? k); [done|]. rewrite (IH (ch1 ++ [(c, k)])) by (by rewrite <- app_assoc).
    by destruct (child_for x ch2 rm) as [[? ?] ?].
Qed.

Lemma kids_between P ch rm hi :
  (forall c lo hi pgs rows, P c lo hi pgs rows -> Forall (between lo hi) rows) ->
  forall lo pgs rows, kids P lo ch rm hi pgs rows -> Forall (between lo hi) rows.
Proof.
  intros HP. induction ch as [|[c k] ch IH]; intros lo pgs rows; cbn [kids]; [apply HP|].
  intros (Hk & q1 & q2 & s1 & s2 & -> & -> & H1 & H2). apply Forall_app. split.
  - eapply between_weaken; [| |by eapply HP]; lia.
  - eapply between_weaken; [| |by eapply IH]; lia.
Qed.

(** The children split around the one of [x]. *)
Lemma child_for_spec P ch rm hi x : 
  (forall c lo hi pgs rows, P c lo hi pgs rows -> Forall (between lo hi) rows) ->
  forall lo pgs rows, kids P lo ch rm hi pgs rows -> lo < x <= hi ->
  let '(l, g, r) := child_for x ch rm in
  exists mid kx p1 pc p2 r1 rc r2, pgs = p1 ++ pc ++ p2 /\ rows = r1 ++ rc ++ r2 /\
    mid < x <= kx /\ P g mid kx pc rc /\
    Forall (fun a : row => fst a < x) r1 /\ Forall (fun a : row => x < fst a) r2 /\
    (forall Q pc' rc', (forall c lo' hi' p r, (forall y, y ∈ p -> y ∈ p1 ++ p2) -> P c lo' hi' p r -> Q c lo' hi' p r) ->
       Q g mid kx pc' rc' -> kids Q lo ch rm hi (p1 ++ pc' ++ p2) (r1 ++ rc' ++ r2)).
Proof.
  intros HP. induction ch as [|[c k] ch IH]; intros lo pgs rows; cbn [kids child_for].
  - intros HK Hx. exists lo, hi, [], pgs, [], [], rows, []. cbn [app]. rewrite !app_nil_r.
    split; [done|]. split; [done|]. split; [done|]. split; [done|]. split; [constructor|]. split; [constructor|].
    intros Q pc' rc' _ HQ. by rewrite !app_nil_r.
  - intros (Hk & p1 & p2 & r1 & r2 & -> & -> & H1 & HK) Hx. destruct (Z.leb_spec x k).
    + exists lo, k, [], p1, p2, [], r1, r2.
      split; [done|]. split; [done|]. split; [lia|]. split; [done|]. split; [constructor|]. split.
      * assert (Forall (between k hi) r2) as HF by (by eapply kids_between).
        eapply Forall_impl; [exact HF|]. intros a [? ?]. lia.
      * intros Q pc' rc' HPQ HQ. cbn [app]. split; [done|]. exists pc', p2, rc', r2.
        split; [done|]. split; [done|]. split; [done|].
        eapply kids_mono; [|exact HK]. intros c' lo' hi' p r Hp. by apply HPQ.
    + specialize (IH k p2 r2 HK ltac:(lia)). destruct (child_for x ch rm) as [[l g] r].
      destruct IH as (mid & kx & q1 & pc & q2 & s1 & rc & s2 & -> & -> & Hm & HPg & F1 & F2 & Hplug).
      exists mid, kx, (p1 ++ q1), pc, q2, (r1 ++ s1), rc, s2. rewrite <- !app_assoc.
      split; [done|]. split; [done|]. split; [lia|]. split; [done|]. split; [|split; [done|]].
      * apply Forall_app. split; [|done]. eapply Forall_impl; [by eapply HP|]. intros a [? ?]. lia.
      * intros Q pc' rc' HPQ HQ. split; [done|].
        exists p1, (q1 ++ pc' ++ q2), r1, (s1 ++ rc' ++ s2). split; [by rewrite <- app_assoc|]. split; [by rewrite <- app_assoc|]. split.
        -- apply HPQ; [|done]. intros y Hy. rewrite !elem_of_app. tauto.
        -- apply Hplug; [|done]. intros c' lo' hi' p r' Hp. apply HPQ. intros y Hy.
           apply Hp in Hy. rewrite !elem_of_app in *. tauto.
Qed.

(** ** Insertion in a leaf *)

Lemma insert_leaf_cell_fits page h ty ccs cells i cell :
  page_rep page h ty ccs cells -> is_leaf ty = true -> 0 <= i <= zlen cells -> 0 < zlen cell ->
  bytes_ok cell -> h + 8 + 2 * zlen cells + zlen cell + 2 <= ccs ->
  exists page', insert_leaf_cell page h i cell = Ok page' /\ zlen page' = zlen page /\
    page_rep page' h ty (ccs - zlen cell) (zinsert i cell cells).
Proof.
  intros R Hl Hi Hc Hb Hfit. pose proof (pr_room _ _ _ _ _ R) as [_ Hend].
  pose proof (pr_base _ _ _ _ _ R). pose proof (pr_size _ _ _ _ _ R).
  assert (hdr_size ty = 8) as Hhs by (unfold hdr_size; by rewrite Hl).
  rewrite (insert_leaf_cell_eq _ _ _ _ _ i cell R Hl).
  destruct (Z.gtb_spec i (zlen cells)); [lia|].
  destruct (Z.ltb_spec ccs (h + 8 + zlen cells * 2 + zlen cell + 2)); [lia|].
  exists (inserted 8 page h i (zlen cells) ccs cell).
  rewrite insert_body_run by lia. split; [done|].
  split; [apply zlen_inserted; lia|]. rewrite <- Hhs. apply inserted_rep; try done. rewrite Hhs. lia.
Qed.
Lemma insert_leaf_cell_no_room page h ty ccs cells i cell :
  page_rep page h ty ccs cells -> is_leaf ty = true -> 0 <= i <= zlen cells ->
  ccs < h + 8 + 2 * zlen cells + zlen cell + 2 -> insert_leaf_cell page h i cell = Err page_full_error.
Proof.
  intros R Hl Hi Hfit. rewrite (insert_leaf_cell_eq _ _ _ _ _ i cell R Hl).
  destruct (Z.gtb_spec i (zlen cells)); [lia|].
  by destruct (Z.ltb_spec ccs (h + 8 + zlen cells * 2 + zlen cell + 2)); [|lia].
Qed.

Lemma Forall3_zinsert {A B C} (P : A -> B -> C -> Prop) l k l' i x y z : 0 <= i ->
  Forall3 P l k l' -> P x y z -> Forall3 P (zinsert i x l) (zinsert i y k) (zinsert i z l').
Proof.
  intros Hi HF Hx. unfold zinsert, ztake, zdrop. generalize (Z.to_nat i) as n. clear Hi i.
  induction HF as [|a b c l k l' Ha HF IH]; intros n.
  - destruct n; cbn; by repeat constructor.
  - destruct n as [|n]; cbn; [by repeat constructor|]. constructor; [done|apply IH].
Qed.
Lemma mjoin_zinsert {A} i (x : list A) l : mjoin (zinsert i x l) ≡ₚ x ++ mjoin l.
Proof.
  unfold zinsert. rewrite <- (ztake_zdrop_id i l) at 3. generalize (ztake i l) (zdrop i l). intros a b.
  induction a as [|y a IH]; cbn; [done|].
  by rewrite IH, (app_assoc y x), (Permutation_app_comm y x), <- app_assoc.
Qed.

Lemma total_len_app l1 l2 : total_len (l1 ++ l2) = total_len l1 + total_len l2.
Proof. unfold total_len. induction l1 as [|c l1 IH]; cbn; lia. Qed.
Lemma total_len_zinsert i c l : total_len (zinsert i c l) = zlen c + total_len l.
Proof.
  unfold zinsert. rewrite total_len_app. change (total_len (c :: zdrop i l)) with (zlen c + total_len (zdrop i l)).
  rewrite <- (ztake_zdrop_id i l) at 3. rewrite total_len_app. lia.
Qed.
Lemma cell_bytes_pos us r g : row_ok r -> 0 < zlen (cell_bytes us r g).
Proof. intros Hr. pose proof (cell_head_bounds r Hr). unfold cell_bytes. len_lia. Qed.
Definition cell_size (us : Z) (r : row) : Z := zlen (cell_bytes us r 0).
Lemma cell_size_eq us r g : zlen (cell_bytes us r g) = cell_size us r.
Proof.
  unfold cell_size, cell_bytes, cell_tail. rewrite !zlen_app. by destruct (snd (leaf_split _ _)).
Qed.
Lemma cell_rep_size im us c r ov : cell_rep im us c r ov ->
  zlen c = cell_size us r /\ 0 < zlen c /\ bytes_ok c /\ row_ok r.
Proof.
  intros (g & -> & Hr & _). split_and!; [apply cell_size_eq|by apply cell_bytes_pos|by apply cell_bytes_ok|done].
Qed.

Lemma leaf_insert_index_eq im us g rows ovs hdr x : 480 <= us -> leaf_at im us g rows ovs ->
  parse (im_page im g) (btree_header_offset g) = Ok hdr ->
  leaf_insert_index (im_page im g) hdr x = Ok (insert_pos x rows).
Proof.
  intros Hus (ccs & cells & R & Htot & HF) Hp.
  destruct (page_rep_parse _ _ _ _ _ R) as (hdr' & Hp' & _ & Hn & _). rewrite Hp in Hp'. injection Hp' as <-.
  unfold leaf_insert_index. rewrite Hn.
  assert (forall cells2 cells1 rows2 ovs2, cells = cells1 ++ cells2 -> Forall3 (cell_rep im us) cells2 rows2 ovs2 ->
    leaf_insert_loop (seqZ (zlen cells1) (zlen cells2)) (im_page im g) hdr x =
      Ok (zlen cells1 + insert_pos x rows2)) as Hc.
  { induction cells2 as [|c cells2 IH]; intros cells1 rows2 ovs2 Hcs H2; inversion H2 as [|? r ov ? rows2' ovs2' Hr H2']; subst.
    - rewrite seqZ_nil_len. cbn [leaf_insert_loop insert_pos]. rewrite Hn, app_nil_r. f_equal. lia.
    - rewrite seqZ_step. cbn [leaf_insert_loop insert_pos]. destruct Hr as (gp & -> & Hrow & Hgp & _).
      destruct (leaf_cell_read _ _ _ us _ hdr (zlen cells1) r gp R Hp Hus (zget_mid _ _ _) Hrow Hgp)
        as (off & Hcp & _ & Hrid & _).
      rewrite Hcp. cbn [mbind outcome_bind]. rewrite Hrid. cbn [mbind outcome_bind].
      destruct (x <=? fst r); [f_equal; lia|].
      rewrite (IH (cells1 ++ [cell_bytes us r gp]) rows2' ovs2'); [|by rewrite <- app_assoc|done].
      f_equal. rewrite zlen_app, zlen_cons. change (zlen (@nil bytes)) with 0. lia. }
  apply (Hc cells [] rows ovs); done.
Qed.

Lemma Forall3_zlen {A B C} (P : A -> B -> C -> Prop) l k l' : Forall3 P l k l' ->
  zlen l = zlen k /\ zlen l = zlen l'.
Proof.
  intros HF. unfold zlen. apply Forall3_length_lm in HF as H1. apply Forall3_length_lr in HF as H2. lia.
Qed.

(** Putting a cell on a leaf that has room for it. *)
Lemma leaf_at_insert im us g rows ovs c r ov hdr : 480 <= us ->
  leaf_at im us g rows ovs -> parse (im_page im g) (btree_header_offset g) = Ok hdr ->
  cell_rep im us c r ov -> g ∉ ov -> g ∉ mjoin ovs ->
  forall free, leaf_free_space (im_page im g) (btree_header_offset g) = Ok free ->
  (if zlen c + 2 <=? free
   then exists page', insert_leaf_cell (im_page im g) (btree_header_offset g) (insert_pos (fst r) rows) c = Ok page' /\
          zlen page' = zlen (im_page im g) /\
          leaf_at (im_set g page' im) us g (insert_row r rows) (zinsert (insert_pos (fst r) rows) ov ovs)
   else insert_leaf_cell (im_page im g) (btree_header_offset g) (insert_pos (fst r) rows) c = Err page_full_error).
Proof.
  intros Hus Hl Hp Hc Hgo Hgs free Hfree. pose proof Hl as (ccs & cells & R & Htot & HF).
  destruct (Forall3_zlen _ _ _ _ HF) as [Hlr _]. pose proof (insert_pos_range (fst r) rows).
  destruct (cell_rep_size _ _ _ _ _ Hc) as (_ & Hpos & Hcb & _).
  pose proof (free_space_eq _ _ _ _ _ R) as Hfs. cbn [is_leaf] in Hfs. rewrite Hfree in Hfs. injection Hfs as Hfs.
  change (hdr_size LeafTable) with 8 in Hfs.
  destruct (Z.leb_spec (zlen c + 2) free) as [Hle|Hle].
  - destruct (insert_leaf_cell_fits _ _ LeafTable _ _ (insert_pos (fst r) rows) c R ltac:(done)) as (page' & Hi & Hlen & R');
      [lia|done|done|lia|].
    exists page'. split_and!; [done|done|]. eexists _, _. split.
    { cbn. rewrite Z.eqb_refl. exact R'. }
    split; [cbn; rewrite Z.eqb_refl, total_len_zinsert; lia|].
    apply Forall3_zinsert; [lia| |].
    + eapply cells_frame; [by apply same_on_set|done].
    + eapply cell_rep_frame; [by apply same_on_set|done].
  - eapply insert_leaf_cell_no_room; [done|done|lia|lia].
Qed.

(** ** Insertion when the leaf has room *)

(** The leaf a rowid belongs to, on an image. *)
Fixpoint leaf_for (im : Image) (d : nat) (g x : Z) : Z :=
  match parse (im_page im g) (btree_header_offset g) with
  | Ok hdr =>
      if is_leaf (page_type hdr) then g
      else match d with
           | O => g
           | S d' => match pick_child (im_page im g) hdr x with Ok c => leaf_for im d' c x | _ => g end
           end
  | _ => g
  end.
Definition leaf_room (im : Image) (d : nat) (root x : Z) : outcome Z :=
  leaf_free_space (im_page im (leaf_for im d root x)) (btree_header_offset (leaf_for im d root x)).

Lemma leaf_for_leaf im us d g x rows ovs : leaf_at im us g rows ovs -> leaf_for im d g x = g.
Proof.
  intros (ccs & cells & R & _). destruct (page_rep_parse _ _ _ _ _ R) as (hdr & Hp & Ht & _).
  destruct d; cbn [leaf_for]; rewrite Hp, Ht; done.
Qed.
Lemma node_pick im g ch rm x : node_at im g ch rm ->
  exists hdr, parse (im_page im g) (btree_header_offset g) = Ok hdr /\ page_type hdr = InteriorTable /\
    num_cells hdr = zlen ch /\ right_most_pointer hdr = Some rm /\ base_offset hdr = btree_header_offset g /\
    pick_child (im_page im g) hdr x = Ok (snd (fst (child_for x ch rm))).
Proof.
  intros (ccs & R & Hrm & Hok). destruct (page_rep_parse _ _ _ _ _ R) as (hdr & Hp & Ht & Hn & _ & Hb & _).
  rewrite zlen_fmap in Hn.
  assert (right_most_pointer hdr = Some rm) as Hr by (apply (parse_right_most _ _ _ rm Hp); [by rewrite Ht|done]).
  exists hdr. split_and!; try done. eapply pick_child_eq; try done; by rewrite Hb.
Qed.
Lemma leaf_for_node im d g ch rm x : node_at im g ch rm ->
  leaf_for im (S d) g x = leaf_for im d (snd (fst (child_for x ch rm))) x.
Proof.
  intros Hn. destruct (node_pick _ _ _ _ x Hn) as (hdr & Hp & Ht & _ & _ & _ & Hpick).
  cbn [leaf_for]. rewrite Hp, Ht. cbn [is_leaf]. by rewrite Hpick.
Qed.

Lemma same_on_disjoint M im im' pgs us d g lo hi rows :
  only_changes M im im' -> table_at im us d g lo hi pgs rows -> (forall x, x ∈ pgs -> x ∉ M) ->
  table_at im' us d g lo hi pgs rows.
Proof.
  intros Hc Ht Hd. eapply table_at_frame; [|exact Ht].
  eapply only_changes_same_on; [exact Hc| |done]. by apply table_at_pages in Ht as [? _].
Qed.

Lemma leaf_room_frame im im' us x d : forall g lo hi pgs rows, lo < x <= hi ->
  table_at im us d g lo hi pgs rows -> same_on pgs im im' -> leaf_room im' d g x = leaf_room im d g x.
Proof.
  induction d as [|d IH]; intros g lo hi pgs rows Hx [Hg Ht] Hs.
  1,2: destruct Ht as [(ovs & Hl & -> & _)|Ht]; [|try done].
  1,2: unfold leaf_room; rewrite (leaf_for_leaf _ _ _ _ _ _ _ Hl),
         (leaf_for_leaf im' us _ _ _ rows ovs) by (by eapply leaf_at_frame);
       destruct Hs as [_ Hs]; by rewrite Hs by apply list_elem_of_here.
  destruct Ht as (ch & rm & pgs0 & Hn & -> & HK).
  assert (node_at im' g ch rm) as Hn'.
  { eapply node_at_frame; [|done]. eapply same_on_subset; [done|].
    intros y ->%list_elem_of_singleton. apply list_elem_of_here. }
  unfold leaf_room. rewrite (leaf_for_node _ _ _ _ _ _ Hn), (leaf_for_node _ _ _ _ _ _ Hn').
  assert (forall c' lo' hi' p' r', table_at im us d c' lo' hi' p' r' -> Forall (between lo' hi') r') as Hbt
    by (intros ????? Ht; by apply table_at_sorted in Ht as [_ ?]).
  pose proof (child_for_spec (table_at im us d) ch rm hi x Hbt lo pgs0 rows HK Hx) as Hsp.
  destruct (child_for x ch rm) as [[lch g1] rch].
  destruct Hsp as (mid & kx & p1 & pc & p2 & r1 & rc & r2 & -> & -> & Hmx & Htc & _). cbn [fst snd].
  apply (IH g1 mid kx pc rc); [lia|done|]. eapply same_on_subset; [done|].
  intros y Hy. apply list_elem_of_further. rewrite !elem_of_app. auto.
Qed.

Section Insert.
Context {E F : Type} `{VfsOps E F} {ps us : Z}.
Notation State := (Pager F * (Proc * E))%type.
Context {view : Image -> gset Z -> State -> Prop} {dead : State -> Prop} `{!PageWriter ps us view dead}.

Lemma insert_fits_run r c ov d : forall fuel s g lo hi pgs rows path im W free,
  view im W s -> table_at im us d g lo hi pgs rows -> NoDup pgs -> cell_rep im us c r ov ->
  (forall x, x ∈ ov -> x ∉ pgs) -> lo < fst r <= hi -> Forall (fun a : row => fst a <> fst r) rows ->
  leaf_room im d g (fst r) = Ok free -> cell_size us r + 2 <= free -> (d < fuel)%nat ->
  run (insert_with_splitting fuel g (fst r) (fun _ => mret c) path) s
    (fun _ s' => exists im' W' pgs', view im' W' s' /\ table_at im' us d g lo hi pgs' (insert_row r rows) /\
       pgs' ≡ₚ ov ++ pgs /\ only_changes (list_to_set pgs) im im' /\ im_count im' = im_count im) dead.
Proof.
  destruct writer_sizes as [Hps Hus].
  induction d as [|d IH]; intros fuel s g lo hi pgs rows path im W free V [Hg Ht] Hnd Hc Hov Hx Hne Hroom Hfit Hf;
    (destruct fuel as [|fuel]; [lia|]); cbn [insert_with_splitting].
  1,2: destruct Ht as [(ovs & Hl & -> & Hsort & Hbt)|Ht]; [|try done].
  1,2: pose proof Hl as (ccs & cells & R & Htot & HF);
    eapply (read_header_run (PageReader0:=wr_reader W)); [done|done|exact R|];
    intros hdr s1 V1 (Hp & Hty & _); rewrite Hty;
    apply run_bind, run_ret, run_bind;
    (eapply run_lift; [apply (leaf_insert_index_eq im us g rows ovs hdr); [lia|done|done]|]);
    apply run_bind; (eapply run_mono; [by apply (wr_read im W s1 g)| |done]);
    intros b s2 [-> V2]; unfold leaf_room in Hroom; rewrite (leaf_for_leaf _ _ _ _ _ _ _ Hl) in Hroom;
    apply NoDup_cons in Hnd as [Hg' Hnd];
    assert (g ∉ ov) as Hgo by (intros Hin; apply (Hov g Hin), list_elem_of_here);
    pose proof (leaf_at_insert im us g rows ovs c r ov hdr ltac:(lia) Hl Hp Hc Hgo Hg' free Hroom) as Hins;
    destruct (cell_rep_size _ _ _ _ _ Hc) as (Hsz & _);
    (destruct (Z.leb_spec (zlen c + 2) free) as [_|]; [|lia]);
    destruct Hins as (page' & -> & Hlen & Hl');
    (eapply run_mono; [apply (wr_write im _ s2 g page' V2); [set_solver|rewrite Hlen; by eapply (rd_len (PageReader:=wr_reader W))]| |done]);
    intros [] s3 V3; eexists _, _, (g :: mjoin (zinsert (insert_pos (fst r) rows) ov ovs));
    (split; [exact V3|]); (split; [split; [done|]; left; eexists; split; [exact Hl'|]; split; [done|]; split;
       [by apply insert_row_sorted|rewrite insert_row_perm; by constructor]|]);
    (split; [rewrite mjoin_zinsert; by rewrite Permutation_middle|]);
    (split; [eapply only_changes_mono; [apply only_changes_set|set_solver]|done]).
  destruct Ht as (ch & rm & pgs0 & Hn & -> & HK).
  destruct (node_pick _ _ _ _ (fst r) Hn) as (hdr & Hp & Hty & Hnc & Hrm & Hb & Hpick).
  pose proof Hn as (ccs & R & _ & Hok).
  eapply (read_header_run (PageReader0:=wr_reader W)); [done|done|exact R|].
  intros hdr' s1 V1 (Hp' & _). rewrite Hp in Hp'. injection Hp' as <-. rewrite Hty.
  apply run_bind. eapply run_lift; [exact Hpick|].
  assert (forall c' lo' hi' p' r', table_at im us d c' lo' hi' p' r' -> Forall (between lo' hi') r') as Hbt
    by (intros ????? Ht; by apply table_at_sorted in Ht as [_ ?]).
  pose proof (child_for_spec (table_at im us d) ch rm hi (fst r) Hbt lo pgs0 rows HK Hx) as Hsp.
  unfold leaf_room in Hroom. rewrite (leaf_for_node _ _ _ _ _ _ Hn) in Hroom.
  destruct (child_for (fst r) ch rm) as [[lch g1] rch]. cbn [fst snd] in *.
  destruct Hsp as (mid & kx & p1 & pc & p2 & r1 & rc & r2 & -> & -> & Hmx & Htc & F1 & F2 & Hplug).
  apply NoDup_cons in Hnd as [Hg' Hnd].
  assert (NoDup pc) as Hndc by (apply NoDup_app in Hnd as (_ & _ & Hnd); by apply NoDup_app in Hnd as [? _]).
  assert (forall y, y ∈ p1 ++ p2 -> y ∉ pc) as Hdis.
  { apply NoDup_app in Hnd as (_ & Hd1 & Hnd). apply NoDup_app in Hnd as (_ & Hd2 & _).
    intros y Hy Hyc. apply elem_of_app in Hy as [Hy|Hy].
    - apply (Hd1 y Hy). apply elem_of_app. by left.
    - by apply (Hd2 y Hyc). }
  assert (forall y, y ∈ ov -> y ∉ pc) as Hovc.
  { intros y Hy Hyc. apply (Hov y Hy), list_elem_of_further. rewrite !elem_of_app. auto. }
  assert (Forall (fun a : row => fst a <> fst r) rc) as Hnec
    by (apply Forall_app in Hne as [_ Hne]; by apply Forall_app in Hne as [? _]).
  eapply run_mono; [apply (IH fuel s1 g1 mid kx pc rc (g :: path) im W free); (done || lia)| |done].
  - intros [] s2 (im2 & W2 & pc' & V2 & Ht2 & Hperm & Hch & Hcnt).
    exists im2, W2, (g :: p1 ++ pc' ++ p2).
    assert (forall y, y ∈ pc -> y ∈ g :: p1 ++ pc ++ p2) as Hin.
    { intros y Hy. apply list_elem_of_further. rewrite !elem_of_app. auto. }
    split; [done|]. split; [split; [by rewrite Hcnt|]; right; exists ch, rm, (p1 ++ pc' ++ p2)|split_and!].
    + split; [|split; [done|]].
      * eapply node_at_frame; [|done]. eapply only_changes_same_on; [exact Hch|by constructor|].
        intros y ->%list_elem_of_singleton. rewrite elem_of_list_to_set. intros Hgc. apply Hg'.
        rewrite !elem_of_app. auto.
      * rewrite insert_row_middle by done. apply Hplug; [|done].
        intros c' lo' hi' p r' Hp2 Ht'. eapply same_on_disjoint; [exact Hch|done|].
        intros y Hy. rewrite elem_of_list_to_set. by apply Hdis, Hp2.
    + rewrite Hperm. rewrite <- Permutation_middle. f_equiv.
      rewrite !app_assoc. f_equiv. rewrite <- !app_assoc. rewrite (app_assoc p1 ov), (Permutation_app_comm p1 ov).
      by rewrite <- app_assoc.
    + eapply only_changes_mono; [exact Hch|]. intros y. rewrite !elem_of_list_to_set. auto.
    + done.
Qed.

(** The cell is built first: its overflow pages are new. *)
Lemma build_then_run r s im W d root pgs rows (k : bytes -> PagerM (E:=E) (F:=F) unit) ok :
  view im W s -> row_ok r -> im_count im + cell_room us (snd r) + 4 < 2 ^ 32 - 4 ->
  table_rep im us d root pgs rows ->
  (forall c ov im1 W1 s1, view im1 W1 s1 -> cell_rep im1 us c r ov -> NoDup ov ->
     (forall x, x ∈ ov -> x ∉ pgs) -> Forall (fun x => im_count im < x) ov -> same_on pgs im im1 ->
     only_changes ∅ im im1 -> im_count im1 <= im_count im + cell_room us (snd r) ->
     table_rep im1 us d root pgs rows -> run (k c) s1 ok dead) ->
  run (c ← build_table_leaf_cell (fst r) (snd r) us; k c) s ok dead.
Proof.
  intros V Hr Hb [Ht Hnd] Hk. apply run_bind.
  eapply run_mono; [by apply (build_table_leaf_cell_run r s im W V Hr)| |done].
  intros c s1 (im1 & W1 & ov & V1 & _ & Hch & Hc & Hnew & Hndo & Hcnt).
  pose proof (table_at_pages _ _ _ _ _ _ _ _ Ht) as [Hok _].
  assert (same_on pgs im im1) as Hs by (eapply only_changes_same_on; [exact Hch|done|set_solver]).
  eapply Hk; try done.
  - intros x Hx Hp. rewrite Forall_forall in Hok, Hnew. destruct (Hok x Hp). specialize (Hnew x Hx). cbn in Hnew. lia.
  - split; [by eapply table_at_frame|done].
Qed.

Lemma table_insert_plain fuel root r s im W (Q : unit -> State -> Prop) : view im W s ->
  (forall s', view im W s' -> run (c ← build_table_leaf_cell (fst r) (snd r) us;
     insert_with_splitting fuel root (fst r) (fun _ => mret c) []) s' Q dead) ->
  run (table_insert fuel root (fst r) (snd r)) s Q dead.
Proof.
  intros V Hk. unfold table_insert. destruct s as [q pe]. destruct (writer_gets _ _ _ _ V) as (_ & Hu & Ha & _).
  apply run_bind, run_gets. rewrite Hu. apply run_bind, run_gets. unfold id. rewrite Ha. by apply Hk.
Qed.

Lemma between_all x : is_i64 x -> I64_MIN - 1 < x <= I64_MAX.
Proof. unfold is_i64, I64_MIN, I64_MAX. lia. Qed.

Lemma table_insert_fits_run r s im W d fuel root pgs rows free :
  view im W s -> table_rep im us d root pgs rows -> row_ok r ->
  Forall (fun a : row => fst a <> fst r) rows ->
  leaf_room im d root (fst r) = Ok free -> cell_size us r + 2 <= free ->
  im_count im + cell_room us (snd r) + 4 < 2 ^ 32 - 4 -> (d < fuel)%nat ->
  run (table_insert fuel root (fst r) (snd r)) s
    (fun _ s' => exists im' W' pgs', view im' W' s' /\ table_rep im' us d root pgs' (insert_row r rows) /\
       only_changes (list_to_set pgs) im im' /\ (forall x, x ∈ pgs' -> x ∈ pgs \/ im_count im < x)) dead.
Proof.
  intros V HT Hr Hne Hroom Hfit Hb Hf. apply (table_insert_plain _ _ _ _ _ _ _ V). intros s' V'.
  eapply build_then_run; [exact V'|done|done|exact HT|].
  intros c ov im1 W1 s1 V1 Hc Hndo Hdis Hnew Hs Hch1 Hcnt1 [Ht1 Hnd]. pose proof (between_all _ (proj1 Hr)) as Hx.
  eapply run_mono; [eapply (insert_fits_run r c ov d); try done|..].
  - erewrite leaf_room_frame; [exact Hroom|exact Hx|apply HT|done].
  - intros [] s2 (im2 & W2 & pgs' & V2 & Ht2 & Hperm & Hch & Hcnt).
    exists im2, W2, pgs'. split; [done|]. split; [split; [done|]|].
    { rewrite Hperm. apply NoDup_app. split_and!; [done|done|done]. }
    split.
    + eapply only_changes_mono; [eapply changes_trans; [exact Hch1|exact Hch]|]. set_solver.
    + intros x Hx'. rewrite Hperm in Hx'. apply elem_of_app in Hx' as [Hx'|Hx']; [right|by left].
      rewrite Forall_forall in Hnew. by apply Hnew.
  - done.
Qed.
End Insert.
