(* ===== verification/TableAppend.v ===== *)
(** * Appending to a table b-tree

    The splits of [btree/balance.rs]: a full leaf root becomes an interior page
    over two leaves, the right-most leaf of an interior page is split in two. A
    row above all others ends up last, whatever splits it takes. *)

From S2P Require Import Prelude Varint DbHeader Vfs Wal Ptrmap BtreePage Pager Cell Balance BtreeInsert TableCursor Autovac PagerTxn.
From S2P Require Import Disk Recovery Atomic Transaction Store TableCell TableTree TableInsert.
From stdpp Require sorting.
From Stdlib Require Import Sorted.
#[local] Open Scope Z_scope.

(** ** Splitting lists of cells *)

Lemma snd_enumerate cells : snd <$> enumerate_u16 cells = cells.
Proof.
  unfold enumerate_u16. rewrite fmap_imap. rewrite <- (list_fmap_id cells) at 2.
  rewrite <- (imap_const (A:=bytes)). apply imap_ext. done.
Qed.

Lemma split_loop_range target n cells : forall i left_size, 0 <= i ->
  let k := split_loop target i left_size n cells in k = n \/ (0 < k /\ i <= k < i + zlen cells).
Proof.
  induction cells as [|c cells IH]; intros i left_size Hi; cbn [split_loop]; [by left|].
  pose proof (zlen_nonneg cells). rewrite zlen_cons.
  destruct (left_size + zlen c + 2 >? target).
  - destruct (Z.gtb_spec i 0); [right; lia|].
    destruct (IH (i + 1) (left_size + zlen c + 2)) as [?|?]; [lia|by left|right; lia].
  - destruct (IH (i + 1) (left_size + zlen c + 2)) as [?|?]; [lia|by left|right; lia].
Qed.
Lemma split_point_range us cells : cells <> [] -> 1 <= split_point us cells <= zlen cells.
Proof.
  intros Hne. assert (0 < zlen cells) by (destruct cells as [|? l]; [done|rewrite zlen_cons; pose proof (zlen_nonneg l); lia]).
  unfold split_point. destruct (split_loop_range (us / 2) (zlen cells) cells 0 0); lia.
Qed.

Lemma total_len_one c : total_len [c] = zlen c.
Proof. unfold total_len. cbn. lia. Qed.
Lemma total_len_split k cells : total_len (ztake k cells) + total_len (zdrop k cells) = total_len cells.
Proof. rewrite <- total_len_app. by rewrite ztake_zdrop_id. Qed.

Lemma Forall3_split {A B C} (P : A -> B -> C -> Prop) n l k l' : Forall3 P l k l' ->
  Forall3 P (ztake n l) (ztake n k) (ztake n l') /\ Forall3 P (zdrop n l) (zdrop n k) (zdrop n l').
Proof.
  unfold ztake, zdrop. generalize (Z.to_nat n). clear n. intros n HF. revert n.
  induction HF as [|a b c l k l' Ha HF IH]; intros n; [destruct n; by repeat constructor|].
  destruct n as [|n]; cbn; [by repeat constructor|]. destruct (IH n). by repeat constructor.
Qed.
Lemma mjoin_split {A} n (l : list (list A)) : mjoin l = mjoin (ztake n l) ++ mjoin (zdrop n l).
Proof. rewrite <- (ztake_zdrop_id n l) at 1. by rewrite join_app. Qed.

(** The rows of the left half are up to its last rowid, the others above it. *)
Lemma sorted_split n (rows : list row) lo hi : 1 <= n <= zlen rows -> sorted_rows rows ->
  Forall (between lo hi) rows ->
  exists r, zget rows (n - 1) = Some r /\ lo <= fst r <= hi /\
    sorted_rows (ztake n rows) /\ sorted_rows (zdrop n rows) /\
    Forall (between lo (fst r)) (ztake n rows) /\ Forall (between (fst r) hi) (zdrop n rows).
Proof.
  intros Hn HS HF. destruct (zget_in rows (n - 1) ltac:(lia)) as [r Hr]. exists r. split; [done|].
  assert (between lo hi r) as [Hr1 Hr2] by (by eapply zget_Forall). split; [lia|].
  assert (rows = ztake (n - 1) rows ++ r :: zdrop n rows) as E.
  { rewrite <- (ztake_zdrop_id (n - 1) rows) at 1. f_equal. rewrite (zdrop_zget_cons rows (n - 1)) by lia.
    rewrite Hr. do 2 f_equal. lia. }
  assert (ztake n rows = ztake (n - 1) rows ++ [r]) as Et.
  { rewrite E at 1. rewrite ztake_app_ge by len_lia.
    replace (n - zlen (ztake (n - 1) rows)) with 1 by len_lia. done. }
  rewrite E in HS, HF. apply stdpp.sorting.StronglySorted_app in HS as (H12 & HS1 & HS2).
  apply Forall_app in HF as [HF1 HF2]. inversion HS2 as [|? ? HS3 Hrd]; inversion HF2 as [|? ? Hr' HF3]; subst.
  rewrite Et. split_and!.
  - apply stdpp.sorting.StronglySorted_app. split_and!; [|done|repeat constructor].
    intros a b Ha ->%list_elem_of_singleton. apply H12; [done|apply list_elem_of_here].
  - done.
  - apply Forall_app. split; [|repeat constructor; unfold between; lia]. rewrite Forall_forall in HF1 |- *.
    intros a Ha. destruct (HF1 a Ha). specialize (H12 a r Ha (list_elem_of_here _ _)). split; [lia|]. cbn in H12. lia.
  - rewrite Forall_forall in HF3, Hrd |- *. intros a Ha. destruct (HF3 a Ha). specialize (Hrd a Ha). cbn in Hrd. split; lia.
Qed.

(** ** Reading the cells of a leaf out of it *)

Lemma cells_of_leaf im us g cells rows ovs ccs hdr : 480 <= us ->
  page_rep (im_page im g) (btree_header_offset g) LeafTable ccs cells ->
  Forall3 (cell_rep im us) cells rows ovs -> parse (im_page im g) (btree_header_offset g) = Ok hdr ->
  cells_of (im_page im g) hdr (leaf_cell_size (im_page im g) us) = Ok cells.
Proof.
  intros Hus R HF Hp. destruct (page_rep_parse _ _ _ _ _ R) as (hdr' & Hp' & _ & Hn & _).
  rewrite Hp in Hp'. injection Hp' as <-. unfold cells_of. rewrite Hn. apply mapM_seq.
  cut (forall cells2 cells1 rows2 ovs2, cells = cells1 ++ cells2 -> Forall3 (cell_rep im us) cells2 rows2 ovs2 ->
    Forall2 (fun i y => (off ← cell_pointer hdr (im_page im g) i;
      n ← leaf_cell_size (im_page im g) us off; sub_range (im_page im g) off (off + n)) = Ok y)
      (seqZ (zlen cells1) (zlen cells2)) cells2).
  { intros Hc. by apply (Hc cells [] rows ovs). }
  induction cells2 as [|c cells2 IH]; intros cells1 rows2 ovs2 Hcs H2;
    inversion H2 as [|? r ov ? rows2' ovs2' Hr H2']; subst; [constructor|].
  rewrite seqZ_step. destruct Hr as (gp & -> & Hrow & Hgp & _).
  destruct (leaf_cell_read _ _ _ us _ hdr (zlen cells1) r gp R Hp Hus (zget_mid _ _ _) Hrow Hgp)
    as (off & Hcp & _ & _ & _ & Hsz & Hsub).
  constructor.
  - rewrite Hcp. cbn [mbind outcome_bind]. rewrite Hsz. cbn [mbind outcome_bind]. exact Hsub.
  - eapply IH; [|done]. by rewrite <- app_assoc.
Qed.

Lemma max_rowid_of_cell_eq us r g : 480 <= us -> row_ok r -> is_u32 g ->
  max_rowid_of_cell (cell_bytes us r g) = Ok (fst r).
Proof.
  intros Hus Hr Hg. unfold max_rowid_of_cell.
  rewrite (table_leaf_cell_rowid_at (cell_bytes us r g) 0 us r g); try done.
  - by apply cell_bytes_ok.
  - unfold zslice. rewrite zdrop_0 by lia. apply ztake_all. lia.
Qed.

(** A cell fits an empty leaf. *)
Lemma cell_size_bound us r : 480 <= us <= 65536 -> row_ok r -> cell_size us r <= us - 13.
Proof.
  intros [Hus Hmax] Hr. unfold cell_size, cell_bytes, cell_tail. pose proof (leaf_split_ok us (snd r) Hus) as Hs.
  destruct (row_ok_u64 r Hr) as [H1 H2]. pose proof (varint_len_range _ H1). pose proof (varint_len_range _ H2).
  pose proof (zlen_cell_head r Hr) as Hh.
  destruct (leaf_split us (snd r)) as [ll ho]. cbn [fst snd]. destruct Hs as (_ & ? & ? & Hho). destruct ho.
  - len_lia.
  - assert (varint_len (zlen (snd r)) <= 3) by (apply varint_len_le; [done|lia|intros _; lia]). len_lia.
Qed.

(** A subtree at [g] that holds [rows], in place of one whose pages were [old]. *)
Definition grown (im im' : Image) (us : Z) (d : nat) (g lo hi : Z) (old : list Z) (room : Z) (rows : list row) : Prop :=
  exists pgs, table_at im' us d g lo hi pgs rows /\ NoDup pgs /\
    (forall x, x ∈ pgs -> x ∈ old \/ im_count im < x) /\ im_count im' <= im_count im + room.

Section Append.
Context {E F : Type} `{VfsOps E F} {ps us : Z}.
Notation State := (Pager F * (Proc * E))%type.
Context {view : Image -> gset Z -> State -> Prop} {dead : State -> Prop} `{!PageWriter ps us view dead}.

Lemma header_offset_range g : 0 <= btree_header_offset g <= 100.
Proof. unfold btree_header_offset. destruct (g =? 1); lia. Qed.

Lemma write_fresh_run im W s g ty rm cells : view im W s -> g ∈ W -> rm_ok ty rm ->
  Forall (fun c => 0 < zlen c) cells -> Forall bytes_ok cells ->
  btree_header_offset g + hdr_size ty + 2 * zlen cells + total_len cells <= ps ->
  run (write_fresh g ty rm cells) s
    (fun _ s' => exists page, view (im_set g page im) W s' /\ zlen page = ps /\
       page_rep page (btree_header_offset g) ty (ps - total_len cells) cells /\
       (forall r, rm = Some r -> be_u32 page (btree_header_offset g + 8) = Ok r)) (fun _ => False).
Proof.
  intros V Hg Hrm Hne Hb Hfit. destruct (writer_sizes (view:=view) (dead:=dead)) as [Hps Hus]. destruct s as [q pe].
  pose proof (header_offset_range g). pose proof (zlen_nonneg cells). pose proof (total_len_nonneg cells).
  unfold write_fresh. apply run_bind, run_gets. destruct (writer_gets _ _ _ _ V) as (-> & _).
  destruct (write_page_cells_run (zrep ps 0) (btree_header_offset g) ty rm (enumerate_u16 cells))
    as (page & Hw & Hlen & R & _ & Hr); rewrite ?snd_enumerate, ?zlen_zrep in *; try done; try lia.
  { apply bytes_ok_zrep. unfold byte_ok. lia. }
  replace (Z.max 0 ps) with ps in * by lia.
  apply run_bind. eapply run_lift; [exact Hw|].
  eapply run_mono; [by apply (wr_write im W _ g page V)| |done]. intros [] s' V'. by exists page.
Qed.

Lemma leaf_cells_facts im cells rows ovs : Forall3 (cell_rep im us) cells rows ovs ->
  Forall (fun c => 0 < zlen c) cells /\ Forall bytes_ok cells.
Proof.
  induction 1 as [|c r ov l k l' Hc HF [IH1 IH2]]; [by split|].
  destruct (cell_rep_size _ _ _ _ _ Hc) as (_ & ? & ? & _). split; by constructor.
Qed.

Lemma write_leaf_run im W s g cells rows ovs : view im W s -> g ∈ W -> g ∉ mjoin ovs ->
  Forall3 (cell_rep im us) cells rows ovs ->
  btree_header_offset g + 8 + 2 * zlen cells + total_len cells <= ps ->
  run (write_fresh g LeafTable None cells) s
    (fun _ s' => exists page, view (im_set g page im) W s' /\ leaf_at (im_set g page im) us g rows ovs /\
       leaf_free_space page (btree_header_offset g) =
         Ok (ps - total_len cells - (btree_header_offset g + 8 + 2 * zlen cells))) (fun _ => False).
Proof.
  intros V Hg Hgo HF Hfit. destruct (leaf_cells_facts _ _ _ _ HF) as [Hne Hb].
  eapply run_mono; [apply (write_fresh_run im W s g LeafTable None cells V Hg); try done| |done].
  intros [] s' (page & V' & Hlen & R & _). exists page. split; [done|]. split.
  - exists (ps - total_len cells), cells. cbn. rewrite Z.eqb_refl. split_and!; [done|lia|].
    eapply cells_frame; [by apply same_on_set|done].
  - pose proof (free_space_eq _ _ _ _ _ R) as Hf. cbn [is_leaf] in Hf. exact Hf.
Qed.

(** The pages of a leaf's chains are not new. *)
Lemma leaf_chain_old im g rows ovs x : leaf_at im us g rows ovs -> im_count im < x -> x ∉ mjoin ovs.
Proof.
  intros Hl Hx Hin. apply leaf_at_pages in Hl. rewrite Forall_forall in Hl. destruct (Hl x Hin). lia.
Qed.
Lemma cells_chain_old im cells rows ovs x : Forall3 (cell_rep im us) cells rows ovs -> im_count im < x -> x ∉ mjoin ovs.
Proof.
  intros HF Hx Hin. induction HF as [|c r ov l k l' Hc HF IH]; [by apply not_elem_of_nil in Hin|].
  cbn in Hin. apply elem_of_app in Hin as [Hin|Hin]; [|by apply IH].
  apply cell_rep_pages in Hc. rewrite Forall_forall in Hc. destruct (Hc x Hin). lia.
Qed.

Lemma leaf_keep M im im' g rows ovs : only_changes M im im' -> page_ok (im_count im) g -> g ∉ M ->
  (forall x, x ∈ mjoin ovs -> x ∉ M) -> leaf_at im us g rows ovs -> leaf_at im' us g rows ovs.
Proof.
  intros Hch Hg HgM Hx Hl. eapply leaf_at_frame; [|exact Hl].
  eapply only_changes_same_on; [exact Hch|constructor; [done|by eapply leaf_at_pages]|].
  intros x [->|Hin]%elem_of_cons; [done|by apply Hx].
Qed.
Lemma leaf_cells_fit im g cells ccs : zlen (im_page im g) = ps ->
  page_rep (im_page im g) (btree_header_offset g) LeafTable ccs cells ->
  ccs + total_len cells <= zlen (im_page im g) -> btree_header_offset g + 8 + 2 * zlen cells + total_len cells <= ps.
Proof. intros Hlen R Htot. destruct (pr_room _ _ _ _ _ R) as [Hr _]. unfold hdr_size in Hr. cbn in Hr. lia. Qed.

(** Allocating a page and writing a leaf on it. *)
Lemma allocate_leaf_run {A} im W s cells rows ovs (k : Z -> PagerM (E:=E) (F:=F) A) Q :
  view im W s -> im_count im + 4 < 2 ^ 32 - 4 -> Forall3 (cell_rep im us) cells rows ovs ->
  8 + 2 * zlen cells + total_len cells <= ps ->
  (forall g im' s', g = im_count im' -> im_count im < g <= im_count im + 3 -> view im' ({[g]} ∪ W) s' ->
     leaf_at im' us g rows ovs -> btree_header_offset g = 0 ->
     leaf_free_space (im_page im' g) 0 = Ok (ps - total_len cells - (8 + 2 * zlen cells)) ->
     only_changes ∅ im im' -> qrun (k g) s' Q dead) ->
  qrun (g ← allocate_page; write_fresh g LeafTable None cells ;; k g) s Q dead.
Proof.
  intros V Hb HF Hfit Hk. destruct (rd_count (PageReader:=wr_reader W) _ _ V) as [Hc0 _].
  apply qrun_bind. eapply qrun_mono; [apply qrun_run, (wr_allocate im W s V); lia|].
  intros g s1 [Hg V1]. apply qrun_bind.
  assert (btree_header_offset g = 0) as Hoff by (unfold btree_header_offset; destruct (Z.eqb_spec g 1); [lia|done]).
  assert (g ∉ mjoin ovs) as Hgo by (eapply cells_chain_old; [done|lia]).
  assert (Forall (page_ok (im_count im)) (mjoin ovs)) as Hold.
  { clear -HF. induction HF as [|c r ov l k l' Hc HF IH]; [constructor|]. cbn. apply Forall_app.
    split; [by eapply cell_rep_pages|done]. }
  assert (Forall3 (cell_rep (im_grow ps g im) us) cells rows ovs) as HF1.
  { eapply cells_frame; [|exact HF]. apply same_on_grow; [done|lia]. }
  eapply qrun_mono; [apply qrun_run, (write_leaf_run _ _ s1 g cells rows ovs V1); [set_solver|done|done|rewrite Hoff; lia]|].
  intros [] s2 (page & V2 & Hl & Hfree). rewrite Hoff in Hfree.
  apply (Hk g (im_set g page (im_grow ps g im)) s2); try done.
  - cbn [im_page im_set]. rewrite Z.eqb_refl, Hfree. f_equal; lia.
  - eapply only_changes_mono; [eapply changes_trans; [apply (only_changes_grow (ps:=ps) g im); lia|apply only_changes_set]|].
    intros x Hx [_ ?]. assert (x = g) by set_solver. lia.
Qed.

Lemma cells_pages im cells rows ovs : Forall3 (cell_rep im us) cells rows ovs ->
  Forall (page_ok (im_count im)) (mjoin ovs).
Proof.
  induction 1 as [|c r ov l k l' Hc HF IH]; [constructor|]. cbn. apply Forall_app.
  split; [by eapply cell_rep_pages|done].
Qed.

(** The last cell of the left half has the greatest rowid there. *)
Lemma divider_eq im cells rows ovs n : 1 <= n <= zlen cells -> Forall3 (cell_rep im us) cells rows ovs ->
  exists c r, zget cells (n - 1) = Some c /\ zget rows (n - 1) = Some r /\ row_ok r /\ max_rowid_of_cell c = Ok (fst r).
Proof.
  intros Hn HF. destruct (writer_sizes (view:=view) (dead:=dead)) as [Hps Hus].
  destruct (zget_in cells (n - 1) ltac:(lia)) as [c Hc].
  assert (exists r, zget rows (n - 1) = Some r /\ row_ok r /\ max_rowid_of_cell c = Ok (fst r)) as (r & ? & ? & ?).
  { revert Hc. unfold zget. destruct (Z.ltb_spec (n - 1) 0); [lia|]. generalize (Z.to_nat (n - 1)). clear Hn. induction HF as [|c' r ov l k l' Hc' HF IH]; intros j; [by destruct j|].
    destruct j as [|j]; cbn; [|apply IH].
    intros [= ->]. exists r. split; [done|]. destruct Hc' as (gp & -> & Hr & Hgp & _). split; [done|].
    apply max_rowid_of_cell_eq; [lia|done|done]. }
  by exists c, r.
Qed.

Lemma promote_run im W s g rows ovs : view im W s -> page_ok (im_count im) g -> leaf_at im us g rows ovs ->
  rows <> [] -> g ∉ mjoin ovs -> im_count im + 10 < 2 ^ 32 - 4 ->
  qrun (promote_root_and_split g) s
    (fun _ s' => exists im' W' n L R a, view im' W' s' /\ 1 <= n <= zlen rows /\ zget rows (n - 1) = Some a /\
       node_at im' g [(L, fst a)] R /\ leaf_at im' us L (ztake n rows) (ztake n ovs) /\
       leaf_at im' us R (zdrop n rows) (zdrop n ovs) /\ im_count im < L < R /\ R = im_count im' /\
       R <= im_count im + 6 /\ only_changes {[g]} im im' /\
       (zdrop n rows = [] -> leaf_free_space (im_page im' R) (btree_header_offset R) = Ok (ps - 8))) dead.
Proof.
  intros V Hg Hl Hne Hgo Hb. destruct (writer_sizes (view:=view) (dead:=dead)) as [Hps Hus].
  pose proof Hl as (ccs & cells & R & Htot & HF). destruct (Forall3_zlen _ _ _ _ HF) as [Hlr _].
  pose proof (rd_len (PageReader:=wr_reader W) im s g V Hg) as Hlen.
  pose proof (leaf_cells_fit im g cells ccs Hlen R Htot) as Hfit.
  destruct (page_rep_parse _ _ _ _ _ R) as (hdr & Hp & Ht & Hn & _).
  pose proof (header_offset_range g) as Hoff. pose proof (rd_params (PageReader:=wr_reader W) _ _ V) as [_ Hu].
  assert (cells <> []) as Hcne by (destruct cells; [by inversion HF; subst|done]).
  pose proof (split_point_range us cells Hcne) as Hsp.
  unfold promote_root_and_split. destruct s as [q pe]. cbn [fst] in Hu.
  apply qrun_bind. apply qrun_gets. rewrite Hu.
  apply qrun_bind. eapply qrun_mono; [split; [by apply (wr_read im W _ g V)|by eapply wr_read_quiet]|].
  intros b s1 [-> V1]. apply qrun_bind. eapply qrun_lift; [exact Hp|].
  rewrite Ht, Hn. cbn [negb bool_decide decide decide_rel]. rewrite bool_decide_eq_true_2 by done. cbn [negb].
  destruct (Z.eqb_spec (zlen cells) 0) as [E0|_]; [lia|].
  apply qrun_bind. eapply qrun_lift; [apply (cells_of_leaf im us g cells rows ovs ccs hdr); [lia|done..]|].
  set (n := split_point us cells) in *. pose proof (total_len_split n cells) as Htl.
  pose proof (total_len_nonneg (ztake n cells)). pose proof (total_len_nonneg (zdrop n cells)).
  destruct (Forall3_split _ n _ _ _ HF) as [HFl HFr].
  assert (zlen (ztake n cells) = n) as Hzl by (rewrite zlen_ztake; lia).
  assert (zlen (zdrop n cells) = zlen cells - n) as Hzr by (rewrite zlen_zdrop; lia).
  eapply (allocate_leaf_run im ({[g]} ∪ W) s1 _ _ _ _ _ V1); [lia|exact HFl|lia|].
  intros L im1 s2 HL1 HL V2 Hl1 HoL _ Hch1.
  assert (Forall3 (cell_rep im1 us) (zdrop n cells) (zdrop n rows) (zdrop n ovs)) as HFr1.
  { eapply cells_frame; [|exact HFr]. eapply only_changes_same_on; [exact Hch1| |set_solver].
    by eapply cells_pages. }
  eapply (allocate_leaf_run im1 _ s2 _ _ _ _ _ V2); [lia|exact HFr1|lia|].
  intros Rp im2 s3 HR1 HR V3 Hl2 HoR Hfree Hch2.
  assert (only_changes ∅ im im2) as Hch12.
  { eapply only_changes_mono; [eapply changes_trans; [exact Hch1|exact Hch2]|]. set_solver. }
  destruct (divider_eq im cells rows ovs n ltac:(lia) HF) as (c & a & Hc & Ha & Hra & Hmax).
  apply qrun_bind. eapply qrun_lift; [unfold chk_sub; destruct (Z.ltb_spec n 1); [lia|reflexivity]|].
  apply qrun_bind. eapply qrun_lift; [unfold idx; by rewrite Hc|].
  apply qrun_bind. eapply qrun_lift; [exact Hmax|].
  pose proof (rd_count (PageReader:=wr_reader _) _ _ V3) as [Hc32 _].
  pose proof (rd_count (PageReader:=wr_reader _) _ _ V) as [Hc1 _].
  assert (child_ok (L, fst a)) as Hck by (split; [unfold is_u32; cbn [fst]; lia|apply Hra]).
  pose proof (child_cell_bounds _ Hck) as Hcb.
  apply qrun_bind. eapply qrun_mono; [apply qrun_run, (write_fresh_run im2 _ s3 g InteriorTable (Some Rp)
    [child_cell (L, fst a)] V3); [set_solver| | | |]|].
  { exists Rp. split; [done|]. unfold is_u32. lia. }
  { constructor; [lia|done]. }
  { constructor; [apply child_cell_ok|done]. }
  { rewrite total_len_one, zlen_cons. change (zlen (@nil bytes)) with 0. unfold hdr_size. cbn [is_leaf]. lia. }
  intros [] s4 (page & V4 & _ & Rp' & Hrm). destruct s4 as [q4 pe4]. apply qrun_bind, qrun_gets.
  destruct (writer_gets _ _ _ _ V4) as (_ & _ & Hav & _). unfold id. rewrite Hav. apply qrun_ret.
  assert (forall x, x ∈ mjoin ovs -> x <> g) as Hgo' by (intros x Hx ->; done).
  eexists (im_set g page im2), _, n, L, Rp, a.
  split; [exact V4|]. split; [destruct (Forall3_zlen _ _ _ _ HF); lia|]. split; [exact Ha|]. destruct Hg as [Hg1 Hg2].
  assert (forall x, x ∈ mjoin (ztake n ovs) \/ x ∈ mjoin (zdrop n ovs) -> x ∉ ({[g]} : gset Z)) as Hsub.
  { intros x Hx ->%elem_of_singleton. apply Hgo. rewrite (mjoin_split n), elem_of_app. done. }
  pose proof (only_changes_set g page im2) as Hset.
  split; [|split; [|split; [|split; [lia|split; [done|split; [lia|split]]]]]].
  - exists (ps - total_len [child_cell (L, fst a)]). cbn [im_page im_set]. rewrite Z.eqb_refl.
    split; [exact Rp'|]. split; [by apply Hrm|by constructor].
  - eapply (leaf_keep _ im2); [exact Hset|split; lia|set_solver by lia|auto|].
    eapply (leaf_keep _ im1); [exact Hch2|split; lia|set_solver|set_solver|done].
  - eapply (leaf_keep _ im2); [exact Hset|split; lia|set_solver by lia|auto|done].
  - eapply only_changes_mono; [eapply changes_trans; [exact Hch12|exact Hset]|]. set_solver.
  - intros E0. rewrite HoR. cbn [im_page im_set]. destruct (Z.eqb_spec Rp g); [lia|]. rewrite Hfree.
    assert (zdrop n cells = []) as ->; [|change (zlen (@nil bytes)) with 0; change (total_len []) with 0; f_equal; lia].
    destruct (Forall3_zlen _ _ _ _ HFr) as [El _]. rewrite E0 in El. destruct (zdrop n cells) as [|y l]; [done|]. rewrite zlen_cons in El. change (zlen (@nil row)) with 0 in El. pose proof (zlen_nonneg l). lia.
Qed.

(** The child of a promoted root for a rowid. *)
Lemma promotion_target_run im W s g L k R x : view im W s -> page_ok (im_count im) g -> node_at im g [(L, k)] R ->
  run (promotion_target g x) s (fun t s' => t = (if x <=? k then L else R) /\ view im W s') dead.
Proof.
  intros V Hg Hn. destruct (node_pick _ _ _ _ x Hn) as (hdr & Hp & Ht & Hnum & Hrm & Hb & _).
  pose proof Hn as (ccs & Rp & _ & Hok). unfold promotion_target.
  eapply (read_header_run (PageReader0:=wr_reader W)); [done|done|exact Rp|].
  intros hdr' s' V' (Hp' & _). rewrite Hp in Hp'. injection Hp' as <-. rewrite Hnum.
  change (zlen [(L, k)] =? 0) with false. cbn iota.
  destruct (child_cell_read _ _ _ _ hdr 0 (L, k) Rp Hp) as (off & Hcp & Hpc); [done|by inversion Hok|].
  apply run_bind. eapply run_lift; [exact Hcp|]. apply run_bind. eapply run_lift; [exact Hpc|].
  cbn [ti_rowid ti_left_child fst snd]. rewrite Hrm. cbn [ok_or].
  destruct (x <=? k); (eapply run_lift; [reflexivity|done]).
Qed.

Lemma append_sorted lo hi (rows : list row) r : sorted_rows rows -> Forall (between lo hi) rows -> lo < fst r <= hi ->
  Forall (fun a : row => fst a < fst r) rows -> sorted_rows (rows ++ [r]) /\ Forall (between lo hi) (rows ++ [r]).
Proof.
  intros HS HF Hr Hlt. split.
  - rewrite <- insert_row_last by done. apply insert_row_sorted; [done|]. eapply Forall_impl; [exact Hlt|]. cbn. lia.
  - apply Forall_app. split; [done|by constructor].
Qed.
Lemma promoted_nodup (old1 old2 pr : list Z) g L R m m3 :
  NoDup (g :: old1 ++ old2) -> Forall (fun x => x <= m) (g :: old1 ++ old2) -> m < L < R -> R <= m3 -> NoDup pr ->
  (forall x, x ∈ pr -> x ∈ R :: old2 \/ m3 < x) ->
  NoDup (g :: (L :: old1) ++ pr) /\ forall x, x ∈ g :: (L :: old1) ++ pr -> x ∈ g :: old1 ++ old2 \/ m < x.
Proof.
  intros Hnd Hle HL HR Hpr Hin. rewrite Forall_forall in Hle.
  apply NoDup_cons in Hnd as [Hg Hnd]. apply NoDup_app in Hnd as (Hnd1 & Hd & Hnd2).
  assert (g <= m) as Hgm by (apply Hle, list_elem_of_here).
  assert (forall x, x ∈ old1 -> x <= m) as H1m by (intros x Hx; apply Hle; rewrite elem_of_cons, elem_of_app; auto).
  assert (forall x, x ∈ pr -> (x ∈ old2 /\ x <= m) \/ R <= x) as Hin'.
  { intros x Hx. destruct (Hin x Hx) as [[->|Hx']%elem_of_cons|?]; [right; lia| |right; lia]. left. split; [done|].
    apply Hle. rewrite elem_of_cons, elem_of_app. auto. }
  split.
  - cbn. constructor; [|constructor; [|apply NoDup_app; split_and!; [done| |done]]].
    + rewrite elem_of_cons, elem_of_app in *. intros [->|[?|Hx]]; [lia|tauto|].
      destruct (Hin' _ Hx) as [[? ?]|?]; [tauto|lia].
    + rewrite elem_of_app. intros [Hx|Hx]; [apply H1m in Hx; lia|]. destruct (Hin' _ Hx) as [[? ?]|?]; lia.
    + intros x Hx Hx'. destruct (Hin' _ Hx') as [[? ?]|?]; [by apply (Hd x)|]. apply H1m in Hx. lia.
  - intros x. rewrite !elem_of_cons, !elem_of_app, !elem_of_cons. intros [->|[[->|Hx]|Hx]]; [tauto|right; lia|tauto|].
    destruct (Hin' _ Hx) as [[? ?]|?]; [tauto|right; lia].
Qed.
Lemma page_full_is_full : is_page_full page_full_error = true.
Proof. by vm_compute. Qed.

Lemma append_leaf_run r c ov n : forall fuel rows ovs s im W g lo hi,
  length rows = n -> view im W s -> page_ok (im_count im) g -> leaf_at im us g rows ovs ->
  sorted_rows rows -> Forall (between lo hi) rows -> lo < fst r <= hi -> Forall (fun a : row => fst a < fst r) rows ->
  cell_rep im us c r ov -> NoDup (g :: mjoin ovs ++ ov) ->
  (rows = [] -> exists free, leaf_free_space (im_page im g) (btree_header_offset g) = Ok free /\ zlen c + 2 <= free) ->
  im_count im + 6 * zlen rows + 4 < 2 ^ 32 - 4 -> (n < fuel)%nat ->
  run (insert_with_splitting fuel g (fst r) (fun _ => mret c) []) s
    (fun _ s' => exists im' W', view im' W' s' /\ only_changes {[g]} im im' /\
       grown im im' us n g lo hi (g :: mjoin ovs ++ ov) (6 * zlen rows) (rows ++ [r])) dead.
Proof.
  destruct (writer_sizes (view:=view) (dead:=dead)) as [Hps Hus].
  induction n as [n IH] using lt_wf_ind. intros fuel rows ovs s im W g lo hi Hn V Hg Hl HS HF Hx Hlt Hc Hnd Hroom Hb Hf.
  destruct fuel as [|fuel]; [lia|]. cbn [insert_with_splitting].
  pose proof Hl as (ccs & cells & R & Htot & HC).
  eapply (read_header_run (PageReader0:=wr_reader W)); [done|done|exact R|].
  intros hdr s1 V1 (Hp & Hty & _). rewrite Hty. apply run_bind, run_ret, run_bind.
  eapply run_lift; [apply (leaf_insert_index_eq im us g rows ovs hdr); [lia|done|done]|].
  apply run_bind. eapply run_mono; [by apply (wr_read im W s1 g)| |done]. intros b s2 [-> V2].
  assert (g ∉ ov /\ g ∉ mjoin ovs) as [Hgo Hgo'].
  { apply NoDup_cons in Hnd as [Hnd _]. rewrite elem_of_app in Hnd. tauto. }
  pose proof (free_space_eq _ _ _ _ _ R) as Hfree. cbn [is_leaf] in Hfree.
  pose proof (leaf_at_insert im us g rows ovs c r ov hdr ltac:(lia) Hl Hp Hc Hgo Hgo' _ Hfree) as Hins.
  rewrite insert_row_last in Hins by done.
  destruct (zlen c + 2 <=? _) eqn:Efit.
  { destruct Hins as (page' & -> & Hlen & Hl').
    eapply run_mono; [apply (wr_write im _ s2 g page' V2); [set_solver|rewrite Hlen; by eapply (rd_len (PageReader:=wr_reader W))]| |done].
    intros [] s3 V3. eexists _, _. split; [exact V3|]. split; [apply only_changes_set|].
    exists (g :: mjoin (zinsert (insert_pos (fst r) rows) ov ovs)).
    assert (mjoin (zinsert (insert_pos (fst r) rows) ov ovs) ≡ₚ mjoin ovs ++ ov) as Hperm
      by (rewrite mjoin_zinsert; apply Permutation_app_comm).
    split; [|split; [by rewrite Hperm|split; [intros x; rewrite Hperm; by left|cbn; pose proof (zlen_nonneg rows); lia]]].
    eapply (table_at_mono _ _ 0); [lia|]. split; [done|]. left. eexists. split; [exact Hl'|]. split; [done|].
    by apply append_sorted. }
  rewrite Hins, page_full_is_full.
  assert (rows <> []) as Hne.
  { intros ->. destruct Hroom as (free & Hfr & Hle); [done|]. rewrite Hfree in Hfr. injection Hfr as <-. lia. }
  assert (0 < zlen rows) as Hpos by (destruct rows as [|? l]; [done|rewrite zlen_cons; pose proof (zlen_nonneg l); lia]).
  apply run_bind. eapply run_mono; [apply (promote_run im _ s2 g rows ovs V2); [done|done|done|done|lia]| |done].
  intros [] s3 (im3 & W3 & k & L & Rp & a & V3 & Hk & Ha & Hnode & HL & HR & HLR & HRc & HR6 & Hch & Hempty).
  destruct (sorted_split k rows lo hi Hk HS HF) as (a' & Ha' & Hlo & HSl & HSr & HFl & HFr).
  rewrite Ha in Ha'. injection Ha' as <-.
  apply run_bind. eapply run_mono; [apply (promotion_target_run im3 W3 s3 g L (fst a) Rp (fst r) V3); [|done]| |done].
  { split; [apply Hg|]. destruct Hg, Hch. lia. }
  intros t s4 [-> V4].
  assert (fst a < fst r) as Hafr by (by apply (zget_Forall (fun a : row => fst a < fst r) rows (k - 1))).
  destruct (Z.leb_spec (fst r) (fst a)) as [|_]; [lia|]. pose proof Hg as [Hg1 Hg2].
  destruct (cell_rep_size _ _ _ _ _ Hc) as (Hsz & _ & _ & Hrow).
  pose proof (cell_rep_pages _ _ _ _ _ Hc) as Hovok. pose proof (leaf_at_pages _ _ _ _ _ Hl) as Hovsok.
  assert (mjoin ovs = mjoin (ztake k ovs) ++ mjoin (zdrop k ovs)) as Hsplit by apply mjoin_split.
  rewrite Hsplit, <- app_assoc in Hnd.
  assert (Forall (fun x => x <= im_count im) (g :: mjoin (ztake k ovs) ++ mjoin (zdrop k ovs) ++ ov)) as Hold.
  { constructor; [apply Hg|]. rewrite app_assoc, <- Hsplit. apply Forall_app.
    split; (eapply Forall_impl; [eassumption|]); intros x [? ?]; done. }
  assert (length (zdrop k rows) < n)%nat as Hlen by (unfold zdrop; rewrite length_drop; unfold zlen in Hk; lia).
  assert (zlen (zdrop k rows) = zlen rows - k) as Hzr by (rewrite zlen_zdrop; lia).
  eapply run_mono; [eapply (IH _ Hlen fuel (zdrop k rows) (zdrop k ovs) s4 im3 W3 Rp (fst a) hi)|..]; try done.
  { split; lia. }
  { lia. }
  { by apply Forall_drop. }
  { eapply cell_rep_frame; [|exact Hc]. eapply only_changes_same_on; [exact Hch|done|]. set_solver. }
  { apply NoDup_cons in Hnd as [_ Hnd]. apply NoDup_app in Hnd as (_ & _ & Hnd). constructor; [|done].
    intros Hin. rewrite Forall_forall in Hold. specialize (Hold Rp). rewrite elem_of_cons, elem_of_app in Hold.
    specialize (Hold ltac:(tauto)). lia. }
  { intros E0. exists (ps - 8). split; [by apply Hempty|]. pose proof (cell_size_bound us r ltac:(lia) Hrow). lia. }
  { destruct Hch. lia. }
  { lia. }
  cbn beta. intros [] s5 (im5 & W5 & V5 & Hch5 & pgs & Ht5 & Hndp & Hin5 & Hcnt5).
  exists im5, W5. split; [done|].
  assert (only_changes {[g]} im im5) as Hch15.
  { eapply only_changes_mono; [eapply changes_trans; [exact Hch|exact Hch5]|]. intros x Hx' [_ ?].
    apply elem_of_union in Hx' as [?| ->%elem_of_singleton]; [done|lia]. }
  split; [done|]. pose proof (proj1 Hch5) as Hc35. pose proof (proj1 Hch) as Hc13.
  destruct (promoted_nodup _ (mjoin (zdrop k ovs) ++ ov) pgs g L Rp (im_count im) (im_count im3) Hnd Hold HLR ltac:(lia) Hndp Hin5)
    as [Hnd5 Hin].
  exists (g :: (L :: mjoin (ztake k ovs)) ++ pgs). split; [|split; [done|split; [|lia]]].
  2:{ intros x Hx'. rewrite Hsplit, <- app_assoc. by apply Hin. }
  destruct n as [|n]; [lia|]. split; [split; lia|]. right. exists [(L, fst a)], Rp, ((L :: mjoin (ztake k ovs)) ++ pgs).
  split; [|split; [done|]].
  { eapply node_at_frame; [|exact Hnode]. eapply only_changes_same_on; [exact Hch5|constructor; [split; lia|done]|].
    intros x ->%list_elem_of_singleton. rewrite elem_of_singleton. lia. }
  cbn [kids]. split; [lia|]. exists (L :: mjoin (ztake k ovs)), pgs, (ztake k rows), (zdrop k rows ++ [r]).
  split; [done|]. split; [by rewrite app_assoc, ztake_zdrop_id|]. split.
  - eapply (table_at_mono _ _ 0); [lia|]. split; [split; lia|]. left. exists (ztake k ovs). split; [|done].
    eapply (leaf_keep _ im3); [exact Hch5|split; lia|rewrite elem_of_singleton; lia| |done].
    intros x Hx' ->%elem_of_singleton. apply leaf_at_pages in HL. rewrite Forall_forall in Hold.
    specialize (Hold Rp). rewrite elem_of_cons, elem_of_app in Hold. specialize (Hold ltac:(tauto)). lia.
  - eapply table_at_mono; [|exact Ht5]. lia.
Qed.

End Append.
