(* ===== verification/TableSplit.v ===== *)
(** * Appending below an interior page

    [split_leaf] of [btree/balance.rs] on the right-most leaf of an interior
    page with room for one more cell, and [table_insert] of a row above all
    others: it ends up last, whatever splits it takes. *)

From S2P Require Import Prelude Varint DbHeader Vfs Wal Ptrmap BtreePage Pager Cell Balance BtreeInsert TableCursor Autovac PagerTxn.
From S2P Require Import Disk Recovery Atomic Transaction Store TableCell TableTree TableInsert TableAppend.
From Stdlib Require Import Sorted.
#[local] Open Scope Z_scope.

(** ** Adding a child on the right *)

Lemma zinsert_end {A} (l : list A) c : zinsert (zlen l) c l = l ++ [c].
Proof. unfold zinsert. rewrite ztake_all, zdrop_all by lia. done. Qed.

Lemma insert_interior_cell_fits page h ty ccs cells i cell :
  page_rep page h ty ccs cells -> is_leaf ty = false -> 0 <= i <= zlen cells -> 0 < zlen cell ->
  bytes_ok cell -> h + 12 + 2 * zlen cells + zlen cell + 2 <= ccs ->
  exists page', insert_interior_cell page h i cell = Ok page' /\ zlen page' = zlen page /\
    page_rep page' h ty (ccs - zlen cell) (zinsert i cell cells).
Proof.
  intros R Hl Hi Hc Hb Hfit. pose proof (pr_room _ _ _ _ _ R) as [_ Hend].
  pose proof (pr_base _ _ _ _ _ R). pose proof (pr_size _ _ _ _ _ R).
  assert (hdr_size ty = 12) as Hhs by (unfold hdr_size; by rewrite Hl).
  rewrite (insert_interior_cell_eq _ _ _ _ _ i cell R Hl).
  destruct (Z.gtb_spec i (zlen cells)); [lia|].
  destruct (Z.ltb_spec ccs (h + 12 + zlen cells * 2 + zlen cell + 2)); [lia|].
  exists (inserted 12 page h i (zlen cells) ccs cell).
  rewrite insert_body_run by lia. split; [done|].
  split; [apply zlen_inserted; lia|]. rewrite <- Hhs. apply inserted_rep; try done. rewrite Hhs. lia.
Qed.

(** The page of a node after [(g, k)] and the new right-most child [N]. *)
Lemma right_child_page page h ccs ch ck N : page_rep page h InteriorTable ccs (child_cell <$> ch) ->
  child_ok ck -> is_u32 N -> h + 12 + 2 * zlen ch + 15 <= ccs ->
  exists page1 page2, insert_interior_cell page h (zlen ch) (child_cell ck) = Ok page1 /\
    copy_into page1 (h + 8) (be_bytes 4 N) = Ok page2 /\ zlen page2 = zlen page /\
    page_rep page2 h InteriorTable (ccs - zlen (child_cell ck)) (child_cell <$> (ch ++ [ck])) /\
    be_u32 page2 (h + 8) = Ok N.
Proof.
  intros R Hck HN Hfit. pose proof (child_cell_bounds ck Hck). pose proof (zlen_nonneg ch).
  assert (zlen (child_cell <$> ch) = zlen ch) as Hz by apply zlen_fmap.
  destruct (insert_interior_cell_fits page h InteriorTable ccs _ (zlen ch) (child_cell ck) R eq_refl) as (page1 & Hi & Hlen & R1);
    [lia|lia|apply child_cell_ok|lia|].
  rewrite <- Hz, zinsert_end in R1. pose proof (pr_base _ _ _ _ _ R). pose proof (pr_room _ _ _ _ _ R1) as [Hr1 Hr2].
  unfold hdr_size in Hr1. cbn [is_leaf] in Hr1. pose proof (zlen_nonneg ((child_cell <$> ch) ++ [child_cell ck])).
  exists page1, (splice (h + 8) (be_bytes 4 N) page1). split; [done|].
  split; [apply copy_into_in; len_lia|]. split; [rewrite zlen_splice; len_lia|].
  split; [rewrite fmap_app; by apply splice_right_most_rep|].
  unfold be_u32. rewrite (be_at_splice_eq 4) by len_lia. f_equal. apply Z.mod_small. done.
Qed.

Section Split.
Context {E F : Type} `{VfsOps E F} {ps us : Z}.
Notation State := (Pager F * (Proc * E))%type.
Context {view : Image -> gset Z -> State -> Prop} {dead : State -> Prop} `{!PageWriter ps us view dead}.

(** The free space of an interior page is at least [n] bytes. *)
Definition node_room (im : Image) (g n : Z) : Prop :=
  exists free, interior_free_space (im_page im g) (btree_header_offset g) = Ok free /\ n <= free.

Lemma node_room_ccs im g ch ccs n :
  page_rep (im_page im g) (btree_header_offset g) InteriorTable ccs (child_cell <$> ch) -> node_room im g n ->
  btree_header_offset g + 12 + 2 * zlen ch + n <= ccs.
Proof.
  intros R (free & Hf & Hle). pose proof (free_space_eq _ _ _ _ _ R) as He. cbn [is_leaf] in He.
  rewrite Hf in He. injection He as ->. rewrite zlen_fmap in Hle. unfold hdr_size in Hle. cbn [is_leaf] in Hle. lia.
Qed.

Lemma install_leaf_divider_run im W s p ch g k N : view im W s -> page_ok (im_count im) p ->
  node_at im p ch g -> node_room im p 15 -> child_ok (g, k) -> is_u32 N ->
  qrun (install_leaf_divider p g N k) s
    (fun _ s' => exists page, view (im_set p page im) ({[p]} ∪ W) s' /\ node_at (im_set p page im) p (ch ++ [(g, k)]) N)
    dead.
Proof.
  intros V Hp Hn Hroom Hck HN. destruct (node_pick _ _ _ _ 0 Hn) as (hdr & Hpa & Ht & Hnum & Hrm & Hb & _).
  pose proof Hn as (ccs & R & _ & Hok). pose proof (node_room_ccs _ _ _ _ _ R Hroom) as Hfit.
  unfold install_leaf_divider. apply qrun_bind.
  eapply qrun_mono; [split; [by apply (wr_read im W s p)|by eapply wr_read_quiet]|].
  intros b s1 [-> V1]. apply qrun_bind. eapply qrun_lift; [exact Hpa|]. rewrite Ht, Hrm, Hnum.
  rewrite !bool_decide_eq_true_2 by done. cbn [negb].
  apply qrun_bind. eapply qrun_lift; [reflexivity|].
  destruct (right_child_page _ _ _ _ (g, k) N R Hck HN Hfit) as (page1 & page2 & Hi & Hcp & Hlen & R2 & Hrm2).
  apply qrun_bind, qrun_bind. eapply qrun_lift; [exact Hi|]. eapply qrun_lift; [exact Hcp|].
  apply qrun_bind. eapply qrun_mono; [apply qrun_run, (wr_write im _ s1 p page2 V1); [set_solver|]|].
  { rewrite Hlen. by eapply (rd_len (PageReader:=wr_reader W)). }
  intros [] s2 V2. destruct s2 as [q pe]. unfold put_if_autovac. apply qrun_bind, qrun_gets.
  destruct (writer_gets _ _ _ _ V2) as (_ & _ & Hav & _). unfold id. rewrite Hav. apply qrun_ret.
  exists page2. split; [done|]. eexists. cbn [im_page im_set]. rewrite Z.eqb_refl.
  split; [exact R2|]. split; [done|]. apply Forall_app. split; [done|by constructor].
Qed.

Lemma target_after_split_run im W s p ch g k N x : view im W s -> page_ok (im_count im) p ->
  node_at im p (ch ++ [(g, k)]) N -> Forall (fun ck => fst ck <> N) (ch ++ [(g, k)]) -> k < x ->
  run (target_after_split p N x) s (fun t s' => t = N /\ view im W s') dead.
Proof.
  intros V Hp Hn Hne Hk. destruct (node_pick _ _ _ _ 0 Hn) as (hdr & Hpa & Ht & Hnum & Hrm & Hb & _).
  pose proof Hn as (ccs & R & _ & Hok). unfold target_after_split.
  eapply (read_header_run (PageReader0:=wr_reader W)); [done|done|exact R|].
  intros hdr' s' V' (Hp' & _). rewrite Hpa in Hp'. injection Hp' as <-. rewrite Ht, Hrm, Hnum.
  rewrite !bool_decide_eq_true_2 by done. cbn [negb].
  assert (forall ch2 ch1, ch ++ [(g, k)] = ch1 ++ ch2 ->
    target_loop (seqZ (zlen ch1) (zlen ch2)) (im_page im p) hdr N x = Ok None) as Hloop.
  { induction ch2 as [|ck ch2 IH]; intros ch1 Hch; [done|]. rewrite seqZ_step. cbn [target_loop].
    rewrite Hch in Hne, Hok. apply Forall_app in Hne as [_ Hne]. apply Forall_app in Hok as [_ Hok].
    inversion Hne; inversion Hok; subst.
    destruct (child_cell_read _ _ _ _ hdr (zlen ch1) ck R Hpa) as (off & Hcp & Hpc); [|done|].
    { rewrite Hch, fmap_app. cbn. rewrite <- (zlen_fmap child_cell ch1). apply zget_mid. }
    rewrite Hcp. cbn [mbind outcome_bind]. rewrite Hpc. cbn [mbind outcome_bind ti_left_child].
    destruct (Z.eqb_spec (fst ck) N); [done|]. apply (IH (ch1 ++ [ck])). by rewrite <- app_assoc. }
  apply run_bind. eapply run_lift; [by apply (Hloop _ [])|].
  pose proof (zlen_nonneg ch). assert (zlen (ch ++ [(g, k)]) = zlen ch + 1) as Hz by (rewrite zlen_app; done).
  rewrite Hz. destruct (Z.eqb_spec (zlen ch + 1) 0); [lia|].
  replace (zlen ch + 1 - 1) with (zlen ch) by lia.
  apply Forall_app in Hok as [_ Hok].
  destruct (child_cell_read _ _ _ _ hdr (zlen ch) (g, k) R Hpa) as (off & Hcp & Hpc); [|by inversion Hok|].
  { rewrite fmap_app. cbn. rewrite <- (zlen_fmap child_cell ch). apply zget_mid. }
  apply run_bind. eapply run_lift; [exact Hcp|]. apply run_bind. eapply run_lift; [exact Hpc|].
  cbn [ti_rowid ti_left_child fst snd]. destruct (Z.gtb_spec x k); [|lia]. by apply run_ret.
Qed.

Lemma split_leaf_run im W s p ch g rows ovs : view im W s -> page_ok (im_count im) g -> page_ok (im_count im) p ->
  leaf_at im us g rows ovs -> node_at im p ch g -> node_room im p 15 -> p <> g ->
  rows <> [] -> g ∉ mjoin ovs -> p ∉ mjoin ovs -> im_count im + 5 < 2 ^ 32 - 4 ->
  qrun (split_leaf g (Some p)) s
    (fun N s' => exists im' W' n a, view im' W' s' /\ 1 <= n <= zlen rows /\ zget rows (n - 1) = Some a /\
       node_at im' p (ch ++ [(g, fst a)]) N /\ leaf_at im' us g (ztake n rows) (ztake n ovs) /\
       leaf_at im' us N (zdrop n rows) (zdrop n ovs) /\ im_count im < N <= im_count im + 3 /\ N = im_count im' /\
       only_changes {[g; p]} im im' /\
       (zdrop n rows = [] -> leaf_free_space (im_page im' N) (btree_header_offset N) = Ok (ps - 8))) dead.
Proof.
  intros V Hg Hp Hl Hn Hroom Hpg Hne Hgo Hpo Hb. destruct (writer_sizes (view:=view) (dead:=dead)) as [Hps Hus].
  pose proof Hl as (ccs & cells & R & Htot & HF). destruct (Forall3_zlen _ _ _ _ HF) as [Hlr _].
  pose proof (rd_len (PageReader:=wr_reader W) im s g V Hg) as Hlen.
  pose proof (leaf_cells_fit im g cells ccs Hlen R Htot) as Hfit.
  destruct (page_rep_parse _ _ _ _ _ R) as (hdr & Hpa & Ht & Hnum & _).
  pose proof (header_offset_range g) as Hoff. pose proof (rd_params (PageReader:=wr_reader W) _ _ V) as [_ Hu].
  assert (cells <> []) as Hcne by (destruct cells; [by inversion HF; subst|done]).
  pose proof (split_point_range us cells Hcne) as Hsp.
  unfold split_leaf. destruct s as [q pe]. cbn [fst] in Hu. apply qrun_bind. apply qrun_gets. rewrite Hu.
  apply qrun_bind. eapply qrun_mono; [split; [by apply (wr_read im W _ g V)|by eapply wr_read_quiet]|].
  intros b s1 [-> V1]. apply qrun_bind. eapply qrun_lift; [exact Hpa|].
  rewrite Ht, bool_decide_eq_true_2 by done. cbn [negb].
  apply qrun_bind. eapply qrun_lift; [apply (cells_of_leaf im us g cells rows ovs ccs hdr); [lia|done..]|].
  set (n := split_point us cells) in *. pose proof (total_len_split n cells) as Htl.
  pose proof (total_len_nonneg (ztake n cells)). pose proof (total_len_nonneg (zdrop n cells)).
  destruct (Forall3_split _ n _ _ _ HF) as [HFl HFr].
  assert (zlen (ztake n cells) = n) as Hzl by (rewrite zlen_ztake; lia).
  assert (zlen (zdrop n cells) = zlen cells - n) as Hzr by (rewrite zlen_zdrop; lia).
  eapply (allocate_leaf_run im ({[g]} ∪ W) s1 _ _ _ _ _ V1); [lia|exact HFr|lia|].
  intros N im1 s2 HN1 HN V2 Hl1 HoN Hfree Hch1.
  assert (Forall3 (cell_rep im1 us) (ztake n cells) (ztake n rows) (ztake n ovs)) as HFl1.
  { eapply cells_frame; [|exact HFl]. eapply only_changes_same_on; [exact Hch1| |set_solver]. by eapply cells_pages. }
  pose proof Hg as [Hg1 Hg2]. pose proof Hp as [Hp1 Hp2].
  assert (forall x, x ∈ mjoin (ztake n ovs) \/ x ∈ mjoin (zdrop n ovs) -> x ∈ mjoin ovs) as Hsub.
  { intros x Hx. rewrite (mjoin_split n), elem_of_app. done. }
  apply qrun_bind. eapply qrun_mono; [apply qrun_run, (write_leaf_run im1 _ s2 g (ztake n cells) (ztake n rows) (ztake n ovs) V2); [set_solver| |exact HFl1|lia]|].
  { intros Hx. by apply Hgo, Hsub; left. }
  intros [] s3 (page & V3 & Hl2 & _). set (im2 := im_set g page im1) in *.
  assert (only_changes {[g]} im im2) as Hch2.
  { eapply only_changes_mono; [eapply changes_trans; [exact Hch1|apply only_changes_set]|]. set_solver. }
  assert (same_on [p] im im2) as Hsp2.
  { eapply only_changes_same_on; [exact Hch2|by constructor|].
    intros x ->%list_elem_of_singleton. by rewrite elem_of_singleton. }
  assert (leaf_at im2 us N (zdrop n rows) (zdrop n ovs)) as HN2.
  { eapply (leaf_keep _ im1); [apply only_changes_set|split; lia| | |exact Hl1]; rewrite ?elem_of_singleton.
    - lia.
    - intros x Hx ->%elem_of_singleton. by apply Hgo, Hsub; right. }
  destruct (divider_eq im cells rows ovs n ltac:(lia) HF) as (c & a & Hc & Ha & Hra & Hmax).
  apply qrun_bind. eapply qrun_lift; [unfold chk_sub; destruct (Z.ltb_spec n 1); [lia|reflexivity]|].
  apply qrun_bind. eapply qrun_lift; [unfold idx; by rewrite Hc|].
  apply qrun_bind. eapply qrun_lift; [exact Hmax|].
  pose proof (rd_count (PageReader:=wr_reader _) _ _ V3) as [Hc32 _].
  change (im_count im2) with (im_count im1) in Hc32.
  apply qrun_bind. eapply qrun_mono; [apply (install_leaf_divider_run im2 _ s3 p ch g (fst a) N V3)|].
  - split; [lia|]. cbn. lia.
  - by eapply node_at_frame.
  - unfold node_room. destruct Hsp2 as [_ Hsp2]. by rewrite Hsp2 by apply list_elem_of_here.
  - split; [unfold is_u32; cbn [fst]; lia|apply Hra].
  - unfold is_u32. lia.
  - intros [] s4 (page' & V4 & Hn'). apply qrun_ret. eexists _, _, n, a.
    split; [exact V4|]. split; [lia|]. split; [exact Ha|]. split; [exact Hn'|].
    assert (forall x : Z, x ∈ mjoin (ztake n ovs) \/ x ∈ mjoin (zdrop n ovs) -> x ∉ ({[p]} : gset Z)) as Hxp.
    { intros x Hx ->%elem_of_singleton. by apply Hpo, Hsub. }
    split; [|split; [|split; [lia|split; [done|split]]]].
    + eapply (leaf_keep _ im2); [apply only_changes_set|split; cbn; lia|set_solver| |exact Hl2].
      intros x Hx. apply Hxp. auto.
    + eapply (leaf_keep _ im2); [apply only_changes_set|split; cbn; lia|rewrite elem_of_singleton; lia| |exact HN2].
      intros x Hx. apply Hxp. auto.
    + eapply only_changes_mono; [eapply changes_trans; [exact Hch2|apply only_changes_set]|]. set_solver.
    + intros E0. rewrite HoN. cbn [im_page im_set im2]. destruct (Z.eqb_spec N p); [lia|].
      destruct (Z.eqb_spec N g); [lia|]. rewrite Hfree.
      assert (zdrop n cells = []) as ->; [|change (zlen (@nil bytes)) with 0; change (total_len []) with 0; f_equal; lia].
      destruct (Forall3_zlen _ _ _ _ HFr) as [El _]. rewrite E0 in El.
      destruct (zdrop n cells) as [|y l]; [done|]. rewrite zlen_cons in El.
      change (zlen (@nil row)) with 0 in El. pose proof (zlen_nonneg l). lia.
Qed.

(** The pages [pr] in place of [old2]: old ones, or new ones beyond [m]. *)
Lemma replace_nodup (old1 old2 pr : list Z) m :
  NoDup (old1 ++ old2) -> Forall (fun x => x <= m) (old1 ++ old2) -> NoDup pr ->
  (forall x, x ∈ pr -> x ∈ old2 \/ m < x) ->
  NoDup (old1 ++ pr) /\ forall x, x ∈ old1 ++ pr -> x ∈ old1 ++ old2 \/ m < x.
Proof.
  intros Hnd Hle Hpr Hin. apply NoDup_app in Hnd as (Hnd1 & Hd & _). rewrite Forall_forall in Hle. split.
  - apply NoDup_app. split_and!; [done| |done]. intros x Hx Hx'. destruct (Hin _ Hx') as [?|?]; [by apply (Hd x)|].
    specialize (Hle x). rewrite elem_of_app in Hle. specialize (Hle (or_introl Hx)). lia.
  - intros x. rewrite !elem_of_app. intros [?|Hx]; [auto|]. destruct (Hin _ Hx); auto.
Qed.

(** The right-most leaf [g] of the node [p] takes the row, or splits and takes
    it in one of its new right siblings. *)
Lemma append_right_leaf_run r c ov fuel rows ovs s im W p ch g lo hi path :
  view im W s -> page_ok (im_count im) g -> page_ok (im_count im) p ->
  leaf_at im us g rows ovs -> node_at im p ch g -> node_room im p 15 -> Forall (fun ck => fst ck <= im_count im) ch ->
  sorted_rows rows -> Forall (between lo hi) rows -> lo < fst r <= hi -> Forall (fun a : row => fst a < fst r) rows ->
  cell_rep im us c r ov -> NoDup (g :: mjoin ovs ++ ov) -> p ∉ g :: mjoin ovs ++ ov ->
  (rows = [] -> exists free, leaf_free_space (im_page im g) (btree_header_offset g) = Ok free /\ zlen c + 2 <= free) ->
  im_count im + 6 * zlen rows + 4 < 2 ^ 32 - 4 -> (S (length rows) < fuel)%nat ->
  run (insert_with_splitting fuel g (fst r) (fun _ => mret c) (p :: path)) s
    (fun _ s' => exists im' W' ch' N pgs, view im' W' s' /\ only_changes {[g; p]} im im' /\ node_at im' p (ch ++ ch') N /\
       kids (table_at im' us (length rows)) lo ch' N hi pgs (rows ++ [r]) /\ NoDup pgs /\
       (forall x, x ∈ pgs -> x ∈ g :: mjoin ovs ++ ov \/ im_count im < x) /\
       im_count im' <= im_count im + 6 * zlen rows) dead.
Proof.
  intros V Hg Hp Hl Hn Hnr Hch HS HF Hx Hlt Hc Hnd Hpn Hroom Hb Hf.
  destruct (writer_sizes (view:=view) (dead:=dead)) as [Hps Hus]. pose proof (zlen_nonneg rows).
  destruct fuel as [|fuel]; [lia|]. cbn [insert_with_splitting].
  pose proof Hl as (ccs & cells & R & Htot & HC).
  eapply (read_header_run (PageReader0:=wr_reader W)); [done|done|exact R|].
  intros hdr s1 V1 (Hpa & Hty & _). rewrite Hty. apply run_bind, run_ret, run_bind.
  eapply run_lift; [apply (leaf_insert_index_eq im us g rows ovs hdr); [lia|done|done]|].
  apply run_bind. eapply run_mono; [by apply (wr_read im W s1 g)| |done]. intros b s2 [-> V2].
  assert (g ∉ ov /\ g ∉ mjoin ovs) as [Hgo Hgo'].
  { apply NoDup_cons in Hnd as [Hnd _]. rewrite elem_of_app in Hnd. tauto. }
  assert (p <> g /\ p ∉ mjoin ovs) as [Hpg Hpo] by (rewrite elem_of_cons, elem_of_app in Hpn; tauto).
  pose proof (free_space_eq _ _ _ _ _ R) as Hfree. cbn [is_leaf] in Hfree.
  pose proof (leaf_at_insert im us g rows ovs c r ov hdr ltac:(lia) Hl Hpa Hc Hgo Hgo' _ Hfree) as Hins.
  rewrite insert_row_last in Hins by done. destruct (zlen c + 2 <=? _) eqn:Efit.
  { destruct Hins as (page' & -> & Hlen & Hl').
    eapply run_mono; [apply (wr_write im _ s2 g page' V2); [set_solver|rewrite Hlen; by eapply (rd_len (PageReader:=wr_reader W))]| |done].
    intros [] s3 V3. eexists _, _, [], g, (g :: mjoin (zinsert (insert_pos (fst r) rows) ov ovs)).
    assert (mjoin (zinsert (insert_pos (fst r) rows) ov ovs) ≡ₚ mjoin ovs ++ ov) as Hperm
      by (rewrite mjoin_zinsert; apply Permutation_app_comm).
    split; [exact V3|]. split; [eapply only_changes_mono; [apply only_changes_set|set_solver]|].
    split; [rewrite app_nil_r; eapply node_at_frame; [apply same_on_set|done]; rewrite list_elem_of_singleton; congruence|].
    split; [|split; [by rewrite Hperm|split; [intros x; rewrite Hperm; by left|cbn; lia]]].
    cbn [kids]. eapply (table_at_mono _ _ 0); [lia|]. split; [done|]. left. eexists. split; [exact Hl'|].
    split; [done|]. by apply append_sorted. }
  rewrite Hins, page_full_is_full.
  assert (rows <> []) as Hne.
  { intros ->. destruct Hroom as (free & Hfr & Hle); [done|]. rewrite Hfree in Hfr. injection Hfr as <-. lia. }
  assert (0 < zlen rows) as Hpos by (destruct rows as [|? l]; [done|rewrite zlen_cons; pose proof (zlen_nonneg l); lia]).
  apply run_bind, run_if_page_full, qrun_bind.
  eapply qrun_mono; [apply (split_leaf_run im _ s2 p ch g rows ovs V2); (done || lia)|].
  intros N s3 (im3 & W3 & k & a & V3 & Hk & Ha & Hnode & HL & HR & HN & HNc & Hch3 & Hempty).
  destruct (sorted_split k rows lo hi Hk HS HF) as (a' & Ha' & Hlo & HSl & HSr & HFl & HFr).
  rewrite Ha in Ha'. injection Ha' as <-. apply qrun_ret.
  assert (fst a < fst r) as Hafr by (by apply (zget_Forall (fun a : row => fst a < fst r) rows (k - 1))).
  pose proof Hg as [Hg1 Hg2]. pose proof Hp as [Hp1 Hp2]. pose proof (proj1 Hch3) as Hc13.
  apply run_bind. eapply run_mono; [apply (target_after_split_run im3 W3 s3 p ch g (fst a) N (fst r) V3)| |done]; try done.
  { split; lia. }
  { apply Forall_app. split; [|constructor; [cbn; lia|done]]. eapply Forall_impl; [exact Hch|]. cbn. lia. }
  intros t s4 [-> V4].
  destruct (cell_rep_size _ _ _ _ _ Hc) as (Hsz & _ & _ & Hrow).
  pose proof (cell_rep_pages _ _ _ _ _ Hc) as Hovok. pose proof (leaf_at_pages _ _ _ _ _ Hl) as Hovsok.
  assert (mjoin ovs = mjoin (ztake k ovs) ++ mjoin (zdrop k ovs)) as Hsplit by apply mjoin_split.
  assert (Forall (fun x => x <= im_count im) ((g :: mjoin (ztake k ovs)) ++ mjoin (zdrop k ovs) ++ ov)) as Hold.
  { cbn. constructor; [done|]. rewrite app_assoc, <- Hsplit. apply Forall_app.
    split; (eapply Forall_impl; [eassumption|]); intros x [? ?]; done. }
  assert (g :: mjoin ovs ++ ov = (g :: mjoin (ztake k ovs)) ++ mjoin (zdrop k ovs) ++ ov) as Ecat
    by (rewrite Hsplit; cbn; by rewrite <- app_assoc).
  rewrite Ecat in Hnd, Hpn |- *.
  assert (length (zdrop k rows) < length rows)%nat as Hlen by (unfold zdrop; rewrite length_drop; unfold zlen in Hk; lia).
  assert (zlen (zdrop k rows) = zlen rows - k) as Hzr by (rewrite zlen_zdrop; lia).
  assert (N ∉ mjoin (zdrop k ovs) ++ ov) as HNold.
  { intros Hin. rewrite Forall_forall in Hold. specialize (Hold N). rewrite elem_of_app in Hold.
    specialize (Hold (or_intror Hin)). lia. }
  eapply run_mono; [eapply (append_leaf_run r c ov _ fuel (zdrop k rows) (zdrop k ovs) s4 im3 W3 N (fst a) hi eq_refl V4)|..];
    try done.
  { split; lia. }
  { lia. }
  { by apply Forall_drop. }
  { eapply cell_rep_frame; [|exact Hc]. eapply only_changes_same_on; [exact Hch3|done|].
    intros x Hx' Hin. apply elem_of_union in Hin as [->%elem_of_singleton| ->%elem_of_singleton]; [done|].
    apply Hpn. rewrite !elem_of_app. auto. }
  { constructor; [done|]. apply NoDup_app in Hnd as (_ & _ & Hnd). done. }
  { intros E0. exists (ps - 8). split; [by apply Hempty|]. pose proof (cell_size_bound us r ltac:(lia) Hrow). lia. }
  { lia. }
  { lia. }
  cbn beta. intros [] s5 (im5 & W5 & V5 & Hch5 & pgs & Ht5 & Hndp & Hin5 & Hcnt5). pose proof (proj1 Hch5) as Hc35.
  destruct (replace_nodup _ _ pgs (im_count im) Hnd Hold Hndp) as [Hnd5 Hin].
  { intros x Hx'. destruct (Hin5 x Hx') as [[->|?]%elem_of_cons|?]; [right; lia|by left|right; lia]. }
  eexists im5, W5, [(g, fst a)], N, _. split; [done|]. split.
  { eapply only_changes_mono; [eapply changes_trans; [exact Hch3|exact Hch5]|]. intros x Hx' [_ ?].
    apply elem_of_union in Hx' as [?| ->%elem_of_singleton]; [done|lia]. }
  split.
  { eapply node_at_frame; [|exact Hnode]. eapply only_changes_same_on; [exact Hch5|constructor; [split; lia|done]|].
    intros x ->%list_elem_of_singleton. rewrite elem_of_singleton. lia. }
  split; [|split; [exact Hnd5|split; [exact Hin|lia]]].
  cbn [kids]. split; [lia|]. exists (g :: mjoin (ztake k ovs)), pgs, (ztake k rows), (zdrop k rows ++ [r]).
  split; [done|]. split; [by rewrite app_assoc, ztake_zdrop_id|]. split.
  - eapply (table_at_mono _ _ 0); [lia|]. split; [split; lia|]. left. exists (ztake k ovs). split; [|done].
    eapply (leaf_keep _ im3); [exact Hch5|split; lia|rewrite elem_of_singleton; lia| |done].
    intros x Hx' ->%elem_of_singleton. rewrite Forall_forall in Hold. specialize (Hold N).
    rewrite elem_of_app, elem_of_cons in Hold. specialize (Hold ltac:(tauto)). lia.
  - eapply table_at_mono; [|exact Ht5]. lia.
Qed.

End Split.

(** ** Descending *)

Definition enough (free : outcome Z) (n : Z) : bool := match free with Ok f => n <=? f | _ => false end.
Definition is_leaf_page (im : Image) (g : Z) : bool :=
  match parse (im_page im g) (btree_header_offset g) with Ok hdr => is_leaf (page_type hdr) | _ => false end.

(** The leaf of [x] is the root, or the right-most child of a page that has room
    for one more child; it has rows, or room for a cell of [size] bytes. *)
Fixpoint can_grow (im : Image) (d : nat) (g x size : Z) : bool :=
  match parse (im_page im g) (btree_header_offset g) with
  | Ok hdr =>
      if is_leaf (page_type hdr)
      then (0 <? num_cells hdr) || enough (leaf_free_space (im_page im g) (btree_header_offset g)) (size + 2)
      else match d with
           | O => false
           | S d' =>
               match pick_child (im_page im g) hdr x with
               | Ok c =>
                   (if is_leaf_page im c
                    then bool_decide (right_most_pointer hdr = Some c) &&
                         enough (interior_free_space (im_page im g) (btree_header_offset g)) 15
                    else true) && can_grow im d' c x size
               | _ => false
               end
           end
  | _ => false
  end.

Lemma enough_spec free n : enough free n = true <-> exists f, free = Ok f /\ n <= f.
Proof.
  destruct free as [f| |]; cbn; [rewrite Z.leb_le|..]; split; try naive_solver.
Qed.

Lemma is_leaf_page_leaf im us g rows ovs : leaf_at im us g rows ovs -> is_leaf_page im g = true.
Proof.
  intros (ccs & cells & R & _). destruct (page_rep_parse _ _ _ _ _ R) as (hdr & Hp & Ht & _).
  unfold is_leaf_page. by rewrite Hp, Ht.
Qed.
Lemma is_leaf_page_node im g ch rm : node_at im g ch rm -> is_leaf_page im g = false.
Proof.
  intros Hn. destruct (node_pick _ _ _ _ 0 Hn) as (hdr & Hp & Ht & _). unfold is_leaf_page. by rewrite Hp, Ht.
Qed.

Lemma can_grow_leaf im us d g x size rows ovs : leaf_at im us g rows ovs -> can_grow im d g x size = true ->
  rows = [] -> exists free, leaf_free_space (im_page im g) (btree_header_offset g) = Ok free /\ size + 2 <= free.
Proof.
  intros (ccs & cells & R & _ & HF) Hc ->. destruct (page_rep_parse _ _ _ _ _ R) as (hdr & Hp & Ht & Hn & _).
  assert (cells = []) as -> by (by inversion HF).
  destruct d; cbn [can_grow] in Hc; rewrite Hp, Ht, Hn in Hc; cbn [is_leaf] in Hc;
    by apply orb_true_iff in Hc as [Hc|Hc%enough_spec].
Qed.
Lemma can_grow_node im d g ch rm x size : node_at im g ch rm -> can_grow im (S d) g x size = true ->
  let c := snd (fst (child_for x ch rm)) in
  can_grow im d c x size = true /\ (is_leaf_page im c = true -> c = rm /\ node_room im g 15).
Proof.
  intros Hn Hc c. destruct (node_pick _ _ _ _ x Hn) as (hdr & Hp & Ht & _ & Hrm & _ & Hpick).
  cbn [can_grow] in Hc. rewrite Hp, Ht, Hpick in Hc. cbn [is_leaf] in Hc. fold c in Hc.
  apply andb_true_iff in Hc as [H1 H2]. split; [done|]. intros Hl. rewrite Hl in H1.
  apply andb_true_iff in H1 as [H1%bool_decide_eq_true H3%enough_spec]. split; [congruence|exact H3].
Qed.

(** Reaching the right-most child means passing every separator. *)
Lemma child_for_right P ch rm hi x :
  (forall c lo hi pgs rows, P c lo hi pgs rows -> c ∈ pgs) ->
  forall lo pgs rows, kids P lo ch rm hi pgs rows -> NoDup pgs -> snd (fst (child_for x ch rm)) = rm ->
  Forall (fun ck => snd ck < x) ch.
Proof.
  intros HP. induction ch as [|[c k] ch IH]; intros lo pgs rows; cbn [kids child_for]; [by constructor|].
  intros (Hk & p1 & p2 & r1 & r2 & -> & -> & H1 & HK) Hnd. destruct (Z.leb_spec x k); cbn [fst snd].
  - intros ->. apply NoDup_app in Hnd as (_ & Hd & _). exfalso. apply (Hd rm); [by eapply HP|].
    clear -HK HP. revert k p2 r2 HK. induction ch as [|[c k'] ch IH]; intros k p2 r2; cbn [kids]; [apply HP|].
    intros (_ & q1 & q2 & s1 & s2 & -> & _ & _ & HK). apply elem_of_app. right. by eapply IH.
  - destruct (child_for x ch rm) as [[l g] r] eqn:E. cbn [fst snd]. intros ->. constructor; [done|].
    apply (IH _ _ _ HK); [by apply NoDup_app in Hnd as (_ & _ & ?)|done].
Qed.

Section Grow.
Context {E F : Type} `{VfsOps E F} {ps us : Z}.
Notation State := (Pager F * (Proc * E))%type.
Context {view : Image -> gset Z -> State -> Prop} {dead : State -> Prop} `{!PageWriter ps us view dead}.

Lemma lefts_children P (Q : Z -> Prop) hi ch : (forall c lo hi' pgs rows, P c lo hi' pgs rows -> Q c) ->
  forall lo mid pgs rows, lefts P hi lo ch mid pgs rows -> Forall (fun ck => Q (fst ck)) ch.
Proof.
  intros HP. induction ch as [|[c k] ch IH]; intros lo mid pgs rows; cbn [lefts]; [by constructor|].
  intros (_ & p1 & p2 & r1 & r2 & _ & _ & H1 & HL). constructor; [by eapply HP|by eapply IH].
Qed.

Lemma lefts_pages P (Q : Z -> Prop) hi ch : (forall c lo hi' pgs rows, P c lo hi' pgs rows -> Forall Q pgs) ->
  forall lo mid pgs rows, lefts P hi lo ch mid pgs rows -> Forall Q pgs.
Proof.
  intros HP. induction ch as [|[c k] ch IH]; intros lo mid pgs rows; cbn [lefts]; [by intros (_ & -> & _)|].
  intros (_ & p1 & p2 & r1 & r2 & -> & _ & H1 & HL). apply Forall_app. split; [by eapply HP|by eapply IH].
Qed.

(** The node whose right-most leaf takes the row. *)
Lemma append_last_child_run r c ov d fuel s g lo hi pgs rows ch rm path im W :
  view im W s -> page_ok (im_count im) g -> node_at im g ch rm -> node_room im g 15 -> is_leaf_page im rm = true ->
  kids (table_at im us d) lo ch rm hi pgs rows -> Forall (fun ck => snd ck < fst r) ch ->
  NoDup ((g :: pgs) ++ ov) -> cell_rep im us c r ov -> lo < fst r <= hi -> Forall (fun a : row => fst a < fst r) rows ->
  can_grow im d rm (fst r) (zlen c) = true -> im_count im + 6 * zlen rows + 4 < 2 ^ 32 - 4 ->
  (S (length rows) < fuel)%nat ->
  run (insert_with_splitting fuel rm (fst r) (fun _ => mret c) (g :: path)) s
    (fun _ s' => exists im' W', view im' W' s' /\ only_changes (list_to_set (g :: pgs)) im im' /\
       grown im im' us (S (d + length rows)) g lo hi ((g :: pgs) ++ ov) (6 * zlen rows) (rows ++ [r])) dead.
Proof.
  intros V Hg Hn Hnr Hleaf HK Hsep Hnd Hc Hx Hlt Hgrow Hb Hf.
  assert (forall c' lo' hi' p' r', table_at im us d c' lo' hi' p' r' -> Forall (between lo' hi') r') as Hbt
    by (intros ????? Ht; by apply table_at_sorted in Ht as [_ ?]).
  rewrite <- (app_nil_r ch) in HK. apply kids_app in HK as (mid & p1 & p2 & r1 & r2 & -> & -> & HL & HT). cbn [kids] in HT.
  destruct (lefts_bound _ _ _ Hbt _ _ _ _ HL) as (Hm1 & _ & _ & Hm2). specialize (Hm2 (fst r) Hsep ltac:(lia)).
  assert (page_ok (im_count im) rm) as Hrm by (destruct d; apply HT).
  assert (exists ovs, leaf_at im us rm r2 ovs /\ p2 = rm :: mjoin ovs /\ sorted_rows r2 /\ Forall (between mid hi) r2)
    as (ovs & Hl & -> & HS & HF).
  { destruct d; destruct HT as [_ [HT|HT]]; try done. destruct HT as (ch' & rm' & ? & Hn' & _).
    by rewrite (is_leaf_page_node _ _ _ _ Hn') in Hleaf. }
  pose proof (can_grow_leaf _ _ _ _ _ _ _ _ Hl Hgrow) as Hempty. apply Forall_app in Hlt as [Hlt1 Hlt2].
  rewrite zlen_app in Hb. rewrite length_app in Hf. pose proof (zlen_nonneg r1).
  pose proof (table_at_pages _ _ _ _ _ _ _ _ HT) as [Hp2 _].
  assert (Forall (page_ok (im_count im)) p1) as Hp1.
  { eapply (lefts_pages (table_at im us d)); [|exact HL]. intros ????? Ht. by apply table_at_pages in Ht as [? _]. }
  pose proof (cell_rep_pages _ _ _ _ _ Hc) as Hovok.
  assert (((g :: p1 ++ rm :: mjoin ovs) ++ ov) = (g :: p1) ++ (rm :: mjoin ovs ++ ov)) as Ecat
    by (cbn; by rewrite <- !app_assoc).
  rewrite Ecat in Hnd. pose proof Hnd as Hnd'. apply NoDup_app in Hnd as (Hnd1 & Hd & Hnd2).
  eapply run_mono; [apply (append_right_leaf_run r c ov fuel r2 ovs s im W g ch rm mid hi path V)|..]; try done.
  { eapply (lefts_children (table_at im us d) (fun c => c <= im_count im)); [|exact HL]. intros ????? Ht.
    destruct d; apply Ht. }
  { lia. }
  { intros Hin. apply (Hd g); [by left|done]. }
  { lia. }
  { lia. }
  intros [] s' (im' & W' & ch' & N & pgs & V' & Hch & Hn' & HK' & Hndp & Hin & Hcnt).
  exists im', W'. split; [done|].
  assert (Forall (fun x => x <= im_count im) ((g :: p1) ++ (rm :: mjoin ovs ++ ov))) as Hold.
  { rewrite <- Ecat. cbn. constructor; [apply Hg|]. rewrite <- app_assoc.
    repeat (apply Forall_app; split); (eapply Forall_impl; [eassumption|]); intros x [? ?]; done. }
  destruct (replace_nodup _ _ pgs (im_count im) Hnd' Hold Hndp Hin) as [Hnd5 Hin5].
  split.
  { eapply only_changes_mono; [exact Hch|]. intros x Hx' _. rewrite elem_of_list_to_set, elem_of_cons, elem_of_app, elem_of_cons.
    set_solver. }
  exists ((g :: p1) ++ pgs). split; [|split; [done|split; [|rewrite zlen_app; lia]]].
  2:{ intros x Hx'. rewrite Ecat. by apply Hin5. }
  split; [destruct Hg, Hch; split; lia|]. right. exists (ch ++ ch'), N, (p1 ++ pgs). split; [done|]. split; [done|].
  apply kids_app. exists mid, p1, pgs, r1, (r2 ++ [r]). split; [done|]. split; [by rewrite <- app_assoc|]. split.
  - eapply lefts_mono; [|exact HL]. intros c' lo' hi' p' r' Hp Ht. eapply (table_at_mono _ _ d); [rewrite length_app; lia|].
    eapply same_on_disjoint; [exact Hch|done|]. intros x Hx' Hin'.
    apply elem_of_union in Hin' as [->%elem_of_singleton| ->%elem_of_singleton].
    + apply (Hd rm); [apply elem_of_cons; right; by apply Hp|apply list_elem_of_here].
    + apply NoDup_cons in Hnd1 as [Hg' _]. by apply Hg', Hp.
  - eapply kids_mono; [|exact HK']. intros c' lo' hi' p' r' _. apply table_at_mono. rewrite length_app. lia.
Qed.

Lemma append_node_run r c ov d : forall fuel s g lo hi pgs rows path im W,
  view im W s -> table_at im us d g lo hi pgs rows -> is_leaf_page im g = false -> NoDup (pgs ++ ov) ->
  cell_rep im us c r ov -> lo < fst r <= hi -> Forall (fun a : row => fst a < fst r) rows ->
  can_grow im d g (fst r) (zlen c) = true -> im_count im + 6 * zlen rows + 4 < 2 ^ 32 - 4 ->
  (S (d + length rows) < fuel)%nat ->
  run (insert_with_splitting fuel g (fst r) (fun _ => mret c) path) s
    (fun _ s' => exists im' W', view im' W' s' /\ only_changes (list_to_set pgs) im im' /\
       grown im im' us (d + length rows) g lo hi (pgs ++ ov) (6 * zlen rows) (rows ++ [r])) dead.
Proof.
  induction d as [|d IH]; intros fuel s g lo hi pgs rows path im W V HT Hleaf Hnd Hc Hx Hlt Hgrow Hb Hf.
  { destruct HT as [_ [(ovs & Hl & _)|[]]]. by rewrite (is_leaf_page_leaf _ _ _ _ _ Hl) in Hleaf. }
  pose proof (table_at_pages _ _ _ _ _ _ _ _ HT) as [Hpgs _]. pose proof (cell_rep_pages _ _ _ _ _ Hc) as Hovok.
  destruct HT as [Hg Ht]. destruct Ht as [(ovs & Hl & _)|(ch & rm & pgs0 & Hn & -> & HK)]; [by rewrite (is_leaf_page_leaf _ _ _ _ _ Hl) in Hleaf|].
  destruct fuel as [|fuel]; [lia|]. cbn [insert_with_splitting].
  destruct (node_pick _ _ _ _ (fst r) Hn) as (hdr & Hp & Hty & Hnc & Hrm & Hb' & Hpick).
  pose proof Hn as (ccs & R & _ & Hok).
  eapply (read_header_run (PageReader0:=wr_reader W)); [done|done|exact R|].
  intros hdr' s1 V1 (Hp' & _). rewrite Hp in Hp'. injection Hp' as <-. rewrite Hty.
  apply run_bind. eapply run_lift; [exact Hpick|].
  destruct (can_grow_node _ _ _ _ _ _ _ Hn Hgrow) as [Hgrow' Hlast].
  assert (forall c' lo' hi' p' r', table_at im us d c' lo' hi' p' r' -> Forall (between lo' hi') r') as Hbt
    by (intros ????? Ht; by apply table_at_sorted in Ht as [_ ?]).
  destruct (is_leaf_page im (snd (fst (child_for (fst r) ch rm)))) eqn:Eleaf.
  { destruct (Hlast eq_refl) as [Erm Hnr]. rewrite Erm in Eleaf, Hgrow' |- *.
    apply (append_last_child_run r c ov d fuel s1 g lo hi pgs0 rows ch rm path im W V1); try done; try lia.
    eapply (child_for_right (table_at im us d)); [|exact HK| |exact Erm].
    - intros ????? Ht. by apply table_at_pages in Ht as [_ ?].
    - apply NoDup_app in Hnd as (Hnd & _). by apply NoDup_cons in Hnd as [_ ?]. }
  pose proof (child_for_spec (table_at im us d) ch rm hi (fst r) Hbt lo pgs0 rows HK Hx) as Hsp.
  destruct (child_for (fst r) ch rm) as [[lch g1] rch]. cbn [fst snd] in *.
  destruct Hsp as (mid & kx & p1 & pc & p2 & r1 & rc & r2 & -> & -> & Hmx & Htc & F1 & F2 & Hplug).
  assert (r2 = []) as ->.
  { destruct r2 as [|a r2]; [done|]. rewrite !Forall_app, Forall_cons in Hlt. inversion F2; subst. lia. }
  rewrite !app_nil_r in *. apply Forall_app in Hlt as [_ Hlt]. rewrite zlen_app in Hb |- *. pose proof (zlen_nonneg r1).
  rewrite length_app in Hf |- *.
  assert ((g :: p1 ++ pc ++ p2) ++ ov ≡ₚ (g :: p1 ++ p2) ++ (pc ++ ov)) as Hperm by (cbn; solve_Permutation).
  rewrite Hperm in Hnd. pose proof Hnd as Hnd'. apply NoDup_app in Hnd' as (Hnd1 & Hd & Hnd2).
  eapply run_mono; [apply (IH fuel s1 g1 mid kx pc rc (g :: path) im W V1 Htc); (done || lia)| |done].
  intros [] s2 (im2 & W2 & V2 & Hch & pgs' & Ht2 & Hndp & Hin & Hcnt). exists im2, W2. split; [done|].
  assert (forall x : Z, x ∈ g :: p1 ++ p2 -> x ∉ (list_to_set pc : gset Z)) as Hout.
  { intros x Hx'. rewrite elem_of_list_to_set. intros Hpc. apply (Hd x Hx'). apply elem_of_app. by left. }
  split.
  { eapply only_changes_mono; [exact Hch|]. intros x Hx' _. rewrite elem_of_list_to_set in Hx' |- *.
    rewrite elem_of_cons, !elem_of_app. auto. }
  assert (Forall (fun x => x <= im_count im) ((g :: p1 ++ p2) ++ (pc ++ ov))) as Hold.
  { rewrite <- Hperm. apply Forall_app.
    split; (eapply Forall_impl; [eassumption|]); intros x [? ?]; done. }
  destruct (replace_nodup _ _ pgs' (im_count im) Hnd Hold Hndp Hin) as [Hnd5 Hin5].
  assert (g :: p1 ++ pgs' ++ p2 ≡ₚ (g :: p1 ++ p2) ++ pgs') as Hperm' by (cbn; solve_Permutation).
  exists (g :: p1 ++ pgs' ++ p2). split; [|split; [by rewrite Hperm'|split; [|lia]]].
  2:{ intros x. rewrite Hperm, Hperm'. apply Hin5. }
  split; [destruct Hg, Hch; split; lia|]. right. exists ch, rm, (p1 ++ pgs' ++ p2). split; [|split; [done|]].
  { eapply node_at_frame; [|exact Hn]. eapply only_changes_same_on; [exact Hch|by constructor|].
    intros x ->%list_elem_of_singleton. apply Hout, list_elem_of_here. }
  rewrite <- app_assoc, <- (app_nil_r (rc ++ [r])). apply Hplug.
  - intros c' lo' hi' p' r' Hp2 Ht. eapply (table_at_mono _ _ d); [lia|].
    eapply same_on_disjoint; [exact Hch|exact Ht|]. intros x Hx'. by apply Hout, list_elem_of_further, Hp2.
  - eapply table_at_mono; [|exact Ht2]. lia.
Qed.

(** The conditions do not depend on other pages. *)
Lemma is_leaf_page_frame im im' g : im_page im' g = im_page im g -> is_leaf_page im' g = is_leaf_page im g.
Proof. unfold is_leaf_page. by intros ->. Qed.
Lemma can_grow_frame im im' x size d : forall g lo hi pgs rows, lo < x <= hi ->
  table_at im us d g lo hi pgs rows -> same_on pgs im im' -> can_grow im' d g x size = can_grow im d g x size.
Proof.
  induction d as [|d IH]; intros g lo hi pgs rows Hx HT Hs;
    pose proof (table_at_pages _ _ _ _ _ _ _ _ HT) as [_ Hgin];
    (assert (im_page im' g = im_page im g) as Eg by (by apply Hs)); cbn [can_grow]; rewrite Eg; [done|].
  destruct HT as [_ [(ovs & Hl & _)|(ch & rm & pgs0 & Hn & -> & HK)]].
  { destruct Hl as (ccs & cells & R & _). destruct (page_rep_parse _ _ _ _ _ R) as (hdr & -> & -> & _). done. }
  destruct (node_pick _ _ _ _ x Hn) as (hdr & Hp & Ht & _ & _ & _ & Hpick). rewrite Hp, Ht, Hpick. cbn [is_leaf].
  assert (forall c' lo' hi' p' r', table_at im us d c' lo' hi' p' r' -> Forall (between lo' hi') r') as Hbt
    by (intros ????? Ht'; by apply table_at_sorted in Ht' as [_ ?]).
  pose proof (child_for_spec (table_at im us d) ch rm hi x Hbt lo pgs0 rows HK Hx) as Hsp.
  destruct (child_for x ch rm) as [[lch g1] rch]. cbn [fst snd].
  destruct Hsp as (mid & kx & p1 & pc & p2 & r1 & rc & r2 & -> & -> & Hmx & Htc & _).
  assert (same_on pc im im') as Hs'.
  { eapply same_on_subset; [done|]. intros y Hy. apply list_elem_of_further. rewrite !elem_of_app. auto. }
  rewrite (is_leaf_page_frame im im' g1) by (apply Hs'; by apply table_at_pages in Htc as [_ ?]).
  by rewrite (IH g1 mid kx pc rc).
Qed.

Lemma table_append_run r s im W d fuel root pgs rows :
  view im W s -> table_rep im us d root pgs rows -> row_ok r -> Forall (fun a : row => fst a < fst r) rows ->
  can_grow im d root (fst r) (cell_size us r) = true ->
  im_count im + cell_room us (snd r) + 6 * zlen rows + 4 < 2 ^ 32 - 4 -> (S (d + length rows) < fuel)%nat ->
  run (table_insert fuel root (fst r) (snd r)) s
    (fun _ s' => exists im' W' pgs', view im' W' s' /\ table_rep im' us (d + length rows) root pgs' (rows ++ [r]) /\
       only_changes (list_to_set pgs) im im' /\ (forall x, x ∈ pgs' -> x ∈ pgs \/ im_count im < x) /\
       im_count im' <= im_count im + cell_room us (snd r) + 6 * zlen rows) dead.
Proof.
  intros V HT Hr Hlt Hgrow Hb Hf. apply (table_insert_plain _ _ _ _ _ _ _ V). intros s' V'. pose proof (zlen_nonneg rows).
  eapply build_then_run; [exact V'|done|lia|exact HT|].
  intros c ov im1 W1 s1 V1 Hc Hndo Hdis Hnew Hs Hch1 Hcnt1 [Ht1 Hnd]. pose proof (between_all _ (proj1 Hr)) as Hx.
  destruct (cell_rep_size _ _ _ _ _ Hc) as (Hsz & _). pose proof HT as [HT0 _].
  rewrite <- (can_grow_frame im im1 _ _ _ _ _ _ _ _ Hx HT0 Hs), <- Hsz in Hgrow.
  assert (NoDup (pgs ++ ov)) as Hnd' by (apply NoDup_app; split_and!; [done| |done]; intros x Hx' Hin; by apply (Hdis x)).
  assert (run (insert_with_splitting fuel root (fst r) (fun _ => mret c) []) s1
    (fun _ s' => exists im' W', view im' W' s' /\ only_changes (list_to_set pgs) im1 im' /\
       grown im1 im' us (d + length rows) root (I64_MIN - 1) I64_MAX (pgs ++ ov) (6 * zlen rows) (rows ++ [r])) dead) as Hrun.
  { destruct (is_leaf_page im1 root) eqn:Eleaf; [|eapply append_node_run; (eassumption || lia)].
    assert (page_ok (im_count im1) root) as Hroot by (destruct d; apply Ht1).
    assert (exists ovs, leaf_at im1 us root rows ovs /\ pgs = root :: mjoin ovs /\ sorted_rows rows /\
              Forall (between (I64_MIN - 1) I64_MAX) rows) as (ovs & Hl & -> & HS & HF).
    { destruct d; destruct Ht1 as [_ [Ht1|Ht1]]; try done. destruct Ht1 as (ch' & rm' & ? & Hn' & _).
      by rewrite (is_leaf_page_node _ _ _ _ Hn') in Eleaf. }
    pose proof (can_grow_leaf _ _ _ _ _ _ _ _ Hl Hgrow) as Hempty.
    eapply run_mono; [apply (append_leaf_run r c ov (length rows) fuel rows ovs s1 im1 W1 root (I64_MIN - 1) I64_MAX eq_refl V1); (done || lia)| |done].
    intros [] s2 (im2 & W2 & V2 & Hch & pgs' & Ht2 & Hrest). exists im2, W2. split; [done|]. split.
    - eapply only_changes_mono; [exact Hch|]. intros x ->%elem_of_singleton _. rewrite elem_of_list_to_set. by left.
    - exists pgs'. split; [|done]. eapply table_at_mono; [|exact Ht2]. lia. }
  eapply run_mono; [exact Hrun| |done]. intros [] s2 (im2 & W2 & V2 & Hch & pgs' & Ht2 & Hndp & Hin & Hcnt).
  exists im2, W2, pgs'. split; [done|]. split; [done|]. split.
  - eapply only_changes_mono; [eapply changes_trans; [exact Hch1|exact Hch]|]. set_solver.
  - split; [|lia]. intros x Hx'. destruct (Hin x Hx') as [[?|Ho]%elem_of_app|?]; [by left| |].
    + right. rewrite Forall_forall in Hnew. by apply Hnew.
    + right. destruct Hch1. lia.
Qed.

End Grow.
