(* ===== verification/TableRead.v ===== *)
(** * Reading a table through a cursor

    The cursor of [btree/cursor.rs] as an iterator: [rewind] stands before the
    rows of the table, [next] moves past one, and what [rowid] and [payload]
    return is the row it stands on. [seek_rowid] finds a row, [max_rowid] the
    last one. *)

From S2P Require Import Prelude Varint DbHeader Vfs Wal Ptrmap BtreePage Pager Cell Balance BtreeInsert TableCursor Autovac PagerTxn.
From S2P Require Import Disk Recovery Atomic Transaction Store TableCell TableTree TableInsert.
#[local] Open Scope Z_scope.

(** ** The children of a node, from left to right *)

Definition children (ch : list (Z * Z)) (rm : Z) : list Z := (fst <$> ch) ++ [rm].

Lemma interior_child_eq im g ch rm hdr k : node_at im g ch rm ->
  parse (im_page im g) (btree_header_offset g) = Ok hdr -> 0 <= k ->
  interior_child hdr (im_page im g) k = Ok (zget (children ch rm) k).
Proof.
  intros Hn Hp Hk. destruct (node_pick _ _ _ _ 0 Hn) as (hdr' & Hp' & _ & Hnum & Hrm & _).
  rewrite Hp in Hp'. injection Hp' as <-. destruct Hn as (ccs & R & _ & Hok).
  unfold interior_child, children. rewrite Hnum. pose proof (zlen_fmap fst ch) as Hz.
  destruct (Z.ltb_spec k (zlen ch)) as [Hlt|Hge].
  - destruct (zget_in ch k ltac:(lia)) as [ck Hck].
    destruct (child_cell_read _ _ _ _ hdr k ck R Hp) as (off & Hcp & Hpc).
    + unfold zget in *. destruct (k <? 0); [done|]. by rewrite list_lookup_fmap, Hck.
    + by eapply zget_Forall.
    + rewrite Hcp. cbn [mbind outcome_bind]. rewrite Hpc. cbn [mbind outcome_bind ti_left_child].
      rewrite zget_app_l by lia. f_equal. unfold zget in *. destruct (k <? 0); [done|]. by rewrite list_lookup_fmap, Hck.
  - rewrite zget_app_r by lia. rewrite Hz, Hrm. destruct (Z.eqb_spec k (zlen ch)) as [->|].
    + by rewrite Z.sub_diag.
    + f_equal. symmetry. apply zget_None. right. rewrite zlen_cons. change (zlen (@nil Z)) with 0. lia.
Qed.

Lemma Forall3_zget {A B C} (P : A -> B -> C -> Prop) l k l' i y : Forall3 P l k l' -> zget k i = Some y ->
  exists x z, zget l i = Some x /\ zget l' i = Some z /\ P x y z.
Proof.
  unfold zget. destruct (i <? 0); [done|]. generalize (Z.to_nat i) as j. intros j HF. revert j.
  induction HF as [|a b c l k l' Ha HF IH]; intros j; [done|]. destruct j as [|j]; cbn; [|apply IH].
  intros [= ->]. by exists a, c.
Qed.

Lemma mjoin_cons {A} (x : list A) l : mjoin (x :: l) = x ++ mjoin l.
Proof. done. Qed.

(** The subtrees of the children, each with its rows and pages. *)
Definition subtree (im : Image) (us : Z) (d : nat) (c : Z) (rows : list row) (pgs : list Z) : Prop :=
  exists lo hi, table_at im us d c lo hi pgs rows.

Lemma kids_subtrees im us d ch rm hi : forall lo pgs rows, kids (table_at im us d) lo ch rm hi pgs rows ->
  exists rowss pgss, Forall3 (subtree im us d) (children ch rm) rowss pgss /\ rows = mjoin rowss /\ pgs = mjoin pgss.
Proof.
  induction ch as [|[c k] ch IH]; intros lo pgs rows; cbn [kids].
  - intros HP. exists [rows], [pgs]. cbn. rewrite !app_nil_r. split; [|done]. constructor; [by exists lo, hi|constructor].
  - intros (_ & p1 & p2 & r1 & r2 & -> & -> & HP & HK). destruct (IH _ _ _ HK) as (rowss & pgss & HF & -> & ->).
    exists (r1 :: rowss), (p1 :: pgss). split; [|done]. cbn. constructor; [by exists lo, k|done].
Qed.

Lemma kids_right P ch rm hi lo pgs rows : kids P lo ch rm hi pgs rows ->
  exists mid p1 p2 r1 r2, pgs = p1 ++ p2 /\ rows = r1 ++ r2 /\ P rm mid hi p2 r2.
Proof.
  rewrite <- (app_nil_r ch). intros HK. apply kids_app in HK as (mid & p1 & p2 & r1 & r2 & -> & -> & _ & HP).
  by exists mid, p1, p2, r1, r2.
Qed.

(** ** The greatest rowid *)

Fixpoint right_leaf (im : Image) (d : nat) (g : Z) : Z :=
  match parse (im_page im g) (btree_header_offset g) with
  | Ok hdr =>
      if is_leaf (page_type hdr) then g
      else match d, right_most_pointer hdr with S d', Some rm => right_leaf im d' rm | _, _ => g end
  | _ => g
  end.
Definition is_empty_page (im : Image) (g : Z) : bool :=
  match parse (im_page im g) (btree_header_offset g) with Ok hdr => num_cells hdr =? 0 | _ => false end.

Section Max.
Context {E F : Type} `{VfsOps E F} {ps us : Z}.
Notation State := (Pager F * (Proc * E))%type.
Context {view : Image -> State -> Prop} {dead : State -> Prop} `{!PageReader ps us view dead}.

Lemma leaf_last_run im s g rows ovs hdr : view im s -> leaf_at im us g rows ovs ->
  parse (im_page im g) (btree_header_offset g) = Ok hdr -> num_cells hdr <> 0 ->
  exists r rows', rows = rows' ++ [r] /\
    (off ← cell_pointer hdr (im_page im g) (num_cells hdr - 1); table_leaf_cell_rowid (im_page im g) off) = Ok (fst r).
Proof.
  intros V (ccs & cells & R & _ & HF) Hp Hne. destruct rd_sizes as [_ Hus].
  destruct (page_rep_parse _ _ _ _ _ R) as (hdr' & Hp' & _ & Hn & _). rewrite Hp in Hp'. injection Hp' as <-.
  destruct cells as [|c cells _] using rev_ind; [by rewrite Hn in Hne|].
  destruct (Forall3_mid _ _ _ _ _ c [] HF eq_refl) as (k1 & r & k2 & ? & ov & ? & Hr & _ & Hl & _ & Hcell & Hnil).
  assert (k2 = []) as -> by (by inversion Hnil). exists r, k1. split; [done|].
  destruct Hcell as (gp & -> & Hrow & Hgp & _). rewrite Hn, zlen_app, zlen_cons. change (zlen (@nil bytes)) with 0.
  replace (zlen cells + (1 + 0) - 1) with (zlen cells) by lia.
  destruct (leaf_cell_read _ _ _ us _ hdr (zlen cells) r gp R Hp ltac:(lia) (zget_mid _ _ _) Hrow Hgp)
    as (off & Hcp & _ & Hrid & _).
  rewrite Hcp. cbn [mbind outcome_bind]. done.
Qed.

Lemma max_rowid_run im d : forall fuel s g lo hi pgs rows, view im s -> table_at im us d g lo hi pgs rows -> (d < fuel)%nat ->
  run (max_rowid fuel g) s
    (fun m s' => view im s' /\
       if is_empty_page im (right_leaf im d g) then m = 0 else exists r rows', rows = rows' ++ [r] /\ m = fst r) dead.
Proof.
  induction d as [|d IH]; intros fuel s g lo hi pgs rows V [Hg Ht] Hf;
    (destruct fuel as [|fuel]; [lia|]); cbn [max_rowid];
    destruct Ht as [(ovs & Hl & _)|Ht]; try done.
  1,2: pose proof Hl as (ccs & cells & R & _); eapply read_header_run; [done|done|exact R|];
    intros hdr s' V' (Hp & Hty & Hn); rewrite Hty; cbn [right_leaf]; rewrite Hp, Hty; cbn [is_leaf];
    unfold is_empty_page; rewrite Hp; destruct (Z.eqb_spec (num_cells hdr) 0) as [E0|Hne];
    [by apply run_ret|];
    destruct (leaf_last_run im s' g rows ovs hdr V' Hl Hp Hne) as (r & rows' & -> & Hlast);
    destruct (cell_pointer hdr (im_page im g) (num_cells hdr - 1)) as [off| |] eqn:Ecp; [|discriminate Hlast..];
    apply run_bind; (eapply run_lift; [reflexivity|]); (eapply run_lift; [exact Hlast|]); split; [done|];
    by exists r, rows'.
  destruct Ht as (ch & rm & pgs0 & Hn & -> & HK). destruct (node_pick _ _ _ _ 0 Hn) as (hdr & Hp & Hty & _ & Hrm & _).
  pose proof Hn as (ccs & R & _). eapply read_header_run; [done|done|exact R|].
  intros hdr' s' V' (Hp' & _). rewrite Hp in Hp'. injection Hp' as <-. rewrite Hty, Hrm.
  apply run_bind. eapply run_lift; [reflexivity|].
  destruct (kids_right _ _ _ _ _ _ _ HK) as (mid & p1 & p2 & r1 & r2 & -> & -> & HT).
  cbn [right_leaf]. rewrite Hp, Hty, Hrm. cbn [is_leaf].
  eapply run_mono; [apply (IH fuel s' rm mid hi p2 r2 V' HT); lia| |done].
  intros m s2 [V2 Hm]. split; [done|]. destruct (is_empty_page _ _); [done|].
  destruct Hm as (r & rows' & -> & ->). exists r, (r1 ++ rows'). by rewrite <- app_assoc.
Qed.
End Max.

(** ** Where a cursor stands *)

Section Frames.
Context (im : Image) (us : Z) (D : nat).

(** The frames of the stack, the rows of the children they have not visited
    yet, and a bound on the steps it takes to visit them. *)
Inductive frames : list (bytes * PageHeader * Z) -> list row -> nat -> Prop :=
  | frames_nil : frames [] [] 0
  | frames_cons g ch rm hdr k fs rowss pgss rest n :
      node_at im g ch rm -> parse (im_page im g) (btree_header_offset g) = Ok hdr -> 0 <= k ->
      Forall3 (subtree im us D) (zdrop k (children ch rm)) rowss pgss -> frames fs rest n ->
      frames ((im_page im g, hdr, k) :: fs) (mjoin rowss ++ rest) (S (length (mjoin pgss) + n)).

Lemma frames_inv fs rest n : frames fs rest n ->
  match fs with
  | [] => rest = []
  | (page, hdr, k) :: fs => exists g ch rm rowss pgss rest0 n0, page = im_page im g /\ node_at im g ch rm /\
      parse (im_page im g) (btree_header_offset g) = Ok hdr /\ 0 <= k /\
      Forall3 (subtree im us D) (zdrop k (children ch rm)) rowss pgss /\ frames fs rest0 n0 /\
      rest = mjoin rowss ++ rest0 /\ n = S (length (mjoin pgss) + n0)
  end.
Proof.
  intros [|g ch rm hdr k fs' rowss pgss rest' n' Hn Hp Hk HF Hfr]; [done|].
  exists g, ch, rm, rowss, pgss, rest', n'. by split_and!.
Qed.

(** The cursor holds a leaf with the rows [here]. *)
Definition on_leaf (c : TableCursor) (here : list row) : Prop :=
  exists g ovs hdr, leaf_at im us g here ovs /\ parse (im_page im g) (btree_header_offset g) = Ok hdr /\
    tc_leaf c = Some (im_page im g) /\ tc_leaf_hdr c = Some hdr.

(** The cursor stands before [rows]: on the first of them, or at the end. *)
Definition stands (c : TableCursor) (rows : list row) (n : nat) : Prop :=
  tc_usable c = us /\ tc_null_row c = false /\ tc_pending_advance c = false /\
  if tc_at_end c then rows = []
  else exists here rest, on_leaf c here /\ frames (tc_stack c) rest n /\
         rows = zdrop (tc_cell_idx c) here ++ rest /\ 0 <= tc_cell_idx c < zlen here.

Lemma on_leaf_cells c here : on_leaf c here -> leaf_cells c = zlen here.
Proof.
  intros (g & ovs & hdr & (ccs & cells & R & _ & HF) & Hp & _ & Hh). unfold leaf_cells. rewrite Hh.
  destruct (page_rep_parse _ _ _ _ _ R) as (hdr' & Hp' & _ & Hn & _). rewrite Hp in Hp'. injection Hp' as <-.
  rewrite Hn. by destruct (Forall3_zlen _ _ _ _ HF).
Qed.

Lemma stands_valid c rows n : stands c rows n -> is_valid c = match rows with [] => false | _ => true end.
Proof.
  intros (_ & _ & _ & Hs). unfold is_valid. destruct (tc_at_end c); [by subst rows|].
  destruct Hs as (here & rest & Hl & _ & -> & Hi). pose proof (on_leaf_cells _ _ Hl) as Hn.
  destruct Hl as (g & ovs & hdr & _ & _ & -> & _). rewrite Hn.
  destruct (Z.ltb_spec (tc_cell_idx c) (zlen here)); [|lia].
  destruct (zget_in here (tc_cell_idx c) Hi) as [r Hr].
  rewrite (zdrop_zget_cons here (tc_cell_idx c)) by lia. by rewrite Hr.
Qed.

(** The cell under the cursor. *)
Lemma cell_on_leaf c here r : 480 <= us -> tc_usable c = us -> tc_at_end c = false -> on_leaf c here ->
  zget here (tc_cell_idx c) = Some r ->
  is_valid c = true /\ exists gp ov, current_cell c = Ok (parsed_cell us r gp) /\ payload_at im us r gp ov.
Proof.
  intros Hus Hu He Hl Hr. pose proof (on_leaf_cells _ _ Hl) as Hn. pose proof (zget_Some _ _ _ Hr).
  destruct Hl as (g & ovs & hdr & (ccs & cells & R & _ & HF) & Hp & Hle & Hh).
  assert (is_valid c = true) as Hv.
  { unfold is_valid. rewrite He, Hle, Hn. by destruct (Z.ltb_spec (tc_cell_idx c) (zlen here)); [|lia]. }
  split; [done|]. unfold current_cell. rewrite Hv, Hle, Hh. cbn [ok_or mbind outcome_bind expect].
  destruct (Forall3_zget _ _ _ _ _ _ HF Hr) as (cell & ov & Hcell & _ & gp & -> & Hrow & Hgp & Hov).
  destruct (leaf_cell_read _ _ _ us _ hdr (tc_cell_idx c) r gp R Hp Hus Hcell Hrow Hgp) as (off & Hcp & Hat & _).
  rewrite Hcp. cbn [mbind outcome_bind]. rewrite Hu. by exists gp, ov.
Qed.
Lemma stands_cell c r rows n : 480 <= us -> stands c (r :: rows) n ->
  exists gp ov, current_cell c = Ok (parsed_cell us r gp) /\ payload_at im us r gp ov.
Proof.
  intros Hus (Hu & _ & _ & Hs). destruct (tc_at_end c) eqn:He; [done|]. destruct Hs as (here & rest & Hl & _ & Hrows & Hi).
  destruct (zget_in here (tc_cell_idx c) Hi) as [r' Hr'].
  rewrite (zdrop_zget_cons here (tc_cell_idx c)) in Hrows by lia. rewrite Hr' in Hrows. injection Hrows as <- _.
  by apply (cell_on_leaf c here r).
Qed.
End Frames.

(** ** The operations of the cursor *)

Section CursorRun.
Context {E F : Type} `{VfsOps E F} {ps us : Z}.
Notation State := (Pager F * (Proc * E))%type.
Context {view : Image -> State -> Prop} {dead : State -> Prop} `{!PageReader ps us view dead}.
Notation CS := (TableCursor * State)%type.
Definition cdead : CS -> Prop := fun '(_, s) => dead s.

Lemma run_onpg {A} (m : PagerM (E:=E) (F:=F) A) c s (ok : A -> CS -> Prop) :
  run m s (fun a s' => ok a (c, s')) dead -> run (onpg m) (c, s) ok cdead.
Proof. unfold run, onpg, on_snd. by destruct (m s) as [[?|?|] ?]. Qed.
Lemma run_getc {A} (f : TableCursor -> A) c s (ok : A -> CS -> Prop) err :
  ok (f c) (c, s) -> run (getc (E:=E) (F:=F) f) (c, s) ok err.
Proof. done. Qed.
Lemma run_updc f c s (ok : unit -> CS -> Prop) err : ok tt (f c, s) -> run (updc (E:=E) (F:=F) f) (c, s) ok err.
Proof. done. Qed.

Lemma header_cursor_run {B} im c s g ty ccs cells (k : bytes -> PageHeader -> CursorM (E:=E) (F:=F) B) ok :
  view im s -> page_ok (im_count im) g ->
  page_rep (im_page im g) (btree_header_offset g) ty ccs cells ->
  (forall hdr s', view im s' -> header_for (im_page im g) (btree_header_offset g) ty (zlen cells) hdr ->
     run (k (im_page im g) hdr) (c, s') ok cdead) ->
  run (page ← onpg (get_page g); hdr ← lift (header_of page g); k page hdr) (c, s) ok cdead.
Proof.
  intros V Hg R Hk. apply run_bind, run_onpg. eapply run_mono; [by apply rd_get| |done]. intros b s' [-> V'].
  destruct (page_rep_header _ _ _ _ _ R) as (hdr & Hh). apply run_bind.
  eapply run_lift; [apply Hh|]. by apply Hk.
Qed.

Context (im : Image) (D : nat).

(** What going down to a leaf keeps of the cursor. *)
Definition keeps (c c' : TableCursor) : Prop :=
  tc_root c' = tc_root c /\ tc_usable c' = tc_usable c /\ tc_at_end c' = tc_at_end c /\ tc_null_row c' = tc_null_row c /\
  tc_rebalance_in_progress c' = tc_rebalance_in_progress c.

Lemma descend_left_run d : forall fuel c s g pgs rows rest n, (d <= D)%nat -> view im s ->
  subtree im us d g rows pgs -> frames im us D (tc_stack c) rest n -> (d < fuel)%nat ->
  run (descend_left fuel g) (c, s)
    (fun _ '(c', s') => view im s' /\ keeps c c' /\ tc_pending_advance c' = false /\ tc_cell_idx c' = 0 /\
       exists here rest' n', on_leaf im us c' here /\ frames im us D (tc_stack c') rest' n' /\
         here ++ rest' = rows ++ rest /\ (n' < n + length pgs)%nat) cdead.
Proof.
  induction d as [|d IH]; intros fuel c s g pgs rows rest n Hd V (lo & hi & [Hg Ht]) Hfr Hf;
    (destruct fuel as [|fuel]; [lia|]); cbn [descend_left];
    destruct Ht as [(ovs & Hl & -> & _)|Ht]; try done.
  1,2: pose proof Hl as (ccs & cells & R & _); eapply header_cursor_run; [done|done|exact R|];
    intros hdr s' V' (Hp & Hty & _); rewrite Hty; apply run_updc; split; [done|];
    split; [by split_and!|]; split; [done|]; split; [done|]; exists rows, rest, n;
    split; [by exists g, ovs, hdr|]; split; [done|]; split; [done|cbn; lia].
  destruct Ht as (ch & rm & pgs0 & Hn & -> & HK). destruct (node_pick _ _ _ _ 0 Hn) as (hdr & Hp & Hty & _).
  pose proof Hn as (ccs & R & _). eapply header_cursor_run; [done|done|exact R|].
  intros hdr' s' V' (Hp' & _). rewrite Hp in Hp'. injection Hp' as <-. rewrite Hty.
  destruct (kids_subtrees _ _ _ _ _ _ _ _ _ HK) as (rowss & pgss & HF & -> & ->).
  apply run_bind. eapply run_lift; [by apply (interior_child_eq im g ch rm)|].
  assert (exists c0 cs, children ch rm = c0 :: cs) as (c0 & cs & Hcs) by (destruct ch; by eexists _, _).
  rewrite Hcs in HF |- *. inversion HF as [|? r0 p0 ? rowss' pgss' HT HF']; subst.
  apply run_bind. eapply run_lift; [reflexivity|]. apply run_bind, run_updc. rewrite !mjoin_cons.
  eapply run_mono; [eapply (IH fuel _ s' c0 p0 r0 (mjoin rowss' ++ rest) (S (length (mjoin pgss') + n))); [lia|exact V'|exact HT| |lia]| |done].
  - cbn [tc_stack set_stack]. apply (frames_cons _ _ _ g ch rm hdr 1 (tc_stack c) rowss' pgss' rest n); [done|done|lia| |done].
    rewrite Hcs. cbn. eapply Forall3_impl; [exact HF'|]. intros x y z (l & h & HT'). exists l, h.
    eapply table_at_mono; [|exact HT']. lia.
  - intros [] [c' s2] (V2 & Hk & Hpa & Hi & here & rest' & n' & Hl & Hfr' & Heq & Hlt). split; [done|].
    split; [done|]. split; [done|]. split; [done|]. exists here, rest', n'. split; [done|]. split; [done|].
    rewrite Heq. split; [by rewrite app_assoc|].
    cbn [length]. rewrite length_app. lia.
Qed.

Lemma advance_run : forall fuel c s rest n, view im s -> frames im us D (tc_stack c) rest n ->
  tc_usable c = us -> tc_null_row c = false -> tc_pending_advance c = false -> tc_at_end c = false -> (D + n < fuel)%nat ->
  run (advance_to_next_leaf fuel) (c, s)
    (fun _ '(c', s') => view im s' /\ exists n', stands im us D c' rest n' /\ (n' <= n)%nat) cdead.
Proof.
  induction fuel as [|fuel IH]; intros c s rest n V Hfr Hu Hnull Hpend Hend Hf; [lia|]. cbn [advance_to_next_leaf].
  apply run_bind, run_getc.
  pose proof (frames_inv _ _ _ _ _ _ Hfr) as Hinv. destruct (tc_stack c) as [|[[page hdr] k] fs] eqn:Est.
  { subst rest. apply run_updc. split; [done|]. exists 0%nat. split; [by split_and!|lia]. }
  destruct Hinv as (g & ch & rm & rowss & pgss & rest0 & n0 & -> & Hn & Hp & Hk & HF & Hfr0 & -> & ->).
  apply run_bind. eapply run_lift; [by apply (interior_child_eq im g ch rm)|].
  destruct (zget (children ch rm) k) as [child|] eqn:Ek.
  - pose proof (zget_Some _ _ _ Ek). rewrite (zdrop_zget_cons _ k) in HF by lia. rewrite Ek in HF.
    apply Forall3_cons_inv_l in HF as (r0 & rowss' & p0 & pgss' & -> & -> & HT & HF'). apply run_bind, run_updc.
    apply run_bind. eapply run_mono; [eapply (descend_left_run D fuel _ s child p0 r0 (mjoin rowss' ++ rest0)
      (S (length (mjoin pgss') + n0))); [done|exact V|exact HT| |lia]| |done].
    { apply (frames_cons _ _ _ g ch rm hdr (k + 1) fs rowss' pgss' rest0 n0); (done || lia). }
    intros [] [c' s2] (V2 & (_ & Hu' & He' & Hn' & _) & Hpa & Hi & here & rest' & n' & Hl & Hfr' & Heq & Hlt).
    cbn in Hu', He', Hn'. apply run_bind, run_getc. rewrite (on_leaf_cells _ _ _ _ Hl).
    rewrite !mjoin_cons, length_app in *. rewrite <- app_assoc, <- Heq.
    destruct (Z.gtb_spec (zlen here) 0).
    + apply run_ret. split; [done|]. exists n'. split; [|lia]. split; [congruence|]. split; [congruence|]. split; [done|].
      rewrite He', Hend. exists here, rest'. rewrite Hi. by rewrite zdrop_0 by lia.
    + assert (here = []) as -> by (destruct here as [|? l]; [done|rewrite zlen_cons in *; pose proof (zlen_nonneg l); lia]).
      eapply run_mono; [eapply (IH c' s2 rest' n'); try done; try congruence; lia| |done].
      intros [] [c2 s3] (V3 & n2 & Hs & Hle). split; [done|]. exists n2. split; [done|lia].
  - apply zget_None in Ek as [?|Hge]; [lia|]. rewrite zdrop_all in HF by lia. assert (rowss = [] /\ pgss = []) as [-> ->] by (by inversion HF).
    apply run_bind, run_updc. eapply run_mono; [eapply (IH _ s rest0 n0); try done; cbn; lia| |done].
    intros [] [c2 s3] (V3 & n2 & Hs & Hle). split; [done|]. exists n2. split; [done|cbn; lia].
Qed.

Lemma rewind_run fuel c s root lo hi pgs rows : view im s -> table_at im us D root lo hi pgs rows ->
  tc_root c = root -> tc_usable c = us -> (D + length pgs < fuel)%nat ->
  run (rewind fuel) (c, s)
    (fun _ '(c', s') => view im s' /\ exists n', stands im us D c' rows n' /\ (n' < length pgs)%nat) cdead.
Proof.
  intros V HT Hr Hu Hf. unfold rewind. apply run_bind, run_updc, run_bind, run_getc. cbn [tc_root reset]. rewrite Hr.
  apply run_bind. eapply run_mono; [apply (descend_left_run D fuel (reset c) s root pgs rows [] 0); [done|done|by exists lo, hi|constructor|lia]| |done].
  intros [] [c' s2] (V2 & (_ & Hu' & He' & Hn' & _) & Hpa & Hi & here & rest' & n' & Hl & Hfr' & Heq & Hlt).
  cbn in Hu', He', Hn'. rewrite app_nil_r in Heq. apply run_bind, run_getc. rewrite (on_leaf_cells _ _ _ _ Hl), <- Heq.
  destruct (Z.eqb_spec (zlen here) 0).
  - assert (here = []) as -> by (destruct here as [|? l]; [done|rewrite zlen_cons in *; pose proof (zlen_nonneg l); lia]).
    eapply run_mono; [apply (advance_run fuel c' s2 rest' n'); try done; try congruence; lia| |done].
    intros [] [c2 s3] (V3 & n2 & Hs & Hle). split; [done|]. exists n2. split; [done|lia].
  - apply run_ret. split; [done|]. exists n'. split; [|lia]. split; [congruence|]. split; [done|]. split; [done|].
    rewrite He'. exists here, rest'. rewrite Hi, zdrop_0 by lia. pose proof (zlen_nonneg here). split_and!; try done; lia.
Qed.

Lemma next_run fuel c s r rows n : view im s -> stands im us D c (r :: rows) n -> (D + n < fuel)%nat ->
  run (next fuel) (c, s) (fun _ '(c', s') => view im s' /\ exists n', stands im us D c' rows n' /\ (n' <= n)%nat) cdead.
Proof.
  intros V (Hu & Hnull & Hpend & Hs) Hf. unfold next. apply run_bind, run_getc.
  destruct (tc_at_end c) eqn:He; [done|]. destruct Hs as (here & rest & Hl & Hfr & Hrows & Hi).
  apply run_bind, run_updc, run_bind, run_getc. cbn [tc_pending_advance set_null]. rewrite Hpend.
  apply run_bind, run_updc, run_bind, run_getc. unfold id.
  set (c1 := set_cell_idx _ _). assert (on_leaf im us c1 here) as Hl1 by done.
  rewrite (on_leaf_cells _ _ _ _ Hl1). change (tc_cell_idx c1) with (tc_cell_idx c + 1).
  rewrite (zdrop_zget_cons here (tc_cell_idx c)) in Hrows by lia.
  destruct (zget_in here (tc_cell_idx c) Hi) as [r' Hr']. rewrite Hr' in Hrows. injection Hrows as -> ->.
  destruct (Z.ltb_spec (tc_cell_idx c + 1) (zlen here)).
  - apply run_ret. split; [done|]. exists n. split; [|done]. split; [done|]. split; [done|]. split; [done|].
    change (tc_at_end c1) with (tc_at_end c). rewrite He. exists here, rest. split; [done|]. split; [done|].
    change (tc_cell_idx c1) with (tc_cell_idx c + 1). split; [done|lia].
  - rewrite zdrop_all by lia. by apply (advance_run fuel c1 s rest n).
Qed.

(** [stands] before a row: [rowid] and [payload] return it. *)
Lemma payload_run c s r rows n : view im s -> stands im us D c (r :: rows) n ->
  rowid c = Ok (fst r) /\
  run payload (c, s) (fun b '(c', s') => b = snd r /\ c' = c /\ view im s') cdead.
Proof.
  intros V Hs. destruct rd_sizes as [_ Hus].
  destruct (stands_cell im us D c r rows n ltac:(lia) Hs) as (gp & ov & Hc & Hp). pose proof Hs as (_ & Hnull & _).
  unfold rowid, payload. rewrite Hnull, Hc. split; [done|]. apply run_bind, run_getc. unfold id. rewrite Hnull, Hc.
  apply run_bind. eapply run_lift; [reflexivity|]. apply run_onpg.
  eapply run_mono; [by apply (assemble_payload_run im s r gp ov)| |done]. by intros b s' [-> ?].
Qed.

(** A client's loop, as the byte code runs it: [Rewind], then the row and
    [Next] until the cursor is past the end. *)
Fixpoint cursor_rows (fuel k : nat) : CursorM (E:=E) (F:=F) (list row) :=
  match k with
  | O => lift Panic
  | S k' =>
      c ← getc id;
      if is_valid c
      then
        x ← lift (rowid c);
        b ← payload;
        next fuel ;;
        rows ← cursor_rows fuel k';
        mret ((x, b) :: rows)
      else mret []
  end.

Lemma cursor_rows_run fuel rows : forall k c s n, view im s -> stands im us D c rows n ->
  (D + n < fuel)%nat -> (length rows < k)%nat ->
  run (cursor_rows fuel k) (c, s) (fun out '(c', s') => out = rows /\ is_valid c' = false /\ view im s') cdead.
Proof.
  induction rows as [|r rows IH]; intros k c s n V Hs Hf Hk; (destruct k as [|k]; [cbn in Hk; lia|]); cbn [cursor_rows];
    apply run_bind, run_getc; unfold id; pose proof (stands_valid _ _ _ _ _ _ Hs) as Hv; rewrite Hv.
  { by apply run_ret. }
  destruct (payload_run c s r rows n V Hs) as [Hrow Hpay].
  apply run_bind. eapply run_lift; [exact Hrow|]. apply run_bind. eapply run_mono; [exact Hpay| |done].
  intros b [c1 s1] (-> & -> & V1). apply run_bind. eapply run_mono; [by apply (next_run fuel c s1 r rows n V1 Hs)| |done].
  intros [] [c2 s2] (V2 & n2 & Hs2 & Hle). apply run_bind.
  eapply run_mono; [apply (IH k c2 s2 n2 V2 Hs2); cbn in Hk; lia| |done].
  intros out [c3 s3] (-> & Hv3 & V3). apply run_ret. by destruct r.
Qed.

End CursorRun.

(** ** Seeking a rowid *)

Lemma insert_pos_lt x rows i r : sorted_rows rows -> zget rows i = Some r -> (fst r < x <-> i < insert_pos x rows).
Proof.
  intros HS. revert i. induction HS as [|a rows HS IH HF]; intros i Hi; [by apply zget_Some in Hi as [? ?]; change (zlen []) with 0 in *; lia|].
  pose proof (zget_Some _ _ _ Hi) as [H0 _]. cbn [insert_pos]. pose proof (insert_pos_range x rows).
  destruct (Z.eq_dec i 0) as [->|Hne].
  - injection Hi as <-. destruct (Z.leb_spec x (fst a)); split; lia.
  - assert (zget rows (i - 1) = Some r) as Hi'.
    { unfold zget in *. destruct (Z.ltb_spec i 0); [lia|]. destruct (Z.ltb_spec (i - 1) 0); [lia|].
      by replace (Z.to_nat i) with (S (Z.to_nat (i - 1))) in Hi by lia. }
    assert (fst a < fst r) as Har by (by apply (zget_Forall (fun b : row => fst a < fst b) rows (i - 1))).
    specialize (IH _ Hi'). destruct (Z.leb_spec x (fst a)); split; lia.
Qed.

Lemma zget_cons_S {A} (a : A) l i : 0 <= i -> zget (a :: l) (1 + i) = zget l i.
Proof.
  intros Hi. unfold zget. destruct (Z.ltb_spec (1 + i) 0); [lia|]. destruct (Z.ltb_spec i 0); [lia|].
  by replace (Z.to_nat (1 + i)) with (S (Z.to_nat i)) by lia.
Qed.

(** The row of rowid [x] is at [insert_pos x], if anywhere. *)
Lemma insert_pos_found x rows : sorted_rows rows ->
  (exists b, zget rows (insert_pos x rows) = Some (x, b)) \/
  ((forall b, (x, b) ∉ rows) /\ forall r, zget rows (insert_pos x rows) = Some r -> fst r <> x).
Proof.
  intros HS. induction HS as [|[y b] rows HS IH HF].
  { right. split; [|done]. intros b. apply not_elem_of_nil. }
  cbn [insert_pos fst]. pose proof (insert_pos_range x rows). destruct (Z.leb_spec x y).
  - destruct (Z.eq_dec y x) as [->|Hne]; [by left; exists b|]. right. split; [|by intros r [= <-]].
    intros b' [[= ? ?]|Hin]%elem_of_cons; [done|]. rewrite Forall_forall in HF. specialize (HF _ Hin). cbn in HF. lia.
  - rewrite zget_cons_S by lia. destruct IH as [?|[Hn Hr]]; [by left|]. right. split; [|done].
    intros b' [[= ? ?]|Hin]%elem_of_cons; [lia|by apply (Hn b')].
Qed.

Section Seek.
Context {E F : Type} `{VfsOps E F} {ps us : Z}.
Notation State := (Pager F * (Proc * E))%type.
Context {view : Image -> State -> Prop} {dead : State -> Prop} `{!PageReader ps us view dead}.
Notation CS := (TableCursor * State)%type.

(** The binary search finds the first cell whose rowid reaches the target. *)
Lemma search_loop_eq im g rows ovs hdr x : 480 <= us -> leaf_at im us g rows ovs -> sorted_rows rows ->
  parse (im_page im g) (btree_header_offset g) = Ok hdr ->
  forall fuel lo hi, 0 <= lo -> lo <= insert_pos x rows <= hi -> hi <= zlen rows -> hi - lo < Z.of_nat fuel ->
  search_loop fuel (im_page im g) hdr us x lo hi = Ok (insert_pos x rows).
Proof.
  intros Hus (ccs & cells & R & _ & HF) HS Hp. induction fuel as [|fuel IH]; intros lo hi Hlo Hpos Hhi Hf; [lia|].
  cbn [search_loop]. destruct (Z.ltb_spec lo hi); [|f_equal; lia].
  assert (lo <= (lo + hi) / 2 < hi) as Hmid by (split; [apply Z.div_le_lower_bound|apply Z.div_lt_upper_bound]; lia).
  set (mid := (lo + hi) / 2) in *. destruct (zget_in rows mid ltac:(lia)) as [r Hr].
  destruct (Forall3_zget _ _ _ _ _ _ HF Hr) as (cell & ov & Hcell & _ & gp & -> & Hrow & Hgp & _).
  destruct (leaf_cell_read _ _ _ us _ hdr mid r gp R Hp Hus Hcell Hrow Hgp) as (off & Hcp & Hat & _).
  rewrite Hcp. cbn [mbind outcome_bind]. rewrite Hat. cbn [mbind outcome_bind tl_rowid parsed_cell].
  pose proof (insert_pos_lt x rows mid r HS Hr) as Hlt. destruct (Z.ltb_spec (fst r) x); apply IH; lia.
Qed.

Context (im : Image).

(** A frame of the stack holds an interior page. *)
Definition frame_ok : bytes * PageHeader * Z -> Prop := fun '(page, hdr, k) =>
  exists g ch rm, node_at im g ch rm /\ page = im_page im g /\ parse (im_page im g) (btree_header_offset g) = Ok hdr /\ 0 <= k.

(** The cursor after the descent: on the cell the search found. *)
Definition sought (us : Z) (x : Z) (rows : list row) (leaf : Z) (c' : TableCursor) : Prop :=
  tc_leaf_pgno c' = leaf /\ Forall frame_ok (tc_stack c') /\
  (forall here ovs, leaf_at im us leaf here ovs -> sorted_rows here ->
     on_leaf im us c' here /\ tc_cell_idx c' = insert_pos x here) /\
  exists here r1 r2, on_leaf im us c' here /\ sorted_rows here /\ rows = r1 ++ here ++ r2 /\
    Forall (fun a : row => fst a < x) r1 /\ Forall (fun a : row => x < fst a) r2 /\
    tc_cell_idx c' = insert_pos x here.

Lemma descend_to_target_run x d : forall fuel c s g lo hi pgs rows, view im s ->
  table_at im us d g lo hi pgs rows -> lo < x <= hi -> tc_usable c = us -> Forall frame_ok (tc_stack c) -> (d < fuel)%nat ->
  run (descend_to_target fuel g x) (c, s)
    (fun _ '(c', s') => view im s' /\ keeps c c' /\ (length (tc_stack c') <= length (tc_stack c) + d)%nat /\
       sought us x rows (leaf_for im d g x) c') (cdead (dead:=dead)).
Proof.
  destruct rd_sizes as [_ Hus].
  induction d as [|d IH]; intros fuel c s g lo hi pgs rows V [Hg Ht] Hx Hu Hst Hf;
    (destruct fuel as [|fuel]; [lia|]); cbn [descend_to_target];
    destruct Ht as [(ovs & Hl & -> & HS & _)|Ht]; try done.
  1,2: pose proof Hl as (ccs & cells & R & _ & HF); eapply header_cursor_run; [done|done|exact R|];
    intros hdr s' V' (Hp & Hty & Hn); rewrite Hty; apply run_bind, run_updc, run_bind, run_getc; unfold id;
    destruct (Forall3_zlen _ _ _ _ HF) as [Hz _]; pose proof (insert_pos_range x rows);
    apply run_bind; (eapply run_lift;
      [unfold leaf_index_for_rowid; cbn [tc_leaf tc_leaf_hdr tc_usable set_leaf set_leaf_pgno expect mbind outcome_bind]; rewrite Hu;
       apply (search_loop_eq im g rows ovs hdr x); (done || lia)|]);
    apply run_updc; (split; [done|]); (split; [by split_and!|]); (split; [cbn; lia|]); (split; [by rewrite (leaf_for_leaf _ _ _ _ _ _ _ Hl)|]); (split; [done|]);
    (split; [rewrite (leaf_for_leaf _ _ _ _ _ _ _ Hl); intros here ov2 Hl2 HS2; (split; [by exists g, ov2, hdr|]);
       pose proof (insert_pos_range x here); pose proof Hl2 as (ccs2 & cells2 & R2 & _ & HF2);
       destruct (page_rep_parse _ _ _ _ _ R2) as (hdr2 & Hp2 & _ & Hn2 & _); rewrite Hp in Hp2; injection Hp2 as <-;
       destruct (Forall3_zlen _ _ _ _ HF2) as [Hz2 _]; cbn [tc_cell_idx set_pending_advance set_cell_idx];
       assert (Ok (insert_pos x rows) = Ok (insert_pos x here)) as [= ?];
         [rewrite <- (search_loop_eq im g rows ovs hdr x ltac:(lia) Hl HS Hp (S (Z.to_nat (zlen rows))) 0 (zlen rows)) by lia;
          apply (search_loop_eq im g here ov2 hdr x); (done || lia)|done]|]);
    exists rows, [], [];
    (split; [by exists g, ovs, hdr|]); (split; [done|]); (split; [by rewrite app_nil_r|]); by repeat constructor.
  destruct Ht as (ch & rm & pgs0 & Hn & -> & HK). destruct (node_pick _ _ _ _ x Hn) as (hdr & Hp & Hty & _ & _ & _ & Hpick).
  pose proof Hn as (ccs & R & _). eapply header_cursor_run; [done|done|exact R|].
  intros hdr' s' V' (Hp' & _). rewrite Hp in Hp'. injection Hp' as <-. rewrite Hty.
  apply run_bind. eapply run_lift; [exact Hpick|]. apply run_bind, run_updc.
  assert (forall c' lo' hi' p' r', table_at im us d c' lo' hi' p' r' -> Forall (between lo' hi') r') as Hbt
    by (intros ????? Ht; by apply table_at_sorted in Ht as [_ ?]).
  pose proof (child_for_spec (table_at im us d) ch rm hi x Hbt lo pgs0 rows HK Hx) as Hsp.
  destruct (child_for x ch rm) as [[lch g1] rch] eqn:Efor. cbn [fst snd] in *.
  destruct Hsp as (mid & kx & p1 & pc & p2 & r1 & rc & r2 & -> & -> & Hmx & Htc & F1 & F2 & _).
  eapply run_mono; [apply (IH fuel _ s' g1 mid kx pc rc V' Htc); try (done || lia)| |done].
  { constructor; [|done]. exists g, ch, rm. split_and!; (done || lia). }
  intros [] [c' s2] (V2 & Hk & Hlen & Hlf & Hst' & Hany & here & q1 & q2 & Hl & HS & -> & G1 & G2 & Hi). split; [done|]. split; [done|]. split; [cbn in Hlen; lia|].
  rewrite (leaf_for_node _ _ _ _ _ _ Hn), Efor; cbn [fst snd]. split; [done|]. split; [done|]. split; [done|].
  exists here, (r1 ++ q1), (q2 ++ r2). rewrite <- !app_assoc. split_and!; try done; by apply Forall_app.
Qed.

(** The cursor reads the row [(x, b)]. *)
Definition reads_row (c : TableCursor) (s : State) (x : Z) (b : bytes) : Prop :=
  is_valid c = true /\ rowid c = Ok x /\
  run payload (c, s) (fun b' '(c', s') => b' = b /\ c' = c /\ view im s') (cdead (dead:=dead)).

Lemma seek_rowid_run x d fuel c s root pgs rows : view im s -> table_at im us d root (I64_MIN - 1) I64_MAX pgs rows ->
  is_i64 x -> tc_root c = root -> tc_usable c = us -> (d < fuel)%nat ->
  run (seek_rowid fuel x) (c, s)
    (fun found '(c', s') => view im s' /\
       if (found : bool)
       then exists b, (x, b) ∈ rows /\ reads_row c' s' x b /\ sought us x rows (leaf_for im d root x) c' /\
              (length (tc_stack c') <= d)%nat /\ tc_at_end c' = false /\ tc_usable c' = us /\ tc_root c' = root /\
              tc_rebalance_in_progress c' = tc_rebalance_in_progress c
       else (forall b, (x, b) ∉ rows) /\ is_valid c' = false) (cdead (dead:=dead)).
Proof.
  intros V HT Hx Hr Hu Hf. destruct rd_sizes as [_ Hus].
  unfold seek_rowid. apply run_bind, run_updc, run_bind, run_getc. cbn [tc_root reset]. rewrite Hr.
  apply run_bind. eapply run_mono; [by apply (descend_to_target_run x d fuel (reset c) s root _ _ pgs rows V HT (between_all x Hx) Hu ltac:(constructor))| |done].
  intros [] [c' s'] (V' & (Hroot & Hu' & He & Hnull & Hreb) & Hlen & Hso). pose proof Hso as (_ & _ & _ & here & r1 & r2 & Hl & HS & -> & F1 & F2 & Hi).
  cbn in Hroot, Hu', He, Hnull, Hreb. rewrite Hu in Hu'. apply run_bind, run_getc. unfold id.
  assert (forall b, (x, b) ∈ r1 ++ here ++ r2 -> (x, b) ∈ here) as Honly.
  { rewrite Forall_forall in F1. rewrite Forall_forall in F2. intros b. rewrite !elem_of_app.
    intros [Hin|[Hin|Hin]]; [specialize (F1 _ Hin); cbn in F1; lia|done|specialize (F2 _ Hin); cbn in F2; lia]. }
  destruct (zget here (insert_pos x here)) as [r|] eqn:Ez.
  - rewrite <- Hi in Ez. destruct (cell_on_leaf im us c' here r ltac:(lia) Hu' He Hl Ez) as (Hv & gp & ov & Hc & Hpa).
    rewrite Hv. cbn [negb]. apply run_bind. eapply run_lift; [exact Hc|]. cbn [tl_rowid parsed_cell].
    destruct (insert_pos_found x here HS) as [[b Hb]|[Hno Hne]]; rewrite <- Hi in *.
    + rewrite Hb in Ez. injection Ez as <-. cbn [fst]. rewrite Z.eqb_refl. cbn [negb]. apply run_ret. split; [done|].
      exists b. split.
      { rewrite !elem_of_app. right; left. unfold zget in Hb. destruct (_ <? 0); [done|]. by eapply list_elem_of_lookup_2. }
      split; [|split_and!; (done || congruence)]. split; [done|]. unfold rowid, payload. rewrite Hnull, Hc. split; [done|]. apply run_bind, run_getc. unfold id.
      rewrite Hnull, Hc. apply run_bind. eapply run_lift; [reflexivity|]. apply run_onpg.
      eapply run_mono; [by apply (assemble_payload_run im s' (x, b) gp ov)| |done]. by intros b' s2 [-> ?].
    + destruct (Z.eqb_spec (fst r) x) as [Eq|_]; [by destruct (Hne r Ez)|]. cbn [negb]. apply run_bind, run_updc, run_ret.
      split; [done|]. split; [|done]. intros b Hin. by apply (Hno b), Honly.
  - assert (is_valid c' = false) as Hv.
    { unfold is_valid. rewrite He, (on_leaf_cells _ _ _ _ Hl), Hi. apply zget_None in Ez.
      pose proof (insert_pos_range x here). destruct (tc_leaf c'); [|done]. by destruct (Z.ltb_spec (insert_pos x here) (zlen here)); [lia|]. }
    rewrite Hv. cbn [negb]. apply run_ret. split; [done|]. split; [|done]. intros b Hin.
    destruct (insert_pos_found x here HS) as [[b' Hb]|[Hno _]]; [congruence|by apply (Hno b), Honly].
Qed.
End Seek.
