(* ===== verification/TableDelete.v ===== *)
(** * Deleting a row

    [leaf_delete_current] of [btree/delete.rs] and [delete_current] of
    [btree/cursor.rs] against [table_at]: the row under the cursor goes, the
    others stay where they are. *)

From S2P Require Import Prelude Varint DbHeader Vfs Wal Ptrmap BtreePage Pager Cell Balance BtreeInsert TableCursor Autovac PagerTxn.
From S2P Require Import Disk Recovery Atomic Transaction Store TableCell TableTree TableInsert TableAppend TableRead.
From Stdlib Require Import Sorted.
#[local] Open Scope Z_scope.

(** ** Lists without one element *)

Definition zremove {A} (i : Z) (l : list A) : list A := ztake i l ++ zdrop (i + 1) l.

Lemma zremove_split {A} (l : list A) i x : zget l i = Some x -> l = ztake i l ++ x :: zdrop (i + 1) l.
Proof.
  intros Hi. pose proof (zget_Some _ _ _ Hi). rewrite <- (ztake_zdrop_id i l) at 1. f_equal.
  rewrite (zdrop_zget_cons l i) by lia. by rewrite Hi.
Qed.
Lemma ztake_elem {A} (l : list A) i y : y ∈ ztake i l -> y ∈ l.
Proof. intros Hy. rewrite <- (ztake_zdrop_id i l). apply elem_of_app. by left. Qed.
Lemma zdrop_elem {A} (l : list A) i y : y ∈ zdrop i l -> y ∈ l.
Proof. intros Hy. rewrite <- (ztake_zdrop_id i l). apply elem_of_app. by right. Qed.
Lemma zremove_elem {A} (l : list A) i y : y ∈ zremove i l -> y ∈ l.
Proof.
  unfold zremove. intros [Hy|Hy]%elem_of_app; [by eapply ztake_elem|by eapply zdrop_elem].
Qed.
Lemma Forall3_zremove {A B C} (P : A -> B -> C -> Prop) i l k l' : Forall3 P l k l' ->
  Forall3 P (zremove i l) (zremove i k) (zremove i l').
Proof.
  intros HF. unfold zremove. apply Forall3_app; [by destruct (Forall3_split P i _ _ _ HF)|].
  by destruct (Forall3_split P (i + 1) _ _ _ HF).
Qed.
Lemma zremove_sorted i rows : sorted_rows rows -> sorted_rows (zremove i rows).
Proof.
  intros HS. unfold zremove. destruct (Z_lt_dec i 0) as [Hi|Hi].
  - unfold ztake, zdrop. replace (Z.to_nat i) with 0%nat by lia. replace (Z.to_nat (i + 1)) with 0%nat by lia. done.
  - rewrite <- (ztake_zdrop_id i rows) in HS. apply stdpp.sorting.StronglySorted_app in HS as (Hc & H1 & H2).
    assert (zdrop (i + 1) rows = zdrop 1 (zdrop i rows)) as Ed by (rewrite zdrop_zdrop by lia; f_equal; lia).
    rewrite Ed. apply stdpp.sorting.StronglySorted_app. split_and!; [|done|].
    + intros a b Ha Hb. apply Hc; [done|]. by eapply zdrop_elem.
    + rewrite <- (ztake_zdrop_id 1 (zdrop i rows)) in H2. by apply stdpp.sorting.StronglySorted_app in H2 as (_ & _ & ?).
Qed.
Lemma total_len_zremove i cells c : zget cells i = Some c -> total_len (zremove i cells) + zlen c = total_len cells.
Proof.
  intros Hi. rewrite (zremove_split cells i c Hi) at 2. unfold zremove. rewrite !total_len_app.
  change (total_len (c :: zdrop (i + 1) cells)) with (zlen c + total_len (zdrop (i + 1) cells)). lia.
Qed.
Lemma zlen_zremove {A} (l : list A) i x : zget l i = Some x -> zlen (zremove i l) = zlen l - 1.
Proof.
  intros Hi. rewrite (zremove_split l i x Hi) at 2. unfold zremove. rewrite !zlen_app, zlen_cons. lia.
Qed.
Lemma mjoin_zremove {A} (l : list (list A)) i : zget l i = Some [] -> mjoin (zremove i l) = mjoin l.
Proof.
  intros Hi. rewrite (zremove_split l i [] Hi) at 2. unfold zremove. rewrite !join_app. done.
Qed.

Lemma mapM_Forall2 {A B} (f : A -> outcome B) l ys : Forall2 (fun x y => f x = Ok y) l ys -> mapM f l = Ok ys.
Proof. induction 1 as [|x y l ys Hxy HF IH]; [done|]. cbn. rewrite Hxy. cbn. by rewrite IH. Qed.
Lemma Forall2_seqZ {B} (f : Z -> outcome B) (l : list B) : forall k,
  (forall j y, zget l j = Some y -> f (k + j) = Ok y) -> Forall2 (fun x y => f x = Ok y) (seqZ k (zlen l)) l.
Proof.
  induction l as [|y l IH]; intros k Hf; [constructor|]. rewrite zlen_cons, seqZ_cons by (pose proof (zlen_nonneg l); lia).
  constructor; [rewrite <- (Z.add_0_r k); by apply Hf|]. replace (Z.pred (1 + zlen l)) with (zlen l) by lia.
  apply IH. intros j z Hj. replace (Z.succ k + j) with (k + (1 + j)) by lia. apply Hf.
  pose proof (zget_Some _ _ _ Hj). by rewrite zget_cons_S by lia.
Qed.

(** ** Deleting a cell of a leaf *)

Section Delete.
Context {E F : Type} `{VfsOps E F} {ps us : Z}.
Notation State := (Pager F * (Proc * E))%type.
Context {view : Image -> gset Z -> State -> Prop} {dead : State -> Prop} `{!PageWriter ps us view dead}.

(** The row is stored in its cell. *)
Definition local_row (us : Z) (r : row) : Prop := snd (leaf_split us (snd r)) = false.

Lemma local_row_small r : 480 <= us -> zlen (snd r) <= us - 35 -> local_row us r.
Proof.
  intros Hus Hl. unfold local_row, leaf_split, local_payload_len. by destruct (Z.leb_spec (zlen (snd r)) (us - 35)); [|lia].
Qed.

Lemma cells_total im cells rows ovs : Forall3 (cell_rep im us) cells rows ovs ->
  foldr (fun a n => cell_size us a + 2 + n) 0 rows = total_len cells + 2 * zlen cells.
Proof.
  induction 1 as [|c r ov l k l' Hc HF IH]; [done|]. cbn [foldr]. rewrite IH, zlen_cons.
  destruct (cell_rep_size _ _ _ _ _ Hc) as (<- & _). change (total_len (c :: l)) with (zlen c + total_len l). lia.
Qed.

Lemma Forall3_zget_l {A B C} (P : A -> B -> C -> Prop) l k l' i x : Forall3 P l k l' -> zget l i = Some x ->
  exists y z, zget k i = Some y /\ zget l' i = Some z /\ P x y z.
Proof.
  unfold zget. destruct (i <? 0); [done|]. generalize (Z.to_nat i) as j. intros j HF. revert j.
  induction HF as [|a b c l k l' Ha HF IH]; intros j; [done|]. destruct j as [|j]; cbn; [|apply IH].
  intros [= ->]. by exists b, c.
Qed.

(** The other cells of the page, as the loop copies them. *)
Lemma other_cells_eq im g cells rows ovs ccs hdr i c : 480 <= us ->
  page_rep (im_page im g) (btree_header_offset g) LeafTable ccs cells ->
  Forall3 (cell_rep im us) cells rows ovs -> parse (im_page im g) (btree_header_offset g) = Ok hdr ->
  zget cells i = Some c ->
  mapM (fun j => off ← cell_pointer hdr (im_page im g) j; size ← cell_on_page_size (im_page im g) off us;
                 sub_range (im_page im g) off (off + size))
    (seqZ 0 i ++ seqZ (i + 1) (num_cells hdr - (i + 1))) = Ok (zremove i cells).
Proof.
  intros Hus R HF Hp Hi. pose proof (zget_Some _ _ _ Hi) as Hi'.
  destruct (page_rep_parse _ _ _ _ _ R) as (hdr' & Hp' & _ & Hn & _). rewrite Hp in Hp'. injection Hp' as <-.
  assert (forall j y, zget cells j = Some y ->
    (off ← cell_pointer hdr (im_page im g) j; size ← cell_on_page_size (im_page im g) off us;
     sub_range (im_page im g) off (off + size)) = Ok y) as Hread.
  { intros j y Hj. destruct (Forall3_zget_l _ _ _ _ _ _ HF Hj) as (r & ov & _ & _ & gp & -> & Hrow & Hgp & _).
    destruct (leaf_cell_read _ _ _ us _ hdr j r gp R Hp Hus Hj Hrow Hgp) as (off & Hcp & _ & _ & Hsz & _ & Hsub).
    rewrite Hcp. cbn [mbind outcome_bind]. rewrite Hsz. cbn [mbind outcome_bind]. exact Hsub. }
  apply mapM_Forall2. unfold zremove. apply Forall2_app.
  - replace i with (zlen (ztake i cells)) at 1 by (rewrite zlen_ztake; lia). apply Forall2_seqZ.
    intros j y Hj. apply Hread. pose proof (zget_Some _ _ _ Hj) as Hj'. rewrite zlen_ztake in Hj'.
    rewrite zget_ztake in Hj by lia. done.
  - replace (num_cells hdr - (i + 1)) with (zlen (zdrop (i + 1) cells)) by (rewrite zlen_zdrop; lia).
    apply Forall2_seqZ. intros j y Hj. apply Hread. pose proof (zget_Some _ _ _ Hj).
    rewrite zget_zdrop in Hj by lia. by rewrite Z.add_comm.
Qed.

Lemma leaf_delete_run fuel im W s g rows ovs i r : view im W s -> page_ok (im_count im) g ->
  leaf_at im us g rows ovs -> g ∉ mjoin ovs -> zget rows i = Some r -> local_row us r ->
  run (leaf_delete_current fuel g i) s
    (fun _ s' => exists page, view (im_set g page im) ({[g]} ∪ W) s' /\ zget ovs i = Some [] /\
       leaf_at (im_set g page im) us g (zremove i rows) (zremove i ovs) /\
       leaf_free_space page (btree_header_offset g) =
         Ok (ps - (btree_header_offset g + 8 + foldr (fun a n => cell_size us a + 2 + n) 0 (zremove i rows)))) dead.
Proof.
  intros V Hg Hl Hgo Hi Hloc. destruct (writer_sizes (view:=view) (dead:=dead)) as [Hps Hus].
  pose proof Hl as (ccs & cells & R & Htot & HF). destruct (Forall3_zlen _ _ _ _ HF) as [Hlr _].
  pose proof (rd_len (PageReader:=wr_reader W) im s g V Hg) as Hlen.
  pose proof (leaf_cells_fit im g cells ccs Hlen R Htot) as Hfit.
  destruct (page_rep_parse _ _ _ _ _ R) as (hdr & Hp & Ht & Hn & _).
  destruct (Forall3_zget _ _ _ _ _ _ HF Hi) as (c & ov & Hc & Hov & gp & Ec & Hrow & Hgp & Hpay).
  unfold local_row in Hloc. rewrite Hloc in Hpay. subst ov. pose proof (zget_Some _ _ _ Hc) as Hi'.
  rewrite Ec in Hc. destruct (leaf_cell_read _ _ _ us _ hdr i r gp R Hp ltac:(lia) Hc Hrow Hgp) as (off & Hcp & Hat & _).
  unfold leaf_delete_current. apply run_bind. eapply run_mono; [by apply (wr_read im W s g)| |done].
  intros b s1 [-> V1]. apply run_bind. eapply run_lift; [exact Hp|]. rewrite Ht, bool_decide_eq_true_2 by done. cbn [negb].
  destruct (Z.geb_spec i (num_cells hdr)); [lia|]. apply run_bind. eapply run_lift; [exact Hcp|].
  destruct s1 as [q pe]. destruct (writer_gets _ _ _ _ V1) as (_ & Hu & _). apply run_bind, run_gets. rewrite Hu.
  apply run_bind. eapply run_lift; [exact Hat|]. cbn [tl_overflow parsed_cell]. rewrite Hloc. apply run_bind, run_ret.
  apply run_bind. eapply run_lift; [eapply (other_cells_eq im g cells rows ovs ccs hdr i); (done || lia)|].
  pose proof (total_len_zremove _ _ _ Hc) as Htl. pose proof (zlen_zremove _ _ _ Hc) as Hzl.
  pose proof (Forall3_zremove _ i _ _ _ HF) as HF'. destruct (leaf_cells_facts _ _ _ _ HF') as [Hne Hb].
  pose proof (cell_bytes_pos us r gp Hrow). pose proof (header_offset_range g).
  pose proof (zlen_nonneg (zremove i cells)). pose proof (total_len_nonneg (zremove i cells)).
  destruct (write_page_cells_run (im_page im g) (btree_header_offset g) LeafTable None (enumerate_u16 (zremove i cells)))
    as (page & Hw & Hlen' & R' & _); rewrite ?snd_enumerate in *; try done; unfold hdr_size; cbn [is_leaf]; try lia.
  { apply R. }
  apply run_bind. eapply run_lift; [exact Hw|].
  eapply run_mono; [apply (wr_write im _ _ g page V1); [set_solver|congruence]| |done].
  intros [] s2 V2. exists page. split; [exact V2|]. split; [done|]. rewrite Hlen in *. split.
  - eexists _, _. cbn [im_page im_set]. rewrite Z.eqb_refl. split; [exact R'|]. split; [lia|].
    eapply cells_frame; [|exact HF']. apply same_on_set. rewrite mjoin_zremove by done. done.
  - pose proof (free_space_eq _ _ _ _ _ R') as Hf. cbn [is_leaf] in Hf. rewrite Hf. f_equal.
    rewrite (cells_total _ _ _ _ HF'). unfold hdr_size. cbn [is_leaf]. lia.
Qed.
End Delete.

(** ** Changing one leaf of a tree *)

(** The leaf of [x] in a table, and the table with other rows there. *)
Lemma table_at_leaf im us x d : forall g lo hi pgs rows, table_at im us d g lo hi pgs rows -> NoDup pgs -> lo < x <= hi ->
  let l := leaf_for im d g x in
  exists here r1 r2 ovs, page_ok (im_count im) l /\ leaf_at im us l here ovs /\ l ∉ mjoin ovs /\ l ∈ pgs /\
    rows = r1 ++ here ++ r2 /\ Forall (fun a : row => fst a < x) r1 /\ Forall (fun a : row => x < fst a) r2 /\
    sorted_rows here /\
    (forall im' here' ovs', only_changes {[l]} im im' -> leaf_at im' us l here' ovs' -> mjoin ovs' = mjoin ovs ->
       sorted_rows here' -> (forall a, a ∈ here' -> a ∈ here) -> table_at im' us d g lo hi pgs (r1 ++ here' ++ r2)).
Proof.
  induction d as [|d IH]; intros g lo hi pgs rows [Hg Ht] Hnd Hx.
  1,2: destruct Ht as [(ovs & Hl & -> & HS & HF)|Ht]; [|try done].
  1,2: cbv zeta; rewrite (leaf_for_leaf _ _ _ _ _ _ _ Hl); apply NoDup_cons in Hnd as [Hgo _];
    exists rows, [], [], ovs; rewrite app_nil_r;
    (split; [done|]); (split; [done|]); (split; [done|]); (split; [apply list_elem_of_here|]); (split; [done|]);
    (split; [constructor|]); (split; [constructor|]); (split; [done|]);
    intros im' here' ovs' Hch Hl' Hmj HS' Hsub; rewrite app_nil_r;
    (split; [destruct Hg, Hch; split; lia|]); left; exists ovs'; rewrite Hmj; (split; [done|]); (split; [done|]);
    (split; [done|]); rewrite Forall_forall in HF |- *; auto.
  destruct Ht as (ch & rm & pgs0 & Hn & -> & HK). cbv zeta. rewrite (leaf_for_node _ _ _ _ _ _ Hn).
  assert (forall c' lo' hi' p' r', table_at im us d c' lo' hi' p' r' -> Forall (between lo' hi') r') as Hbt
    by (intros ????? Ht; by apply table_at_sorted in Ht as [_ ?]).
  pose proof (child_for_spec (table_at im us d) ch rm hi x Hbt lo pgs0 rows HK Hx) as Hsp.
  destruct (child_for x ch rm) as [[lch g1] rch]. cbn [fst snd] in *.
  destruct Hsp as (mid & kx & p1 & pc & p2 & r1 & rc & r2 & -> & -> & Hmx & Htc & F1 & F2 & Hplug).
  apply NoDup_cons in Hnd as [Hg' Hnd].
  assert (NoDup pc /\ forall y, y ∈ g :: p1 ++ p2 -> y ∉ pc) as [Hndc Hdis].
  { apply NoDup_app in Hnd as (_ & Hd1 & Hnd). apply NoDup_app in Hnd as (Hnd & Hd2 & _). split; [done|].
    intros y [->|Hy]%elem_of_cons Hyc; [apply Hg'; rewrite !elem_of_app; auto|].
    apply elem_of_app in Hy as [Hy|Hy]; [apply (Hd1 y Hy); apply elem_of_app; by left|by apply (Hd2 y Hyc)]. }
  destruct (IH g1 mid kx pc rc Htc Hndc Hmx) as (here & q1 & q2 & ovs & Hok & Hl & Hlo & Hlp & -> & G1 & G2 & HS & Hrep).
  set (l := leaf_for im d g1 x) in *. exists here, (r1 ++ q1), (q2 ++ r2), ovs.
  split; [done|]. split; [done|]. split; [done|].
  split; [apply list_elem_of_further; rewrite !elem_of_app; auto|]. split; [by rewrite <- !app_assoc|].
  split; [by apply Forall_app|]. split; [by apply Forall_app|]. split; [done|].
  intros im' here' ovs' Hch Hl' Hmj HS' Hsub. specialize (Hrep im' here' ovs' Hch Hl' Hmj HS' Hsub).
  assert (forall y : Z, y ∈ g :: p1 ++ p2 -> y ∉ ({[l]} : gset Z)) as Hout.
  { intros y Hy ->%elem_of_singleton. by apply (Hdis l). }
  split; [destruct Hg, Hch; split; lia|]. right. exists ch, rm, (p1 ++ pc ++ p2). split; [|split; [done|]].
  - eapply node_at_frame; [|exact Hn]. eapply only_changes_same_on; [exact Hch|by constructor|].
    intros y ->%list_elem_of_singleton. apply Hout, list_elem_of_here.
  - replace ((r1 ++ q1) ++ here' ++ q2 ++ r2) with (r1 ++ (q1 ++ here' ++ q2) ++ r2) by (by rewrite <- !app_assoc).
    apply Hplug; [|done]. intros c' lo' hi' p' r' Hp2 Ht. eapply same_on_disjoint; [exact Hch|exact Ht|].
    intros y Hy. by apply Hout, list_elem_of_further, Hp2.
Qed.

(** ** The parent of the leaf *)

Lemma interior_cell_child page off c : parse_table_interior_cell page off = Ok c -> be_u32 page off = Ok (ti_left_child c).
Proof.
  unfold parse_table_interior_cell, slice, be_u32, be_at. destruct (sub_range page off (off + 4)) as [s| |]; try done.
  cbn [mbind outcome_bind]. destruct (be_uint 4 s) as [g| |]; try done. cbn [mbind outcome_bind].
  destruct (sub_from page (off + 4)) as [t| |]; try done. cbn [mbind outcome_bind].
  destruct (ok_or (read_varint_i64 t) _) as [[x y]| |]; try done. cbn. by intros [= <-].
Qed.

Lemma frame_child im page hdr k j : frame_ok im (page, hdr, k) -> 0 <= j < num_cells hdr ->
  exists off g, cell_pointer hdr page j = Ok off /\ be_u32 page off = Ok g.
Proof.
  intros (g & ch & rm & Hn & -> & Hp & _) Hj. destruct (node_pick _ _ _ _ 0 Hn) as (hdr' & Hp' & _ & Hnum & _).
  rewrite Hp in Hp'. injection Hp' as <-. destruct Hn as (ccs & R & _ & Hok).
  destruct (zget_in ch j ltac:(lia)) as [ck Hck].
  destruct (child_cell_read _ _ _ _ hdr j ck R Hp) as (off & Hcp & Hpc).
  - unfold zget in *. destruct (j <? 0); [done|]. by rewrite list_lookup_fmap, Hck.
  - by eapply zget_Forall.
  - apply interior_cell_child in Hpc. by eexists _, _.
Qed.

Lemma resolve_loop_ok im leaf frames : Forall (frame_ok im) frames -> forall g,
  exists r, resolve_loop frames g leaf = Ok r.
Proof.
  induction 1 as [|[[page hdr] k] frames Hf HF IH]; intros g; [by eexists|]. cbn [resolve_loop].
  destruct (is_leaf (page_type hdr)); [by eexists|]. destruct (Z.ltb_spec (Z.max 0 (k - 1)) (num_cells hdr)).
  - destruct (frame_child im page hdr k (Z.max 0 (k - 1)) Hf ltac:(lia)) as (off & c & -> & Hc). rewrite Hc.
    cbn [mbind outcome_bind]. destruct (c =? leaf); [by eexists|apply IH].
  - cbn [mbind outcome_bind]. destruct (right_most_pointer hdr) as [c|]; [|by eexists].
    destruct (c =? leaf); [by eexists|apply IH].
Qed.

Lemma child_scan_ok im page hdr k leaf l : frame_ok im (page, hdr, k) ->
  Forall (fun j => 0 <= j < num_cells hdr) l -> exists r, child_scan l page hdr leaf = Ok r.
Proof.
  intros Hf. induction 1 as [|j l Hj HF IH]; [by eexists|]. cbn [child_scan].
  destruct (frame_child im page hdr k j Hf Hj) as (off & c & -> & Hc). rewrite Hc. cbn [mbind outcome_bind].
  destruct (c =? leaf); [by eexists|done].
Qed.

(** With interior pages on its stack, the cursor finds the parent of a leaf or
    gives up, but never panics. *)
Lemma parent_info_ok im c leaf : Forall (frame_ok im) (tc_stack c) -> exists r, parent_info c leaf = Ok r.
Proof.
  intros HF. unfold parent_info, resolve_parent_pgno. destruct (tc_stack c) as [|[[page hdr] k] st] eqn:Est; [by eexists|].
  assert (Forall (frame_ok im) (reverse ((page, hdr, k) :: st))) as HR by (by apply Forall_reverse).
  destruct (resolve_loop_ok im leaf _ HR (tc_root c)) as [r ->]. cbn [mbind outcome_bind]. destruct r as [g|]; [|by eexists].
  inversion HF as [|? ? Hf HF']; subst.
  destruct (child_scan_ok im page hdr k leaf (seqZ 0 (num_cells hdr)) Hf) as [r ->].
  { apply Forall_forall. intros j Hj%elem_of_seqZ. lia. }
  cbn [mbind outcome_bind]. destruct r as [[j|]|]; try by eexists. destruct (bool_decide _); by eexists.
Qed.

(** ** Deleting the row of a rowid *)

(** The program deletes a row by seeking it and then deleting where the cursor
    stands. *)
Definition delete_rowid {E F} `{VfsOps E F} (fuel : nat) (x : Z) : CursorM (E:=E) (F:=F) bool :=
  found ← seek_rowid fuel x;
  if (found : bool) then delete_current fuel ;; mret true else mret false.

(** Without the row, its leaf is the only page of the tree, or at least a third
    full, or empty: no page is merged. *)
Definition no_merge (im : Image) (us : Z) (d : nat) (root : Z) (r : row) : bool :=
  let g := leaf_for im d root (fst r) in
  let base := btree_header_offset g in
  (d =? 0)%nat
  || match parse (im_page im g) base with
     | Ok hdr =>
         (num_cells hdr =? 1)
         || match cells_of (im_page im g) hdr (leaf_cell_size (im_page im g) us) with
            | Ok cells =>
                (zlen (im_page im g) - (base + 8 + total_len cells + 2 * zlen cells) + cell_size us r + 2) * 3 <=? us * 2
            | _ => false
            end
     | _ => false
     end.

(** The rows without the one of rowid [x]. *)
Fixpoint delete_row (x : Z) (rows : list row) : list row :=
  match rows with
  | [] => []
  | r :: rows => if fst r =? x then delete_row x rows else r :: delete_row x rows
  end.
Definition has_row (x : Z) (rows : list row) : bool := existsb (fun r : row => fst r =? x) rows.

Lemma delete_row_app x r1 r2 : delete_row x (r1 ++ r2) = delete_row x r1 ++ delete_row x r2.
Proof. induction r1 as [|r r1 IH]; [done|]. cbn. rewrite IH. by destruct (fst r =? x). Qed.
Lemma delete_row_absent x rows : Forall (fun r : row => fst r <> x) rows -> delete_row x rows = rows /\ has_row x rows = false.
Proof.
  induction 1 as [|r rows Hr HF [IH1 IH2]]; [done|]. cbn. rewrite IH1. destruct (Z.eqb_spec (fst r) x); [done|]. done.
Qed.
Lemma has_row_in x b rows : (x, b) ∈ rows -> has_row x rows = true.
Proof.
  intros Hin. unfold has_row. apply existsb_exists. exists (x, b). split; [by apply list_elem_of_In|]. cbn. apply Z.eqb_refl.
Qed.
Lemma sorted_split_row (r1 : list row) r r2 : sorted_rows (r1 ++ r :: r2) ->
  Forall (fun a : row => fst a <> fst r) r1 /\ Forall (fun a : row => fst a <> fst r) r2.
Proof.
  intros (Hc & _ & Hr)%stdpp.sorting.StronglySorted_app. inversion Hr as [|? ? _ HF]; subst. split; apply Forall_forall.
  - intros a Ha. specialize (Hc a r Ha ltac:(apply list_elem_of_here)). cbn in Hc. lia.
  - rewrite Forall_forall in HF. intros a Ha. specialize (HF a Ha). cbn in HF. lia.
Qed.
Lemma delete_row_leaf x b r1 here r2 i : Forall (fun a : row => fst a < x) r1 -> Forall (fun a : row => x < fst a) r2 ->
  sorted_rows here -> zget here i = Some (x, b) -> delete_row x (r1 ++ here ++ r2) = r1 ++ zremove i here ++ r2.
Proof.
  intros F1 F2 HS Hi. rewrite (zremove_split here i (x, b) Hi) in HS. apply sorted_split_row in HS as [G1 G2].
  rewrite (zremove_split here i (x, b) Hi) at 1. rewrite !delete_row_app. cbn [delete_row fst]. rewrite Z.eqb_refl.
  unfold zremove. repeat match goal with |- context [delete_row x ?l] =>
    rewrite (proj1 (delete_row_absent x l ltac:(first [done | eapply Forall_impl; [eassumption|cbn; lia]]))) end.
  by rewrite <- !app_assoc.
Qed.
Lemma zremove_Forall {A} (P : A -> Prop) i l : Forall P l -> Forall P (zremove i l).
Proof. rewrite !Forall_forall. intros HF a Ha. by apply HF, (zremove_elem l i). Qed.

Section DeleteRow.
Context {E F : Type} `{VfsOps E F} {ps us : Z}.
Notation State := (Pager F * (Proc * E))%type.
Context {view : Image -> gset Z -> State -> Prop} {dead : State -> Prop} `{!PageWriter ps us view dead}.
Notation CS := (TableCursor * State)%type.

Lemma rebalance_none_run im W s g parent k top rows ovs free : view im W s -> page_ok (im_count im) g ->
  leaf_at im us g rows ovs -> leaf_free_space (im_page im g) (btree_header_offset g) = Ok free ->
  free * 3 <= us * 2 \/ rows = [] ->
  run (rebalance_table_leaf_after_delete g parent k top) s (fun r s' => r = None /\ view im W s') dead.
Proof.
  intros V Hg (ccs & cells & R & _ & HF) Hfree Hor. destruct (page_rep_parse _ _ _ _ _ R) as (hdr & Hp & Ht & Hn & _).
  destruct (Forall3_zlen _ _ _ _ HF) as [Hz _].
  unfold rebalance_table_leaf_after_delete. destruct (rd_params (PageReader:=wr_reader W) _ _ V) as [_ Hu].
  destruct s as [q pe]. apply run_bind, run_gets. cbn in Hu. rewrite Hu.
  apply run_bind. eapply run_mono; [by apply (rd_get (PageReader:=wr_reader W) im _ g V)| |done].
  intros b s1 [-> V1]. apply run_bind. eapply run_lift; [exact Hp|]. rewrite Ht, bool_decide_eq_true_2 by done. cbn [negb].
  apply run_bind. eapply run_lift; [exact Hfree|]. rewrite Hn, Hz.
  destruct (Z.leb_spec (free * 3) (us * 2)); [by apply run_ret|]. destruct Hor as [?| ->]; [lia|]. by apply run_ret.
Qed.

(** The leaf without the row is one that is not rebalanced. *)
Lemma no_merge_leaf im d root r here ovs i : let g := leaf_for im d root (fst r) in 480 <= us ->
  leaf_at im us g here ovs -> zlen (im_page im g) = ps -> zget here i = Some r -> no_merge im us d root r = true ->
  d = 0%nat \/ (ps - (btree_header_offset g + 8 + foldr (fun a n => cell_size us a + 2 + n) 0 (zremove i here))) * 3 <= us * 2 \/
  zremove i here = [].
Proof.
  intros g Hus (ccs & cells & R & Htot & HF) Hlen Hi Hok. destruct (Forall3_zlen _ _ _ _ HF) as [Hz _].
  destruct (Forall3_zget _ _ _ _ _ _ HF Hi) as (c & ov & Hc & _ & Hrep).
  destruct (cell_rep_size _ _ _ _ _ Hrep) as (Hcs & _).
  pose proof (Forall3_zremove _ i _ _ _ HF) as HF'. rewrite (cells_total _ _ _ _ HF').
  pose proof (total_len_zremove _ _ _ Hc). pose proof (zlen_zremove _ _ _ Hc). pose proof (zlen_zremove _ _ _ Hi).
  destruct (page_rep_parse _ _ _ _ _ R) as (hdr & Hp & _ & Hn & _).
  unfold no_merge in Hok. fold g in Hok. rewrite Hp in Hok.
  rewrite (cells_of_leaf im us g cells here ovs ccs hdr Hus R HF Hp), Hlen in Hok.
  apply orb_prop in Hok as [Hok|Hok]; [left; by apply Nat.eqb_eq|].
  apply orb_prop in Hok as [Hok|Hok]; right.
  - right. apply Z.eqb_eq in Hok. destruct (zremove i here) as [|a l]; [done|]. rewrite zlen_cons in *.
    pose proof (zlen_nonneg l). lia.
  - left. apply Z.leb_le in Hok. lia.
Qed.

Lemma delete_current_run fuel im W c s g d root r here ovs i : view im W s -> page_ok (im_count im) g ->
  leaf_at im us g here ovs -> g ∉ mjoin ovs -> zget here i = Some r -> local_row us r ->
  is_valid c = true -> tc_leaf_pgno c = g -> tc_cell_idx c = i -> Forall (frame_ok im) (tc_stack c) ->
  (length (tc_stack c) <= d)%nat -> tc_rebalance_in_progress c = false -> g = leaf_for im d root (fst r) -> no_merge im us d root r = true ->
  run (delete_current fuel) (c, s)
    (fun _ '(_, s') => exists page, view (im_set g page im) ({[g]} ∪ W) s' /\ zget ovs i = Some [] /\
       leaf_at (im_set g page im) us g (zremove i here) (zremove i ovs)) (cdead (dead:=dead)).
Proof.
  intros V Hg Hl Hgo Hi Hloc Hv Hpg Hci Hst Hd Hreb Heq Hno.
  destruct (writer_sizes (view:=view) (dead:=dead)) as [_ Hus].
  pose proof (rd_len (PageReader:=wr_reader W) im s g V Hg) as Hlen.
  unfold delete_current. apply run_bind, run_getc. unfold id. rewrite Hv. cbn [negb].
  apply run_bind, run_onpg. rewrite Hpg, Hci. eapply run_mono; [by eapply (leaf_delete_run fuel im W s g here ovs i r)| |done].
  intros [] s1 (page & V1 & Hov & Hl' & Hfree). pose proof Hl' as (ccs & cells & R & Htot & HF).
  assert (page_ok (im_count (im_set g page im)) g) as Hg' by done.
  eapply header_cursor_run; [exact V1|exact Hg'|exact R|]. intros hdr s2 V2 (Hp & Ht & Hn).
  apply run_bind, run_updc, run_bind, run_getc. unfold id.
  cbn [tc_rebalance_in_progress set_pending_advance set_leaf]. rewrite Hreb. apply run_bind, run_updc.
  destruct (parent_info_ok im (set_rebalancing true (set_pending_advance true (set_leaf (Some (im_page (im_set g page im) g)) (Some hdr) c))) g Hst)
    as [info Hinfo].
  apply run_bind. eapply run_lift; [exact Hinfo|].
  assert (forall c', run (updc (set_rebalancing false)) (c', s2)
    (fun _ '(_, s') => exists page, view (im_set g page im) ({[g]} ∪ W) s' /\ zget ovs i = Some [] /\
       leaf_at (im_set g page im) us g (zremove i here) (zremove i ovs)) (cdead (dead:=dead))) as Hdone
    by (intros c'; apply run_updc; by exists page).
  destruct info as [[[parent k] top]|]; [|apply run_bind, run_ret, Hdone].
  assert (d <> 0%nat) as Hd0 by (intros ->; destruct (tc_stack c) eqn:Est; [unfold parent_info in Hinfo; cbn [tc_stack set_rebalancing set_pending_advance set_leaf] in Hinfo; by rewrite Est in Hinfo|cbn in Hd; lia]).
  apply run_bind, run_bind, run_onpg.
  assert (im_page (im_set g page im) g = page) as Epg by (cbn; by rewrite Z.eqb_refl).
  eapply run_mono; [eapply (rebalance_none_run (im_set g page im) ({[g]} ∪ W) s2 g parent k top _ _ _ V2 Hg' Hl'); [rewrite Epg; exact Hfree|]| |done].
  - rewrite Heq in Hl, Hlen. destruct (no_merge_leaf im d root r here ovs i ltac:(lia) Hl Hlen Hi Hno) as [?|[?|?]]; [done|left; by rewrite Heq|by right].
  - intros r0 s3 [-> V3]. apply run_ret, run_updc. by exists page.
Qed.

Lemma delete_rowid_run fuel x d im W c s root pgs rows : view im W s -> table_rep im us d root pgs rows -> is_i64 x ->
  tc_root c = root -> tc_usable c = us -> tc_rebalance_in_progress c = false -> (d < fuel)%nat ->
  (forall b, (x, b) ∈ rows -> local_row us (x, b) /\ no_merge im us d root (x, b) = true) ->
  run (delete_rowid fuel x) (c, s)
    (fun found '(_, s') => found = has_row x rows /\ exists im' W', view im' W' s' /\
       table_rep im' us d root pgs (delete_row x rows) /\ only_changes (list_to_set pgs) im im') (cdead (dead:=dead)).
Proof.
  intros V [HT Hnd] Hx Hr Hu Hreb Hf Hrow. destruct (writer_sizes (view:=view) (dead:=dead)) as [_ Hus].
  unfold delete_rowid. apply run_bind.
  eapply run_mono; [eapply (seek_rowid_run (PageReader0:=wr_reader W) im x d fuel c s root pgs rows V HT); done| |done].
  intros [] [c' s1] [V1 Hs].
  2:{ destruct Hs as [Hno _]. apply run_ret. assert (Forall (fun r : row => fst r <> x) rows) as HF.
      { apply Forall_forall. intros [y b] Hin Hy. cbn in Hy. subst y. by apply (Hno b). }
      destruct (delete_row_absent x rows HF) as [-> ->]. split; [done|]. exists im, W. split; [done|]. split; [by split|apply only_changes_refl]. }
  destruct Hs as (b & Hin & (Hv & _) & (Hlf & Hst & Hany & _) & Hlen & He & Hu' & Hr' & Hreb').
  destruct (Hrow b Hin) as [Hloc Hno]. rewrite Hreb in Hreb'. rewrite (has_row_in x b rows Hin).
  destruct (table_at_leaf im us x d root _ _ pgs rows HT Hnd (between_all x Hx))
    as (here & r1 & r2 & ovs & Hok & Hl & Hlo & Hlp & -> & F1 & F2 & HS & Hrep).
  destruct (Hany here ovs Hl HS) as [_ Hi]. set (i := insert_pos x here) in *.
  assert (zget here i = Some (x, b)) as Hzi.
  { assert ((x, b) ∈ here) as Hh.
    { rewrite Forall_forall in F1. rewrite Forall_forall in F2. rewrite !elem_of_app in Hin.
      destruct Hin as [Hin|[Hin|Hin]]; [specialize (F1 _ Hin); cbn in F1; lia|done|specialize (F2 _ Hin); cbn in F2; lia]. }
    destruct (insert_pos_found x here HS) as [[b' Hb]|[Hn _]]; [|by destruct (Hn b)]. fold i in Hb. rewrite Hb. do 2 f_equal.
    rewrite (zremove_split here i (x, b') Hb) in HS, Hh. apply sorted_split_row in HS as [G1 G2].
    rewrite Forall_forall in G1. rewrite Forall_forall in G2.
    apply elem_of_app in Hh as [Hh|[Hh|Hh]%elem_of_cons]; [by destruct (G1 _ Hh)|congruence|by destruct (G2 _ Hh)]. }
  apply run_bind. eapply run_mono; [eapply (delete_current_run fuel im W c' s1 (leaf_for im d root x) d root (x, b) here ovs i); done| |done].
  intros [] [c2 s2] (page & V2 & Hov & Hl2). apply run_ret. split; [done|]. eexists _, _. split; [exact V2|].
  assert (only_changes {[leaf_for im d root x]} im (im_set (leaf_for im d root x) page im)) as Hch.
  { split; [cbn; lia|]. intros y _ Hy. cbn. destruct (Z.eqb_spec y (leaf_for im d root x)) as [->|]; [set_solver|done]. }
  split; [split; [|done]|].
  - rewrite (delete_row_leaf x b r1 here r2 i) by done. eapply Hrep; [exact Hch|exact Hl2|by apply mjoin_zremove|by apply zremove_sorted|].
    intros a. apply zremove_elem.
  - destruct Hch as [Hc1 Hc2]. split; [done|]. intros y Hy Hyn. apply Hc2; [done|]. set_solver.
Qed.
End DeleteRow.
