(* ===== verification/Tables.v ===== *)
(** * Table b-trees on a database

    What a client of the storage engine relies on: a scan returns the rows of a
    table, an insertion adds its row and touches no other table, and an insertion
    in a transaction of its own is atomic even when the disk crashes. *)

From S2P Require Import Prelude Utf8 Varint DbHeader Vfs Wal Journal Ptrmap BtreePage Pager Cell Balance BtreeInsert TableCursor Autovac.
From S2P Require Import PagerTxn Disk Recovery Atomic Transaction Store TableCell TableTree TableInsert TableAppend TableSplit TableRead TableDelete.
From stdpp Require sorting.
#[local] Open Scope Z_scope.

#[local] Opaque header_serialize.

(** ** Tables in a file *)

Section Commit.
Context {E F : Type} `{DiskLaws E F} `{!QuietVfs E F}.
Notation State := (Pager F * (Proc * E))%type.
Context (i : nat) (D : bytes) (n : Z) (p0 : Pager F).
Context (Hsize : 480 <= pg_usable_size p0 <= pg_page_size p0) (Hps : 512 <= pg_page_size p0 <= 65536).
Context (Hplain : largest_root_page (pg_header p0) = 0) (Hfree : freelist_count (pg_header p0) = 0).
Notation ps := (pg_page_size p0).
Notation us := (pg_usable_size p0).

(** What is committed is what the transaction shows, page 1 apart. *)
Lemma committed_table im W q pr e Dn d root pgs rows :
  txn_view i D n p0 im W (q, (pr, e)) -> committed q D Dn -> 1 ∉ pgs -> table_rep im us d root pgs rows ->
  table_rep (file_image ps (pg_count q) Dn) us d root pgs rows.
Proof.
  intros (R & A & (Hh & Hpsz & _) & Hc & Hpg & _) Hto H1 [Ht Hnd]. split; [|done].
  eapply table_at_frame; [|exact Ht]. split; [cbn; lia|]. intros x Hx. cbn.
  assert (page_ok (im_count im) x) as Hok.
  { apply table_at_pages in Ht as [Hok _]. rewrite Forall_forall in Hok. by apply Hok. }
  rewrite <- Hpg by done. unfold committed in Hto. rewrite <- Hpsz. destruct (decide (pg_dirty q = ∅)) as [Hd|Hd].
  - subst Dn. unfold cur. by rewrite Hd, lookup_empty.
  - destruct Hto as [_ Hto]. rewrite Hto by (by rewrite Hc). destruct (Z.eqb_spec x 1) as [->|]; [done|done].
Qed.

Lemma begin_view ex pr e : idle i D n p0 e -> n < 2 ^ 32 - 4 ->
  run (begin_write ex) (p0, (pr, e)) (fun _ s => txn_view i D n p0 (file_image ps n D) ∅ s) (session_dead i D p0).
Proof.
  intros I Hn. eapply run_mono; [by apply (begin_write_run ex p0 pr e i D n I)| |by intros (q & pr' & e')].
  intros [] (q & pr1 & e1) (A & t & ->). exists []. split; [done|]. split; [by split_and!|]. split; [cbn; apply I|].
  split; [|set_solver]. cbn. intros g _. unfold cur. cbn. by rewrite (id_dirty _ _ _ _ _ I), lookup_empty.
Qed.

Lemma commit_view drain (drain_perm : forall m, drain m ≡ₚ map_to_list m) im W s d root pgs rows :
  txn_view i D n p0 im W s -> 1 ∉ pgs -> table_rep im us d root pgs rows ->
  run (commit drain) s
    (fun _ '(q, (_, e)) => exists Dn m, idle i Dn m q e /\ table_rep (file_image ps m Dn) us d root pgs rows)
    (fun '(_, (_, e)) => recoverable (journal_path p0) i e D \/
       exists Dn m, table_rep (file_image ps m Dn) us d root pgs rows /\ recoverable (journal_path p0) i e Dn).
Proof.
  intros V H1 HT. destruct s as (q & pr & e). pose proof V as (R & A & (Hh & _ & _ & Hp & _) & Hc & _).
  assert (journal_path q = journal_path p0) as Hj by (unfold journal_path; by rewrite Hp).
  eapply run_mono; [apply (commit_txn_run drain drain_perm q pr e i D n R A); by rewrite Hh| |].
  - intros [] (q' & pr' & e') (Dn & Hto & I). exists Dn, (pg_count q). split; [done|]. by eapply committed_table.
  - intros (q' & pr' & e'). rewrite Hj. intros [?|(Dn & Hto & ?)]; [by left|right].
    exists Dn, (pg_count q). split; [by eapply committed_table|done].
Qed.
End Commit.

(** ** One insertion *)

(** The row is new to the table, and either the leaf it belongs to has room for
    its cell, or it comes after all others and the splits have room. *)
Definition insertable (im : Image) (us : Z) (d : nat) (root : Z) (r : row) (rows : list row) : Prop :=
  row_ok r /\
  ((Forall (fun a : row => fst a <> fst r) rows /\ enough (leaf_room im d root (fst r)) (cell_size us r + 2) = true) \/
   (Forall (fun a : row => fst a < fst r) rows /\ can_grow im d root (fst r) (cell_size us r) = true)).

Lemma insertable_new im us d root r rows : insertable im us d root r rows -> Forall (fun a : row => fst a <> fst r) rows.
Proof.
  intros (_ & [[? _]|[HF _]]); [done|]. eapply Forall_impl; [exact HF|]. cbn. lia.
Qed.

Section Insert.
Context {E F : Type} `{VfsOps E F} {ps us : Z}.
Notation State := (Pager F * (Proc * E))%type.
Context {view : Image -> gset Z -> State -> Prop} {dead : State -> Prop} `{!PageWriter ps us view dead}.

Lemma insert_run r s im W d fuel root pgs rows :
  view im W s -> table_rep im us d root pgs rows -> insertable im us d root r rows ->
  im_count im + cell_room us (snd r) + 6 * zlen rows + 4 < 2 ^ 32 - 4 -> (S (d + length rows) < fuel)%nat ->
  run (table_insert fuel root (fst r) (snd r)) s
    (fun _ s' => exists im' W' pgs', view im' W' s' /\
       table_rep im' us (d + length rows) root pgs' (insert_row r rows) /\
       only_changes (list_to_set pgs) im im' /\ (forall x, x ∈ pgs' -> x ∈ pgs \/ im_count im < x)) dead.
Proof.
  intros V HT (Hr & Hor) Hb Hf. pose proof (zlen_nonneg rows). destruct Hor as [[Hne (free & Hroom & Hfit)%enough_spec]|[Hlt Hgrow]].
  - eapply run_mono; [eapply (table_insert_fits_run r s im W d fuel root pgs rows free V HT); (done || lia)| |done].
    intros [] s' (im' & W' & pgs' & V' & [Ht' Hnd] & Hch & Hin). exists im', W', pgs'. split; [done|].
    split; [|done]. split; [|done]. eapply table_at_mono; [|exact Ht']. lia.
  - eapply run_mono; [eapply (table_append_run r s im W d fuel root pgs rows V HT); (done || lia)| |done].
    intros [] s' (im' & W' & pgs' & V' & Ht' & Hch & Hin & _). exists im', W', pgs'. rewrite insert_row_last by done. done.
Qed.
End Insert.

(** ** The properties *)

(** C7: a scan of a table returns exactly its rows, in ascending order of
    rowid, payloads of any length included, and leaves the database as it is. *)
Theorem scan_table_spec {E F} `{VfsOps E F} {ps us : Z} {view dead} `{!PageReader ps us view dead}
    im d fuel root pgs rows (s : Pager F * (Proc * E)) :
  view im s -> table_rep im us d root pgs rows -> (d < fuel)%nat ->
  sorted_rows rows /\
  run (scan_table fuel root) s (fun out s' => out = rows /\ view im s') dead.
Proof.
  intros V [HT _] Hf. split; [by apply table_at_sorted in HT as [? _]|]. eapply run_mono; [eapply visit_run; [exact V|exact HT|exact Hf]|by intros|done].
Qed.


(** C8: a cursor is an iterator over the rows of its table: [rewind], and then
    [rowid], [payload] and [next] until the cursor is past the end, give what
    [scan_table] gives, the rows in ascending order, however the leaves and the
    interior pages lie; each call returns. *)
Theorem cursor_scan_spec {E F} `{VfsOps E F} {ps us : Z} {view dead} `{!PageReader ps us view dead}
    im d fuel k root pgs rows (s : Pager F * (Proc * E)) :
  view im s -> table_rep im us d root pgs rows -> (d + length pgs < fuel)%nat -> (length rows < k)%nat ->
  run (rewind fuel ;; cursor_rows fuel k) (cursor_new root (fst s), s)
    (fun out '(c', s') => out = rows /\ is_valid c' = false /\ view im s') (fun '(_, s') => dead s').
Proof.
  intros V [HT _] Hf Hk. destruct (rd_params _ _ V) as [_ Hu]. apply run_bind.
  eapply run_mono; [apply (rewind_run im d fuel (cursor_new root (fst s)) s root _ _ pgs rows V HT eq_refl Hu Hf)| |done].
  intros [] [c' s'] (V' & n & Hs & Hn). by apply (cursor_rows_run im d fuel rows k c' s' n V' Hs); [lia|].
Qed.

(** C9: [seek_rowid] finds a row exactly when the table has it, and the cursor
    then reads that row; on a miss the cursor is left invalid. *)
Theorem seek_rowid_spec {E F} `{VfsOps E F} {ps us : Z} {view dead} `{!PageReader ps us view dead}
    im d fuel root pgs rows x c (s : Pager F * (Proc * E)) :
  view im s -> table_rep im us d root pgs rows -> is_i64 x -> tc_root c = root -> tc_usable c = us -> (d < fuel)%nat ->
  run (seek_rowid fuel x) (c, s)
    (fun found '(c', s') => view im s' /\
       if (found : bool)
       then exists b, (x, b) ∈ rows /\ is_valid c' = true /\ rowid c' = Ok x /\
              run payload (c', s') (fun b' '(c2, s2) => b' = b /\ c2 = c' /\ view im s2) (fun '(_, s2) => dead s2)
       else (forall b, (x, b) ∉ rows) /\ is_valid c' = false)
    (fun '(_, s') => dead s').
Proof.
  intros V [HT _] Hx Hr Hu Hf. eapply run_mono; [by apply (seek_rowid_run im x d fuel c s root pgs rows)| |done].
  intros [] [c' s'] [V' Hs]; [|done]. split; [done|]. destruct Hs as (b & Hin & (Hv & Hrow & Hpay) & _). by exists b.
Qed.

(** [max_rowid] returns the greatest rowid of the table when its right-most
    leaf has rows; when that leaf is empty it returns 0, whatever rows the other
    leaves hold. *)
Theorem max_rowid_spec {E F} `{VfsOps E F} {ps us : Z} {view dead} `{!PageReader ps us view dead}
    im d fuel root pgs rows (s : Pager F * (Proc * E)) :
  view im s -> table_rep im us d root pgs rows -> (d < fuel)%nat ->
  run (max_rowid fuel root) s
    (fun m s' => view im s' /\
       if is_empty_page im (right_leaf im d root) then m = 0
       else (exists b, (m, b) ∈ rows) /\ Forall (fun r : row => fst r <= m) rows) dead.
Proof.
  intros V [HT _] Hf. eapply run_mono; [eapply (max_rowid_run im d fuel s root _ _ pgs rows V HT Hf)| |done].
  intros m s' [V' Hm]. split; [done|]. destruct (is_empty_page _ _); [done|]. destruct Hm as (r & rows' & -> & ->).
  apply table_at_sorted in HT as [HS _]. split; [exists (snd r); rewrite elem_of_app, list_elem_of_singleton; right; by destruct r|].
  apply Forall_app. split; [|by constructor]. rewrite Forall_forall. intros a Ha.
  apply stdpp.sorting.StronglySorted_app in HS as (Hlt & _). specialize (Hlt a r Ha (list_elem_of_here _ _)). cbn in Hlt. lia.
Qed.

(** C6: seeking a rowid and deleting the row the cursor stands on. It returns,
    or fails with the disk; it says whether the table had the row, and the table
    then holds exactly its other rows; the other pages of the database, and with
    them every other table, are untouched. The row is stored in its cell, and
    its leaf stays at least a third full, or is empty, or is the whole tree, so
    that no page is merged. *)
Theorem delete_rowid_spec {E F} `{VfsOps E F} {ps us : Z} {view dead} `{!PageWriter ps us view dead}
    x im W d fuel root pgs rows c (s : Pager F * (Proc * E)) :
  view im W s -> table_rep im us d root pgs rows -> is_i64 x ->
  tc_root c = root -> tc_usable c = us -> tc_rebalance_in_progress c = false -> (d < fuel)%nat ->
  (forall b, (x, b) ∈ rows -> local_row us (x, b) /\ no_merge im us d root (x, b) = true) ->
  run (delete_rowid fuel x) (c, s)
    (fun found '(_, s') => found = has_row x rows /\ exists im' W', view im' W' s' /\
       table_rep im' us d root pgs (delete_row x rows) /\
       forall d2 root2 pgs2 rows2, table_rep im us d2 root2 pgs2 rows2 -> pgs2 ## pgs ->
         table_rep im' us d2 root2 pgs2 rows2)
    (fun '(_, s') => dead s').
Proof.
  intros V HT Hx Hr Hu Hreb Hf Hrow. eapply run_mono; [by eapply (delete_rowid_run fuel x d im W c s root pgs rows)| |done].
  intros found [c' s'] (-> & im' & W' & V' & HT' & Hch). split; [done|]. exists im', W'. split; [done|]. split; [done|].
  intros d2 root2 pgs2 rows2 [Ht2 Hnd2] Hdis. rewrite elem_of_disjoint in Hdis. split; [|done].
  eapply same_on_disjoint; [exact Hch|exact Ht2|]. intros y Hy. rewrite elem_of_list_to_set. intros ?. by apply (Hdis y).
Qed.

(** After a restart the recovery of the database of [p] ends, interrupted or not,
    with a file that holds at [root] a table of rows that [P] accepts. *)
Definition recovers_table {E F} `{DiskLaws E F} (p : Pager F) (i : nat) (root : Z) (P : list row -> Prop)
    : Pager F * (Proc * E) -> Prop := fun '(_, (_, e)) =>
  exists Dn m d pgs rows, P rows /\ table_rep (file_image (pg_page_size p) m Dn) (pg_usable_size p) d root pgs rows /\
    forall e2 db, restarts e e2 i db ->
      run (recover_hot_journal (pg_path p) db) e2
        (fun _ e3 => files e3 !! i = Some Dn /\ recoverable (journal_path p) i e3 Dn)
        (fun e3 => recoverable (journal_path p) i e3 Dn).

(** C4: an insertion in a transaction of its own, on a disk that may crash at
    any operation, in a database without auto-vacuum ([largest_root_page = 0])
    and without free pages ([freelist_count = 0]). The row is [insertable]: new
    to the table, and either the leaf it belongs to has room for its cell, or it
    comes after all others and the leaf at the right edge splits into a parent
    with room for one more child (outside this [split_leaf] loses rows). If the
    insertion returns, the file holds the table with the new row; if not, the
    next opening recovers a file that holds the table as it was or the table
    with the new row. *)
Theorem insert_crash_atomic {E F} `{DiskLaws E F} `{!QuietVfs E F} (drain : gmap Z bytes -> list (Z * bytes))
    (drain_perm : forall m, drain m ≡ₚ map_to_list m) ex (p : Pager F) pr e i D n r d fuel root pgs rows :
  idle i D n p e -> 480 <= pg_usable_size p <= pg_page_size p -> 512 <= pg_page_size p <= 65536 ->
  largest_root_page (pg_header p) = 0 -> freelist_count (pg_header p) = 0 ->
  table_rep (file_image (pg_page_size p) n D) (pg_usable_size p) d root pgs rows -> 1 ∉ pgs ->
  insertable (file_image (pg_page_size p) n D) (pg_usable_size p) d root r rows ->
  n + cell_room (pg_usable_size p) (snd r) + 6 * zlen rows + 4 < 2 ^ 32 - 4 -> (S (d + length rows) < fuel)%nat ->
  run (begin_write ex ;; table_insert fuel root (fst r) (snd r) ;; commit drain) (p, (pr, e))
    (fun _ '(q, (_, e')) => exists Dn m d' pgs', idle i Dn m q e' /\
       table_rep (file_image (pg_page_size p) m Dn) (pg_usable_size p) d' root pgs' (insert_row r rows))
    (recovers_table p i root (fun rows' => rows' = rows \/ rows' = insert_row r rows)).
Proof.
  intros I Hsize Hps Hplain Hfree HT H1 Hi Hb Hf. pose proof (at_path _ _ _ _ _ (id_at _ _ _ _ _ I)) as Ho.
  pose proof (zlen_nonneg rows). assert (0 < cell_room (pg_usable_size p) (snd r)) as Hroom 
    by apply (cell_room_pos (PageWriter0:=txn_writer i D n p Hsize Hps Hplain Hfree)).
  assert (forall s, session_dead i D p s -> recovers_table p i root (fun rows' => rows' = rows \/ rows' = insert_row r rows) s) as HQ.
  { intros (q & pr' & e') Hrec. exists D, n, d, pgs, rows. split; [by left|]. split; [done|].
    intros e2 db Hr. by apply (restart_run _ e'). }
  apply run_bind. eapply run_mono; [apply (begin_view i D n p Hsize Hps Hplain Hfree ex pr e I); lia| |exact HQ].
  intros [] s1 V1. apply run_bind.
  eapply run_mono; [eapply (insert_run (PageWriter0:=txn_writer i D n p Hsize Hps Hplain Hfree) r s1 _ ∅ d fuel root pgs rows V1 HT Hi); done| |exact HQ].
  intros [] s2 (im' & W' & pgs' & V2 & HT2 & _ & Hin).
  assert (1 ∉ pgs') as H1'.
  { intros Hx. destruct (Hin 1 Hx) as [?|?]; [done|]. cbn in *. pose proof (at_one _ _ _ _ _ (id_at _ _ _ _ _ I)). lia. }
  eapply run_mono; [by apply (commit_view i D n p Hfree drain drain_perm im' W' s2 _ root pgs' _ V2 H1' HT2)|..].
  - intros [] (q & pr' & e') (Dn & m & I' & HT'). by eexists Dn, m, _, _.
  - intros (q & pr' & e') [Hrec|(Dn & m & HT' & Hrec)].
    + exists D, n, d, pgs, rows. split; [by left|]. split; [done|]. intros e2 db Hr. by apply (restart_run _ e').
    + eexists Dn, m, _, _, _. split; [by right|]. split; [done|]. intros e2 db Hr. by apply (restart_run _ e').
Qed.

(** ** A database with a table on page 2 *)

Module Sample.

Definition big (k : Z) : row := (k, zrep 300 k).
Definition leaf_page : bytes :=
  match write_page_cells (zrep 512 0) 0 LeafTable None (enumerate_u16 [cell_bytes 512 (big 5) 0]) with
  | Ok b => b | _ => [] end.
Definition db : bytes := Transaction.Sample.page1 ++ leaf_page.
Definition image : Image := file_image 512 2 db.
Definition vfs : MemVfs :=
  mkMemVfs {["db" := 0%nat]} {["db" := 2%nat]} ∅ {[0%nat := db]} {[2%nat := LockState_default]} ∅
    {[1%nat := mkMemFile 0 Unlocked (Some 2%nat) None 0 0]} 3.
Definition disk (k : nat) : CrashFs := mkCrashFs vfs k 5.
Definition pager : Pager nat := mkPager "db" 1%nat 512 512 (fresh_header 512) 2 ∅ ∅ None [] None.
Definition proc : Proc := mkProc 7 0 0.

Lemma table_vfs_wf k : Z.of_nat k < 2 ^ 32 -> vfs_wf vfs k.
Proof.
  intros Hk. constructor; cbn; try lia.
  - intros a b [<- _]%lookup_singleton_Some. lia.
  - intros f h [<- _]%lookup_singleton_Some. lia.
  - intros f h a [<- <-]%lookup_singleton_Some [= <-]. by eexists.
  - intros p a [<- <-]%lookup_singleton_Some. by eexists.
  - intros a st [<- <-]%lookup_singleton_Some. cbn. lia.
Qed.

Lemma table_pager_idle k : (0 < k)%nat -> Z.of_nat k < 2 ^ 32 -> idle 0 db 2 pager (disk k).
Proof.
  intros H0 Hk. constructor; try done. constructor; try done.
  split; [done|]. by apply table_vfs_wf.
Qed.

Lemma big_ok k : 0 <= k < 256 -> row_ok (big k).
Proof.
  intros Hk. split; [cbn; unfold is_i64; lia|]. split; [|by cbn].
  apply bytes_ok_zrep. unfold byte_ok. lia.
Qed.

Lemma table : table_rep image 512 0 2 [2] [big 5].
Proof.
  split; [|by repeat constructor; set_solver]. split; [by split|]. left. exists [[]]. split; [|split; [done|]].
  - exists (512 - 303), [cell_bytes 512 (big 5) 0].
    assert (im_page image 2 = leaf_page) as -> by (vm_compute; reflexivity).
    pose proof (snd_enumerate [cell_bytes 512 (big 5) 0]) as Hsnd.
    destruct (write_page_cells_run (zrep 512 0) 0 LeafTable None (enumerate_u16 [cell_bytes 512 (big 5) 0]))
      as (page & Hw & Hlen & R & _); rewrite ?Hsnd in *.
    { apply bytes_ok_zrep. unfold byte_ok. lia. }
    1-3: by vm_compute.
    { constructor; [by vm_compute|done]. }
    { constructor; [|done]. by apply cell_bytes_ok, big_ok. }
    { done. }
    { by vm_compute. }
    unfold leaf_page. rewrite Hw.
    assert (zlen (zrep 512 0) - total_len [cell_bytes 512 (big 5) 0] = 512 - 303) as Hccs by (vm_compute; reflexivity).
    rewrite Hccs in R. split; [exact R|]. rewrite Hlen. split; [by vm_compute|].
    constructor; [|constructor]. exists 0. split; [done|].
    assert (snd (leaf_split 512 (snd (big 5))) = false) as Hs by (vm_compute; reflexivity).
    unfold payload_at. rewrite Hs. split; [apply big_ok; lia|]. split; [unfold is_u32; lia|reflexivity].
  - split; [by repeat constructor|]. by repeat constructor.
Qed.

Lemma table_view k : (0 < k)%nat -> Z.of_nat k < 2 ^ 32 -> idle_view 0 db 2 pager image (pager, (proc, disk k)).
Proof. intros H0 Hk. split; [by apply table_pager_idle|]. by split. Qed.

(** A small row fits the page; one as big as the first makes the root split. *)
Lemma small_insertable : insertable image 512 0 2 (1, [7]) [big 5].
Proof.
  split; [split; [cbn; unfold is_i64; lia|split; [by repeat constructor|by cbn]]|]. left.
  split; [by constructor; [cbn; lia|]|by vm_compute].
Qed.
Lemma big_insertable : insertable image 512 0 2 (big 9) [big 5].
Proof. split; [by apply big_ok|]. right. split; [by constructor; [cbn; lia|]|by vm_compute]. Qed.

End Sample.

Lemma scan_table_spec_witness :
  sorted_rows [Sample.big 5] /\
  run (scan_table 1 2) (Sample.pager, (Sample.proc, Sample.disk 40))
    (fun out s' => out = [Sample.big 5] /\ idle_view 0 Sample.db 2 Sample.pager Sample.image s')
    (session_dead 0 Sample.db Sample.pager).
Proof.
  eapply (scan_table_spec (PageReader0:=idle_reader 0 Sample.db 2 Sample.pager ltac:(done) ltac:(done))
    Sample.image 0 1 2 [2] [Sample.big 5]).
  - apply Sample.table_view; [lia|done].
  - apply Sample.table.
  - lia.
Defined.


Lemma insert_crash_atomic_witness :
  run (begin_write false ;; table_insert 4 2 9 (zrep 300 9) ;; commit map_to_list) (Sample.pager, (Sample.proc, Sample.disk 20))
    (fun _ '(q, (_, e')) => exists Dn m d' pgs', idle 0 Dn m q e' /\
       table_rep (file_image 512 m Dn) 512 d' 2 pgs' [Sample.big 5; Sample.big 9])
    (recovers_table Sample.pager 0 2 (fun rows' => rows' = [Sample.big 5] \/ rows' = [Sample.big 5; Sample.big 9])).
Proof.
  apply (insert_crash_atomic map_to_list (fun m => reflexivity _) false Sample.pager Sample.proc (Sample.disk 20) 0
    Sample.db 2 (Sample.big 9) 0 4 2 [2] [Sample.big 5]); try done.
  - apply Sample.table_pager_idle; [lia|done].
  - apply Sample.table.
  - set_solver.
  - apply Sample.big_insertable.
  - cbn. lia.
Defined.

Lemma cursor_scan_spec_witness :
  run (rewind 3 ;; cursor_rows 3 2) (cursor_new 2 Sample.pager, (Sample.pager, (Sample.proc, Sample.disk 40)))
    (fun out '(c', s') => out = [Sample.big 5] /\ is_valid c' = false /\
       idle_view 0 Sample.db 2 Sample.pager Sample.image s')
    (fun '(_, s') => session_dead 0 Sample.db Sample.pager s').
Proof.
  apply (cursor_scan_spec (PageReader0:=idle_reader 0 Sample.db 2 Sample.pager ltac:(done) ltac:(done))
    Sample.image 0 3 2 2 [2] [Sample.big 5] (Sample.pager, (Sample.proc, Sample.disk 40)) (Sample.table_view 40 ltac:(lia) ltac:(done)) Sample.table);
    cbn; lia.
Defined.

Lemma seek_rowid_spec_witness :
  run (seek_rowid 1 5) (cursor_new 2 Sample.pager, (Sample.pager, (Sample.proc, Sample.disk 40)))
    (fun found '(c', s') => idle_view 0 Sample.db 2 Sample.pager Sample.image s' /\
       if (found : bool)
       then exists b, (5, b) ∈ [Sample.big 5] /\ is_valid c' = true /\ rowid c' = Ok 5 /\
              run payload (c', s') (fun b' '(c2, s2) => b' = b /\ c2 = c' /\ idle_view 0 Sample.db 2 Sample.pager Sample.image s2)
                (fun '(_, s2) => session_dead 0 Sample.db Sample.pager s2)
       else (forall b, (5, b) ∉ [Sample.big 5]) /\ is_valid c' = false)
    (fun '(_, s') => session_dead 0 Sample.db Sample.pager s').
Proof.
  apply (seek_rowid_spec (PageReader0:=idle_reader 0 Sample.db 2 Sample.pager ltac:(done) ltac:(done))
    Sample.image 0 1 2 [2] [Sample.big 5] 5 _ _ (Sample.table_view 40 ltac:(lia) ltac:(done)) Sample.table); [unfold is_i64; lia|done|done|lia].
Defined.

Lemma max_rowid_spec_witness :
  is_empty_page Sample.image (right_leaf Sample.image 0 2) = false /\
  run (max_rowid 1 2) (Sample.pager, (Sample.proc, Sample.disk 40))
    (fun m s' => idle_view 0 Sample.db 2 Sample.pager Sample.image s' /\
       if is_empty_page Sample.image (right_leaf Sample.image 0 2) then m = 0
       else (exists b, (m, b) ∈ [Sample.big 5]) /\ Forall (fun r : row => fst r <= m) [Sample.big 5])
    (session_dead 0 Sample.db Sample.pager).
Proof.
  split; [by vm_compute|].
  apply (max_rowid_spec (PageReader0:=idle_reader 0 Sample.db 2 Sample.pager ltac:(done) ltac:(done))
    Sample.image 0 1 2 [2] [Sample.big 5] _ (Sample.table_view 40 ltac:(lia) ltac:(done)) Sample.table). lia.
Defined.

Lemma delete_rowid_spec_witness :
  run (begin_write false) (Sample.pager, (Sample.proc, Sample.disk 40))
    (fun _ s =>
       run (delete_rowid 1 5) (cursor_new 2 Sample.pager, s)
         (fun found '(_, s') => found = true /\ exists im' W', txn_view 0 Sample.db 2 Sample.pager im' W' s' /\
            table_rep im' 512 0 2 [2] [] /\
            forall d2 root2 pgs2 rows2, table_rep Sample.image 512 d2 root2 pgs2 rows2 -> pgs2 ## [2] ->
              table_rep im' 512 d2 root2 pgs2 rows2)
         (fun '(_, s') => session_dead 0 Sample.db Sample.pager s'))
    (session_dead 0 Sample.db Sample.pager).
Proof.
  eapply run_mono; [apply (begin_view 0 Sample.db 2 Sample.pager); try done; apply Sample.table_pager_idle; [lia|done]| |done].
  intros [] s V.
  apply (delete_rowid_spec (PageWriter0:=txn_writer 0 Sample.db 2 Sample.pager ltac:(done) ltac:(done) ltac:(done) ltac:(done))
    5 Sample.image ∅ 0 1 2 [2] [Sample.big 5] _ s V Sample.table); [unfold is_i64; lia|done|done|done|lia|].
  intros b [[= ->]|[]%not_elem_of_nil]%elem_of_cons. split; [by vm_compute|done].
Defined.
