(* ===== verification/Ast.v ===== *)
(** * The syntax tree

    [rustqlite-parser/src/ast.rs]: statements, queries and expressions as the
    parser hands them to the code generator. Names and texts are byte strings,
    boxes disappear. Types that contain each other are one inductive block;
    their structs have a constructor [mk...] and projections with a prefix. *)

From S2P Require Import Prelude Utf8 Str.
#[local] Open Scope Z_scope.

(** ** Types without expressions *)

Module Literal.
Inductive Literal := Null | Integer (n : Z) | Real (r : Z) | Text (s : bytes) | Blob (b : bytes) | Bool (b : bool).
End Literal.
Notation Literal := Literal.Literal.
#[export] Instance Literal_eq_dec : EqDecision Literal.
Proof. solve_decision. Defined.

Module UnaryOp.
Inductive UnaryOp := Negate | Positive | Not | BitNot.
End UnaryOp.
Notation UnaryOp := UnaryOp.UnaryOp.
#[export] Instance UnaryOp_eq_dec : EqDecision UnaryOp.
Proof. solve_decision. Defined.

Module BinaryOp.
Inductive BinaryOp :=
  | Or | And | Eq | Ne | Lt | Le | Gt | Ge | Add | Sub | Mul | Div | Mod | Concat | Is | IsNot | Like | Glob
  | Regexp | Match | BitAnd | BitOr | ShiftLeft | ShiftRight | JsonExtract | JsonExtractText.
End BinaryOp.
Notation BinaryOp := BinaryOp.BinaryOp.
#[export] Instance BinaryOp_eq_dec : EqDecision BinaryOp.
Proof. solve_decision. Defined.

Module FrameMode.
Inductive FrameMode := Rows | Range | Groups.
End FrameMode.
Notation FrameMode := FrameMode.FrameMode.
Module FrameExclude.
Inductive FrameExclude := NoOthers | CurrentRow | Group | Ties.
End FrameExclude.
Notation FrameExclude := FrameExclude.FrameExclude.
Module NullsOrder.
Inductive NullsOrder := First | Last.
End NullsOrder.
Notation NullsOrder := NullsOrder.NullsOrder.
Module CompoundOperator.
Inductive CompoundOperator := Union | UnionAll | Intersect | Except.
End CompoundOperator.
Notation CompoundOperator := CompoundOperator.CompoundOperator.
#[export] Instance CompoundOperator_eq_dec : EqDecision CompoundOperator.
Proof. solve_decision. Defined.
Module ConflictAction.
Inductive ConflictAction := Rollback | Abort | Fail | Ignore | Replace.
End ConflictAction.
Notation ConflictAction := ConflictAction.ConflictAction.
#[export] Instance ConflictAction_eq_dec : EqDecision ConflictAction.
Proof. solve_decision. Defined.
Module ReferenceAction.
Inductive ReferenceAction := SetNull | SetDefault | Cascade | Restrict | NoAction.
End ReferenceAction.
Notation ReferenceAction := ReferenceAction.ReferenceAction.
Module Deferrable.
Inductive Deferrable := DeferrableInitiallyDeferred | DeferrableInitiallyImmediate | NotDeferrable.
End Deferrable.
Notation Deferrable := Deferrable.Deferrable.
Module ExplainKind.
Inductive ExplainKind := Bytecode | QueryPlan.
End ExplainKind.
Notation ExplainKind := ExplainKind.ExplainKind.
Module TransactionType.
Inductive TransactionType := Deferred | Immediate | Exclusive.
End TransactionType.
Notation TransactionType := TransactionType.TransactionType.
Module TriggerTime.
Inductive TriggerTime := Before | After | InsteadOf.
End TriggerTime.
Notation TriggerTime := TriggerTime.TriggerTime.
Module TriggerEvent.
Inductive TriggerEvent := Delete | Insert | Update (columns : list bytes).
End TriggerEvent.
Notation TriggerEvent := TriggerEvent.TriggerEvent.

Inductive IndexedBy := IB_Index (name : bytes) | IB_NotIndexed.

(** *** Join operators *)

Module JoinOp.
Inductive JoinOp :=
  | Inner | Cross | Natural | NaturalLeft | NaturalRight | NaturalFull | Left | LeftOuter | Right | RightOuter
  | Full | FullOuter.
End JoinOp.
Notation JoinOp := JoinOp.JoinOp.
#[export] Instance JoinOp_eq_dec : EqDecision JoinOp.
Proof. solve_decision. Defined.

(** The six flags of [from_keywords]. *)
Record JoinFlags := mkJoinFlags { jf_natural : bool; jf_left : bool; jf_right : bool; jf_outer : bool; jf_inner : bool; jf_cross : bool }.
Definition join_keyword (f : JoinFlags) (kw : bytes) : option JoinFlags :=
  let '(mkJoinFlags n l r o i c) := f in
  let kw := to_ascii_lowercase kw in
  if bool_decide (kw = bytes_of "natural") then Some (mkJoinFlags true l r o i c)
  else if bool_decide (kw = bytes_of "left") then Some (mkJoinFlags n true r o i c)
  else if bool_decide (kw = bytes_of "right") then Some (mkJoinFlags n l true o i c)
  else if bool_decide (kw = bytes_of "full") then Some (mkJoinFlags n true true o i c)
  else if bool_decide (kw = bytes_of "outer") then Some (mkJoinFlags n l r true i c)
  else if bool_decide (kw = bytes_of "inner") then Some (mkJoinFlags n l r o true c)
  else if bool_decide (kw = bytes_of "cross") then Some (mkJoinFlags n l r o i true)
  else None.
Fixpoint join_keywords (f : JoinFlags) (kws : list bytes) : JoinFlags + bytes :=
  match kws with
  | [] => inl f
  | kw :: kws => match join_keyword f kw with Some f => join_keywords f kws | None => inr kw end
  end.
Definition join_invalid (f : JoinFlags) (has_full : bool) : bool :=
  let '(mkJoinFlags n l r o i c) := f in
  ((c || i) && o) || (c && (l || r)) || (c && n && i) || (o && negb (l || r))
  || (n && l && r && negb has_full) || (i && (l || r)).
Definition join_of_flags (f : JoinFlags) : JoinOp :=
  let '(mkJoinFlags n l r o _ c) := f in
  if n then
    if l && r then JoinOp.NaturalFull else if l then JoinOp.NaturalLeft
    else if r then JoinOp.NaturalRight else JoinOp.Natural
  else if l && r && o then JoinOp.FullOuter
  else if l && r then JoinOp.Full
  else if l && o then JoinOp.LeftOuter
  else if l then JoinOp.Left
  else if r && o then JoinOp.RightOuter
  else if r then JoinOp.Right
  else if c then JoinOp.Cross
  else JoinOp.Inner.
(** [Vec::join] with a space. *)
Fixpoint join_words (sep : bytes) (ws : list bytes) : bytes :=
  match ws with [] => [] | [w] => w | w :: ws => w ++ sep ++ join_words sep ws end.
Definition from_keywords (kws : list bytes) : JoinOp + bytes :=
  match join_keywords (mkJoinFlags false false false false false false) kws with
  | inr kw => inr kw
  | inl f =>
      if join_invalid f (existsb (fun kw => eq_ignore_ascii_case kw (bytes_of "full")) kws)
      then inr (join_words [32] kws)
      else inl (join_of_flags f)
  end.

(** ** Expressions and queries *)

Inductive Expr :=
  | E_Literal (l : Literal)
  | E_Column (schema table : option bytes) (name : bytes)
  | E_Unary (op : UnaryOp) (expr : Expr)
  | E_Binary (op : BinaryOp) (left right : Expr)
  | E_Function (name : bytes) (distinct : bool) (args : FunctionArgs) (filter : option Expr) (over : option Window)
  | E_BindParam (name : bytes)
  | E_Between (expr low high : Expr) (negated : bool)
  | E_In (expr : Expr) (values : list Expr) (negated : bool)
  | E_InSubquery (expr : Expr) (subquery : SelectStmt) (negated : bool)
  | E_Exists (s : SelectStmt)
  | E_Subquery (s : SelectStmt)
  | E_Row (es : list Expr)
  | E_Cast (expr : Expr) (type_name : bytes)
  | E_Case (base : option Expr) (when_then : list (Expr * Expr)) (else_expr : option Expr)
  | E_Collate (expr : Expr) (collation : bytes)
  | E_IsDistinctFrom (left right : Expr) (negated : bool)
  | E_AggRef (reg : Z)
  | E_Coalesce2 (left right : Expr)
with FunctionArgs := FA_Star | FA_List (es : list Expr)
with Window :=
  mkWindow (name : option bytes) (partition_by : list Expr) (order_by : list OrderingTerm) (frame : option Frame)
with Frame :=
  mkFrameSpec (mode : FrameMode) (start : FrameBound) (end_ : option FrameBound) (exclude : option FrameExclude)
with FrameBound :=
  | FB_UnboundedPreceding | FB_UnboundedFollowing | FB_CurrentRow | FB_Preceding (e : Expr) | FB_Following (e : Expr)
with OrderingTerm := mkOrderingTerm (expr : Expr) (desc : bool) (nulls : option NullsOrder)
with SelectStmt :=
  mkSelect (distinct : bool) (columns : list ResultColumn) (from : list TableOrJoin) (where_clause : option Expr)
    (group_by : list Expr) (having : option Expr) (compound : list (CompoundOperator * SelectStmt))
    (order_by : list OrderingTerm) (limit offset : option Expr) (with_clause : option WithClause)
    (window_clause : list NamedWindow) (values : list (list Expr))
with ResultColumn := RCol_Star | RCol_TableStar (t : bytes) | RCol_Expr (expr : Expr) (alias : option bytes)
with TableRef :=
  mkTableRef (schema : option bytes) (name : bytes) (alias : option bytes) (indexed_by : option IndexedBy)
    (args : option (list Expr))
with TableOrJoin := TJ_Table (t : TableRef) | TJ_Subquery (query : SelectStmt) (alias : bytes) | TJ_Join (j : Join)
with Join := mkJoin (op : JoinOp) (left : TableOrJoin) (right : TableRef) (constraint : option JoinConstraint)
with JoinConstraint := JC_On (e : Expr) | JC_Using (cols : list bytes)
with Cte := mkCte (name : bytes) (columns : list bytes) (query : SelectStmt) (materialized : option bool)
with WithClause := mkWithClause (recursive : bool) (ctes : list Cte)
with NamedWindow := mkNamedWindow (name : bytes) (spec : Window).

Definition ot_expr (t : OrderingTerm) : Expr := let '(mkOrderingTerm x _ _) := t in x.
Definition ot_desc (t : OrderingTerm) : bool := let '(mkOrderingTerm _ x _) := t in x.
Definition ot_nulls (t : OrderingTerm) : option NullsOrder := let '(mkOrderingTerm _ _ x) := t in x.
Definition s_distinct (s : SelectStmt) : bool := let '(mkSelect x _ _ _ _ _ _ _ _ _ _ _ _) := s in x.
Definition s_columns (s : SelectStmt) : list ResultColumn := let '(mkSelect _ x _ _ _ _ _ _ _ _ _ _ _) := s in x.
Definition s_from (s : SelectStmt) : list TableOrJoin := let '(mkSelect _ _ x _ _ _ _ _ _ _ _ _ _) := s in x.
Definition s_where_clause (s : SelectStmt) : option Expr := let '(mkSelect _ _ _ x _ _ _ _ _ _ _ _ _) := s in x.
Definition s_group_by (s : SelectStmt) : list Expr := let '(mkSelect _ _ _ _ x _ _ _ _ _ _ _ _) := s in x.
Definition s_having (s : SelectStmt) : option Expr := let '(mkSelect _ _ _ _ _ x _ _ _ _ _ _ _) := s in x.
Definition s_compound (s : SelectStmt) : list (CompoundOperator * SelectStmt) :=
  let '(mkSelect _ _ _ _ _ _ x _ _ _ _ _ _) := s in x.
Definition s_order_by (s : SelectStmt) : list OrderingTerm := let '(mkSelect _ _ _ _ _ _ _ x _ _ _ _ _) := s in x.
Definition s_limit (s : SelectStmt) : option Expr := let '(mkSelect _ _ _ _ _ _ _ _ x _ _ _ _) := s in x.
Definition s_offset (s : SelectStmt) : option Expr := let '(mkSelect _ _ _ _ _ _ _ _ _ x _ _ _) := s in x.
Definition s_with_clause (s : SelectStmt) : option WithClause := let '(mkSelect _ _ _ _ _ _ _ _ _ _ x _ _) := s in x.
Definition s_window_clause (s : SelectStmt) : list NamedWindow := let '(mkSelect _ _ _ _ _ _ _ _ _ _ _ x _) := s in x.
Definition s_values (s : SelectStmt) : list (list Expr) := let '(mkSelect _ _ _ _ _ _ _ _ _ _ _ _ x) := s in x.
Definition w_name (w : Window) : option bytes := let '(mkWindow x _ _ _) := w in x.
Definition w_partition_by (w : Window) : list Expr := let '(mkWindow _ x _ _) := w in x.
Definition w_order_by (w : Window) : list OrderingTerm := let '(mkWindow _ _ x _) := w in x.
Definition w_frame (w : Window) : option Frame := let '(mkWindow _ _ _ x) := w in x.
Definition f_mode (f : Frame) : FrameMode := let '(mkFrameSpec x _ _ _) := f in x.
Definition f_start (f : Frame) : FrameBound := let '(mkFrameSpec _ x _ _) := f in x.
Definition f_end (f : Frame) : option FrameBound := let '(mkFrameSpec _ _ x _) := f in x.
Definition f_exclude (f : Frame) : option FrameExclude := let '(mkFrameSpec _ _ _ x) := f in x.
Definition tr_schema (t : TableRef) : option bytes := let '(mkTableRef x _ _ _ _) := t in x.
Definition tr_name (t : TableRef) : bytes := let '(mkTableRef _ x _ _ _) := t in x.
Definition tr_alias (t : TableRef) : option bytes := let '(mkTableRef _ _ x _ _) := t in x.
Definition tr_indexed_by (t : TableRef) : option IndexedBy := let '(mkTableRef _ _ _ x _) := t in x.
Definition tr_args (t : TableRef) : option (list Expr) := let '(mkTableRef _ _ _ _ x) := t in x.
Definition j_op (j : Join) : JoinOp := let '(mkJoin x _ _ _) := j in x.
Definition j_left (j : Join) : TableOrJoin := let '(mkJoin _ x _ _) := j in x.
Definition j_right (j : Join) : TableRef := let '(mkJoin _ _ x _) := j in x.
Definition j_constraint (j : Join) : option JoinConstraint := let '(mkJoin _ _ _ x) := j in x.
Definition cte_name (c : Cte) : bytes := let '(mkCte x _ _ _) := c in x.
Definition cte_columns (c : Cte) : list bytes := let '(mkCte _ x _ _) := c in x.
Definition cte_query (c : Cte) : SelectStmt := let '(mkCte _ _ x _) := c in x.
Definition wc_recursive (w : WithClause) : bool := let '(mkWithClause x _) := w in x.
Definition wc_ctes (w : WithClause) : list Cte := let '(mkWithClause _ x) := w in x.
Definition nw_name (w : NamedWindow) : bytes := let '(mkNamedWindow x _) := w in x.
Definition nw_spec (w : NamedWindow) : Window := let '(mkNamedWindow _ x) := w in x.

(** [TableOrJoin::table], [TableOrJoin::subquery]. *)
Definition tj_table (t : TableOrJoin) : option TableRef := match t with TJ_Table t => Some t | _ => None end.
Definition tj_subquery (t : TableOrJoin) : option (SelectStmt * bytes) :=
  match t with TJ_Subquery q a => Some (q, a) | _ => None end.

(** ** Definitions of tables and indexes *)

Record PrimaryKeyColumn := mkPkColumn { pkc_name : bytes; pkc_desc : bool }.
Record References := mkReferences {
  ref_parent_table : bytes; ref_parent_columns : option (list bytes); ref_on_delete : option ReferenceAction;
  ref_on_update : option ReferenceAction; ref_deferrable : option Deferrable }.
Inductive TableConstraintBody :=
  | TC_PrimaryKey (columns : list PrimaryKeyColumn) (on_conflict : option ConflictAction)
  | TC_Unique (columns : list PrimaryKeyColumn) (on_conflict : option ConflictAction)
  | TC_Check (expr : Expr) (on_conflict : option ConflictAction)
  | TC_ForeignKey (columns : list bytes) (references : References).
Record TableConstraint := mkTableConstraint { tc_name : option bytes; tc_body : TableConstraintBody }.
Inductive ColumnConstraint :=
  | CC_PrimaryKey (desc autoincrement : bool) (on_conflict : option ConflictAction)
  | CC_NotNull (on_conflict : option ConflictAction)
  | CC_Unique (on_conflict : option ConflictAction)
  | CC_Default (e : Expr)
  | CC_References (r : References)
  | CC_Generated (expr : Expr) (stored : bool)
  | CC_Check (expr : Expr) (on_conflict : option ConflictAction)
  | CC_Collate (collation : bytes).
Record ColumnDef := mkColumnDef { cd_name : bytes; cd_type_name : option bytes; cd_constraints : list ColumnConstraint }.
Record CreateTable := mkCreateTable {
  ct_temporary : bool; ct_if_not_exists : bool; ct_schema : option bytes; ct_name : bytes; ct_columns : list ColumnDef;
  ct_constraints : list TableConstraint; ct_without_rowid : bool; ct_strict : bool; ct_as_select : option SelectStmt }.
Record AstIndexedColumn := mkAstIndexedColumn {
  aic_name : bytes; aic_expr : option Expr; aic_collation : option bytes; aic_desc : bool }.
Record CreateIndex := mkCreateIndex {
  ci_unique : bool; ci_if_not_exists : bool; ci_schema : option bytes; ci_name : bytes; ci_table : bytes;
  ci_columns : list AstIndexedColumn; ci_where_clause : option Expr }.
Record CreateView := mkCreateView {
  cv_temporary : bool; cv_if_not_exists : bool; cv_schema : option bytes; cv_name : bytes; cv_columns : list bytes;
  cv_select : SelectStmt }.

(** ** Statements that change rows *)

Record Assignment := mkAssignment { as_column : bytes; as_value : Expr }.
Inductive UpsertTargetColumn :=
  | UTC_Column (name : bytes) (collation : option bytes) (desc : bool)
  | UTC_Expr (e : Expr).
Record UpsertTarget := mkUpsertTarget { ut_columns : list UpsertTargetColumn; ut_where_clause : option Expr }.
Inductive UpsertAction := UA_Nothing | UA_Update (assignments : list Assignment) (where_clause : option Expr).
Record UpsertClause := mkUpsert { uc_target : option UpsertTarget; uc_action : UpsertAction }.
Inductive InsertSource := IS_Values (rows : list (list Expr)) | IS_Select (s : SelectStmt) | IS_DefaultValues.
Record InsertStmt := mkInsert {
  is_or_action : option ConflictAction; is_schema : option bytes; is_table : bytes; is_columns : list bytes;
  is_source : InsertSource; is_upsert : list UpsertClause; is_returning : option (list ResultColumn) }.
Record DeleteStmt := mkDelete {
  ds_schema : option bytes; ds_table : bytes; ds_where_clause : option Expr; ds_order_by : list OrderingTerm;
  ds_limit : option Expr; ds_offset : option Expr; ds_returning : option (list ResultColumn) }.
Record UpdateStmt := mkUpdate {
  us_or_action : option ConflictAction; us_schema : option bytes; us_table : bytes; us_assignments : list Assignment;
  us_from : list TableOrJoin; us_where_clause : option Expr; us_order_by : list OrderingTerm; us_limit : option Expr;
  us_offset : option Expr; us_returning : option (list ResultColumn) }.

(** ** Other statements *)

Record DropTableStmt := mkDropTable { dt_if_exists : bool; dt_schema : option bytes; dt_name : bytes }.
Record DropIndexStmt := mkDropIndex { di_if_exists : bool; di_schema : option bytes; di_name : bytes }.
Record DropViewStmt := mkDropView { dv_if_exists : bool; dv_schema : option bytes; dv_name : bytes }.
Record DropTriggerStmt := mkDropTrigger { dg_if_exists : bool; dg_schema : option bytes; dg_name : bytes }.
Inductive TriggerStep :=
  TS_Insert (s : InsertStmt) | TS_Update (s : UpdateStmt) | TS_Delete (s : DeleteStmt) | TS_Select (s : SelectStmt).
Record CreateTrigger := mkCreateTrigger {
  cg_temporary : bool; cg_if_not_exists : bool; cg_schema : option bytes; cg_name : bytes; cg_timing : TriggerTime;
  cg_event : TriggerEvent; cg_table_schema : option bytes; cg_table : bytes; cg_for_each_row : bool;
  cg_when_clause : option Expr; cg_body : list TriggerStep }.
Inductive AlterTableAction :=
  | AT_RenameTo (name : bytes)
  | AT_AddColumn (c : ColumnDef)
  | AT_DropColumn (name : bytes)
  | AT_RenameColumn (old new : bytes)
  | AT_AlterColumnDropNotNull (name : bytes)
  | AT_AlterColumnSetNotNull (name : bytes)
  | AT_AddCheckConstraint (name : option bytes) (expr : Expr)
  | AT_DropConstraint (name : bytes).
Record AlterTableStmt := mkAlterTable { at_schema : option bytes; at_table : bytes; at_action : AlterTableAction }.
Inductive PragmaValueKind := PV_Number (l : Literal) | PV_Ident (s : bytes) | PV_On | PV_Delete | PV_Default.
Inductive PragmaValue := PVal_Equal (k : PragmaValueKind) | PVal_Paren (k : PragmaValueKind).
Record PragmaStmt := mkPragma { ps_schema : option bytes; ps_name : bytes; ps_value : option PragmaValue }.
Inductive TransactionStmt :=
  | TX_Begin (transaction_type : TransactionType) (name : option bytes)
  | TX_Commit (name : option bytes) (ended : bool)
  | TX_Rollback (name to_savepoint : option bytes)
  | TX_Savepoint (name : bytes)
  | TX_Release (name : bytes).
Record CreateVirtualTable := mkVirtualTable {
  vt_if_not_exists : bool; vt_schema : option bytes; vt_name : bytes; vt_module : bytes; vt_args : bytes }.
Record AttachStmt := mkAttach { att_database_kw : bool; att_filename : Expr; att_schema_name : Expr; att_key : option Expr }.
Record DetachStmt := mkDetach { det_database_kw : bool; det_schema_name : Expr }.
Record VacuumStmt := mkVacuum { vac_schema : option bytes; vac_into : option Expr }.
Record AnalyzeStmt := mkAnalyze { an_schema : option bytes; an_name : option bytes }.
Record ReindexStmt := mkReindex { re_schema : option bytes; re_name : option bytes }.

Inductive Stmt :=
  | St_Select (s : SelectStmt) | St_CreateTable (s : CreateTable) | St_Insert (s : InsertStmt)
  | St_Delete (s : DeleteStmt) | St_DropTable (s : DropTableStmt) | St_Update (s : UpdateStmt)
  | St_CreateIndex (s : CreateIndex) | St_DropIndex (s : DropIndexStmt) | St_AlterTable (s : AlterTableStmt)
  | St_CreateView (s : CreateView) | St_DropView (s : DropViewStmt) | St_CreateTrigger (s : CreateTrigger)
  | St_DropTrigger (s : DropTriggerStmt) | St_Pragma (s : PragmaStmt) | St_Transaction (s : TransactionStmt)
  | St_Attach (s : AttachStmt) | St_Detach (s : DetachStmt) | St_Vacuum (s : VacuumStmt) | St_Analyze (s : AnalyzeStmt)
  | St_Reindex (s : ReindexStmt) | St_CreateVirtualTable (s : CreateVirtualTable) | St_Explain (s : Stmt) (k : ExplainKind).
