(* ===== verification/Schema.v ===== *)
(** * The schema

    [schema/table.rs], [schema/catalog.rs], [schema/bootstrap.rs]: the catalog
    read from page 1, tables and indexes with their columns resolved, the
    resolution of column names and the order in which a WITHOUT ROWID table
    stores its columns. Stored [CREATE] texts go through the class [SqlParser],
    which stands for the parser generated from the grammar. *)

From S2P Require Import Prelude Utf8 Str Value DbHeader Record Program Vfs Wal Ptrmap BtreePage Pager Cell BtreeInsert TableCursor Ast.
#[local] Open Scope Z_scope.

(** [rustqlite_parser::parse]. *)
Class SqlParser := parse : bytes -> option (list Stmt).

(** ** Conflict actions ([vdbe/oe.rs]) *)

Definition oe_from_parser (action : option ConflictAction) : OeAction :=
  match action with
  | None => OeAction.Abort
  | Some ConflictAction.Rollback => OeAction.Rollback
  | Some ConflictAction.Abort => OeAction.Abort
  | Some ConflictAction.Fail => OeAction.Fail
  | Some ConflictAction.Ignore => OeAction.Ignore
  | Some ConflictAction.Replace => OeAction.Replace
  end.
(** No clause, no action: the statement decides. *)
Definition oe_of_clause (action : option ConflictAction) : OeAction :=
  match action with None => OeAction.None | Some _ => oe_from_parser action end.
#[export] Instance OeAction_eq_dec : EqDecision OeAction.
Proof. solve_decision. Defined.

(** ** Tables and indexes ([schema/table.rs]) *)

Record Column := mkColumn {
  c_name : bytes; c_type_name : option bytes; c_affinity : Affinity; c_collation : Collation; c_notnull : bool;
  c_pk : bool; c_default : option Expr; c_notnull_oe : OeAction }.
Definition type_name_str (c : Column) : bytes := default [] (c_type_name c).
Record CheckConstraint := mkCheck { ck_expr : Expr; ck_oe : OeAction; ck_col_idx : option Z }.
Record Table := mkTable {
  t_name : bytes; t_rootpage : Z; t_columns : list Column; t_rowid_alias : option Z; t_without_rowid : bool;
  t_pk_columns : list (Z * bool); t_autoincrement : bool; t_check_constraints : list CheckConstraint }.
Definition Table_default : Table := mkTable [] 0 [] None false [] false [].
Record IndexedColumn := mkIndexedColumn { ic_name : bytes; ic_expr : option Expr; ic_collation : Collation; ic_desc : bool }.
Record IndexObject := mkIndexObject {
  io_name : bytes; io_table : bytes; io_rootpage : Z; io_columns : list IndexedColumn; io_unique : bool;
  io_unique_not_null : bool; io_unique_oe : OeAction; io_where_clause : option Expr }.

Definition is_nil {A} (l : list A) : bool := match l with [] => true | _ => false end.
Definition is_some {A} (o : option A) : bool := match o with Some _ => true | None => false end.
Definition is_expression (ic : IndexedColumn) : bool := is_some (ic_expr ic) && is_nil (ic_name ic).
Definition nkey_fields (io : IndexObject) : Z := zlen (io_columns io).
Definition first_column (io : IndexObject) : option IndexedColumn := head (io_columns io).

(** [iter().position(p)]. *)
Fixpoint position_from {A} (k : Z) (p : A -> bool) (l : list A) : option Z :=
  match l with [] => None | x :: l => if p x then Some k else position_from (k + 1) p l end.
Definition position {A} (p : A -> bool) (l : list A) : option Z := position_from 0 p l.

Definition column_index (t : Table) (name : bytes) : option Z :=
  position (fun c => eq_ignore_ascii_case (c_name c) name) (t_columns t).
Definition is_rowid_name (name : bytes) : bool :=
  eq_ignore_ascii_case name (bytes_of "rowid") || eq_ignore_ascii_case name (bytes_of "_rowid_")
  || eq_ignore_ascii_case name (bytes_of "oid").
Inductive ColumnRef := CR_Rowid | CR_Index (i : Z).
Definition resolve_column (t : Table) (name : bytes) : option ColumnRef :=
  match column_index t name with
  | Some i => if bool_decide (Some i = t_rowid_alias t) then Some CR_Rowid else Some (CR_Index i)
  | None => if negb (t_without_rowid t) && is_rowid_name name then Some CR_Rowid else None
  end.

(** *** Storage order of a WITHOUT ROWID table *)

Definition is_pk_column (t : Table) (i : Z) : bool := existsb (fun pk => fst pk =? i) (t_pk_columns t).
(** The column numbers [0 .. columns.len()]. *)
Definition column_numbers (t : Table) : list Z := Z.of_nat <$> seq 0 (length (t_columns t)).
Fixpoint storage_index_loop (t : Table) (col_idx storage : Z) (cols : list Z) : option Z :=
  match cols with
  | [] => None
  | i :: cols =>
      if is_pk_column t i then storage_index_loop t col_idx storage cols
      else if i =? col_idx then Some storage
      else storage_index_loop t col_idx (storage + 1) cols
  end.
Definition without_rowid_storage_index (t : Table) (col_idx : Z) : option Z :=
  if negb (t_without_rowid t) then None
  else
    match position (fun pk => fst pk =? col_idx) (t_pk_columns t) with
    | Some pos => Some pos
    | None => storage_index_loop t col_idx (zlen (t_pk_columns t)) (column_numbers t)
    end.
Fixpoint table_index_loop (t : Table) (target : Z) (cols : list Z) : option Z :=
  match cols with
  | [] => None
  | i :: cols =>
      if is_pk_column t i then table_index_loop t target cols
      else if target =? 0 then Some i
      else table_index_loop t (target - 1) cols
  end.
Definition without_rowid_table_index (t : Table) (storage_idx : Z) : option Z :=
  if negb (t_without_rowid t) then None
  else
    let n_pk := zlen (t_pk_columns t) in
    if storage_idx <? n_pk then fst <$> zget (t_pk_columns t) storage_idx
    else table_index_loop t (storage_idx - n_pk) (column_numbers t).
Definition without_rowid_storage_width (t : Table) : Z := zlen (t_columns t).
Definition column_at (t : Table) (i : Z) : outcome Column := idx (t_columns t) i.
Definition key_field (t : Table) (i : Z) (desc : bool) : outcome KeyField :=
  c ← column_at t i; Ok (mkKeyField desc (c_collation c)).
Fixpoint mmap {A B} (f : A -> outcome B) (l : list A) : outcome (list B) :=
  match l with [] => Ok [] | a :: l => b ← f a; bs ← mmap f l; Ok (b :: bs) end.
Definition without_rowid_key_info_with_collation (t : Table) : outcome (list KeyField) :=
  pks ← mmap (fun pk => key_field t (fst pk) (snd pk)) (t_pk_columns t);
  rest ← mmap (fun i => key_field t i false) (List.filter (fun i => negb (is_pk_column t i)) (column_numbers t));
  Ok (pks ++ rest).
Definition without_rowid_key_info : Table -> outcome (list KeyField) := without_rowid_key_info_with_collation.

(** *** Building a table from its [CREATE TABLE] *)

(** What the constraints of a column leave behind. *)
Record ColumnState := mkColumnState {
  cs_notnull : bool; cs_notnull_oe : OeAction; cs_pk : bool; cs_default : option Expr; cs_collation : Collation;
  cs_pk_cols : list (Z * bool); cs_autoincrement : bool; cs_checks : list CheckConstraint }.
Definition column_constraint (i : Z) (s : ColumnState) (c : ColumnConstraint) : ColumnState :=
  let '(mkColumnState nn oe pk d coll pks ai cks) := s in
  match c with
  | CC_NotNull oc => mkColumnState true (oe_of_clause oc) pk d coll pks ai cks
  | CC_PrimaryKey desc a oc =>
      mkColumnState nn (if bool_decide (oe = OeAction.None) then oe_from_parser oc else oe) true d coll
        (pks ++ [(i, desc)]) (ai || a) cks
  | CC_Default e => mkColumnState nn oe pk (Some e) coll pks ai cks
  | CC_Check e oc => mkColumnState nn oe pk d coll pks ai (cks ++ [mkCheck e (oe_of_clause oc) (Some i)])
  | CC_Collate name => mkColumnState nn oe pk d (default coll (Collation_from_name name)) pks ai cks
  | _ => s
  end.
Fixpoint build_columns (i : Z) (cds : list ColumnDef) (pks : list (Z * bool)) (ai : bool) (cks : list CheckConstraint)
    : list Column * list (Z * bool) * bool * list CheckConstraint :=
  match cds with
  | [] => ([], pks, ai, cks)
  | cd :: cds =>
      let s := fold_left (column_constraint i) (cd_constraints cd)
                 (mkColumnState false OeAction.None false None Binary pks ai cks) in
      let col := mkColumn (cd_name cd) (cd_type_name cd) (affinity_of (cd_type_name cd)) (cs_collation s)
                   (cs_notnull s) (cs_pk s) (cs_default s) (cs_notnull_oe s) in
      let '(cols, pks, ai, cks) := build_columns (i + 1) cds (cs_pk_cols s) (cs_autoincrement s) (cs_checks s) in
      (col :: cols, pks, ai, cks)
  end.
Definition pk_column_index (cds : list ColumnDef) (pkc : PrimaryKeyColumn) : option (Z * bool) :=
  idx ← position (fun cd => eq_ignore_ascii_case (cd_name cd) (pkc_name pkc)) cds; Some (idx, pkc_desc pkc).
Definition table_constraint (cds : list ColumnDef) (s : list (Z * bool) * option OeAction * list CheckConstraint)
    (c : TableConstraint) : list (Z * bool) * option OeAction * list CheckConstraint :=
  let '(pks, oe, cks) := s in
  match tc_body c with
  | TC_PrimaryKey columns oc => (omap (pk_column_index cds) columns, Some (oe_from_parser oc), cks)
  | TC_Check e oc => (pks, oe, cks ++ [mkCheck e (oe_of_clause oc) None])
  | _ => s
  end.
Definition with_notnull_oe (oe : OeAction) (c : Column) : Column :=
  mkColumn (c_name c) (c_type_name c) (c_affinity c) (c_collation c) (c_notnull c) (c_pk c) (c_default c) oe.
Definition with_notnull (c : Column) : Column :=
  mkColumn (c_name c) (c_type_name c) (c_affinity c) (c_collation c) true (c_pk c) (c_default c) (c_notnull_oe c).
Definition update_columns (f : Column -> Column) (pks : list (Z * bool)) (cols : list Column) : list Column :=
  fold_left (fun cols pk => alter f (Z.to_nat (fst pk)) cols) pks cols.
Definition is_ascii_white (b : Z) : bool := (b =? 32) || ((9 <=? b) && (b <=? 13)).
Fixpoint trim_start (s : bytes) : bytes :=
  match s with b :: r => if is_ascii_white b then trim_start r else s | [] => [] end.
(** [str::trim], for texts whose white space is ASCII. *)
Definition trim (s : bytes) : bytes := reverse (trim_start (reverse (trim_start s))).
Definition rowid_alias_of (cds : list ColumnDef) (without_rowid : bool) (pks : list (Z * bool)) : option Z :=
  match pks with
  | [(idx, desc)] =>
      if negb without_rowid then
        let is_integer := match zget cds idx ≫= cd_type_name with
                          | Some t => eq_ignore_ascii_case (trim t) (bytes_of "INTEGER")
                          | None => false
                          end in
        if is_integer && negb desc then Some idx else None
      else None
  | _ => None
  end.
Definition Table_from_create (ct : CreateTable) (rootpage : Z) : Table :=
  let cds := ct_columns ct in
  let '(cols, pks, ai, cks) := build_columns 0 cds [] false [] in
  let '(pks, oe, cks) := fold_left (table_constraint cds) (ct_constraints ct) (pks, None, cks) in
  let cols := match oe with Some oe => update_columns (with_notnull_oe oe) pks cols | None => cols end in
  let wr := ct_without_rowid ct in
  let alias := rowid_alias_of cds wr pks in
  let cols := if wr then update_columns with_notnull pks cols else cols in
  mkTable (ct_name ct) rootpage cols alias wr (if wr then pks else []) ai cks.

(** *** Building an index *)

(** [columns.iter().map(|c| ..)] indexes the columns of the table only where
    [column_index] found one. *)
Definition index_column (t : Table) (c : AstIndexedColumn) : IndexedColumn :=
  let explicit := aic_collation c ≫= Collation_from_name in
  let inherited :=
    if is_nil (aic_name c) then None
    else
      i ← column_index t (aic_name c);
      col ← zget (t_columns t) i;
      (if bool_decide (c_collation col = Binary) then None else Some (c_collation col)) in
  let collation := match explicit with Some c => c | None => default Binary inherited end in
  mkIndexedColumn (aic_name c) (aic_expr c) collation (aic_desc c).
Definition column_notnull (t : Table) (name : bytes) : bool :=
  match (i ← column_index t name; zget (t_columns t) i) with Some c => c_notnull c | None => false end.
Definition IndexObject_from_create (ci : CreateIndex) (rootpage : Z) (name : bytes) (t : Table) : IndexObject :=
  let columns := index_column t <$> ci_columns ci in
  mkIndexObject name (ci_table ci) rootpage columns (ci_unique ci)
    (ci_unique ci && forallb (fun ic => negb (is_expression ic) && column_notnull t (ic_name ic)) columns)
    OeAction.Abort (ci_where_clause ci).
Definition from_create_and_table (ci : CreateIndex) (rootpage : Z) (t : Table) : IndexObject :=
  IndexObject_from_create ci rootpage (ci_name ci) t.
Definition table_column_indices (io : IndexObject) (t : Table) : outcome (list Z) :=
  mmap (fun ic => ok_or (column_index t (ic_name ic)) (Error_msg "index references unknown column"))
    (List.filter (fun ic => negb (is_expression ic)) (io_columns io)).
Definition covers_columns (io : IndexObject) (names : list bytes) : bool :=
  (zlen (io_columns io) =? zlen names)
  && forallb (fun '(ic, name) => negb (is_expression ic) && eq_ignore_ascii_case (ic_name ic) name)
       (zip (io_columns io) names).
Definition unique_constraint_message (io : IndexObject) (t : Table) : option bytes :=
  if negb (io_unique io) then None
  else if existsb is_expression (io_columns io)
  then Some (bytes_of "UNIQUE constraint failed: index '" ++ io_name io ++ bytes_of "'")
  else
    let names := (fun ic => t_name t ++ bytes_of "." ++ ic_name ic) <$> io_columns io in
    Some (bytes_of "UNIQUE constraint failed: " ++ join_words (bytes_of ", ") names).

(** ** The catalog ([schema/catalog.rs]) *)

Record SchemaObject := mkSchemaObject {
  so_rowid : Z; so_obj_type : bytes; so_name : bytes; so_tbl_name : bytes; so_rootpage : Z; so_sql : option bytes }.
Definition text_at (values : list Value) (i : Z) : option bytes :=
  match zget values i with Some (Text s) => Some s | _ => None end.
Definition int_at (values : list Value) (i : Z) : Z := match zget values i with Some (Int n) => n | _ => 0 end.
Definition SchemaObject_from_row (rid : Z) (values : list Value) : SchemaObject :=
  mkSchemaObject rid (default [] (text_at values 0)) (default [] (text_at values 1)) (default [] (text_at values 2))
    (int_at values 3) (text_at values 4).
Definition is_table (o : SchemaObject) : bool := bool_decide (so_obj_type o = bytes_of "table").
Definition is_index (o : SchemaObject) : bool := bool_decide (so_obj_type o = bytes_of "index").
Definition is_view (o : SchemaObject) : bool := bool_decide (so_obj_type o = bytes_of "view").
Definition Catalog := list SchemaObject.
Definition tables (c : Catalog) : list SchemaObject := List.filter is_table c.
Definition indexes (c : Catalog) : list SchemaObject := List.filter is_index c.

(** [inner.replace(qq, q)]. *)
Fixpoint collapse_quotes (q : Z) (s : bytes) : bytes :=
  match s with
  | a :: (b :: r) as t => if (a =? q) && (b =? q) then q :: collapse_quotes q r else a :: collapse_quotes q t
  | _ => s
  end.
Definition dequote_ident (s : bytes) : bytes :=
  if zlen s <? 2 then s
  else
    match head s, last s with
    | Some a, Some z =>
        if (a =? 34) || (a =? 96) then (if z =? a then collapse_quotes a (zslice 1 (zlen s - 1) s) else s)
        else if a =? 91 then (if z =? 93 then zslice 1 (zlen s - 1) s else s)
        else s
    | _, _ => s
    end.
Definition named (name : bytes) (o : SchemaObject) : bool := eq_ignore_ascii_case (dequote_ident (so_name o)) (dequote_ident name).
Definition find_table (c : Catalog) (name : bytes) : option SchemaObject := List.find (fun o => is_table o && named name o) c.
Definition find_index (c : Catalog) (name : bytes) : option SchemaObject := List.find (fun o => is_index o && named name o) c.
Definition find_object (c : Catalog) (name : bytes) : option SchemaObject := List.find (named name) c.
Definition find_view (c : Catalog) (name : bytes) : option SchemaObject := List.find (fun o => is_view o && named name o) c.
Definition table_schema_row (name : bytes) (rootpage : Z) (sql : bytes) : list Value :=
  [Text (bytes_of "table"); Text name; Text name; Int rootpage; Text sql].
Definition index_schema_row (name tbl_name : bytes) (rootpage : Z) (sql : bytes) : list Value :=
  [Text (bytes_of "index"); Text name; Text tbl_name; Int rootpage; Text sql].
Definition view_schema_row (name sql : bytes) : list Value :=
  [Text (bytes_of "view"); Text name; Text name; Int 0; Text sql].
Definition trigger_schema_row (name tbl_name sql : bytes) : list Value :=
  [Text (bytes_of "trigger"); Text name; Text tbl_name; Int 0; Text sql].

Section Parsed.
Context `{SqlParser}.

Definition index_covers_column (sql column_name : bytes) : bool :=
  match parse sql with
  | Some (St_CreateIndex ci :: _) =>
      match ci_columns ci with
      | [c] => negb (is_some (aic_expr c)) && eq_ignore_ascii_case (aic_name c) column_name
      | _ => false
      end
  | _ => false
  end.
Definition find_index_for_column (c : Catalog) (table_name column_name : bytes) : option SchemaObject :=
  List.find (fun o =>
    is_index o && eq_ignore_ascii_case (dequote_ident (so_tbl_name o)) (dequote_ident table_name)
    && match so_sql o with Some sql => index_covers_column sql column_name | None => false end) c.
Definition Table_from_schema_object (o : SchemaObject) : outcome Table :=
  match so_sql o with
  | None => Err (Error_msg "table has no CREATE statement")
  | Some sql =>
      match parse sql with
      | None => Err (Error_msg "cannot parse schema")
      | Some (St_CreateTable ct :: _) => Ok (Table_from_create ct (so_rootpage o))
      | Some _ => Err (Error_msg "schema object is not a CREATE TABLE this build can model")
      end
  end.
Definition table_of_index (catalog : option Catalog) (name : bytes) : Table :=
  let found :=
    cat ← catalog; o ← find_table cat name; sql ← so_sql o;
    (match Table_from_schema_object (mkSchemaObject 0 (bytes_of "table") name name 0 (Some sql)) with
     | Ok t => Some t | _ => None end) in
  default (mkTable name 0 [] None false [] false []) found.
Definition from_schema_object_with_catalog (o : SchemaObject) (catalog : option Catalog) : outcome IndexObject :=
  match so_sql o with
  | None => Err (Error_msg "index has no CREATE statement")
  | Some sql =>
      match parse sql with
      | None => Err (Error_msg "cannot parse schema for index")
      | Some (St_CreateIndex ci :: _) =>
          Ok (IndexObject_from_create ci (so_rootpage o) (so_name o) (table_of_index catalog (ci_table ci)))
      | Some _ => Err (Error_msg "schema object is not a CREATE INDEX this build can model")
      end
  end.
Definition resolve_index_object (c : Catalog) (name : bytes) : outcome (option IndexObject) :=
  match find_index c name with
  | None => Ok None
  | Some o => io ← from_schema_object_with_catalog o (Some c); Ok (Some io)
  end.
Definition resolve_index_for_column (c : Catalog) (table_name column_name : bytes) : outcome (option IndexObject) :=
  match find_index_for_column c table_name column_name with
  | None => Ok None
  | Some o => io ← from_schema_object_with_catalog o (Some c); Ok (Some io)
  end.
End Parsed.

(** Reading the catalog: the table rooted at page 1. *)
Definition catalog_row (encoding : TextEncoding) (row : Z * bytes) : outcome SchemaObject :=
  vs ← decode_record (snd row) encoding; Ok (SchemaObject_from_row (fst row) vs).
Fixpoint catalog_rows (encoding : TextEncoding) (rows : list (Z * bytes)) : outcome Catalog :=
  match rows with
  | [] => Ok []
  | row :: rows => o ← catalog_row encoding row; os ← catalog_rows encoding rows; Ok (o :: os)
  end.
Section Read.
Context {E F : Type} `{VfsOps E F}.
(** [fuel] bounds the depth of the schema table. *)
Definition read_catalog (fuel : nat) : PagerM (E := E) (F := F) Catalog :=
  encoding ← gets (fun p => text_encoding (pg_header p));
  rows ← scan_table fuel 1;
  lift (catalog_rows encoding rows).
Definition schema_cookie_of (p : Pager F) : Z := schema_cookie (pg_header p).
End Read.
