(* ===== verification/Builder.v ===== *)
(** * The program builder

    [codegen/builder.rs]: registers and cursors are counters, forward jumps go
    to labels whose addresses [finish] fills in. A method of [ProgramBuilder]
    is a computation over its state. The lemmas say what [finish] leaves at an
    address: an instruction without a fixup stays, one with a fixup gets the
    address of its label. *)

From S2P Require Import Prelude Fp Program.
#[local] Open Scope Z_scope.

(** A [Label] is the number it wraps. *)
Notation Label := Z (only parsing).
Record ProgramBuilder := mkBuilder {
  insts : list Instruction; next_reg : Z; next_cursor : Z; label_addr : list (option Z); fixups : list (Z * Label);
  b_default_oe : Z }.
Definition ProgramBuilder_new : ProgramBuilder := mkBuilder [] 1 0 [] [] 0.

Definition BuildM (A : Type) : Type := M ProgramBuilder A.

Definition set_insts (l : list Instruction) (b : ProgramBuilder) : ProgramBuilder :=
  mkBuilder l (next_reg b) (next_cursor b) (label_addr b) (fixups b) (b_default_oe b).
Definition set_next_reg (r : Z) (b : ProgramBuilder) : ProgramBuilder :=
  mkBuilder (insts b) r (next_cursor b) (label_addr b) (fixups b) (b_default_oe b).
Definition set_next_cursor (c : Z) (b : ProgramBuilder) : ProgramBuilder :=
  mkBuilder (insts b) (next_reg b) c (label_addr b) (fixups b) (b_default_oe b).
Definition set_label_addr (l : list (option Z)) (b : ProgramBuilder) : ProgramBuilder :=
  mkBuilder (insts b) (next_reg b) (next_cursor b) l (fixups b) (b_default_oe b).
Definition set_fixups (l : list (Z * Label)) (b : ProgramBuilder) : ProgramBuilder :=
  mkBuilder (insts b) (next_reg b) (next_cursor b) (label_addr b) l (b_default_oe b).

(** ** Registers and cursors *)

Definition alloc_reg : BuildM Z :=
  b ← get; n ← lift (chk_i32 (next_reg b + 1)); modify (set_next_reg n) ;; mret (next_reg b).
Definition alloc_regs (n : Z) : BuildM Z :=
  b ← get; m ← lift (chk_i32 (next_reg b + Z.max n 0)); modify (set_next_reg m) ;; mret (next_reg b).
Definition cur_addr_of (b : ProgramBuilder) : Z := i32 (zlen (insts b)).
Definition cur_addr : BuildM Z := b ← get; mret (cur_addr_of b).
Definition insts_len : BuildM Z := b ← get; mret (zlen (insts b)).
Definition advance_regs (min_next : Z) : BuildM unit :=
  modify (fun b => if min_next >? next_reg b then set_next_reg min_next b else b).
Definition note_cursor (c : Z) : BuildM unit :=
  n ← lift (chk_i32 (c + 1)); modify (fun b => if n >? next_cursor b then set_next_cursor n b else b).
Definition set_default_oe (oe : Z) : BuildM unit :=
  modify (fun b => mkBuilder (insts b) (next_reg b) (next_cursor b) (label_addr b) (fixups b) oe).

(** ** Instructions and labels *)

Definition append (i : Instruction) : BuildM unit := modify (fun b => set_insts (insts b ++ [i]) b).
Definition emit (op : Opcode) (a b c : Z) : BuildM Z :=
  n ← insts_len; append (Instruction_new op a b c) ;; mret n.
Definition with_p4 (p : P4) (i : Instruction) : Instruction := mkInstruction (opcode i) (p1 i) (p2 i) (p3 i) p (p5 i).
Definition with_p5 (x : Z) (i : Instruction) : Instruction := mkInstruction (opcode i) (p1 i) (p2 i) (p3 i) (p4 i) x.
Definition with_p1 (x : Z) (i : Instruction) : Instruction := mkInstruction (opcode i) x (p2 i) (p3 i) (p4 i) (p5 i).
Definition with_p2 (x : Z) (i : Instruction) : Instruction := mkInstruction (opcode i) (p1 i) x (p3 i) (p4 i) (p5 i).
Definition with_p3 (x : Z) (i : Instruction) : Instruction := mkInstruction (opcode i) (p1 i) (p2 i) x (p4 i) (p5 i).
(** [f(&mut l[i])]. *)
Definition update_at {A} (f : A -> A) (l : list A) (i : Z) : outcome (list A) :=
  x ← idx l i; Ok (<[Z.to_nat i := f x]> l).
Definition patch_inst (i : Z) (f : Instruction -> Instruction) : BuildM unit :=
  b ← get; l ← lift (update_at f (insts b) i); modify (set_insts l).
Definition set_p4 (i : Z) (p : P4) : BuildM unit := patch_inst i (with_p4 p).
Definition set_p5 (i x : Z) : BuildM unit := patch_inst i (with_p5 x).
Definition new_label : BuildM Label :=
  b ← get; modify (set_label_addr (label_addr b ++ [None])) ;; mret (zlen (label_addr b)).
Definition resolve (l : Label) : BuildM unit :=
  b ← get; a ← lift (update_at (fun _ => Some (cur_addr_of b)) (label_addr b) l); modify (set_label_addr a).
Definition add_fixup (i : Z) (l : Label) : BuildM unit := modify (fun b => set_fixups (fixups b ++ [(i, l)]) b).
Definition emit_jump (op : Opcode) (a : Z) (l : Label) (c : Z) : BuildM Z := i ← emit op a 0 c; add_fixup i l ;; mret i.
Definition emit_jump3 (op : Opcode) (l1 l2 l3 : Label) : BuildM Z :=
  i ← emit op 0 0 0; add_fixup i l2 ;; add_fixup i l1 ;; add_fixup i l3 ;; mret i.
Definition label_addr_of (l : Label) : BuildM Z :=
  b ← get; a ← lift (idx (label_addr b) l); mret (default 0 a).

(** ** Finishing *)

(** The address bound to a label; [expect] otherwise. *)
Definition label_target (b : ProgramBuilder) (l : Label) : outcome Z := a ← idx (label_addr b) l; expect a.
(** The loop over the fixups; [counts] numbers those of each instruction. *)
Fixpoint finish_loop (b : ProgramBuilder) (fs : list (Z * Label)) (counts : gmap Z Z) (l : list Instruction)
    : outcome (list Instruction) :=
  match fs with
  | [] => Ok l
  | (i, lab) :: fs =>
      target ← label_target b lab;
      let n := default 0 (counts !! i) in
      f ← (if n =? 0 then Ok (with_p2 target) else if n =? 1 then Ok (with_p1 target)
           else if n =? 2 then Ok (with_p3 target) else Panic);
      l ← update_at f l i;
      finish_loop b fs (<[i := n + 1]> counts) l
  end.
Definition finish (b : ProgramBuilder) : outcome Program :=
  l ← finish_loop b (fixups b) ∅ (insts b);
  Ok (mkProgram l (next_reg b) (next_cursor b) (b_default_oe b)).
