(* ===== verification/Linking.v ===== *)
(** * Linking: from the builder to the program

    How the code emitted between two states of the builder appears in the
    finished program. [extends b bf]: [bf] has the instructions, fixups and
    bound labels of [b], and fixups of its own only for later instructions.
    With that, an instruction without a fixup is in the program as emitted, and
    a jump has the address of its label. *)

From S2P Require Import Prelude Fp Program Builder.
#[local] Open Scope Z_scope.

(** Casts that keep their argument. *)
Lemma i32_id x : - 2 ^ 31 <= x < 2 ^ 31 -> i32 x = x.
Proof. intros. by apply sext_small. Qed.
Lemma u8_id x : 0 <= x < 256 -> u8 x = x.
Proof. intros. by apply Z.mod_small. Qed.

(** ** What [finish] leaves *)

Lemma update_at_ok {A} (f : A -> A) l i l' : update_at f l i = Ok l' ->
  0 <= i < zlen l /\ (exists x, l !! Z.to_nat i = Some x /\ l' = <[Z.to_nat i := f x]> l).
Proof.
  unfold update_at, idx, zget. destruct (Z.ltb_spec i 0); [done|].
  destruct (l !! Z.to_nat i) as [x|] eqn:Hx; [|done]. cbn. intros [= <-].
  apply lookup_lt_Some in Hx as Hlt. split; [unfold zlen; lia|by exists x].
Qed.
Lemma update_at_other {A} (f : A -> A) l i l' k : update_at f l i = Ok l' -> Z.to_nat i <> k -> l' !! k = l !! k.
Proof. intros (Hi & x & Hx & ->)%update_at_ok Hk. by rewrite list_lookup_insert_ne. Qed.

Lemma finish_loop_cons b j lab fs counts l l' : finish_loop b ((j, lab) :: fs) counts l = Ok l' ->
  exists t f l1 n, label_target b lab = Ok t /\ update_at f l j = Ok l1 /\
    finish_loop b fs (<[j := n]> counts) l1 = Ok l' /\ (counts !! j = None -> f = with_p2 t).
Proof.
  cbn [finish_loop]. intros (t & Ht & H)%bind_ok. apply bind_ok in H as (f & Hf & H).
  apply bind_ok in H as (l1 & H1 & H). exists t, f, l1, (default 0 (counts !! j) + 1). split_and!; try done.
  intros Hc. rewrite Hc in Hf. cbn in Hf. by injection Hf as <-.
Qed.
Lemma finish_loop_other b fs counts l l' i :
  finish_loop b fs counts l = Ok l' -> 0 <= i -> Forall (fun f => fst f <> i) fs -> l' !! Z.to_nat i = l !! Z.to_nat i.
Proof.
  revert counts l. induction fs as [|[j lab] fs IH]; intros counts l H Hi Hf; [by injection H as <-|].
  apply Forall_cons_1 in Hf as [Hj Hf]. cbn [fst] in Hj.
  apply finish_loop_cons in H as (t & f & l1 & n & _ & Hu & H & _). rewrite (IH _ _ H Hi Hf).
  apply update_at_ok in Hu as Hr. apply (update_at_other _ _ _ _ _ Hu). lia.
Qed.
Lemma finish_loop_single b fs1 fs2 counts l l' i lab ins :
  finish_loop b (fs1 ++ (i, lab) :: fs2) counts l = Ok l' -> 0 <= i -> counts !! i = None ->
  Forall (fun f => fst f <> i) fs1 -> Forall (fun f => fst f <> i) fs2 -> l !! Z.to_nat i = Some ins ->
  exists t, label_target b lab = Ok t /\ l' !! Z.to_nat i = Some (with_p2 t ins).
Proof.
  revert counts l. induction fs1 as [|[j lab'] fs1 IH]; intros counts l H Hi Hc H1 H2 Hl; cbn [app] in H;
    apply finish_loop_cons in H as (t & f & l1 & n & Ht & Hu & H & Hf); apply update_at_ok in Hu as Hr.
  - exists t. split; [done|]. rewrite (finish_loop_other _ _ _ _ _ _ H Hi H2). rewrite (Hf Hc) in Hr.
    destruct Hr as (_ & x & Hx & ->). rewrite Hl in Hx. injection Hx as <-.
    apply list_lookup_insert_eq. by apply lookup_lt_Some in Hl.
  - apply Forall_cons_1 in H1 as [Hj H1]. cbn [fst] in Hj.
    apply (IH _ _ H Hi); [by rewrite lookup_insert_ne|done|done|].
    rewrite (update_at_other _ _ _ _ _ Hu) by lia. done.
Qed.

(** ** Growth of a builder *)

(** Every fixup is for an instruction that is there. *)
Definition wf_builder (b : ProgramBuilder) : Prop := Forall (fun f => 0 <= fst f < zlen (insts b)) (fixups b).
Definition bound_label (b : ProgramBuilder) (l a : Z) : Prop := zget (label_addr b) l = Some (Some a).

Record extends (b b' : ProgramBuilder) : Prop := {
  ex_insts : exists s, insts b' = insts b ++ s;
  ex_fixups : exists fs, fixups b' = fixups b ++ fs /\ Forall (fun f => zlen (insts b) <= fst f) fs;
  ex_labels : forall l a, bound_label b l a -> bound_label b' l a;
  ex_nlabels : zlen (label_addr b) <= zlen (label_addr b');
  ex_regs : next_reg b <= next_reg b' }.

Lemma extends_refl b : extends b b.
Proof. split; try done; [exists []|exists []; split; [|constructor]]; by rewrite app_nil_r. Qed.
Lemma extends_len b b' : extends b b' -> zlen (insts b) <= zlen (insts b').
Proof. intros [[s Hs] _ _ _ _]. rewrite Hs, zlen_app. pose proof (zlen_nonneg s). lia. Qed.
Lemma extends_trans b1 b2 b3 : extends b1 b2 -> extends b2 b3 -> extends b1 b3.
Proof.
  intros H12 H23. pose proof (extends_len _ _ H12). destruct H12 as [[s1 I1] (f1 & F1 & O1) L1 N1 R1].
  destruct H23 as [[s2 I2] (f2 & F2 & O2) L2 N2 R2]. split; [|..]; eauto; [|..|lia|lia].
  - exists (s1 ++ s2). by rewrite I2, I1, app_assoc.
  - exists (f1 ++ f2). rewrite F2, F1, app_assoc. split; [done|]. apply Forall_app. split; [done|].
    eapply Forall_impl; [done|]. cbn. lia.
Qed.
#[export] Instance extends_preorder : PreOrder extends.
Proof. split; [exact extends_refl|exact extends_trans]. Qed.

(** A label not bound yet stays so. *)
Definition keeps_unbound (b b' : ProgramBuilder) : Prop :=
  forall l, zget (label_addr b) l = Some None -> zget (label_addr b') l = Some None.

(** The instructions a builder pushes. *)
Definition push (i : Instruction) (b : ProgramBuilder) : ProgramBuilder := set_insts (insts b ++ [i]) b.
Definition push_jump (i : Instruction) (l : Z) (b : ProgramBuilder) : ProgramBuilder :=
  set_fixups (fixups b ++ [(zlen (insts b), l)]) (push i b).
Definition push_label (b : ProgramBuilder) : ProgramBuilder := set_label_addr (label_addr b ++ [None]) b.
Definition bind_label (l : Z) (b : ProgramBuilder) : ProgramBuilder :=
  set_label_addr (<[Z.to_nat l := Some (cur_addr_of b)]> (label_addr b)) b.

Lemma extends_push i b : extends b (push i b).
Proof. split; try done; [by exists [i]|exists []; split; [by rewrite app_nil_r|constructor]]. Qed.
Lemma extends_push_jump i l b : extends b (push_jump i l b).
Proof. split; try done; [by exists [i]|]. exists [(zlen (insts b), l)]. split; [done|]. constructor; [cbn; lia|constructor]. Qed.
Lemma extends_set_next_reg r b : next_reg b <= r -> extends b (set_next_reg r b).
Proof. intros. split; try done; [exists []|exists []; split; [|constructor]]; by rewrite app_nil_r. Qed.
Lemma zget_app_some {A} (l1 l2 : list A) i x : zget l1 i = Some x -> zget (l1 ++ l2) i = Some x.
Proof. unfold zget. destruct (i <? 0); [done|]. apply lookup_app_l_Some. Qed.
Lemma zget_range {A} (l : list A) i x : zget l i = Some x -> 0 <= i < zlen l.
Proof. unfold zget, zlen. destruct (Z.ltb_spec i 0); [done|]. intros ?%lookup_lt_Some. lia. Qed.
Lemma extends_push_label b : extends b (push_label b).
Proof.
  split; try done; [exists []|exists []; split; [|constructor]|..]; cbn; rewrite ?app_nil_r; try done.
  - intros l a. unfold bound_label. cbn. apply zget_app_some.
  - rewrite zlen_app. change (zlen [None]) with 1. lia.
Qed.
Lemma extends_bind_label l b : zget (label_addr b) l = Some None -> extends b (bind_label l b).
Proof.
  intros Hl. split; try done; [exists []|exists []; split; [|constructor]|..]; cbn; rewrite ?app_nil_r; try done.
  - intros k a Hk. unfold bound_label in *. cbn. apply zget_range in Hl as Hr, Hk as Hkr. unfold zget in *.
    destruct (Z.ltb_spec k 0); [lia|]. destruct (Z.ltb_spec l 0); [lia|].
    rewrite list_lookup_insert_ne; [done|]. intros ->%Z2Nat.inj; [|lia..]. by rewrite Hl in Hk.
  - unfold zlen. by rewrite length_insert.
Qed.
Lemma bound_bind_label l b : 0 <= l < zlen (label_addr b) -> bound_label (bind_label l b) l (cur_addr_of b).
Proof.
  intros. unfold bound_label, zget. cbn. destruct (Z.ltb_spec l 0); [lia|].
  apply list_lookup_insert_eq. unfold zlen in *. lia.
Qed.

Lemma wf_push i b : wf_builder b -> wf_builder (push i b).
Proof.
  unfold wf_builder. intros H. eapply Forall_impl; [exact H|]. cbn. intros f. rewrite zlen_app.
  change (zlen [i]) with 1. lia.
Qed.
Lemma wf_push_jump i l b : wf_builder b -> wf_builder (push_jump i l b).
Proof.
  intros H. unfold wf_builder. cbn. apply Forall_app. split; [exact (wf_push i b H)|]. constructor; [|constructor].
  cbn. rewrite zlen_app. change (zlen [i]) with 1. pose proof (zlen_nonneg (insts b)). lia.
Qed.

(** ** The finished program *)

Section Linked.
Variables (bf : ProgramBuilder) (P : Program).
Hypothesis Hfinish : finish bf = Ok P.

Definition inst_of (pc : Z) : option Instruction := zget (instructions P) pc.

Lemma finished : exists l, finish_loop bf (fixups bf) ∅ (insts bf) = Ok l /\ instructions P = l.
Proof. unfold finish in Hfinish. apply bind_ok in Hfinish as (l & ? & [= <-]). by exists l. Qed.

Lemma linked_push i b : wf_builder b -> extends (push i b) bf -> inst_of (zlen (insts b)) = Some i.
Proof.
  intros Hwf [[s Hs] (fs & Hfs & Ho) _ _ _]. destruct finished as (l & Hl & HP). pose proof (zlen_nonneg (insts b)).
  unfold inst_of, zget. rewrite HP. destruct (Z.ltb_spec (zlen (insts b)) 0); [lia|].
  rewrite (finish_loop_other _ _ _ _ _ _ Hl) by (done || (rewrite Hfs; apply Forall_app; split;
    (eapply Forall_impl; [eassumption|cbn; intros f; rewrite ?zlen_app; change (zlen [i]) with 1; lia]))).
  rewrite Hs. cbn. rewrite <- app_assoc. unfold zlen. rewrite Nat2Z.id. by apply list_lookup_middle.
Qed.
Lemma linked_push_jump i l b : wf_builder b -> extends (push_jump i l b) bf ->
  exists a, bound_label bf l a /\ inst_of (zlen (insts b)) = Some (with_p2 a i).
Proof.
  intros Hwf [[s Hs] (fs & Hfs & Ho) _ _ _]. destruct finished as (k & Hk & HP). pose proof (zlen_nonneg (insts b)).
  cbn in Hfs. rewrite <- app_assoc in Hfs. rewrite Hfs in Hk. cbn [app] in Hk.
  destruct (finish_loop_single _ _ _ _ _ _ _ _ i Hk) as (t & Ht & Hi); try done.
  - eapply Forall_impl; [exact Hwf|]. cbn. lia.
  - eapply Forall_impl; [exact Ho|]. cbn. intros f. rewrite zlen_app. change (zlen [i]) with 1. lia.
  - rewrite Hs. cbn. rewrite <- app_assoc. unfold zlen. rewrite Nat2Z.id. by apply list_lookup_middle.
  - exists t. unfold inst_of, zget, bound_label. rewrite HP. destruct (Z.ltb_spec (zlen (insts b)) 0); [lia|].
    split; [|done]. unfold label_target, idx, expect in Ht. unfold zget in *. destruct (l <? 0); [done|].
    by destruct (label_addr bf !! Z.to_nat l) as [[?|]|]; cbn in Ht; inv_ok.
Qed.
End Linked.

(** ** Inverting the steps of a builder *)

Lemma alloc_reg_inv b r b' : alloc_reg b = (Ok r, b') ->
  r = next_reg b /\ b' = set_next_reg (next_reg b + 1) b.
Proof.
  unfold alloc_reg. intros (b1 & s1 & [= <- <-] & H)%M_bind_inv. apply M_bind_inv in H as (n & s2 & H1 & H).
  unfold lift, chk_i32 in H1. destruct (_ && _); [|done]. injection H1 as <- <-.
  apply M_bind_inv in H as (? & ? & [= <- <-] & [= <- <-]). done.
Qed.
Lemma alloc_regs_inv n b r b' : alloc_regs n b = (Ok r, b') ->
  r = next_reg b /\ b' = set_next_reg (next_reg b + Z.max n 0) b.
Proof.
  unfold alloc_regs. intros (b1 & s1 & [= <- <-] & H)%M_bind_inv. apply M_bind_inv in H as (m & s2 & H1 & H).
  unfold lift, chk_i32 in H1. destruct (_ && _); [|done]. injection H1 as <- <-.
  apply M_bind_inv in H as (? & ? & [= <- <-] & [= <- <-]). done.
Qed.
Lemma emit_eq op a c d b : emit op a c d b = (Ok (zlen (insts b)), push (Instruction_new op a c d) b).
Proof. done. Qed.
Lemma emit_jump_eq op a l d b :
  emit_jump op a l d b = (Ok (zlen (insts b)), push_jump (Instruction_new op a 0 d) l b).
Proof. done. Qed.
Lemma new_label_eq b : new_label b = (Ok (zlen (label_addr b)), push_label b).
Proof. done. Qed.
Lemma update_last {A} (f : A -> A) l x : update_at f (l ++ [x]) (zlen l) = Ok (l ++ [f x]).
Proof.
  unfold update_at, idx, zget. pose proof (zlen_nonneg l). destruct (Z.ltb_spec (zlen l) 0); [lia|].
  unfold zlen. rewrite Nat2Z.id, list_lookup_middle by done. cbn. by rewrite insert_app_r_alt, Nat.sub_diag by lia.
Qed.
Lemma patch_last f i b : patch_inst (zlen (insts b)) f (push i b) = (Ok tt, push (f i) b).
Proof.
  unfold patch_inst. rewrite (M_bind_ok get _ _ _ _ eq_refl). cbn [insts push set_insts]. rewrite update_last. done.
Qed.
Lemma patch_last_jump f i l b : patch_inst (zlen (insts b)) f (push_jump i l b) = (Ok tt, push_jump (f i) l b).
Proof.
  unfold patch_inst. rewrite (M_bind_ok get _ _ _ _ eq_refl). cbn [insts push_jump push set_insts set_fixups].
  rewrite update_last. done.
Qed.
Lemma resolve_inv l b b' : resolve l b = (Ok tt, b') -> 0 <= l < zlen (label_addr b) /\ b' = bind_label l b.
Proof.
  unfold resolve. intros (b1 & s1 & [= <- <-] & H)%M_bind_inv. apply M_bind_inv in H as (a & s2 & H1 & H).
  unfold lift in H1. injection H1 as H1 <-. apply update_at_ok in H1 as (Hr & x & Hx & ->). injection H as <-. done.
Qed.
