(* ===== verification/Func.v ===== *)
(** * Scalar functions

    [func/scalar.rs], [func/string.rs], [func/math.rs], [func/soundex.rs], one
    module each. A text rendering goes through [to_text], whose printer may in
    principle panic, hence the outcomes. The transcendental functions, whose
    precision Rust leaves open, come through the class [Libm]. *)

From S2P Require Import Prelude Utf8 Float64 Value Str Fp FloatOps.
#[local] Open Scope Z_scope.

(** [x.to_text().unwrap_or_default()]. *)
Definition text_or_empty (v : Value) : outcome bytes := t ← to_text v; Ok (default [] t).

(** ** [func/scalar.rs] *)

Module Scalar.
Definition abs (v : Value) : outcome Value :=
  match v with
  | Null => Ok Null
  | Int i => if i =? - 2 ^ 63 then Err (Error_msg "integer overflow") else Ok (Int (Z.abs i))
  | v => Ok (Real (f64_abs (as_f64 v)))
  end.
Definition length (v : Value) : outcome Value :=
  match v with
  | Null => Ok Null
  | Text s => Ok (Int (zlen (chars s)))
  | Blob b => Ok (Int (zlen b))
  | v => t ← to_text v; Ok (Int (from_option zlen 0 t))
  end.
Definition fold (f : bytes -> bytes) (v : Value) : outcome Value :=
  t ← to_text v; Ok (from_option (fun s => Text (f s)) Null t).
Definition lower : Value -> outcome Value := fold to_ascii_lowercase.
Definition upper : Value -> outcome Value := fold to_ascii_uppercase.
Definition typeof_ (v : Value) : Value :=
  Text (bytes_of match v with
                 | Int _ => "integer" | Real _ => "real" | Text _ => "text" | Blob _ => "blob" | Null => "null"
                 end).
Fixpoint coalesce (args : list Value) : Value :=
  match args with [] => Null | v :: args => if is_null v then coalesce args else v end.
Definition ifnull (x y : Value) : Value := if is_null x then y else x.
Definition nullif (x y : Value) : Value := if bool_decide (mem_compare x y Binary = Eq) then Null else x.
Definition truthy (v : Value) : bool :=
  match v with
  | Null => false
  | Int i => negb (i =? 0)
  | Real r => negb (f64_eq r 0)
  | v => negb (f64_eq (as_f64 v) 0)
  end.
Definition iif (c a b : Value) : Value := if truthy c then a else b.
Definition better (want_max : bool) (best cand : Value) : Value :=
  let ord := mem_compare cand best Binary in
  if (if want_max then bool_decide (ord = Gt) else negb (bool_decide (ord = Gt))) then cand else best.
(** [args[0]] of an empty slice panics. *)
Definition min_max (args : list Value) (want_max : bool) : outcome Value :=
  if existsb is_null args then Ok Null
  else match args with [] => Panic | best :: args => Ok (foldl (better want_max) best args) end.
Definition zeroblob (n : Value) : outcome Value :=
  let len := as_i64 n in
  if len <=? 0 then Ok (Blob [])
  else if len >? 2 ^ 31 - 1 then Err (Error_msg "string or blob too big")
  else Ok (Blob (zrep len 0)).
Definition likely (x : Value) : Value := x.
Definition likelihood (x _y : Value) : Value := x.

(** ±2^52. *)
Definition two52 : Z := 0x4330000000000000.
Definition in_two52 (r : Z) : bool := f64_ge r (f64_opp two52) && f64_le r two52.
Definition round (x : Value) (n : option Value) : outcome Value :=
  if from_option is_null false n || is_null x then Ok Null
  else
    let n_digits := match n with Some nv => Z.max 0 (Z.min 30 (as_i64 nv)) | None => 0 end in
    let r := as_f64 x in
    if negb (in_two52 r) then Ok (Real r)
    else if n_digits =? 0
    then Ok (Real (i64_as_f64 (f64_to_i64 (f64_add r (if f64_lt r 0 then f64_opp f64_half else f64_half)))))
    else t ← fp_to_fixed r n_digits; Ok (Real (default r (parse_f64 t))).

(** The window [start, take] of [substr] in a sequence of [len] elements. *)
Definition substr_window (p1 p2 len : Z) : Z * Z :=
  let '(p1, p2) :=
    if p1 <? 0 then
      let p1 := p1 + len in
      if p1 <? 0 then (0, if p2 <? 0 then 0 else p2 + p1) else (p1, p2)
    else if p1 >? 0 then (p1 - 1, p2)
    else if p2 >? 0 then (p1, p2 - 1) else (p1, p2) in
  let '(p1, p2) :=
    if p2 <? 0 then let p2 := if p2 <? - p1 then p1 else - p2 in (p1 - p2, p2) else (p1, p2) in
  (Z.max p1 0, Z.max p2 0).
Definition window {A} (start n : Z) (l : list A) : list A := ztake n (zdrop start l).
Definition substr (x p : Value) (l : option Value) : outcome Value :=
  t ← match x with Blob _ => Ok None | _ => to_text x end;
  match x, t with
  | Blob _, _ | _, Some _ =>
      if from_option is_null false l || is_null p then Ok Null
      else
        let p2 := from_option as_i64 (2 ^ 31 - 1) l in
        match x, t with
        | Blob b, _ => let '(s, n) := substr_window (as_i64 p) p2 (zlen b) in Ok (Blob (window s n b))
        | _, Some s =>
            let cs := chars s in
            let '(s, n) := substr_window (as_i64 p) p2 (zlen cs) in Ok (Text (of_chars (window s n cs)))
        | _, None => Ok Null
        end
  | _, None => Ok Null
  end.
End Scalar.

(** ** [func/string.rs] *)

Module Strings.
(** [hay.windows(nee.len()).position(|w| w == nee)]. *)
Fixpoint find_from (k : Z) (nee hay : bytes) : option Z :=
  if starts_with nee hay then Some k
  else match hay with [] => None | _ :: hay => find_from (k + 1) nee hay end.
Definition byte_offset (hay nee : bytes) : option Z :=
  if zlen nee =? 0 then Some 0
  else if zlen nee >? zlen hay then None
  else find_from 0 nee hay.
Definition byte_instr (hay nee : bytes) : Z :=
  if zlen nee =? 0 then 1 else match byte_offset hay nee with Some off => off + 1 | None => 0 end.
Definition instr (haystack needle : Value) : outcome Value :=
  if is_null haystack || is_null needle then Ok Null
  else
    match haystack, needle with
    | Blob hay, Blob nee => Ok (Int (byte_instr hay nee))
    | _, _ =>
        hay ← text_or_empty haystack;
        nee ← text_or_empty needle;
        if zlen nee =? 0 then Ok (Int 1)
        else
          match byte_offset hay nee with
          | Some off => before ← str_to hay off; Ok (Int (zlen (chars before) + 1))
          | None => Ok (Int 0)
          end
    end.

(** [str::replace] of a pattern that is not empty. *)
Fixpoint replace_loop (fuel : nat) (pat rep s : bytes) : bytes :=
  match fuel, s with
  | S fuel, b :: t =>
      if starts_with pat s then rep ++ replace_loop fuel pat rep (drop (List.length pat) s)
      else b :: replace_loop fuel pat rep t
  | _, _ => s
  end.
Definition str_replace (pat rep s : bytes) : bytes := replace_loop (List.length s) pat rep s.
Definition replace (x y z : Value) : outcome Value :=
  if is_null x || is_null y || is_null z then Ok Null
  else
    s ← text_or_empty x;
    pat ← text_or_empty y;
    if zlen pat =? 0 then Ok x
    else rep ← text_or_empty z; Ok (Text (str_replace pat rep s)).

Inductive TrimSide := Both | Left | Right.
Definition in_set (set : list Z) (c : Z) : bool := existsb (Z.eqb c) set.
Fixpoint trim_left (set cs : list Z) : list Z :=
  match cs with c :: t => if in_set set c then trim_left set t else cs | [] => [] end.
Definition trim_right (set cs : list Z) : list Z := reverse (trim_left set (reverse cs)).
Definition trim (side : TrimSide) (x : Value) (y : option Value) : outcome Value :=
  s ← to_text x;
  set ← (match y with None => Ok (Some [32]) | Some yv => t ← to_text yv; Ok (option_map chars t) end
          : outcome (option (list Z)));
  Ok (match s, set with
      | Some s, Some set =>
          let cs := chars s in
          let cs := match side with Right => cs | _ => trim_left set cs end in
          let cs := match side with Left => cs | _ => trim_right set cs end in
          Text (of_chars cs)
      | _, _ => Null
      end).

Definition char_bytes (v : Value) : bytes :=
  let x := as_i64 v in
  let x := if (0 <=? x) && (x <=? 0x10ffff) then x else 0xfffd in
  let c := Z.land x 0x1fffff in
  let field sh mask := Z.land (Z.shiftr c sh) mask in
  if c <? 0x80 then [c]
  else if c <? 0x800 then [0xc0 + field 6 0x1f; 0x80 + field 0 0x3f]
  else if c <? 0x10000 then [0xe0 + field 12 0x0f; 0x80 + field 6 0x3f; 0x80 + field 0 0x3f]
  else [0xf0 + field 18 0x07; 0x80 + field 12 0x3f; 0x80 + field 6 0x3f; 0x80 + field 0 0x3f].
Definition char_ (args : list Value) : Value :=
  let out := mjoin (char_bytes <$> args) in Text (if utf8_valid out then out else []).
Definition unicode (x : Value) : outcome Value :=
  t ← to_text x; Ok (match t with Some s => from_option Int Null (head (chars s)) | None => Null end).

Definition HEX_UP : bytes := bytes_of "0123456789ABCDEF".
Definition hex_byte (b : Z) : bytes :=
  let digit d := default 0 (zget HEX_UP d) in [digit (Z.shiftr b 4); digit (Z.land b 0xf)].
Definition value_bytes (x : Value) : outcome bytes :=
  match x with Blob b => Ok b | x => text_or_empty x end.
Definition hex (x : Value) : outcome Value := b ← value_bytes x; Ok (Text (mjoin (hex_byte <$> b))).
Definition hex_val (b : Z) : option Z :=
  if (48 <=? b) && (b <=? 57) then Some (b - 48)
  else if (97 <=? b) && (b <=? 102) then Some (b - 97 + 10)
  else if (65 <=? b) && (b <=? 70) then Some (b - 65 + 10)
  else None.
Fixpoint unhex_loop (pass input out : bytes) : Value :=
  match input with
  | [] => Blob out
  | c :: input =>
      match hex_val c with
      | None => if negb (c =? 0) && in_set pass c then unhex_loop pass input out else Null
      | Some hi =>
          match input with
          | [] => Null
          | d :: input =>
              match hex_val d with
              | Some lo => unhex_loop pass input (out ++ [Z.lor (Z.shiftl hi 4) lo])
              | None => Null
              end
          end
      end
  end.
Definition unhex (x : Value) (y : option Value) : outcome Value :=
  if is_null x || from_option is_null false y then Ok Null
  else
    pass ← match y with None => Ok [] | Some yv => text_or_empty yv end;
    input ← value_bytes x;
    Ok (unhex_loop pass input []).

Fixpoint concat_loop (args : list Value) (s : bytes) : outcome bytes :=
  match args with
  | [] => Ok s
  | v :: args => t ← to_text v; concat_loop args (s ++ default [] t)
  end.
Definition concat (args : list Value) : outcome Value := s ← concat_loop args []; Ok (Text s).
Fixpoint concat_ws_loop (sep : bytes) (args : list Value) (s : bytes) (first : bool) : outcome bytes :=
  match args with
  | [] => Ok s
  | v :: args =>
      t ← to_text v;
      match t with
      | Some t => concat_ws_loop sep args ((if first then s else s ++ sep) ++ t) false
      | None => concat_ws_loop sep args s first
      end
  end.
Definition concat_ws (args : list Value) : outcome Value :=
  match args with
  | [] => Panic
  | sep :: args =>
      sep ← to_text sep;
      match sep with None => Ok Null | Some sep => s ← concat_ws_loop sep args [] true; Ok (Text s) end
  end.

Definition quote_text (t : bytes) : bytes := [39] ++ mjoin ((fun b => if b =? 39 then [39; 39] else [b]) <$> t) ++ [39].
Definition quote_real (r : Z) : outcome bytes :=
  if f64_is_inf r then Ok (bytes_of (if f64_lt r 0 then "-9.0e+999" else "9.0e+999")) else fp_to_text r.
Definition quote (x : Value) : outcome Value :=
  s ← match x with
      | Null => Ok (bytes_of "NULL")
      | Int i => Ok (i64_to_string i)
      | Real r => quote_real r
      | Text t => Ok (quote_text t)
      | Blob b => Ok (bytes_of "X'" ++ mjoin (hex_byte <$> b) ++ [39])
      end;
  Ok (Text s).
Definition octet_length (x : Value) : outcome Value :=
  match x with
  | Null => Ok Null
  | Blob b => Ok (Int (zlen b))
  | x => t ← to_text x; Ok (Int (from_option zlen 0 t))
  end.
End Strings.

(** ** [func/soundex.rs] *)

Module Soundex.
Definition is_one_of (s : string) (c : Z) : bool := existsb (Z.eqb c) (bytes_of s).
Definition code (c : Z) : Z :=
  if is_one_of "BFPV" c then 1
  else if is_one_of "CGJKQSXZ" c then 2
  else if is_one_of "DT" c then 3
  else if is_one_of "L" c then 4
  else if is_one_of "MN" c then 5
  else if is_one_of "R" c then 6
  else 0.
Fixpoint soundex_loop (cs : list Z) (result : bytes) (last_code : Z) : bytes :=
  match cs with
  | [] => result
  | c :: cs =>
      if zlen result >=? 4 then result
      else if is_one_of "AEIOUYHW" c then soundex_loop cs result 0
      else if code c =? last_code then soundex_loop cs result last_code
      else soundex_loop cs (result ++ [48 + code c]) (code c)
  end.
Definition is_ascii_alphabetic (c : Z) : bool := ((65 <=? c) && (c <=? 90)) || ((97 <=? c) && (c <=? 122)).
Definition soundex (v : Value) : outcome Value :=
  t ← to_text v;
  Ok (Text (match List.filter is_ascii_alphabetic (ascii_upper <$> from_option chars [] t) with
            | [] => bytes_of "?000"
            | c :: cs => let r := soundex_loop cs [c] (code c) in r ++ zrep (4 - zlen r) 48
            end)).
End Soundex.

(** ** [func/math.rs] *)

(** [powi] and [log10] serve [printf]. *)
Class Libm := {
  lm_exp : Z -> Z; lm_ln : Z -> Z; lm_log10 : Z -> Z; lm_log2 : Z -> Z; lm_powf : Z -> Z -> Z; lm_powi : Z -> Z -> Z;
  lm_sin : Z -> Z; lm_cos : Z -> Z; lm_tan : Z -> Z; lm_asin : Z -> Z; lm_acos : Z -> Z; lm_atan : Z -> Z;
  lm_atan2 : Z -> Z -> Z; lm_sinh : Z -> Z; lm_cosh : Z -> Z; lm_tanh : Z -> Z; lm_asinh : Z -> Z; lm_acosh : Z -> Z;
  lm_atanh : Z -> Z }.

Module Math.
(** [f64::sqrt] is correctly rounded: the root of [k] units of [2^-1074] is
    known to a half unit, with a sticky half for an inexact one. *)
Definition f64_sqrt (x : Z) : Z :=
  if f64_is_nan x then f64_nan
  else if f64_is_zero x then x
  else if f64_neg x then f64_nan
  else if f64_is_inf x then x
  else
    let n := f64_key x * 2 ^ 1074 in
    let s := Z.sqrt n in
    f64_nearest (2 * s + (if s * s =? n then 0 else 1)) (2 ^ 1075).
Definition real_or_null (r : Z) : Value := if f64_is_nan r then Null else Real r.
Definition math1 (x : Value) (f : Z -> Z) : Value := if negb (is_numeric x) then Null else real_or_null (f (as_f64 x)).
Definition math2 (x y : Value) (f : Z -> Z -> Z) : Value :=
  if negb (is_numeric x) || negb (is_numeric y) then Null else real_or_null (f (as_f64 x) (as_f64 y)).
Definition log_one (x : Value) (f : Z -> Z) : Value :=
  if negb (is_numeric x) then Null
  else let xx := as_f64 x in if f64_gt xx 0 then Real (f xx) else Null.
Definition round_like (x : Value) (f : Z -> Z) : Value :=
  let t := numeric_type x in
  if t =? 1 then Int (as_i64 x) else if t =? 2 then Real (f (as_f64 x)) else Null.
Definition sqrt (x : Value) : Value := math1 x f64_sqrt.
Definition ceil (x : Value) : Value := round_like x f64_ceil.
Definition floor (x : Value) : Value := round_like x f64_floor.
Definition trunc (x : Value) : Value := round_like x f64_trunc.
Definition mod_ (x y : Value) : Value :=
  if negb (is_numeric x) || negb (is_numeric y) then Null
  else
    let yy := as_f64 y in
    if f64_eq yy 0 then Null else real_or_null (f64_rem (as_f64 x) yy).
Definition sign (x : Value) : Value :=
  if negb (is_numeric x) then Null
  else
    let r := as_f64 x in
    if f64_gt r 0 then Int 1 else if f64_lt r 0 then Int (-1) else Int 0.
(** [f64::consts::PI]; 180 *)
Definition f64_pi : Z := 0x400921FB54442D18.
Definition f64_180 : Z := 0x4066800000000000.
Definition pi : Value := Real f64_pi.
Definition radians (x : Value) : Value := math1 x (fun r => f64_mul r (f64_div f64_pi f64_180)).
Definition degrees (x : Value) : Value := math1 x (fun r => f64_mul r (f64_div f64_180 f64_pi)).

Section Libm.
Context `{Libm}.
Definition exp (x : Value) : Value := math1 x lm_exp.
Definition ln (x : Value) : Value := log_one x lm_ln.
Definition log10 (x : Value) : Value := log_one x lm_log10.
Definition log2 (x : Value) : Value := log_one x lm_log2.
Definition log_base (b x : Value) : Value :=
  if negb (is_numeric b) then Null
  else
    let bb := as_f64 b in
    if f64_le bb 0 then Null
    else
      let ln_b := lm_ln bb in
      if f64_le ln_b 0 then Null
      else
        let xx := as_f64 x in
        if f64_le xx 0 then Null else real_or_null (f64_div (lm_ln xx) ln_b).
Definition pow (x y : Value) : Value := math2 x y lm_powf.
Definition sin (x : Value) : Value := math1 x lm_sin.
Definition cos (x : Value) : Value := math1 x lm_cos.
Definition tan (x : Value) : Value := math1 x lm_tan.
Definition asin (x : Value) : Value := math1 x lm_asin.
Definition acos (x : Value) : Value := math1 x lm_acos.
Definition atan (x : Value) : Value := math1 x lm_atan.
Definition atan2 (y x : Value) : Value := math2 y x lm_atan2.
Definition sinh (x : Value) : Value := math1 x lm_sinh.
Definition cosh (x : Value) : Value := math1 x lm_cosh.
Definition tanh (x : Value) : Value := math1 x lm_tanh.
Definition asinh (x : Value) : Value := math1 x lm_asinh.
Definition acosh (x : Value) : Value := math1 x lm_acosh.
Definition atanh (x : Value) : Value := math1 x lm_atanh.
End Libm.
End Math.

(** ** Examples *)

Example soundex_robert : Soundex.soundex (Text (bytes_of "Robert")) = Ok (Text (bytes_of "R163")).
Proof. reflexivity. Qed.
Example sqrt_two : Math.f64_sqrt 0x4000000000000000 = 0x3FF6A09E667F3BCD.
Proof. vm_compute. reflexivity. Qed.
Example substr_negative :
  Scalar.substr (Text (bytes_of "hello")) (Int (-3)) (Some (Int 2)) = Ok (Text (bytes_of "ll")).
Proof. reflexivity. Qed.
Example replace_words :
  Strings.replace (Text (bytes_of "abcabc")) (Text (bytes_of "bc")) (Text (bytes_of "XY")) = Ok (Text (bytes_of "aXYaXY")).
Proof. vm_compute. reflexivity. Qed.
Example unhex_pass : Strings.unhex (Text (bytes_of "41-42")) (Some (Text (bytes_of "-"))) = Ok (Blob [65; 66]).
Proof. reflexivity. Qed.
