(* ===== verification/Printf.v ===== *)
(** * printf

    [func/printf.rs]: the parser of directives over the characters of the
    format, the conversions and the padding. The exact decimal expansions of
    Rust's float formatting are written out; [powi] and [log10] come from
    [Libm]. *)

From S2P Require Import Prelude Utf8 Float64 Value Str Fp FloatOps Func.
#[local] Open Scope Z_scope.

(** ** Directives *)

Record Flags := mkFlags { fl_minus : bool; fl_plus : bool; fl_space : bool; fl_zero : bool; fl_hash : bool }.
Record Directive := mkDirective {
  d_pos : option Z; d_width_pos : option Z; d_prec_pos : option Z; d_flags : Flags; d_width : option Z;
  d_prec : option Z; d_width_star : bool; d_prec_star : bool; d_conv : Z }.
Record Args := mkArgs { ar_args : list Value; ar_next : Z }.
Definition args_read (pos : option Z) (a : Args) : Value * Args :=
  let get i := default Null (zget (ar_args a) i) in
  match pos with
  | Some p => (get (Z.max 0 (p - 1)), a)
  | None => (get (ar_next a), mkArgs (ar_args a) (ar_next a + 1))
  end.

Definition parse_usize (ds : list Z) : option Z := let n := digits_value ds in if n <? 2 ^ 64 then Some n else None.
Definition parse_positional (cs : list Z) : option (Z * list Z) :=
  let '(ds, cs) := span is_digit cs in
  if zlen ds =? 0 then None
  else match cs with
       | c :: cs => if c =? 36 then n ← parse_usize ds; Some (n, cs) else None
       | [] => None
       end.
(** The probe on a copy of the iterator, which moves only on success. *)
Definition probe_positional (cs : list Z) : option Z * list Z :=
  match parse_positional cs with Some (n, cs') => (Some n, cs') | None => (None, cs) end.
Definition parse_number (cs : list Z) : option Z * list Z :=
  let '(ds, cs) := span is_digit cs in
  let n := digits_value ds in
  (if (zlen ds =? 0) || (2 ^ 63 <=? n) then None else Some n, cs).
Fixpoint parse_flags (f : Flags) (cs : list Z) : Flags * list Z :=
  let '(mkFlags m p s z h) := f in
  match cs with
  | c :: t =>
      if c =? 45 then parse_flags (mkFlags true p s z h) t
      else if c =? 43 then parse_flags (mkFlags m true s z h) t
      else if c =? 32 then parse_flags (mkFlags m p true z h) t
      else if c =? 48 then parse_flags (mkFlags m p s true h) t
      else if c =? 35 then parse_flags (mkFlags m p s z true) t
      else (f, cs)
  | [] => (f, cs)
  end.
Definition next_is (x : Z) (cs : list Z) : option (list Z) :=
  match cs with c :: t => if c =? x then Some t else None | [] => None end.
(** Width: value, position, star. *)
Definition parse_width (cs : list Z) : option Z * option Z * bool * list Z :=
  match next_is 42 cs with
  | Some cs => let '(pos, cs) := probe_positional cs in (None, pos, true, cs)
  | None => let '(w, cs) := parse_number cs in (w, None, false, cs)
  end.
Definition parse_precision (cs : list Z) : option Z * option Z * bool * list Z :=
  match next_is 46 cs with
  | None => (None, None, false, cs)
  | Some cs =>
      match next_is 42 cs with
      | Some cs => let '(pos, cs) := probe_positional cs in (None, pos, true, cs)
      | None => let '(p, cs) := parse_number cs in (Some (default 0 p), None, false, cs)
      end
  end.
Definition is_length_modifier (c : Z) : bool := existsb (Z.eqb c) (bytes_of "lhzjtL").
Definition parse_directive (cs : list Z) : option Directive * list Z :=
  let '(pos, cs) := probe_positional cs in
  let '(flags, cs) := parse_flags (mkFlags false false false false false) cs in
  let '(width, width_pos, width_star, cs) := parse_width cs in
  let '(prec, prec_pos, prec_star, cs) := parse_precision cs in
  match snd (span is_length_modifier cs) with
  | [] => (None, [])
  | conv :: cs =>
      (if conv =? 37 then None
       else Some (mkDirective pos width_pos prec_pos flags width prec width_star prec_star conv), cs)
  end.

(** ** Padding *)

Definition split_sign_prefix (s : bytes) : bytes * bytes :=
  let at_ i := default (-1) (zget s i) in
  let k := if (at_ 0 =? 45) || (at_ 0 =? 43) then 1 else 0 in
  let k := if (k + 1 <? zlen s) && (at_ k =? 48)
           then if (at_ (k + 1) =? 120) || (at_ (k + 1) =? 88) then k + 2
                else if is_digit (at_ (k + 1)) then k + 1 else k
           else k in
  (ztake k s, zdrop k s).
Definition pad_field (body : bytes) (width : option Z) (left zero : bool) : bytes :=
  match width with
  | Some w =>
      let len := zlen (chars body) in
      if (w >? 0) && (len <? w) then
        let pad_n := w - len in
        if left then body ++ zrep pad_n 32
        else if zero then let '(prefix, rest) := split_sign_prefix body in prefix ++ zrep pad_n 48 ++ rest
        else zrep pad_n 32 ++ body
      else body
  | None => body
  end.

(** ** Integers and texts *)

Definition as_int (v : Value) : Z := if is_null v then 0 else as_i64 v.
Definition as_float (v : Value) : Z := if is_null v then 0 else as_f64 v.
Definition fmt_int (n : Z) (d : Directive) : bytes :=
  let prec := default (-1) (d_prec d) in
  let body := i64_to_string (Z.abs n) in
  let sign := if n <? 0 then [45] else [] in
  let digits :=
    if prec >=? 0 then
      if (prec =? 0) && (n =? 0) then []
      else if zlen body <? prec then sign ++ zrep (prec - zlen body) 48 ++ body else sign ++ body
    else sign ++ body in
  let prefix := if n >=? 0 then (if fl_plus (d_flags d) then [43] else if fl_space (d_flags d) then [32] else []) else [] in
  pad_field (prefix ++ digits) (d_width d) (fl_minus (d_flags d))
    (fl_zero (d_flags d) && match d_prec d with None => true | Some _ => false end && negb (fl_minus (d_flags d))).

(** [{:x}], [{:X}], [{:o}] of a [u64]. *)
Fixpoint base_digits (fuel : nat) (base letter n : Z) : bytes :=
  match fuel with
  | O => []
  | S fuel =>
      let digit k := if k <? 10 then 48 + k else letter + (k - 10) in
      if n <? base then [digit n] else base_digits fuel base letter (n / base) ++ [digit (n mod base)]
  end.
Definition fmt_uint (n : Z) (d : Directive) : outcome bytes :=
  let val := u64 n in
  let conv := d_conv d in
  body ← (if conv =? 117 then Ok (digits_of 20 val)
          else if conv =? 120 then Ok (base_digits 16 16 97 val)
          else if conv =? 88 then Ok (base_digits 16 16 65 val)
          else if conv =? 111 then Ok (base_digits 22 8 97 val)
          else Panic);
  let prefix := if fl_hash (d_flags d) && negb (val =? 0)
                then if conv =? 120 then bytes_of "0x" else if conv =? 88 then bytes_of "0X"
                     else if conv =? 111 then bytes_of "0" else []
                else [] in
  Ok (pad_field (prefix ++ body) (d_width d) (fl_minus (d_flags d)) (fl_zero (d_flags d) && negb (fl_minus (d_flags d)))).

Definition fmt_string (v : Value) (d : Directive) : outcome bytes :=
  s ← text_or_empty v;
  let s := match d_prec d with
           | Some p => if p >=? 0 then of_chars (ztake p (chars s)) else s
           | None => s
           end in
  Ok (pad_field s (d_width d) (fl_minus (d_flags d)) false).
Definition fmt_char (v : Value) (d : Directive) : outcome bytes :=
  s ← text_or_empty v;
  Ok (pad_field (of_chars (ztake 1 (chars s))) (d_width d) (fl_minus (d_flags d)) false).
Definition double_byte (q : Z) (s : bytes) : bytes := mjoin ((fun b => if b =? q then [q; q] else [b]) <$> s).
Definition fmt_sql_quote (v : Value) (d : Directive) : outcome bytes :=
  s ← text_or_empty v; Ok (pad_field (double_byte 39 s) (d_width d) (fl_minus (d_flags d)) false).
Definition fmt_sql_literal (v : Value) (d : Directive) : outcome bytes :=
  body ← (if is_null v then Ok (bytes_of "NULL") else s ← text_or_empty v; Ok ([39] ++ double_byte 39 s ++ [39]));
  Ok (pad_field body (d_width d) (fl_minus (d_flags d)) false).
Definition fmt_html_escape (v : Value) (d : Directive) : outcome bytes :=
  if is_null v then Ok (bytes_of "(NULL)")
  else s ← text_or_empty v; Ok (pad_field (double_byte 34 s) (d_width d) (fl_minus (d_flags d)) false).

(** ** Floats *)

(** [x.round()]: half away from zero. *)
Definition f64_round : Z -> Z := f64_integral (fun k => Z.sgn k * ((2 * Z.abs k + 2 ^ 1074) / 2 ^ 1075)).
(** [num / den] to the nearest integer, ties to even. *)
Definition nearest_int (num den : Z) : Z := round_half_even (num / den) (num mod den) den.
Fixpoint pos_digits (fuel : nat) (n : Z) (acc : bytes) : bytes :=
  match fuel with
  | O => acc
  | S fuel => if n <? 10 then (48 + n) :: acc else pos_digits fuel (n / 10) ((48 + n mod 10) :: acc)
  end.
(** All decimal digits of [n >= 0]. *)
Definition decimal (n : Z) : bytes := pos_digits (Z.to_nat (Z.log2 n + 1)) n [].
Definition pad_left (w : Z) (s : bytes) : bytes := zrep (w - zlen s) 48 ++ s.
Definition sign_of (f : Z) : bytes := if f64_neg f then [45] else [].
(** [format!("{:.*}", prec, f)]. *)
Definition rust_fixed (prec f : Z) : bytes :=
  if f64_is_nan f then bytes_of "NaN"
  else if f64_is_inf f then sign_of f ++ bytes_of "inf"
  else
    let ds := pad_left (prec + 1) (decimal (nearest_int (f64_mag f * 10 ^ prec) (2 ^ 1074))) in
    let n := zlen ds - prec in
    sign_of f ++ ztake n ds ++ (if prec =? 0 then [] else [46] ++ zdrop n ds).
(** [format!("{:.*e}", prec, f)] of a finite [f]: the decimal exponent is that
    of the exact value, one more when the rounding carries. *)
Definition rust_exp (prec f : Z) : bytes :=
  let body (q k : Z) :=
    let ds := decimal q in
    sign_of f ++ ztake 1 ds ++ (if prec =? 0 then [] else [46] ++ zdrop 1 ds) ++ [101] ++ i64_to_string k in
  if f64_is_zero f then sign_of f ++ [48] ++ (if prec =? 0 then [] else [46] ++ zrep prec 48) ++ bytes_of "e0"
  else
    let k := zlen (decimal (f64_mag f * 10 ^ 400 / 2 ^ 1074)) - 401 in
    let e := prec - k in
    let q := if e <? 0 then nearest_int (f64_mag f) (2 ^ 1074 * 10 ^ (- e))
             else nearest_int (f64_mag f * 10 ^ e) (2 ^ 1074) in
    if q =? 10 ^ (prec + 1) then body (10 ^ prec) (k + 1) else body q k.

Definition is_e (c : Z) : bool := (c =? 101) || (c =? 69).
Definition normalize_e (s : bytes) (upper : bool) : bytes :=
  match span (fun c => negb (is_e c)) s with
  | (mantissa, _ :: exp) =>
      let '(sign, digits) := match exp with
                             | c :: rest => if c =? 45 then ([45], rest) else if c =? 43 then ([43], rest) else ([43], exp)
                             | [] => ([43], [])
                             end in
      mantissa ++ [if upper then 69 else 101] ++ sign ++ pad_left 2 digits
  | _ => s
  end.
Definition special (f : Z) : option bytes :=
  if f64_is_nan f then Some (bytes_of "nan")
  else if f64_is_inf f then Some (bytes_of (if f64_lt f 0 then "-inf" else "inf"))
  else None.
Fixpoint strip_zeros_rev (s : bytes) : bytes := match s with b :: t => if b =? 48 then strip_zeros_rev t else s | [] => [] end.
Definition strip_trailing_zeros (s : bytes) : bytes :=
  if existsb (Z.eqb 46) s then
    reverse (match strip_zeros_rev (reverse s) with
             | b :: t => if b =? 46 then t else b :: t
             | [] => []
             end)
  else s.
Definition strip_trailing_zeros_exp (s : bytes) : bytes :=
  match span (fun c => negb (is_e c)) s with
  | (mantissa, (_ :: _) as exp) => strip_trailing_zeros mantissa ++ exp
  | _ => s
  end.
(** [x as i32] of a float. *)
Definition f64_to_i32 (x : Z) : Z := Z.max (- 2 ^ 31) (Z.min (2 ^ 31 - 1) (f64_to_i64 x)).
Definition f64_ten : Z := 0x4024000000000000.

Section Floats.
Context `{Libm}.
Definition format_float_f (f prec : Z) : bytes :=
  match special f with
  | Some s => s
  | None =>
      if prec =? 0 then i64_to_string (f64_to_i64 (f64_round f))
      else
        let pow := lm_powi f64_ten (i32 prec) in
        rust_fixed prec (f64_div (f64_round (f64_mul f pow)) pow)
  end.
Definition format_float_e (f prec : Z) (upper : bool) : bytes :=
  match special f with Some s => s | None => normalize_e (rust_exp prec f) upper end.
Definition format_float_g (f prec : Z) (upper : bool) : outcome bytes :=
  match special f with
  | Some s => Ok s
  | None =>
      if f64_is_zero f then Ok [48]
      else
        let p := Z.max prec 1 in
        let exp := f64_to_i32 (f64_floor (lm_log10 (f64_abs f))) in
        if (exp <? -4) || (exp >=? i32 p)
        then Ok (strip_trailing_zeros_exp (format_float_e f (p - 1) upper))
        else
          a ← chk_i32 (i32 p - 1);
          b ← chk_i32 (a - exp);
          Ok (strip_trailing_zeros (format_float_f f (Z.max b 0)))
  end.
Definition fmt_float (v : Value) (d : Directive) : outcome bytes :=
  let f := as_float v in
  let prec := Z.max 0 (default 6 (d_prec d)) in
  let conv := d_conv d in
  body ← (if (conv =? 102) || (conv =? 70) then Ok (format_float_f f prec)
          else if (conv =? 101) || (conv =? 69) then Ok (format_float_e f prec (conv =? 69))
          else if (conv =? 103) || (conv =? 71) then format_float_g f prec (conv =? 71)
          else Panic);
  Ok (pad_field body (d_width d) (fl_minus (d_flags d)) (fl_zero (d_flags d) && negb (fl_minus (d_flags d)))).

(** ** The function *)

Definition with_width (minus : bool) (w : option Z) (d : Directive) : Directive :=
  let fl := d_flags d in
  mkDirective (d_pos d) (d_width_pos d) (d_prec_pos d)
    (mkFlags (fl_minus fl || minus) (fl_plus fl) (fl_space fl) (fl_zero fl) (fl_hash fl)) w (d_prec d)
    (d_width_star d) (d_prec_star d) (d_conv d).
Definition with_prec (p : option Z) (d : Directive) : Directive :=
  mkDirective (d_pos d) (d_width_pos d) (d_prec_pos d) (d_flags d) (d_width d) p (d_width_star d) (d_prec_star d) (d_conv d).
(** The negation of the smallest [i64] overflows. *)
Definition star_width (d : Directive) (a : Args) : outcome (Directive * Args) :=
  if d_width_star d then
    let '(wv, a) := args_read (d_width_pos d) a in
    let w := as_int wv in
    if w <? 0 then (if w =? - 2 ^ 63 then Panic else Ok (with_width true (Some (- w)) d, a))
    else Ok (with_width false (Some w) d, a)
  else Ok (d, a).
Definition star_prec (d : Directive) (a : Args) : Directive * Args :=
  if d_prec_star d then let '(pv, a) := args_read (d_prec_pos d) a in (with_prec (Some (as_int pv)) d, a) else (d, a).
Definition is_conv (s : string) (d : Directive) : bool := existsb (Z.eqb (d_conv d)) (bytes_of s).
Definition fmt_value (v : Value) (d : Directive) : outcome bytes :=
  if is_conv "di" d then Ok (fmt_int (as_int v) d)
  else if is_conv "uxXop" d then fmt_uint (as_int v) d
  else if is_conv "c" d then fmt_char v d
  else if is_conv "s" d then fmt_string v d
  else if is_conv "fFeEgG" d then fmt_float v d
  else if is_conv "q" d then fmt_sql_quote v d
  else if is_conv "Q" d then fmt_sql_literal v d
  else if is_conv "w" d then fmt_html_escape v d
  else if is_conv "n" d then Ok []
  else Ok (encode_char (d_conv d)).
(** One directive, after its percent sign. *)
Definition printf_directive (cs : list Z) (a : Args) : outcome (bytes * list Z * Args) :=
  let '(d, cs) := parse_directive cs in
  match d with
  | None => Ok ([], cs, a)
  | Some d =>
      '(d, a) ← star_width d a;
      let '(d, a) := star_prec d a in
      let '(v, a) := args_read (d_pos d) a in
      s ← fmt_value v d;
      Ok (s, cs, a)
  end.
Fixpoint printf_loop (fuel : nat) (cs : list Z) (a : Args) (out : bytes) : outcome bytes :=
  match fuel, cs with
  | S fuel, c :: cs =>
      if negb (c =? 37) then printf_loop fuel cs a (out ++ encode_char c)
      else
        match next_is 37 cs with
        | Some cs => printf_loop fuel cs a (out ++ [37])
        | None => '(s, cs, a) ← printf_directive cs a; printf_loop fuel cs a (out ++ s)
        end
  | _, _ => Ok out
  end.
Definition printf_fn (args : list Value) : outcome Value :=
  match args with
  | [] => Ok Null
  | f :: args =>
      if is_null f then Ok Null
      else
        format ← text_or_empty f;
        let cs := chars format in
        out ← printf_loop (length cs) cs (mkArgs args 0) [];
        Ok (Text out)
  end.
End Floats.

(** ** Behaviour on examples *)

Section Examples.
Context `{Libm}.
Example printf_ints : printf_fn [Text (bytes_of "%05d|%-4x|%+d|%.3d"); Int 42; Int 255; Int 7; Int 5] =
  Ok (Text (bytes_of "00042|ff  |+7|005")).
Proof. vm_compute. reflexivity. Qed.
Example printf_sql : printf_fn [Text (bytes_of "%q %Q %Q"); Text (bytes_of "it's"); Text (bytes_of "it's"); Null] =
  Ok (Text (bytes_of "it''s 'it''s' NULL")).
Proof. vm_compute. reflexivity. Qed.
(** [%p] reaches an [unreachable!()]. *)
Lemma printf_pointer_panics : printf_fn [Text (bytes_of "%p"); Int 1] = Panic.
Proof. vm_compute. reflexivity. Qed.
(** [%.0f] goes through an [i64], which saturates: the argument is 1e20. *)
Lemma printf_rounds_through_i64 :
  printf_fn [Text (bytes_of "%.0f"); Real 0x4415AF1D78B58C40] = Ok (Text (bytes_of "9223372036854775807")).
Proof. vm_compute. reflexivity. Qed.
End Examples.

Example exp_digits : rust_exp 3 0x3FF8000000000000 = bytes_of "1.500e0" /\ rust_exp 0 0x40C3878000000000 = bytes_of "1e4".
Proof. split; vm_compute; reflexivity. Qed.
Example fixed_digits : rust_fixed 2 0x3FF8000000000000 = bytes_of "1.50" /\ rust_fixed 0 0x4004000000000000 = bytes_of "2".
Proof. split; vm_compute; reflexivity. Qed.
