(* ===== verification/Registry.v ===== *)
(** * The registry of scalar functions

    [func/registry.rs]: the dispatch of a call by name and number of arguments,
    the check the code generator makes before it emits a call, [unistr]. That
    the two agree is shown in [Calls]. *)

From S2P Require Import Prelude Utf8 Value Str Fp Like Json Aggregate Func Printf.
#[local] Open Scope Z_scope.

Definition SQLITE_SOURCE_ID : bytes :=
  bytes_of "2026-05-05 10:34:17 c88b22011a54b4f6fbd149e9f8e4de77658ce58143a1af0e3785e4e64751alt1".

(** ** [unistr] *)

Definition utf8_len (b : Z) : Z :=
  if b <? 0x80 then 1
  else if Z.shiftr b 5 =? 6 then 2
  else if Z.shiftr b 4 =? 14 then 3
  else if Z.shiftr b 3 =? 30 then 4
  else 1.
(** [&s[i..j]]. *)
Definition str_slice (s : bytes) (i j : Z) : outcome bytes :=
  if (i <=? j) && is_char_boundary s i && is_char_boundary s j then Ok (zslice i j s) else Panic.
Definition is_scalar_b (c : Z) : bool := ((0 <=? c) && (c <? 0xD800)) || ((0xE000 <=? c) && (c <? 0x110000)).
(** The character an escape with [n_hex] digits at [i] stands for. *)
Definition escape_char (s : bytes) (i n_hex : Z) : outcome (option Z) :=
  hex ← str_slice s (i + 2) (i + 2 + n_hex);
  Ok (c ← hex_value 0 hex; (if is_scalar_b c then Some c else None)).
Fixpoint unistr_loop (fuel : nat) (s : bytes) (i : Z) (out : bytes) : outcome bytes :=
  match fuel with
  | O => Ok out
  | S fuel =>
      if zlen s <=? i then Ok out
      else
        b ← idx s i;
        if (b =? 92) && (i + 1 <? zlen s) then
          k ← idx s (i + 1);
          let n_hex := if k =? 117 then 4 else if k =? 85 then 8 else 0 in
          if (n_hex =? 0) || (zlen s <? i + 1 + n_hex) then unistr_loop fuel s (i + 1) (out ++ [92])
          else
            ch ← escape_char s i n_hex;
            match ch with
            | Some c => unistr_loop fuel s (i + 2 + n_hex) (out ++ encode_char c)
            | None => unistr_loop fuel s (i + 1) (out ++ [92])
            end
        else
          let len := utf8_len b in
          c ← str_slice s i (i + Z.min len (zlen s - i));
          unistr_loop fuel s (i + len) (out ++ c)
  end.
Definition unistr (v : Value) : outcome Value :=
  if is_null v then Ok Null
  else s ← text_or_empty v; out ← unistr_loop (length s) s 0 []; Ok (Text out).

(** The bound on the end of an escape is one too small: a truncated one is
    sliced past the end of the text. *)
Lemma unistr_truncated_panics : unistr (Text (bytes_of "\u123")) = Panic.
Proof. vm_compute. reflexivity. Qed.
Example unistr_escape : unistr (Text (bytes_of "a\u0041b")) = Ok (Text (bytes_of "aAb")).
Proof. vm_compute. reflexivity. Qed.

(** ** Dispatch *)

Record Arm := mkArm { arm_names : list string; arm_arity : Z -> bool; arm_call : list Value -> outcome Value }.
Definition exactly (k n : Z) : bool := n =? k.
Definition between (a b n : Z) : bool := (a <=? n) && (n <=? b).
Definition at_least (k n : Z) : bool := k <=? n.
Definition any (n : Z) : bool := true.
Definition odd_arity (n : Z) : bool := (1 <=? n) && (n mod 2 =? 1).

(** [&args[0]], ..., in an arm that fixed their number. *)
Definition call1 (f : Value -> outcome Value) (args : list Value) : outcome Value :=
  match args with [x] => f x | _ => Panic end.
Definition call2 (f : Value -> Value -> outcome Value) (args : list Value) : outcome Value :=
  match args with [x; y] => f x y | _ => Panic end.
Definition call3 (f : Value -> Value -> Value -> outcome Value) (args : list Value) : outcome Value :=
  match args with [x; y; z] => f x y z | _ => Panic end.
(** One or two, two or three arguments, the last optional. *)
Definition call1o (f : Value -> option Value -> outcome Value) (args : list Value) : outcome Value :=
  match args with [x] => f x None | [x; y] => f x (Some y) | _ => Panic end.
Definition call2o (f : Value -> Value -> option Value -> outcome Value) (args : list Value) : outcome Value :=
  match args with [x; y] => f x y None | [x; y; z] => f x y (Some z) | _ => Panic end.
Definition ok1 (f : Value -> Value) : list Value -> outcome Value := call1 (fun x => Ok (f x)).
Definition ok2 (f : Value -> Value -> Value) : list Value -> outcome Value := call2 (fun x y => Ok (f x y)).

Definition no_such_function : Error := Error_msg "no such function".
Definition named_in (names : list string) (lname : bytes) : bool := existsb (fun s => bool_decide (lname = bytes_of s)) names.

Section Dispatch.
Context `{Libm}.
Import Scalar Strings Math.

Definition arms : list Arm := [
  mkArm ["abs"] (exactly 1) (call1 abs);
  mkArm ["length"] (exactly 1) (call1 Scalar.length);
  mkArm ["lower"] (exactly 1) (call1 lower);
  mkArm ["upper"] (exactly 1) (call1 upper);
  mkArm ["typeof"] (exactly 1) (ok1 typeof_);
  mkArm ["substr"; "substring"] (between 2 3) (call2o substr);
  mkArm ["round"] (between 1 2) (call1o Scalar.round);
  mkArm ["coalesce"] (at_least 2) (fun args => Ok (coalesce args));
  mkArm ["ifnull"] (exactly 2) (ok2 ifnull);
  mkArm ["nullif"] (exactly 2) (ok2 nullif);
  mkArm ["iif"; "if"] (exactly 2) (ok2 (fun c a => iif c a Null));
  mkArm ["iif"; "if"] (exactly 3) (call3 (fun c a b => Ok (iif c a b)));
  mkArm ["min"] (at_least 2) (fun args => min_max args false);
  mkArm ["max"] (at_least 2) (fun args => min_max args true);
  mkArm ["zeroblob"] (exactly 1) (call1 zeroblob);
  mkArm ["likely"; "unlikely"] (exactly 1) (ok1 likely);
  mkArm ["likelihood"] (exactly 2) (ok2 likelihood);
  mkArm ["instr"] (exactly 2) (call2 instr);
  mkArm ["replace"] (exactly 3) (call3 replace);
  mkArm ["trim"] (between 1 2) (call1o (trim Both));
  mkArm ["ltrim"] (between 1 2) (call1o (trim Left));
  mkArm ["rtrim"] (between 1 2) (call1o (trim Right));
  mkArm ["char"] any (fun args => Ok (char_ args));
  mkArm ["unicode"] (exactly 1) (call1 unicode);
  mkArm ["hex"] (exactly 1) (call1 hex);
  mkArm ["unhex"] (between 1 2) (call1o unhex);
  mkArm ["concat"] (at_least 1) concat;
  mkArm ["concat_ws"] (at_least 2) concat_ws;
  mkArm ["quote"] (exactly 1) (call1 quote);
  mkArm ["octet_length"] (exactly 1) (call1 octet_length);
  mkArm ["like"] (between 2 3) (call2o like);
  mkArm ["glob"] (exactly 2) (call2 glob);
  mkArm ["sqrt"] (exactly 1) (ok1 sqrt);
  mkArm ["exp"] (exactly 1) (ok1 exp);
  mkArm ["ln"] (exactly 1) (ok1 ln);
  mkArm ["log"; "log10"] (exactly 1) (ok1 log10);
  mkArm ["log"] (exactly 2) (ok2 log_base);
  mkArm ["log2"] (exactly 1) (ok1 log2);
  mkArm ["ceil"; "ceiling"] (exactly 1) (ok1 ceil);
  mkArm ["floor"] (exactly 1) (ok1 floor);
  mkArm ["trunc"] (exactly 1) (ok1 trunc);
  mkArm ["pow"; "power"] (exactly 2) (ok2 pow);
  mkArm ["mod"] (exactly 2) (ok2 mod_);
  mkArm ["sign"] (exactly 1) (ok1 sign);
  mkArm ["pi"] (exactly 0) (fun _ => Ok pi);
  mkArm ["sin"] (exactly 1) (ok1 sin);
  mkArm ["cos"] (exactly 1) (ok1 cos);
  mkArm ["tan"] (exactly 1) (ok1 tan);
  mkArm ["asin"] (exactly 1) (ok1 asin);
  mkArm ["acos"] (exactly 1) (ok1 acos);
  mkArm ["atan"] (exactly 1) (ok1 atan);
  mkArm ["atan2"] (exactly 2) (ok2 atan2);
  mkArm ["sinh"] (exactly 1) (ok1 sinh);
  mkArm ["cosh"] (exactly 1) (ok1 cosh);
  mkArm ["tanh"] (exactly 1) (ok1 tanh);
  mkArm ["asinh"] (exactly 1) (ok1 asinh);
  mkArm ["acosh"] (exactly 1) (ok1 acosh);
  mkArm ["atanh"] (exactly 1) (ok1 atanh);
  mkArm ["radians"] (exactly 1) (ok1 radians);
  mkArm ["degrees"] (exactly 1) (ok1 degrees);
  mkArm ["json"] (exactly 1) (call1 json_fn);
  mkArm ["jsonb"] (exactly 1) (call1 jsonb_fn);
  mkArm ["json_array"] any json_array_fn;
  mkArm ["json_object"] any json_object_fn;
  mkArm ["json_extract"; "jsonb_extract"] (at_least 2) json_extract_fn;
  mkArm ["json_type"] (between 1 2) json_type_fn;
  mkArm ["json_valid"] (between 1 2) json_valid_fn;
  mkArm ["json_quote"] (exactly 1) (call1 json_quote_fn);
  mkArm ["json_array_length"; "jsonb_array_length"] (between 1 2) json_array_length_fn;
  mkArm ["json_pretty"] (between 1 2) json_pretty_fn;
  mkArm ["json_error_position"] (exactly 1) (call1 json_error_position_fn);
  mkArm ["json_insert"; "jsonb_insert"] odd_arity (fun args => json_edit_fn args UM_Insert);
  mkArm ["json_replace"; "jsonb_replace"] odd_arity (fun args => json_edit_fn args UM_Replace);
  mkArm ["json_set"; "jsonb_set"] odd_arity (fun args => json_edit_fn args UM_Set);
  mkArm ["json_remove"; "jsonb_remove"] (at_least 1) json_remove_fn;
  mkArm ["json_patch"; "jsonb_patch"] (exactly 2) json_patch_fn;
  mkArm ["_json_arrow"] (exactly 2) (fun args => json_arrow_fn args true);
  mkArm ["_json_arrow_text"] (exactly 2) (fun args => json_arrow_fn args false);
  mkArm ["printf"; "format"] any printf_fn;
  mkArm ["soundex"] (exactly 1) (call1 Soundex.soundex);
  mkArm ["load_extension"] any (fun _ => Err (Error_msg "extension loading is disabled"));
  mkArm ["sqlite_compileoption_get"] (exactly 1) (fun _ => Ok Null);
  mkArm ["sqlite_compileoption_used"] (exactly 1) (fun _ => Ok (Int 0));
  mkArm ["sqlite_source_id"; "sqlite_sourceid"] (exactly 0) (fun _ => Ok (Text SQLITE_SOURCE_ID));
  mkArm ["unistr"] (exactly 1) (call1 unistr);
  mkArm ["sqlite_log"] any (fun _ => Ok Null)].

(** The first arm that matches. *)
Definition find_arm (lname : bytes) (n : Z) : option Arm :=
  List.find (fun a => named_in (arm_names a) lname && arm_arity a n) arms.
Definition call_scalar (name : bytes) (args : list Value) : outcome Value :=
  match find_arm (to_ascii_lowercase name) (zlen args) with
  | Some a => arm_call a args
  | None => Err no_such_function
  end.
End Dispatch.

(** ** The check of the code generator *)

Definition vdbe_functions : list (list string * (Z -> bool)) := [
  (["random"; "changes"; "total_changes"; "last_insert_rowid"; "sqlite_version"], exactly 0);
  (["randomblob"], exactly 1);
  (["date"; "datetime"; "julianday"; "unixepoch"; "strftime"], any);
  (["time"], any);
  (["timediff"], exactly 2);
  (["current_date"; "current_time"; "current_timestamp"], exactly 0)].
Definition check_table : list (list string * (Z -> bool)) := [
  (["abs"; "length"; "lower"; "upper"; "typeof"], exactly 1);
  (["substr"; "substring"], between 2 3);
  (["round"], between 1 2);
  (["coalesce"], at_least 2);
  (["ifnull"; "nullif"], exactly 2);
  (["iif"; "if"], between 2 3);
  (["min"; "max"], at_least 2);
  (["zeroblob"], exactly 1);
  (["likely"; "unlikely"], exactly 1);
  (["likelihood"], exactly 2);
  (["instr"], exactly 2);
  (["replace"], exactly 3);
  (["trim"; "ltrim"; "rtrim"], between 1 2);
  (["char"], any);
  (["unicode"], exactly 1);
  (["hex"], exactly 1);
  (["unhex"], between 1 2);
  (["concat"], at_least 1);
  (["concat_ws"], at_least 2);
  (["quote"], exactly 1);
  (["octet_length"], exactly 1);
  (["like"], between 2 3);
  (["glob"], exactly 2);
  (["sqrt"; "exp"; "ln"; "log10"; "log2"; "ceil"; "ceiling"; "floor"; "trunc"; "sign"; "sin"; "cos"; "tan"; "asin";
    "acos"; "atan"; "sinh"; "cosh"; "tanh"; "asinh"; "acosh"; "atanh"; "radians"; "degrees"], exactly 1);
  (["log"], between 1 2);
  (["pow"; "power"; "mod"; "atan2"], exactly 2);
  (["pi"], exactly 0);
  (["json"; "jsonb"], exactly 1);
  (["json_array"], any);
  (["json_object"], fun n => n mod 2 =? 0);
  (["json_extract"; "jsonb_extract"], at_least 2);
  (["json_type"], between 1 2);
  (["json_valid"], between 1 2);
  (["json_quote"], exactly 1);
  (["json_array_length"; "jsonb_array_length"], between 1 2);
  (["json_pretty"], between 1 2);
  (["json_error_position"], exactly 1);
  (["json_insert"; "jsonb_insert"; "json_replace"; "jsonb_replace"; "json_set"; "jsonb_set"], odd_arity);
  (["json_remove"; "jsonb_remove"], at_least 1);
  (["json_patch"; "jsonb_patch"], exactly 2);
  (["_json_arrow"; "_json_arrow_text"], exactly 2)]
  ++ vdbe_functions ++ [
  (["printf"; "format"], any);
  (["soundex"], exactly 1);
  (["load_extension"], between 1 2);
  (["sqlite_compileoption_get"], exactly 1);
  (["sqlite_compileoption_used"], exactly 1);
  (["sqlite_source_id"; "sqlite_sourceid"], exactly 0);
  (["unistr"], exactly 1);
  (["sqlite_log"], fun n => n <=? 2);
  (["string_agg"], exactly 2)].
Definition arity_ok (lname : bytes) (n : Z) : option bool :=
  e ← List.find (fun e => named_in (fst e) lname) check_table; Some (snd e n).
Definition check (name : bytes) (n_arg : Z) : outcome unit :=
  match from_name name n_arg with
  | Some _ => Ok tt
  | None =>
      match arity_ok (to_ascii_lowercase name) n_arg with
      | None => Err no_such_function
      | Some false => Err (Error_msg "wrong number of arguments to function")
      | Some true => Ok tt
      end
  end.

(** ** Names and arities of the arms *)

Section Agree.
Context `{Libm}.

(** Some arm takes [lname] with [n] arguments. *)
Definition dispatched (lname : bytes) (n : Z) : Prop := exists a, find_arm lname n = Some a.

Lemma named_in_true names lname : named_in names lname = true -> exists s, In s names /\ lname = bytes_of s.
Proof. unfold named_in. rewrite existsb_exists. intros (s & Hs & Hb). exists s. split; [done|]. by apply bool_decide_eq_true in Hb. Qed.

(** The names and arities of the arms. *)
Definition arm_keys : list (list string * (Z -> bool)) :=
  Eval cbv [arms fmap list_fmap arm_names arm_arity] in (fun a => (arm_names a, arm_arity a)) <$> arms.
Lemma find_arm_some lname n :
  existsb (fun k => named_in (fst k) lname && snd k n) arm_keys = true -> dispatched lname n.
Proof.
  change arm_keys with ((fun a => (arm_names a, arm_arity a)) <$> arms). rewrite existsb_exists.
  intros (k & Hk & Hp). apply list_elem_of_In, list_elem_of_fmap in Hk as (a & -> & Ha).
  unfold dispatched, find_arm. destruct (List.find _ arms) as [b|] eqn:Hf; [by exists b|].
  apply list_elem_of_In in Ha. cbn [fst snd] in Hp. by rewrite (List.find_none _ _ Hf a Ha) in Hp.
Qed.

(** The same by the position of the arm. *)
Lemma find_arm_at lname n p k :
  arm_keys !! p = Some k -> named_in (fst k) lname = true -> snd k n = true -> dispatched lname n.
Proof.
  intros Hp Hk Hn. apply find_arm_some, existsb_exists. exists k. rewrite Hk, Hn. split; [|done].
  apply list_elem_of_In. by apply list_elem_of_lookup_2 in Hp.
Qed.
Definition arm_position (lname : bytes) : nat := default 0%nat (fst <$> list_find (fun k => named_in (fst k) lname = true) arm_keys).

End Agree.

(** Some interpretation of the functions of the platform. *)
#[local] Instance libm_id : Libm :=
  Build_Libm id id id id (fun x _ => x) (fun x _ => x) id id id id id id (fun x _ => x) id id id id id id.
