(* ===== verification/Rounding.v ===== *)
(** * Exact and bracketed results of double arithmetic

    An operation on doubles whose exact result is a double returns it; and if
    the exact result lies on one side of a double, so does the rounded one. The
    second fact bounds quotients before they are truncated. *)

From S2P Require Import Prelude Utf8 Float64 Fp FloatOps.
#[local] Open Scope Z_scope.

(** Powers of two that arithmetic must not expand. *)
Definition sealed_power : {f : Z -> Z | forall k, f k = 2 ^ k}.
Proof. by exists (Z.pow 2). Qed.
Definition spow (k : Z) : Z := proj1_sig sealed_power k.
Lemma spow_eq k : spow k = 2 ^ k.
Proof. exact (proj2_sig sealed_power k). Qed.
Lemma spow_pos k : 0 <= k -> 0 < spow k.
Proof. intros. rewrite spow_eq. by apply Z.pow_pos_nonneg. Qed.
Lemma spow_add a b : 0 <= a -> 0 <= b -> spow (a + b) = 2 ^ a * spow b.
Proof. intros. rewrite !spow_eq. by apply Z.pow_add_r. Qed.

(** The unit of [f64_key]. *)
Notation f64_unit := (spow 1074).
Lemma unit_positive : 0 < f64_unit.
Proof. by apply spow_pos. Qed.
Lemma unit_split : f64_unit = 2 ^ 30 * spow 1044.
Proof. by apply (spow_add 30 1044). Qed.
Lemma unit_square : 2 ^ 2148 = f64_unit * f64_unit.
Proof. rewrite !spow_eq. by rewrite <- Z.pow_add_r. Qed.
Lemma unit_bound x : x < 2 ^ 62 * f64_unit -> x < 2 ^ 2000.
Proof.
  rewrite spow_eq, <- Z.pow_add_r by done. intros Hx. eapply Z.lt_trans; [exact Hx|]. by apply Z.pow_lt_mono_r.
Qed.
Lemma f64_nearest_eq num den : f64_nearest num den =
  let n := num * f64_unit in
  let s := Z.max 0 (Z.log2 (n / den) - 52) in
  Z.min (s * 2 ^ 52 + round_half_even (n / (den * 2 ^ s)) (n mod (den * 2 ^ s)) (den * 2 ^ s)) f64_infinity.
Proof. by rewrite spow_eq. Qed.
Lemma to_i64_quot r : f64_is_nan r = false -> - 2 ^ 63 * f64_unit <= f64_key r < 2 ^ 63 * f64_unit ->
  f64_to_i64 r = Z.quot (f64_key r) f64_unit.
Proof. rewrite spow_eq. apply f64_to_i64_quot. Qed.

(** [x] is the finite double of value [k] units, well inside the range of [i64]. *)
Definition exactly (x k : Z) : Prop := f64_is_nan x = false /\ f64_key x = k /\ Z.abs k < 2 ^ 62 * f64_unit.

(** ** Rounding to nearest *)

Lemma half_even_upper q r d w : 0 <= r < d -> q * d + r <= w * d -> round_half_even q r d <= w.
Proof.
  intros Hr Hle. assert (q <= w) by nia. unfold round_half_even.
  destruct (Z.eq_dec q w) as [->|]; [|destruct (_ ?= _), (Z.even q); lia].
  assert (r = 0) as -> by nia. rewrite (proj2 (Z.compare_lt_iff _ _)) by lia. lia.
Qed.
Lemma half_even_lower q r d w : 0 <= r < d -> w * d <= q * d + r -> w <= round_half_even q r d.
Proof. intros Hr Hle. assert (w <= q) by nia. unfold round_half_even. destruct (_ ?= _), (Z.even q); lia. Qed.

(** The magnitude that a significand and an exponent encode. *)
Lemma mag_of_bits s r : 0 <= s < 2000 -> 0 <= r <= 2 ^ 53 -> (0 < s -> 2 ^ 52 <= r) ->
  f64_is_nan (s * 2 ^ 52 + r) = false /\ f64_mag (s * 2 ^ 52 + r) = r * 2 ^ s.
Proof.
  intros Hs Hr Hn. Transparent f64_is_nan f64_mag.
  assert (forall e f, 0 <= e < 2047 -> 0 <= f < 2 ^ 52 -> f64_is_nan (e * 2 ^ 52 + f) = false /\
    f64_mag (e * 2 ^ 52 + f) = if e =? 0 then f else (2 ^ 52 + f) * 2 ^ (e - 1)) as Hb.
  { intros e f He Hf. destruct (f64_fields 0 e f ltac:(auto) ltac:(lia) Hf) as (H1 & H2 & H3).
    rewrite Z.mul_0_l, Z.add_0_l in *. unfold f64_is_nan, f64_mag. rewrite H1, H2.
    destruct (Z.eqb_spec e 2047); [lia|]. by destruct (e =? 0). }
  Opaque f64_is_nan f64_mag.
  destruct (Z_lt_le_dec r (2 ^ 52)) as [Hlt|Hge].
  - assert (s = 0) as -> by lia. rewrite Z.mul_1_r. exact (Hb 0 r ltac:(lia) ltac:(lia)).
  - destruct (Z.eq_dec r (2 ^ 53)) as [->|].
    + replace (s * 2 ^ 52 + 2 ^ 53) with ((s + 2) * 2 ^ 52 + 0) by lia. destruct (Hb (s + 2) 0 ltac:(lia) ltac:(lia)) as [-> ->].
      split; [done|]. destruct (Z.eqb_spec (s + 2) 0); [lia|]. rewrite Z.add_0_r.
      replace (s + 2 - 1) with (1 + s) by lia. rewrite Z.pow_add_r by lia. lia.
    + replace (s * 2 ^ 52 + r) with ((s + 1) * 2 ^ 52 + (r - 2 ^ 52)) by lia.
      destruct (Hb (s + 1) (r - 2 ^ 52) ltac:(lia) ltac:(lia)) as [-> ->].
      split; [done|]. destruct (Z.eqb_spec (s + 1) 0); [lia|]. replace (s + 1 - 1) with s by lia. lia.
Qed.

(** [f64_nearest num den], where [n] is [num] in units. *)
Section Nearest.
Context (n den x : Z) (Hden : 0 < den) (Hn : 0 <= n) (Hsmall : Z.log2 (n / den) < 2000).
Let s := Z.max 0 (Z.log2 (n / den) - 52).
Let d := den * 2 ^ s.
Let r := round_half_even (n / d) (n mod d) d.
Context (Hx : x = Z.min (s * 2 ^ 52 + r) f64_infinity).

Lemma scale_pos : 0 < 2 ^ s /\ 0 < d /\ 0 <= s.
Proof.
  assert (0 <= s) by lia. assert (0 < 2 ^ s) by (apply Z.pow_pos_nonneg; lia). split_and!; [done|unfold d; nia|done].
Qed.
Lemma nearest_quot_nonneg : 0 <= n / den.
Proof. by apply Z.div_pos. Qed.
(** Scaled, the quotient has 53 bits. *)
Lemma scaled_quot : n / d = n / den / 2 ^ s.
Proof. destruct scale_pos as (? & ? & ?). unfold d. by rewrite Z.div_div by lia. Qed.
Lemma significand_range : 0 <= r <= 2 ^ 53 /\ (0 < s -> 2 ^ 52 <= n / d) /\ n / d < 2 ^ 53.
Proof.
  destruct scale_pos as (Hp & Hd & Hs). pose proof nearest_quot_nonneg as Hq.
  assert (n / d < 2 ^ 53 /\ (0 < s -> 2 ^ 52 <= n / d)) as [Hhi Hlo].
  { rewrite scaled_quot. destruct (Z.eq_dec (n / den) 0) as [E|Hne].
    - assert (s = 0) as -> by (unfold s; rewrite E; done). rewrite E. split; [done|lia].
    - pose proof (Z.log2_spec (n / den) ltac:(lia)) as [H1 H2]. pose proof (Z.log2_nonneg (n / den)). split.
      + apply Z.div_lt_upper_bound; [lia|]. rewrite <- Z.pow_add_r by lia.
        eapply Z.lt_le_trans; [exact H2|]. apply Z.pow_le_mono_r; unfold s; lia.
      + intros Hs'. apply Z.div_le_lower_bound; [lia|]. rewrite <- Z.pow_add_r by lia.
        eapply Z.le_trans; [|exact H1]. apply Z.pow_le_mono_r; unfold s in *; lia. }
  pose proof (Z.mod_pos_bound n d Hd) as Hm. pose proof (Z.div_mod n d ltac:(lia)) as Hdm.
  assert (0 <= n / d) by (rewrite scaled_quot; by apply Z.div_pos).
  split; [|done]. split; [apply half_even_lower; nia|apply half_even_upper; nia].
Qed.
Lemma nearest_mag : f64_is_nan x = false /\ f64_mag x = r * 2 ^ s /\ 0 <= x < 2 ^ 63.
Proof.
  destruct scale_pos as (Hp & Hd & Hs). destruct significand_range as (Hr & Hlo & Hhi). assert (s < 2000) as Hs2 by lia.
  assert (0 < s -> 2 ^ 52 <= r) as Hr2.
  { intros H0. specialize (Hlo H0). pose proof (Z.mod_pos_bound n d Hd). pose proof (Z.div_mod n d ltac:(lia)).
    apply half_even_lower; nia. }
  destruct (mag_of_bits s r ltac:(lia) Hr Hr2) as [Hnan Hmag].
  rewrite Z.min_l in Hx by (unfold f64_infinity; lia). subst x.
  split_and!; [done|done|lia|lia].
Qed.

(** A double on one side of the exact value is on that side of the rounded one. *)
Lemma nearest_upper v : representable v -> n <= v * den -> f64_mag x <= v.
Proof.
  intros (m & k & Hv & Hm & Hk) Hle. destruct nearest_mag as (_ & -> & _). destruct scale_pos as (Hp & Hd & Hs).
  destruct significand_range as (_ & Hlo & _).
  pose proof (Z.mod_pos_bound n d Hd). pose proof (Z.div_mod n d ltac:(lia)).
  assert (exists w, v = w * 2 ^ s) as [w ->].
  { destruct (Z_le_gt_dec s k).
    - exists (m * 2 ^ (k - s)). rewrite Hv, <- Z.mul_assoc, <- Z.pow_add_r by lia. do 2 f_equal. lia.
    - exfalso. specialize (Hlo ltac:(lia)). assert (2 ^ 52 * 2 ^ s <= v); [|].
      { assert (2 ^ 52 * d <= n) by nia. unfold d in *. nia. }
      assert (v < 2 ^ 53 * 2 ^ k) by (assert (0 < 2 ^ k) by (apply Z.pow_pos_nonneg; lia); nia).
      rewrite <- Z.pow_add_r in * by lia. assert (2 ^ (53 + k) <= 2 ^ (52 + s)) by (apply Z.pow_le_mono_r; lia). lia. }
  assert (r <= w); [|nia]. apply half_even_upper; [done|]. unfold d in *. nia.
Qed.
Lemma nearest_lower v : representable v -> v * den <= n -> v <= f64_mag x.
Proof.
  intros (m & k & Hv & Hm & Hk) Hle. destruct nearest_mag as (_ & -> & _). destruct scale_pos as (Hp & Hd & Hs).
  destruct significand_range as (_ & Hlo & _).
  pose proof (Z.mod_pos_bound n d Hd). pose proof (Z.div_mod n d ltac:(lia)).
  destruct (Z_le_gt_dec s k).
  - assert (v = m * 2 ^ (k - s) * 2 ^ s) as E.
    { rewrite Hv, <- Z.mul_assoc, <- Z.pow_add_r by lia. do 2 f_equal. lia. }
    rewrite E in *. set (w := m * 2 ^ (k - s)) in *. assert (w <= r); [|nia]. apply half_even_lower; [done|]. unfold d in *. nia.
  - specialize (Hlo ltac:(lia)). assert (2 ^ 52 <= r) as Hr by (apply half_even_lower; nia).
    assert (v < 2 ^ 53 * 2 ^ k) by (assert (0 < 2 ^ k) by (apply Z.pow_pos_nonneg; lia); nia).
    assert (2 ^ 53 * 2 ^ k <= 2 ^ 52 * 2 ^ s); [|nia].
    rewrite <- !Z.pow_add_r by lia. apply Z.pow_le_mono_r; lia.
Qed.
End Nearest.

(** ** Signs *)

Lemma sign_bits x : 0 <= x < 2 ^ 63 ->
  f64_key x = f64_mag x /\ f64_key (2 ^ 63 + x) = - f64_mag x /\ f64_is_nan (2 ^ 63 + x) = f64_is_nan x.
Proof.
  intros Hx. Transparent f64_is_nan f64_mag f64_key.
  assert (f64_frac (2 ^ 63 + x) = f64_frac x /\ f64_exp (2 ^ 63 + x) = f64_exp x) as [Hf He].
  { unfold f64_frac, f64_exp. change (2 ^ 63) with (2 ^ 11 * 2 ^ 52). split.
    - by rewrite Z.add_comm, Z.mod_add.
    - rewrite Z.add_comm, Z.div_add by done. change (2 ^ 11) with (1 * 2048). by rewrite Z.mod_add. }
  unfold f64_key, f64_mag, f64_is_nan, f64_neg. rewrite Hf, He.
  destruct (Z.leb_spec (2 ^ 63) x), (Z.leb_spec (2 ^ 63) (2 ^ 63 + x)); [lia..| |lia]. done.
  Opaque f64_is_nan f64_mag f64_key.
Qed.

(** ** Operations *)

Lemma exactly_finite x k : exactly x k -> f64_exp x <> 2047.
Proof.
  intros (_ & <- & Hb). apply f64_key_finite. rewrite <- (spow_eq 1074). pose proof unit_positive. lia.
Qed.
Lemma exactly_not_inf x k : exactly x k -> f64_is_inf x = false.
Proof. intros He%exactly_finite. unfold f64_is_inf. destruct (Z.eqb_spec (f64_exp x) 2047); done. Qed.
Lemma exactly_zero x k : exactly x k -> f64_is_zero x = (k =? 0).
Proof.
  intros (_ & Hk & _). unfold f64_is_zero. rewrite f64_mag_abs, Hk. destruct (Z.eqb_spec (Z.abs k) 0), (Z.eqb_spec k 0); lia || done.
Qed.
Lemma scaled_representable a k : 0 <= a < 2 ^ 53 -> 0 <= k -> representable (a * spow k).
Proof. intros. exists a, k. by rewrite spow_eq. Qed.

Lemma nearest_exactly num den K : 0 < den -> 0 <= num -> num * f64_unit = K * den -> representable K ->
  Z.abs K < 2 ^ 62 * f64_unit ->
  f64_is_nan (f64_nearest num den) = false /\ f64_mag (f64_nearest num den) = K /\ 0 <= f64_nearest num den < 2 ^ 63.
Proof.
  intros Hd Hn HK Hr Hb. assert (num * f64_unit / den = K) as Hq by (by rewrite HK, Z.div_mul by lia).
  assert (0 <= K) as HK0 by (rewrite <- Hq; apply Z.div_pos; [apply Z.mul_nonneg_nonneg; [done|apply Z.lt_le_incl, unit_positive]|done]).
  assert (Z.log2 (num * f64_unit / den) < 2000) as Hl.
  { rewrite Hq. destruct (Z.eq_dec K 0) as [->|]; [done|]. apply Z.log2_lt_pow2; [lia|]. rewrite Z.abs_eq in Hb by done.
    by apply unit_bound. }
  assert (0 <= num * f64_unit) as Hnn by (rewrite HK; nia).
  destruct (nearest_mag (num * f64_unit) den (f64_nearest num den) Hd Hnn Hl (f64_nearest_eq num den)) as (Hnan & _ & Hx).
  split_and!; [done| |lia|lia]. apply Z.le_antisymm.
  - apply (nearest_upper (num * f64_unit) den _ Hd Hnn Hl (f64_nearest_eq num den)); [done|lia].
  - apply (nearest_lower (num * f64_unit) den _ Hd Hnn Hl (f64_nearest_eq num den)); [done|lia].
Qed.
Lemma rounded_exactly neg num den K : 0 < den -> num * f64_unit = K * den -> representable (Z.abs K) ->
  Z.abs K < 2 ^ 62 * f64_unit -> exactly (f64_rounded neg num den) K.
Proof.
  intros Hd HK Hr Hb. unfold f64_rounded. pose proof unit_positive as HU. destruct (Z.eqb_spec num 0) as [->|Hne].
  { assert (K = 0) as -> by nia. split; [|split; [|done]]; destruct neg; (try by vm_compute); rewrite Z.mul_comm; cbn; lia. }
  destruct (Z.ltb_spec num 0).
  - assert (K < 0) as HKn. { revert HK HU. generalize f64_unit. intros U HK HU. nia. }
    rewrite Z.abs_neq in Hr, Hb by lia.
    destruct (nearest_exactly (- num) den (- K) Hd ltac:(lia) ltac:(lia) Hr ltac:(lia)) as (Hnan & Hm & Hx).
    destruct (sign_bits _ Hx) as (_ & Hk & Hn). split; [by rewrite Hn|]. split; [lia|lia].
  - assert (0 <= K) as HKn. { revert HK HU. generalize f64_unit. intros U HK HU. nia. }
    rewrite Z.abs_eq in Hr, Hb by lia.
    destruct (nearest_exactly num den K Hd ltac:(lia) ltac:(lia) Hr ltac:(lia)) as (Hnan & Hm & Hx).
    destruct (sign_bits _ Hx) as (Hk & _ & _). split; [done|]. split; lia.
Qed.

Lemma add_exactly x y kx ky : exactly x kx -> exactly y ky -> representable (Z.abs (kx + ky)) ->
  Z.abs (kx + ky) < 2 ^ 62 * f64_unit -> exactly (f64_add x y) (kx + ky).
Proof.
  intros Hx Hy Hr Hb. unfold f64_add. rewrite (exactly_not_inf _ _ Hx), (exactly_not_inf _ _ Hy).
  destruct Hx as (-> & -> & _), Hy as (-> & -> & _). cbn [orb].
  rewrite <- (spow_eq 1074). by apply rounded_exactly; [exact unit_positive|..].
Qed.
Lemma mul_exactly x y kx ky K : exactly x kx -> exactly y ky -> kx * ky = K * f64_unit -> representable (Z.abs K) ->
  Z.abs K < 2 ^ 62 * f64_unit -> exactly (f64_mul x y) K.
Proof.
  intros Hx Hy HK Hr Hb. unfold f64_mul. rewrite (exactly_not_inf _ _ Hx), (exactly_not_inf _ _ Hy).
  destruct Hx as (-> & -> & _), Hy as (-> & -> & _). cbn [orb]. apply rounded_exactly; [done| |done|done].
  rewrite unit_square, HK. lia.
Qed.
Lemma of_i64_exactly i : Z.abs i < 2 ^ 53 -> exactly (i64_as_f64 i) (i * f64_unit).
Proof.
  intros Hi. destruct (i64_as_f64_exact i) as [Hn Hk].
  - unfold is_i64. lia.
  - exists (Z.abs i), 0. lia.
  - rewrite <- (spow_eq 1074) in Hk. split; [done|]. split; [done|]. rewrite Z.abs_mul, (Z.abs_eq f64_unit) by (apply Z.lt_le_incl, unit_positive).
    apply Z.mul_lt_mono_pos_r; [exact unit_positive|]. lia.
Qed.
Lemma to_i64_exactly x k : exactly x k -> f64_to_i64 x = Z.quot k f64_unit.
Proof.
  intros (Hn & Hk & Hb). rewrite to_i64_quot; [by rewrite Hk|done|]. rewrite Hk. pose proof unit_positive.
  lia.
Qed.

(** ** Brackets *)

(** [x] is between [lo] and [hi] units. *)
Definition bracketed (x lo hi : Z) : Prop :=
  f64_is_nan x = false /\ lo <= f64_key x <= hi /\ 0 <= lo /\ hi < 2 ^ 62 * f64_unit.
Lemma exactly_bracketed x k : exactly x k -> 0 <= k -> bracketed x k k.
Proof. intros (Hn & Hk & Hb) H0. split; [done|]. rewrite Z.abs_eq in Hb by done. lia. Qed.
Lemma bracketed_finite x lo hi : bracketed x lo hi -> f64_exp x <> 2047.
Proof. intros (_ & Hk & Hlo & Hhi). apply f64_key_finite. rewrite <- (spow_eq 1074). pose proof unit_positive. lia. Qed.
Lemma bracketed_not_inf x lo hi : bracketed x lo hi -> f64_is_inf x = false.
Proof. intros He%bracketed_finite. unfold f64_is_inf. destruct (Z.eqb_spec (f64_exp x) 2047); done. Qed.

Lemma rounded_bracketed neg num den lo hi : 0 < den -> 0 < num -> representable lo -> representable hi ->
  lo * den <= num * f64_unit <= hi * den -> 0 <= lo -> hi < 2 ^ 62 * f64_unit -> bracketed (f64_rounded neg num den) lo hi.
Proof.
  intros Hd Hn Hrl Hrh Hb Hlo Hhi. unfold f64_rounded. destruct (Z.eqb_spec num 0); [lia|]. destruct (Z.ltb_spec num 0); [lia|].
  pose proof unit_positive as HU. assert (0 <= num * f64_unit) as Hnn by (revert HU; generalize f64_unit; intros; nia).
  assert (num * f64_unit / den <= hi) as Hq by (apply Z.div_le_upper_bound; lia).
  assert (Z.log2 (num * f64_unit / den) < 2000) as Hl.
  { destruct (Z.eq_dec (num * f64_unit / den) 0) as [->|]; [done|]. assert (0 <= num * f64_unit / den) by by apply Z.div_pos.
    apply Z.log2_lt_pow2; [lia|]. eapply Z.le_lt_trans; [exact Hq|]. by apply unit_bound. }
  destruct (nearest_mag (num * f64_unit) den (f64_nearest num den) Hd Hnn Hl (f64_nearest_eq num den)) as (Hnan & _ & Hx).
  destruct (sign_bits _ Hx) as (Hk & _ & _). split; [done|]. rewrite Hk. split; [split|by split].
  - apply (nearest_lower (num * f64_unit) den _ Hd Hnn Hl (f64_nearest_eq num den)); [done|lia].
  - apply (nearest_upper (num * f64_unit) den _ Hd Hnn Hl (f64_nearest_eq num den)); [done|lia].
Qed.
Lemma add_bracketed x y kx ky lo hi : exactly x kx -> exactly y ky -> lo <= kx + ky <= hi -> 0 < kx + ky ->
  representable lo -> representable hi -> 0 <= lo -> hi < 2 ^ 62 * f64_unit -> bracketed (f64_add x y) lo hi.
Proof.
  intros Hx Hy Hk H0 Hrl Hrh Hlo Hhi. unfold f64_add. rewrite (exactly_not_inf _ _ Hx), (exactly_not_inf _ _ Hy).
  destruct Hx as (-> & -> & _), Hy as (-> & -> & _). cbn [orb]. pose proof unit_positive as HU.
  rewrite <- (spow_eq 1074). apply rounded_bracketed; try done. split; apply Z.mul_le_mono_nonneg_r; lia.
Qed.
Lemma bracketed_truncates x n : bracketed x (n * f64_unit) (((n + 1) * 2 ^ 30 - 1) * spow 1044) -> 0 <= n < 2 ^ 22 ->
  f64_to_i64 x = n.
Proof.
  intros (Hnan & Hk & _ & _) Hn. assert (0 < spow 1044) as HV by (by apply spow_pos).
  rewrite to_i64_quot; [|done|].
  - revert HV Hk. rewrite unit_split. generalize (spow 1044) (f64_key x). intros V K HV HK.
    rewrite Z.quot_div_nonneg by nia. symmetry. apply (Z.div_unique K (2 ^ 30 * V) n (K - n * (2 ^ 30 * V))); [left; nia|lia].
  - revert HV Hk. rewrite unit_split. generalize (spow 1044) (f64_key x). intros V K HV HK.
    assert (((n + 1) * 2 ^ 30 - 1) * V <= 2 ^ 53 * V) by (apply Z.mul_le_mono_nonneg_r; lia).
    assert (0 <= n * V) by (apply Z.mul_nonneg_nonneg; lia). lia.
Qed.
Lemma truncation_brackets n : 0 <= n < 2 ^ 22 ->
  representable (n * f64_unit) /\ representable (((n + 1) * 2 ^ 30 - 1) * spow 1044) /\ 0 <= n * f64_unit /\
  ((n + 1) * 2 ^ 30 - 1) * spow 1044 < 2 ^ 62 * f64_unit.
Proof.
  intros Hn. split_and!; [apply scaled_representable; lia|apply scaled_representable; lia|apply Z.mul_nonneg_nonneg; [lia|apply Z.lt_le_incl, unit_positive]|].
  rewrite unit_split, Z.mul_assoc. apply Z.mul_lt_mono_pos_r; [by apply spow_pos|lia].
Qed.
(** A quotient truncated to an integer: it stays away from the next one. *)
Lemma div_truncates x y lo hi ky n : bracketed x lo hi -> 0 < lo -> exactly y ky -> 0 < ky ->
  n * ky <= lo -> hi * 2 ^ 30 <= ((n + 1) * 2 ^ 30 - 1) * ky -> 0 <= n < 2 ^ 22 ->
  f64_to_i64 (f64_div x y) = n.
Proof.
  intros Hx Hlo0 Hy Hky Hlo Hhi Hn. apply bracketed_truncates; [|done]. destruct (truncation_brackets n Hn) as (H1 & H2 & H3 & H4).
  pose proof (bracketed_not_inf _ _ _ Hx) as Hix. pose proof (exactly_zero _ _ Hy) as Hz. rewrite (proj2 (Z.eqb_neq ky 0)) in Hz by lia.
  unfold f64_div. rewrite Hix, (exactly_not_inf _ _ Hy), Hz. destruct Hx as (-> & Hkx & _), Hy as (-> & -> & _). cbn [orb].
  rewrite (Z.sgn_pos ky), Z.mul_1_r, (Z.abs_eq ky) by lia.
  apply rounded_bracketed; [done|lia|done|done| |done|done].
  rewrite unit_split. assert (0 < spow 1044) as HV by (by apply spow_pos). revert HV. generalize (spow 1044).
  intros V HV. split; nia.
Qed.
(** A product of a double and an integer, truncated. *)
Lemma mul_truncates x kx e n : exactly x kx -> 0 < kx -> 0 < e < 2 ^ 53 ->
  n * f64_unit <= kx * e -> kx * e <= ((n + 1) * 2 ^ 30 - 1) * spow 1044 -> 0 <= n < 2 ^ 22 ->
  f64_to_i64 (f64_mul x (i64_as_f64 e)) = n.
Proof.
  intros Hx Hkx He Hlo Hhi Hn. apply bracketed_truncates; [|done]. destruct (truncation_brackets n Hn) as (H1 & H2 & H3 & H4).
  pose proof (of_i64_exactly e ltac:(lia)) as Hy. unfold f64_mul. rewrite (exactly_not_inf _ _ Hx), (exactly_not_inf _ _ Hy).
  destruct Hx as (-> & -> & _), Hy as (-> & -> & _). cbn [orb]. pose proof unit_positive as HU.
  apply rounded_bracketed; [done| |done|done| |done|done].
  - revert HU. generalize f64_unit. intros. nia.
  - rewrite unit_square. revert Hlo Hhi HU. generalize (n * f64_unit) (((n + 1) * 2 ^ 30 - 1) * spow 1044) f64_unit.
    intros lo hi U Hlo Hhi HU. assert (0 < U * U) by nia.
    replace (kx * (e * U) * U) with (kx * e * (U * U)) by lia. split; apply Z.mul_le_mono_nonneg_r; lia.
Qed.
