(* ===== verification/Date.v ===== *)
(** * Date and time functions

    [func/date.rs]: a date is a record whose julian day, calendar date and
    time of day are each valid or not; the conversions between them, the
    parser of time values, the modifiers, and the SQL functions with their
    formats. The parts of the record are in the state monad [DateM]. *)

From Stdlib Require Import Ascii.
From S2P Require Import Prelude Utf8 Float64 Value Str Fp FloatOps Aggregate VdbeOps Func Printf Registry Vfs Wal Pager Vdbe.
#[local] Open Scope Z_scope.

(** ** The record *)

Definition MAX_IJD_POS : Z := 464269060799999.
Definition MS_PER_DAY : Z := 86400000.
Definition UNIX_EPOCH_IJD : Z := 2108667600 * 100000.

(** [s] is a double. *)
Record DateTime := mkDateTime {
  i_jd : Z; dt_y : Z; dt_m : Z; dt_d : Z; dt_h : Z; dt_min : Z; dt_tz : Z; dt_s : Z;
  valid_jd : bool; valid_ymd : bool; valid_hms : bool; n_floor : Z;
  raw_s : bool; is_error : bool; use_subsec : bool; is_utc : bool; is_local : bool }.
Definition DateTime_default : DateTime :=
  mkDateTime 0 0 0 0 0 0 0 0 false false false 0 false false false false false.
Definition DateM := M DateTime.

Definition set_jd (jd : Z) (p : DateTime) : DateTime :=
  mkDateTime jd (dt_y p) (dt_m p) (dt_d p) (dt_h p) (dt_min p) (dt_tz p) (dt_s p) (valid_jd p) (valid_ymd p) (valid_hms p)
    (n_floor p) (raw_s p) (is_error p) (use_subsec p) (is_utc p) (is_local p).
Definition set_valid (jd ymd hms : bool) (p : DateTime) : DateTime :=
  mkDateTime (i_jd p) (dt_y p) (dt_m p) (dt_d p) (dt_h p) (dt_min p) (dt_tz p) (dt_s p) jd ymd hms
    (n_floor p) (raw_s p) (is_error p) (use_subsec p) (is_utc p) (is_local p).
Definition set_valid_jd (b : bool) (p : DateTime) : DateTime := set_valid b (valid_ymd p) (valid_hms p) p.
Definition set_valid_ymd (b : bool) (p : DateTime) : DateTime := set_valid (valid_jd p) b (valid_hms p) p.
Definition set_valid_hms (b : bool) (p : DateTime) : DateTime := set_valid (valid_jd p) (valid_ymd p) b p.
Definition set_ymd (y m d : Z) (p : DateTime) : DateTime :=
  mkDateTime (i_jd p) y m d (dt_h p) (dt_min p) (dt_tz p) (dt_s p) (valid_jd p) (valid_ymd p) (valid_hms p)
    (n_floor p) (raw_s p) (is_error p) (use_subsec p) (is_utc p) (is_local p).
Definition set_hms (h min s : Z) (p : DateTime) : DateTime :=
  mkDateTime (i_jd p) (dt_y p) (dt_m p) (dt_d p) h min (dt_tz p) s (valid_jd p) (valid_ymd p) (valid_hms p)
    (n_floor p) (raw_s p) (is_error p) (use_subsec p) (is_utc p) (is_local p).
Definition set_tz (tz : Z) (p : DateTime) : DateTime :=
  mkDateTime (i_jd p) (dt_y p) (dt_m p) (dt_d p) (dt_h p) (dt_min p) tz (dt_s p) (valid_jd p) (valid_ymd p) (valid_hms p)
    (n_floor p) (raw_s p) (is_error p) (use_subsec p) (is_utc p) (is_local p).
Definition set_floor (n : Z) (p : DateTime) : DateTime :=
  mkDateTime (i_jd p) (dt_y p) (dt_m p) (dt_d p) (dt_h p) (dt_min p) (dt_tz p) (dt_s p) (valid_jd p) (valid_ymd p) (valid_hms p)
    n (raw_s p) (is_error p) (use_subsec p) (is_utc p) (is_local p).
Definition set_raw (raw : bool) (p : DateTime) : DateTime :=
  mkDateTime (i_jd p) (dt_y p) (dt_m p) (dt_d p) (dt_h p) (dt_min p) (dt_tz p) (dt_s p) (valid_jd p) (valid_ymd p) (valid_hms p)
    (n_floor p) raw (is_error p) (use_subsec p) (is_utc p) (is_local p).
Definition set_subsec (b : bool) (p : DateTime) : DateTime :=
  mkDateTime (i_jd p) (dt_y p) (dt_m p) (dt_d p) (dt_h p) (dt_min p) (dt_tz p) (dt_s p) (valid_jd p) (valid_ymd p) (valid_hms p)
    (n_floor p) (raw_s p) (is_error p) b (is_utc p) (is_local p).
Definition set_zone (utc local : bool) (p : DateTime) : DateTime :=
  mkDateTime (i_jd p) (dt_y p) (dt_m p) (dt_d p) (dt_h p) (dt_min p) (dt_tz p) (dt_s p) (valid_jd p) (valid_ymd p) (valid_hms p)
    (n_floor p) (raw_s p) (is_error p) (use_subsec p) utc local.
Definition datetime_error : DateTime :=
  mkDateTime 0 0 0 0 0 0 0 0 false false false 0 false true false false false.
Definition clear_ymd_hms_tz (p : DateTime) : DateTime := set_tz 0 (set_valid (valid_jd p) false false p).

(** [*p = x]. *)
Definition become (x : DateTime) : DateM unit := Prelude.put x.
Definition bad {A} (msg : string) : DateM A := fail (Error_msg msg).
(** The run of a step whose failure the caller looks at ([is_ok]). *)
Definition succeeds (m : DateM unit) : DateM bool := fun p =>
  match m p with (Ok _, p) => (Ok true, p) | (Err _, p) => (Ok false, p) | (Panic, p) => (Panic, p) end.
(** The final record of a step that does not fail. *)
Definition final (m : DateM unit) (p : DateTime) : outcome DateTime :=
  match m p with (Ok _, p) => Ok p | (Err e, _) => Err e | (Panic, _) => Panic end.

(** ** Doubles *)

(** The literals of the source. *)
Definition lit (m e : Z) : Z := f64_of_decimal false m e.
Definition f0_5 : Z := Eval vm_compute in lit 5 (-1).
Definition f0_999 : Z := Eval vm_compute in lit 999 (-3).
Definition f10 : Z := Eval vm_compute in lit 10 0.
Definition f1000 : Z := Eval vm_compute in lit 1000 0.
Definition f1524_5 : Z := Eval vm_compute in lit 15245 (-1).
Definition f32044_75 : Z := Eval vm_compute in lit 3204475 (-2).
Definition f36524_25 : Z := Eval vm_compute in lit 3652425 (-2).
Definition f122_1 : Z := Eval vm_compute in lit 1221 (-1).
Definition f365_25 : Z := Eval vm_compute in lit 36525 (-2).
Definition f30_6001 : Z := Eval vm_compute in lit 306001 (-4).
Definition f59_999 : Z := Eval vm_compute in lit 59999 (-3).
(** [x as i32]. *)
Definition f64_to_i32 (x : Z) : Z := Z.max (- 2 ^ 31) (Z.min (2 ^ 31 - 1) (f64_to_i64 x)).
(** [(1000.0 * s + 0.5) as i64]. *)
Definition round_ms (s : Z) : Z := f64_to_i64 (f64_add (f64_mul s f1000) f0_5).

(** ** The calendar *)

(** The milliseconds up to the start of a day, [compute_jd]'s formula. *)
Definition jd_of_ymd (y m d : Z) : Z :=
  let '(y, m) := if m <=? 2 then (y - 1, m + 12) else (y, m) in
  let a := Z.quot (y + 4800) 100 in
  let b := 38 - a + Z.quot a 4 in
  let x1 := Z.quot (36525 * (y + 4716)) 100 in
  let x2 := Z.quot (306001 * (m + 1)) 10000 in
  let days := f64_add (f64_add (f64_add (i64_as_f64 x1) (i64_as_f64 x2)) (i64_as_f64 d)) (i64_as_f64 b) in
  f64_to_i64 (f64_mul (f64_sub days f1524_5) (i64_as_f64 MS_PER_DAY)).
Definition compute_jd : DateM unit :=
  p ← get;
  if valid_jd p then mret tt
  else
    let '(y, m, d) := if valid_ymd p then (dt_y p, dt_m p, dt_d p) else (2000, 1, 1) in
    if (y <? -4713) || (y >? 9999) || raw_s p then become datetime_error
    else
      let jd := jd_of_ymd y m d in
      if valid_hms p
      then
        t ← lift (chk_i64 (dt_h p * 3600000 + dt_min p * 60000 + round_ms (dt_s p)));
        jd ← lift (chk_i64 (jd + t));
        if dt_tz p =? 0 then become (set_valid_jd true (set_jd jd p))
        else
          jd ← lift (chk_i64 (jd - dt_tz p * 60000));
          become (set_zone true false (set_tz 0 (set_valid true false false (set_jd jd p))))
      else become (set_valid_jd true (set_jd jd p)).

(** How many days the date lies past the end of its month. *)
Definition floor_of (y m d : Z) : Z :=
  if d <=? 28 then 0
  else if negb (Z.land (Z.shiftl 1 m) 0x15aa =? 0) then 0
  else if negb (m =? 2) then (if d =? 31 then 1 else 0)
  else if negb (Z.rem y 4 =? 0) || ((Z.rem y 100 =? 0) && negb (Z.rem y 400 =? 0)) then d - 28
  else d - 29.
Definition compute_floor : DateM unit :=
  p ← get;
  if negb (valid_ymd p || is_error p) || negb ((0 <=? dt_d p) && (dt_d p <=? 31)) || negb ((0 <=? dt_m p) && (dt_m p <=? 12))
  then lift Panic (* debug_assert! *)
  else become (set_floor (floor_of (dt_y p) (dt_m p) (dt_d p)) p).

Definition valid_julian_day (jd : Z) : bool := (0 <=? jd) && (jd <=? MAX_IJD_POS).
(** The calendar date of a julian day, [compute_ymd]'s formula. *)
Definition ymd_of_jd (jd : Z) : Z * Z * Z :=
  let z := Z.quot (jd + 43200000) MS_PER_DAY in
  let alpha := f64_to_i64 (f64_div (f64_add (i64_as_f64 z) f32044_75) f36524_25) - 52 in
  let a := z + 1 + alpha - Z.quot (alpha + 100) 4 + 25 in
  let b := a + 1524 in
  let c := f64_to_i64 (f64_div (f64_sub (i64_as_f64 b) f122_1) f365_25) in
  let d := Z.quot (36525 * Z.land c 32767) 100 in
  let e := f64_to_i64 (f64_div (i64_as_f64 (b - d)) f30_6001) in
  let x1 := f64_to_i64 (f64_mul f30_6001 (i64_as_f64 e)) in
  let m := if e <? 14 then e - 1 else e - 13 in
  (if m >? 2 then c - 4716 else c - 4715, m, b - d - x1).
Definition compute_ymd : DateM unit :=
  p ← get;
  if valid_ymd p then mret tt
  else if negb (valid_jd p) then become (set_valid_ymd true (set_ymd 2000 1 1 p))
  else if negb (valid_julian_day (i_jd p)) then become datetime_error
  else let '(y, m, d) := ymd_of_jd (i_jd p) in become (set_valid_ymd true (set_ymd y m d p)).
Definition compute_hms : DateM unit :=
  p ← get;
  if valid_hms p then mret tt
  else
    compute_jd ;;
    p ← get;
    t ← lift (chk_i64 (i_jd p + 43200000));
    let day_ms := Z.rem t MS_PER_DAY in
    let day_min := Z.quot day_ms 60000 in
    become (set_valid_hms true (set_raw false
      (set_hms (Z.quot day_min 60) (Z.rem day_min 60) (f64_div (i64_as_f64 (Z.rem day_ms 60000)) f1000) p))).
Definition compute_ymd_hms : DateM unit := compute_ymd ;; compute_hms.

(** ** Parsing *)

Definition MAX_M : list Z := [12; 14; 24; 31; 59; 9999].
(** [fmt] is a list of groups: a number of digits, the least value, a letter
    for the greatest, and the separator of the next group. The result is the
    values read, and what follows. *)
Definition digits_group (ndig lo hi : Z) (s : bytes) : option Z :=
  let ds := ztake ndig s in
  let x := digits_value ds in
  if (zlen s <? ndig) || negb (forallb is_digit ds) || (x <? lo) || (x >? default 0 (zget MAX_M hi)) then None else Some x.
Fixpoint get_digits (fmt s : bytes) : list Z * bytes :=
  match fmt with
  | n :: lo :: hi :: rest =>
      match digits_group (n - 48) (lo - 48) (hi - 97) s with
      | None => ([], s)
      | Some x =>
          let s := zdrop (n - 48) s in
          match rest with
          | sep :: rest =>
              match s with
              | c :: t => if c =? sep then let '(xs, s) := get_digits rest t in (x :: xs, s) else ([x], s)
              | [] => ([x], s)
              end
          | [] => ([x], s)
          end
      end
  | _ => ([], s)
  end.
Definition skip_ws (s : bytes) : bytes := snd (span is_ascii_whitespace s).
(** [str::trim] and [trim_start] drop the characters with the property
    White_Space. *)
Definition is_whitespace (c : Z) : bool :=
  ((9 <=? c) && (c <=? 13)) || (c =? 32) || (c =? 0x85) || (c =? 0xA0) || (c =? 0x1680)
  || ((0x2000 <=? c) && (c <=? 0x200A)) || (c =? 0x2028) || (c =? 0x2029) || (c =? 0x202F) || (c =? 0x205F) || (c =? 0x3000).
Definition drop_ws (cs : list Z) : list Z := snd (span is_whitespace cs).
Definition trim_start (s : bytes) : bytes := of_chars (drop_ws (chars s)).
Definition trim (s : bytes) : bytes := of_chars (reverse (drop_ws (reverse (drop_ws (chars s))))).
Definition is_empty (s : bytes) : bool := match s with [] => true | _ => false end.
Definition first_is (c : Z) (s : bytes) : bool := match s with b :: _ => b =? c | [] => false end.

Definition timezone_sign (neg : bool) (s : bytes) : DateM unit :=
  match get_digits (bytes_of "20b:20e") s with
  | ([h; m], rest) =>
      let tz := (if neg then -1 else 1) * (m + h * 60) in
      modify (fun p => let p := set_tz tz p in if tz =? 0 then set_zone true false p else p) ;;
      if is_empty (skip_ws rest) then mret tt else bad "trailing chars after timezone"
  | _ => bad "bad timezone"
  end.
Definition parse_timezone (s : bytes) : DateM unit :=
  match skip_ws s with
  | [] => modify (set_tz 0)
  | c :: rest =>
      if c =? 45 then timezone_sign true rest
      else if c =? 43 then timezone_sign false rest
      else if (c =? 90) || (c =? 122)
      then modify (set_zone true false) ;; if is_empty (skip_ws rest) then mret tt else bad "bad timezone"
      else bad "not a timezone"
  end.
(** The digits after the point of the seconds: their value and their scale. *)
Definition fraction_step (x : Z * Z) (d : Z) : Z * Z :=
  (f64_add (f64_mul (fst x) f10) (i64_as_f64 (d - 48)), f64_mul (snd x) f10).
Definition fraction (ds : bytes) : Z :=
  let '(ms, scale) := fold_left fraction_step ds (0, f64_one) in
  let ms := f64_div ms scale in
  if f64_gt ms f0_999 then f0_999 else ms.
(** The seconds, when a colon follows the minutes; the rest. *)
Definition parse_seconds (s : bytes) : option (Z * bytes) :=
  if first_is 58 s
  then
    match get_digits (bytes_of "20e") (zdrop 1 s) with
    | ([sec], rest) =>
        match rest with
        | 46 :: ((d :: _) as frac) =>
            if is_digit d then let '(ds, rest) := span is_digit frac in Some (f64_add (i64_as_f64 sec) (fraction ds), rest)
            else Some (i64_as_f64 sec, rest)
        | _ => Some (i64_as_f64 sec, rest)
        end
    | _ => None
    end
  else Some (0, s).
(** A time zone that is none is as good as none. *)
Definition optional_timezone (s : bytes) : DateM unit := fun p =>
  match parse_timezone s p with
  | (Err e, p) => if bool_decide (message e = "not a timezone"%string) then (Ok tt, set_tz 0 p) else (Err e, p)
  | r => r
  end.
Definition parse_hhmmss (s : bytes) : DateM unit :=
  match get_digits (bytes_of "20c:20e") s with
  | ([h; m], rest) =>
      match parse_seconds rest with
      | None => bad "bad seconds"
      | Some (sec, rest) =>
          modify (fun p => set_raw false (set_hms h m sec (set_valid false (valid_ymd p) true p))) ;;
          optional_timezone rest
      end
  | _ => bad "bad HH:MM"
  end.
Definition parse_yyyy_mm_dd (s : bytes) : DateM unit :=
  let neg := first_is 45 s in
  match get_digits (bytes_of "40f-21a-21d") (if neg then zdrop 1 s else s) with
  | ([y; m; d], rest) =>
      let rest := snd (span (fun c => is_ascii_whitespace c || (c =? 84)) rest) in
      timed ← succeeds (parse_hhmmss rest);
      (if timed : bool then mret tt
       else if is_empty rest then modify (set_valid_hms false)
       else bad "bad time after date") ;;
      modify (fun p => set_ymd (if neg then - y else y) m d (set_valid false true (valid_hms p) p)) ;;
      compute_floor ;;
      p ← get;
      if dt_tz p =? 0 then mret tt else compute_jd
  | _ => bad "bad YYYY-MM-DD"
  end.

Definition f_jd_limit : Z := Eval vm_compute in lit 53734845 (-1).
Definition set_raw_date_number (r : Z) : DateM unit :=
  modify (fun p =>
    let p := set_raw true (set_hms (dt_h p) (dt_min p) r p) in
    if f64_ge r 0 && f64_lt r f_jd_limit
    then set_valid_jd true (set_jd (f64_to_i64 (f64_add (f64_mul r (i64_as_f64 MS_PER_DAY)) f0_5)) p) else p).
Definition f_auto_min : Z := Eval vm_compute in i64_as_f64 (-210866760000).
Definition f_auto_max : Z := Eval vm_compute in i64_as_f64 25340230799.
(** Seconds since 1970 as a julian day, in doubles. *)
Definition epoch_ms (s : Z) : Z := f64_add (f64_mul s f1000) (i64_as_f64 UNIX_EPOCH_IJD).
Definition install_jd (r : Z) (p : DateTime) : DateTime :=
  set_raw false (set_valid_jd true (set_jd (f64_to_i64 (f64_add r f0_5)) (clear_ymd_hms_tz p))).
Definition auto_adjust_date : DateM unit :=
  modify (fun p =>
    if negb (raw_s p) || valid_jd p then set_raw false p
    else if f64_ge (dt_s p) f_auto_min && f64_le (dt_s p) f_auto_max then install_jd (epoch_ms (dt_s p)) p
    else p).

(** The current time, for [now] and the like. *)
Definition install_now (ctx : DateCtx) : DateM unit :=
  modify (set_jd (now_jd ctx)) ;;
  if now_jd ctx >? 0 then modify (fun p => clear_ymd_hms_tz (set_zone true false (set_valid_jd true p)))
  else bad "no current time".
Definition runtime_context (now : option DateCtx) : DateM DateCtx :=
  lift (ok_or now (Error_msg "date functions need a runtime context")).
Definition parse_date_or_time (s : bytes) (now : option DateCtx) : DateM unit :=
  dated ← succeeds (parse_yyyy_mm_dd s);
  if dated : bool then mret tt
  else
    become DateTime_default ;;
    timed ← succeeds (parse_hhmmss s);
    if timed : bool then mret tt
    else
      become DateTime_default ;;
      let lower := to_ascii_lowercase s in
      if bool_decide (lower = bytes_of "now") then ctx ← runtime_context now; install_now ctx
      else
        match numeric_prefix s with
        | (Some x, true) => set_raw_date_number (as_f64 x)
        | _ =>
            if bool_decide (lower = bytes_of "subsec") || bool_decide (lower = bytes_of "subsecond")
            then ctx ← runtime_context now; modify (set_subsec true) ;; install_now ctx
            else bad "bad date/time"
        end.

(** ** Modifiers *)

(** [aXformType]: a unit, the limit of its number, its seconds. *)
Record Xform := mkXform { xf_name : string; xf_limit : Z; xf_xform : Z }.
Definition f_second : Z := Eval vm_compute in lit 46427 10.
Definition f_minute : Z := Eval vm_compute in lit 77379 8.
Definition f_hour : Z := Eval vm_compute in lit 12897 7.
Definition f_day : Z := Eval vm_compute in lit 5373485 0.
Definition f_month : Z := Eval vm_compute in lit 176546 0.
Definition f_year : Z := Eval vm_compute in lit 14713 0.
Definition f60 : Z := Eval vm_compute in lit 60 0.
Definition f3600 : Z := Eval vm_compute in lit 3600 0.
Definition f86400 : Z := Eval vm_compute in lit 86400 0.
Definition f2592000 : Z := Eval vm_compute in lit 2592000 0.
Definition f31536000 : Z := Eval vm_compute in lit 31536000 0.
Definition A_XFORM : list Xform :=
  [mkXform "second" f_second f64_one; mkXform "minute" f_minute f60; mkXform "hour" f_hour f3600;
   mkXform "day" f_day f86400; mkXform "month" f_month f2592000; mkXform "year" f_year f31536000].

Definition add_ms (k : Z) : DateM unit := p ← get; jd ← lift (chk_i64 (i_jd p + k)); become (set_jd jd p).
(** A month outside 1..12 moves the year. *)
Definition normalize_month : DateM unit :=
  modify (fun p =>
    let x := if dt_m p >? 0 then Z.quot (dt_m p - 1) 12 else Z.quot (dt_m p - 12) 12 in
    set_ymd (dt_y p + x) (dt_m p - x * 12) (dt_d p) p).
Definition shift_ym (years months : Z) : DateM unit :=
  p ← get;
  y ← lift (chk_i32 (dt_y p + years)); m ← lift (chk_i32 (dt_m p + months));
  become (set_ymd y m (dt_d p) p).
(** The part of [r] units after the whole ones of a month or year. *)
Definition scaled (r xform : Z) : Z :=
  let rounder := if f64_lt r 0 then f64_opp f0_5 else f0_5 in
  f64_to_i64 (f64_add (f64_mul (f64_mul r f1000) xform) rounder).
Definition rest_of_unit (r xform : Z) : Z :=
  let rounder := if f64_lt r 0 then f64_opp f0_5 else f0_5 in
  let r2 := f64_sub r (i64_as_f64 (f64_to_i32 r)) in
  f64_to_i64 (f64_add (f64_mul (f64_mul r2 f1000) xform) rounder).
Definition add_units (xf : Xform) (r : Z) : DateM unit :=
  (if bool_decide (xf_name xf = "month"%string)
   then
     compute_ymd_hms ;;
     shift_ym 0 (f64_to_i32 r) ;;
     normalize_month ;;
     compute_floor ;; modify (set_valid_jd false) ;; compute_jd ;;
     add_ms (rest_of_unit r (xf_xform xf))
   else if bool_decide (xf_name xf = "year"%string)
   then
     compute_ymd_hms ;;
     shift_ym (f64_to_i32 r) 0 ;;
     compute_floor ;; modify (set_valid_jd false) ;; compute_jd ;;
     add_ms (rest_of_unit r (xf_xform xf))
   else compute_jd ;; add_ms (scaled r (xf_xform xf))) ;;
  modify clear_ymd_hms_tz.
Definition find_unit (name : bytes) (r : Z) : option Xform :=
  List.find (fun xf =>
    (zlen (bytes_of (xf_name xf)) =? zlen name) && eq_ignore_ascii_case name (bytes_of (xf_name xf))
    && f64_gt r (f64_opp (xf_limit xf)) && f64_lt r (xf_limit xf)) A_XFORM.
Definition unit_name (s : bytes) : option bytes :=
  let len := zlen s in
  if (len <? 3) || (len >? 10) then None
  else if bool_decide (zget s (len - 1) = Some 115) then Some (ztake (len - 1) s) else Some s.

(** [±YYYY-MM-DD], then a time: the text from byte 12 on. *)
Definition apply_year_month_day_modifier (z0 y m d : Z) (s_full : bytes) : DateM unit :=
  if 12 <=? m then bad "bad month in ±YYYY-MM-DD modifier"
  else if 31 <=? d then bad "bad day in ±YYYY-MM-DD modifier"
  else
    compute_ymd_hms ;;
    modify (set_valid_jd false) ;;
    (if z0 =? 45 then shift_ym (- y) (- m) else shift_ym y m) ;;
    let d_eff := if z0 =? 45 then - d else d in
    normalize_month ;;
    compute_floor ;; compute_jd ;;
    modify (fun p => set_valid (valid_jd p) false false p) ;;
    add_ms (d_eff * MS_PER_DAY) ;;
    after ← lift (str_from s_full 12);
    let after := trim_start after in
    if is_empty after then mret tt
    else if 5 <=? zlen after
    then
      match get_digits (bytes_of "20c:20e") after with
      | ([h; m], _) => add_ms (h * 3600000 + m * 60000)
      | _ => bad "bad HH:MM in ±YYYY-MM-DD modifier"
      end
    else bad "bad HH:MM in ±YYYY-MM-DD modifier".
(** Where the leading number ends: at a colon, a space or a hyphen, which may
    belong to a date of four or five digits. *)
Fixpoint number_end (n : Z) (rest : bytes) : Z :=
  match rest with
  | [] => n
  | c :: rest => if (c =? 58) || is_ascii_whitespace c || (c =? 45) then n else number_end (n + 1) rest
  end.
Definition date_modifier (n : Z) (s : bytes) : option (Z * Z * Z) :=
  let fmt := if n =? 5 then bytes_of "40f-20a-20d" else if n =? 6 then bytes_of "50f-20a-20d" else [] in
  match fst (get_digits fmt (zdrop 1 s)) with [y; m; d] => Some (y, m, d) | _ => None end.
(** [±HH:MM:SS]: the time of day as an amount. *)
Definition time_modifier (z0 : Z) (s : bytes) : DateM unit :=
  match parse_hhmmss (if is_digit z0 then s else zdrop 1 s) DateTime_default with
  | (Err e, _) => fail e
  | (Panic, _) => lift Panic
  | (Ok _, tx) =>
      tx ← lift (final compute_jd tx);
      t ← lift (chk_i64 (i_jd tx - 43200000));
      let t := t - Z.quot t MS_PER_DAY * MS_PER_DAY in
      let t := if z0 =? 45 then - t else t in
      compute_jd ;; modify clear_ymd_hms_tz ;; add_ms t
  end.
Definition parse_numeric_modifier (s : bytes) : DateM unit :=
  z0 ← lift (idx s 0);
  let n := number_end 1 (zdrop 1 s) in
  let at_n := zget s n in
  match (if bool_decide (at_n = Some 45) then date_modifier n s else None) with
  | Some (y, m, d) => apply_year_month_day_modifier z0 y m d s
  | None =>
      num ← lift (str_to s n);
      match fst (numeric_prefix num) with
      | None => bad "bad numeric modifier"
      | Some x =>
          let r := as_f64 x in
          if bool_decide (at_n = Some 45) then bad "bad ±YYYY-MM-DD modifier"
          else if bool_decide (at_n = Some 58) then time_modifier z0 s
          else
            match unit_name (skip_ws (zdrop n s)) with
            | None => bad "bad unit length"
            | Some name =>
                compute_jd ;;
                modify (set_floor 0) ;;
                match find_unit name r with
                | Some xf => add_units xf r
                | None => bad "unknown unit"
                end
            end
      end
  end.

(** The arms of [parse_modifier], by the first letter; an arm that does not
    apply falls through to the error. *)
Definition unrecognized : DateM unit := bad "unrecognized modifier".
Definition named (s : bytes) (name : string) : bool := eq_ignore_ascii_case s (bytes_of name).
Definition weekday_number (rest : bytes) : option Z :=
  match numeric_prefix rest with
  | (Some x, true) =>
      let r := as_f64 x in
      if f64_ge r 0 && f64_lt r (i64_as_f64 7) && f64_eq (i64_as_f64 (f64_to_i64 r)) r then Some (f64_to_i64 r) else None
  | _ => None
  end.
Definition weekday_modifier (n : Z) : DateM unit :=
  compute_ymd_hms ;;
  modify (fun p => set_valid_jd false (set_tz 0 p)) ;;
  compute_jd ;;
  p ← get;
  t ← lift (chk_i64 (i_jd p + 129600000));
  let z := Z.rem (Z.quot t MS_PER_DAY) 7 in
  let z := if z >? n then z - 7 else z in
  add_ms ((n - z) * MS_PER_DAY) ;;
  modify clear_ymd_hms_tz.
Definition start_of_modifier (rest : bytes) : DateM unit :=
  p ← get;
  if negb (valid_jd p) && negb (valid_ymd p) && negb (valid_hms p) then bad "start of on empty date"
  else
    compute_ymd ;;
    modify (fun p => set_tz 0 (set_raw false (set_hms 0 0 0 (set_valid false (valid_ymd p) true p)))) ;;
    if named rest "month" then modify (fun p => set_ymd (dt_y p) (dt_m p) 1 p)
    else if named rest "year" then modify (fun p => set_ymd (dt_y p) 1 1 p)
    else if named rest "day" then mret tt
    else bad "bad start of".
Definition f_epoch_limit : Z := Eval vm_compute in i64_as_f64 464269060800000.
Definition unixepoch_modifier (idx : Z) : DateM unit :=
  if idx >? 1 then bad "unixepoch out of place"
  else
    p ← get;
    let r := epoch_ms (dt_s p) in
    if f64_ge r 0 && f64_lt r f_epoch_limit then become (install_jd r p) else unrecognized.
Definition parse_modifier (s : bytes) (idx : Z) : DateM unit :=
  let s := trim s in
  match s with
  | [] => bad "empty modifier"
  | c :: _ =>
      p ← get;
      let first := if (65 <=? c) && (c <=? 90) then c + 32 else c in
      if (first =? 97) && named s "auto"
      then if idx >? 1 then bad "auto out of place" else auto_adjust_date
      else if (first =? 99) && named s "ceiling"
      then compute_jd ;; modify (fun p => set_floor 0 (clear_ymd_hms_tz p))
      else if (first =? 102) && named s "floor"
      then
        compute_jd ;;
        p ← get;
        add_ms (- (n_floor p * MS_PER_DAY)) ;;
        modify clear_ymd_hms_tz
      else if (first =? 106) && named s "julianday"
      then
        if idx >? 1 then bad "julianday out of place"
        else if valid_jd p && raw_s p then modify (set_raw false) else unrecognized
      else if (first =? 108) && named s "localtime"
      then compute_jd ;; modify (set_zone false true)
      else if first =? 117
      then
        if named s "unixepoch" && raw_s p then unixepoch_modifier idx
        else if named s "utc"
        then (if is_utc p then mret tt else compute_jd) ;; modify (set_zone true false)
        else unrecognized
      else if first =? 119
      then
        if starts_with (bytes_of "weekday ") s
        then match weekday_number (trim (zdrop 8 s)) with Some n => weekday_modifier n | None => unrecognized end
        else unrecognized
      else if first =? 115
      then
        if starts_with (bytes_of "start of ") s then start_of_modifier (trim (zdrop 9 s))
        else if named s "subsec" || named s "subsecond" then modify (set_subsec true)
        else unrecognized
      else if (first =? 43) || (first =? 45) || is_digit first then parse_numeric_modifier s
      else unrecognized
  end.

(** ** Time values *)

Fixpoint modifiers (i : Z) (args : list Value) : DateM unit :=
  match args with
  | [] => mret tt
  | x :: args =>
      t ← lift (to_text x);
      match t with
      | None => bad "NULL modifier"
      | Some s => parse_modifier s i ;; modifiers (i + 1) args
      end
  end.
Definition time_value (x : Value) (now : option DateCtx) : DateM unit :=
  match x with
  | Int _ | Real _ => set_raw_date_number (as_f64 x)
  | _ => t ← lift (to_text x); match t with None => bad "NULL date" | Some s => parse_date_or_time s now end
  end.
Definition is_date (args : list Value) (now : option DateCtx) : DateM unit :=
  become DateTime_default ;;
  match args with
  | [] => ctx ← lift (ok_or now (Error_msg "no 'now' context")); install_now ctx
  | x :: mods =>
      time_value x now ;;
      modifiers 1 mods ;;
      compute_jd ;;
      p ← get;
      if is_error p || negb (valid_julian_day (i_jd p)) then bad "bad date/time"
      else if bool_decide (mods = []) && valid_ymd p && (dt_d p >? 28) then modify (set_valid_ymd false)
      else mret tt
  end.
(** The value of a date, NULL when it is none. *)
Definition with_date (args : list Value) (now : option DateCtx) (f : DateTime -> outcome Value) : outcome Value :=
  match is_date args now DateTime_default with
  | (Ok _, x) => f x
  | (Err _, _) => Ok Null
  | (Panic, _) => Panic
  end.

(** ** Rendering *)

(** [{:0w}] and [{:w}] of an integer. *)
Definition zero_padded (w n : Z) : bytes :=
  if n <? 0 then 45 :: pad_left (w - 1) (decimal (- n)) else pad_left w (decimal n).
Definition space_padded (w n : Z) : bytes := let s := i64_to_string n in zrep (w - zlen s) 32 ++ s.
(** [{:06.3}] of a double: only digits are padded with zeros. *)
Definition seconds_text (f : Z) : bytes :=
  let s := rust_fixed 3 f in
  if f64_is_nan f || f64_is_inf f then zrep (6 - zlen s) 32 ++ s
  else if f64_neg f then 45 :: pad_left 5 (zdrop 1 s) else pad_left 6 s.
Definition date_text (sep : Z) (y m d : Z) : bytes := zero_padded 4 y ++ [sep] ++ zero_padded 2 m ++ [sep] ++ zero_padded 2 d.
Definition year_sign (y : Z) : bytes := if y <? 0 then [45] else [].
Definition ymd_text (x : DateTime) : bytes := year_sign (dt_y x) ++ date_text 45 (Z.abs (dt_y x)) (dt_m x) (dt_d x).
Definition hms_text (x : DateTime) : bytes :=
  let hm := zero_padded 2 (dt_h x) ++ [58] ++ zero_padded 2 (dt_min x) ++ [58] in
  if use_subsec x
  then let si := round_ms (dt_s x) in hm ++ zero_padded 2 (Z.quot si 1000) ++ [46] ++ zero_padded 3 (Z.rem si 1000)
  else hm ++ zero_padded 2 (f64_to_i64 (dt_s x)).
Definition date_fn (args : list Value) (now : option DateCtx) : outcome Value :=
  with_date args now (fun x => x ← final compute_ymd x; Ok (Text (ymd_text x))).
Definition time_fn (args : list Value) (now : option DateCtx) : outcome Value :=
  with_date args now (fun x => x ← final compute_hms x; Ok (Text (hms_text x))).
Definition datetime_fn (args : list Value) (now : option DateCtx) : outcome Value :=
  with_date args now (fun x => x ← final compute_ymd_hms x; Ok (Text (ymd_text x ++ [32] ++ hms_text x))).
Definition julianday_fn (args : list Value) (now : option DateCtx) : outcome Value :=
  with_date args now (fun x => x ← final compute_jd x; Ok (Real (f64_div (i64_as_f64 (i_jd x)) (i64_as_f64 MS_PER_DAY)))).
Definition unixepoch_fn (args : list Value) (now : option DateCtx) : outcome Value :=
  with_date args now (fun x =>
    x ← final compute_jd x;
    Ok (if use_subsec x then Real (f64_div (i64_as_f64 (i_jd x - UNIX_EPOCH_IJD)) f1000)
        else Int (Z.quot (i_jd x) 1000 - Z.quot UNIX_EPOCH_IJD 1000))).

(** The difference of two dates: years and months first, by moving the second
    date, then the days and the time of day as a date after -4712-12-31. *)
Definition move_to (y m : Z) (d2 : DateTime) : outcome DateTime :=
  final compute_jd (set_valid_jd false (set_ymd y m (dt_d d2) d2)).
Definition move_if (c : bool) (y m : Z) (d2 : DateTime) : outcome DateTime := if c then move_to y m d2 else Ok d2.
(** [while d1 < d2 { .. }], and with [back] false the loop for [d1 > d2]. *)
Fixpoint diff_loop (fuel : nat) (back : bool) (jd y m : Z) (d2 : DateTime) : outcome (Z * Z * DateTime) :=
  if (if back then jd <? i_jd d2 else jd >? i_jd d2)
  then
    match fuel with
    | O => Panic
    | S fuel =>
        let '(y, m) := if m - 1 <? 0 then (y - 1, 11) else (y, m - 1) in
        let '(y2, m2) :=
          if back then (if dt_m d2 - 1 <? 1 then (dt_y d2 - 1, 12) else (dt_y d2, dt_m d2 - 1))
          else (if dt_m d2 + 1 >? 12 then (dt_y d2 + 1, 1) else (dt_y d2, dt_m d2 + 1)) in
        d2 ← move_to y2 m2 d2;
        diff_loop fuel back jd y m d2
    end
  else Ok (y, m, d2).
(** After the second date is in the month of the first, at most two months
    make up for its day. *)
Definition DIFF_FUEL : nat := 16.
Definition timediff (d1 d2 : DateTime) : outcome bytes :=
  let back := i_jd d2 <=? i_jd d1 in
  let y := if back then dt_y d1 - dt_y d2 else dt_y d2 - dt_y d1 in
  d2 ← move_if (negb (y =? 0)) (dt_y d1) (dt_m d2) d2;
  let m := if back then dt_m d1 - dt_m d2 else dt_m d2 - dt_m d1 in
  let '(y, m) := if m <? 0 then (y - 1, m + 12) else (y, m) in
  d2 ← move_if (negb (m =? 0)) (dt_y d2) (dt_m d1) d2;
  '(y, m, d2) ← diff_loop DIFF_FUEL back (i_jd d1) y m d2;
  let jd := if back then i_jd d1 - i_jd d2 else i_jd d2 - i_jd d1 in
  d1 ← final compute_ymd_hms (clear_ymd_hms_tz (set_jd (jd + 1486995408 * 100000) d1));
  Ok ([if back then 43 else 45] ++ zero_padded 4 y ++ [45] ++ zero_padded 2 m ++ [45] ++ zero_padded 2 (dt_d d1 - 1) ++ [32]
      ++ zero_padded 2 (dt_h d1) ++ [58] ++ zero_padded 2 (dt_min d1) ++ [58] ++ seconds_text (dt_s d1)).
Definition timediff_fn (args : list Value) (now : option DateCtx) : outcome Value :=
  match args with
  | [x1; x2] =>
      with_date [x1] now (fun d1 => with_date [x2] now (fun d2 =>
        d1 ← final compute_ymd_hms d1; d2 ← final compute_ymd_hms d2; t ← timediff d1 d2; Ok (Text t)))
  | _ => Ok Null
  end.

(** *** [strftime] *)

Definition days_after_sunday (p : DateTime) : outcome Z := t ← chk_i64 (i_jd p + 129600000); Ok (Z.rem (Z.quot t MS_PER_DAY) 7).
Definition days_after_monday (p : DateTime) : outcome Z := t ← chk_i64 (i_jd p + 43200000); Ok (Z.rem (Z.quot t MS_PER_DAY) 7).
Definition days_after_jan01 (p : DateTime) : outcome Z :=
  if negb (valid_ymd p && valid_hms p && valid_jd p) then Panic (* debug_assert! *)
  else
    jan01 ← final compute_jd (set_valid_jd false (set_ymd (dt_y p) 1 1 p));
    t ← chk_i64 (i_jd p - i_jd jan01 + 43200000); Ok (Z.quot t MS_PER_DAY).
(** The Thursday of the same ISO week. *)
Definition iso_thursday (x : DateTime) : outcome DateTime :=
  k ← days_after_monday x;
  jd ← chk_i64 (i_jd x + (3 - k) * MS_PER_DAY);
  final compute_ymd (set_valid_ymd false (set_jd jd x)).
Definition hour12 (h : Z) : Z := let h := if h >? 12 then h - 12 else h in if h =? 0 then 12 else h.
Definition weekday_digit (x : DateTime) (sunday : Z) : outcome bytes :=
  k ← days_after_sunday x; let c := u8 k + 48 in Ok [if c =? 48 then sunday else c].
(** What a specifier stands for; [None] when there is none of that letter. *)
Definition directive (x : DateTime) (c : Z) : outcome (option bytes) :=
  let hm := zero_padded 2 (dt_h x) ++ [58] ++ zero_padded 2 (dt_min x) in
  let some (t : bytes) := Ok (Some t) in
  match Ascii.ascii_of_N (Z.to_N c) with
  | "d"%char => some (zero_padded 2 (dt_d x))
  | "e"%char => some (space_padded 2 (dt_d x))
  | "f"%char => some (seconds_text (if f64_gt (dt_s x) f59_999 then f59_999 else dt_s x))
  | "F"%char => some (date_text 45 (dt_y x) (dt_m x) (dt_d x))
  | "G"%char => y ← iso_thursday x; some (zero_padded 4 (dt_y y))
  | "g"%char => y ← iso_thursday x; some (zero_padded 2 (Z.rem (dt_y y) 100))
  | "H"%char => some (zero_padded 2 (dt_h x))
  | "k"%char => some (space_padded 2 (dt_h x))
  | "I"%char => some (zero_padded 2 (hour12 (dt_h x)))
  | "l"%char => some (space_padded 2 (hour12 (dt_h x)))
  | "j"%char => k ← days_after_jan01 x; some (zero_padded 3 (k + 1))
  | "J"%char => some (rust_fixed 16 (f64_div (i64_as_f64 (i_jd x)) (i64_as_f64 MS_PER_DAY)))
  | "m"%char => some (zero_padded 2 (dt_m x))
  | "M"%char => some (zero_padded 2 (dt_min x))
  | "p"%char => some (bytes_of (if dt_h x >=? 12 then "PM" else "AM"))
  | "P"%char => some (bytes_of (if dt_h x >=? 12 then "pm" else "am"))
  | "R"%char => some hm
  | "s"%char =>
      some (if use_subsec x then rust_fixed 3 (f64_div (i64_as_f64 (i_jd x - UNIX_EPOCH_IJD)) f1000)
            else i64_to_string (Z.quot (i_jd x) 1000 - Z.quot UNIX_EPOCH_IJD 1000))
  | "S"%char => some (zero_padded 2 (f64_to_i64 (dt_s x)))
  | "T"%char => some (hm ++ [58] ++ zero_padded 2 (f64_to_i64 (dt_s x)))
  | "u"%char => t ← weekday_digit x 55; some t
  | "w"%char => t ← weekday_digit x 48; some t
  | "U"%char => j ← days_after_jan01 x; k ← days_after_sunday x; some (zero_padded 2 (Z.quot (j - k + 7) 7))
  | "V"%char => y ← iso_thursday x; j ← days_after_jan01 y; some (zero_padded 2 (Z.quot j 7 + 1))
  | "W"%char => j ← days_after_jan01 x; k ← days_after_monday x; some (zero_padded 2 (Z.quot (j - k + 7) 7))
  | "Y"%char => some (zero_padded 4 (dt_y x))
  | "%"%char => some [37]
  | _ => Ok None
  end.
(** A byte of the format is pushed as a character. *)
Fixpoint strftime_loop (x : DateTime) (fmt out : bytes) : outcome (option bytes) :=
  match fmt with
  | [] => Ok (Some out)
  | b :: rest =>
      if negb (b =? 37) then strftime_loop x rest (out ++ encode_char b)
      else
        match rest with
        | [] => Ok None
        | c :: rest =>
            t ← directive x c;
            match t with Some t => strftime_loop x rest (out ++ t) | None => Ok None end
        end
  end.
Definition strftime_fn (args : list Value) (now : option DateCtx) : outcome Value :=
  match args with
  | [] => Ok Null
  | f :: args =>
      fmt ← to_text f;
      match fmt with
      | None => Ok Null
      | Some fmt =>
          with_date args now (fun x =>
            x ← final (compute_jd ;; compute_ymd_hms) x;
            t ← strftime_loop x fmt [];
            Ok (match t with Some t => Text t | None => Null end))
      end
  end.
Definition current_date_fn (now : option DateCtx) : outcome Value := date_fn [] now.
Definition current_time_fn (now : option DateCtx) : outcome Value := time_fn [] now.
Definition current_timestamp_fn (now : option DateCtx) : outcome Value := datetime_fn [] now.

(** ** The functions of the virtual machine *)

Definition call_date_fn (f : DateFn) (args : list Value) (now : option DateCtx) : outcome Value :=
  match f with
  | DF_Date => date_fn args now
  | DF_Time => time_fn args now
  | DF_Datetime => datetime_fn args now
  | DF_Julianday => julianday_fn args now
  | DF_Unixepoch => unixepoch_fn args now
  | DF_Strftime => strftime_fn args now
  | DF_Timediff => timediff_fn args now
  end.
#[export] Instance sql_functions `{Libm} : SqlFunctions := {
  Vdbe.call_scalar := Registry.call_scalar;
  Vdbe.call_date := call_date_fn }.
