(* ===== verification/Calls.v ===== *)
(** * Checked calls

    The code generator checks the name and the number of arguments of a call
    ([Registry.check]); the machine looks the name up among the functions it
    evaluates itself and leaves the others to [call_scalar]. The two tables are
    kept apart in the source: here they are compared. *)

From S2P Require Import Prelude Utf8 Value Str Aggregate VdbeOps Func Printf Registry Vfs Wal Pager Vdbe Date.
#[local] Open Scope Z_scope.

(** ** Lines of the check and arms of the dispatch *)

Section Served.
Context `{Libm}.

(** What a line of the check promises for a name it lists. *)
Definition served_name (arity : Z -> bool) (s : string) : Prop :=
  forall n, arity n = true ->
  handled (bytes_of s) = true \/ bytes_of s = bytes_of "string_agg" /\ n = 2 \/ dispatched (bytes_of s) n.
Definition served (e : list string * (Z -> bool)) : Prop := Forall (served_name (snd e)) (fst e).

Lemma between_cases k n : between k (k + 1) n = true -> n = k \/ n = k + 1.
Proof. unfold between. rewrite andb_true_iff. lia. Qed.

(** Walk along a list of names, or of lines. *)
Ltac each tac :=
  lazymatch goal with
  | |- Forall _ [] => apply Forall_nil_2
  | |- Forall _ (_ :: _) => apply Forall_cons_2; [tac|each tac]
  end.
Ltac serve :=
  intros n Hn; cbn [fst snd] in Hn;
  first
    [ left; vm_compute; reflexivity
    | right; left; split; [reflexivity|unfold exactly in Hn; lia]
    | right; right;
      lazymatch goal with
      | |- dispatched ?l n =>
          let p := eval vm_compute in (arm_position l) in
          first
            [ apply (find_arm_at l n p _ eq_refl); [vm_compute; reflexivity|exact Hn || reflexivity]
            | apply find_arm_some; apply between_cases in Hn as [-> | ->]; vm_compute; reflexivity ]
      end ].
Lemma all_served : Forall served check_table.
Proof. unfold check_table, vdbe_functions. cbn [app]. each ltac:(unfold served; cbn [fst snd]; each serve). Qed.

Lemma checked_served name n : check name n = Ok tt -> from_name name n = None ->
  handled (to_ascii_lowercase name) = true \/ dispatched (to_ascii_lowercase name) n.
Proof.
  unfold check, arity_ok. intros Hc Hagg. rewrite Hagg in Hc. set (l := to_ascii_lowercase name) in *.
  destruct (List.find _ check_table) as [e|] eqn:Hf; [|done]. cbn in Hc. destruct (snd e n) eqn:Hn; [|done].
  apply List.find_some in Hf as [He Hname]. apply named_in_true in Hname as (s & Hs & Hl).
  pose proof all_served as Hall. rewrite List.Forall_forall in Hall. specialize (Hall e He).
  unfold served in Hall. rewrite List.Forall_forall in Hall. rewrite Hl. destruct (Hall s Hs n Hn) as [?|[[Hsa ->]|?]]; auto.
  exfalso. assert (from_name name 2 <> None) as Hx; [|by rewrite Hagg in Hx].
  unfold from_name. fold l. rewrite Hl, Hsa. vm_compute. done.
Qed.
End Served.

(** ** What the machine does with a checked call *)

Section Call.
Context {E F : Type} `{VfsOps E F} `{Libm}.
#[local] Existing Instance sql_functions.
Notation table := (function_table (E := E) (F := F)).
Notation call := (call_function (E := E) (F := F)).

Lemma handled_in_table (name : bytes) (args : list Value) lname : handled lname = true ->
  exists s m, find (fun e => bool_decide (bytes_of (fst e) = lname)) (table name args) = Some (s, m).
Proof.
  unfold handled. intros (s & Hs & Hb)%existsb_exists.
  change machine_functions with (fst <$> table name args) in Hs.
  apply list_elem_of_In, list_elem_of_fmap in Hs as ([s' m] & -> & Hin).
  destruct (find _ _) as [[s2 m2]|] eqn:Hf; [by eauto|]. apply list_elem_of_In in Hin.
  pose proof (find_none _ _ Hf _ Hin) as Hn. cbn [fst] in Hn, Hb. by rewrite Hn in Hb.
Qed.

(** C16: The check of the code generator and the dispatch of the machine agree: a
    call that [check] accepts, that is not the name of an aggregate or window
    function, and that reaches the machine with the arguments that were checked
    (fewer than 256: the code keeps their number in a byte) is never a call of an
    unknown function. Either the machine has a branch of its own for the
    lower-cased name and the call runs that branch, or it has none and
    [call_scalar] has an arm for the name and this number of arguments, whose
    function the call applies. (Names of aggregates are accepted by the check
    too and then fail as scalar calls, [aggregate_in_scalar_position].) *)
Theorem check_dispatch name args :
  check name (zlen args) = Ok tt -> from_name name (zlen args) = None ->
  (exists s m, In (s, m) (table name args) /\ bytes_of s = to_ascii_lowercase name /\ call name args = m) \/
  (exists a, In a arms /\ named_in (arm_names a) (to_ascii_lowercase name) = true /\ arm_arity a (zlen args) = true /\
     (forall s m, In (s, m) (table name args) -> bytes_of s <> to_ascii_lowercase name) /\
     call name args = lift (arm_call a args)).
Proof.
  intros Hc Hagg. pose proof (checked_served name _ Hc Hagg) as Hs. unfold call_function.
  destruct (find _ (table name args)) as [[s m]|] eqn:Hf.
  - left. exists s, m. apply find_some in Hf as [Hin Hb]. apply bool_decide_eq_true in Hb. done.
  - right. destruct Hs as [Hh|[a Ha]]; [destruct (handled_in_table name args _ Hh) as (s & m & Hx); congruence|].
    exists a. pose proof Ha as [Hin [Hn Hk]%andb_true_iff]%find_some. split_and!; [done..| |].
    + intros s m Hsm Hb. pose proof (find_none _ _ Hf _ Hsm) as Hx. by rewrite bool_decide_eq_false in Hx.
    + transitivity (lift (S := Vdbe * (Pager F * (Proc * E))) (Registry.call_scalar name args)); [done|]. unfold Registry.call_scalar. by rewrite Ha.
Qed.
End Call.

(** *** [SUBSTR('x', 1)] and [timediff]; and [sum(1)] outside an aggregate query *)
Section Witness.
#[local] Instance libm_here : Libm := libm_id.
#[local] Existing Instance sql_functions.
Definition substr_args : list Value := [Text (bytes_of "abc"); Int 2].
Lemma check_dispatch_witness :
  check (bytes_of "SUBSTR") 2 = Ok tt /\
  ((exists s m, In (s, m) (function_table (E := MemVfs) (F := nat) (bytes_of "SUBSTR") substr_args) /\
      bytes_of s = to_ascii_lowercase (bytes_of "SUBSTR") /\ call_function (E := MemVfs) (F := nat) (bytes_of "SUBSTR") substr_args = m) \/
   (exists a, In a arms /\ named_in (arm_names a) (to_ascii_lowercase (bytes_of "SUBSTR")) = true /\ arm_arity a 2 = true /\
     (forall s m, In (s, m) (function_table (E := MemVfs) (F := nat) (bytes_of "SUBSTR") substr_args) ->
        bytes_of s <> to_ascii_lowercase (bytes_of "SUBSTR")) /\
     call_function (E := MemVfs) (F := nat) (bytes_of "SUBSTR") substr_args = lift (arm_call a substr_args))).
Proof. split; [by vm_compute|]. apply (check_dispatch (bytes_of "SUBSTR") substr_args); by vm_compute. Defined.

(** The check takes the name of an aggregate where the call is scalar. *)
Lemma aggregate_in_scalar_position (s : Vdbe * (Pager nat * (Proc * MemVfs))) :
  check (bytes_of "sum") 1 = Ok tt /\ call_function (bytes_of "sum") [Int 1] s = (Err no_such_function, s).
Proof. by vm_compute. Qed.
End Witness.
