(* ===== verification/Calendar.v ===== *)
(** * The calendar of the date functions

    The conversions of [func/date.rs] between calendar dates and julian days
    compute with doubles. They are the proleptic Gregorian calendar: the julian
    day of the next date is one day later, and every moment of a day is
    converted back to its date. From this follow the conversion of whole
    timestamps and the dates that [+N days] gives. *)

From S2P Require Import Prelude Utf8 Float64 Value Str Fp FloatOps Rounding NumberText Aggregate VdbeOps Func Printf Date.
#[local] Open Scope Z_scope.

(** ** Dates *)

Definition leap_year (y : Z) : bool := (y mod 4 =? 0) && (negb (y mod 100 =? 0) || (y mod 400 =? 0)).
Definition month_length (y m : Z) : Z :=
  if m =? 2 then (if leap_year y then 29 else 28)
  else if (m =? 4) || (m =? 6) || (m =? 9) || (m =? 11) then 30 else 31.
Definition date := (Z * Z * Z)%type.
Definition valid_date (x : date) : Prop := let '(y, m, d) := x in 1 <= m <= 12 /\ 1 <= d <= month_length y m.
Definition next_day (x : date) : date :=
  let '(y, m, d) := x in
  if d <? month_length y m then (y, m, d + 1) else if m <? 12 then (y, m + 1, 1) else (y + 1, 1, 1).
(** The years whose days all have a julian day at or after zero, the last of
    them with the day after it. *)
Definition year_ok (x : date) : Prop := let '(y, _, _) := x in -4712 <= y <= 10000.

(** ** The formulas over the integers *)

Definition shifted (y m : Z) : Z * Z := if m <=? 2 then (y - 1, m + 12) else (y, m).
Definition century (y : Z) : Z := (y + 4800) / 100.
Definition year_days (y : Z) : Z := 36525 * (y + 4716) / 100.
Definition month_days (m : Z) : Z := 306001 * (m + 1) / 10000.
(** [jd_of_ymd] adds these and takes 1524.5 off. *)
Definition day_number (x : date) : Z :=
  let '(y, m, d) := x in
  let '(y, m) := shifted y m in
  year_days y + month_days m + d + (38 - century y + century y / 4).
(** The parts of [ymd_of_jd]: the number of the day in the Julian calendar,
    the year, the day in the year, and the date. *)
Definition julian (z : Z) : Z :=
  let alpha := (4 * z + 128179) / 146097 - 52 in z + 1 + alpha - (alpha + 100) / 4 + 25 + 1524.
Definition year_of (b : Z) : Z := (20 * b - 2442) / 7305.
Definition date_of_parts (c k : Z) : date :=
  let e := k * 10000 / 306001 in
  let m := if e <? 14 then e - 1 else e - 13 in
  (if m >? 2 then c - 4716 else c - 4715, m, k - 306001 * e / 10000).

Lemma month_days_cases m : 3 <= m <= 14 ->
  month_days m = match m with 3 => 122 | 4 => 153 | 5 => 183 | 6 => 214 | 7 => 244 | 8 => 275 | 9 => 306 | 10 => 336
                 | 11 => 367 | 12 => 397 | 13 => 428 | _ => 459 end.
Proof.
  intros Hm. assert (m = 3 \/ m = 4 \/ m = 5 \/ m = 6 \/ m = 7 \/ m = 8 \/ m = 9 \/ m = 10 \/ m = 11 \/ m = 12 \/ m = 13 \/ m = 14)
    as Hc by lia. repeat destruct Hc as [->|Hc]; subst; done.
Qed.
Ltac compute_months :=
  repeat match goal with |- context [306001 * ?a / 10000] =>
    let v := eval vm_compute in (306001 * a / 10000) in change (306001 * a / 10000) with v end.
(** In the year that starts in March, the days before and up to a date. *)
Lemma day_of_year (y m d : Z) : valid_date (y, m, d) ->
  let '(y', m') := shifted y m in
  3 <= m' <= 14 /\ y' = (if m' <=? 12 then y else y - 1) /\ (m' <= 12 -> m = m') /\ (12 < m' -> m = m' - 12) /\
  1 <= d /\ month_days m' + d <= month_days (m' + 1) /\
  (m' = 14 -> d <= 29 /\ (d = 29 -> leap_year y = true)).
Proof.
  intros [Hm [Hd1 Hd2]]. unfold shifted. destruct (Z.leb_spec m 2).
  - assert (m = 1 \/ m = 2) as [-> | ->] by lia; unfold month_length in Hd2; cbn in Hd2.
    + change (1 + 12) with 13. change (month_days 13) with 428. change (month_days (13 + 1)) with 459. cbn. lia.
    + change (2 + 12) with 14. change (month_days 14) with 459. change (month_days (14 + 1)) with 489. cbn.
      destruct (leap_year y); lia.
  - assert (m = 3 \/ m = 4 \/ m = 5 \/ m = 6 \/ m = 7 \/ m = 8 \/ m = 9 \/ m = 10 \/ m = 11 \/ m = 12) as Hc by lia.
    unfold month_days. repeat destruct Hc as [->|Hc]; subst; unfold month_length in Hd2; cbn in Hd2;
      compute_months; split_and!; cbn; lia.
Qed.

(** The century is found, then the year, then the month. *)
Lemma century_found Y k : 3 <= Y -> 123 <= k <= 488 -> (k = 488 -> Y mod 4 = 3 /\ (Y mod 100 = 15 -> (Y + 84) / 100 mod 4 = 3)) ->
  let C := (Y + 84) / 100 in
  let z := 36525 * Y / 100 + k + (38 - C + C / 4) - 1524 in
  (4 * z + 128179) / 146097 = C.
Proof.
  intros HY Hk Hleap C z. symmetry. unfold z, C in *. clear z C.
  assert (36525 * Y / 100 = 365 * Y + Y / 4) as -> by (Z.to_euclidean_division_equations; lia).
  apply (Z.div_unique _ 146097 _ (1461 * ((Y + 84) mod 100) - Y mod 4 - (Y + 84) / 100 mod 4 + 4 * k - 489)).
  - left. Z.to_euclidean_division_equations; lia.
  - Z.to_euclidean_division_equations; lia.
Qed.
Lemma year_found Y k : 3 <= Y -> 123 <= k <= 488 -> (k = 488 -> Y mod 4 = 3) ->
  let b := 36525 * Y / 100 + k in (20 * b - 2442) / 7305 = Y /\ b - 36525 * ((20 * b - 2442) / 7305) / 100 = k.
Proof.
  intros HY Hk Hleap b. assert ((20 * b - 2442) / 7305 = Y) as ->; [|unfold b; split; [done|lia]].
  symmetry. apply (Z.div_unique _ 7305 _ (20 * k - 5 * (Y mod 4) - 2442)); unfold b; [left|];
    assert (36525 * Y / 100 = 365 * Y + Y / 4) as E by (Z.to_euclidean_division_equations; lia); rewrite ?E;
    Z.to_euclidean_division_equations; lia.
Qed.
Lemma month_found m d : 3 <= m <= 14 -> 1 <= d -> month_days m + d <= month_days (m + 1) ->
  let k := month_days m + d in
  k * 10000 / 306001 = m + 1 /\ k - 306001 * (k * 10000 / 306001) / 10000 = d.
Proof.
  intros Hm Hd Hle k. assert (k * 10000 / 306001 = m + 1) as ->; [|unfold k, month_days; split; [done|lia]].
  unfold k, month_days in *. replace (m + 1 + 1) with (m + 2) in Hle by lia. Z.to_euclidean_division_equations. lia.
Qed.
Lemma day_parts x : valid_date x -> year_ok x ->
  let b := julian (day_number x - 1524) in
  let c := year_of b in
  let k := b - 36525 * c / 100 in
  3 <= c <= 14716 /\ 123 <= k <= 488 /\ date_of_parts c k = x.
Proof.
  destruct x as [[y m] d]. intros Hv Hy. pose proof (day_of_year y m d Hv) as Hd. unfold day_number.
  destruct (shifted y m) as [y' m'] eqn:Es. destruct Hd as (Hm' & Hy' & Hm1 & Hm2 & Hd1 & Hd2 & Hfeb).
  set (Y := y' + 4716). set (k := month_days m' + d).
  assert (123 <= k <= 488 /\ (k = 488 -> m' = 14 /\ d = 29)) as [Hk Hk'].
  { unfold k. rewrite (month_days_cases m') by done. clear - Hm' Hd1 Hd2 Hfeb.
    assert (m' = 14 \/ m' <= 13) as [->|] by lia; [cbn in *; lia|].
    assert (month_days m' + d <= 459) as Hb.
    { etrans; [exact Hd2|]. unfold month_days. Z.to_euclidean_division_equations. lia. }
    rewrite month_days_cases in Hb by lia. assert (122 <= month_days m') as Hl by (unfold month_days; Z.to_euclidean_division_equations; lia).
    rewrite month_days_cases in Hl by lia. lia. }
  unfold year_ok in Hy. assert (3 <= Y) as HY by (unfold Y; destruct (m' <=? 12); lia).
  assert (k = 488 -> Y mod 4 = 3 /\ (Y mod 100 = 15 -> (Y + 84) / 100 mod 4 = 3)) as Hleap.
  { intros [-> ->]%Hk'. destruct Hfeb as [_ Hl]; [done|]. specialize (Hl eq_refl). cbn in Hy'.
    unfold leap_year in Hl. unfold Y. subst y'. clear - Hl.
    apply andb_true_iff in Hl as [H4%Z.eqb_eq Hl]. apply orb_true_iff in Hl. rewrite negb_true_iff, Z.eqb_neq, Z.eqb_eq in Hl.
    Z.to_euclidean_division_equations. lia. }
  pose proof (century_found Y k HY Hk Hleap) as HC. pose proof (year_found Y k HY Hk ltac:(tauto)) as [Hc Hbd].
  pose proof (month_found m' d Hm' Hd1 Hd2) as [He Hdd]. fold k in He, Hdd. cbv zeta in *.
  assert (year_days y' + month_days m' + d + (38 - century y' + century y' / 4) - 1524
    = 36525 * Y / 100 + k + (38 - (Y + 84) / 100 + (Y + 84) / 100 / 4) - 1524) as ->.
  { unfold year_days, century, k, Y. replace (y' + 4716 + 84) with (y' + 4800) by lia. lia. }
  set (z := 36525 * Y / 100 + k + (38 - (Y + 84) / 100 + (Y + 84) / 100 / 4) - 1524) in *.
  assert (julian z = 36525 * Y / 100 + k) as ->.
  { unfold julian. rewrite HC. unfold z. set (C := (Y + 84) / 100). Z.to_euclidean_division_equations. lia. }
  unfold year_of. rewrite Hbd, Hc. split; [unfold Y; destruct (m' <=? 12); lia|]. split; [done|].
  unfold date_of_parts. rewrite Hdd, He. clear - Hm' Hy' Hm1 Hm2. unfold Y. subst y'.
  destruct (Z.leb_spec m' 12), (Z.ltb_spec (m' + 1) 14); try lia;
    match goal with |- context [?a >? 2] => destruct (Z.gtb_spec a 2) end; try lia; repeat f_equal; lia.
Qed.
Lemma year_steps y :
  year_days y = year_days (y - 1) + (if y mod 4 =? 0 then 366 else 365) /\
  century y / 4 = century (y - 1) / 4 + (if y mod 400 =? 0 then 1 else 0) /\
  century y = century (y - 1) + (if y mod 100 =? 0 then 1 else 0).
Proof.
  unfold year_days, century. destruct (Z.eqb_spec (y mod 4) 0), (Z.eqb_spec (y mod 100) 0), (Z.eqb_spec (y mod 400) 0);
    rewrite ?Z.div_div by done; split_and!; Z.to_euclidean_division_equations; lia.
Qed.
(** The next day has the next number. *)
Lemma day_number_next x : valid_date x -> year_ok x -> day_number (next_day x) = day_number x + 1 /\ valid_date (next_day x).
Proof.
  destruct x as [[y m] d]. intros [Hm [Hd1 Hd2]] Hy. unfold next_day. destruct (Z.ltb_spec d (month_length y m)) as [Hlt|Hge].
  { split; [unfold day_number; destruct (shifted y m); lia|]. unfold valid_date. lia. }
  assert (d = month_length y m) as -> by lia. clear Hd2 Hge. destruct (Z.ltb_spec m 12).
  2:{ assert (m = 12) as -> by lia. split; [|unfold valid_date; change (month_length (y + 1) 1) with 31; lia].
      unfold day_number. change (month_length y 12) with 31. unfold shifted, month_days. cbn -[Z.div].
      replace (y + 1 - 1) with y by lia. compute_months. lia. }
  split; [|split; [lia|split; [lia|unfold month_length; repeat case_match; lia]]].
  assert (m = 2 \/ m <> 2) as [->|Hm2] by lia.
  - change (month_length y 2) with (if leap_year y then 29 else 28). unfold day_number. change (shifted y 2) with (y - 1, 14).
    change (shifted y (2 + 1)) with (y, 3). cbv beta iota.
    assert (month_days 14 = 459 /\ month_days 3 = 122) as [-> ->] by done.
    destruct (year_steps y) as (H1 & H2 & H3). rewrite H1, H2, H3. unfold leap_year.
    destruct (Z.eqb_spec (y mod 4) 0), (Z.eqb_spec (y mod 100) 0), (Z.eqb_spec (y mod 400) 0); cbn; try lia;
      exfalso; Z.to_euclidean_division_equations; lia.
  - assert (m = 1 \/ m = 3 \/ m = 4 \/ m = 5 \/ m = 6 \/ m = 7 \/ m = 8 \/ m = 9 \/ m = 10 \/ m = 11) as Hc by lia.
    unfold day_number, shifted, month_days.
    repeat destruct Hc as [->|Hc]; subst; unfold month_length;
      match goal with |- context [?a + 1 <=? 2] => let v := eval vm_compute in (a + 1) in change (a + 1) with v end;
      cbn -[Z.div]; compute_months; lia.
Qed.

(** ** The formulas over doubles *)

(** Every value is a multiple of this. *)
Notation grain := (spow 1045).
Lemma grain_pos : 0 < grain.
Proof. by apply spow_pos. Qed.
Lemma unit_grain : f64_unit = 2 ^ 29 * grain.
Proof. by apply (spow_add 29 1045). Qed.

Lemma add_ints x y i j : exactly x (i * f64_unit) -> exactly y (j * f64_unit) -> Z.abs (i + j) < 2 ^ 53 ->
  exactly (f64_add x y) ((i + j) * f64_unit).
Proof.
  intros Hx Hy Hb. rewrite Z.mul_add_distr_r. pose proof unit_positive as HU.
  apply add_exactly; [done|done| |]; rewrite <- Z.mul_add_distr_r, Z.abs_mul, (Z.abs_eq f64_unit) by lia.
  - apply scaled_representable; lia.
  - apply Z.mul_lt_mono_pos_r; lia.
Qed.
(** [32044.75], [1524.5] and the other constants. *)
Lemma f1524_5_exactly : exactly (f64_opp f1524_5) (-3049 * 2 ^ 28 * grain).
Proof. unfold exactly. rewrite !spow_eq. split_and!; by vm_compute. Qed.
Lemma f32044_75_exactly : exactly f32044_75 (128179 * 2 ^ 27 * grain).
Proof. unfold exactly. rewrite !spow_eq. split_and!; by vm_compute. Qed.
Lemma f36524_25_exactly : exactly f36524_25 (146097 * 2 ^ 27 * grain).
Proof. unfold exactly. rewrite !spow_eq. split_and!; by vm_compute. Qed.
Lemma f365_25_exactly : exactly f365_25 (1461 * 2 ^ 27 * grain).
Proof. unfold exactly. rewrite !spow_eq. split_and!; by vm_compute. Qed.

Lemma day_number_range x : valid_date x -> year_ok x -> 1525 <= day_number x <= 5400000.
Proof.
  destruct x as [[y m] d]. intros Hv Hy. pose proof (day_of_year y m d Hv) as Hd. unfold day_number, year_ok in *.
  destruct (shifted y m) as [y' m']. destruct Hd as (Hm' & Hy' & _ & Hm2 & Hd1 & Hd2 & _).
  destruct Hv as [Hm [_ Hd3]]. assert (d <= 31) as Hd31 by (unfold month_length in Hd3; repeat case_match; lia).
  unfold year_days, century, month_days in *. destruct (Z.leb_spec m' 12); Z.to_euclidean_division_equations; lia.
Qed.
Lemma jd_of_ymd_spec y m d : valid_date (y, m, d) -> year_ok (y, m, d) ->
  jd_of_ymd y m d = (2 * day_number (y, m, d) - 3049) * 43200000.
Proof.
  intros Hv Hy. pose proof (day_number_range _ Hv Hy) as HN. pose proof (day_of_year y m d Hv) as Hd.
  unfold jd_of_ymd, day_number, shifted, year_ok in *. set (sh := if m <=? 2 then _ else _) in *. destruct sh as [y' m'].
  destruct Hd as (Hm' & Hy' & _ & _ & Hd1 & Hd2 & _).
  destruct Hv as [_ [_ Hd3]]. assert (d <= 31) as Hd31 by (unfold month_length in Hd3; repeat case_match; lia).
  assert (-4713 <= y' <= 10000) as Hy2 by (destruct (m' <=? 12); lia).
  rewrite !(Z.quot_div_nonneg _ 100), (Z.quot_div_nonneg _ 10000) by lia.
  rewrite (Z.quot_div_nonneg ((y' + 4800) / 100) 4) by (Z.to_euclidean_division_equations; lia).
  fold (year_days y') (century y') (month_days m').
  set (b := 38 - century y' + century y' / 4) in *.
  assert (0 <= year_days y' <= 5400000 /\ 0 <= month_days m' <= 500 /\ -200 <= b <= 100) as (H1 & H2 & H3).
  { unfold b, year_days, century, month_days. Z.to_euclidean_division_equations; lia. }
  set (N := year_days y' + month_days m' + d + b) in *.
  pose proof (add_ints _ _ _ _ (of_i64_exactly (year_days y') ltac:(lia)) (of_i64_exactly (month_days m') ltac:(lia)) ltac:(lia)) as E1.
  pose proof (add_ints _ _ _ _ E1 (of_i64_exactly d ltac:(lia)) ltac:(lia)) as E2.
  pose proof (add_ints _ _ _ _ E2 (of_i64_exactly b ltac:(lia)) ltac:(lia)) as E3. fold N in E3.
  assert (exactly (f64_sub (f64_add (f64_add (f64_add (i64_as_f64 (year_days y')) (i64_as_f64 (month_days m'))) (i64_as_f64 d))
    (i64_as_f64 b)) f1524_5) ((2 * N - 3049) * 2 ^ 28 * grain)) as E4.
  { unfold f64_sub. replace (f64_is_nan f1524_5) with false by (by vm_compute).
    assert ((2 * N - 3049) * 2 ^ 28 * grain = N * f64_unit + -3049 * 2 ^ 28 * grain) as E.
    { rewrite unit_grain. lia. }
    rewrite E. apply add_exactly; [done|apply f1524_5_exactly| |]; rewrite <- E, Z.abs_mul, (Z.abs_eq grain) by (apply Z.lt_le_incl, grain_pos).
    - apply scaled_representable; lia.
    - rewrite unit_grain, Z.mul_assoc. apply Z.mul_lt_mono_pos_r; [exact grain_pos|lia]. }
  set (i := (2 * N - 3049) * 43200000).
  assert (exactly (f64_mul (f64_sub (f64_add (f64_add (f64_add (i64_as_f64 (year_days y')) (i64_as_f64 (month_days m'))) (i64_as_f64 d))
    (i64_as_f64 b)) f1524_5) (i64_as_f64 MS_PER_DAY)) (i * f64_unit)) as E5.
  { pose proof unit_positive as HU. apply (mul_exactly _ _ _ _ _ E4 (of_i64_exactly MS_PER_DAY ltac:(done))).
    - unfold i, MS_PER_DAY. rewrite unit_grain. lia.
    - rewrite Z.abs_mul, (Z.abs_eq f64_unit) by lia. apply scaled_representable; unfold i; lia.
    - rewrite Z.abs_mul, (Z.abs_eq f64_unit) by lia. apply Z.mul_lt_mono_pos_r; [done|unfold i; lia]. }
  rewrite (to_i64_exactly _ _ E5). pose proof unit_positive as HU. rewrite Z.quot_mul by lia. unfold i, N. lia.
Qed.

(** The quotients of [ymd_of_jd] are truncated to the right integers. *)
Lemma alpha_spec z : 0 < z <= 5400000 ->
  f64_to_i64 (f64_div (f64_add (i64_as_f64 z) f32044_75) f36524_25) = (4 * z + 128179) / 146097.
Proof.
  intros Hz. pose proof grain_pos as HV.
  assert (exactly (f64_add (i64_as_f64 z) f32044_75) ((4 * z + 128179) * 2 ^ 27 * grain)) as E.
  { assert ((4 * z + 128179) * 2 ^ 27 * grain = z * f64_unit + 128179 * 2 ^ 27 * grain) as E by (rewrite unit_grain; lia).
    rewrite E. apply add_exactly; [apply of_i64_exactly; lia|apply f32044_75_exactly| |];
      rewrite <- E, Z.abs_mul, (Z.abs_eq grain) by lia; [apply scaled_representable; lia|].
    rewrite unit_grain, Z.mul_assoc. apply Z.mul_lt_mono_pos_r; lia. }
  set (n := (4 * z + 128179) / 146097). assert (n * 146097 <= 4 * z + 128179 < (n + 1) * 146097 /\ 0 <= n < 2 ^ 22) as [Hn Hn'].
  { unfold n. clear - Hz. Z.to_euclidean_division_equations. lia. }
  clearbody n. revert E HV. generalize (f64_add (i64_as_f64 z) f32044_75). intros x E HV.
  apply (div_truncates x f36524_25 _ _ _ n (exactly_bracketed _ _ E ltac:(nia)) ltac:(nia) f36524_25_exactly ltac:(lia)); [|..|done].
  - apply Z.le_trans with (n * 146097 * 2 ^ 27 * grain); [lia|]. apply Z.mul_le_mono_nonneg_r; lia.
  - apply Z.le_trans with ((4 * z + 128179) * 2 ^ 57 * grain); [lia|].
    apply Z.le_trans with (((n + 1) * 2 ^ 30 - 1) * 146097 * 2 ^ 27 * grain); [apply Z.mul_le_mono_nonneg_r; lia|lia].
Qed.
Definition f122_1_up : Z := Eval vm_compute in f64_key f122_1 / 2 ^ 1045 + 1.
Lemma f122_1_range : exactly (f64_opp f122_1) (- f64_key f122_1) /\
  (f122_1_up - 1) * grain <= f64_key f122_1 <= f122_1_up * grain /\ 488 * 2 ^ 27 + 200 < f122_1_up - 1 /\ f122_1_up < 489 * 2 ^ 27.
Proof. unfold exactly. rewrite !spow_eq. split_and!; by vm_compute. Qed.
Lemma year_spec b : 1000 <= b <= 5500000 ->
  f64_to_i64 (f64_div (f64_sub (i64_as_f64 b) f122_1) f365_25) = year_of b.
Proof.
  intros Hb. destruct f122_1_range as (Ho & HK & HA1 & HA2). pose proof grain_pos as HV.
  set (n := year_of b). assert (1461 * n <= 4 * b - 489 /\ 4 * b <= 1461 * (n + 1) + 488 /\ 0 <= n < 2 ^ 22) as (Hn1 & Hn2 & Hn3).
  { unfold n, year_of. clear - Hb. Z.to_euclidean_division_equations. lia. }
  clearbody n. revert Ho HK HA1 HA2. generalize (f64_key f122_1) f122_1_up. intros K A Ho HK HA1 HA2.
  assert (bracketed (f64_sub (i64_as_f64 b) f122_1) ((b * 2 ^ 29 - A) * grain) ((b * 2 ^ 29 - A + 1) * grain)) as E.
  { unfold f64_sub. replace (f64_is_nan f122_1) with false by (by vm_compute).
    assert (0 < (b * 2 ^ 29 - A) * grain) by (apply Z.mul_pos_pos; lia).
    apply (add_bracketed _ _ _ _ _ _ (of_i64_exactly b ltac:(lia)) Ho).
    - rewrite unit_grain. lia.
    - rewrite unit_grain. lia.
    - apply scaled_representable; lia.
    - apply scaled_representable; lia.
    - lia.
    - rewrite unit_grain, Z.mul_assoc. apply Z.mul_lt_mono_pos_r; lia. }
  revert E. generalize (f64_sub (i64_as_f64 b) f122_1). intros x E.
  apply (div_truncates x f365_25 _ _ _ n E ltac:(apply Z.mul_pos_pos; lia) f365_25_exactly ltac:(lia)); [|..|done].
  - rewrite !Z.mul_assoc. apply Z.mul_le_mono_nonneg_r; lia.
  - assert ((b * 2 ^ 29 - A + 1) * 2 ^ 30 * grain <= ((n + 1) * 2 ^ 30 - 1) * 1461 * 2 ^ 27 * grain); [|lia].
    apply Z.mul_le_mono_nonneg_r; lia.
Qed.
(** [30.6001], between two multiples of [2^-29]. *)
Definition f30_6001_down : Z := Eval vm_compute in f64_key f30_6001 / 2 ^ 1045.
Lemma f30_6001_range : exactly f30_6001 (f64_key f30_6001) /\
  f30_6001_down * grain <= f64_key f30_6001 <= (f30_6001_down + 1) * grain.
Proof. unfold exactly. rewrite !spow_eq. split_and!; by vm_compute. Qed.
Lemma month_spec k : 123 <= k <= 488 -> f64_to_i64 (f64_div (i64_as_f64 k) f30_6001) = k * 10000 / 306001.
Proof.
  intros Hk. destruct f30_6001_range as (Hy & HK). pose proof unit_positive as HU. pose proof grain_pos as HV.
  set (n := k * 10000 / 306001). assert (4 <= n <= 15 /\ n * 306001 <= 10000 * k < (n + 1) * 306001) as [Hn Hkn].
  { unfold n. clear - Hk. Z.to_euclidean_division_equations. lia. }
  clearbody n. assert (n * (f30_6001_down + 1) <= k * 2 ^ 29 /\ k * 2 ^ 59 <= ((n + 1) * 2 ^ 30 - 1) * f30_6001_down) as [H1 H2].
  { unfold f30_6001_down. clear - Hk Hn Hkn. lia. }
  revert Hy HK H1 H2. generalize (f64_key f30_6001) f30_6001_down. intros K A Hy HK H1 H2.
  apply (div_truncates _ _ (k * f64_unit) (k * f64_unit) K); [|apply Z.mul_pos_pos; lia|done| | | |lia].
  - apply exactly_bracketed; [apply of_i64_exactly; lia|]. apply Z.mul_nonneg_nonneg; lia.
  - assert (0 < A) by nia. nia.
  - revert HV HK. rewrite unit_grain. generalize grain. intros V HV HK. nia.
  - revert HV HK. rewrite unit_grain. generalize grain. intros V HV HK.
    assert (k * 2 ^ 59 * V <= ((n + 1) * 2 ^ 30 - 1) * A * V) by (apply Z.mul_le_mono_nonneg_r; lia).
    assert (((n + 1) * 2 ^ 30 - 1) * (A * V) <= ((n + 1) * 2 ^ 30 - 1) * K) by (apply Z.mul_le_mono_nonneg_l; lia). lia.
Qed.
Lemma month_start_spec e : 4 <= e <= 15 -> f64_to_i64 (f64_mul f30_6001 (i64_as_f64 e)) = 306001 * e / 10000.
Proof.
  intros He. destruct f30_6001_range as (Hy & HK). pose proof grain_pos as HV.
  set (n := 306001 * e / 10000). assert (0 <= n <= 500 /\ n * 10000 <= 306001 * e < (n + 1) * 10000) as [Hn Hen].
  { unfold n. clear - He. Z.to_euclidean_division_equations. lia. }
  clearbody n.
  assert (n * 2 ^ 29 <= f30_6001_down * e /\ (f30_6001_down + 1) * e * 2 <= (n + 1) * 2 ^ 30 - 1) as [H1 H2].
  { unfold f30_6001_down. clear - He Hn Hen. lia. }
  assert (0 < f30_6001_down) as HA by (by vm_compute).
  revert Hy HK H1 H2 HA. generalize (f64_key f30_6001) f30_6001_down. intros K A Hy HK H1 H2 HA.
  assert (grain = 2 * spow 1044) as Hg by (by apply (spow_add 1 1044)).
  assert (0 < A * grain) by (apply Z.mul_pos_pos; lia). apply (mul_truncates _ _ _ _ Hy); [lia|lia| | |lia].
  - rewrite unit_grain. apply Z.le_trans with (A * e * grain); [|nia]. rewrite Z.mul_assoc. apply Z.mul_le_mono_nonneg_r; lia.
  - apply Z.le_trans with ((A + 1) * e * grain); [nia|]. rewrite Hg, Z.mul_assoc.
    apply Z.mul_le_mono_nonneg_r; [lia|]. lia.
Qed.

Lemma ymd_of_jd_spec x t : valid_date x -> year_ok x -> 0 <= t < MS_PER_DAY ->
  ymd_of_jd ((2 * day_number x - 3049) * 43200000 + t) = x.
Proof.
  intros Hv Hy Ht. pose proof (day_number_range x Hv Hy) as HN. pose proof (day_parts x Hv Hy) as Hp. cbv zeta in Hp.
  unfold ymd_of_jd. set (z := day_number x - 1524) in *. unfold MS_PER_DAY in *.
  assert (Z.quot ((2 * day_number x - 3049) * 43200000 + t + 43200000) 86400000 = z) as ->.
  { rewrite Z.quot_div_nonneg by lia. symmetry. apply (Z.div_unique _ 86400000 z t); [left; lia|unfold z; lia]. }
  rewrite alpha_spec by lia. set (alpha := (4 * z + 128179) / 146097 - 52).
  assert (z + 1 + alpha - Z.quot (alpha + 100) 4 + 25 + 1524 = julian z) as ->.
  { unfold julian. fold alpha. rewrite Z.quot_div_nonneg; [done| |done]. unfold alpha. Z.to_euclidean_division_equations; lia. }
  destruct Hp as (Hc & Hk & Hx). set (b := julian z) in *.
  assert (1000 <= b <= 5500000) as Hb by (revert Hc Hk; Z.to_euclidean_division_equations; lia).
  rewrite year_spec by done. set (c := year_of b) in *.
  assert (Z.land c 32767 = c) as ->.
  { change 32767 with (Z.ones 15). rewrite Z.land_ones by done. apply Z.mod_small. lia. }
  rewrite (Z.quot_div_nonneg (36525 * c) 100) by lia. set (k := b - 36525 * c / 100) in *.
  rewrite month_spec, month_start_spec; [|clearbody k; clear - Hk; Z.to_euclidean_division_equations; lia|done].
  exact Hx.
Qed.

(** ** Texts *)

Definition ascii (s : bytes) : Prop := Forall (fun c => 0 <= c < 128) s.
Lemma ascii_chars s : ascii s -> chars s = s /\ of_chars s = s.
Proof.
  induction 1 as [|c s Hc _ [IH1 IH2]]; [done|]. assert (encode_char c = [c]) as He by (unfold encode_char; by destruct (Z.ltb_spec c 0x80); [|lia]).
  rewrite of_chars_cons, He, IH2. split; [|done]. change (c :: s) with ([c] ++ s). rewrite <- He, chars_app, IH1; [by rewrite He|].
  unfold is_scalar. lia.
Qed.
Lemma trim_none a m z : ascii (a :: m ++ [z]) -> is_whitespace a = false -> is_whitespace z = false ->
  trim (a :: m ++ [z]) = a :: m ++ [z].
Proof.
  intros Hs Ha Hz. unfold trim, drop_ws. destruct (ascii_chars _ Hs) as [-> Ho]. cbn [span]. rewrite Ha. cbn [snd].
  change (a :: m ++ [z]) with ((a :: m) ++ [z]). rewrite reverse_app. cbn [reverse]. rewrite reverse_singleton. cbn [app span]. rewrite Hz. cbn [snd].
  change (z :: reverse (a :: m)) with (reverse [z] ++ reverse (a :: m)). rewrite <- reverse_app, reverse_involutive. exact Ho.
Qed.

(** [w] digits of value [n]. *)
Definition digits (w : Z) (n : Z) (s : bytes) : Prop := zlen s = w /\ forallb is_digit s = true /\ digits_value s = n.
Lemma digits_value_app s1 s2 : digits_value (s1 ++ s2) = digits_value s1 * 10 ^ zlen s2 + digits_value s2.
Proof.
  unfold digits_value. rewrite foldl_app. generalize (foldl (fun a d => a * 10 + (d - 48)) 0 s1). induction s2 as [|d s2 IH] using rev_ind; intros k.
  { change (10 ^ zlen []) with 1. cbn. lia. }
  rewrite !foldl_app, (IH k), zlen_app. cbn [foldl]. rewrite Z.pow_add_r by apply zlen_nonneg. change (10 ^ zlen [d]) with 10. lia.
Qed.
Lemma pos_digits_spec fuel : forall n acc w, 0 <= n < 10 ^ w -> 1 <= w -> n < 2 ^ Z.of_nat fuel -> (0 < fuel)%nat ->
  exists s, pos_digits fuel n acc = s ++ acc /\ forallb is_digit s = true /\ digits_value s = n /\ zlen s <= w.
Proof.
  induction fuel as [|fuel IH]; intros n acc w Hn Hw Hf H0; [lia|]. cbn [pos_digits]. destruct (Z.ltb_spec n 10).
  - exists [48 + n]. split; [done|]. split; [|split; [cbn; lia|exact Hw]]. cbn. unfold is_digit. rewrite andb_true_r, andb_true_iff, !Z.leb_le. lia.
  - pose proof (Z.mod_pos_bound n 10 ltac:(lia)). pose proof (Z.div_mod n 10 ltac:(lia)).
    assert (2 <= w) as Hw2 by (assert (w <> 1) by (intros ->; lia); lia).
    replace w with (Z.succ (w - 1)) in Hn by lia. rewrite Z.pow_succ_r in Hn by lia.
    rewrite Nat2Z.inj_succ, Z.pow_succ_r in Hf by lia.
    destruct (IH (n / 10) ((48 + n mod 10) :: acc) (w - 1)) as (s & -> & Hd & Hv & Hl).
    { split; [apply Z.div_pos; lia|apply Z.div_lt_upper_bound; lia]. }
    { lia. }
    { apply Z.div_lt_upper_bound; lia. }
    { destruct fuel; [cbn in Hf; lia|lia]. }
    exists (s ++ [48 + n mod 10]). split; [by rewrite <- app_assoc|]. rewrite forallb_app, Hd, digits_value_app, Hv, zlen_app.
    change (zlen [48 + n mod 10]) with 1. split; [|split; [cbn; lia|lia]].
    cbn. unfold is_digit. rewrite andb_true_r, andb_true_iff, !Z.leb_le. lia.
Qed.
Lemma zero_padded_digits w n : 1 <= w -> 0 <= n < 10 ^ w -> digits w n (zero_padded w n).
Proof.
  intros Hw Hn. unfold zero_padded, pad_left, decimal. destruct (Z.ltb_spec n 0); [lia|].
  destruct (pos_digits_spec (Z.to_nat (Z.log2 n + 1)) n [] w Hn Hw) as (s & -> & Hd & Hv & Hl).
  { pose proof (Z.log2_nonneg n). rewrite Z2Nat.id by lia. destruct (Z.eq_dec n 0) as [->|]; [done|]. apply Z.log2_spec. lia. }
  { pose proof (Z.log2_nonneg n). lia. }
  rewrite app_nil_r. split; [rewrite zlen_app, zlen_zrep; pose proof (zlen_nonneg s); lia|].
  assert (forall k, forallb is_digit (zrep k 48) = true /\ digits_value (zrep k 48) = 0) as Hz.
  { intros k. unfold zrep. induction (Z.to_nat k) as [|j [IH1 IH2]]; [done|]. rewrite replicate_S. split; [done|].
    change (48 :: replicate j 48) with ([48] ++ replicate j 48). by rewrite digits_value_app, IH2. }
  destruct (Hz (w - zlen s)) as [H1 H2]. by rewrite forallb_app, H1, Hd, digits_value_app, H2, Hv.
Qed.
Lemma digits_ascii w n s : digits w n s -> ascii s.
Proof.
  intros (_ & Hd & _). apply Forall_forall. intros c Hc%list_elem_of_In. rewrite forallb_forall in Hd. specialize (Hd c Hc).
  unfold is_digit in Hd. rewrite andb_true_iff, !Z.leb_le in Hd. lia.
Qed.

(** Reading fields of digits back. *)
Lemma digits_group_spec w n s lo hi rest : digits w n s -> lo <= n <= default 0 (zget MAX_M hi) ->
  digits_group w lo hi (s ++ rest) = Some n /\ zdrop w (s ++ rest) = rest.
Proof.
  intros (Hl & Hd & Hv) Hn. unfold digits_group. pose proof (zlen_nonneg rest).
  rewrite <- Hl, ztake_app_le, ztake_all, zdrop_app_ge, Z.sub_diag, zdrop_0, Hd, Hv by lia. split; [|done]. cbn [negb]. rewrite zlen_app.
  destruct (Z.ltb_spec (zlen s + zlen rest) (zlen s)), (Z.ltb_spec n lo), (Z.gtb_spec n (default 0 (zget MAX_M hi))); lia || done.
Qed.
Definition date_string (x : date) : bytes := let '(y, m, d) := x in date_text 45 y m d.
Definition four_digits (x : date) : Prop := let '(y, _, _) := x in 0 <= y <= 9999.
Lemma month_length_le y m : month_length y m <= 31.
Proof. unfold month_length. repeat case_match; lia. Qed.
Lemma date_digits x : valid_date x -> four_digits x -> let '(y, m, d) := x in
  digits 4 y (zero_padded 4 y) /\ digits 2 m (zero_padded 2 m) /\ digits 2 d (zero_padded 2 d).
Proof.
  destruct x as [[y m] d]. intros [Hm [Hd1 Hd2]] Hy. pose proof (month_length_le y m). unfold four_digits in Hy.
  split_and!; apply zero_padded_digits; lia.
Qed.
Lemma date_parses x : valid_date x -> four_digits x ->
  let '(y, m, d) := x in get_digits (bytes_of "40f-21a-21d") (date_string x) = ([y; m; d], []).
Proof.
  intros Hv Hf. pose proof (date_digits x Hv Hf) as Hd. destruct x as [[y m] d]. destruct Hd as (Dy & Dm & Dd).
  destruct Hv as [Hm [Hd1 Hd2]]. pose proof (month_length_le y m). unfold four_digits in Hf.
  unfold date_string, date_text. change (bytes_of "40f-21a-21d") with [52; 48; 102; 45; 50; 49; 97; 45; 50; 49; 100]. cbn [get_digits].
  change (52 - 48) with 4. change (50 - 48) with 2. change (48 - 48) with 0. change (49 - 48) with 1.
  change (102 - 97) with 5. change (97 - 97) with 0. change (100 - 97) with 3.
  destruct (digits_group_spec 4 y _ 0 5 ([45] ++ zero_padded 2 m ++ [45] ++ zero_padded 2 d) Dy ltac:(change (default 0 (zget MAX_M 5)) with 9999; lia)) as [-> ->].
  cbn [app]. rewrite Z.eqb_refl.
  destruct (digits_group_spec 2 m _ 1 0 ([45] ++ zero_padded 2 d) Dm ltac:(change (default 0 (zget MAX_M 0)) with 12; lia)) as [E1 E2]. cbn [app] in E1, E2. rewrite E1, E2. clear E1 E2.
  rewrite Z.eqb_refl. destruct (digits_group_spec 2 d _ 1 3 [] Dd ltac:(change (default 0 (zget MAX_M 3)) with 31; lia)) as [E1 E2]. rewrite app_nil_r in E1, E2. by rewrite E1, E2.
Qed.

(** ** Dates as time values *)

Definition jd_at (x : date) : Z := (2 * day_number x - 3049) * 43200000.
(** The record of a date that was parsed, and of one that has a julian day. *)
Definition parsed (x : date) : DateTime :=
  let '(y, m, d) := x in mkDateTime 0 y m d 0 0 0 0 false true false (floor_of y m d) false false false false false.
Definition at_jd (jd : Z) (p : DateTime) : DateTime := set_valid_jd true (set_jd jd p).

Lemma modify_then {A} (f : DateTime -> DateTime) (k : unit -> DateM A) p : (modify f ≫= k) p = k tt (f p).
Proof. done. Qed.
Lemma get_then {A} (k : DateTime -> DateM A) p : (get ≫= k) p = k p p.
Proof. done. Qed.
Lemma first_digit w n s rest : digits w n s -> 0 < w -> first_is 45 (s ++ rest) = false.
Proof.
  intros (Hl & Hd & _) Hw. destruct s as [|c s]; [rewrite zlen_nil in Hl; lia|]. cbn in Hd |- *. apply andb_true_iff in Hd as [Hd _].
  unfold is_digit in Hd. rewrite andb_true_iff, !Z.leb_le in Hd. apply Z.eqb_neq. lia.
Qed.
Lemma parse_date x now : valid_date x -> four_digits x ->
  parse_date_or_time (date_string x) now DateTime_default = (Ok tt, parsed x).
Proof.
  intros Hv Hf. pose proof (date_parses x Hv Hf) as Hp. pose proof (date_digits x Hv Hf) as Hd.
  assert (parse_yyyy_mm_dd (date_string x) DateTime_default = (Ok tt, parsed x)) as Hx.
  2:{ unfold parse_date_or_time. rewrite (M_bind_ok _ _ _ true (parsed x)); [done|]. unfold succeeds. by rewrite Hx. }
  destruct x as [[y m] d]. destruct Hd as (Dy & _). assert (first_is 45 (date_string (y, m, d)) = false) as Hs.
  { unfold date_string, date_text. by apply (first_digit 4 y). }
  unfold parse_yyyy_mm_dd. rewrite Hs, Hp. cbn [span snd is_empty].
  rewrite (M_bind_ok _ _ _ false DateTime_default) by reflexivity. cbv iota.
  rewrite !modify_then.
  destruct Hv as [Hm [Hd1 Hd2]]. pose proof (month_length_le y m).
  rewrite (M_bind_ok compute_floor _ _ tt (parsed (y, m, d))); [done|].
  unfold compute_floor. rewrite get_then. cbn [valid_ymd is_error dt_d dt_m set_ymd set_valid orb negb].
  destruct (Z.leb_spec 0 d), (Z.leb_spec d 31), (Z.leb_spec 0 m), (Z.leb_spec m 12); lia || done.
Qed.

(** A civil date, without a time of day, gets its julian day. *)
Lemma compute_jd_civil p x : valid_jd p = false -> valid_ymd p = true -> valid_hms p = false -> raw_s p = false ->
  (dt_y p, dt_m p, dt_d p) = x -> valid_date x -> four_digits x -> compute_jd p = (Ok tt, at_jd (jd_at x) p).
Proof.
  intros Hj Hy Hh Hr Hx Hv Hf. unfold compute_jd. rewrite get_then, Hj, Hy, Hr. destruct x as [[y m] d]. injection Hx as -> -> ->.
  unfold four_digits in Hf. destruct (Z.ltb_spec y (-4713)), (Z.gtb_spec y 9999); try lia. cbn [orb]. rewrite Hh, jd_of_ymd_spec; [done|done|].
  unfold year_ok. lia.
Qed.
Lemma compute_jd_done p : valid_jd p = true -> compute_jd p = (Ok tt, p).
Proof. intros Hj. unfold compute_jd. by rewrite get_then, Hj. Qed.

(** *** The days that a modifier adds *)

Definition plus_days (n : Z) : bytes := [43] ++ i64_to_string n ++ bytes_of " days".
Lemma i64_digits n : 0 <= n < 10 ^ 20 -> exists c ds, i64_to_string n = c :: ds /\ forallb is_digit (c :: ds) = true /\ digits_value (c :: ds) = n.
Proof.
  intros Hn. unfold i64_to_string. destruct (Z.ltb_spec n 0); [lia|]. destruct (digits_of_spec 20 n Hn) as (Hd & Hv & Hne).
  destruct (digits_of 20 n) as [|c ds]; [by destruct (Hne ltac:(done))|]. by exists c, ds.
Qed.
Lemma number_end_digits ds n rest : forallb is_digit ds = true -> number_end n (ds ++ 32 :: rest) = n + zlen ds.
Proof.
  revert n. induction ds as [|c ds IH]; intros n Hd; [change (zlen []) with 0; cbn; lia|]. cbn in Hd. apply andb_true_iff in Hd as [Hc Hd].
  cbn [app number_end]. unfold is_digit in Hc. rewrite andb_true_iff, !Z.leb_le in Hc. unfold is_ascii_whitespace.
  repeat match goal with |- context [c =? ?k] => destruct (Z.eqb_spec c k); [lia|] end. cbn [orb]. rewrite IH, zlen_cons by done. lia.
Qed.
Lemma numeric_prefix_plus ds : forallb is_digit ds = true -> ds <> [] -> is_i64 (digits_value ds) ->
  fst (numeric_prefix (43 :: ds)) = Some (Int (digits_value ds)).
Proof.
  intros Hd Hne Hi. pose proof (numeric_prefix_digits false ds [] [] eq_refl eq_refl Hd Hne Hi) as Hp. cbn [app] in Hp. rewrite app_nil_r in Hp.
  assert (numeric_prefix (43 :: ds) = numeric_prefix ds) as ->; [|by rewrite Hp].
  pose proof (take_digits_sign false ds Hd [] Hne) as Ht. cbn [app] in Ht. rewrite app_nil_r in Ht.
  assert (span is_ascii_whitespace ds = ([], ds)) as Hs.
  { destruct ds as [|c ds]; [done|]. cbn in Hd |- *. apply andb_true_iff in Hd as [Hc _]. unfold is_digit in Hc. rewrite andb_true_iff, !Z.leb_le in Hc.
    unfold is_ascii_whitespace. by repeat match goal with |- context [c =? ?k] => destruct (Z.eqb_spec c k); [lia|] end. }
  unfold numeric_prefix. rewrite Hs, Ht. reflexivity.
Qed.
Lemma mul_ints x y i j : exactly x (i * f64_unit) -> exactly y (j * f64_unit) -> Z.abs (i * j) < 2 ^ 53 ->
  exactly (f64_mul x y) (i * j * f64_unit).
Proof.
  intros Hx Hy Hb. pose proof unit_positive as HU. apply (mul_exactly _ _ _ _ _ Hx Hy); [lia| |];
    rewrite Z.abs_mul, (Z.abs_eq f64_unit) by lia; [apply scaled_representable; lia|apply Z.mul_lt_mono_pos_r; lia].
Qed.
Lemma int_literals : f1000 = i64_as_f64 1000 /\ f86400 = i64_as_f64 86400 /\ f_day = i64_as_f64 5373485 /\
  f64_opp f_day = i64_as_f64 (-5373485) /\ i64_as_f64 0 = 0.
Proof. split_and!; by vm_compute. Qed.
Lemma f0_5_exactly : exactly f0_5 (spow 1073).
Proof. unfold exactly. rewrite !spow_eq. split_and!; by vm_compute. Qed.
Lemma compare_ints x y i j : exactly x (i * f64_unit) -> exactly y (j * f64_unit) -> f64_partial_cmp x y = Some (i ?= j).
Proof.
  intros (Hx & Hkx & _) (Hy & Hky & _). unfold f64_partial_cmp. rewrite Hx, Hy, Hkx, Hky. cbn [orb].
  by rewrite <- Zmult_compare_compat_r by (apply Z.lt_gt, unit_positive).
Qed.
Lemma scaled_days n : 0 <= n < 5373485 -> scaled (i64_as_f64 n) f86400 = n * MS_PER_DAY.
Proof.
  intros Hn. destruct int_literals as (E1000 & E86400 & _ & _ & E0). unfold scaled.
  pose proof (of_i64_exactly n ltac:(lia)) as H1. pose proof (of_i64_exactly 0 ltac:(lia)) as H0. rewrite E0 in H0.
  unfold f64_lt. rewrite (compare_ints _ _ _ _ H1 H0). destruct (Z.compare_spec n 0); [|lia|];
  (pose proof (mul_ints _ _ _ _ H1 (of_i64_exactly 1000 ltac:(lia)) ltac:(lia)) as H2;
   pose proof (mul_ints _ _ _ _ H2 (of_i64_exactly 86400 ltac:(lia)) ltac:(lia)) as H3; rewrite <- E1000, <- E86400 in H3;
   set (i := n * 1000 * 86400) in *;
   assert (f64_unit = 2 * spow 1073) as Hs by (by apply (spow_add 1 1073));
   pose proof (spow_pos 1073 ltac:(lia)) as Hp; assert ((2 * i + 1) * spow 1073 = i * f64_unit + spow 1073) as E by (rewrite Hs; lia);
   assert (exactly (f64_add (f64_mul (f64_mul (i64_as_f64 n) f1000) f86400) f0_5) ((2 * i + 1) * spow 1073)) as H4;
   [rewrite E; apply add_exactly; [done|apply f0_5_exactly|..]; rewrite <- E, Z.abs_mul, (Z.abs_eq (spow 1073)) by lia;
      [apply scaled_representable; lia|rewrite Hs, Z.mul_assoc; apply Z.mul_lt_mono_pos_r; lia]|];
   rewrite (to_i64_exactly _ _ H4), Hs, Z.quot_mul_cancel_r by lia; unfold MS_PER_DAY;
   rewrite Z.quot_div_nonneg by lia; symmetry; apply (Z.div_unique _ 2 _ 1); [left; lia|unfold i; lia]).
Qed.
Lemma day_unit n : 0 <= n < 5373485 -> find_unit (bytes_of "day") (i64_as_f64 n) = Some (mkXform "day" f_day f86400).
Proof.
  intros Hn. destruct int_literals as (_ & _ & Ed & Eo & _). unfold find_unit, A_XFORM. cbn [List.find xf_name xf_limit].
  change (zlen (bytes_of "second") =? zlen (bytes_of "day")) with false. change (zlen (bytes_of "minute") =? zlen (bytes_of "day")) with false.
  change (zlen (bytes_of "hour") =? zlen (bytes_of "day")) with false. cbn [andb].
  change (zlen (bytes_of "day") =? zlen (bytes_of "day")) with true.
  change (eq_ignore_ascii_case (bytes_of "day") (bytes_of "day")) with true. cbn [andb].
  unfold f64_gt, f64_lt. rewrite Eo, Ed.
  rewrite (compare_ints _ _ _ _ (of_i64_exactly n ltac:(lia)) (of_i64_exactly (-5373485) ltac:(lia))).
  rewrite (compare_ints _ _ _ _ (of_i64_exactly n ltac:(lia)) (of_i64_exactly 5373485 ltac:(lia))).
  rewrite (proj2 (Z.compare_gt_iff n (-5373485))), (proj2 (Z.compare_lt_iff n 5373485)) by lia. done.
Qed.
Lemma zget_app_at {A} (l1 l2 : list A) : zget (l1 ++ l2) (zlen l1) = head l2.
Proof.
  unfold zget, zlen. destruct (Z.ltb_spec (Z.of_nat (length l1)) 0); [lia|]. rewrite Nat2Z.id, lookup_app_r, Nat.sub_diag by lia. by destruct l2.
Qed.

(** The effect of [+n days] on a record that has, or gets, a julian day. *)
Definition moved (jd : Z) (p : DateTime) : DateTime := clear_ymd_hms_tz (set_jd jd (set_floor 0 p)).
Lemma plus_days_run n p p' i : 0 <= n < 5373485 -> compute_jd p = (Ok tt, p') -> valid_jd p' = true ->
  -2 ^ 62 <= i_jd p' < 2 ^ 62 -> parse_modifier (plus_days n) i p = (Ok tt, moved (i_jd p' + n * MS_PER_DAY) p').
Proof.
  intros Hn Hp Hj Hr. destruct (i64_digits n) as (c & ds & En & Hd & Hv); [lia|].
  assert (plus_days n = (43 :: c :: ds) ++ 32 :: bytes_of "days") as Es by (unfold plus_days; by rewrite En).
  assert (trim (plus_days n) = plus_days n) as Ht.
  { assert (plus_days n = 43 :: ((c :: ds) ++ bytes_of " day") ++ [115]) as E by (rewrite Es; cbn; by rewrite <- app_assoc). rewrite E.
    apply trim_none; [|done|done]. constructor; [lia|]. apply Forall_app. split; [|by repeat constructor]. apply Forall_app. split; [|by repeat constructor].
    by apply (digits_ascii (zlen (c :: ds)) n). }
  assert (parse_modifier (plus_days n) i p = parse_numeric_modifier (plus_days n) p) as ->.
  { unfold parse_modifier. rewrite Ht. rewrite Es. reflexivity. }
  unfold parse_numeric_modifier. rewrite (M_bind_ok _ _ p 43 p) by (by rewrite Es).
  assert (number_end 1 (zdrop 1 (plus_days n)) = zlen (43 :: c :: ds)) as ->.
  { rewrite Es. change (zdrop 1 ((43 :: c :: ds) ++ 32 :: bytes_of "days")) with ((c :: ds) ++ 32 :: bytes_of "days").
    by rewrite (number_end_digits (c :: ds)), (zlen_cons 43). }
  rewrite Es, zget_app_at. cbn [head]. rewrite bool_decide_false by done. cbv iota.
  rewrite (M_bind_ok _ _ p (43 :: c :: ds) p).
  2:{ unfold lift, str_to, is_char_boundary. rewrite zget_app_at, ztake_app_le, ztake_all by lia. cbn [head]. by rewrite orb_true_r. }
  rewrite (numeric_prefix_plus (c :: ds)), Hv by (rewrite ?Hv; unfold is_i64; done || lia). rewrite bool_decide_false by done. cbv iota.
  rewrite zdrop_app_ge, Z.sub_diag, zdrop_0 by lia. change (unit_name (skip_ws (32 :: bytes_of "days"))) with (Some (bytes_of "day")). cbv iota.
  rewrite (M_bind_ok _ _ _ _ _ Hp), modify_then. change (as_f64 (Int n)) with (i64_as_f64 n). rewrite day_unit by done.
  unfold add_units. cbn [xf_name xf_xform]. rewrite !bool_decide_false by done. cbv iota.
  rewrite (M_bind_ok _ _ _ tt (set_jd (i_jd p' + n * MS_PER_DAY) (set_floor 0 p'))); [done|].
  rewrite (M_bind_ok _ _ _ _ _ (compute_jd_done (set_floor 0 p') Hj)), scaled_days by done. unfold add_ms. rewrite get_then.
  rewrite (M_bind_ok _ _ _ (i_jd p' + n * MS_PER_DAY) (set_floor 0 p')); [done|]. unfold lift, chk_i64. cbn [i_jd set_floor]. unfold MS_PER_DAY.
  destruct (Z.leb_spec (-2 ^ 63) (i_jd p' + n * 86400000)), (Z.ltb_spec (i_jd p' + n * 86400000) (2 ^ 63)); lia || done.
Qed.

(** *** Many days *)

Definition year (x : date) : Z := fst (fst x).
Notation after k x := (Nat.iter k next_day x).
Lemma year_next x : year x <= year (next_day x).
Proof. destruct x as [[y m] d]. unfold next_day, year. repeat case_match; cbn; lia. Qed.
Lemma year_after k x : year x <= year (after k x).
Proof. induction k as [|k IH]; [done|]. cbn [Nat.iter]. etrans; [exact IH|apply year_next]. Qed.
Lemma year_ok_iff x : year_ok x <-> -4712 <= year x <= 10000.
Proof. by destruct x as [[y m] d]. Qed.
Lemma four_digits_iff x : four_digits x <-> 0 <= year x <= 9999.
Proof. by destruct x as [[y m] d]. Qed.
Lemma day_number_after k x : valid_date x -> year_ok x -> year_ok (after k x) ->
  valid_date (after k x) /\ day_number (after k x) = day_number x + Z.of_nat k.
Proof.
  intros Hv Hy. induction k as [|k IH]; intros Hk; [by rewrite Z.add_0_r|].
  change (after (S k) x) with (next_day (after k x)) in *.
  assert (year_ok (after k x)) as Hk'.
  { apply year_ok_iff. apply year_ok_iff in Hy, Hk. pose proof (year_after k x). pose proof (year_next (after k x)). lia. }
  destruct (IH Hk') as [Hv' Hn]. destruct (day_number_next _ Hv' Hk') as [-> ?]. split; [done|lia].
Qed.
Lemma jd_at_range x : valid_date x -> four_digits x ->
  1525 <= day_number x <= 5375008 /\ valid_julian_day (jd_at x) = true.
Proof.
  intros Hv Hf. pose proof (proj1 (four_digits_iff x) Hf) as Hy. pose proof (day_number_range x Hv (proj2 (year_ok_iff x) ltac:(lia))) as Hr.
  assert (day_number x <= 5375008) as Hb.
  2:{ split; [lia|]. unfold valid_julian_day, jd_at, MAX_IJD_POS. rewrite andb_true_iff, !Z.leb_le. lia. }
  clear Hr. destruct x as [[y m] d]. pose proof (day_of_year y m d Hv) as Hd. unfold day_number. cbn [year fst] in Hy. unfold year in Hy. cbn in Hy.
  destruct (shifted y m) as [y' m']. destruct Hd as (Hm' & Hy' & _ & _ & Hd1 & Hd2 & _).
  assert (month_days (m' + 1) <= (if m' <=? 12 then 428 else 489)) as Hm by (unfold month_days; destruct (Z.leb_spec m' 12); Z.to_euclidean_division_equations; lia).
  unfold year_days, century. destruct (m' <=? 12); clear - Hy Hy' Hd2 Hm; Z.to_euclidean_division_equations; lia.
Qed.

(** ** The theorems *)

(** C14: The conversions of the date functions between calendar dates and
    julian days are the proleptic Gregorian calendar, although they are
    computed in floating point with constants like 30.6001 and 122.1. For every
    date from the year -4712 to the year 9999: every moment of the day is
    converted back to that date, and the next date of the calendar (lengths of
    months and leap years by the rules) starts exactly one day later; with the
    julian day of 1970-01-01 this determines the conversion everywhere. *)
Theorem calendar_correct x t : valid_date x -> -4712 <= year x <= 9999 -> 0 <= t < MS_PER_DAY ->
  let jd '(y, m, d) := jd_of_ymd y m d in
  ymd_of_jd (jd x + t) = x /\
  jd (next_day x) = jd x + MS_PER_DAY /\
  jd (1970, 1, 1) = UNIX_EPOCH_IJD.
Proof.
  intros Hv Hy Ht jd. assert (year_ok x) as Hok by (apply year_ok_iff; lia).
  assert (forall x, valid_date x -> year_ok x -> jd x = jd_at x) as Hjd by (intros [[y m] d]; apply jd_of_ymd_spec).
  destruct (day_number_next x Hv Hok) as [Hn Hv']. assert (year_ok (next_day x)) as Hok'.
  { apply year_ok_iff. pose proof (year_next x). destruct x as [[y m] d]. unfold year in *. cbn in *. repeat case_match; cbn in *; lia. }
  rewrite !Hjd by (done || (cbn; lia)). split; [by apply ymd_of_jd_spec|]. unfold jd_at at 1 2. rewrite Hn. split; [unfold MS_PER_DAY; lia|].
  reflexivity.
Qed.
Lemma calendar_correct_witness :
  ymd_of_jd (jd_of_ymd 2000 2 29 + 43200000) = (2000, 2, 29) /\
  jd_of_ymd 2000 3 1 = jd_of_ymd 2000 2 29 + MS_PER_DAY /\ jd_of_ymd 1970 1 1 = UNIX_EPOCH_IJD.
Proof. apply (calendar_correct (2000, 2, 29) 43200000); repeat split; vm_compute; congruence. Defined.

(** C15: [date('YYYY-MM-DD', '+N days')] is the date N days later in the
    calendar, as the same kind of text: for every date of the years 0 to 9999
    and every N such that the result is in these years too, through the parser
    of dates, the parser of modifiers, the conversion to a julian day and back,
    and the rendering. *)
Theorem date_plus_days x n now : valid_date x -> four_digits x -> 0 <= n -> four_digits (after (Z.to_nat n) x) ->
  date_fn [Text (date_string x); Text (plus_days n)] now = Ok (Text (date_string (after (Z.to_nat n) x))).
Proof.
  intros Hv Hf Hn Hf'. set (x' := after (Z.to_nat n) x) in *.
  assert (year_ok x /\ year_ok x') as [Hy Hy'] by (rewrite !year_ok_iff; rewrite four_digits_iff in *; lia).
  destruct (day_number_after (Z.to_nat n) x Hv Hy Hy') as [Hv' Hd]. fold x' in Hv', Hd. rewrite Z2Nat.id in Hd by done.
  destruct (jd_at_range x Hv Hf) as [Hr Hj]. destruct (jd_at_range x' Hv' Hf') as [Hr' Hj'].
  assert (compute_jd (parsed x) = (Ok tt, at_jd (jd_at x) (parsed x))) as Hc by (by apply compute_jd_civil; destruct x as [[y m] d]).
  assert (jd_at x + n * MS_PER_DAY = jd_at x') as Hjd by (unfold jd_at, MS_PER_DAY; lia).
  unfold date_fn, with_date. set (q := moved (jd_at x') (at_jd (jd_at x) (parsed x))).
  assert (is_date [Text (date_string x); Text (plus_days n)] now DateTime_default = (Ok tt, q)) as ->.
  { unfold is_date. rewrite (M_bind_ok _ _ _ tt DateTime_default) by done.
    rewrite (M_bind_ok _ _ _ _ _ (parse_date x now Hv Hf)). cbn [modifiers].
    rewrite (M_bind_ok _ _ _ tt q).
    - rewrite (M_bind_ok _ _ _ _ _ (compute_jd_done q eq_refl)), get_then. change (i_jd q) with (jd_at x'). rewrite Hj'.
      assert (is_error q = false) as -> by (by destruct x as [[y m] d]). rewrite bool_decide_false by done. done.
    - rewrite (M_bind_ok _ _ _ (Some (plus_days n)) (parsed x)) by done.
      rewrite (M_bind_ok _ _ _ tt q); [done|]. unfold q. rewrite <- Hjd.
      apply (plus_days_run n (parsed x) (at_jd (jd_at x) (parsed x))); [lia|done|done|]. change (i_jd (at_jd _ _)) with (jd_at x). unfold jd_at. lia. }
  unfold final, compute_ymd. rewrite get_then. change (valid_ymd q) with false. change (valid_jd q) with true. change (i_jd q) with (jd_at x').
  rewrite Hj'. cbn [negb]. pose proof (ymd_of_jd_spec x' 0 Hv' Hy' ltac:(unfold MS_PER_DAY; lia)) as Hx. rewrite Z.add_0_r in Hx. fold (jd_at x') in Hx.
  rewrite Hx. destruct x' as [[y m] d]. unfold four_digits in Hf'. cbn -[ymd_text]. unfold ymd_text, year_sign. cbn -[date_text].
  destruct (Z.ltb_spec y 0); [lia|]. by rewrite Z.abs_eq by lia.
Qed.
Lemma date_plus_days_witness :
  date_fn [Text (bytes_of "1999-12-31"); Text (bytes_of "+60 days")] None = Ok (Text (bytes_of "2000-02-29")).
Proof. apply (date_plus_days (1999, 12, 31) 60 None); repeat split; vm_compute; congruence. Defined.

(** *** A modifier that cannot be used

    The text after a modifier [±YYYY-MM-DD] is taken from byte 12, one past
    the end when there is no time: the slice panics. *)
Lemma ymd_modifier_never_succeeds z0 y m d s p p' : zlen s < 12 ->
  apply_year_month_day_modifier z0 y m d s p <> (Ok tt, p').
Proof.
  intros Hs Hx. unfold apply_year_month_day_modifier in Hx. destruct (12 <=? m); [done|]. destruct (31 <=? d); [done|].
  do 8 (apply M_bind_inv in Hx as (? & ? & _ & Hx)). apply M_bind_inv in Hx as (? & ? & Hx & _). revert Hx.
  unfold lift, str_from, is_char_boundary. destruct (Z.eqb_spec 12 (zlen s)); [lia|].
  destruct (zget s 12) eqn:Hg; [|done]. apply zget_Some in Hg. lia.
Qed.
