(* ===== verification/ExprGen.v ===== *)
(** * Expression code generation

    [codegen/expr.rs]: [compile_expr] emits code that leaves the value of an
    expression in a register, [compile_jump] code that jumps on its truth;
    columns resolve against a table, the tables of a join, an index that covers
    the query, a block of registers or an enclosing query. The code of
    subqueries comes through the class [SubqueryCodegen], since it is compiled
    by the generator of queries, which calls back here. *)

From S2P Require Import Prelude Utf8 Value Str Fp Program Ast Schema Builder Registry.
#[local] Open Scope Z_scope.

(** ** Contexts *)

(** [SubqueryResolver]: the table and the indexes of the query's [FROM]. *)
Definition SubqueryResolver := SelectStmt -> outcome (option Table * list IndexObject).
Record OuterTable := mkOuterTable { ot_table : Table; ot_cursor : Z; ot_name : bytes }.
(** The chain of [OuterScope]s, innermost first. *)
Definition OuterScope := list (list OuterTable).
Definition OUTER_CURSOR_BASE : Z := 10000.
Record JoinTable := mkJoinTable { jt_table : Table; jt_cursor : Z; jt_name : bytes }.
Record IndexRead := mkIndexRead { ir_cursor : Z; ir_column_positions : list Z; ir_rowid_position : Z }.
Definition usize_max : Z := 2 ^ 64 - 1.
Record Ctx := mkCtx {
  x_table : Table; x_cursor : Z; x_register_base : option Z; x_index_read : option IndexRead;
  x_join_tables : option (list JoinTable); x_subquery_resolver : option SubqueryResolver; x_outer : option OuterScope }.

(** Compiling the subqueries of an expression: the membership test, [EXISTS]
    and the scalar query, which yield a result register. *)
Class SubqueryCodegen := {
  compile_in_subquery : Expr -> SelectStmt -> bool -> option Table -> list IndexObject -> Z -> Z -> Ctx -> BuildM unit;
  compile_exists_subquery : SelectStmt -> option Table -> list IndexObject -> Ctx -> BuildM Z;
  compile_scalar_subquery : SelectStmt -> option Table -> list IndexObject -> Ctx -> BuildM Z }.

Definition fail_msg {A} (m : string) : BuildM A := fail (Error_msg m).

(** ** Columns *)

Definition no_such_column : Error := Error_msg "no such column".
(** The matches of a name in the tables of one scope. *)
Definition outer_matches (qualifier : option bytes) (name : bytes) (ts : list OuterTable) : list (OuterTable * ColumnRef) :=
  omap (fun t =>
    if match qualifier with Some q => eq_ignore_ascii_case (ot_name t) q | None => true end
    then cr ← resolve_column (ot_table t) name; Some (t, cr) else None) ts.
(** A match, the last of the scope; a qualified name stays in the scope. *)
Fixpoint lookup_outer (scopes : OuterScope) (qualifier : option bytes) (name : bytes) : option (OuterTable * ColumnRef) :=
  match scopes with
  | [] => None
  | ts :: scopes =>
      match last (outer_matches qualifier name ts) with
      | Some m => Some m
      | None => match qualifier with Some _ => None | None => lookup_outer scopes qualifier name end
      end
  end.
(** An emission, or a jump, whose address is not used. *)
Definition emit_ (op : Opcode) (a b c : Z) : BuildM unit := _ ← emit op a b c; mret tt.
Definition emit_jump_ (op : Opcode) (a : Z) (l : Label) (c : Z) : BuildM unit := _ ← emit_jump op a l c; mret tt.
Definition emit_p4 (op : Opcode) (a b c : Z) (p : P4) : BuildM unit := i ← emit op a b c; set_p4 i p.
Definition real_affinity (t : Table) (i target : Z) : BuildM unit :=
  c ← lift (column_at t i);
  if bool_decide (c_affinity c = AffReal) then emit_ Opcode.RealAffinity target 0 0 else mret tt.
(** The stored position of a column. *)
Definition column_position (t : Table) (i : Z) : BuildM Z :=
  if t_without_rowid t then p ← lift (expect (without_rowid_storage_index t i)); mret (i32 p) else mret (i32 i).
Definition emit_outer_column (ot : OuterTable) (r : ColumnRef) (target : Z) : BuildM unit :=
  match r with
  | CR_Rowid => emit_ Opcode.Rowid (ot_cursor ot) target 0
  | CR_Index i =>
      p ← column_position (ot_table ot) i;
      emit_ Opcode.Column (ot_cursor ot) p target ;;
      real_affinity (ot_table ot) i target
  end.
Definition try_outer (ctx : Ctx) (qualifier : option bytes) (name : bytes) (target : Z) : BuildM unit :=
  match (scopes ← x_outer ctx; lookup_outer scopes qualifier name) with
  | Some (ot, r) => emit_outer_column ot r target
  | None => fail no_such_column
  end.

(** [columnN] of a derived VALUES table: [str::parse::<usize>] accepts a plus. *)
Definition parse_usize_str (s : bytes) : option Z :=
  let ds := match s with b :: t => if b =? 43 then t else s | [] => s end in
  let n := digits_value ds in
  if negb (is_nil ds) && forallb is_digit ds && (n <? 2 ^ 64) then Some n else None.
Definition values_column (col_name : bytes) : Z :=
  let pre := bytes_of "column" in
  if starts_with pre col_name then default 0 (parse_usize_str (zdrop (zlen pre) col_name)) else 0.
Definition qualified_name (qualifier : option bytes) (name : bytes) : bytes :=
  match qualifier with Some q => q ++ bytes_of "." ++ name | None => name end.

(** [base + i as i32], checked. *)
Definition plus_i32 (base i : Z) : BuildM Z := lift (chk_i32 (base + i32 i)).

(** The column in a single table. *)
Definition compile_column_single (ctx : Ctx) (qualifier : option bytes) (name : bytes) (target : Z) : BuildM unit :=
  let t := x_table ctx in
  if is_nil (t_columns t) then
    let n := values_column (qualified_name qualifier name) in
    if n =? 0 then try_outer ctx qualifier name target
    else
      r ← plus_i32 (default 0 (x_register_base ctx)) n;
      r ← lift (chk_i32 (r - 1));
      emit_ Opcode.SCopy r target 0
  else
    match resolve_column t name with
    | Some CR_Rowid =>
        match x_register_base ctx, t_rowid_alias t, x_index_read ctx with
        | Some base, Some alias, _ => r ← plus_i32 base alias; emit_ Opcode.SCopy r target 0
        | Some _, None, _ => emit_ Opcode.Rowid (x_cursor ctx) target 0
        | None, _, Some ir => emit_ Opcode.Column (ir_cursor ir) (i32 (ir_rowid_position ir)) target
        | None, _, None => emit_ Opcode.Rowid (x_cursor ctx) target 0
        end
    | Some (CR_Index i) =>
        match x_register_base ctx, x_index_read ctx with
        | Some base, _ => r ← plus_i32 base i; emit_ Opcode.SCopy r target 0
        | None, Some ir =>
            let pos := default usize_max (zget (ir_column_positions ir) i) in
            if pos =? usize_max then emit_ Opcode.Null 0 target 0
            else emit_ Opcode.Column (ir_cursor ir) (i32 pos) target ;; real_affinity t i target
        | None, None =>
            p ← column_position t i;
            emit_ Opcode.Column (x_cursor ctx) p target ;;
            real_affinity t i target
        end
    | None => try_outer ctx qualifier name target
    end.
(** The context of one table of a join. *)
Definition join_ctx (ctx : Ctx) (t : JoinTable) : Ctx :=
  mkCtx (jt_table t) (jt_cursor t) (x_register_base ctx) None None (x_subquery_resolver ctx) (x_outer ctx).
Definition find_join_table (jts : list JoinTable) (qualifier : option bytes) (name : bytes) : option JoinTable :=
  List.find (fun t => match qualifier with
                      | Some q => eq_ignore_ascii_case (jt_name t) q
                      | None => is_some (resolve_column (jt_table t) name)
                      end) jts.
Definition compile_column (ctx : Ctx) (qualifier : option bytes) (name : bytes) (target : Z) : BuildM unit :=
  match x_join_tables ctx with
  | Some jts =>
      match find_join_table jts qualifier name with
      | Some t => compile_column_single (join_ctx ctx t) qualifier name target
      | None => fail no_such_column
      end
  | None => compile_column_single ctx qualifier name target
  end.

(** ** Affinity and collation of an expression *)

Definition is_numeric_affinity (a : Affinity) : bool :=
  match a with AffInteger | AffReal | AffNumeric => true | _ => false end.
(** [columns[i]] is there when [resolve_column] found it. *)
Definition expr_affinity (ctx : Ctx) (e : Expr) : option Affinity :=
  match e with
  | E_Column _ _ name =>
      match resolve_column (x_table ctx) name with
      | Some (CR_Index i) => c_affinity <$> zget (t_columns (x_table ctx)) i
      | Some CR_Rowid => Some AffInteger
      | None => None
      end
  | _ => None
  end.
Definition comparison_affinity (ctx : Ctx) (l r : Expr) : option Affinity :=
  match expr_affinity ctx l, expr_affinity ctx r with
  | Some a, Some b => if is_numeric_affinity a || is_numeric_affinity b then Some AffNumeric else None
  | Some a, None => Some a
  | None, b => b
  end.
Definition column_collation (t : Table) (r : ColumnRef) : option Collation :=
  match r with
  | CR_Index i => c ← zget (t_columns t) i; (if bool_decide (c_collation c = Binary) then None else Some (c_collation c))
  | CR_Rowid => None
  end.
Definition join_column (jts : list JoinTable) (qualifier : option bytes) (name : bytes) : option (Table * ColumnRef) :=
  t ← find_join_table jts qualifier name; r ← resolve_column (jt_table t) name; Some (jt_table t, r).
Definition resolve_column_collation (ctx : Ctx) (qualifier : option bytes) (name : bytes) : option Collation :=
  match (jts ← x_join_tables ctx; join_column jts qualifier name) with
  | Some (t, r) => column_collation t r
  | None =>
      let t := x_table ctx in
      if match qualifier with Some q => eq_ignore_ascii_case (t_name t) q | None => true end then
        match resolve_column t name with
        | Some r => column_collation t r
        | None =>
            '(ot, r) ← (scopes ← x_outer ctx; lookup_outer scopes qualifier name);
            column_collation (ot_table ot) r
        end
      else None
  end.
Fixpoint expr_collation (ctx : Ctx) (e : Expr) : option Collation :=
  match e with
  | E_Collate e name => match Collation_from_name name with Some c => Some c | None => expr_collation ctx e end
  | E_Column _ table name => resolve_column_collation ctx table name
  | _ => None
  end.
Definition comparison_collation (ctx : Ctx) (l r : Expr) : option Collation :=
  match expr_collation ctx l, expr_collation ctx r with
  | Some c, _ | None, Some c => if bool_decide (c = Binary) then None else Some c
  | None, None => None
  end.
Definition collation_name (c : Collation) : bytes :=
  bytes_of match c with Binary => "BINARY" | NoCase => "NOCASE" | RTrim => "RTRIM" end.

(** ** Operators *)

Definition arith_opcode (op : BinaryOp) : option Opcode :=
  match op with
  | BinaryOp.Add => Some Opcode.Add
  | BinaryOp.Sub => Some Opcode.Subtract
  | BinaryOp.Mul => Some Opcode.Multiply
  | BinaryOp.Div => Some Opcode.Divide
  | BinaryOp.Mod => Some Opcode.Remainder
  | BinaryOp.Concat => Some Opcode.Concat
  | BinaryOp.BitAnd => Some Opcode.BitAnd
  | BinaryOp.BitOr => Some Opcode.BitOr
  | BinaryOp.ShiftLeft => Some Opcode.ShiftLeft
  | BinaryOp.ShiftRight => Some Opcode.ShiftRight
  | _ => None
  end.
Definition cmp_opcode (op : BinaryOp) : option (Opcode * bool) :=
  match op with
  | BinaryOp.Eq => Some (Opcode.Eq, false)
  | BinaryOp.Ne => Some (Opcode.Ne, false)
  | BinaryOp.Lt => Some (Opcode.Lt, false)
  | BinaryOp.Le => Some (Opcode.Le, false)
  | BinaryOp.Gt => Some (Opcode.Gt, false)
  | BinaryOp.Ge => Some (Opcode.Ge, false)
  | BinaryOp.Is => Some (Opcode.Eq, true)
  | BinaryOp.IsNot => Some (Opcode.Ne, true)
  | _ => None
  end.
Definition negate_cmp (op : Opcode) : Opcode :=
  match op with
  | Opcode.Eq => Opcode.Ne | Opcode.Ne => Opcode.Eq | Opcode.Lt => Opcode.Ge
  | Opcode.Ge => Opcode.Lt | Opcode.Le => Opcode.Gt | Opcode.Gt => Opcode.Le
  | other => other
  end.
Definition compile_literal (lit : Literal) (target : Z) : BuildM unit :=
  match lit with
  | Literal.Null => emit_ Opcode.Null 0 target 0
  | Literal.Integer n =>
      if (- 2 ^ 31 <=? n) && (n <? 2 ^ 31) then emit_ Opcode.Integer n target 0
      else emit_p4 Opcode.Int64 0 target 0 (P4_Int n)
  | Literal.Real r => emit_p4 Opcode.Real 0 target 0 (P4_Real r)
  | Literal.Text s => emit_p4 Opcode.String8 0 target 0 (P4_Text s)
  | Literal.Blob b => emit_p4 Opcode.Blob 0 target 0 (P4_Blob b)
  | Literal.Bool b => emit_ Opcode.Integer (if b then 1 else 0) target 0
  end.
Definition const_negate (e : Expr) : option Literal :=
  match e with
  | E_Literal (Literal.Integer n) => if n =? - 2 ^ 63 then None else Some (Literal.Integer (- n))
  | E_Literal (Literal.Real r) => Some (Literal.Real (f64_opp r))
  | _ => None
  end.
Definition json_index (neg : bool) (k : Z) : bytes :=
  bytes_of (if neg then "$[#-" else "$[") ++ i64_to_string k ++ bytes_of "]".
Definition json_arrow_path_literal (right : Expr) : option bytes :=
  match right with
  | E_Literal (Literal.Text s) => Some (if starts_with [36] s then s else bytes_of "$." ++ s)
  | E_Literal (Literal.Integer n) =>
      if n >=? 0 then Some (json_index false n)
      else if n =? - 2 ^ 63 then None else Some (json_index true (- n))
  | E_Unary UnaryOp.Negate (E_Literal (Literal.Integer k)) => Some (json_index true k)
  | _ => None
  end.
(** A call of the function [name] on [n] registers from [start]. *)
Definition emit_function (name : bytes) (start n target : Z) : BuildM unit :=
  i ← emit Opcode.Function 0 start target; set_p4 i (P4_Symbol name) ;; set_p5 i n.
Definition emit_collation (i : Z) (coll : option Collation) : BuildM unit :=
  match coll with Some c => set_p4 i (P4_Symbol (collation_name c)) | None => mret tt end.
Definition jump_if_null_flag (b : bool) : Z := if b then P5_JUMPIFNULL else 0.
(** A conditional jump with flags. *)
Definition emit_cmp_jump (op : Opcode) (r1 : Z) (l : Label) (r3 p5 : Z) : BuildM unit := i ← emit_jump op r1 l r3; set_p5 i p5.

(** ** Expressions *)

Section Compile.
Context `{SubqueryCodegen} (ctx : Ctx).

(** [ce] compiles the operands. *)
Section Operands.
Variable ce : Expr -> Z -> BuildM unit.

(** An operand in a fresh register. *)
Definition operand (e : Expr) : BuildM Z := r ← alloc_reg; ce e r ;; mret r.
Definition compile_unary (op : UnaryOp) (e : Expr) (target : Z) : BuildM unit :=
  match op with
  | UnaryOp.Negate =>
      match const_negate e with
      | Some lit => compile_literal lit target
      | None =>
          tmp ← operand e;
          zero ← alloc_reg;
          emit_ Opcode.Integer 0 zero 0 ;;
          emit_ Opcode.Subtract tmp zero target
      end
  | UnaryOp.Positive => ce e target
  | UnaryOp.Not => tmp ← operand e; emit_ Opcode.Not tmp target 0
  | UnaryOp.BitNot => tmp ← operand e; emit_ Opcode.BitNot tmp target 0
  end.
Definition compile_json_arrow (op : BinaryOp) (l r : Expr) (target : Z) : BuildM unit :=
  let fn_name := bytes_of (if bool_decide (op = BinaryOp.JsonExtract) then "_json_arrow" else "_json_arrow_text") in
  start ← alloc_regs 2;
  ce l start ;;
  match json_arrow_path_literal r with
  | Some path => emit_p4 Opcode.String8 0 (start + 1) 0 (P4_Text path)
  | None => ce r (start + 1)
  end ;;
  emit_function fn_name start 2 target.
Definition compile_binary (op : BinaryOp) (l r : Expr) (target : Z) : BuildM unit :=
  match arith_opcode op, cmp_opcode op with
  | Some opcode, _ =>
      rl ← operand l;
      rr ← operand r;
      emit_ opcode rr rl target
  | None, Some (opcode, nulleq) =>
      rl ← operand l;
      rr ← operand r;
      let p5 := Z.lor (aff_to_p5 (comparison_affinity ctx l r)) P5_STOREP2 in
      i ← emit opcode rr target rl;
      set_p5 i (if nulleq : bool then Z.lor p5 P5_NULLEQ else p5) ;;
      emit_collation i (comparison_collation ctx l r)
  | None, None =>
      match op with
      | BinaryOp.And | BinaryOp.Or =>
          rl ← operand l;
          rr ← operand r;
          emit_ (if bool_decide (op = BinaryOp.And) then Opcode.And else Opcode.Or) rl rr target
      | BinaryOp.Like | BinaryOp.Glob =>
          start ← alloc_regs 2;
          ce r start ;;
          ce l (start + 1) ;;
          emit_function (bytes_of (if bool_decide (op = BinaryOp.Like) then "like" else "glob")) start 2 target
      | BinaryOp.JsonExtract | BinaryOp.JsonExtractText => compile_json_arrow op l r target
      | BinaryOp.Regexp | BinaryOp.Match =>
          fail_msg "REGEXP / MATCH operators are not supported by the executor yet"
      | _ => lift Panic
      end
  end.
(** The three operands of BETWEEN and the affinity of its comparisons. *)
Definition between_operands (e low high : Expr) : BuildM (Z * Z * Z * option Affinity) :=
  r ← operand e;
  lo ← operand low;
  hi ← operand high;
  mret (r, lo, hi, match comparison_affinity ctx e low with Some a => Some a | None => comparison_affinity ctx e high end).
Definition compile_between (e low high : Expr) (negated : bool) (target : Z) : BuildM unit :=
  '(r, lo, hi, aff) ← between_operands e low high;
  let p5 := Z.ldiff (Z.lor (aff_to_p5 aff) P5_JUMPIFNULL) P5_JUMPIFNULL in
  dest_true ← new_label;
  dest_false ← new_label;
  dest_null ← new_label;
  dest_end ← new_label;
  emit_jump_ Opcode.IsNull r dest_null 0 ;;
  (if negated then
     emit_cmp_jump Opcode.Lt lo dest_true r p5 ;;
     emit_cmp_jump Opcode.Gt hi dest_true r p5 ;;
     emit_ Opcode.Integer 0 target 0 ;;
     emit_jump_ Opcode.Goto 0 dest_end 0 ;;
     resolve dest_true ;;
     emit_ Opcode.Integer 1 target 0
   else
     emit_cmp_jump Opcode.Lt lo dest_false r p5 ;;
     emit_cmp_jump Opcode.Gt hi dest_false r p5 ;;
     emit_ Opcode.Integer 1 target 0 ;;
     emit_jump_ Opcode.Goto 0 dest_end 0 ;;
     resolve dest_false ;;
     emit_ Opcode.Integer 0 target 0) ;;
  emit_jump_ Opcode.Goto 0 dest_end 0 ;;
  resolve dest_null ;;
  emit_ Opcode.Null target 0 0 ;;
  resolve dest_end.
Fixpoint compile_args (args : list Expr) (r : Z) : BuildM unit :=
  match args with [] => mret tt | a :: args => ce a r ;; compile_args args (r + 1) end.
Definition compile_function (name : bytes) (distinct : bool) (args : FunctionArgs) (target : Z) : BuildM unit :=
  if distinct then fail_msg "DISTINCT in function arguments is not supported in M3a"
  else
    match args with
    | FA_Star => fail_msg "function(*) is not supported in M3a"
    | FA_List es =>
        lift (check name (zlen es)) ;;
        start ← alloc_regs (i32 (zlen es));
        compile_args es start ;;
        emit_function name start (u8 (zlen es)) target
    end.
End Operands.

Definition with_resolver {A} (f : SubqueryResolver -> BuildM A) : BuildM A :=
  match x_subquery_resolver ctx with
  | Some resolver => f resolver
  | None => fail_msg "subqueries are not supported by the executor yet"
  end.
Definition compile_in (e : Expr) (s : SelectStmt) (negated : bool) (target : Z) : BuildM unit :=
  with_resolver (fun resolver =>
    '(sub_table, sub_indexes) ← lift (resolver s);
    dest_false ← new_label;
    dest_null ← new_label;
    dest_true ← new_label;
    compile_in_subquery e s negated sub_table sub_indexes dest_false dest_null ctx ;;
    emit_ Opcode.Integer (if negated then 0 else 1) target 0 ;;
    emit_jump_ Opcode.Goto 0 dest_true 0 ;;
    resolve dest_false ;;
    emit_ Opcode.Integer (if negated then 1 else 0) target 0 ;;
    emit_jump_ Opcode.Goto 0 dest_true 0 ;;
    resolve dest_null ;;
    emit_ Opcode.Null 0 target 0 ;;
    resolve dest_true).
Fixpoint compile_expr (e : Expr) (target : Z) {struct e} : BuildM unit :=
  match e with
  | E_Literal lit => compile_literal lit target
  | E_Column _ table name => compile_column ctx table name target
  | E_Unary op e => compile_unary compile_expr op e target
  | E_Binary op l r => compile_binary compile_expr op l r target
  | E_Function name distinct args _ _ => compile_function compile_expr name distinct args target
  | E_BindParam _ => fail_msg "bind parameters are not supported in M3a"
  | E_Between e low high negated => compile_between compile_expr e low high negated target
  | E_In _ _ _ => fail_msg "IN is not supported by the executor yet"
  | E_InSubquery e s negated => compile_in e s negated target
  | E_Exists s =>
      with_resolver (fun resolver =>
        '(sub_table, sub_indexes) ← lift (resolver s);
        r ← compile_exists_subquery s sub_table sub_indexes ctx;
        emit_ Opcode.SCopy r target 0)
  | E_Subquery s =>
      with_resolver (fun resolver =>
        '(sub_table, sub_indexes) ← lift (resolver s);
        r ← compile_scalar_subquery s sub_table sub_indexes ctx;
        emit_ Opcode.SCopy r target 0)
  | E_Cast _ _ => fail_msg "CAST is not supported by the executor yet"
  | E_Case _ _ _ => fail_msg "CASE is not supported by the executor yet"
  | E_Collate e _ => compile_expr e target
  | E_IsDistinctFrom _ _ _ => fail_msg "IS DISTINCT FROM is not supported by the executor yet"
  | E_Row _ => fail_msg "row-value expressions are not supported by the executor yet"
  | E_AggRef reg => emit_ Opcode.SCopy reg target 0
  | E_Coalesce2 l r =>
      compile_expr l target ;;
      not_null ← new_label;
      emit_jump_ Opcode.NotNull target not_null 0 ;;
      compile_expr r target ;;
      resolve not_null
  end.

(** ** Conditions *)

Definition jump_between (e low high : Expr) (negated : bool) (label : Label) (jump_if_true jump_if_null : bool) : BuildM unit :=
  '(r, lo, hi, aff) ← between_operands compile_expr e low high;
  let p5 := Z.lor (aff_to_p5 aff) (jump_if_null_flag jump_if_null) in
  let p5_short := Z.lor (aff_to_p5 aff) (jump_if_null_flag (negb jump_if_null)) in
  if negated then
    if jump_if_true then
      emit_cmp_jump Opcode.Lt lo label r p5 ;;
      emit_cmp_jump Opcode.Gt hi label r p5
    else
      d2 ← new_label;
      emit_cmp_jump Opcode.Lt lo d2 r p5_short ;;
      emit_cmp_jump Opcode.Le hi label r p5 ;;
      resolve d2
  else if jump_if_true then
    d2 ← new_label;
    emit_cmp_jump Opcode.Lt lo d2 r p5_short ;;
    emit_cmp_jump Opcode.Le hi label r p5 ;;
    resolve d2
  else
    emit_cmp_jump Opcode.Lt lo label r p5 ;;
    emit_cmp_jump Opcode.Gt hi label r p5.
(** The value in a register, then [If] or [IfNot]. *)
Definition jump_value (e : Expr) (label : Label) (jump_if_true jump_if_null : bool) : BuildM unit :=
  r ← operand compile_expr e;
  emit_jump_ (if jump_if_true then Opcode.If else Opcode.IfNot) r label (if jump_if_null then 1 else 0).
Definition jump_compare (opcode : Opcode) (nulleq : bool) (l r : Expr) (label : Label) (jump_if_true jump_if_null : bool)
    : BuildM unit :=
  rl ← operand compile_expr l;
  rr ← operand compile_expr r;
  let p5 := Z.lor (aff_to_p5 (comparison_affinity ctx l r))
              (if nulleq then P5_NULLEQ else jump_if_null_flag jump_if_null) in
  i ← emit_jump (if jump_if_true then opcode else negate_cmp opcode) rr label rl;
  set_p5 i p5 ;;
  emit_collation i (comparison_collation ctx l r).
Fixpoint compile_jump (e : Expr) (label : Label) (jump_if_true jump_if_null : bool) {struct e} : BuildM unit :=
  match e with
  | E_Binary BinaryOp.And l r =>
      if jump_if_true then
        d2 ← new_label;
        compile_jump l d2 false (negb jump_if_null) ;;
        compile_jump r label true jump_if_null ;;
        resolve d2
      else
        compile_jump l label false jump_if_null ;;
        compile_jump r label false jump_if_null
  | E_Binary BinaryOp.Or l r =>
      if jump_if_true then
        compile_jump l label true jump_if_null ;;
        compile_jump r label true jump_if_null
      else
        d2 ← new_label;
        compile_jump l d2 true (negb jump_if_null) ;;
        compile_jump r label false jump_if_null ;;
        resolve d2
  | E_Unary UnaryOp.Not e => compile_jump e label (negb jump_if_true) jump_if_null
  | E_Between e low high negated => jump_between e low high negated label jump_if_true jump_if_null
  | E_Binary op l r =>
      match cmp_opcode op with
      | Some (opcode, nulleq) => jump_compare opcode nulleq l r label jump_if_true jump_if_null
      | None => jump_value e label jump_if_true jump_if_null
      end
  | _ => jump_value e label jump_if_true jump_if_null
  end.
End Compile.
