(* ===== verification/ExprEval.v ===== *)
(** * What an expression means

    The value of an expression in a row, without registers, instructions or
    labels: [eval] is the reference the compiled code is compared with. [col]
    gives the columns of the row, [aggs] the results of aggregates; scalar
    functions come through [SqlFunctions]. *)

From S2P Require Import Prelude Utf8 Float64 Value Str Fp FloatOps Program VdbeOps Vdbe Ast Schema Builder Registry ExprGen.
#[local] Open Scope Z_scope.

(** ** Comparison *)

(** The six comparisons on the result of an ordering. *)
Definition cmp_holds (op : BinaryOp) (ord : comparison) : bool :=
  match op with
  | BinaryOp.Eq | BinaryOp.Is => match ord with Eq => true | _ => false end
  | BinaryOp.Ne | BinaryOp.IsNot => match ord with Eq => false | _ => true end
  | BinaryOp.Lt => match ord with Lt => true | _ => false end
  | BinaryOp.Le => match ord with Gt => false | _ => true end
  | BinaryOp.Gt => match ord with Gt => true | _ => false end
  | BinaryOp.Ge => match ord with Lt => false | _ => true end
  | _ => false
  end.
Definition is_op (op : BinaryOp) : bool := match op with BinaryOp.Is | BinaryOp.IsNot => true | _ => false end.
(** IS compares NULLs and applies no affinity; the others are unknown on a
    NULL and compare under the affinity. *)
Definition sql_compare (op : BinaryOp) (aff : option Affinity) (coll : Collation) (x y : Value) : outcome (option bool) :=
  if is_op op then Ok (Some (cmp_holds op (mem_compare x y coll)))
  else if is_null x || is_null y then Ok None
  else
    x ← from_option (apply_affinity x) (Ok x) aff;
    y ← from_option (apply_affinity y) (Ok y) aff;
    Ok (Some (cmp_holds op (mem_compare x y coll))).

(** ** Expressions *)

Definition literal_value (l : Literal) : Value :=
  match l with
  | Literal.Null => Null
  | Literal.Integer n => Int n
  | Literal.Real r => Real r
  | Literal.Text s => Text s
  | Literal.Blob b => Blob b
  | Literal.Bool b => Int (if b then 1 else 0)
  end.
(** *** Operators *)

Definition real_result (r : Z) : Value := if f64_is_nan r then Null else Real r.
Definition exact_or_real (r real : Z) : Value :=
  if (- 2 ^ 63 <=? r) && (r <? 2 ^ 63) then Int r else Real real.
(** Arithmetic on two numbers: [ints] for two integers, [reals] otherwise. *)
Definition numbers (ints reals : Z -> Z -> Value) (x y : Value) : Value :=
  match to_num x, to_num y with
  | Some (N_I n), Some (N_I m) => ints n m
  | Some a, Some b => reals (num_f a) (num_f b)
  | _, _ => Null
  end.
Definition overflowing (op : Z -> Z -> Z) (fop : Z -> Z -> Z) : Value -> Value -> Value :=
  numbers (fun n m => exact_or_real (op n m) (fop (i64_as_f64 n) (i64_as_f64 m))) (fun a b => real_result (fop a b)).
Definition quotient : Value -> Value -> Value :=
  numbers (fun n m => if m =? 0 then Null
                      else if (n =? - 2 ^ 63) && (m =? -1) then Real (f64_div (i64_as_f64 n) (i64_as_f64 m))
                      else Int (Z.quot n m))
    (fun a b => if f64_is_zero b then Null else real_result (f64_div a b)).
(** The remainder of reals is that of their integer parts. *)
Definition remainder : Value -> Value -> Value :=
  numbers (fun n m => if m =? 0 then Null else Int (Z.rem n m))
    (fun a b => let m := f64_to_i64 b in if m =? 0 then Null else real_result (i64_as_f64 (Z.rem (f64_to_i64 a) m))).
Definition on_integers (f : Z -> Z -> Z) (x y : Value) : Value :=
  if is_null x || is_null y then Null else Int (f (as_i64 x) (as_i64 y)).
Definition shift_by (to_left : bool) (n m : Z) : Z := if m =? 0 then n else shift to_left n m.
Definition concatenation (x y : Value) : outcome Value :=
  s ← to_text x;
  t ← to_text y;
  Ok (match s, t with Some s, Some t => Text (s ++ t) | _, _ => Null end).
Definition operator_value (op : BinaryOp) (x y : Value) : outcome Value :=
  match op with
  | BinaryOp.Add => Ok (overflowing Z.add f64_add x y)
  | BinaryOp.Sub => Ok (overflowing Z.sub f64_sub x y)
  | BinaryOp.Mul => Ok (overflowing Z.mul f64_mul x y)
  | BinaryOp.Div => Ok (quotient x y)
  | BinaryOp.Mod => Ok (remainder x y)
  | BinaryOp.BitAnd => Ok (on_integers Z.land x y)
  | BinaryOp.BitOr => Ok (on_integers Z.lor x y)
  | BinaryOp.ShiftLeft => Ok (on_integers (shift_by true) x y)
  | BinaryOp.ShiftRight => Ok (on_integers (shift_by false) x y)
  | _ => concatenation x y
  end.
(** The value of a minus sign before a number. *)
Definition negated_literal (l : Literal) : option Value :=
  match l with
  | Literal.Integer n => if n =? - 2 ^ 63 then None else Some (Int (- n))
  | Literal.Real r => Some (Real (f64_opp r))
  | _ => None
  end.
(** A JSON path written as a literal: a key, a path, or an index, which counts
    from the end when it has a minus sign. *)
Definition literal_path (e : Expr) : option bytes :=
  let from_start k := bytes_of "$[" ++ i64_to_string k ++ bytes_of "]" in
  let from_end k := bytes_of "$[#-" ++ i64_to_string k ++ bytes_of "]" in
  match e with
  | E_Literal (Literal.Text s) => Some (if bool_decide (head s = Some 36) then s else bytes_of "$." ++ s)
  | E_Literal (Literal.Integer n) =>
      if 0 <=? n then Some (from_start n) else if n =? - 2 ^ 63 then None else Some (from_end (- n))
  | E_Unary UnaryOp.Negate (E_Literal (Literal.Integer k)) => Some (from_end k)
  | _ => None
  end.

Section Eval.
Context `{SqlFunctions} (ctx : Ctx) (col : option bytes -> bytes -> Value) (aggs : Z -> Value).

Definition json_arrow_value (op : BinaryOp) (x p : Value) : outcome Value :=
  Vdbe.call_scalar (bytes_of (if bool_decide (op = BinaryOp.JsonExtract) then "_json_arrow" else "_json_arrow_text")) [x; p].
Definition binary_value (op : BinaryOp) (l r : Expr) (x y : Value) : outcome Value :=
  match op with
  | BinaryOp.Add | BinaryOp.Sub | BinaryOp.Mul | BinaryOp.Div | BinaryOp.Mod | BinaryOp.Concat
  | BinaryOp.BitAnd | BinaryOp.BitOr | BinaryOp.ShiftLeft | BinaryOp.ShiftRight => operator_value op x y
  | BinaryOp.Eq | BinaryOp.Ne | BinaryOp.Lt | BinaryOp.Le | BinaryOp.Gt | BinaryOp.Ge | BinaryOp.Is | BinaryOp.IsNot =>
      b ← sql_compare op (comparison_affinity ctx l r) (default Binary (comparison_collation ctx l r)) x y;
      Ok (bool3_to_value b)
  | BinaryOp.And => Ok (bool3_to_value (and3 (truth x) (truth y)))
  | BinaryOp.Or => Ok (bool3_to_value (or3 (truth x) (truth y)))
  | _ => json_arrow_value op x y
  end.
Definition unary_value (op : UnaryOp) (x : Value) : outcome Value :=
  match op with
  | UnaryOp.Negate => operator_value BinaryOp.Sub (Int 0) x
  | UnaryOp.Positive => Ok x
  | UnaryOp.Not => Ok (bool3_to_value (negb <$> truth x))
  | UnaryOp.BitNot => Ok (bit_not x)
  end.
(** [e BETWEEN low AND high] is [e >= low AND e <= high], each comparison with
    the affinity and the collation of its operands. *)
Definition between_value (e low high : Expr) (negated : bool) (x lo hi : Value) : outcome (option bool) :=
  a ← sql_compare BinaryOp.Ge (comparison_affinity ctx e low) (default Binary (comparison_collation ctx e low)) x lo;
  b ← sql_compare BinaryOp.Le (comparison_affinity ctx e high) (default Binary (comparison_collation ctx e high)) x hi;
  Ok (let r := and3 a b in if negated then negb <$> r else r).

Fixpoint eval (e : Expr) : outcome Value :=
  match e with
  | E_Literal l => Ok (literal_value l)
  | E_Column _ table name => Ok (col table name)
  | E_Unary op e =>
      match op, e with
      | UnaryOp.Negate, E_Literal l =>
          match negated_literal l with Some v => Ok v | None => unary_value op (literal_value l) end
      | _, _ => x ← eval e; unary_value op x
      end
  | E_Binary op l r =>
      match op with
      | BinaryOp.Like | BinaryOp.Glob =>
          y ← eval r;
          x ← eval l;
          Vdbe.call_scalar (bytes_of (if bool_decide (op = BinaryOp.Like) then "like" else "glob")) [y; x]
      | BinaryOp.JsonExtract | BinaryOp.JsonExtractText =>
          x ← eval l;
          p ← match literal_path r with Some p => Ok (Text p) | None => eval r end;
          json_arrow_value op x p
      | _ => x ← eval l; y ← eval r; binary_value op l r x y
      end
  | E_Function name _ (FA_List es) _ _ =>
      xs ← (fix evals (es : list Expr) : outcome (list Value) :=
              match es with [] => Ok [] | e :: es => x ← eval e; xs ← evals es; Ok (x :: xs) end) es;
      Vdbe.call_scalar name xs
  | E_Between e low high negated =>
      x ← eval e;
      lo ← eval low;
      hi ← eval high;
      b ← between_value e low high negated x lo hi;
      Ok (bool3_to_value b)
  | E_Collate e _ => eval e
  | E_AggRef reg => Ok (aggs reg)
  | E_Coalesce2 l r => x ← eval l; if is_null x then eval r else Ok x
  | _ => Err (Error_msg "not evaluated here")
  end.
Fixpoint evals (es : list Expr) : outcome (list Value) :=
  match es with [] => Ok [] | e :: es => x ← eval e; xs ← evals es; Ok (x :: xs) end.

(** A condition holds when its value is true; a NULL follows [on_null]. *)
Definition holds (want on_null : bool) (x : Value) : bool :=
  match truth x with Some t => Bool.eqb t want | None => on_null end.
End Eval.

(** ** The expressions covered

    Subqueries are compiled elsewhere; a BETWEEN is covered as a condition whose
    two comparisons have the same affinity and the default collation
    ([plain_between]: the code gives both the affinity of the first and no
    collation), its value form has the fault of [between_null_bound]; functions that read the
    state of the machine are not functions of the row. [is_agg] are the
    registers of aggregate results. *)

Definition plain_between (ctx : Ctx) (e low high : Expr) : Prop :=
  comparison_affinity ctx e low = comparison_affinity ctx e high /\
  comparison_collation ctx e low = None /\ comparison_collation ctx e high = None.
Section Supported.
Variable (ctx : Ctx) (is_agg : Z -> Prop).
Inductive supported : Expr -> Prop :=
  | S_Literal l : supported (E_Literal l)
  | S_Column s t n : supported (E_Column s t n)
  | S_Unary op e : supported e -> supported (E_Unary op e)
  | S_Binary op l r : supported l -> supported r -> supported (E_Binary op l r)
  | S_Function name es filter over :
      handled (to_ascii_lowercase name) = false -> zlen es < 256 -> supported_args es ->
      supported (E_Function name false (FA_List es) filter over)
  | S_Collate e c : supported e -> supported (E_Collate e c)
  | S_AggRef r : is_agg r -> supported (E_AggRef r)
  | S_Coalesce2 l r : supported l -> supported r -> supported (E_Coalesce2 l r)
with supported_args : list Expr -> Prop :=
  | SA_nil : supported_args []
  | SA_cons e es : supported e -> supported_args es -> supported_args (e :: es).
Inductive condition : Expr -> Prop :=
  | C_And l r : condition l -> condition r -> condition (E_Binary BinaryOp.And l r)
  | C_Or l r : condition l -> condition r -> condition (E_Binary BinaryOp.Or l r)
  | C_Not e : condition e -> condition (E_Unary UnaryOp.Not e)
  | C_Between e low high negated :
      supported e -> supported low -> supported high -> plain_between ctx e low high ->
      condition (E_Between e low high negated)
  | C_Value e : supported e -> condition e.
End Supported.
Scheme supported_ind2 := Induction for supported Sort Prop
  with supported_args_ind2 := Induction for supported_args Sort Prop.

(** ** The constants the compiler recognises *)

Lemma literal_path_spec e : json_arrow_path_literal e = literal_path e.
Proof.
  destruct e as [[|n| |t| |]| |[] [[]| | | | | | | | | | | | | | | | |]| | | | | | | | | | | | | | |]; try done; cbn.
  - destruct (Z.geb_spec n 0), (Z.leb_spec 0 n); try lia; [done|]. by destruct (n =? _).
  - f_equal. unfold starts_with. destruct t as [|b t]; [done|]. cbn. rewrite take_0.
    destruct (decide (b = 36)) as [->|Hb]; [by rewrite !bool_decide_true|]. by rewrite !bool_decide_false by congruence.
Qed.
Section Constants.
Context `{SqlFunctions} (ctx : Ctx) (col : option bytes -> bytes -> Value) (aggs : Z -> Value).
Lemma eval_negated e l : const_negate e = Some l -> eval ctx col aggs (E_Unary UnaryOp.Negate e) = Ok (literal_value l).
Proof.
  destruct e as [[]| | | | | | | | | | | | | | | | |]; try done; cbn.
  - destruct (n =? _); [done|]. by intros [= <-].
  - by intros [= <-].
Qed.
Lemma eval_unary op e : (op = UnaryOp.Negate -> const_negate e = None) ->
  eval ctx col aggs (E_Unary op e) = (x ← eval ctx col aggs e; unary_value op x).
Proof.
  intros Hn. destruct op; [|by destruct e..]. specialize (Hn eq_refl). destruct e as [[]| | | | | | | | | | | | | | | | |]; try done; cbn in *.
  by destruct (n =? _).
Qed.
End Constants.

(** ** Shifts

    The masks of [shift] are a multiplication, wrapping around, or a division
    rounding down, by a power of two that is capped at 2^64. *)

Lemma arithmetic_right n k : is_i64 n -> 0 < k < 64 ->
  i64 (let ua := Z.shiftr (u64 n) k in if n <? 0 then Z.lor ua (u64 (Z.shiftl (2 ^ 64 - 1) (64 - k))) else ua) = n / 2 ^ k.
Proof.
  intros Hn Hk. unfold is_i64 in Hn. cbv zeta. rewrite Z.shiftr_div_pow2 by lia.
  pose proof (Z.pow_pos_nonneg 2 k ltac:(lia) ltac:(lia)) as Hpos.
  assert (2 ^ 64 = 2 ^ (64 - k) * 2 ^ k) as Hsplit by (rewrite <- Z.pow_add_r by lia; f_equal; lia).
  assert (- 2 ^ 63 <= n / 2 ^ k < 2 ^ 63) as Hq.
  { pose proof (Z.div_le_mono (- 2 ^ 63) n (2 ^ k) Hpos ltac:(lia)). pose proof (Z.div_lt_upper_bound n (2 ^ k) (2 ^ 63) Hpos ltac:(nia)).
    assert (- 2 ^ 63 <= - 2 ^ 63 / 2 ^ k); [|lia]. apply Z.div_le_lower_bound; nia. }
  destruct (Z.ltb_spec n 0) as [Hneg|Hpos'].
  - assert (u64 n = n + 2 ^ 64) as Hu by (unfold u64; symmetry; apply (Z.mod_unique_pos _ _ (-1)); lia).
    rewrite Hu, Hsplit, Z.div_add by lia.
    assert (u64 (Z.shiftl (2 ^ (64 - k) * 2 ^ k - 1) (64 - k)) = Z.shiftl (2 ^ k - 1) (64 - k)) as ->.
    { rewrite !Z.shiftl_mul_pow2 by lia. unfold u64. symmetry. apply (Z.mod_unique_pos _ _ (2 ^ (64 - k) - 1)); nia. }
    pose proof (Z.div_lt_upper_bound n (2 ^ k) 0 Hpos ltac:(lia)) as Hneg'.
    assert (- 2 ^ (64 - k) <= n / 2 ^ k) as Hlow by (apply Z.div_le_lower_bound; nia).
    rewrite Z.lor_comm, lor_shiftl_add by lia.
    transitivity (i64 ((n / 2 ^ k) mod 2 ^ 64)); [|unfold i64; rewrite sext_mod by lia; by apply sext_small].
    f_equal. apply (Z.mod_unique_pos _ _ (-1)); nia.
  - replace (u64 n) with n by (symmetry; apply Z.mod_small; lia). by apply sext_small.
Qed.
Lemma shift_by_spec to_left n m : is_i64 n ->
  shift_by to_left n m =
    (let k := Z.min (Z.abs m) 64 in if xorb to_left (m <? 0) then i64 (n * 2 ^ k) else n / 2 ^ k).
Proof.
  intros Hn. unfold shift_by. destruct (Z.eqb_spec m 0) as [->|Hm]; cbn zeta.
  { replace (Z.min (Z.abs 0) 64) with 0 by lia. rewrite Z.mul_1_r, Z.div_1_r. destruct (xorb _ _); [|done].
    symmetry. by apply sext_small. }
  assert (shift to_left n m = (let k := Z.min (Z.abs m) 64 in let left := xorb to_left (m <? 0) in
    if k >=? 64 then (if (0 <=? n) || left then 0 else -1)
    else i64 (if left then u64 (Z.shiftl (u64 n) k)
              else let ua := Z.shiftr (u64 n) k in if n <? 0 then Z.lor ua (u64 (Z.shiftl (2 ^ 64 - 1) (64 - k))) else ua))) as ->.
  { unfold shift. cbv zeta. destruct (Z.ltb_spec m 0).
    - destruct (Z.gtb_spec m (-64)); rewrite xorb_true_r;
        [replace (Z.min (Z.abs m) 64) with (- m) by lia|replace (Z.min (Z.abs m) 64) with 64 by lia]; done.
    - rewrite xorb_false_r. destruct (Z.geb_spec m 64).
      + replace (Z.min (Z.abs m) 64) with 64 by lia. done.
      + replace (Z.min (Z.abs m) 64) with m by lia. by destruct (Z.geb_spec m 64); [lia|]. }
  cbn zeta. destruct (Z.geb_spec (Z.min (Z.abs m) 64) 64) as [Hk|Hk].
  - replace (Z.min (Z.abs m) 64) with 64 by lia. destruct (xorb _ _); rewrite ?orb_true_r, ?orb_false_r.
    + unfold i64. rewrite <- sext_mod, Z.mod_mul by lia. done.
    + unfold is_i64 in Hn. destruct (Z.leb_spec 0 n); symmetry; [apply Z.div_small; lia|].
      symmetry. apply (Z.div_unique_pos _ _ _ (n + 2 ^ 64)); lia.
  - destruct (xorb _ _); [|apply arithmetic_right; [done|lia]].
    unfold u64, i64. rewrite sext_mod, Z.shiftl_mul_pow2 by lia. rewrite <- (sext_mod 64 (n * _)), <- (sext_mod 64 (n mod _ * _)) by lia.
    by rewrite Z.mul_mod_idemp_l by lia.
Qed.
