(* ===== verification/Steps.v ===== *)
(** * Running a machine

    What one instruction does to a machine whose operands are known, and runs of
    several: [yields s o Q] when the machine gets from [s] to a state of [Q] with
    the result [o], or stops with its error. [frame], [quiet] and [same_at] say
    what a run may change. *)

From S2P Require Import Prelude Utf8 Float64 Value Str Fp FloatOps Record Aggregate Program VdbeOps Vfs Wal Pager Vdbe Ast Schema Builder Linking Registry ExprGen ExprEval.
#[local] Open Scope Z_scope.

(** ** Flags and collations are read back as written *)

Lemma collation_of_name c : collation_of (P4_Symbol (collation_name c)) = c.
Proof. by destruct c. Qed.
Lemma compare_values_sql op opc nulleq x y aff coll flags p4 :
  cmp_opcode op = Some (opc, nulleq) -> collation_of p4 = coll ->
  Z.land flags P5_AFF_MASK = 0 -> Z.land flags P5_NULLEQ = (if nulleq then P5_NULLEQ else 0) ->
  compare_values opc x y (Z.lor flags (aff_to_p5 aff)) p4 = sql_compare op aff coll x y.
Proof.
  intros Hop Hc Hf Hn. unfold compare_values, sql_compare.
  assert (Z.land (Z.lor flags (aff_to_p5 aff)) P5_NULLEQ = if nulleq then P5_NULLEQ else 0) as ->.
  { rewrite Z.land_lor_distr_l, Hn. by destruct aff as [[]|], nulleq. }
  rewrite (p5_aff_roundtrip _ _ Hf), Hc.
  destruct op; try discriminate Hop; injection Hop as <- <-; cbn [is_op];
    change (P5_NULLEQ =? 0) with false; change (0 =? 0) with true; cbn [negb andb orb];
    try (cbn [mbind outcome_bind]; destruct (mem_compare x y coll); done);
    (destruct (is_null x || is_null y); [done|]).
  all: destruct aff as [aff|]; cbn [from_option mbind outcome_bind];
    [destruct (apply_affinity x aff) as [x'| |]; [|done..]; cbn [mbind outcome_bind];
     destruct (apply_affinity y aff) as [y'| |]; [|done..]|];
    cbn [mbind outcome_bind]; destruct (mem_compare _ _ _); done.
Qed.

(** The comparison that jumps when the first does not. *)
Definition negate_op (op : BinaryOp) : BinaryOp :=
  match op with
  | BinaryOp.Eq => BinaryOp.Ne | BinaryOp.Ne => BinaryOp.Eq | BinaryOp.Lt => BinaryOp.Ge | BinaryOp.Ge => BinaryOp.Lt
  | BinaryOp.Le => BinaryOp.Gt | BinaryOp.Gt => BinaryOp.Le | BinaryOp.Is => BinaryOp.IsNot | BinaryOp.IsNot => BinaryOp.Is
  | op => op
  end.
Lemma negate_op_opcode op opc nulleq : cmp_opcode op = Some (opc, nulleq) ->
  cmp_opcode (negate_op op) = Some (negate_cmp opc, nulleq).
Proof. destruct op; try discriminate; by intros [= <- <-]. Qed.
Lemma negate_op_compare op opc nulleq aff coll x y : cmp_opcode op = Some (opc, nulleq) ->
  sql_compare (negate_op op) aff coll x y
  = ((r ← sql_compare op aff coll x y; Ok (negb <$> (r : option bool))) : outcome (option bool)).
Proof.
  unfold sql_compare. intros Hop. destruct op; try discriminate Hop; cbn [is_op negate_op mbind outcome_bind];
    try (destruct (mem_compare x y coll); done);
    (destruct (is_null x || is_null y); [done|]);
    (destruct aff as [aff|]; cbn [from_option mbind outcome_bind];
     [destruct (apply_affinity x aff) as [x'| |]; [|done..]; cbn [mbind outcome_bind];
      destruct (apply_affinity y aff) as [y'| |]; [|done..]|]; cbn [mbind outcome_bind]; destruct (mem_compare _ _ _); done).
Qed.
Lemma compare_nulleq op opc aff coll x y r : cmp_opcode op = Some (opc, true) -> sql_compare op aff coll x y = Ok r ->
  exists t, r = Some t.
Proof. intros Hop. unfold sql_compare. destruct op; try discriminate Hop; cbn; intros [= <-]; by eexists. Qed.

(** ** Running a machine *)

(** [v'] differs from [v] in what expression code writes. *)
Definition frame (v v' : Vdbe) : Prop :=
  exists pc regs cs d ags, length regs = length (v_regs v) /\
    v' = v_set_pc pc (v_set_regs regs (v_set_cursors cs (v_set_decoded d (v_set_aggregates ags v)))).
(** The same with the cursors and their cache as they were. *)
Definition quiet (v v' : Vdbe) : Prop :=
  exists pc regs ags, length regs = length (v_regs v) /\ v' = v_set_pc pc (v_set_regs regs (v_set_aggregates ags v)).
Lemma frame_refl v : frame v v.
Proof. exists (v_pc v), (v_regs v), (v_cursors v), (v_decoded v), (v_aggregates v). split; [done|by destruct v]. Qed.
Lemma frame_trans v1 v2 v3 : frame v1 v2 -> frame v2 v3 -> frame v1 v3.
Proof.
  intros (? & ? & ? & ? & ? & ? & ->) (pc & regs & cs & d & ags & Hl & ->). exists pc, regs, cs, d, ags.
  cbn in *. split; [congruence|by destruct v1].
Qed.
Lemma quiet_frame v v' : quiet v v' -> frame v v'.
Proof.
  intros (pc & regs & ags & Hl & ->). exists pc, regs, (v_cursors v), (v_decoded v), ags.
  split; [done|by destruct v].
Qed.
Lemma frame_program v v' : frame v v' -> v_program v' = v_program v.
Proof. by intros (? & ? & ? & ? & ? & ? & ->). Qed.
Lemma frame_regs v v' : frame v v' -> zlen (v_regs v') = zlen (v_regs v).
Proof. intros (? & ? & ? & ? & ? & ? & ->). cbn. unfold zlen. by f_equal. Qed.

(** Register [r] and the accumulator of that number. *)
Definition same_at (v v' : Vdbe) (r : Z) : Prop :=
  zget (v_regs v') r = zget (v_regs v) r /\ v_aggregates v' !! r = v_aggregates v !! r.
Lemma same_at_trans v1 v2 v3 r : same_at v1 v2 r -> same_at v2 v3 r -> same_at v1 v3 r.
Proof. intros [] []. split; congruence. Qed.

(** A register written, on the way to address [pc]. *)
Definition wrote (r : Z) (x : Value) (pc : Z) (v : Vdbe) : Vdbe :=
  v_set_pc pc (v_set_regs (<[Z.to_nat r := x]> (v_regs v)) v).
Lemma wrote_quiet r x pc v : quiet v (wrote r x pc v).
Proof.
  exists pc, (<[Z.to_nat r := x]> (v_regs v)), (v_aggregates v). split; [by rewrite length_insert|by destruct v].
Qed.
Lemma wrote_at r x pc v : 0 <= r < zlen (v_regs v) -> zget (v_regs (wrote r x pc v)) r = Some x.
Proof.
  intros. unfold zget. cbn. destruct (Z.ltb_spec r 0); [lia|]. apply list_lookup_insert_eq. unfold zlen in *. lia.
Qed.
Lemma wrote_other r x pc v k : 0 <= r -> k <> r -> same_at v (wrote r x pc v) k.
Proof.
  intros. split; [|done]. unfold zget. cbn. destruct (Z.ltb_spec k 0); [done|].
  apply list_lookup_insert_ne. lia.
Qed.

Section Machine.
Context {E F : Type} `{VfsOps E F} `{SqlFunctions} (drain : gmap Z bytes -> list (Z * bytes)) (bfuel : nat).
Notation State := (Pager F * (Proc * E))%type.
Notation vst := (Vdbe * State)%type.

Definition vstep (s s' : vst) : Prop := exec_one drain bfuel s = (Ok None, s').
(** From [s] the machine gets to a state where [Q] holds of the result [o],
    or stops with its error. *)
Definition yields {A} (s : vst) (o : outcome A) (Q : A -> vst -> Prop) : Prop :=
  match o with
  | Ok a => exists s', rtc vstep s s' /\ Q a s'
  | Err e => exists s1 s2, rtc vstep s s1 /\ exec_one drain bfuel s1 = (Err e, s2)
  | Panic => exists s1 s2, rtc vstep s s1 /\ exec_one drain bfuel s1 = (Panic, s2)
  end.
Lemma yields_ret {A} s (a : A) (Q : A -> vst -> Prop) : Q a s -> yields s (Ok a) Q.
Proof. intros. exists s. split; [apply rtc_refl|done]. Qed.
Lemma yields_steps {A} s s' (o : outcome A) Q : rtc vstep s s' -> yields s' o Q -> yields s o Q.
Proof.
  intros Hs. destruct o; cbn; [intros (t & ? & ?); exists t|intros (t & u & ? & ?); exists t, u..];
    (split; [by etrans|done]).
Qed.
Lemma yields_bind {A B} s (o : outcome A) (f : A -> outcome B) Q R :
  yields s o Q -> (forall a s', Q a s' -> yields s' (f a) R) -> yields s (o ≫= f) R.
Proof.
  intros Ho Hf. destruct o as [a|e|]; cbn [mbind outcome_bind]; [|exact Ho..].
  destruct Ho as (s' & Hs & Hq). by apply (yields_steps _ s'), Hf.
Qed.
Lemma yields_mono {A} s (o : outcome A) (Q R : A -> vst -> Prop) :
  yields s o Q -> (forall a s', Q a s' -> R a s') -> yields s o R.
Proof. intros Ho Hq. destruct o; [|exact Ho..]. destruct Ho as (s' & ? & ?). exists s'. eauto. Qed.

(** *** One instruction *)

Lemma exec_one_at v st i : zget (instructions (v_program v)) (v_pc v) = Some i ->
  exec_one drain bfuel (v, st) = exec_inst drain bfuel (v_pc v) i (v, st).
Proof.
  intros Hi. unfold exec_one. rewrite (M_bind_ok (getv id) _ (v, st) v (v, st) eq_refl).
  by rewrite (M_bind_ok (lift _) _ (v, st) i (v, st)) by (unfold lift, inst_at; by rewrite Hi).
Qed.
(** An instruction that computes [o] from the state and does [w] with it. *)
Lemma yields_inst {A} v st i (o : outcome A) (w : A -> Vdbe) (Q : A -> vst -> Prop) :
  zget (instructions (v_program v)) (v_pc v) = Some i ->
  exec_inst drain bfuel (v_pc v) i (v, st) =
    match o with Ok x => (Ok None, (w x, st)) | Err e => (Err e, (v, st)) | Panic => (Panic, (v, st)) end ->
  (forall x, o = Ok x -> Q x (w x, st)) -> yields (v, st) o Q.
Proof.
  intros Hi He Hq. rewrite <- (exec_one_at _ _ _ Hi) in He. destruct o as [x|e|].
  - exists (w x, st). split; [by apply rtc_once|by apply Hq].
  - exists (v, st), (v, st). split; [apply rtc_refl|done].
  - exists (v, st), (v, st). split; [apply rtc_refl|done].
Qed.

Lemma reg_run {B} r x (f : Value -> VdbeM (E := E) (F := F) B) v st :
  zget (v_regs v) r = Some x -> (reg r ≫= f) (v, st) = f x (v, st).
Proof.
  intros Hr. apply M_bind_ok. unfold reg. rewrite (M_bind_ok (getv id) _ (v, st) v (v, st) eq_refl).
  unfold lift, idx. by rewrite Hr.
Qed.
Lemma set_reg_run r x v st : 0 <= r < zlen (v_regs v) ->
  (set_reg r x ;; advance : VdbeM (E := E) (F := F) unit) (v, st) = (Ok tt, (wrote r x (v_pc v + 1) v, st)).
Proof.
  intros Hr. rewrite (M_bind_ok (set_reg r x) _ (v, st) tt (v_set_regs (<[Z.to_nat r := x]> (v_regs v)) v, st)); [done|].
  unfold set_reg. rewrite (M_bind_ok (getv id) _ (v, st) v (v, st) eq_refl).
  destruct (Z.leb_spec 0 r); [|lia]. destruct (Z.ltb_spec r (zlen (v_regs v))); [|lia]. done.
Qed.

(** What [cont] makes of a result. *)
Definition result {A B} (a : B) (o : outcome A) (w : A -> Vdbe) (v : Vdbe) (st : State) : outcome B * vst :=
  match o with Ok x => (Ok a, (w x, st)) | Err e => (Err e, (v, st)) | Panic => (Panic, (v, st)) end.
Lemma cont_result {A} (m : VdbeM (E := E) (F := F) unit) (o : outcome A) w v st :
  m (v, st) = result tt o w v st -> cont m (v, st) = result None o w v st.
Proof. intros Hm. unfold cont, mbind, M_bind. rewrite Hm. by destruct o. Qed.
(** Compute a value and store it. *)
Lemma store_result (o : outcome Value) r v st : 0 <= r < zlen (v_regs v) ->
  ((x ← lift o; set_reg r x ;; advance) : VdbeM (E := E) (F := F) unit) (v, st)
  = result tt o (fun x => wrote r x (v_pc v + 1) v) v st.
Proof.
  intros Hr. destruct o as [x|e|]; [|done..]. rewrite (M_bind_ok (lift (Ok x)) _ (v, st) x (v, st) eq_refl).
  by apply set_reg_run.
Qed.

(** The state after an arm, by opcode. *)
Ltac operands := repeat (erewrite reg_run by eassumption).
Ltac arm f := apply cont_result; unfold f; cbn [p1 p2 p3 p4 p5 opcode]; operands.

(** *** Operators

    What the arms of the operators compute is the reference of [ExprEval]. *)
Definition arith_value (op : Opcode) (x y : Value) : outcome Value :=
  match op with
  | Opcode.Concat => concat x y
  | Opcode.BitAnd | Opcode.BitOr | Opcode.ShiftLeft | Opcode.ShiftRight => bitwise op x y
  | _ => arith op x y
  end.
Lemma rem_by_one n m : Z.rem n (if m =? -1 then 1 else m) = Z.rem n m.
Proof. destruct (Z.eqb_spec m (-1)) as [->|]; [|done]. symmetry. apply (Z.rem_opp_r n 1 ltac:(lia)). Qed.
Lemma arith_value_operator op opc x y : arith_opcode op = Some opc -> arith_value opc x y = operator_value op x y.
Proof.
  assert (forall opc ints reals, (forall n m, arith_int opc n m = Ok (ints n m)) ->
    (forall a b, (r ← match opc with
        | Opcode.Add => Ok (Some (f64_add a b)) | Opcode.Subtract => Ok (Some (f64_sub a b))
        | Opcode.Multiply => Ok (Some (f64_mul a b)) | Opcode.Divide => Ok (if f64_is_zero b then None else Some (f64_div a b))
        | Opcode.Remainder => let ia := f64_to_i64 b in
            Ok (if ia =? 0 then None else Some (i64_as_f64 (Z.rem (f64_to_i64 a) (if ia =? -1 then 1 else ia))))
        | _ => Panic end; Ok (match r with Some r => if f64_is_nan r then Null else Real r | None => Null end)) = Ok (reals a b)) ->
    arith opc x y = Ok (numbers ints reals x y)) as Hnum.
  { intros o ints reals Hi Hr. unfold arith, numbers. destruct (to_num x) as [nx|], (to_num y) as [ny|]; try done; [|by destruct nx].
    destruct nx, ny; [apply Hi|apply Hr..]. }
  assert (forall o (f : Z -> Z -> Z), (forall n m, (if is_shift o then shift_by (is_left o) n m else f n m) = f n m) ->
    match o with Opcode.BitAnd => f = Z.land | Opcode.BitOr => f = Z.lor | Opcode.ShiftLeft | Opcode.ShiftRight => True | _ => False end ->
    bitwise o x y = Ok (on_integers f x y)) as Hbit.
  { intros o f Hf Ho. unfold bitwise, on_integers. destruct (is_null x || is_null y); [done|]. specialize (Hf (as_i64 x) (as_i64 y)).
    destruct o; try done; cbn [is_shift] in Hf |- *; rewrite ?andb_false_r, ?andb_true_r; subst; try done;
      rewrite <- Hf; unfold shift_by; by destruct (as_i64 y =? 0). }
  intros Hop. destruct op; try discriminate; injection Hop as <-; cbn [arith_value operator_value]; try (by apply Hbit); try done.
  - apply Hnum; [|done]. intros n m. unfold arith_int, exact_or_real, checked_i64. by destruct (_ && _).
  - apply Hnum; [|done]. intros n m. unfold arith_int, exact_or_real, checked_i64. by destruct (_ && _).
  - apply Hnum; [|done]. intros n m. unfold arith_int, exact_or_real, checked_i64. by destruct (_ && _).
  - apply Hnum; [|intros a b; by destruct (f64_is_zero b)]. intros n m. unfold arith_int. rewrite andb_comm. by repeat case_match.
  - apply Hnum; [|intros a b; cbv zeta; rewrite rem_by_one; by destruct (_ =? 0)]. intros n m. unfold arith_int. cbv zeta. rewrite rem_by_one. by destruct (m =? 0).
Qed.
Lemma arm_load (o : Opcode) a t c p x v st : 0 <= t < zlen (v_regs v) ->
  match o with
  | Opcode.Integer => x = Int a
  | Opcode.Int64 => x = Int (as_p4_int p)
  | Opcode.Real => x = Real (as_p4_real p)
  | Opcode.String8 => x = Text (as_p4_text p)
  | Opcode.Blob => x = Blob (as_p4_blob p)
  | _ => False
  end ->
  exec_inst drain bfuel (v_pc v) (mkInstruction o a t c p 0) (v, st)
  = result None (Ok x) (fun x => wrote t x (v_pc v + 1) v) v st.
Proof.
  intros Ht Hx. destruct o; try done; subst x; apply cont_result;
    unfold exec_Integer, exec_Int64, exec_Real, exec_String8, exec_Blob, load; cbn [p1 p2 p3 p4 p5]; by apply set_reg_run.
Qed.
Lemma arm_arith op a b t x y v st : 0 <= t < zlen (v_regs v) ->
  zget (v_regs v) b = Some x -> zget (v_regs v) a = Some y -> arith_opcode op <> None ->
  exec_inst drain bfuel (v_pc v) (Instruction_new (default Opcode.Add (arith_opcode op)) a b t) (v, st)
  = result None (operator_value op x y) (fun x => wrote t x (v_pc v + 1) v) v st.
Proof.
  intros Ht Hb Ha Hop. rewrite <- (arith_value_operator op (default Opcode.Add (arith_opcode op))) by (by destruct op).
  destruct op; try done; arm @exec_binary; by apply store_result.
Qed.
Lemma arm_unary op a t x v st : 0 <= t < zlen (v_regs v) -> zget (v_regs v) a = Some x ->
  match op with UnaryOp.Not | UnaryOp.BitNot => True | _ => False end ->
  exec_inst drain bfuel (v_pc v)
    (Instruction_new (match op with UnaryOp.Not => Opcode.Not | _ => Opcode.BitNot end) a t 0) (v, st)
  = result None (unary_value op x) (fun x => wrote t x (v_pc v + 1) v) v st.
Proof.
  intros Ht Ha Hop. destruct op; try done;
    [arm @exec_Not|arm @exec_BitNot]; by apply set_reg_run.
Qed.
Lemma arm_logic (conj : bool) a b t x y v st : 0 <= t < zlen (v_regs v) ->
  zget (v_regs v) a = Some x -> zget (v_regs v) b = Some y ->
  exec_inst drain bfuel (v_pc v) (Instruction_new (if conj then Opcode.And else Opcode.Or) a b t) (v, st)
  = result None (Ok (bool3_to_value ((if conj then and3 else or3) (truth x) (truth y))))
      (fun x => wrote t x (v_pc v + 1) v) v st.
Proof. intros Ht Ha Hb. destruct conj; arm @exec_logic; by apply set_reg_run. Qed.
Lemma arm_scopy a t x v st : 0 <= t < zlen (v_regs v) -> zget (v_regs v) a = Some x ->
  exec_inst drain bfuel (v_pc v) (Instruction_new Opcode.SCopy a t 0) (v, st)
  = result None (Ok x) (fun x => wrote t x (v_pc v + 1) v) v st.
Proof. intros Ht Ha. arm @exec_SCopy. by apply set_reg_run. Qed.

(** A comparison that stores its result. *)
Lemma arm_compare op opc nulleq a b t aff coll p x y v st : 0 <= t < zlen (v_regs v) ->
  zget (v_regs v) a = Some x -> zget (v_regs v) b = Some y ->
  cmp_opcode op = Some (opc, nulleq) -> collation_of p = coll ->
  let p5 := Z.lor (aff_to_p5 aff) P5_STOREP2 in
  exec_inst drain bfuel (v_pc v) (mkInstruction opc b t a p (if nulleq then Z.lor p5 P5_NULLEQ else p5)) (v, st)
  = result None (r ← sql_compare op aff coll x y; Ok (bool3_to_value r)) (fun x => wrote t x (v_pc v + 1) v) v st.
Proof.
  intros Ht Ha Hb Hop Hc p5.
  assert (exec_inst drain bfuel (v_pc v) (mkInstruction opc b t a p (if nulleq then Z.lor p5 P5_NULLEQ else p5)) (v, st)
          = cont (exec_Compare_op (mkInstruction opc b t a p (if nulleq then Z.lor p5 P5_NULLEQ else p5))) (v, st)) as ->.
  { destruct op; try discriminate Hop; by injection Hop as <- <-. }
  arm @exec_Compare_op.
  replace (if nulleq then Z.lor p5 P5_NULLEQ else p5)
    with (Z.lor (Z.lor P5_STOREP2 (if nulleq then P5_NULLEQ else 0)) (aff_to_p5 aff))
    by (unfold p5; destruct nulleq, aff as [[]|]; reflexivity).
  rewrite (compare_values_sql op opc nulleq x y aff coll _ p Hop Hc) by (by destruct nulleq).
  destruct (sql_compare op aff coll x y) as [r|e|]; [|done..].
  rewrite (M_bind_ok (lift (Ok r)) _ (v, st) r (v, st) eq_refl).
  replace (negb (Z.land _ P5_STOREP2 =? 0)) with true by (destruct nulleq, aff as [[]|]; reflexivity).
  by apply set_reg_run.
Qed.

(** *** Calls *)

Lemma regs_range_run start xs v st : 0 <= start -> start + zlen xs <= zlen (v_regs v) ->
  (forall k x, xs !! k = Some x -> zget (v_regs v) (start + Z.of_nat k) = Some x) ->
  regs_range start (zlen xs) (v, st) = (Ok xs, (v, st) : vst).
Proof.
  intros H1 H2 Hx. unfold regs_range. rewrite (M_bind_ok (getv id) _ (v, st) v (v, st) eq_refl).
  unfold lift, sub_range, id. pose proof (zlen_nonneg xs). destruct (Z.leb_spec 0 start); [|lia].
  destruct (Z.leb_spec start (start + zlen xs)); [|lia]. destruct (Z.leb_spec (start + zlen xs) (zlen (v_regs v))); [|lia].
  cbn [andb]. do 2 f_equal. unfold zslice, ztake, zdrop. apply list_eq. intros k.
  rewrite Z.add_simpl_l. unfold zlen. rewrite Nat2Z.id. destruct (xs !! k) as [x|] eqn:Hk.
  - apply lookup_lt_Some in Hk as Hlt. rewrite lookup_take_lt, lookup_drop by done.
    specialize (Hx k x Hk). unfold zget in Hx. destruct (start + Z.of_nat k <? 0); [done|].
    by replace (Z.to_nat start + k)%nat with (Z.to_nat (start + Z.of_nat k)) by lia.
  - apply lookup_ge_None in Hk. apply lookup_take_ge. lia.
Qed.
(** A name the machine does not evaluate itself. *)
Lemma call_function_pure name args (s : vst) : handled (to_ascii_lowercase name) = false ->
  call_function name args s = (Vdbe.call_scalar name args, s).
Proof.
  intros Hh. unfold call_function. destruct (find _ (function_table name args)) as [[n m]|] eqn:Hf; [|done].
  apply find_some in Hf as [Hin Hb]. exfalso. enough (handled (to_ascii_lowercase name) = true) by congruence.
  apply existsb_exists. exists n. split; [|exact Hb].
  change machine_functions with (map fst (function_table (E := E) (F := F) name args)). by apply (in_map fst _ (n, m)).
Qed.
Lemma arm_function name start t xs v st : 0 <= t < zlen (v_regs v) ->
  0 <= start -> start + zlen xs <= zlen (v_regs v) ->
  (forall k x, xs !! k = Some x -> zget (v_regs v) (start + Z.of_nat k) = Some x) ->
  handled (to_ascii_lowercase name) = false ->
  exec_inst drain bfuel (v_pc v) (mkInstruction Opcode.Function 0 start t (P4_Symbol name) (zlen xs)) (v, st)
  = result None (Vdbe.call_scalar name xs) (fun x => wrote t x (v_pc v + 1) v) v st.
Proof.
  intros Ht H1 H2 Hx Hh. arm @exec_Function. cbn [as_p4_text].
  rewrite (M_bind_ok _ _ _ _ _ (regs_range_run start xs v st H1 H2 Hx)).
  pose proof (call_function_pure name xs (v, st) Hh) as Hc.
  destruct (Vdbe.call_scalar name xs) as [x|e|] eqn:Hr.
  - rewrite (M_bind_ok _ _ _ _ _ Hc). by apply set_reg_run.
  - by rewrite (M_bind_err _ _ _ _ _ Hc).
  - unfold mbind at 1, M_bind. by rewrite Hc.
Qed.

(** *** Jumps *)

Definition jumped (b : bool) (a : Z) (v : Vdbe) : Vdbe := v_set_pc (if b then u64 a else v_pc v + 1) v.
Lemma jump_run b a v st : (jump_if b a : VdbeM (E := E) (F := F) unit) (v, st) = (Ok tt, (jumped b a v, st)).
Proof. by destruct b. Qed.
Lemma arm_goto a v st p1 p3 :
  exec_inst drain bfuel (v_pc v) (Instruction_new Opcode.Goto p1 a p3) (v, st) = (Ok None, (jumped true a v, st)).
Proof. done. Qed.
Lemma arm_test_null (want : bool) r a x v st : zget (v_regs v) r = Some x ->
  exec_inst drain bfuel (v_pc v) (Instruction_new (if want then Opcode.IsNull else Opcode.NotNull) r a 0) (v, st)
  = (Ok None, (jumped (Bool.eqb (is_null x) want) a v, st)).
Proof.
  intros Hr. destruct want.
  - transitivity (cont (exec_IsNull (Instruction_new Opcode.IsNull r a 0)) (v, st) : outcome (option StepResult) * vst); [done|].
    unfold cont, exec_IsNull. cbn [p1 p2]. rewrite (M_bind_ok (reg r ≫= _) _ (v, st) tt (jumped (is_null x) a v, st));
      [by destruct (is_null x)|]. rewrite (reg_run _ _ _ _ _ Hr). apply jump_run.
  - transitivity (cont (exec_NotNull (Instruction_new Opcode.NotNull r a 0)) (v, st) : outcome (option StepResult) * vst); [done|].
    unfold cont, exec_NotNull. cbn [p1 p2]. rewrite (M_bind_ok (reg r ≫= _) _ (v, st) tt (jumped (negb (is_null x)) a v, st));
      [by destruct (is_null x)|]. rewrite (reg_run _ _ _ _ _ Hr). apply jump_run.
Qed.
Lemma arm_if (want on_null : bool) r a x v st : zget (v_regs v) r = Some x ->
  exec_inst drain bfuel (v_pc v)
    (Instruction_new (if want then Opcode.If else Opcode.IfNot) r a (if on_null then 1 else 0)) (v, st)
  = (Ok None, (jumped (holds want on_null x) a v, st)).
Proof.
  intros Hr. destruct want.
  - transitivity (cont (exec_If (Instruction_new Opcode.If r a (if on_null then 1 else 0))) (v, st)
                  : outcome (option StepResult) * vst); [done|].
    unfold cont, exec_If. cbn [p1 p2 p3]. rewrite (M_bind_ok (reg r ≫= _) _ (v, st) tt (jumped (holds true on_null x) a v, st));
      [done|]. rewrite (reg_run _ _ _ _ _ Hr), jump_run. unfold holds. by destruct (truth x) as [[]|], on_null.
  - transitivity (cont (exec_IfNot (Instruction_new Opcode.IfNot r a (if on_null then 1 else 0))) (v, st)
                  : outcome (option StepResult) * vst); [done|].
    unfold cont, exec_IfNot. cbn [p1 p2 p3]. rewrite (M_bind_ok (reg r ≫= _) _ (v, st) tt (jumped (holds false on_null x) a v, st));
      [done|]. rewrite (reg_run _ _ _ _ _ Hr), jump_run. unfold holds. by destruct (truth x) as [[]|], on_null.
Qed.
(** A comparison that jumps: [jn] on an unknown result. *)
Lemma arm_compare_jump op opc nulleq (jn : bool) a b t aff coll p x y r v st :
  zget (v_regs v) a = Some x -> zget (v_regs v) b = Some y ->
  cmp_opcode op = Some (opc, nulleq) -> collation_of p = coll ->
  sql_compare op aff coll x y = Ok r ->
  exec_inst drain bfuel (v_pc v)
    (mkInstruction opc b t a p (Z.lor (aff_to_p5 aff) (if nulleq then P5_NULLEQ else jump_if_null_flag jn))) (v, st)
  = (Ok None, (jumped (default (negb nulleq && jn) r) t v, st)).
Proof.
  intros Ha Hb Hop Hc Hr. set (fl := Z.lor _ _). set (i := mkInstruction opc b t a p fl).
  assert (exec_inst drain bfuel (v_pc v) i (v, st) = cont (exec_Compare_op i) (v, st)) as ->
    by (unfold i; destruct op; try discriminate Hop; by injection Hop as <- <-).
  unfold cont, exec_Compare_op, i. cbn [p1 p2 p3 p4 p5 opcode].
  rewrite (M_bind_ok _ _ (v, st) tt (jumped (default (negb nulleq && jn) r) t v, st)); [done|].
  operands. unfold fl. rewrite Z.lor_comm.
  rewrite (compare_values_sql op opc nulleq x y aff coll _ p Hop Hc) by (by destruct nulleq, jn).
  rewrite Hr, (M_bind_ok (lift (Ok r)) _ (v, st) r (v, st) eq_refl).
  replace (negb (Z.land _ P5_STOREP2 =? 0)) with false by (destruct nulleq, jn, aff as [[]|]; reflexivity).
  rewrite jump_run. do 3 f_equal. destruct r as [r|]; [done|]. cbn [default from_option id].
  by destruct nulleq, jn, aff as [[]|].
Qed.
End Machine.
