(* ===== verification/ExprCorrect.v ===== *)
(** * The expression compiler is correct

    Running the code of [compile_expr] from the address where it was emitted
    leaves [eval e] in the target register, and stops with the error of [eval]
    when there is one; registers in use, and the state beside them, keep their
    values. The code of [compile_jump] goes to its label exactly when the
    condition asks for it. The proofs are about any program the builder ends
    up with, in whatever code the expression is embedded. *)

From S2P Require Import Prelude Utf8 Float64 Value Str Fp Record Aggregate Program VdbeOps Vfs Wal Pager Vdbe Ast Schema Builder Linking Registry ExprGen ExprEval Steps.
#[local] Open Scope Z_scope.

(** ** Specifications of code *)

Section Code.
Context {E F : Type} `{VfsOps E F} `{SqlFunctions} `{SubqueryCodegen}.
Context (drain : gmap Z bytes -> list (Z * bytes)) (bfuel : nat).
Notation State := (Pager F * (Proc * E))%type.
Notation vst := (Vdbe * State)%type.
Notation yields := (yields drain bfuel).

(** The program [P] that the builder [fb] ends up with. *)
Context (fb : ProgramBuilder) (P : Program).
Hypothesis Hfinish : finish fb = Ok P.
Hypothesis Hsize : zlen (insts fb) < 2 ^ 31.

(** A row: [rowinv] says that the machine is on it, [prot] are the registers it
    lives in. *)
Context (ctx : Ctx) (rowinv : vst -> Prop) (prot is_agg : Z -> Prop).
Context (col : option bytes -> bytes -> Value) (aggs : Z -> Value).

Definition kept (k : Z) (ex : Z -> Prop) (v v' : Vdbe) : Prop := forall r, 0 <= r < k -> ~ ex r -> same_at v v' r.
(** The machine [v] is about to run what the builder emits next. *)
Definition at_code (b b' : ProgramBuilder) (v : Vdbe) (st : State) : Prop :=
  v_program v = P /\ v_pc v = zlen (insts b) /\ next_reg b' <= zlen (v_regs v) /\ rowinv (v, st).
(** It has run it, writing registers in [ex] and new ones. *)
Definition settled (b b' : ProgramBuilder) (ex : Z -> Prop) (v : Vdbe) (s' : vst) : Prop :=
  frame v (fst s') /\ v_pc (fst s') = zlen (insts b') /\ kept (next_reg b) ex v (fst s') /\ rowinv s'.
Definition grows (b b' : ProgramBuilder) : Prop := extends b b' /\ wf_builder b' /\ keeps_unbound b b'.
(** Registers that may be written. *)
Definition free_reg (b : ProgramBuilder) (r : Z) : Prop := 0 <= r < next_reg b /\ ~ prot r.
Definition pre (b : ProgramBuilder) : Prop := wf_builder b /\ 0 <= next_reg b /\ (forall r, prot r -> 0 <= r < next_reg b).
Definition holds_reg (r : Z) (x : Value) (s : vst) : Prop := zget (v_regs (fst s)) r = Some x.
(** Code between [b] and [b'] with the result [o]: from a state where [R]
    holds, it writes old registers in [ex] only and establishes [Q]. *)
Definition code {A} (R : vst -> Prop) (b b' : ProgramBuilder) (ex : Z -> Prop) (o : outcome A) (Q : A -> vst -> Prop) : Prop :=
  grows b b' /\
  (extends b' fb -> forall v st, at_code b b' v st -> R (v, st) ->
   yields (v, st) o (fun x s' => settled b b' ex v s' /\ Q x s')).
(** It leaves the result in [target]. *)
Definition code_ok (b b' : ProgramBuilder) (target : Z) (o : outcome Value) : Prop :=
  code (fun _ => True) b b' (eq target) o (holds_reg target).

(** What the compiler needs of the row it compiles for: code that leaves the
    registers of the row alone keeps it; *)
Class RowQuiet : Prop :=
  row_quiet v v' st : rowinv (v, st) -> quiet v v' -> (forall r, prot r -> same_at v v' r) -> rowinv (v', st).
(** aggregate results are in their registers, and the code of a column reads it. *)
Class RowAccess : Prop := {
  row_agg v st r : rowinv (v, st) -> is_agg r -> zget (v_regs v) r = Some (aggs r);
  row_column q name target b b' :
    compile_column ctx q name target b = (Ok tt, b') -> pre b -> free_reg b target ->
    code_ok b b' target (Ok (col q name)) }.
Context {Hquiet : RowQuiet} {Hrow : RowAccess}.

Lemma grows_refl b : wf_builder b -> grows b b.
Proof. intros. split_and!; [reflexivity|done|by intros l]. Qed.
Lemma grows_trans b1 b2 b3 : grows b1 b2 -> grows b2 b3 -> grows b1 b3.
Proof. intros (? & ? & K1) (? & ? & K2). split_and!; [by etrans|done|intros l Hl; by apply K2, K1]. Qed.
Lemma grows_push i b : wf_builder b -> grows b (push i b).
Proof. intros. split_and!; [apply extends_push|by apply wf_push|by intros l]. Qed.
Lemma grows_set_next_reg r b : wf_builder b -> next_reg b <= r -> grows b (set_next_reg r b).
Proof. intros. split_and!; [by apply extends_set_next_reg|done|by intros l]. Qed.
Lemma grows_regs b b' : grows b b' -> next_reg b <= next_reg b'.
Proof. by intros ([] & _). Qed.
Lemma grows_wf b b' : grows b b' -> wf_builder b'.
Proof. by intros (_ & ? & _). Qed.
Lemma grows_pre b b' : grows b b' -> pre b -> pre b'.
Proof.
  intros Hg (? & ? & Hp). pose proof (grows_regs _ _ Hg). split_and!; [by apply Hg|lia|].
  intros r Hr. specialize (Hp r Hr). lia.
Qed.
Lemma grows_extends b b' : grows b b' -> extends b' fb -> extends b fb.
Proof. intros (? & _) ?. by etrans. Qed.

Lemma settled_refl b b' ex v st : at_code b b' v st -> settled b b ex v (v, st).
Proof. intros (? & ? & ? & ?). split_and!; [apply frame_refl|done|by intros r|done]. Qed.
(** The second of two pieces of code starts where the first ends. *)
Lemma settled_at b1 b2 b3 ex v st s : at_code b1 b3 v st -> settled b1 b2 ex v s -> at_code b2 b3 (fst s) (snd s).
Proof.
  intros (HP & _ & Hn & _) (Hf & Hpc & _ & Hr). destruct s as [v' st'].
  split_and!; [by rewrite (frame_program _ _ Hf)|done|by rewrite (frame_regs _ _ Hf)|done].
Qed.
Lemma at_code_mono b b1 b2 v st : next_reg b1 <= next_reg b2 -> at_code b b2 v st -> at_code b b1 v st.
Proof. intros ? (? & ? & ? & ?). split_and!; try done. lia. Qed.
Lemma kept_trans k1 k2 ex1 ex2 v1 v2 v3 : k1 <= k2 -> kept k1 ex1 v1 v2 -> kept k2 ex2 v2 v3 ->
  kept k1 (fun r => ex1 r \/ ex2 r) v1 v3.
Proof.
  intros Hk H12 H23 r Hr Hex. apply (same_at_trans _ v2); [apply H12|apply H23]; (lia || done || tauto).
Qed.
Lemma kept_weaken k k' (ex ex' : Z -> Prop) v v' : k' <= k -> (forall r, 0 <= r < k' -> ex r -> ex' r) ->
  kept k ex v v' -> kept k' ex' v v'.
Proof. intros Hk Hex Hkept r Hr Hn. apply Hkept; [lia|]. intros He. apply Hn. by apply Hex. Qed.
Lemma settled_trans b1 b2 b3 ex1 ex2 ex v s2 s3 : next_reg b1 <= next_reg b2 ->
  settled b1 b2 ex1 v s2 -> settled b2 b3 ex2 (fst s2) s3 ->
  (forall r, 0 <= r < next_reg b1 -> ex1 r \/ ex2 r -> ex r) -> settled b1 b3 ex v s3.
Proof.
  intros Hn (F1 & _ & K1 & _) (F2 & P2 & K2 & R2) Hex. split_and!; [by eapply frame_trans|done| |done].
  eapply kept_weaken; [reflexivity|exact Hex|]. by eapply kept_trans.
Qed.

(** *** One emitted instruction *)

Lemma fetch b i v : wf_builder b -> extends (push i b) fb -> v_program v = P -> v_pc v = zlen (insts b) ->
  zget (instructions (v_program v)) (v_pc v) = Some i.
Proof. intros Hwf He -> ->. exact (linked_push fb P Hfinish i b Hwf He). Qed.
Lemma zlen_push i b : zlen (insts (push i b)) = zlen (insts b) + 1.
Proof. cbn. by rewrite zlen_app. Qed.
(** It stores [o] in [t]. *)
Lemma store_code b i t v st (o : outcome Value) (Q : Value -> vst -> Prop) :
  pre b -> free_reg b t -> extends (push i b) fb -> at_code b b v st ->
  exec_inst drain bfuel (v_pc v) i (v, st) = result None o (fun x => wrote t x (v_pc v + 1) v) v st ->
  (forall x s', settled b (push i b) (eq t) v s' -> zget (v_regs (fst s')) t = Some x -> Q x s') ->
  yields (v, st) o Q.
Proof.
  intros (Hwf & _ & Hp) [Ht Hnp] He (HP & Hpc & Hn & Hr) Hx HQ.
  apply (yields_inst drain bfuel v st i o _ _ (fetch _ _ _ Hwf He HP Hpc) Hx).
  intros x _. apply HQ; cbn [fst]; [|apply wrote_at; lia].
  split_and!; cbn [fst]; [apply quiet_frame, wrote_quiet|rewrite zlen_push; cbn; lia| |].
  - intros r Hr0 Hne. apply wrote_other; [lia|congruence].
  - apply (row_quiet v); [done|apply wrote_quiet|]. intros r Hpr. apply wrote_other; [lia|]. by intros ->.
Qed.
Lemma push_code b i t (o : outcome Value) R : pre b -> free_reg b t ->
  (forall v st, at_code b b v st -> R (v, st) ->
   exec_inst drain bfuel (v_pc v) i (v, st) = result None o (fun x => wrote t x (v_pc v + 1) v) v st) ->
  code R b (push i b) (eq t) o (holds_reg t).
Proof.
  intros Hpre Ht Hx. split; [apply grows_push, Hpre|]. intros He v st Hat HR.
  apply (store_code b i t v st o _ Hpre Ht He Hat (Hx v st Hat HR)). auto.
Qed.

(** *** Composition *)

Lemma code_bind {A B} R b1 b2 b3 (ex1 ex2 ex : Z -> Prop) (o : outcome A) (f : A -> outcome B) Q1 Q2 :
  code R b1 b2 ex1 o Q1 -> grows b2 b3 -> (forall x, code (Q1 x) b2 b3 ex2 (f x) Q2) ->
  (forall r, 0 <= r < next_reg b1 -> ex1 r \/ ex2 r -> ex r) -> code R b1 b3 ex (o ≫= f) Q2.
Proof.
  intros [G1 C1] G2 C2 Hex. split; [by eapply grows_trans|]. intros He v st Hat HR.
  eapply yields_bind.
  - apply (C1 (grows_extends _ _ G2 He)); [|done]. by apply (at_code_mono _ _ _ _ _ (grows_regs _ _ G2)).
  - cbn beta. intros x [v' st'] [Hs Hq]. pose proof (settled_at _ _ _ _ _ _ _ Hat Hs) as Hat'.
    eapply yields_mono; [apply (C2 x); done|]. cbn beta. intros y s3 [Hs3 HQ]. split; [|done].
    eapply settled_trans; [apply (grows_regs _ _ G1)|exact Hs|exact Hs3|done].
Qed.
Lemma code_keep {A} R b b' (ex : Z -> Prop) (o : outcome A) Q r x : code R b b' ex o Q ->
  0 <= r < next_reg b -> ~ ex r ->
  code (fun s => R s /\ holds_reg r x s) b b' ex o (fun a s => Q a s /\ holds_reg r x s).
Proof.
  intros [G C] Hr Hne. split; [done|]. intros He v st Hat [HR Hx]. eapply yields_mono; [by apply C|].
  cbn beta. intros a s' [Hs HQ]. split_and!; try done. destruct Hs as (_ & _ & Hk & _).
  unfold holds_reg in *. cbn [fst] in Hx. by rewrite (proj1 (Hk r Hr Hne)).
Qed.
Lemma code_conseq {A} (R R' : vst -> Prop) b b' (ex ex' : Z -> Prop) (o : outcome A) (Q Q' : A -> vst -> Prop) :
  code R b b' ex o Q -> (forall s, R' s -> R s) -> (forall r, 0 <= r < next_reg b -> ex r -> ex' r) ->
  (forall a s, Q a s -> Q' a s) -> code R' b b' ex' o Q'.
Proof.
  intros [G C] HR Hex HQ. split; [done|]. intros He v st Hat HR'. eapply yields_mono; [apply C; auto|].
  cbn beta. intros a s' [(F1 & P1 & K1 & R1) ?]. split; [|auto]. split_and!; try done.
  by eapply kept_weaken; [reflexivity|exact Hex|].
Qed.
(** Allocating registers runs nothing. *)
Lemma code_alloc {A} R b b' k (ex ex' : Z -> Prop) (o : outcome A) Q : wf_builder b -> next_reg b <= k ->
  code R (set_next_reg k b) b' ex o Q -> (forall r, 0 <= r < next_reg b -> ex r -> ex' r) -> code R b b' ex' o Q.
Proof.
  intros Hwf Hk [G C] Hex. pose proof (grows_set_next_reg k b Hwf Hk) as G0. split; [by eapply grows_trans|].
  intros He v st Hat HR. eapply yields_mono; [by apply (C He)|]. cbn beta.
  intros a s' [(F1 & P1 & K1 & R1) HQ]. split; [|done]. split_and!; try done.
  eapply kept_weaken; [|exact Hex|exact K1]. cbn. lia.
Qed.
Lemma pre_set_next_reg b k : pre b -> next_reg b <= k -> pre (set_next_reg k b).
Proof. intros (? & ? & Hp) ?. split_and!; [done|cbn; lia|]. intros r Hr. specialize (Hp r Hr). cbn. lia. Qed.
Lemma free_fresh b k r : pre b -> next_reg b <= r < k -> free_reg (set_next_reg k b) r.
Proof. intros (? & ? & Hp) ?. split; [cbn; lia|]. intros Hr. specialize (Hp r Hr). lia. Qed.
Lemma free_grows b b' r : grows b b' -> free_reg b r -> free_reg b' r.
Proof. intros Hg [Hr ?]. pose proof (grows_regs _ _ Hg). split; [lia|done]. Qed.

(** ** The compiler of expressions *)

Notation ceval := (eval ctx col aggs).
Definition Spec (e : Expr) : Prop := forall target b b',
  compile_expr ctx e target b = (Ok tt, b') -> pre b -> free_reg b target -> code_ok b b' target (ceval e).

Lemma operand_spec e b r b' : Spec e -> operand (compile_expr ctx) e b = (Ok r, b') -> pre b ->
  r = next_reg b /\ r < next_reg b' /\ pre b' /\
  code (fun _ => True) b b' (fun _ => False) (ceval e) (holds_reg r).
Proof.
  intros HS Hop Hpre. unfold operand in Hop. apply M_bind_inv in Hop as (r0 & b0 & (-> & ->)%alloc_reg_inv & Hop).
  apply M_bind_inv in Hop as ([] & b1 & Hc & [= <- <-]).
  assert (code_ok (set_next_reg (next_reg b + 1) b) b1 (next_reg b) (ceval e)) as HC
    by (apply HS; [done|apply pre_set_next_reg; [done|lia]|apply free_fresh; [done|lia]]).
  pose proof (grows_regs _ _ (proj1 HC)) as Hr. cbn in Hr. split_and!; [done|lia| |].
  - apply (grows_pre _ _ (proj1 HC)), pre_set_next_reg; [done|lia].
  - apply (code_alloc _ _ _ (next_reg b + 1) (eq (next_reg b))); [apply Hpre|lia|exact HC|]. lia.
Qed.
(** Two operands and an instruction that stores in the target. *)
Lemma binary_spec l r b rl b1 rr b2 i target (f : Value -> Value -> outcome Value) :
  Spec l -> Spec r -> operand (compile_expr ctx) l b = (Ok rl, b1) -> operand (compile_expr ctx) r b1 = (Ok rr, b2) ->
  pre b -> free_reg b target ->
  (forall x y v st, target < zlen (v_regs v) -> zget (v_regs v) rl = Some x -> zget (v_regs v) rr = Some y ->
   exec_inst drain bfuel (v_pc v) i (v, st) = result None (f x y) (fun x => wrote target x (v_pc v + 1) v) v st) ->
  code_ok b (push i b2) target (x ← ceval l; y ← ceval r; f x y).
Proof.
  intros Sl Sr Hl Hr Hpre Ht Hi.
  destruct (operand_spec _ _ _ _ Sl Hl Hpre) as (-> & Hrl & Hpre1 & Cl).
  destruct (operand_spec _ _ _ _ Sr Hr Hpre1) as (-> & Hrr & Hpre2 & Cr).
  pose proof (free_grows _ _ _ (proj1 Cl) Ht) as Ht1. pose proof (free_grows _ _ _ (proj1 Cr) Ht1) as Ht2.
  pose proof (grows_push i b2 (proj1 Hpre2)) as Gi.
  apply (code_bind _ b b1 _ (fun _ => False) (eq target) _ _ _ (fun x => holds_reg (next_reg b) x)); [exact Cl| | |tauto].
  { by eapply grows_trans; [apply Cr|]. }
  intros x. apply (code_bind _ b1 b2 _ (fun _ => False) (eq target) _ _ _
    (fun y s => holds_reg (next_reg b1) y s /\ holds_reg (next_reg b) x s)); [| done| |tauto].
  { eapply code_conseq; [apply (code_keep _ _ _ _ _ _ (next_reg b) x Cr); [destruct Hpre as (? & ? & ?); lia|tauto]|..]; cbv beta; tauto. }
  intros y. apply push_code; [done..|]. intros v st (_ & _ & Hn & _) [Hy Hx]. apply Hi; try done.
  destruct Ht2 as [? _]. lia.
Qed.

(** *** Literals and calls *)

Lemma emit_eq_ op a c d b : emit_ op a c d b = (Ok tt, push (Instruction_new op a c d) b).
Proof. done. Qed.
Lemma emit_p4_eq op a c d p b : emit_p4 op a c d p b = (Ok tt, push (mkInstruction op a c d p 0) b).
Proof. unfold emit_p4. rewrite (M_bind_ok _ _ _ _ _ (emit_eq op a c d b)). apply patch_last. Qed.
Lemma emit_function_eq name start n target b :
  emit_function name start n target b = (Ok tt, push (mkInstruction Opcode.Function 0 start target (P4_Symbol name) n) b).
Proof.
  unfold emit_function. rewrite (M_bind_ok _ _ _ _ _ (emit_eq Opcode.Function 0 start target b)).
  unfold set_p4. rewrite (M_bind_ok _ _ _ _ _ (patch_last _ _ b)). apply patch_last.
Qed.
Lemma null_code b t R : pre b -> free_reg b t ->
  code R b (push (Instruction_new Opcode.Null 0 t 0) b) (eq t) (Ok Null) (holds_reg t).
Proof.
  intros Hpre Ht. split; [apply grows_push, Hpre|]. intros He v st (HP & Hpc & Hn & Hr) HR.
  cbn in Hn. destruct Ht as [Ht Hnp].
  set (v' := v_set_aggregates (delete t (v_aggregates v)) (wrote t Null (v_pc v + 1) v)).
  assert (forall r, 0 <= r -> r <> t -> same_at v v' r) as Hsame.
  { intros r Hr0 Hne. destruct (wrote_other t Null (v_pc v + 1) v r ltac:(lia) Hne) as [Hs _]. split; [exact Hs|].
    cbn. by rewrite lookup_delete_ne. }
  assert (quiet v v') as Hq.
  { exists (v_pc v + 1), (<[Z.to_nat t := Null]> (v_regs v)), (delete t (v_aggregates v)).
    split; [by rewrite length_insert|by destruct v]. }
  apply (yields_inst drain bfuel v st _ (Ok Null) (fun _ => v') _ (fetch _ _ _ (proj1 Hpre) He HP Hpc)).
  - change (exec_inst drain bfuel (v_pc v) (Instruction_new Opcode.Null 0 t 0) (v, st))
      with (cont (exec_Null (Instruction_new Opcode.Null 0 t 0)) (v, st) : outcome (option StepResult) * vst).
    apply (cont_result _ (Ok Null) (fun _ => v') v st). unfold exec_Null. cbn [p1 p2 p3 Instruction_new].
    destruct (Z.gtb_spec 0 t); [lia|]. unfold null_reg, set_reg.
    rewrite (M_bind_ok _ _ (v, st) tt (v_set_aggregates (delete t (v_aggregates v)) (v_set_regs (<[Z.to_nat t := Null]> (v_regs v)) v), st));
      [done|].
    rewrite (M_bind_ok _ _ (v, st) tt (v_set_regs (<[Z.to_nat t := Null]> (v_regs v)) v, st)); [done|].
    rewrite (M_bind_ok (getv id) _ (v, st) v (v, st) eq_refl).
    destruct (Z.leb_spec 0 t); [|lia]. destruct (Z.ltb_spec t (zlen (v_regs v))); [done|lia].
  - intros x [= <-]. split; [|unfold holds_reg; apply (wrote_at t Null (v_pc v + 1) v); lia].
    split_and!; cbn [fst]; [by apply quiet_frame|rewrite zlen_push; cbn; lia| |].
    + intros r Hr0 Hne. apply Hsame; [lia|congruence].
    + apply (row_quiet v); [done..|]. intros r Hpr. destruct Hpre as (_ & _ & Hp). specialize (Hp r Hpr).
      apply Hsame; [lia|]. by intros ->.
Qed.
Lemma target_lt b t v st : free_reg b t -> at_code b b v st -> 0 <= t < zlen (v_regs v).
Proof. intros [? _] (_ & _ & ? & _). lia. Qed.
Lemma load_code b o a t c p x R : pre b -> free_reg b t ->
  match o with
  | Opcode.Integer => x = Int a
  | Opcode.Int64 => x = Int (as_p4_int p)
  | Opcode.Real => x = Real (as_p4_real p)
  | Opcode.String8 => x = Text (as_p4_text p)
  | Opcode.Blob => x = Blob (as_p4_blob p)
  | _ => False
  end -> code R b (push (mkInstruction o a t c p 0) b) (eq t) (Ok x) (holds_reg t).
Proof.
  intros Hpre Ht Ho. apply push_code; [done..|]. intros v st Hat _.
  by apply (arm_load drain bfuel o a t c p x v st (target_lt _ _ _ _ Ht Hat)).
Qed.
Lemma literal_spec lit target b b' : compile_literal lit target b = (Ok tt, b') -> pre b -> free_reg b target ->
  code_ok b b' target (Ok (literal_value lit)).
Proof.
  intros Hc Hpre Ht. unfold code_ok. destruct lit as [|n|r|s|bs|bl]; cbn [compile_literal literal_value] in *;
    rewrite ?emit_eq_, ?emit_p4_eq in Hc.
  - injection Hc as <-. by apply null_code.
  - destruct (_ && _); [rewrite emit_eq_ in Hc|rewrite emit_p4_eq in Hc]; injection Hc as <-; by apply load_code.
  - injection Hc as <-. by apply load_code.
  - injection Hc as <-. by apply load_code.
  - injection Hc as <-. by apply load_code.
  - injection Hc as <-. apply load_code; [done..|]. by destruct bl.
Qed.

(** A call on the registers from [start], once the arguments are there. *)
Definition holds_args (start : Z) (xs : list Value) (s : vst) : Prop :=
  forall k x, xs !! k = Some x -> holds_reg (start + Z.of_nat k) x s.
Lemma call_code b name start n target xs : pre b -> free_reg b target -> 0 <= start -> start + n <= next_reg b ->
  zlen xs = n -> handled (to_ascii_lowercase name) = false ->
  code (holds_args start xs) b (push (mkInstruction Opcode.Function 0 start target (P4_Symbol name) n) b)
    (eq target) (Vdbe.call_scalar name xs) (holds_reg target).
Proof.
  intros Hpre Ht Hs Hn <- Hh. apply push_code; [done..|]. intros v st Hat Hx.
  apply arm_function; [by eapply target_lt|done| |exact Hx|done]. destruct Hat as (_ & _ & ? & _). lia.
Qed.

Definition Spec_args (es : list Expr) : Prop := forall start b b',
  compile_args (compile_expr ctx) es start b = (Ok tt, b') -> pre b ->
  (forall r, start <= r < start + zlen es -> free_reg b r) -> 0 <= start ->
  code (fun _ => True) b b' (fun r => start <= r < start + zlen es) (evals ctx col aggs es)
    (fun xs s => zlen xs = zlen es /\ holds_args start xs s).
Lemma args_nil : Spec_args [].
Proof.
  intros start b b' [= <-] Hpre _ _. split; [by apply grows_refl, Hpre|]. intros He v st Hat _.
  apply yields_ret. split; [eapply settled_refl, Hat|]. split; [done|]. by intros k x.
Qed.
Lemma args_cons e es : Spec e -> Spec_args es -> Spec_args (e :: es).
Proof.
  intros Se Ses start b b' Hc Hpre Hfree Hpos. pose proof (zlen_nonneg es) as Hes.
  rewrite zlen_cons in Hfree. cbn [compile_args] in Hc. apply M_bind_inv in Hc as ([] & b1 & Hc1 & Hc2).
  pose proof (Se _ _ _ Hc1 Hpre (Hfree start ltac:(lia))) as C1.
  pose proof (Ses (start + 1) _ _ Hc2 (grows_pre _ _ (proj1 C1) Hpre)) as C2.
  specialize (C2 ltac:(intros r Hr; apply (free_grows _ _ _ (proj1 C1)), Hfree; lia) ltac:(lia)).
  apply (code_bind _ b b1 _ (eq start) (fun r => start + 1 <= r < start + 1 + zlen es) _ _ _ (holds_reg start));
    [exact C1|apply C2| |intros r _; rewrite zlen_cons; lia].
  intros x. assert (0 <= start < next_reg b1) as Hlt.
  { destruct (free_grows _ _ _ (proj1 C1) (Hfree start ltac:(lia))). lia. }
  eapply (code_bind _ b1 b' _ _ (fun _ => False) _ _ _
    (fun xs s => (zlen xs = zlen es /\ holds_args (start + 1) xs s) /\ holds_reg start x s));
    [|apply grows_refl, (grows_wf _ _ (proj1 C2))| |].
  - eapply code_conseq; [apply (code_keep _ _ _ _ _ _ start x C2); [done|lia]|..]; cbv beta; try tauto.
    intros r _ Hr. exact Hr.
  - intros xs. split; [apply grows_refl, (grows_wf _ _ (proj1 C2))|]. intros He v st Hat [[Hl Hxs] Hx].
    apply yields_ret. split; [eapply settled_refl, Hat|]. split; [rewrite !zlen_cons; lia|].
    intros [|k] y Hy; cbn in Hy.
    + injection Hy as <-. by rewrite Z.add_0_r.
    + replace (start + Z.of_nat (S k)) with (start + 1 + Z.of_nat k) by lia. by apply Hxs.
  - intros r _ [?|[]]. done.
Qed.

(** *** The constructors *)

Lemma unary_spec op e : Spec e -> Spec (E_Unary op e).
Proof.
  intros Se target b b' Hc Hpre Ht. cbn [compile_expr] in Hc. unfold compile_unary in Hc. unfold code_ok.
  destruct op; [destruct (const_negate e) as [lit|] eqn:Hneg|..]; [|rewrite eval_unary by done..];
    [rewrite (eval_negated _ _ _ _ _ Hneg); by apply literal_spec|..].
  - apply M_bind_inv in Hc as (tmp & b1 & Hop & Hc). destruct (operand_spec _ _ _ _ Se Hop Hpre) as (-> & Hlt & Hpre1 & C1).
    apply M_bind_inv in Hc as (zero & b2 & (-> & ->)%alloc_reg_inv & Hc).
    rewrite (M_bind_ok _ _ _ _ _ (emit_eq_ _ _ _ _ _)), emit_eq_ in Hc. injection Hc as <-.
    set (b2 := set_next_reg (next_reg b1 + 1) b1). set (b3 := push (Instruction_new Opcode.Integer 0 (next_reg b1) 0) b2).
    assert (code (fun _ => True) b1 b3 (fun _ => False) (Ok (Int 0)) (holds_reg (next_reg b1))) as C3.
    { apply (code_alloc _ _ _ (next_reg b1 + 1) (eq (next_reg b1))); [apply Hpre1|lia| |lia].
      apply (load_code b2 Opcode.Integer 0 (next_reg b1) 0 P4_None (Int 0)); [|by apply free_fresh; [|lia]|done].
      by apply pre_set_next_reg; [|lia]. }
    assert (pre b3) as Hpre3 by (apply (grows_pre _ _ (proj1 C3)), Hpre1).
    assert (free_reg b3 target) as Ht3 by (apply (free_grows _ _ _ (proj1 C3)), (free_grows _ _ _ (proj1 C1)), Ht).
    apply (code_bind _ b b1 _ (fun _ => False) (eq target) _ _ _ (fun x => holds_reg (next_reg b) x)); [exact C1| | |tauto].
    { eapply grows_trans; [apply C3|]. apply grows_push, Hpre3. }
    intros x. change (unary_value UnaryOp.Negate x) with (z ← Ok (Int 0); operator_value BinaryOp.Sub z x).
    apply (code_bind _ b1 b3 _ (fun _ => False) (eq target) _ _ _
      (fun z s => holds_reg (next_reg b1) z s /\ holds_reg (next_reg b) x s)); [| | |tauto].
    + eapply code_conseq; [apply (code_keep _ _ _ _ _ _ (next_reg b) x C3); [destruct Hpre as (? & ? & ?); lia|tauto]|..];
        cbv beta; tauto.
    + apply grows_push, Hpre3.
    + intros z. apply push_code; [done..|]. intros v st Hat [Hz' Hx].
      by apply (arm_arith drain bfuel BinaryOp.Sub (next_reg b) (next_reg b1) target z x v st (target_lt _ _ _ _ Ht3 Hat)).
  - replace (ceval e ≫= _) with (ceval e) by (by destruct (ceval e)). by apply (Se target b b').
  - apply M_bind_inv in Hc as (tmp & b1 & Hop & Hc). destruct (operand_spec _ _ _ _ Se Hop Hpre) as (-> & Hlt & Hpre1 & C1).
    rewrite emit_eq_ in Hc. injection Hc as <-. pose proof (free_grows _ _ _ (proj1 C1) Ht) as Ht1.
    apply (code_bind _ b b1 _ (fun _ => False) (eq target) _ _ _ (fun x => holds_reg (next_reg b) x));
      [exact C1|apply grows_push, Hpre1| |tauto].
    intros x. apply push_code; [done..|]. intros v st Hat Hx.
    by apply (arm_unary drain bfuel UnaryOp.Not (next_reg b) target x v st (target_lt _ _ _ _ Ht1 Hat)).
  - apply M_bind_inv in Hc as (tmp & b1 & Hop & Hc). destruct (operand_spec _ _ _ _ Se Hop Hpre) as (-> & Hlt & Hpre1 & C1).
    rewrite emit_eq_ in Hc. injection Hc as <-. pose proof (free_grows _ _ _ (proj1 C1) Ht) as Ht1.
    apply (code_bind _ b b1 _ (fun _ => False) (eq target) _ _ _ (fun x => holds_reg (next_reg b) x));
      [exact C1|apply grows_push, Hpre1| |tauto].
    intros x. apply push_code; [done..|]. intros v st Hat Hx.
    by apply (arm_unary drain bfuel UnaryOp.BitNot (next_reg b) target x v st (target_lt _ _ _ _ Ht1 Hat)).
Qed.

(** The instruction of a comparison is patched twice. *)
Lemma compare_emit opc rr target rl nulleq aff coll b :
  (i ← emit opc rr target rl;
   set_p5 i (if nulleq : bool then Z.lor (Z.lor aff P5_STOREP2) P5_NULLEQ else Z.lor aff P5_STOREP2) ;;
   emit_collation i coll) b
  = (Ok tt, push (mkInstruction opc rr target rl (from_option (fun c => P4_Symbol (collation_name c)) P4_None coll)
               (if nulleq then Z.lor (Z.lor aff P5_STOREP2) P5_NULLEQ else Z.lor aff P5_STOREP2)) b).
Proof.
  rewrite (M_bind_ok _ _ _ _ _ (emit_eq opc rr target rl b)). unfold set_p5.
  rewrite (M_bind_ok _ _ _ _ _ (patch_last _ _ b)). destruct coll as [c|]; [|done]. apply patch_last.
Qed.
Lemma collation_of_p4 coll :
  collation_of (from_option (fun c => P4_Symbol (collation_name c)) P4_None coll) = default Binary coll.
Proof. destruct coll as [c|]; [apply collation_of_name|done]. Qed.

(** Two arguments in a block, then a call. *)
Lemma call2_spec name e1 e2 o2 b bl b1 b2 target :
  Spec e1 -> pre b -> free_reg b target -> handled (to_ascii_lowercase name) = false ->
  bl = set_next_reg (next_reg b + 2) b -> compile_expr ctx e1 (next_reg b) bl = (Ok tt, b1) ->
  (pre b1 -> free_reg b1 (next_reg b + 1) -> code_ok b1 b2 (next_reg b + 1) o2) -> e2 = o2 ->
  code_ok b (push (mkInstruction Opcode.Function 0 (next_reg b) target (P4_Symbol name) 2) b2) target
    (x ← ceval e1; y ← e2; Vdbe.call_scalar name [x; y]).
Proof.
  intros S1 Hpre Ht Hh -> H1' Hc2 ->.
  assert (pre (set_next_reg (next_reg b + 2) b)) as Hpre0 by (apply pre_set_next_reg; [done|lia]).
  pose proof (S1 _ _ _ H1' Hpre0 (free_fresh b (next_reg b + 2) (next_reg b) Hpre ltac:(lia))) as C1.
  pose proof (grows_pre _ _ (proj1 C1) Hpre0) as Hpre1. pose proof (grows_regs _ _ (proj1 C1)) as R1. cbn in R1.
  specialize (Hc2 Hpre1 (free_grows _ _ _ (proj1 C1) (free_fresh b (next_reg b + 2) (next_reg b + 1) Hpre ltac:(lia)))) as C2.
  pose proof (grows_pre _ _ (proj1 C2) Hpre1) as Hpre2. pose proof (grows_regs _ _ (proj1 C2)) as R2.
  assert (free_reg b2 target) as Ht2.
  { apply (free_grows _ _ _ (proj1 C2)), (free_grows _ _ _ (proj1 C1)). destruct Ht. split; [cbn; lia|done]. }
  destruct Hpre as (Hwf & Hnn & Hprot) eqn:Heq. clear Heq.
  apply (code_alloc _ b _ (next_reg b + 2) (fun r => r = next_reg b \/ r = next_reg b + 1 \/ r = target)); [done|lia| |lia].
  apply (code_bind _ _ b1 _ (eq (next_reg b)) (fun r => r = next_reg b + 1 \/ r = target) _ _ _ (holds_reg (next_reg b)));
    [exact C1|by eapply grows_trans; [apply C2|]; apply grows_push, Hpre2| |lia].
  intros x. apply (code_bind _ b1 b2 _ (eq (next_reg b + 1)) (eq target) _ _ _
    (fun y s => holds_reg (next_reg b + 1) y s /\ holds_reg (next_reg b) x s)); [|apply grows_push, Hpre2| |lia].
  { eapply code_conseq; [apply (code_keep _ _ _ _ _ _ (next_reg b) x C2); lia|..]; cbv beta; tauto. }
  intros y. eapply code_conseq; [apply (call_code b2 name (next_reg b) 2 target [x; y]); try done; lia|..]; cbv beta; try done.
  intros s [Hy Hx] [|[|k]] z Hz; cbn in Hz; [| |done]; injection Hz as <-.
  - by rewrite Z.add_0_r.
  - exact Hy.
Qed.

Lemma logic_spec (conj : bool) l r target b b' : Spec l -> Spec r ->
  (rl ← operand (compile_expr ctx) l; rr ← operand (compile_expr ctx) r;
   emit_ (if conj then Opcode.And else Opcode.Or) rl rr target) b = (Ok tt, b') ->
  pre b -> free_reg b target ->
  code_ok b b' target (x ← ceval l; y ← ceval r; Ok (bool3_to_value ((if conj then and3 else or3) (truth x) (truth y)))).
Proof.
  intros Sl Sr Hc Hpre Ht. apply M_bind_inv in Hc as (rl & b1 & Hl & Hc). apply M_bind_inv in Hc as (rr & b2 & Hr & Hc).
  rewrite emit_eq_ in Hc. injection Hc as <-. eapply binary_spec; try done. intros x y v st Hlt Hx Hy.
  destruct Ht as [[? _] _]. by apply (arm_logic drain bfuel conj rl rr target x y v st).
Qed.
Lemma like_spec name l r target b b' : Spec l -> Spec r -> handled (to_ascii_lowercase name) = false ->
  (start ← alloc_regs 2; compile_expr ctx r start ;; compile_expr ctx l (start + 1) ;;
   emit_function name start 2 target) b = (Ok tt, b') ->
  pre b -> free_reg b target ->
  code_ok b b' target (y ← ceval r; x ← ceval l; Vdbe.call_scalar name [y; x]).
Proof.
  intros Sl Sr Hh Hc Hpre Ht. apply M_bind_inv in Hc as (start & b0 & (-> & ->)%alloc_regs_inv & Hc).
  apply M_bind_inv in Hc as ([] & b1 & Hc1 & Hc). apply M_bind_inv in Hc as ([] & b2 & Hc2 & Hc).
  rewrite emit_function_eq in Hc. injection Hc as <-.
  eapply (call2_spec name r (ceval l) (ceval l)); try done. intros Hpre1 Hf. by apply Sl.
Qed.
Lemma json_spec name l r target b b' : Spec l -> Spec r -> handled (to_ascii_lowercase name) = false ->
  (start ← alloc_regs 2; compile_expr ctx l start ;;
   match json_arrow_path_literal r with
   | Some path => emit_p4 Opcode.String8 0 (start + 1) 0 (P4_Text path)
   | None => compile_expr ctx r (start + 1)
   end ;;
   emit_function name start 2 target) b = (Ok tt, b') ->
  pre b -> free_reg b target ->
  code_ok b b' target
    (x ← ceval l; p ← match literal_path r with Some p => Ok (Text p) | None => ceval r end;
     Vdbe.call_scalar name [x; p]).
Proof.
  intros Sl Sr Hh Hc Hpre Ht. apply M_bind_inv in Hc as (start & b0 & (-> & ->)%alloc_regs_inv & Hc).
  apply M_bind_inv in Hc as ([] & b1 & Hc1 & Hc). apply M_bind_inv in Hc as ([] & b2 & Hc2 & Hc).
  rewrite literal_path_spec in Hc2. rewrite emit_function_eq in Hc. injection Hc as <-. destruct (literal_path r) as [path|].
  - rewrite emit_p4_eq in Hc2. injection Hc2 as <-.
    eapply (call2_spec name l (Ok (Text path)) (Ok (Text path))); try done. intros Hpre1 Hf. by apply load_code.
  - eapply (call2_spec name l (ceval r) (ceval r)); try done. intros Hpre1 Hf. by apply Sr.
Qed.
Lemma binary_exprs_spec op l r : Spec l -> Spec r -> Spec (E_Binary op l r).
Proof.
  intros Sl Sr target b b' Hc Hpre Ht. cbn [compile_expr] in Hc. unfold compile_binary in Hc.
  destruct (arith_opcode op) as [opc|] eqn:Ha; [|destruct (cmp_opcode op) as [[opc nulleq]|] eqn:Hcmp].
  - apply M_bind_inv in Hc as (rl & b1 & Hl & Hc). apply M_bind_inv in Hc as (rr & b2 & Hr & Hc).
    rewrite emit_eq_ in Hc. injection Hc as <-.
    replace (ceval (E_Binary op l r)) with (x ← ceval l; y ← ceval r; operator_value op x y) by (by destruct op).
    eapply binary_spec; try done. intros x y v st Hlt Hx Hy. destruct Ht as [[? _] _].
    pose proof (arm_arith drain bfuel op rr rl target x y v st ltac:(lia) Hx Hy) as Harm.
    rewrite Ha in Harm. by apply Harm.
  - apply M_bind_inv in Hc as (rl & b1 & Hl & Hc). apply M_bind_inv in Hc as (rr & b2 & Hr & Hc).
    rewrite (compare_emit opc rr target rl nulleq (aff_to_p5 (comparison_affinity ctx l r))) in Hc. injection Hc as <-.
    replace (ceval (E_Binary op l r)) with
      (x ← ceval l; y ← ceval r;
       c ← sql_compare op (comparison_affinity ctx l r) (default Binary (comparison_collation ctx l r)) x y;
       Ok (bool3_to_value c))
      by (by destruct op).
    eapply binary_spec; try done. intros x y v st Hlt Hx Hy. destruct Ht as [[? _] _].
    apply (arm_compare drain bfuel op opc nulleq rl rr target (comparison_affinity ctx l r)
      (default Binary (comparison_collation ctx l r))); [lia|done|done|done|apply collation_of_p4].
  - destruct op; try discriminate.
    + by apply (logic_spec false l r target b b').
    + by apply (logic_spec true l r target b b').
    + by apply (like_spec (bytes_of "like") l r target b b').
    + by apply (like_spec (bytes_of "glob") l r target b b').
    + by apply (json_spec (bytes_of "_json_arrow") l r target b b').
    + by apply (json_spec (bytes_of "_json_arrow_text") l r target b b').
Qed.

(** *** Function calls *)

Lemma code_pure {A} (phi : Prop) (R : vst -> Prop) b b' (ex : Z -> Prop) (o : outcome A) Q :
  grows b b' -> (phi -> code R b b' ex o Q) -> code (fun s => phi /\ R s) b b' ex o Q.
Proof. intros G C. split; [done|]. intros He v st Hat [Hphi HR]. by apply (C Hphi). Qed.
Lemma function_spec name es filter over : handled (to_ascii_lowercase name) = false -> zlen es < 256 -> Spec_args es ->
  Spec (E_Function name false (FA_List es) filter over).
Proof.
  intros Hh Hlen HS target b b' Hc Hpre Ht. cbn [compile_expr compile_function] in Hc. pose proof (zlen_nonneg es) as Hpos.
  rewrite i32_id, u8_id in Hc by lia.
  apply M_bind_inv in Hc as (u & b0 & Hck & Hc). unfold lift in Hck. injection Hck as _ <-.
  apply M_bind_inv in Hc as (start & b1 & (-> & ->)%alloc_regs_inv & Hc). apply M_bind_inv in Hc as ([] & b2 & Hargs & Hc).
  rewrite emit_function_eq in Hc. injection Hc as <-. rewrite Z.max_l in Hargs by lia.
  set (k := next_reg b + zlen es) in *. assert (next_reg b <= k) as Hk by lia.
  assert (pre (set_next_reg k b)) as Hpre1 by (by apply pre_set_next_reg).
  assert (0 <= next_reg b) as H0r by (destruct Hpre as (_ & Hp0 & _); exact Hp0).
  assert (forall r, next_reg b <= r < next_reg b + zlen es -> free_reg (set_next_reg k b) r) as Hf by (intros; by apply free_fresh).
  pose proof (HS _ _ _ Hargs Hpre1 Hf H0r) as C1. pose proof (grows_regs _ _ (proj1 C1)) as R1. cbn in R1.
  assert (free_reg b2 target) as Ht2.
  { apply (free_grows _ _ _ (proj1 C1)). destruct Ht. split; [cbn; lia|done]. }
  pose proof (grows_pre _ _ (proj1 C1) Hpre1) as Hpre2.
  apply (code_alloc _ b _ k (fun r => next_reg b <= r < k \/ r = target)); [apply Hpre|done| |lia].
  change (ceval (E_Function name false (FA_List es) filter over)) with (evals ctx col aggs es ≫= Vdbe.call_scalar name).
  eapply (code_bind _ _ b2 _ _ (eq target)); [exact C1|apply grows_push, Hpre2| |].
  - intros xs. cbv beta. apply code_pure; [apply grows_push, Hpre2|]. intros Hxs.
    apply (call_code b2 name (next_reg b) (zlen es) target xs); try done.
  - cbv beta. intros r _ [?|<-]; tauto.
Qed.
Lemma aggref_spec r : is_agg r -> Spec (E_AggRef r).
Proof.
  intros Hr target b b' Hc Hpre Ht. cbn [compile_expr] in Hc. rewrite emit_eq_ in Hc. injection Hc as <-.
  apply push_code; [done..|]. intros v st Hat _. apply arm_scopy; [by eapply target_lt|].
  apply (row_agg v st); [apply Hat|done].
Qed.

(** *** Jumps to a label *)

(** The address of a label in the program. *)
Definition label_pc (lab pc : Z) : Prop := exists a, bound_label fb lab a /\ pc = u64 a.
(** The machine has run the code between [b] and [b'], or jumped out of it. *)
Definition lands (b b' : ProgramBuilder) (lab : Z) (taken : bool) (v : Vdbe) (s' : vst) : Prop :=
  frame v (fst s') /\ kept (next_reg b) (fun _ => False) v (fst s') /\ rowinv s' /\
  (if taken then label_pc lab (v_pc (fst s')) else v_pc (fst s') = zlen (insts b')).
Definition jump_code (R : vst -> Prop) (b b' : ProgramBuilder) (lab : Z) (taken : bool) (Q : vst -> Prop) : Prop :=
  grows b b' /\
  (extends b' fb -> forall v st, at_code b b' v st -> R (v, st) ->
   exists s', rtc (vstep drain bfuel) (v, st) s' /\ lands b b' lab taken v s' /\ Q s').

Lemma jumped_quiet c a v : quiet v (jumped c a v).
Proof. exists (if c then u64 a else v_pc v + 1), (v_regs v), (v_aggregates v). split; [done|by destruct v]. Qed.
Lemma grows_push_jump i lab b : wf_builder b -> grows b (push_jump i lab b).
Proof. intros. split_and!; [apply extends_push_jump|by apply wf_push_jump|by intros l]. Qed.
(** A conditional jump leaves the registers alone. *)
Lemma push_jump_code b i lab taken R Q : wf_builder b ->
  (forall a v st, R (v, st) -> exec_inst drain bfuel (v_pc v) (with_p2 a i) (v, st) = (Ok None, (jumped taken a v, st))) ->
  (forall v v' st, v_regs v' = v_regs v -> R (v, st) -> Q (v', st)) ->
  jump_code R b (push_jump i lab b) lab taken Q.
Proof.
  intros Hwf Hx HQ. split; [by apply grows_push_jump|]. intros He v st (HP & Hpc & _ & Hr) HR.
  destruct (linked_push_jump fb P Hfinish i lab b Hwf He) as (a & Ha & Hi). unfold inst_of in Hi. rewrite <- HP, <- Hpc in Hi.
  exists (jumped taken a v, st). unfold lands. split_and!; [|by apply quiet_frame, jumped_quiet|by intros r| | |].
  - apply rtc_once. unfold vstep. rewrite (exec_one_at _ _ _ _ _ Hi). by apply Hx.
  - apply (row_quiet v); [done|apply jumped_quiet|done].
  - cbn [fst]. destruct taken; [by exists a|]. cbn. rewrite zlen_app. change (zlen [i]) with 1. lia.
  - by apply (HQ v).
Qed.
Lemma jump_code_conseq R R' b b' lab taken (Q Q' : vst -> Prop) : jump_code R b b' lab taken Q ->
  (forall s, R' s -> R s) -> (forall s, Q s -> Q' s) -> jump_code R' b b' lab taken Q'.
Proof.
  intros [G J] HR HQ. split; [done|]. intros He v st Hat HR'. destruct (J He v st Hat (HR _ HR')) as (s' & ? & ? & ?). eauto.
Qed.
Lemma landed_at b1 b2 b3 lab v st s : at_code b1 b3 v st -> lands b1 b2 lab false v s -> at_code b2 b3 (fst s) (snd s).
Proof.
  intros (HP & _ & Hn & _) (Hf & _ & Hr & Hpc). destruct s as [v' st'].
  split_and!; [by rewrite (frame_program _ _ Hf)|done|by rewrite (frame_regs _ _ Hf)|done].
Qed.
Lemma kept_none_trans k1 k2 v1 v2 v3 : k1 <= k2 -> kept k1 (fun _ => False) v1 v2 -> kept k2 (fun _ => False) v2 v3 ->
  kept k1 (fun _ => False) v1 v3.
Proof. intros Hk K1 K2. eapply kept_weaken; [reflexivity| |by eapply kept_trans]. cbv beta. tauto. Qed.
(** Two jumps to one label. *)
Lemma jump_seq R Q Q' b1 b2 b3 lab t1 t2 : jump_code R b1 b2 lab t1 Q -> jump_code Q b2 b3 lab t2 Q' ->
  (forall s, Q s -> Q' s) -> jump_code R b1 b3 lab (t1 || t2) Q'.
Proof.
  intros [G1 J1] [G2 J2] HQ. split; [by eapply grows_trans|]. intros He v st Hat HR.
  destruct (J1 (grows_extends _ _ G2 He) v st (at_code_mono _ _ _ _ _ (grows_regs _ _ G2) Hat) HR) as (s1 & Hs1 & L1 & Q1).
  destruct t1; cbn [orb].
  - destruct L1 as (? & ? & ? & ?). exists s1. unfold lands. split_and!; try done. by apply HQ.
  - pose proof (landed_at _ _ _ _ _ _ _ Hat L1) as Hat2. destruct s1 as [v1 st1].
    destruct (J2 He v1 st1 Hat2 Q1) as (s2 & Hs2 & (F2 & K2 & R2 & P2) & Q2). destruct L1 as (F1 & K1 & R1 & P1).
    exists s2. unfold lands. split_and!; [by etrans|by eapply frame_trans|by eapply kept_none_trans; [apply (grows_regs _ _ G1)|..]|done..].
Qed.
(** Operands, then a jump. *)
Lemma code_jump {A} R b1 b2 b3 lab taken (o : outcome A) x Q Q' :
  code R b1 b2 (fun _ => False) o Q -> o = Ok x -> jump_code (Q x) b2 b3 lab taken Q' -> jump_code R b1 b3 lab taken Q'.
Proof.
  intros [G1 C] -> [G2 J]. split; [by eapply grows_trans|]. intros He v st Hat HR.
  destruct (C (grows_extends _ _ G2 He) v st (at_code_mono _ _ _ _ _ (grows_regs _ _ G2) Hat) HR) as (s1 & Hs1 & Hs & HQ).
  pose proof (settled_at _ _ _ _ _ _ _ Hat Hs) as Hat2. destruct s1 as [v1 st1]. destruct Hs as (F1 & P1 & K1 & R1).
  destruct (J He v1 st1 Hat2 HQ) as (s2 & Hs2 & (F2 & K2 & R2 & P2) & Q2). exists s2. unfold lands.
  split_and!; [by etrans|by eapply frame_trans|by eapply kept_none_trans; [apply (grows_regs _ _ G1)|..]|done..].
Qed.

(** *** A label of its own *)

Lemma bound_label_fun l a a' : bound_label fb l a -> bound_label fb l a' -> a = a'.
Proof. unfold bound_label. congruence. Qed.
Lemma grows_push_label b : wf_builder b -> grows b (push_label b).
Proof.
  intros. split_and!; [apply extends_push_label|done|]. intros l Hl. cbn. by apply zget_app_some.
Qed.
Lemma fresh_label_unbound b b' : grows (push_label b) b' -> zget (label_addr b') (zlen (label_addr b)) = Some None.
Proof.
  intros (_ & _ & K). apply K. cbn. unfold zget. pose proof (zlen_nonneg (label_addr b)).
  destruct (Z.ltb_spec (zlen (label_addr b)) 0); [lia|]. unfold zlen. rewrite Nat2Z.id. by apply list_lookup_middle.
Qed.
(** Code after a fresh label, then the label. *)
Lemma grows_bind_label b b' : wf_builder b -> grows (push_label b) b' -> grows b (bind_label (zlen (label_addr b)) b').
Proof.
  intros Hwf G. pose proof (fresh_label_unbound _ _ G) as Hl. destruct (grows_trans _ _ _ (grows_push_label b Hwf) G) as (Hex & Hw & K).
  split_and!; [etrans; [exact Hex|by apply extends_bind_label]|done|]. intros l Hu. apply zget_range in Hu as Hr.
  specialize (K l Hu). cbn. unfold zget in *. pose proof (zlen_nonneg (label_addr b)).
  destruct (Z.ltb_spec l 0); [lia|]. rewrite list_lookup_insert_ne; [done|]. intros ?%Z2Nat.inj; lia.
Qed.
(** The label is where the code ends. *)
Lemma label_here b b' pc : grows (push_label b) b' -> extends (bind_label (zlen (label_addr b)) b') fb ->
  label_pc (zlen (label_addr b)) pc -> pc = zlen (insts b').
Proof.
  intros G He (a & Ha & ->). pose proof (fresh_label_unbound _ _ G) as Hl. apply zget_range in Hl.
  rewrite (bound_label_fun _ _ _ Ha (ex_labels _ _ He _ _ (bound_bind_label _ _ Hl))).
  pose proof (extends_len _ _ He) as Hlen. cbn in Hlen. unfold cur_addr_of. pose proof (zlen_nonneg (insts b')).
  rewrite i32_id by lia. apply Z.mod_small. lia.
Qed.
(** Jumping past code that jumps on its own. *)
Lemma jump_skip R Q b b1 b2 lab t1 t2 : wf_builder b ->
  jump_code R (push_label b) b1 (zlen (label_addr b)) t1 Q -> jump_code Q b1 b2 lab t2 (fun _ => True) ->
  jump_code R b (bind_label (zlen (label_addr b)) b2) lab (negb t1 && t2) (fun _ => True).
Proof.
  intros Hwf [G1 J1] [G2 J2]. pose proof (grows_trans _ _ _ G1 G2) as G. pose proof (grows_bind_label _ _ Hwf G) as Gb.
  split; [done|]. intros He v st Hat HR.
  assert (extends b2 fb) as He2 by (etrans; [apply extends_bind_label, (fresh_label_unbound _ _ G)|exact He]).
  destruct Hat as (HP & Hpc & Hn & Hri). cbn in Hn.
  assert (at_code (push_label b) b2 v st) as Hat by (by split_and!).
  destruct (J1 (grows_extends _ _ G2 He2) v st (at_code_mono _ _ _ _ _ (grows_regs _ _ G2) Hat) HR) as (s1 & Hs1 & L1 & Q1).
  destruct t1; cbn [negb andb].
  - destruct L1 as (F1 & K1 & R1 & P1). exists s1. unfold lands. split_and!; try done. exact (label_here b b2 _ G He P1).
  - pose proof (landed_at _ _ _ _ _ _ _ Hat L1) as Hat2. destruct s1 as [v1 st1].
    destruct (J2 He2 v1 st1 Hat2 Q1) as (s2 & Hs2 & (F2 & K2 & R2 & P2) & _). destruct L1 as (F1 & K1 & R1 & P1).
    exists s2. unfold lands. split_and!; [by etrans|by eapply frame_trans|by eapply kept_none_trans; [apply (grows_regs _ _ G1)|..]|done..].
Qed.

(** *** Coalesce *)

Lemma coalesce_spec l r : Spec l -> Spec r -> Spec (E_Coalesce2 l r).
Proof.
  intros Sl Sr target b b' Hc Hpre Ht. cbn [compile_expr] in Hc. apply M_bind_inv in Hc as ([] & b1 & Hl & Hc).
  rewrite (M_bind_ok _ _ _ _ _ (new_label_eq b1)) in Hc.
  rewrite (M_bind_ok _ _ (push_label b1) tt (push_jump (Instruction_new Opcode.NotNull target 0 0) (zlen (label_addr b1)) (push_label b1)))
    in Hc by done.
  apply M_bind_inv in Hc as ([] & b4 & Hr & Hc). apply resolve_inv in Hc as [_ ->].
  pose proof (Sl _ _ _ Hl Hpre Ht) as C1. pose proof (grows_pre _ _ (proj1 C1) Hpre) as Hpre1.
  set (lab := zlen (label_addr b1)) in *. set (b3 := push_jump _ lab (push_label b1)) in *.
  assert (grows (push_label b1) b3) as G3 by (apply grows_push_jump, Hpre1).
  assert (pre b3) as Hpre3 by (apply (grows_pre _ _ G3); exact Hpre1).
  pose proof (free_grows _ _ _ (proj1 C1) Ht : free_reg b3 target) as Ht3.
  pose proof (Sr _ _ _ Hr Hpre3 Ht3) as C4. pose proof (grows_trans _ _ _ G3 (proj1 C4)) as G4.
  pose proof (grows_bind_label _ _ (proj1 Hpre1) G4) as G5. fold lab in G5.
  change (ceval (E_Coalesce2 l r)) with (x ← ceval l; if is_null x then ceval r else Ok x).
  apply (code_bind _ b b1 _ (eq target) (eq target) _ _ _ (holds_reg target)); [exact C1|exact G5| |tauto].
  intros x. split; [exact G5|]. intros He v st Hat Hx.
  assert (extends b4 fb) as He4 by (etrans; [apply extends_bind_label, (fresh_label_unbound _ _ G4)|exact He]).
  pose proof (push_jump_code (push_label b1) (Instruction_new Opcode.NotNull target 0 0) lab (negb (is_null x))
    (holds_reg target x) (holds_reg target x) (proj1 Hpre1)) as [_ J].
  { intros a v0 st0 Hv. pose proof (arm_test_null drain bfuel false target a x v0 st0 Hv) as Harm.
    etransitivity; [exact Harm|by destruct (is_null x)]. }
  { intros v0 v1 st0 Hv. unfold holds_reg. cbn [fst]. by rewrite Hv. }
  assert (at_code (push_label b1) b4 v st) as Hat' by (destruct Hat as (? & ? & ? & ?); by split_and!).
  destruct (J (grows_extends _ _ (proj1 C4) He4) v st (at_code_mono _ _ _ _ _ (grows_regs _ _ (proj1 C4)) Hat') Hx)
    as (s3 & Hs3 & L3 & Q3).
  apply (yields_steps _ _ _ s3); [done|]. destruct (is_null x); cbn [negb] in L3.
  - pose proof (landed_at _ _ _ _ _ _ _ Hat' L3) as Hat3. destruct s3 as [v3 st3].
    eapply yields_mono; [apply (proj2 C4 He4); done|]. cbv beta. intros y s4 [(F4 & P4 & K4 & R4) HQ4].
    destruct L3 as (F3 & K3 & R3 & P3). split; [|done]. unfold settled.
    split_and!; [by eapply frame_trans|done| |done]. eapply kept_weaken; [reflexivity| |eapply kept_trans; [|exact K3|exact K4]].
    + cbv beta. tauto.
    + reflexivity.
  - apply yields_ret. destruct L3 as (F3 & K3 & R3 & P3). split; [|done]. unfold settled. split_and!; try done.
    + exact (label_here b1 b4 _ G4 He P3).
    + eapply kept_weaken; [reflexivity| |exact K3]. by cbv beta.
Qed.

(** *** The theorem for expressions *)

Lemma literal_spec' l : Spec (E_Literal l).
Proof. intros target b b' Hc Hpre Ht. by apply literal_spec. Qed.
Lemma column_spec s q name : Spec (E_Column s q name).
Proof. intros target b b' Hc Hpre Ht. by apply row_column. Qed.
Lemma collate_spec e c : Spec e -> Spec (E_Collate e c).
Proof. intros Se target b b' Hc. by apply Se. Qed.
Lemma supported_spec e : supported is_agg e -> Spec e.
Proof.
  apply (supported_ind2 is_agg (fun e _ => Spec e) (fun es _ => Spec_args es));
    eauto using literal_spec', column_spec, unary_spec, binary_exprs_spec, function_spec, collate_spec, aggref_spec,
      coalesce_spec, args_nil, args_cons.
Qed.

(** *** Conditions *)

Definition Spec_jump (e : Expr) : Prop := forall lab jit jin b b' x,
  compile_jump ctx e lab jit jin b = (Ok tt, b') -> pre b -> ceval e = Ok x ->
  jump_code (fun _ => True) b b' lab (holds jit jin x) (fun _ => True).

Lemma truth_bool3 r : truth (bool3_to_value r) = r.
Proof. by destruct r as [[]|]. Qed.
Lemma holds_not jit jin x : holds (negb jit) jin x = holds jit jin (bool3_to_value (negb <$> truth x)).
Proof. unfold holds. rewrite truth_bool3. by destruct (truth x) as [[]|], jit. Qed.
(** The value in a register, then a test. *)
Lemma jump_value_spec e lab jit jin b b' x : Spec e -> jump_value ctx e lab jit jin b = (Ok tt, b') -> pre b ->
  ceval e = Ok x -> jump_code (fun _ => True) b b' lab (holds jit jin x) (fun _ => True).
Proof.
  intros Se Hc Hpre Hx. unfold jump_value in Hc. apply M_bind_inv in Hc as (r & b1 & Hop & Hc).
  destruct (operand_spec _ _ _ _ Se Hop Hpre) as (-> & Hlt & Hpre1 & C1). injection Hc as <-.
  apply (code_jump _ b b1 _ lab _ _ x _ _ C1 Hx). apply (push_jump_code b1 _ lab); [apply Hpre1| |done].
  intros a v st Hv. apply (arm_if drain bfuel jit jin (next_reg b) a x v st Hv).
Qed.
(** A comparison instruction as a jump. *)
Lemma compare_jump_code op opc nulleq (jit jin : bool) b lab rl rr aff coll p x y r (R : vst -> Prop) : wf_builder b ->
  cmp_opcode op = Some (opc, nulleq) -> collation_of p = coll -> sql_compare op aff coll x y = Ok r ->
  (forall s, R s -> holds_reg rl x s /\ holds_reg rr y s) ->
  (forall v v' st, v_regs v' = v_regs v -> R (v, st) -> R (v', st)) ->
  jump_code R b (push_jump (mkInstruction (if jit then opc else negate_cmp opc) rr 0 rl p
      (Z.lor (aff_to_p5 aff) (if nulleq then P5_NULLEQ else jump_if_null_flag jin))) lab b)
    lab (holds jit jin (bool3_to_value r)) R.
Proof.
  intros Hwf Hop Hp Hr HR Hregs. apply push_jump_code; [done| |done]. intros a v st Hv. apply HR in Hv as [Hx Hy].
  unfold holds. rewrite truth_bool3. destruct jit.
  - etransitivity; [exact (arm_compare_jump drain bfuel op opc nulleq jin rl rr a aff coll p x y r v st Hx Hy Hop Hp Hr)|].
    do 2 f_equal. destruct r as [[]|]; [done..|]. destruct nulleq; [|done].
    destruct (compare_nulleq _ _ _ _ _ _ _ Hop Hr) as [t Ht]. discriminate Ht.
  - assert (sql_compare (negate_op op) aff coll x y = Ok (negb <$> r)) as Hr'
      by (rewrite (negate_op_compare _ _ _ _ _ _ _ Hop), Hr; done).
    etransitivity; [exact (arm_compare_jump drain bfuel _ _ nulleq jin rl rr a aff coll p x y _ v st Hx Hy
      (negate_op_opcode _ _ _ Hop) Hp Hr')|].
    do 2 f_equal. destruct r as [[]|]; [done..|]. destruct nulleq; [|done].
    destruct (compare_nulleq _ _ _ _ _ _ _ Hop Hr) as [t Ht]. discriminate Ht.
Qed.
(** Two operands and a jump. *)
Lemma operands_jump l r b rl b1 rr b2 b3 x y lab taken Q : Spec l -> Spec r ->
  operand (compile_expr ctx) l b = (Ok rl, b1) -> operand (compile_expr ctx) r b1 = (Ok rr, b2) -> pre b ->
  ceval l = Ok x -> ceval r = Ok y ->
  (pre b2 -> jump_code (fun s => holds_reg rl x s /\ holds_reg rr y s) b2 b3 lab taken Q) ->
  jump_code (fun _ => True) b b3 lab taken Q.
Proof.
  intros Sl Sr Hl Hr Hpre Hx Hy J.
  destruct (operand_spec _ _ _ _ Sl Hl Hpre) as (-> & Hrl & Hpre1 & Cl).
  destruct (operand_spec _ _ _ _ Sr Hr Hpre1) as (-> & Hrr & Hpre2 & Cr).
  apply (code_jump _ b b1 _ lab _ _ x _ _ Cl Hx).
  apply (code_jump _ b1 b2 _ lab _ (ceval r) y (fun y s => holds_reg (next_reg b) x s /\ holds_reg (next_reg b1) y s) _).
  - eapply code_conseq; [apply (code_keep _ _ _ _ _ _ (next_reg b) x Cr); [destruct Hpre as (? & ? & ?); lia|tauto]|..];
      cbv beta; tauto.
  - done.
  - by apply J.
Qed.
Lemma jump_compare_spec op opc nulleq l r lab (jit jin : bool) b b' x : Spec l -> Spec r ->
  cmp_opcode op = Some (opc, nulleq) -> jump_compare ctx opc nulleq l r lab jit jin b = (Ok tt, b') -> pre b ->
  ceval (E_Binary op l r) = Ok x -> jump_code (fun _ => True) b b' lab (holds jit jin x) (fun _ => True).
Proof.
  intros Sl Sr Hop Hc Hpre Hx. unfold jump_compare in Hc.
  apply M_bind_inv in Hc as (rl & b1 & Hl & Hc). apply M_bind_inv in Hc as (rr & b2 & Hr & Hc).
  rewrite (M_bind_ok _ _ _ _ _ (emit_jump_eq (if jit then opc else negate_cmp opc) rr lab rl b2)) in Hc. unfold set_p5 in Hc.
  rewrite (M_bind_ok _ _ _ _ _ (patch_last_jump _ _ lab b2)) in Hc.
  set (coll := comparison_collation ctx l r) in *. set (aff := comparison_affinity ctx l r) in *.
  assert (b' = push_jump (mkInstruction (if jit then opc else negate_cmp opc) rr 0 rl
            (from_option (fun c => P4_Symbol (collation_name c)) P4_None coll)
            (Z.lor (aff_to_p5 aff) (if nulleq then P5_NULLEQ else jump_if_null_flag jin))) lab b2) as ->.
  { destruct coll as [c|]; cbn [emit_collation from_option] in Hc |- *; [|by injection Hc as <-].
    unfold set_p4 in Hc. rewrite patch_last_jump in Hc. by injection Hc as <-. }
  assert (exists a c r0, ceval l = Ok a /\ ceval r = Ok c /\ sql_compare op aff (default Binary coll) a c = Ok r0
          /\ x = bool3_to_value r0) as (a & c & r0 & Ha & Hc' & Hr0 & ->).
  { assert (ceval (E_Binary op l r) = (x ← ceval l; y ← ceval r;
       c ← sql_compare op aff (default Binary coll) x y; Ok (bool3_to_value c))) as Heq.
    { by destruct op. }
    rewrite Heq in Hx. apply bind_ok in Hx as (a & Ha & Hx). apply bind_ok in Hx as (c & Hc' & Hx).
    apply bind_ok in Hx as (r0 & Hr0 & [= <-]). by exists a, c, r0. }
  apply (operands_jump l r b rl b1 rr b2 _ a c lab _ _ Sl Sr Hl Hr Hpre Ha Hc'). intros Hpre2.
  eapply jump_code_conseq; [apply (compare_jump_code op opc nulleq jit jin b2 lab rl rr aff (default Binary coll) _ a c r0
    (fun s => holds_reg rl a s /\ holds_reg rr c s)); try done|done|done].
  - apply Hpre2.
  - apply collation_of_p4.
  - intros v v' st Hv. unfold holds_reg. cbn [fst]. by rewrite Hv.
Qed.

Lemma holds_and_true jin x y :
  holds true jin (bool3_to_value (and3 (truth x) (truth y))) = negb (holds false (negb jin) x) && holds true jin y.
Proof. unfold holds. rewrite truth_bool3. by destruct (truth x) as [[]|], (truth y) as [[]|], jin. Qed.
Lemma holds_and_false jin x y :
  holds false jin (bool3_to_value (and3 (truth x) (truth y))) = holds false jin x || holds false jin y.
Proof. unfold holds. rewrite truth_bool3. by destruct (truth x) as [[]|], (truth y) as [[]|], jin. Qed.
Lemma holds_or_true jin x y :
  holds true jin (bool3_to_value (or3 (truth x) (truth y))) = holds true jin x || holds true jin y.
Proof. unfold holds. rewrite truth_bool3. by destruct (truth x) as [[]|], (truth y) as [[]|], jin. Qed.
Lemma holds_or_false jin x y :
  holds false jin (bool3_to_value (or3 (truth x) (truth y))) = negb (holds true (negb jin) x) && holds false jin y.
Proof. unfold holds. rewrite truth_bool3. by destruct (truth x) as [[]|], (truth y) as [[]|], jin. Qed.
Lemma jump_pre R b b' lab taken Q : jump_code R b b' lab taken Q -> pre b -> pre b'.
Proof. intros [G _]. by apply grows_pre. Qed.

(** The two shapes of a conjunction: jump past the second part, or to one label. *)
Lemma seq_jump_spec l r lab jl jr nl nr b b' x y : Spec_jump l -> Spec_jump r ->
  (compile_jump ctx l lab jl nl ;; compile_jump ctx r lab jr nr) b = (Ok tt, b') -> pre b ->
  ceval l = Ok x -> ceval r = Ok y ->
  jump_code (fun _ => True) b b' lab (holds jl nl x || holds jr nr y) (fun _ => True).
Proof.
  intros Jl Jr Hc Hpre Hx Hy. apply M_bind_inv in Hc as ([] & b1 & Hl & Hr).
  pose proof (Jl _ _ _ _ _ _ Hl Hpre Hx) as C1. pose proof (Jr _ _ _ _ _ _ Hr (jump_pre _ _ _ _ _ _ C1 Hpre) Hy) as C2.
  by apply (jump_seq _ _ _ _ _ _ _ _ _ C1 C2).
Qed.
Lemma skip_jump_spec l r lab jl jr nl nr b b' x y : Spec_jump l -> Spec_jump r ->
  (d2 ← new_label; compile_jump ctx l d2 jl nl ;; compile_jump ctx r lab jr nr ;; resolve d2) b = (Ok tt, b') -> pre b ->
  ceval l = Ok x -> ceval r = Ok y ->
  jump_code (fun _ => True) b b' lab (negb (holds jl nl x) && holds jr nr y) (fun _ => True).
Proof.
  intros Jl Jr Hc Hpre Hx Hy. rewrite (M_bind_ok _ _ _ _ _ (new_label_eq b)) in Hc.
  apply M_bind_inv in Hc as ([] & b1 & Hl & Hc). apply M_bind_inv in Hc as ([] & b2 & Hr & Hc).
  apply resolve_inv in Hc as [_ ->]. assert (pre (push_label b)) as Hpre0 by exact Hpre.
  pose proof (Jl _ _ _ _ _ _ Hl Hpre0 Hx) as C1. pose proof (Jr _ _ _ _ _ _ Hr (jump_pre _ _ _ _ _ _ C1 Hpre0) Hy) as C2.
  by apply (jump_skip _ _ _ _ _ _ _ _ (proj1 Hpre) C1 C2).
Qed.
Lemma and_jump_spec l r : Spec_jump l -> Spec_jump r -> Spec_jump (E_Binary BinaryOp.And l r).
Proof.
  intros Jl Jr lab jit jin b b' z Hc Hpre Hz. cbn [compile_jump] in Hc. cbn [eval binary_value] in Hz.
  apply bind_ok in Hz as (x & Hx & Hz). apply bind_ok in Hz as (y & Hy & [= <-]). destruct jit.
  - rewrite holds_and_true. by apply (skip_jump_spec l r lab false true (negb jin) jin b b' x y).
  - rewrite holds_and_false. by apply (seq_jump_spec l r lab false false jin jin b b' x y).
Qed.
Lemma or_jump_spec l r : Spec_jump l -> Spec_jump r -> Spec_jump (E_Binary BinaryOp.Or l r).
Proof.
  intros Jl Jr lab jit jin b b' z Hc Hpre Hz. cbn [compile_jump] in Hc. cbn [eval binary_value] in Hz.
  apply bind_ok in Hz as (x & Hx & Hz). apply bind_ok in Hz as (y & Hy & [= <-]). destruct jit.
  - rewrite holds_or_true. by apply (seq_jump_spec l r lab true true jin jin b b' x y).
  - rewrite holds_or_false. by apply (skip_jump_spec l r lab true false (negb jin) jin b b' x y).
Qed.
Lemma not_jump_spec e : Spec_jump e -> Spec_jump (E_Unary UnaryOp.Not e).
Proof.
  intros Je lab jit jin b b' z Hc Hpre Hz. cbn [compile_jump] in Hc. cbn [eval unary_value] in Hz.
  apply bind_ok in Hz as (x & Hx & [= <-]). rewrite <- holds_not. by apply (Je lab (negb jit) jin b b').
Qed.

(** *** BETWEEN as a condition *)

Lemma emit_cmp_jump_eq op r1 l r3 p b :
  emit_cmp_jump op r1 l r3 p b = (Ok tt, push_jump (mkInstruction op r1 0 r3 P4_None p) l b).
Proof.
  unfold emit_cmp_jump. rewrite (M_bind_ok _ _ _ _ _ (emit_jump_eq op r1 l r3 b)). apply patch_last_jump.
Qed.
Definition three (r lo hi : Z) (x y z : Value) (s : vst) : Prop :=
  holds_reg r x s /\ holds_reg lo y s /\ holds_reg hi z s.
(** [x] below the lower bound, [x] above the upper bound. *)
Lemma low_jump (jit jin : bool) b lab r lo hi aff x y z a : wf_builder b -> sql_compare BinaryOp.Ge aff Binary x y = Ok a ->
  jump_code (three r lo hi x y z) b
    (push_jump (mkInstruction (if jit then Opcode.Ge else Opcode.Lt) lo 0 r P4_None
      (Z.lor (aff_to_p5 aff) (jump_if_null_flag jin))) lab b) lab (holds jit jin (bool3_to_value a)) (three r lo hi x y z).
Proof.
  intros Hwf Ha. apply (compare_jump_code BinaryOp.Ge Opcode.Ge false jit jin b lab r lo aff Binary P4_None x y a); try done.
  - by intros s (? & ? & ?).
  - intros v v' st Hv. unfold three, holds_reg. cbn [fst]. by rewrite Hv.
Qed.
Lemma high_jump (jit jin : bool) b lab r lo hi aff x y z a : wf_builder b -> sql_compare BinaryOp.Le aff Binary x z = Ok a ->
  jump_code (three r lo hi x y z) b
    (push_jump (mkInstruction (if jit then Opcode.Le else Opcode.Gt) hi 0 r P4_None
      (Z.lor (aff_to_p5 aff) (jump_if_null_flag jin))) lab b) lab (holds jit jin (bool3_to_value a)) (fun _ => True).
Proof.
  intros Hwf Ha. eapply jump_code_conseq;
    [apply (compare_jump_code BinaryOp.Le Opcode.Le false jit jin b lab r hi aff Binary P4_None x z a
      (three r lo hi x y z) Hwf eq_refl eq_refl Ha)|done|done].
  - by intros s (? & ? & ?).
  - intros v v' st Hv. unfold three, holds_reg. cbn [fst]. by rewrite Hv.
Qed.
(** The affinity the code gives both comparisons. *)
Definition between_affinity (e low high : Expr) : option Affinity :=
  match comparison_affinity ctx e low with Some a => Some a | None => comparison_affinity ctx e high end.
Lemma between_operands_spec e low high b r lo hi aff b3 x y z b4 lab taken Q : Spec e -> Spec low -> Spec high ->
  between_operands ctx (compile_expr ctx) e low high b = (Ok (r, lo, hi, aff), b3) -> pre b ->
  ceval e = Ok x -> ceval low = Ok y -> ceval high = Ok z ->
  (aff = between_affinity e low high -> pre b3 -> jump_code (three r lo hi x y z) b3 b4 lab taken Q) ->
  jump_code (fun _ => True) b b4 lab taken Q.
Proof.
  intros Se Sl Sh Hc Hpre Hx Hy Hz J. unfold between_operands in Hc. apply M_bind_inv in Hc as (r0 & b1 & H1' & Hc).
  apply M_bind_inv in Hc as (lo0 & b2 & H2' & Hc). apply M_bind_inv in Hc as (hi0 & b3' & H3' & [= -> -> -> <- ->]).
  destruct (operand_spec _ _ _ _ Se H1' Hpre) as (-> & Hr1 & Hpre1 & C1).
  destruct (operand_spec _ _ _ _ Sl H2' Hpre1) as (-> & Hr2 & Hpre2 & C2).
  destruct (operand_spec _ _ _ _ Sh H3' Hpre2) as (-> & Hr3 & Hpre3 & C3).
  assert (0 <= next_reg b) as Hn by apply (proj1 (proj2 Hpre)).
  apply (code_jump _ b b1 _ lab _ _ x _ _ C1 Hx).
  apply (code_jump _ b1 b2 _ lab _ (ceval low) y (fun y s => holds_reg (next_reg b1) y s /\ holds_reg (next_reg b) x s) _);
    [|done|].
  { eapply code_conseq; [apply (code_keep _ _ _ _ _ _ (next_reg b) x C2); [lia|tauto]|..]; cbv beta; tauto. }
  apply (code_jump _ b2 b3 _ lab _ (ceval high) z
    (fun z s => (holds_reg (next_reg b2) z s /\ holds_reg (next_reg b1) y s) /\ holds_reg (next_reg b) x s) _); [|done|].
  { eapply code_conseq; [apply (code_keep _ _ _ _ _ _ (next_reg b) x (code_keep _ _ _ _ _ _ (next_reg b1) y C3
      ltac:(lia) ltac:(tauto)) ltac:(lia) ltac:(tauto))|..]; cbv beta; tauto. }
  eapply jump_code_conseq; [by apply J| |done]. cbv beta. unfold three. tauto.
Qed.
Lemma holds_negated jit jin (negated : bool) r :
  holds jit jin (bool3_to_value (if negated then negb <$> r else r)) = holds (xorb jit negated) jin (bool3_to_value r).
Proof. unfold holds. rewrite !truth_bool3. by destruct negated, r as [[]|], jit. Qed.
Lemma between_inside jin a c : holds true jin (bool3_to_value (and3 a c)) =
  negb (holds false (negb jin) (bool3_to_value a)) && holds true jin (bool3_to_value c).
Proof. unfold holds. rewrite !truth_bool3. by destruct a as [[]|], c as [[]|], jin. Qed.
Lemma between_outside jin a c : holds false jin (bool3_to_value (and3 a c)) =
  holds false jin (bool3_to_value a) || holds false jin (bool3_to_value c).
Proof. unfold holds. rewrite !truth_bool3. by destruct a as [[]|], c as [[]|], jin. Qed.
Lemma between_jump_spec e low high negated : Spec e -> Spec low -> Spec high -> plain_between ctx e low high ->
  Spec_jump (E_Between e low high negated).
Proof.
  intros Se Sl Sh (Haff & Hcl & Hch) lab jit jin b b' w Hc Hpre Hw. cbn [compile_jump] in Hc. unfold jump_between in Hc.
  apply M_bind_inv in Hc as ([[[r lo] hi] aff] & b3 & Hops & Hc). cbn [eval] in Hw.
  apply bind_ok in Hw as (x & Hx & Hw). apply bind_ok in Hw as (y & Hy & Hw). apply bind_ok in Hw as (z & Hz & Hw).
  apply bind_ok in Hw as (t & Ht & [= <-]). unfold between_value in Ht.
  rewrite Hcl, Hch, <- Haff in Ht. cbn [default from_option id] in Ht. apply bind_ok in Ht as (a & Ha & Ht).
  apply bind_ok in Ht as (c & Hc' & [= <-]). rewrite holds_negated.
  apply (between_operands_spec e low high b r lo hi aff b3 x y z b' lab _ _ Se Sl Sh Hops Hpre Hx Hy Hz).
  intros Hb Hpre3. assert (aff = comparison_affinity ctx e low) as ->
    by (rewrite Hb; unfold between_affinity; rewrite <- Haff; by destruct (comparison_affinity ctx e low)).
  set (aff := comparison_affinity ctx e low) in *.
  assert ((if xorb jit negated then
             d2 ← new_label;
             emit_cmp_jump Opcode.Lt lo d2 r (Z.lor (aff_to_p5 aff) (jump_if_null_flag (negb jin))) ;;
             emit_cmp_jump Opcode.Le hi lab r (Z.lor (aff_to_p5 aff) (jump_if_null_flag jin)) ;;
             resolve d2
           else
             emit_cmp_jump Opcode.Lt lo lab r (Z.lor (aff_to_p5 aff) (jump_if_null_flag jin)) ;;
             emit_cmp_jump Opcode.Gt hi lab r (Z.lor (aff_to_p5 aff) (jump_if_null_flag jin))) b3 = (Ok tt, b')) as Hcode
    by (destruct negated, jit; exact Hc).
  clear Hc. set (pj := Z.lor _ (jump_if_null_flag jin)) in Hcode. set (pn := Z.lor _ (jump_if_null_flag (negb jin))) in Hcode.
  destruct (xorb jit negated).
  - rewrite (M_bind_ok _ _ _ _ _ (new_label_eq b3)) in Hcode.
    rewrite (M_bind_ok _ _ _ _ _ (emit_cmp_jump_eq Opcode.Lt lo (zlen (label_addr b3)) r pn (push_label b3))) in Hcode.
    rewrite (M_bind_ok _ _ _ _ _ (emit_cmp_jump_eq Opcode.Le hi lab r pj
      (push_jump (mkInstruction Opcode.Lt lo 0 r P4_None pn) (zlen (label_addr b3)) (push_label b3)))) in Hcode. apply resolve_inv in Hcode as [_ ->].
    rewrite between_inside. eapply (jump_skip (three r lo hi x y z) (three r lo hi x y z) b3 _ _ lab); [apply Hpre3| |].
    + apply (low_jump false (negb jin)); [apply Hpre3|exact Ha].
    + apply (high_jump true jin); [by apply wf_push_jump, Hpre3|exact Hc'].
  - rewrite (M_bind_ok _ _ _ _ _ (emit_cmp_jump_eq Opcode.Lt lo lab r pj b3)), emit_cmp_jump_eq in Hcode. injection Hcode as <-.
    rewrite between_outside. eapply jump_seq; [apply (low_jump false jin); [apply Hpre3|exact Ha]| |done].
    apply (high_jump false jin); [by apply wf_push_jump, Hpre3|done].
Qed.

(** *** The theorem for conditions *)

Lemma supported_jump e : supported is_agg e -> Spec_jump e.
Proof.
  assert (forall e, supported is_agg e -> (forall lab jit jin, compile_jump ctx e lab jit jin = jump_value ctx e lab jit jin) ->
    Spec_jump e) as Hval.
  { intros e0 He Heq lab jit jin b b' x Hc. rewrite Heq in Hc. apply jump_value_spec; [by apply supported_spec|done]. }
  revert e. fix IH 2. intros e He. assert (supported is_agg e) as Hsup by exact He.
  destruct He as [l|s t n|op e He|op l r Hl Hr|name es filter over Hh Hn Hes|e c He|r Hr|l r Hl Hr]; try by apply Hval.
  - destruct op; try by apply Hval. by apply not_jump_spec, IH.
  - destruct (cmp_opcode op) as [[opc nulleq]|] eqn:Hop.
    + intros lab jit jin b b' x Hc. apply (jump_compare_spec op opc nulleq l r lab jit jin b b' x);
        [by apply supported_spec..|done|]. destruct op; try discriminate Hop; cbn [compile_jump] in Hc; by rewrite Hop in Hc.
    + destruct op; try discriminate Hop; try by apply Hval.
      * by apply or_jump_spec; apply IH.
      * by apply and_jump_spec; apply IH.
Qed.
Lemma condition_jump e : condition ctx is_agg e -> Spec_jump e.
Proof.
  induction 1; eauto using and_jump_spec, or_jump_spec, not_jump_spec, supported_jump.
  by apply between_jump_spec; [apply supported_spec..|].
Qed.

(** ** The compiler is correct *)


End Code.
