(* ===== verification/Rows.v ===== *)
(** * Rows for compiled expressions

    The rows [compile_expr] is used on give the access its correctness asks
    for: the current row of a table cursor, read with [Column] and [Rowid]
    through the cache of the machine, and a block of registers. *)

From S2P Require Import Prelude Utf8 Float64 Value Str Fp DbHeader Record Aggregate Program VdbeOps Vfs Wal BtreePage Pager Cell Balance BtreeInsert TableCursor PagerTxn Vdbe Ast Schema Builder Linking Registry ExprGen ExprEval Steps ExprCorrect.
#[local] Open Scope Z_scope.

Lemma position_from_range {A} (p : A -> bool) l k i : position_from k p l = Some i -> k <= i < k + zlen l.
Proof.
  revert k. induction l as [|x l IH]; intros k; cbn [position_from]; [done|]. rewrite zlen_cons. pose proof (zlen_nonneg l).
  destruct (p x); [intros [= <-]; lia|]. intros Hk%IH. lia.
Qed.
Lemma column_index_range t name i : column_index t name = Some i -> 0 <= i < zlen (t_columns t).
Proof. apply (position_from_range _ _ 0). Qed.
Lemma resolve_column_range t name i : resolve_column t name = Some (CR_Index i) -> 0 <= i < zlen (t_columns t).
Proof.
  unfold resolve_column. destruct (column_index t name) as [j|] eqn:Hj; [|by destruct (_ && _)].
  case_bool_decide; [done|]. intros [= <-]. by apply (column_index_range _ name).
Qed.
Lemma zget_some {A} (l : list A) i : 0 <= i < zlen l -> is_Some (zget l i).
Proof. intros. unfold zget. destruct (Z.ltb_spec i 0); [lia|]. apply lookup_lt_is_Some. unfold zlen in *. lia. Qed.

(** The context of a single table. *)
Record single_table (ctx : Ctx) : Prop := {
  st_join : x_join_tables ctx = None;
  st_outer : x_outer ctx = None;
  st_index : x_index_read ctx = None;
  st_columns : t_columns (x_table ctx) <> [];
  st_small : zlen (t_columns (x_table ctx)) < 2 ^ 31 }.
Lemma single_column ctx q name target : single_table ctx ->
  compile_column ctx q name target =
  match resolve_column (x_table ctx) name with
  | Some _ => compile_column_single ctx q name target
  | None => fail no_such_column
  end.
Proof.
  intros []. unfold compile_column, compile_column_single, try_outer. rewrite st_join0, st_outer0.
  destruct (t_columns (x_table ctx)); [done|]. cbn [is_nil]. destruct (resolve_column _ _) as [[|i]|]; done.
Qed.

Section Rows.
Context {E F : Type} `{VfsOps E F} `{SqlFunctions} `{SubqueryCodegen}.
Context (drain : gmap Z bytes -> list (Z * bytes)) (bfuel : nat).
Notation State := (Pager F * (Proc * E))%type.
Notation vst := (Vdbe * State)%type.
Context (fb : ProgramBuilder) (P : Program) (Hfinish : finish fb = Ok P).
Context (ctx : Ctx) (Hctx : single_table ctx).

(** ** A row in registers *)

Section Registers.
Variables (base : Z) (values : list Value) (results : gmap Z Value).
Hypothesis Hbase : x_register_base ctx = Some base.
Hypothesis Hvalues : zlen (t_columns (x_table ctx)) <= zlen values.
Hypothesis Halias : match t_rowid_alias (x_table ctx) with
                    | Some a => 0 <= a < zlen (t_columns (x_table ctx))
                    | None => t_without_rowid (x_table ctx) = true
                    end.

Definition register_col (_ : option bytes) (name : bytes) : Value :=
  default Null
    match resolve_column (x_table ctx) name with
    | Some CR_Rowid => a ← t_rowid_alias (x_table ctx); zget values a
    | Some (CR_Index i) => zget values i
    | None => None
    end.
Definition register_prot (r : Z) : Prop := base <= r < base + zlen values \/ is_Some (results !! r).
Definition register_row (s : vst) : Prop :=
  (forall i x, zget values i = Some x -> zget (v_regs (fst s)) (base + i) = Some x) /\
  (forall r x, results !! r = Some x -> zget (v_regs (fst s)) r = Some x).

#[export] Instance register_quiet : RowQuiet register_row register_prot.
Proof.
  intros v v' st [Hv Hr] _ Hsame. split; cbn [fst] in *.
  - intros i x Hi. rewrite (proj1 (Hsame (base + i) ltac:(left; apply zget_range in Hi; lia))). by apply Hv.
  - intros r x Hx. rewrite (proj1 (Hsame r ltac:(right; by eexists))). by apply Hr.
Qed.
(** The copy of a register that is there. *)
Lemma register_copy i target b b' x : zget values i = Some x -> 0 <= i < 2 ^ 31 ->
  (r ← plus_i32 base i; emit_ Opcode.SCopy r target 0) b = (Ok tt, b') ->
  pre register_prot b -> free_reg register_prot b target ->
  code_ok drain bfuel fb P register_row b b' target (Ok x).
Proof.
  intros Hx Hi Hc Hpre Ht. apply M_bind_inv in Hc as (r & b1 & Hr & Hc). unfold plus_i32, lift in Hr.
  rewrite i32_id in Hr by lia. unfold chk_i32 in Hr. destruct (_ && _); [|done]. injection Hr as <- <-.
  rewrite emit_eq_ in Hc. injection Hc as <-. apply (push_code drain bfuel fb P Hfinish _ register_prot); [done..|].
  intros v st Hat _. apply arm_scopy; [eapply target_lt; [exact Ht|exact Hat]|]. destruct Hat as (_ & _ & _ & Hrow & _). by apply Hrow.
Qed.
#[export] Instance register_access :
  RowAccess drain bfuel fb P ctx register_row register_prot (fun r => is_Some (results !! r)) register_col
    (fun r => default Null (results !! r)).
Proof.
  split.
  - intros v st r [_ Hr] [x Hx]. cbn [fst] in Hr. rewrite Hx. by apply Hr.
  - intros q name target b b' Hc Hpre Ht. rewrite (single_column _ _ _ _ Hctx) in Hc. unfold register_col.
    destruct (resolve_column (x_table ctx) name) as [cr|] eqn:Hres; [|done]. unfold compile_column_single in Hc.
    destruct (t_columns (x_table ctx)) as [|c0 cs] eqn:Hcols; [by destruct Hctx|]. cbn [is_nil] in Hc. rewrite <- Hcols in *.
    rewrite Hres, Hbase in Hc. pose proof (st_small _ Hctx) as Hsmall. destruct cr as [|i].
    + destruct (t_rowid_alias (x_table ctx)) as [a|] eqn:Ha.
      * cbn [mbind option_bind]. destruct (zget_some values a ltac:(lia)) as [x Hx]. rewrite Hx.
        by apply (register_copy a); [|lia| | |].
      * exfalso. unfold resolve_column in Hres. rewrite Ha, Halias in Hres.
        destruct (column_index (x_table ctx) name); [by case_bool_decide|done].
    + pose proof (resolve_column_range _ _ _ Hres) as Hi. destruct (zget_some values i ltac:(lia)) as [x Hx]. rewrite Hx.
      by apply (register_copy i); [|lia| | |].
Qed.
End Registers.

(** ** A row beside registers that must last *)

Section Kept.
Context (rowinv : vst -> Prop) (prot is_agg : Z -> Prop) (col : option bytes -> bytes -> Value) (aggs : Z -> Value).
Context `{!RowQuiet rowinv prot} `{!RowAccess drain bfuel fb P ctx rowinv prot is_agg col aggs}.
Context (regs : gmap Z Value).

Definition kept_prot (r : Z) : Prop := prot r \/ is_Some (regs !! r).
Definition kept_row (s : vst) : Prop :=
  rowinv s /\ forall r x, regs !! r = Some x -> zget (v_regs (fst s)) r = Some x.
#[export] Instance kept_quiet : RowQuiet kept_row kept_prot.
Proof.
  intros v v' st [Hr Hk] Hq Hsame. split; [apply (RowQuiet0 v v' st); [done..|intros r Hp; apply Hsame; by left]|].
  intros r x Hx. cbn [fst] in *. rewrite (proj1 (Hsame r ltac:(right; by eexists))). by apply Hk.
Qed.
#[export] Instance kept_access : RowAccess drain bfuel fb P ctx kept_row kept_prot is_agg col aggs.
Proof.
  split.
  - intros v st r [Hr _] Ha. by eapply row_agg.
  - intros q name target b b' Hc (Hwf & Hn & Hp) [Ht Hnp].
    assert (pre prot b) as Hpre by (split_and!; [done|done|intros r ?; apply Hp; by left]).
    destruct RowAccess0 as [_ Hcol].
    destruct (Hcol q name target b b' Hc Hpre ltac:(split; [done|intros ?; apply Hnp; by left])) as [G C].
    split; [exact G|]. intros Hex v st (HP & Hpc & Hnr & Hrow & Hk) _.
    eapply yields_mono; [apply (C Hex v st); [by split_and!|done]|]. cbn beta. intros x s' [(F1 & P1 & K1 & R1) Hx]. split; [|done].
    split_and!; [done..|]. split; [exact R1|]. intros r y Hy. cbn [fst] in *. rewrite (proj1 (K1 r ltac:(apply Hp; right; by eexists) ltac:(intros ->; apply Hnp; right; by eexists))).
    by apply Hk.
Qed.
End Kept.

(** ** The row under a table cursor *)

Section Cursor.
Variables (c : TableCursor) (rid : Z) (pl : bytes) (vals : list Value) (enc : TextEncoding) (readable : State -> Prop).
Hypothesis Hbase : x_register_base ctx = None.
Hypothesis Hrowid : t_without_rowid (x_table ctx) = false.
Hypothesis Hnull : is_null_row c = false.
Hypothesis Hrid : rowid c = Ok rid.
Hypothesis Hdecode : decode_record pl enc = Ok vals.
Hypothesis Hread : forall st, readable st -> exists st', payload (c, st) = (Ok pl, (c, st')) /\ readable st'.
Notation cur := (x_cursor ctx).

(** A column with REAL affinity holds integers that were stored small. *)
Definition stored_value (i : Z) : Value :=
  let x := default Null (zget vals i) in
  match c_affinity <$> zget (t_columns (x_table ctx)) i, x with
  | Some AffReal, Int n => Real (i64_as_f64 n)
  | _, _ => x
  end.
Definition cursor_col (_ : option bytes) (name : bytes) : Value :=
  match resolve_column (x_table ctx) name with
  | Some CR_Rowid => Int rid
  | Some (CR_Index i) => stored_value i
  | None => Null
  end.
Definition cursor_row (s : vst) : Prop :=
  cursor_at (fst s) cur = Some (C_Table c) /\ v_encoding (fst s) = enc /\ readable (snd s) /\
  (forall vs, v_decoded (fst s) = Some (cur, rid, vs) -> vs = vals).
Notation none := (fun _ : Z => False).

#[export] Instance cursor_quiet : RowQuiet cursor_row none.
Proof. intros v v' st Hr (pc & regs & ags & _ & ->) _. exact Hr. Qed.
Lemma put_same v : cursor_at v cur = Some (C_Table c) -> put_cursor cur (Some (C_Table c)) v = v.
Proof.
  unfold cursor_at, put_cursor, zget. intros Hc. destruct (cur <? 0); [done|].
  rewrite list_insert_id; [by destruct v|]. by destruct (v_cursors v !! Z.to_nat cur) as [o|]; cbn in Hc; [subst|].
Qed.
Lemma on_table_read {A} (m : CursorM (E := E) (F := F) A) v st a st' : cursor_at v cur = Some (C_Table c) ->
  m (c, st) = (Ok a, (c, st')) -> on_table cur m (v, st) = (Ok a, (v, st')).
Proof. intros Hc Hm. unfold on_table. by rewrite Hc, Hm, put_same. Qed.
Lemma rowid_read st : (c ← getc id; lift (rowid c) : CursorM (E := E) (F := F) Z) (c, st) = (Ok rid, (c, st)).
Proof. rewrite (M_bind_ok (getc id) _ (c, st) c (c, st) eq_refl). unfold lift. by rewrite Hrid. Qed.
Lemma column_run col v st : cursor_row (v, st) -> exists d st',
  column cur col (v, st) = (Ok (default Null (zget vals col)), (v_set_decoded d v, st')) /\
  readable st' /\ (forall vs, d = Some (cur, rid, vs) -> vs = vals).
Proof.
  intros (Hc & He & Hrd & Hd). cbn [fst snd] in *. unfold column.
  rewrite (M_bind_ok (getv id) _ (v, st) v (v, st) eq_refl), Hc. unfold table_column.
  rewrite (M_bind_ok _ _ _ _ _ (on_table_read (getc is_null_row) v st _ st Hc eq_refl)), Hnull.
  rewrite (M_bind_ok _ _ _ _ _ (on_table_read _ v st rid st Hc (rowid_read st))).
  rewrite (M_bind_ok (getv id) _ (v, st) v (v, st) eq_refl).
  destruct (Hread st Hrd) as (st' & Hp & Hrd').
  assert (forall k, (pl ← on_table cur payload; vals ← lift (decode_record pl (v_encoding v));
    updv (v_set_decoded (Some (cur, rid, vals))) ;; mret (default Null (zget vals k))) (v, st)
    = (Ok (default Null (zget vals k)), (v_set_decoded (Some (cur, rid, vals)) v, st'))) as Hmiss.
  { intros k. rewrite (M_bind_ok _ _ _ _ _ (on_table_read payload v st pl st' Hc Hp)).
    rewrite (M_bind_ok (lift _) _ _ vals (v, st')); [done|]. by rewrite He, Hdecode. }
  destruct (v_decoded v) as [[[ci r] vs]|] eqn:Hdec.
  - destruct (Z.eqb_spec ci cur) as [->|Hne]; cbn [andb].
    + destruct (Z.eqb_spec r rid) as [->|Hne].
      * exists (v_decoded v), st. rewrite (Hd vs eq_refl). split_and!; [by destruct v|done|]. rewrite Hdec. intros vs'. exact (Hd vs').
      * exists (Some (cur, rid, vals)), st'. split_and!; [apply Hmiss|done|]. by intros vs' [= <-].
    + exists (Some (cur, rid, vals)), st'. split_and!; [apply Hmiss|done|]. by intros vs' [= <-].
  - exists (Some (cur, rid, vals)), st'. split_and!; [apply Hmiss|done|]. by intros vs' [= <-].
Qed.

(** [Column] into a register. *)
Lemma column_code i target b : pre none b -> free_reg none b target ->
  code_ok drain bfuel fb P cursor_row b (push (Instruction_new Opcode.Column cur i target) b) target
    (Ok (default Null (zget vals i))).
Proof.
  intros Hpre Ht. split; [apply grows_push, Hpre|]. intros Hex v st Hat _.
  destruct Hat as (HP & Hpc & Hn & Hr). cbn in Hn. destruct Ht as [Ht _].
  pose proof (fetch fb P Hfinish _ _ _ (proj1 Hpre) Hex HP Hpc) as Hi.
  destruct (column_run i v st Hr) as (d & st' & Hcol & Hrd & Hd). set (x := default Null (zget vals i)) in *.
  exists (wrote target x (v_pc v + 1) (v_set_decoded d v), st'). split; [|split].
  - apply rtc_once. unfold vstep. rewrite (exec_one_at _ _ _ _ _ Hi).
    change (cont (exec_Column (Instruction_new Opcode.Column cur i target)) (v, st)
            = (Ok None : outcome (option StepResult), (wrote target x (v_pc v + 1) (v_set_decoded d v), st'))).
    unfold cont. rewrite (M_bind_ok _ _ (v, st) tt (wrote target x (v_pc v + 1) (v_set_decoded d v), st')); [done|].
    unfold exec_Column. cbn [p1 p2 p3 Instruction_new]. rewrite (M_bind_ok _ _ _ _ _ Hcol).
    apply (set_reg_run target x (v_set_decoded d v) st'). cbn. lia.
  - unfold settled. cbn [fst]. split_and!.
    + exists (v_pc v + 1), (<[Z.to_nat target := x]> (v_regs v)), (v_cursors v), d, (v_aggregates v).
      split; [by rewrite length_insert|by destruct v].
    + rewrite zlen_push. cbn. lia.
    + intros r Hr0 Hne. destruct (wrote_other target x (v_pc v + 1) (v_set_decoded d v) r ltac:(lia) ltac:(congruence)).
      by split.
    + destruct Hr as (Hc & He & _ & _). by split_and!.
  - apply (wrote_at target x (v_pc v + 1) (v_set_decoded d v)). cbn. lia.
Qed.
(** [RealAffinity] on a register. *)
Lemma real_affinity_code b target x : pre none b -> free_reg none b target ->
  code drain bfuel fb P cursor_row (holds_reg target x) b (push (Instruction_new Opcode.RealAffinity target 0 0) b)
    (eq target) (Ok (match x with Int n => Real (i64_as_f64 n) | _ => x end)) (holds_reg target).
Proof.
  intros Hpre Ht. apply (push_code drain bfuel fb P Hfinish _ none); [done..|]. intros v st Hat Hx.
  pose proof (target_lt _ _ _ _ _ _ _ Ht Hat) as Hlt. unfold holds_reg in Hx. cbn [fst] in Hx.
  change (exec_inst drain bfuel (v_pc v) (Instruction_new Opcode.RealAffinity target 0 0) (v, st))
    with (cont (exec_RealAffinity (Instruction_new Opcode.RealAffinity target 0 0)) (v, st) : outcome (option StepResult) * vst).
  apply (cont_result _ (Ok _) (fun y => wrote target y (v_pc v + 1) v) v st). unfold exec_RealAffinity.
  cbn [p1 Instruction_new]. rewrite (reg_run _ _ _ _ _ Hx).
  assert (wrote target x (v_pc v + 1) v = v_set_pc (v_pc v + 1) v) as Hsame.
  { unfold wrote, zget in *. destruct (target <? 0); [done|]. rewrite list_insert_id by done. by destruct v. }
  destruct x as [|n|r|t|bl]; [|by apply set_reg_run|..]; cbn [result]; by rewrite Hsame.
Qed.
#[export] Instance cursor_access :
  RowAccess drain bfuel fb P ctx cursor_row none none cursor_col (fun _ => Null).
Proof.
  split; [done|]. intros q name target b b' Hc Hpre Ht. rewrite (single_column _ _ _ _ Hctx) in Hc. unfold cursor_col.
  destruct (resolve_column (x_table ctx) name) as [cr|] eqn:Hres; [|done]. unfold compile_column_single in Hc.
  destruct (t_columns (x_table ctx)) as [|c0 cs] eqn:Hcols; [by destruct Hctx|]. cbn [is_nil] in Hc. clear Hcols c0 cs.
  rewrite Hres, Hbase, (st_index _ Hctx) in Hc. pose proof (st_small _ Hctx) as Hsmall. destruct cr as [|i].
  - injection Hc as <-. apply (push_code drain bfuel fb P Hfinish _ none); [done..|]. intros v st Hat _.
    pose proof (target_lt _ _ _ _ _ _ _ Ht Hat) as Hlt. destruct Hat as (_ & _ & _ & Hcur & _). cbn [fst] in Hcur.
    change (exec_inst drain bfuel (v_pc v) (Instruction_new Opcode.Rowid cur target 0) (v, st))
      with (cont (exec_Rowid (Instruction_new Opcode.Rowid cur target 0)) (v, st) : outcome (option StepResult) * vst).
    apply (cont_result _ (Ok _) (fun y => wrote target y (v_pc v + 1) v) v st). unfold exec_Rowid.
    rewrite (M_bind_ok (getv id) _ (v, st) v (v, st) eq_refl). cbn [p1 p2 Instruction_new id]. rewrite Hcur.
    rewrite (M_bind_ok _ _ _ _ _ (on_table_read _ v st rid st Hcur (rowid_read st))). by apply set_reg_run.
  - pose proof (resolve_column_range _ _ _ Hres) as Hi. unfold column_position in Hc. rewrite Hrowid in Hc.
    rewrite (M_bind_ok (mret (i32 i)) _ b (i32 i) b eq_refl), i32_id in Hc by lia.
    rewrite (M_bind_ok _ _ _ _ _ (emit_eq_ Opcode.Column cur i target b)) in Hc. unfold real_affinity in Hc.
    destruct (zget_some (t_columns (x_table ctx)) i Hi) as [co Hco].
    rewrite (M_bind_ok (lift _) _ _ co (push (Instruction_new Opcode.Column cur i target) b)) in Hc
      by (unfold lift, column_at, idx; by rewrite Hco).
    pose proof (column_code i target b Hpre Ht) as C1. unfold stored_value. rewrite Hco. cbn [fmap option_fmap option_map].
    case_bool_decide as Haff.
    + rewrite emit_eq_ in Hc. injection Hc as <-. rewrite Haff.
      set (x := default Null (zget vals i)) in *.
      replace (Ok _) with (x ← Ok x; Ok (match x with Int n => Real (i64_as_f64 n) | _ => x end)) by (by destruct x).
      eapply (code_bind drain bfuel fb P _ _ b _ _ (eq target) (eq target) _ _ _ (holds_reg target));
        [exact C1|apply grows_push, (grows_pre _ _ _ (proj1 C1) Hpre)| |tauto].
      intros y. apply real_affinity_code; [apply (grows_pre _ _ _ (proj1 C1) Hpre)|apply (free_grows _ _ _ _ (proj1 C1) Ht)].
    + injection Hc as <-. replace (match c_affinity co with AffReal => _ | _ => _ end) with (default Null (zget vals i));
        [exact C1|]. by destruct (c_affinity co).
Qed.
End Cursor.
End Rows.

(** ** A row and two programs *)

Module Sample.
(** [t(id INTEGER PRIMARY KEY, name TEXT COLLATE NOCASE, score REAL)] *)
Definition column (name : string) (a : Affinity) (c : Collation) : Column :=
  mkColumn (bytes_of name) None a c false false None OeAction.None.
Definition table : Table :=
  mkTable (bytes_of "t") 2 [column "id" AffInteger Binary; column "name" AffText NoCase; column "score" AffReal Binary]
    (Some 0) false [] false [].
Definition context : Ctx := ExprGen.mkCtx table 0 None None None None None.
(** with the row [(7, 'bob', 3.0)], whose score is stored as an integer. *)
Definition fields : list Value := [Null; Text (bytes_of "bob"); Int 3].
Definition record : bytes := encode_record fields.
Definition page : bytes :=
  match write_page_cells (zrep 512 0) 0 LeafTable None (enumerate_u16 [zlen record :: 7 :: record]) with
  | Ok b => b | _ => [] end.
Definition cursor : TableCursor :=
  mkCursor 2 512 [] (Some page) (match header_of page 2 with Ok h => Some h | _ => None end) 2 0 false false false false.
Definition pager : Pager nat := mkPager "db" 1%nat 512 512 (fresh_header 512) 2 ∅ ∅ None [] None.
Notation State := (Pager nat * (Proc * MemVfs))%type.
Definition state : State := (pager, (mkProc 7 0 0, MemVfs_new)).

#[global] Instance functions : SqlFunctions := {
  Vdbe.call_scalar := fun _ _ => Err (Error_msg "no functions here");
  Vdbe.call_date := fun _ _ _ => Err (Error_msg "no dates here") }.
#[global] Instance no_subqueries : SubqueryCodegen := {
  compile_in_subquery := fun _ _ _ _ _ _ _ _ => fail_msg "no subqueries here";
  compile_exists_subquery := fun _ _ _ _ => fail_msg "no subqueries here";
  compile_scalar_subquery := fun _ _ _ _ => fail_msg "no subqueries here" }.

Definition col (name : string) : Expr := E_Column None None (bytes_of name).
(** [score * 2 + id] into register 1. *)
Definition expression : Expr :=
  E_Binary BinaryOp.Add (E_Binary BinaryOp.Mul (col "score") (E_Literal (Literal.Integer 2))) (col "id").
Definition start : ProgramBuilder := set_next_reg 2 ProgramBuilder_new.
Definition expr_code : ProgramBuilder := snd (compile_expr context expression 1 start).
(** [name = 'BOB' AND NOT score BETWEEN 4 AND 9], jumping to the end otherwise. *)
Definition condition_ : Expr :=
  E_Binary BinaryOp.And (E_Binary BinaryOp.Eq (col "name") (E_Literal (Literal.Text (bytes_of "BOB"))))
    (E_Unary UnaryOp.Not (E_Between (col "score") (E_Literal (Literal.Integer 4)) (E_Literal (Literal.Integer 9)) false)).
Definition labelled : ProgramBuilder := push_label start.
Definition jump_code_ : ProgramBuilder := snd (compile_jump context condition_ 0 false true labelled).
Definition jump_program : ProgramBuilder := bind_label 0 (push (Instruction_new Opcode.ResultRow 1 1 0) jump_code_).

Definition program_of (b : ProgramBuilder) : Program :=
  match finish b with Ok p => p | _ => mkProgram [] 0 0 0 end.
Definition machine (b : ProgramBuilder) : Vdbe :=
  v_set_cursors [Some (C_Table cursor)] (Vdbe_new (program_of b) true Utf8 (RuntimeCtx_new 7 0 None)).

Lemma single : single_table context.
Proof. by constructor. Qed.
Lemma row_at b : cursor_row context cursor 7 fields Utf8 (eq state) (machine b, state).
Proof. by split_and!. Qed.
Lemma cursor_reads st : state = st -> exists st', payload (cursor, st) = (Ok record, (cursor, st')) /\ state = st'.
Proof. intros <-. exists state. split; [by vm_compute|done]. Qed.
End Sample.


Section Witness.
Import Sample.
Notation row := (cursor_row context cursor 7 fields Utf8 (eq state)).
Notation columns := (cursor_col context 7 fields).
Notation none := (fun _ : Z => False).
#[local] Existing Instance cursor_quiet.
#[local] Instance sample_access fb P : finish fb = Ok P ->
  RowAccess map_to_list 0 fb P context row none none columns (fun _ => Null).
Proof.
  intros Hf. apply (cursor_access map_to_list 0 fb P Hf context single cursor 7 record fields Utf8 (eq state));
    [done..|by vm_compute|by vm_compute|exact cursor_reads].
Qed.

Lemma start_pre : pre none start.
Proof. by split_and!; [constructor|vm_compute|]. Qed.
Lemma expr_finish : finish expr_code = Ok (program_of expr_code).
Proof. by vm_compute. Qed.
Lemma jump_finish : finish jump_program = Ok (program_of jump_program).
Proof. by vm_compute. Qed.

(** *** BETWEEN under a collation

    [name] collates without case, so [name >= 'BOB' AND name <= 'BOB'] is true
    of the row; the two comparisons of [name BETWEEN 'BOB' AND 'BOB'] carry no
    collation and the condition jumps away. The program sets register 1 when
    the condition lets it pass. *)
Definition bob : Expr := E_Literal (Literal.Text (bytes_of "BOB")).
Definition name_between : Expr := E_Between (col "name") bob bob false.
Definition name_within : Expr :=
  E_Binary BinaryOp.And (E_Binary BinaryOp.Ge (col "name") bob) (E_Binary BinaryOp.Le (col "name") bob).
Definition passing (e : Expr) : ProgramBuilder :=
  bind_label 0 (push (Instruction_new Opcode.Integer 1 1 0) (snd (compile_jump context e 0 false true labelled))).
Definition passed (e : Expr) : option Value :=
  zget (v_regs (fst (Nat.iter 12 (fun s => snd (exec_one map_to_list 0 s)) (machine (passing e), state)))) 1.
Lemma between_ignores_collation :
  eval context columns (fun _ => Null) name_between = Ok (Int 1) /\
  eval context columns (fun _ => Null) name_within = Ok (Int 1) /\
  passed name_within = Some (Int 1) /\ passed name_between = Some Null.
Proof. by vm_compute. Qed.

(** *** BETWEEN as a value

    Neither bound is tested for NULL, and the branch for a NULL operand writes
    register 0 and not the target. *)
Definition lit (l : Literal) : Expr := E_Literal l.
Definition between_code (x lo hi : Literal) : ProgramBuilder :=
  snd (compile_expr context (E_Between (lit x) (lit lo) (lit hi) false) 1 start).
Definition steps (n : nat) (s : Vdbe * State) : Vdbe * State :=
  Nat.iter n (fun s => snd (exec_one map_to_list 0 s)) s.
Definition between_result (n : nat) (before : Value) (x lo hi : Literal) : option Value :=
  let v := machine (between_code x lo hi) in
  zget (v_regs (fst (steps n (v_set_regs (<[1%nat := before]> (v_regs v)) v, state)))) 1.
Lemma between_null_bound :
  eval context columns (fun _ => Null)
    (E_Between (lit (Literal.Integer 5)) (lit Literal.Null) (lit (Literal.Integer 9)) false) = Ok Null /\
  between_result 8 Null (Literal.Integer 5) Literal.Null (Literal.Integer 9) = Some (Int 1).
Proof. by vm_compute. Qed.
Lemma between_null_operand :
  eval context columns (fun _ => Null)
    (E_Between (lit Literal.Null) (lit (Literal.Integer 1)) (lit (Literal.Integer 9)) false) = Ok Null /\
  between_result 5 (Int 42) Literal.Null (Literal.Integer 1) (Literal.Integer 9) = Some (Int 42).
Proof. by vm_compute. Qed.
End Witness.
