(* ===== verification/ResultTypes.v ===== *)
(** * The storage classes of results

    A set of storage classes for every scalar function, from the sets of its
    arguments: what the declared arms of [func/registry.rs] can return. The
    lemma [function_result] says that a call returns a value of its set. *)

From S2P Require Import Prelude Utf8 Value Str Fp Like Json Aggregate Func Printf Registry.
#[local] Open Scope Z_scope.

(** ** Sets of storage classes *)

Record Ty := mkTy { may_null : bool; may_int : bool; may_real : bool; may_text : bool; may_blob : bool }.
Definition has (t : Ty) (v : Value) : bool :=
  match v with
  | Null => may_null t | Int _ => may_int t | Real _ => may_real t | Text _ => may_text t | Blob _ => may_blob t
  end.
Definition T_none : Ty := mkTy false false false false false.
Definition T_any : Ty := mkTy true true true true true.
Definition T_null : Ty := mkTy true false false false false.
Definition T_int : Ty := mkTy false true false false false.
Definition T_real : Ty := mkTy false false true false false.
Definition T_text : Ty := mkTy false false false true false.
Definition T_blob : Ty := mkTy false false false false true.
Definition join (a b : Ty) : Ty :=
  mkTy (may_null a || may_null b) (may_int a || may_int b) (may_real a || may_real b)
    (may_text a || may_text b) (may_blob a || may_blob b).
Definition joins : list Ty -> Ty := foldr join T_none.
Definition non_null (t : Ty) : Ty := mkTy false (may_int t) (may_real t) (may_text t) (may_blob t).
Definition or_null (b : bool) (t : Ty) : Ty := if b then join T_null t else t.
Definition class_of (v : Value) : Ty :=
  match v with Null => T_null | Int _ => T_int | Real _ => T_real | Text _ => T_text | Blob _ => T_blob end.

(** Values with their sets. *)
Notation fits tys args := (Forall2 (fun t v => has t v = true) tys args).

Lemma has_class v : has (class_of v) v = true.
Proof. by destruct v. Qed.
Lemma has_any v : has T_any v = true.
Proof. by destruct v. Qed.
Lemma has_join a b v : has (join a b) v = has a v || has b v.
Proof. by destruct v. Qed.
Lemma has_join_l a b v : has a v = true -> has (join a b) v = true.
Proof. intros H. by rewrite has_join, H. Qed.
Lemma has_join_r a b v : has b v = true -> has (join a b) v = true.
Proof. intros H. by rewrite has_join, H, orb_true_r. Qed.
Lemma has_non_null t v : has t v = true -> is_null v = false -> has (non_null t) v = true.
Proof. by destruct v. Qed.
Lemma has_or_null b t v : has t v = true -> has (or_null b t) v = true.
Proof. destruct b; [apply has_join_r|done]. Qed.
Lemma has_null t v : has t v = true -> is_null v = true -> may_null t = true.
Proof. by destruct v. Qed.
Lemma has_joins t tys v : In t tys -> has t v = true -> has (joins tys) v = true.
Proof. induction tys as [|u tys IH]; [done|]. intros [->|Ht] Hv; [by apply has_join_l|apply has_join_r; auto]. Qed.
#[export] Hint Resolve has_class has_any has_join_l has_join_r has_non_null has_or_null : types.

(** ** The sets of the functions *)

(** NULL for a NULL argument, [t] otherwise. *)
Definition strict (t : Ty) (tys : list Ty) : Ty := or_null (existsb may_null tys) t.
Definition always (t : Ty) (_ : list Ty) : Ty := t.
Definition arg (i : nat) (tys : list Ty) : Ty := default T_any (tys !! i).
Definition numeric_text (t : Ty) : bool := may_int t || may_real t || may_text t.
Definition abs_type (tys : list Ty) : Ty :=
  let t := arg 0 tys in mkTy (may_null t) (may_int t) (may_real t || may_text t || may_blob t) false false.
Definition substr_type (tys : list Ty) : Ty :=
  let t := arg 0 tys in mkTy (existsb may_null tys) false false (numeric_text t) (may_blob t).
Definition replace_type (tys : list Ty) : Ty := strict (join T_text (non_null (arg 0 tys))) tys.
Fixpoint coalesce_type (tys : list Ty) : Ty :=
  match tys with [] => T_null | t :: tys => if may_null t then join (non_null t) (coalesce_type tys) else t end.
Definition extreme_type (tys : list Ty) : Ty := or_null (existsb may_null tys) (joins (non_null <$> tys)).

Definition math_type : Ty := or_null true T_real.
Definition round_type : Ty := or_null true (join T_int T_real).
(** In the order of [arms]. *)
Definition arm_types : list (list Ty -> Ty) := [
  (* abs length lower upper typeof *)
  abs_type; strict T_int; strict T_text; strict T_text; always T_text;
  (* substr round coalesce ifnull nullif iif iif *)
  substr_type; strict T_real; coalesce_type; coalesce_type; (fun tys => or_null true (arg 0 tys));
  (fun tys => or_null true (arg 1 tys)); (fun tys => join (arg 1 tys) (arg 2 tys));
  (* min max zeroblob likely likelihood *)
  extreme_type; extreme_type; always T_blob; arg 0; arg 0;
  (* instr replace trim ltrim rtrim char unicode *)
  strict T_int; replace_type; strict T_text; strict T_text; strict T_text; always T_text; always (or_null true T_int);
  (* hex unhex concat concat_ws quote octet_length like glob *)
  always T_text; always (or_null true T_blob); always T_text; (fun tys => or_null (may_null (arg 0 tys)) T_text); always T_text;
  strict T_int; strict T_int; strict T_int;
  (* sqrt exp ln log10 log log2 ceil floor trunc pow mod sign pi *)
  always math_type; always math_type; always math_type; always math_type; always math_type; always math_type;
  always round_type; always round_type; always round_type; always math_type; always math_type; always (or_null true T_int);
  always T_real;
  (* sin cos tan asin acos atan atan2 sinh cosh tanh asinh acosh atanh radians degrees *)
  always math_type; always math_type; always math_type; always math_type; always math_type; always math_type;
  always math_type; always math_type; always math_type; always math_type; always math_type; always math_type;
  always math_type; always math_type; always math_type;
  (* json jsonb json_array json_object json_extract json_type json_valid json_quote *)
  strict T_text; strict T_blob; always T_text; always T_text; always T_any; always (or_null true T_text);
  strict T_int; always T_text;
  (* json_array_length json_pretty json_error_position json_insert json_replace json_set json_remove json_patch *)
  always (or_null true T_int); strict T_text; strict T_int; strict T_text; strict T_text; strict T_text;
  always (or_null true T_text); strict T_text;
  (* _json_arrow _json_arrow_text printf soundex load_extension *)
  always (or_null true T_text); always T_any; (fun tys => or_null (existsb may_null (take 1 tys) || bool_decide (tys = [])) T_text);
  always T_text; always T_none;
  (* compileoption_get compileoption_used source_id unistr sqlite_log *)
  always T_null; always T_int; always T_text; strict T_text; always T_null].

(** The set of the first arm that takes the name and the number of arguments. *)
Fixpoint type_at (lname : bytes) (n : Z) (keys : list (list string * (Z -> bool))) (types : list (list Ty -> Ty)) : option (list Ty -> Ty) :=
  match keys, types with
  | k :: keys, f :: types => if named_in (fst k) lname && snd k n then Some f else type_at lname n keys types
  | _, _ => None
  end.
Definition function_type (name : bytes) (tys : list Ty) : Ty :=
  match type_at (to_ascii_lowercase name) (zlen tys) arm_keys arm_types with Some f => f tys | None => T_any end.

(** ** The functions return values of their sets *)

Lemma to_text_null v : to_text v = Ok None -> is_null v = true.
Proof. destruct v as [| |r| |]; try done. intros (t & _ & Hx)%bind_ok. done. Qed.
Lemma fits_arg tys args i v : fits tys args -> args !! i = Some v -> has (arg i tys) v = true.
Proof. intros Hf Hi. destruct (Forall2_lookup_r _ _ _ _ _ Hf Hi) as (t & Ht & Hv). unfold arg. by rewrite Ht. Qed.
Lemma fits_null tys args : fits tys args -> existsb is_null args = true -> existsb may_null tys = true.
Proof.
  induction 1 as [|t v tys args Hv _ IH]; [done|]. cbn [existsb]. rewrite !orb_true_iff.
  intros [Hn|Hn]; [left; by apply (has_null t v)|right; auto].
Qed.

Section Functions.
Context `{Libm}.

Definition typed (a : Arm) (f : list Ty -> Ty) : Prop :=
  forall tys args v, fits tys args -> arm_call a args = Ok v -> has (f tys) v = true.

Lemma typed_always a t : (forall args v, arm_call a args = Ok v -> has t v = true) -> typed a (always t).
Proof. intros Ha tys args v _ Hc. by apply (Ha args). Qed.
Lemma typed_strict a t : (forall args v, arm_call a args = Ok v -> has t v = true \/ existsb is_null args = true /\ is_null v = true) ->
  typed a (strict t).
Proof.
  intros Ha tys args v Hf Hc. unfold strict. destruct (Ha args v Hc) as [Hv|[Hn Hv]]; [by apply has_or_null|].
  rewrite (fits_null _ _ Hf Hn). by destruct v.
Qed.

(** *** Opening a call that succeeded *)

Lemma call1_inv f args v : call1 f args = Ok v -> exists x, args = [x] /\ f x = Ok v.
Proof. destruct args as [|x [|]]; try done. by exists x. Qed.
Lemma call2_inv f args v : call2 f args = Ok v -> exists x y, args = [x; y] /\ f x y = Ok v.
Proof. destruct args as [|x [|y [|]]]; try done. by exists x, y. Qed.
Lemma call3_inv f args v : call3 f args = Ok v -> exists x y z, args = [x; y; z] /\ f x y z = Ok v.
Proof. destruct args as [|x [|y [|z [|]]]]; try done. by exists x, y, z. Qed.
Lemma call1o_inv f args v : call1o f args = Ok v ->
  exists x y, args = x :: option_list y /\ f x y = Ok v.
Proof. destruct args as [|x [|y [|]]]; try done; [by exists x, None|by exists x, (Some y)]. Qed.
Lemma call2o_inv f args v : call2o f args = Ok v ->
  exists x y z, args = x :: y :: option_list z /\ f x y z = Ok v.
Proof. destruct args as [|x [|y [|z [|]]]]; try done; [by exists x, y, None|by exists x, y, (Some z)]. Qed.
Ltac call_of Hc :=
  first [apply call1_inv in Hc as (? & -> & Hc) | apply call2_inv in Hc as (? & ? & -> & Hc)
        | apply call3_inv in Hc as (? & ? & ? & -> & Hc) | apply call1o_inv in Hc as (? & ? & -> & Hc)
        | apply call2o_inv in Hc as (? & ? & ? & -> & Hc) | idtac].
Ltac outcome_of Hc :=
  repeat match type of Hc with
  | mbind _ _ = Ok _ => apply bind_ok in Hc as (? & ? & Hc)
  | Ok _ = Ok _ => injection Hc as <-
  | Err _ = Ok _ => discriminate Hc
  | Panic = Ok _ => discriminate Hc
  | context [match ?x with _ => _ end] => destruct x eqn:?
  end.


(** *** The arms whose sets depend on the sets of their arguments *)

Lemma arg_0 t tys : arg 0 (t :: tys) = t.
Proof. done. Qed.
Lemma arg_1 t u tys : arg 1 (t :: u :: tys) = u.
Proof. done. Qed.
Lemma arg_2 t u w tys : arg 2 (t :: u :: w :: tys) = w.
Proof. done. Qed.
Ltac sets_of Hf := repeat (apply Forall2_cons_inv_r in Hf as (? & ? & ? & Hf & ->)); apply Forall2_nil_inv_r in Hf as ->.
Lemma abs_typed n ar : typed (mkArm n ar (call1 Scalar.abs)) abs_type.
Proof.
  intros tys args v Hf Hc. call_of Hc. sets_of Hf. unfold abs_type. rewrite arg_0.
  destruct x; cbn in Hc; outcome_of Hc; cbn in *; simplify_eq; cbn; rewrite ?orb_true_iff; auto.
Qed.
Lemma coalesce_typed tys args : fits tys args -> has (coalesce_type tys) (Scalar.coalesce args) = true.
Proof.
  induction 1 as [|t v tys args Hv _ IH]; [done|]. cbn [Scalar.coalesce coalesce_type].
  destruct (is_null v) eqn:Hn; [rewrite (has_null t v Hv Hn); auto with types|]. destruct (may_null t); auto with types.
Qed.
Lemma coalesce_arm n ar : typed (mkArm n ar (fun args => Ok (Scalar.coalesce args))) coalesce_type.
Proof. intros tys args v Hf [= <-]. by apply coalesce_typed. Qed.
Lemma ifnull_typed n ar : typed (mkArm n ar (ok2 Scalar.ifnull)) coalesce_type.
Proof.
  intros tys args v Hf Hc. call_of Hc. injection Hc as <-. replace (Scalar.ifnull x x0) with (Scalar.coalesce [x; x0]).
  - by apply coalesce_typed.
  - unfold Scalar.ifnull. cbn. destruct (is_null x); [|done]. by destruct x0.
Qed.
Lemma likely_typed n ar : typed (mkArm n ar (ok1 Scalar.likely)) (arg 0).
Proof. intros tys args v Hf Hc. call_of Hc. injection Hc as <-. by sets_of Hf. Qed.
Lemma likelihood_typed n ar : typed (mkArm n ar (ok2 Scalar.likelihood)) (arg 0).
Proof. intros tys args v Hf Hc. call_of Hc. injection Hc as <-. by sets_of Hf. Qed.
Lemma best_typed (want : bool) t args : Forall (fun v => has t v = true) args -> forall best, has t best = true ->
  has t (foldl (Scalar.better want) best args) = true.
Proof. induction 1 as [|v args Hv _ IH]; [done|]. intros best Hb. apply IH. unfold Scalar.better. by case_match. Qed.
Lemma non_nulls_typed tys args : fits tys args -> existsb is_null args = false ->
  Forall (fun v => has (joins (non_null <$> tys)) v = true) args.
Proof.
  induction 1 as [|t v tys args Hv _ IH]; [done|]. cbn [existsb]. rewrite orb_false_iff. intros [Hn Hns].
  constructor; [by apply has_join_l, has_non_null|]. eapply Forall_impl; [by apply IH|]. intros. by apply has_join_r.
Qed.
Lemma extreme_typed n ar (want : bool) : typed (mkArm n ar (fun args => Scalar.min_max args want)) extreme_type.
Proof.
  intros tys args v Hf Hc. cbn in Hc. unfold Scalar.min_max in Hc. unfold extreme_type. destruct (existsb is_null args) eqn:Hn.
  { injection Hc as <-. by rewrite (fits_null _ _ Hf Hn). }
  apply has_or_null. pose proof (non_nulls_typed _ _ Hf Hn) as Ha. destruct args as [|best args]; [done|].
  injection Hc as <-. apply Forall_cons in Ha as [Hb Ha]. by apply best_typed.
Qed.
Lemma nullif_typed n ar : typed (mkArm n ar (ok2 Scalar.nullif)) (fun tys => or_null true (arg 0 tys)).
Proof.
  intros tys args v Hf Hc. call_of Hc. injection Hc as <-. sets_of Hf. unfold Scalar.nullif.
  case_match; [done|by apply has_or_null].
Qed.
Lemma iif2_typed n ar : typed (mkArm n ar (ok2 (fun c a => Scalar.iif c a Null))) (fun tys => or_null true (arg 1 tys)).
Proof.
  intros tys args v Hf Hc. call_of Hc. injection Hc as <-. sets_of Hf. unfold Scalar.iif.
  case_match; [by apply has_or_null|done].
Qed.
Lemma iif3_typed n ar : typed (mkArm n ar (call3 (fun c a b => Ok (Scalar.iif c a b)))) (fun tys => join (arg 1 tys) (arg 2 tys)).
Proof.
  intros tys args v Hf Hc. call_of Hc. injection Hc as <-. sets_of Hf. unfold Scalar.iif. rewrite arg_1, arg_2.
  case_match; auto with types.
Qed.
Lemma json_text_null v : json_text v = Ok None -> is_null v = true.
Proof. destruct v; cbn; intros Hc; outcome_of Hc; done. Qed.
(** A NULL result has a NULL argument. *)
Ltac null_argument :=
  repeat match goal with
  | o : option Value |- _ => destruct o
  | Ht : to_text _ = Ok None |- _ => apply to_text_null in Ht
  | Ht : json_text _ = Ok None |- _ => apply json_text_null in Ht
  | Ht : mbind _ (to_text _) = Ok None |- _ => apply bind_ok in Ht as ([] & ? & ?); try discriminate
  end; cbn in *; simplify_eq; cbn; rewrite ?orb_true_iff, ?andb_true_iff in *; intuition eauto.
Lemma substr_typed n ar : typed (mkArm n ar (call2o Scalar.substr)) substr_type.
Proof.
  intros tys args v Hf Hc. call_of Hc. unfold substr_type.
  assert (is_null v = true -> existsb is_null (x :: x0 :: option_list x1) = true) as Hnull.
  { intros Hv. unfold Scalar.substr in Hc. outcome_of Hc; try discriminate; null_argument. }
  assert (has (arg 0 tys) x = true) as Hx by (by apply (fits_arg tys _ 0 x Hf)).
  destruct (is_null v) eqn:Hv; [rewrite (fits_null _ _ Hf (Hnull eq_refl)); by destruct v|].
  unfold Scalar.substr in Hc. destruct x; outcome_of Hc; try discriminate; cbn in *; unfold numeric_text;
    rewrite ?Hx, ?orb_true_r; done.
Qed.
Lemma replace_typed n ar : typed (mkArm n ar (call3 Strings.replace)) replace_type.
Proof.
  intros tys args v Hf Hc. call_of Hc. unfold Strings.replace in Hc. unfold replace_type, strict.
  assert (has (arg 0 tys) x = true) as Hx by (by apply (fits_arg tys _ 0 x Hf)).
  destruct (is_null x || is_null x0 || is_null x1) eqn:Hn.
  - injection Hc as <-. rewrite (fits_null _ _ Hf); [done|]. cbn. by rewrite orb_false_r, orb_assoc.
  - rewrite !orb_false_iff in Hn. destruct Hn as [[Hn _] _]. apply has_or_null. outcome_of Hc; auto with types.
Qed.
Lemma unhex_loop_typed pass input out : has (or_null true T_blob) (Strings.unhex_loop pass input out) = true.
Proof.
  revert out. induction input as [input IH] using (induction_ltof1 _ (@length Z)); unfold ltof in IH. intros out.
  destruct input as [|c input]; [done|]. cbn [Strings.unhex_loop]. destruct (Strings.hex_val c) as [hi|].
  - destruct input as [|d input]; [done|]. destruct (Strings.hex_val d); [|done]. apply IH. cbn. lia.
  - case_match; [|done]. apply IH. cbn. lia.
Qed.
Lemma concat_ws_typed n ar : typed (mkArm n ar Strings.concat_ws) (fun tys => or_null (may_null (arg 0 tys)) T_text).
Proof.
  intros tys args v Hf Hc. cbn in Hc. destruct args as [|sep args]; [done|]. cbn in Hc.
  pose proof (fits_arg tys _ 0 sep Hf eq_refl) as Hsep. outcome_of Hc; [by apply has_or_null|].
  rewrite (has_null _ _ Hsep) by (by apply to_text_null). done.
Qed.
Lemma printf_typed n ar :
  typed (mkArm n ar printf_fn) (fun tys => or_null (existsb may_null (take 1 tys) || bool_decide (tys = [])) T_text).
Proof.
  intros tys args v Hf Hc. cbn in Hc. destruct args as [|f args]; cbn in Hc.
  - injection Hc as <-. apply Forall2_nil_inv_r in Hf as ->. done.
  - apply Forall2_cons_inv_r in Hf as (t & tys' & Ht & Hf & ->). outcome_of Hc; [|by apply has_or_null].
    cbn. by rewrite (has_null _ _ Ht).
Qed.

#[local] Hint Unfold ok1 ok2 Scalar.length Scalar.lower Scalar.upper Scalar.fold Scalar.typeof_ Scalar.round Scalar.zeroblob
  Strings.instr Strings.trim Strings.char_ Strings.unicode Strings.hex Strings.unhex Strings.concat Strings.quote
  Strings.octet_length like glob bool_val Math.sqrt Math.exp Math.ln Math.log10 Math.log2 Math.log_base Math.ceil Math.floor
  Math.trunc Math.pow Math.mod_ Math.sign Math.pi Math.sin Math.cos Math.tan Math.asin Math.acos Math.atan Math.atan2 Math.sinh
  Math.cosh Math.tanh Math.asinh Math.acosh Math.atanh Math.radians Math.degrees Math.math1 Math.math2 Math.log_one
  Math.round_like Math.real_or_null json_fn jsonb_fn json_array_fn json_object_fn json_type_fn with_node
  json_valid_fn json_quote_fn json_array_length_fn json_pretty_fn json_error_position_fn json_edit_fn json_remove_fn
  json_patch_fn json_arrow_fn Soundex.soundex unistr from_option : sql.
#[local] Hint Resolve abs_typed coalesce_arm ifnull_typed extreme_typed nullif_typed iif2_typed iif3_typed substr_typed replace_typed
  concat_ws_typed printf_typed likely_typed likelihood_typed : types.
Lemma arms_typed : Forall2 typed arms arm_types.
Proof.
  unfold arms, arm_types. repeat (apply Forall2_cons; split); [..|constructor].
  all: match goal with |- typed _ (always _) => apply typed_always | |- typed _ (strict _) => apply typed_strict | _ => auto with types end.
  all: intros args v Hc; cbn [arm_call] in Hc; autounfold with sql in Hc; call_of Hc; outcome_of Hc.
  all: try solve [reflexivity | left; reflexivity | apply has_any | apply unhex_loop_typed].
  all: repeat case_match; try reflexivity.
  all: solve [left; reflexivity | right; null_argument].
Qed.

Lemma type_at_find (l : list Arm) types lname n a : Forall2 typed l types ->
  List.find (fun a => named_in (arm_names a) lname && arm_arity a n) l = Some a ->
  exists f, type_at lname n ((fun a => (arm_names a, arm_arity a)) <$> l) types = Some f /\ typed a f.
Proof.
  induction 1 as [|b f l types Hb _ IH]; [done|]. cbn [List.find type_at fmap list_fmap fst snd]. destruct (named_in (arm_names b) lname && arm_arity b n); [|exact IH].
  intros [= ->]. by exists f.
Qed.
Lemma function_result name tys args v : fits tys args -> call_scalar name args = Ok v -> has (function_type name tys) v = true.
Proof.
  intros Hf. unfold call_scalar, function_type.
  destruct (find_arm (to_ascii_lowercase name) (zlen args)) as [a|] eqn:Ha; [|done]. intros Hc.
  destruct (type_at_find arms arm_types _ _ _ arms_typed Ha) as (g & Hg & Ht).
  replace (zlen tys) with (zlen args) by (unfold zlen; by rewrite (Forall2_length _ _ _ Hf)).
  change arm_keys with ((fun a => (arm_names a, arm_arity a)) <$> arms). rewrite Hg. by apply (Ht tys args).
Qed.
End Functions.
