(* ===== verification/ExprType.v ===== *)
(** * The storage classes of expressions

    From the sets of classes of the columns a set for every expression: what
    arithmetic, comparison, three-valued logic and the functions can give, and
    in particular when an expression cannot be NULL. The theorem says that the
    compiled code leaves a value of the set in its register. Functions come
    through the interface [TypedFunctions]; the registry is an instance. *)

From S2P Require Import Prelude Utf8 Float64 Value Str Fp DbHeader Record Aggregate Program VdbeOps Vfs Wal Pager TableCursor Vdbe Ast Schema Builder Linking Func Registry Date ExprGen ExprEval Steps ExprCorrect Rows ResultTypes.
#[local] Open Scope Z_scope.

Class TypedFunctions `{SqlFunctions} := {
  fn_type : bytes -> list Ty -> Ty;
  fn_type_ok name tys args v : fits tys args -> Vdbe.call_scalar name args = Ok v -> has (fn_type name tys) v = true }.
#[export] Instance registry_functions `{Libm} : TypedFunctions (H := sql_functions) := {
  fn_type := function_type; fn_type_ok := function_result }.

(** ** The sets *)

Definition may_be_real (t : Ty) : bool := may_real t || may_text t || may_blob t.
Definition may_be_integer (t : Ty) : bool := may_int t || may_text t || may_blob t.
Definition is_division (op : Opcode) : bool := match op with Opcode.Divide => true | _ => false end.
Definition is_remainder (op : Opcode) : bool := match op with Opcode.Remainder => true | _ => false end.
(** Integers overflow into reals, but not in a remainder; a division by zero,
    and a real operation without a result, give NULL. *)
Definition arith_type (op : Opcode) (a b : Ty) : Ty :=
  let floats := may_be_real a || may_be_real b in
  mkTy (may_null a || may_null b || floats || is_division op || is_remainder op) (may_be_integer a && may_be_integer b)
    (floats || negb (is_remainder op)) false false.
Definition both (t : Ty) (a b : Ty) : Ty := or_null (may_null a || may_null b) t.
Definition arith_value_type (op : Opcode) (a b : Ty) : Ty :=
  match op with
  | Opcode.Concat => both T_text a b
  | Opcode.BitAnd | Opcode.BitOr | Opcode.ShiftLeft | Opcode.ShiftRight => both T_int a b
  | _ => arith_type op a b
  end.

Section Types.
Context `{TypedFunctions} (ctx : Ctx) (tcol : option bytes -> bytes -> Ty) (tagg : Z -> Ty).

Definition arrow_type (op : BinaryOp) (a b : Ty) : Ty :=
  fn_type (bytes_of (if bool_decide (op = BinaryOp.JsonExtract) then "_json_arrow" else "_json_arrow_text")) [a; b].
Definition binary_type (op : BinaryOp) (a b : Ty) : Ty :=
  match arith_opcode op, cmp_opcode op with
  | Some opcode, _ => arith_value_type opcode a b
  | None, Some _ => if is_op op then T_int else both T_int a b
  | None, None =>
      match op with
      | BinaryOp.And | BinaryOp.Or => both T_int a b
      | BinaryOp.Like | BinaryOp.Glob => fn_type (bytes_of (if bool_decide (op = BinaryOp.Like) then "like" else "glob")) [b; a]
      | BinaryOp.JsonExtract | BinaryOp.JsonExtractText => arrow_type op a b
      | _ => T_any
      end
  end.
Definition unary_type (op : UnaryOp) (a : Ty) : Ty :=
  match op with
  | UnaryOp.Negate => arith_type Opcode.Subtract T_int a
  | UnaryOp.Positive => a
  | UnaryOp.Not | UnaryOp.BitNot => or_null (may_null a) T_int
  end.
Fixpoint type_of (e : Expr) : Ty :=
  match e with
  | E_Literal l => class_of (literal_value l)
  | E_Column _ table name => tcol table name
  | E_Unary op e =>
      match op, const_negate e with
      | UnaryOp.Negate, Some l => class_of (literal_value l)
      | _, _ => unary_type op (type_of e)
      end
  | E_Binary op l r =>
      binary_type op (type_of l)
        match op, literal_path r with
        | (BinaryOp.JsonExtract | BinaryOp.JsonExtractText), Some _ => T_text
        | _, _ => type_of r
        end
  | E_Function name _ (FA_List es) _ _ => fn_type name (type_of <$> es)
  | E_Between e low high _ => or_null (may_null (type_of e) || may_null (type_of low) || may_null (type_of high)) T_int
  | E_Collate e _ => type_of e
  | E_AggRef reg => tagg reg
  | E_Coalesce2 l r => if may_null (type_of l) then join (non_null (type_of l)) (type_of r) else type_of l
  | _ => T_any
  end.
End Types.

(** ** The values are of their sets *)

Lemma has_both t a b v x y : has a x = true -> has b y = true ->
  (is_null v = false -> has t v = true) -> (is_null v = true -> is_null x || is_null y = true) -> has (both t a b) v = true.
Proof.
  intros Hx Hy Ht Hn. unfold both. destruct (is_null v) eqn:Hv; [|by apply has_or_null, Ht].
  assert (may_null a || may_null b = true) as ->; [|by destruct v].
  specialize (Hn eq_refl). rewrite orb_true_iff in *. destruct Hn; [left|right]; by eapply has_null.
Qed.
Lemma bool3_typed t o : (o = None -> may_null t = true) -> may_int t = true -> has t (bool3_to_value o) = true.
Proof. destruct o as [[]|]; cbn; auto. Qed.
Lemma truth_null v : truth v = None -> is_null v = true.
Proof. unfold truth. by case_match. Qed.
Lemma to_num_null v : to_num v = None -> is_null v = true.
Proof. by destruct v. Qed.
Lemma to_num_real t v r : has t v = true -> to_num v = Some (N_R r) -> may_be_real t = true.
Proof. unfold may_be_real. destruct v; cbn; try done; intros ->; by rewrite ?orb_true_r. Qed.
Lemma to_num_integer t v n : has t v = true -> to_num v = Some (N_I n) -> may_be_integer t = true.
Proof. unfold may_be_integer. destruct v; cbn; try done; intros ->; by rewrite ?orb_true_r. Qed.
Lemma arith_int_typed op n m v : arith_int op n m = Ok v ->
  has (mkTy (is_division op || is_remainder op) true (negb (is_remainder op)) false false) v = true.
Proof.
  unfold arith_int, checked_i64. destruct op; try discriminate; intros Hc; repeat case_match; simplify_eq; cbn in *; simplify_eq; try done.
Qed.
Lemma arith_typed op a b x y v : has a x = true -> has b y = true -> arith op x y = Ok v -> has (arith_type op a b) v = true.
Proof.
  intros Hx Hy Hc. unfold arith in Hc. unfold arith_type.
  destruct (to_num x) as [nx|] eqn:Ex; [|injection Hc as <-; cbn; by rewrite (has_null a x Hx (to_num_null x Ex))].
  destruct (to_num y) as [ny|] eqn:Ey; [|injection Hc as <-; cbn; by rewrite (has_null b y Hy (to_num_null y Ey)), orb_true_r].
  assert (forall r : option Z, may_be_real a || may_be_real b = true ->
    has (arith_type op a b) (match r with Some r => if f64_is_nan r then Null else Real r | None => Null end) = true) as Hreal.
  { intros r Hr. unfold arith_type. rewrite Hr, !orb_true_r. repeat case_match; done. }
  destruct nx as [n|r], ny as [m|q].
  - rewrite (to_num_integer a x n Hx Ex), (to_num_integer b y m Hy Ey). apply arith_int_typed in Hc.
    destruct v; cbn in *; rewrite ?Hc, ?orb_true_r; try done. apply orb_true_iff in Hc. rewrite <- !orb_assoc. destruct Hc as [->| ->]; by rewrite ?orb_true_r.
  - apply bind_ok in Hc as (o & _ & [= <-]). apply Hreal. by rewrite (to_num_real b y q Hy Ey), orb_true_r.
  - apply bind_ok in Hc as (o & _ & [= <-]). apply Hreal. by rewrite (to_num_real a x r Hx Ex).
  - apply bind_ok in Hc as (o & _ & [= <-]). apply Hreal. by rewrite (to_num_real a x r Hx Ex).
Qed.
Lemma arith_value_typed op a b x y v : has a x = true -> has b y = true -> arith_value op x y = Ok v ->
  has (arith_value_type op a b) v = true.
Proof.
  intros Hx Hy Hc. unfold arith_value_type.
  assert (bitwise op x y = Ok v -> has (both T_int a b) v = true) as Hbit.
  { intros Hb. unfold bitwise in Hb. destruct (is_null x || is_null y) eqn:Hn.
    - injection Hb as <-. by apply (has_both _ _ _ _ x y).
    - apply has_or_null. by destruct op; try discriminate Hb; injection Hb as <-. }
  destruct op; try (by apply (arith_typed _ a b x y)); try (by apply Hbit).
  cbn in Hc. unfold concat in Hc. apply bind_ok in Hc as (tx & Ex & Hc). apply bind_ok in Hc as (ty & Ey & [= <-]).
  apply (has_both _ _ _ _ x y); [done..|by destruct tx, ty|]. rewrite orb_true_iff.
  destruct tx; [destruct ty; [done|]|]; intros _; [right|left]; by apply to_text_null.
Qed.
Lemma compare_null op aff coll x y : sql_compare op aff coll x y = Ok None -> is_op op = false /\ is_null x || is_null y = true.
Proof.
  unfold sql_compare. destruct (is_op op); [done|]. destruct (is_null x || is_null y); [done|].
  intros (x' & _ & Hc)%bind_ok. by apply bind_ok in Hc as (y' & _ & Hc).
Qed.

Section Sound.
Context `{TypedFunctions} (ctx : Ctx) (col : option bytes -> bytes -> Value) (aggs : Z -> Value).
Context (tcol : option bytes -> bytes -> Ty) (tagg : Z -> Ty).
Context (Hcol : forall q name, has (tcol q name) (col q name) = true) (Hagg : forall r, has (tagg r) (aggs r) = true).
Notation ty := (type_of tcol tagg).
Notation ev := (eval ctx col aggs).

Lemma or3_null a b : or3 a b = None -> a = None \/ b = None.
Proof. destruct a as [[]|], b as [[]|]; cbn; auto. Qed.
Lemma and3_null a b : and3 a b = None -> a = None \/ b = None.
Proof. destruct a as [[]|], b as [[]|]; cbn; auto. Qed.
Lemma logic_typed a b x y o : has a x = true -> has b y = true -> (o = None -> truth x = None \/ truth y = None) ->
  has (both T_int a b) (bool3_to_value o) = true.
Proof.
  intros Hx Hy Ho. apply (has_both _ _ _ _ x y); [done..|by destruct o as [[]|]|]. destruct o as [[]|]; [done..|].
  intros _. rewrite orb_true_iff. destruct (Ho eq_refl); [left|right]; by apply truth_null.
Qed.
Lemma binary_value_typed op l r a b x y v : has a x = true -> has b y = true ->
  match op with BinaryOp.Like | BinaryOp.Glob => False | _ => True end ->
  binary_value ctx op l r x y = Ok v -> has (binary_type op a b) v = true.
Proof.
  intros Hx Hy Hop Hc. unfold binary_type.
  destruct (arith_opcode op) as [opc|] eqn:Ea.
  { apply (arith_value_typed opc a b x y); [done..|]. rewrite (arith_value_operator op opc x y Ea). by destruct op. }
  destruct (cmp_opcode op) as [c|] eqn:Ec.
  - assert (exists o aff coll, sql_compare op aff coll x y = Ok o /\ Ok (bool3_to_value o) = Ok v) as (o & aff & coll & Ho & [= <-]).
    { destruct op; try discriminate Ec; apply bind_ok in Hc as (o & Ho & Hv); by eauto. }
    destruct o as [t|]; [destruct (is_op op), t; try done; by apply has_or_null|].
    apply compare_null in Ho as [-> Hn]. by apply (has_both _ _ _ _ x y).
  - destruct op; try discriminate; try done; try apply has_any; try (by apply (fn_type_ok _ _ [x; y]); [repeat constructor|exact Hc]).
    + injection Hc as <-. by apply (logic_typed a b x y), or3_null.
    + injection Hc as <-. by apply (logic_typed a b x y), and3_null.
Qed.
Lemma unary_value_typed op a x v : has a x = true -> unary_value op x = Ok v -> has (unary_type op a) v = true.
Proof.
  intros Hx Hc. destruct op; cbn in Hc |- *.
  - apply (arith_typed Opcode.Subtract T_int a (Int 0) x); [done..|].
    change (arith_value Opcode.Subtract (Int 0) x = Ok v). by rewrite (arith_value_operator BinaryOp.Sub).
  - by injection Hc as <-.
  - injection Hc as <-. destruct (truth x) as [t|] eqn:Ht; [apply has_or_null; by destruct t|].
    by rewrite (has_null a x Hx (truth_null x Ht)).
  - injection Hc as <-. destruct x; try (by apply has_or_null). cbn in *. by rewrite Hx.
Qed.

Definition sound (e : Expr) : Prop := forall v, ev e = Ok v -> has (ty e) v = true.
Lemma binary_sound op l r : sound l -> sound r -> sound (E_Binary op l r).
Proof.
  intros Hl Hr v Hv. cbn [eval type_of] in *.
  assert (forall rt, (forall y, ev r = Ok y -> has rt y = true) -> (x ← ev l; y ← ev r; binary_value ctx op l r x y) = Ok v ->
    match op with BinaryOp.Like | BinaryOp.Glob => False | _ => True end -> has (binary_type op (ty l) rt) v = true) as Hgen.
  { intros rt Hrt Hc Hop. apply bind_ok in Hc as (x & Hx & Hc). apply bind_ok in Hc as (y & Hy & Hc).
    apply (binary_value_typed op l r _ _ x y); auto. }
  assert (forall n, (y ← ev r; x ← ev l; Vdbe.call_scalar n [y; x]) = Ok v -> has (fn_type n [ty r; ty l]) v = true) as Hlike.
  { intros n Hc. apply bind_ok in Hc as (y & Hy & Hc). apply bind_ok in Hc as (x & Hx & Hc).
    apply (fn_type_ok _ _ [y; x]); [|done]. constructor; [auto|by repeat constructor; auto]. }
  assert (forall op', op = op' -> match op' with BinaryOp.JsonExtract | BinaryOp.JsonExtractText => True | _ => False end ->
    (x ← ev l; p ← match literal_path r with Some p => Ok (Text p) | None => ev r end; json_arrow_value op x p) = Ok v ->
    has (arrow_type op (ty l) (match literal_path r with Some _ => T_text | None => ty r end)) v = true) as Harrow.
  { intros op' _ _ Hc. apply bind_ok in Hc as (x & Hx & Hc). apply bind_ok in Hc as (p & Hp & Hc).
    apply (fn_type_ok _ _ [x; p]); [|done]. constructor; [auto|]. constructor; [|done].
    destruct (literal_path r); [by injection Hp as <-|auto]. }
  destruct op; try (by apply Hgen); try (by apply Hlike); by eapply Harrow.
Qed.
Lemma evals_sound es : Forall sound es -> forall xs, evals ctx col aggs es = Ok xs -> fits (ty <$> es) xs.
Proof.
  induction 1 as [|e es He _ IH]; intros xs Hxs; cbn in Hxs; [by injection Hxs as <-|].
  apply bind_ok in Hxs as (x & Hx & Hxs). apply bind_ok in Hxs as (ys & Hys & [= <-]). constructor; auto.
Qed.
Lemma between_sound e low high negated : sound e -> sound low -> sound high -> sound (E_Between e low high negated).
Proof.
  intros He Hl Hh v Hv. cbn [eval type_of] in *. apply bind_ok in Hv as (x & Hx & Hv). apply bind_ok in Hv as (lo & Hlo & Hv).
  apply bind_ok in Hv as (hi & Hhi & Hv). apply bind_ok in Hv as (o & Ho & [= <-]).
  destruct o as [t|]; [apply has_or_null; by destruct t|]. unfold between_value in Ho. apply bind_ok in Ho as (p & Hp & Ho).
  apply bind_ok in Ho as (q & Hq & Ho).
  assert (is_null x || is_null lo || is_null hi = true) as Hn.
  { assert (and3 p q = None) as Hpq by (destruct negated, (and3 p q); cbn in Ho; congruence).
    apply and3_null in Hpq as [->| ->]; [apply compare_null in Hp as [_ Hp]|apply compare_null in Hq as [_ Hq]];
      rewrite !orb_true_iff in *; tauto. }
  assert (may_null (ty e) || may_null (ty low) || may_null (ty high) = true) as ->; [|done].
  rewrite !orb_true_iff in *. destruct Hn as [[Hn|Hn]|Hn]; [left; left|left; right|right];
    (eapply has_null; [|exact Hn]); auto.
Qed.
Lemma expr_sound e : sound e.
Proof.
  revert e. fix IH 1. intros [l|s q name|op e|op l r|name d args f o|n|e lo hi neg|e es n|e s n|s|s|es|e t|ba w el|e c|l r n|r|l r];
    try (intros v Hv; discriminate Hv).
  - intros v [= <-]. apply has_class.
  - intros v [= <-]. apply Hcol.
  - intros v Hv. cbn [type_of].
    assert ((x ← ev e; unary_value op x) = Ok v -> has (unary_type op (ty e)) v = true) as Hu.
    { intros Hc. apply bind_ok in Hc as (x & Hx & Hc). by apply (unary_value_typed op _ x), Hc; apply IH. }
    destruct (const_negate e) as [l|] eqn:Hn.
    + destruct op; [|apply Hu; rewrite <- (eval_unary ctx col aggs _ e) by done; exact Hv..].
      rewrite (eval_negated ctx col aggs e l Hn) in Hv. injection Hv as <-. apply has_class.
    + rewrite (eval_unary ctx col aggs op e) in Hv by done. by destruct op; apply Hu.
  - by apply binary_sound; apply IH.
  - destruct args as [|es]; [by intros v Hv|]. intros v Hv.
    change (evals ctx col aggs es ≫= Vdbe.call_scalar name = Ok v) in Hv. apply bind_ok in Hv as (xs & Hxs & Hv).
    cbn [type_of]. apply (fn_type_ok _ _ xs); [|done]. apply (evals_sound es); [|done]. clear - IH.
    induction es as [|e es IHes]; constructor; [apply IH|done].
  - by apply between_sound; apply IH.
  - exact (IH e).
  - intros v [= <-]. apply Hagg.
  - intros v Hv. cbn [eval type_of] in *. apply bind_ok in Hv as (x & Hx & Hv). apply IH in Hx.
    destruct (is_null x) eqn:Hn.
    + rewrite (has_null _ x Hx Hn). apply has_join_r. by apply IH.
    + injection Hv as <-. destruct (may_null (ty l)); auto with types.
Qed.
End Sound.

(** ** Compiled expressions are type safe *)

Section Code.
Context {E F : Type} `{VfsOps E F} `{TypedFunctions} `{SubqueryCodegen}.
Context (drain : gmap Z bytes -> list (Z * bytes)) (bfuel : nat).
Notation vst := (Vdbe * (Pager F * (Proc * E)))%type.
Context (fb : ProgramBuilder) (P : Program) (Hfinish : finish fb = Ok P) (Hsize : zlen (insts fb) < 2 ^ 31).
Context (ctx : Ctx) (rowinv : vst -> Prop) (prot is_agg : Z -> Prop).
Context (col : option bytes -> bytes -> Value) (aggs : Z -> Value).
Context {Hquiet : RowQuiet rowinv prot} {Hrow : RowAccess drain bfuel fb P ctx rowinv prot is_agg col aggs}.

(** C13: Type safety of compiled expressions. For an expression of [supported]
    (literals, columns, unary and binary operators, COLLATE, coalesce, and calls
    with fewer than 256 arguments of functions the machine does not serve itself;
    no BETWEEN, IN, CASE or subquery as a value): when the columns of the row and
    the aggregate results are of the storage classes declared for them, its code
    leaves in the target register a value of one of the classes [type_of]
    computes from these (or stops with the error of the evaluation). A
    comparison gives an integer or NULL, NULL only when an operand may be NULL;
    integer arithmetic gives an integer, a real on overflow, NULL on a division
    by zero; every scalar function of the registry, a value of its set. *)
Theorem compiled_value_typed tcol tagg e target b b' v st :
  (forall q name, has (tcol q name) (col q name) = true) -> (forall r, has (tagg r) (aggs r) = true) ->
  supported is_agg e -> compile_expr ctx e target b = (Ok tt, b') -> pre prot b -> free_reg prot b target ->
  extends b' fb -> at_code P rowinv b b' v st ->
  yields drain bfuel (v, st) (eval ctx col aggs e)
    (fun _ s' => exists x, zget (v_regs (fst s')) target = Some x /\ has (type_of tcol tagg e) x = true).
Proof.
  intros Hcol Hagg He Hc Hpre Ht Hex Hat.
  pose proof (supported_spec drain bfuel fb P Hfinish Hsize ctx rowinv prot is_agg col aggs e He target b b' Hc Hpre Ht) as [_ Hcode].
  specialize (Hcode Hex v st Hat I). pose proof (expr_sound ctx col aggs tcol tagg Hcol Hagg e) as Hs. unfold sound in Hs.
  destruct (eval ctx col aggs e) as [x|er|]; [|exact Hcode..].
  destruct Hcode as (s' & Hrun & _ & Hx). exists s'. split; [done|]. exists x. auto.
Qed.
End Code.

(** [coalesce(length(name), 0) + id] is never NULL, a number. *)
Section Witness.
Import Sample.
Notation none := (fun _ : Z => False).
#[local] Existing Instance cursor_quiet.
#[local] Instance registry : SqlFunctions := sql_functions (H := libm_id).
#[local] Instance registry_typed : TypedFunctions := registry_functions (H := libm_id).
#[local] Instance registry_access fb P : finish fb = Ok P ->
  RowAccess map_to_list 0 fb P context (cursor_row context cursor 7 fields Utf8 (eq state)) none none
    (cursor_col context 7 fields) (fun _ => Null).
Proof.
  intros Hf. apply (cursor_access map_to_list 0 fb P Hf context single cursor 7 record fields Utf8 (eq state));
    [done..|by vm_compute|by vm_compute|exact cursor_reads].
Qed.
Definition call (name : string) (args : list Expr) : Expr := E_Function (bytes_of name) false (FA_List args) None None.
Definition sample_expr : Expr :=
  E_Binary BinaryOp.Add (call "coalesce" [call "length" [Sample.col "name"]; E_Literal (Literal.Integer 0)]) (Sample.col "id").
Definition sample_code : ProgramBuilder := snd (compile_expr context sample_expr 1 start).
Definition column_type (_ : option bytes) (name : bytes) : Ty :=
  match resolve_column table name with
  | Some CR_Rowid => T_int
  | Some (CR_Index 1) => or_null true T_text
  | _ => or_null true T_real
  end.
Lemma sample_finish : finish sample_code = Ok (program_of sample_code).
Proof. by vm_compute. Qed.
Lemma column_typed q name : has (column_type q name) (cursor_col context 7 fields q name) = true.
Proof.
  unfold column_type, cursor_col. change (x_table context) with table. destruct (resolve_column table name) as [[|i]|] eqn:Hr; [done| |done].
  apply resolve_column_range in Hr. change (zlen (t_columns table)) with 3 in Hr.
  assert (i = 0 \/ i = 1 \/ i = 2) as [-> |[-> | ->]] by lia; by vm_compute.
Qed.
Lemma compiled_value_typed_witness :
  type_of column_type (fun _ => T_null) sample_expr = join T_int T_real /\
  yields map_to_list 0 (machine sample_code, state) (eval context (cursor_col context 7 fields) (fun _ => Null) sample_expr)
    (fun _ s' => exists x, zget (v_regs (fst s')) 1 = Some x /\ has (type_of column_type (fun _ => T_null) sample_expr) x = true).
Proof.
  split; [by vm_compute|].
  apply (compiled_value_typed map_to_list 0 sample_code (program_of sample_code) sample_finish ltac:(by vm_compute) context
    (cursor_row context cursor 7 fields Utf8 (eq state)) none none (cursor_col context 7 fields) (fun _ => Null)
    (Hrow := registry_access sample_code (program_of sample_code) sample_finish) column_type (fun _ => T_null) sample_expr 1 start
    sample_code (machine sample_code) state).
  - exact column_typed.
  - done.
  - repeat constructor.
  - by vm_compute.
  - exact start_pre.
  - split; [cbn; lia|tauto].
  - reflexivity.
  - split_and!; [done|done|by vm_compute|apply row_at].
Defined.
End Witness.
