(* ===== verification/Growing.v ===== *)
(** * Emitting code only adds to a program

    [growing m]: the computation [m] of the builder appends instructions,
    patches only its own, and leaves the labels of others as they were. It holds
    of the compilers of expressions and conditions, by the lemmas of the hint
    database [growing], one for each way code is put together. *)

From S2P Require Import Prelude Utf8 Fp Program Ast Schema Builder Linking Registry ExprGen ExprEval ExprCorrect Rows.
#[local] Open Scope Z_scope.

Definition growing {A} (m : BuildM A) : Prop := forall b0 b a b', m b = (Ok a, b') -> grows b0 b -> grows b0 b'.
(** It patches the instruction [i] only. *)
Definition patching {A} (i : Z) (m : BuildM A) : Prop :=
  forall b0 b a b', m b = (Ok a, b') -> zlen (insts b0) <= i -> grows b0 b -> grows b0 b'.
(** It is the rest of the scope of the label [l], which it resolves. *)
Definition binding (l : Z) (m : BuildM unit) : Prop := forall b0 b b', m b = (Ok tt, b') ->
  wf_builder b0 -> l = zlen (label_addr b0) -> grows (push_label b0) b -> grows b0 b'.

Lemma growing_ret {A} (a : A) : growing (mret a).
Proof. by intros b0 b x b' [= _ <-]. Qed.
Lemma growing_lift {A} (o : outcome A) : growing (lift o).
Proof. by intros b0 b x b' [= _ <-]. Qed.
Lemma growing_fail {A} e : growing (fail e : BuildM A).
Proof. by intros b0 b x b' [=]. Qed.
Lemma growing_get {A} (f : ProgramBuilder -> A) : growing (b ← get; mret (f b)).
Proof. by intros b0 b x b' [= _ <-]. Qed.
Lemma growing_bind {A B} (m : BuildM A) (f : A -> BuildM B) : growing m -> (forall a, growing (f a)) -> growing (m ≫= f).
Proof. intros Hm Hf b0 b y b' Hx HG. apply M_bind_inv in Hx as (a & b1 & H1 & H2). eapply Hf; [exact H2|]. by eapply Hm. Qed.
Lemma growing_grows {A} (m : BuildM A) b a b' : growing m -> m b = (Ok a, b') -> wf_builder b -> grows b b'.
Proof. intros Hm Hx Hw. apply (Hm b b a b' Hx). by apply grows_refl. Qed.
Lemma growing_alloc_reg : growing alloc_reg.
Proof.
  intros b0 b a b' (-> & ->)%alloc_reg_inv HG. eapply grows_trans; [exact HG|]. apply grows_set_next_reg; [apply HG|lia].
Qed.
Lemma growing_alloc_regs n : growing (alloc_regs n).
Proof.
  intros b0 b a b' (-> & ->)%alloc_regs_inv HG. eapply grows_trans; [exact HG|]. apply grows_set_next_reg; [apply HG|lia].
Qed.
Lemma growing_emit_ op a c d : growing (emit_ op a c d).
Proof. intros b0 b x b' Hx HG. rewrite emit_eq_ in Hx. injection Hx as _ <-. eapply grows_trans; [exact HG|]. by apply grows_push, HG. Qed.
Lemma growing_emit_p4 op a c d p : growing (emit_p4 op a c d p).
Proof. intros b0 b x b' Hx HG. rewrite emit_p4_eq in Hx. injection Hx as _ <-. eapply grows_trans; [exact HG|]. by apply grows_push, HG. Qed.
Lemma growing_emit_function name start n target : growing (emit_function name start n target).
Proof.
  intros b0 b x b' Hx HG. rewrite emit_function_eq in Hx. injection Hx as _ <-. eapply grows_trans; [exact HG|]. by apply grows_push, HG.
Qed.
Lemma growing_emit_jump_ op a l d : growing (emit_jump_ op a l d).
Proof.
  intros b0 b x b' Hx HG. injection Hx as _ <-. eapply grows_trans; [exact HG|]. by apply (grows_push_jump _ l), HG.
Qed.

(** *** Patches *)

Lemma patching_inst i f : patching i (patch_inst i f).
Proof.
  intros b0 b a b' Hx Hi ([[s Hs] (fs & Hfs & Ho) Hl Hn Hr] & Hw & K). unfold patch_inst in Hx.
  apply M_bind_inv in Hx as (b1 & b2 & [= <- <-] & Hx). apply M_bind_inv in Hx as (l & b3 & Hu & Hx). unfold lift in Hu.
  injection Hu as Hu <-. injection Hx as _ <-. apply update_at_ok in Hu as (Hrange & x & Hx & ->).
  assert (Z.to_nat i >= length (insts b0))%nat as Hge by (unfold zlen in *; lia).
  split_and!; [split| |done].
  - exists (<[(Z.to_nat i - length (insts b0))%nat := f x]> s). cbn. by rewrite Hs, insert_app_r_alt by lia.
  - exists fs. by split.
  - done.
  - done.
  - done.
  - unfold wf_builder in *. cbn. unfold zlen in *. by rewrite length_insert.
Qed.
Lemma patching_p4 i p : patching i (set_p4 i p).
Proof. apply patching_inst. Qed.
Lemma patching_p5 i p : patching i (set_p5 i p).
Proof. apply patching_inst. Qed.
Lemma patching_collation i c : patching i (emit_collation i c).
Proof. destruct c; [apply patching_p4|]. by intros b0 b x b' [= _ <-]. Qed.
Lemma patching_bind {A B} i (m : BuildM A) (f : A -> BuildM B) : patching i m -> (forall a, patching i (f a)) -> patching i (m ≫= f).
Proof.
  intros Hm Hf b0 b y b' Hx Hi HG. apply M_bind_inv in Hx as (a & b1 & H1 & H2). eapply Hf; [exact H2|done|]. by eapply Hm.
Qed.
Lemma patching_growing {A} i (m : BuildM A) : growing m -> patching i m.
Proof. intros Hm b0 b a b' Hx _. by apply (Hm _ _ _ _ Hx). Qed.
Lemma growing_emit_then {A} op a c d (k : Z -> BuildM A) : (forall i, patching i (k i)) -> growing (i ← emit op a c d; k i).
Proof.
  intros Hk b0 b x b' Hx HG. rewrite (M_bind_ok _ _ _ _ _ (emit_eq op a c d b)) in Hx.
  apply (Hk _ _ _ _ _ Hx); [apply (extends_len b0 b), HG|]. eapply grows_trans; [exact HG|]. by apply grows_push, HG.
Qed.
Lemma growing_emit_jump_then {A} op a l d (k : Z -> BuildM A) : (forall i, patching i (k i)) -> growing (i ← emit_jump op a l d; k i).
Proof.
  intros Hk b0 b x b' Hx HG. rewrite (M_bind_ok _ _ _ _ _ (emit_jump_eq op a l d b)) in Hx.
  apply (Hk _ _ _ _ _ Hx); [apply (extends_len b0 b), HG|]. eapply grows_trans; [exact HG|]. by apply (grows_push_jump _ l), HG.
Qed.

(** *** Scopes of labels *)

Lemma binding_resolve l : binding l (resolve l).
Proof. intros b0 b b' [Hr ->]%resolve_inv Hw -> HG. by apply grows_bind_label. Qed.
Lemma binding_bind {A} l (m : BuildM A) (f : A -> BuildM unit) : growing m -> (forall a, binding l (f a)) -> binding l (m ≫= f).
Proof.
  intros Hm Hf b0 b b' Hx Hw Hl HG. apply M_bind_inv in Hx as (a & b1 & H1 & H2). eapply Hf; [exact H2|done..|]. by eapply Hm.
Qed.
(** After the label other code follows. *)
Lemma binding_then l (m : BuildM unit) : growing m -> binding l (resolve l ;; m).
Proof.
  intros Hm b0 b b' Hx Hw Hl HG. apply M_bind_inv in Hx as ([] & b1 & H1 & H2).
  apply (Hm _ _ _ _ H2). by apply (binding_resolve l b0 b b1).
Qed.
Lemma growing_label (k : Z -> BuildM unit) : (forall l, binding l (k l)) -> growing (l ← new_label; k l).
Proof.
  intros Hk b0 b [] b' Hx HG. rewrite (M_bind_ok _ _ _ _ _ (new_label_eq b)) in Hx. eapply grows_trans; [exact HG|].
  apply (Hk _ _ _ _ Hx); [apply HG|done|]. apply grows_refl, HG.
Qed.

#[export] Hint Resolve growing_ret growing_lift growing_fail growing_alloc_reg growing_alloc_regs growing_emit_ growing_emit_p4
  growing_emit_function growing_emit_jump_ patching_p4 patching_p5 patching_collation binding_resolve : growing.
(** Take code apart at its binds. *)
Ltac growing :=
  repeat first
    [ solve [eauto 2 with growing]
    | apply growing_label; intros ?
    | apply growing_emit_then; intros ?
    | apply growing_emit_jump_then; intros ?
    | apply growing_bind; [|intros ?]
    | apply patching_bind; [|intros ?]
    | apply binding_then
    | apply binding_bind; [|intros ?]
    | match goal with |- growing (match ?x with _ => _ end) => destruct x end
    | match goal with |- patching _ (match ?x with _ => _ end) => destruct x end ].

(** ** The compilers *)

Section Compilers.
Context `{SubqueryCodegen} (ctx : Ctx) (Hctx : single_table ctx) (is_agg : Z -> Prop).

Lemma growing_literal l t : growing (compile_literal l t).
Proof. destruct l; cbn [compile_literal]; growing. Qed.
Lemma growing_column q name t : growing (compile_column ctx q name t).
Proof.
  rewrite (single_column _ _ _ _ Hctx). destruct (resolve_column _ _) as [cr|]; [|apply growing_fail].
  unfold compile_column_single, try_outer, emit_outer_column, plus_i32, real_affinity, column_position, fail_msg.
  growing.
Qed.
Lemma growing_operand ce e : (forall t, growing (ce e t)) -> growing (operand ce e).
Proof. intros He. unfold operand. growing. Qed.
Lemma growing_cmp_jump op r1 l r3 p : growing (emit_cmp_jump op r1 l r3 p).
Proof. unfold emit_cmp_jump. growing. Qed.
#[local] Hint Resolve growing_literal growing_column growing_operand growing_cmp_jump : growing.

Lemma growing_args (ce : Expr -> Z -> BuildM unit) es : Forall (fun e => forall t, growing (ce e t)) es ->
  forall r, growing (compile_args ce es r).
Proof. induction 1 as [|e es He _ IH]; intros r; cbn [compile_args]; growing. Qed.
Lemma growing_binary op l r t : (forall t, growing (compile_expr ctx l t)) -> (forall t, growing (compile_expr ctx r t)) ->
  growing (compile_binary ctx (compile_expr ctx) op l r t).
Proof.
  intros Hl Hr. unfold compile_binary. destruct (arith_opcode op); [growing|]. destruct (cmp_opcode op) as [[? ?]|]; [growing|].
  assert (growing (compile_json_arrow (compile_expr ctx) op l r t)) by (unfold compile_json_arrow; growing).
  destruct op; try done; try apply growing_fail; growing.
Qed.
Lemma supported_args_Forall P es : supported_args P es -> Forall (supported P) es.
Proof. induction 1; by constructor. Qed.
Lemma growing_expr e : supported is_agg e -> forall t, growing (compile_expr ctx e t).
Proof.
  revert e. apply (supported_ind2 is_agg (fun e _ => forall t, growing (compile_expr ctx e t))
    (fun es _ => Forall (fun e => forall t, growing (compile_expr ctx e t)) es)); intros; cbn [compile_expr]; growing.
  - destruct op; cbn [compile_unary]; growing.
  - by apply growing_binary.
  - unfold compile_function, fail_msg. growing. by apply growing_args.
Qed.
#[local] Hint Resolve growing_expr : growing.
Lemma growing_jump e : condition ctx is_agg e -> forall l jit jin, growing (compile_jump ctx e l jit jin).
Proof.
  induction 1 as [l r _ IHl _ IHr|l r _ IHl _ IHr|e _ IH|e low high negated He Hl Hh|e He]; intros lab jit jin; cbn [compile_jump].
  - growing.
  - growing.
  - growing.
  - unfold jump_between, between_operands. growing.
  - revert lab jit jin. assert (forall e, supported is_agg e -> forall l jit jin, growing (jump_value ctx e l jit jin)) as Hv
      by (intros; unfold jump_value; growing).
    revert e He. fix IH 2. intros e He lab jit jin. assert (supported is_agg e) as Hs by exact He.
    destruct He as [l|s t n|op e He|op l r Hl Hr|name es filter over Hh Hn Hes|e c He|r Hr|l r Hl Hr]; try by apply Hv.
    + destruct op; try by apply Hv. cbn [compile_jump]. by apply IH.
    + pose proof (IH l Hl) as Gl. pose proof (IH r Hr) as Gr. clear IH.
      assert (forall o q, growing (jump_compare ctx o q l r lab jit jin)) as Hc by (intros; unfold jump_compare; growing).
      destruct op; cbn [compile_jump cmp_opcode]; try (by apply Hv); try apply Hc; destruct jit; growing.
Qed.
End Compilers.
