(* ===== verification/Select.v ===== *)
(** * SELECT

    [codegen/select.rs]: what a query shows ([expand_columns]), its [LIMIT] and
    [OFFSET], and the programs of a scan, of a sorted scan, of a [VALUES] list
    and of a query without [FROM]. The texts of columns without a name are
    [expr_to_text]. *)

From S2P Require Import Prelude Utf8 Value Str Fp Aggregate Program VdbeOps Ast Schema Builder ExprGen.
#[local] Open Scope Z_scope.

(** ** The text of an expression *)

Definition binary_symbol (op : BinaryOp) : string :=
  match op with
  | BinaryOp.Or => " OR " | BinaryOp.And => " AND " | BinaryOp.Eq => " = " | BinaryOp.Ne => " <> "
  | BinaryOp.Lt => " < " | BinaryOp.Le => " <= " | BinaryOp.Gt => " > " | BinaryOp.Ge => " >= "
  | BinaryOp.Add => " + " | BinaryOp.Sub => " - " | BinaryOp.Mul => " * " | BinaryOp.Div => " / "
  | BinaryOp.Mod => " % " | BinaryOp.Concat => " || " | BinaryOp.Is => " IS " | BinaryOp.IsNot => " IS NOT "
  | BinaryOp.Like => " LIKE " | BinaryOp.Glob => " GLOB " | BinaryOp.Regexp => " REGEXP "
  | BinaryOp.Match => " MATCH " | BinaryOp.BitAnd => " & " | BinaryOp.BitOr => " | "
  | BinaryOp.ShiftLeft => " << " | BinaryOp.ShiftRight => " >> " | BinaryOp.JsonExtract => " -> "
  | BinaryOp.JsonExtractText => " ->> "
  end.
(** [replace] of a quote by two. *)
Definition double_quotes (s : bytes) : bytes := mjoin ((fun c => if c =? 39 then [39; 39] else [c]) <$> s).
Definition unary_symbol (op : UnaryOp) : string :=
  match op with UnaryOp.Negate => "-" | UnaryOp.Positive => "+" | UnaryOp.Not => "NOT " | UnaryOp.BitNot => "~" end.
Fixpoint expr_to_text (e : Expr) : outcome bytes :=
  let texts := fix texts (es : list Expr) : outcome (list bytes) :=
    match es with [] => Ok [] | e :: es => t ← expr_to_text e; ts ← texts es; Ok (t :: ts) end in
  match e with
  | E_Literal Literal.Null => Ok (bytes_of "NULL")
  | E_Literal (Literal.Integer n) => Ok (i64_to_string n)
  | E_Literal (Literal.Real r) => fp_to_text r
  | E_Literal (Literal.Text s) => Ok ([39] ++ double_quotes s ++ [39])
  | E_Literal (Literal.Blob _) => Ok (bytes_of "x'..'")
  | E_Literal (Literal.Bool b) => Ok (bytes_of (if b then "TRUE" else "FALSE"))
  | E_Column _ (Some t) name => Ok (t ++ [46] ++ name)
  | E_Column _ None name => Ok name
  | E_Unary op e => s ← expr_to_text e; Ok (bytes_of (unary_symbol op) ++ s)
  | E_Binary op l r => x ← expr_to_text l; y ← expr_to_text r; Ok (x ++ bytes_of (binary_symbol op) ++ y)
  | E_Function name distinct args filter over =>
      inner ← match args with
              | FA_Star => Ok (bytes_of "*")
              | FA_List es => ts ← texts es; Ok (bytes_of (if distinct then "DISTINCT " else "") ++ join_words (bytes_of ", ") ts)
              end;
      let s := name ++ [40] ++ inner ++ [41] in
      s ← match filter with
          | Some f => t ← expr_to_text f; Ok (s ++ bytes_of " FILTER (WHERE " ++ t ++ [41])
          | None => Ok s
          end;
      Ok (s ++ (if over then bytes_of " OVER (...)" else []))
  | E_BindParam s => Ok s
  | E_Between _ _ _ _ => Ok (bytes_of "between")
  | E_In _ _ _ => Ok (bytes_of "in")
  | E_InSubquery _ _ _ => Ok (bytes_of "in")
  | E_Exists _ => Ok (bytes_of "exists")
  | E_Subquery _ => Ok (bytes_of "subquery")
  | E_Cast _ _ => Ok (bytes_of "cast")
  | E_Case _ _ _ => Ok (bytes_of "case")
  | E_Collate e c => s ← expr_to_text e; Ok (s ++ bytes_of " COLLATE " ++ c)
  | E_IsDistinctFrom _ _ _ => Ok (bytes_of "is_distinct")
  | E_Row es => ts ← texts es; Ok ([40] ++ join_words (bytes_of ", ") ts ++ [41])
  | E_AggRef r => Ok (bytes_of "agg#" ++ i64_to_string r)
  | E_Coalesce2 l r =>
      x ← expr_to_text l; y ← expr_to_text r; Ok (bytes_of "coalesce(" ++ x ++ bytes_of ", " ++ y ++ [41])
  end.
Definition default_col_name (e : Expr) : outcome bytes :=
  match e with E_Column _ _ name => Ok name | e => expr_to_text e end.

(** ** The columns of the result *)

(** Each result column with its name. *)
Definition Outputs := list (Expr * bytes).
Definition column_expr (name : bytes) : Expr := E_Column None None name.
Definition column_expr_for (table name : bytes) : Expr := E_Column None (Some table) name.
Definition named_expr (e : Expr) (alias : option bytes) : outcome (Expr * bytes) :=
  name ← match alias with Some a => Ok a | None => default_col_name e end; Ok (e, name).
(** [extend] over the columns of a query. *)
Fixpoint flat_mmap {A B} (f : A -> outcome (list B)) (l : list A) : outcome (list B) :=
  match l with [] => Ok [] | a :: l => b ← f a; bs ← flat_mmap f l; Ok (b ++ bs) end.
Definition nonempty_outputs (out : Outputs) : outcome Outputs :=
  if is_nil out then Err (Error_msg "no result columns") else Ok out.
Definition values_outputs (row : list Expr) : Outputs :=
  imap (fun i e => (e, bytes_of "column" ++ i64_to_string (Z.of_nat i + 1))) row.
Definition expand_column (table : option Table) (rc : ResultColumn) : outcome Outputs :=
  match rc with
  | RCol_Star | RCol_TableStar _ =>
      t ← ok_or table (Error_msg "no tables specified");
      Ok ((fun c => (column_expr (c_name c), c_name c)) <$> t_columns t)
  | RCol_Expr e alias => x ← named_expr e alias; Ok [x]
  end.
Definition expand_columns (select : SelectStmt) (table : option Table) : outcome Outputs :=
  match s_values select with
  | row :: _ => Ok (values_outputs row)
  | [] => out ← flat_mmap (expand_column table) (s_columns select); nonempty_outputs out
  end.
Definition qualified_columns (t : Table * bytes) : Outputs :=
  (fun c => (column_expr_for (snd t) (c_name c), c_name c)) <$> t_columns (fst t).
Definition expand_join_column (tables : list (Table * bytes)) (rc : ResultColumn) : outcome Outputs :=
  match rc with
  | RCol_Star => Ok (mjoin (qualified_columns <$> tables))
  | RCol_TableStar q =>
      t ← ok_or (List.find (fun t => eq_ignore_ascii_case (snd t) q) tables) (Error_msg "no such table");
      Ok (qualified_columns t)
  | RCol_Expr e alias => x ← named_expr e alias; Ok [x]
  end.
Definition expand_columns_with_tables (select : SelectStmt) (tables : list (Table * bytes)) : outcome Outputs :=
  out ← flat_mmap (expand_join_column tables) (s_columns select); nonempty_outputs out.

(** An [ORDER BY] term: an ordinal, the name of an output, or an expression. *)
Definition resolve_order_term (term : OrderingTerm) (outputs : Outputs) : outcome Expr :=
  match ot_expr term with
  | E_Literal (Literal.Integer n) =>
      if (1 <=? n) && (n <=? zlen outputs) then o ← idx outputs (n - 1); Ok (fst o)
      else Err (Error_msg "ORDER BY term out of range")
  | E_Column _ None name =>
      match List.find (fun o => eq_ignore_ascii_case (snd o) name) outputs with
      | Some o => Ok (fst o)
      | None => Ok (ot_expr term)
      end
  | e => Ok e
  end.

(** ** LIMIT and OFFSET *)

Fixpoint const_int (e : Expr) : outcome (option Z) :=
  match e with
  | E_Literal (Literal.Integer n) => Ok (Some n)
  | E_Unary UnaryOp.Negate e =>
      n ← const_int e; match n with Some n => m ← chk_i64 (- n); Ok (Some m) | None => Ok None end
  | E_Unary UnaryOp.Positive e => const_int e
  | _ => Ok None
  end.
Definition limit_literal (e : Expr) (msg : string) : outcome Z := n ← const_int e; ok_or n (Error_msg msg).
Definition eval_limit_offset (select : SelectStmt) : outcome (option Z * Z) :=
  limit ← match s_limit select with
          | None => Ok None
          | Some e => n ← limit_literal e "only integer-literal LIMIT is supported in M3a"; Ok (if 0 <=? n then Some n else None)
          end;
  offset ← match s_offset select with
           | None => Ok 0
           | Some e => n ← limit_literal e "only integer-literal OFFSET is supported in M3a"; Ok (Z.max n 0)
           end;
  Ok (limit, offset).

(** A constant in a fresh register. *)
Definition emit_int (n : Z) : BuildM Z :=
  r ← alloc_reg;
  (if (- 2 ^ 31 <=? n) && (n <? 2 ^ 31) then emit_ Opcode.Integer n r 0 else emit_p4 Opcode.Int64 0 r 0 (P4_Int n)) ;;
  mret r.
Definition emit_value_load (x : Value) (target : Z) : BuildM unit :=
  match x with
  | Null => emit_ Opcode.Null 0 target 0
  | Int n =>
      if (- 2 ^ 31 <=? n) && (n <? 2 ^ 31) then emit_ Opcode.Integer n target 0 else emit_p4 Opcode.Int64 0 target 0 (P4_Int n)
  | Real r => emit_p4 Opcode.Real 0 target 0 (P4_Real r)
  | Text s => emit_p4 Opcode.String8 0 target 0 (P4_Text s)
  | Blob b => emit_p4 Opcode.Blob 0 target 0 (P4_Blob b)
  end.
(** The counters of LIMIT and OFFSET, if the query has them. *)
Definition emit_counters (limit : option Z) (offset : Z) : BuildM (option Z * option Z) :=
  lreg ← match limit with
         | Some n => if n >? 0 then r ← emit_int n; mret (Some r) else mret None
         | None => mret None
         end;
  oreg ← (if offset >? 0 then r ← emit_int offset; mret (Some r) else mret None);
  mret (lreg, oreg).
Definition when_some {A} (o : option A) (f : A -> BuildM unit) : BuildM unit :=
  match o with Some a => f a | None => mret tt end.
(** A row that OFFSET skips goes to [l]; the last row of LIMIT goes to [l]. *)
Definition offset_gate (oreg : option Z) (l : Label) : BuildM unit :=
  when_some oreg (fun r => emit_jump_ Opcode.IfPos r l 1).
Definition limit_gate (lreg : option Z) (l : Label) : BuildM unit :=
  when_some lreg (fun r => emit_jump_ Opcode.DecrJumpZero r l 0).

(** ** Programs *)

Definition build (m : BuildM unit) : outcome Program :=
  match m ProgramBuilder_new with (Ok _, b) => finish b | (Err e, _) => Err e | (Panic, _) => Panic end.
(** [Init] jumps over the body to the end, where the transaction starts, and
    back. *)
Definition around (body : BuildM unit) (transaction : bool) : BuildM unit :=
  setup ← new_label;
  emit_jump_ Opcode.Init 0 setup 0 ;;
  after_init ← cur_addr;
  body ;;
  resolve setup ;;
  (if transaction then emit_ Opcode.Transaction 0 0 0 else mret tt) ;;
  emit_ Opcode.Goto 0 after_init 0.

Section Select.
Context `{SubqueryCodegen}.

Definition where_jump (ctx : Ctx) (select : SelectStmt) (l : Label) : BuildM unit :=
  when_some (s_where_clause select) (fun w => compile_jump ctx w l false true).
Definition output_exprs (outputs : Outputs) : list Expr := fst <$> outputs.

(** *** A scan in the order of the table *)

Definition DISTINCT_CURSOR : Z := 2.
Definition open_distinct (distinct : bool) (ncol : Z) : BuildM unit :=
  if distinct
  then oe ← emit Opcode.OpenEphemeral DISTINCT_CURSOR ncol 0; set_p4 oe (P4_KeyInfo []) ;; note_cursor DISTINCT_CURSOR
  else mret tt.
Definition distinct_gate (distinct : bool) (result_reg ncol : Z) (l : Label) : BuildM unit :=
  if distinct
  then
    found ← emit_jump Opcode.Found DISTINCT_CURSOR l result_reg;
    set_p4 found (P4_Int ncol) ;;
    rec ← alloc_reg;
    emit_ Opcode.MakeRecord result_reg ncol rec ;;
    emit_ Opcode.IdxInsert DISTINCT_CURSOR rec 0
  else mret tt.
Definition compile_scan_unordered (select : SelectStmt) (ctx : Ctx) (outputs : Outputs) (ncol : Z) (lreg oreg : option Z)
    : BuildM unit :=
  open_distinct (s_distinct select) ncol ;;
  end_ ← new_label;
  emit_jump_ Opcode.Rewind (x_cursor ctx) end_ 0 ;;
  loop_top ← cur_addr;
  next_label ← new_label;
  where_jump ctx select next_label ;;
  result_reg ← alloc_regs ncol;
  compile_args (compile_expr ctx) (output_exprs outputs) result_reg ;;
  distinct_gate (s_distinct select) result_reg ncol next_label ;;
  offset_gate oreg next_label ;;
  emit_ Opcode.ResultRow result_reg ncol 0 ;;
  limit_gate lreg end_ ;;
  resolve next_label ;;
  emit_ Opcode.Next (x_cursor ctx) loop_top 0 ;;
  resolve end_ ;;
  emit_ Opcode.Halt 0 0 0.

(** *** A scan through a sorter *)

Definition order_key_field (ctx : Ctx) (outputs : Outputs) (t : OrderingTerm) : KeyField :=
  mkKeyField (ot_desc t)
    (match resolve_order_term t outputs with Ok e => default Binary (expr_collation ctx e) | _ => Binary end).
Fixpoint compile_order_keys (ctx : Ctx) (outputs : Outputs) (order : list OrderingTerm) (r : Z) : BuildM unit :=
  match order with
  | [] => mret tt
  | t :: order => e ← lift (resolve_order_term t outputs); compile_expr ctx e r ;; compile_order_keys ctx outputs order (r + 1)
  end.
Definition open_sorter (sorter n : Z) (keyinfo : list KeyField) : BuildM unit :=
  so ← emit Opcode.SorterOpen sorter n 0; set_p4 so (P4_KeyInfo keyinfo) ;; note_cursor sorter.
Definition sorter_insert (sorter block n : Z) : BuildM unit :=
  rec ← alloc_reg; emit_ Opcode.MakeRecord block n rec ;; emit_ Opcode.SorterInsert sorter rec 0.
(** [Column] of the fields from [first] into the registers from [r]. *)
Fixpoint read_columns (cursor first r : Z) (n : nat) : BuildM unit :=
  match n with O => mret tt | S n => emit_ Opcode.Column cursor first r ;; read_columns cursor (first + 1) (r + 1) n end.
(** The rows of the sorter, in order; also [emit_sort_tail]. *)
Definition emit_sort_tail (sorter norder ncol : Z) (lreg oreg : option Z) (end_label : Label) : BuildM unit :=
  emit_jump_ Opcode.SorterSort sorter end_label 0 ;;
  out_top ← cur_addr;
  sort_next ← new_label;
  emit_ Opcode.SorterData sorter 0 0 ;;
  offset_gate oreg sort_next ;;
  result_reg ← alloc_regs ncol;
  read_columns sorter norder result_reg (Z.to_nat ncol) ;;
  emit_ Opcode.ResultRow result_reg ncol 0 ;;
  limit_gate lreg end_label ;;
  resolve sort_next ;;
  emit_ Opcode.SorterNext sorter out_top 0.
Definition compile_scan_ordered (select : SelectStmt) (ctx : Ctx) (outputs : Outputs) (ncol : Z) (lreg oreg : option Z)
    : BuildM unit :=
  let sorter := 1 in
  let order := s_order_by select in
  let nkey := i32 (zlen order) in
  open_sorter sorter (nkey + ncol) (order_key_field ctx outputs <$> order) ;;
  end_scan ← new_label;
  emit_jump_ Opcode.Rewind (x_cursor ctx) end_scan 0 ;;
  scan_top ← cur_addr;
  scan_next ← new_label;
  where_jump ctx select scan_next ;;
  block ← alloc_regs (nkey + ncol);
  compile_order_keys ctx outputs order block ;;
  compile_args (compile_expr ctx) (output_exprs outputs) (block + nkey) ;;
  sorter_insert sorter block (nkey + ncol) ;;
  resolve scan_next ;;
  emit_ Opcode.Next (x_cursor ctx) scan_top 0 ;;
  resolve end_scan ;;
  end_out ← new_label;
  emit_sort_tail sorter nkey ncol lreg oreg end_out ;;
  resolve end_out ;;
  emit_ Opcode.Halt 0 0 0.

Definition open_read (cursor : Z) (t : Table) : BuildM unit :=
  open ← emit Opcode.OpenRead cursor (i32 (t_rootpage t)) 0;
  note_cursor cursor ;;
  if t_without_rowid t then ki ← lift (without_rowid_key_info t); set_p4 open (P4_KeyInfo ki)
  else set_p4 open (P4_Int (zlen (t_columns t))).
Definition scan_ctx (table : Table) (resolver : option SubqueryResolver) (outer : option OuterScope) : Ctx :=
  mkCtx table 0 None None None resolver outer.
Definition scan_body (select : SelectStmt) (table : Table) (outputs : Outputs) (limit : option Z) (offset : Z)
    (resolver : option SubqueryResolver) (outer : option OuterScope) : BuildM unit :=
  if bool_decide (limit = Some 0) then emit_ Opcode.Halt 0 0 0
  else
    let ctx := scan_ctx table resolver outer in
    let ncol := i32 (zlen outputs) in
    '(lreg, oreg) ← emit_counters limit offset;
    open_read (x_cursor ctx) table ;;
    if is_nil (s_order_by select) then compile_scan_unordered select ctx outputs ncol lreg oreg
    else compile_scan_ordered select ctx outputs ncol lreg oreg.
Definition compile_scan (select : SelectStmt) (table : Table) (outputs : Outputs) (limit : option Z) (offset : Z)
    (resolver : option SubqueryResolver) (outer : option OuterScope) : outcome Program :=
  build (around (scan_body select table outputs limit offset resolver outer) true).

(** *** Rows without a table *)

Definition empty_ctx (resolver : option SubqueryResolver) (outer : option OuterScope) : Ctx :=
  mkCtx Table_default (-1) None None None resolver outer.
Definition no_rows (limit : option Z) (offset : Z) : bool := bool_decide (limit = Some 0) || (offset >? 0).
Definition constant_body (select : SelectStmt) (outputs : Outputs) (limit : option Z) (offset : Z)
    (resolver : option SubqueryResolver) (outer : option OuterScope) : BuildM unit :=
  let ctx := empty_ctx resolver outer in
  let ncol := i32 (zlen outputs) in
  (if no_rows limit offset then mret tt
   else
     end_ ← new_label;
     where_jump ctx select end_ ;;
     result_reg ← alloc_regs ncol;
     compile_args (compile_expr ctx) (output_exprs outputs) result_reg ;;
     emit_ Opcode.ResultRow result_reg ncol 0 ;;
     resolve end_) ;;
  emit_ Opcode.Halt 0 0 0.
Definition compile_constant (select : SelectStmt) (outputs : Outputs) (limit : option Z) (offset : Z)
    (resolver : option SubqueryResolver) (outer : option OuterScope) : outcome Program :=
  build (around (constant_body select outputs limit offset resolver outer) false).

(** The rows of a [VALUES] list, one after the other. *)
Fixpoint value_rows (select : SelectStmt) (ctx : Ctx) (ncol : Z) (lreg oreg : option Z) (end_ : Label) (rows : list (list Expr))
    : BuildM unit :=
  match rows with
  | [] => mret tt
  | row :: rows =>
      where_jump ctx select end_ ;;
      offset_gate oreg end_ ;;
      result_reg ← alloc_regs ncol;
      compile_args (compile_expr ctx) row result_reg ;;
      emit_ Opcode.ResultRow result_reg ncol 0 ;;
      limit_gate lreg end_ ;;
      value_rows select ctx ncol lreg oreg end_ rows
  end.
Fixpoint sorted_value_rows (select : SelectStmt) (ctx : Ctx) (outputs : Outputs) (sorter nkey ncol : Z) (end_ : Label)
    (rows : list (list Expr)) : BuildM unit :=
  match rows with
  | [] => mret tt
  | row :: rows =>
      where_jump ctx select end_ ;;
      block ← alloc_regs (nkey + ncol);
      compile_order_keys ctx outputs (s_order_by select) block ;;
      compile_args (compile_expr ctx) row (block + nkey) ;;
      sorter_insert sorter block (nkey + ncol) ;;
      sorted_value_rows select ctx outputs sorter nkey ncol end_ rows
  end.
Definition values_body (select : SelectStmt) (outputs : Outputs) (limit : option Z) (offset : Z)
    (resolver : option SubqueryResolver) : BuildM unit :=
  let ctx := empty_ctx resolver None in
  let ncol := i32 (zlen outputs) in
  '(lreg, oreg) ← emit_counters limit offset;
  (if no_rows limit offset then mret tt
   else
     end_ ← new_label;
     (if is_nil (s_order_by select) then value_rows select ctx ncol lreg oreg end_ (s_values select)
      else
        let sorter := 0 in
        let nkey := i32 (zlen (s_order_by select)) in
        open_sorter sorter (nkey + ncol) ((fun t => mkKeyField (ot_desc t) Binary) <$> s_order_by select) ;;
        sorted_value_rows select ctx outputs sorter nkey ncol end_ (s_values select) ;;
        end_out ← new_label;
        emit_sort_tail sorter nkey ncol lreg oreg end_out ;;
        resolve end_out) ;;
     resolve end_) ;;
  emit_ Opcode.Halt 0 0 0.
Definition compile_values (select : SelectStmt) (outputs : Outputs) (limit : option Z) (offset : Z)
    (resolver : option SubqueryResolver) (outer : option OuterScope) : outcome Program :=
  if existsb (fun row => negb (zlen row =? zlen outputs)) (s_values select)
  then Err (Error_msg "all VALUES must have the same number of terms")
  else build (around (values_body select outputs limit offset resolver) false).

(** With an OFFSET a VALUES list shows nothing, whatever its rows. *)
Lemma values_offset_shows_nothing select outputs limit offset resolver b regs b' : 0 < offset ->
  emit_counters limit offset b = (Ok regs, b') ->
  values_body select outputs limit offset resolver b = emit_ Opcode.Halt 0 0 0 b'.
Proof.
  intros Ho Hc. unfold values_body. rewrite (M_bind_ok _ _ _ _ _ Hc). destruct regs as [lreg oreg].
  unfold no_rows. destruct (Z.gtb_spec offset 0); [|lia]. by rewrite orb_true_r.
Qed.
End Select.
