(* ===== verification/Query.v ===== *)
(** * Running a query

    What a client sees of a program that it steps: [delivers n s rows s'] when
    [step], called until it is done, shows [rows] one by one. The lemmas build
    such a run from runs of single instructions. *)

From S2P Require Import Prelude Utf8 Value Fp Program VdbeOps Vfs Wal Pager Vdbe Steps.
#[local] Open Scope Z_scope.

(** The values of the row the machine shows. *)
Definition result_row (v : Vdbe) : list Value :=
  (fun k => result_value v (Z.of_nat k)) <$> seq 0 (Z.to_nat (v_result_count v)).

Section Query.
Context {E F : Type} `{VfsOps E F} `{SqlFunctions} (drain : gmap Z bytes -> list (Z * bytes)) (bfuel : nat).
Notation State := (Pager F * (Proc * E))%type.
Notation vst := (Vdbe * State)%type.

Inductive delivers (n : nat) : vst -> list (list Value) -> vst -> Prop :=
  | delivers_done s s' : step drain bfuel n s = (Ok SR_Done, s') -> delivers n s [] s'
  | delivers_row s s1 rows s' : step drain bfuel n s = (Ok SR_Row, s1) -> delivers n s1 rows s' ->
      delivers n s (result_row (fst s1) :: rows) s'.

(** *** Fuel *)

Lemma step_loop_mono n m s r s' : step_loop drain bfuel n s = (Ok r, s') -> (n <= m)%nat ->
  step_loop drain bfuel m s = (Ok r, s').
Proof.
  revert m s. induction n as [|n IH]; intros m s Hs Hle; [done|]. destruct m as [|m]; [lia|]. cbn [step_loop] in *.
  apply M_bind_inv in Hs as (o & s1 & H1 & Hs). rewrite (M_bind_ok _ _ _ _ _ H1). destruct o; [done|]. apply IH; [done|lia].
Qed.
Lemma step_mono n m s r s' : step drain bfuel n s = (Ok r, s') -> (n <= m)%nat -> step drain bfuel m s = (Ok r, s').
Proof.
  assert (forall e s r s', on_failure drain e s = (Ok r, s') -> False) as Hfail.
  { intros e s0 r0 s0'. unfold on_failure. intros Hx. apply M_bind_inv in Hx as (? & ? & _ & Hx).
    apply M_bind_inv in Hx as (? & ? & _ & Hx). apply M_bind_inv in Hx as (? & ? & _ & Hx).
    by apply M_bind_inv in Hx as (? & ? & _ & Hx). }
  unfold step. destruct (step_inner drain bfuel n s) as [[a|e|] s1] eqn:Hi; [|by intros ?%Hfail|done].
  intros [= -> ->] Hle. unfold step_inner in *. apply M_bind_inv in Hi as (h & s2 & H1 & Hi).
  rewrite (M_bind_ok _ _ _ _ _ H1). destruct h; [by rewrite Hi|]. by rewrite (step_loop_mono n m _ _ _ Hi Hle).
Qed.
Lemma delivers_mono n m s rows s' : delivers n s rows s' -> (n <= m)%nat -> delivers m s rows s'.
Proof.
  intros Hd Hle. induction Hd as [s s' Hs|s s1 rows s' Hs _ IH]; [apply delivers_done|apply delivers_row; [|exact IH]];
    by eapply step_mono.
Qed.

(** *** From instructions to steps *)

Lemma step_loop_steps s s1 : rtc (vstep drain bfuel) s s1 -> exists k, forall n, step_loop drain bfuel (k + n) s = step_loop drain bfuel n s1.
Proof.
  induction 1 as [s|s s1 s2 Hs _ [k IH]]; [by exists 0%nat|]. exists (S k). intros n. cbn [Nat.add step_loop].
  by rewrite (M_bind_ok _ _ _ _ _ Hs).
Qed.
Lemma step_of_loop n s r s' : v_halted (fst s) = false -> step_loop drain bfuel n s = (Ok r, s') -> step drain bfuel n s = (Ok r, s').
Proof.
  intros Hh Hs. unfold step, step_inner. destruct s as [v st]. cbn [fst] in Hh.
  rewrite (M_bind_ok (getv v_halted) _ (v, st) false (v, st)) by (by rewrite <- Hh). by rewrite Hs.
Qed.
Lemma step_run s s1 r s' : v_halted (fst s) = false -> rtc (vstep drain bfuel) s s1 ->
  exec_one drain bfuel s1 = (Ok (Some r), s') -> exists n, step drain bfuel n s = (Ok r, s').
Proof.
  intros Hh Hr Hx. destruct (step_loop_steps s s1 Hr) as [k Hk]. exists (k + 1)%nat. apply step_of_loop; [done|].
  rewrite Hk. cbn [step_loop]. by rewrite (M_bind_ok _ _ _ _ _ Hx).
Qed.
Lemma delivers_end s s1 s' : v_halted (fst s) = false -> rtc (vstep drain bfuel) s s1 ->
  exec_one drain bfuel s1 = (Ok (Some SR_Done), s') -> exists n, delivers n s [] s'.
Proof. intros Hh Hr Hx. destruct (step_run _ _ _ _ Hh Hr Hx) as [n Hn]. exists n. by apply delivers_done. Qed.
Lemma delivers_next s s1 s2 rows s' : v_halted (fst s) = false -> rtc (vstep drain bfuel) s s1 ->
  exec_one drain bfuel s1 = (Ok (Some SR_Row), s2) -> (exists n, delivers n s2 rows s') ->
  exists n, delivers n s (result_row (fst s2) :: rows) s'.
Proof.
  intros Hh Hr Hx [m Hd]. destruct (step_run _ _ _ _ Hh Hr Hx) as [n Hn]. exists (n + m)%nat.
  apply delivers_row; [eapply step_mono|eapply delivers_mono]; [done|lia|done|lia].
Qed.
(** Instructions before the first result change nothing. *)
Lemma delivers_steps s s1 rows s' : v_halted (fst s) = false -> v_halted (fst s1) = false -> rtc (vstep drain bfuel) s s1 ->
  (exists n, delivers n s1 rows s') -> exists n, delivers n s rows s'.
Proof.
  intros Hh Hh1 Hr [n Hd]. destruct (step_loop_steps s s1 Hr) as [k Hk].
  assert (forall r s2, step drain bfuel n s1 = (Ok r, s2) -> step drain bfuel (k + n) s = (Ok r, s2)) as Hstep.
  { intros r s2 Hs. apply step_of_loop; [done|]. rewrite Hk. unfold step, step_inner in Hs. destruct s1 as [v1 st1].
    rewrite (M_bind_ok (getv v_halted) _ (v1, st1) false (v1, st1)) in Hs by (by rewrite <- Hh1).
    destruct (step_loop drain bfuel n (v1, st1)) as [[a|e|] s3] eqn:Hl; [by injection Hs as -> ->| |done].
    exfalso. unfold on_failure in Hs. apply M_bind_inv in Hs as (? & ? & _ & Hs).
    apply M_bind_inv in Hs as (? & ? & _ & Hs). apply M_bind_inv in Hs as (? & ? & _ & Hs).
    by apply M_bind_inv in Hs as (? & ? & _ & Hs). }
  exists (k + n)%nat. destruct Hd as [s1 s2 Hs|s1 s2 rows s3 Hs Hd].
  - apply delivers_done. by apply Hstep.
  - apply delivers_row; [by apply Hstep|]. eapply delivers_mono; [exact Hd|lia].
Qed.
End Query.
