(* ===== verification/ScanCorrect.v ===== *)
(** * A scan answers its query

    Stepping the program of [compile_scan] shows the rows of the table that the
    condition of the query accepts, projected, in the order of their rowids and
    cut by OFFSET and LIMIT, and then says that it is done. The proof follows the
    program: the registers of the counters, the cursor, and a loop whose
    invariant is where the cursor stands and what the counters hold. *)

From S2P Require Import Prelude Utf8 Float64 Value Str Fp DbHeader Record Aggregate Program VdbeOps Vfs Wal BtreePage Pager Cell Balance BtreeInsert TableCursor PagerTxn Vdbe.
From S2P Require Import Disk Recovery Atomic Transaction Store TableCell TableTree TableInsert TableRead TableAppend Tables.
From S2P Require Import Ast Schema Builder Linking Registry ExprGen ExprEval Steps ExprCorrect Rows Growing Select Query.
#[local] Open Scope Z_scope.

(** ** The answer *)

Lemma quiet_trans v1 v2 v3 : quiet v1 v2 -> quiet v2 v3 -> quiet v1 v3.
Proof.
  intros (? & ? & ? & ? & ->) (pc & regs & ags & Hl & ->). exists pc, regs, ags. cbn in *. split; [congruence|by destruct v1].
Qed.

Section Answer.
Context `{SqlFunctions} (select : SelectStmt) (ctx : Ctx) (outputs : Outputs).
Definition no_aggs (_ : Z) : Value := Null.
(** Does a row satisfy WHERE: its condition is neither false nor NULL. *)
Definition passes (r : Z * list Value) : outcome bool :=
  match s_where_clause select with
  | None => Ok true
  | Some w => x ← eval ctx (cursor_col ctx (fst r) (snd r)) no_aggs w; Ok (negb (holds false true x))
  end.
Definition project (r : Z * list Value) : outcome (list Value) :=
  evals ctx (cursor_col ctx (fst r) (snd r)) no_aggs (output_exprs outputs).
Fixpoint selected (rows : list (Z * list Value)) : outcome (list (list Value)) :=
  match rows with
  | [] => Ok []
  | r :: rows =>
      keep ← passes r;
      if (keep : bool) then xs ← project r; rest ← selected rows; Ok (xs :: rest) else selected rows
  end.
End Answer.
Definition window {A} (limit : option Z) (offset : Z) (l : list A) : list A :=
  match limit with Some n => ztake n (zdrop offset l) | None => zdrop offset l end.

(** ** Machines and cursors *)

(** What the instructions of a scan never change. *)
Record ready (P : Program) (enc : TextEncoding) (v : Vdbe) : Prop := {
  rdy_program : v_program v = P;
  rdy_open : v_open v = true;
  rdy_encoding : v_encoding v = enc;
  rdy_running : v_halted v = false;
  rdy_frames : v_frames v = [];
  rdy_txn : v_write_txn v = false;
  rdy_savepoint : v_stmt_savepoint v = None;
  rdy_regs : zlen (v_regs v) = Z.max (num_registers P) 1 }.
Lemma ready_frame P enc v v' : ready P enc v -> frame v v' -> ready P enc v'.
Proof. intros [] (pc & regs & cs & d & ags & Hl & ->). split; try done. cbn. unfold zlen in *. by rewrite Hl. Qed.
Lemma ready_result P enc v a c pc : ready P enc v -> ready P enc (v_set_pc pc (v_set_result a c v)).
Proof. by intros []. Qed.

Lemma cursor_at_put v i c : 0 <= i < zlen (v_cursors v) -> cursor_at (put_cursor i c v) i = c.
Proof.
  intros. unfold cursor_at, put_cursor, zget. cbn. destruct (Z.ltb_spec i 0); [lia|].
  rewrite list_lookup_insert_eq; [by destruct c|]. unfold zlen in *. lia.
Qed.
Lemma cursor_at_range v i c : cursor_at v i = Some c -> 0 <= i < zlen (v_cursors v).
Proof.
  unfold cursor_at. intros Hc. apply (zget_range (v_cursors v) i (Some c)). destruct (zget (v_cursors v) i) as [o|]; [|done].
  cbn in Hc. by subst o.
Qed.
(** A run that cannot fail. *)
Lemma run_sure {S A} (m : M S A) s (ok : A -> S -> Prop) (err : S -> Prop) : run m s ok err -> (forall s', ~ err s') ->
  exists a s', m s = (Ok a, s') /\ ok a s'.
Proof. unfold run. intros Hr Hn. destruct (m s) as [[a|e|] s']; [by exists a, s'|by destruct (Hn s')|done]. Qed.

Section Scan.
Context {E F : Type} `{VfsOps E F} `{SqlFunctions} `{SubqueryCodegen}.
Context (drain : gmap Z bytes -> list (Z * bytes)) (bfuel : nat).
Notation State := (Pager F * (Proc * E))%type.
Notation vst := (Vdbe * State)%type.
Context {ps us : Z} {view : Image -> State -> Prop} `{!PageReader ps us view (fun _ => False)}.
Context (im : Image) (D : nat).

Lemma some_or_none {A} (o : option A) : o = None \/ exists a, o = Some a.
Proof. destruct o; eauto. Qed.

Lemma zlen_push_jump i l b : zlen (insts (push_jump i l b)) = zlen (insts b) + 1.
Proof. apply zlen_push. Qed.

(** *** The other instructions of a scan *)

Lemma ifpos_inst r a k v st : zget (v_regs v) r = Some (Int k) -> 0 <= k < 2 ^ 63 ->
  exec_inst drain bfuel (v_pc v) (Instruction_new Opcode.IfPos r a 1) (v, st)
  = (Ok None, ((if k >? 0 then wrote r (Int (k - 1)) (u64 a) v else v_set_pc (v_pc v + 1) v), st)).
Proof.
  intros Hr Hk. apply zget_range in Hr as Hlt. set (v' := if k >? 0 then _ else _).
  transitivity (cont (exec_IfPos (Instruction_new Opcode.IfPos r a 1)) (v, st) : outcome (option StepResult) * vst); [done|].
  unfold cont. rewrite (M_bind_ok _ _ (v, st) tt (v', st)); [done|]. unfold exec_IfPos. cbn [p1 p2 p3 Instruction_new].
  rewrite (reg_run _ _ _ _ _ Hr). unfold as_i64, v'. destruct (Z.gtb_spec k 0); [|done].
  rewrite (M_bind_ok (lift _) _ (v, st) (k - 1) (v, st)) by (unfold lift, chk_i64; destruct (Z.leb_spec (- 2 ^ 63) (k - 1)); [|lia]; by destruct (Z.ltb_spec (k - 1) (2 ^ 63)); [|lia]).
  unfold set_reg. rewrite (M_bind_ok _ _ (v, st) tt (v_set_regs (<[Z.to_nat r := Int (k - 1)]> (v_regs v)) v, st)); [done|].
  rewrite (M_bind_ok (getv id) _ (v, st) v (v, st) eq_refl).
  destruct (Z.leb_spec 0 r); [|lia]. destruct (Z.ltb_spec r (zlen (v_regs v))); [done|lia].
Qed.
Lemma decr_inst r a k v st : zget (v_regs v) r = Some (Int k) -> 0 <= k < 2 ^ 63 ->
  exec_inst drain bfuel (v_pc v) (Instruction_new Opcode.DecrJumpZero r a 0) (v, st)
  = (Ok None, (wrote r (Int (k - 1)) (if k =? 1 then u64 a else v_pc v + 1) v, st)).
Proof.
  intros Hr Hk. apply zget_range in Hr as Hlt. set (v' := wrote _ _ _ _).
  transitivity (cont (exec_DecrJumpZero (Instruction_new Opcode.DecrJumpZero r a 0)) (v, st) : outcome (option StepResult) * vst); [done|].
  unfold cont. rewrite (M_bind_ok _ _ (v, st) tt (v', st)); [done|]. unfold exec_DecrJumpZero. cbn [p1 p2 p3 Instruction_new].
  rewrite (reg_run _ _ _ _ _ Hr). unfold as_i64, v'.
  rewrite (M_bind_ok (lift _) _ (v, st) (k - 1) (v, st)) by (unfold lift, chk_i64; destruct (Z.leb_spec (- 2 ^ 63) (k - 1)); [|lia]; by destruct (Z.ltb_spec (k - 1) (2 ^ 63)); [|lia]).
  unfold set_reg. rewrite (M_bind_ok _ _ (v, st) tt (v_set_regs (<[Z.to_nat r := Int (k - 1)]> (v_regs v)) v, st)).
  - destruct (Z.eqb_spec k 1) as [->|]; [done|]. by destruct (Z.eqb_spec (k - 1) 0); [lia|].
  - rewrite (M_bind_ok (getv id) _ (v, st) v (v, st) eq_refl).
    destruct (Z.leb_spec 0 r); [|lia]. destruct (Z.ltb_spec r (zlen (v_regs v))); [done|lia].
Qed.
Lemma result_inst r n v st :
  exec_inst drain bfuel (v_pc v) (Instruction_new Opcode.ResultRow r n 0) (v, st)
  = (Ok (Some SR_Row), (v_set_pc (v_pc v + 1) (v_set_result (u64 r) (u64 n) v), st)).
Proof. done. Qed.
Lemma halt_inst P enc v st : ready P enc v ->
  exec_inst drain bfuel (v_pc v) (Instruction_new Opcode.Halt 0 0 0) (v, st)
  = (Ok (Some SR_Done), (v_set_halted true (v_set_stmt_savepoint None v), st)).
Proof.
  intros [_ _ _ _ Hf Ht Hs _].
  transitivity (exec_Halt drain (Instruction_new Opcode.Halt 0 0 0) (v, st)); [done|]. unfold exec_Halt.
  rewrite (M_bind_ok (getv id) _ (v, st) v (v, st) eq_refl). unfold id. rewrite Hf, Ht, Hs. done.
Qed.
Lemma transaction_inst v st st' : v_open v = true -> begin_read st = (Ok tt, st') ->
  exec_inst drain bfuel (v_pc v) (Instruction_new Opcode.Transaction 0 0 0) (v, st)
  = (Ok None, (v_set_pc (v_pc v + 1) v, st')).
Proof.
  intros Ho Hb.
  transitivity (cont (exec_Transaction (Instruction_new Opcode.Transaction 0 0 0)) (v, st) : outcome (option StepResult) * vst); [done|].
  unfold cont. rewrite (M_bind_ok _ _ (v, st) tt (v_set_pc (v_pc v + 1) v, st')); [done|]. unfold exec_Transaction.
  rewrite (M_bind_ok (getv id) _ (v, st) v (v, st) eq_refl). cbn [p2 Instruction_new Z.eqb].
  rewrite (M_bind_ok (with_pager begin_read) _ (v, st) tt (v, st')); [done|]. unfold with_pager.
  rewrite (M_bind_ok (getv v_open) _ (v, st) true (v, st)) by (by rewrite <- Ho). unfold on_snd. by rewrite Hb.
Qed.
(** The machine with the table of [root] open as cursor [i]. *)
Definition opened (i root : Z) (p : Pager F) (v : Vdbe) : Vdbe :=
  v_set_pc (v_pc v + 1) (v_set_cursor_root (<[i := root]> (v_cursor_root v))
    (v_set_cursors (<[Z.to_nat i := Some (C_Table (cursor_new root p))]> (v_cursors v ++ zrep (i + 1 - zlen (v_cursors v)) None)) v)).
Lemma open_inst i root n v st : v_open v = true -> 0 <= i ->
  exec_inst drain bfuel (v_pc v) (mkInstruction Opcode.OpenRead i root 0 (P4_Int n) 0) (v, st)
  = (Ok None, (opened i (u32 root) (fst st) v, st)).
Proof.
  intros Ho Hi. destruct st as [p r]. cbn [fst].
  transitivity (cont (exec_Open (mkInstruction Opcode.OpenRead i root 0 (P4_Int n) 0)) (v, (p, r)) : outcome (option StepResult) * vst); [done|].
  unfold cont. rewrite (M_bind_ok _ _ (v, (p, r)) tt (opened i (u32 root) p v, (p, r))); [done|]. unfold exec_Open.
  rewrite (M_bind_ok (with_pager _) _ (v, (p, r)) p (v, (p, r))).
  - cbn [p1 p2 p4]. unfold set_cursor. by destruct (Z.ltb_spec i 0); [lia|].
  - unfold with_pager. by rewrite (M_bind_ok (getv v_open) _ (v, (p, r)) true (v, (p, r))) by (by rewrite <- Ho).
Qed.
Lemma opened_cursor i root p v : 0 <= i -> cursor_at (opened i root p v) i = Some (C_Table (cursor_new root p)).
Proof.
  intros. unfold cursor_at, opened, zget. cbn. destruct (Z.ltb_spec i 0); [lia|].
  rewrite list_lookup_insert_eq; [done|]. rewrite length_app. unfold zlen, zrep.
  rewrite length_replicate. lia.
Qed.
Lemma opened_ready P enc i root p v : ready P enc v -> ready P enc (opened i root p v).
Proof. by intros []. Qed.

(** *** Single instructions on a table cursor *)

Lemma on_table_run {A} i (m : CursorM (E := E) (F := F) A) v st c a c' st' : cursor_at v i = Some (C_Table c) ->
  m (c, st) = (Ok a, (c', st')) -> on_table i m (v, st) = (Ok a, (put_cursor i (Some (C_Table c')) v, st')).
Proof. intros Hc Hm. unfold on_table. by rewrite Hc, Hm. Qed.

(** [v'] goes on at [pc] with the cursor [i] before [rows]. *)
Definition moved (i : Z) (v : Vdbe) (rows : list row) (k : nat) (pc : Z) (s : vst) : Prop :=
  let '(v', st') := s in
  frame v v' /\ v_regs v' = v_regs v /\ v_decoded v' = None /\ v_pc v' = pc /\ view im st' /\
  exists c' n', cursor_at v' i = Some (C_Table c') /\ stands im us D c' rows n' /\ (n' <= k)%nat.
Lemma next_inst i t v st c r rows n : cursor_at v i = Some (C_Table c) -> view im st -> stands im us D c (r :: rows) n ->
  (D + n < bfuel)%nat -> exists s',
  exec_inst drain bfuel (v_pc v) (Instruction_new Opcode.Next i t 0) (v, st) = (Ok None, s') /\
  moved i v rows n (match rows with [] => v_pc v + 1 | _ => u64 t end) s'.
Proof.
  intros Hc V Hs Hf. destruct (run_sure _ _ _ _ (next_run im D bfuel c st r rows n V Hs Hf)) as (u & [c' st'] & Hn & V' & n' & Hs' & Hle);
    [by intros [? ?] []|]. pose proof (stands_valid _ _ _ _ _ _ Hs') as Hv.
  assert ((next bfuel ;; getc is_valid) (c, st) = (Ok (is_valid c'), (c', st'))) as Hm by (by rewrite (M_bind_ok _ _ _ _ _ Hn)).
  set (v1 := v_set_decoded None (put_cursor i (Some (C_Table c')) v)).
  set (v' := v_set_pc (match rows with [] => v_pc v + 1 | _ => u64 t end) v1).
  exists (v', st'). split.
  - transitivity (cont (exec_Next bfuel (Instruction_new Opcode.Next i t 0)) (v, st) : outcome (option StepResult) * vst); [done|].
    unfold cont. rewrite (M_bind_ok _ _ (v, st) tt (v', st')); [done|]. unfold exec_Next, open_cursor. cbn [p1 p2 Instruction_new].
    rewrite (M_bind_ok _ _ (v, st) (C_Table c) (v, st)) by (rewrite (M_bind_ok (getv id) _ (v, st) v (v, st) eq_refl); unfold lift, id; by rewrite Hc).
    rewrite (M_bind_ok _ _ _ _ _ (on_table_run i _ v st c _ c' st' Hc Hm)).
    rewrite (M_bind_ok _ _ (put_cursor i (Some (C_Table c')) v, st') tt (v1, st') eq_refl), Hv. by destruct rows.
  - split_and!; try done.
    + exists (v_pc v'), (v_regs v), (v_cursors v'), None, (v_aggregates v). split; [done|]. unfold v', v1. by destruct v.
    + exists c', n'. split_and!; [|done..]. apply (cursor_at_put v). by eapply cursor_at_range.
Qed.
Lemma rewind_inst i t v st c root lo hi pgs rows : cursor_at v i = Some (C_Table c) -> view im st ->
  table_at im us D root lo hi pgs rows -> tc_root c = root -> tc_usable c = us -> (D + length pgs < bfuel)%nat -> exists s',
  exec_inst drain bfuel (v_pc v) (Instruction_new Opcode.Rewind i t 0) (v, st) = (Ok None, s') /\
  moved i v rows (length pgs) (match rows with [] => u64 t | _ => v_pc v + 1 end) s'.
Proof.
  intros Hc V HT Hr Hu Hf. destruct (run_sure _ _ _ _ (rewind_run im D bfuel c st root lo hi pgs rows V HT Hr Hu Hf)) as (u & [c' st'] & Hn & V' & n' & Hs' & Hlt);
    [by intros [? ?] []|]. pose proof (stands_valid _ _ _ _ _ _ Hs') as Hv.
  assert ((rewind bfuel ;; getc is_valid) (c, st) = (Ok (is_valid c'), (c', st'))) as Hm by (by rewrite (M_bind_ok _ _ _ _ _ Hn)).
  set (v1 := v_set_decoded None (put_cursor i (Some (C_Table c')) v)).
  set (v' := v_set_pc (match rows with [] => u64 t | _ => v_pc v + 1 end) v1).
  exists (v', st'). split.
  - transitivity (cont (exec_Rewind bfuel (Instruction_new Opcode.Rewind i t 0)) (v, st) : outcome (option StepResult) * vst); [done|].
    unfold cont. rewrite (M_bind_ok _ _ (v, st) tt (v', st')); [done|]. unfold exec_Rewind, open_cursor. cbn [p1 p2 Instruction_new].
    rewrite (M_bind_ok _ _ (v, st) (C_Table c) (v, st)) by (rewrite (M_bind_ok (getv id) _ (v, st) v (v, st) eq_refl); unfold lift, id; by rewrite Hc).
    rewrite (M_bind_ok _ _ _ _ _ (on_table_run i _ v st c _ c' st' Hc Hm)).
    rewrite (M_bind_ok _ _ (put_cursor i (Some (C_Table c')) v, st') tt (v1, st') eq_refl), Hv. by destruct rows.
  - split_and!; try done.
    + exists (v_pc v'), (v_regs v), (v_cursors v'), None, (v_aggregates v). split; [done|]. unfold v', v1. by destruct v.
    + exists c', n'. split_and!; [|done|lia]. apply (cursor_at_put v). by eapply cursor_at_range.
Qed.
(** ** The loop *)

Section Loop.
Context (select : SelectStmt) (table : Table) (outputs : Outputs) (resolver : option SubqueryResolver) (enc : TextEncoding).
Notation ctx := (scan_ctx table resolver None).
Notation none := (fun _ : Z => False).
Notation ncol := (zlen outputs).
Context (fb : ProgramBuilder) (P : Program) (Hfinish : finish fb = Ok P) (Hsize : zlen (insts fb) < 2 ^ 31).
Context (Hctx : single_table ctx) (Hrowid : t_without_rowid table = false).
Context (Hwhere : from_option (condition ctx none) True (s_where_clause select)).
Context (Houts : Forall (supported none) (output_exprs outputs)).

(** The registers of the counters, and what they hold. *)
Context (lreg oreg : option Z).
Hypothesis Hdiff : forall r, lreg = Some r -> oreg <> Some r.
Definition counters (left : option Z) (skip : Z) : gmap Z Value :=
  from_option (fun r => {[r := Int (default 0 left)]}) ∅ lreg ∪ from_option (fun r => {[r := Int skip]}) ∅ oreg.
Lemma counters_lookup left skip r x : counters left skip !! r = Some x <->
  (lreg = Some r /\ x = Int (default 0 left)) \/ (oreg = Some r /\ x = Int skip).
Proof.
  unfold counters. rewrite lookup_union_Some.
  - destruct lreg as [l|], oreg as [o|]; cbn [from_option]; rewrite ?lookup_empty, ?lookup_singleton_Some; naive_solver.
  - destruct lreg as [l|], oreg as [o|]; cbn [from_option]; try apply map_disjoint_empty_l; try apply map_disjoint_empty_r.
    apply map_disjoint_singleton_l. rewrite lookup_singleton_ne; [done|]. intros ->. by apply (Hdiff l).
Qed.

(** The code, from the builder before [Rewind]. *)
Context (bO bW bE : ProgramBuilder) (HwfO : wf_builder bO).
Context (Hprot : forall left skip, pre (kept_prot none (counters left skip)) bO).
Notation lend := (zlen (label_addr bO)).
Definition bR : ProgramBuilder := push_jump (Instruction_new Opcode.Rewind 0 0 0) lend (push_label bO).
Notation lnext := (zlen (label_addr bR)).
Definition bN : ProgramBuilder := push_label bR.
Hypothesis HbW : where_jump ctx select lnext bN = (Ok tt, bW).
Notation res := (next_reg bW).
Definition bA : ProgramBuilder := set_next_reg (res + Z.max ncol 0) bW.
Hypothesis HbE : compile_args (compile_expr ctx) (output_exprs outputs) res bA = (Ok tt, bE).
Definition bF : ProgramBuilder :=
  match oreg with Some r => push_jump (Instruction_new Opcode.IfPos r 0 1) lnext bE | None => bE end.
Definition bS : ProgramBuilder := push (Instruction_new Opcode.ResultRow res ncol 0) bF.
Definition bL : ProgramBuilder :=
  match lreg with Some r => push_jump (Instruction_new Opcode.DecrJumpZero r 0 0) lend bS | None => bS end.
Definition bX : ProgramBuilder := push (Instruction_new Opcode.Next 0 (zlen (insts bR)) 0) (bind_label lnext bL).
Definition bH : ProgramBuilder := push (Instruction_new Opcode.Halt 0 0 0) (bind_label lend bX).
Hypothesis HbH : extends bH fb.

(** *** What grows into what *)

Lemma grows_R : grows (push_label bO) bR.
Proof. apply (grows_push_jump _ lend). apply HwfO. Qed.
Lemma grows_NW : grows bN bW.
Proof.
  unfold where_jump, when_some in HbW. assert (wf_builder bN) as Hw by apply grows_R.
  destruct (s_where_clause select) as [w|]; [|injection HbW as <-; by apply grows_refl].
  eapply growing_grows; [|exact HbW|done]. by eapply growing_jump.
Qed.
Lemma grows_WA : grows bW bA.
Proof. apply grows_set_next_reg; [apply grows_NW|lia]. Qed.
Lemma grows_AE : grows bA bE.
Proof.
  eapply growing_grows; [|exact HbE|apply grows_WA]. apply growing_args. eapply Forall_impl; [exact Houts|].
  cbn beta. intros e He t. by eapply growing_expr.
Qed.
Lemma grows_EF : grows bE bF.
Proof.
  destruct grows_AE as (_ & Hw & _). clear - Hw. unfold bF. destruct oreg as [r|]; [by apply (grows_push_jump _ lnext)|by apply grows_refl].
Qed.
Lemma grows_FS : grows bF bS.
Proof. apply grows_push, grows_EF. Qed.
Lemma grows_SL : grows bS bL.
Proof.
  destruct grows_FS as (_ & Hw & _). clear - Hw. unfold bL. destruct lreg as [r|]; [by apply (grows_push_jump _ lend)|by apply grows_refl].
Qed.
Lemma grows_EL : grows bE bL.
Proof. eapply grows_trans; [apply grows_EF|]. eapply grows_trans; [apply grows_FS|apply grows_SL]. Qed.
Lemma grows_WL : grows bW bL.
Proof. eapply grows_trans; [apply grows_WA|]. eapply grows_trans; [apply grows_AE|apply grows_EL]. Qed.
Lemma grows_NL : grows (push_label bR) bL.
Proof. eapply grows_trans; [apply grows_NW|apply grows_WL]. Qed.
Lemma grows_X : grows (push_label bO) bX.
Proof.
  eapply grows_trans; [apply grows_R|]. eapply grows_trans; [apply grows_bind_label, grows_NL; apply grows_R|].
  apply grows_push. apply (grows_bind_label bR bL); [apply grows_R|apply grows_NL].
Qed.
Lemma grows_H : grows bO bH.
Proof.
  pose proof (grows_bind_label _ _ HwfO grows_X) as G. eapply grows_trans; [exact G|]. apply grows_push, G.
Qed.
Lemma ext_end : extends (bind_label lend bX) fb.
Proof. etrans; [apply extends_push|exact HbH]. Qed.
Lemma ext_X : extends bX fb.
Proof. etrans; [apply extends_bind_label, fresh_label_unbound, grows_X|exact ext_end]. Qed.
Lemma ext_next : extends (bind_label lnext bL) fb.
Proof. etrans; [apply extends_push|exact ext_X]. Qed.
Lemma ext_L : extends bL fb.
Proof. etrans; [apply extends_bind_label, fresh_label_unbound, grows_NL|exact ext_next]. Qed.
Lemma ext_E : extends bE fb.
Proof. etrans; [apply grows_EL|exact ext_L]. Qed.
Lemma ext_W : extends bW fb.
Proof. etrans; [apply grows_WL|exact ext_L]. Qed.
Lemma ext_S : extends bS fb.
Proof. etrans; [apply grows_SL|exact ext_L]. Qed.
Lemma ext_F : extends bF fb.
Proof. etrans; [apply grows_FS|exact ext_S]. Qed.
Lemma ext_R : extends bR fb.
Proof. etrans; [apply extends_push_label|]. etrans; [apply grows_NL|exact ext_L]. Qed.

(** *** Where the program is *)

Notation top_pc := (zlen (insts bR)).
Notation next_pc := (zlen (insts bL)).
Notation halt_pc := (zlen (insts bX)).
Lemma regs_fit b v : ready P enc v -> extends b fb -> next_reg b <= zlen (v_regs v).
Proof.
  intros Hr Hex. rewrite (rdy_regs _ _ _ Hr). pose proof (ex_regs _ _ Hex). unfold finish in Hfinish.
  apply bind_ok in Hfinish as (l & _ & [= <-]). cbn. lia.
Qed.
Lemma small b : extends b fb -> u64 (zlen (insts b)) = zlen (insts b).
Proof. intros Hex%extends_len. pose proof (zlen_nonneg (insts b)). apply Z.mod_small. lia. Qed.
Lemma at_next pc : label_pc fb lnext pc -> pc = next_pc.
Proof. apply (label_here fb Hsize bR bL); [apply grows_NL|apply ext_next]. Qed.
Lemma at_end pc : label_pc fb lend pc -> pc = halt_pc.
Proof. apply (label_here fb Hsize bO bX); [apply grows_X|apply ext_end]. Qed.

Definition holds_counters (left : option Z) (skip : Z) (v : Vdbe) : Prop :=
  forall r x, counters left skip !! r = Some x -> zget (v_regs v) r = Some x.
(** The machine is at [pc] with the cursor before [rows]; [k] bounds the pages
    it still visits. *)
Definition scanning (k : nat) (pc : Z) (rows : list row) (left : option Z) (skip : Z) (s : vst) : Prop :=
  let '(v, st) := s in
  ready P enc v /\ v_pc v = pc /\ view im st /\ holds_counters left skip v /\
  exists c n, cursor_at v 0 = Some (C_Table c) /\ stands im us D c rows n /\ (n <= k)%nat.
(** It is about to look at the next row, or at the end. *)
Definition at_top (k : nat) (rows : list row) (left : option Z) (skip : Z) (s : vst) : Prop :=
  scanning k (match rows with [] => halt_pc | _ => top_pc end) rows left skip s /\ v_decoded (fst s) = None.

Lemma exec_at b i v st : wf_builder b -> extends (push i b) fb -> ready P enc v -> v_pc v = zlen (insts b) ->
  exec_one drain bfuel (v, st) = exec_inst drain bfuel (v_pc v) i (v, st).
Proof. intros Hw Hex Hr Hpc. apply exec_one_at. by eapply (fetch fb P Hfinish); [..|apply Hr|]. Qed.
Lemma exec_jump_at b i l v st : wf_builder b -> extends (push_jump i l b) fb -> ready P enc v -> v_pc v = zlen (insts b) ->
  exists a, label_pc fb l (u64 a) /\ exec_one drain bfuel (v, st) = exec_inst drain bfuel (v_pc v) (with_p2 a i) (v, st).
Proof.
  intros Hw Hex Hr Hpc. destruct (linked_push_jump fb P Hfinish i l b Hw Hex) as (a & Ha & Hi). exists a. split; [by exists a|].
  apply exec_one_at. unfold inst_of in Hi. by rewrite (rdy_program _ _ _ Hr), Hpc.
Qed.

(** [Next] *)
Lemma advance_row k r rows left skip s : (D + k < bfuel)%nat -> scanning k next_pc (r :: rows) left skip s ->
  exists s', vstep drain bfuel s s' /\ at_top k rows left skip s'.
Proof.
  destruct s as [v st]. intros Hf (Hr & Hpc & V & Hk & c & n & Hc & Hs & Hn).
  set (b := bind_label lnext bL). assert (wf_builder b) as Hw by (apply (grows_bind_label bR bL); [apply grows_R|apply grows_NL]).
  destruct (next_inst 0 (zlen (insts bR)) v st c r rows n Hc V Hs ltac:(lia)) as ([v' st'] & Hx & Hfr & Hregs & Hd & Hpc' & V' & c' & n' & Hc' & Hs' & Hn').
  exists (v', st'). split.
  - unfold vstep. rewrite (exec_at b (Instruction_new Opcode.Next 0 (zlen (insts bR)) 0) v st Hw ext_X Hr Hpc). exact Hx.
  - split; [|done]. split_and!; [by eapply ready_frame| |done| |].
    + rewrite Hpc'. destruct rows; [|by rewrite small by apply ext_R]. rewrite Hpc. unfold bX. by rewrite zlen_push.
    + intros x y Hxy. rewrite Hregs. by apply Hk.
    + exists c', n'. split_and!; [done..|lia].
Qed.

(** *** One row *)

Section Row.
Context (k : nat) (r : row) (rows : list row) (vals : list Value) (left : option Z) (skip : Z).
Context (Hdecode : decode_record (snd r) enc = Ok vals).
Context (c : TableCursor) (n : nat) (Hs : stands im us D c (r :: rows) n) (Hn : (n <= k)%nat).
Notation col := (cursor_col ctx (fst r) vals).
Notation regs := (counters left skip).
Definition on_row : vst -> Prop := kept_row (cursor_row ctx c (fst r) vals enc (view im)) regs.
Definition row_prot : Z -> Prop := kept_prot none regs.

Lemma row_facts st : view im st -> is_null_row c = false /\ rowid c = Ok (fst r) /\
  exists st', payload (c, st) = (Ok (snd r), (c, st')) /\ view im st'.
Proof.
  intros V. pose proof Hs as (_ & Hnull & _). destruct (payload_run im D c st r rows n V Hs) as [Hrid Hp]. split; [done|]. split; [done|].
  destruct (run_sure _ _ _ _ Hp) as (b & [c' st'] & Hx & -> & -> & V'); [by intros [? ?] []|]. by exists st'.
Qed.
Lemma row_quiet_ : RowQuiet on_row row_prot.
Proof. apply kept_quiet, cursor_quiet. Qed.
Lemma row_access st : view im st -> RowAccess drain bfuel fb P ctx on_row row_prot none col no_aggs.
Proof.
  intros V. destruct (row_facts st V) as (Hnull & Hrid & _). apply kept_access.
  apply (cursor_access drain bfuel fb P Hfinish ctx Hctx c (fst r) (snd r) vals enc (view im)); try done.
  intros st1 V1. by destruct (row_facts st1 V1) as (_ & _ & ?).
Qed.
Lemma row_pre b : grows bO b -> pre row_prot b.
Proof. intros HG. apply (grows_pre _ _ _ HG). apply Hprot. Qed.
Lemma grows_ON : grows bO bN.
Proof.
  eapply grows_trans; [apply grows_push_label, HwfO|]. eapply grows_trans; [apply grows_R|]. apply grows_push_label, grows_R.
Qed.
Lemma grows_OW : grows bO bW.
Proof. eapply grows_trans; [apply grows_ON|apply grows_NW]. Qed.
Lemma grows_OA : grows bO bA.
Proof. eapply grows_trans; [apply grows_OW|apply grows_WA]. Qed.

Lemma where_code pass st : view im st -> passes select ctx (fst r, vals) = Ok pass ->
  jump_code drain bfuel fb P on_row (fun _ => True) bN bW lnext (negb pass) (fun _ => True).
Proof.
  intros V Hp. pose proof row_quiet_ as RQ. pose proof (row_access st V) as RA. unfold passes in Hp. unfold where_jump, when_some in HbW.
  destruct (s_where_clause select) as [w|].
  - apply bind_ok in Hp as (x & Hx & [= <-]). rewrite negb_involutive.
    apply (condition_jump drain bfuel fb P Hfinish Hsize ctx on_row row_prot none col no_aggs w Hwhere lnext false true bN bW x HbW); [|done].
    apply row_pre, grows_ON.
  - injection Hp as <-. injection HbW as <-. split; [apply grows_refl, grows_ON|]. intros _ v st' (HP & Hpc & _ & Hrow) _.
    exists (v, st'). split; [apply rtc_refl|]. split; [|done]. unfold lands. split_and!; [apply frame_refl|by intros|done|done].
Qed.
Lemma outputs_code st : view im st ->
  code drain bfuel fb P on_row (fun _ => True) bA bE (fun x => res <= x < res + ncol) (project ctx outputs (fst r, vals))
    (fun xs s => zlen xs = ncol /\ holds_args res xs s).
Proof.
  intros V. pose proof row_quiet_ as RQ. pose proof (row_access st V) as RA.
  assert (forall es, Forall (supported none) es -> Spec_args drain bfuel fb P ctx on_row row_prot col no_aggs es) as HS.
  { induction 1 as [|e es He _ IH]; [apply args_nil|]. apply args_cons; [|done]. by eapply (supported_spec drain bfuel fb P Hfinish Hsize). }
  assert (zlen (output_exprs outputs) = ncol) as Hlen by (unfold output_exprs, zlen; by rewrite length_fmap).
  unfold project. rewrite <- Hlen. pose proof (row_pre bW grows_OW) as HpW.
  apply (HS _ Houts res bA bE HbE); [apply row_pre, grows_OA| |by destruct HpW as (_ & ? & _)]. rewrite Hlen. intros x Hx.
  apply (free_fresh row_prot bW); [exact HpW|lia].
Qed.

Lemma row_starts v st : ready P enc v -> view im st -> holds_counters left skip v -> cursor_at v 0 = Some (C_Table c) ->
  v_decoded v = None -> on_row (v, st).
Proof. intros Hr V Hk Hc Hd. split; [|exact Hk]. split_and!; [done|apply Hr|done|]. cbn. by rewrite Hd. Qed.
Lemma row_scans v v' st' pc : ready P enc v -> frame v v' -> on_row (v', st') -> v_pc v' = pc ->
  scanning k pc (r :: rows) left skip (v', st').
Proof.
  intros Hr Hf [(Hc & _ & V & _) Hk] Hpc. split_and!; [by eapply ready_frame|done..|]. by exists c, n.
Qed.
(** To the end of WHERE; *)
Lemma row_tested v st pass : ready P enc v -> v_pc v = top_pc -> view im st -> on_row (v, st) ->
  passes select ctx (fst r, vals) = Ok pass ->
  exists s', rtc (vstep drain bfuel) (v, st) s' /\ lands fb on_row bN bW lnext (negb pass) v s'.
Proof.
  intros Hr Hpc V Hrow Hp. destruct (where_code pass st V Hp) as [_ C].
  destruct (C ext_W v st) as (s' & Hs' & HL & _); [|exact I|by exists s'].
  split_and!; [apply Hr|done|by apply regs_fit, ext_W|done].
Qed.
(** and of the projection. *)
Lemma row_projected v st xs : ready P enc v -> v_pc v = zlen (insts bW) -> view im st -> on_row (v, st) ->
  project ctx outputs (fst r, vals) = Ok xs ->
  exists s', rtc (vstep drain bfuel) (v, st) s' /\ frame v (fst s') /\ v_pc (fst s') = zlen (insts bE) /\ on_row s' /\
    zlen xs = ncol /\ holds_args res xs s'.
Proof.
  intros Hr Hpc V Hrow Hp. destruct (outputs_code st V) as [_ C]. rewrite Hp in C.
  destruct (C ext_E v st) as (s' & Hs' & (Hf & Hpc' & _ & Hrow') & Hl & Ha); [|exact I|by exists s'].
  split_and!; [apply Hr|done|by apply regs_fit, ext_E|done].
Qed.
End Row.

Lemma row_rejected k r rows vals left skip s : at_top k (r :: rows) left skip s -> decode_record (snd r) enc = Ok vals ->
  passes select ctx (fst r, vals) = Ok false ->
  exists s', rtc (vstep drain bfuel) s s' /\ scanning k next_pc (r :: rows) left skip s'.
Proof.
  destruct s as [v st]. intros ((Hr & Hpc & V & Hk & c & n & Hc & Hs & Hn) & Hd) Hdec Hp. cbn [fst] in Hd.
  destruct (row_tested r rows vals left skip Hdec c n Hs v st false Hr Hpc V) as ([v' st'] & Hs' & Hf & _ & Hrow & Hpc');
    [by apply row_starts|done|]. exists (v', st'). split; [done|].
  eapply (row_scans k r rows vals left skip c n Hs Hn); [exact Hr|done..|]. by apply at_next.
Qed.
Lemma row_accepted k r rows vals left skip xs s : at_top k (r :: rows) left skip s -> decode_record (snd r) enc = Ok vals ->
  passes select ctx (fst r, vals) = Ok true -> project ctx outputs (fst r, vals) = Ok xs ->
  exists s', rtc (vstep drain bfuel) s s' /\ scanning k (zlen (insts bE)) (r :: rows) left skip s' /\
    zlen xs = ncol /\ holds_args res xs s'.
Proof.
  destruct s as [v st]. intros ((Hr & Hpc & V & Hk & c & n & Hc & Hs & Hn) & Hd) Hdec Hp Hx. cbn [fst] in Hd.
  destruct (row_tested r rows vals left skip Hdec c n Hs v st true Hr Hpc V) as ([v1 st1] & Hs1 & Hf1 & _ & Hrow1 & Hpc1);
    [by apply row_starts|done|]. cbn [fst negb] in *.
  assert (view im st1) as V1 by apply Hrow1.
  destruct (row_projected k r rows vals left skip Hdec c n Hs Hn v1 st1 xs (ready_frame _ _ _ _ Hr Hf1) Hpc1 V1 Hrow1 Hx)
    as ([v2 st2] & Hs2 & Hf2 & Hpc2 & Hrow2 & Hl & Ha). exists (v2, st2). split; [by etrans|].
  split; [|done]. eapply (row_scans k r rows vals left skip c n Hs Hn); [exact Hr|by eapply frame_trans|done..].
Qed.

(** *** The counters *)

Hypothesis Hres : 0 <= res /\ res + ncol < 2 ^ 31.
Definition counted (left : option Z) (skip : Z) : Prop :=
  match lreg, left with Some _, Some l => 0 < l < 2 ^ 63 | None, None => True | _, _ => False end /\
  match oreg with Some _ => 0 <= skip < 2 ^ 63 | None => skip = 0 end.
Lemma counters_step left left' skip skip' r x pc v : holds_counters left skip v -> 0 <= r < zlen (v_regs v) ->
  (forall i y, counters left' skip' !! i = Some y -> (i = r /\ y = x) \/ (i <> r /\ counters left skip !! i = Some y)) ->
  holds_counters left' skip' (wrote r x pc v).
Proof.
  intros Hk Hr Hc i y Hy. destruct (Hc i y Hy) as [[-> ->]|[Hne Hy']]; [by apply wrote_at|].
  destruct (wrote_other r x pc v i ltac:(lia) Hne) as [-> _]. by apply Hk.
Qed.
Lemma scanning_wrote k pc pc' rows left left' skip skip' r x v st : scanning k pc rows left skip (v, st) ->
  holds_counters left' skip' (wrote r x pc' v) -> scanning k pc' rows left' skip' (wrote r x pc' v, st).
Proof.
  intros (Hr & _ & V & _ & Hc) Hk. split_and!; [|done..]. eapply ready_frame; [exact Hr|]. apply quiet_frame, wrote_quiet.
Qed.

Lemma offset_skips k rows left skip s : scanning k (zlen (insts bE)) rows left skip s -> counted left skip -> 0 < skip ->
  exists s', vstep drain bfuel s s' /\ scanning k next_pc rows left (skip - 1) s'.
Proof.
  destruct s as [v st]. intros Hsc [_ Hcnt] Hpos. pose proof Hsc as (Hr & Hpc & V & Hk & _).
  destruct (some_or_none oreg) as [Ho|[o Ho]]; rewrite Ho in Hcnt; [lia|].
  pose proof ext_F as HeF. unfold bF in HeF. rewrite Ho in HeF.
  assert (zget (v_regs v) o = Some (Int skip)) as Hreg by (apply Hk, counters_lookup; by right).
  destruct (exec_jump_at bE _ lnext v st ltac:(apply grows_AE) HeF Hr Hpc) as (a & Ha & Hx).
  change (with_p2 a (Instruction_new Opcode.IfPos o 0 1)) with (Instruction_new Opcode.IfPos o a 1) in Hx.
  rewrite (ifpos_inst o a skip v st Hreg) in Hx by lia. destruct (Z.gtb_spec skip 0); [|lia]. rewrite (at_next _ Ha) in Hx.
  eexists. split; [exact Hx|]. eapply scanning_wrote; [exact Hsc|]. eapply counters_step; [exact Hk|by apply zget_range in Hreg|].
  intros i y [[Hl ->]|[Hoi ->]]%counters_lookup.
  - right. split; [intros ->; by apply (Hdiff o)|]. apply counters_lookup. by left.
  - left. split; [congruence|done].
Qed.
Lemma offset_passes k rows left s : scanning k (zlen (insts bE)) rows left 0 s -> counted left 0 ->
  exists s', rtc (vstep drain bfuel) s s' /\ scanning k (zlen (insts bF)) rows left 0 s' /\ v_regs (fst s') = v_regs (fst s).
Proof.
  destruct s as [v st]. intros Hsc [_ Hcnt]. pose proof Hsc as (Hr & Hpc & V & Hk & Hc).
  pose proof ext_F as HeF. unfold bF in HeF |- *.
  destruct (some_or_none oreg) as [Ho|[o Ho]]; rewrite Ho in HeF |- *; [exists (v, st); split; [apply rtc_refl|done]|].
  assert (zget (v_regs v) o = Some (Int 0)) as Hreg by (apply Hk, counters_lookup; by right).
  destruct (exec_jump_at bE _ lnext v st ltac:(apply grows_AE) HeF Hr Hpc) as (a & Ha & Hx).
  change (with_p2 a (Instruction_new Opcode.IfPos o 0 1)) with (Instruction_new Opcode.IfPos o a 1) in Hx.
  rewrite (ifpos_inst o a 0 v st Hreg) in Hx by lia. cbn [Z.gtb Z.compare] in Hx.
  eexists. split; [apply rtc_once; exact Hx|]. split; [|done]. split_and!; try done.
  - eapply ready_frame; [exact Hr|]. exists (v_pc v + 1), (v_regs v), (v_cursors v), (v_decoded v), (v_aggregates v).
    split; [done|by destruct v].
  - rewrite zlen_push_jump. cbn. lia.
Qed.
(** The row is shown. *)
Lemma row_shown k rows left skip xs s : scanning k (zlen (insts bF)) rows left skip s -> zlen xs = ncol -> holds_args res xs s ->
  exists s', exec_one drain bfuel s = (Ok (Some SR_Row), s') /\ scanning k (zlen (insts bS)) rows left skip s' /\
    result_row (fst s') = xs.
Proof.
  destruct s as [v st]. intros (Hr & Hpc & V & Hk & Hc) Hl Ha. pose proof (zlen_nonneg xs).
  set (s' := (v_set_pc (v_pc v + 1) (v_set_result (u64 res) (u64 ncol) v), st)). exists s'. split; [|split].
  - rewrite (exec_at bF (Instruction_new Opcode.ResultRow res ncol 0) v st ltac:(apply grows_EF) ext_S Hr Hpc). apply result_inst.
  - split_and!; try done; [by apply ready_result|]. cbn. rewrite zlen_app. change (zlen [_]) with 1. lia.
  - unfold result_row, result_value. cbn [fst s' v_set_pc v_set_result v_result_count v_result_start v_regs].
    assert (u64 res = res) as -> by (apply Z.mod_small; lia). assert (u64 ncol = zlen xs) as -> by (rewrite Hl; apply Z.mod_small; lia).
    unfold zlen. rewrite Nat2Z.id. apply list_eq. intros j. rewrite list_lookup_fmap.
    destruct (xs !! j) as [x|] eqn:Hx.
    + rewrite lookup_seq_lt by (by eapply lookup_lt_Some). cbn. f_equal. specialize (Ha j x Hx). unfold holds_reg in Ha. cbn [fst] in Ha. by rewrite Ha.
    + rewrite lookup_seq_ge; [done|]. by apply lookup_ge_None.
Qed.
Lemma limit_goes_on k rows left skip s : scanning k (zlen (insts bS)) rows left skip s -> counted left skip -> left <> Some 1 ->
  exists s', rtc (vstep drain bfuel) s s' /\ scanning k next_pc rows (Z.pred <$> left) skip s'.
Proof.
  destruct s as [v st]. intros Hsc [Hcnt _] Hne. pose proof Hsc as (Hr & Hpc & V & Hk & Hc).
  pose proof ext_L as HeL. unfold bL in HeL |- *.
  destruct (some_or_none lreg) as [Hlr|[l Hlr]]; rewrite Hlr in Hcnt, HeL |- *; destruct left as [n|]; try done.
  { exists (v, st). split; [apply rtc_refl|done]. }
  assert (zget (v_regs v) l = Some (Int n)) as Hreg by (apply Hk, counters_lookup; by left).
  destruct (exec_jump_at bS _ lend v st ltac:(apply grows_FS) HeL Hr Hpc) as (a & Ha & Hx).
  change (with_p2 a (Instruction_new Opcode.DecrJumpZero l 0 0)) with (Instruction_new Opcode.DecrJumpZero l a 0) in Hx.
  rewrite (decr_inst l a n v st Hreg) in Hx by lia. destruct (Z.eqb_spec n 1) as [->|]; [done|].
  eexists. split; [apply rtc_once; exact Hx|].
  rewrite zlen_push_jump, <- Hpc.
  eapply scanning_wrote; [exact Hsc|]. eapply counters_step; [exact Hk|by apply zget_range in Hreg|].
  intros i y [[Hl ->]|[Hoi ->]]%counters_lookup.
  - left. split; [congruence|done].
  - right. split; [intros ->; by apply (Hdiff l)|]. apply counters_lookup. by right.
Qed.
Lemma limit_reached k rows skip s : scanning k (zlen (insts bS)) rows (Some 1) skip s -> counted (Some 1) skip ->
  exists v' st', vstep drain bfuel s (v', st') /\ ready P enc v' /\ v_pc v' = halt_pc /\ view im st'.
Proof.
  destruct s as [v st]. intros Hsc [Hcnt _]. pose proof Hsc as (Hr & Hpc & V & Hk & Hc).
  pose proof ext_L as HeL. unfold bL in HeL. destruct (some_or_none lreg) as [Hlr|[l Hlr]]; rewrite Hlr in Hcnt, HeL; [done|].
  assert (zget (v_regs v) l = Some (Int 1)) as Hreg by (apply Hk, counters_lookup; by left).
  destruct (exec_jump_at bS _ lend v st ltac:(apply grows_FS) HeL Hr Hpc) as (a & Ha & Hx).
  change (with_p2 a (Instruction_new Opcode.DecrJumpZero l 0 0)) with (Instruction_new Opcode.DecrJumpZero l a 0) in Hx.
  rewrite (decr_inst l a 1 v st Hreg) in Hx by lia. cbn [Z.eqb Pos.eqb] in Hx. rewrite (at_end _ Ha) in Hx.
  eexists _, _. split; [exact Hx|]. split_and!; [|done..]. eapply ready_frame; [exact Hr|]. apply quiet_frame, wrote_quiet.
Qed.
Lemma halted v st : ready P enc v -> v_pc v = halt_pc -> view im st ->
  exists s' n, delivers drain bfuel n (v, st) [] s' /\ view im (snd s').
Proof.
  intros Hr Hpc V. pose proof (exec_at (bind_label lend bX) (Instruction_new Opcode.Halt 0 0 0) v st
    ltac:(apply (grows_bind_label bO bX HwfO grows_X)) HbH Hr Hpc) as Hx. rewrite (halt_inst P enc v st Hr) in Hx.
  destruct (delivers_end drain bfuel (v, st) (v, st) _ (rdy_running _ _ _ Hr) (rtc_refl _ _) Hx) as [m Hm]. by eexists _, m.
Qed.

(** *** The loop shows the window of the answer *)

Definition row_decodes (r : row) (x : Z * list Value) : Prop := fst r = fst x /\ decode_record (snd r) enc = Ok (snd x).
Lemma window_nil {A} left skip : window left skip ([] : list A) = [].
Proof. unfold window, ztake, zdrop. destruct left; by rewrite drop_nil, ?take_nil. Qed.
Lemma window_skip {A} left skip (x : A) l : 0 < skip -> window left skip (x :: l) = window left (skip - 1) l.
Proof.
  intros. unfold window, zdrop. replace (Z.to_nat skip) with (S (Z.to_nat (skip - 1))) by lia. by destruct left.
Qed.
Lemma window_show {A} left (x : A) l : left <> Some 1 -> from_option (fun n => 0 < n) True left ->
  window left 0 (x :: l) = x :: window (Z.pred <$> left) 0 l.
Proof.
  intros Hne Hpos. unfold window, ztake, zdrop. destruct left as [n|]; [|done]. cbn in *.
  by replace (Z.to_nat n) with (S (Z.to_nat (Z.pred n))) by lia.
Qed.
Lemma counted_pos left skip : counted left skip -> from_option (fun n => 0 < n) True left.
Proof. intros [Hl _]. destruct lreg, left; cbn; tauto || lia. Qed.
Lemma counted_skip left skip : counted left skip -> 0 < skip -> counted left (skip - 1).
Proof. intros [Hl Ho] ?. split; [done|]. destruct oreg; lia. Qed.
Lemma counted_show left skip : counted left skip -> left <> Some 1 -> counted (Z.pred <$> left) skip.
Proof.
  intros [Hl Ho] Hne. split; [|done]. destruct lreg, left as [n|]; try done. cbn. assert (n <> 1) by congruence. lia.
Qed.
Lemma scanning_running k pc rows left skip s : scanning k pc rows left skip s -> v_halted (fst s) = false.
Proof. destruct s as [v st]. intros (Hr & _). apply Hr. Qed.

Definition answers (s : vst) (ans : list (list Value)) : Prop :=
  exists s' n, delivers drain bfuel n s ans s' /\ view im (snd s').
Lemma answers_steps s s1 ans : v_halted (fst s) = false -> v_halted (fst s1) = false -> rtc (vstep drain bfuel) s s1 ->
  answers s1 ans -> answers s ans.
Proof.
  intros Hh Hh1 Hs (s' & n & Hd & V). destruct (delivers_steps drain bfuel s s1 ans s' Hh Hh1 Hs) as [m Hm]; [by exists n|].
  by exists s', m.
Qed.
Lemma answers_row s s1 s2 ans : v_halted (fst s) = false -> rtc (vstep drain bfuel) s s1 ->
  exec_one drain bfuel s1 = (Ok (Some SR_Row), s2) -> answers s2 ans -> answers s (result_row (fst s2) :: ans).
Proof.
  intros Hh Hs Hx (s' & n & Hd & V). destruct (delivers_next drain bfuel s s1 s2 ans s' Hh Hs Hx) as [m Hm]; [by exists n|].
  by exists s', m.
Qed.

Lemma scan_loop k : (D + k < bfuel)%nat -> forall rows decoded left skip s ans,
  at_top k rows left skip s -> Forall2 row_decodes rows decoded -> counted left skip ->
  selected select ctx outputs decoded = Ok ans -> answers s (window left skip ans).
Proof.
  intros Hf. induction rows as [|r rows IH]; intros decoded left skip s ans Htop Hdec Hcnt Hans.
  { apply Forall2_nil_inv_l in Hdec as ->. injection Hans as <-. rewrite window_nil. destruct s as [v st].
    destruct Htop as [(Hr & Hpc & V & _) _]. by apply halted. }
  apply Forall2_cons_inv_l in Hdec as ([rid vals] & decoded' & [Hrid Hvals] & Hdec & ->). cbn [fst snd] in *. subst rid.
  cbn [selected] in Hans. apply bind_ok in Hans as (pass & Hpass & Hans). pose proof (scanning_running _ _ _ _ _ _ (proj1 Htop)) as Hh.
  assert (forall s1 left skip ans, scanning k next_pc (r :: rows) left skip s1 -> counted left skip ->
    selected select ctx outputs decoded' = Ok ans -> answers s1 (window left skip ans)) as Hnext.
  { intros s1 l' sk' a Hsc Hc Ha. destruct (advance_row k r rows l' sk' s1 Hf Hsc) as (s2 & Hs2 & Htop2).
    apply (answers_steps s1 s2); [by eapply scanning_running|by eapply scanning_running, Htop2|by apply rtc_once|]. by apply (IH decoded'). }
  destruct pass.
  - apply bind_ok in Hans as (xs & Hxs & Hans). apply bind_ok in Hans as (rest & Hrest & [= <-]).
    destruct (row_accepted k r rows vals left skip xs s Htop Hvals Hpass Hxs) as (s1 & Hs1 & Hsc1 & Hl & Ha).
    destruct (Z_lt_dec 0 skip) as [Hpos|Hzero].
    + destruct (offset_skips k (r :: rows) left skip s1 Hsc1 Hcnt Hpos) as (s2 & Hs2 & Hsc2). rewrite window_skip by done.
      apply (answers_steps s s2); [done|by eapply scanning_running|etrans; [exact Hs1|by apply rtc_once]|].
      apply Hnext; [done|by apply counted_skip|done].
    + assert (skip = 0) as -> by (destruct Hcnt as [_ Ho]; destruct oreg; lia).
      destruct (offset_passes k (r :: rows) left s1 Hsc1 Hcnt) as (s2 & Hs2 & Hsc2 & Hregs).
      destruct (row_shown k (r :: rows) left 0 xs s2 Hsc2 Hl) as (s3 & Hx & Hsc3 & Hrow).
      { intros j x Hj. unfold holds_reg. rewrite Hregs. by apply Ha. }
      assert (forall a, answers s3 a -> answers s (xs :: a)) as Hshow.
      { intros a Ha3. rewrite <- Hrow. apply (answers_row s s2 s3); [done|by etrans|done|done]. }
      destruct (decide (left = Some 1)) as [->|Hne].
      * change (window (Some 1) 0 (xs :: rest)) with [xs]. apply Hshow.
        destruct (limit_reached k (r :: rows) 0 s3 Hsc3 Hcnt) as (v4 & st4 & Hs4 & Hr4 & Hpc4 & V4).
        apply (answers_steps s3 (v4, st4)); [by eapply scanning_running|apply Hr4|by apply rtc_once|by apply halted].
      * rewrite window_show by (done || by eapply counted_pos). apply Hshow.
        destruct (limit_goes_on k (r :: rows) left 0 s3 Hsc3 Hcnt Hne) as (s4 & Hs4 & Hsc4).
        apply (answers_steps s3 s4); [by eapply scanning_running..|done|]. apply Hnext; [done|by apply counted_show|done].
  - destruct (row_rejected k r rows vals left skip s Htop Hvals Hpass) as (s1 & Hs1 & Hsc1).
    apply (answers_steps s s1); [done|by eapply scanning_running|done|]. by apply Hnext.
Qed.
End Loop.

(** ** Before the loop *)

Section Start.
Context (enc : TextEncoding) (fb : ProgramBuilder) (P : Program) (Hfinish : finish fb = Ok P) (Hsize : zlen (insts fb) < 2 ^ 31).
Notation scratch := (push_label ProgramBuilder_new).
Definition bI : ProgramBuilder := push_jump (Instruction_new Opcode.Init 0 0 0) 0 scratch.
Lemma grows_I : grows scratch bI.
Proof. apply (grows_push_jump _ 0). constructor. Qed.
Definition around_code (bB : ProgramBuilder) : ProgramBuilder :=
  push (Instruction_new Opcode.Goto 0 1 0) (push (Instruction_new Opcode.Transaction 0 0 0) (bind_label 0 bB)).
Lemma ready_new rctx : ready P enc (Vdbe_new P true enc rctx).
Proof. split; try done. cbn. unfold nregs, zlen, zrep. rewrite length_replicate. lia. Qed.

(** [Init], the transaction, and back. *)
Lemma boot bB rctx st st' : grows scratch bB -> fb = around_code bB -> begin_read st = (Ok tt, st') ->
  grows bI bB ->
  rtc (vstep drain bfuel) (Vdbe_new P true enc rctx, st) (v_set_pc 1 (Vdbe_new P true enc rctx), st').
Proof.
  intros HG Hfb Hb HI. pose proof (ready_new rctx) as Hr. set (v := Vdbe_new P true enc rctx) in *.
  pose proof (grows_bind_label ProgramBuilder_new bB ltac:(constructor) HG) as Gs. change (zlen (label_addr ProgramBuilder_new)) with 0 in Gs.
  assert (extends (push (Instruction_new Opcode.Transaction 0 0 0) (bind_label 0 bB)) fb) as He2 by (rewrite Hfb; apply extends_push).
  assert (extends (bind_label 0 bB) fb) as He1 by (etrans; [apply extends_push|exact He2]).
  assert (extends bB fb) as He0 by (etrans; [apply extends_bind_label, (fresh_label_unbound ProgramBuilder_new bB HG)|exact He1]).
  assert (extends bI fb) as HeI by (etrans; [apply HI|exact He0]).
  destruct (exec_jump_at enc fb P Hfinish scratch _ 0 v st ltac:(constructor) HeI Hr eq_refl) as (a & Ha & Hx).
  pose proof (label_here fb Hsize ProgramBuilder_new bB _ HG He1 Ha) as Hpc.
  set (v1 := v_set_pc (u64 a) v). assert (ready P enc v1) as Hr1 by (by destruct Hr).
  eapply rtc_l; [exact Hx|]. change (rtc (vstep drain bfuel) (v1, st) (v_set_pc 1 v, st')).
  eapply rtc_l.
  { unfold vstep. rewrite (exec_at enc fb P Hfinish (bind_label 0 bB) _ v1 st ltac:(apply Gs) He2 Hr1 Hpc).
    by apply transaction_inst. }
  set (v2 := v_set_pc (v_pc v1 + 1) v1). assert (ready P enc v2) as Hr2 by (by destruct Hr1).
  apply rtc_once. unfold vstep. rewrite (exec_at enc fb P Hfinish (push (Instruction_new Opcode.Transaction 0 0 0) (bind_label 0 bB)) (Instruction_new Opcode.Goto 0 1 0) v2 st');
    [by rewrite arm_goto|by apply wf_push, Gs|rewrite Hfb; reflexivity|done|].
  rewrite zlen_push. cbn. unfold v2, v1 in *. cbn in *. lia.
Qed.

(** *** Counters *)

Lemma emit_int_inv n b r b' : emit_int n b = (Ok r, b') -> r = next_reg b /\ exists i, b' = push i (set_next_reg (next_reg b + 1) b) /\
  forall v st, 0 <= r < zlen (v_regs v) ->
    exec_inst drain bfuel (v_pc v) i (v, st) = (Ok None, (wrote r (Int n) (v_pc v + 1) v, st)).
Proof.
  unfold emit_int. intros Hx. apply M_bind_inv in Hx as (r0 & b0 & (-> & ->)%alloc_reg_inv & Hx).
  apply M_bind_inv in Hx as ([] & b1 & Hx & [= <- <-]). split; [done|]. destruct (_ && _).
  - rewrite emit_eq_ in Hx. injection Hx as <-. eexists. split; [done|]. intros v st Hr.
    by apply (arm_load drain bfuel Opcode.Integer n (next_reg b) 0 P4_None (Int n)).
  - rewrite emit_p4_eq in Hx. injection Hx as <-. eexists. split; [done|]. intros v st Hr.
    by apply (arm_load drain bfuel Opcode.Int64 0 (next_reg b) 0 (P4_Int n) (Int n)).
Qed.
(** A constant in a fresh register, run. *)
Lemma int_run n b r b' v st : emit_int n b = (Ok r, b') -> wf_builder b -> 0 <= next_reg b -> extends b' fb ->
  ready P enc v -> v_pc v = zlen (insts b) ->
  vstep drain bfuel (v, st) (wrote r (Int n) (zlen (insts b')) v, st) /\ ready P enc (wrote r (Int n) (zlen (insts b')) v) /\
  r = next_reg b /\ next_reg b' = next_reg b + 1 /\ next_reg b' <= zlen (v_regs v).
Proof.
  intros Hx Hw H0' He Hr Hpc. destruct (emit_int_inv n b r b' Hx) as (-> & i & -> & Hi).
  pose proof (regs_fit enc fb P Hfinish _ v Hr He) as Hfit. cbn [next_reg push set_insts set_next_reg] in Hfit.
  split; [|split; [eapply ready_frame; [exact Hr|apply quiet_frame, wrote_quiet]|done]].
  unfold vstep. rewrite (exec_at enc fb P Hfinish (set_next_reg (next_reg b + 1) b) i v st Hw He Hr Hpc), Hi by lia.
  rewrite zlen_push. cbn [insts set_next_reg]. by rewrite Hpc.
Qed.
(** An optional one. *)
Definition emit_opt (o : option Z) : BuildM (option Z) :=
  match o with Some n => r ← emit_int n; mret (Some r) | None => mret None end.
Definition reg_holds (reg o : option Z) (lo hi : Z) (v : Vdbe) : Prop :=
  match reg, o with
  | Some r, Some n => lo <= r < hi /\ zget (v_regs v) r = Some (Int n)
  | None, None => True
  | _, _ => False
  end.
Lemma opt_grows o b r b' : emit_opt o b = (Ok r, b') -> wf_builder b -> grows b b'.
Proof. apply growing_grows. unfold emit_opt, emit_int. growing. Qed.
Lemma opt_run o b r b' v st : emit_opt o b = (Ok r, b') -> wf_builder b -> 0 <= next_reg b -> extends b' fb ->
  ready P enc v -> v_pc v = zlen (insts b) ->
  exists v', rtc (vstep drain bfuel) (v, st) (v', st) /\ ready P enc v' /\ v_pc v' = zlen (insts b') /\ quiet v v' /\
    reg_holds r o (next_reg b) (next_reg b') v' /\ (forall k, 0 <= k < next_reg b -> same_at v v' k).
Proof.
  destruct o as [n|]; cbn [emit_opt]; intros Hx Hw Hn He Hr Hpc.
  - apply M_bind_inv in Hx as (r0 & b1 & Hi & [= <- <-]). destruct (int_run n b r0 b1 v st Hi Hw Hn He Hr Hpc) as (Hs & Hr' & Hreg & Hn' & Hfit).
    exists (wrote r0 (Int n) (zlen (insts b1)) v). split_and!; [by apply rtc_once|done|done|apply wrote_quiet|split; [lia|apply wrote_at; lia]|].
    intros k Hk. apply wrote_other; lia.
  - injection Hx as <- <-. exists v. split_and!; [apply rtc_refl|done|done| |done|by intros].
    exists (v_pc v), (v_regs v), (v_aggregates v). split; [done|by destruct v].
Qed.
Definition positive (limit : option Z) : option Z :=
  match limit with Some n => if n >? 0 then Some n else None | None => None end.
Lemma emit_counters_opt limit offset b : emit_counters limit offset b =
  (l ← emit_opt (positive limit); o ← emit_opt (positive (Some offset)); mret (l, o) : BuildM (option Z * option Z)) b.
Proof.
  unfold emit_counters, positive. destruct limit as [n|]; [destruct (n >? 0)|]; by destruct (offset >? 0).
Qed.
Lemma emit_opt_inv o b r b' : emit_opt o b = (Ok r, b') ->
  r = (fun _ => next_reg b) <$> o /\ next_reg b' = next_reg b + (if o then 1 else 0).
Proof.
  destruct o as [n|]; cbn [emit_opt]; intros Hx; [|injection Hx as <- <-; split; [done|lia]].
  apply M_bind_inv in Hx as (r0 & b1 & Hi & [= <- <-]). by apply emit_int_inv in Hi as (-> & i & -> & _).
Qed.
Lemma positive_some n : is_Some (positive (Some n)) <-> 0 < n.
Proof. unfold positive. cbn. destruct (Z.gtb_spec n 0); split; [lia|by eexists|by intros [? ?]|lia]. Qed.
(** The counters are in different registers. *)
Lemma counters_regs limit offset b lreg oreg b' : emit_counters limit offset b = (Ok (lreg, oreg), b') -> wf_builder b ->
  0 <= next_reg b ->
  grows b b' /\ (forall r, lreg = Some r -> oreg <> Some r) /\ (forall r, lreg = Some r \/ oreg = Some r -> 0 <= r < next_reg b') /\
  (is_Some lreg <-> is_Some (positive limit)) /\ (is_Some oreg <-> 0 < offset).
Proof.
  rewrite emit_counters_opt, <- positive_some. intros Hx Hw Hn.
  apply M_bind_inv in Hx as (l & b1 & Hl & Hx). apply M_bind_inv in Hx as (o & b2 & Ho & [= <- <- <-]).
  pose proof (opt_grows _ _ _ _ Hl Hw) as G1. pose proof (opt_grows _ _ _ _ Ho ltac:(apply G1)) as G2.
  apply emit_opt_inv in Hl as [-> Hl]. apply emit_opt_inv in Ho as [-> Ho]. split; [by eapply grows_trans|].
  rewrite !fmap_is_Some. split; [|split; [|done]].
  - intros r Hr Hr'. destruct (positive limit), (positive (Some offset)); try done. cbn in *. injection Hr as <-. injection Hr' as ?. lia.
  - intros r [Hr|Hr]; destruct (positive limit), (positive (Some offset)); try done; injection Hr as <-; lia.
Qed.
Lemma counters_run limit offset b lreg oreg b' v st : emit_counters limit offset b = (Ok (lreg, oreg), b') -> wf_builder b ->
  0 <= next_reg b -> extends b' fb -> ready P enc v -> v_pc v = zlen (insts b) ->
  exists v', rtc (vstep drain bfuel) (v, st) (v', st) /\ ready P enc v' /\ v_pc v' = zlen (insts b') /\ quiet v v' /\
    holds_counters lreg oreg (positive limit) offset v'.
Proof.
  intros Hx Hw Hn He Hr Hpc. destruct (counters_regs _ _ _ _ _ _ Hx Hw Hn) as (_ & Hdiff & _). rewrite emit_counters_opt in Hx.
  apply M_bind_inv in Hx as (l & b1 & Hl & Hx). apply M_bind_inv in Hx as (o & b2 & Ho & [= <- <- <-]).
  pose proof (opt_grows _ _ _ _ Hl Hw) as G1. pose proof (opt_grows _ _ _ _ Ho ltac:(apply G1)) as G2.
  pose proof (grows_regs _ _ G1).
  destruct (opt_run _ _ _ _ v st Hl Hw Hn ltac:(etrans; [apply G2|exact He]) Hr Hpc) as (v1 & Hs1 & Hr1 & Hpc1 & Hq1 & Hh1 & _).
  destruct (opt_run _ _ _ _ v1 st Ho ltac:(apply G1) ltac:(lia) He Hr1 Hpc1) as (v2 & Hs2 & Hr2 & Hpc2 & Hq2 & Hh2 & Hk2).
  exists v2. split_and!; [by etrans|done|done|by eapply quiet_trans|].
  intros r x [[-> ->]|[-> ->]]%(counters_lookup l o Hdiff).
  - destruct (positive limit) as [n|]; [|done]. destruct Hh1 as [Hlt Hh1]. destruct (Hk2 r ltac:(lia)) as [-> _]. exact Hh1.
  - unfold positive in Hh2. cbn in Hh2. destruct (offset >? 0); [|done]. apply Hh2.
Qed.
End Start.

(** *** The code of a scan *)

Lemma grows_set_next_cursor c b : wf_builder b -> grows b (set_next_cursor c b).
Proof.
  intros Hw. split_and!; [|done|by intros l]. split; try done; [exists []|exists []; split; [|constructor]]; by rewrite app_nil_r.
Qed.
Lemma open_inv t b b' : t_without_rowid t = false -> open_read 0 t b = (Ok tt, b') -> wf_builder b ->
  exists b1, grows b b1 /\ insts b1 = insts b /\ next_reg b1 = next_reg b /\
    b' = push (mkInstruction Opcode.OpenRead 0 (i32 (t_rootpage t)) 0 (P4_Int (zlen (t_columns t))) 0) b1.
Proof.
  intros Hr Hx Hw. unfold open_read in Hx. rewrite Hr in Hx. rewrite (M_bind_ok _ _ _ _ _ (emit_eq _ _ _ _ b)) in Hx.
  set (i := Instruction_new Opcode.OpenRead 0 (i32 (t_rootpage t)) 0) in *.
  set (b1 := if 1 >? next_cursor b then set_next_cursor 1 b else b).
  assert (note_cursor 0 (push i b) = (Ok tt, push i b1)) as Hn.
  { unfold b1. change (next_cursor b) with (next_cursor (push i b)). unfold note_cursor.
    rewrite (M_bind_ok (lift (chk_i32 (0 + 1))) _ (push i b) 1 (push i b) eq_refl). unfold modify. by destruct (1 >? next_cursor (push i b)). }
  rewrite (M_bind_ok _ _ _ _ _ Hn) in Hx. assert (zlen (insts b) = zlen (insts b1)) as Hl by (unfold b1; by destruct (1 >? next_cursor b)).
  rewrite Hl in Hx. unfold set_p4 in Hx. rewrite patch_last in Hx. injection Hx as <-. exists b1. unfold b1.
  split_and!; [|by destruct (1 >? next_cursor b)..|done].
  destruct (1 >? next_cursor b); [by apply grows_set_next_cursor|by apply grows_refl].
Qed.
Lemma offset_gate_eq oreg l b : offset_gate oreg l b =
  (Ok tt, match oreg with Some r => push_jump (Instruction_new Opcode.IfPos r 0 1) l b | None => b end).
Proof. by destruct oreg. Qed.
Lemma limit_gate_eq lreg l b : limit_gate lreg l b =
  (Ok tt, match lreg with Some r => push_jump (Instruction_new Opcode.DecrJumpZero r 0 0) l b | None => b end).
Proof. by destruct lreg. Qed.
Lemma unordered_inv select table outputs resolver lreg oreg bO bB :
  let ctx := scan_ctx table resolver None in
  s_distinct select = false -> single_table ctx -> from_option (condition ctx (fun _ => False)) True (s_where_clause select) ->
  Forall (supported (fun _ => False)) (output_exprs outputs) -> wf_builder bO -> zlen (insts bB) < 2 ^ 31 ->
  compile_scan_unordered select ctx outputs (zlen outputs) lreg oreg bO = (Ok tt, bB) ->
  exists bW bE, where_jump ctx select (zlen (label_addr (bR bO))) (bN bO) = (Ok tt, bW) /\
    compile_args (compile_expr ctx) (output_exprs outputs) (next_reg bW) (bA outputs bW) = (Ok tt, bE) /\
    next_reg bW + zlen outputs < 2 ^ 31 /\ bB = bH outputs lreg oreg bO bW bE.
Proof.
  intros ctx Hd Hctx Hw Ho Hwf Hsize Hx. unfold compile_scan_unordered, open_distinct in Hx. rewrite Hd in Hx.
  apply M_bind_inv in Hx as ([] & b0 & [= <-] & Hx). rewrite (M_bind_ok _ _ _ _ _ (new_label_eq bO)) in Hx.
  apply M_bind_inv in Hx as ([] & b1 & [= <-] & Hx).
  change (set_fixups _ _) with (bR bO) in Hx.
  rewrite (M_bind_ok cur_addr _ (bR bO) (cur_addr_of (bR bO)) (bR bO) eq_refl) in Hx.
  rewrite (M_bind_ok _ _ _ _ _ (new_label_eq (bR bO))) in Hx. apply M_bind_inv in Hx as ([] & bW & HW & Hx).
  apply M_bind_inv in Hx as (res & bA' & Hal & Hx). assert (next_reg bW + Z.max (zlen outputs) 0 < 2 ^ 31) as Hres.
  { unfold alloc_regs in Hal. rewrite (M_bind_ok get _ bW bW bW eq_refl) in Hal. apply M_bind_inv in Hal as (m & b2 & Hm & _).
    unfold lift, chk_i32 in Hm. destruct (Z.leb_spec (- 2 ^ 31) (next_reg bW + Z.max (zlen outputs) 0)); [|done].
    destruct (Z.ltb_spec (next_reg bW + Z.max (zlen outputs) 0) (2 ^ 31)); [done|done]. }
  apply alloc_regs_inv in Hal as [-> ->]. apply M_bind_inv in Hx as ([] & bE & HE & Hx).
  unfold distinct_gate in Hx. apply M_bind_inv in Hx as ([] & b3 & [= <-] & Hx).
  rewrite (M_bind_ok _ _ _ _ _ (offset_gate_eq _ _ _)) in Hx. apply M_bind_inv in Hx as ([] & b4 & H4 & Hx). rewrite emit_eq_ in H4. injection H4 as <-.
  rewrite (M_bind_ok _ _ _ _ _ (limit_gate_eq _ _ _)) in Hx. apply M_bind_inv in Hx as ([] & b5 & [_ ->]%resolve_inv & Hx).
  apply M_bind_inv in Hx as ([] & b6 & H6 & Hx). rewrite emit_eq_ in H6. injection H6 as <-.
  apply M_bind_inv in Hx as ([] & b7 & [_ ->]%resolve_inv & Hx). rewrite emit_eq_ in Hx. injection Hx as Hx.
  exists bW, bE. split; [exact HW|]. split; [exact HE|]. split; [lia|].
  pose proof (extends_len _ _ (proj1 (grows_NW select table outputs resolver Hctx Hw bO bW bE Hwf HW HE))) as L1.
  pose proof (extends_len _ _ (proj1 (grows_AE select table outputs resolver Hctx Hw Ho bO bW bE Hwf HW HE))) as L2.
  pose proof (extends_len _ _ (proj1 (grows_EL select table outputs resolver Hctx Hw Ho lreg oreg bO bW bE Hwf HW HE))) as L3.
  change (zlen (insts (bN bO))) with (zlen (insts (bR bO))) in L1. change (zlen (insts (bA outputs bW))) with (zlen (insts bW)) in L2.
  assert (cur_addr_of (bR bO) = zlen (insts (bR bO))) as Hcur.
  { unfold cur_addr_of. apply i32_id. pose proof (zlen_nonneg (insts (bR bO))). rewrite <- Hx, zlen_push in Hsize.
    cbn [insts bind_label set_label_addr] in Hsize. rewrite zlen_push in Hsize. cbn [insts bind_label set_label_addr] in Hsize.
    change (zlen (insts (bL outputs lreg oreg bO bW bE)) + 1 + 1 < 2 ^ 31) in Hsize. lia. }
  rewrite Hcur in Hx. symmetry. exact Hx.
Qed.
Lemma finish_loop_length b fs counts l l' : finish_loop b fs counts l = Ok l' -> zlen l' = zlen l.
Proof.
  revert counts l. induction fs as [|[j lab] fs IH]; intros counts l Hx; [by injection Hx as <-|].
  apply finish_loop_cons in Hx as (t & f & l1 & n & _ & Hu & Hx & _). rewrite (IH _ _ Hx).
  apply update_at_ok in Hu as (_ & x & _ & ->). unfold zlen. by rewrite length_insert.
Qed.
Lemma build_around_inv body P : build (around body true) = Ok P ->
  exists bB, body bI = (Ok tt, bB) /\ finish (around_code bB) = Ok P.
Proof.
  unfold build. destruct (around body true ProgramBuilder_new) as [[[]|e|] fb] eqn:Hx; intros Hfin; try done.
  unfold around in Hx. rewrite (M_bind_ok _ _ _ _ _ (new_label_eq ProgramBuilder_new)) in Hx.
  apply M_bind_inv in Hx as ([] & b1 & [= <-] & Hx). change (set_fixups _ _) with bI in Hx.
  rewrite (M_bind_ok cur_addr _ bI 1 bI eq_refl) in Hx. apply M_bind_inv in Hx as ([] & bB & HB & Hx).
  apply M_bind_inv in Hx as ([] & b2 & [_ ->]%resolve_inv & Hx). apply M_bind_inv in Hx as ([] & b3 & H3 & Hx).
  rewrite emit_eq_ in H3. injection H3 as <-. rewrite emit_eq_ in Hx. injection Hx as <-. by exists bB.
Qed.
Lemma finish_size fb P : finish fb = Ok P -> zlen (instructions P) = zlen (insts fb).
Proof. unfold finish. intros Hx. apply bind_ok in Hx as (l & Hl & [= <-]). cbn. by apply finish_loop_length in Hl. Qed.

(** ** The theorem *)

(** What is asked of a query: one table with rowids, no DISTINCT, no ORDER BY,
    expressions that the compiler of expressions is proved correct for. *)
Record plain_scan (select : SelectStmt) (table : Table) (outputs : Outputs) (resolver : option SubqueryResolver) : Prop := {
  ps_table : single_table (scan_ctx table resolver None);
  ps_rowid : t_without_rowid table = false;
  ps_distinct : s_distinct select = false;
  ps_order : s_order_by select = [];
  ps_where : from_option (condition (scan_ctx table resolver None) (fun _ => False)) True (s_where_clause select);
  ps_outputs : Forall (supported (fun _ => False)) (output_exprs outputs);
  ps_width : zlen outputs < 2 ^ 31 }.

(** LIMIT and OFFSET as [eval_limit_offset] returns them. *)
Definition limit_ok (limit : option Z) : Prop := from_option (fun n => 0 <= n < 2 ^ 63) True limit.

Lemma scan_of_halt enc bB P rctx st st' : bB = push (Instruction_new Opcode.Halt 0 0 0) bI -> finish (around_code bB) = Ok P ->
  zlen (instructions P) < 2 ^ 31 -> begin_read st = (Ok tt, st') -> view im st' ->
  answers (Vdbe_new P true enc rctx, st) [].
Proof.
  intros -> Hfin Hsize Hb V. rewrite (finish_size _ _ Hfin) in Hsize. set (bB := push _ bI) in *.
  assert (grows bI bB) as HI by (apply grows_push, grows_I). pose proof (grows_trans _ _ _ grows_I HI) as HG.
  pose proof (boot enc (around_code bB) P Hfin Hsize bB rctx st st' HG eq_refl Hb HI) as Hs.
  pose proof (ready_new enc P rctx) as Hr. assert (ready P enc (v_set_pc 1 (Vdbe_new P true enc rctx))) as Hr1 by (by destruct Hr).
  assert (extends bB (around_code bB)) as He.
  { etrans; [apply (extends_bind_label 0 bB), (fresh_label_unbound ProgramBuilder_new bB HG)|].
    etrans; [apply extends_push|]. apply extends_push. }
  pose proof (exec_at enc (around_code bB) P Hfin bI (Instruction_new Opcode.Halt 0 0 0) _ st' ltac:(apply grows_I) He Hr1 eq_refl) as Hx.
  rewrite (halt_inst P enc _ st' Hr1) in Hx. destruct (delivers_end drain bfuel (Vdbe_new P true enc rctx, st) _ _ (rdy_running _ _ _ Hr) Hs Hx) as [m Hm].
  by eexists _, m.
Qed.

Lemma u32_i32 x : 0 <= x < 2 ^ 32 -> u32 (i32 x) = x.
Proof.
  intros Hx. transitivity (x mod 2 ^ 32); [by apply sext_unsigned|by apply Z.mod_small].
Qed.
Lemma scan_of_rows select table outputs resolver limit offset enc bB P rctx st st' root pgs rows decoded ans :
  plain_scan select table outputs resolver -> limit <> Some 0 -> limit_ok limit -> 0 <= offset < 2 ^ 63 ->
  scan_body select table outputs limit offset resolver None bI = (Ok tt, bB) -> finish (around_code bB) = Ok P ->
  zlen (instructions P) < 2 ^ 31 -> begin_read st = (Ok tt, st') -> view im st' ->
  t_rootpage table = root -> table_rep im us D root pgs rows -> (D + length pgs < bfuel)%nat ->
  Forall2 (row_decodes enc) rows decoded -> selected select (scan_ctx table resolver None) outputs decoded = Ok ans ->
  answers (Vdbe_new P true enc rctx, st) (window limit offset ans).
Proof.
  intros [Hctx Hrowid Hdist Hord Hw Ho Hn] Hl Hlim Hoff Hx Hfin Hsize Hb V Hroot [HT _] Hf Hdec Hans.
  rewrite (finish_size _ _ Hfin) in Hsize. unfold scan_body in Hx. rewrite bool_decide_false in Hx by done.
  apply M_bind_inv in Hx as ([lreg oreg] & bC & HC & Hx). apply M_bind_inv in Hx as ([] & bO & HO & Hx).
  rewrite Hord in Hx. cbn [is_nil] in Hx. rewrite i32_id in Hx by (pose proof (zlen_nonneg outputs); lia).
  assert (wf_builder bI) as HwI by apply grows_I.
  destruct (counters_regs limit offset bI lreg oreg bC HC HwI ltac:(done)) as (GC & Hdiff & Hregs & Hlr & Hor).
  destruct (open_inv table bC bO Hrowid HO ltac:(apply GC)) as (b1 & G1 & Hi1 & Hn1 & ->).
  set (io := mkInstruction Opcode.OpenRead 0 _ 0 _ 0) in *. set (bO := push io b1) in *.
  assert (wf_builder bO) as HwO by (apply wf_push, G1).
  assert (grows bI bO) as GO by (eapply grows_trans; [exact GC|]; eapply grows_trans; [exact G1|]; apply grows_push, G1).
  assert (zlen (insts bB) < 2 ^ 31) as HsB.
  { unfold around_code in Hsize. rewrite !zlen_push in Hsize. cbn [insts bind_label set_label_addr] in Hsize. lia. }
  destruct (unordered_inv select table outputs resolver lreg oreg bO bB Hdist Hctx Hw Ho HwO HsB Hx) as (bW & bE & HW & HE & Hres & HbB).
  pose proof (grows_H select table outputs resolver Hctx Hw Ho lreg oreg bO bW bE HwO HW HE) as GH. rewrite <- HbB in GH.
  pose proof (grows_trans _ _ _ GO GH) as HI. pose proof (grows_trans _ _ _ grows_I HI) as HG.
  set (fb := around_code bB) in *.
  assert (extends bB fb) as HeB.
  { etrans; [apply (extends_bind_label 0 bB), (fresh_label_unbound ProgramBuilder_new bB HG)|].
    etrans; [apply extends_push|]. apply extends_push. }
  assert (extends bO fb) as HeO by (etrans; [apply GH|exact HeB]).
  assert (extends bC fb) as HeC by (etrans; [apply G1|]; etrans; [apply extends_push|exact HeO]).
  pose proof (boot enc fb P Hfin Hsize bB rctx st st' HG eq_refl Hb HI) as Hs0.
  pose proof (ready_new enc P rctx) as Hr. set (vn := Vdbe_new P true enc rctx) in *.
  set (v0 := v_set_pc 1 vn) in *. assert (ready P enc v0) as Hr0 by (by destruct Hr).
  destruct (counters_run enc fb P Hfin limit offset bI lreg oreg bC v0 st' HC HwI ltac:(done) HeC Hr0 eq_refl)
    as (v1 & Hs1 & Hr1 & Hpc1 & Hq1 & Hk1).
  (* the cursor *)
  assert (v_pc v1 = zlen (insts b1)) as Hpcb by (by rewrite Hpc1, Hi1).
  pose proof (exec_at enc fb P Hfin b1 io v1 st' ltac:(apply G1) HeO Hr1 Hpcb) as Hx2. unfold io in Hx2.
  rewrite (open_inst 0 _ _ v1 st' (rdy_open _ _ _ Hr1) ltac:(lia)) in Hx2.
  assert (page_ok (im_count im) root) as Hok.
  { apply table_at_pages in HT as [Hok Hin]. rewrite Forall_forall in Hok. by apply Hok. }
  destruct (rd_count im st' V) as [Hcount _]. destruct (rd_params im st' V) as [_ Hus].
  rewrite Hroot, u32_i32 in Hx2 by (destruct Hok; lia). set (v2 := opened 0 root (fst st') v1) in *.
  assert (ready P enc v2) as Hr2 by (by apply opened_ready).
  assert (v_pc v2 = zlen (insts bO)) as Hpc2 by (unfold bO; rewrite zlen_push; unfold v2; cbn; lia).
  assert (extends (bH outputs lreg oreg bO bW bE) fb) as HeH by (by rewrite <- HbB).
  assert (extends (bR bO) fb) as HeR by (by apply (ext_R select table outputs resolver fb Hctx Hw Ho lreg oreg bO bW bE)).
  destruct (exec_jump_at enc fb P Hfin (push_label bO) (Instruction_new Opcode.Rewind 0 0 0) (zlen (label_addr bO)) v2 st')
    as (a & Ha & Hx3); [done|done|done|done|].
  destruct (rewind_inst 0 a v2 st' _ root _ _ pgs rows (opened_cursor 0 root (fst st') v1 ltac:(lia)) V HT eq_refl Hus Hf)
    as ([v3 st3] & Hx3' & Hfr3 & Hregs3 & Hd3 & Hpc3 & V3 & c & n & Hc3 & Hs3 & Hn3).
  change (with_p2 a (Instruction_new Opcode.Rewind 0 0 0)) with (Instruction_new Opcode.Rewind 0 a 0) in Hx3. rewrite Hx3' in Hx3.
  (* the loop *)
  pose proof (grows_regs _ _ GC) as Hreg0. change (next_reg bI) with 1 in Hreg0.
  assert (next_reg bO = next_reg bC) as HnO by exact Hn1.
  assert (forall left skip, pre (kept_prot (fun _ => False) (counters lreg oreg left skip)) bO) as Hprot.
  { intros left skip. split_and!; [done|lia|]. intros r [[]|[x Hxr]]. rewrite HnO. apply Hregs.
    apply counters_lookup in Hxr as [[? _]|[? _]]; tauto. }
  assert (positive limit = limit) as Hpos.
  { unfold positive. destruct limit as [l|]; [|done]. cbn in Hlim. destruct (Z.gtb_spec l 0); [done|]. destruct Hl. f_equal. lia. }
  rewrite Hpos in Hk1, Hlr.
  assert (0 <= next_reg bW /\ next_reg bW + zlen outputs < 2 ^ 31) as Hres'.
  { split; [|done]. pose proof (grows_regs _ _ (grows_OW select table outputs resolver Hctx Hw bO bW bE HwO HW HE)). lia. }
  assert (counted lreg oreg limit offset) as Hcnt.
  { clear - Hlr Hor Hlim Hoff Hl. split.
    - destruct lreg, limit as [l|]; try done.
      + cbn in Hlim. assert (l <> 0) by congruence. lia.
      + by destruct Hlr as [[? ?] _].
      + by destruct Hlr as [_ [? ?]].
    - destruct oreg; [done|]. destruct (Z_lt_dec 0 offset) as [Hlt|]; [by apply Hor in Hlt as [? ?]|lia]. }
  apply (answers_steps (vn, st) (v3, st3)); [apply Hr|by eapply ready_frame|..].
  { etrans; [exact Hs0|]. etrans; [exact Hs1|]. eapply rtc_l; [exact Hx2|]. apply rtc_once. exact Hx3. }
  apply (scan_loop select table outputs resolver enc fb P Hfin Hsize Hctx Hrowid Hw Ho lreg oreg Hdiff bO bW bE HwO Hprot HW HE HeH
    Hres' (length pgs) Hf rows decoded limit offset (v3, st3) ans); [|done..].
  split; [|done]. split_and!; [by eapply ready_frame| |done| |by exists c, n].
  - rewrite Hpc3. destruct rows.
    + by apply (at_end select table outputs resolver fb Hsize Hctx Hw Ho lreg oreg bO bW bE).
    + rewrite Hpc2. unfold bR. rewrite zlen_push_jump. done.
  - intros r x Hxr. rewrite Hregs3. by apply Hk1.
Qed.
End Scan.

(** A pager that has every page of the database in its cache. *)
Section Warm.
Context {E F : Type} `{VfsOps E F} (ps us : Z) (Hsizes : 512 <= ps <= 65536 /\ 480 <= us <= ps).
Definition warm (im : Image) (s : Pager F * (Proc * E)) : Prop :=
  pg_page_size (fst s) = ps /\ pg_usable_size (fst s) = us /\
  1 <= im_count im < 2 ^ 32 /\ page_count_of (fst s) = im_count im /\
  forall g, page_ok (im_count im) g -> overlay (fst s) g = Some (im_page im g) /\ zlen (im_page im g) = ps.
Lemma warm_reader : PageReader ps us warm (fun _ => False).
Proof.
  constructor; [done|by intros im s (? & ? & _)|by intros im s (_ & _ & ? & ? & _)|intros im s g (_ & _ & _ & _ & Hp) Hg; by apply Hp|].
  intros im s g V Hg. pose proof V as (_ & _ & _ & Hc & Hp). destruct (Hp g Hg) as [Hov _]. destruct s as [p w].
  unfold run, get_page. rewrite (M_bind_ok (gets id) _ (p, w) p (p, w) eq_refl). cbn [fst] in Hc, Hov. unfold page_ok in Hg. rewrite Hc.
  destruct (Z.eqb_spec g 0); [lia|]. destruct (Z.gtb_spec g (im_count im)); [lia|]. by rewrite Hov.
Qed.
End Warm.

Section Query.
Context {E F : Type} `{VfsOps E F} `{SqlFunctions} `{SubqueryCodegen}.
Context (drain : gmap Z bytes -> list (Z * bytes)) (bfuel : nat).
Context {ps us : Z} {view : Image -> Pager F * (Proc * E) -> Prop} `{!PageReader ps us view (fun _ => False)}.

End Query.

(** *** A query

    [SELECT b, a * 2 FROM t WHERE a > 5 LIMIT 1 OFFSET 1]
    on [(1: 3, 'x'), (2: 10, 'y'), (4: 7, 'z'), (9: NULL, 'w')]. *)
Module Sample.
Import Rows.Sample.
Definition table : Table :=
  mkTable (bytes_of "t") 2 [column "a" AffInteger Binary; column "b" AffText Binary] None false [] false [].
Definition decoded : list (Z * list Value) :=
  [(1, [Int 3; Text (bytes_of "x")]); (2, [Int 10; Text (bytes_of "y")]);
   (4, [Int 7; Text (bytes_of "z")]); (9, [Null; Text (bytes_of "w")])].
Definition rows : list row := (fun r => (fst r, encode_record (snd r))) <$> decoded.
Definition cells : list bytes := (fun r => cell_bytes 512 r 0) <$> rows.
Definition leaf_page : bytes :=
  match write_page_cells (zrep 512 0) 0 LeafTable None (enumerate_u16 cells) with Ok b => b | _ => [] end.
Definition image : Image := file_image 512 2 (Transaction.Sample.page1 ++ leaf_page).
Definition pager : Pager nat :=
  mkPager "db" 1%nat 512 512 (fresh_header 512) 2 {[1 := im_page image 1; 2 := im_page image 2]} ∅ None [] None.
Definition state (fs : MemVfs) : Pager nat * (Proc * MemVfs) := (pager, (mkProc 7 0 0, fs)).

Definition where_ : Expr := E_Binary BinaryOp.Gt (col "a") (E_Literal (Literal.Integer 5)).
Definition double_a : Expr := E_Binary BinaryOp.Mul (col "a") (E_Literal (Literal.Integer 2)).
Definition select : SelectStmt :=
  mkSelect false [RCol_Expr (col "b") None; RCol_Expr double_a None] [TJ_Table (mkTableRef None (bytes_of "t") None None None)]
    (Some where_) [] None [] [] (Some (E_Literal (Literal.Integer 1))) (Some (E_Literal (Literal.Integer 1))) None [] [].
Definition outputs : Outputs := [(col "b", bytes_of "b"); (double_a, bytes_of "a * 2")].
Definition program : Program :=
  match compile_scan select table outputs (Some 1) 1 None None with Ok p => p | _ => mkProgram [] 0 0 0 end.

Definition vfs_shared : MemVfs := snd (snd (snd (begin_read (state Tables.Sample.vfs)))).
Lemma compiled : compile_scan select table outputs (Some 1) 1 None None = Ok program.
Proof. by vm_compute. Qed.
Lemma plain : plain_scan select table outputs None.
Proof.
  split; [by constructor|done..| | |done].
  - apply C_Value. repeat constructor.
  - repeat constructor.
Qed.
Lemma rows_ok : Forall row_ok rows.
Proof. apply Forall_fmap. do 4 (constructor; [split; [done|split; [by repeat constructor|done]]|]). constructor. Qed.
Lemma fitting_cells im us rs : Forall row_ok rs -> Forall (fun r => snd (leaf_split us (snd r)) = false) rs ->
  Forall3 (cell_rep im us) ((fun r => cell_bytes us r 0) <$> rs) rs ((fun _ => []) <$> rs).
Proof.
  induction 1 as [|r rs Hr _ IH]; intros Hs; [constructor|]. apply Forall_cons in Hs as [Hs Hall].
  constructor; [|by apply IH]. exists 0. split; [done|]. unfold payload_at. by rewrite Hs.
Qed.
Lemma leaf : leaf_at image 512 2 rows [[]; []; []; []].
Proof.
  exists (512 - total_len cells), cells.
  assert (im_page image 2 = leaf_page) as -> by (by vm_compute).
  destruct (write_page_cells_run (zrep 512 0) 0 LeafTable None (enumerate_u16 cells)) as (page & Hw & Hlen & R & _).
  { apply bytes_ok_zrep. unfold byte_ok. lia. }
  1-3: by vm_compute.
  { rewrite snd_enumerate. apply Forall_fmap, Forall_fmap. repeat constructor. }
  { rewrite snd_enumerate. apply Forall_fmap. eapply Forall_impl; [apply rows_ok|]. intros r ?. by apply cell_bytes_ok. }
  { done. }
  { by vm_compute. }
  rewrite snd_enumerate in R. unfold leaf_page. rewrite Hw. split; [exact R|]. rewrite Hlen. split; [by vm_compute|].
  apply (fitting_cells image 512 rows); [exact rows_ok|]. by apply (bool_decide_unpack _); vm_compute.
Qed.
Lemma table_at_2 : table_rep image 512 0 2 [2] rows.
Proof.
  split; [|by repeat constructor; set_solver]. split; [by split|]. left. exists [[]; []; []; []].
  split; [exact leaf|]. split; [done|]. split; by repeat constructor.
Qed.
Lemma shown fs : warm 512 512 image (state fs).
Proof.
  split_and!; [done..|]. intros g [H1 H2]. assert (g = 1 \/ g = 2) as [-> | ->] by (cbn in H2; lia); by vm_compute.
Qed.
End Sample.

